(* ===== verification/_CoqProject ===== *)
-Q . S2P
Prelude.v
GoText.v
Worklist.v
GoJson.v
Delivery.v
Domain.v
Status.v
Planning.v
Handlers.v
DeviceAuth.v
Collections.v
Authorization.v
ExternalSystems.v
Reservation.v
WorkerAuth.v
Composition.v
Conflicts.v
Scenarios.v
Pins.v
WorkerJobs.v
Publications.v
Registry.v
Restoration.v
Checks.v
WorkerChecks.v
Retention.v
RetentionRoots.v
RetentionRecovery.v
RetentionReport.v
RetentionSafety.v
RetentionKept.v
RetentionProduction.v
RetentionClosure.v
WorkerProtocol.v
External.v
Candidates.v
Activation.v
FlowGuards.v
RegistryRefresh.v
Effects.v
Saving.v
SourceRetention.v
SourceChecks.v
DevRuntime.v
ActivationWorker.v
Baseline.v
RuntimeWorker.v
NativeWorker.v
Operations.v
OperationSafety.v
Executions.v
DispatchOnce.v
GitOpsIntent.v
Fairness.v
Schema.v
Documents.v
Stores.v
StoreRefinement.v
Entities.v
Commands.v
Flow.v
Planner.v
FlowSafety.v
Interleaving.v
FlowWorker.v
BaselineWorker.v
FlowIntent.v
EvidenceSafety.v
FlowRecords.v
MainAdmission.v
Samples.v
WorkerWitnesses.v
RestorationWitnesses.v
RetentionWitnesses.v
OperationWitnesses.v
StoreWitnesses.v
FlowWitnesses.v
FlowWorkerWitnesses.v
EvidenceWitnesses.v
Witnesses.v
