(* ===== verification/Prelude.v ===== *)
(** * A verification of the development control plane

    The repository is a control plane for software development by agents.
    Products own repositories, applications and environments; features are cut
    into integrations with dependencies; gates and checks hold them back until
    there is evidence; compositions select which captured revisions run
    together in an environment; a candidate reserves a Dev environment before
    it is activated there.  All of it is one value, [domain.State], that a
    store loads and saves in transactions, and one function,
    [applyAuthorizedOrigin] of src/internal/application/service.go, that takes
    a state and a command and returns the next state or an error.  What a
    command queues, a worker of the control plane carries out later: [Tick] of
    src/internal/application/worker.go claims one operation, talks to providers
    between transactions and saves what it learned.  This development models
    both functions, the components they call, and the stores below them.

    ** How the program is modelled

    - A command is a function from the state to a [res]: [Ok] with the new
      state and the value answered, or [Err] with the error the source returns,
      its format string and arguments.  [Store.Update] commits the state only
      when no error is returned, so an error has no state.  A nil dereference is
      the error [ErrPanic].
    - A struct is a record with the fields of the source, [T.F] being [T_F]; a
      pointer is an [option], a slice a [list], a map a [gmap].  The state is
      decoded afresh for every transaction, and an update of a record found in
      a slice is [update_first]: the source copies the struct, changes the copy
      and stores it back, or assigns through the pointer to the slice element,
      and the slices and maps a copy shares with the original are only reached
      again through the place that is overwritten.
    - Integers are [Z].  Where the width matters the wrap is written out
      ([wrap_uint64], [wrap_int64]); a [time.Time] is a number of nanoseconds.
    - Loops are recursions on the slice they range over ([each], [foldM],
      [find_first], [find_last]).  Three recursions are not structural and take
      fuel.  For the dependency search [visit] (Planning) the fuel [visit_fuel]
      is one more than the number of integrations; [visit_fuel_bound] shows that
      this exceeds the number of nodes not yet seen and [visit_fuel_enough] that
      the search always returns within it.  For the work-list [search]
      (Worklist) the fuel counts the edges that can still be enqueued, and
      [search_total] shows that it always returns.  The walk over the ancestors
      of a composition ([walk_lineage], SourceRetention) is bounded by the code
      itself, by the number of operations; [provenance_decided] shows that the
      bound never changes the verdict.
    - [reflect.DeepEqual] on structs is equality of records.  It also tells a
      nil slice from an empty one, which the lists of the model do not; both
      decode from the same JSON where the field is omitted when empty.
    - What the source reads from its surroundings is a class: [Runtime] (case
      mapping of non-ASCII runes), [World] (fresh identifiers and the clock, by
      call site and iteration), [MapOrder] (the order in which [range] visits a
      map), [Hashing] (SHA-256 of a JSON encoding), [Encoding] (the length of
      one), [NetURL] and [URLs] (the parsers of [net/url] and [net]), [TimeLayout] (the parser of RFC 3339
      times).
      [Operator] is the configuration of workers the process was started with,
      [Capabilities] the interfaces its provider implements, [Observers] its
      configured runtime observers, [Analyst] whether
      an intelligence service is configured, [Json] with [JsonLaws] the package
      [encoding/json] on the records of the state, [Collation] the order of
      texts in the database.
    - An interface between components of the repository is a class as well:
      [RestorationEvidence] is the interface by which Reservation is proved
      without Restoration, whose instance [restoration_evidence] fills it in;
      [guarded_candidates] (FlowGuards) fills in [MainCandidates], and
      [guarded_policy] the fence of managed jobs in [WorkerPolicy].
      [compose_lease] (SourceRetention) fills in [ComposeLease], the fence of a
      composition's worker.  [Subsystems] is what the command handler asks of
      the flow; Planner is proved against its laws [SubsystemLaws], which
      [flow_laws] (FlowSafety) proves of [flow_subsystems] (Flow).
      [OtherSteps] is what [Tick] asks of the steps it hands over to:
      [flow_steps] (FlowWorker) fills in those of compositions and releases,
      [evidence_steps] (BaselineWorker) those of captures and verifications, and
      both keep the rest open; the rest stands for code of the repository that
      is not modelled.  [Baselines] is what the guard of an activation asks of a
      baseline, [captured_baselines] (Baseline) fills it in.  Samples has an
      instance of every class.
    - A worker step is a tree of effects ([Prog], Effects): reading the store,
      committing a transaction, drawing the clock, asking a provider.  Any
      effect can fail, and one that committed may be reported as failed; the
      theorems quantify over all replies, so over every crash and lost answer.

    ** The files

    - Prelude: Go's basic values, errors and the error monad, searches and
      updates of slices, record update, automation and the lemmas they share.
    - GoText, GoJson: package [strings], the regular expressions of the source,
      and the rules of [encoding/json] by which command data reach a struct
      ([decode], service.go).
    - Worklist: sorted sets of strings, indexes of slices by a key, and the
      breadth-first search the registry code uses.
    - Delivery, Domain: the structs of src/internal/delivery and
      src/internal/domain.
    - Status: the status catalog and its transitions (domain/status.go), the
      repository purposes (domain/repositories.go), the store's status checks.
    - Planning: lookups, gate results, readiness and the validation of
      integrations (service.go).  The predicates [GatePasses] and [Ready] are
      the specification of what the code computes.
    - Handlers: the shape [Handler] of a command handler and the JSON
      descriptions of the structs that commands decode.
    - Collections: code that works on all collections of the state.
    - Entities: the commands on products, features, integrations, memories,
      gates, checks, findings, environments and releases, one handler for each
      case of the switch of service.go.
    - ExternalSystems: application/external_systems.go.
    - Reservation: the selection token of an environment and its exclusive
      reservation (application/dev_reservation.go, flow_guard.go).
    - Composition, Conflicts, Scenarios: application/composition.go,
      composition_conflict.go and scenarios.go.
    - Pins: artifact pins and product deletion.
    - DeviceAuth: package auth, the sign-in of humans, the device codes and the
      credentials of agents.
    - Authorization: application/authorization.go, who may read and command what.
    - WorkerAuth: package workerconfig, the recipes and credentials of workers.
    - WorkerJobs, WorkerProtocol: application/worker_execution.go, jobs, their
      attempts and the requests of workers; the jobs of native deliveries
      (native_delivery.go, native_publication.go, registry_inventory.go) as far
      as this protocol reads them.
    - Registry: domain/registry_inventory.go, registry_image_content.go and the
      freshness, reachability and choice of inventories of
      registry_retention.go: what an observation of a registry proves.
    - Restoration: domain/dev_runtime_validation.go and the part of
      dev_restoration.go that judges plans, availability and the release of a
      restored reservation.
    - Checks, WorkerChecks: application/checks.go, the check runs that publish
      a job's progress, and domain/worker_checks.go, what the store accepts of
      them.
    - Retention, RetentionRoots, RetentionRecovery, RetentionReport:
      domain/retention.go, dev_baseline_retention.go, the roots of
      dev_restoration.go and the rest of registry_retention.go: which images
      must be kept, and why.  The collector of the source is a record that its
      methods pass on.  RetentionSafety has the order [Grows] in which the
      collector only ever learns; RetentionKept has what the loop over the artifacts has
      collected, and with RetentionProduction and RetentionClosure proves the
      promises of the report.
    - Publications: application/publications.go, and the commands of
      managed_branch.go and retention.go.
    - External: application/external.go and existing_artifact.go, connections,
      imports, builds, targets and the admission of deployments.
    - Candidates, Activation, FlowGuards: the guards of main_candidate.go,
      dev_activation.go, dev_activation_groups.go, worker_flow.go, flow_guard.go
      and native_delivery.go: what must still hold when an operation is about
      to have an effect.
    - Effects: worker steps as programs, what they may meet ([runs]), what they
      do with given replies ([run]), and the protocols they keep ([wp]).
    - Saving: [save] of worker.go, the one transaction by which a step is
      recorded, with its fences and its intents.
    - SourceRetention: application/source_retention.go up to the lease: how a
      composition pins the revisions it merges, and who asked for it.
    - Executions: what a step has seen, committed and been answered in any of
      its executions, and the rules by which a watched call must be entitled
      ([watch_rule]) and by which a step comes to know things ([learns]).
    - SourceChecks, ActivationWorker, NativeWorker, Operations: the steps of
      worker.go, gitops_pr.go, dev_activation_gitops.go, native_delivery.go and
      managed_branch.go, up to [Tick] itself.
    - OperationSafety: what a step keeps and is entitled to; DispatchOnce,
      GitOpsIntent and Fairness prove what follows for any number of workers;
      Interleaving discharges against the real commands what they and
      WorkerProtocol assume of the rest of the application.
    - Schema, Documents, Stores: package persistence, the collections of a
      state, their documents and index, and the updates of both stores;
      StoreRefinement proves that they keep a state.
    - Commands: [applyAuthorized], its guards, the resolution of the scope, the
      dispatch and the audit.
    - Flow: application/flow.go and feature_patch.go, the commands that compose
      an environment, prepare and promote a release, patch a selection, open a
      hotfix and record what runs.
    - FlowWorker: the worker steps of compositions and releases, [tickFlow] of
      worker_flow.go with flow_source_validation.go, the worker side of
      source_retention.go and the intents of dev_reservation.go.  FlowIntent
      proves what such a step may write to a source, FlowRecords what its last
      transactions record.
    - MainAdmission: the request for a main candidate, its preparation and its
      admission (application/main_candidate.go).
    - RegistryRefresh: who may observe a registry, the job that asks for an
      observation and the command that queues one (workerconfig/observation.go,
      application/registry_inventory.go).
    - DevRuntime, Baseline, RuntimeWorker, BaselineWorker: the evidence about a
      Dev environment, runtime verifications of a candidate and captures of a
      baseline (application/dev_runtime.go, dev_baseline.go): their admission,
      what they may still claim, and their worker steps
      (dev_runtime_worker.go, dev_baseline_worker.go).  EvidenceSafety proves
      what such a step has been told when it records a success.
    - Planner: the refinement of [applyAuthorized] by abstract steps on the
      plan, and the invariants that follow.
    - FlowSafety: the laws of the flow, and what its commands leave behind.
    - Interleaving: what an accepted command does to operations, jobs and
      attempts that are being worked on ([commanded_work]), and with it the
      theorems that hold whatever commands are accepted in between: a build is
      dispatched once, a feature update happens once, grants are bounded.
    - Samples, Witnesses, WorkerWitnesses, RestorationWitnesses,
      RetentionWitnesses, OperationWitnesses, StoreWitnesses, FlowWitnesses,
      FlowWorkerWitnesses, EvidenceWitnesses: concrete runs, two places where the code leaves its
      own rules, and every theorem applied to a run.

    ** What the theorems show

    - The plan.  [PlanStep] (Planner) is an abstract transition system on the
      features and integrations; every accepted command, those of the flow
      included, is one of its steps, as long as its data keys are ASCII
      ([AsciiCommand]; [long_s_key_sets_status] in Witnesses shows that a key
      that only folds to the name of a field steps outside) and the generator
      draws an identifier that is not in use.  On the steps: the dependency
      graph stays acyclic, released integrations never change, readiness is
      only reached through the readiness check, completed features have no
      unfinished work.
    - The judgements.  Gate results, readiness, the dependency search and the
      readiness of a candidate are equivalent to declarative specifications;
      the dependency search terminates with the exact answer on any graph.
    - The environments.  An accepted reservation fences its environment against
      every other command; a retry is idempotent; a release settles its own
      reservation; moving an environment clears its selection.
    - The compositions.  What is planned is well formed, what is assembled is
      faithful to the captured revisions.  Over any history of accepted conflict
      commands a resolution was given by the owner of a claim and is only
      verified on evidence for its exact commit.
    - The flow.  What a command queues is frozen as it was configured then, for
      reviewed DEV or TEST targets only, with every head it merges pinned; it
      is born with the lineage its worker will ask for, which is decided
      exactly; a feature update happens once for a key while its product
      exists, and a candidate is promoted once, as it was built.  Its worker makes at most one write to a
      source in a step, announced just before, of what the operation froze, and
      composes only sources whose whole history it has compared; it queues one
      deployment for each component, of the commit composed or the artifact
      built, and records a release only of confirmed outputs.  A main candidate
      is admitted once for a key, on merges the provider has shown.
    - The audit.  Every accepted command was guarded and is on the trail.
    - Access.  An agent holds what one signed-in human approved and nothing
      after its revocation; what a member may command and read is characterised
      exactly; a worker principal holds one live credential of its own.
    - Workers.  The protocol refines an abstract system of leases ([LeaseStep]):
      grants are bounded and fenced, whatever commands are accepted and jobs
      queued meanwhile; a request acts only under the current lease and, late,
      leaves nothing but the recovery of the job; ends and reports are final.  A check run is created at most once,
      uncertain writes are only read back, at most 64 calls are made, and
      success is only published when it was earned; what is written the store
      accepts.
    - Registries.  Reachability is exact on every graph; a root a validated
      graph calls complete has a present closure within the depth limit, whose
      edges join what their kinds may join; a content proof has a verified
      manifest for exactly the images of its root, within the limits, and means
      that the image can be pulled; the hash of a graph does not depend on the
      order of the account.
    - Restoration.  A reservation is only released as restored when every role
      of every original component was observed running its original image and
      the image was found available, when it was verified and again when the
      reservation is released.
    - Evidence.  A runtime verification and a capture of a baseline make no
      call that writes; they end as verified or captured only when every
      manifest, revision and role was read in that step, the manifests and
      revisions again after the last role, unchanged, every replica was running
      exactly the image expected, and, for a capture, every image was found
      available and no activation had been admitted.
    - Retention.  An image without protection has enough newer siblings; what
      is pinned, in flight, in production or protected by another product is
      protected, and so is all that an observed graph says it contains; the
      report names each image once and never permits a deletion.

    - Deliveries.  Whatever workers claim, crash, lose or repeat, the build of
      an operation is dispatched at most once, and nothing is written to GitOps
      by the step of a deployment or an activation but the change, or the batch
      of changes of its group, whose intent the step has committed, at the
      manifests it has read, under the fences of the environment.  A due
      operation is claimed once the claims outnumber the operations ahead of
      it: those that were, and those that got ahead in between, as operations
      of a better priority or an earlier time do.
    - Stores.  Encoding a state and decoding it gives the state; the update of
      the database is the transaction on the state it holds, and reading it
      back gives what the transaction left; the local store never loses a
      record or an event.

    ** What is not modelled

    Providers, transport, the files and the SQL server below the stores, the
    processes that run on worker machines and the web client are input and
    output.  A request ([serve], DeviceAuth) is authenticated and handled in
    one step, where the source does one after the other.  Read models (pages, graphs, resumes) compute no state.  The
    admission of activations is not modelled, nor are the admission and the
    steps of restorations, the refreshes of observed branches and runtimes, and
    intelligence patches; what the worker does for these kinds
    of operation enters through [OtherSteps]. *)

From Stdlib Require Export ZArith Lia Ascii String.
From stdpp Require Export base gmap strings list fin_maps fin_sets sorting option.

#[export] Set Primitive Projections.
#[export] Set Default Proof Using "Type".

Declare Scope go_scope.
Delimit Scope go_scope with go.

(** ** Values of Go's basic types

    [int], [int64] and [uint64] are [Z]; operations that can leave the width
    wrap explicitly with [wrap_int64] and [wrap_uint64].  A [time.Time] is the
    number of nanoseconds since the zero time, so [IsZero] is equality with 0,
    and a [time.Duration] is a number of nanoseconds. *)
Definition two64 : Z := 2 ^ 64.
Definition max_uint64 : Z := 2 ^ 64 - 1.
Definition wrap_uint64 (z : Z) : Z := z mod two64.
Definition wrap_int64 (z : Z) : Z := (z + 2 ^ 63) mod two64 - 2 ^ 63.

Definition Time := Z.
Definition IsZero (t : Time) : bool := bool_decide (t = 0%Z).
Definition Before (a b : Time) : bool := (a <? b)%Z.
Definition After (a b : Time) : bool := (b <? a)%Z.
Definition second : Z := 1000000000.
Definition minute : Z := 60 * second.
Definition hour : Z := 60 * minute.

(** Go's zero value of a type. *)
Class Zero (A : Type) := zero : A.
#[export] Instance zero_string : Zero string := EmptyString.
#[export] Instance zero_Z : Zero Z := 0%Z.
#[export] Instance zero_bool : Zero bool := false.
#[export] Instance zero_option A : Zero (option A) := None.
#[export] Instance zero_list A : Zero (list A) := [].
#[export] Instance zero_gmap A : Zero (gmap string A) := (∅ : gmap string A).

(** ** Boolean tests, written as in the source *)
Notation "x == y" := (bool_decide (x = y)) (at level 70, no associativity) : go_scope.
Notation "x != y" := (negb (bool_decide (x = y))) (at level 70, no associativity) : go_scope.
Notation "a && b" := (andb a b) : go_scope.
Notation "a || b" := (orb a b) : go_scope.
Open Scope go_scope.

(** [slices.Contains] *)
Definition contains {A} `{EqDecision A} (l : list A) (x : A) : bool := bool_decide (x ∈ l).

(** ** Errors

    The application layer wraps two sentinels, [ErrValidation] and
    [ErrNotFound]; every other failure is a plain [errors.New].  A formatted
    message is kept as its format string and the list of its arguments.
    [ErrPanic] is a nil dereference, which aborts the store transaction. *)
Inductive Error : Type :=
| ErrValidation (format : string) (args : list string)
| ErrNotFound (kind id : string)
| ErrPlain (format : string) (args : list string)
| ErrPanic.

Inductive res (A : Type) : Type :=
| Ok (a : A)
| Err (e : Error).
Arguments Ok {A} a.
Arguments Err {A} e.

#[export] Instance res_ret : MRet res := fun A a => Ok a.
#[export] Instance res_bind : MBind res :=
  fun A B f r => match r with Ok a => f a | Err e => Err e end.
#[export] Instance res_fmap : FMap res :=
  fun A B f r => match r with Ok a => Ok (f a) | Err e => Err e end.

#[export] Instance Error_eq_dec : EqDecision Error.
Proof. solve_decision. Defined.
#[export] Instance res_eq_dec A `{EqDecision A} : EqDecision (res A).
Proof. solve_decision. Defined.

Definition invalid {A} (format : string) (args : list string) : res A := Err (ErrValidation format args).
Definition missing {A} (kind id : string) : res A := Err (ErrNotFound kind id).
Definition plain {A} (format : string) : res A := Err (ErrPlain format []).
Definition is_ok {A} (r : res A) : bool := match r with Ok _ => true | Err _ => false end.

(** [if b { return err }] *)
Definition reject_if (b : bool) (e : res unit) : res unit := if b then e else Ok ().

(** [for _, x := range l { if err := f(x); err != nil { return err } }] *)
Fixpoint each {A} (f : A -> res unit) (l : list A) : res unit :=
  match l with
  | [] => Ok ()
  | x :: l => _ ← f x; each f l
  end.

(** The same loop threading an accumulator. *)
Fixpoint foldM {A B} (f : B -> A -> res B) (b : B) (l : list A) : res B :=
  match l with
  | [] => Ok b
  | x :: l => b' ← f b x; foldM f b' l
  end.

(** [for i := range l { if p(l[i]) { return &l[i] } }; return nil] *)
Fixpoint find_first {A} (p : A -> bool) (l : list A) : option A :=
  match l with
  | [] => None
  | x :: l => if p x then Some x else find_first p l
  end.

(** The same search from the end of the slice. *)
Definition find_last {A} (p : A -> bool) (l : list A) : option A := find_first p (reverse l).

(** The position of the element [find_first] finds: the pointer [&l[i]]. *)
Fixpoint find_index {A} (p : A -> bool) (l : list A) : option nat :=
  match l with
  | [] => None
  | x :: l => if p x then Some O else option_map S (find_index p l)
  end.

(** An assignment through the pointer the search returned: only the first
    match changes.  With no match the pointer is nil and the source returns
    before it assigns. *)
Fixpoint update_first {A} (p : A -> bool) (f : A -> A) (l : list A) : list A :=
  match l with
  | [] => []
  | x :: l => if p x then f x :: l else x :: update_first p f l
  end.

(** ** Record update *)
Class Setter {R T : Type} (proj : R -> T) := set_field : (T -> T) -> R -> R.
Arguments set_field {R T} proj {_} _ _.
#[export] Hint Mode Setter - - ! : typeclass_instances.

Notation "r <| f := v |>" := (set_field f (fun _ => v) r)
  (at level 1, f at next level, v at level 200, left associativity,
   format "r  <| f  :=  v |>") : go_scope.
Notation "r <| f ::= g |>" := (set_field f g r)
  (at level 1, f at next level, g at level 200, left associativity,
   format "r  <| f  ::=  g |>") : go_scope.

(** Builds the setter of a projection of a primitive record: the record is
    eta-expanded and the one component that is the projection is updated. *)
Ltac mk_setter :=
  lazymatch goal with
  | |- @Setter ?R ?T ?p =>
    let f := fresh "f" in let x := fresh "x" in let y := fresh "y" in
    intros f x; pose (y := x); destruct x;
    let b := eval cbv delta [y] in y in
    let a := eval cbn in (p b) in
    let g := eval pattern a in b in
    lazymatch g with ?h _ => let r := eval cbv beta in (h (f a)) in clear y; exact r end
  end.

(** ** Automation *)
Create HintDb go discriminated.
Create Rewrite HintDb go_rw.

(** Splits the first [match]/[if] a hypothesis is stuck on. *)
Ltac split_match_in H :=
  lazymatch type of H with
  | context [match ?x with _ => _ end] =>
    lazymatch x with
    | context [match _ with _ => _ end] => fail
    | _ => let E := fresh "E" in destruct x eqn:E
    end
  end.

Ltac inv_res :=
  repeat match goal with
  | H : Ok _ = Ok _ |- _ => injection H as H; subst
  | H : Err _ = Err _ |- _ => injection H as H; subst
  | H : Ok _ = Err _ |- _ => discriminate H
  | H : Err _ = Ok _ |- _ => discriminate H
  | H : invalid _ _ = Ok _ |- _ => discriminate H
  | H : missing _ _ = Ok _ |- _ => discriminate H
  | H : plain _ = Ok _ |- _ => discriminate H
  | H : mret _ = Ok _ |- _ => unfold mret, res_ret in H
  | H : (_, _) = (_, _) |- _ => injection H as H; subst
  | H : Some _ = Some _ |- _ => injection H as H; subst
  | H : Some _ = None |- _ => discriminate H
  | H : None = Some _ |- _ => discriminate H
  end.

(** Turns boolean guards into propositions. *)
Ltac to_prop :=
  repeat match goal with
  | H : (_ && _)%bool = true |- _ => apply andb_true_iff in H as [? ?]
  | H : (_ || _)%bool = false |- _ => apply orb_false_iff in H as [? ?]
  | H : negb _ = true |- _ => apply negb_true_iff in H
  | H : negb _ = false |- _ => apply negb_false_iff in H
  | H : bool_decide _ = true |- _ => apply bool_decide_eq_true in H
  | H : bool_decide _ = false |- _ => apply bool_decide_eq_false in H
  | H : contains _ _ = true |- _ => unfold contains in H
  | H : contains _ _ = false |- _ => unfold contains in H
  | H : IsZero _ = true |- _ => unfold IsZero in H
  | H : IsZero _ = false |- _ => unfold IsZero in H
  end.

(** ** Generic lemmas *)
Section res_lemmas.
Context {A B : Type}.

Lemma bind_Ok (r : res A) (f : A -> res B) b :
  r ≫= f = Ok b <-> exists a, r = Ok a /\ f a = Ok b.
Proof.
  destruct r; cbn; split.
  - eauto.
  - intros (a' & [= ->] & H); exact H.
  - discriminate.
  - intros (? & [=] & _).
Qed.

Lemma reject_if_Ok b e u : reject_if b e = Ok u -> e <> Ok () -> b = false.
Proof. destruct b, u; cbn; intros; congruence. Qed.

Lemma each_Ok (f : A -> res unit) l :
  each f l = Ok () <-> Forall (fun x => f x = Ok ()) l.
Proof.
  induction l as [|x l IH]; cbn; [split; auto|].
  rewrite list.Forall_cons, <- IH.
  destruct (f x) as [[]|]; cbn; split.
  - auto.
  - intros [_ H]; exact H.
  - discriminate.
  - intros [[=] _].
Qed.

Lemma each_cases (f : A -> res unit) l :
  each f l = Ok () \/ exists x e, x ∈ l /\ f x = Err e /\ each f l = Err e.
Proof.
  induction l as [|x l IH]; cbn; [auto|].
  destruct (f x) as [[]|e] eqn:E; cbn.
  - destruct IH as [?|(y & e & ? & ? & ?)]; [auto|].
    right; exists y, e; split; [right; assumption|auto].
  - right; exists x, e; split; [left|auto].
Qed.

(** An invariant of a threaded loop. *)
Lemma foldM_ind (P : B -> Prop) (f : B -> A -> res B) l b b' :
  foldM f b l = Ok b' -> P b ->
  (forall b x b', x ∈ l -> P b -> f b x = Ok b' -> P b') -> P b'.
Proof.
  revert b; induction l as [|x l IH]; cbn; intros b H Hb Hstep.
  - inv_res; assumption.
  - destruct (f b x) as [b1|] eqn:E; cbn in H; [|discriminate].
    eapply IH; [exact H| |].
    + apply (Hstep b x); [left|assumption..].
    + intros ? y ? Hy; apply Hstep; right; exact Hy.
Qed.

(** Every entry of a threaded loop that succeeds was processed. *)
Lemma foldM_elem (f : B -> A -> res B) l b b' x :
  foldM f b l = Ok b' -> x ∈ l -> exists b1 b2, f b1 x = Ok b2.
Proof.
  revert b; induction l as [|y l IH]; cbn; intros b H Hx; [inversion Hx|].
  destruct (f b y) as [b1|] eqn:E; cbn in H; [|discriminate].
  apply elem_of_cons in Hx as [->|Hx]; eauto.
Qed.
End res_lemmas.

(** A loop that appends one result for every entry. *)
Lemma foldM_collect {A B} (R : A -> B -> Prop) (f : list B -> A -> res (list B)) l acc out :
  (forall acc x acc', x ∈ l -> f acc x = Ok acc' -> exists y, acc' = acc ++ [y] /\ R x y) ->
  foldM f acc l = Ok out -> exists ys, out = acc ++ ys /\ Forall2 R l ys.
Proof.
  intros Hf. revert acc; induction l as [|x l IH]; cbn; intros acc Hx.
  { injection Hx as <-. exists []. rewrite app_nil_r. split; [reflexivity|constructor]. }
  destruct (f acc x) as [acc1|] eqn:E; cbn in Hx; [|discriminate].
  destruct (Hf _ _ _ (list_elem_of_here x l) E) as (y & -> & Hy).
  destruct (IH (fun acc y acc' Hin => Hf acc y acc' (list_elem_of_further _ _ _ Hin)) _ Hx) as (ys & -> & Hys).
  exists (y :: ys). rewrite <- app_assoc. split; [reflexivity|constructor; assumption].
Qed.

Section find_lemmas.
Context {A : Type} (p : A -> bool).

Lemma find_first_Some l x :
  find_first p l = Some x -> x ∈ l /\ p x = true.
Proof.
  induction l as [|y l IH]; cbn; [discriminate|].
  destruct (p y) eqn:E.
  - intros [= ->]; split; [left|exact E].
  - intros H; destruct (IH H) as [? ?]; split; [right|]; assumption.
Qed.

Lemma find_index_Some l i : find_index p l = Some i <->
  exists x, l !! i = Some x /\ p x = true /\ forall k y, (k < i)%nat -> l !! k = Some y -> p y = false.
Proof.
  revert i. induction l as [|y l IH]; intros i; cbn; [split; [discriminate|intros (x & Hx & _); rewrite lookup_nil in Hx; discriminate]|].
  destruct (p y) eqn:E.
  - split.
    + intros [= <-]. exists y. split; [reflexivity|]. split; [exact E|]. intros k z Hk. lia.
    + intros (x & Hx & Hp & Hk). destruct i as [|i]; [reflexivity|]. specialize (Hk O y ltac:(lia) eq_refl). congruence.
  - split.
    + intros Hi. destruct (find_index p l) as [k|]; [|discriminate]. injection Hi as <-.
      destruct (proj1 (IH k) eq_refl) as (x & Hx & Hp & Hk). exists x. split; [exact Hx|]. split; [exact Hp|].
      intros [|m] z Hlt Hz; [cbn in Hz; congruence|]. apply (Hk m); [lia|exact Hz].
    + intros (x & Hx & Hp & Hk). destruct i as [|i]; [cbn in Hx; congruence|]. cbn in Hx.
      assert (find_index p l = Some i) as ->; [|reflexivity]. apply IH. exists x. split; [exact Hx|]. split; [exact Hp|].
      intros k z Hlt Hz. apply (Hk (S k) z); [lia|exact Hz].
Qed.
Lemma find_index_first l : find_first p l = match find_index p l with Some i => l !! i | None => None end.
Proof. induction l as [|y l IH]; cbn; [reflexivity|]. destruct (p y); [reflexivity|]. rewrite IH. destruct (find_index p l); reflexivity. Qed.
Lemma find_first_None l :
  find_first p l = None <-> forall x, x ∈ l -> p x = false.
Proof.
  induction l as [|y l IH]; cbn; [split; [intros _ x Hx; inversion Hx|reflexivity]|].
  destruct (p y) eqn:E; split.
  - discriminate.
  - intros H; rewrite H in E by left; discriminate.
  - intros H x [->|Hx]%elem_of_cons; [exact E|]. apply IH; assumption.
  - intros H; apply IH; intros x Hx; apply H; right; exact Hx.
Qed.

Lemma find_first_is_Some l x :
  x ∈ l -> p x = true -> exists y, find_first p l = Some y.
Proof.
  intros Hx Hp; destruct (find_first p l) as [y|] eqn:E; [eauto|].
  rewrite find_first_None in E; rewrite E in Hp by assumption; discriminate.
Qed.

Lemma find_last_Some l x : find_last p l = Some x -> x ∈ l /\ p x = true.
Proof.
  unfold find_last; intros [Hin Hp]%find_first_Some; split; [|exact Hp].
  rewrite elem_of_reverse in Hin; exact Hin.
Qed.

Lemma find_first_app l1 l2 :
  find_first p (l1 ++ l2) =
  match find_first p l1 with Some x => Some x | None => find_first p l2 end.
Proof. induction l1 as [|x l1 IH]; cbn; [reflexivity|]. destruct (p x); auto. Qed.

Lemma length_update_first f l : length (update_first p f l) = length l.
Proof. induction l as [|x l IH]; cbn; [reflexivity|]. destruct (p x); cbn; congruence. Qed.

Lemma elem_of_update_first f l y :
  y ∈ update_first p f l -> y ∈ l \/ exists x, find_first p l = Some x /\ y = f x.
Proof.
  induction l as [|x l IH]; cbn; [intros H; inversion H|].
  destruct (p x); rewrite !elem_of_cons; (intros [->|H]; [eauto|]); [auto|].
  destruct (IH H); auto.
Qed.

Lemma find_first_update_first f l :
  (forall x, p x = true -> p (f x) = true) ->
  find_first p (update_first p f l) = f <$> find_first p l.
Proof.
  intros Hf; induction l as [|x l IH]; cbn; [reflexivity|].
  destruct (p x) eqn:E; cbn; [rewrite Hf|rewrite E]; auto.
Qed.

(** A search for something the update does not touch is unaffected. *)
Lemma find_first_update_first_other (q : A -> bool) f l :
  (forall x, p x = true -> q x = false /\ q (f x) = false) ->
  find_first q (update_first p f l) = find_first q l.
Proof.
  intros Hf; induction l as [|x l IH]; cbn; [reflexivity|].
  destruct (p x) eqn:E; cbn.
  - destruct (Hf _ E) as [-> ->]; reflexivity.
  - destruct (q x); auto.
Qed.

Lemma map_update_first {B} (g : A -> B) f l :
  (forall x, p x = true -> g (f x) = g x) ->
  map g (update_first p f l) = map g l.
Proof.
  intros Hf; induction l as [|x l IH]; cbn; [reflexivity|].
  destruct (p x) eqn:E; cbn; [rewrite Hf by exact E|rewrite IH]; reflexivity.
Qed.
End find_lemmas.

#[export] Hint Rewrite @length_update_first @find_first_app : go_rw.
#[export] Hint Resolve find_first_Some find_last_Some : go.

(** ** Lists whose entries are pairwise related *)
Section pairwise.
Context {A : Type} (R : A -> A -> Prop) `{!Symmetric R}.

Definition Pairwise (l : list A) : Prop :=
  forall i j x y, l !! i = Some x -> l !! j = Some y -> i <> j -> R x y.

Lemma update_first_insert (p : A -> bool) f l x :
  find_first p l = Some x -> exists i, l !! i = Some x /\ update_first p f l = <[i := f x]> l.
Proof using Type.
  induction l as [|y l IH]; cbn; [discriminate|].
  destruct (p y); [intros [= ->]; exists 0%nat; auto|].
  intros (i & Hi & ->)%IH; exists (S i); auto.
Qed.

Lemma pairwise_snoc l y : Pairwise l -> (forall x, x ∈ l -> R x y) -> Pairwise (l ++ [y]).
Proof using All.
  intros Hl Hy i j a b Hi Hj Hne.
  apply lookup_app_Some in Hi as [Hi|[Hi1 Hi]]; apply lookup_app_Some in Hj as [Hj|[Hj1 Hj]];
    try apply list_lookup_singleton_Some in Hi as [Hi ->]; try apply list_lookup_singleton_Some in Hj as [Hj ->].
  - eapply Hl; eassumption.
  - apply Hy. eapply list_elem_of_lookup_2, Hi.
  - symmetry; apply Hy. eapply list_elem_of_lookup_2, Hj.
  - lia.
Qed.

(** Replacing the entry a search finds. *)
Lemma pairwise_update_first (p : A -> bool) f l x :
  Pairwise l -> find_first p l = Some x ->
  (forall i j a b, l !! i = Some a -> l !! j = Some b -> p a = true -> p b = true -> i = j) ->
  (forall y, y ∈ l -> p y = false -> R y (f x)) ->
  Pairwise (update_first p f l).
Proof using All.
  intros Hl Hx Huniq Hy. pose proof (find_first_Some p l x Hx) as [_ Hpx].
  destruct (update_first_insert p f l x Hx) as (k & Hk & ->).
  assert (Hother : forall j b, l !! j = Some b -> j <> k -> R b (f x)).
  { intros j b Hj Hne. apply Hy; [eapply list_elem_of_lookup_2, Hj|].
    destruct (p b) eqn:E; [|reflexivity]. destruct Hne. eapply Huniq; eassumption. }
  intros i j a b Hi Hj Hne.
  apply list_lookup_insert_Some in Hi as [(-> & <- & _)|[Hki Hi]];
    apply list_lookup_insert_Some in Hj as [(-> & <- & _)|[Hkj Hj]].
  - contradiction.
  - symmetry; eapply Hother; [exact Hj|auto].
  - eapply Hother; [exact Hi|auto].
  - eapply Hl; eassumption.
Qed.
End pairwise.

Lemma find_first_map {A B} (p : B -> bool) (f : A -> B) l : find_first p (map f l) = f <$> find_first (fun x => p (f x)) l.
Proof. induction l as [|x l IH]; cbn; [reflexivity|]. destruct (p (f x)); [reflexivity|exact IH]. Qed.
Lemma find_first_ext {A} (p q : A -> bool) l : (forall x, p x = q x) -> find_first p l = find_first q l.
Proof. intros E; induction l as [|x l IH]; cbn; [reflexivity|]. rewrite E, IH. reflexivity. Qed.
Lemma find_last_snoc {A} (p : A -> bool) l x : p x = true -> find_last p (l ++ [x]) = Some x.
Proof. intros H; unfold find_last. rewrite reverse_snoc; cbn. rewrite H; reflexivity. Qed.

Lemma reject_if_invalid b f a : reject_if b (invalid f a) = Ok () <-> b = false.
Proof. destruct b; cbn; unfold invalid; split; (discriminate || reflexivity). Qed.

(** The result of a chain of guards. *)
Lemma bind_guard {A} b (e : res unit) (k : res A) v :
  e <> Ok () -> (_ ← reject_if b e; k) = Ok v -> b = false /\ k = Ok v.
Proof. destruct b; cbn; [|auto]. destruct e as [[]|]; cbn; [contradiction|discriminate]. Qed.

(** Runs through the guards of a handler hypothesis [H : handler ... = Ok _]. *)
Ltac step_guards H :=
  repeat first
    [ let G := fresh "G" in
      apply bind_guard in H; [destruct H as [G H]|unfold invalid, missing, plain; discriminate]
    | let a := fresh "a" in let E := fresh "E" in
      apply bind_Ok in H; destruct H as (a & E & H) ].

(** [map] is stdpp's [fmap] on lists. *)
Lemma lookup_map {A B} (f : A -> B) l (i : nat) : map f l !! i = f <$> l !! i.
Proof. apply list_lookup_fmap. Qed.
Lemma elem_of_map {A B} (f : A -> B) l y : y ∈ map f l <-> exists x, y = f x /\ x ∈ l.
Proof. apply list_elem_of_fmap. Qed.
Lemma elem_of_filter_list {A} (p : A -> bool) l x : x ∈ List.filter p l <-> x ∈ l /\ p x = true.
Proof. rewrite !list_elem_of_In; apply filter_In. Qed.
Lemma existsb_elem {A} (p : A -> bool) l : existsb p l = true <-> exists x, x ∈ l /\ p x = true.
Proof. rewrite existsb_exists; setoid_rewrite list_elem_of_In; reflexivity. Qed.
Lemma existsb_none {A} (p : A -> bool) l : existsb p l = false <-> forall x, x ∈ l -> p x = false.
Proof.
  rewrite <- not_true_iff_false, existsb_elem. split.
  - intros Hn x Hx. destruct (p x) eqn:E; [exfalso; eauto|reflexivity].
  - intros Hall (x & Hx & E). rewrite (Hall x Hx) in E; discriminate.
Qed.
Lemma forallb_elem {A} (p : A -> bool) l : forallb p l = true <-> forall x, x ∈ l -> p x = true.
Proof. rewrite forallb_forall; setoid_rewrite list_elem_of_In; reflexivity. Qed.

(** Membership in a closed list of a catalog, by computation. *)
Lemma not_listed {A} `{EqDecision A} (l : list A) x : contains l x = false -> x ∈ l -> False.
Proof. apply bool_decide_eq_false_1. Qed.

Lemma listed_in {A} `{EqDecision A} (l l' : list A) x : forallb (contains l') l = true -> x ∈ l -> x ∈ l'.
Proof. rewrite forallb_elem. intros Hall Hx. specialize (Hall x Hx). to_prop. exact Hall. Qed.

Lemma wrap_uint64_small z : (0 <= z < two64)%Z -> wrap_uint64 z = z.
Proof. apply Z.mod_small. Qed.

(** An invariant of the steps holds wherever they lead. *)
Lemma rtc_invariant {A} (R : A -> A -> Prop) (P : A -> Prop) :
  (forall x y, R x y -> P x -> P y) -> forall x y, rtc R x y -> P x -> P y.
Proof. intros Hstep x y H; induction H; eauto. Qed.

(** Runs a handler hypothesis [H : handler ... = Ok _] to its successful
    leaves: guards, decoded inputs, matches and conditionals. *)
Ltac crunch H :=
  repeat first
    [ discriminate H
    | progress (step_guards H)
    | progress (cbv zeta in H)
    | split_match_in H
    | match type of H with mret _ = Ok _ => unfold mret, res_ret in H end ];
  try (injection H; clear H; intros; subst).
