(* ===== verification/GoText.v ===== *)
(** * Go strings, as far as the control plane uses them

    A Go string is a byte sequence, here [String.string] over 8-bit [ascii].
    The file models the functions of package [strings] and the regular
    expressions of [internal/application], [internal/domain] and
    [internal/workerconfig].  Case mapping of non-ASCII runes is left to the
    class [Runtime]. *)
From S2P Require Import Prelude.
Open Scope string_scope.
Open Scope list_scope.

Definition byte_of (a : ascii) : nat := nat_of_ascii a.
Definition strlen (s : string) : Z := Z.of_nat (String.length s).

Fixpoint str_all (p : ascii -> bool) (s : string) : bool :=
  match s with
  | EmptyString => true
  | String a s => p a && str_all p s
  end.
Definition str_any (p : ascii -> bool) (s : string) : bool := negb (str_all (fun a => negb (p a)) s).
Fixpoint str_map (f : ascii -> ascii) (s : string) : string :=
  match s with
  | EmptyString => EmptyString
  | String a s => String (f a) (str_map f s)
  end.

(** [strings.HasPrefix], [strings.TrimPrefix], [strings.HasSuffix] *)
Definition has_prefix (p s : string) : bool := String.prefix p s.
Fixpoint str_drop (n : nat) (s : string) : string :=
  match n, s with
  | O, _ => s
  | S n, String _ s => str_drop n s
  | S _, EmptyString => EmptyString
  end.
Fixpoint str_take (n : nat) (s : string) : string :=
  match n, s with
  | S n, String a s => String a (str_take n s)
  | _, _ => EmptyString
  end.
Definition trim_prefix (p s : string) : string :=
  if has_prefix p s then str_drop (String.length p) s else s.
Definition has_suffix (p s : string) : bool :=
  if (String.length p <=? String.length s)%nat
  then str_drop (String.length s - String.length p) s == p
  else false.
Definition trim_suffix (suffix s : string) : string :=
  if has_suffix suffix s then str_take (String.length s - String.length suffix) s else s.

(** [strings.Contains] and [strings.ContainsAny] (the latter only ever with
    ASCII character sets). *)
Fixpoint str_contains (sub s : string) : bool :=
  has_prefix sub s ||
  match s with
  | EmptyString => false
  | String _ s => str_contains sub s
  end.
Fixpoint str_mem (a : ascii) (s : string) : bool :=
  match s with
  | EmptyString => false
  | String b s => (a == b) || str_mem a s
  end.
Definition contains_any (chars s : string) : bool := str_any (fun a => str_mem a chars) s.

(** [strings.Split] on a one-byte separator. *)
Fixpoint split_on (sep : ascii) (s : string) : list string :=
  match s with
  | EmptyString => [EmptyString]
  | String a s =>
    if a == sep then EmptyString :: split_on sep s
    else match split_on sep s with
         | [] => [String a EmptyString]
         | w :: ws => String a w :: ws
         end
  end.

(** [strings.TrimRight] with a set of one character. *)
Fixpoint trim_right_char (c : ascii) (s : string) : string :=
  match s with
  | EmptyString => EmptyString
  | String a s => match trim_right_char c s with
                  | EmptyString => if a == c then EmptyString else String a EmptyString
                  | s => String a s
                  end
  end.

(** ** Character classes *)
Definition in_range (lo hi : nat) (a : ascii) : bool :=
  (lo <=? byte_of a)%nat && (byte_of a <=? hi)%nat.
Definition is_digit : ascii -> bool := in_range 48 57.
Definition is_lower : ascii -> bool := in_range 97 122.
Definition is_upper : ascii -> bool := in_range 65 90.
Definition is_alnum (a : ascii) : bool := is_digit a || is_lower a || is_upper a.
Definition is_hex (a : ascii) : bool := is_digit a || in_range 97 102 a.
Definition is_ascii (s : string) : bool := str_all (in_range 0 127) s.

Definition lower_byte (a : ascii) : ascii :=
  if is_upper a then ascii_of_nat (byte_of a + 32) else a.
Definition upper_byte (a : ascii) : ascii :=
  if is_lower a then ascii_of_nat (byte_of a - 32) else a.
Definition lower_ascii : string -> string := str_map lower_byte.

(** The tables of the Go runtime: [strings.ToLower], [strings.EqualFold] and
    the RFC 3339 reader of [time.Time.UnmarshalJSON].  On ASCII text the case
    mappings are the ASCII ones; U+017F (LATIN SMALL LETTER LONG S) is a
    lower-case letter. *)
Definition long_s : string := String (ascii_of_nat 197) (String (ascii_of_nat 191) EmptyString).
Definition kelvin : string :=
  String (ascii_of_nat 226) (String (ascii_of_nat 132) (String (ascii_of_nat 170) EmptyString)).

Class Runtime := {
  parse_time : string -> option Time;
  to_lower : string -> string;
  equal_fold : string -> string -> bool;
  to_lower_ascii : forall s, is_ascii s = true -> to_lower s = lower_ascii s;
  to_lower_long_s : forall s, is_ascii s = true -> to_lower (long_s +:+ s) = long_s +:+ lower_ascii s;
  equal_fold_ascii : forall s t, is_ascii s = true -> is_ascii t = true ->
    equal_fold s t = (lower_ascii s == lower_ascii t);
  equal_fold_refl : forall s, equal_fold s s = true;
  equal_fold_sym : forall s t, equal_fold s t = equal_fold t s;
}.

(** ** [strings.TrimSpace]

    White space is the ASCII set and the Unicode White_Space runes, recognised
    by their UTF-8 encodings. *)
Definition is_ascii_space (a : ascii) : bool := in_range 9 13 a || (byte_of a == 32).

(** Length in bytes of the white-space rune a string starts with, or 0. *)
Definition space_prefix (s : string) : nat :=
  match s with
  | EmptyString => 0
  | String a s =>
    if is_ascii_space a then 1
    else match s with
         | EmptyString => 0
         | String b s =>
           if (byte_of a == 194) && ((byte_of b == 133) || (byte_of b == 160)) then 2
           else match s with
                | EmptyString => 0
                | String c _ =>
                  if ((byte_of a == 225) && (byte_of b == 154) && (byte_of c == 128))
                     || ((byte_of a == 226) && (byte_of b == 128)
                         && (in_range 128 138 c || (byte_of c == 168) || (byte_of c == 169) || (byte_of c == 175)))
                     || ((byte_of a == 226) && (byte_of b == 129) && (byte_of c == 159))
                     || ((byte_of a == 227) && (byte_of b == 128) && (byte_of c == 128))
                  then 3 else 0
                end
         end
  end.
Fixpoint trim_left_fuel (fuel : nat) (s : string) : string :=
  match fuel with
  | O => s
  | S fuel =>
    match space_prefix s with
    | O => s
    | n => trim_left_fuel fuel (str_drop n s)
    end
  end.
Definition trim_left (s : string) : string := trim_left_fuel (String.length s) s.
(** A suffix made only of white-space runes is dropped: the shortest prefix
    whose remainder trims to nothing from the left. *)
Fixpoint trim_right_from (s : string) : string :=
  if trim_left s == EmptyString then EmptyString
  else match s with
       | EmptyString => EmptyString
       | String a s => String a (trim_right_from s)
       end.
Definition trim_space (s : string) : string := trim_right_from (trim_left s).
Definition blank (s : string) : bool := trim_space s == EmptyString.

(** ** Regular expressions of the source, as anchored matchers *)

(** [^(?:[0-9a-f]{40}|[0-9a-f]{64})$] — application/composition.go [fullSHA] *)
Definition fullSHA (s : string) : bool :=
  str_all is_hex s && ((String.length s =? 40)%nat || (String.length s =? 64)%nat).

(** [^sha256:[0-9a-f]{64}$] — [retentionDigest], [artifactPinDigest],
    [scenarioDigest], [digestIdentity] and [workerconfig.ValidFingerprint] *)
Definition sha256_prefix : string := "sha256:".
Definition is_digest (s : string) : bool :=
  has_prefix sha256_prefix s && str_all is_hex (str_drop 7 s) && (String.length s =? 71)%nat.

(** [^[A-Za-z0-9][C]{lo,hi}$] for a character class [C] *)
Definition identifier (p : ascii -> bool) (lo hi : nat) (s : string) : bool :=
  match s with
  | EmptyString => false
  | String a r => is_alnum a && str_all p r && (lo <=? String.length r)%nat && (String.length r <=? hi)%nat
  end.
Definition ident_char (extra : string) (a : ascii) : bool := is_alnum a || str_mem a extra.

(** [workerRequestKey] = [^[A-Za-z0-9][A-Za-z0-9_.:-]{15,127}$] *)
Definition workerRequestKey : string -> bool := identifier (ident_char "_.:-") 15 127.
(** [artifactPinKey] = [^[A-Za-z0-9][A-Za-z0-9._:/-]{0,127}$] *)
Definition artifactPinKey : string -> bool := identifier (ident_char "._:/-") 0 127.

(** ** Lemmas *)
Lemma fullSHA_length s : fullSHA s = true -> String.length s = 40%nat \/ String.length s = 64%nat.
Proof. unfold fullSHA; intros [_ [H|H]%orb_true_iff]%andb_true_iff; apply Nat.eqb_eq in H; auto. Qed.

Lemma str_all_mono (p q : ascii -> bool) s :
  (forall a, p a = true -> q a = true) -> str_all p s = true -> str_all q s = true.
Proof.
  intros Hpq; induction s as [|a s IH]; cbn; [reflexivity|].
  intros [Hp Hs]%andb_true_iff; rewrite (Hpq _ Hp), (IH Hs); reflexivity.
Qed.

Lemma str_all_app p s t : str_all p (s +:+ t) = str_all p s && str_all p t.
Proof.
  induction s as [|a s IH]; [reflexivity|].
  change (String a s +:+ t) with (String a (s +:+ t)); cbn.
  rewrite IH, andb_assoc; reflexivity.
Qed.

Lemma is_digest_length s : is_digest s = true -> String.length s = 71%nat.
Proof. unfold is_digest; intros [_ H]%andb_true_iff; apply Nat.eqb_eq in H; exact H. Qed.
Lemma str_length_app s t : String.length (s +:+ t) = (String.length s + String.length t)%nat.
Proof. induction s as [|a s IH]; [reflexivity|]. change (S (String.length (s +:+ t)) = S (String.length s + String.length t)). rewrite IH. reflexivity. Qed.
(** Concatenations agree part by part when the first parts are equally long. *)
Lemma str_app_inj s1 s2 t1 t2 : String.length s1 = String.length s2 -> s1 +:+ t1 = s2 +:+ t2 -> s1 = s2 /\ t1 = t2.
Proof.
  revert s2; induction s1 as [|a s1 IH]; intros [|b s2]; cbn; try discriminate; [auto|].
  intros [= Hl] [= -> He]. destruct (IH s2 Hl He) as [-> ->]. auto.
Qed.

(** Splitting loses nothing but the separators. *)
Fixpoint join_with (sep : ascii) (ws : list string) : string :=
  match ws with
  | [] => EmptyString
  | [w] => w
  | w :: ws => w +:+ String sep (join_with sep ws)
  end.

Lemma split_on_nonempty sep s : split_on sep s <> [].
Proof.
  destruct s as [|a s]; cbn; [discriminate|].
  destruct (a == sep); [discriminate|]. destruct (split_on sep s); discriminate.
Qed.

Lemma join_split sep s : join_with sep (split_on sep s) = s.
Proof.
  induction s as [|a s IH]; cbn; [reflexivity|].
  pose proof (split_on_nonempty sep s) as Hne.
  case_bool_decide as E; subst.
  - destruct (split_on sep s); [contradiction|]. cbn in *; rewrite IH; reflexivity.
  - destruct (split_on sep s) as [|w [|w' ws]]; [contradiction| |]; cbn in *; rewrite <- IH; reflexivity.
Qed.

#[export] Hint Resolve fullSHA_length : go.

(** The ASCII reading of the tables, an instance for concrete runs, in which
    only one instant is written. *)
Definition ascii_runtime : Runtime.
Proof.
  refine {| parse_time := fun s => if s == "1m" then Some minute else None; to_lower := lower_ascii;
            equal_fold := fun s t => lower_ascii s == lower_ascii t |}; intros.
  - reflexivity.
  - reflexivity.
  - reflexivity.
  - apply bool_decide_eq_true; reflexivity.
  - apply bool_decide_ext; split; congruence.
Defined.

(** ** Package [path]

    [path.Clean] reads the elements left to right and keeps the reduced path
    as a stack; [path.IsAbs] tests for a leading slash. *)
Definition slash : ascii := "/"%char.
Definition path_is_abs (p : string) : bool := has_prefix "/" p.
Fixpoint clean_elements (rooted : bool) (stack : list string) (ws : list string) : list string :=
  match ws with
  | [] => reverse stack
  | w :: ws =>
    if (w == "") || (w == ".") then clean_elements rooted stack ws
    else if w == ".." then
      match stack with
      | [] => if rooted then clean_elements rooted [] ws else clean_elements rooted [".."] ws
      | t :: rest => if t == ".." then clean_elements rooted (".." :: stack) ws else clean_elements rooted rest ws
      end
    else clean_elements rooted (w :: stack) ws
  end.
Definition path_clean (p : string) : string :=
  let rooted := path_is_abs p in
  let body := join_with slash (clean_elements rooted [] (split_on slash p)) in
  if rooted then "/" +:+ body else if body == "" then "." else body.

(** [path.Clean] of a repository-relative path is itself: no empty, ["."] or
    escaping element. *)
Example path_clean_ex1 : path_clean "a/./b/../c" = "a/c". Proof. reflexivity. Qed.
Example path_clean_ex2 : path_clean "../x" = "../x". Proof. reflexivity. Qed.
Example path_clean_ex3 : path_clean "" = ".". Proof. reflexivity. Qed.
Example path_clean_ex4 : path_clean "/../a//b/" = "/a/b". Proof. reflexivity. Qed.
