(* ===== verification/Worklist.v ===== *)
(** * Sorted slices, indexed slices and worklist searches

    The helpers that the registry and the retention code share:
    [sortedUnique] (domain/retention.go), [sort.Slice] by a string key, a map
    filled from a slice, and the breadth-first search with a queue and a set
    of seen nodes that registry_inventory.go and registry_retention.go write
    out twice.  [search_total] shows that the search ends; [search_explored]
    and [search_rejected] say what it has seen. *)
From S2P Require Import Prelude GoText.
Open Scope string_scope.
Open Scope list_scope.

(** ** Sorting *)
(** [sort.Strings]: strings are compared as byte sequences. *)
Definition sort_strings : list string -> list string := merge_sort String.le.
(** [sort.Slice(l, func(i, j) { return key(l[i]) < key(l[j]) })].  The order of
    entries with equal keys is not specified by Go; the code that sorts this
    way rejects equal keys, or sorts values that the key determines. *)
Definition by_key {A} (key : A -> string) : relation A := fun a b => String.le (key a) (key b).
#[export] Instance by_key_dec {A} (key : A -> string) : RelDecision (by_key key).
Proof. intros a b. unfold by_key. apply _. Defined.
#[export] Instance by_key_total {A} (key : A -> string) : Total (by_key key).
Proof. intros a b. apply String.le_total. Qed.
#[export] Instance by_key_trans {A} (key : A -> string) : Transitive (by_key key).
Proof. intros a b c. unfold by_key. apply transitivity. Qed.
Definition sort_by {A} (key : A -> string) : list A -> list A := merge_sort (by_key key).

Definition keep_new (out : list string) (s : string) : list string :=
  match list.last out with
  | Some t => if s == t then out else out ++ [s]
  | None => out ++ [s]
  end.
Definition sortedUnique (v : list string) : list string := foldl keep_new [] (sort_strings v).

(** [for i := 1; i < len(l); i++ { if key(l[i-1]) == key(l[i]) ... }] *)
Fixpoint adjacent_equal {A} (key : A -> string) (l : list A) : bool :=
  match l with
  | x :: (y :: _) as l' => (key x == key y) || adjacent_equal key l'
  | _ => false
  end.

(** [m := map[string]T{}; for _, x := range l { m[key(x)] = x }] *)
Definition index_by {A} (key : A -> string) (l : list A) : gmap string A := foldl (fun m x => <[key x := x]> m) ∅ l.

Section sorting.
Context {A : Type} (key : A -> string).

Lemma sort_by_perm l : sort_by key l ≡ₚ l.
Proof. apply merge_sort_Permutation. Qed.
Lemma sort_by_sorted l : StronglySorted (by_key key) (sort_by key l).
Proof. apply StronglySorted_merge_sort; apply _. Qed.
Lemma elem_of_sort_by l x : x ∈ sort_by key l <-> x ∈ l.
Proof. rewrite sort_by_perm. reflexivity. Qed.

(** In a sorted slice, equal keys are neighbours. *)
Lemma adjacent_distinct l : StronglySorted (by_key key) l -> adjacent_equal key l = false -> NoDup (map key l).
Proof.
  induction 1 as [|x l Hs IH Hx]; [constructor|].
  destruct l as [|y l]; cbn; [intros _; repeat constructor; intros Hin; inversion Hin|].
  intros Ha. to_prop. specialize (IH ltac:(assumption)). constructor; [|exact IH].
  intros [E|Hin]%elem_of_cons; [contradiction|].
  apply elem_of_map in Hin as (z & Hz & Hin). apply list.Forall_cons in Hx as [Hxy Hx].
  inversion Hs as [|? ? _ Hy]; subst. rewrite list.Forall_forall in Hy. specialize (Hy z Hin).
  unfold by_key in *. rewrite Hz in Hxy. assert (key y = key x) by (rewrite Hz; apply (anti_symm String.le); [exact Hy|exact Hxy]).
  congruence.
Qed.
Lemma distinct_adjacent l : NoDup (map key l) -> adjacent_equal key l = false.
Proof.
  induction l as [|x [|y l] IH]; [reflexivity..|].
  change (map key (x :: y :: l)) with (key x :: map key (y :: l)). intros [Hn Hd]%list.NoDup_cons.
  change (((key x == key y) || adjacent_equal key (y :: l)) = false).
  rewrite (IH Hd), orb_false_r. apply bool_decide_eq_false. intros E. apply Hn. rewrite E. left.
Qed.

Lemma map_key_eq l a b : NoDup (map key l) -> a ∈ l -> b ∈ l -> key a = key b -> a = b.
Proof.
  intros Hd Ha Hb E. apply list_elem_of_lookup in Ha as [i Hi]. apply list_elem_of_lookup in Hb as [j Hj].
  assert (i = j) as ->; [|congruence].
  apply (NoDup_lookup (map key l) i j (key a) Hd); rewrite lookup_map; [rewrite Hi|rewrite Hj, E]; reflexivity.
Qed.
(** With distinct keys the result does not depend on the order of the input. *)
Lemma sort_by_unique l l' : l ≡ₚ l' -> NoDup (map key l) -> sort_by key l = sort_by key l'.
Proof.
  intros Hp Hd.
  apply (StronglySorted_unique_strong (by_key key)).
  - intros a b Ha Hb Hab Hba. rewrite elem_of_sort_by in Ha, Hb. rewrite <- Hp in Hb.
    apply (map_key_eq l); [exact Hd|exact Ha|exact Hb|]. unfold by_key in *. apply (anti_symm String.le); assumption.
  - apply sort_by_sorted.
  - apply sort_by_sorted.
  - rewrite !sort_by_perm. exact Hp.
Qed.
Lemma sort_by_id l : StronglySorted (by_key key) l -> NoDup (map key l) -> sort_by key l = l.
Proof.
  intros Hs Hd. apply (StronglySorted_unique_strong (by_key key)).
  - intros a b Ha Hb Hab Hba. rewrite elem_of_sort_by in Ha.
    apply (map_key_eq l); [exact Hd|exact Ha|exact Hb|]. unfold by_key in *. apply (anti_symm String.le); assumption.
  - apply sort_by_sorted.
  - exact Hs.
  - apply sort_by_perm.
Qed.
End sorting.

Lemma index_by_Some {A} (key : A -> string) l d x : index_by key l !! d = Some x -> x ∈ l /\ key x = d.
Proof.
  unfold index_by. induction l as [|y l IH] using rev_ind; cbn; [rewrite lookup_empty; discriminate|].
  rewrite foldl_app. cbn. rewrite lookup_insert_Some.
  intros [[<- <-]|[_ Hl]]; [split; [apply elem_of_app; right; left|reflexivity]|].
  destruct (IH Hl). split; [apply elem_of_app; left; assumption|assumption].
Qed.
Lemma index_by_elem {A} (key : A -> string) l x : NoDup (map key l) -> x ∈ l -> index_by key l !! key x = Some x.
Proof.
  unfold index_by. induction l as [|y l IH] using rev_ind; [intros _ Hx; inversion Hx|].
  rewrite map_app. intros [Hd [Hn _]]%list.NoDup_app Hx. rewrite foldl_app. cbn. apply elem_of_app in Hx as [Hx|Hx].
  - rewrite lookup_insert_ne; [apply IH; assumption|]. intros E. apply (Hn (key x)); [apply elem_of_map; eauto|].
    rewrite <- E. left.
  - apply list_elem_of_singleton in Hx as ->. apply lookup_insert_eq.
Qed.

(** ** sortedUnique *)
Lemma keep_new_elem out s x : x ∈ keep_new out s <-> x ∈ out \/ x = s.
Proof.
  unfold keep_new. destruct (list.last out) as [t|] eqn:E.
  - case_bool_decide as Hs; [subst t|]; [|rewrite elem_of_app, list_elem_of_singleton; reflexivity].
    split; [auto|]. intros [Hx| ->]; [exact Hx|]. apply last_Some in E as [l' ->]. apply elem_of_app; right; left.
  - rewrite elem_of_app, list_elem_of_singleton. reflexivity.
Qed.
Lemma sortedUnique_elem v x : x ∈ sortedUnique v <-> x ∈ v.
Proof.
  unfold sortedUnique. transitivity (x ∈ sort_strings v); [|unfold sort_strings; rewrite merge_sort_Permutation; reflexivity].
  generalize (sort_strings v); clear v; intros v.
  enough (Hg : forall out, x ∈ foldl keep_new out v <-> x ∈ out \/ x ∈ v) by (rewrite Hg; set_solver).
  induction v as [|s v IH]; intros out; cbn; [set_solver|]. rewrite IH, keep_new_elem, elem_of_cons. tauto.
Qed.
Lemma keep_new_sorted out v : StronglySorted String.le (out ++ v) -> NoDup out ->
  StronglySorted String.le (foldl keep_new out v) /\ NoDup (foldl keep_new out v).
Proof.
  revert out; induction v as [|s v IH]; intros out Hs Hd; cbn; [rewrite app_nil_r in Hs; auto|].
  apply StronglySorted_app in Hs as Hs'. destruct Hs' as (Hcross & Ho & Hsv). inversion Hsv as [|? ? Hv Hle]; subst.
  assert (Hdrop : StronglySorted String.le (out ++ v)).
  { apply StronglySorted_app. split; [|auto]. intros a b Ha Hb. apply Hcross; [exact Ha|right; exact Hb]. }
  assert (Hadd : StronglySorted String.le ((out ++ [s]) ++ v)) by (rewrite <- app_assoc; exact Hs).
  assert (Hnew : list.last out <> Some s -> NoDup (out ++ [s])).
  { intros Hl. apply list.NoDup_app. split; [exact Hd|]. split; [|repeat constructor; intros H; inversion H].
    intros x Hx Hxs%list_elem_of_singleton. subst x. apply Hl.
    destruct (list.last out) as [t|] eqn:E; [|apply last_None in E; subst; inversion Hx].
    f_equal. apply last_Some in E as [l' ->]. apply elem_of_app in Hx as [Hx|Hx]; [|apply list_elem_of_singleton in Hx; congruence].
    apply (anti_symm String.le).
    - apply Hcross; [apply elem_of_app; right; left|left].
    - eapply StronglySorted_app_1_elem_of; [exact Ho|exact Hx|left]. }
  unfold keep_new at 2 4. destruct (list.last out) as [t|] eqn:E; [case_bool_decide as Ht|]; apply IH; try assumption; apply Hnew; congruence.
Qed.
Lemma sortedUnique_sorted v : StronglySorted String.le (sortedUnique v) /\ NoDup (sortedUnique v).
Proof.
  apply keep_new_sorted; [apply StronglySorted_merge_sort; apply _|constructor].
Qed.
(** Only the set of the strings matters. *)
Lemma sortedUnique_ext v w : (forall x, x ∈ v <-> x ∈ w) -> sortedUnique v = sortedUnique w.
Proof.
  intros E. destruct (sortedUnique_sorted v) as [Sv Dv], (sortedUnique_sorted w) as [Sw Dw].
  apply (StronglySorted_unique String.le); [exact Sv|exact Sw|].
  apply NoDup_Permutation; [exact Dv|exact Dw|]. intros x. rewrite !sortedUnique_elem. apply E.
Qed.
Lemma sortedUnique_idemp v : sortedUnique (sortedUnique v) = sortedUnique v.
Proof. apply sortedUnique_ext. intros x. apply sortedUnique_elem. Qed.

(** ** Breadth-first search

    [queue := []T{root}; seen := map[string]bool{}; for len(queue) > 0 { x :=
    queue[0]; queue = queue[1:]; if seen[node(x)] { continue }; seen[node(x)] =
    true; if !ok(x) { return fail }; queue = append(queue, next(x)...) }].  The
    recursion takes fuel; [search] answers [None] only when it runs out. *)
Inductive outcome : Type :=
| Rejected
| Visited (seen : gset string).

Section search.
Context {V : Type} (node : V -> string) (next : V -> list V) (ok : V -> bool).

Fixpoint search (fuel : nat) (queue : list V) (seen : gset string) : option outcome :=
  match queue with
  | [] => Some (Visited seen)
  | x :: queue =>
    match fuel with
    | O => None
    | S fuel =>
      if bool_decide (node x ∈ seen) then search fuel queue seen
      else if negb (ok x) then Some Rejected
      else search fuel (queue ++ next x) ({[node x]} ∪ seen)
    end
  end.

(** *** The search ends

    Every node is expanded once, and an expansion enqueues one entry for each
    of the edges that leave the node: [sources] lists the origin of each edge. *)
Definition unspent (sources : list string) (seen : gset string) : nat :=
  length (List.filter (fun s => negb (bool_decide (s ∈ seen))) sources).
Definition degree (sources : list string) (s : string) : nat := length (List.filter (fun t => bool_decide (t = s)) sources).
Lemma unspent_spend sources seen s : s ∉ seen ->
  (unspent sources ({[s]} ∪ seen) + degree sources s = unspent sources seen)%nat.
Proof using Type.
  intros Hs. unfold unspent, degree. induction sources as [|t l IH]; [reflexivity|]. cbn.
  destruct (decide (t = s)) as [->|Hne].
  - rewrite (bool_decide_eq_true_2 (s = s)), (bool_decide_eq_true_2 (s ∈ {[s]} ∪ seen)), (bool_decide_eq_false_2 (s ∈ seen))
      by (assumption || reflexivity || set_solver). cbn. lia.
  - rewrite (bool_decide_eq_false_2 (t = s)) by exact Hne.
    replace (bool_decide (t ∈ {[s]} ∪ seen)) with (bool_decide (t ∈ seen)) by (apply bool_decide_ext; set_solver).
    case_bool_decide; cbn; lia.
Qed.
Lemma search_total sources : (forall v, length (next v) = degree sources (node v)) ->
  forall fuel queue seen, (length queue + unspent sources seen <= fuel)%nat -> is_Some (search fuel queue seen).
Proof using Type.
  intros Hdeg. induction fuel as [|fuel IH]; intros [|x queue] seen Hf; cbn in *; eauto; [lia|].
  case_bool_decide as Hx; [apply IH; lia|]. destruct (ok x); cbn; [|eauto].
  apply IH. rewrite length_app, Hdeg. pose proof (unspent_spend sources seen (node x) Hx). lia.
Qed.

(** *** What it has seen *)
Definition From (roots : list V) (v : V) : Prop := exists r, r ∈ roots /\ rtc (fun a b => b ∈ next a) r v.
Lemma From_next roots v w : From roots v -> w ∈ next v -> From roots w.
Proof using Type. intros (r & Hr & Hv) Hw. exists r. split; [exact Hr|]. eapply rtc_r; eassumption. Qed.

(** Each node seen comes from the roots and passed the check, and its
    successors are seen or in the queue. *)
Record Searched (roots queue : list V) (seen : gset string) : Prop := {
  explored_seen : forall d, d ∈ seen -> exists v, node v = d /\ ok v = true /\ From roots v
    /\ forall n, n ∈ next v -> node n ∈ seen \/ exists q, q ∈ queue /\ node q = node n;
  explored_queue : forall v, v ∈ queue -> From roots v;
  explored_roots : forall r, r ∈ roots -> node r ∈ seen \/ exists q, q ∈ queue /\ node q = node r;
}.
Lemma explored_start roots : Searched roots roots ∅.
Proof using Type.
  split.
  - intros d Hd. set_solver.
  - intros v Hv. exists v. split; [exact Hv|apply rtc_refl].
  - eauto.
Qed.
Lemma explored_skip roots x queue seen : Searched roots (x :: queue) seen -> node x ∈ seen -> Searched roots queue seen.
Proof using Type.
  intros [Hs Hq Hr] Hx.
  assert (Hdrop : forall n : V, (node n ∈ seen \/ exists q, q ∈ x :: queue /\ node q = node n) ->
    node n ∈ seen \/ exists q, q ∈ queue /\ node q = node n).
  { intros n [Hn|(q & [->|Hqq]%elem_of_cons & E)]; [auto|left; rewrite <- E; exact Hx|eauto]. }
  split.
  - intros d Hd. destruct (Hs d Hd) as (v & E & Hok & Hv & Hn). exists v. split; [exact E|]. auto.
  - intros v Hv. apply Hq. right; exact Hv.
  - auto.
Qed.
Lemma explored_visit roots x queue seen : Searched roots (x :: queue) seen -> ok x = true ->
  Searched roots (queue ++ next x) ({[node x]} ∪ seen).
Proof using Type.
  intros [Hs Hq Hr] Hok. assert (Hx : From roots x) by (apply Hq; left).
  assert (Hkeep : forall n : V, (node n ∈ seen \/ exists q, q ∈ x :: queue /\ node q = node n) ->
    node n ∈ {[node x]} ∪ seen \/ exists q, q ∈ queue ++ next x /\ node q = node n).
  { intros n [Hn|(q & [->|Hqq]%elem_of_cons & E)]; [left; set_solver|left; set_solver|].
    right. exists q. split; [apply elem_of_app; left; exact Hqq|exact E]. }
  split.
  - intros d [Hd%elem_of_singleton|Hd]%elem_of_union; [subst d; exists x|destruct (Hs d Hd) as (v & E & Hv & Hf & Hn); exists v].
    + split; [reflexivity|]. split; [exact Hok|]. split; [exact Hx|]. intros n Hn. right. exists n.
      split; [apply elem_of_app; right; exact Hn|reflexivity].
    + split; [exact E|]. auto.
  - intros v [Hv|Hv]%elem_of_app; [apply Hq; right; exact Hv|apply (From_next roots x); assumption].
  - auto.
Qed.
Lemma search_explored roots fuel queue seen seen' : Searched roots queue seen ->
  search fuel queue seen = Some (Visited seen') -> Searched roots [] seen'.
Proof using Type.
  revert queue seen; induction fuel as [|fuel IH]; intros [|x queue] seen He; cbn; try congruence.
  case_bool_decide as Hx; [intros Hs; eapply IH; [eapply explored_skip|]; eassumption|].
  destruct (ok x) eqn:Hok; cbn; [|congruence]. intros Hs. eapply IH; [eapply explored_visit|]; eassumption.
Qed.
Lemma search_rejected roots fuel queue seen : Searched roots queue seen ->
  search fuel queue seen = Some Rejected -> exists v, From roots v /\ ok v = false.
Proof using Type.
  revert queue seen; induction fuel as [|fuel IH]; intros [|x queue] seen He; cbn; try congruence.
  case_bool_decide as Hx; [intros Hs; eapply IH; [eapply explored_skip|]; eassumption|].
  destruct (ok x) eqn:Hok; cbn; [intros Hs; eapply IH; [eapply explored_visit|]; eassumption|].
  intros _. exists x. split; [apply (explored_queue _ _ _ He); left|exact Hok].
Qed.

(** Nothing that can be reached is missed. *)
Lemma explored_complete roots seen v : (forall a b, node a = node b -> map node (next a) = map node (next b)) ->
  Searched roots [] seen -> From roots v -> node v ∈ seen.
Proof using Type.
  intros Hnode He (r & Hr & Hv). revert v Hv.
  refine (rtc_ind_r (fun v => node v ∈ seen) r _ _).
  - destruct (explored_roots _ _ _ He r Hr) as [Hs|(q & Hq & _)]; [exact Hs|inversion Hq].
  - intros a b _ Hb Ha. destruct (explored_seen _ _ _ He _ Ha) as (w & E & _ & _ & Hn).
    assert (Hbn : node b ∈ map node (next w)) by (rewrite (Hnode w a E); apply elem_of_map; eauto).
    apply elem_of_map in Hbn as (n & -> & Hin). destruct (Hn n Hin) as [Hs|(q & Hq & _)]; [exact Hs|inversion Hq].
Qed.
End search.
