(* ===== verification/GoJson.v ===== *)
(** * JSON command data and [encoding/json] decoding

    [application.decode] marshals the command's [map[string]any] and decodes
    it into a struct with [DisallowUnknownFields].  This file models the
    decoding rules that matter to the handlers: fields are looked up by exact
    name and then by [encoding/json]'s case folding, [null] leaves a scalar or
    struct unchanged and clears a slice, map or pointer, a slice is decoded
    into its old elements, a map is extended, numbers keep their literal. *)
From S2P Require Import Prelude GoText.
Open Scope string_scope.
Open Scope list_scope.

Inductive json : Type :=
| JNull
| JBool (b : bool)
| JNum (literal : string)
| JStr (s : string)
| JArr (l : list json)
| JObj (l : list (string * json)).

Fixpoint json_eqb (x y : json) {struct x} : bool :=
  match x, y with
  | JNull, JNull => true
  | JBool a, JBool b => Bool.eqb a b
  | JNum a, JNum b => String.eqb a b
  | JStr a, JStr b => String.eqb a b
  | JArr a, JArr b =>
    (fix go (a b : list json) : bool :=
       match a, b with
       | [], [] => true
       | x :: a, y :: b => json_eqb x y && go a b
       | _, _ => false
       end) a b
  | JObj a, JObj b =>
    (fix go (a b : list (string * json)) : bool :=
       match a, b with
       | [], [] => true
       | (k, x) :: a, (k', y) :: b => String.eqb k k' && (json_eqb x y && go a b)
       | _, _ => false
       end) a b
  | _, _ => false
  end.

Section json_ind.
Variable P : json -> Prop.
Hypotheses (Hnull : P JNull) (Hbool : forall b, P (JBool b)) (Hnum : forall s, P (JNum s))
  (Hstr : forall s, P (JStr s)) (Harr : forall l, Forall P l -> P (JArr l))
  (Hobj : forall l, Forall (fun kv => P kv.2) l -> P (JObj l)).

Fixpoint json_nested_ind (x : json) : P x :=
  match x with
  | JNull => Hnull
  | JBool b => Hbool b
  | JNum s => Hnum s
  | JStr s => Hstr s
  | JArr l => Harr l ((fix go l : Forall P l :=
      match l with
      | [] => Forall_nil _
      | x :: l => Forall_cons _ _ _ (json_nested_ind x) (go l)
      end) l)
  | JObj l => Hobj l ((fix go l : Forall (fun kv => P kv.2) l :=
      match l with
      | [] => Forall_nil _
      | kv :: l => Forall_cons (fun kv => P kv.2) kv l (json_nested_ind kv.2) (go l)
      end) l)
  end.
End json_ind.

Lemma json_eqb_eq x y : json_eqb x y = true <-> x = y.
Proof.
  revert y; induction x as [|b|s|s|l IH|l IH] using json_nested_ind; intros y; destruct y as [|b'|s'|s'|l'|l'];
    cbn; try (split; [discriminate|congruence]).
  - tauto.
  - rewrite Bool.eqb_true_iff; split; congruence.
  - rewrite String.eqb_eq; split; congruence.
  - rewrite String.eqb_eq; split; congruence.
  - enough (H : (fix go (a b : list json) : bool := match a, b with
      | [], [] => true | x :: a, y :: b => json_eqb x y && go a b | _, _ => false end) l l' = true <-> l = l')
      by (rewrite H; split; congruence).
    revert l'; induction IH as [|x l Hx _ IH]; intros [|y l']; try (split; [discriminate|congruence]).
    + tauto.
    + rewrite andb_true_iff, Hx, IH; split; [intros [-> ->]; reflexivity|intros [= -> ->]; auto].
  - enough (H : (fix go (a b : list (string * json)) : bool := match a, b with
      | [], [] => true | (k, x) :: a, (k', y) :: b => String.eqb k k' && (json_eqb x y && go a b)
      | _, _ => false end) l l' = true <-> l = l')
      by (rewrite H; split; congruence).
    revert l'; induction IH as [|[k x] l Hx _ IH]; intros [|[k' y] l']; try (split; [discriminate|congruence]).
    + tauto.
    + cbn in Hx; rewrite !andb_true_iff, String.eqb_eq, Hx, IH.
      split; [intros (-> & -> & ->); reflexivity|intros [= -> -> ->]; auto].
Qed.
#[export] Instance json_eq_dec : EqDecision json.
Proof.
  intros x y; destruct (json_eqb x y) eqn:E; [left; apply json_eqb_eq; exact E|].
  right; intros ->; rewrite (proj2 (json_eqb_eq y y) eq_refl) in E; discriminate.
Defined.

(** [map[string]any]; the entries of a map are marshalled in key order. *)
Abbreviation Data := (gmap string json).
Fixpoint insert_entry {A} (kv : string * A) (l : list (string * A)) : list (string * A) :=
  match l with
  | [] => [kv]
  | kv' :: l' => if String.leb kv.1 kv'.1 then kv :: l else kv' :: insert_entry kv l'
  end.
Definition sorted_entries {A} (m : gmap string A) : list (string * A) :=
  foldr insert_entry [] (map_to_list m).

(** [v, _ := c.Data[k].(string)] *)
Definition data_string (d : Data) (k : string) : string :=
  match d !! k with Some (JStr s) => s | _ => EmptyString end.
Definition has_key (d : Data) (k : string) : bool := bool_decide (is_Some (d !! k)).

(** ** Numbers

    [strconv.ParseInt(lit, 10, 64)] and [ParseUint]: an optional sign and
    decimal digits; a fraction, an exponent or a value out of range fails. *)
Fixpoint digits_value (acc : Z) (s : string) : option Z :=
  match s with
  | EmptyString => Some acc
  | String a s =>
    if is_digit a then digits_value (10 * acc + (Z.of_nat (byte_of a) - 48)) s else None
  end.
Definition parse_uint (s : string) : option Z :=
  match s with
  | EmptyString => None
  | _ => v ← digits_value 0 s; if (v <=? max_uint64)%Z then Some v else None
  end.
Definition parse_int (s : string) : option Z :=
  match s with
  | EmptyString => None
  | String "-" EmptyString => None
  | String "-" r => v ← digits_value 0 r; if (v <=? 2 ^ 63)%Z then Some (- v)%Z else None
  | _ => v ← digits_value 0 s; if (v <=? 2 ^ 63 - 1)%Z then Some v else None
  end.

(** ** Decoding

    [decode_into old j] is the result of decoding [j] into a variable that
    holds [old]; [None] is a decoding error. *)
Class Decode (A : Type) := decode_into : A -> json -> option A.
#[export] Hint Mode Decode ! : typeclass_instances.

#[export] Instance decode_string : Decode string := fun old j =>
  match j with JStr s => Some s | JNull => Some old | _ => None end.
#[export] Instance decode_bool : Decode bool := fun old j =>
  match j with JBool b => Some b | JNull => Some old | _ => None end.
(** Signed 64-bit integers are the default reading of [Z]. *)
#[export] Instance decode_int : Decode Z := fun old j =>
  match j with JNum s => parse_int s | JNull => Some old | _ => None end.
Definition decode_uint64 : Decode Z := fun old j =>
  match j with JNum s => parse_uint s | JNull => Some old | _ => None end.
Definition decode_time `{Runtime} : Decode Z := fun old j =>
  match j with JStr s => parse_time s | JNull => Some old | _ => None end.
#[export] Instance decode_any : Decode json := fun _ j => Some j.
#[export] Instance decode_pointer {A} `{Zero A, Decode A} : Decode (option A) := fun old j =>
  match j with
  | JNull => Some None
  | _ => Some <$> decode_into (default zero old) j
  end.
Fixpoint decode_elements {A} `{Zero A, Decode A} (old : list A) (l : list json) : option (list A) :=
  match l with
  | [] => Some []
  | j :: l =>
    x ← decode_into (default zero (head old)) j;
    xs ← decode_elements (tail old) l;
    Some (x :: xs)
  end.
#[export] Instance decode_slice {A} `{Zero A, Decode A} : Decode (list A) := fun old j =>
  match j with
  | JNull => Some []
  | JArr l => decode_elements old l
  | _ => None
  end.
#[export] Instance decode_map {A} `{Zero A, Decode A} : Decode (gmap string A) := fun old j =>
  match j with
  | JNull => Some ∅
  | JObj kvs =>
    foldl (fun acc '(k, v) => m ← acc; x ← decode_into zero v; Some (<[k := x]> m)) (Some old) kvs
  | _ => None
  end.
#[export] Instance zero_json : Zero json := JNull.

(** A struct is described by its fields, in declaration order. *)
Record jfield (R : Type) := JField { jf_name : string; jf_decode : R -> json -> option R }.
Arguments JField {R} _ _.
Arguments jf_name {R} _.
Arguments jf_decode {R} _ _ _.

Definition field_with {R T} (name : string) (proj : R -> T) (D : Decode T) `{!Setter proj} : jfield R :=
  JField name (fun r j => (fun v => r <| proj := v |>) <$> D (proj r) j).
Definition field {R T} (name : string) (proj : R -> T) `{D : Decode T, !Setter proj} : jfield R :=
  field_with name proj D.
(** The promoted fields of an embedded struct. *)
Definition promoted {R T} (proj : R -> T) `{!Setter proj} (fs : list (jfield T)) : list (jfield R) :=
  map (fun f => JField (jf_name f) (fun r j => (fun v => r <| proj := v |>) <$> jf_decode f (proj r) j)) fs.

(** [encoding/json]'s [foldName]: ASCII letters are upper-cased, and the two
    non-ASCII runes that fold to an ASCII letter are U+017F and U+212A. *)
Fixpoint fold_name (s : string) : string :=
  match s with
  | String a (String b (String c r as s2) as s1) =>
    if (byte_of a == 197) && (byte_of b == 191) then String "S" (fold_name s2)
    else if (byte_of a == 226) && (byte_of b == 132) && (byte_of c == 170) then String "K" (fold_name r)
    else String (upper_byte a) (fold_name s1)
  | String a (String b EmptyString as s1) =>
    if (byte_of a == 197) && (byte_of b == 191) then "S" else String (upper_byte a) (fold_name s1)
  | String a EmptyString => String (upper_byte a) EmptyString
  | EmptyString => EmptyString
  end.

Definition find_field {R} (fs : list (jfield R)) (key : string) : option (jfield R) :=
  match find_first (fun f => jf_name f == key) fs with
  | Some f => Some f
  | None => find_first (fun f => fold_name (jf_name f) == fold_name key) fs
  end.

Definition decode_entry {R} (fs : list (jfield R)) (r : R) (kv : string * json) : option R :=
  f ← find_field fs kv.1; jf_decode f r kv.2.
Fixpoint decode_entries {R} (fs : list (jfield R)) (r : R) (kvs : list (string * json)) : option R :=
  match kvs with
  | [] => Some r
  | kv :: kvs => r' ← decode_entry fs r kv; decode_entries fs r' kvs
  end.

Class Fields (R : Type) := fields : list (jfield R).
#[export] Instance decode_struct {R} `{Fields R} : Decode R := fun old j =>
  match j with
  | JNull => Some old
  | JObj kvs => decode_entries fields old kvs
  | _ => None
  end.

(** application/service.go [decode] *)
Definition decode {R} `{Fields R} (d : Data) (v : R) : res R :=
  match decode_entries fields v (sorted_entries d) with
  | Some v' => Ok v'
  | None => invalid "invalid fields: %v" []
  end.

(** ** Fields a command leaves alone

    A key that is lower-case ASCII names only the field spelled exactly like
    it; U+017F is how another key can reach a field. *)
Definition plain_name (s : string) : bool := is_ascii s && (lower_ascii s == s).
Definition plain_keys (d : Data) : Prop := forall k, has_key d k = true -> plain_name k = true.

Lemma fold_name_ascii s : is_ascii s = true -> fold_name s = str_map upper_byte s.
Proof.
  assert (Hne : forall a n, in_range 0 127 a = true -> (127 < n)%nat -> bool_decide (byte_of a = n) = false).
  { intros a n [_ Ha%Nat.leb_le]%andb_true_iff Hn. apply bool_decide_eq_false; lia. }
  induction s as [|a s IH]; [reflexivity|]. destruct s as [|b [|c r]]; [reflexivity| |].
  { intros [Ha _]%andb_true_iff. cbn. rewrite (Hne a) by (assumption || lia). reflexivity. }
  intros [Ha Hr]%andb_true_iff. specialize (IH Hr). cbn [fold_name str_map].
  rewrite !(Hne a) by (assumption || lia). cbn [andb]. f_equal. exact IH.
Qed.
Lemma lower_upper_byte a : lower_byte (upper_byte a) = lower_byte a.
Proof. destruct a as [[] [] [] [] [] [] [] []]; reflexivity. Qed.
Lemma upper_byte_inj a b : lower_byte a = a -> lower_byte b = b -> upper_byte a = upper_byte b -> a = b.
Proof. intros Ha Hb H. rewrite <- Ha, <- Hb, <- lower_upper_byte, H. apply lower_upper_byte. Qed.
Lemma fold_plain_inj s t : plain_name s = true -> plain_name t = true -> fold_name s = fold_name t -> s = t.
Proof.
  intros [Hs Ls]%andb_true_iff [Ht Lt]%andb_true_iff. rewrite !fold_name_ascii by assumption. clear Hs Ht. to_prop.
  revert t Lt; induction s as [|a s IH]; intros [|b t] Lt; cbn; try discriminate; [reflexivity|].
  cbn in Ls, Lt. injection Ls as La Ls. injection Lt as Lb Lt. intros [= Hab Hst].
  rewrite (upper_byte_inj a b) by assumption. f_equal. apply IH; assumption.
Qed.

Section keeps.
Context {R T : Type} (g : R -> T).

Definition keeps_field (name : string) (f : jfield R) : Prop :=
  plain_name (jf_name f) = true
  /\ (jf_name f = name \/ forall r j r', jf_decode f r j = Some r' -> g r' = g r).

Lemma find_field_plain name (fs : list (jfield R)) key f :
  Forall (keeps_field name) fs -> plain_name key = true -> find_field fs key = Some f -> f ∈ fs /\ jf_name f = key.
Proof.
  rewrite list.Forall_forall. intros Hfs Hkey. unfold find_field.
  destruct (find_first (fun f => jf_name f == key) fs) as [f'|] eqn:E.
  - intros [= <-]. apply find_first_Some in E as [? ?%bool_decide_eq_true]; auto.
  - intros [Hin Hf%bool_decide_eq_true]%find_first_Some. split; [exact Hin|].
    apply fold_plain_inj; [apply Hfs, Hin|exact Hkey|exact Hf].
Qed.

Lemma decode_entries_keeps name fs kvs r r' :
  Forall (keeps_field name) fs -> (forall kv, kv ∈ kvs -> plain_name kv.1 = true /\ kv.1 <> name) ->
  decode_entries fs r kvs = Some r' -> g r' = g r.
Proof.
  intros Hfs. revert r; induction kvs as [|kv kvs IH]; cbn; intros r Hk; [intros [= ->]; reflexivity|].
  unfold decode_entry. destruct (find_field fs kv.1) as [f|] eqn:Ef; cbn; [|discriminate].
  destruct (jf_decode f r kv.2) as [r1|] eqn:E1; cbn; [|discriminate].
  destruct (Hk kv ltac:(left)) as [Hp Hn].
  destruct (find_field_plain _ _ _ _ Hfs Hp Ef) as [Hin Hname].
  rewrite list.Forall_forall in Hfs. destruct (Hfs f Hin) as [_ [?|Hkeep]]; [congruence|].
  intros H. rewrite (IH r1); [eapply Hkeep, E1|intros; apply Hk; right; assumption|exact H].
Qed.
End keeps.

Lemma elem_of_insert_entry {A} (kv x : string * A) l : x ∈ insert_entry kv l <-> x = kv \/ x ∈ l.
Proof.
  induction l as [|y l IH]; cbn; [rewrite list_elem_of_singleton, elem_of_nil; tauto|].
  destruct (String.leb kv.1 y.1); rewrite !elem_of_cons, ?IH; [tauto|tauto].
Qed.
Lemma elem_of_sorted_entries {A} (m : gmap string A) kv : kv ∈ sorted_entries m <-> m !! kv.1 = Some kv.2.
Proof.
  rewrite <- elem_of_map_to_list, <- surjective_pairing. unfold sorted_entries.
  induction (map_to_list m) as [|y l IH]; cbn; [rewrite !elem_of_nil; tauto|].
  rewrite elem_of_insert_entry, elem_of_cons, IH; tauto.
Qed.

(** Without the key [name], the part [g] that only [name] writes is kept. *)
Lemma decode_keeps {R T} `{Fields R} (g : R -> T) name (d : Data) r r' :
  Forall (keeps_field g name) fields -> plain_keys d -> has_key d name = false -> decode d r = Ok r' -> g r' = g r.
Proof.
  intros Hfs Hd Hn. unfold decode.
  destruct (decode_entries fields r (sorted_entries d)) as [v|] eqn:E; [intros [= <-]|discriminate].
  revert E. apply (decode_entries_keeps g name fields _ r v Hfs). intros [k j] Hk%elem_of_sorted_entries. cbn in *.
  assert (Hin : has_key d k = true) by (apply bool_decide_eq_true; eauto).
  split; [apply Hd, Hin|congruence].
Qed.
(** A string field, empty to begin with, holds what the key [name] says. *)
Definition reads_string {R} (g : R -> string) (name : string) (f : jfield R) : Prop :=
  jf_name f = name -> forall r j r', jf_decode f r j = Some r' -> Some (g r') = decode_into (g r) j.
Lemma decode_reads {R} `{Fields R} (g : R -> string) name (d : Data) r r' :
  Forall (keeps_field g name) fields -> Forall (reads_string g name) fields -> plain_keys d -> g r = EmptyString ->
  decode d r = Ok r' -> g r' = data_string d name.
Proof.
  intros Hfs Hrs Hd Hr. unfold decode. destruct (decode_entries fields r (sorted_entries d)) as [v|] eqn:E; [intros [= <-]|discriminate].
  assert (Hall : forall kv, kv ∈ sorted_entries d -> plain_name kv.1 = true /\ d !! kv.1 = Some kv.2).
  { intros kv Hkv%elem_of_sorted_entries. split; [|exact Hkv]. apply Hd, bool_decide_eq_true. eauto. }
  assert (Hstep : forall r kv r1, kv ∈ sorted_entries d -> decode_entry fields r kv = Some r1 ->
    kv.1 <> name /\ g r1 = g r \/ kv.1 = name /\ (g r = EmptyString \/ g r = data_string d name -> g r1 = data_string d name)).
  { intros r0 kv r1 Hkv%Hall He. destruct Hkv as [Hp Hv]. unfold decode_entry in He.
    destruct (find_field fields kv.1) as [f|] eqn:Ef; cbn in He; [|discriminate].
    destruct (find_field_plain g name fields kv.1 f Hfs Hp Ef) as [Hin Hname]. rewrite list.Forall_forall in Hfs, Hrs.
    destruct (decide (kv.1 = name)) as [En|Hne].
    - right. split; [exact En|]. pose proof (Hrs f Hin (eq_trans Hname En) _ _ _ He) as Hg. rewrite En in Hv.
      assert (Ed : data_string d name = match kv.2 with JStr s => s | _ => EmptyString end) by (unfold data_string; rewrite Hv; reflexivity).
      rewrite Ed. destruct kv.2; cbn in Hg; try discriminate; injection Hg as ->; [intros [?|?]; assumption|intros _; reflexivity].
    - left. split; [exact Hne|]. destruct (Hfs f Hin) as [_ [?|Hk]]; [congruence|]. eapply Hk, He. }
  assert (Hgoal : forall l r, decode_entries fields r l = Some v -> (forall kv, kv ∈ l -> kv ∈ sorted_entries d) ->
    g r = data_string d name \/ g r = EmptyString /\ (exists kv, kv ∈ l /\ kv.1 = name) -> g v = data_string d name).
  { clear E. induction l as [|kv l IH]; cbn; intros r0 He Hl Hg.
    { injection He as <-. destruct Hg as [?|(_ & kv & Hkv & _)]; [assumption|inversion Hkv]. }
    destruct (decode_entry fields r0 kv) as [r1|] eqn:E1; cbn in He; [|discriminate].
    apply (IH r1 He); [intros kv' Hkv'; apply Hl; right; exact Hkv'|].
    destruct (Hstep r0 kv r1 (Hl kv ltac:(left)) E1) as [[Hne E2]|[E2 Hset]].
    - rewrite E2. destruct Hg as [?|(Hg & kv' & [->|Hkv']%elem_of_cons & Hn)]; [left; assumption|contradiction|right; eauto].
    - left. apply Hset. destruct Hg as [?|[? _]]; auto. }
  apply (Hgoal (sorted_entries d) r E); [auto|]. destruct (d !! name) as [j|] eqn:Ej.
  - right. split; [exact Hr|]. exists (name, j). split; [apply elem_of_sorted_entries, Ej|reflexivity].
  - left. unfold data_string. rewrite Ej. exact Hr.
Qed.
(** Discharges the side condition for a concrete struct. *)
Ltac keeps_fields :=
  repeat (apply list.Forall_cons; split;
    [split; [reflexivity|first [left; reflexivity|right; cbn; intros ? ? ?; 
       match goal with |- context [fmap _ ?o] => destruct o; [intros [= <-]; reflexivity|discriminate] end]]|]);
  apply list.Forall_nil; exact I.
(** The same for [reads_string]. *)
Ltac reads_fields :=
  repeat (apply list.Forall_cons; split;
    [first [intros ?; discriminate
           |intros _ ? j ?; destruct j; cbn; try discriminate; intros [= <-]; reflexivity]|]);
  apply list.Forall_nil; exact I.
