(* ===== verification/Delivery.v ===== *)
(** * Data exchanged with delivery providers

    The structs of [internal/delivery] (and the usage record of
    [internal/intelligence]) that domain state refers to, one record per
    struct.  Field [F] of struct [T] is the projection [T_F]; [*T] is
    [option], [[]T] is [list] (a nil and an empty slice coincide),
    [map[string]T] is [gmap string T], and [any] is [json]. *)
From S2P Require Import Prelude GoText GoJson.
Open Scope string_scope.
Open Scope list_scope.

#[export] Hint Extern 1 (Setter _) => mk_setter : typeclass_instances.

(** [delivery.Connection] — delivery/types.go *)
Record Connection := mkConnection {
  Connection_ID : string; Connection_AppID : Z; Connection_InstallationID : Z;
  Connection_PrivateKeyRef : string; Connection_Owner : string; Connection_APIURL : string;
  Connection_RegistryCredentialRef : string
}.
#[export] Instance zero_Connection : Zero Connection := mkConnection zero zero zero zero zero zero zero.
#[export] Instance Connection_eq_dec : EqDecision Connection.
Proof. solve_decision. Defined.

(** [delivery.SourcePlan] — delivery/source.go *)
Record SourcePlan := mkSourcePlan {
  SourcePlan_ResolutionSHA : string; SourcePlan_ResolutionConflictID : string;
  SourcePlan_Repository : string; SourcePlan_BaseRef : string; SourcePlan_BaseSHA : string;
  SourcePlan_TargetBranch : string; SourcePlan_OperationID : string;
  SourcePlan_HeadSHAs : list string
}.
#[export] Instance zero_SourcePlan : Zero SourcePlan := mkSourcePlan zero zero zero zero zero zero zero zero.
#[export] Instance SourcePlan_eq_dec : EqDecision SourcePlan.
Proof. solve_decision. Defined.

(** [delivery.SourceResult] — delivery/source.go *)
Record SourceResult := mkSourceResult {
  SourceResult_Branch : string; SourceResult_SHA : string; SourceResult_Conflict : bool;
  SourceResult_Detail : string
}.
#[export] Instance zero_SourceResult : Zero SourceResult := mkSourceResult zero zero zero zero.
#[export] Instance SourceResult_eq_dec : EqDecision SourceResult.
Proof. solve_decision. Defined.

(** [delivery.RuntimePod] — delivery/runtime.go *)
Record RuntimePod := mkRuntimePod {
  RuntimePod_Name : string; RuntimePod_UID : string; RuntimePod_Phase : string;
  RuntimePod_Image : string; RuntimePod_ImageID : string; RuntimePod_Ready : bool
}.
#[export] Instance zero_RuntimePod : Zero RuntimePod := mkRuntimePod zero zero zero zero zero zero.
#[export] Instance RuntimePod_eq_dec : EqDecision RuntimePod.
Proof. solve_decision. Defined.

(** [delivery.RuntimeFluxSnapshot] — delivery/runtime.go *)
Record RuntimeFluxSnapshot := mkRuntimeFluxSnapshot {
  RuntimeFluxSnapshot_Revision : string; RuntimeFluxSnapshot_Status : string;
  RuntimeFluxSnapshot_Error : string
}.
#[export] Instance zero_RuntimeFluxSnapshot : Zero RuntimeFluxSnapshot := mkRuntimeFluxSnapshot zero zero zero.
#[export] Instance RuntimeFluxSnapshot_eq_dec : EqDecision RuntimeFluxSnapshot.
Proof. solve_decision. Defined.

(** [delivery.RuntimeSnapshot] — delivery/runtime.go *)
Record DeliveryRuntimeSnapshot := mkDeliveryRuntimeSnapshot {
  DeliveryRuntimeSnapshot_Context : string; DeliveryRuntimeSnapshot_ProductID : string;
  DeliveryRuntimeSnapshot_EnvironmentID : string; DeliveryRuntimeSnapshot_ApplicationID : string;
  DeliveryRuntimeSnapshot_ObservedAt : Time; DeliveryRuntimeSnapshot_Namespace : string;
  DeliveryRuntimeSnapshot_Deployment : string; DeliveryRuntimeSnapshot_Container : string;
  DeliveryRuntimeSnapshot_WorkloadImage : string; DeliveryRuntimeSnapshot_Generation : Z;
  DeliveryRuntimeSnapshot_ObservedGeneration : Z; DeliveryRuntimeSnapshot_DesiredReplicas : Z;
  DeliveryRuntimeSnapshot_Health : string; DeliveryRuntimeSnapshot_Pods : list RuntimePod;
  DeliveryRuntimeSnapshot_Flux : option RuntimeFluxSnapshot;
  DeliveryRuntimeSnapshot_Errors : list string
}.
#[export] Instance zero_DeliveryRuntimeSnapshot : Zero DeliveryRuntimeSnapshot := mkDeliveryRuntimeSnapshot zero zero zero zero zero zero zero zero zero zero zero zero zero zero zero zero.
#[export] Instance DeliveryRuntimeSnapshot_eq_dec : EqDecision DeliveryRuntimeSnapshot.
Proof. solve_decision. Defined.

(** [delivery.BuildRequest] — delivery/types.go *)
Record BuildRequest := mkBuildRequest {
  BuildRequest_WorkflowSHA : string; BuildRequest_Repository : string;
  BuildRequest_Workflow : string; BuildRequest_Ref : string; BuildRequest_SourceSHA : string;
  BuildRequest_ImageTag : string; BuildRequest_OperationID : string;
  BuildRequest_Inputs : gmap string string; BuildRequest_RequestedAt : Time
}.
#[export] Instance zero_BuildRequest : Zero BuildRequest := mkBuildRequest zero zero zero zero zero zero zero zero zero.
#[export] Instance BuildRequest_eq_dec : EqDecision BuildRequest.
Proof. solve_decision. Defined.

(** [delivery.ActionsRun] — delivery/actions_inventory.go *)
Record ActionsRun := mkActionsRun {
  ActionsRun_ID : Z; ActionsRun_WorkflowID : Z; ActionsRun_Name : string;
  ActionsRun_HeadSHA : string; ActionsRun_HeadBranch : string; ActionsRun_Status : string;
  ActionsRun_Conclusion : string; ActionsRun_URL : string; ActionsRun_CreatedAt : Time
}.
#[export] Instance zero_ActionsRun : Zero ActionsRun := mkActionsRun zero zero zero zero zero zero zero zero zero.
#[export] Instance ActionsRun_eq_dec : EqDecision ActionsRun.
Proof. solve_decision. Defined.

(** [delivery.ReviewComment] — delivery/reviews.go *)
Record ReviewComment := mkReviewComment {
  ReviewComment_ID : Z; ReviewComment_Kind : string; ReviewComment_Author : string;
  ReviewComment_Body : string; ReviewComment_URL : string; ReviewComment_Path : string;
  ReviewComment_Line : Z; ReviewComment_Commit : string; ReviewComment_UpdatedAt : Time
}.
#[export] Instance zero_ReviewComment : Zero ReviewComment := mkReviewComment zero zero zero zero zero zero zero zero zero.
#[export] Instance ReviewComment_eq_dec : EqDecision ReviewComment.
Proof. solve_decision. Defined.

(** [delivery.PullRequestReview] — delivery/reviews.go *)
Record PullRequestReview := mkPullRequestReview {
  PullRequestReview_Number : Z; PullRequestReview_URL : string; PullRequestReview_Head : string;
  PullRequestReview_Base : string; PullRequestReview_HeadSHA : string;
  PullRequestReview_State : string; PullRequestReview_Comments : list ReviewComment
}.
#[export] Instance zero_PullRequestReview : Zero PullRequestReview := mkPullRequestReview zero zero zero zero zero zero zero.
#[export] Instance PullRequestReview_eq_dec : EqDecision PullRequestReview.
Proof. solve_decision. Defined.

(** [delivery.RunResult] — delivery/types.go *)
Record RunResult := mkRunResult {
  RunResult_Found : bool; RunResult_ID : Z; RunResult_Status : string;
  RunResult_Conclusion : string; RunResult_HeadSHA : string; RunResult_URL : string;
  RunResult_Artifacts : gmap string string
}.
#[export] Instance zero_RunResult : Zero RunResult := mkRunResult zero zero zero zero zero zero zero.
#[export] Instance RunResult_eq_dec : EqDecision RunResult.
Proof. solve_decision. Defined.

(** [intelligence.Usage] — intelligence/provider.go *)
Record Usage := mkUsage {
  Usage_Reported : bool; Usage_PromptTokens : Z; Usage_CompletionTokens : Z;
  Usage_TotalTokens : Z
}.
#[export] Instance zero_Usage : Zero Usage := mkUsage zero zero zero zero.
#[export] Instance Usage_eq_dec : EqDecision Usage.
Proof. solve_decision. Defined.

(** [delivery.GitOpsRequest] — delivery/types.go *)
Record GitOpsRequest := mkGitOpsRequest {
  GitOpsRequest_Repository : string; GitOpsRequest_Ref : string; GitOpsRequest_Path : string;
  GitOpsRequest_ImageRepository : string; GitOpsRequest_ImageField : string;
  GitOpsRequest_DigestField : string; GitOpsRequest_ExpectedHeadSHA : string
}.
#[export] Instance zero_GitOpsRequest : Zero GitOpsRequest := mkGitOpsRequest zero zero zero zero zero zero zero.
#[export] Instance GitOpsRequest_eq_dec : EqDecision GitOpsRequest.
Proof. solve_decision. Defined.

(** [delivery.RuntimeVerificationScope] — delivery/runtime.go *)
Record RuntimeVerificationScope := mkRuntimeVerificationScope {
  RuntimeVerificationScope_ProductID : string; RuntimeVerificationScope_EnvironmentID : string;
  RuntimeVerificationScope_ApplicationID : string; RuntimeVerificationScope_Context : string;
  RuntimeVerificationScope_Namespace : string; RuntimeVerificationScope_Deployment : string;
  RuntimeVerificationScope_Container : string; RuntimeVerificationScope_FluxNamespace : string;
  RuntimeVerificationScope_Kustomization : string;
  RuntimeVerificationScope_VerificationGroup : string;
  RuntimeVerificationScope_BindingHash : string
}.
#[export] Instance zero_RuntimeVerificationScope : Zero RuntimeVerificationScope := mkRuntimeVerificationScope zero zero zero zero zero zero zero zero zero zero zero.
#[export] Instance RuntimeVerificationScope_eq_dec : EqDecision RuntimeVerificationScope.
Proof. solve_decision. Defined.

(** [delivery.GitOpsRevisionProof] — delivery/gitops_revision.go *)
Record GitOpsRevisionProof := mkGitOpsRevisionProof {
  GitOpsRevisionProof_Repository : string; GitOpsRevisionProof_Ref : string;
  GitOpsRevisionProof_HeadSHA : string; GitOpsRevisionProof_AncestorSHAs : list string
}.
#[export] Instance zero_GitOpsRevisionProof : Zero GitOpsRevisionProof := mkGitOpsRevisionProof zero zero zero zero.
#[export] Instance GitOpsRevisionProof_eq_dec : EqDecision GitOpsRevisionProof.
Proof. solve_decision. Defined.

(** [delivery.GitOpsImageChange] — delivery/gitops_batch.go *)
Record GitOpsImageChange := mkGitOpsImageChange {
  GitOpsImageChange_ID : string; GitOpsImageChange_Selector : GitOpsRequest;
  GitOpsImageChange_ExpectedBlobSHA : string; GitOpsImageChange_ImageRepository : string;
  GitOpsImageChange_Digest : string
}.
#[export] Instance zero_GitOpsImageChange : Zero GitOpsImageChange := mkGitOpsImageChange zero zero zero zero zero.
#[export] Instance GitOpsImageChange_eq_dec : EqDecision GitOpsImageChange.
Proof. solve_decision. Defined.

(** [delivery.GitOpsBatchApply] — delivery/gitops_batch.go *)
Record GitOpsBatchApply := mkGitOpsBatchApply {
  GitOpsBatchApply_Repository : string; GitOpsBatchApply_Ref : string;
  GitOpsBatchApply_ExpectedHeadSHA : string; GitOpsBatchApply_OperationID : string;
  GitOpsBatchApply_Message : string; GitOpsBatchApply_Changes : list GitOpsImageChange
}.
#[export] Instance zero_GitOpsBatchApply : Zero GitOpsBatchApply := mkGitOpsBatchApply zero zero zero zero zero zero.
#[export] Instance GitOpsBatchApply_eq_dec : EqDecision GitOpsBatchApply.
Proof. solve_decision. Defined.

(** [delivery.GitOpsPullRequest] — delivery/gitops_pr.go *)
Record GitOpsPullRequest := mkGitOpsPullRequest {
  GitOpsPullRequest_Number : Z; GitOpsPullRequest_URL : string;
  GitOpsPullRequest_HeadSHA : string; GitOpsPullRequest_State : string;
  GitOpsPullRequest_Merged : bool; GitOpsPullRequest_MergedAt : option Time
}.
#[export] Instance zero_GitOpsPullRequest : Zero GitOpsPullRequest := mkGitOpsPullRequest zero zero zero zero zero zero.
#[export] Instance GitOpsPullRequest_eq_dec : EqDecision GitOpsPullRequest.
Proof. solve_decision. Defined.

(** [delivery.ArtifactResult] — delivery/types.go *)
Record ArtifactResult := mkArtifactResult {
  ArtifactResult_Available : bool; ArtifactResult_Digest : string; ArtifactResult_URI : string;
  ArtifactResult_ObservedAt : Time
}.
#[export] Instance zero_ArtifactResult : Zero ArtifactResult := mkArtifactResult zero zero zero zero.
#[export] Instance ArtifactResult_eq_dec : EqDecision ArtifactResult.
Proof. solve_decision. Defined.

(** [delivery.CheckRunIdentity] — delivery/checks.go *)
Record CheckRunIdentity := mkCheckRunIdentity {
  CheckRunIdentity_RepositoryID : Z; CheckRunIdentity_Repository : string;
  CheckRunIdentity_HeadSHA : string; CheckRunIdentity_Name : string;
  CheckRunIdentity_ExternalID : string; CheckRunIdentity_AppID : Z
}.
#[export] Instance zero_CheckRunIdentity : Zero CheckRunIdentity := mkCheckRunIdentity zero zero zero zero zero zero.
#[export] Instance CheckRunIdentity_eq_dec : EqDecision CheckRunIdentity.
Proof. solve_decision. Defined.

(** [delivery.CheckRunOutput] — delivery/checks.go *)
Record CheckRunOutput := mkCheckRunOutput {
  CheckRunOutput_Title : string; CheckRunOutput_Summary : string
}.
#[export] Instance zero_CheckRunOutput : Zero CheckRunOutput := mkCheckRunOutput zero zero.
#[export] Instance CheckRunOutput_eq_dec : EqDecision CheckRunOutput.
Proof. solve_decision. Defined.

(** [delivery.CheckRunWrite] — delivery/checks.go *)
Record CheckRunWrite := mkCheckRunWrite {
  CheckRunWrite_Identity : CheckRunIdentity; CheckRunWrite_ID : Z; CheckRunWrite_Status : string;
  CheckRunWrite_Conclusion : string; CheckRunWrite_StartedAt : Time;
  CheckRunWrite_CompletedAt : Time; CheckRunWrite_Output : CheckRunOutput
}.
#[export] Instance zero_CheckRunWrite : Zero CheckRunWrite := mkCheckRunWrite zero zero zero zero zero zero zero.
#[export] Instance CheckRunWrite_eq_dec : EqDecision CheckRunWrite.
Proof. solve_decision. Defined.

(** [delivery.CheckRunObservation] — delivery/checks.go *)
Record CheckRunObservation := mkCheckRunObservation {
  CheckRunObservation_Found : bool; CheckRunObservation_ID : Z;
  CheckRunObservation_Identity : CheckRunIdentity; CheckRunObservation_Status : string;
  CheckRunObservation_Conclusion : string; CheckRunObservation_StartedAt : Time;
  CheckRunObservation_CompletedAt : Time; CheckRunObservation_Output : CheckRunOutput
}.
#[export] Instance zero_CheckRunObservation : Zero CheckRunObservation := mkCheckRunObservation zero zero zero zero zero zero zero zero.
#[export] Instance CheckRunObservation_eq_dec : EqDecision CheckRunObservation.
Proof. solve_decision. Defined.

(** [delivery.GitOpsSnapshot] — delivery/types.go *)
Record GitOpsSnapshot := mkGitOpsSnapshot {
  GitOpsSnapshot_ImageRepository : string; GitOpsSnapshot_HeadSHA : string;
  GitOpsSnapshot_BlobSHA : string; GitOpsSnapshot_Content : string;
  GitOpsSnapshot_Digest : string
}.
#[export] Instance zero_GitOpsSnapshot : Zero GitOpsSnapshot := mkGitOpsSnapshot zero zero zero zero zero.
#[export] Instance GitOpsSnapshot_eq_dec : EqDecision GitOpsSnapshot.
Proof. solve_decision. Defined.

(** [delivery.GitOpsResult] — delivery/types.go *)
Record GitOpsResult := mkGitOpsResult {
  GitOpsResult_CommitSHA : string; GitOpsResult_BlobSHA : string; GitOpsResult_URL : string;
  GitOpsResult_AlreadyApplied : bool
}.
#[export] Instance zero_GitOpsResult : Zero GitOpsResult := mkGitOpsResult zero zero zero zero.
#[export] Instance GitOpsResult_eq_dec : EqDecision GitOpsResult.
Proof. solve_decision. Defined.

(** [delivery.CommitInfo] — delivery/types.go *)
Record CommitInfo := mkCommitInfo {
  CommitInfo_SHA : string; CommitInfo_Message : string; CommitInfo_Author : string;
  CommitInfo_AuthoredAt : Time; CommitInfo_URL : string
}.
#[export] Instance zero_CommitInfo : Zero CommitInfo := mkCommitInfo zero zero zero zero zero.
#[export] Instance CommitInfo_eq_dec : EqDecision CommitInfo.
Proof. solve_decision. Defined.
