(* ===== verification/Domain.v ===== *)
(** * Domain state

    The structs of [internal/domain] reachable from [domain.State], one record
    per struct, with the field conventions of [Delivery].  An embedded struct
    is a field of its own; the embedded [Meta] is reached through the class
    [HasMeta], so [ID v] and [ProductID v] read as in the source. *)
From S2P Require Import Prelude GoText GoJson Delivery.
Open Scope string_scope.
Open Scope list_scope.

(** [domain.Meta] — domain/model.go *)
Record Meta := mkMeta {
  Meta_ID : string; Meta_ProductID : string; Meta_FeatureID : string; Meta_Actor : string;
  Meta_CreatedAt : Time; Meta_UpdatedAt : Time
}.
#[export] Instance zero_Meta : Zero Meta := mkMeta zero zero zero zero zero zero.
#[export] Instance Meta_eq_dec : EqDecision Meta.
Proof. solve_decision. Defined.

(** Promoted fields of the embedded [Meta]. *)
Class HasMeta (A : Type) := meta_of : A -> Meta.
Definition ID {A} `{HasMeta A} (v : A) : string := Meta_ID (meta_of v).
Definition ProductID {A} `{HasMeta A} (v : A) : string := Meta_ProductID (meta_of v).
Definition FeatureID {A} `{HasMeta A} (v : A) : string := Meta_FeatureID (meta_of v).
Definition Actor {A} `{HasMeta A} (v : A) : string := Meta_Actor (meta_of v).
Definition CreatedAt {A} `{HasMeta A} (v : A) : Time := Meta_CreatedAt (meta_of v).
Definition UpdatedAt {A} `{HasMeta A} (v : A) : Time := Meta_UpdatedAt (meta_of v).

(** [domain.IntelligencePatchBinding] — domain/intelligence.go *)
Record IntelligencePatchBinding := mkIntelligencePatchBinding {
  IntelligencePatchBinding_TaskID : string; IntelligencePatchBinding_ResultFingerprint : string;
  IntelligencePatchBinding_BaseSHA : string; IntelligencePatchBinding_HeadSHA : string;
  IntelligencePatchBinding_AllowedPaths : list string
}.
#[export] Instance zero_IntelligencePatchBinding : Zero IntelligencePatchBinding := mkIntelligencePatchBinding zero zero zero zero zero.
#[export] Instance IntelligencePatchBinding_eq_dec : EqDecision IntelligencePatchBinding.
Proof. solve_decision. Defined.

(** [domain.RegistryScope] — domain/registry_inventory.go *)
Record RegistryScope := mkRegistryScope {
  RegistryScope_ProductID : string; RegistryScope_ComponentID : string;
  RegistryScope_RepositoryID : string; RegistryScope_Origin : string;
  RegistryScope_Repository : string; RegistryScope_ImageRepository : string
}.
#[export] Instance zero_RegistryScope : Zero RegistryScope := mkRegistryScope zero zero zero zero zero zero.
#[export] Instance RegistryScope_eq_dec : EqDecision RegistryScope.
Proof. solve_decision. Defined.

(** [domain.RegistryObserveLimits] — domain/registry_inventory.go *)
Record RegistryObserveLimits := mkRegistryObserveLimits {
  RegistryObserveLimits_MaxResponseBytes : Z; RegistryObserveLimits_MaxTotalBytes : Z;
  RegistryObserveLimits_MaxNodes : Z; RegistryObserveLimits_MaxEdges : Z;
  RegistryObserveLimits_MaxDepth : Z; RegistryObserveLimits_MaxPages : Z;
  RegistryObserveLimits_MaxRequests : Z; RegistryObserveLimits_TimeoutSeconds : Z
}.
#[export] Instance zero_RegistryObserveLimits : Zero RegistryObserveLimits := mkRegistryObserveLimits zero zero zero zero zero zero zero zero.
#[export] Instance RegistryObserveLimits_eq_dec : EqDecision RegistryObserveLimits.
Proof. solve_decision. Defined.

(** [domain.WorkerRegistryInputs] — domain/registry_inventory.go *)
Record WorkerRegistryInputs := mkWorkerRegistryInputs {
  WorkerRegistryInputs_Scope : RegistryScope; WorkerRegistryInputs_Roots : list string;
  WorkerRegistryInputs_RootSetHash : string;
  WorkerRegistryInputs_RequestRetentionInputHash : string;
  WorkerRegistryInputs_Limits : RegistryObserveLimits
}.
#[export] Instance zero_WorkerRegistryInputs : Zero WorkerRegistryInputs := mkWorkerRegistryInputs zero zero zero zero zero.
#[export] Instance WorkerRegistryInputs_eq_dec : EqDecision WorkerRegistryInputs.
Proof. solve_decision. Defined.

(** [domain.WorkerCheckBinding] — domain/worker_jobs.go *)
Record WorkerCheckBinding := mkWorkerCheckBinding {
  WorkerCheckBinding_Name : string; WorkerCheckBinding_ExpectedAppID : Z;
  WorkerCheckBinding_FinalizeSeconds : Z
}.
#[export] Instance zero_WorkerCheckBinding : Zero WorkerCheckBinding := mkWorkerCheckBinding zero zero zero.
#[export] Instance WorkerCheckBinding_eq_dec : EqDecision WorkerCheckBinding.
Proof. solve_decision. Defined.

(** [domain.WorkerSourceProof] — domain/worker_jobs.go *)
Record WorkerSourceProof := mkWorkerSourceProof {
  WorkerSourceProof_ParentHash : string; WorkerSourceProof_DeliveryID : string;
  WorkerSourceProof_ParentID : string; WorkerSourceProof_SnapshotHash : string
}.
#[export] Instance zero_WorkerSourceProof : Zero WorkerSourceProof := mkWorkerSourceProof zero zero zero zero.
#[export] Instance WorkerSourceProof_eq_dec : EqDecision WorkerSourceProof.
Proof. solve_decision. Defined.

(** [domain.WorkerSourceFetch] — domain/worker_jobs.go *)
Record WorkerSourceFetch := mkWorkerSourceFetch {
  WorkerSourceFetch_Provider : string; WorkerSourceFetch_RepositoryID : Z;
  WorkerSourceFetch_TimeoutSeconds : Z; WorkerSourceFetch_MaxDownloadBytes : Z;
  WorkerSourceFetch_MaxRequests : Z; WorkerSourceFetch_MaxEntries : Z;
  WorkerSourceFetch_MaxDepth : Z
}.
#[export] Instance zero_WorkerSourceFetch : Zero WorkerSourceFetch := mkWorkerSourceFetch zero zero zero zero zero zero zero.
#[export] Instance WorkerSourceFetch_eq_dec : EqDecision WorkerSourceFetch.
Proof. solve_decision. Defined.

(** [domain.WorkerRuntimeRootFS] — domain/worker_jobs.go *)
Record WorkerRuntimeRootFS := mkWorkerRuntimeRootFS {
  WorkerRuntimeRootFS_Hash : string; WorkerRuntimeRootFS_ArchiveBytes : Z;
  WorkerRuntimeRootFS_MaxExpandedBytes : Z; WorkerRuntimeRootFS_MaxEntries : Z;
  WorkerRuntimeRootFS_InputsHash : string
}.
#[export] Instance zero_WorkerRuntimeRootFS : Zero WorkerRuntimeRootFS := mkWorkerRuntimeRootFS zero zero zero zero zero.
#[export] Instance WorkerRuntimeRootFS_eq_dec : EqDecision WorkerRuntimeRootFS.
Proof. solve_decision. Defined.

(** [domain.WorkerExecution] — domain/worker_jobs.go *)
Record WorkerExecution := mkWorkerExecution {
  WorkerExecution_SourceFetch : option WorkerSourceFetch;
  WorkerExecution_RuntimeRootFS : option WorkerRuntimeRootFS; WorkerExecution_Kind : string;
  WorkerExecution_ToolchainImage : string; WorkerExecution_BuildKitImage : string;
  WorkerExecution_Platform : string; WorkerExecution_CheckArgv : list string;
  WorkerExecution_BuildArgv : list string; WorkerExecution_OutputFile : string;
  WorkerExecution_ImagePath : string; WorkerExecution_Entrypoint : list string;
  WorkerExecution_Network : string; WorkerExecution_TimeoutSeconds : Z;
  WorkerExecution_MemoryMB : Z; WorkerExecution_StorageMB : Z; WorkerExecution_CPUs : Z;
  WorkerExecution_PIDs : Z; WorkerExecution_SourceBytes : Z; WorkerExecution_OutputBytes : Z;
  WorkerExecution_LogBytes : Z
}.
#[export] Instance zero_WorkerExecution : Zero WorkerExecution := mkWorkerExecution zero zero zero zero zero zero zero zero zero zero zero zero zero zero zero zero zero zero zero zero.
#[export] Instance WorkerExecution_eq_dec : EqDecision WorkerExecution.
Proof. solve_decision. Defined.

(** [domain.WorkerLocalOCI] — domain/worker_jobs.go *)
Record WorkerLocalOCI := mkWorkerLocalOCI {
  WorkerLocalOCI_RuntimeRootFS : option WorkerRuntimeRootFS; WorkerLocalOCI_JobID : string;
  WorkerLocalOCI_AttemptID : string; WorkerLocalOCI_InputHash : string;
  WorkerLocalOCI_SourceSHA : string; WorkerLocalOCI_RecipeHash : string;
  WorkerLocalOCI_ConfigRevision : string; WorkerLocalOCI_ToolchainImage : string;
  WorkerLocalOCI_Platform : string; WorkerLocalOCI_ArchiveHash : string;
  WorkerLocalOCI_LayoutHash : string; WorkerLocalOCI_IndexDigest : string;
  WorkerLocalOCI_ManifestDigest : string; WorkerLocalOCI_ArchiveBytes : Z
}.
#[export] Instance zero_WorkerLocalOCI : Zero WorkerLocalOCI := mkWorkerLocalOCI zero zero zero zero zero zero zero zero zero zero zero zero zero zero.
#[export] Instance WorkerLocalOCI_eq_dec : EqDecision WorkerLocalOCI.
Proof. solve_decision. Defined.

(** [domain.WorkerPublication] — domain/worker_jobs.go *)
Record WorkerPublication := mkWorkerPublication {
  WorkerPublication_ComponentID : string; WorkerPublication_Profile : string;
  WorkerPublication_Origin : string; WorkerPublication_Repository : string;
  WorkerPublication_Receipt : WorkerLocalOCI
}.
#[export] Instance zero_WorkerPublication : Zero WorkerPublication := mkWorkerPublication zero zero zero zero zero.
#[export] Instance WorkerPublication_eq_dec : EqDecision WorkerPublication.
Proof. solve_decision. Defined.

(** [domain.WorkerInputs] — domain/worker_jobs.go *)
Record WorkerInputs := mkWorkerInputs {
  WorkerInputs_IntelligencePatch : option IntelligencePatchBinding;
  WorkerInputs_Registry : option WorkerRegistryInputs;
  WorkerInputs_Check : option WorkerCheckBinding;
  WorkerInputs_SourceProof : option WorkerSourceProof; WorkerInputs_RecipeID : string;
  WorkerInputs_RecipeRevision : string; WorkerInputs_RecipeHash : string;
  WorkerInputs_ConfigRevision : string; WorkerInputs_RepositoryID : string;
  WorkerInputs_RepositoryURL : string; WorkerInputs_RevisionID : string;
  WorkerInputs_SourceSHA : string; WorkerInputs_Trust : string;
  WorkerInputs_Parameters : gmap string json; WorkerInputs_Execution : option WorkerExecution;
  WorkerInputs_Publication : option WorkerPublication
}.
#[export] Instance zero_WorkerInputs : Zero WorkerInputs := mkWorkerInputs zero zero zero zero zero zero zero zero zero zero zero zero zero zero zero zero.
#[export] Instance WorkerInputs_eq_dec : EqDecision WorkerInputs.
Proof. solve_decision. Defined.

(** [domain.RegistryPlatform] — domain/registry_inventory.go *)
Record RegistryPlatform := mkRegistryPlatform {
  RegistryPlatform_OS : string; RegistryPlatform_Architecture : string;
  RegistryPlatform_Variant : string
}.
#[export] Instance zero_RegistryPlatform : Zero RegistryPlatform := mkRegistryPlatform zero zero zero.
#[export] Instance RegistryPlatform_eq_dec : EqDecision RegistryPlatform.
Proof. solve_decision. Defined.

(** [domain.RegistryImageContentDescriptor] — domain/registry_image_content.go *)
Record RegistryImageContentDescriptor := mkRegistryImageContentDescriptor {
  RegistryImageContentDescriptor_Digest : string; RegistryImageContentDescriptor_Kind : string;
  RegistryImageContentDescriptor_MediaType : string; RegistryImageContentDescriptor_Size : Z;
  RegistryImageContentDescriptor_Platform : option RegistryPlatform
}.
#[export] Instance zero_RegistryImageContentDescriptor : Zero RegistryImageContentDescriptor := mkRegistryImageContentDescriptor zero zero zero zero zero.
#[export] Instance RegistryImageContentDescriptor_eq_dec : EqDecision RegistryImageContentDescriptor.
Proof. solve_decision. Defined.

(** [domain.RegistryImageContentManifest] — domain/registry_image_content.go *)
Record RegistryImageContentManifest := mkRegistryImageContentManifest {
  RegistryImageContentManifest_Digest : string; RegistryImageContentManifest_Kind : string;
  RegistryImageContentManifest_MediaType : string; RegistryImageContentManifest_Size : Z;
  RegistryImageContentManifest_DescriptorCount : Z;
  RegistryImageContentManifest_DescriptorHash : string;
  RegistryImageContentManifest_Descriptors : list RegistryImageContentDescriptor
}.
#[export] Instance zero_RegistryImageContentManifest : Zero RegistryImageContentManifest := mkRegistryImageContentManifest zero zero zero zero zero zero zero.
#[export] Instance RegistryImageContentManifest_eq_dec : EqDecision RegistryImageContentManifest.
Proof. solve_decision. Defined.

(** [domain.RegistryImageContentRoot] — domain/registry_image_content.go *)
Record RegistryImageContentRoot := mkRegistryImageContentRoot {
  RegistryImageContentRoot_Digest : string; RegistryImageContentRoot_Closure : string;
  RegistryImageContentRoot_Manifests : list RegistryImageContentManifest;
  RegistryImageContentRoot_Hash : string
}.
#[export] Instance zero_RegistryImageContentRoot : Zero RegistryImageContentRoot := mkRegistryImageContentRoot zero zero zero zero.
#[export] Instance RegistryImageContentRoot_eq_dec : EqDecision RegistryImageContentRoot.
Proof. solve_decision. Defined.

(** [domain.RegistryNode] — domain/registry_inventory.go *)
Record RegistryNode := mkRegistryNode {
  RegistryNode_Digest : string; RegistryNode_Kind : string; RegistryNode_MediaType : string;
  RegistryNode_Availability : string; RegistryNode_Size : Z
}.
#[export] Instance zero_RegistryNode : Zero RegistryNode := mkRegistryNode zero zero zero zero zero.
#[export] Instance RegistryNode_eq_dec : EqDecision RegistryNode.
Proof. solve_decision. Defined.

(** [domain.RegistryEdge] — domain/registry_inventory.go *)
Record RegistryEdge := mkRegistryEdge {
  RegistryEdge_From : string; RegistryEdge_To : string; RegistryEdge_Kind : string;
  RegistryEdge_Platform : option RegistryPlatform
}.
#[export] Instance zero_RegistryEdge : Zero RegistryEdge := mkRegistryEdge zero zero zero zero.
#[export] Instance RegistryEdge_eq_dec : EqDecision RegistryEdge.
Proof. solve_decision. Defined.

(** [domain.RegistryRoot] — domain/registry_inventory.go *)
Record RegistryRoot := mkRegistryRoot {
  RegistryRoot_Digest : string; RegistryRoot_Closure : string;
  RegistryRoot_Blockers : list string
}.
#[export] Instance zero_RegistryRoot : Zero RegistryRoot := mkRegistryRoot zero zero zero.
#[export] Instance RegistryRoot_eq_dec : EqDecision RegistryRoot.
Proof. solve_decision. Defined.

(** [domain.RegistryGraph] — domain/registry_inventory.go *)
Record RegistryGraph := mkRegistryGraph {
  RegistryGraph_ImageContentRoots : list RegistryImageContentRoot;
  RegistryGraph_Nodes : list RegistryNode; RegistryGraph_Edges : list RegistryEdge;
  RegistryGraph_Roots : list RegistryRoot; RegistryGraph_TagCount : Z;
  RegistryGraph_TagSetHash : string; RegistryGraph_Discovery : string;
  RegistryGraph_GlobalInventoryComplete : bool; RegistryGraph_Blockers : list string;
  RegistryGraph_GraphHash : string
}.
#[export] Instance zero_RegistryGraph : Zero RegistryGraph := mkRegistryGraph zero zero zero zero zero zero zero zero zero zero.
#[export] Instance RegistryGraph_eq_dec : EqDecision RegistryGraph.
Proof. solve_decision. Defined.

(** [domain.WorkerRegistryReport] — domain/registry_inventory.go *)
Record WorkerRegistryReport := mkWorkerRegistryReport {
  WorkerRegistryReport_Kind : string; WorkerRegistryReport_Scope : RegistryScope;
  WorkerRegistryReport_RecipeID : string; WorkerRegistryReport_RecipeRevision : string;
  WorkerRegistryReport_RecipeHash : string; WorkerRegistryReport_ConfigRevision : string;
  WorkerRegistryReport_RootSetHash : string; WorkerRegistryReport_StartedAt : Time;
  WorkerRegistryReport_FinishedAt : Time; WorkerRegistryReport_Requests : Z;
  WorkerRegistryReport_Bytes : Z; WorkerRegistryReport_Graph : RegistryGraph
}.
#[export] Instance zero_WorkerRegistryReport : Zero WorkerRegistryReport := mkWorkerRegistryReport zero zero zero zero zero zero zero zero zero zero zero zero.
#[export] Instance WorkerRegistryReport_eq_dec : EqDecision WorkerRegistryReport.
Proof. solve_decision. Defined.

(** [domain.RegistryInventory] — domain/registry_inventory.go *)
Record RegistryInventory := mkRegistryInventory {
  RegistryInventory_Meta : Meta; RegistryInventory_JobID : string;
  RegistryInventory_AttemptID : string; RegistryInventory_Fence : Z;
  RegistryInventory_InputHash : string; RegistryInventory_Inputs : WorkerInputs;
  RegistryInventory_Report : WorkerRegistryReport; RegistryInventory_ReceivedAt : Time
}.
#[export] Instance zero_RegistryInventory : Zero RegistryInventory := mkRegistryInventory zero zero zero zero zero zero zero zero.
#[export] Instance RegistryInventory_eq_dec : EqDecision RegistryInventory.
Proof. solve_decision. Defined.
#[export] Instance meta_RegistryInventory : HasMeta RegistryInventory := RegistryInventory_Meta.

(** [domain.ArtifactPin] — domain/artifact_pins.go *)
Record ArtifactPin := mkArtifactPin {
  ArtifactPin_Meta : Meta; ArtifactPin_ApplicationID : string;
  ArtifactPin_ImageRepository : string; ArtifactPin_Digest : string;
  ArtifactPin_Purpose : string; ArtifactPin_RequestKey : string;
  ArtifactPin_RequestHash : string; ArtifactPin_ReleasedAt : option Time
}.
#[export] Instance zero_ArtifactPin : Zero ArtifactPin := mkArtifactPin zero zero zero zero zero zero zero zero.
#[export] Instance ArtifactPin_eq_dec : EqDecision ArtifactPin.
Proof. solve_decision. Defined.
#[export] Instance meta_ArtifactPin : HasMeta ArtifactPin := ArtifactPin_Meta.

(** [domain.NativeQuarantine] — domain/worker_jobs.go *)
Record NativeQuarantine := mkNativeQuarantine {
  NativeQuarantine_Meta : Meta; NativeQuarantine_RestoreID : string
}.
#[export] Instance zero_NativeQuarantine : Zero NativeQuarantine := mkNativeQuarantine zero zero.
#[export] Instance NativeQuarantine_eq_dec : EqDecision NativeQuarantine.
Proof. solve_decision. Defined.
#[export] Instance meta_NativeQuarantine : HasMeta NativeQuarantine := NativeQuarantine_Meta.

(** [domain.WorkerJob] — domain/worker_jobs.go *)
Record WorkerJob := mkWorkerJob {
  WorkerJob_CheckOperationID : string; WorkerJob_Meta : Meta; WorkerJob_OperationID : string;
  WorkerJob_RequestKey : string; WorkerJob_RequestHash : string;
  WorkerJob_IntegrationID : string; WorkerJob_Capability : string;
  WorkerJob_Inputs : WorkerInputs; WorkerJob_InputHash : string; WorkerJob_Status : string;
  WorkerJob_Deadline : Time; WorkerJob_MaxAttempts : Z; WorkerJob_Fence : Z;
  WorkerJob_CancellationRequested : bool
}.
#[export] Instance zero_WorkerJob : Zero WorkerJob := mkWorkerJob zero zero zero zero zero zero zero zero zero zero zero zero zero zero.
#[export] Instance WorkerJob_eq_dec : EqDecision WorkerJob.
Proof. solve_decision. Defined.
#[export] Instance meta_WorkerJob : HasMeta WorkerJob := WorkerJob_Meta.

(** [domain.WorkerAttemptRequest] — domain/worker_jobs.go *)
Record WorkerAttemptRequest := mkWorkerAttemptRequest {
  WorkerAttemptRequest_JobID : string; WorkerAttemptRequest_AttemptID : string;
  WorkerAttemptRequest_Fence : Z; WorkerAttemptRequest_InputHash : string
}.
#[export] Instance zero_WorkerAttemptRequest : Zero WorkerAttemptRequest := mkWorkerAttemptRequest zero zero zero zero.
#[export] Instance WorkerAttemptRequest_eq_dec : EqDecision WorkerAttemptRequest.
Proof. solve_decision. Defined.

(** [domain.WorkerPublicationReport] — domain/worker_jobs.go *)
Record WorkerPublicationReport := mkWorkerPublicationReport {
  WorkerPublicationReport_ManifestDigest : string
}.
#[export] Instance zero_WorkerPublicationReport : Zero WorkerPublicationReport := mkWorkerPublicationReport zero.
#[export] Instance WorkerPublicationReport_eq_dec : EqDecision WorkerPublicationReport.
Proof. solve_decision. Defined.

(** [domain.WorkerReport] — domain/worker_jobs.go *)
Record WorkerReport := mkWorkerReport {
  WorkerReport_Registry : option WorkerRegistryReport;
  WorkerReport_WorkerAttemptRequest : WorkerAttemptRequest; WorkerReport_Result : string;
  WorkerReport_EvidenceHash : string; WorkerReport_LocalOCI : option WorkerLocalOCI;
  WorkerReport_Publication : option WorkerPublicationReport
}.
#[export] Instance zero_WorkerReport : Zero WorkerReport := mkWorkerReport zero zero zero zero zero zero.
#[export] Instance WorkerReport_eq_dec : EqDecision WorkerReport.
Proof. solve_decision. Defined.

(** [domain.WorkerAttempt] — domain/worker_jobs.go *)
Record WorkerAttempt := mkWorkerAttempt {
  WorkerAttempt_Meta : Meta; WorkerAttempt_JobID : string; WorkerAttempt_Principal : string;
  WorkerAttempt_Fence : Z; WorkerAttempt_InputHash : string; WorkerAttempt_LeaseUntil : Time;
  WorkerAttempt_Status : string; WorkerAttempt_Report : option WorkerReport
}.
#[export] Instance zero_WorkerAttempt : Zero WorkerAttempt := mkWorkerAttempt zero zero zero zero zero zero zero zero.
#[export] Instance WorkerAttempt_eq_dec : EqDecision WorkerAttempt.
Proof. solve_decision. Defined.
#[export] Instance meta_WorkerAttempt : HasMeta WorkerAttempt := WorkerAttempt_Meta.

(** [domain.SourceRevisionRetention] — domain/flow.go *)
Record SourceRevisionRetention := mkSourceRevisionRetention {
  SourceRevisionRetention_RevisionID : string; SourceRevisionRetention_Branch : string;
  SourceRevisionRetention_HeadCommit : string
}.
#[export] Instance zero_SourceRevisionRetention : Zero SourceRevisionRetention := mkSourceRevisionRetention zero zero zero.
#[export] Instance SourceRevisionRetention_eq_dec : EqDecision SourceRevisionRetention.
Proof. solve_decision. Defined.

(** [domain.SourceRetentionIntent] — domain/flow.go *)
Record SourceRetentionIntent := mkSourceRetentionIntent {
  SourceRetentionIntent_ProductID : string; SourceRetentionIntent_OperationID : string;
  SourceRetentionIntent_EnvironmentID : string; SourceRetentionIntent_RepositoryID : string;
  SourceRetentionIntent_OriginOperationID : string; SourceRetentionIntent_InputHash : string;
  SourceRetentionIntent_Revisions : list SourceRevisionRetention
}.
#[export] Instance zero_SourceRetentionIntent : Zero SourceRetentionIntent := mkSourceRetentionIntent zero zero zero zero zero zero zero.
#[export] Instance SourceRetentionIntent_eq_dec : EqDecision SourceRetentionIntent.
Proof. solve_decision. Defined.

(** [domain.SourceRetentionObservation] — domain/flow.go *)
Record SourceRetentionObservation := mkSourceRetentionObservation {
  SourceRetentionObservation_IntentHash : string; SourceRetentionObservation_RevisionID : string;
  SourceRetentionObservation_Branch : string; SourceRetentionObservation_HeadCommit : string;
  SourceRetentionObservation_ObservedAt : Time
}.
#[export] Instance zero_SourceRetentionObservation : Zero SourceRetentionObservation := mkSourceRetentionObservation zero zero zero zero zero.
#[export] Instance SourceRetentionObservation_eq_dec : EqDecision SourceRetentionObservation.
Proof. solve_decision. Defined.

(** [domain.FlowSource] — domain/flow.go *)
Record FlowSource := mkFlowSource {
  FlowSource_Retention : option SourceRetentionIntent;
  FlowSource_Retained : list SourceRetentionObservation; FlowSource_RepositoryID : string;
  FlowSource_Connection : Connection; FlowSource_Plan : SourcePlan;
  FlowSource_Result : option SourceResult; FlowSource_MainAdvanced : bool
}.
#[export] Instance zero_FlowSource : Zero FlowSource := mkFlowSource zero zero zero zero zero zero zero.
#[export] Instance FlowSource_eq_dec : EqDecision FlowSource.
Proof. solve_decision. Defined.

(** [domain.Branch] — domain/model.go *)
Record Branch := mkBranch {
  Branch_RepositoryID : string; Branch_Name : string
}.
#[export] Instance zero_Branch : Zero Branch := mkBranch zero zero.
#[export] Instance Branch_eq_dec : EqDecision Branch.
Proof. solve_decision. Defined.

(** [domain.Commit] — domain/model.go *)
Record Commit := mkCommit {
  Commit_RepositoryID : string; Commit_SHA : string
}.
#[export] Instance zero_Commit : Zero Commit := mkCommit zero zero.
#[export] Instance Commit_eq_dec : EqDecision Commit.
Proof. solve_decision. Defined.

(** [domain.PullRequest] — domain/model.go *)
Record PullRequest := mkPullRequest {
  PullRequest_RepositoryID : string; PullRequest_ID : string; PullRequest_URL : string;
  PullRequest_Status : string
}.
#[export] Instance zero_PullRequest : Zero PullRequest := mkPullRequest zero zero zero zero.
#[export] Instance PullRequest_eq_dec : EqDecision PullRequest.
Proof. solve_decision. Defined.

(** [domain.Integration] — domain/model.go *)
Record Integration := mkIntegration {
  Integration_Kind : string; Integration_FixesFindingID : string; Integration_Meta : Meta;
  Integration_Title : string; Integration_Objective : string; Integration_Rationale : string;
  Integration_Dependencies : list string; Integration_AcceptanceCriteria : list string;
  Integration_Status : string; Integration_Owner : string;
  Integration_Repositories : list string; Integration_Branches : list Branch;
  Integration_Commits : list Commit; Integration_PullRequests : list PullRequest;
  Integration_Completed : list string; Integration_Remaining : list string;
  Integration_WorkingAreas : list string; Integration_Position : Z
}.
#[export] Instance zero_Integration : Zero Integration := mkIntegration zero zero zero zero zero zero zero zero zero zero zero zero zero zero zero zero zero zero.
#[export] Instance Integration_eq_dec : EqDecision Integration.
Proof. solve_decision. Defined.
#[export] Instance meta_Integration : HasMeta Integration := Integration_Meta.

(** [domain.Feature] — domain/model.go *)
Record Feature := mkFeature {
  Feature_Meta : Meta; Feature_Title : string; Feature_Problem : string; Feature_Goal : string;
  Feature_Requirements : list string; Feature_Constraints : list string;
  Feature_Context : string; Feature_Repositories : list string; Feature_Owner : string;
  Feature_Status : string
}.
#[export] Instance zero_Feature : Zero Feature := mkFeature zero zero zero zero zero zero zero zero zero zero.
#[export] Instance Feature_eq_dec : EqDecision Feature.
Proof. solve_decision. Defined.
#[export] Instance meta_Feature : HasMeta Feature := Feature_Meta.

(** [domain.Gate] — domain/model.go *)
Record Gate := mkGate {
  Gate_Meta : Meta; Gate_Title : string; Gate_Reason : string; Gate_IntegrationIDs : list string;
  Gate_Position : Z; Gate_Blocking : bool; Gate_EnvironmentID : string; Gate_Commit : string;
  Gate_Deployment : string; Gate_Result : string
}.
#[export] Instance zero_Gate : Zero Gate := mkGate zero zero zero zero zero zero zero zero zero zero.
#[export] Instance Gate_eq_dec : EqDecision Gate.
Proof. solve_decision. Defined.
#[export] Instance meta_Gate : HasMeta Gate := Gate_Meta.

(** [domain.Check] — domain/model.go *)
Record Check := mkCheck {
  Check_Meta : Meta; Check_GateID : string; Check_Title : string; Check_Mechanism : string;
  Check_Instructions : string
}.
#[export] Instance zero_Check : Zero Check := mkCheck zero zero zero zero zero.
#[export] Instance Check_eq_dec : EqDecision Check.
Proof. solve_decision. Defined.
#[export] Instance meta_Check : HasMeta Check := Check_Meta.

(** [domain.Memory] — domain/model.go *)
Record Memory := mkMemory {
  Memory_Meta : Meta; Memory_IntegrationID : string; Memory_Kind : string; Memory_Title : string;
  Memory_Body : string; Memory_Reason : string; Memory_Status : string;
  Memory_Completed : list string; Memory_Current : string; Memory_Remaining : list string;
  Memory_Next : list string; Memory_Warnings : list string; Memory_Commit : string;
  Memory_Deployment : string; Memory_Session : string; Memory_Resolution : string
}.
#[export] Instance zero_Memory : Zero Memory := mkMemory zero zero zero zero zero zero zero zero zero zero zero zero zero zero zero zero.
#[export] Instance Memory_eq_dec : EqDecision Memory.
Proof. solve_decision. Defined.
#[export] Instance meta_Memory : HasMeta Memory := Memory_Meta.

(** [domain.CompositionConflict] — domain/composition_conflict.go *)
Record CompositionConflict := mkCompositionConflict {
  CompositionConflict_Meta : Meta; CompositionConflict_OperationID : string;
  CompositionConflict_RepositoryID : string; CompositionConflict_CompositionID : string;
  CompositionConflict_Source : FlowSource; CompositionConflict_Integrations : list Integration;
  CompositionConflict_Features : list Feature; CompositionConflict_Gates : list Gate;
  CompositionConflict_Checks : list Check; CompositionConflict_Memories : list Memory;
  CompositionConflict_Status : string; CompositionConflict_ClaimedBy : string;
  CompositionConflict_ResolutionCommit : string; CompositionConflict_Rationale : string;
  CompositionConflict_ResultIDs : list string
}.
#[export] Instance zero_CompositionConflict : Zero CompositionConflict := mkCompositionConflict zero zero zero zero zero zero zero zero zero zero zero zero zero zero zero.
#[export] Instance CompositionConflict_eq_dec : EqDecision CompositionConflict.
Proof. solve_decision. Defined.
#[export] Instance meta_CompositionConflict : HasMeta CompositionConflict := CompositionConflict_Meta.

(** [domain.ProductArea] — domain/workspace.go *)
Record ProductArea := mkProductArea {
  ProductArea_ID : string; ProductArea_Name : string; ProductArea_ParentID : string;
  ProductArea_Description : string; ProductArea_RepositoryIDs : list string
}.
#[export] Instance zero_ProductArea : Zero ProductArea := mkProductArea zero zero zero zero zero.
#[export] Instance ProductArea_eq_dec : EqDecision ProductArea.
Proof. solve_decision. Defined.

(** [domain.AreaRelationship] — domain/workspace.go *)
Record AreaRelationship := mkAreaRelationship {
  AreaRelationship_From : string; AreaRelationship_To : string; AreaRelationship_Type : string;
  AreaRelationship_Contract : string
}.
#[export] Instance zero_AreaRelationship : Zero AreaRelationship := mkAreaRelationship zero zero zero zero.
#[export] Instance AreaRelationship_eq_dec : EqDecision AreaRelationship.
Proof. solve_decision. Defined.

(** [domain.KnowledgeNode] — domain/workspace.go *)
Record KnowledgeNode := mkKnowledgeNode {
  KnowledgeNode_Meta : Meta; KnowledgeNode_Kind : string; KnowledgeNode_Title : string;
  KnowledgeNode_Content : string; KnowledgeNode_Keywords : list string;
  KnowledgeNode_AreaID : string; KnowledgeNode_RepositoryIDs : list string;
  KnowledgeNode_RelatedNodeIDs : list string; KnowledgeNode_Status : string
}.
#[export] Instance zero_KnowledgeNode : Zero KnowledgeNode := mkKnowledgeNode zero zero zero zero zero zero zero zero zero.
#[export] Instance KnowledgeNode_eq_dec : EqDecision KnowledgeNode.
Proof. solve_decision. Defined.
#[export] Instance meta_KnowledgeNode : HasMeta KnowledgeNode := KnowledgeNode_Meta.

(** [domain.KnowledgeEdge] — domain/workspace.go *)
Record KnowledgeEdge := mkKnowledgeEdge {
  KnowledgeEdge_From : string; KnowledgeEdge_To : string; KnowledgeEdge_Type : string;
  KnowledgeEdge_Description : string
}.
#[export] Instance zero_KnowledgeEdge : Zero KnowledgeEdge := mkKnowledgeEdge zero zero zero zero.
#[export] Instance KnowledgeEdge_eq_dec : EqDecision KnowledgeEdge.
Proof. solve_decision. Defined.

(** [domain.ProjectKnowledge] — domain/workspace.go *)
Record ProjectKnowledge := mkProjectKnowledge {
  ProjectKnowledge_Meta : Meta; ProjectKnowledge_Overview : string;
  ProjectKnowledge_Instructions : string; ProjectKnowledge_Areas : list ProductArea;
  ProjectKnowledge_Relationships : list AreaRelationship;
  ProjectKnowledge_Nodes : list KnowledgeNode; ProjectKnowledge_Edges : list KnowledgeEdge;
  ProjectKnowledge_Parameters : gmap string string
}.
#[export] Instance zero_ProjectKnowledge : Zero ProjectKnowledge := mkProjectKnowledge zero zero zero zero zero zero zero zero.
#[export] Instance ProjectKnowledge_eq_dec : EqDecision ProjectKnowledge.
Proof. solve_decision. Defined.
#[export] Instance meta_ProjectKnowledge : HasMeta ProjectKnowledge := ProjectKnowledge_Meta.

(** [domain.RepositoryDocument] — domain/workspace.go *)
Record RepositoryDocument := mkRepositoryDocument {
  RepositoryDocument_Path : string; RepositoryDocument_Content : string;
  RepositoryDocument_SHA256 : string; RepositoryDocument_Truncated : bool
}.
#[export] Instance zero_RepositoryDocument : Zero RepositoryDocument := mkRepositoryDocument zero zero zero zero.
#[export] Instance RepositoryDocument_eq_dec : EqDecision RepositoryDocument.
Proof. solve_decision. Defined.

(** [domain.LocalCheckout] — domain/workspace.go *)
Record LocalCheckout := mkLocalCheckout {
  LocalCheckout_ScanID : string; LocalCheckout_Meta : Meta; LocalCheckout_RepositoryID : string;
  LocalCheckout_Workspace : string; LocalCheckout_RelativePath : string;
  LocalCheckout_Branch : string; LocalCheckout_Commit : string;
  LocalCheckout_Agents : option RepositoryDocument; LocalCheckout_Errors : list string
}.
#[export] Instance zero_LocalCheckout : Zero LocalCheckout := mkLocalCheckout zero zero zero zero zero zero zero zero zero.
#[export] Instance LocalCheckout_eq_dec : EqDecision LocalCheckout.
Proof. solve_decision. Defined.
#[export] Instance meta_LocalCheckout : HasMeta LocalCheckout := LocalCheckout_Meta.

(** [domain.WorkspaceDocument] — domain/workspace.go *)
Record WorkspaceDocument := mkWorkspaceDocument {
  WorkspaceDocument_Meta : Meta; WorkspaceDocument_Workspace : string;
  WorkspaceDocument_Agents : option RepositoryDocument
}.
#[export] Instance zero_WorkspaceDocument : Zero WorkspaceDocument := mkWorkspaceDocument zero zero zero.
#[export] Instance WorkspaceDocument_eq_dec : EqDecision WorkspaceDocument.
Proof. solve_decision. Defined.
#[export] Instance meta_WorkspaceDocument : HasMeta WorkspaceDocument := WorkspaceDocument_Meta.

(** [domain.PublicationTarget] — domain/publications.go *)
Record PublicationTarget := mkPublicationTarget {
  PublicationTarget_Meta : Meta; PublicationTarget_ApplicationID : string;
  PublicationTarget_Format : string; PublicationTarget_RegistryURL : string;
  PublicationTarget_PackageName : string
}.
#[export] Instance zero_PublicationTarget : Zero PublicationTarget := mkPublicationTarget zero zero zero zero zero.
#[export] Instance PublicationTarget_eq_dec : EqDecision PublicationTarget.
Proof. solve_decision. Defined.
#[export] Instance meta_PublicationTarget : HasMeta PublicationTarget := PublicationTarget_Meta.

(** [domain.PackageArtifact] — domain/publications.go *)
Record PackageArtifact := mkPackageArtifact {
  PackageArtifact_Meta : Meta; PackageArtifact_IntegrationID : string;
  PackageArtifact_ApplicationID : string; PackageArtifact_RepositoryID : string;
  PackageArtifact_SourceCommit : string; PackageArtifact_PublicationTargetID : string;
  PackageArtifact_Version : string; PackageArtifact_Checksum : string;
  PackageArtifact_URI : string; PackageArtifact_BuildURL : string
}.
#[export] Instance zero_PackageArtifact : Zero PackageArtifact := mkPackageArtifact zero zero zero zero zero zero zero zero zero zero.
#[export] Instance PackageArtifact_eq_dec : EqDecision PackageArtifact.
Proof. solve_decision. Defined.
#[export] Instance meta_PackageArtifact : HasMeta PackageArtifact := PackageArtifact_Meta.

(** [domain.ScenarioVersion] — domain/scenarios.go *)
Record ScenarioVersion := mkScenarioVersion {
  ScenarioVersion_Meta : Meta; ScenarioVersion_ScenarioID : string; ScenarioVersion_Version : Z;
  ScenarioVersion_IntegrationIDs : list string; ScenarioVersion_Title : string;
  ScenarioVersion_Objective : string; ScenarioVersion_Preconditions : list string;
  ScenarioVersion_Steps : list string; ScenarioVersion_ExpectedOutcomes : list string;
  ScenarioVersion_Mechanism : string; ScenarioVersion_Blocking : bool
}.
#[export] Instance zero_ScenarioVersion : Zero ScenarioVersion := mkScenarioVersion zero zero zero zero zero zero zero zero zero zero zero.
#[export] Instance ScenarioVersion_eq_dec : EqDecision ScenarioVersion.
Proof. solve_decision. Defined.
#[export] Instance meta_ScenarioVersion : HasMeta ScenarioVersion := ScenarioVersion_Meta.

(** [domain.ScenarioComponentEvidence] — domain/scenarios.go *)
Record ScenarioComponentEvidence := mkScenarioComponentEvidence {
  ScenarioComponentEvidence_ApplicationID : string;
  ScenarioComponentEvidence_OperationID : string; ScenarioComponentEvidence_SourceSHA : string;
  ScenarioComponentEvidence_ArtifactDigest : string;
  ScenarioComponentEvidence_DeploymentEvidence : string
}.
#[export] Instance zero_ScenarioComponentEvidence : Zero ScenarioComponentEvidence := mkScenarioComponentEvidence zero zero zero zero zero.
#[export] Instance ScenarioComponentEvidence_eq_dec : EqDecision ScenarioComponentEvidence.
Proof. solve_decision. Defined.

(** [domain.Artifact] — domain/model.go *)
Record Artifact := mkArtifact {
  Artifact_Kind : string; Artifact_URL : string; Artifact_Label : string
}.
#[export] Instance zero_Artifact : Zero Artifact := mkArtifact zero zero zero.
#[export] Instance Artifact_eq_dec : EqDecision Artifact.
Proof. solve_decision. Defined.

(** [domain.ScenarioRun] — domain/scenarios.go *)
Record ScenarioRun := mkScenarioRun {
  ScenarioRun_Meta : Meta; ScenarioRun_ScenarioVersionID : string;
  ScenarioRun_CompositionID : string; ScenarioRun_CandidateOperationID : string;
  ScenarioRun_EnvironmentID : string; ScenarioRun_Components : list ScenarioComponentEvidence;
  ScenarioRun_Result : string; ScenarioRun_Observations : list string;
  ScenarioRun_Artifacts : list Artifact; ScenarioRun_FindingIDs : list string
}.
#[export] Instance zero_ScenarioRun : Zero ScenarioRun := mkScenarioRun zero zero zero zero zero zero zero zero zero zero.
#[export] Instance ScenarioRun_eq_dec : EqDecision ScenarioRun.
Proof. solve_decision. Defined.
#[export] Instance meta_ScenarioRun : HasMeta ScenarioRun := ScenarioRun_Meta.

(** [domain.RuntimeExpected] — domain/runtime_snapshot.go *)
Record RuntimeExpected := mkRuntimeExpected {
  RuntimeExpected_ImageRepository : string; RuntimeExpected_Value : string;
  RuntimeExpected_GitOpsCommit : string; RuntimeExpected_Error : string
}.
#[export] Instance zero_RuntimeExpected : Zero RuntimeExpected := mkRuntimeExpected zero zero zero zero.
#[export] Instance RuntimeExpected_eq_dec : EqDecision RuntimeExpected.
Proof. solve_decision. Defined.

(** [domain.NativeObservation] — domain/worker_jobs.go *)
Record NativeObservation := mkNativeObservation {
  NativeObservation_ManifestDigest : string; NativeObservation_ConfigDigest : string;
  NativeObservation_LayerDigest : string; NativeObservation_Platform : string;
  NativeObservation_Bytes : Z; NativeObservation_ObservedAt : Time
}.
#[export] Instance zero_NativeObservation : Zero NativeObservation := mkNativeObservation zero zero zero zero zero zero.
#[export] Instance NativeObservation_eq_dec : EqDecision NativeObservation.
Proof. solve_decision. Defined.

(** [domain.NativeReconciliation] — domain/worker_jobs.go *)
Record NativeReconciliation := mkNativeReconciliation {
  NativeReconciliation_Actor : string; NativeReconciliation_At : Time;
  NativeReconciliation_AttemptStatus : string
}.
#[export] Instance zero_NativeReconciliation : Zero NativeReconciliation := mkNativeReconciliation zero zero zero.
#[export] Instance NativeReconciliation_eq_dec : EqDecision NativeReconciliation.
Proof. solve_decision. Defined.

(** [domain.NativeArtifact] — domain/worker_jobs.go *)
Record NativeArtifact := mkNativeArtifact {
  NativeArtifact_PublicationJobID : string; NativeArtifact_PublicationAttemptID : string;
  NativeArtifact_PublicationInputHash : string; NativeArtifact_Profile : string;
  NativeArtifact_Receipt : WorkerLocalOCI; NativeArtifact_Observation : NativeObservation;
  NativeArtifact_Reconciliation : option NativeReconciliation
}.
#[export] Instance zero_NativeArtifact : Zero NativeArtifact := mkNativeArtifact zero zero zero zero zero zero zero.
#[export] Instance NativeArtifact_eq_dec : EqDecision NativeArtifact.
Proof. solve_decision. Defined.

(** [domain.DeliveryArtifact] — domain/external.go *)
Record DeliveryArtifact := mkDeliveryArtifact {
  DeliveryArtifact_Provenance : string; DeliveryArtifact_Native : option NativeArtifact;
  DeliveryArtifact_Meta : Meta; DeliveryArtifact_OperationID : string;
  DeliveryArtifact_ApplicationID : string; DeliveryArtifact_RepositoryID : string;
  DeliveryArtifact_SourceCommit : string; DeliveryArtifact_ImageRepository : string;
  DeliveryArtifact_Tag : string; DeliveryArtifact_Digest : string;
  DeliveryArtifact_Availability : string; DeliveryArtifact_ObservedAt : Time;
  DeliveryArtifact_BuildRequest : BuildRequest; DeliveryArtifact_BuildRunID : Z
}.
#[export] Instance zero_DeliveryArtifact : Zero DeliveryArtifact := mkDeliveryArtifact zero zero zero zero zero zero zero zero zero zero zero zero zero zero.
#[export] Instance DeliveryArtifact_eq_dec : EqDecision DeliveryArtifact.
Proof. solve_decision. Defined.
#[export] Instance meta_DeliveryArtifact : HasMeta DeliveryArtifact := DeliveryArtifact_Meta.

(** [domain.RuntimeSnapshot] — domain/runtime_snapshot.go *)
Record RuntimeSnapshot := mkRuntimeSnapshot {
  RuntimeSnapshot_Meta : Meta; RuntimeSnapshot_OperationID : string;
  RuntimeSnapshot_EnvironmentID : string; RuntimeSnapshot_ApplicationID : string;
  RuntimeSnapshot_Runtime : DeliveryRuntimeSnapshot; RuntimeSnapshot_Expected : RuntimeExpected;
  RuntimeSnapshot_ReferenceComparison : string; RuntimeSnapshot_Comparison : string;
  RuntimeSnapshot_ArtifactMatches : list DeliveryArtifact;
  RuntimeSnapshot_ActionsRuns : list ActionsRun; RuntimeSnapshot_ActionsError : string
}.
#[export] Instance zero_RuntimeSnapshot : Zero RuntimeSnapshot := mkRuntimeSnapshot zero zero zero zero zero zero zero zero zero zero zero.
#[export] Instance RuntimeSnapshot_eq_dec : EqDecision RuntimeSnapshot.
Proof. solve_decision. Defined.
#[export] Instance meta_RuntimeSnapshot : HasMeta RuntimeSnapshot := RuntimeSnapshot_Meta.

(** [domain.RuntimeObservation] — domain/flow.go *)
Record RuntimeObservation := mkRuntimeObservation {
  RuntimeObservation_Meta : Meta; RuntimeObservation_OperationID : string;
  RuntimeObservation_EnvironmentID : string; RuntimeObservation_GitOpsCommit : string;
  RuntimeObservation_ArtifactDigest : string; RuntimeObservation_Healthy : bool;
  RuntimeObservation_Details : string
}.
#[export] Instance zero_RuntimeObservation : Zero RuntimeObservation := mkRuntimeObservation zero zero zero zero zero zero zero.
#[export] Instance RuntimeObservation_eq_dec : EqDecision RuntimeObservation.
Proof. solve_decision. Defined.
#[export] Instance meta_RuntimeObservation : HasMeta RuntimeObservation := RuntimeObservation_Meta.

(** [domain.ReviewSync] — domain/reviews.go *)
Record ReviewSync := mkReviewSync {
  ReviewSync_Meta : Meta; ReviewSync_IntegrationID : string; ReviewSync_RepositoryID : string;
  ReviewSync_Review : PullRequestReview; ReviewSync_Status : string
}.
#[export] Instance zero_ReviewSync : Zero ReviewSync := mkReviewSync zero zero zero zero zero.
#[export] Instance ReviewSync_eq_dec : EqDecision ReviewSync.
Proof. solve_decision. Defined.
#[export] Instance meta_ReviewSync : HasMeta ReviewSync := ReviewSync_Meta.

(** [domain.DeliveryBuildRun] — domain/external.go *)
Record DeliveryBuildRun := mkDeliveryBuildRun {
  DeliveryBuildRun_Meta : Meta; DeliveryBuildRun_OperationID : string;
  DeliveryBuildRun_ApplicationID : string; DeliveryBuildRun_Request : BuildRequest;
  DeliveryBuildRun_Result : RunResult
}.
#[export] Instance zero_DeliveryBuildRun : Zero DeliveryBuildRun := mkDeliveryBuildRun zero zero zero zero zero.
#[export] Instance DeliveryBuildRun_eq_dec : EqDecision DeliveryBuildRun.
Proof. solve_decision. Defined.
#[export] Instance meta_DeliveryBuildRun : HasMeta DeliveryBuildRun := DeliveryBuildRun_Meta.

(** [domain.ExternalSystem] — domain/external_systems.go *)
Record ExternalSystem := mkExternalSystem {
  ExternalSystem_Meta : Meta; ExternalSystem_Name : string; ExternalSystem_Description : string;
  ExternalSystem_Team : string; ExternalSystem_Contact : string;
  ExternalSystem_Interfaces : list string; ExternalSystem_Contracts : list string;
  ExternalSystem_Notes : string
}.
#[export] Instance zero_ExternalSystem : Zero ExternalSystem := mkExternalSystem zero zero zero zero zero zero zero zero.
#[export] Instance ExternalSystem_eq_dec : EqDecision ExternalSystem.
Proof. solve_decision. Defined.
#[export] Instance meta_ExternalSystem : HasMeta ExternalSystem := ExternalSystem_Meta.

(** [domain.SystemRelationship] — domain/external_systems.go *)
Record SystemRelationship := mkSystemRelationship {
  SystemRelationship_Meta : Meta; SystemRelationship_ComponentID : string;
  SystemRelationship_ExternalSystemID : string; SystemRelationship_Type : string;
  SystemRelationship_Notes : string
}.
#[export] Instance zero_SystemRelationship : Zero SystemRelationship := mkSystemRelationship zero zero zero zero zero.
#[export] Instance SystemRelationship_eq_dec : EqDecision SystemRelationship.
Proof. solve_decision. Defined.
#[export] Instance meta_SystemRelationship : HasMeta SystemRelationship := SystemRelationship_Meta.

(** [domain.ExternalScope] — domain/external_systems.go *)
Record ExternalScope := mkExternalScope {
  ExternalScope_Meta : Meta; ExternalScope_IntegrationID : string; ExternalScope_GateID : string;
  ExternalScope_ExternalSystemIDs : list string; ExternalScope_RelationshipIDs : list string
}.
#[export] Instance zero_ExternalScope : Zero ExternalScope := mkExternalScope zero zero zero zero zero.
#[export] Instance ExternalScope_eq_dec : EqDecision ExternalScope.
Proof. solve_decision. Defined.
#[export] Instance meta_ExternalScope : HasMeta ExternalScope := ExternalScope_Meta.

(** [domain.RegisteredRepository] — domain/external.go *)
Record RegisteredRepository := mkRegisteredRepository {
  RegisteredRepository_ProviderAPIURL : string; RegisteredRepository_ConnectionIDs : list string;
  RegisteredRepository_Meta : Meta; RegisteredRepository_ConnectionID : string;
  RegisteredRepository_ProviderRepositoryID : Z; RegisteredRepository_FullName : string;
  RegisteredRepository_DefaultBranch : string; RegisteredRepository_URL : string;
  RegisteredRepository_Private : bool; RegisteredRepository_ObservedAt : Time
}.
#[export] Instance zero_RegisteredRepository : Zero RegisteredRepository := mkRegisteredRepository zero zero zero zero zero zero zero zero zero zero.
#[export] Instance RegisteredRepository_eq_dec : EqDecision RegisteredRepository.
Proof. solve_decision. Defined.
#[export] Instance meta_RegisteredRepository : HasMeta RegisteredRepository := RegisteredRepository_Meta.

(** [domain.ConnectionGrant] — domain/external.go *)
Record ConnectionGrant := mkConnectionGrant {
  ConnectionGrant_Meta : Meta; ConnectionGrant_ConnectionID : string
}.
#[export] Instance zero_ConnectionGrant : Zero ConnectionGrant := mkConnectionGrant zero zero.
#[export] Instance ConnectionGrant_eq_dec : EqDecision ConnectionGrant.
Proof. solve_decision. Defined.
#[export] Instance meta_ConnectionGrant : HasMeta ConnectionGrant := ConnectionGrant_Meta.

(** [domain.GitHubConnection] — domain/external.go *)
Record GitHubConnection := mkGitHubConnection {
  GitHubConnection_Connected : bool; GitHubConnection_LastTestedAt : option Time;
  GitHubConnection_LastError : string; GitHubConnection_RepositoryCount : Z;
  GitHubConnection_Meta : Meta; GitHubConnection_Name : string;
  GitHubConnection_Config : Connection
}.
#[export] Instance zero_GitHubConnection : Zero GitHubConnection := mkGitHubConnection zero zero zero zero zero zero zero.
#[export] Instance GitHubConnection_eq_dec : EqDecision GitHubConnection.
Proof. solve_decision. Defined.
#[export] Instance meta_GitHubConnection : HasMeta GitHubConnection := GitHubConnection_Meta.

(** [domain.RepositoryBinding] — domain/external.go *)
Record RepositoryBinding := mkRepositoryBinding {
  RepositoryBinding_BaseBranch : string; RepositoryBinding_Meta : Meta;
  RepositoryBinding_RepositoryID : string; RepositoryBinding_ConnectionID : string;
  RepositoryBinding_FullName : string; RepositoryBinding_Role : string;
  RepositoryBinding_DefaultBranch : string
}.
#[export] Instance zero_RepositoryBinding : Zero RepositoryBinding := mkRepositoryBinding zero zero zero zero zero zero zero.
#[export] Instance RepositoryBinding_eq_dec : EqDecision RepositoryBinding.
Proof. solve_decision. Defined.
#[export] Instance meta_RepositoryBinding : HasMeta RepositoryBinding := RepositoryBinding_Meta.

(** [domain.NativeBinding] — domain/external.go *)
Record NativeBinding := mkNativeBinding {
  NativeBinding_BuildRecipeID : string; NativeBinding_PublicationRecipeID : string;
  NativeBinding_Parameters : gmap string json
}.
#[export] Instance zero_NativeBinding : Zero NativeBinding := mkNativeBinding zero zero zero.
#[export] Instance NativeBinding_eq_dec : EqDecision NativeBinding.
Proof. solve_decision. Defined.

(** [domain.ComponentBuild] — domain/external.go *)
Record ComponentBuild := mkComponentBuild {
  ComponentBuild_Native : option NativeBinding; ComponentBuild_Mode : string;
  ComponentBuild_Profile : string; ComponentBuild_RebuildMissing : bool;
  ComponentBuild_Meta : Meta; ComponentBuild_ApplicationID : string;
  ComponentBuild_ConnectionID : string; ComponentBuild_Workflow : string;
  ComponentBuild_ImageRepository : string; ComponentBuild_WorkflowRef : string;
  ComponentBuild_Inputs : gmap string string
}.
#[export] Instance zero_ComponentBuild : Zero ComponentBuild := mkComponentBuild zero zero zero zero zero zero zero zero zero zero zero.
#[export] Instance ComponentBuild_eq_dec : EqDecision ComponentBuild.
Proof. solve_decision. Defined.
#[export] Instance meta_ComponentBuild : HasMeta ComponentBuild := ComponentBuild_Meta.

(** [domain.EnvironmentBinding] — domain/external.go *)
Record EnvironmentBinding := mkEnvironmentBinding {
  EnvironmentBinding_GitOpsMode : string; EnvironmentBinding_Meta : Meta;
  EnvironmentBinding_EnvironmentID : string; EnvironmentBinding_ApplicationID : string;
  EnvironmentBinding_Purpose : string; EnvironmentBinding_ConnectionID : string;
  EnvironmentBinding_RepositoryID : string; EnvironmentBinding_Ref : string;
  EnvironmentBinding_Path : string; EnvironmentBinding_ImageField : string;
  EnvironmentBinding_DigestField : string; EnvironmentBinding_AllowDeploy : bool
}.
#[export] Instance zero_EnvironmentBinding : Zero EnvironmentBinding := mkEnvironmentBinding zero zero zero zero zero zero zero zero zero zero zero zero.
#[export] Instance EnvironmentBinding_eq_dec : EqDecision EnvironmentBinding.
Proof. solve_decision. Defined.
#[export] Instance meta_EnvironmentBinding : HasMeta EnvironmentBinding := EnvironmentBinding_Meta.

(** [domain.IntelligenceTask] — domain/intelligence.go *)
Record IntelligenceTask := mkIntelligenceTask {
  IntelligenceTask_ConflictID : string; IntelligenceTask_SourceOperationID : string;
  IntelligenceTask_Kind : string; IntelligenceTask_ConfigRevision : string;
  IntelligenceTask_PromptVersion : string; IntelligenceTask_Model : string;
  IntelligenceTask_InputFingerprint : string; IntelligenceTask_ResultFingerprint : string;
  IntelligenceTask_InputCiphertext : string; IntelligenceTask_ResultCiphertext : string;
  IntelligenceTask_Usage : Usage
}.
#[export] Instance zero_IntelligenceTask : Zero IntelligenceTask := mkIntelligenceTask zero zero zero zero zero zero zero zero zero zero zero.
#[export] Instance IntelligenceTask_eq_dec : EqDecision IntelligenceTask.
Proof. solve_decision. Defined.

(** [domain.EnvironmentSelection] — domain/external.go *)
Record EnvironmentSelection := mkEnvironmentSelection {
  EnvironmentSelection_CompositionID : string; EnvironmentSelection_OperationID : string;
  EnvironmentSelection_Generation : Z
}.
#[export] Instance zero_EnvironmentSelection : Zero EnvironmentSelection := mkEnvironmentSelection zero zero zero.
#[export] Instance EnvironmentSelection_eq_dec : EqDecision EnvironmentSelection.
Proof. solve_decision. Defined.

(** [domain.DevRestorationRequest] — domain/dev_restoration.go *)
Record DevRestorationRequest := mkDevRestorationRequest {
  DevRestorationRequest_ReservationOperationID : string;
  DevRestorationRequest_RestorationOperationID : string;
  DevRestorationRequest_RestorationVerificationOperationID : string;
  DevRestorationRequest_ExpectedPlanHash : string; DevRestorationRequest_RequestKey : string;
  DevRestorationRequest_ExpectedSelection : option EnvironmentSelection
}.
#[export] Instance zero_DevRestorationRequest : Zero DevRestorationRequest := mkDevRestorationRequest zero zero zero zero zero zero.
#[export] Instance DevRestorationRequest_eq_dec : EqDecision DevRestorationRequest.
Proof. solve_decision. Defined.

(** [domain.DevRuntimeGitOpsObservation] — domain/dev_runtime.go *)
Record DevRuntimeGitOpsObservation := mkDevRuntimeGitOpsObservation {
  DevRuntimeGitOpsObservation_ImageRepository : string;
  DevRuntimeGitOpsObservation_HeadSHA : string; DevRuntimeGitOpsObservation_BlobSHA : string;
  DevRuntimeGitOpsObservation_ContentHash : string; DevRuntimeGitOpsObservation_Digest : string
}.
#[export] Instance zero_DevRuntimeGitOpsObservation : Zero DevRuntimeGitOpsObservation := mkDevRuntimeGitOpsObservation zero zero zero zero zero.
#[export] Instance DevRuntimeGitOpsObservation_eq_dec : EqDecision DevRuntimeGitOpsObservation.
Proof. solve_decision. Defined.

(** [domain.DevBaselineComponent] — domain/dev_baseline.go *)
Record DevBaselineComponent := mkDevBaselineComponent {
  DevBaselineComponent_ApplicationID : string; DevBaselineComponent_RepositoryID : string;
  DevBaselineComponent_ConnectionID : string; DevBaselineComponent_ConfigHash : string;
  DevBaselineComponent_AuthorityHash : string; DevBaselineComponent_ImageRepository : string;
  DevBaselineComponent_Digest : string; DevBaselineComponent_GitOps : GitOpsRequest;
  DevBaselineComponent_Scopes : list RuntimeVerificationScope;
  DevBaselineComponent_ObservedGitOps : option DevRuntimeGitOpsObservation;
  DevBaselineComponent_Revision : option GitOpsRevisionProof;
  DevBaselineComponent_ArtifactID : string; DevBaselineComponent_ArtifactHash : string;
  DevBaselineComponent_RegistryJobID : string; DevBaselineComponent_RegistryInputHash : string;
  DevBaselineComponent_RegistryRootSetHash : string
}.
#[export] Instance zero_DevBaselineComponent : Zero DevBaselineComponent := mkDevBaselineComponent zero zero zero zero zero zero zero zero zero zero zero zero zero zero zero zero.
#[export] Instance DevBaselineComponent_eq_dec : EqDecision DevBaselineComponent.
Proof. solve_decision. Defined.

(** [domain.DevRestorationEffect] — domain/dev_restoration.go *)
Record DevRestorationEffect := mkDevRestorationEffect {
  DevRestorationEffect_OperationID : string; DevRestorationEffect_Connection : Connection;
  DevRestorationEffect_Batch : option GitOpsBatchApply;
  DevRestorationEffect_PullRequest : option GitOpsPullRequest;
  DevRestorationEffect_NoIntent : bool
}.
#[export] Instance zero_DevRestorationEffect : Zero DevRestorationEffect := mkDevRestorationEffect zero zero zero zero zero.
#[export] Instance DevRestorationEffect_eq_dec : EqDecision DevRestorationEffect.
Proof. solve_decision. Defined.

(** [domain.DevRestorationProof] — domain/dev_restoration.go *)
Record DevRestorationProof := mkDevRestorationProof {
  DevRestorationProof_Request : DevRestorationRequest;
  DevRestorationProof_ReservationOperationID : string;
  DevRestorationProof_ReservationHash : string; DevRestorationProof_BaselineCaptureID : string;
  DevRestorationProof_BaselineCaptureHash : string; DevRestorationProof_Generation : Z;
  DevRestorationProof_Epoch : Z; DevRestorationProof_Selection : EnvironmentSelection;
  DevRestorationProof_Deadline : Time;
  DevRestorationProof_Components : list DevBaselineComponent;
  DevRestorationProof_Effects : list DevRestorationEffect;
  DevRestorationProof_SnapshotHash : string
}.
#[export] Instance zero_DevRestorationProof : Zero DevRestorationProof := mkDevRestorationProof zero zero zero zero zero zero zero zero zero zero zero zero.
#[export] Instance DevRestorationProof_eq_dec : EqDecision DevRestorationProof.
Proof. solve_decision. Defined.

(** [domain.DevRestorationMember] — domain/dev_restoration.go *)
Record DevRestorationMember := mkDevRestorationMember {
  DevRestorationMember_ApplicationID : string; DevRestorationMember_GroupID : string;
  DevRestorationMember_Original : DevRuntimeGitOpsObservation;
  DevRestorationMember_Current : DevRuntimeGitOpsObservation;
  DevRestorationMember_Selector : GitOpsRequest; DevRestorationMember_NoWrite : bool
}.
#[export] Instance zero_DevRestorationMember : Zero DevRestorationMember := mkDevRestorationMember zero zero zero zero zero zero.
#[export] Instance DevRestorationMember_eq_dec : EqDecision DevRestorationMember.
Proof. solve_decision. Defined.

(** [domain.DevRestorationGroup] — domain/dev_restoration.go *)
Record DevRestorationGroup := mkDevRestorationGroup {
  DevRestorationGroup_MergedAt : option Time; DevRestorationGroup_ID : string;
  DevRestorationGroup_LeaderID : string; DevRestorationGroup_Connection : Connection;
  DevRestorationGroup_Repository : string; DevRestorationGroup_Ref : string;
  DevRestorationGroup_Batch : option GitOpsBatchApply; DevRestorationGroup_IntentHash : string;
  DevRestorationGroup_SendStarted : bool;
  DevRestorationGroup_PullRequest : option GitOpsPullRequest;
  DevRestorationGroup_Result : list DevRuntimeGitOpsObservation
}.
#[export] Instance zero_DevRestorationGroup : Zero DevRestorationGroup := mkDevRestorationGroup zero zero zero zero zero zero zero zero zero zero zero.
#[export] Instance DevRestorationGroup_eq_dec : EqDecision DevRestorationGroup.
Proof. solve_decision. Defined.

(** [domain.DevRestorationPlan] — domain/dev_restoration.go *)
Record DevRestorationPlan := mkDevRestorationPlan {
  DevRestorationPlan_ExpectedHash : string; DevRestorationPlan_SettlementHash : string;
  DevRestorationPlan_Components : list DevRestorationMember;
  DevRestorationPlan_Groups : list DevRestorationGroup; DevRestorationPlan_Hash : string
}.
#[export] Instance zero_DevRestorationPlan : Zero DevRestorationPlan := mkDevRestorationPlan zero zero zero zero zero.
#[export] Instance DevRestorationPlan_eq_dec : EqDecision DevRestorationPlan.
Proof. solve_decision. Defined.

(** [domain.DevRestorationConfirmation] — domain/dev_restoration.go *)
Record DevRestorationConfirmation := mkDevRestorationConfirmation {
  DevRestorationConfirmation_Request : DevRestorationRequest;
  DevRestorationConfirmation_RestorationHash : string;
  DevRestorationConfirmation_Plan : DevRestorationPlan;
  DevRestorationConfirmation_TrustGrade : string; DevRestorationConfirmation_ConfirmedAt : Time;
  DevRestorationConfirmation_Hash : string
}.
#[export] Instance zero_DevRestorationConfirmation : Zero DevRestorationConfirmation := mkDevRestorationConfirmation zero zero zero zero zero zero.
#[export] Instance DevRestorationConfirmation_eq_dec : EqDecision DevRestorationConfirmation.
Proof. solve_decision. Defined.

(** [domain.DevRuntimeRequest] — domain/dev_runtime.go *)
Record DevRuntimeRequest := mkDevRuntimeRequest {
  DevRuntimeRequest_ActivationOperationID : string; DevRuntimeRequest_RequestKey : string;
  DevRuntimeRequest_ExpectedSelection : option EnvironmentSelection
}.
#[export] Instance zero_DevRuntimeRequest : Zero DevRuntimeRequest := mkDevRuntimeRequest zero zero zero.
#[export] Instance DevRuntimeRequest_eq_dec : EqDecision DevRuntimeRequest.
Proof. solve_decision. Defined.

(** [domain.DevRuntimeComponent] — domain/dev_runtime.go *)
Record DevRuntimeComponent := mkDevRuntimeComponent {
  DevRuntimeComponent_AuthorityHash : string; DevRuntimeComponent_ApplicationID : string;
  DevRuntimeComponent_ChildID : string; DevRuntimeComponent_ArtifactID : string;
  DevRuntimeComponent_ImageRepository : string; DevRuntimeComponent_Digest : string;
  DevRuntimeComponent_GitOps : GitOpsRequest; DevRuntimeComponent_GitOpsCommit : string;
  DevRuntimeComponent_ConfigHash : string;
  DevRuntimeComponent_Scopes : list RuntimeVerificationScope
}.
#[export] Instance zero_DevRuntimeComponent : Zero DevRuntimeComponent := mkDevRuntimeComponent zero zero zero zero zero zero zero zero zero zero.
#[export] Instance DevRuntimeComponent_eq_dec : EqDecision DevRuntimeComponent.
Proof. solve_decision. Defined.

(** [domain.DevRuntimeProof] — domain/dev_runtime.go *)
Record DevRuntimeProof := mkDevRuntimeProof {
  DevRuntimeProof_Request : DevRuntimeRequest; DevRuntimeProof_Generation : Z;
  DevRuntimeProof_ActivationHash : string; DevRuntimeProof_Components : list DevRuntimeComponent;
  DevRuntimeProof_SnapshotHash : string
}.
#[export] Instance zero_DevRuntimeProof : Zero DevRuntimeProof := mkDevRuntimeProof zero zero zero zero zero.
#[export] Instance DevRuntimeProof_eq_dec : EqDecision DevRuntimeProof.
Proof. solve_decision. Defined.

(** [domain.DevBaselineRegistryReceipt] — domain/dev_baseline.go *)
Record DevBaselineRegistryReceipt := mkDevBaselineRegistryReceipt {
  DevBaselineRegistryReceipt_ClosureKind : string;
  DevBaselineRegistryReceipt_ContentProofHash : string;
  DevBaselineRegistryReceipt_MetadataRootClosure : string;
  DevBaselineRegistryReceipt_MetadataDiscovery : string;
  DevBaselineRegistryReceipt_MetadataBlockers : list string;
  DevBaselineRegistryReceipt_GlobalInventoryComplete : bool;
  DevBaselineRegistryReceipt_JobID : string; DevBaselineRegistryReceipt_OperationID : string;
  DevBaselineRegistryReceipt_AttemptID : string; DevBaselineRegistryReceipt_Fence : Z;
  DevBaselineRegistryReceipt_InputHash : string; DevBaselineRegistryReceipt_RootSetHash : string;
  DevBaselineRegistryReceipt_InventoryID : string; DevBaselineRegistryReceipt_GraphHash : string;
  DevBaselineRegistryReceipt_ObservedAt : Time
}.
#[export] Instance zero_DevBaselineRegistryReceipt : Zero DevBaselineRegistryReceipt := mkDevBaselineRegistryReceipt zero zero zero zero zero zero zero zero zero zero zero zero zero zero zero.
#[export] Instance DevBaselineRegistryReceipt_eq_dec : EqDecision DevBaselineRegistryReceipt.
Proof. solve_decision. Defined.

(** [domain.DevBaselineComponentResult] — domain/dev_baseline.go *)
Record DevBaselineComponentResult := mkDevBaselineComponentResult {
  DevBaselineComponentResult_ApplicationID : string;
  DevBaselineComponentResult_ImageRepository : string;
  DevBaselineComponentResult_Digest : string;
  DevBaselineComponentResult_GitOps : DevRuntimeGitOpsObservation;
  DevBaselineComponentResult_ArtifactID : string;
  DevBaselineComponentResult_ArtifactHash : string;
  DevBaselineComponentResult_Availability : option ArtifactResult;
  DevBaselineComponentResult_Registry : option DevBaselineRegistryReceipt
}.
#[export] Instance zero_DevBaselineComponentResult : Zero DevBaselineComponentResult := mkDevBaselineComponentResult zero zero zero zero zero zero zero zero.
#[export] Instance DevBaselineComponentResult_eq_dec : EqDecision DevBaselineComponentResult.
Proof. solve_decision. Defined.

(** [domain.DevRestorationVerification] — domain/dev_restoration.go *)
Record DevRestorationVerification := mkDevRestorationVerification {
  DevRestorationVerification_Request : DevRestorationRequest;
  DevRestorationVerification_RestorationHash : string;
  DevRestorationVerification_PlanHash : string;
  DevRestorationVerification_ConfirmationID : string;
  DevRestorationVerification_ConfirmationHash : string;
  DevRestorationVerification_SettlementHash : string; DevRestorationVerification_Generation : Z;
  DevRestorationVerification_Runtime : DevRuntimeProof;
  DevRestorationVerification_Availability : list DevBaselineComponentResult;
  DevRestorationVerification_Components : list DevBaselineComponent;
  DevRestorationVerification_Hash : string
}.
#[export] Instance zero_DevRestorationVerification : Zero DevRestorationVerification := mkDevRestorationVerification zero zero zero zero zero zero zero zero zero zero zero.
#[export] Instance DevRestorationVerification_eq_dec : EqDecision DevRestorationVerification.
Proof. solve_decision. Defined.

(** [domain.DevRestorationRelease] — domain/dev_restoration.go *)
Record DevRestorationRelease := mkDevRestorationRelease {
  DevRestorationRelease_Availability : list DevBaselineComponentResult;
  DevRestorationRelease_AvailabilityHash : string;
  DevRestorationRelease_Request : DevRestorationRequest;
  DevRestorationRelease_ReservationOperationID : string;
  DevRestorationRelease_ReservationHash : string; DevRestorationRelease_RestorationHash : string;
  DevRestorationRelease_PlanHash : string; DevRestorationRelease_ConfirmationID : string;
  DevRestorationRelease_ConfirmationHash : string;
  DevRestorationRelease_VerificationHash : string; DevRestorationRelease_ResultHash : string;
  DevRestorationRelease_SettlementHash : string; DevRestorationRelease_RecoveryEpoch : Z;
  DevRestorationRelease_RecoverySelection : EnvironmentSelection;
  DevRestorationRelease_ReleasedEpoch : Z;
  DevRestorationRelease_ReleasedSelection : EnvironmentSelection;
  DevRestorationRelease_Hash : string
}.
#[export] Instance zero_DevRestorationRelease : Zero DevRestorationRelease := mkDevRestorationRelease zero zero zero zero zero zero zero zero zero zero zero zero zero zero zero zero zero.
#[export] Instance DevRestorationRelease_eq_dec : EqDecision DevRestorationRelease.
Proof. solve_decision. Defined.

(** [domain.DevBaselineRequest] — domain/dev_baseline.go *)
Record DevBaselineRequest := mkDevBaselineRequest {
  DevBaselineRequest_ReservationOperationID : string; DevBaselineRequest_RequestKey : string;
  DevBaselineRequest_ExpectedSelection : option EnvironmentSelection
}.
#[export] Instance zero_DevBaselineRequest : Zero DevBaselineRequest := mkDevBaselineRequest zero zero zero.
#[export] Instance DevBaselineRequest_eq_dec : EqDecision DevBaselineRequest.
Proof. solve_decision. Defined.

(** [domain.DevBaselineProof] — domain/dev_baseline.go *)
Record DevBaselineProof := mkDevBaselineProof {
  DevBaselineProof_Request : DevBaselineRequest;
  DevBaselineProof_ReservationOperationID : string; DevBaselineProof_ReservationHash : string;
  DevBaselineProof_CompositionID : string; DevBaselineProof_CompositionHash : string;
  DevBaselineProof_Generation : Z; DevBaselineProof_Components : list DevBaselineComponent;
  DevBaselineProof_SnapshotHash : string
}.
#[export] Instance zero_DevBaselineProof : Zero DevBaselineProof := mkDevBaselineProof zero zero zero zero zero zero zero zero.
#[export] Instance DevBaselineProof_eq_dec : EqDecision DevBaselineProof.
Proof. solve_decision. Defined.

(** [domain.DevRuntimeComponentResult] — domain/dev_runtime.go *)
Record DevRuntimeComponentResult := mkDevRuntimeComponentResult {
  DevRuntimeComponentResult_ApplicationID : string;
  DevRuntimeComponentResult_GitOps : DevRuntimeGitOpsObservation;
  DevRuntimeComponentResult_Revision : GitOpsRevisionProof;
  DevRuntimeComponentResult_Roles : list DeliveryRuntimeSnapshot
}.
#[export] Instance zero_DevRuntimeComponentResult : Zero DevRuntimeComponentResult := mkDevRuntimeComponentResult zero zero zero zero.
#[export] Instance DevRuntimeComponentResult_eq_dec : EqDecision DevRuntimeComponentResult.
Proof. solve_decision. Defined.

(** [domain.DevRuntimeResult] — domain/dev_runtime.go *)
Record DevRuntimeResult := mkDevRuntimeResult {
  DevRuntimeResult_Reason : string; DevRuntimeResult_ExpectedHash : string;
  DevRuntimeResult_Outcome : string; DevRuntimeResult_ObservedAt : Time;
  DevRuntimeResult_Components : list DevRuntimeComponentResult; DevRuntimeResult_Hash : string
}.
#[export] Instance zero_DevRuntimeResult : Zero DevRuntimeResult := mkDevRuntimeResult zero zero zero zero zero zero.
#[export] Instance DevRuntimeResult_eq_dec : EqDecision DevRuntimeResult.
Proof. solve_decision. Defined.

(** [domain.DevBaselineResult] — domain/dev_baseline.go *)
Record DevBaselineResult := mkDevBaselineResult {
  DevBaselineResult_ExpectedHash : string; DevBaselineResult_Outcome : string;
  DevBaselineResult_Reason : string; DevBaselineResult_ObservedAt : Time;
  DevBaselineResult_Runtime : option DevRuntimeResult;
  DevBaselineResult_Components : list DevBaselineComponentResult; DevBaselineResult_Hash : string
}.
#[export] Instance zero_DevBaselineResult : Zero DevBaselineResult := mkDevBaselineResult zero zero zero zero zero zero zero.
#[export] Instance DevBaselineResult_eq_dec : EqDecision DevBaselineResult.
Proof. solve_decision. Defined.

(** [domain.DevReservationRequest] — domain/dev_reservation.go *)
Record DevReservationRequest := mkDevReservationRequest {
  DevReservationRequest_CandidateOperationID : string;
  DevReservationRequest_EnvironmentID : string;
  DevReservationRequest_ReservationOperationID : string;
  DevReservationRequest_RequestKey : string;
  DevReservationRequest_ExpectedSelection : option EnvironmentSelection
}.
#[export] Instance zero_DevReservationRequest : Zero DevReservationRequest := mkDevReservationRequest zero zero zero zero zero.
#[export] Instance DevReservationRequest_eq_dec : EqDecision DevReservationRequest.
Proof. solve_decision. Defined.

(** [domain.MainCandidateRevision] — domain/main_candidate.go *)
Record MainCandidateRevision := mkMainCandidateRevision {
  MainCandidateRevision_RevisionID : string; MainCandidateRevision_PullRequestNumber : Z;
  MainCandidateRevision_VerificationResultIDs : list string
}.
#[export] Instance zero_MainCandidateRevision : Zero MainCandidateRevision := mkMainCandidateRevision zero zero zero.
#[export] Instance MainCandidateRevision_eq_dec : EqDecision MainCandidateRevision.
Proof. solve_decision. Defined.

(** [domain.MainCandidateSource] — domain/main_candidate.go *)
Record MainCandidateSource := mkMainCandidateSource {
  MainCandidateSource_ApplicationID : string; MainCandidateSource_MainSHA : string;
  MainCandidateSource_Native : NativeBinding;
  MainCandidateSource_Revisions : list MainCandidateRevision
}.
#[export] Instance zero_MainCandidateSource : Zero MainCandidateSource := mkMainCandidateSource zero zero zero zero.
#[export] Instance MainCandidateSource_eq_dec : EqDecision MainCandidateSource.
Proof. solve_decision. Defined.

(** [domain.MainCandidateRequest] — domain/main_candidate.go *)
Record MainCandidateRequest := mkMainCandidateRequest {
  MainCandidateRequest_Name : string; MainCandidateRequest_EnvironmentID : string;
  MainCandidateRequest_IdempotencyKey : string;
  MainCandidateRequest_MainSources : list MainCandidateSource
}.
#[export] Instance zero_MainCandidateRequest : Zero MainCandidateRequest := mkMainCandidateRequest zero zero zero zero.
#[export] Instance MainCandidateRequest_eq_dec : EqDecision MainCandidateRequest.
Proof. solve_decision. Defined.

(** [domain.MainCandidateMergedRevision] — domain/main_candidate.go *)
Record MainCandidateMergedRevision := mkMainCandidateMergedRevision {
  MainCandidateMergedRevision_RevisionID : string;
  MainCandidateMergedRevision_PullRequestNumber : Z;
  MainCandidateMergedRevision_HeadSHA : string; MainCandidateMergedRevision_HeadRef : string;
  MainCandidateMergedRevision_MergeSHA : string;
  MainCandidateMergedRevision_ObservationHash : string
}.
#[export] Instance zero_MainCandidateMergedRevision : Zero MainCandidateMergedRevision := mkMainCandidateMergedRevision zero zero zero zero zero zero.
#[export] Instance MainCandidateMergedRevision_eq_dec : EqDecision MainCandidateMergedRevision.
Proof. solve_decision. Defined.

(** [domain.MainCandidateRepository] — domain/main_candidate.go *)
Record MainCandidateRepository := mkMainCandidateRepository {
  MainCandidateRepository_RepositoryID : string;
  MainCandidateRepository_ProviderRepositoryID : Z; MainCandidateRepository_MainRef : string;
  MainCandidateRepository_MainSHA : string;
  MainCandidateRepository_Revisions : list MainCandidateMergedRevision
}.
#[export] Instance zero_MainCandidateRepository : Zero MainCandidateRepository := mkMainCandidateRepository zero zero zero zero zero.
#[export] Instance MainCandidateRepository_eq_dec : EqDecision MainCandidateRepository.
Proof. solve_decision. Defined.

(** [domain.MainCandidateProof] — domain/main_candidate.go *)
Record MainCandidateProof := mkMainCandidateProof {
  MainCandidateProof_EvidenceKind : string; MainCandidateProof_Request : MainCandidateRequest;
  MainCandidateProof_ConfigurationHash : string; MainCandidateProof_AuthorityHash : string;
  MainCandidateProof_Sources : list MainCandidateRepository
}.
#[export] Instance zero_MainCandidateProof : Zero MainCandidateProof := mkMainCandidateProof zero zero zero zero zero.
#[export] Instance MainCandidateProof_eq_dec : EqDecision MainCandidateProof.
Proof. solve_decision. Defined.

(** [domain.NativeDelivery] — domain/external.go *)
Record NativeDelivery := mkNativeDelivery {
  NativeDelivery_ParentHash : string; NativeDelivery_ConfigRevision : string;
  NativeDelivery_BuildRecipeHash : string; NativeDelivery_BuildRecipeRevision : string;
  NativeDelivery_PublicationRecipeHash : string;
  NativeDelivery_PublicationRecipeRevision : string; NativeDelivery_Deadline : Time;
  NativeDelivery_BuildJobID : string; NativeDelivery_PublicationJobID : string
}.
#[export] Instance zero_NativeDelivery : Zero NativeDelivery := mkNativeDelivery zero zero zero zero zero zero zero zero zero.
#[export] Instance NativeDelivery_eq_dec : EqDecision NativeDelivery.
Proof. solve_decision. Defined.

(** [domain.IntegrationRevision] — domain/model.go *)
Record IntegrationRevision := mkIntegrationRevision {
  IntegrationRevision_Meta : Meta; IntegrationRevision_IntegrationID : string;
  IntegrationRevision_RepositoryID : string; IntegrationRevision_Branch : string;
  IntegrationRevision_BaseCommit : string; IntegrationRevision_HeadCommit : string;
  IntegrationRevision_Commits : list string
}.
#[export] Instance zero_IntegrationRevision : Zero IntegrationRevision := mkIntegrationRevision zero zero zero zero zero zero zero.
#[export] Instance IntegrationRevision_eq_dec : EqDecision IntegrationRevision.
Proof. solve_decision. Defined.
#[export] Instance meta_IntegrationRevision : HasMeta IntegrationRevision := IntegrationRevision_Meta.

(** [domain.ArtifactRetention] — domain/retention.go *)
Record ArtifactRetention := mkArtifactRetention {
  ArtifactRetention_KeepLast : Z; ArtifactRetention_KeepCurrent : bool;
  ArtifactRetention_KeepPrevious : Z
}.
#[export] Instance zero_ArtifactRetention : Zero ArtifactRetention := mkArtifactRetention zero zero zero.
#[export] Instance ArtifactRetention_eq_dec : EqDecision ArtifactRetention.
Proof. solve_decision. Defined.

(** [domain.Application] — domain/model.go *)
Record Application := mkApplication {
  Application_Retention : option ArtifactRetention; Application_Parameters : gmap string string;
  Application_Kind : string; Application_Meta : Meta; Application_Name : string;
  Application_RepositoryID : string; Application_Path : string
}.
#[export] Instance zero_Application : Zero Application := mkApplication zero zero zero zero zero zero zero.
#[export] Instance Application_eq_dec : EqDecision Application.
Proof. solve_decision. Defined.
#[export] Instance meta_Application : HasMeta Application := Application_Meta.

(** [domain.Environment] — domain/model.go *)
Record Environment := mkEnvironment {
  Environment_ReservationEpoch : Z; Environment_SelectionGeneration : Z;
  Environment_Parameters : gmap string string; Environment_DesiredOperationID : string;
  Environment_Cluster : string; Environment_Namespace : string;
  Environment_DesiredCompositionID : string; Environment_Meta : Meta; Environment_Name : string;
  Environment_Desired : gmap string json; Environment_Reconciled : gmap string json;
  Environment_Runtime : gmap string json; Environment_Composition : gmap string json
}.
#[export] Instance zero_Environment : Zero Environment := mkEnvironment zero zero zero zero zero zero zero zero zero zero zero zero zero.
#[export] Instance Environment_eq_dec : EqDecision Environment.
Proof. solve_decision. Defined.
#[export] Instance meta_Environment : HasMeta Environment := Environment_Meta.

(** [domain.DeliverySnapshot] — domain/external.go *)
Record DeliverySnapshot := mkDeliverySnapshot {
  DeliverySnapshot_MainCandidate : option MainCandidateProof;
  DeliverySnapshot_BuildBaseline : option ComponentBuild;
  DeliverySnapshot_Native : option NativeDelivery;
  DeliverySnapshot_Revision : IntegrationRevision; DeliverySnapshot_Application : Application;
  DeliverySnapshot_Build : ComponentBuild; DeliverySnapshot_Target : EnvironmentBinding;
  DeliverySnapshot_Environment : Environment; DeliverySnapshot_Source : RepositoryBinding;
  DeliverySnapshot_GitOps : RepositoryBinding; DeliverySnapshot_SourceConnection : Connection;
  DeliverySnapshot_GitOpsConnection : Connection; DeliverySnapshot_BuildRequest : BuildRequest;
  DeliverySnapshot_GitOpsRequest : GitOpsRequest
}.
#[export] Instance zero_DeliverySnapshot : Zero DeliverySnapshot := mkDeliverySnapshot zero zero zero zero zero zero zero zero zero zero zero zero zero zero.
#[export] Instance DeliverySnapshot_eq_dec : EqDecision DeliverySnapshot.
Proof. solve_decision. Defined.

(** [domain.DevActivationComponent] — domain/dev_activation.go *)
Record DevActivationComponent := mkDevActivationComponent {
  DevActivationComponent_GroupID : string; DevActivationComponent_Selector : GitOpsRequest;
  DevActivationComponent_Baseline : DevRuntimeGitOpsObservation;
  DevActivationComponent_ChildID : string; DevActivationComponent_OriginalChildID : string;
  DevActivationComponent_Artifact : DeliveryArtifact;
  DevActivationComponent_Snapshot : DeliverySnapshot
}.
#[export] Instance zero_DevActivationComponent : Zero DevActivationComponent := mkDevActivationComponent zero zero zero zero zero zero zero.
#[export] Instance DevActivationComponent_eq_dec : EqDecision DevActivationComponent.
Proof. solve_decision. Defined.

(** [domain.DevActivationGroup] — domain/dev_activation.go *)
Record DevActivationGroup := mkDevActivationGroup {
  DevActivationGroup_ID : string; DevActivationGroup_LeaderID : string;
  DevActivationGroup_MemberIDs : list string; DevActivationGroup_Connection : Connection;
  DevActivationGroup_Repository : string; DevActivationGroup_Ref : string
}.
#[export] Instance zero_DevActivationGroup : Zero DevActivationGroup := mkDevActivationGroup zero zero zero zero zero zero.
#[export] Instance DevActivationGroup_eq_dec : EqDecision DevActivationGroup.
Proof. solve_decision. Defined.

(** [domain.DevActivationProof] — domain/dev_activation.go *)
Record DevActivationProof := mkDevActivationProof {
  DevActivationProof_BaselineCaptureID : string; DevActivationProof_BaselineCaptureHash : string;
  DevActivationProof_OriginalBaselineHash : string;
  DevActivationProof_Request : DevReservationRequest;
  DevActivationProof_ReservationOperationID : string;
  DevActivationProof_ReservationHash : string; DevActivationProof_CandidateOperationID : string;
  DevActivationProof_CandidateHash : string;
  DevActivationProof_Components : list DevActivationComponent;
  DevActivationProof_Groups : list DevActivationGroup; DevActivationProof_SnapshotHash : string
}.
#[export] Instance zero_DevActivationProof : Zero DevActivationProof := mkDevActivationProof zero zero zero zero zero zero zero zero zero zero zero.
#[export] Instance DevActivationProof_eq_dec : EqDecision DevActivationProof.
Proof. solve_decision. Defined.

(** [domain.DevReservationProof] — domain/dev_reservation.go *)
Record DevReservationProof := mkDevReservationProof {
  DevReservationProof_Request : DevReservationRequest;
  DevReservationProof_CandidateOperationID : string; DevReservationProof_CandidateHash : string;
  DevReservationProof_CandidateProof : MainCandidateProof;
  DevReservationProof_BaselineSelection : EnvironmentSelection;
  DevReservationProof_ReservedSelection : EnvironmentSelection; DevReservationProof_Epoch : Z;
  DevReservationProof_Environment : Environment;
  DevReservationProof_Targets : list EnvironmentBinding;
  DevReservationProof_ReservationOperationID : string
}.
#[export] Instance zero_DevReservationProof : Zero DevReservationProof := mkDevReservationProof zero zero zero zero zero zero zero zero zero zero.
#[export] Instance DevReservationProof_eq_dec : EqDecision DevReservationProof.
Proof. solve_decision. Defined.

(** [domain.FeatureUpdateRequest] — domain/external.go *)
Record FeatureUpdateRequest := mkFeatureUpdateRequest {
  FeatureUpdateRequest_EnvironmentID : string; FeatureUpdateRequest_RevisionIDs : list string;
  FeatureUpdateRequest_Name : string; FeatureUpdateRequest_IdempotencyKey : string;
  FeatureUpdateRequest_ExpectedSelection : option EnvironmentSelection
}.
#[export] Instance zero_FeatureUpdateRequest : Zero FeatureUpdateRequest := mkFeatureUpdateRequest zero zero zero zero zero.
#[export] Instance FeatureUpdateRequest_eq_dec : EqDecision FeatureUpdateRequest.
Proof. solve_decision. Defined.

(** [domain.CheckPublication] — domain/external.go *)
Record CheckPublication := mkCheckPublication {
  CheckPublication_JobID : string; CheckPublication_WorkerOperationID : string;
  CheckPublication_Inputs : WorkerInputs; CheckPublication_InputHash : string;
  CheckPublication_Source : RepositoryBinding; CheckPublication_Connection : Connection;
  CheckPublication_ProviderRepositoryID : Z; CheckPublication_Identity : CheckRunIdentity;
  CheckPublication_FinalizeDeadline : Time; CheckPublication_Observations : Z;
  CheckPublication_Intent : option CheckRunWrite; CheckPublication_IntentHash : string;
  CheckPublication_Observed : option CheckRunObservation
}.
#[export] Instance zero_CheckPublication : Zero CheckPublication := mkCheckPublication zero zero zero zero zero zero zero zero zero zero zero zero zero.
#[export] Instance CheckPublication_eq_dec : EqDecision CheckPublication.
Proof. solve_decision. Defined.

(** [domain.CompositionComponent] — domain/model.go *)
Record CompositionComponent := mkCompositionComponent {
  CompositionComponent_ApplicationID : string; CompositionComponent_BaseRef : string;
  CompositionComponent_BaseCommit : string; CompositionComponent_TargetBranch : string;
  CompositionComponent_RevisionIDs : list string
}.
#[export] Instance zero_CompositionComponent : Zero CompositionComponent := mkCompositionComponent zero zero zero zero zero.
#[export] Instance CompositionComponent_eq_dec : EqDecision CompositionComponent.
Proof. solve_decision. Defined.

(** [domain.Composition] — domain/model.go *)
Record Composition := mkComposition {
  Composition_AutoRefresh : bool; Composition_Meta : Meta; Composition_EnvironmentID : string;
  Composition_Name : string; Composition_Status : string;
  Composition_Components : list CompositionComponent;
  Composition_ApplicationSnapshots : list Application;
  Composition_RevisionSnapshots : list IntegrationRevision;
  Composition_EnvironmentSnapshot : Environment
}.
#[export] Instance zero_Composition : Zero Composition := mkComposition zero zero zero zero zero zero zero zero zero.
#[export] Instance Composition_eq_dec : EqDecision Composition.
Proof. solve_decision. Defined.
#[export] Instance meta_Composition : HasMeta Composition := Composition_Meta.

(** [domain.ExternalOperation] — domain/external.go *)
Record ExternalOperation := mkExternalOperation {
  ExternalOperation_ReleaseNotesIntentHash : string;
  ExternalOperation_Intelligence : option IntelligenceTask;
  ExternalOperation_DevRestorationUnapproved : bool;
  ExternalOperation_DevRestoration : option DevRestorationProof;
  ExternalOperation_DevRestorationPlan : option DevRestorationPlan;
  ExternalOperation_DevRestorationConfirmation : option DevRestorationConfirmation;
  ExternalOperation_DevRestorationVerification : option DevRestorationVerification;
  ExternalOperation_DevRestorationRelease : option DevRestorationRelease;
  ExternalOperation_DevRestorationAvailability : list DevBaselineComponentResult;
  ExternalOperation_DevBaseline : option DevBaselineProof;
  ExternalOperation_DevBaselineResult : option DevBaselineResult;
  ExternalOperation_DevRuntime : option DevRuntimeProof;
  ExternalOperation_DevRuntimeResult : option DevRuntimeResult;
  ExternalOperation_DevActivation : option DevActivationProof;
  ExternalOperation_DevActivationGroupID : string;
  ExternalOperation_DevActivationBatch : option GitOpsBatchApply;
  ExternalOperation_DevActivationIntentHash : string;
  ExternalOperation_DevActivationPRHash : string;
  ExternalOperation_DevActivationResultHash : string;
  ExternalOperation_ReservationMutationIntent : string; ExternalOperation_ReservationEpoch : Z;
  ExternalOperation_DevReservation : option DevReservationProof;
  ExternalOperation_ReservationQuarantined : bool;
  ExternalOperation_MainCandidate : option MainCandidateProof;
  ExternalOperation_SourceRetentionOriginID : string;
  ExternalOperation_SourceRetentionParentID : string;
  ExternalOperation_FeatureUpdate : option FeatureUpdateRequest;
  ExternalOperation_RegistryObservation : option WorkerInputs;
  ExternalOperation_CheckPublication : option CheckPublication;
  ExternalOperation_RequestKey : string; ExternalOperation_RequestHash : string;
  ExternalOperation_Native : option NativeDelivery;
  ExternalOperation_GitOpsPR : option GitOpsPullRequest;
  ExternalOperation_ExistingArtifact : option DeliveryArtifact;
  ExternalOperation_PreparedDeployments : list DeliverySnapshot;
  ExternalOperation_ParentID : string; ExternalOperation_ChildIDs : list string;
  ExternalOperation_IntegrationIDs : list string;
  ExternalOperation_CompositionSnapshot : option Composition;
  ExternalOperation_Sources : list FlowSource; ExternalOperation_BuildOnly : bool;
  ExternalOperation_ReleaseCandidateID : string; ExternalOperation_DeploymentState : string;
  ExternalOperation_RequestedBy : string; ExternalOperation_StartedAt : option Time;
  ExternalOperation_CurrentStep : string; ExternalOperation_Error : string;
  ExternalOperation_Meta : Meta; ExternalOperation_Kind : string;
  ExternalOperation_IntegrationID : string; ExternalOperation_RepositoryID : string;
  ExternalOperation_EnvironmentID : string; ExternalOperation_ApplicationID : string;
  ExternalOperation_Status : string; ExternalOperation_Phase : string;
  ExternalOperation_Detail : string; ExternalOperation_Snapshot : option DeliverySnapshot;
  ExternalOperation_ExpectedDigest : string; ExternalOperation_Artifact : option ArtifactResult;
  ExternalOperation_Run : option RunResult; ExternalOperation_GitOpsBase : option GitOpsSnapshot;
  ExternalOperation_GitOpsResult : option GitOpsResult; ExternalOperation_Attempts : Z;
  ExternalOperation_NextAttemptAt : Time; ExternalOperation_LeaseOwner : string;
  ExternalOperation_LeaseUntil : Time; ExternalOperation_FinishedAt : option Time
}.
#[export] Instance zero_ExternalOperation : Zero ExternalOperation := mkExternalOperation zero zero zero zero zero zero zero zero zero zero zero zero zero zero zero zero zero zero zero zero zero zero zero zero zero zero zero zero zero zero zero zero zero zero zero zero zero zero zero zero zero zero zero zero zero zero zero zero zero zero zero zero zero zero zero zero zero zero zero zero zero zero zero zero zero zero zero.
#[export] Instance ExternalOperation_eq_dec : EqDecision ExternalOperation.
Proof. solve_decision. Defined.
#[export] Instance meta_ExternalOperation : HasMeta ExternalOperation := ExternalOperation_Meta.

(** [domain.OperationStep] — domain/external.go *)
Record OperationStep := mkOperationStep {
  OperationStep_Meta : Meta; OperationStep_OperationID : string; OperationStep_Phase : string;
  OperationStep_Status : string; OperationStep_Detail : string;
  OperationStep_Evidence : gmap string string
}.
#[export] Instance zero_OperationStep : Zero OperationStep := mkOperationStep zero zero zero zero zero zero.
#[export] Instance OperationStep_eq_dec : EqDecision OperationStep.
Proof. solve_decision. Defined.
#[export] Instance meta_OperationStep : HasMeta OperationStep := OperationStep_Meta.

(** [domain.GitObservation] — domain/external.go *)
Record GitObservation := mkGitObservation {
  GitObservation_Commits : list CommitInfo; GitObservation_Meta : Meta;
  GitObservation_IntegrationID : string; GitObservation_RepositoryID : string;
  GitObservation_Branch : string; GitObservation_HeadCommit : string;
  GitObservation_MainCommit : string; GitObservation_Ahead : Z; GitObservation_Behind : Z;
  GitObservation_Status : string; GitObservation_ObservedAt : Time
}.
#[export] Instance zero_GitObservation : Zero GitObservation := mkGitObservation zero zero zero zero zero zero zero zero zero zero zero.
#[export] Instance GitObservation_eq_dec : EqDecision GitObservation.
Proof. solve_decision. Defined.
#[export] Instance meta_GitObservation : HasMeta GitObservation := GitObservation_Meta.

(** [domain.Product] — domain/model.go *)
Record Product := mkProduct {
  Product_Meta : Meta; Product_Name : string; Product_Description : string
}.
#[export] Instance zero_Product : Zero Product := mkProduct zero zero zero.
#[export] Instance Product_eq_dec : EqDecision Product.
Proof. solve_decision. Defined.
#[export] Instance meta_Product : HasMeta Product := Product_Meta.

(** [domain.CheckResult] — domain/model.go *)
Record CheckResult := mkCheckResult {
  CheckResult_Meta : Meta; CheckResult_CheckID : string; CheckResult_Result : string;
  CheckResult_Commit : string; CheckResult_EnvironmentID : string;
  CheckResult_Deployment : string; CheckResult_Steps : list string;
  CheckResult_Observations : string; CheckResult_Logs : string;
  CheckResult_Artifacts : list Artifact
}.
#[export] Instance zero_CheckResult : Zero CheckResult := mkCheckResult zero zero zero zero zero zero zero zero zero zero.
#[export] Instance CheckResult_eq_dec : EqDecision CheckResult.
Proof. solve_decision. Defined.
#[export] Instance meta_CheckResult : HasMeta CheckResult := CheckResult_Meta.

(** [domain.ReviewSource] — domain/reviews.go *)
Record ReviewSource := mkReviewSource {
  ReviewSource_RepositoryID : string; ReviewSource_PullRequest : Z;
  ReviewSource_Comment : ReviewComment; ReviewSource_Priority : string
}.
#[export] Instance zero_ReviewSource : Zero ReviewSource := mkReviewSource zero zero zero zero.
#[export] Instance ReviewSource_eq_dec : EqDecision ReviewSource.
Proof. solve_decision. Defined.

(** [domain.Finding] — domain/model.go *)
Record Finding := mkFinding {
  Finding_ReviewSource : option ReviewSource; Finding_Meta : Meta; Finding_ResultID : string;
  Finding_Title : string; Finding_Severity : string; Finding_Body : string;
  Finding_Status : string; Finding_IntegrationIDs : list string; Finding_GateIDs : list string;
  Finding_BlocksRelease : bool; Finding_Resolution : string; Finding_FixCommit : string
}.
#[export] Instance zero_Finding : Zero Finding := mkFinding zero zero zero zero zero zero zero zero zero zero zero zero.
#[export] Instance Finding_eq_dec : EqDecision Finding.
Proof. solve_decision. Defined.
#[export] Instance meta_Finding : HasMeta Finding := Finding_Meta.

(** [domain.Repository] — domain/model.go *)
Record Repository := mkRepository {
  Repository_Role : string; Repository_RegisteredRepositoryID : string; Repository_Meta : Meta;
  Repository_Name : string; Repository_URL : string; Repository_Provider : string
}.
#[export] Instance zero_Repository : Zero Repository := mkRepository zero zero zero zero zero zero.
#[export] Instance Repository_eq_dec : EqDecision Repository.
Proof. solve_decision. Defined.
#[export] Instance meta_Repository : HasMeta Repository := Repository_Meta.

(** [domain.Release] — domain/model.go *)
Record Release := mkRelease {
  Release_ExecutionOperationID : string; Release_CandidateOperationID : string;
  Release_EnvironmentID : string; Release_RecordedExternally : bool;
  Release_Evidence : list string; Release_SourceCommits : gmap string string;
  Release_ArtifactDigests : gmap string string; Release_GitOpsCommits : gmap string string;
  Release_Status : string; Release_Snapshots : list Integration; Release_Meta : Meta;
  Release_Name : string; Release_IntegrationIDs : list string;
  Release_ExcludedIntegrationIDs : list string; Release_Notes : string
}.
#[export] Instance zero_Release : Zero Release := mkRelease zero zero zero zero zero zero zero zero zero zero zero zero zero zero zero.
#[export] Instance Release_eq_dec : EqDecision Release.
Proof. solve_decision. Defined.
#[export] Instance meta_Release : HasMeta Release := Release_Meta.

(** [domain.Command] — domain/model.go *)
Record Command := mkCommand {
  Command_Action : string; Command_Actor : string; Command_ID : string;
  Command_ProductID : string; Command_FeatureID : string; Command_IntegrationID : string;
  Command_GateID : string; Command_CheckID : string; Command_ResultID : string;
  Command_Data : gmap string json
}.
#[export] Instance zero_Command : Zero Command := mkCommand zero zero zero zero zero zero zero zero zero zero.
#[export] Instance Command_eq_dec : EqDecision Command.
Proof. solve_decision. Defined.

(** [domain.Event] — domain/model.go *)
Record Event := mkEvent {
  Event_ID : string; Event_Action : string; Event_Actor : string; Event_At : Time;
  Event_EntityID : string; Event_ProductID : string; Event_FeatureID : string;
  Event_Data : Command
}.
#[export] Instance zero_Event : Zero Event := mkEvent zero zero zero zero zero zero zero zero.
#[export] Instance Event_eq_dec : EqDecision Event.
Proof. solve_decision. Defined.

(** [domain.State] — domain/model.go *)
Record State := mkState {
  State_RegistryInventories : list RegistryInventory; State_ArtifactPins : list ArtifactPin;
  State_NativeQuarantines : list NativeQuarantine; State_WorkerJobs : list WorkerJob;
  State_WorkerAttempts : list WorkerAttempt;
  State_CompositionConflicts : list CompositionConflict;
  State_ProjectKnowledge : list ProjectKnowledge; State_LocalCheckouts : list LocalCheckout;
  State_WorkspaceDocuments : list WorkspaceDocument;
  State_PublicationTargets : list PublicationTarget;
  State_PackageArtifacts : list PackageArtifact; State_ScenarioVersions : list ScenarioVersion;
  State_ScenarioRuns : list ScenarioRun; State_RuntimeSnapshots : list RuntimeSnapshot;
  State_RuntimeObservations : list RuntimeObservation; State_ReviewSyncs : list ReviewSync;
  State_DeliveryArtifacts : list DeliveryArtifact;
  State_DeliveryBuildRuns : list DeliveryBuildRun; State_ExternalSystems : list ExternalSystem;
  State_SystemRelationships : list SystemRelationship; State_ExternalScopes : list ExternalScope;
  State_RegisteredRepositories : list RegisteredRepository;
  State_ConnectionGrants : list ConnectionGrant; State_GitHubConnections : list GitHubConnection;
  State_RepositoryBindings : list RepositoryBinding; State_ComponentBuilds : list ComponentBuild;
  State_EnvironmentBindings : list EnvironmentBinding; State_Operations : list ExternalOperation;
  State_OperationSteps : list OperationStep; State_GitObservations : list GitObservation;
  State_Applications : list Application; State_IntegrationRevisions : list IntegrationRevision;
  State_Compositions : list Composition; State_Products : list Product;
  State_Features : list Feature; State_Integrations : list Integration; State_Gates : list Gate;
  State_Checks : list Check; State_Results : list CheckResult; State_Findings : list Finding;
  State_Memories : list Memory; State_Environments : list Environment;
  State_Repositories : list Repository; State_Releases : list Release; State_Events : list Event
}.
#[export] Instance zero_State : Zero State := mkState zero zero zero zero zero zero zero zero zero zero zero zero zero zero zero zero zero zero zero zero zero zero zero zero zero zero zero zero zero zero zero zero zero zero zero zero zero zero zero zero zero zero zero zero zero.
