(* ===== verification/Status.v ===== *)
(** * Status vocabulary

    [internal/domain/status.go], [repositories.go] and the status checks of
    [status_validation.go]: the closed catalog of statuses, the command
    transitions, the repository purposes, and the validation a store runs on
    the whole state after every update. *)
From S2P Require Import Prelude GoText GoJson Delivery Domain.
Open Scope string_scope.
Open Scope list_scope.

Definition assoc {A} (k : string) (l : list (string * list A)) : list A :=
  match find_first (fun kv => kv.1 == k) l with Some kv => kv.2 | None => [] end.

Definition StatusCatalog : list (string * list string) := [
  ("worker_job", ["QUEUED"; "CLAIMED"; "RUNNING"; "SUCCEEDED"; "FAILED"; "CANCELLED"; "DEADLINE_EXCEEDED"; "RECONCILIATION_REQUIRED"]);
  ("worker_attempt", ["CLAIMED"; "RUNNING"; "SUCCEEDED"; "FAILED"; "CANCELLED"; "EXPIRED"; "RECONCILIATION_REQUIRED"]);
  ("runtime_comparison", ["MATCH"; "DRIFT"; "UNKNOWN"]);
  ("runtime_health", ["UNKNOWN"; "NOT_READY"; "HEALTHY"; "SCALED_ZERO"]);
  ("composition_conflict", ["requires_resolution"; "claimed"; "verification_required"; "resolved"]);
  ("feature", ["planned"; "active"; "blocked"; "completed"; "archived"]);
  ("integration", ["planned"; "working"; "implemented"; "verifying"; "ready"; "released"]);
  ("blocker", ["open"; "resolved"]); ("finding", ["open"; "resolved"]);
  ("check_result", ["passed"; "failed"; "blocked"; "skipped"]);
  ("gate_result", ["pending"; "passed"; "failed"; "blocked"; "skipped"; "stale"]);
  ("scenario_result", ["passed"; "failed"; "blocked"]); ("composition", ["planned"]);
  ("release", ["planned"; "released"]);
  ("operation", ["PENDING"; "RUNNING"; "SUCCEEDED"; "FAILED"; "CANCELLED"]);
  ("operation_step", ["PENDING"; "RUNNING"; "SUCCEEDED"; "FAILED"; "CANCELLED"]);
  ("deployment_state", ["PENDING"; "COMPOSING"; "SOURCE_READY"; "UPDATING_MAIN"; "WAITING_FOR_COMPONENTS"; "WAITING_FOR_ARTIFACT"; "BUILDING"; "ARTIFACT_READY"; "GITOPS_PENDING"; "GITOPS_APPLIED"; "PENDING_RECONCILIATION"; "BASELINE_CAPTURED"; "BASELINE_UNVERIFIED"; "RESTORATION_VERIFIED"; "RESTORATION_UNVERIFIED"; "RELEASED"; "RUNTIME_VERIFIED"; "RUNTIME_UNVERIFIED"; "READY_FOR_VERIFICATION"; "DEPLOYED"; "SUCCEEDED"; "FAILED"; "BLOCKED"; "CANCELLED"]);
  ("review_sync", ["NO_FINDINGS_OBSERVED"; "FINDINGS_OBSERVED"]);
  ("git_observation", ["identical"; "ahead"; "behind"; "diverged"; "unknown"]);
  ("pull_request", ["open"; "draft"; "closed"; "merged"]);
  ("artifact_availability", ["PRESENT"; "MISSING"])
].
Definition ValidStatus (kind value : string) : bool := contains (assoc kind StatusCatalog) value.

Definition StatusTransitions : list (string * list (string * list string)) := [
  ("feature", [
    ("planned", ["active"; "blocked"; "archived"]); ("active", ["blocked"; "completed"; "archived"]);
    ("blocked", ["active"; "planned"; "archived"]); ("completed", ["active"; "archived"]);
    ("archived", ["active"; "planned"])]);
  ("integration", [
    ("planned", ["working"]); ("working", ["planned"; "implemented"; "verifying"; "ready"]);
    ("implemented", ["planned"; "working"; "verifying"; "ready"]);
    ("verifying", ["planned"; "working"; "implemented"; "ready"]);
    ("ready", ["working"; "verifying"]); ("released", [])])
].
Definition CanTransition (kind from to : string) : bool :=
  if negb (ValidStatus kind from) || negb (ValidStatus kind to) then false
  else if from == to then true
  else contains (assoc from (assoc kind StatusTransitions)) to.

(** ** Repository purposes — domain/repositories.go *)
Definition RepositoryRoles : list string := ["APPLICATION"; "LIBRARY"; "MIXED"; "GITOPS"].
Definition ComponentKinds : list string := ["APPLICATION"; "LIBRARY"].
Definition IsSourceRole (role : string) : bool := contains ["APPLICATION"; "LIBRARY"; "MIXED"] role.
Definition ComponentKind (v : Application) : string := Application_Kind v.
Definition RepositoryAllows (role kind : string) : bool :=
  if role == "MIXED" then contains ComponentKinds kind
  else ((role == "APPLICATION") && (kind == "APPLICATION"))
       || ((role == "LIBRARY") && (kind == "LIBRARY")).
(** domain/publications.go [PublicationFormats] *)
Definition PublicationFormats : list string := ["npm"; "pypi"; "nuget"; "maven"; "oci"; "generic"].

Definition ValidateRepositoryKinds (st : State) : res unit :=
  _ ← each (fun r => reject_if (negb (contains RepositoryRoles (Repository_Role r)))
        (Err (ErrPlain "invalid repository role %q for %s" [Repository_Role r; ID r]))) (State_Repositories st);
  _ ← each (fun r => reject_if (negb (contains RepositoryRoles (RepositoryBinding_Role r)))
        (Err (ErrPlain "invalid repository binding role %q for %s" [RepositoryBinding_Role r; ID r])))
      (State_RepositoryBindings st);
  _ ← each (fun a => reject_if (negb (contains ComponentKinds (ComponentKind a)))
        (Err (ErrPlain "invalid component kind %q for %s" [Application_Kind a; ID a]))) (State_Applications st);
  each (fun p => reject_if (negb (contains PublicationFormats (PublicationTarget_Format p)))
        (Err (ErrPlain "invalid publication format %q for %s" [PublicationTarget_Format p; ID p])))
      (State_PublicationTargets st).

(** ** Status checks of the whole state — domain/status_validation.go *)
Definition check_status (kind id value : string) (optional : bool) : res unit :=
  if (value == "") && optional then Ok ()
  else if negb (contains (assoc kind StatusCatalog) value)
  then Err (ErrPlain "invalid %s status %q for entity %q" [kind; value; id])
  else Ok ().
Definition check_integration_status (scope : string) (v : Integration) : res unit :=
  _ ← check_status "integration" (scope +:+ ID v) (Integration_Status v) false;
  each (fun pr => check_status "pull_request" (scope +:+ ID v +:+ "/" +:+ PullRequest_ID pr) (PullRequest_Status pr) false)
    (Integration_PullRequests v).
Definition check_operation_status (v : ExternalOperation) : res unit :=
  _ ← check_status "operation" (ID v) (ExternalOperation_Status v) false;
  _ ← check_status "deployment_state" (ID v) (ExternalOperation_DeploymentState v) true;
  match ExternalOperation_CompositionSnapshot v with
  | Some c => check_status "composition" (ID v +:+ "/snapshot/" +:+ ID c) (Composition_Status c) false
  | None => Ok ()
  end.
Definition check_memory_status (v : Memory) : res unit :=
  if Memory_Kind v == "blocker" then check_status "blocker" (ID v) (Memory_Status v) false
  else if Memory_Status v != ""
  then Err (ErrPlain "non-blocker memory entity %q cannot carry status %q" [ID v; Memory_Status v])
  else Ok ().
Definition check_release_status (v : Release) : res unit :=
  _ ← check_status "release" (ID v) (Release_Status v) false;
  each (check_integration_status (ID v +:+ "/snapshot/")) (Release_Snapshots v).
Definition check_runtime_status (v : RuntimeSnapshot) : res unit :=
  _ ← check_status "runtime_comparison" (ID v) (RuntimeSnapshot_ReferenceComparison v) true;
  _ ← check_status "runtime_comparison" (ID v) (RuntimeSnapshot_Comparison v) false;
  check_status "runtime_health" (ID v) (DeliveryRuntimeSnapshot_Health (RuntimeSnapshot_Runtime v)) false.

(** The part of [ValidateStateStatuses] after the component validators. *)
Definition ValidateStatuses (st : State) : res unit :=
  _ ← each (fun v => check_status "worker_job" (ID v) (WorkerJob_Status v) false) (State_WorkerJobs st);
  _ ← each (fun v => check_status "worker_attempt" (ID v) (WorkerAttempt_Status v) false) (State_WorkerAttempts st);
  _ ← each check_runtime_status (State_RuntimeSnapshots st);
  _ ← each (fun v => check_status "composition_conflict" (ID v) (CompositionConflict_Status v) false)
        (State_CompositionConflicts st);
  _ ← each (fun v => check_status "feature" (ID v) (Feature_Status v) false) (State_Features st);
  _ ← each (check_integration_status "") (State_Integrations st);
  _ ← each check_memory_status (State_Memories st);
  _ ← each (fun v => check_status "finding" (ID v) (Finding_Status v) false) (State_Findings st);
  _ ← each (fun v => check_status "check_result" (ID v) (CheckResult_Result v) false) (State_Results st);
  _ ← each (fun v => check_status "gate_result" (ID v) (Gate_Result v) false) (State_Gates st);
  _ ← each (fun v => check_status "composition" (ID v) (Composition_Status v) false) (State_Compositions st);
  _ ← each check_release_status (State_Releases st);
  _ ← each check_operation_status (State_Operations st);
  _ ← each (fun v => check_status "operation_step" (ID v) (OperationStep_Status v) false) (State_OperationSteps st);
  _ ← each (fun v => check_status "review_sync" (ID v) (ReviewSync_Status v) false) (State_ReviewSyncs st);
  _ ← each (fun v => check_status "git_observation" (ID v) (GitObservation_Status v) false) (State_GitObservations st);
  _ ← each (fun v => check_status "artifact_availability" (ID v) (DeliveryArtifact_Availability v) false)
        (State_DeliveryArtifacts st);
  each (fun v => check_status "scenario_result" (ID v) (ScenarioRun_Result v) false) (State_ScenarioRuns st).
