(* ===== verification/Planning.v ===== *)
(** * Planning graph: gates, readiness and dependencies

    The lookups and derived judgements of [internal/application/service.go]:
    which check result is current, what a gate's result is, when an
    integration is ready, and which integrations are well formed; with
    [externalGateEvidenceCurrent] of external_systems.go, which gates consult. *)
From S2P Require Import Prelude GoText GoJson Delivery Domain Status.
Open Scope string_scope.
Open Scope list_scope.

(** ** Lookups: the first entity with the ID *)
Definition has_id {A} `{HasMeta A} (id : string) (v : A) : bool := ID v == id.
Definition feature (st : State) (id : string) : option Feature := find_first (has_id id) (State_Features st).
Definition integration (st : State) (id : string) : option Integration := find_first (has_id id) (State_Integrations st).
Definition gate (st : State) (id : string) : option Gate := find_first (has_id id) (State_Gates st).
Definition check (st : State) (id : string) : option Check := find_first (has_id id) (State_Checks st).
Definition result (st : State) (id : string) : option CheckResult := find_first (has_id id) (State_Results st).
Definition applicationByID (st : State) (id : string) : option Application := find_first (has_id id) (State_Applications st).
Definition revisionByID (st : State) (id : string) : option IntegrationRevision :=
  find_first (has_id id) (State_IntegrationRevisions st).
Definition environmentByID (st : State) (id : string) : option Environment := find_first (has_id id) (State_Environments st).
Definition compositionByID (st : State) (id : string) : option Composition := find_first (has_id id) (State_Compositions st).
Definition operationByID (st : State) (id : string) : option ExternalOperation := find_first (has_id id) (State_Operations st).
Definition productExists (st : State) (id : string) : bool := existsb (has_id id) (State_Products st).

(** Configuration lookups of external.go: the last matching record wins. *)
Definition repositoryBinding (st : State) (i : string) : option RepositoryBinding :=
  find_last (fun b => RepositoryBinding_RepositoryID b == i) (State_RepositoryBindings st).
Definition environmentBinding (st : State) (env app : string) : option EnvironmentBinding :=
  find_last (fun b => (EnvironmentBinding_EnvironmentID b == env) && (EnvironmentBinding_ApplicationID b == app))
    (State_EnvironmentBindings st).
Definition configuredBase (b : RepositoryBinding) : string :=
  if RepositoryBinding_BaseBranch b != "" then RepositoryBinding_BaseBranch b else RepositoryBinding_DefaultBranch b.
Definition terminalOperation (status : string) : bool :=
  contains ["GITOPS_APPLIED"; "SUCCEEDED"; "FAILED"; "BLOCKED"; "CANCELLED"] status.

(** ** Scope checks *)
Definition repositories (st : State) (ids : list string) (p : string) : res unit :=
  each (fun i => reject_if
    (negb (existsb (fun r => (ID r == i) && (ProductID r == p)) (State_Repositories st)))
    (invalid "repository %q is not in product" [i])) ids.
Definition env (st : State) (i p : string) : res unit :=
  if i == "" then Ok ()
  else if existsb (fun e => (ID e == i) && (ProductID e == p)) (State_Environments st) then Ok ()
  else invalid "environment is not in product" [].
Definition refs (st : State) (ids : list string) (f : string) : res unit :=
  each (fun i =>
    match integration st i with
    | Some v => reject_if (FeatureID v != f) (invalid "integration %q is not in feature" [i])
    | None => invalid "integration %q is not in feature" [i]
    end) ids.

(** ** Check results and gates *)
Definition latest (st : State) (c : string) : option CheckResult :=
  foldl (fun r v =>
    if (CheckResult_CheckID v == c)
       && match r with None => true | Some r => negb (Before (CreatedAt v) (CreatedAt r)) end
    then Some v else r) None (State_Results st).

Definition externalGateEvidenceCurrent (st : State) (g : Gate) : bool :=
  match find_last (fun s => ExternalScope_GateID s == ID g) (State_ExternalScopes st) with
  | None => true
  | Some scope =>
    forallb (fun c =>
      if Check_GateID c == ID g then
        match latest st (ID c) with
        | None => false
        | Some r => negb (Before (CreatedAt r) (CreatedAt scope))
        end
      else true) (State_Checks st)
  end.

(** What one check of a gate contributes: [None] when it passes. *)
Definition check_verdict (st : State) (g : Gate) (c : Check) : option string :=
  match latest st (ID c) with
  | None => Some "pending"
  | Some r =>
    if CheckResult_Result r != "passed" then Some (CheckResult_Result r)
    else if (Gate_Commit g != "") && (CheckResult_Commit r != Gate_Commit g) then Some "stale"
    else if (Gate_Deployment g != "") && (CheckResult_Deployment r != Gate_Deployment g) then Some "stale"
    else if (Gate_EnvironmentID g != "") && (CheckResult_EnvironmentID r != Gate_EnvironmentID g) then Some "stale"
    else None
  end.
Definition gate_checks (st : State) (g : Gate) : list Check :=
  List.filter (fun c => Check_GateID c == ID g) (State_Checks st).
Fixpoint first_verdict (f : Check -> option string) (l : list Check) : option string :=
  match l with
  | [] => None
  | c :: l => match f c with Some v => Some v | None => first_verdict f l end
  end.
Definition gateResult (st : State) (g : Gate) : string :=
  if negb (externalGateEvidenceCurrent st g) then "pending"
  else match first_verdict (check_verdict st g) (gate_checks st g) with
       | Some v => v
       | None =>
         if bool_decide (gate_checks st g = []) then "pending"
         else if existsb (fun f => (Finding_Status f == "open") && contains (Finding_GateIDs f) (ID g)) (State_Findings st)
         then "blocked"
         else "passed"
       end.
Definition derive (st : State) : State :=
  st <| State_Gates := map (fun g => g <| Gate_Result := gateResult st g |>) (State_Gates st) |>.

(** ** Readiness of an integration *)
Definition ready_status (s : string) : bool := (s == "ready") || (s == "released").
Definition dependency_ready (st : State) (d : string) : res unit :=
  match integration st d with
  | Some v => reject_if (negb (ready_status (Integration_Status v))) (invalid "dependency %s is not ready" [d])
  | None => invalid "dependency %s is not ready" [d]
  end.
Definition blocks_memory (inn : Integration) (m : Memory) : bool :=
  (Memory_Kind m == "blocker") && (Memory_Status m == "open") && (FeatureID m == FeatureID inn)
  && ((Memory_IntegrationID m == "") || (Memory_IntegrationID m == ID inn)).
Definition blocks_finding (inn : Integration) (f : Finding) : bool :=
  (Finding_Status f == "open") && (FeatureID f == FeatureID inn)
  && (contains (Finding_IntegrationIDs f) (ID inn)
      || (bool_decide (Finding_IntegrationIDs f = []) && Finding_BlocksRelease f)).
Definition guards_integration (inn : Integration) (g : Gate) : bool :=
  (FeatureID g == FeatureID inn) && Gate_Blocking g && contains (Gate_IntegrationIDs g) (ID inn).
Definition evidence_matches (st : State) (inn : Integration) (c : Check) : bool :=
  existsb (fun commit =>
    match latest st (ID c) with
    | Some r => CheckResult_Commit r == Commit_SHA commit
    | None => false
    end) (Integration_Commits inn).
Definition gate_ready (st : State) (inn : Integration) (g : Gate) : res unit :=
  if negb (guards_integration inn g) then Ok ()
  else
    _ ← reject_if (gateResult st g != "passed") (invalid "gate %s is not passing" [ID g]);
    if bool_decide (Integration_Commits inn = []) then Ok ()
    else each (fun c => reject_if (negb (evidence_matches st inn c))
           (invalid "check %s evidence does not match integration commits" [ID c])) (gate_checks st g).
Definition readiness (st : State) (inn : Integration) : res unit :=
  _ ← each (dependency_ready st) (Integration_Dependencies inn);
  _ ← each (fun m => reject_if (blocks_memory inn m) (invalid "open blocker %s" [ID m])) (State_Memories st);
  _ ← each (fun f => reject_if (blocks_finding inn f) (invalid "open finding %s" [ID f])) (State_Findings st);
  each (gate_ready st inn) (State_Gates st).

(** ** The dependency search of [validateIntegration]

    [visit] is the recursive closure of the source with its shared [seen] map
    threaded through; [None] means the fuel ran out. *)
Fixpoint visit_all (visit : string -> gset string -> option (bool * gset string))
    (ds : list string) (seen : gset string) : option (bool * gset string) :=
  match ds with
  | [] => Some (false, seen)
  | d :: ds =>
    match visit d seen with
    | Some (false, seen) => visit_all visit ds seen
    | r => r
    end
  end.
Fixpoint visit (st : State) (target : string) (fuel : nat) (i : string) (seen : gset string)
    : option (bool * gset string) :=
  match fuel with
  | O => None
  | S fuel =>
    if i == target then Some (true, seen)
    else if bool_decide (i ∈ seen) then Some (false, seen)
    else
      let seen := {[i]} ∪ seen in
      match integration st i with
      | Some v => visit_all (visit st target fuel) (Integration_Dependencies v) seen
      | None => Some (false, seen)
      end
  end.
(** One more than the number of integrations is enough fuel. *)
Definition visit_fuel (st : State) : nat := S (length (State_Integrations st)).
Definition closes_cycle (st : State) (target d : string) : bool :=
  match visit st target (visit_fuel st) d ∅ with
  | Some (b, _) => b
  | None => false
  end.

(** ** Well-formed integrations *)
Definition feature_repositories (st : State) (inn : Integration) : list string :=
  match feature st (FeatureID inn) with Some f => Feature_Repositories f | None => [] end.
Definition outside {A} `{EqDecision A} (scope : list A) (x : A) : bool :=
  negb (bool_decide (scope = [])) && negb (contains scope x).
Definition allowedRepository (st : State) (inn : Integration) (repo : string) : res unit :=
  _ ← reject_if (outside (Integration_Repositories inn) repo)
        (invalid "Git reference repository outside integration scope" []);
  reject_if (outside (feature_repositories st inn) repo)
        (invalid "Git reference repository outside feature scope" []).
Definition validateIntegration (st : State) (inn : Integration) : res unit :=
  _ ← reject_if (negb (ValidStatus "integration" (Integration_Status inn)))
        (invalid "invalid integration status %q" [Integration_Status inn]);
  _ ← each (fun pr => reject_if (negb (ValidStatus "pull_request" (PullRequest_Status pr)))
        (invalid "invalid pull request status %q" [PullRequest_Status pr])) (Integration_PullRequests inn);
  _ ← reject_if (blank (Integration_Title inn) || blank (Integration_Objective inn))
        (invalid "title and objective required" []);
  _ ← refs st (Integration_Dependencies inn) (FeatureID inn);
  _ ← each (fun repo => reject_if (outside (feature_repositories st inn) repo)
        (invalid "integration repository outside feature scope" [])) (Integration_Repositories inn);
  _ ← repositories st (Integration_Repositories inn) (ProductID inn);
  _ ← each (fun b =>
        _ ← allowedRepository st inn (Branch_RepositoryID b);
        repositories st [Branch_RepositoryID b] (ProductID inn)) (Integration_Branches inn);
  _ ← each (fun c =>
        _ ← allowedRepository st inn (Commit_RepositoryID c);
        _ ← reject_if (Commit_SHA c == "") (invalid "commit sha required" []);
        repositories st [Commit_RepositoryID c] (ProductID inn)) (Integration_Commits inn);
  _ ← each (fun pr =>
        _ ← allowedRepository st inn (PullRequest_RepositoryID pr);
        repositories st [PullRequest_RepositoryID pr] (ProductID inn)) (Integration_PullRequests inn);
  each (fun d => reject_if (closes_cycle st (ID inn) d) (invalid "dependency cycle" [])) (Integration_Dependencies inn).

(** * Properties *)

Lemma bind_unit (r : res unit) (k : res unit) :
  (_ ← r; k) = Ok () <-> r = Ok () /\ k = Ok ().
Proof. destruct r as [[]|]; cbn; split; [auto|intros [_ H]; exact H|discriminate|intros [[=] _]]. Qed.
Lemma reject_invalid b f a : reject_if b (invalid f a) = Ok () <-> b = false.
Proof. destruct b; cbn; unfold invalid; split; (discriminate || reflexivity). Qed.
#[export] Hint Rewrite bind_unit reject_invalid @each_Ok : go_rw.

Lemma has_id_true {A} `{HasMeta A} id (v : A) : has_id id v = true <-> ID v = id.
Proof. apply bool_decide_eq_true. Qed.
Lemma integration_Some st i v : integration st i = Some v -> v ∈ State_Integrations st /\ ID v = i.
Proof. intros [? ?%has_id_true]%find_first_Some; auto. Qed.
Lemma feature_Some st i v : feature st i = Some v -> v ∈ State_Features st /\ ID v = i.
Proof. intros [? ?%has_id_true]%find_first_Some; auto. Qed.
Lemma operationByID_Some st i v : operationByID st i = Some v -> v ∈ State_Operations st /\ ID v = i.
Proof. intros [? ?%has_id_true]%find_first_Some; auto. Qed.
#[export] Hint Resolve integration_Some feature_Some operationByID_Some : go.

(** Entities with unique identifiers. *)
Lemma nodup_map_inj {A} `{HasMeta A} (l : list A) a b : NoDup (map ID l) -> a ∈ l -> b ∈ l -> ID a = ID b -> a = b.
Proof.
  intros Hnd [i Hi]%list_elem_of_lookup_1 [j Hj]%list_elem_of_lookup_1 E.
  assert (i = j) as ->; [|congruence].
  apply (NoDup_lookup _ i j (ID a) Hnd); rewrite lookup_map; [rewrite Hi|rewrite Hj]; cbn; congruence.
Qed.
(** ** The current result of a check *)
Definition latest_step (c : string) (r : option CheckResult) (v : CheckResult) : option CheckResult :=
  if (CheckResult_CheckID v == c)
     && match r with None => true | Some r => negb (Before (CreatedAt v) (CreatedAt r)) end
  then Some v else r.

(** The current result among the results seen so far. *)
Definition IsLatest (c : string) (l : list CheckResult) (r : option CheckResult) : Prop :=
  match r with
  | None => forall v, v ∈ l -> CheckResult_CheckID v <> c
  | Some r => r ∈ l /\ CheckResult_CheckID r = c
              /\ forall v, v ∈ l -> CheckResult_CheckID v = c -> (CreatedAt v <= CreatedAt r)%Z
  end.

Lemma latest_step_IsLatest c l r v : IsLatest c l r -> IsLatest c (l ++ [v]) (latest_step c r v).
Proof.
  unfold latest_step, IsLatest, Before.
  case_bool_decide as Hc; cbn; destruct r as [r|]; try destruct (Z.ltb_spec (CreatedAt v) (CreatedAt r)); cbn;
    setoid_rewrite elem_of_app; setoid_rewrite list_elem_of_singleton.
  - intros (? & ? & Hmax); repeat split; auto. intros w [Hw| ->] ?; [auto|lia].
  - intros (? & ? & Hmax); repeat split; auto. intros w [Hw| ->] Hwc; [specialize (Hmax w Hw Hwc); lia|lia].
  - intros Hno; repeat split; auto. intros w [Hw| ->] Hwc; [destruct (Hno w Hw Hwc)|lia].
  - intros (? & ? & Hmax); repeat split; auto. intros w [Hw| ->] ?; [auto|congruence].
  - intros (? & ? & Hmax); repeat split; auto. intros w [Hw| ->] ?; [auto|congruence].
  - intros Hno w [Hw| ->]; auto.
Qed.

Lemma latest_IsLatest st c : IsLatest c (State_Results st) (latest st c).
Proof.
  unfold latest. change (IsLatest c (State_Results st) (foldl (latest_step c) None (State_Results st))).
  induction (State_Results st) as [|v l IH] using rev_ind; [intros v Hv; inversion Hv|].
  rewrite foldl_app; cbn. apply latest_step_IsLatest, IH.
Qed.

(** ** Gates *)
Definition CheckPasses (st : State) (g : Gate) (c : Check) : Prop :=
  exists r, latest st (ID c) = Some r /\ CheckResult_Result r = "passed"
    /\ (Gate_Commit g = "" \/ CheckResult_Commit r = Gate_Commit g)
    /\ (Gate_Deployment g = "" \/ CheckResult_Deployment r = Gate_Deployment g)
    /\ (Gate_EnvironmentID g = "" \/ CheckResult_EnvironmentID r = Gate_EnvironmentID g).
Definition GatePasses (st : State) (g : Gate) : Prop :=
  externalGateEvidenceCurrent st g = true
  /\ (exists c, c ∈ State_Checks st /\ Check_GateID c = ID g)
  /\ (forall c, c ∈ State_Checks st -> Check_GateID c = ID g -> CheckPasses st g c)
  /\ (forall f, f ∈ State_Findings st -> Finding_Status f = "open" -> ID g ∉ Finding_GateIDs f).

Lemma check_verdict_None st g c : check_verdict st g c = None <-> CheckPasses st g c.
Proof.
  unfold check_verdict, CheckPasses. destruct (latest st (ID c)) as [r|].
  - repeat case_bool_decide; cbn; split; try discriminate; try (intros _; exists r; tauto);
      intros (? & [= <-] & ?); tauto.
  - split; [discriminate|intros (? & [=] & _)].
Qed.
Lemma check_verdict_not_passed st g c : check_verdict st g c <> Some "passed".
Proof.
  unfold check_verdict. destruct (latest st (ID c)) as [r|]; [|discriminate].
  repeat case_bool_decide; cbn; congruence.
Qed.
Lemma first_verdict_None f l : first_verdict f l = None <-> forall c, c ∈ l -> f c = None.
Proof.
  induction l as [|c l IH]; cbn; [split; [intros _ c Hc; inversion Hc|reflexivity]|].
  destruct (f c) eqn:E; split.
  - discriminate.
  - intros H; rewrite (H c) in E by left; discriminate.
  - intros H d [->|Hd]%elem_of_cons; [exact E|apply IH; assumption].
  - intros H; apply IH; intros d Hd; apply H; right; exact Hd.
Qed.
Lemma first_verdict_Some f l v : first_verdict f l = Some v -> exists c, c ∈ l /\ f c = Some v.
Proof.
  induction l as [|c l IH]; cbn; [discriminate|].
  destruct (f c) eqn:E; intros H.
  - exists c; split; [left|congruence].
  - destruct (IH H) as (d & ? & ?); exists d; split; [right|]; assumption.
Qed.
Lemma elem_of_gate_checks st g c : c ∈ gate_checks st g <-> c ∈ State_Checks st /\ Check_GateID c = ID g.
Proof.
  unfold gate_checks. rewrite !list_elem_of_In, filter_In, bool_decide_eq_true; tauto.
Qed.

Lemma open_finding_false st id :
  existsb (fun f => (Finding_Status f == "open") && contains (Finding_GateIDs f) id) (State_Findings st) = false
  <-> forall f, f ∈ State_Findings st -> Finding_Status f = "open" -> id ∉ Finding_GateIDs f.
Proof.
  rewrite <- not_true_iff_false, existsb_exists. unfold contains.
  split.
  - intros H f Hf Ho Hin. apply H; exists f. rewrite <- list_elem_of_In.
    rewrite !bool_decide_true by assumption; auto.
  - intros H (f & Hf%list_elem_of_In & [Ho Hg]%andb_true_iff).
    apply bool_decide_eq_true in Ho, Hg. apply (H f Hf Ho Hg).
Qed.

(** Passing is exactly the specification above. *)
Lemma gateResult_passes st g : gateResult st g = "passed" <-> GatePasses st g.
Proof.
  unfold gateResult, GatePasses. rewrite <- open_finding_false.
  destruct (externalGateEvidenceCurrent st g); cbn; [|split; [discriminate|intros [[=] _]]].
  destruct (first_verdict _ _) as [v|] eqn:Hv.
  - split.
    + intros ->. apply first_verdict_Some in Hv as (c & _ & Hc). destruct (check_verdict_not_passed _ _ _ Hc).
    + intros (_ & _ & Hall & _). apply first_verdict_Some in Hv as (c & [Hc Hg]%elem_of_gate_checks & E).
      rewrite (proj2 (check_verdict_None st g c) (Hall c Hc Hg)) in E; discriminate.
  - assert (Hall : forall c, c ∈ State_Checks st -> Check_GateID c = ID g -> CheckPasses st g c).
    { intros c Hc Hg. apply check_verdict_None. rewrite first_verdict_None in Hv.
      apply Hv, elem_of_gate_checks; auto. }
    assert (Hne : gate_checks st g <> [] <-> exists c, c ∈ State_Checks st /\ Check_GateID c = ID g).
    { setoid_rewrite <- elem_of_gate_checks. split.
      - destruct (gate_checks st g) as [|c l]; [contradiction|intros _; exists c; left].
      - intros (c & Hc) E; rewrite E in Hc; inversion Hc. }
    case_bool_decide as E; [split; [discriminate|tauto]|].
    destruct (existsb _ _); [split; [discriminate|intros (? & ? & ? & [=])]|tauto].
Qed.
#[export] Hint Rewrite gateResult_passes : go_rw.

(** ** Readiness *)
Definition EvidenceMatches (st : State) (inn : Integration) (c : Check) : Prop :=
  exists r k, latest st (ID c) = Some r /\ k ∈ Integration_Commits inn /\ CheckResult_Commit r = Commit_SHA k.
Record Ready (st : State) (inn : Integration) : Prop := {
  ready_dependencies : forall d, d ∈ Integration_Dependencies inn ->
    exists v, integration st d = Some v /\ (Integration_Status v = "ready" \/ Integration_Status v = "released");
  ready_no_blocker : forall m, m ∈ State_Memories st -> blocks_memory inn m = false;
  ready_no_finding : forall f, f ∈ State_Findings st -> blocks_finding inn f = false;
  ready_gates : forall g, g ∈ State_Gates st -> guards_integration inn g = true ->
    GatePasses st g /\ (Integration_Commits inn <> [] ->
      forall c, c ∈ State_Checks st -> Check_GateID c = ID g -> EvidenceMatches st inn c);
}.

Lemma dependency_ready_Ok st d : dependency_ready st d = Ok () <->
  exists v, integration st d = Some v /\ (Integration_Status v = "ready" \/ Integration_Status v = "released").
Proof.
  unfold dependency_ready, ready_status. destruct (integration st d) as [v|].
  - rewrite reject_invalid, negb_false_iff, orb_true_iff, !bool_decide_eq_true.
    split; [eauto|intros (? & [= <-] & ?); assumption].
  - split; [discriminate|intros (? & [=] & _)].
Qed.
Lemma evidence_matches_true st inn c : evidence_matches st inn c = true <-> EvidenceMatches st inn c.
Proof.
  unfold evidence_matches, EvidenceMatches. rewrite existsb_exists. setoid_rewrite <- list_elem_of_In.
  destruct (latest st (ID c)) as [r|]; split.
  - intros (k & ? & ?%bool_decide_eq_true); eauto.
  - intros (? & k & [= <-] & ? & ?); exists k; rewrite bool_decide_eq_true; auto.
  - intros (? & _ & [=]).
  - intros (? & ? & [=] & _).
Qed.
Lemma gate_ready_Ok st inn g : gate_ready st inn g = Ok () <->
  (guards_integration inn g = true -> GatePasses st g /\ (Integration_Commits inn <> [] ->
      forall c, c ∈ State_Checks st -> Check_GateID c = ID g -> EvidenceMatches st inn c)).
Proof.
  unfold gate_ready. destruct (guards_integration inn g); cbn; [|split; congruence].
  rewrite bind_unit, reject_invalid, negb_false_iff, bool_decide_eq_true, gateResult_passes.
  case_bool_decide as E; [split; [intros [? _] _; split; [assumption|contradiction]|intros H; split; [apply H; reflexivity|reflexivity]]|].
  rewrite each_Ok, list.Forall_forall.
  setoid_rewrite reject_invalid; setoid_rewrite negb_false_iff; setoid_rewrite evidence_matches_true.
  setoid_rewrite elem_of_gate_checks. split.
  - intros [? H] _; split; auto.
  - intros H; destruct (H eq_refl) as [? H']; split; [assumption|]. intros c [? ?]; apply H'; auto.
Qed.
Lemma readiness_Ready st inn : readiness st inn = Ok () <-> Ready st inn.
Proof.
  unfold readiness. rewrite !bind_unit, !each_Ok, !list.Forall_forall.
  setoid_rewrite dependency_ready_Ok. setoid_rewrite reject_invalid. setoid_rewrite gate_ready_Ok.
  split; [intros (? & ? & ? & ?); constructor; assumption|intros []; auto].
Qed.

(** ** The dependency graph *)
Definition depends (st : State) (i d : string) : Prop :=
  exists v, integration st i = Some v /\ d ∈ Integration_Dependencies v.
Definition Acyclic (st : State) : Prop := forall i, ~ tc (depends st) i i.

Lemma rtc_first_arrival {A} `{EqDecision A} (R R' : A -> A -> Prop) (x t : A) :
  rtc R' x t -> (forall x y, x <> t -> R' x y -> R x y) -> rtc R x t.
Proof.
  intros H; induction H as [x|x y z Hxy _ IH]; intros Hedge; [constructor|].
  destruct (decide (x = z)) as [->|Hne]; [constructor|].
  eapply rtc_l; [apply Hedge|apply IH]; eassumption.
Qed.

(** Replacing the edges that leave one node keeps a graph acyclic when none of
    the new targets reaches that node in the old graph. *)
Lemma acyclic_replace (R R' : string -> string -> Prop) t :
  (forall x y, x <> t -> R' x y -> R x y) ->
  (forall d, R' t d -> ~ rtc R d t) ->
  (forall x, ~ tc R x x) -> forall x, ~ tc R' x x.
Proof.
  intros Hedge Hnew Hac.
  assert (Ht : ~ tc R' t t).
  { intros H; inversion H as [? ? Htt|? d ? Htd Hdt]; subst.
    - apply (Hnew t Htt); constructor.
    - apply (Hnew d Htd), (rtc_first_arrival R R'); [apply tc_rtc|]; assumption. }
  assert (Hto : forall x y, tc R' x y -> tc R x y \/ rtc R' x t /\ rtc R' t y).
  { intros x y H; induction H as [x y Hxy|x y z Hxy Hyz IH].
    - destruct (decide (x = t)) as [->|Hne].
      + right; split; [constructor|apply rtc_once; assumption].
      + left; apply tc_once, Hedge; assumption.
    - destruct (decide (x = t)) as [->|Hne].
      + right; split; [constructor|eapply rtc_l; [exact Hxy|apply tc_rtc; exact Hyz]].
      + destruct IH as [IH|[IH1 IH2]].
        * left; eapply tc_l; [apply Hedge|]; eassumption.
        * right; split; [eapply rtc_l; eassumption|exact IH2]. }
  intros x Hx. destruct (Hto x x Hx) as [H|[H1 H2]]; [exact (Hac x H)|].
  destruct (decide (x = t)) as [->|Hne]; [exact (Ht Hx)|].
  apply Ht. eapply tc_rtc_l; [exact H2|]. eapply tc_rtc_r; [exact Hx|exact H1].
Qed.

(** *** The search *)
Section search.
Context (st : State) (t : string).

Lemma visit_all_sound f ds seen seen' :
  (forall d s s', d ∈ ds -> f d s = Some (true, s') -> rtc (depends st) d t) ->
  visit_all f ds seen = Some (true, seen') -> exists d, d ∈ ds /\ rtc (depends st) d t.
Proof.
  intros Hf H. revert seen H; induction ds as [|d ds IH]; cbn; intros seen H; [discriminate|].
  destruct (f d seen) as [[[] s]|] eqn:E; [| |discriminate].
  - exists d; split; [left|]. eapply Hf; [left|exact E].
  - destruct (IH ltac:(intros; eapply Hf; [right|]; eassumption) s H) as (e & ? & ?).
    exists e; split; [right|]; assumption.
Qed.

Lemma visit_sound fuel i seen s : visit st t fuel i seen = Some (true, s) -> rtc (depends st) i t.
Proof.
  revert i seen s; induction fuel as [|fuel IH]; cbn; intros i seen s; [discriminate|].
  case_bool_decide as Ht; [intros _; subst; constructor|].
  case_bool_decide; [discriminate|].
  destruct (integration st i) as [v|] eqn:E; [|discriminate].
  intros Hv. eapply visit_all_sound in Hv as (d & Hd & Hr); [|intros; eapply IH; eassumption].
  eapply rtc_l; [exists v|]; eauto.
Qed.

(** What a search that ends without finding the target has established. *)
Definition Explored (ds : list string) (seen seen' : gset string) : Prop :=
  seen ⊆ seen' /\ (forall i, i ∈ ds -> i ∈ seen')
  /\ forall x, x ∈ seen' -> x ∉ seen -> x <> t /\ forall d, depends st x d -> d ∈ seen'.

Lemma visit_all_explored f ds seen seen' :
  (forall d s s', f d s = Some (false, s') -> Explored [d] s s') ->
  visit_all f ds seen = Some (false, seen') -> Explored ds seen seen'.
Proof.
  intros Hf; revert seen; induction ds as [|d ds IH]; cbn; intros seen H.
  - injection H as <-. split; [set_solver|]. split; [set_solver|contradiction].
  - destruct (f d seen) as [[[] s]|] eqn:E; try discriminate.
    apply Hf in E as (H1 & H2 & H3). apply IH in H as (H4 & H5 & H6).
    split; [set_solver|]. split; [set_solver|].
    intros x Hx Hns. destruct (decide (x ∈ s)) as [Hs|Hs]; [|auto].
    destruct (H3 x Hs Hns) as [? Hdeps]; split; [assumption|]. intros e He; apply H4, Hdeps, He.
Qed.

Lemma visit_explored fuel i seen seen' :
  visit st t fuel i seen = Some (false, seen') -> Explored [i] seen seen'.
Proof.
  revert i seen seen'; induction fuel as [|fuel IH]; cbn; intros i seen seen'; [discriminate|].
  case_bool_decide as Ht; [discriminate|].
  case_bool_decide as Hi; [intros [= <-]; split; [set_solver|]; split; [set_solver|contradiction]|].
  destruct (integration st i) as [v|] eqn:E.
  - intros (H1 & H2 & H3)%visit_all_explored; [|exact IH].
    split; [set_solver|]. split; [set_solver|]. intros x Hx Hns.
    destruct (decide (x = i)) as [->|Hne]; [|apply H3; set_solver].
    split; [assumption|]. intros d (w & Hw & Hd). apply H2. congruence.
  - intros [= <-]. split; [set_solver|]. split; [set_solver|].
    intros x Hx Hns. assert (x = i) as -> by set_solver.
    split; [assumption|]. intros d (w & Hw & _); congruence.
Qed.

(** The integrations not yet seen bound the depth of the recursion. *)
Definition unseen (seen : gset string) : nat :=
  size (list_to_set (C := gset string) (map ID (State_Integrations st)) ∖ seen).
Lemma unseen_le s s' : s ⊆ s' -> (unseen s' <= unseen s)%nat.
Proof. intros H; unfold unseen; apply subseteq_size; set_solver. Qed.
Lemma unseen_lt i v seen : integration st i = Some v -> i ∉ seen -> (unseen ({[i]} ∪ seen) < unseen seen)%nat.
Proof.
  intros [Hin Hid]%integration_Some Hns; unfold unseen. apply subset_size.
  assert (i ∈ list_to_set (C := gset string) (map ID (State_Integrations st))).
  { rewrite elem_of_list_to_set, <- Hid. apply list_elem_of_fmap_2, Hin. }
  set_solver.
Qed.

Lemma visit_all_total f ds seen n :
  (forall d s, (unseen s <= n)%nat -> exists b s', f d s = Some (b, s') /\ s ⊆ s') ->
  (unseen seen <= n)%nat -> exists b s', visit_all f ds seen = Some (b, s') /\ seen ⊆ s'.
Proof.
  intros Hf; revert seen; induction ds as [|d ds IH]; cbn; intros seen Hn; [eauto|].
  destruct (Hf d seen Hn) as ([] & s & -> & Hs); [eauto|].
  destruct (IH s) as (b & s' & -> & Hs'); [pose proof (unseen_le _ _ Hs); lia|].
  exists b, s'; split; [reflexivity|set_solver].
Qed.
Lemma visit_total fuel i seen :
  (unseen seen < fuel)%nat -> exists b s, visit st t fuel i seen = Some (b, s) /\ seen ⊆ s.
Proof.
  revert i seen; induction fuel as [|fuel IH]; cbn; intros i seen Hf; [lia|].
  case_bool_decide; [eauto|]. case_bool_decide as Hs; [eauto|].
  destruct (integration st i) as [v|] eqn:E; [|exists false; eexists; split; [reflexivity|set_solver]].
  destruct (visit_all_total (visit st t fuel) (Integration_Dependencies v) ({[i]} ∪ seen) (fuel - 1))
    as (b & s & -> & Hs').
  - intros d s Hle. apply IH. pose proof (unseen_lt i v seen E Hs). lia.
  - pose proof (unseen_lt i v seen E Hs). lia.
  - exists b, s; split; [reflexivity|set_solver].
Qed.
Lemma visit_fuel_bound : (unseen ∅ < visit_fuel st)%nat.
Proof.
  unfold visit_fuel, unseen.
  assert (size (list_to_set (C := gset string) (map ID (State_Integrations st)) ∖ ∅)
          <= length (State_Integrations st))%nat; [|lia].
  rewrite difference_empty_L. induction (State_Integrations st) as [|v l IHl]; cbn; [rewrite size_empty; lia|].
  rewrite size_union_alt, size_singleton.
  etransitivity; [apply le_n_S, subseteq_size|cbn; apply le_n_S, IHl]. set_solver.
Qed.
Lemma visit_fuel_enough i : exists b s, visit st t (visit_fuel st) i ∅ = Some (b, s).
Proof.
  destruct (visit_total (visit_fuel st) i ∅ visit_fuel_bound) as (b & s & E & _). eauto.
Qed.

Lemma visit_decides fuel d b s : visit st t fuel d ∅ = Some (b, s) -> (b = true <-> rtc (depends st) d t).
Proof.
  intros E. split; intros H; [subst; eapply visit_sound, E|].
  destruct b; [reflexivity|exfalso].
  apply visit_explored in E as (_ & H2 & H3).
  assert (t ∈ s); [|exact (proj1 (H3 t H0 ltac:(set_solver)) eq_refl)].
  assert (Hd : d ∈ s) by (apply H2; left). clear H2.
  induction H as [|x y z Hxy _ IH]; [assumption|].
  apply IH; [exact H3|]. apply (H3 x); [assumption|set_solver|assumption].
Qed.
Lemma closes_cycle_spec d : closes_cycle st t d = true <-> rtc (depends st) d t.
Proof.
  unfold closes_cycle. destruct (visit_fuel_enough d) as (b & s & E); rewrite E. apply (visit_decides _ _ _ _ E).
Qed.
End search.

Lemma validateIntegration_deps st v : validateIntegration st v = Ok () ->
  forall d, d ∈ Integration_Dependencies v -> ~ rtc (depends st) d (ID v).
Proof.
  unfold validateIntegration. rewrite !bind_unit. intros (_ & _ & _ & _ & _ & _ & _ & _ & _ & H) d Hd.
  rewrite each_Ok, list.Forall_forall in H. specialize (H d Hd).
  rewrite reject_invalid in H. intros Hr%closes_cycle_spec; congruence.
Qed.

(** Storing a validated integration, new or in place of the old one. *)
Lemma acyclic_store st st' v :
  Acyclic st -> (forall d, d ∈ Integration_Dependencies v -> ~ rtc (depends st) d (ID v)) ->
  (forall i w, i <> ID v -> integration st' i = Some w ->
     exists w0, integration st i = Some w0 /\ Integration_Dependencies w = Integration_Dependencies w0) ->
  (forall w, integration st' (ID v) = Some w -> Integration_Dependencies w = Integration_Dependencies v) ->
  Acyclic st'.
Proof.
  intros Hac Hv Hother Hself. unfold Acyclic. apply (acyclic_replace (depends st) (depends st') (ID v)); [| |exact Hac].
  - intros i d Hne (w & Hw & Hd). destruct (Hother i w Hne Hw) as (w0 & ? & E). exists w0; split; congruence.
  - intros d (w & Hw & Hd). apply Hv. rewrite <- (Hself w Hw); exact Hd.
Qed.

(** * Claims *)

(** ** Gates and readiness *)

(** A gate passes exactly when its external evidence is current, it has at
    least one check, the last result of every one of its checks passed on the
    commit, deployment and environment the gate names, and no open finding
    names the gate. *)
Theorem gate_passes_iff st g : gateResult st g = "passed" <->
  externalGateEvidenceCurrent st g = true
  /\ (exists c, c ∈ State_Checks st /\ Check_GateID c = ID g)
  /\ (forall c, c ∈ State_Checks st -> Check_GateID c = ID g -> exists r, latest st (ID c) = Some r
        /\ r ∈ State_Results st /\ CheckResult_CheckID r = ID c /\ CheckResult_Result r = "passed"
        /\ (forall r', r' ∈ State_Results st -> CheckResult_CheckID r' = ID c -> (CreatedAt r' <= CreatedAt r)%Z)
        /\ (Gate_Commit g = "" \/ CheckResult_Commit r = Gate_Commit g)
        /\ (Gate_Deployment g = "" \/ CheckResult_Deployment r = Gate_Deployment g)
        /\ (Gate_EnvironmentID g = "" \/ CheckResult_EnvironmentID r = Gate_EnvironmentID g))
  /\ (forall f, f ∈ State_Findings st -> Finding_Status f = "open" -> ID g ∉ Finding_GateIDs f).
Proof.
  rewrite gateResult_passes. unfold GatePasses, CheckPasses. split; intros (Hext & Hne & Hall & Hfind);
    (split; [exact Hext|split; [exact Hne|split; [|exact Hfind]]]); intros c Hc Hg; destruct (Hall c Hc Hg) as (r & Hr & H).
  - pose proof (latest_IsLatest st (ID c)) as Hl. rewrite Hr in Hl. destruct Hl as (? & ? & ?). exists r. tauto.
  - exists r. tauto.
Qed.

Lemma latest_recorded st c r : latest st c = Some r -> r ∈ State_Results st.
Proof. intros E. pose proof (latest_IsLatest st c) as H. rewrite E in H. apply H. Qed.

(** What a store derives for its gates is a gate status: when every
    recorded result has a valid status, so has every derived gate. *)
Theorem derived_gates_valid st g :
  (forall r, r ∈ State_Results st -> ValidStatus "check_result" (CheckResult_Result r) = true) ->
  g ∈ State_Gates (derive st) -> ValidStatus "gate_result" (Gate_Result g) = true.
Proof.
  intros Hres (g0 & -> & _)%elem_of_map. change (ValidStatus "gate_result" (gateResult st g0) = true).
  unfold gateResult. destruct (externalGateEvidenceCurrent st g0); [|reflexivity]. cbn [negb].
  destruct (first_verdict _ _) as [v|] eqn:Hv.
  - apply first_verdict_Some in Hv as (c & _ & Hc). unfold check_verdict in Hc.
    destruct (latest st (ID c)) as [r|] eqn:Er; [|injection Hc as <-; reflexivity].
    apply latest_recorded, Hres in Er. destruct (CheckResult_Result r != "passed").
    + injection Hc as <-. unfold ValidStatus in *. apply bool_decide_eq_true in Er. apply bool_decide_eq_true.
      revert Er. apply listed_in. reflexivity.
    + destruct (_ && _); [injection Hc as <-; reflexivity|]. destruct (_ && _); [injection Hc as <-; reflexivity|].
      destruct (_ && _); [injection Hc as <-; reflexivity|discriminate].
  - destruct (bool_decide _); [reflexivity|]. destruct (existsb _ _); reflexivity.
Qed.

(** The readiness check accepts exactly the integrations whose dependencies
    are ready or released, that no open blocker or finding concerns, and whose
    blocking gates pass with evidence on the integration's own commits. *)
Theorem readiness_iff st v : readiness st v = Ok () <->
  (forall d, d ∈ Integration_Dependencies v ->
     exists w, integration st d = Some w /\ (Integration_Status w = "ready" \/ Integration_Status w = "released"))
  /\ (forall m, m ∈ State_Memories st -> blocks_memory v m = false)
  /\ (forall f, f ∈ State_Findings st -> blocks_finding v f = false)
  /\ (forall g, g ∈ State_Gates st -> guards_integration v g = true -> GatePasses st g
        /\ (Integration_Commits v <> [] ->
            forall c, c ∈ State_Checks st -> Check_GateID c = ID g -> EvidenceMatches st v c)).
Proof. rewrite readiness_Ready. split; [intros []; auto|intros (? & ? & ? & ?); constructor; assumption]. Qed.

(** ** The cycle search *)

(** The recursive dependency search ends on every graph, cyclic or not, and
    answers exactly whether the dependency leads back to the integration. *)
Theorem cycle_search_exact st t d :
  exists b seen, visit st t (visit_fuel st) d ∅ = Some (b, seen)
    /\ (forall fuel, (visit_fuel st <= fuel)%nat -> exists seen', visit st t fuel d ∅ = Some (b, seen'))
    /\ (b = true <-> rtc (depends st) d t).
Proof.
  destruct (visit_fuel_enough st t d) as (b & seen & E). exists b, seen. split; [exact E|].
  pose proof (visit_decides st t _ _ _ _ E) as Hb. split; [|exact Hb]. intros fuel Hfuel.
  destruct (visit_total st t fuel d ∅) as (b' & seen' & E' & _).
  { pose proof (visit_fuel_bound st) as Hbound. lia. }
  exists seen'. rewrite E'. do 2 f_equal. pose proof (visit_decides st t _ _ _ _ E') as Hb'. 
  destruct b, b'; try reflexivity; exfalso; [apply proj1 in Hb; apply proj2 in Hb'|apply proj2 in Hb; apply proj1 in Hb'];
    intuition congruence.
Qed.
