(* ===== verification/Handlers.v ===== *)
(** * Command handlers: what they share

    A command handler takes the state, the command and the [Meta] computed by
    [meta] and returns the new state, the value sent back to the caller and
    the (possibly rewritten) [Meta]; an error discards the state, as
    [Store.Update] does.  Fresh identifiers ([id], 16 random bytes in
    hexadecimal) and clock readings ([time.Now]) come from the class [World],
    indexed by call site and iteration.  The file also holds the
    [encoding/json] descriptions of the domain structs that commands decode. *)
From S2P Require Import Prelude GoText GoJson Delivery Domain.
Open Scope string_scope.
Open Scope list_scope.

Class World := {
  fresh : string -> nat -> string;
  now : string -> nat -> Time;
}.

(** Distinct identifiers and one clock reading, for concrete runs. *)
Fixpoint marks (n : nat) : string := match n with O => "" | S n => String "'" (marks n) end.
Definition sample_world : World := {| fresh := fun site n => site +:+ marks n; now := fun _ _ => 1000%Z |}.

(** application/service.go [meta] *)
Definition meta `{World} (c : Command) : Meta :=
  let i := if Command_ID c == "" then fresh "meta" 0 else Command_ID c in
  let n := now "meta" 0 in
  mkMeta i (Command_ProductID c) (Command_FeatureID c) (Command_Actor c) n n.

(** The [any] a handler returns. *)
Inductive Out : Type :=
| OutNone
| OutProduct (v : Product)
| OutFeature (v : Feature)
| OutIntegration (v : Integration)
| OutMemory (v : Memory)
| OutGate (v : Gate)
| OutCheck (v : Check)
| OutResult (v : CheckResult)
| OutFinding (v : Finding)
| OutEnvironment (v : Environment)
| OutRepository (v : Repository)
| OutRelease (v : Release)
| OutApplication (v : Application)
| OutRevision (v : IntegrationRevision)
| OutComposition (v : Composition)
| OutConflict (v : CompositionConflict)
| OutScenario (v : ScenarioVersion)
| OutScenarioRun (v : ScenarioRun)
| OutExternalSystem (v : ExternalSystem)
| OutRelationship (v : SystemRelationship)
| OutExternalScope (v : ExternalScope)
| OutPin (v : ArtifactPin)
| OutConnectionGrant (v : ConnectionGrant)
| OutGitHubConnection (v : GitHubConnection)
| OutComponentBuild (v : ComponentBuild)
| OutEnvironmentBinding (v : EnvironmentBinding)
| OutRuntimeObservation (v : RuntimeObservation)
| OutPublicationTarget (v : PublicationTarget)
| OutPackageArtifact (v : PackageArtifact)
| OutOperation (v : ExternalOperation)
| OutMap (v : list (string * string))
| OutJson (v : json).

Definition Handler : Type := State -> Command -> Meta -> res (State * Out * Meta).

(** ** JSON field descriptions *)
#[export] Instance fields_Meta `{Runtime} : Fields Meta :=
  [
    field "id" Meta_ID; field "product_id" Meta_ProductID; field "feature_id" Meta_FeatureID;
    field "actor" Meta_Actor; field_with "created_at" Meta_CreatedAt decode_time;
    field_with "updated_at" Meta_UpdatedAt decode_time
  ].
#[export] Instance fields_Product `{Runtime} : Fields Product :=
  promoted Product_Meta fields ++
  [
    field "name" Product_Name; field "description" Product_Description
  ].
#[export] Instance fields_Feature `{Runtime} : Fields Feature :=
  promoted Feature_Meta fields ++
  [
    field "title" Feature_Title; field "problem" Feature_Problem; field "goal" Feature_Goal;
    field "requirements" Feature_Requirements; field "constraints" Feature_Constraints;
    field "context" Feature_Context; field "repositories" Feature_Repositories;
    field "owner" Feature_Owner; field "status" Feature_Status
  ].
#[export] Instance fields_Branch `{Runtime} : Fields Branch :=
  [
    field "repository_id" Branch_RepositoryID; field "name" Branch_Name
  ].
#[export] Instance fields_Commit `{Runtime} : Fields Commit :=
  [
    field "repository_id" Commit_RepositoryID; field "sha" Commit_SHA
  ].
#[export] Instance fields_PullRequest `{Runtime} : Fields PullRequest :=
  [
    field "repository_id" PullRequest_RepositoryID; field "id" PullRequest_ID;
    field "url" PullRequest_URL; field "status" PullRequest_Status
  ].
#[export] Instance fields_Integration `{Runtime} : Fields Integration :=
  [
    field "kind" Integration_Kind; field "fixes_finding_id" Integration_FixesFindingID
  ] ++
  promoted Integration_Meta fields ++
  [
    field "title" Integration_Title; field "objective" Integration_Objective;
    field "rationale" Integration_Rationale; field "dependencies" Integration_Dependencies;
    field "acceptance_criteria" Integration_AcceptanceCriteria; field "status" Integration_Status;
    field "owner" Integration_Owner; field "repositories" Integration_Repositories;
    field "branches" Integration_Branches; field "commits" Integration_Commits;
    field "pull_requests" Integration_PullRequests; field "completed" Integration_Completed;
    field "remaining" Integration_Remaining; field "working_areas" Integration_WorkingAreas;
    field "position" Integration_Position
  ].
#[export] Instance fields_Memory `{Runtime} : Fields Memory :=
  promoted Memory_Meta fields ++
  [
    field "integration_id" Memory_IntegrationID; field "kind" Memory_Kind; field "title" Memory_Title;
    field "body" Memory_Body; field "reason" Memory_Reason; field "status" Memory_Status;
    field "completed" Memory_Completed; field "current" Memory_Current;
    field "remaining" Memory_Remaining; field "next" Memory_Next; field "warnings" Memory_Warnings;
    field "commit" Memory_Commit; field "deployment" Memory_Deployment; field "session" Memory_Session;
    field "resolution" Memory_Resolution
  ].
#[export] Instance fields_Gate `{Runtime} : Fields Gate :=
  promoted Gate_Meta fields ++
  [
    field "title" Gate_Title; field "reason" Gate_Reason; field "integration_ids" Gate_IntegrationIDs;
    field "position" Gate_Position; field "blocking" Gate_Blocking;
    field "environment_id" Gate_EnvironmentID; field "commit" Gate_Commit;
    field "deployment" Gate_Deployment; field "result" Gate_Result
  ].
#[export] Instance fields_Check `{Runtime} : Fields Check :=
  promoted Check_Meta fields ++
  [
    field "gate_id" Check_GateID; field "title" Check_Title; field "mechanism" Check_Mechanism;
    field "instructions" Check_Instructions
  ].
#[export] Instance fields_Artifact `{Runtime} : Fields Artifact :=
  [
    field "kind" Artifact_Kind; field "url" Artifact_URL; field "label" Artifact_Label
  ].
#[export] Instance fields_CheckResult `{Runtime} : Fields CheckResult :=
  promoted CheckResult_Meta fields ++
  [
    field "check_id" CheckResult_CheckID; field "result" CheckResult_Result;
    field "commit" CheckResult_Commit; field "environment_id" CheckResult_EnvironmentID;
    field "deployment" CheckResult_Deployment; field "steps" CheckResult_Steps;
    field "observations" CheckResult_Observations; field "logs" CheckResult_Logs;
    field "artifacts" CheckResult_Artifacts
  ].
#[export] Instance fields_ReviewComment `{Runtime} : Fields ReviewComment :=
  [
    field "id" ReviewComment_ID; field "kind" ReviewComment_Kind; field "author" ReviewComment_Author;
    field "body" ReviewComment_Body; field "url" ReviewComment_URL; field "path" ReviewComment_Path;
    field "line" ReviewComment_Line; field "commit" ReviewComment_Commit;
    field_with "updated_at" ReviewComment_UpdatedAt decode_time
  ].
#[export] Instance fields_ReviewSource `{Runtime} : Fields ReviewSource :=
  [
    field "repository_id" ReviewSource_RepositoryID; field "pull_request" ReviewSource_PullRequest;
    field "comment" ReviewSource_Comment; field "priority" ReviewSource_Priority
  ].
#[export] Instance fields_Finding `{Runtime} : Fields Finding :=
  [
    field "review_source" Finding_ReviewSource
  ] ++
  promoted Finding_Meta fields ++
  [
    field "result_id" Finding_ResultID; field "title" Finding_Title; field "severity" Finding_Severity;
    field "body" Finding_Body; field "status" Finding_Status;
    field "integration_ids" Finding_IntegrationIDs; field "gate_ids" Finding_GateIDs;
    field "blocks_release" Finding_BlocksRelease; field "resolution" Finding_Resolution;
    field "fix_commit" Finding_FixCommit
  ].
#[export] Instance fields_Environment `{Runtime} : Fields Environment :=
  [
    field_with "reservation_epoch" Environment_ReservationEpoch decode_uint64;
    field_with "selection_generation" Environment_SelectionGeneration decode_uint64;
    field "parameters" Environment_Parameters;
    field "desired_operation_id" Environment_DesiredOperationID; field "cluster" Environment_Cluster;
    field "namespace" Environment_Namespace;
    field "desired_composition_id" Environment_DesiredCompositionID
  ] ++
  promoted Environment_Meta fields ++
  [
    field "name" Environment_Name; field "desired" Environment_Desired;
    field "reconciled" Environment_Reconciled; field "runtime" Environment_Runtime;
    field "composition" Environment_Composition
  ].
#[export] Instance fields_Repository `{Runtime} : Fields Repository :=
  [
    field "role" Repository_Role; field "registered_repository_id" Repository_RegisteredRepositoryID
  ] ++
  promoted Repository_Meta fields ++
  [
    field "name" Repository_Name; field "url" Repository_URL; field "provider" Repository_Provider
  ].
#[export] Instance fields_Release `{Runtime} : Fields Release :=
  [
    field "execution_operation_id" Release_ExecutionOperationID;
    field "candidate_operation_id" Release_CandidateOperationID;
    field "environment_id" Release_EnvironmentID;
    field "recorded_externally" Release_RecordedExternally; field "evidence" Release_Evidence;
    field "source_commits" Release_SourceCommits; field "artifact_digests" Release_ArtifactDigests;
    field "gitops_commits" Release_GitOpsCommits; field "status" Release_Status;
    field "snapshots" Release_Snapshots
  ] ++
  promoted Release_Meta fields ++
  [
    field "name" Release_Name; field "integration_ids" Release_IntegrationIDs;
    field "excluded_integration_ids" Release_ExcludedIntegrationIDs; field "notes" Release_Notes
  ].
#[export] Instance fields_CompositionComponent `{Runtime} : Fields CompositionComponent :=
  [
    field "application_id" CompositionComponent_ApplicationID;
    field "base_ref" CompositionComponent_BaseRef; field "base_commit" CompositionComponent_BaseCommit;
    field "target_branch" CompositionComponent_TargetBranch;
    field "revision_ids" CompositionComponent_RevisionIDs
  ].
#[export] Instance fields_ScenarioComponentEvidence `{Runtime} : Fields ScenarioComponentEvidence :=
  [
    field "application_id" ScenarioComponentEvidence_ApplicationID;
    field "operation_id" ScenarioComponentEvidence_OperationID;
    field "source_sha" ScenarioComponentEvidence_SourceSHA;
    field "artifact_digest" ScenarioComponentEvidence_ArtifactDigest;
    field "deployment_evidence" ScenarioComponentEvidence_DeploymentEvidence
  ].

(** ** Loops that reject repetitions

    [for _, id := range ids { if seen[id] || !ok(id) { return e }; seen[id] = true }] *)
Fixpoint each_unique (ok : string -> bool) (e : res unit) (seen : gset string) (ids : list string) : res unit :=
  match ids with
  | [] => Ok ()
  | i :: ids =>
    if bool_decide (i ∈ seen) || negb (ok i) then e else each_unique ok e ({[i]} ∪ seen) ids
  end.

Lemma each_unique_Ok ok e seen ids : e <> Ok () ->
  each_unique ok e seen ids = Ok () <->
  NoDup ids /\ forall i, i ∈ ids -> i ∉ seen /\ ok i = true.
Proof.
  intros He; revert seen; induction ids as [|i ids IH]; cbn; intros seen.
  - split; [intros _; split; [constructor|intros i Hi; inversion Hi]|reflexivity].
  - rewrite list.NoDup_cons. case_bool_decide as Hs; cbn.
    { split; [contradiction|intros [_ Hi]; destruct (Hi i ltac:(left)); contradiction]. }
    destruct (ok i) eqn:Hok; cbn.
    2:{ split; [contradiction|intros [_ Hi]; destruct (Hi i ltac:(left)); congruence]. }
    rewrite IH. split.
    + intros [Hnd Hall]. split; [split; [|exact Hnd]|].
      * intros Hin. destruct (Hall i Hin) as [Hni _]. set_solver.
      * intros j [->|Hin]%elem_of_cons; [auto|]. destruct (Hall j Hin); set_solver.
    + intros [[Hni Hnd] Hall]. split; [exact Hnd|]. intros j Hj.
      destruct (Hall j ltac:(right; exact Hj)). split; [|assumption]. set_solver.
Qed.

(** ** Go's [for k, v := range m]: every entry once, in an unspecified order *)
Class MapOrder := {
  map_range : forall {A}, gmap string A -> list (string * A);
  map_range_perm : forall {A} (m : gmap string A), map_range m ≡ₚ map_to_list m;
}.
Lemma elem_of_map_range `{MapOrder} {A} (m : gmap string A) k x : (k, x) ∈ map_range m <-> m !! k = Some x.
Proof. rewrite map_range_perm. apply elem_of_map_to_list. Qed.
Definition sample_order : MapOrder.
Proof. refine {| map_range := fun A m => map_to_list m |}. reflexivity. Defined.
