(* ===== verification/DeviceAuth.v ===== *)
(** * Sessions, devices and agents

    [internal/auth] (manager.go, device.go, the state of store.go): humans sign
    in through an identity provider, an agent on a device asks for a code, a
    human approves it, and the agent polls for its permanent credential.  The
    functions passed to [privateStore.update] are pure functions on
    [authState]; [serve] is [Manager.Wrap] for the routes of the package.

    A [Request] has been routed by method and path and its body decoded; what
    remains of [net/http] are the headers the code reads.  [limited], the
    outcome of the rate limiter, is a field of the request.  SHA-256 and HMAC
    are the class [Crypto], the identity provider is the class [OIDC]. *)
From S2P Require Import Prelude GoText GoJson Delivery Handlers.
Open Scope string_scope.
Open Scope list_scope.

(** ** State — auth/config.go, auth/store.go *)
Record Principal := mkPrincipal {
  Principal_ID : string; Principal_Kind : string; Principal_Role : string;
  Principal_Products : list string; Principal_Permissions : list string
}.
#[export] Instance zero_Principal : Zero Principal := mkPrincipal zero zero zero zero zero.
#[export] Instance Principal_eq_dec : EqDecision Principal.
Proof. solve_decision. Defined.
Record loginFlow := mkLoginFlow {
  loginFlow_Nonce : string; loginFlow_Verifier : string; loginFlow_ReturnTo : string; loginFlow_Expires : Time
}.
#[export] Instance zero_loginFlow : Zero loginFlow := mkLoginFlow zero zero zero (zero : Z).
Record session := mkSession { session_Principal : Principal; session_Expires : Time }.
Record agent := mkAgent {
  agent_ID : string; agent_Name : string; agent_Owner : string; agent_Verifier : string;
  agent_Products : list string; agent_Permissions : list string; agent_CreatedAt : Time; agent_RevokedAt : option Time
}.
#[export] Instance zero_agent : Zero agent := mkAgent zero zero zero zero zero zero (zero : Z) zero.
Record agentRecord := mkAgentRecord {
  agentRecord_Info : agent; agentRecord_Owner : string; agentRecord_Verifier : string
}.
Record device := mkDevice {
  device_Name : string; device_UserHash : string; device_Status : string; device_AgentID : string;
  device_Owner : string; device_Products : list string; device_Permissions : list string;
  device_Expires : Time; device_LastPoll : Time; device_Interval : Z; device_Attempts : Z
}.
#[export] Instance zero_device : Zero device :=
  mkDevice zero zero zero zero zero zero zero (zero : Z) (zero : Z) (zero : Z) (zero : Z).
Record authState := mkAuthState {
  authState_Flows : gmap string loginFlow; authState_Sessions : gmap string session;
  authState_Agents : gmap string agentRecord; authState_Devices : gmap string device
}.
Definition emptyState : authState := mkAuthState ∅ ∅ ∅ ∅.
Definition prune (now : Time) (st : authState) : authState :=
  mkAuthState
    (filter (fun kv => Before now (loginFlow_Expires kv.2) = true) (authState_Flows st))
    (filter (fun kv => Before now (session_Expires kv.2) = true) (authState_Sessions st))
    (authState_Agents st)
    (filter (fun kv => After now (device_Expires kv.2 + hour)%Z = false) (authState_Devices st)).

(** ** Configuration, requests, responses *)
Record Config := mkConfig {
  Config_PublicURL : string; Config_RolesClaim : string; Config_AllowedRoles : list string;
  Config_AdminRoles : list string; Config_Products : list string; Config_BootstrapToken : string;
  Config_SessionTTL : Z
}.
Inductive Call : Type :=
| Login (return_to : string)
| Callback (state code : string)
| DeviceCode (name scope : string) (products : list string)
| DeviceToken (grant_type device_code : string)
| DevicePage (code : string)
| DeviceDecide (deny : bool) (code : string)
| ListAgents
| RevokeAgent (id : string)
| Logout
| Me.
Record Request := mkRequest {
  Request_Authorization : string; Request_Session : option string; Request_Flow : option string;
  Request_Origin : string; Request_CSRF : string; Request_Limited : bool; Request_Call : Call
}.
Inductive Response : Type :=
| Failure (status : Z) (code : string)
| LoginStarted (state nonce : string)
| SignedIn (token return_to : string)
| DeviceStarted (device_code user_code : string)
| TokenIssued (token scope : string)
| ApprovalPage (d : option device) (code : string)
| Decided
| Agents (l : list agent)
| Whoami (p : Principal)
| LoginRequired
| Done.

(** The environment of one request: successive clock readings and random
    draws, and the 12 base-32 characters of a user code. *)
Record Env := mkEnv { clock : nat -> Time; random : nat -> string; user_code : string }.

Class Crypto := { hash : string -> string; mac : string -> string -> string }.
Record IDToken := mkIDToken {
  IDToken_Issuer : string; IDToken_Subject : string; IDToken_Nonce : string;
  IDToken_Claims : option (list (string * json))
}.
(** The identity provider: the code exchange with its PKCE verifier, the
    verification of the ID token it returns, and [net/url]'s view of a path
    ([IsAbs] and [Host]). *)
Class OIDC := {
  exchange : string -> string -> option (option string);
  verify : string -> option IDToken;
  parse_url : string -> option (bool * string);
}.
Class Upper := { to_upper : string -> string; to_upper_ascii : forall s, is_ascii s = true -> to_upper s = str_map upper_byte s }.

(** ** [strings.Fields], [strings.ToUpper] and the helpers of the package *)
Definition flush (cur : string) : list string := if cur == "" then [] else [cur].
Fixpoint fields_fuel (fuel : nat) (cur s : string) : list string :=
  match fuel with
  | O => flush cur
  | S fuel =>
    match space_prefix s, s with
    | O, EmptyString => flush cur
    | O, String a s => fields_fuel fuel (cur +:+ String a EmptyString) s
    | n, _ => flush cur ++ fields_fuel fuel "" (str_drop n s)
    end
  end.
(** Every step consumes a byte, so the length of the text is enough fuel. *)
Definition string_fields (s : string) : list string := fields_fuel (S (String.length s)) "" s.
Fixpoint without_char (c : ascii) (s : string) : string :=
  match s with
  | EmptyString => EmptyString
  | String a s => if a == c then without_char c s else String a (without_char c s)
  end.
Definition normalizeCode `{Upper} (s : string) : string := to_upper (without_char "-"%char (trim_space s)).

Definition unique (v : list string) : list string :=
  merge_sort String.le (foldl (fun out s => if contains out s then out else out ++ [s]) [] v).
Definition intersects (a b : list string) : bool := existsb (fun x => contains b x) a.
Definition subset (want allowed : list string) : bool :=
  if bool_decide (want = []) then false
  else intersects allowed ["*"] || forallb (fun v => intersects allowed [v]) want.

(** [claimStrings]; a decoded object keeps the last of its equal keys. *)
Definition object_get (o : list (string * json)) (key : string) : json :=
  match find_last (fun kv => kv.1 == key) o with Some (_, v) => v | None => JNull end.
Fixpoint claim_at (v : json) (path : list string) : option json :=
  match path with
  | [] => Some v
  | key :: path => match v with JObj o => claim_at (object_get o key) path | _ => None end
  end.
Definition claimStrings (claims : list (string * json)) (path : string) : list string :=
  match claim_at (JObj claims) (split_on "."%char path) with
  | Some (JArr l) => omap (fun v => match v with JStr s => Some s | _ => None end) l
  | _ => []
  end.

Section manager.
Context `{Crypto} `{OIDC} `{Upper} `{Runtime} `{MapOrder} (cfg : Config).

(** ** Signing in — manager.go *)
Definition safe_return (returnTo : string) : string :=
  let r :=
    match parse_url returnTo with
    | None => "/"
    | Some (abs, host) =>
      if abs || (host != "") || negb (has_prefix "/" returnTo) || has_prefix "//" returnTo
         || contains_any (String "\" (String (ascii_of_nat 13) (String (ascii_of_nat 10) EmptyString))) returnTo
      then "/" else returnTo
    end in
  if has_prefix "/auth/" r && negb (has_prefix "/auth/device?" r) then "/" else r.
Definition login (e : Env) (returnTo : string) (st : authState) : Response * authState :=
  let '(state, nonce, verifier) := (random e 0, random e 1, random e 2) in
  let st' := prune (clock e 2) st in
  if (4096 <=? Z.of_nat (size (authState_Flows st')))%Z then (Failure 503 "authentication_unavailable", st)
  else
    let flow := mkLoginFlow nonce verifier (safe_return returnTo) (clock e 3 + 10 * minute)%Z in
    (LoginStarted state nonce, st' <| authState_Flows ::= <[hash state := flow]> |>).

(** The principal a verified token stands for, or the refusal. *)
Definition principal_of (id : IDToken) (nonce : string) : Response + Principal :=
  if (IDToken_Subject id == "") || (IDToken_Nonce id != nonce) then inl (Failure 401 "invalid_identity")
  else match IDToken_Claims id with
  | None => inl (Failure 401 "invalid_identity")
  | Some claims =>
    let roles := claimStrings claims (Config_RolesClaim cfg) in
    let admin := intersects roles (Config_AdminRoles cfg) in
    if negb admin && negb (intersects roles (Config_AllowedRoles cfg)) then inl (Failure 403 "role_required")
    else
      inr (mkPrincipal ("human/" +:+ mac "subject" (IDToken_Issuer id +:+ String (ascii_of_nat 0) (IDToken_Subject id)))
             "human" (if admin then "admin" else "member") (Config_Products cfg)
             (["read"; "write"; "deploy"] ++ if admin then ["admin"] else []))
  end.
Definition callback (e : Env) (cookie : option string) (state code : string) (st : authState) : Response * authState :=
  match cookie with
  | None => (Failure 400 "invalid_state", st)
  | Some c =>
    if (state == "") || (128 <? strlen state)%Z || (c != state) then (Failure 400 "invalid_state", st)
    else
      let st := prune (clock e 2) st in
      let flow := default zero (authState_Flows st !! hash state) in
      let st := st <| authState_Flows ::= delete (hash state) |> in
      if (loginFlow_Nonce flow == "") || negb (Before (clock e 3) (loginFlow_Expires flow))
      then (Failure 400 "invalid_state", st)
      else match exchange code (loginFlow_Verifier flow) with
      | None => (Failure 401 "invalid_code", st)
      | Some None => (Failure 401 "invalid_identity", st)
      | Some (Some rawID) =>
        match verify rawID with
        | None => (Failure 401 "invalid_identity", st)
        | Some id =>
          match principal_of id (loginFlow_Nonce flow) with
          | inl failure => (failure, st)
          | inr p =>
            let st' := prune (clock e 4) st in
            if (4096 <=? Z.of_nat (size (authState_Sessions st')))%Z then (Failure 503 "authentication_unavailable", st)
            else
              (SignedIn (random e 0) (loginFlow_ReturnTo flow),
               st' <| authState_Sessions ::= <[hash (random e 0) := mkSession p (clock e 5 + Config_SessionTTL cfg)%Z]> |>)
          end
        end
      end
  end.
Definition logout (e : Env) (raw : string) (st : authState) : Response * authState :=
  if raw == "" then (Failure 403 "human_session_required", st)
  else (Done, (prune (clock e 2) st) <| authState_Sessions ::= delete (hash raw) |>).

(** ** Who is asking — manager.go [authenticate], [csrfOK] *)
Definition bootstrap : Principal :=
  mkPrincipal "service/bootstrap" "service" "admin" (Config_Products cfg) ["read"; "write"; "deploy"; "admin"].
Definition agent_of (token : string) (st : authState) : option Principal :=
  option_map (fun ka => let a := agentRecord_Info ka.2 in
      mkPrincipal (agent_ID a) "agent" "member" (agent_Products a) (agent_Permissions a))
    (find_first (fun ka => bool_decide (agent_RevokedAt (agentRecord_Info ka.2) = None)
                           && (agentRecord_Verifier ka.2 == hash token)) (map_range (authState_Agents st))).
Definition authenticate (e : Env) (r : Request) (st : authState) : Principal * string * authState :=
  if Request_Authorization r != "" then
    match string_fields (Request_Authorization r) with
    | [scheme; token] =>
      if negb (equal_fold scheme "Bearer") then (zero, "", st)
      else if (Config_BootstrapToken cfg != "") && (hash token == hash (Config_BootstrapToken cfg)) then (bootstrap, "", st)
      else if negb (has_prefix "rcpa_" token) || (128 <? strlen token)%Z then (zero, "", st)
      else let st := prune (clock e 0) st in (default zero (agent_of token st), "", st)
    | _ => (zero, "", st)
    end
  else match Request_Session r with
  | None => (zero, "", st)
  | Some cookie =>
    if (128 <? strlen cookie)%Z then (zero, "", st)
    else
      let st := prune (clock e 0) st in
      match authState_Sessions st !! hash cookie with
      | Some s =>
        let p := if Before (clock e 1) (session_Expires s) then session_Principal s else zero in
        (p, if Principal_ID p == "" then "" else cookie, st)
      | None => (zero, "", st)
      end
  end.
Definition csrfOK (r : Request) (raw : string) : bool :=
  if Request_Origin r != "" then Request_Origin r == Config_PublicURL cfg
  else (raw != "") && (Request_CSRF r == mac "csrf" raw).

(** ** Devices — device.go *)
Definition deviceGrant : string := "urn:ietf:params:oauth:grant-type:device_code".
Definition deviceCode (e : Env) (name scope : string) (products : list string) (st : authState) : Response * authState :=
  let name := trim_space name in
  if (name == "") || (120 <? strlen name)%Z then (Failure 400 "invalid_request", st)
  else
    let scopes := match string_fields scope with [] => ["read"; "write"] | l => l end in
    let scopes := unique scopes in
    if negb (forallb (contains ["read"; "write"; "deploy"]) scopes) then (Failure 400 "invalid_scope", st)
    else
      let products := unique match products with [] => Config_Products cfg | l => l end in
      if negb (subset products (Config_Products cfg)) then (Failure 400 "invalid_scope", st)
      else
        let raw := random e 0 in
        let user := str_take 5 (user_code e) +:+ "-" +:+ str_drop 5 (user_code e) in
        let d := (zero : device) <| device_Name := name |> <| device_UserHash := mac "user-code" (normalizeCode user) |>
                   <| device_Status := "pending" |> <| device_Products := products |> <| device_Permissions := scopes |>
                   <| device_Expires := (clock e 2 + 10 * minute)%Z |> <| device_Interval := 5%Z |> in
        let st := prune (clock e 3) st in
        if (4096 <=? Z.of_nat (size (authState_Devices st)))%Z then (Failure 503 "authentication_unavailable", st)
        else (DeviceStarted raw user, st <| authState_Devices ::= <[hash raw := d]> |>).

Definition poll_interval (d : device) : Z := (if 60 <? device_Interval d + 5 then 60 else device_Interval d + 5)%Z.
(** The agent an approved device becomes. *)
Definition agent_for (id token : string) (now : Time) (d : device) : agentRecord :=
  mkAgentRecord
    ((zero : agent) <| agent_ID := id |> <| agent_Name := device_Name d |> <| agent_Products := device_Products d |>
      <| agent_Permissions := device_Permissions d |> <| agent_CreatedAt := now |>)
    (device_Owner d) (hash token).
Definition deviceToken (e : Env) (grant code : string) (st : authState) : Response * authState :=
  if grant != deviceGrant then (Failure 400 "unsupported_grant_type", st)
  else if (strlen code != 43)%Z then (Failure 400 "invalid_grant", st)
  else
    let token := "rcpa_" +:+ mac "agent-token" code in
    let st := prune (clock e 2) st in
    let key := hash code in
    let now := clock e 3 in
    let issued d := TokenIssued token (String.concat " " (device_Permissions d)) in
    match authState_Devices st !! key with
    | None => (Failure 400 "invalid_grant", st)
    | Some d =>
      if negb (Before now (device_Expires d)) then (Failure 400 "expired_token", st)
      else if device_Status d == "denied" then (Failure 400 "access_denied", st)
      else if device_Status d == "issued" then
        match authState_Agents st !! device_AgentID d with
        | Some a => if bool_decide (agent_RevokedAt (agentRecord_Info a) = None) then (issued d, st)
                    else (Failure 400 "access_denied", st)
        | None => (Failure 400 "access_denied", st)
        end
      else if negb (IsZero (device_LastPoll d)) && (now - device_LastPoll d <? device_Interval d * second)%Z then
        let d := d <| device_Interval := poll_interval d |> <| device_LastPoll := now |> in
        (Failure 400 "slow_down", st <| authState_Devices ::= <[key := d]> |>)
      else
        let d := d <| device_LastPoll := now |> in
        if device_Status d != "approved"
        then (Failure 400 "authorization_pending", st <| authState_Devices ::= <[key := d]> |>)
        else
          let id := "agent/" +:+ random e 0 in
          (issued d,
           st <| authState_Agents ::= <[id := agent_for id token now d]> |>
              <| authState_Devices ::= <[key := d <| device_AgentID := id |> <| device_Status := "issued" |>]> |>)
    end.

Definition matches_code (code : string) (kd : string * device) : bool :=
  device_UserHash kd.2 == mac "user-code" (normalizeCode code).
Definition within (d : device) (p : Principal) : bool :=
  subset (device_Products d) (Principal_Products p) && subset (device_Permissions d) (Principal_Permissions p).
Definition devicePage (e : Env) (p : Principal) (limited : bool) (code : string) (st : authState) : Response * authState :=
  if Principal_Kind p != "human" then (Failure 403 "human_session_required", st)
  else if limited then (Failure 429 "slow_down", st)
  else if code == "" then (ApprovalPage None code, st)
  else if (24 <? strlen code)%Z then (Failure 400 "invalid_user_code", st)
  else
    let st := prune (clock e 2) st in
    match find_first (fun kd => matches_code code kd && Before (clock e 3) (device_Expires kd.2)
                                && (device_Status kd.2 == "pending")) (map_range (authState_Devices st)) with
    | None => (Failure 400 "invalid_user_code", st)
    | Some (_, d) => if negb (within d p) then (Failure 403 "invalid_scope", st) else (ApprovalPage (Some d) code, st)
    end.
Definition deviceDecide (e : Env) (p : Principal) (limited deny : bool) (code : string) (st : authState)
    : Response * authState :=
  if Principal_Kind p != "human" then (Failure 403 "human_session_required", st)
  else if limited then (Failure 429 "slow_down", st)
  else if (24 <? strlen code)%Z || (code == "") then (Failure 400 "invalid_user_code", st)
  else
    let st := prune (clock e 2) st in
    match find_first (matches_code code) (map_range (authState_Devices st)) with
    | None => (Failure 400 "invalid_user_code", st)
    | Some (k, d) =>
      if negb (Before (clock e 3) (device_Expires d)) then (Failure 400 "expired_token", st)
      else
        let d := d <| device_Attempts ::= Z.succ |> in
        let store d := st <| authState_Devices ::= <[k := d]> |> in
        if (device_Status d != "pending") || (10 <? device_Attempts d)%Z then (Failure 400 "invalid_grant", store d)
        else if negb (within d p) then (Failure 400 "invalid_scope", store d)
        else (Decided, store (d <| device_Status := if deny then "denied" else "approved" |>
                                <| device_Owner := Principal_ID p |>))
    end.

(** ** Agents — device.go *)
Definition may_manage (p : Principal) (a : agentRecord) : bool :=
  (agentRecord_Owner a == Principal_ID p) || (Principal_Role p == "admin").
Definition created_before (a b : agent) : Prop := (agent_CreatedAt a <= agent_CreatedAt b)%Z.
#[local] Instance created_before_dec : RelDecision created_before.
Proof. intros a b. unfold created_before. apply _. Defined.
Definition listAgents (e : Env) (p : Principal) (st : authState) : Response * authState :=
  if Principal_Kind p != "human" then (Failure 403 "human_session_required", st)
  else
    let st := prune (clock e 2) st in
    (Agents (merge_sort created_before
       (map agentRecord_Info (List.filter (may_manage p) (map snd (map_range (authState_Agents st)))))), st).
Definition revokeAgent (e : Env) (p : Principal) (id : string) (st : authState) : Response * authState :=
  if Principal_Kind p != "human" then (Failure 403 "human_session_required", st)
  else
    let st := prune (clock e 2) st in
    match authState_Agents st !! id with
    | None => (Failure 404 "agent_not_found", st)
    | Some a =>
      if negb (may_manage p a) then (Failure 404 "agent_not_found", st)
      else if bool_decide (agent_RevokedAt (agentRecord_Info a) = None) then
        (Done, st <| authState_Agents ::= <[id := a <| agentRecord_Info ::= fun i => i <| agent_RevokedAt := Some (clock e 3) |> |>]> |>)
      else (Done, st)
    end.

(** ** [Wrap] for the routes of the package *)
Definition is_read (c : Call) : bool := match c with DevicePage _ | ListAgents | Me => true | _ => false end.
Definition serve_as (e : Env) (p : Principal) (raw : string) (r : Request) (st : authState) : Response * authState :=
  match Request_Call r with
  | DevicePage code => devicePage e p (Request_Limited r) code st
  | DeviceDecide deny code => deviceDecide e p (Request_Limited r) deny code st
  | ListAgents => listAgents e p st
  | RevokeAgent id => revokeAgent e p id st
  | Logout => logout e raw st
  | _ => (Whoami p, st)
  end.
Definition serve (e : Env) (r : Request) (st : authState) : Response * authState :=
  let open (x : Response * authState) := if Request_Limited r then (Failure 429 "slow_down", st) else x in
  match Request_Call r with
  | Login returnTo => open (login e returnTo st)
  | Callback state code => open (callback e (Request_Flow r) state code st)
  | DeviceCode name scope products => open (deviceCode e name scope products st)
  | DeviceToken grant code => open (deviceToken e grant code st)
  | _ =>
    let '(p, raw, st) := authenticate e r st in
    if Principal_ID p == "" then
      (match Request_Call r with DevicePage _ => LoginRequired | _ => Failure 401 "unauthorized" end, st)
    else if (Principal_Kind p == "human") && negb (is_read (Request_Call r)) && negb (csrfOK r raw)
    then (Failure 403 "csrf_failed", st)
    else serve_as e p raw r st
  end.

(** A history of requests, the latest last, each with the state it found, and
    the state they leave. *)
Inductive History : list (Env * Request * authState) -> authState -> Prop :=
| history_empty : History [] emptyState
| history_serve h e r st : History h st -> History (h ++ [(e, r, st)]) (serve e r st).2.
End manager.

(** * Properties *)
Section properties.
Context `{Crypto} `{OIDC} `{Upper} `{Runtime} `{MapOrder} (cfg : Config).
Implicit Types (st : authState) (d : device).

(** What a device asks for: what an agent may ever hold. *)
Definition Grantable (products permissions : list string) : Prop :=
  subset products (Config_Products cfg) = true /\ forall v, v ∈ permissions -> v ∈ ["read"; "write"; "deploy"].
(** In the request, a signed-in human enters the code of a pending, unexpired
    device and holds every product and permission the device asks for. *)
Definition Approves (e : Env) (r : Request) st (owner name : string) (products permissions : list string) : Prop :=
  exists cookie s code k d,
    Request_Authorization r = "" /\ Request_Session r = Some cookie /\ Request_Call r = DeviceDecide false code
    /\ authState_Sessions st !! hash cookie = Some s /\ (clock e 1 < session_Expires s)%Z
    /\ Principal_Kind (session_Principal s) = "human" /\ Principal_ID (session_Principal s) = owner
    /\ csrfOK cfg r cookie = true
    /\ authState_Devices st !! k = Some d /\ device_Status d = "pending" /\ (clock e 3 < device_Expires d)%Z
    /\ device_UserHash d = mac "user-code" (normalizeCode code)
    /\ device_Name d = name /\ device_Products d = products /\ device_Permissions d = permissions
    /\ subset products (Principal_Products (session_Principal s)) = true
    /\ subset permissions (Principal_Permissions (session_Principal s)) = true.
Definition Approved (h : list (Env * Request * authState)) (owner name : string) (products permissions : list string) : Prop :=
  exists e r st, (e, r, st) ∈ h /\ Approves e r st owner name products permissions.

(** ** What a request does to devices and agents *)
Definition same_request d d' : Prop :=
  device_Name d' = device_Name d /\ device_Products d' = device_Products d /\ device_Permissions d' = device_Permissions d.
Inductive DeviceFrom (e : Env) (r : Request) st (d : device) : Prop :=
| device_kept k d0 : authState_Devices st !! k = Some d0 -> same_request d0 d -> device_Owner d = device_Owner d0 ->
    device_Status d = device_Status d0 \/ device_Status d0 = "approved" -> DeviceFrom e r st d
| device_started : Grantable (device_Products d) (device_Permissions d) -> device_Status d = "pending" -> DeviceFrom e r st d
| device_denied k d0 : authState_Devices st !! k = Some d0 -> same_request d0 d -> device_Status d = "denied" -> DeviceFrom e r st d
| device_approved k d0 : authState_Devices st !! k = Some d0 -> same_request d0 d ->
    Approves e r st (device_Owner d) (device_Name d) (device_Products d) (device_Permissions d) -> DeviceFrom e r st d.
Inductive AgentFrom (e : Env) st (id : string) (a : agentRecord) : Prop :=
| agent_kept : authState_Agents st !! id = Some a -> AgentFrom e st id a
| agent_revoked a0 t : authState_Agents st !! id = Some a0 ->
    a = a0 <| agentRecord_Info ::= fun i => i <| agent_RevokedAt := Some t |> |> -> AgentFrom e st id a
| agent_issued k d token t : authState_Devices st !! k = Some d -> device_Status d = "approved" ->
    id = "agent/" +:+ random e 0 -> a = agent_for id token t d -> AgentFrom e st id a.
Record Effect (e : Env) (r : Request) st st' : Prop := {
  effect_devices : forall k d, authState_Devices st' !! k = Some d -> DeviceFrom e r st d;
  effect_agents : forall id a, authState_Agents st' !! id = Some a -> AgentFrom e st id a;
  effect_keeps : forall id a, authState_Agents st !! id = Some a -> id <> "agent/" +:+ random e 0 ->
    exists a', authState_Agents st' !! id = Some a'
      /\ (agent_RevokedAt (agentRecord_Info a) <> None -> agent_RevokedAt (agentRecord_Info a') <> None)
}.

Lemma agents_update f st : authState_Agents (st <| authState_Agents ::= f |>) = f (authState_Agents st).
Proof. reflexivity. Qed.
Lemma effect_refl e r st : Effect e r st st.
Proof.
  split.
  - intros k d Hd. apply (device_kept _ _ _ _ k d); [exact Hd|repeat split..|left]; reflexivity.
  - intros id a Ha. apply agent_kept, Ha.
  - intros id a Ha _. exists a. auto.
Qed.

(** The parts of the state an effect speaks of. *)
Lemma effect_frame e r st st1 st2 : Effect e r st st1 ->
  authState_Devices st2 = authState_Devices st1 -> authState_Agents st2 = authState_Agents st1 -> Effect e r st st2.
Proof. intros [Hd Ha Hk] Ed Ea. split; rewrite ?Ed, ?Ea; assumption. Qed.
Lemma prune_device t st k d : authState_Devices (prune t st) !! k = Some d -> authState_Devices st !! k = Some d.
Proof. intros Hd. apply map_lookup_filter_Some in Hd. apply Hd. Qed.
Lemma effect_prune e r st t : Effect e r st (prune t st).
Proof.
  pose proof (effect_refl e r st) as [Hd Ha Hk]. split; [|exact Ha|exact Hk].
  intros k d Hp. apply (Hd k), (prune_device t), Hp.
Qed.
Lemma effect_device e r st st1 k d : Effect e r st st1 -> DeviceFrom e r st d ->
  Effect e r st (st1 <| authState_Devices ::= <[k := d]> |>).
Proof.
  intros [Hd Ha Hk] Hnew. split; [|exact Ha|exact Hk]. intros k' d' Hl.
  change (<[k := d]> (authState_Devices st1) !! k' = Some d') in Hl. apply lookup_insert_Some in Hl as [[_ <-]|[_ Hl]]; [exact Hnew|exact (Hd _ _ Hl)].
Qed.
Lemma approves_prune e r t st owner name products permissions :
  Approves e r (prune t st) owner name products permissions -> Approves e r st owner name products permissions.
Proof.
  intros (cookie & s & code & k & d & E1 & E2 & E3 & Hs & E4 & E5 & E6 & E7 & Hd & E8).
  apply map_lookup_filter_Some in Hs as [Hs _]. apply prune_device in Hd.
  exists cookie, s, code, k, d. repeat (split; [assumption|]). exact E8.
Qed.
Lemma after_prune e r st t st' : Effect e r (prune t st) st' -> Effect e r st st'.
Proof.
  intros [Hd Ha Hk]. split; [|intros id a Hl|exact Hk].
  - intros k d Hl. destruct (Hd k d Hl) as [k0 d0 Hin|Hg Hs|k0 d0 Hin|k0 d0 Hin].
    + apply (device_kept _ _ _ _ k0 d0 (prune_device _ _ _ _ Hin)); assumption.
    + apply device_started; assumption.
    + apply (device_denied _ _ _ _ k0 d0 (prune_device _ _ _ _ Hin)); assumption.
    + apply (device_approved _ _ _ _ k0 d0 (prune_device _ _ _ _ Hin)); [assumption|eapply approves_prune; eassumption].
  - destruct (Ha id a Hl) as [Hin|a0 t0 Hin|k0 d0 token t0 Hin].
    + apply agent_kept, Hin.
    + apply (agent_revoked e st id a a0 t0); assumption.
    + apply (agent_issued _ _ _ _ k0 d0 token t0 (prune_device _ _ _ _ Hin)); assumption.
Qed.

Lemma effect_poll e r st st1 k d0 d : Effect e r st st1 -> authState_Devices st !! k = Some d0 -> same_request d0 d ->
  device_Owner d = device_Owner d0 -> device_Status d = device_Status d0 ->
  Effect e r st (st1 <| authState_Devices ::= <[k := d]> |>).
Proof. intros Hx Hd Hs Ho Hst. apply effect_device; [exact Hx|]. apply (device_kept _ _ _ _ k d0); auto. Qed.

(** Pulls a store update out of the goal. *)
Ltac no_effect := first [apply effect_refl | apply effect_prune].

Lemma login_effect e r returnTo st : Effect e r st (login e returnTo st).2.
Proof.
  unfold login. cbv zeta. match goal with |- context [if ?b then _ else _] => destruct b end; [no_effect|].
  apply (effect_frame _ _ _ (prune (clock e 2) st)); [no_effect|reflexivity..].
Qed.
Lemma callback_effect e r cookie state code st : Effect e r st (callback cfg e cookie state code st).2.
Proof.
  unfold callback. destruct cookie as [c|]; [|no_effect].
  match goal with |- context [if ?b then _ else _] => destruct b end; [no_effect|]. cbv zeta.
  set (st1 := (prune (clock e 2) st) <| authState_Flows ::= delete (hash state) |>).
  assert (H1' : Effect e r st st1) by (apply (effect_frame _ _ _ (prune (clock e 2) st)); [no_effect|reflexivity..]).
  match goal with |- context [if ?b then _ else _] => destruct b end; [exact H1'|].
  destruct (exchange _ _) as [[rawID|]|]; [|exact H1'..]. destruct (verify rawID) as [id|]; [|exact H1'].
  destruct (principal_of _ _ _) as [f|p]; [exact H1'|].
  match goal with |- context [if ?b then _ else _] => destruct b end; [exact H1'|].
  apply (after_prune _ _ _ (clock e 2)).
  apply (effect_frame _ _ _ (prune (clock e 4) (prune (clock e 2) st))); [no_effect|reflexivity..].
Qed.
Lemma logout_effect e r raw st : Effect e r st (logout e raw st).2.
Proof.
  unfold logout. match goal with |- context [if ?b then _ else _] => destruct b end; [no_effect|].
  apply (effect_frame _ _ _ (prune (clock e 2) st)); [no_effect|reflexivity..].
Qed.

Lemma elem_of_unique x v : x ∈ unique v <-> x ∈ v.
Proof.
  unfold unique. rewrite (merge_sort_Permutation String.le).
  enough (Hg : forall v out, x ∈ foldl (fun out s => if contains out s then out else out ++ [s]) out v <-> x ∈ out \/ x ∈ v).
  { rewrite Hg. set_solver. }
  clear v. induction v as [|s v IH]; intros out; cbn [foldl]; [set_solver|]. rewrite IH.
  unfold contains. case_bool_decide; set_solver.
Qed.
Lemma deviceCode_effect e r name scope products st : Effect e r st (deviceCode cfg e name scope products st).2.
Proof.
  unfold deviceCode. cbv zeta. match goal with |- context [if ?b then _ else _] => destruct b end; [no_effect|].
  set (scopes := unique _). destruct (forallb _ scopes) eqn:Hscope; [|no_effect]. cbn [negb].
  set (products' := unique _). destruct (subset products' _) eqn:Hsub; [|no_effect]. cbn [negb].
  match goal with |- context [if ?b then _ else _] => destruct b end; [no_effect|].
  apply effect_device; [no_effect|]. apply device_started; [|reflexivity]. split; [exact Hsub|].
  intros v Hv. eapply forallb_forall in Hscope; [|apply list_elem_of_In, Hv]. unfold contains in Hscope.
  apply bool_decide_eq_true in Hscope. exact Hscope.
Qed.

Lemma effect_issue e r st k d d' token t : authState_Devices st !! k = Some d -> device_Status d = "approved" ->
  same_request d d' -> device_Owner d' = device_Owner d ->
  let id := "agent/" +:+ random e 0 in
  Effect e r st (st <| authState_Agents ::= <[id := agent_for id token t d]> |> <| authState_Devices ::= <[k := d']> |>).
Proof.
  intros Hd Hs Hreq Ho id. apply effect_device; [|apply (device_kept _ _ _ _ k d); auto].
  pose proof (effect_refl e r st) as [Hdev _ _]. split; [exact Hdev|..].
  - intros i a Hl. change (<[id := agent_for id token t d]> (authState_Agents st) !! i = Some a) in Hl.
    apply lookup_insert_Some in Hl as [[<- <-]|[_ Hl]]; [|apply agent_kept, Hl].
    apply (agent_issued _ _ _ _ k d token t); auto.
  - intros i a Hl Hi. exists a. split; [|auto].
    change (<[id := agent_for id token t d]> (authState_Agents st) !! i = Some a). rewrite lookup_insert_ne; auto.
Qed.
Lemma deviceToken_effect e r grant code st : Effect e r st (deviceToken e grant code st).2.
Proof.
  unfold deviceToken. do 2 (match goal with |- context [if ?b then _ else _] => destruct b end; [no_effect|]).
  cbv zeta. apply (after_prune _ _ _ (clock e 2)). set (st1 := prune _ st).
  destruct (authState_Devices st1 !! hash code) as [d|] eqn:Hd; [|no_effect].
  destruct (negb (Before _ _)); [no_effect|]. case_bool_decide; [no_effect|]. case_bool_decide.
  { destruct (authState_Agents st1 !! _) as [a|]; [|no_effect]. case_bool_decide; no_effect. }
  match goal with |- context [if ?b then _ else _] => destruct b end.
  { apply (effect_poll _ _ _ _ _ d); [no_effect|exact Hd|repeat split|reflexivity..]. }
  destruct (device_Status d != "approved") eqn:Hs.
  { change (device_Status (d <| device_LastPoll := clock e 3 |>)) with (device_Status d). rewrite Hs.
    apply (effect_poll _ _ _ _ _ d); [no_effect|exact Hd|repeat split|reflexivity..]. }
  change (device_Status (d <| device_LastPoll := clock e 3 |>)) with (device_Status d). rewrite Hs.
  to_prop. apply (effect_issue e r st1 (hash code) d); [exact Hd|exact Hs|repeat split|reflexivity].
Qed.

Lemma authenticate_state e r st p raw st1 : authenticate cfg e r st = (p, raw, st1) -> st1 = st \/ st1 = prune (clock e 0) st.
Proof. unfold authenticate. intros Hx. repeat case_match; simplify_eq; auto. Qed.
Lemma agent_of_Some token st p : agent_of token st = Some p ->
  exists k a, authState_Agents st !! k = Some a /\ agent_RevokedAt (agentRecord_Info a) = None
    /\ agentRecord_Verifier a = hash token
    /\ p = mkPrincipal (agent_ID (agentRecord_Info a)) "agent" "member"
             (agent_Products (agentRecord_Info a)) (agent_Permissions (agentRecord_Info a)).
Proof.
  unfold agent_of. destruct (find_first _ _) as [[k a]|] eqn:E; [|discriminate]. intros [= <-].
  apply find_first_Some in E as [Hin Hp]. apply elem_of_map_range in Hin. cbn [snd] in Hp. to_prop. exists k, a. auto.
Qed.
(** Humans come with a session cookie. *)
Lemma authenticate_human e r st p raw st1 : authenticate cfg e r st = (p, raw, st1) ->
  Principal_Kind p = "human" -> Principal_ID p <> "" ->
  exists s, Request_Authorization r = "" /\ Request_Session r = Some raw
    /\ authState_Sessions st1 !! hash raw = Some s /\ (clock e 1 < session_Expires s)%Z /\ p = session_Principal s.
Proof.
  unfold authenticate. intros Hx Hk Hid.
  case_bool_decide as Ha; cbn [negb] in Hx.
  - destruct (Request_Session r) as [cookie|] eqn:Hc; [|simplify_eq; discriminate].
    destruct (128 <? strlen cookie)%Z; [simplify_eq; discriminate|]. cbv zeta in Hx.
    destruct (authState_Sessions _ !! _) as [s|] eqn:Hs; [|simplify_eq; discriminate].
    destruct (Before (clock e 1) (session_Expires s)) eqn:Hb; [|simplify_eq; discriminate].
    injection Hx as <- <- <-. rewrite bool_decide_false by exact Hid. exists s. unfold Before in Hb. apply Z.ltb_lt in Hb. auto.
  - destruct (string_fields _) as [|scheme [|token [|? ?]]]; try (simplify_eq; discriminate).
    destruct (negb (equal_fold _ _)); [simplify_eq; discriminate|].
    match type of Hx with context [if ?b then _ else _] => destruct b end; [simplify_eq; discriminate|].
    match type of Hx with context [if ?b then _ else _] => destruct b end; [simplify_eq; discriminate|].
    cbv zeta in Hx. injection Hx as Hp _ _. destruct (agent_of token _) as [q|] eqn:Hq; [|subst; discriminate].
    apply agent_of_Some in Hq as (k & a & _ & _ & _ & ->). subst p. discriminate.
Qed.

Lemma devicePage_effect e r p limited code st : Effect e r st (devicePage e p limited code st).2.
Proof. unfold devicePage. repeat case_match; no_effect. Qed.
Lemma listAgents_effect e r p st : Effect e r st (listAgents e p st).2.
Proof. unfold listAgents. repeat case_match; no_effect. Qed.
Lemma revokeAgent_effect e r p id st : Effect e r st (revokeAgent e p id st).2.
Proof.
  unfold revokeAgent. case_bool_decide; [cbn [negb]|no_effect]. cbv zeta.
  apply (after_prune _ _ _ (clock e 2)). set (st1 := prune _ st).
  destruct (authState_Agents st1 !! id) as [a|] eqn:Ha; [|no_effect].
  destruct (negb (may_manage p a)); [no_effect|]. case_bool_decide as Hr; [|no_effect].
  pose proof (effect_refl e r st1) as [Hdev _ _]. split; [exact Hdev|..]; cbn [snd].
  - intros i b Hl. rewrite agents_update in Hl.
    apply lookup_insert_Some in Hl as [[<- <-]|[_ Hl]]; [|apply agent_kept, Hl].
    apply (agent_revoked _ _ _ _ a (clock e 3)); [exact Ha|reflexivity].
  - intros i b Hl _. rewrite agents_update. destruct (decide (i = id)) as [->|Hne].
    + eexists. split; [apply lookup_insert_eq|]. discriminate.
    + exists b. split; [|auto]. rewrite <- Hl. apply lookup_insert_ne. auto.
Qed.
Lemma deviceDecide_effect e r p limited deny code st :
  (deny = false -> Principal_Kind p = "human" -> forall k d, authState_Devices st !! k = Some d ->
     device_Status d = "pending" -> (clock e 3 < device_Expires d)%Z -> device_UserHash d = mac "user-code" (normalizeCode code) ->
     within d p = true -> Approves e r st (Principal_ID p) (device_Name d) (device_Products d) (device_Permissions d)) ->
  Effect e r st (deviceDecide e p limited deny code st).2.
Proof.
  intros Happ. unfold deviceDecide. case_bool_decide as Hk; [cbn [negb]|no_effect].
  destruct limited; [no_effect|]. match goal with |- context [if ?b then _ else _] => destruct b end; [no_effect|]. cbv zeta.
  set (st1 := prune _ st). destruct (find_first _ _) as [[k d]|] eqn:Hf; [|no_effect].
  apply find_first_Some in Hf as [Hin Hm]. apply elem_of_map_range, prune_device in Hin. unfold matches_code in Hm. cbn [snd] in Hm.
  apply bool_decide_eq_true in Hm.
  destruct (Before _ _) eqn:Hb; [cbn [negb]|no_effect]. unfold Before in Hb. apply Z.ltb_lt in Hb.
  match goal with |- context [if ?b then _ else _] => destruct b eqn:Hp end.
  { apply (effect_poll _ _ _ _ _ d); [no_effect|exact Hin|repeat split|reflexivity..]. }
  destruct (within _ p) eqn:Hw; cbn [negb].
  - change (within d p = true) in Hw. apply effect_device; [no_effect|]. destruct deny.
    + apply (device_denied _ _ _ _ k d); [exact Hin|repeat split|reflexivity].
    + apply (device_approved _ _ _ _ k d); [exact Hin|repeat split|].
      apply orb_false_iff in Hp as [Hp _]. apply negb_false_iff, bool_decide_eq_true in Hp. change (device_Status d = "pending") in Hp.
      apply (Happ eq_refl Hk k d); assumption.
  - apply (effect_poll _ _ _ _ _ d); [no_effect|exact Hin|repeat split|reflexivity..].
Qed.

Lemma serve_effect e r st : Effect e r st (serve cfg e r st).2.
Proof.
  assert (Hopen : forall x, Effect e r st x.2 ->
    Effect e r st (if Request_Limited r then (Failure 429 "slow_down", st) else x).2).
  { intros x Hx. destruct (Request_Limited r); [apply effect_refl|exact Hx]. }
  assert (Hauth : forall k, (forall p raw st1, authenticate cfg e r st = (p, raw, st1) -> Principal_ID p <> "" ->
      (Principal_Kind p == "human") && negb (is_read (Request_Call r)) && negb (csrfOK cfg r raw) = false ->
      Effect e r st1 (serve_as e p raw r st1).2) ->
    Effect e r st (let '(p, raw, st) := authenticate cfg e r st in
      if Principal_ID p == "" then (k, st)
      else if (Principal_Kind p == "human") && negb (is_read (Request_Call r)) && negb (csrfOK cfg r raw)
      then (Failure 403 "csrf_failed", st) else serve_as e p raw r st).2).
  { intros k Hs. destruct (authenticate cfg e r st) as [[p raw] st1] eqn:Ha.
    assert (Hx : Effect e r st1 (if Principal_ID p == "" then (k, st1)
      else if (Principal_Kind p == "human") && negb (is_read (Request_Call r)) && negb (csrfOK cfg r raw)
      then (Failure 403 "csrf_failed", st1) else serve_as e p raw r st1).2).
    { case_bool_decide as Hid; [apply effect_refl|].
      match goal with |- context [if ?b then _ else _] => destruct b eqn:Hc end; [apply effect_refl|].
      apply (Hs _ _ _ eq_refl Hid Hc). }
    destruct (authenticate_state _ _ _ _ _ _ Ha) as [->| ->]; [exact Hx|exact (after_prune _ _ _ _ _ Hx)]. }
  unfold serve. destruct (Request_Call r) as [returnTo|state code|name scope products|grant code|code|deny code| |id| |] eqn:Hcall;
    try (apply Hopen; first [apply login_effect|apply callback_effect|apply deviceCode_effect|apply deviceToken_effect]);
    apply Hauth; intros p raw st1 Ha Hid Hc; unfold serve_as; rewrite Hcall;
    try first [apply devicePage_effect|apply listAgents_effect|apply revokeAgent_effect|apply logout_effect|apply effect_refl].
  apply deviceDecide_effect. intros -> Hk k d Hd Hst Hexp Huser Hw.
  destruct (authenticate_human _ _ _ _ _ _ Ha Hk Hid) as (s & E1 & E2 & E3 & E4 & ->).
  rewrite Hk in Hc. cbn in Hc. apply negb_false_iff in Hc. apply andb_true_iff in Hw as [Hw1 Hw2].
  exists raw, s, code, k, d. repeat (split; [first [assumption|reflexivity]|]). exact Hw2.
Qed.

(** ** Histories *)
Definition GrantedIn (h : list (Env * Request * authState)) (owner name : string) (products permissions : list string) : Prop :=
  Grantable products permissions /\ Approved h owner name products permissions.
Record Sound (h : list (Env * Request * authState)) st : Prop := {
  sound_devices : forall k d, authState_Devices st !! k = Some d ->
    Grantable (device_Products d) (device_Permissions d)
    /\ (device_Status d = "approved" \/ device_Status d = "issued" ->
        Approved h (device_Owner d) (device_Name d) (device_Products d) (device_Permissions d));
  sound_agents : forall id a, authState_Agents st !! id = Some a -> agent_ID (agentRecord_Info a) = id
    /\ GrantedIn h (agentRecord_Owner a) (agent_Name (agentRecord_Info a)) (agent_Products (agentRecord_Info a))
         (agent_Permissions (agentRecord_Info a))
}.
Lemma approved_later h x owner name products permissions :
  Approved h owner name products permissions -> Approved (h ++ [x]) owner name products permissions.
Proof. intros (e & r & st & Hin & Ha). exists e, r, st. split; [apply elem_of_app; auto|exact Ha]. Qed.
Lemma sound_step h e r st : Sound h st -> Sound (h ++ [(e, r, st)]) (serve cfg e r st).2.
Proof.
  intros [Hd Ha]. destruct (serve_effect e r st) as [Ed Ea _]. split.
  - intros k d Hl. destruct (Ed k d Hl) as [k0 d0 Hin (E1 & E2 & E3) Ho Hs|Hg Hs|k0 d0 Hin (E1 & E2 & E3) Hs|k0 d0 Hin (E1 & E2 & E3) Happ].
    + destruct (Hd _ _ Hin) as [Hg Happ]. rewrite E1, E2, E3, Ho. split; [exact Hg|]. intros Hst. apply approved_later, Happ.
      destruct Hs as [<-|Hs]; [exact Hst|left; exact Hs].
    + split; [exact Hg|]. rewrite Hs. intros [?|?]; discriminate.
    + rewrite E2, E3, Hs. split; [apply (Hd _ _ Hin)|]. intros [?|?]; discriminate.
    + split; [rewrite E2, E3; apply (Hd _ _ Hin)|]. intros _. exists e, r, st. split; [|exact Happ].
      apply elem_of_app. right. apply list_elem_of_singleton. reflexivity.
  - intros id a Hl. destruct (Ea id a Hl) as [Hin|a0 t Hin ->|k d token t Hin Hs -> ->].
    + destruct (Ha _ _ Hin) as (Hid & Hg & Happ). split; [exact Hid|]. split; [exact Hg|]. apply approved_later, Happ.
    + destruct (Ha _ _ Hin) as (Hid & Hg & Happ). split; [exact Hid|]. split; [exact Hg|]. apply approved_later, Happ.
    + destruct (Hd _ _ Hin) as [Hg Happ]. split; [reflexivity|]. split; [exact Hg|]. apply approved_later, Happ. auto.
Qed.
Lemma history_sound h st : History cfg h st -> Sound h st.
Proof.
  induction 1 as [|h e r st _ IH]; [|apply sound_step, IH].
  split; intros k x Hl; [change ((∅ : gmap string device) !! k = Some x) in Hl|change ((∅ : gmap string agentRecord) !! k = Some x) in Hl];
    rewrite lookup_empty in Hl; discriminate.
Qed.

(** C26 no agent without its human: in every history each agent credential
    goes back to one request in which a signed-in human, past the CSRF check,
    entered the code of a pending and unexpired device, and the agent holds
    exactly what that device asked for: products and permissions the human
    held, of those the installation grants, and never [admin]. *)
Theorem agents_were_approved h st id a : History cfg h st -> authState_Agents st !! id = Some a ->
  agent_ID (agentRecord_Info a) = id
  /\ GrantedIn h (agentRecord_Owner a) (agent_Name (agentRecord_Info a)) (agent_Products (agentRecord_Info a))
       (agent_Permissions (agentRecord_Info a)).
Proof. intros Hh. apply (sound_agents _ _ (history_sound _ _ Hh)). Qed.

(** ** Revocation *)
Definition Revoked id st : Prop :=
  (forall k a, authState_Agents st !! k = Some a -> agent_ID (agentRecord_Info a) = k)
  /\ exists a, authState_Agents st !! id = Some a /\ agent_RevokedAt (agentRecord_Info a) <> None.
(** One more request, whose random draw is not the agent's. *)
Definition Later id st st' : Prop :=
  exists e r, "agent/" +:+ random e 0 <> id /\ st' = (serve cfg e r st).2.
Lemma agent_keys e st st' : (forall id a, authState_Agents st' !! id = Some a -> AgentFrom e st id a) ->
  (forall k a, authState_Agents st !! k = Some a -> agent_ID (agentRecord_Info a) = k) ->
  forall k a, authState_Agents st' !! k = Some a -> agent_ID (agentRecord_Info a) = k.
Proof.
  intros Ha Hk k a Hl. destruct (Ha _ _ Hl) as [Hin|a0 t Hin ->|? ? ? ? _ _ -> ->];
    [apply (Hk _ _ Hin)|apply (Hk _ _ Hin)|reflexivity].
Qed.
Lemma revoked_later id st st' : Later id st st' -> Revoked id st -> Revoked id st'.
Proof.
  intros (e & r & Hne & ->) [Hkeys (a & Ha & Hr)]. destruct (serve_effect e r st) as [_ Ea Ek].
  split; [exact (agent_keys e st _ Ea Hkeys)|]. destruct (Ek id a Ha (not_eq_sym Hne)) as (a' & Ha' & Hr'). exists a'. auto.
Qed.
Lemma revoke_revokes e r st id st' : serve cfg e r st = (Done, st') -> Request_Call r = RevokeAgent id ->
  exists a, authState_Agents st' !! id = Some a /\ agent_RevokedAt (agentRecord_Info a) <> None.
Proof.
  unfold serve, serve_as. intros Hx Hc. rewrite Hc in Hx. destruct (authenticate _ _ _ _) as [[p raw] st1].
  case_match; [discriminate|]. case_match; [discriminate|]. unfold revokeAgent in Hx.
  case_match; [discriminate|]. cbv zeta in Hx. set (st2 := prune _ st1) in Hx.
  destruct (authState_Agents st2 !! id) as [a|] eqn:Ha; [|discriminate].
  case_match; [discriminate|]. case_bool_decide as Hr; injection Hx as <-.
  - rewrite agents_update. eexists. split; [apply lookup_insert_eq|discriminate].
  - exists a. auto.
Qed.

(** C27 revocation is final: once an agent is revoked, no request of any later
    history authenticates as it with any token, unless the random source draws
    its identifier again. *)
Theorem revoked_agents_stay_out h st e r id st1 st2 e' r' p raw st3 : History cfg h st ->
  serve cfg e r st = (Done, st1) -> Request_Call r = RevokeAgent id -> rtc (Later id) st1 st2 ->
  authenticate cfg e' r' st2 = (p, raw, st3) -> Request_Authorization r' <> "" ->
  Principal_Kind p = "agent" -> Principal_ID p <> id.
Proof.
  intros Hh Hs Hc Hl Ha Hauth Hk Hid.
  assert (Hr : Revoked id st2).
  { apply (rtc_invariant (Later id) (Revoked id)) with st1; [intros; eapply revoked_later; eassumption|exact Hl|].
    split; [|apply (revoke_revokes _ _ _ _ _ Hs Hc)]. intros k a Hin.
    apply (sound_agents _ _ (history_sound _ _ (history_serve cfg h e r st Hh)) k a). rewrite Hs. exact Hin. }
  destruct Hr as [Hkeys (a & Hin & Hr)]. unfold authenticate in Ha. rewrite bool_decide_false in Ha by exact Hauth.
  cbn [negb] in Ha. destruct (string_fields _) as [|scheme [|token [|? ?]]]; try (simplify_eq; discriminate).
  repeat (match type of Ha with context [if ?b then _ else _] => destruct b; [simplify_eq; discriminate|] end).
  injection Ha as Hp _ _. destruct (agent_of token _) as [q|] eqn:Hq; [|subst; discriminate].
  apply agent_of_Some in Hq as (k & b & Hb & Hnone & _ & ->). subst p. cbn in Hid.
  rewrite (Hkeys k b Hb) in Hid. subst k. change (authState_Agents st2 !! id = Some b) in Hb. congruence.
Qed.
End properties.
