(* ===== verification/Collections.v ===== *)
(** * The collections of the state

    Code that treats the state generically: the check that an identifier is
    unused (service.go), the retained records after a product is deleted
    (product_delete.go) and the identity checks of the store work on every
    collection.  The source does so by marshalling the state to JSON; here the
    collections are listed one by one. *)
From S2P Require Import Prelude GoText GoJson Delivery Domain.
Open Scope string_scope.
Open Scope list_scope.

(** The identifiers of every collection, under its JSON name. *)
Definition collections (st : State) : list (string * list string) := [
  ("registry_inventories", map ID (State_RegistryInventories st));
  ("artifact_pins", map ID (State_ArtifactPins st));
  ("native_quarantines", map ID (State_NativeQuarantines st));
  ("worker_jobs", map ID (State_WorkerJobs st));
  ("worker_attempts", map ID (State_WorkerAttempts st));
  ("composition_conflicts", map ID (State_CompositionConflicts st));
  ("project_knowledge", map ID (State_ProjectKnowledge st));
  ("local_checkouts", map ID (State_LocalCheckouts st));
  ("workspace_documents", map ID (State_WorkspaceDocuments st));
  ("publication_targets", map ID (State_PublicationTargets st));
  ("package_artifacts", map ID (State_PackageArtifacts st));
  ("scenario_versions", map ID (State_ScenarioVersions st));
  ("scenario_runs", map ID (State_ScenarioRuns st));
  ("runtime_snapshots", map ID (State_RuntimeSnapshots st));
  ("runtime_observations", map ID (State_RuntimeObservations st));
  ("review_syncs", map ID (State_ReviewSyncs st));
  ("delivery_artifacts", map ID (State_DeliveryArtifacts st));
  ("delivery_build_runs", map ID (State_DeliveryBuildRuns st));
  ("external_systems", map ID (State_ExternalSystems st));
  ("system_relationships", map ID (State_SystemRelationships st));
  ("external_scopes", map ID (State_ExternalScopes st));
  ("registered_repositories", map ID (State_RegisteredRepositories st));
  ("connection_grants", map ID (State_ConnectionGrants st));
  ("github_connections", map ID (State_GitHubConnections st));
  ("repository_bindings", map ID (State_RepositoryBindings st));
  ("component_builds", map ID (State_ComponentBuilds st));
  ("environment_bindings", map ID (State_EnvironmentBindings st));
  ("operations", map ID (State_Operations st));
  ("operation_steps", map ID (State_OperationSteps st));
  ("git_observations", map ID (State_GitObservations st));
  ("applications", map ID (State_Applications st));
  ("integration_revisions", map ID (State_IntegrationRevisions st));
  ("compositions", map ID (State_Compositions st));
  ("products", map ID (State_Products st));
  ("features", map ID (State_Features st));
  ("integrations", map ID (State_Integrations st));
  ("gates", map ID (State_Gates st));
  ("checks", map ID (State_Checks st));
  ("results", map ID (State_Results st));
  ("findings", map ID (State_Findings st));
  ("memories", map ID (State_Memories st));
  ("environments", map ID (State_Environments st));
  ("repositories", map ID (State_Repositories st));
  ("releases", map ID (State_Releases st));
  ("events", map Event_ID (State_Events st))
].
Definition state_ids (st : State) : list string := List.concat (map snd (collections st)).

(** The records a product deletion keeps: those of other products; audit
    events always survive. *)
Definition kept {A} `{HasMeta A} (product : string) (v : A) : bool := ProductID v != product.
Definition without_product (product : string) (st : State) : State :=
  mkState
    (List.filter (kept product) (State_RegistryInventories st))
    (List.filter (kept product) (State_ArtifactPins st))
    (List.filter (kept product) (State_NativeQuarantines st))
    (List.filter (kept product) (State_WorkerJobs st))
    (List.filter (kept product) (State_WorkerAttempts st))
    (List.filter (kept product) (State_CompositionConflicts st))
    (List.filter (kept product) (State_ProjectKnowledge st))
    (List.filter (kept product) (State_LocalCheckouts st))
    (List.filter (kept product) (State_WorkspaceDocuments st))
    (List.filter (kept product) (State_PublicationTargets st))
    (List.filter (kept product) (State_PackageArtifacts st))
    (List.filter (kept product) (State_ScenarioVersions st))
    (List.filter (kept product) (State_ScenarioRuns st))
    (List.filter (kept product) (State_RuntimeSnapshots st))
    (List.filter (kept product) (State_RuntimeObservations st))
    (List.filter (kept product) (State_ReviewSyncs st))
    (List.filter (kept product) (State_DeliveryArtifacts st))
    (List.filter (kept product) (State_DeliveryBuildRuns st))
    (List.filter (kept product) (State_ExternalSystems st))
    (List.filter (kept product) (State_SystemRelationships st))
    (List.filter (kept product) (State_ExternalScopes st))
    (List.filter (kept product) (State_RegisteredRepositories st))
    (List.filter (kept product) (State_ConnectionGrants st))
    (List.filter (kept product) (State_GitHubConnections st))
    (List.filter (kept product) (State_RepositoryBindings st))
    (List.filter (kept product) (State_ComponentBuilds st))
    (List.filter (kept product) (State_EnvironmentBindings st))
    (List.filter (kept product) (State_Operations st))
    (List.filter (kept product) (State_OperationSteps st))
    (List.filter (kept product) (State_GitObservations st))
    (List.filter (kept product) (State_Applications st))
    (List.filter (kept product) (State_IntegrationRevisions st))
    (List.filter (kept product) (State_Compositions st))
    (List.filter (fun v => kept product v && (ID v != product)) (State_Products st))
    (List.filter (kept product) (State_Features st))
    (List.filter (kept product) (State_Integrations st))
    (List.filter (kept product) (State_Gates st))
    (List.filter (kept product) (State_Checks st))
    (List.filter (kept product) (State_Results st))
    (List.filter (kept product) (State_Findings st))
    (List.filter (kept product) (State_Memories st))
    (List.filter (kept product) (State_Environments st))
    (List.filter (kept product) (State_Repositories st))
    (List.filter (kept product) (State_Releases st))
    (State_Events st).

(** The identifier and the owning product of every record. *)
Definition owner {A} `{HasMeta A} (v : A) : string * string := (ID v, ProductID v).
Definition owners (st : State) : list (string * list (string * string)) := [
  ("registry_inventories", map owner (State_RegistryInventories st));
  ("artifact_pins", map owner (State_ArtifactPins st));
  ("native_quarantines", map owner (State_NativeQuarantines st));
  ("worker_jobs", map owner (State_WorkerJobs st));
  ("worker_attempts", map owner (State_WorkerAttempts st));
  ("composition_conflicts", map owner (State_CompositionConflicts st));
  ("project_knowledge", map owner (State_ProjectKnowledge st));
  ("local_checkouts", map owner (State_LocalCheckouts st));
  ("workspace_documents", map owner (State_WorkspaceDocuments st));
  ("publication_targets", map owner (State_PublicationTargets st));
  ("package_artifacts", map owner (State_PackageArtifacts st));
  ("scenario_versions", map owner (State_ScenarioVersions st));
  ("scenario_runs", map owner (State_ScenarioRuns st));
  ("runtime_snapshots", map owner (State_RuntimeSnapshots st));
  ("runtime_observations", map owner (State_RuntimeObservations st));
  ("review_syncs", map owner (State_ReviewSyncs st));
  ("delivery_artifacts", map owner (State_DeliveryArtifacts st));
  ("delivery_build_runs", map owner (State_DeliveryBuildRuns st));
  ("external_systems", map owner (State_ExternalSystems st));
  ("system_relationships", map owner (State_SystemRelationships st));
  ("external_scopes", map owner (State_ExternalScopes st));
  ("registered_repositories", map owner (State_RegisteredRepositories st));
  ("connection_grants", map owner (State_ConnectionGrants st));
  ("github_connections", map owner (State_GitHubConnections st));
  ("repository_bindings", map owner (State_RepositoryBindings st));
  ("component_builds", map owner (State_ComponentBuilds st));
  ("environment_bindings", map owner (State_EnvironmentBindings st));
  ("operations", map owner (State_Operations st));
  ("operation_steps", map owner (State_OperationSteps st));
  ("git_observations", map owner (State_GitObservations st));
  ("applications", map owner (State_Applications st));
  ("integration_revisions", map owner (State_IntegrationRevisions st));
  ("compositions", map owner (State_Compositions st));
  ("products", map owner (State_Products st));
  ("features", map owner (State_Features st));
  ("integrations", map owner (State_Integrations st));
  ("gates", map owner (State_Gates st));
  ("checks", map owner (State_Checks st));
  ("results", map owner (State_Results st));
  ("findings", map owner (State_Findings st));
  ("memories", map owner (State_Memories st));
  ("environments", map owner (State_Environments st));
  ("repositories", map owner (State_Repositories st));
  ("releases", map owner (State_Releases st));
  ("events", map (fun e => (Event_ID e, Event_ProductID e)) (State_Events st))
].
