(* ===== verification/Authorization.v ===== *)
(** * Authorization of commands and reads

    [internal/application/authorization.go] and command_authorization.go: what
    an authenticated principal may do, by the ownership the state records.
    A context without a principal ([None]) is the trusted local application.

    The source reads the state as JSON rows; [stateRows] gives the string
    values of the keys it looks at.  A decoded JSON object is ranged over in an
    unspecified order: here in the order of its list, and the theorems hold
    for every list. *)
From S2P Require Import Prelude GoText GoJson Delivery Domain Handlers Collections DeviceAuth.
Open Scope string_scope.
Open Scope list_scope.

Definition ErrForbidden {A} : res A := Err (ErrPlain "forbidden" []).

(** ** Principals *)
Definition attributedActor (ctx : option Principal) (actor : string) : string :=
  match ctx with Some p => Principal_ID p | None => actor end.
Definition instanceAdmin (p : Principal) : bool :=
  ((Principal_Kind p == "human") || ((Principal_Kind p == "service") && (Principal_ID p == "service/bootstrap")))
  && (Principal_Role p == "admin") && contains (Principal_Permissions p) "admin" && contains (Principal_Products p) "*".
Definition allowedProduct (p : Principal) (product : string) : bool :=
  (product != "") && (contains (Principal_Products p) "*" || contains (Principal_Products p) product).
Definition authorize (ctx : option Principal) (permission product : string) : res unit :=
  match ctx with
  | None => Ok ()
  | Some p =>
    if instanceAdmin p then Ok ()
    else reject_if ((permission == "admin") || negb (contains (Principal_Permissions p) permission)
                    || ((product != "") && negb (allowedProduct p product))) ErrForbidden
  end.

(** ** Rows *)
Definition row := list (string * string).
Definition str_key (r : row) (key : string) : string :=
  match find_first (fun kv => kv.1 == key) r with Some (_, v) => v | None => "" end.
Definition row_of {A} `{HasMeta A} (v : A) (others : row) : row := ("id", ID v) :: ("product_id", ProductID v) :: others.
Definition stateRows (st : State) : list (string * list row) := [
  ("registry_inventories", map (fun v => row_of v []) (State_RegistryInventories st));
  ("artifact_pins", map (fun v => row_of v []) (State_ArtifactPins st));
  ("native_quarantines", map (fun v => row_of v []) (State_NativeQuarantines st));
  ("worker_jobs", map (fun v => row_of v [("operation_id", WorkerJob_OperationID v)]) (State_WorkerJobs st));
  ("worker_attempts", map (fun v => row_of v []) (State_WorkerAttempts st));
  ("composition_conflicts", map (fun v => row_of v [("operation_id", CompositionConflict_OperationID v); ("composition_id", CompositionConflict_CompositionID v)]) (State_CompositionConflicts st));
  ("project_knowledge", map (fun v => row_of v []) (State_ProjectKnowledge st));
  ("local_checkouts", map (fun v => row_of v []) (State_LocalCheckouts st));
  ("workspace_documents", map (fun v => row_of v []) (State_WorkspaceDocuments st));
  ("publication_targets", map (fun v => row_of v []) (State_PublicationTargets st));
  ("package_artifacts", map (fun v => row_of v []) (State_PackageArtifacts st));
  ("scenario_versions", map (fun v => row_of v []) (State_ScenarioVersions st));
  ("scenario_runs", map (fun v => row_of v [("composition_id", ScenarioRun_CompositionID v); ("candidate_operation_id", ScenarioRun_CandidateOperationID v); ("environment_id", ScenarioRun_EnvironmentID v)]) (State_ScenarioRuns st));
  ("runtime_snapshots", map (fun v => row_of v [("operation_id", RuntimeSnapshot_OperationID v); ("environment_id", RuntimeSnapshot_EnvironmentID v)]) (State_RuntimeSnapshots st));
  ("runtime_observations", map (fun v => row_of v [("operation_id", RuntimeObservation_OperationID v); ("environment_id", RuntimeObservation_EnvironmentID v)]) (State_RuntimeObservations st));
  ("review_syncs", map (fun v => row_of v []) (State_ReviewSyncs st));
  ("delivery_artifacts", map (fun v => row_of v [("operation_id", DeliveryArtifact_OperationID v)]) (State_DeliveryArtifacts st));
  ("delivery_build_runs", map (fun v => row_of v [("operation_id", DeliveryBuildRun_OperationID v)]) (State_DeliveryBuildRuns st));
  ("external_systems", map (fun v => row_of v []) (State_ExternalSystems st));
  ("system_relationships", map (fun v => row_of v []) (State_SystemRelationships st));
  ("external_scopes", map (fun v => row_of v []) (State_ExternalScopes st));
  ("registered_repositories", map (fun v => row_of v []) (State_RegisteredRepositories st));
  ("connection_grants", map (fun v => row_of v []) (State_ConnectionGrants st));
  ("github_connections", map (fun v => row_of v []) (State_GitHubConnections st));
  ("repository_bindings", map (fun v => row_of v []) (State_RepositoryBindings st));
  ("component_builds", map (fun v => row_of v []) (State_ComponentBuilds st));
  ("environment_bindings", map (fun v => row_of v [("environment_id", EnvironmentBinding_EnvironmentID v); ("purpose", EnvironmentBinding_Purpose v)]) (State_EnvironmentBindings st));
  ("operations", map (fun v => row_of v [("parent_id", ExternalOperation_ParentID v); ("environment_id", ExternalOperation_EnvironmentID v)]) (State_Operations st));
  ("operation_steps", map (fun v => row_of v [("operation_id", OperationStep_OperationID v)]) (State_OperationSteps st));
  ("git_observations", map (fun v => row_of v []) (State_GitObservations st));
  ("applications", map (fun v => row_of v []) (State_Applications st));
  ("integration_revisions", map (fun v => row_of v []) (State_IntegrationRevisions st));
  ("compositions", map (fun v => row_of v [("environment_id", Composition_EnvironmentID v)]) (State_Compositions st));
  ("products", map (fun v => row_of v []) (State_Products st));
  ("features", map (fun v => row_of v []) (State_Features st));
  ("integrations", map (fun v => row_of v []) (State_Integrations st));
  ("gates", map (fun v => row_of v [("environment_id", Gate_EnvironmentID v)]) (State_Gates st));
  ("checks", map (fun v => row_of v []) (State_Checks st));
  ("results", map (fun v => row_of v [("environment_id", CheckResult_EnvironmentID v)]) (State_Results st));
  ("findings", map (fun v => row_of v []) (State_Findings st));
  ("memories", map (fun v => row_of v []) (State_Memories st));
  ("environments", map (fun v => row_of v []) (State_Environments st));
  ("repositories", map (fun v => row_of v []) (State_Repositories st));
  ("releases", map (fun v => row_of v [("candidate_operation_id", Release_CandidateOperationID v); ("environment_id", Release_EnvironmentID v)]) (State_Releases st));
  ("events", map (fun e => [("id", Event_ID e); ("product_id", Event_ProductID e)]) (State_Events st))
].
Definition rowProduct (kind : string) (r : row) : string := if kind == "products" then str_key r "id" else str_key r "product_id".

(** [scopedState]: what the principal of a read sees. *)
Definition scoped (p : Principal) (st : State) : State :=
  mkState
    (List.filter (fun v => allowedProduct p (ProductID v)) (State_RegistryInventories st))
    (List.filter (fun v => allowedProduct p (ProductID v)) (State_ArtifactPins st))
    (List.filter (fun v => allowedProduct p (ProductID v)) (State_NativeQuarantines st))
    (List.filter (fun v => allowedProduct p (ProductID v)) (State_WorkerJobs st))
    (List.filter (fun v => allowedProduct p (ProductID v)) (State_WorkerAttempts st))
    (List.filter (fun v => allowedProduct p (ProductID v)) (State_CompositionConflicts st))
    (List.filter (fun v => allowedProduct p (ProductID v)) (State_ProjectKnowledge st))
    (List.filter (fun v => allowedProduct p (ProductID v)) (State_LocalCheckouts st))
    (List.filter (fun v => allowedProduct p (ProductID v)) (State_WorkspaceDocuments st))
    (List.filter (fun v => allowedProduct p (ProductID v)) (State_PublicationTargets st))
    (List.filter (fun v => allowedProduct p (ProductID v)) (State_PackageArtifacts st))
    (List.filter (fun v => allowedProduct p (ProductID v)) (State_ScenarioVersions st))
    (List.filter (fun v => allowedProduct p (ProductID v)) (State_ScenarioRuns st))
    (List.filter (fun v => allowedProduct p (ProductID v)) (State_RuntimeSnapshots st))
    (List.filter (fun v => allowedProduct p (ProductID v)) (State_RuntimeObservations st))
    (List.filter (fun v => allowedProduct p (ProductID v)) (State_ReviewSyncs st))
    (List.filter (fun v => allowedProduct p (ProductID v)) (State_DeliveryArtifacts st))
    (List.filter (fun v => allowedProduct p (ProductID v)) (State_DeliveryBuildRuns st))
    (List.filter (fun v => allowedProduct p (ProductID v)) (State_ExternalSystems st))
    (List.filter (fun v => allowedProduct p (ProductID v)) (State_SystemRelationships st))
    (List.filter (fun v => allowedProduct p (ProductID v)) (State_ExternalScopes st))
    (List.filter (fun v => allowedProduct p (ProductID v)) (State_RegisteredRepositories st))
    (List.filter (fun v => allowedProduct p (ProductID v)) (State_ConnectionGrants st))
    (List.filter (fun v => allowedProduct p (ProductID v)) (State_GitHubConnections st))
    (List.filter (fun v => allowedProduct p (ProductID v)) (State_RepositoryBindings st))
    (List.filter (fun v => allowedProduct p (ProductID v)) (State_ComponentBuilds st))
    (List.filter (fun v => allowedProduct p (ProductID v)) (State_EnvironmentBindings st))
    (List.filter (fun v => allowedProduct p (ProductID v)) (State_Operations st))
    (List.filter (fun v => allowedProduct p (ProductID v)) (State_OperationSteps st))
    (List.filter (fun v => allowedProduct p (ProductID v)) (State_GitObservations st))
    (List.filter (fun v => allowedProduct p (ProductID v)) (State_Applications st))
    (List.filter (fun v => allowedProduct p (ProductID v)) (State_IntegrationRevisions st))
    (List.filter (fun v => allowedProduct p (ProductID v)) (State_Compositions st))
    (List.filter (fun v => allowedProduct p (ID v)) (State_Products st))
    (List.filter (fun v => allowedProduct p (ProductID v)) (State_Features st))
    (List.filter (fun v => allowedProduct p (ProductID v)) (State_Integrations st))
    (List.filter (fun v => allowedProduct p (ProductID v)) (State_Gates st))
    (List.filter (fun v => allowedProduct p (ProductID v)) (State_Checks st))
    (List.filter (fun v => allowedProduct p (ProductID v)) (State_Results st))
    (List.filter (fun v => allowedProduct p (ProductID v)) (State_Findings st))
    (List.filter (fun v => allowedProduct p (ProductID v)) (State_Memories st))
    (List.filter (fun v => allowedProduct p (ProductID v)) (State_Environments st))
    (List.filter (fun v => allowedProduct p (ProductID v)) (State_Repositories st))
    (List.filter (fun v => allowedProduct p (ProductID v)) (State_Releases st))
    (List.filter (fun v => allowedProduct p (Event_ProductID v)) (State_Events st)).
Definition scopedState (ctx : option Principal) (st : State) : res State :=
  _ ← authorize ctx "read" "";
  Ok match ctx with
     | None => st
     | Some p => if instanceAdmin p then st else scoped p st
     end.

(** ** The command's references *)
(** This allowlist deliberately fails closed for newly introduced commands. *)
Definition memberWriteActions : list string := [
  "queue_intelligence_task"; "cancel_intelligence_task";
  "create_integration_branch"; "protect_integration_revision"; "claim_composition_conflict"; "record_conflict_resolution";
  "verify_conflict_resolution"; "record_package_artifact"; "create_hotfix"; "create_test_scenario"; "revise_test_scenario";
  "record_scenario_run"; "refresh_integration_git"; "refresh_repository_git"; "refresh_environment_runtime";
  "record_runtime_observation"; "record_integration_revision"; "plan_composition"; "select_composition"; "create_feature";
  "update_feature"; "create_integration"; "update_integration"; "start_integration"; "transition_integration";
  "complete_integration"; "record_progress"; "record_decision"; "record_discovery"; "add_blocker"; "resolve_blocker";
  "handoff"; "create_gate"; "add_check"; "record_check_result"; "record_finding"; "resolve_finding"].
Definition memberDeployActions : list string :=
  ["deploy_integration"; "deploy_existing_artifact"; "assemble_environment"; "reconcile_composition"].
Definition action_permission (action : string) : string :=
  if contains memberDeployActions action then "deploy" else if contains memberWriteActions action then "write" else "admin".

(** The tables built from the rows: the entity and owner of an identifier (a
    later row of the same identifier overwrites an earlier one), and the
    production environments.  [kinds] is the order in which the collections
    are ranged over. *)
Definition kinds := list (string * list row).
Definition entities (ks : kinds) : gmap string (string * row) :=
  foldl (fun m kr => if str_key kr.2 "id" == "" then m else <[str_key kr.2 "id" := kr]> m) ∅
    (concat (map (fun kg => map (pair kg.1) kg.2) ks)).
Definition owner_of (ks : kinds) (ref : string) : option string :=
  option_map (fun kr => rowProduct kr.1 kr.2) (entities ks !! ref).
Definition production_row `{Runtime} (ref kind : string) (r : row) : bool :=
  (str_key r "id" != "")
  && (((kind == "environments") && (str_key r "id" == ref)
       && (equal_fold (str_key r "kind") "PROD" || equal_fold (str_key r "kind") "production"))
      || ((kind == "environment_bindings") && (str_key r "purpose" == "PROD") && (str_key r "environment_id" == ref))).
Definition production `{Runtime} (ks : kinds) (ref : string) : bool :=
  existsb (fun kg => existsb (production_row ref kg.1) kg.2) ks.
Definition link_keys : list string := ["environment_id"; "composition_id"; "candidate_operation_id"; "operation_id"; "parent_id"].
Definition link_targets (ks : kinds) (ref : string) : list string :=
  match entities ks !! ref with
  | Some (_, r) => List.filter (fun target => target != "") (map (str_key r) link_keys)
  | None => []
  end.
Definition foreign `{Runtime} (p : Principal) (ks : kinds) (ref : string) : bool :=
  match owner_of ks ref with
  | Some owner => negb (allowedProduct p owner) || production ks ref
  | None => false
  end.

(** [inspect], with its [visited] map threaded through.  [Some (true, _)] is
    the error; [None] means the fuel ran out. *)
Definition Inspection := option (bool * gset string).
Fixpoint inspect_all {A} (inspect : A -> gset string -> Inspection) (l : list A) (visited : gset string) : Inspection :=
  match l with
  | [] => Some (false, visited)
  | x :: l =>
    match inspect x visited with
    | Some (false, visited) => inspect_all inspect l visited
    | r => r
    end
  end.
Fixpoint inspect_ref `{Runtime} (p : Principal) (ks : kinds) (fuel : nat) (ref : string) (visited : gset string) : Inspection :=
  match fuel with
  | O => None
  | S fuel =>
    match owner_of ks ref with
    | None => Some (false, visited)
    | Some owner =>
      if negb (allowedProduct p owner) || production ks ref then Some (true, visited)
      else if bool_decide (ref ∈ visited) then Some (false, visited)
      else inspect_all (inspect_ref p ks fuel) (link_targets ks ref) ({[ref]} ∪ visited)
    end
  end.
(** One more than the number of entities is enough fuel. *)
Definition inspect_fuel (ks : kinds) : nat := S (size (entities ks)).
Definition flagged_entry (key : string) (item : json) : bool :=
  ((key == "approve_main_update") && json_eqb item (JBool true)) || ((key == "status") && json_eqb item (JStr "released")).
Fixpoint inspect `{Runtime} (p : Principal) (ks : kinds) (v : json) (visited : gset string) : Inspection :=
  match v with
  | JStr s => inspect_ref p ks (inspect_fuel ks) s visited
  | JArr l => inspect_all (inspect p ks) l visited
  | JObj kvs =>
    inspect_all (fun kv visited =>
      if kv.1 == "actor" then Some (false, visited)
      else if flagged_entry kv.1 kv.2 then Some (true, visited)
      else inspect p ks kv.2 visited) kvs visited
  | _ => Some (false, visited)
  end.

(** The command as [encoding/json] writes it. *)
Definition command_json `{MapOrder} (c : Command) : json :=
  JObj ([("action", JStr (Command_Action c)); ("actor", JStr (Command_Actor c))]
    ++ map (fun kv => (kv.1, JStr kv.2)) (List.filter (fun kv => kv.2 != "")
         [("id", Command_ID c); ("product_id", Command_ProductID c); ("feature_id", Command_FeatureID c);
          ("integration_id", Command_IntegrationID c); ("gate_id", Command_GateID c); ("check_id", Command_CheckID c);
          ("result_id", Command_ResultID c)])
    ++ [("data", JObj (map_range (Command_Data c)))]).
Definition command_refs (c : Command) : list string :=
  [Command_ID c; Command_FeatureID c; Command_IntegrationID c; Command_GateID c; Command_CheckID c; Command_ResultID c].
Definition matched (p : Principal) (ks : kinds) (c : Command) : bool :=
  ((Command_ProductID c != "") && allowedProduct p (Command_ProductID c))
  || existsb (fun ref => match owner_of ks ref with Some owner => allowedProduct p owner | None => false end) (command_refs c).
Definition human_actions : list string :=
  ["prepare_release_candidate"; "promote_release_candidate"; "plan_release"; "record_release"].
Class RowOrder := { kind_range : kinds -> kinds; kind_range_perm : forall ks, kind_range ks ≡ₚ ks }.
Definition authorizeCommand `{Runtime} `{MapOrder} `{RowOrder} (ctx : option Principal) (st : State) (c : Command) : res unit :=
  match ctx with
  | None => Ok ()
  | Some p =>
    _ ← reject_if ((Principal_Kind p != "human") && contains human_actions (Command_Action c)) ErrForbidden;
    if instanceAdmin p then Ok ()
    else
      _ ← authorize ctx (action_permission (Command_Action c)) (Command_ProductID c);
      let ks := kind_range (stateRows st) in
      match inspect p ks (command_json c) ∅ with
      | Some (false, _) => reject_if (negb (matched p ks c)) ErrForbidden
      | _ => ErrForbidden
      end
  end.

(** command_authorization.go: every read and every transaction of a
    specialised command is authorized against its own state. *)
Definition authorized_read `{Runtime} `{MapOrder} `{RowOrder} (ctx : option Principal) (c : Command) (st : State) : res State :=
  _ ← authorizeCommand ctx st c; Ok st.
Definition authorized_update `{Runtime} `{MapOrder} `{RowOrder} (ctx : option Principal) (c : Command)
    (change : State -> res State) (st : State) : res State :=
  _ ← (match ctx with Some _ => authorizeCommand ctx st c | None => Ok () end); change st.

(** [authorizeReferences] *)
Definition authorizeReferences (ctx : option Principal) (permission : string) (ids : list string) (st : State) : res unit :=
  _ ← authorize ctx permission "";
  match ctx with
  | None => Ok ()
  | Some p =>
    if instanceAdmin p then Ok ()
    else each (fun id =>
      let owners := concat (map (fun kg => map (rowProduct kg.1) (List.filter (fun r => str_key r "id" == id) kg.2)) (stateRows st)) in
      _ ← each (fun o => reject_if (negb (allowedProduct p o)) ErrForbidden) owners;
      reject_if (bool_decide (owners = [])) ErrForbidden) ids
  end.

(** * Properties *)

(** ** What a command says: the strings it mentions outside [actor], and the
    flags that only an administrator may set *)
Fixpoint mentions (v : json) : list string :=
  match v with
  | JStr s => [s]
  | JArr l => concat (map mentions l)
  | JObj kvs => concat (map (fun kv => if kv.1 == "actor" then [] else mentions kv.2) kvs)
  | _ => []
  end.
Fixpoint has_flag (v : json) : bool :=
  match v with
  | JArr l => existsb has_flag l
  | JObj kvs => existsb (fun kv => negb (kv.1 == "actor") && (flagged_entry kv.1 kv.2 || has_flag kv.2)) kvs
  | _ => false
  end.
(** The records a stored record points to, and those a reference leads to. *)
Definition refers (ks : kinds) (ref target : string) : Prop := target ∈ link_targets ks ref.
Definition Clean `{Runtime} (p : Principal) (ks : kinds) (ref : string) : Prop :=
  forall s, rtc (refers ks) ref s -> foreign p ks s = false.

Section inspection.
Context `{Runtime} (p : Principal) (ks : kinds).

Lemma owner_None ref : owner_of ks ref = None -> link_targets ks ref = [] /\ foreign p ks ref = false.
Proof. unfold foreign, owner_of, link_targets. destruct (entities ks !! ref); [discriminate|auto]. Qed.
Lemma unknown_clean ref : owner_of ks ref = None -> Clean p ks ref.
Proof.
  intros [Hl Hf]%owner_None s Hr. inversion Hr as [|? y ? Hy]; subst; [exact Hf|].
  unfold refers in Hy. rewrite Hl in Hy. inversion Hy.
Qed.

(** *** A run that finds nothing *)
(** [seen'] extends [seen] with entities of their own product, closed under
    references; [Good] holds of what a closed set rests on. *)
Definition Good (seen : gset string) (ref : string) : Prop :=
  foreign p ks ref = false /\ (owner_of ks ref <> None -> ref ∈ seen).
Definition Explored (refs : list string) (seen seen' : gset string) : Prop :=
  seen ⊆ seen' /\ (forall ref, ref ∈ refs -> Good seen' ref)
  /\ forall x, x ∈ seen' -> x ∉ seen -> forall t, refers ks x t -> Good seen' t.

Lemma good_mono s s' ref : s ⊆ s' -> Good s ref -> Good s' ref.
Proof. intros Hs [Hf Hk]. split; [exact Hf|]. intros Ho. apply Hs, Hk, Ho. Qed.
Lemma explored_nil s : Explored [] s s.
Proof. split; [reflexivity|]. split; [intros ref Hr; inversion Hr|contradiction]. Qed.
Lemma explored_app l1 l2 s1 s2 s3 : Explored l1 s1 s2 -> Explored l2 s2 s3 -> Explored (l1 ++ l2) s1 s3.
Proof.
  intros (A1 & A2 & A3) (B1 & B2 & B3). split; [set_solver|]. split.
  - intros ref [Hr|Hr]%elem_of_app; [apply (good_mono s2), A2, Hr; exact B1|apply B2, Hr].
  - intros x Hx Hns t Ht. destruct (decide (x ∈ s2)) as [Hs|Hs]; [|apply (B3 x); assumption].
    apply (good_mono s2); [exact B1|apply (A3 x); assumption].
Qed.
Lemma inspect_all_explored {A} (refs : A -> list string) (f : A -> gset string -> Inspection) l seen seen' :
  Forall (fun x => forall s s', f x s = Some (false, s') -> Explored (refs x) s s') l ->
  inspect_all f l seen = Some (false, seen') -> Explored (concat (map refs l)) seen seen'.
Proof.
  intros Hf. revert seen. induction Hf as [|x l Hx _ IH]; cbn; intros seen E; [injection E as <-; apply explored_nil|].
  destruct (f x seen) as [[[] s]|] eqn:Ex; try discriminate. exact (explored_app _ _ _ _ _ (Hx _ _ Ex) (IH _ E)).
Qed.
Lemma inspect_ref_explored fuel ref seen seen' :
  inspect_ref p ks fuel ref seen = Some (false, seen') -> Explored [ref] seen seen'.
Proof.
  revert ref seen seen'. induction fuel as [|fuel IH]; cbn; intros ref seen seen'; [discriminate|].
  destruct (owner_of ks ref) as [owner|] eqn:Eo.
  - assert (Ef : foreign p ks ref = (negb (allowedProduct p owner) || production ks ref)) by (unfold foreign; rewrite Eo; reflexivity).
    rewrite <- Ef. destruct (foreign p ks ref) eqn:Hf; [discriminate|]. case_bool_decide as Hs.
    + intros [= <-]. split; [reflexivity|]. split; [|contradiction].
      intros r ->%list_elem_of_singleton. split; [exact Hf|auto].
    + intros E. eapply (inspect_all_explored (fun t => [t])) in E as (A1 & A2 & A3);
        [|apply Forall_forall; intros; apply IH; assumption].
      split; [set_solver|]. split.
      * intros r ->%list_elem_of_singleton. split; [exact Hf|]. intros _. set_solver.
      * intros x Hx Hns t Ht. destruct (decide (x = ref)) as [->|Hne]; [|apply (A3 x); [exact Hx|set_solver|exact Ht]].
        apply A2. apply list_elem_of_In, in_concat. exists [t]. split; [apply (in_map (fun t => [t])), list_elem_of_In, Ht|left; reflexivity].
  - intros [= <-]. split; [reflexivity|]. split; [|contradiction].
    intros r ->%list_elem_of_singleton. split; [apply owner_None, Eo|congruence].
Qed.
Lemma inspect_explored v : forall seen seen', inspect p ks v seen = Some (false, seen') ->
  has_flag v = false /\ Explored (mentions v) seen seen'.
Proof.
  induction v as [|b|n|s|l IH|l IH] using json_nested_ind; cbn; intros seen seen' E;
    try (injection E as <-; split; [reflexivity|apply explored_nil]).
  - split; [reflexivity|exact (inspect_ref_explored (inspect_fuel ks) _ _ _ E)].
  - split.
    + revert seen E. induction IH as [|x l Hx _ IHl]; cbn; intros seen E; [reflexivity|].
      destruct (inspect p ks x seen) as [[[] s]|] eqn:Ex; try discriminate.
      apply orb_false_iff. split; [apply (Hx _ _ Ex)|apply (IHl _ E)].
    + apply (inspect_all_explored mentions (inspect p ks)) in E; [exact E|].
      eapply Forall_impl; [|exact IH]. intros x Hx s s' Es. apply (Hx _ _ Es).
  - split.
    + revert seen E. induction IH as [|[k x] l Hx _ IHl]; cbn; intros seen E; [reflexivity|]. cbn in Hx.
      apply orb_false_iff. destruct (k == "actor"); [split; [reflexivity|apply (IHl _ E)]|].
      destruct (flagged_entry k x); [discriminate|]. destruct (inspect p ks x seen) as [[[] s]|] eqn:Ex; try discriminate.
      split; [apply (Hx _ _ Ex)|apply (IHl _ E)].
    + eapply inspect_all_explored in E; [exact E|]. eapply Forall_impl; [|exact IH].
      intros [k x] Hx s s' Es. cbn in *. destruct (k == "actor"); [injection Es as <-; apply explored_nil|].
      destruct (flagged_entry k x); [discriminate|]. apply (Hx _ _ Es).
Qed.
Lemma explored_clean refs seen ref : Explored refs ∅ seen -> ref ∈ refs -> Clean p ks ref.
Proof.
  intros (_ & A2 & A3) Hin s Hr. specialize (A2 ref Hin). clear Hin. revert A2.
  induction Hr as [x|x y z Hxy _ IH]; intros [Hf Hk]; [exact Hf|].
  apply IH. apply (A3 x); [|set_solver|exact Hxy].
  apply Hk. intros [Hl _]%owner_None. unfold refers in Hxy. rewrite Hl in Hxy. inversion Hxy.
Qed.

(** *** A run that refuses *)
Lemma inspect_all_refuses {A} (P : A -> Prop) (f : A -> gset string -> Inspection) l seen seen' :
  Forall (fun x => forall s s', f x s = Some (true, s') -> P x) l ->
  inspect_all f l seen = Some (true, seen') -> Exists P l.
Proof.
  intros Hf. revert seen. induction Hf as [|x l Hx _ IH]; cbn; intros seen E; [discriminate|].
  destruct (f x seen) as [[[] s]|] eqn:Ex; [left; exact (Hx _ _ Ex)|right; exact (IH _ E)|discriminate].
Qed.
Lemma inspect_ref_refuses fuel ref seen seen' :
  inspect_ref p ks fuel ref seen = Some (true, seen') -> exists s, rtc (refers ks) ref s /\ foreign p ks s = true.
Proof.
  revert ref seen seen'. induction fuel as [|fuel IH]; cbn; intros ref seen seen'; [discriminate|].
  destruct (owner_of ks ref) as [owner|] eqn:Eo; [|discriminate].
  destruct (negb (allowedProduct p owner) || production ks ref) eqn:Hf.
  - intros _. exists ref. split; [constructor|]. unfold foreign. rewrite Eo. exact Hf.
  - case_bool_decide; [discriminate|]. intros E.
    eapply (inspect_all_refuses (fun t => exists s, rtc (refers ks) t s /\ foreign p ks s = true)) in E;
      [|apply Forall_forall; intros; eapply IH; eassumption].
    apply Exists_exists in E as (t & Ht & s & Hr & Hs). exists s. split; [|exact Hs].
    eapply rtc_l; [|exact Hr]. apply list_elem_of_In, Ht.
Qed.
Lemma inspect_refuses v : forall seen seen', inspect p ks v seen = Some (true, seen') ->
  has_flag v = true \/ exists ref, ref ∈ mentions v /\ ~ Clean p ks ref.
Proof.
  assert (Hlift : forall refs ref, ref ∈ refs -> ~ Clean p ks ref -> forall ls, refs ∈ ls ->
    exists ref, ref ∈ concat ls /\ ~ Clean p ks ref).
  { intros refs ref Hin Hc ls Hls. exists ref. split; [|exact Hc].
    apply list_elem_of_In, in_concat. exists refs. split; apply list_elem_of_In; assumption. }
  induction v as [|b|n|s|l IH|l IH] using json_nested_ind; cbn; intros seen seen' E; try discriminate.
  - right. exists s. split; [left|]. apply (inspect_ref_refuses (inspect_fuel ks)) in E as (t & Hr & Hf).
    intros Hc. specialize (Hc t Hr). congruence.
  - apply (inspect_all_refuses (fun x => has_flag x = true \/ exists ref, ref ∈ mentions x /\ ~ Clean p ks ref)) in E;
      [|eapply Forall_impl; [|exact IH]; intros x Hx s s' Es; apply (Hx _ _ Es)].
    apply Exists_exists in E as (x & Hin & [Hf|(ref & Hr & Hc)]); [left; apply existsb_exists; eauto|right].
    apply (Hlift _ ref Hr Hc). apply list_elem_of_In, in_map, Hin.
  - apply (inspect_all_refuses (fun kv => kv.1 <> "actor"
      /\ (flagged_entry kv.1 kv.2 || has_flag kv.2 = true \/ exists ref, ref ∈ mentions kv.2 /\ ~ Clean p ks ref))) in E.
    + apply Exists_exists in E as ([k x] & Hin & Hk & [Hf|(ref & Hr & Hc)]); cbn in *.
      * left. apply existsb_exists. exists (k, x). split; [exact Hin|]. cbn. rewrite bool_decide_false by exact Hk. exact Hf.
      * right. apply (Hlift _ ref Hr Hc). apply list_elem_of_In, in_map_iff. exists (k, x). split; [|exact Hin].
        cbn. rewrite bool_decide_false by exact Hk. reflexivity.
    + eapply Forall_impl; [|exact IH]. intros [k x] Hx s s' Es. cbn in *.
      case_bool_decide as Hk; [discriminate|]. split; [exact Hk|].
      destruct (flagged_entry k x); [left; reflexivity|]. exact (Hx _ _ Es).
Qed.

(** *** Every run ends: the entities not yet visited bound its depth *)
Definition unvisited (seen : gset string) : nat := size (dom (entities ks) ∖ seen).
Lemma unvisited_le s s' : s ⊆ s' -> (unvisited s' <= unvisited s)%nat.
Proof. intros Hs. unfold unvisited. apply subseteq_size. set_solver. Qed.
Lemma unvisited_lt ref owner seen : owner_of ks ref = Some owner -> ref ∉ seen ->
  (unvisited ({[ref]} ∪ seen) < unvisited seen)%nat.
Proof.
  intros Ho Hs. unfold unvisited. apply subset_size. assert (ref ∈ dom (entities ks)); [|set_solver].
  apply elem_of_dom. unfold owner_of in Ho. destruct (entities ks !! ref); [eauto|discriminate].
Qed.
Definition Ends (n : nat) (f : gset string -> Inspection) : Prop :=
  forall seen, (unvisited seen < n)%nat -> exists b seen', f seen = Some (b, seen') /\ seen ⊆ seen'.
Lemma inspect_all_ends {A} n (f : A -> gset string -> Inspection) l :
  Forall (fun x => Ends n (f x)) l -> Ends n (inspect_all f l).
Proof.
  induction 1 as [|x l Hx _ IH]; intros seen Hn; cbn; [eauto|].
  destruct (Hx seen Hn) as ([] & s & -> & Hs); [eauto|].
  destruct (IH s) as (b & s' & -> & Hs'); [pose proof (unvisited_le _ _ Hs); lia|].
  exists b, s'. split; [reflexivity|set_solver].
Qed.
Lemma inspect_ref_ends fuel ref : Ends fuel (inspect_ref p ks fuel ref).
Proof.
  revert ref. induction fuel as [|fuel IH]; intros ref seen Hn; cbn; [lia|].
  destruct (owner_of ks ref) as [owner|] eqn:Eo; [|eauto].
  destruct (_ || _); [eauto|]. case_bool_decide as Hs; [eauto|].
  pose proof (unvisited_lt ref owner seen Eo Hs).
  destruct (inspect_all_ends fuel (inspect_ref p ks fuel) (link_targets ks ref)
    ltac:(apply Forall_forall; intros; apply IH) ({[ref]} ∪ seen)) as (b & s & -> & Hs'); [lia|].
  exists b, s. split; [reflexivity|set_solver].
Qed.
Lemma inspect_ends v : Ends (inspect_fuel ks) (inspect p ks v).
Proof.
  induction v as [|b|n|s|l IH|l IH] using json_nested_ind; try (intros seen _; exists false, seen; split; reflexivity).
  - exact (inspect_ref_ends (inspect_fuel ks) s).
  - exact (inspect_all_ends _ _ _ IH).
  - apply (inspect_all_ends (inspect_fuel ks)). eapply Forall_impl; [|exact IH]. intros [k x] Hx s Hs. cbn in *. case_bool_decide; [eauto|].
    destruct (flagged_entry k x); [eauto|]. exact (Hx s Hs).
Qed.
Lemma inspect_fuel_enough v : exists b seen, inspect p ks v ∅ = Some (b, seen).
Proof.
  destruct (inspect_ends v ∅) as (b & s & E & _); [|eauto].
  unfold unvisited, inspect_fuel. rewrite difference_empty_L, size_dom. lia.
Qed.

Lemma inspect_decides v :
  (exists seen, inspect p ks v ∅ = Some (false, seen))
  <-> has_flag v = false /\ forall ref, ref ∈ mentions v -> Clean p ks ref.
Proof.
  split.
  - intros (seen & E). apply inspect_explored in E as [Hf Hx]. split; [exact Hf|]. intros ref. apply (explored_clean _ _ _ Hx).
  - intros [Hf Hc]. destruct (inspect_fuel_enough v) as ([] & seen & E); [|eauto].
    apply inspect_refuses in E as [Hf'|(ref & Hin & Hn)]; [congruence|]. destruct (Hn (Hc ref Hin)).
Qed.
End inspection.

(** ** Commands of members *)
Lemma authorize_member p permission product : instanceAdmin p = false ->
  authorize (Some p) permission product = Ok ()
  <-> permission <> "admin" /\ permission ∈ Principal_Permissions p /\ (product = "" \/ allowedProduct p product = true).
Proof.
  intros Ha. unfold authorize, reject_if, contains. rewrite Ha.
  destruct (bool_decide_reflect (permission = "admin")); cbn; [split; [discriminate|intros (? & _); contradiction]|].
  destruct (bool_decide_reflect (permission ∈ Principal_Permissions p)); cbn; [|split; [discriminate|intros (_ & ? & _); contradiction]].
  destruct (bool_decide_reflect (product = "")); cbn; [tauto|]. destruct (allowedProduct p product); cbn; [tauto|].
  split; [discriminate|]. intros (_ & _ & [?|?]); [contradiction|discriminate].
Qed.

(** C28 what a principal who does not administer the instance may send: a
    command is authorized exactly when its action asks for a permission the
    principal has ([admin] never is one), it is bound to a product of the
    principal, it raises no administrator's flag, and no string it mentions,
    at any depth, leads through the recorded references to a record of
    another product or to a production environment.  Candidates, promotions
    and releases are left to humans.  The order in which objects and
    collections are ranged over does not matter to the search. *)
Theorem member_commands_exact `{Runtime} `{MapOrder} `{RowOrder} p st c : instanceAdmin p = false ->
  let ks := kind_range (stateRows st) in
  authorizeCommand (Some p) st c = Ok ()
  <-> (Principal_Kind p = "human" \/ Command_Action c ∉ human_actions)
      /\ action_permission (Command_Action c) <> "admin"
      /\ action_permission (Command_Action c) ∈ Principal_Permissions p
      /\ (Command_ProductID c = "" \/ allowedProduct p (Command_ProductID c) = true)
      /\ has_flag (command_json c) = false
      /\ (forall ref, ref ∈ mentions (command_json c) -> Clean p ks ref)
      /\ matched p ks c = true.
Proof.
  intros Ha ks.
  pose proof (authorize_member p (action_permission (Command_Action c)) (Command_ProductID c) Ha) as Hauth.
  pose proof (inspect_decides p ks (command_json c)) as Hins.
  destruct (inspect_fuel_enough p ks (command_json c)) as (b & seen & E).
  assert (Hhuman : (Principal_Kind p != "human") && contains human_actions (Command_Action c) = false
    <-> Principal_Kind p = "human" \/ Command_Action c ∉ human_actions).
  { unfold contains. destruct (bool_decide_reflect (Principal_Kind p = "human")); [cbn; tauto|].
    destruct (bool_decide_reflect (Command_Action c ∈ human_actions)); cbn; [|tauto].
    split; [discriminate|]. intros [?|?]; contradiction. }
  unfold authorizeCommand. rewrite Ha. fold ks. rewrite E.
  destruct ((_ != _) && _) eqn:Eh; cbn [reject_if mbind res_bind].
  { split; [discriminate|]. intros (Hh & _). apply Hhuman in Hh. discriminate. }
  destruct (authorize _ _ _) as [[]|] eqn:Ea; cbn [mbind res_bind];
    [|split; [discriminate|]; intros (_ & H2' & H3' & H4' & _); discriminate (proj2 Hauth (conj H2' (conj H3' H4')))].
  destruct (proj1 Hauth eq_refl) as (P1 & P2 & P3).
  destruct b; [split; [discriminate|]; intros (_ & _ & _ & _ & F1 & F2 & _); destruct (proj2 Hins (conj F1 F2)); congruence|].
  destruct (proj1 Hins (ex_intro _ seen E)) as [F1 F2].
  destruct (matched p ks c); cbn; [|split; [discriminate|]; intros (_ & _ & _ & _ & _ & _ & ?); discriminate].
  split; [intros _|reflexivity]. repeat (split; [first [assumption|apply Hhuman; reflexivity]|]). reflexivity.
Qed.

(** ** Reads *)
Lemma rows_filter {A} (q : A -> bool) (r : A -> row) (q' : row -> bool) l : (forall v, q' (r v) = q v) ->
  map r (List.filter q l) = List.filter q' (map r l).
Proof. intros Hq. induction l as [|v l IH]; cbn; [reflexivity|]. rewrite Hq. destruct (q v); cbn; congruence. Qed.

(** A read shows a member exactly the rows of the products it is allowed:
    the state it sees has, collection by collection and in order, the rows of
    the stored state whose owner is one of them. *)
Theorem scoped_state_exact p st : instanceAdmin p = false -> "read" ∈ Principal_Permissions p ->
  exists st', scopedState (Some p) st = Ok st'
    /\ stateRows st' = map (fun kg => (kg.1, List.filter (fun r => allowedProduct p (rowProduct kg.1 r)) kg.2)) (stateRows st).
Proof.
  intros Ha Hr. exists (scoped p st). split.
  - unfold scopedState. rewrite (proj2 (authorize_member p "read" "" Ha)) by (split; [discriminate|auto]). cbn. rewrite Ha. reflexivity.
  - unfold stateRows, scoped. cbn [map fst snd State_RegistryInventories].
    repeat (f_equal; [f_equal; apply rows_filter; reflexivity|]). f_equal. f_equal. apply rows_filter. reflexivity.
Qed.

(** ** Production environments *)
Lemma existsb_never {A} (q : A -> bool) l : (forall x, q x = false) -> existsb q l = false.
Proof. intros Hq. apply existsb_none. auto. Qed.
Lemma existsb_map {A B} (f : A -> B) (q : B -> bool) l : existsb q (map f l) = existsb (fun x => q (f x)) l.
Proof. induction l as [|x l IH]; cbn; [reflexivity|]. rewrite IH. reflexivity. Qed.
Lemma existsb_same {A} (q q' : A -> bool) l : (forall x, q x = q' x) -> existsb q l = existsb q' l.
Proof. intros Hq. induction l as [|x l IH]; cbn; [reflexivity|]. rewrite Hq, IH. reflexivity. Qed.
Definition production_binding (ref : string) (b : EnvironmentBinding) : bool :=
  (ID b != "") && (EnvironmentBinding_Purpose b == "PROD") && (EnvironmentBinding_EnvironmentID b == ref).

(** An environment is in production only by a binding: the [kind] that
    [authorizeCommand] looks for is no field of an environment's row. *)
Theorem production_by_binding `{Runtime} st ref :
  production (stateRows st) ref = existsb (production_binding ref) (State_EnvironmentBindings st).
Proof.
  assert (Hkind : forall v : string, v = "PROD" \/ v = "production" -> equal_fold "" v = false).
  { intros v [->| ->]; rewrite equal_fold_ascii by reflexivity; reflexivity. }
  assert (Henv : forall e : Environment, production_row ref "environments" (row_of e []) = false).
  { intros e. unfold production_row. cbn. rewrite !Hkind by auto. cbn.
    rewrite andb_false_r. apply andb_false_r. }
  unfold production, stateRows. cbn [existsb fst snd].
  rewrite !existsb_map.
  rewrite (existsb_same (fun b => production_row ref "environment_bindings" _) (production_binding ref)).
  2:{ intros b. unfold production_binding. rewrite <- andb_assoc. reflexivity. }
  rewrite (existsb_never (fun e : Environment => _) _ Henv).
  generalize (existsb (production_binding ref) (State_EnvironmentBindings st)). intros bound.
  repeat (rewrite existsb_never by (intros; unfold production_row; cbn; apply andb_false_r)).
  cbn. rewrite ?orb_false_r. reflexivity.
Qed.
