(* ===== verification/ExternalSystems.v ===== *)
(** * External systems

    [internal/application/external_systems.go]: the registry of independently
    owned systems, the relationships components have with them, and the
    append-only verification scopes that reopen readiness. *)
From S2P Require Import Prelude GoText GoJson Delivery Domain Status Planning Handlers.
Open Scope string_scope.
Open Scope list_scope.

Definition externalSystem (st : State) (id : string) : option ExternalSystem :=
  find_first (has_id id) (State_ExternalSystems st).
Definition systemRelationship (st : State) (id : string) : option SystemRelationship :=
  find_first (has_id id) (State_SystemRelationships st).

(** The input struct — application/external_systems.go:32 *)
Record ExternalSystemInput := mkExternalSystemInput {
  ExternalSystemInput_Name : string; ExternalSystemInput_Description : string;
  ExternalSystemInput_Team : string; ExternalSystemInput_Contact : string;
  ExternalSystemInput_Interfaces : list string; ExternalSystemInput_Contracts : list string;
  ExternalSystemInput_Notes : string
}.
#[export] Instance zero_ExternalSystemInput : Zero ExternalSystemInput := mkExternalSystemInput zero zero zero zero zero zero zero.
#[export] Instance fields_ExternalSystemInput `{Runtime} : Fields ExternalSystemInput :=
  [
    field "name" ExternalSystemInput_Name; field "description" ExternalSystemInput_Description;
    field "team" ExternalSystemInput_Team; field "contact" ExternalSystemInput_Contact;
    field "interfaces" ExternalSystemInput_Interfaces; field "contracts" ExternalSystemInput_Contracts;
    field "notes" ExternalSystemInput_Notes
  ].
(** The input struct — application/external_systems.go:77 *)
Record RelationshipInput := mkRelationshipInput {
  RelationshipInput_ComponentID : string; RelationshipInput_ExternalSystemID : string;
  RelationshipInput_Type : string; RelationshipInput_Notes : string
}.
#[export] Instance zero_RelationshipInput : Zero RelationshipInput := mkRelationshipInput zero zero zero zero.
#[export] Instance fields_RelationshipInput `{Runtime} : Fields RelationshipInput :=
  [
    field "component_id" RelationshipInput_ComponentID;
    field "external_system_id" RelationshipInput_ExternalSystemID; field "type" RelationshipInput_Type;
    field "notes" RelationshipInput_Notes
  ].
(** The input struct — application/external_systems.go:111 *)
Record ScopeInput := mkScopeInput {
  ScopeInput_ExternalSystemIDs : list string; ScopeInput_RelationshipIDs : list string
}.
#[export] Instance zero_ScopeInput : Zero ScopeInput := mkScopeInput zero zero.
#[export] Instance fields_ScopeInput `{Runtime} : Fields ScopeInput :=
  [
    field "external_system_ids" ScopeInput_ExternalSystemIDs;
    field "relationship_ids" ScopeInput_RelationshipIDs
  ].

Section handlers.
Context `{Runtime}.

(** [create_external_system], [update_external_system] *)
Definition input_of_system (v : ExternalSystem) : ExternalSystemInput :=
  mkExternalSystemInput (ExternalSystem_Name v) (ExternalSystem_Description v) (ExternalSystem_Team v)
    (ExternalSystem_Contact v) (ExternalSystem_Interfaces v) (ExternalSystem_Contracts v) (ExternalSystem_Notes v).
Definition system_of_input (m : Meta) (i : ExternalSystemInput) : ExternalSystem :=
  mkExternalSystem m (ExternalSystemInput_Name i) (ExternalSystemInput_Description i) (ExternalSystemInput_Team i)
    (ExternalSystemInput_Contact i) (ExternalSystemInput_Interfaces i) (ExternalSystemInput_Contracts i)
    (ExternalSystemInput_Notes i).
Definition name_taken (st : State) (previous : option ExternalSystem) (name : string) : bool :=
  existsb (fun s =>
    match previous with None => true | Some p => ID s != ID p end && equal_fold (ExternalSystem_Name s) name)
    (State_ExternalSystems st).
Definition put_external_system (st : State) (previous : option ExternalSystem) (d : Data) (m : Meta)
    : res (State * Out * Meta) :=
  let m := m <| Meta_ProductID := "" |> <| Meta_FeatureID := "" |> in
  input ← decode d (match previous with Some p => input_of_system p | None => zero end);
  let input := input <| ExternalSystemInput_Name := trim_space (ExternalSystemInput_Name input) |> in
  if ExternalSystemInput_Name input == "" then invalid "external system name required" []
  else if name_taken st previous (ExternalSystemInput_Name input) then invalid "external system name already exists" []
  else match previous with
  | Some p =>
    let value := system_of_input (m <| Meta_ID := ID p |> <| Meta_CreatedAt := CreatedAt p |>) input in
    Ok (st <| State_ExternalSystems ::= update_first (has_id (ID p)) (fun _ => value) |>,
        OutExternalSystem value, ExternalSystem_Meta value)
  | None =>
    let value := system_of_input m input in
    Ok (st <| State_ExternalSystems ::= fun l => l ++ [value] |>, OutExternalSystem value, m)
  end.

(** [create_system_relationship] *)
Definition relationship_types : list string := ["DEPENDS_ON"; "CONSUMES"; "PROVIDES_TO"; "SHARES_DATA_WITH"].
Definition same_relationship (product : string) (i : RelationshipInput) (r : SystemRelationship) : bool :=
  (ProductID r == product) && (SystemRelationship_ComponentID r == RelationshipInput_ComponentID i)
  && (SystemRelationship_ExternalSystemID r == RelationshipInput_ExternalSystemID i)
  && (SystemRelationship_Type r == RelationshipInput_Type i).
Definition create_system_relationship (st : State) (c : Command) (m : Meta) : res (State * Out * Meta) :=
  input ← decode (Command_Data c) (zero : RelationshipInput);
  _ ← reject_if (negb (productExists st (Command_ProductID c))) (missing "product" (Command_ProductID c));
  _ ← reject_if (bool_decide (externalSystem st (RelationshipInput_ExternalSystemID input) = None))
        (missing "external system" (RelationshipInput_ExternalSystemID input));
  _ ← reject_if ((RelationshipInput_ComponentID input != "")
        && match applicationByID st (RelationshipInput_ComponentID input) with
           | Some a => ProductID a != Command_ProductID c
           | None => true
           end) (invalid "component must belong to relationship product" []);
  _ ← reject_if (negb (contains relationship_types (RelationshipInput_Type input)))
        (invalid "unsupported external relationship type" []);
  _ ← reject_if (existsb (same_relationship (Command_ProductID c) input) (State_SystemRelationships st))
        (invalid "relationship already exists" []);
  let m := m <| Meta_FeatureID := "" |> in
  let value := mkSystemRelationship m (RelationshipInput_ComponentID input) (RelationshipInput_ExternalSystemID input)
    (RelationshipInput_Type input) (RelationshipInput_Notes input) in
  Ok (st <| State_SystemRelationships ::= fun l => l ++ [value] |>, OutRelationship value, m).

(** [set_external_scope] *)
Definition scope_feature (st : State) (c : Command) : res string :=
  if Command_GateID c == "" then Ok (Command_FeatureID c)
  else match gate st (Command_GateID c) with
       | None => missing "gate" (Command_GateID c)
       | Some g =>
         if (Command_FeatureID c != "") && (FeatureID g != Command_FeatureID c)
         then invalid "gate feature mismatch" []
         else if Command_IntegrationID c != "" then invalid "scope has one integration or gate target" []
         else Ok (FeatureID g)
       end.
Definition reopen_integrations (g : Gate) (at_ : Time) (l : list Integration) : list Integration :=
  map (fun v => if contains (Gate_IntegrationIDs g) (ID v) && (Integration_Status v == "ready")
                then v <| Integration_Status := "working" |>
                       <| Integration_Meta ::= fun mt => mt <| Meta_UpdatedAt := at_ |> |>
                else v) l.
Definition reopen (st : State) (gate_id : string) (at_ : Time) : res State :=
  if gate_id == "" then Ok st
  else match gate st gate_id with
       | None => Err ErrPanic
       | Some g =>
         if Gate_Blocking g then Ok (st <| State_Integrations ::= reopen_integrations g at_ |>) else Ok st
       end.
Definition set_external_scope (st : State) (c : Command) (m : Meta) : res (State * Out * Meta) :=
  input ← decode (Command_Data c) (zero : ScopeInput);
  fid ← scope_feature st c;
  match feature st fid with
  | None => missing "feature" fid
  | Some f =>
    let m := m <| Meta_FeatureID := ID f |> <| Meta_ProductID := ProductID f |> in
    _ ← reject_if ((Command_IntegrationID c != "")
          && match integration st (Command_IntegrationID c) with
             | Some v => FeatureID v != ID f
             | None => true
             end) (invalid "scope integration must belong to feature" []);
    _ ← each_unique (fun i => bool_decide (externalSystem st i <> None))
          (invalid "external system scope reference missing or duplicated" []) ∅ (ScopeInput_ExternalSystemIDs input);
    _ ← each_unique (fun i => match systemRelationship st i with
                              | Some r => ProductID r == ProductID f
                              | None => false
                              end)
          (invalid "relationship scope must be unique and belong to feature product" []) ∅ (ScopeInput_RelationshipIDs input);
    let value := mkExternalScope m (Command_IntegrationID c) (Command_GateID c)
      (ScopeInput_ExternalSystemIDs input) (ScopeInput_RelationshipIDs input) in
    let st := st <| State_ExternalScopes ::= fun l => l ++ [value] |> in
    st ← reopen st (Command_GateID c) (Meta_UpdatedAt m);
    Ok (st, OutExternalScope value, m)
  end.

Definition applyExternalSystems : Handler := fun st c m =>
  if Command_Action c == "create_external_system" then put_external_system st None (Command_Data c) m
  else if Command_Action c == "update_external_system" then
    match externalSystem st (Command_ID c) with
    | None => missing "external system" (Command_ID c)
    | Some p => put_external_system st (Some p) (Command_Data c) m
    end
  else if Command_Action c == "create_system_relationship" then create_system_relationship st c m
  else if Command_Action c == "set_external_scope" then set_external_scope st c m
  else invalid "unknown external systems command" [].
End handlers.

(** ** What an agent reads: the scopes in force and what they refer to *)
Definition scope_key (s : ExternalScope) : string :=
  FeatureID s +:+ "/" +:+ ExternalScope_IntegrationID s +:+ "/" +:+ ExternalScope_GateID s.
Definition by_target (l : list ExternalScope) : gmap string ExternalScope :=
  foldl (fun m s => <[scope_key s := s]> m) ∅ l.
Definition latestExternalScopes (st : State) : list ExternalScope :=
  foldr (fun s l => (fix ins l := match l with
                                  | [] => [s]
                                  | x :: r => if String.leb (ID s) (ID x) then s :: l else x :: ins r
                                  end) l)
    [] (map snd (map_to_list (by_target (State_ExternalScopes st)))).
Definition in_context (st : State) (featureID integrationID : string) (s : ExternalScope) : bool :=
  (FeatureID s == featureID)
  && ((integrationID == "")
      || (((ExternalScope_IntegrationID s == "") || (ExternalScope_IntegrationID s == integrationID))
          && ((ExternalScope_GateID s == "")
              || match gate st (ExternalScope_GateID s) with
                 | Some g => contains (Gate_IntegrationIDs g) integrationID
                 | None => false
                 end))).
Definition externalContext (st : State) (featureID integrationID : string)
    : list ExternalSystem * list SystemRelationship * list ExternalScope :=
  let scopes := List.filter (in_context st featureID integrationID) (latestExternalScopes st) in
  let relations := List.filter (fun r => existsb (fun s => contains (ExternalScope_RelationshipIDs s) (ID r)) scopes)
                     (State_SystemRelationships st) in
  let systems := List.filter (fun s =>
      existsb (fun sc => contains (ExternalScope_ExternalSystemIDs sc) (ID s)) scopes
      || existsb (fun r => SystemRelationship_ExternalSystemID r == ID s) relations) (State_ExternalSystems st) in
  (systems, relations, scopes).

(** * Properties *)
Section names.
Context `{Runtime}.

(** Names of external systems are distinct up to letter case. *)
Definition names_differ (a b : ExternalSystem) : Prop :=
  equal_fold (ExternalSystem_Name a) (ExternalSystem_Name b) = false.
#[export] Instance names_differ_sym : Symmetric names_differ.
Proof. intros a b; unfold names_differ; rewrite equal_fold_sym; auto. Qed.
Definition SystemNamesDistinct (st : State) : Prop := Pairwise names_differ (State_ExternalSystems st).
Definition SystemIDsUnique (st : State) : Prop := NoDup (map ID (State_ExternalSystems st)).

Lemma name_taken_false st previous name :
  name_taken st previous name = false ->
  forall s, s ∈ State_ExternalSystems st ->
    match previous with None => True | Some p => ID s <> ID p end -> equal_fold (ExternalSystem_Name s) name = false.
Proof.
  unfold name_taken. intros Hn s Hs Hp. destruct (equal_fold _ name) eqn:E; [|reflexivity].
  rewrite existsb_none in Hn. specialize (Hn s Hs). rewrite E, andb_true_r in Hn.
  destruct previous; [|exact Hn]. rewrite bool_decide_false in Hn by exact Hp; discriminate.
Qed.

Lemma ids_unique_same {A} `{HasMeta A} (l : list A) i j a b id :
  NoDup (map ID l) -> l !! i = Some a -> l !! j = Some b -> has_id id a = true -> has_id id b = true -> i = j.
Proof.
  intros Hnd Hi Hj Ha%has_id_true Hb%has_id_true.
  apply (NoDup_lookup _ i j (ID a) Hnd); rewrite lookup_map; [rewrite Hi|rewrite Hj]; cbn; congruence.
Qed.

Lemma put_external_system_names st previous d m st' out m' :
  put_external_system st previous d m = Ok (st', out, m') ->
  match previous with None => True | Some p => externalSystem st (ID p) = Some p end ->
  SystemIDsUnique st -> SystemNamesDistinct st -> SystemNamesDistinct st'.
Proof.
  unfold put_external_system. intros Hput Hprev Hids Hnames. cbv zeta in Hput.
  apply bind_Ok in Hput as (input & _ & Hput).
  case_bool_decide as Hempty; [discriminate|].
  destruct (name_taken _ _ _) eqn:Hfree; [discriminate|].
  pose proof (name_taken_false _ _ _ Hfree) as Hfresh. clear Hempty.
  destruct previous as [p|]; injection Hput as <- _ _.
  - eapply (pairwise_update_first names_differ); [exact Hnames|exact Hprev| |].
    + intros i j a b. apply ids_unique_same, Hids.
    + intros y Hy Hp. apply Hfresh; [exact Hy|]. intros E. apply has_id_true in E; congruence.
  - apply (pairwise_snoc names_differ); [exact Hnames|]. intros x Hx; apply Hfresh; [exact Hx|exact I].
Qed.

(** No command creates two external systems with the same name: the
    registry keeps its names distinct up to letter case. *)
Theorem external_system_names_stay_distinct st c m st' out m' :
  applyExternalSystems st c m = Ok (st', out, m') ->
  SystemIDsUnique st -> SystemNamesDistinct st -> SystemNamesDistinct st'.
Proof.
  unfold applyExternalSystems. intros Happly Hids Hnames.
  case_bool_decide; [eapply put_external_system_names; [exact Happly|exact I|assumption..]|].
  case_bool_decide.
  { destruct (externalSystem st (Command_ID c)) as [p|] eqn:E; [|discriminate].
    eapply put_external_system_names; [exact Happly| |assumption..].
    pose proof (find_first_Some _ _ _ E) as [_ Hid%has_id_true]. rewrite Hid; exact E. }
  case_bool_decide.
  { unfold create_system_relationship in Happly. step_guards Happly. inv_res. exact Hnames. }
  case_bool_decide; [|discriminate].
  unfold set_external_scope in Happly. step_guards Happly.
  destruct (feature st a0) as [f|]; [|discriminate]. cbv zeta in Happly. step_guards Happly. inv_res.
  unfold reopen in *. repeat split_match_in E3; inv_res; exact Hnames.
Qed.
End names.

(** ** A new scope of a gate needs new evidence *)
Lemma gate_find_id st i g : gate st i = Some g -> ID g = i.
Proof. intros [_ Hid%has_id_true]%find_first_Some; exact Hid. Qed.

Lemma evidence_stale st g scope :
  find_last (fun s => ExternalScope_GateID s == ID g) (State_ExternalScopes st) = Some scope ->
  (forall r, r ∈ State_Results st -> (CreatedAt r < CreatedAt scope)%Z) ->
  gateResult st g = "pending".
Proof.
  intros Hscope Hold. unfold gateResult, externalGateEvidenceCurrent. rewrite Hscope.
  destruct (forallb _ (State_Checks st)) eqn:E; [|reflexivity]. cbn.
  assert (Hno : gate_checks st g = []); [|rewrite Hno; reflexivity].
  destruct (gate_checks st g) as [|c l] eqn:Hg; [reflexivity|exfalso].
  assert (Hc : c ∈ gate_checks st g) by (rewrite Hg; left).
  apply elem_of_gate_checks in Hc as [Hc Hgid].
  rewrite forallb_elem in E. specialize (E c Hc).
  rewrite bool_decide_true in E by exact Hgid.
  pose proof (latest_IsLatest st (ID c)) as Hl. destruct (latest st (ID c)) as [r|]; [|discriminate].
  destruct Hl as (Hr & _ & _). specialize (Hold r Hr).
  unfold Before in E. destruct (Z.ltb_spec (CreatedAt r) (CreatedAt scope)); [discriminate|lia].
Qed.

Lemma reopen_integrations_not_ready g t l v :
  v ∈ reopen_integrations g t l -> ID v ∈ Gate_IntegrationIDs g -> Integration_Status v <> "ready".
Proof.
  unfold reopen_integrations. intros (w & -> & Hw)%elem_of_map. unfold contains.
  repeat case_bool_decide; cbn; intros; (discriminate || assumption || contradiction).
Qed.

(** A new scope on a gate requires fresh evidence and reopens readiness:
    when every recorded result is older than the scope, the gate is pending
    again, and no integration a blocking gate guards is left ready. *)
Theorem gate_scope_needs_fresh_evidence `{Runtime} st c m st' out m' g :
  set_external_scope st c m = Ok (st', out, m') ->
  Command_GateID c <> "" -> gate st (Command_GateID c) = Some g ->
  (forall r, r ∈ State_Results st -> (CreatedAt r < Meta_CreatedAt m)%Z) ->
  gateResult st' g = "pending"
  /\ (Gate_Blocking g = true -> forall v, v ∈ State_Integrations st' -> ID v ∈ Gate_IntegrationIDs g ->
        Integration_Status v <> "ready").
Proof.
  unfold set_external_scope. intros Hset Hgid Hg Hold.
  step_guards Hset. destruct (feature st a0) as [f|]; [|discriminate].
  cbv zeta in Hset. step_guards Hset. rename a3 into st2, E3 into Hreopen.
  injection Hset as <- _ _. unfold reopen in Hreopen. rewrite bool_decide_false in Hreopen by exact Hgid.
  change (gate (st <| State_ExternalScopes ::= _ |>)) with (gate st) in Hreopen. rewrite Hg in Hreopen.
  split.
  - eapply evidence_stale.
    + apply gate_find_id in Hg. destruct (Gate_Blocking g); inv_res;
        apply find_last_snoc; cbn; apply bool_decide_eq_true; symmetry; exact Hg.
    + destruct (Gate_Blocking g); inv_res; exact Hold.
  - intros Hb v Hv Hin. rewrite Hb in Hreopen. inv_res.
    eapply reopen_integrations_not_ready; [exact Hv|exact Hin].
Qed.
