(* ===== verification/Reservation.v ===== *)
(** * Environment selection and candidate Dev reservations

    The compare-and-set token of an environment's desired composition
    (feature_patch.go, flow_guard.go), the exclusive reservation of an
    environment by a release candidate with its release receipts
    (dev_reservation.go), the receipt of a verified restoration that also
    settles a reservation (domain/dev_restoration.go), and the fence every
    command that moves an environment passes. *)
From S2P Require Import Prelude GoText GoJson Delivery Domain Status Planning Handlers.
Open Scope string_scope.
Open Scope list_scope.

(** workerconfig [Fingerprint] and domain [checkHash]: SHA-256 of the JSON
    encoding, in hexadecimal with its scheme.  The digest is the standard
    library's, and a pointer is encoded as what it points to. *)
Class Hashing := {
  Fingerprint : forall {A : Type}, A -> string;
  Fingerprint_digest : forall {A : Type} (v : A), is_digest (Fingerprint v) = true;
  Fingerprint_pointer : forall {A : Type} (v : A), Fingerprint (Some v) = Fingerprint v;
}.

(** ** The selection token *)
Definition selectionToken (e : Environment) : EnvironmentSelection :=
  mkEnvironmentSelection (Environment_DesiredCompositionID e) (Environment_DesiredOperationID e)
    (Environment_SelectionGeneration e).
Definition advanceSelection (e : Environment) : res Environment :=
  if (Environment_SelectionGeneration e =? max_uint64)%Z
  then invalid "environment selection generation exhausted" []
  else Ok (e <| Environment_SelectionGeneration ::= fun g => wrap_uint64 (g + 1) |>).
Definition ErrSelectionChanged : string :=
  "environment selection changed; reread environment state and reapply the patch".
Definition checkSelection (e : option Environment) (expected : option EnvironmentSelection) : res unit :=
  match e, expected with
  | Some e, Some s => reject_if (selectionToken e != s) (invalid ErrSelectionChanged [])
  | _, _ => invalid ErrSelectionChanged []
  end.

Definition workerJob (st : State) (id : string) : option WorkerJob := find_first (has_id id) (State_WorkerJobs st).
(** native_publication.go [nativeQuarantined] *)
Definition nativeQuarantined (st : State) (product : string) : bool :=
  existsb (fun q => ProductID q == product) (State_NativeQuarantines st).
(** external.go [connection], [scopedConnection] *)
Definition connection (st : State) (id : string) : option GitHubConnection :=
  find_first (has_id id) (State_GitHubConnections st).
Definition scopedConnection (st : State) (id product : string) : res GitHubConnection :=
  match connection st id with
  | None => invalid "product connection grant required" []
  | Some c =>
    if product == "" then invalid "product connection grant required" []
    else if ProductID c == product then Ok c
    else if existsb (fun g => (ConnectionGrant_ConnectionID g == id) && (ProductID g == product)) (State_ConnectionGrants st)
    then Ok c
    else invalid "product has no grant for instance connection" []
  end.

(** ** Restoration receipts — domain/dev_restoration.go *)
Definition is_some {A} (o : option A) : bool := match o with Some _ => true | None => false end.
Definition IsRestorationOperation (o : ExternalOperation) : bool :=
  ExternalOperation_DevRestorationUnapproved o
  || contains ["DEV_CANDIDATE_RESTORATION"; "DEV_RESTORATION_CONFIRMATION"; "DEV_RESTORATION_VERIFICATION";
               "DEV_RESTORATION_RELEASE"] (ExternalOperation_Kind o)
  || is_some (ExternalOperation_DevRestoration o) || is_some (ExternalOperation_DevRestorationPlan o)
  || is_some (ExternalOperation_DevRestorationConfirmation o) || is_some (ExternalOperation_DevRestorationVerification o)
  || is_some (ExternalOperation_DevRestorationRelease o)
  || negb (bool_decide (ExternalOperation_DevRestorationAvailability o = [])).

(** The last link of the chain, [validRestorationSuccessorEvidence], belongs
    to the restoration subsystem. *)
Class RestorationEvidence := {
  validRestorationSuccessorEvidence :
    State -> ExternalOperation -> ExternalOperation -> ExternalOperation -> ExternalOperation -> ExternalOperation -> bool;
}.

(** [find] of [ValidRestorationRelease]: the operation with the ID when it is unique. *)
Definition find_unique (st : State) (id : string) : option ExternalOperation :=
  match List.filter (has_id id) (State_Operations st) with
  | [o] => Some o
  | _ => None
  end.

Section release.
Context `{Hashing, RestorationEvidence}.

Definition frozen_plan (p : DevRestorationPlan) : DevRestorationPlan :=
  p <| DevRestorationPlan_Hash := "" |>
    <| DevRestorationPlan_Groups ::= map (fun g =>
         g <| DevRestorationGroup_Result := [] |> <| DevRestorationGroup_MergedAt := None |>) |>.

(** The receipt itself. *)
Definition release_receipt (receipt hold : ExternalOperation) (p : DevRestorationRelease) : bool :=
  is_some (ExternalOperation_DevReservation hold)
  && negb (ExternalOperation_ReservationQuarantined hold) && negb (ExternalOperation_ReservationQuarantined receipt)
  && (ExternalOperation_Kind receipt == "DEV_RESTORATION_RELEASE") && (ExternalOperation_Status receipt == "SUCCEEDED")
  && (ExternalOperation_Phase receipt == "RELEASED") && (ProductID receipt == ProductID hold)
  && (ExternalOperation_EnvironmentID receipt == ExternalOperation_EnvironmentID hold)
  && (ExternalOperation_RequestedBy receipt == ExternalOperation_RequestedBy hold)
  && (DevRestorationRelease_ReservationOperationID p == ID hold)
  && (DevRestorationRelease_ReservationHash p == Fingerprint (ExternalOperation_DevReservation hold))
  && (DevRestorationRelease_Hash p != "").
Definition release_tokens (receipt : ExternalOperation) (p : DevRestorationRelease) : bool :=
  (DevRestorationRelease_Hash p == Fingerprint (p <| DevRestorationRelease_Hash := "" |>))
  && (DevRestorationRequest_RequestKey (DevRestorationRelease_Request p) == ExternalOperation_RequestKey receipt)
  && (DevRestorationRequest_ExpectedSelection (DevRestorationRelease_Request p)
        == Some (DevRestorationRelease_RecoverySelection p))
  && (DevRestorationRelease_RecoveryEpoch p == ExternalOperation_ReservationEpoch receipt)
  && (DevRestorationRelease_ReleasedEpoch p == wrap_uint64 (DevRestorationRelease_RecoveryEpoch p + 1))
  && (DevRestorationRelease_ReleasedEpoch p != 0%Z)
  && (EnvironmentSelection_Generation (DevRestorationRelease_ReleasedSelection p)
        == wrap_uint64 (EnvironmentSelection_Generation (DevRestorationRelease_RecoverySelection p) + 1))
  && (EnvironmentSelection_Generation (DevRestorationRelease_ReleasedSelection p) != 0%Z)
  && (EnvironmentSelection_CompositionID (DevRestorationRelease_ReleasedSelection p)
        == EnvironmentSelection_CompositionID (DevRestorationRelease_RecoverySelection p))
  && (EnvironmentSelection_OperationID (DevRestorationRelease_ReleasedSelection p)
        == EnvironmentSelection_OperationID (DevRestorationRelease_RecoverySelection p))
  && (ExternalOperation_RequestHash receipt
        == Fingerprint ("release_candidate_dev_after_restoration", ProductID receipt,
                        ExternalOperation_RequestedBy receipt, DevRestorationRelease_Request p)).
Definition release_member (hold : ExternalOperation) (p : DevRestorationRelease) (o : ExternalOperation) : bool :=
  negb (ExternalOperation_ReservationQuarantined o) && (ProductID o == ProductID hold)
  && (ExternalOperation_EnvironmentID o == ExternalOperation_EnvironmentID hold)
  && (ExternalOperation_RequestedBy o == ExternalOperation_RequestedBy hold)
  && (ExternalOperation_ReservationEpoch o == DevRestorationRelease_RecoveryEpoch p)
  && (ExternalOperation_Status o == "SUCCEEDED").
Definition release_recovery (receipt hold recovery : ExternalOperation) (p : DevRestorationRelease)
    (r : DevRestorationProof) (plan : DevRestorationPlan) : bool :=
  (ExternalOperation_Kind recovery == "DEV_CANDIDATE_RESTORATION") && (ExternalOperation_ParentID recovery == ID hold)
  && (ExternalOperation_Phase recovery == "GITOPS_APPLIED")
  && (DevRestorationProof_ReservationOperationID r == ID hold)
  && (DevRestorationProof_ReservationHash r == DevRestorationRelease_ReservationHash p)
  && (DevRestorationProof_SnapshotHash r == DevRestorationRelease_RestorationHash p)
  && (DevRestorationProof_SnapshotHash r == Fingerprint (r <| DevRestorationProof_SnapshotHash := "" |>))
  && (DevRestorationProof_Epoch r == DevRestorationRelease_RecoveryEpoch p)
  && (DevRestorationProof_Selection r == DevRestorationRelease_RecoverySelection p)
  && (DevRestorationProof_Generation r != 0%Z)
  && (DevRestorationPlan_Hash plan == DevRestorationRelease_PlanHash p)
  && (DevRestorationRelease_PlanHash p == Fingerprint (frozen_plan plan))
  && (ExternalOperation_ParentID receipt == ID recovery).
Definition release_confirmation (recovery confirmation : ExternalOperation) (p : DevRestorationRelease)
    (plan : DevRestorationPlan) (c : DevRestorationConfirmation) (result : DevRuntimeResult) : bool :=
  (ExternalOperation_Kind confirmation == "DEV_RESTORATION_CONFIRMATION")
  && (ExternalOperation_ParentID confirmation == ID recovery)
  && (ExternalOperation_Phase confirmation == "ATTRIBUTED_CONTROL_CONFIRMATION")
  && (DevRestorationConfirmation_TrustGrade c == "ATTRIBUTED_CONTROL_CONFIRMATION")
  && (DevRestorationConfirmation_Hash c == DevRestorationRelease_ConfirmationHash p)
  && (DevRestorationConfirmation_Hash c == Fingerprint (c <| DevRestorationConfirmation_Hash := "" |>))
  && (DevRestorationConfirmation_RestorationHash c == DevRestorationRelease_RestorationHash p)
  && (DevRestorationPlan_Hash (DevRestorationConfirmation_Plan c) == DevRestorationRelease_PlanHash p)
  && forallb (fun g =>
       match DevRestorationGroup_Batch g with
       | None => true
       | Some _ =>
         match DevRestorationGroup_MergedAt g with
         | None => false
         | Some t => After t (DevRestorationConfirmation_ConfirmedAt c) && negb (After t (DevRuntimeResult_ObservedAt result))
         end
       end) (DevRestorationPlan_Groups plan).
Definition release_verification (receipt recovery confirmation verification : ExternalOperation)
    (p : DevRestorationRelease) (v : DevRestorationVerification) (result : DevRuntimeResult) : bool :=
  (ExternalOperation_Kind verification == "DEV_RESTORATION_VERIFICATION")
  && (ExternalOperation_ParentID verification == ID recovery)
  && (ExternalOperation_Phase verification == "RESTORATION_VERIFIED")
  && (DevRestorationVerification_Generation v != 0%Z)
  && (DevRestorationVerification_Hash v == DevRestorationRelease_VerificationHash p)
  && (DevRestorationVerification_Hash v == Fingerprint (v <| DevRestorationVerification_Hash := "" |>))
  && (DevRestorationVerification_RestorationHash v == DevRestorationRelease_RestorationHash p)
  && (DevRestorationVerification_PlanHash v == DevRestorationRelease_PlanHash p)
  && (DevRestorationVerification_ConfirmationID v == ID confirmation)
  && (DevRestorationVerification_ConfirmationHash v == DevRestorationRelease_ConfirmationHash p)
  && (DevRestorationVerification_SettlementHash v != "")
  && (DevRestorationVerification_SettlementHash v == DevRestorationRelease_SettlementHash p)
  && (DevRuntimeResult_Outcome result == "VERIFIED")
  && (DevRuntimeResult_Hash result == DevRestorationRelease_ResultHash p)
  && (DevRestorationRelease_ResultHash p == Fingerprint (result <| DevRuntimeResult_Hash := "" |>))
  && match ExternalOperation_FinishedAt receipt with
     | None => false
     | Some f => negb (After (DevRuntimeResult_ObservedAt result) f)
                 && negb (5 * minute <? f - DevRuntimeResult_ObservedAt result)%Z
     end.
(** No later restoration or verification supersedes the chain. *)
Definition release_newest (hold recovery verification : ExternalOperation) (r : DevRestorationProof)
    (v : DevRestorationVerification) (o : ExternalOperation) : bool :=
  negb ((ExternalOperation_Kind o == "DEV_CANDIDATE_RESTORATION") && (ExternalOperation_ParentID o == ID hold)
        && match ExternalOperation_DevRestoration o with
           | None => true
           | Some r' => (DevRestorationProof_Generation r <=? DevRestorationProof_Generation r')%Z && (ID o != ID recovery)
           end)
  && negb ((ExternalOperation_Kind o == "DEV_RESTORATION_VERIFICATION") && (ExternalOperation_ParentID o == ID recovery)
        && match ExternalOperation_DevRestorationVerification o with
           | None => true
           | Some v' => (DevRestorationVerification_Generation v <=? DevRestorationVerification_Generation v')%Z
                        && (ID o != ID verification)
           end).
Definition ValidRestorationRelease (st : State) (receipt hold : ExternalOperation) : bool :=
  if nativeQuarantined st (ProductID hold) then false
  else match ExternalOperation_DevRestorationRelease receipt with
  | None => false
  | Some p =>
    if negb (release_receipt receipt hold p && release_tokens receipt p) then false
    else
    match find_unique st (DevRestorationRequest_RestorationOperationID (DevRestorationRelease_Request p)),
          find_unique st (DevRestorationRelease_ConfirmationID p),
          find_unique st (DevRestorationRequest_RestorationVerificationOperationID (DevRestorationRelease_Request p)) with
    | Some recovery, Some confirmation, Some verification =>
      match ExternalOperation_DevRestoration recovery, ExternalOperation_DevRestorationPlan recovery,
            ExternalOperation_DevRestorationConfirmation confirmation,
            ExternalOperation_DevRestorationVerification verification,
            ExternalOperation_DevRuntimeResult verification with
      | Some r, Some plan, Some c, Some v, Some result =>
        forallb (release_member hold p) [recovery; confirmation; verification]
        && release_recovery receipt hold recovery p r plan
        && release_confirmation recovery confirmation p plan c result
        && release_verification receipt recovery confirmation verification p v result
        && forallb (release_newest hold recovery verification r v) (State_Operations st)
        && validRestorationSuccessorEvidence st receipt hold recovery confirmation verification
      | _, _, _, _, _ => false
      end
    | _, _, _ => false
    end
  end.

(** ** The active reservation — application/dev_reservation.go *)
Definition releases (receipt hold : ExternalOperation) : bool :=
  (ExternalOperation_Kind receipt == "DEV_RESERVATION_RELEASE") && (ExternalOperation_Status receipt == "SUCCEEDED")
  && (ExternalOperation_Phase receipt == "RELEASED") && (ProductID receipt == ProductID hold)
  && (ExternalOperation_EnvironmentID receipt == ExternalOperation_EnvironmentID hold)
  && (ExternalOperation_RequestedBy receipt == ExternalOperation_RequestedBy hold)
  && match ExternalOperation_DevReservation receipt, ExternalOperation_DevReservation hold with
     | Some p, Some h =>
       let request := DevReservationProof_Request p in
       (DevReservationProof_ReservationOperationID p == ID hold)
       && (DevReservationRequest_ReservationOperationID request == ID hold)
       && (DevReservationRequest_RequestKey request == ExternalOperation_RequestKey receipt)
       && (ExternalOperation_RequestHash receipt
             == Fingerprint ("release_candidate_dev", ProductID receipt, ExternalOperation_RequestedBy receipt, request))
       && (DevReservationRequest_ExpectedSelection request == Some (DevReservationProof_ReservedSelection h))
       && (ExternalOperation_ReservationEpoch receipt == DevReservationProof_Epoch h)
       && (p <| DevReservationProof_Request := DevReservationProof_Request h |>
             <| DevReservationProof_ReservationOperationID := "" |> == h)
     | _, _ => false
     end.
Definition released (st : State) (hold : ExternalOperation) : bool :=
  existsb (fun receipt => ValidRestorationRelease st receipt hold) (State_Operations st)
  || existsb (fun receipt => releases receipt hold) (State_Operations st).
Definition holds (st : State) (environmentID : string) (o : ExternalOperation) : bool :=
  (ExternalOperation_Kind o == "DEV_RESERVATION") && (ExternalOperation_EnvironmentID o == environmentID)
  && negb (released st o).
Definition activeDevReservation (st : State) (environmentID : string) : option ExternalOperation :=
  find_first (holds st environmentID) (State_Operations st).
Definition reservationFree (st : State) (environmentID : string) : res unit :=
  match activeDevReservation st environmentID with
  | Some hold =>
    invalid "environment has candidate Dev reservation %s; explicit owner release or reconciliation required" [ID hold]
  | None => Ok ()
  end.

(** flow_guard.go [selectionAllowed]; the clock is read for each operation. *)
Fixpoint existsb_at {A} (p : nat -> A -> bool) (n : nat) (l : list A) : bool :=
  match l with
  | [] => false
  | x :: l => p n x || existsb_at p (S n) l
  end.
Definition write_in_flight `{World} (environmentID : string) (n : nat) (op : ExternalOperation) : bool :=
  (ExternalOperation_EnvironmentID op == environmentID) && (ExternalOperation_Phase op == "APPLY_UNCERTAIN")
  && After (ExternalOperation_LeaseUntil op) (now "selectionAllowed" n)
  && negb (terminalOperation (ExternalOperation_Status op)).
Definition selectionAllowed `{World} (st : State) (environmentID : string) : res unit :=
  _ ← reservationFree st environmentID;
  reject_if (existsb_at (write_in_flight environmentID) 0 (State_Operations st))
    (invalid "GitOps write in flight; retry composition selection after operation step completes" []).

(** [reservationCommandAllowed]: the environment a command would move. *)
Definition reserved_target (st : State) (c : Command) : option string :=
  let envID := data_string (Command_Data c) "environment_id" in
  let action := Command_Action c in
  if contains ["select_composition"; "reconcile_composition"; "promote_release_candidate"] action then
    Some match compositionByID st (Command_ID c), operationByID st (Command_ID c) with
         | Some comp, _ => Composition_EnvironmentID comp
         | None, Some op => ExternalOperation_EnvironmentID op
         | None, None => envID
         end
  else if action == "update_environment" then Some (Command_ID c)
  else if contains ["configure_environment"; "assemble_environment"; "prepare_release_candidate"; "create_hotfix"] action
  then Some envID
  else None.
Definition reservationCommandAllowed (st : State) (c : Command) : res unit :=
  if Command_Action c == "delete_product" then
    each (fun e => if ProductID e == Command_ProductID c then reservationFree st (ID e) else Ok ()) (State_Environments st)
  else match reserved_target st c with
       | Some e => reservationFree st e
       | None => Ok ()
       end.
End release.

(** ** Reserving and releasing — application/dev_reservation.go *)
#[export] Instance fields_EnvironmentSelection `{Runtime} : Fields EnvironmentSelection :=
  [
    field "composition_id" EnvironmentSelection_CompositionID;
    field "operation_id" EnvironmentSelection_OperationID;
    field_with "generation" EnvironmentSelection_Generation decode_uint64
  ].
#[export] Instance fields_DevReservationRequest `{Runtime} : Fields DevReservationRequest :=
  [
    field "candidate_operation_id" DevReservationRequest_CandidateOperationID;
    field "environment_id" DevReservationRequest_EnvironmentID;
    field "reservation_operation_id" DevReservationRequest_ReservationOperationID;
    field "request_key" DevReservationRequest_RequestKey;
    field "expected_selection" DevReservationRequest_ExpectedSelection
  ].

Definition devActivationKind : string := "DEV_CANDIDATE_DEPLOY".
Definition devBaselineKind : string := "DEV_CANDIDATE_BASELINE_CAPTURE".
Definition devRuntimeKind : string := "DEV_CANDIDATE_RUNTIME_VERIFY".

(** main_candidate.go: the operator's authority over a candidate, and the
    provider observation of its immutable sources. *)
Class MainCandidates := {
  mainCandidateAllowed : State -> ExternalOperation -> res unit;
  observeMainCandidate : ExternalOperation -> res unit;
}.

Section reservation.
Context `{Hashing, RestorationEvidence, MainCandidates, Runtime, World}.

Definition opaque_key (s : string) : bool :=
  (16 <=? strlen s)%Z && (strlen s <=? 128)%Z && (trim_space s == s)
  && negb (str_any (fun a => (byte_of a <? 32)%nat || (byte_of a =? 127)%nat) s).
(** The three fields of the token must be present and not null. *)
Definition exact_selection (d : Data) : res unit :=
  match d !! "expected_selection" with
  | Some (JObj kvs) =>
    let keys : gmap string json := list_to_map (reverse kvs) in
    if (size keys =? 3)%nat then
      each (fun k => match keys !! k with
                     | None | Some JNull => invalid "expected_selection.%s required" [k]
                     | Some _ => Ok ()
                     end) ["composition_id"; "operation_id"; "generation"]
    else invalid "exact expected_selection fields required" []
  | _ => invalid "exact expected_selection fields required" []
  end.
Definition reservation_fields (action : string) : list string :=
  if action == "reserve_candidate_dev"
  then ["request_key"; "expected_selection"; "candidate_operation_id"; "environment_id"]
  else ["request_key"; "expected_selection"; "reservation_operation_id"].
Definition devReservationInput (c : Command) : res (DevReservationRequest * string) :=
  _ ← reject_if (blank (Command_Actor c) || (Command_ProductID c == "") || (Command_ID c != "")
        || (Command_FeatureID c != "") || (Command_IntegrationID c != "") || (Command_GateID c != "")
        || (Command_CheckID c != "") || (Command_ResultID c != ""))
        (invalid "reservation requires actor and product scope only" []);
  _ ← each (fun kv => reject_if (negb (contains (reservation_fields (Command_Action c)) kv.1))
        (invalid "unknown reservation field %s" [kv.1])) (sorted_entries (Command_Data c));
  input ← decode (Command_Data c) (zero : DevReservationRequest);
  _ ← reject_if (negb (opaque_key (DevReservationRequest_RequestKey input)))
        (invalid "request_key must be 16..128 opaque bytes without control characters" []);
  _ ← reject_if (negb (is_some (DevReservationRequest_ExpectedSelection input)))
        (invalid "exact expected_selection required" []);
  _ ← exact_selection (Command_Data c);
  _ ← reject_if (((Command_Action c == "reserve_candidate_dev")
          && ((DevReservationRequest_CandidateOperationID input == "") || (DevReservationRequest_EnvironmentID input == "")))
        || ((Command_Action c == "release_candidate_dev") && (DevReservationRequest_ReservationOperationID input == "")))
        (invalid "exact candidate/environment or reservation identity required" []);
  Ok (input, Fingerprint (Command_Action c, Command_ProductID c, Command_Actor c, input)).

(** A request key that is already bound: the receipt, or a refusal. *)
Fixpoint devReservationReplay (ops : list ExternalOperation) (c : Command) (key hash : string)
    : res (option ExternalOperation) :=
  match ops with
  | [] => Ok None
  | op :: ops =>
    let same := ExternalOperation_RequestKey op == key in
    let mine := (ProductID op == Command_ProductID c) && same in
    if mine && IsRestorationOperation op then invalid "request_key already binds restoration receipt" []
    else if (ExternalOperation_Kind op == devBaselineKind) && same
    then invalid "request_key already binds a baseline capture" []
    else if (ExternalOperation_Kind op == devRuntimeKind) && same
    then invalid "request_key already binds a runtime verification" []
    else if mine && contains ["DEV_RESERVATION"; "DEV_RESERVATION_RELEASE"; devActivationKind] (ExternalOperation_Kind op)
    then if (ExternalOperation_RequestHash op != hash) || (ExternalOperation_RequestedBy op != Command_Actor c)
         then invalid "request_key already binds another reservation payload or actor" []
         else Ok (Some op)
    else devReservationReplay ops c key hash
  end.

Definition unresolved_effect (st : State) (environmentID : string) (op : ExternalOperation) : res unit :=
  if ExternalOperation_EnvironmentID op != environmentID then Ok ()
  else
    _ ← reject_if ((ExternalOperation_ReservationMutationIntent op != "")
          || (ExternalOperation_Phase op == "APPLY_UNCERTAIN")
          || match ExternalOperation_GitOpsPR op with
             | Some pr => negb (GitOpsPullRequest_Merged pr) && negb (equal_fold (GitOpsPullRequest_State pr) "closed")
             | None => false
             end) (invalid "unresolved GitOps effect requires reconciliation before reservation" []);
    _ ← reject_if ((ExternalOperation_Phase op == "BUILD_LOOKUP")
          && match ExternalOperation_Run op with Some r => RunResult_Status r != "completed" | None => true end)
          (invalid "unresolved build dispatch requires reconciliation before reservation" []);
    reject_if match ExternalOperation_Native op with
              | Some n =>
                (NativeDelivery_PublicationJobID n != "")
                && match workerJob st (NativeDelivery_PublicationJobID n) with
                   | Some j => contains ["RUNNING"; "RECONCILIATION_REQUIRED"] (WorkerJob_Status j)
                   | None => false
                   end
              | None => false
              end (invalid "publication in flight requires reconciliation before reservation" []).
Definition unresolvedReservationEffects (st : State) (environmentID : string) : res unit :=
  each (unresolved_effect st environmentID) (State_Operations st).

Definition update_environment_at (st : State) (id : string) (e : Environment) : State :=
  st <| State_Environments ::= update_first (has_id id) (fun _ => e) |>.

(** *** reserve *)
Definition baseline_exact (st : State) (product : string) (e : Environment) (b : Composition) : bool :=
  (ProductID b == product) && (Composition_EnvironmentID b == ID e)
  && (Environment_Cluster (Composition_EnvironmentSnapshot b) == Environment_Cluster e)
  && (Environment_Namespace (Composition_EnvironmentSnapshot b) == Environment_Namespace e).
Definition baseline_operation (st : State) (product : string) (e : Environment) (b : Composition) : res unit :=
  if Environment_DesiredOperationID e == "" then Ok ()
  else match operationByID st (Environment_DesiredOperationID e) with
       | Some op =>
         reject_if (negb ((ProductID op == product) && (ExternalOperation_EnvironmentID op == ID e)
             && match ExternalOperation_CompositionSnapshot op with Some s => ID s == ID b | None => false end))
           (invalid "baseline operation identity mismatch" [])
       | None => invalid "baseline operation identity mismatch" []
       end.
Definition candidate_child (st : State) (candidate : ExternalOperation) (cid : string) : res unit :=
  match operationByID st cid with
  | Some child =>
    reject_if (negb ((ExternalOperation_ParentID child == ID candidate) && (ExternalOperation_Status child == "SUCCEEDED")
        && (ExternalOperation_DeploymentState child == "ARTIFACT_READY") && ExternalOperation_BuildOnly child
        && match ExternalOperation_Snapshot child with
           | Some s => is_some (DeliverySnapshot_MainCandidate s)
           | None => false
           end)) (invalid "completed native build-only children required" [])
  | None => invalid "completed native build-only children required" []
  end.
Definition reservation_target (st : State) (product : string) (e : Environment) (b : Composition)
    (targets : list EnvironmentBinding) (snap : DeliverySnapshot) : res (list EnvironmentBinding) :=
  let app := ID (DeliverySnapshot_Application snap) in
  _ ← reject_if (negb (existsb (has_id app) (Composition_ApplicationSnapshots b)))
        (invalid "candidate component absent from shared baseline" []);
  match environmentBinding st (ID e) app with
  | None => invalid "all candidate components require PR-only DEV/TEST target" []
  | Some t =>
    _ ← reject_if (negb ((ProductID t == product) && EnvironmentBinding_AllowDeploy t
            && (EnvironmentBinding_GitOpsMode t == "PR") && contains ["DEV"; "TEST"] (EnvironmentBinding_Purpose t)))
          (invalid "all candidate components require PR-only DEV/TEST target" []);
    conn ← scopedConnection st (EnvironmentBinding_ConnectionID t) product;
    match repositoryBinding st (EnvironmentBinding_RepositoryID t) with
    | None => invalid "Dev target repository authority unavailable" []
    | Some r =>
      _ ← reject_if (negb ((ProductID r == product) && (RepositoryBinding_Role r == "GITOPS")
              && (RepositoryBinding_ConnectionID r == ID conn)))
            (invalid "Dev target repository authority unavailable" []);
      Ok (targets ++ [t])
    end
  end.
Definition reserved_environment (e : Environment) : Environment :=
  e <| Environment_ReservationEpoch ::= fun n => wrap_uint64 (n + 1) |>
    <| Environment_SelectionGeneration ::= fun n => wrap_uint64 (n + 1) |>.
Definition reservation_operation (c : Command) (m : Meta) (input : DevReservationRequest) (hash kind phase detail : string)
    (e : Environment) (proof : DevReservationProof) : ExternalOperation :=
  zero <| ExternalOperation_Meta := m |> <| ExternalOperation_Kind := kind |>
       <| ExternalOperation_RequestedBy := Command_Actor c |> <| ExternalOperation_EnvironmentID := ID e |>
       <| ExternalOperation_RequestKey := DevReservationRequest_RequestKey input |> <| ExternalOperation_RequestHash := hash |>
       <| ExternalOperation_DevReservation := Some proof |>
       <| ExternalOperation_ReservationEpoch := Environment_ReservationEpoch e |>
       <| ExternalOperation_Status := "SUCCEEDED" |> <| ExternalOperation_Phase := phase |>
       <| ExternalOperation_CurrentStep := phase |> <| ExternalOperation_Detail := detail |>
       <| ExternalOperation_FinishedAt := Some (Meta_CreatedAt m) |>.
Definition successful_candidate (c : Command) (o : ExternalOperation) : bool :=
  (ProductID o == Command_ProductID c) && (ExternalOperation_Kind o == "RELEASE_CANDIDATE")
  && (ExternalOperation_Status o == "SUCCEEDED") && (ExternalOperation_DeploymentState o == "READY_FOR_VERIFICATION").

Definition reserve (st : State) (c : Command) (m : Meta) (input : DevReservationRequest) (hash : string)
    : res (State * ExternalOperation) :=
  match operationByID st (DevReservationRequest_CandidateOperationID input) with
  | None => invalid "successful native main candidate required" []
  | Some candidate =>
    match (if successful_candidate c candidate then ExternalOperation_MainCandidate candidate else None) with
    | None => invalid "successful native main candidate required" []
    | Some proof =>
      _ ← mainCandidateAllowed st candidate;
      match environmentByID st (DevReservationRequest_EnvironmentID input) with
      | None => invalid "reservation target outside product" []
      | Some e =>
        _ ← reject_if (ProductID e != Command_ProductID c) (invalid "reservation target outside product" []);
        _ ← checkSelection (Some e) (DevReservationRequest_ExpectedSelection input);
        _ ← reservationFree st (ID e);
        _ ← unresolvedReservationEffects st (ID e);
        match compositionByID st (Environment_DesiredCompositionID e) with
        | None => invalid "exact current baseline and target required" []
        | Some b =>
          _ ← reject_if (negb (baseline_exact st (Command_ProductID c) e b))
                (invalid "exact current baseline and target required" []);
          _ ← baseline_operation st (Command_ProductID c) e b;
          _ ← reject_if (negb (length (ExternalOperation_ChildIDs candidate)
                               =? length (ExternalOperation_PreparedDeployments candidate))%nat)
                (invalid "completed candidate components required" []);
          _ ← each (candidate_child st candidate) (ExternalOperation_ChildIDs candidate);
          targets ← foldM (reservation_target st (Command_ProductID c) e b) [] (ExternalOperation_PreparedDeployments candidate);
          _ ← reject_if ((Environment_ReservationEpoch e =? max_uint64)%Z || (Environment_SelectionGeneration e =? max_uint64)%Z)
                (invalid "reservation epoch or selection generation exhausted" []);
          let e' := reserved_environment e in
          let p := mkDevReservationProof input (ID candidate) (Fingerprint (Some proof)) proof (selectionToken e)
                     (selectionToken e') (Environment_ReservationEpoch e') e targets "" in
          Ok (update_environment_at st (ID e) e',
              reservation_operation c m input hash "DEV_RESERVATION" "RESERVED"
                "Reservation accepted; no candidate deployed or verified" e' p)
        end
      end
    end
  end.

(** *** release *)
Definition activated (hold activation : ExternalOperation) : bool :=
  match ExternalOperation_DevActivation activation with
  | Some a => DevActivationProof_ReservationOperationID a == ID hold
  | None => false
  end
  || ((ExternalOperation_Kind activation == devActivationKind)
      && (ExternalOperation_EnvironmentID activation == ExternalOperation_EnvironmentID hold)
      && (ExternalOperation_ReservationEpoch activation == ExternalOperation_ReservationEpoch hold)).
Definition reservation_kept (e : Environment) (p : DevReservationProof) : bool :=
  (Environment_ReservationEpoch e == DevReservationProof_Epoch p)
  && (selectionToken e == DevReservationProof_ReservedSelection p)
  && (Environment_Cluster e == Environment_Cluster (DevReservationProof_Environment p))
  && (Environment_Namespace e == Environment_Namespace (DevReservationProof_Environment p)).
Definition release (st : State) (c : Command) (m : Meta) (input : DevReservationRequest) (hash : string)
    : res (State * ExternalOperation) :=
  match operationByID st (DevReservationRequest_ReservationOperationID input) with
  | None => invalid "same attributed reservation owner required" []
  | Some hold =>
    match ExternalOperation_DevReservation hold with
    | None => invalid "same attributed reservation owner required" []
    | Some proof =>
      _ ← reject_if (negb ((ProductID hold == Command_ProductID c) && (ExternalOperation_Kind hold == "DEV_RESERVATION")
              && (ExternalOperation_RequestedBy hold == Command_Actor c)))
            (invalid "same attributed reservation owner required" []);
      _ ← reject_if (existsb (activated hold) (State_Operations st))
            (invalid "candidate activation admitted; verified restoration required before release" []);
      match environmentByID st (ExternalOperation_EnvironmentID hold) with
      | None => invalid "reservation environment unavailable" []
      | Some e =>
        _ ← reject_if (ProductID e != Command_ProductID c) (invalid "reservation environment unavailable" []);
        _ ← checkSelection (Some e) (DevReservationRequest_ExpectedSelection input);
        match activeDevReservation st (ID e) with
        | None => invalid "reservation requires explicit reconciliation; release unavailable" []
        | Some active =>
          _ ← reject_if ((ID active != ID hold) || ExternalOperation_ReservationQuarantined hold
                || nativeQuarantined st (Command_ProductID c) || (ExternalOperation_Status hold != "SUCCEEDED")
                || (ExternalOperation_Phase hold != "RESERVED"))
                (invalid "reservation requires explicit reconciliation; release unavailable" []);
          _ ← reject_if (negb (reservation_kept e proof)) (invalid "reservation identity or preserved baseline changed" []);
          _ ← unresolvedReservationEffects st (ID e);
          e' ← advanceSelection e;
          let copied := proof <| DevReservationProof_Request := input |>
                              <| DevReservationProof_ReservationOperationID := ID hold |> in
          Ok (update_environment_at st (ID e) e',
              reservation_operation c m input hash "DEV_RESERVATION_RELEASE" "RELEASED"
                "Reservation released; baseline intent preserved, old execution authority remains fenced" e' copied)
        end
      end
    end
  end.

(** The store transaction of [executeDevReservation]. *)
Definition record_reservation (st : State) (c : Command) (m : Meta) (op : ExternalOperation) : State :=
  st <| State_Operations ::= fun l => l ++ [op] |>
     <| State_Events ::= fun l => l ++ [mkEvent (fresh "executeDevReservation" 0) (Command_Action c) (Command_Actor c)
          (Meta_CreatedAt m) (ID op) (Command_ProductID c) "" c] |>.
Definition dev_reservation_update (st : State) (c : Command) (input : DevReservationRequest) (hash : string)
    : res (State * ExternalOperation) :=
  old ← devReservationReplay (State_Operations st) c (DevReservationRequest_RequestKey input) hash;
  match old with
  | Some op => Ok (st, op)
  | None =>
    let m := meta c in
    _ ← reject_if (negb (productExists st (Command_ProductID c))) (missing "product" (Command_ProductID c));
    '(st, op) ← (if Command_Action c == "reserve_candidate_dev" then reserve st c m input hash
                 else release st c m input hash);
    Ok (record_reservation st c m op, op)
  end.

(** The read before the transaction: a replay, and the observation of the
    candidate outside the store. *)
Definition observe_candidate (st : State) (c : Command) (input : DevReservationRequest) : res unit :=
  if Command_Action c != "reserve_candidate_dev" then Ok ()
  else match operationByID st (DevReservationRequest_CandidateOperationID input) with
       | None => invalid "successful native main candidate required" []
       | Some candidate =>
         _ ← reject_if (negb ((ProductID candidate == Command_ProductID c) && (ExternalOperation_Status candidate == "SUCCEEDED")
                 && (ExternalOperation_DeploymentState candidate == "READY_FOR_VERIFICATION")))
               (invalid "successful same-product main candidate required" []);
         _ ← mainCandidateAllowed st candidate;
         observeMainCandidate candidate
       end.
(** [read] is the state the first read returns, [st] the one the transaction sees. *)
Definition executeDevReservation (read st : State) (c : Command) : res (State * ExternalOperation) :=
  '(input, hash) ← devReservationInput c;
  old ← devReservationReplay (State_Operations read) c (DevReservationRequest_RequestKey input) hash;
  match old with
  | Some op => Ok (st, op)
  | None =>
    _ ← observe_candidate read c input;
    dev_reservation_update st c input hash
  end.
End reservation.

(** * Properties *)
Section properties.
Context `{Hashing, RestorationEvidence, MainCandidates, Runtime, World}.

Lemma checkSelection_Ok e s : checkSelection (Some e) s = Ok () <-> s = Some (selectionToken e).
Proof.
  destruct s as [s|]; cbn; [|split; discriminate].
  rewrite reject_if_invalid, negb_false_iff, bool_decide_eq_true. split; congruence.
Qed.

(** A stored operation no receipt can name. *)
Definition Unreferenced (st : State) (id : string) : Prop :=
  forall o, o ∈ State_Operations st ->
    (forall p, ExternalOperation_DevReservation o = Some p -> DevReservationProof_ReservationOperationID p <> id)
    /\ (forall p, ExternalOperation_DevRestorationRelease o = Some p -> DevRestorationRelease_ReservationOperationID p <> id).

Lemma ValidRestorationRelease_names st r h :
  ValidRestorationRelease st r h = true ->
  exists p, ExternalOperation_DevRestorationRelease r = Some p /\ DevRestorationRelease_ReservationOperationID p = ID h.
Proof.
  unfold ValidRestorationRelease. destruct (nativeQuarantined _ _); [discriminate|].
  destruct (ExternalOperation_DevRestorationRelease r) as [p|]; [|discriminate].
  destruct (release_receipt r h p) eqn:E; [|discriminate]. intros _.
  exists p; split; [reflexivity|]. unfold release_receipt in E. to_prop. assumption.
Qed.
Lemma releases_names r h :
  releases r h = true ->
  exists p, ExternalOperation_DevReservation r = Some p /\ DevReservationProof_ReservationOperationID p = ID h.
Proof.
  unfold releases. intros [_ E]%andb_true_iff.
  destruct (ExternalOperation_DevReservation r) as [p|]; [|discriminate].
  destruct (ExternalOperation_DevReservation h); [|discriminate].
  exists p; split; [reflexivity|]. to_prop. assumption.
Qed.
Lemma unreferenced_not_released st st' h :
  Unreferenced st (ID h) ->
  (forall o, o ∈ State_Operations st' -> o ∈ State_Operations st \/
     (ExternalOperation_DevRestorationRelease o = None
      /\ forall p, ExternalOperation_DevReservation o = Some p -> DevReservationProof_ReservationOperationID p <> ID h)) ->
  released st' h = false.
Proof.
  intros Hun Hops. unfold released. apply orb_false_iff; split; apply existsb_none; intros o Ho.
  - destruct (ValidRestorationRelease st' o h) eqn:E; [|reflexivity].
    apply ValidRestorationRelease_names in E as (p & Hp & Hid).
    destruct (Hops o Ho) as [Hin|[Hn _]]; [|congruence]. destruct (proj2 (Hun o Hin) p Hp Hid).
  - destruct (releases o h) eqn:E; [|reflexivity].
    apply releases_names in E as (p & Hp & Hid).
    destruct (Hops o Ho) as [Hin|[_ Hn]]; [destruct (proj1 (Hun o Hin) p Hp Hid)|destruct (Hn p Hp Hid)].
Qed.

Lemma active_blocks st e h : activeDevReservation st e = Some h -> is_ok (reservationFree st e) = false.
Proof. unfold reservationFree; intros ->; reflexivity. Qed.
Lemma holds_active st e h : h ∈ State_Operations st -> holds st e h = true -> is_ok (reservationFree st e) = false.
Proof.
  intros Hin Hh. destruct (find_first_is_Some (holds st e) (State_Operations st) h Hin Hh) as [h' Hh'].
  eapply active_blocks, Hh'.
Qed.
Lemma blocked_command st c e :
  is_ok (reservationFree st e) = false -> Command_Action c <> "delete_product" -> reserved_target st c = Some e ->
  is_ok (reservationCommandAllowed st c) = false.
Proof. unfold reservationCommandAllowed. intros Hb Ha ->. rewrite bool_decide_false by exact Ha. exact Hb. Qed.

Lemma reserve_operation st c m input hash st' op :
  reserve st c m input hash = Ok (st', op) ->
  State_Operations st' = State_Operations st /\ ID op = Meta_ID m
  /\ ExternalOperation_Kind op = "DEV_RESERVATION"
  /\ ExternalOperation_DevRestorationRelease op = None
  /\ (forall p, ExternalOperation_DevReservation op = Some p -> DevReservationProof_ReservationOperationID p = "")
  /\ IsRestorationOperation op = false
  /\ ProductID op = Meta_ProductID m
  /\ ExternalOperation_RequestKey op = DevReservationRequest_RequestKey input
  /\ ExternalOperation_RequestHash op = hash /\ ExternalOperation_RequestedBy op = Command_Actor c.
Proof.
  unfold reserve. intros Hr.
  destruct (operationByID _ _) as [candidate|]; [|discriminate].
  destruct (if successful_candidate _ _ then _ else _) as [proof|]; [|discriminate].
  step_guards Hr. destruct (environmentByID _ _) as [e|]; [|discriminate].
  step_guards Hr. destruct (compositionByID _ _) as [b|]; [|discriminate].
  step_guards Hr. cbv zeta in Hr. injection Hr as <- <-.
  repeat split; try reflexivity. cbn. intros p [= <-]. reflexivity.
Qed.

Lemma release_operation st c m input hash st' op :
  release st c m input hash = Ok (st', op) ->
  State_Operations st' = State_Operations st
  /\ exists hold proof e e',
       operationByID st (DevReservationRequest_ReservationOperationID input) = Some hold
       /\ ExternalOperation_DevReservation hold = Some proof
       /\ ExternalOperation_RequestedBy hold = Command_Actor c /\ ProductID hold = Command_ProductID c
       /\ environmentByID st (ExternalOperation_EnvironmentID hold) = Some e
       /\ DevReservationRequest_ExpectedSelection input = Some (selectionToken e)
       /\ (forall a, activeDevReservation st (ID e) = Some a -> ID a = ID hold)
       /\ (forall a, a ∈ State_Operations st -> activated hold a = false)
       /\ reservation_kept e proof = true /\ advanceSelection e = Ok e'
       /\ op = reservation_operation c m input hash "DEV_RESERVATION_RELEASE" "RELEASED"
            "Reservation released; baseline intent preserved, old execution authority remains fenced" e'
            (proof <| DevReservationProof_Request := input |> <| DevReservationProof_ReservationOperationID := ID hold |>).
Proof.
  unfold release. intros Hr.
  destruct (operationByID _ _) as [hold|]; [|discriminate].
  destruct (ExternalOperation_DevReservation hold) as [proof|] eqn:Hproof; [|discriminate].
  step_guards Hr. destruct (environmentByID st _) as [e|] eqn:He; [|discriminate].
  step_guards Hr. destruct (activeDevReservation st (ID e)) as [a'|] eqn:Ha; [|discriminate].
  step_guards Hr. injection Hr as <- <-. split; [reflexivity|].
  match goal with Hadv : advanceSelection e = Ok ?x |- _ => exists hold, proof, e, x end.
  destruct a. rewrite checkSelection_Ok in E. rewrite existsb_none in *. to_prop.
  repeat split; auto; congruence.
Qed.

Lemma advanceSelection_Ok e e' :
  advanceSelection e = Ok e' ->
  (0 <= Environment_SelectionGeneration e < two64)%Z ->
  Environment_SelectionGeneration e' = (Environment_SelectionGeneration e + 1)%Z
  /\ Environment_ReservationEpoch e' = Environment_ReservationEpoch e /\ ID e' = ID e.
Proof.
  unfold advanceSelection. destruct (Z.eqb_spec (Environment_SelectionGeneration e) max_uint64) as [|Hne]; [discriminate|].
  intros [= <-] Hr. split; [|auto].
  change (wrap_uint64 (Environment_SelectionGeneration e + 1) = Environment_SelectionGeneration e + 1)%Z.
  apply wrap_uint64_small. unfold max_uint64, two64 in *. lia.
Qed.

Lemma advanceSelection_epoch e e' :
  advanceSelection e = Ok e' -> Environment_ReservationEpoch e' = Environment_ReservationEpoch e /\ ID e' = ID e.
Proof. unfold advanceSelection. destruct (_ =? _)%Z; [discriminate|]. intros [= <-]. auto. Qed.

Lemma devReservationReplay_app ops ops' c key hash :
  devReservationReplay ops c key hash = Ok None ->
  devReservationReplay (ops ++ ops') c key hash = devReservationReplay ops' c key hash.
Proof.
  induction ops as [|o ops IH]; cbn; [reflexivity|].
  repeat (match goal with |- context [if ?b then _ else _] => destruct b end; try discriminate). exact IH.
Qed.

(** C38 an accepted reservation fences its environment: whatever receipts the
    store holds, once [reserve_candidate_dev] succeeds every other
    reservation, selection change and command that would move the environment
    is refused. *)
Theorem reservation_fences_environment st c input hash st' op :
  dev_reservation_update st c input hash = Ok (st', op) ->
  Command_Action c = "reserve_candidate_dev" ->
  devReservationReplay (State_Operations st) c (DevReservationRequest_RequestKey input) hash = Ok None ->
  Meta_ID (meta c) <> "" -> Unreferenced st (Meta_ID (meta c)) ->
  let e := ExternalOperation_EnvironmentID op in
  is_ok (reservationFree st' e) = false
  /\ is_ok (selectionAllowed st' e) = false
  /\ (forall c', Command_Action c' <> "delete_product" -> reserved_target st' c' = Some e ->
        is_ok (reservationCommandAllowed st' c') = false)
  /\ (forall c' m i h, DevReservationRequest_EnvironmentID i = e -> is_ok (reserve st' c' m i h) = false).
Proof.
  intros Hup Ha Hnone Hid Hun e. unfold dev_reservation_update in Hup. rewrite Hnone in Hup. cbn in Hup.
  rewrite bool_decide_true in Hup by exact Ha. step_guards Hup. destruct a as [st1 op1].
  injection Hup as <- <-. destruct (reserve_operation _ _ _ _ _ _ _ E) as (Hops & Hop & Hk & Hrel & Hres & _).
  set (st' := record_reservation st1 c (meta c) op1) in *.
  assert (Hfree : is_ok (reservationFree st' e) = false).
  { apply (holds_active st' e op1); [apply elem_of_app; right; left|].
    unfold holds. rewrite Hk, bool_decide_true by reflexivity. unfold e; rewrite bool_decide_true by reflexivity.
    rewrite (unreferenced_not_released st st' op1); [reflexivity|rewrite Hop; exact Hun|].
    intros o Ho. change (o ∈ State_Operations st1 ++ [op1]) in Ho. rewrite Hops in Ho. apply elem_of_app in Ho as [Ho|Ho%list_elem_of_singleton]; [auto|].
    right; subst o; split; [exact Hrel|]. intros p Hp. rewrite (Hres p Hp), Hop. congruence. }
  assert (Hblock : forall (A : Type) (k : res A), is_ok (_ ← reservationFree st' e; k) = false).
  { intros A k. destruct (reservationFree st' e); [discriminate|reflexivity]. }
  split; [exact Hfree|]. split; [apply Hblock|]. split; [intros; eapply blocked_command; eassumption|].
  intros c' m i h Hi. destruct (reserve st' c' m i h) as [[st2 op2]|] eqn:Hr; [exfalso|reflexivity].
  unfold reserve in Hr. destruct (operationByID _ _); [|discriminate].
  destruct (if successful_candidate _ _ then _ else _); [|discriminate].
  step_guards Hr. destruct (environmentByID st' _) as [e2|] eqn:He2; [|discriminate].
  apply find_first_Some in He2 as [_ He2%has_id_true]. rewrite Hi in He2.
  step_guards Hr. rewrite He2 in *. destruct (reservationFree st' e); discriminate.
Qed.

(** Repeating an accepted reservation command is a pure read: it returns
    the same receipt and changes nothing. *)
Theorem reservation_replay_idempotent st c st' op :
  executeDevReservation st st c = Ok (st', op) ->
  executeDevReservation st' st' c = Ok (st', op).
Proof.
  unfold executeDevReservation. destruct (devReservationInput c) as [[input hash]|] eqn:Hin; [|discriminate]. cbn.
  destruct (devReservationReplay (State_Operations st) c _ hash) as [[old|]|] eqn:Hrep; cbn; [| |discriminate].
  { intros [= <- <-]. rewrite Hrep; reflexivity. }
  intros Hx. apply bind_Ok in Hx as (u & _ & Hup). unfold dev_reservation_update in Hup. rewrite Hrep in Hup. cbn in Hup.
  step_guards Hup. destruct a as [st1 op1]. injection Hup as <- <-.
  assert (Hlast : devReservationReplay (State_Operations st ++ [op1]) c (DevReservationRequest_RequestKey input) hash = Ok (Some op1)
                  /\ State_Operations st1 = State_Operations st).
  { rewrite devReservationReplay_app by exact Hrep.
    destruct (Command_Action c == "reserve_candidate_dev").
    - destruct (reserve_operation _ _ _ _ _ _ _ E) as (-> & _ & Hk & _ & _ & Hn & Hp & Hkey & Hh & Hby).
      split; [|reflexivity]. cbn. rewrite Hn, Hk, Hp, Hkey, Hh, Hby.
      unfold Meta_ID, meta. cbn [Meta_ProductID].
      rewrite !(bool_decide_true (_ = _)) by reflexivity.
      rewrite (bool_decide_true (hash = hash)), (bool_decide_true (Command_Actor c = Command_Actor c)) by reflexivity.
      reflexivity.
    - destruct (release_operation _ _ _ _ _ _ _ E) as (-> & hold & proof & e & e' & _ & _ & _ & _ & _ & _ & _ & _ & _ & _ & ->).
      split; [|reflexivity]. cbn. rewrite !bool_decide_true by reflexivity.
      rewrite (bool_decide_true (hash = hash)), (bool_decide_true (Command_Actor c = Command_Actor c)) by reflexivity.
      reflexivity. }
  destruct Hlast as [Hlast Hops].
  change (State_Operations (record_reservation st1 c (meta c) op1)) with (State_Operations st1 ++ [op1]).
  rewrite Hops, Hlast. reflexivity.
Qed.

Lemma devReservationInput_hash c input hash :
  devReservationInput c = Ok (input, hash) ->
  hash = Fingerprint (Command_Action c, Command_ProductID c, Command_Actor c, input).
Proof. unfold devReservationInput. intros Hin. step_guards Hin. inv_res. reflexivity. Qed.

Lemma release_receipt_matches c input hash hold proof e e' :
  hash = Fingerprint ("release_candidate_dev", Command_ProductID c, Command_Actor c, input) ->
  ExternalOperation_DevReservation hold = Some proof -> DevReservationProof_ReservationOperationID proof = "" ->
  DevReservationRequest_ReservationOperationID input = ID hold ->
  ExternalOperation_RequestedBy hold = Command_Actor c -> ProductID hold = Command_ProductID c ->
  ID e = ExternalOperation_EnvironmentID hold ->
  DevReservationRequest_ExpectedSelection input = Some (selectionToken e) ->
  reservation_kept e proof = true -> advanceSelection e = Ok e' ->
  forall detail, releases (reservation_operation c (meta c) input hash "DEV_RESERVATION_RELEASE" "RELEASED" detail e'
    (proof <| DevReservationProof_Request := input |> <| DevReservationProof_ReservationOperationID := ID hold |>)) hold = true.
Proof.
  intros Hhash Hp Hroot Hid Hby Hprod Henv Hsel Hkept Hadv detail.
  apply advanceSelection_epoch in Hadv as [Hepoch Hide].
  unfold reservation_kept in Hkept. to_prop.
  unfold releases. rewrite Hp. cbn.
  repeat (apply andb_true_iff; split); apply bool_decide_eq_true; cbn; try congruence.
  destruct proof; cbn in *; subst; reflexivity.
Qed.

(** A release is granted only to the actor who reserved, on the current
    selection and before any activation, and its receipt settles exactly that
    reservation: afterwards it no longer holds the environment. *)
Theorem release_settles_own_reservation st c input hash st' op :
  devReservationInput c = Ok (input, hash) ->
  dev_reservation_update st c input hash = Ok (st', op) ->
  Command_Action c = "release_candidate_dev" ->
  devReservationReplay (State_Operations st) c (DevReservationRequest_RequestKey input) hash = Ok None ->
  exists hold, operationByID st (DevReservationRequest_ReservationOperationID input) = Some hold
    /\ ExternalOperation_RequestedBy hold = Command_Actor c
    /\ (forall a, a ∈ State_Operations st -> activated hold a = false)
    /\ (forall p, ExternalOperation_DevReservation hold = Some p -> DevReservationProof_ReservationOperationID p = "" ->
          released st' hold = true).
Proof.
  intros Hin%devReservationInput_hash Hup Ha Hnone. unfold dev_reservation_update in Hup. rewrite Hnone in Hup. cbn in Hup.
  rewrite bool_decide_false in Hup by congruence. rewrite Ha in Hin. step_guards Hup. destruct a as [st1 op1].
  injection Hup as <- <-.
  destruct (release_operation _ _ _ _ _ _ _ E) as (Hops & hold & proof & e & e' & Hhold & Hproof & Hby & Hprod & Henv & Hsel & _ & Hact & Hkept & Hadv & Hop).
  exists hold. repeat split; auto. intros p Hp Hroot. rewrite Hproof in Hp. injection Hp as <-.
  unfold released. apply orb_true_iff; right. apply existsb_elem. exists op1. split.
  - apply elem_of_app; right; left.
  - subst op1. apply operationByID_Some in Hhold as [_ Hid].
    apply find_first_Some in Henv as [_ Henv%has_id_true].
    eapply release_receipt_matches; eauto.
Qed.
End properties.
