(* ===== verification/WorkerAuth.v ===== *)
(** * Worker authority

    [internal/workerconfig]: the operator's recipes and worker credentials,
    and the checks that a request principal is the holder of a credential that
    is still configured, unrevoked, unexpired and separate from every other
    secret.  SHA-256 is [Crypto]'s [hash], whose value is its hexadecimal
    form; [lookup] is the process environment at the time of the call. *)
From S2P Require Import Prelude GoText GoJson Delivery Domain Handlers DeviceAuth Reservation.
Open Scope string_scope.
Open Scope list_scope.

(** ** Configuration — config.go, publication.go, observation.go *)
Record RecipeParameter := mkRecipeParameter {
  RecipeParameter_Type : string; RecipeParameter_Enum : list string; RecipeParameter_Min : Z; RecipeParameter_Max : Z
}.
Record Recipe := mkRecipe {
  Recipe_IntelligencePaths : list string; Recipe_Check : option WorkerCheckBinding; Recipe_ID : string;
  Recipe_Revision : string; Recipe_Hash : string; Recipe_ProductID : string; Recipe_RepositoryID : string;
  Recipe_RepositoryURL : string; Recipe_Capability : string; Recipe_Trust : string;
  Recipe_Parameters : gmap string RecipeParameter; Recipe_Execution : option WorkerExecution
}.
#[export] Instance zero_Recipe : Zero Recipe := mkRecipe zero zero zero zero zero zero zero zero zero zero zero zero.
Record Credential := mkCredential {
  Credential_ID : string; Credential_Principal : string; Credential_TokenEnv : string;
  Credential_ProductIDs : list string; Credential_RepositoryIDs : list string; Credential_Capabilities : list string;
  Credential_ExpiresAt : Time; Credential_Revoked : bool
}.
#[export] Instance zero_Credential : Zero Credential := mkCredential zero zero zero zero zero zero (zero : Z) zero.
#[export] Instance Credential_eq_dec : EqDecision Credential.
Proof. solve_decision. Defined.
Record RegistryRead := mkRegistryRead {
  RegistryRead_CAFile : string; RegistryRead_UsernameEnv : string; RegistryRead_PasswordEnv : string;
  RegistryRead_BearerEnv : string; RegistryRead_FixtureLoopbackHTTP : bool
}.
#[export] Instance zero_RegistryRead : Zero RegistryRead := mkRegistryRead zero zero zero zero zero.
Record PublicationRecipe := mkPublicationRecipe {
  PublicationRecipe_ID : string; PublicationRecipe_Revision : string; PublicationRecipe_Hash : string;
  PublicationRecipe_ProductID : string; PublicationRecipe_RepositoryID : string; PublicationRecipe_ComponentID : string;
  PublicationRecipe_Profile : string; PublicationRecipe_BuildRecipeHash : string; PublicationRecipe_Origin : string;
  PublicationRecipe_Repository : string; PublicationRecipe_MaxBytes : Z; PublicationRecipe_TimeoutSeconds : Z;
  PublicationRecipe_Pull : RegistryRead
}.
Record RegistryObserveRecipe := mkRegistryObserveRecipe {
  RegistryObserveRecipe_ID : string; RegistryObserveRecipe_Revision : string; RegistryObserveRecipe_Hash : string;
  RegistryObserveRecipe_ProductID : string; RegistryObserveRecipe_RepositoryID : string;
  RegistryObserveRecipe_ComponentID : string; RegistryObserveRecipe_Origin : string;
  RegistryObserveRecipe_Repository : string; RegistryObserveRecipe_Limits : RegistryObserveLimits;
  RegistryObserveRecipe_Pull : RegistryRead
}.
(** [workerconfig.Config] and [workerconfig.Authority] *)
Record WorkerConfig := mkWorkerConfig {
  WorkerConfig_Observations : list RegistryObserveRecipe; WorkerConfig_Revision : string;
  WorkerConfig_LeaseSeconds : Z; WorkerConfig_Publications : list PublicationRecipe;
  WorkerConfig_Recipes : list Recipe; WorkerConfig_Credentials : list Credential
}.
Record Authority := mkAuthority {
  Authority_config : WorkerConfig; Authority_lookup : string -> string; Authority_controlFingerprint : string
}.
(** [workerconfig.Principal] *)
Record WorkerPrincipal := mkWorkerPrincipal { credential : Credential; fingerprint : string }.

Section authority.
Context `{Crypto}.
Implicit Types (a : Authority) (p : WorkerPrincipal).

Definition recipe a (id : string) : option Recipe :=
  find_first (fun r => Recipe_ID r == id) (WorkerConfig_Recipes (Authority_config a)).
Definition publication a (id : string) : option PublicationRecipe :=
  find_first (fun r => PublicationRecipe_ID r == id) (WorkerConfig_Publications (Authority_config a)).
Definition observation a (id : string) : option RegistryObserveRecipe :=
  find_first (fun r => RegistryObserveRecipe_ID r == id) (WorkerConfig_Observations (Authority_config a)).
Definition Revision a : string := WorkerConfig_Revision (Authority_config a).
Definition Lease a : Z := (WorkerConfig_LeaseSeconds (Authority_config a) * second)%Z.
Definition AllowsNativeComponent a (product component profile image : string) : bool :=
  existsb (fun r => (PublicationRecipe_ProductID r == product) && (PublicationRecipe_ComponentID r == component)
      && (PublicationRecipe_Profile r == profile)
      && (trim_prefix "http://" (trim_prefix "https://" (PublicationRecipe_Origin r)) +:+ "/" +:+ PublicationRecipe_Repository r == image))
    (WorkerConfig_Publications (Authority_config a)).

(** The fingerprints of the secrets, by their references. *)
Definition secret a (env : string) : string := Authority_lookup a env.
Definition pull_refs (r : RegistryRead) : list string :=
  List.filter (fun ref => ref != "") [RegistryRead_UsernameEnv r; RegistryRead_PasswordEnv r; RegistryRead_BearerEnv r].
Definition publication_refs a : list string :=
  concat (map (fun r => pull_refs (PublicationRecipe_Pull r)) (WorkerConfig_Publications (Authority_config a))).
Definition observation_refs a : list string :=
  concat (map (fun r => pull_refs (RegistryObserveRecipe_Pull r)) (WorkerConfig_Observations (Authority_config a))).
Definition control_tokens a : list string :=
  Authority_controlFingerprint a :: map (fun c => hash (secret a (Credential_TokenEnv c))) (WorkerConfig_Credentials (Authority_config a)).
Definition registryCredentialsSeparated a : bool :=
  let apart ref := (secret a ref != "") && negb (contains (control_tokens a) (hash (secret a ref))) in
  forallb apart (publication_refs a)
  && forallb (fun ref => apart ref
       && forallb (fun other => (other != ref) && (secret a other != secret a ref)) (publication_refs a)) (observation_refs a).

Definition IsWorkerToken a (token : string) : bool :=
  (token != "")
  && existsb (fun c => hash token == hash (secret a (Credential_TokenEnv c))) (WorkerConfig_Credentials (Authority_config a)).
Definition holds_token a (provided : string) (c : Credential) : bool :=
  (provided == hash (secret a (Credential_TokenEnv c))) && (32 <=? strlen (secret a (Credential_TokenEnv c)))%Z.
Definition Authenticate a (token : string) (now : Time) : option WorkerPrincipal :=
  if (token == "") || negb (registryCredentialsSeparated a) then None
  else
    let provided := hash token in
    match List.filter (holds_token a provided) (WorkerConfig_Credentials (Authority_config a)) with
    | [selected] =>
      if (provided == Authority_controlFingerprint a) || Credential_Revoked selected
         || negb (Before now (Credential_ExpiresAt selected)) then None
      else if existsb (fun ref => provided == hash (secret a ref)) (publication_refs a) then None
      else Some (mkWorkerPrincipal selected provided)
    | _ => None
    end.
Definition PrincipalID p : string := Credential_Principal (credential p).
Definition Allows p (product repo capability : string) (now : Time) : bool :=
  let c := credential p in
  (Credential_Principal c != "") && negb (Credential_Revoked c) && Before now (Credential_ExpiresAt c)
  && contains (Credential_ProductIDs c) product && contains (Credential_RepositoryIDs c) repo
  && contains (Credential_Capabilities c) capability.
Definition Current a p (now : Time) : bool :=
  match find_first (fun c => Credential_ID c == Credential_ID (credential p)) (WorkerConfig_Credentials (Authority_config a)) with
  | None => false
  | Some c =>
    let raw := secret a (Credential_TokenEnv c) in
    (hash raw == fingerprint p)
    && match Authenticate a raw now with Some fresh => credential fresh == credential p | None => false end
  end.
End authority.

(** * Properties *)
Section current.
Context `{Crypto}.
Implicit Types (a : Authority) (p : WorkerPrincipal).

(** The credential of a principal that may act now. *)
Record LiveCredential a (c : Credential) (fp : string) (now : Time) : Prop := {
  live_configured : c ∈ WorkerConfig_Credentials (Authority_config a);
  live_secret : hash (secret a (Credential_TokenEnv c)) = fp /\ (32 <= strlen (secret a (Credential_TokenEnv c)))%Z;
  live_valid : Credential_Revoked c = false /\ (now < Credential_ExpiresAt c)%Z;
  live_unique : List.filter (holds_token a fp) (WorkerConfig_Credentials (Authority_config a)) = [c];
  live_separate : fp <> Authority_controlFingerprint a
    /\ forall ref, ref ∈ publication_refs a ++ observation_refs a -> hash (secret a ref) <> fp
}.
Lemma separated_refs a ref : registryCredentialsSeparated a = true -> ref ∈ publication_refs a ++ observation_refs a ->
  secret a ref <> "" /\ hash (secret a ref) ∉ control_tokens a.
Proof.
  unfold registryCredentialsSeparated. intros [Hp Ho]%andb_true_iff Hin.
  assert (Hx : (secret a ref != "") && negb (contains (control_tokens a) (hash (secret a ref))) = true).
  { apply elem_of_app in Hin as [Hin|Hin]; apply list_elem_of_In in Hin.
    - apply (proj1 (forallb_forall _ _) Hp ref Hin).
    - apply (proj1 (forallb_forall _ _) Ho ref) in Hin. apply andb_true_iff in Hin. apply Hin. }
  unfold contains in Hx. to_prop. auto.
Qed.
Lemma Authenticate_live a token now p : Authenticate a token now = Some p ->
  fingerprint p = hash token /\ LiveCredential a (credential p) (hash token) now.
Proof.
  unfold Authenticate. destruct (token == "") eqn:Et; [discriminate|].
  destruct (registryCredentialsSeparated a) eqn:Hsep; [cbn|discriminate].
  destruct (List.filter _ _) as [|c [|? ?]] eqn:Hf; [discriminate| |discriminate].
  destruct ((hash token == _) || _ || _) eqn:Hc; [discriminate|]. destruct (existsb _ _) eqn:Hr; [discriminate|].
  intros [= <-]. cbn. split; [reflexivity|].
  assert (Hin : c ∈ List.filter (holds_token a (hash token)) (WorkerConfig_Credentials (Authority_config a))) by (rewrite Hf; left).
  apply list_elem_of_In, filter_In in Hin as [Hin Hh]. unfold holds_token in Hh. apply andb_true_iff in Hh as [Hh Hlen].
  apply bool_decide_eq_true in Hh. apply Z.leb_le in Hlen.
  apply orb_false_iff in Hc as [[Hctl Hrev]%orb_false_iff Hexp]. unfold Before in Hexp. apply negb_false_iff, Z.ltb_lt in Hexp.
  apply bool_decide_eq_false in Hctl. constructor.
  - apply list_elem_of_In, Hin.
  - auto.
  - auto.
  - exact Hf.
  - split; [exact Hctl|]. intros ref Href Hbad. destruct (separated_refs a ref Hsep Href) as [_ Hn]. apply Hn.
    rewrite Hbad, Hh. right. apply list_elem_of_In, (in_map (fun c => hash (secret a (Credential_TokenEnv c)))), Hin.
Qed.

(** A worker principal that is current holds exactly one configured
    credential, which is neither revoked nor expired and whose secret, of at
    least 32 bytes, is its own: it is neither the control token, nor a secret
    of another credential, nor a registry secret. *)
Theorem current_principal_exclusive a p now : Current a p now = true ->
  LiveCredential a (credential p) (fingerprint p) now.
Proof.
  unfold Current. destruct (find_first _ _) as [c|]; [|discriminate]. intros [Hh Ha]%andb_true_iff.
  apply bool_decide_eq_true in Hh. destruct (Authenticate _ _ _) as [fresh|] eqn:E; [|discriminate].
  apply bool_decide_eq_true in Ha. apply Authenticate_live in E as [_ Hl]. rewrite <- Ha, <- Hh. exact Hl.
Qed.
End current.
