(* ===== verification/Composition.v ===== *)
(** * Composition of an environment

    [internal/application/composition.go]: which captured revisions go
    together in an environment.  [assembleComponents] materialises a
    composition from the selected integrations, and [applyComposition] serves
    the commands that create applications, record revisions, plan a
    composition and select one.  The unspecified order of [range] over a map is
    the class [MapOrder]. *)
From S2P Require Import Prelude GoText GoJson Delivery Domain Status Planning Handlers Reservation.
Open Scope string_scope.
Open Scope list_scope.

Definition control_byte (a : ascii) : bool := (byte_of a <? 32)%nat || (byte_of a =? 127)%nat.
Definition safe_segment (s : string) : bool :=
  (s != "") && negb (has_prefix "." s) && negb (has_suffix ".lock" s).
Definition safeBranch (ref : string) : bool :=
  if (ref == "") || (ref == "@") || has_prefix "-" ref || has_suffix "." ref || contains_any " ~^:?*[\" ref
     || str_contains ".." ref || str_contains "@{" ref
  then false
  else if str_any control_byte ref then false
  else forallb safe_segment (split_on slash ref).

Definition repositoryRole (st : State) (repoID : string) : string :=
  match repositoryBinding st repoID with
  | Some b => RepositoryBinding_Role b
  | None =>
    match find_first (has_id repoID) (State_Repositories st) with
    | Some r => Repository_Role r
    | None => ""
    end
  end.

(** ** assembleComponents *)
Record assembly := mkAssembly {
  seenIntegrations : gset string;
  orderedRevisions : gmap string (list string);
  baseRefs : gmap string string;
  baseCommits : gmap string string
}.
#[export] Instance zero_assembly : Zero assembly := mkAssembly ∅ ∅ ∅ ∅.

Definition assemblable : list string := ["working"; "implemented"; "verifying"; "ready"].
Definition default_selection (st : State) (productID : string) : list string :=
  map ID (List.filter (fun v =>
    (ProductID v == productID) && contains assemblable (Integration_Status v)
    && existsb (fun r => IntegrationRevision_IntegrationID r == ID v) (State_IntegrationRevisions st))
    (State_Integrations st)).
(** The repositories of an integration: declared, or those with a revision. *)
Definition revision_repositories (st : State) (v : Integration) : list string :=
  if bool_decide (Integration_Repositories v = []) then
    foldl (fun repos r =>
      if (IntegrationRevision_IntegrationID r == ID v) && negb (contains repos (IntegrationRevision_RepositoryID r))
      then repos ++ [IntegrationRevision_RepositoryID r] else repos) [] (State_IntegrationRevisions st)
  else Integration_Repositories v.
Definition latest_revision (st : State) (iid repoID : string) : option IntegrationRevision :=
  find_last (fun r => (IntegrationRevision_IntegrationID r == iid) && (IntegrationRevision_RepositoryID r == repoID))
    (State_IntegrationRevisions st).
(** The observed head of the base branch, read from the newest observation. *)
Definition observed_base (st : State) (productID repoID : string) (captured : string) : string :=
  fst (foldl (fun '(commit, at_) o =>
    if (ProductID o == productID) && (GitObservation_RepositoryID o == repoID) && (GitObservation_MainCommit o != "")
       && (IsZero at_ || After (GitObservation_ObservedAt o) at_)
    then (GitObservation_MainCommit o, GitObservation_ObservedAt o) else (commit, at_))
    (captured, zero : Time) (reverse (State_GitObservations st))).
Definition assemble_repository (st : State) (productID iid : string) (a : assembly) (repoID : string) : res assembly :=
  match latest_revision st iid repoID with
  | None => invalid "no captured revision for %s in repository %s; refresh Git first" [iid; repoID]
  | Some rev =>
    match repositoryBinding st repoID with
    | None => invalid "source repository configuration missing: %s" [repoID]
    | Some binding =>
      _ ← reject_if (negb (IsSourceRole (RepositoryBinding_Role binding)))
            (invalid "source repository configuration missing: %s" [repoID]);
      let baseCommit := observed_base st productID repoID (IntegrationRevision_BaseCommit rev) in
      _ ← reject_if match baseCommits a !! repoID with Some prior => prior != baseCommit | None => false end
            (invalid "selected revisions for repository %s have different main bases" [repoID]);
      Ok (a <| baseRefs ::= <[repoID := configuredBase binding]> |>
            <| baseCommits ::= <[repoID := baseCommit]> |>
            <| orderedRevisions ::= fun m => <[repoID := default [] (m !! repoID) ++ [ID rev]]> m |>)
    end
  end.
Definition assemble_integration (st : State) (productID : string) (a : assembly) (iid : string) : res assembly :=
  if bool_decide (iid ∈ seenIntegrations a) then Ok a
  else
    let a := a <| seenIntegrations ::= fun s => {[iid]} ∪ s |> in
    match integration st iid with
    | None => invalid "integration must belong to product: %s" [iid]
    | Some v =>
      _ ← reject_if (ProductID v != productID) (invalid "integration must belong to product: %s" [iid]);
      _ ← reject_if (Integration_Status v == "released")
            (invalid "released integration is already part of the base: %s" [iid]);
      foldM (assemble_repository st productID iid) a (revision_repositories st v)
    end.
Definition component_of (environmentID compositionID : string) (a : assembly) (repoID : string)
    (revisions : list string) (app : Application) : CompositionComponent :=
  mkCompositionComponent (ID app) (default "" (baseRefs a !! repoID)) (default "" (baseCommits a !! repoID))
    ("generated/" +:+ environmentID +:+ "/" +:+ compositionID +:+ "/" +:+ repoID) revisions.
Definition component_application (productID repoID : string) (app : Application) : bool :=
  (ProductID app == productID) && (Application_RepositoryID app == repoID) && (ComponentKind app == "APPLICATION").
Definition components_of `{MapOrder} (st : State) (productID environmentID compositionID : string) (a : assembly)
    : list CompositionComponent :=
  flat_map (fun '(repoID, revisions) =>
    map (component_of environmentID compositionID a repoID revisions)
      (List.filter (component_application productID repoID) (State_Applications st)))
    (map_range (orderedRevisions a)).
Definition assembleComponents `{MapOrder} (st : State) (productID environmentID compositionID : string)
    (requested : list string) : res (list CompositionComponent) :=
  match environmentByID st environmentID with
  | None => invalid "environment must belong to product" []
  | Some e =>
    _ ← reject_if (ProductID e != productID) (invalid "environment must belong to product" []);
    let selected := if bool_decide (requested = []) then default_selection st productID else requested in
    a ← foldM (assemble_integration st productID) zero selected;
    let components := components_of st productID environmentID compositionID a in
    _ ← reject_if (bool_decide (components = []))
          (invalid "selected integrations have no deployable application revisions" []);
    Ok components
  end.

(** ** applyComposition *)
(** The input struct — application/composition.go:155 *)
Record ApplicationInput := mkApplicationInput {
  ApplicationInput_Parameters : gmap string string; ApplicationInput_Name : string;
  ApplicationInput_Kind : string; ApplicationInput_RepositoryID : string;
  ApplicationInput_Path : string
}.
#[export] Instance zero_ApplicationInput : Zero ApplicationInput := mkApplicationInput zero zero zero zero zero.
#[export] Instance fields_ApplicationInput `{Runtime} : Fields ApplicationInput :=
  [
    field "parameters" ApplicationInput_Parameters; field "name" ApplicationInput_Name;
    field "kind" ApplicationInput_Kind; field "repository_id" ApplicationInput_RepositoryID;
    field "path" ApplicationInput_Path
  ].
(** The input struct — application/composition.go:190 *)
Record RevisionInput := mkRevisionInput {
  RevisionInput_RepositoryID : string; RevisionInput_Branch : string;
  RevisionInput_BaseCommit : string; RevisionInput_HeadCommit : string;
  RevisionInput_Commits : list string
}.
#[export] Instance zero_RevisionInput : Zero RevisionInput := mkRevisionInput zero zero zero zero zero.
#[export] Instance fields_RevisionInput `{Runtime} : Fields RevisionInput :=
  [
    field "repository_id" RevisionInput_RepositoryID; field "branch" RevisionInput_Branch;
    field "base_commit" RevisionInput_BaseCommit; field "head_commit" RevisionInput_HeadCommit;
    field "commits" RevisionInput_Commits
  ].
(** The input struct — application/composition.go:233 *)
Record CompositionInput := mkCompositionInput {
  CompositionInput_AutoRefresh : bool; CompositionInput_EnvironmentID : string;
  CompositionInput_Name : string; CompositionInput_Components : list CompositionComponent
}.
#[export] Instance zero_CompositionInput : Zero CompositionInput := mkCompositionInput zero zero zero zero.
#[export] Instance fields_CompositionInput `{Runtime} : Fields CompositionInput :=
  [
    field "auto_refresh" CompositionInput_AutoRefresh;
    field "environment_id" CompositionInput_EnvironmentID; field "name" CompositionInput_Name;
    field "components" CompositionInput_Components
  ].
(** The empty input struct of [select_composition]. *)
#[export] Instance fields_unit : Fields unit := [].

Section apply.
Context `{Runtime, World, MapOrder, Hashing, RestorationEvidence}.

Definition unclean_path (p : string) : bool :=
  (p != "") && (path_is_abs p || (path_clean p != p) || (p == "..") || has_prefix "../" p || str_contains "\" p).
Definition create_application (st : State) (c : Command) (m : Meta) : res (State * Out * Meta) :=
  input ← decode (Command_Data c) (zero : ApplicationInput);
  _ ← reject_if (negb (productExists st (Command_ProductID c))) (missing "product" (Command_ProductID c));
  _ ← reject_if (blank (ApplicationInput_Name input)) (invalid "application name required" []);
  _ ← repositories st [ApplicationInput_RepositoryID input] (Command_ProductID c);
  _ ← reject_if (unclean_path (ApplicationInput_Path input))
        (invalid "application path must be a clean repository-relative path" []);
  let kind := if ApplicationInput_Kind input == "" then "APPLICATION" else ApplicationInput_Kind input in
  _ ← reject_if (negb (contains ComponentKinds kind)) (invalid "invalid component kind" []);
  _ ← reject_if (negb (RepositoryAllows (repositoryRole st (ApplicationInput_RepositoryID input)) kind))
        (invalid "repository purpose does not support this component kind" []);
  let v := (zero : Application) <| Application_Parameters := ApplicationInput_Parameters input |> <| Application_Meta := m |>
             <| Application_Kind := kind |> <| Application_Name := ApplicationInput_Name input |>
             <| Application_RepositoryID := ApplicationInput_RepositoryID input |>
             <| Application_Path := ApplicationInput_Path input |> in
  Ok (st <| State_Applications ::= fun l => l ++ [v] |>, OutApplication v, m).

Definition record_integration_revision (st : State) (c : Command) (m : Meta) : res (State * Out * Meta) :=
  input ← decode (Command_Data c) (zero : RevisionInput);
  match integration st (Command_IntegrationID c) with
  | None => missing "integration" (Command_IntegrationID c)
  | Some v =>
    let repo := RevisionInput_RepositoryID input in
    let head_ := RevisionInput_HeadCommit input in
    _ ← repositories st [repo] (ProductID v);
    _ ← reject_if (outside (feature_repositories st v) repo) (invalid "revision repository outside feature scope" []);
    _ ← reject_if (outside (Integration_Repositories v) repo)
          (invalid "revision repository must be declared by integration" []);
    _ ← reject_if (negb (safeBranch (RevisionInput_Branch input))) (invalid "valid source branch required" []);
    _ ← reject_if (negb (fullSHA (RevisionInput_BaseCommit input)) || negb (fullSHA head_)
                   || bool_decide (RevisionInput_Commits input = []))
          (invalid "base_commit, head_commit and nonempty commits require full lowercase SHA40 or SHA64" []);
    _ ← each_unique (fun sha => fullSHA sha && (String.length sha =? String.length head_)%nat)
          (invalid "invalid, mixed-format or duplicate commit" []) ∅ (RevisionInput_Commits input);
    _ ← reject_if (negb (String.length (RevisionInput_BaseCommit input) =? String.length head_)%nat
                   || negb (contains (RevisionInput_Commits input) head_))
          (invalid "head_commit must occur in commits, using the base commit hash format" []);
    let r := mkIntegrationRevision m (ID v) repo (RevisionInput_Branch input) (RevisionInput_BaseCommit input) head_
               (RevisionInput_Commits input) in
    Ok (st <| State_IntegrationRevisions ::= fun l => l ++ [r] |>, OutRevision r, m)
  end.

(** *** plan_composition *)
Record plan := mkPlan {
  plan_apps : gset string;
  plan_revisions : gset string;
  plan_selected : gmap string unit;
  plan_repos : gmap string CompositionComponent;
  plan_integrations : gmap string string;
  plan_app_snapshots : list Application;
  plan_revision_snapshots : list IntegrationRevision
}.
#[export] Instance zero_plan : Zero plan := mkPlan ∅ ∅ ∅ ∅ ∅ [] [].

Definition same_plan (a b : CompositionComponent) : bool :=
  (CompositionComponent_BaseRef a == CompositionComponent_BaseRef b)
  && (CompositionComponent_BaseCommit a == CompositionComponent_BaseCommit b)
  && (CompositionComponent_TargetBranch a == CompositionComponent_TargetBranch b)
  && (CompositionComponent_RevisionIDs a == CompositionComponent_RevisionIDs b).
Definition revision_key (rev : IntegrationRevision) : string :=
  IntegrationRevision_IntegrationID rev +:+ "/" +:+ IntegrationRevision_RepositoryID rev.
Definition accept_revision (p : plan) (rid : string) (rev : IntegrationRevision) : plan :=
  let p := p <| plan_integrations ::= <[revision_key rev := rid]> |>
             <| plan_selected ::= <[IntegrationRevision_IntegrationID rev := ()]> |> in
  if bool_decide (rid ∈ plan_revisions p) then p
  else p <| plan_revision_snapshots ::= fun l => l ++ [rev] |> <| plan_revisions ::= fun s => {[rid]} ∪ s |>.
(** The revisions of one component; [seen] is [componentSeen]. *)
Fixpoint plan_component_revisions (st : State) (product : string) (app : Application) (seen : gset string) (p : plan)
    (rids : list string) : res plan :=
  match rids with
  | [] => Ok p
  | rid :: rids =>
    match revisionByID st rid with
    | None => invalid "revision must be unique within component and match application repository/product" []
    | Some rev =>
      if (ProductID rev != product) || (IntegrationRevision_RepositoryID rev != Application_RepositoryID app)
         || bool_decide (rid ∈ seen)
      then invalid "revision must be unique within component and match application repository/product" []
      else
        if match plan_integrations p !! revision_key rev with Some prior => prior != rid | None => false end
        then invalid "only one revision per integration and repository may be selected" []
        else plan_component_revisions st product app ({[rid]} ∪ seen) (accept_revision p rid rev) rids
    end
  end.
Definition plan_component (st : State) (product : string) (p : plan) (comp : CompositionComponent) : res plan :=
  match applicationByID st (CompositionComponent_ApplicationID comp) with
  | None => invalid "component applications must be unique and belong to product" []
  | Some app =>
    _ ← reject_if ((ProductID app != product) || bool_decide (ID app ∈ plan_apps p) || (ComponentKind app != "APPLICATION"))
          (invalid "component applications must be unique and belong to product" []);
    _ ← reject_if (negb (safeBranch (CompositionComponent_BaseRef comp)) || negb (fullSHA (CompositionComponent_BaseCommit comp)))
          (invalid "component base_ref and full base_commit required" []);
    _ ← reject_if (negb (safeBranch (CompositionComponent_TargetBranch comp))
                   || negb (has_prefix "generated/" (CompositionComponent_TargetBranch comp))
                   || (CompositionComponent_TargetBranch comp == CompositionComponent_BaseRef comp))
          (invalid "target_branch must be a separate generated/ branch" []);
    _ ← reject_if match plan_repos p !! Application_RepositoryID app with
                  | Some prior => negb (same_plan prior comp)
                  | None => false
                  end
          (invalid "applications sharing a repository must use the same base, target branch and ordered revisions" []);
    let p := p <| plan_apps ::= fun s => {[ID app]} ∪ s |>
               <| plan_repos ::= <[Application_RepositoryID app := comp]> |>
               <| plan_app_snapshots ::= fun l => l ++ [app] |> in
    plan_component_revisions st product app ∅ p (CompositionComponent_RevisionIDs comp)
  end.
Definition plan_dependency (st : State) (selected : gmap string unit) (dep : string) : res unit :=
  match integration st dep with
  | None => invalid "composition must include dependency %s or it must already be released" [dep]
  | Some d =>
    reject_if ((Integration_Status d != "released") && negb (bool_decide (is_Some (selected !! dep))))
      (invalid "composition must include dependency %s or it must already be released" [dep])
  end.
Definition plan_dependencies (st : State) (selected : gmap string unit) (kv : string * unit) : res unit :=
  match integration st kv.1 with
  | None => invalid "revision integration no longer exists" []
  | Some v => each (plan_dependency st selected) (Integration_Dependencies v)
  end.
Definition plan_composition (st : State) (c : Command) (m : Meta) : res (State * Out * Meta) :=
  input ← decode (Command_Data c) (zero : CompositionInput);
  _ ← reject_if (negb (productExists st (Command_ProductID c))) (missing "product" (Command_ProductID c));
  match environmentByID st (CompositionInput_EnvironmentID input) with
  | None => invalid "environment must belong to product" []
  | Some e =>
    _ ← reject_if (ProductID e != Command_ProductID c) (invalid "environment must belong to product" []);
    _ ← reject_if (blank (CompositionInput_Name input) || bool_decide (CompositionInput_Components input = []))
          (invalid "composition name and components required" []);
    p ← foldM (plan_component st (Command_ProductID c)) zero (CompositionInput_Components input);
    _ ← each (plan_dependencies st (plan_selected p)) (map_range (plan_selected p));
    let v := mkComposition (CompositionInput_AutoRefresh input) m (CompositionInput_EnvironmentID input)
               (CompositionInput_Name input) "planned" (CompositionInput_Components input)
               (plan_app_snapshots p) (plan_revision_snapshots p) e in
    Ok (st <| State_Compositions ::= fun l => l ++ [v] |>, OutComposition v, m)
  end.

(** *** select_composition *)
Definition select_composition (st : State) (c : Command) (m : Meta) : res (State * Out * Meta) :=
  _ ← decode (Command_Data c) tt;
  match compositionByID st (Command_ID c) with
  | None => missing "composition" (Command_ID c)
  | Some v =>
    _ ← reject_if ((Command_ProductID c != "") && (Command_ProductID c != ProductID v))
          (invalid "composition product mismatch" []);
    match environmentByID st (Composition_EnvironmentID v) with
    | None => invalid "composition environment missing" []
    | Some e =>
      _ ← reject_if (ProductID e != ProductID v) (invalid "composition environment missing" []);
      _ ← reject_if ((Environment_Cluster e != Environment_Cluster (Composition_EnvironmentSnapshot v))
                     || (Environment_Namespace e != Environment_Namespace (Composition_EnvironmentSnapshot v)))
            (invalid "environment target changed; create a new composition plan" []);
      _ ← selectionAllowed st (ID e);
      e ← advanceSelection e;
      let e := e <| Environment_DesiredOperationID := "" |> <| Environment_DesiredCompositionID := ID v |>
                 <| Environment_Meta ::= fun mt => mt <| Meta_UpdatedAt := Meta_UpdatedAt m |>
                                                      <| Meta_Actor := Command_Actor c |> |> in
      Ok (update_environment_at st (Composition_EnvironmentID v) e, OutEnvironment e,
          m <| Meta_ProductID := ProductID v |>)
    end
  end.

Definition applyComposition : Handler := fun st c m =>
  if Command_Action c == "create_application" then create_application st c m
  else if Command_Action c == "record_integration_revision" then record_integration_revision st c m
  else if Command_Action c == "plan_composition" then plan_composition st c m
  else if Command_Action c == "select_composition" then select_composition st c m
  else invalid "unknown composition action" [].
End apply.

(** * Properties *)

(** ** Planning a composition *)
Record RevisionsPlanned (st : State) (p : plan) : Prop := {
  planned_key : forall rev, rev ∈ plan_revision_snapshots p -> plan_integrations p !! revision_key rev = Some (ID rev);
  planned_selected : forall rev, rev ∈ plan_revision_snapshots p ->
    plan_selected p !! IntegrationRevision_IntegrationID rev = Some ();
  planned_back : forall i, plan_selected p !! i = Some () ->
    exists rev, rev ∈ plan_revision_snapshots p /\ IntegrationRevision_IntegrationID rev = i;
  planned_seen : forall rid, rid ∈ plan_revisions p ->
    exists rev, rev ∈ plan_revision_snapshots p /\ revisionByID st rid = Some rev;
}.
Definition Covers (st : State) (product : string) (app : Application) (p : plan) (rid : string) : Prop :=
  exists rev, revisionByID st rid = Some rev /\ rev ∈ plan_revision_snapshots p /\ ProductID rev = product
    /\ IntegrationRevision_RepositoryID rev = Application_RepositoryID app.

Lemma revisionByID_Some st i v : revisionByID st i = Some v -> v ∈ State_IntegrationRevisions st /\ ID v = i.
Proof. intros [? ?%has_id_true]%find_first_Some; auto. Qed.

Lemma accept_revision_planned st p rid rev :
  RevisionsPlanned st p -> revisionByID st rid = Some rev ->
  (forall prior, plan_integrations p !! revision_key rev = Some prior -> prior = rid) ->
  RevisionsPlanned st (accept_revision p rid rev)
  /\ rev ∈ plan_revision_snapshots (accept_revision p rid rev)
  /\ plan_revision_snapshots p ⊆ plan_revision_snapshots (accept_revision p rid rev).
Proof.
  intros [Hkey Hsel Hback Hseen] Hrev Hprior.
  pose proof (revisionByID_Some _ _ _ Hrev) as [_ Hid].
  assert (Hkey' : forall r, r ∈ plan_revision_snapshots p ->
            <[revision_key rev := rid]> (plan_integrations p) !! revision_key r = Some (ID r)).
  { intros r Hr. destruct (decide (revision_key rev = revision_key r)) as [E|E].
    - rewrite E, lookup_insert_eq. f_equal. symmetry; apply Hprior. rewrite E; auto.
    - rewrite lookup_insert_ne by exact E; auto. }
  assert (Hsel' : forall r, r ∈ plan_revision_snapshots p ->
            <[IntegrationRevision_IntegrationID rev := ()]> (plan_selected p) !! IntegrationRevision_IntegrationID r = Some ()).
  { intros r Hr. apply lookup_insert_Some. destruct (decide (IntegrationRevision_IntegrationID rev = IntegrationRevision_IntegrationID r)); auto. }
  unfold accept_revision. case_bool_decide as Hin.
  - cbn in Hin. destruct (Hseen rid Hin) as (r & Hr & Hr'). replace r with rev in * by congruence.
    split; [|split; [exact Hr|reflexivity]]. constructor; cbn; auto.
    intros i [[<- _]|[_ Hi]]%lookup_insert_Some; eauto.
  - assert (Hrev_in : rev ∈ plan_revision_snapshots p ++ [rev]) by (apply elem_of_app; right; left).
    split; [|split; [exact Hrev_in|cbn; set_solver]]. constructor; cbn.
    + intros r [Hr| ->%list_elem_of_singleton]%elem_of_app; [auto|]. rewrite lookup_insert_eq; congruence.
    + intros r [Hr| ->%list_elem_of_singleton]%elem_of_app; [auto|]. apply lookup_insert_eq.
    + intros i [[<- _]|[_ Hi]]%lookup_insert_Some; [eauto|].
      destruct (Hback i Hi) as (r & ? & ?). exists r; split; [apply elem_of_app; auto|assumption].
    + intros i [->%elem_of_singleton|Hi]%elem_of_union; [eauto|].
      destruct (Hseen i Hi) as (r & ? & ?). exists r; split; [apply elem_of_app; auto|assumption].
Qed.

Lemma plan_component_revisions_planned st product app seen p rids p' :
  plan_component_revisions st product app seen p rids = Ok p' -> RevisionsPlanned st p ->
  RevisionsPlanned st p' /\ plan_revision_snapshots p ⊆ plan_revision_snapshots p'
  /\ NoDup rids /\ (forall rid, rid ∈ rids -> rid ∉ seen /\ Covers st product app p' rid)
  /\ plan_apps p' = plan_apps p /\ plan_repos p' = plan_repos p /\ plan_app_snapshots p' = plan_app_snapshots p.
Proof.
  revert seen p; induction rids as [|rid rids IH]; cbn; intros seen p Hp Hinv.
  { injection Hp as <-. split; [exact Hinv|]. split; [reflexivity|]. split; [constructor|].
    split; [intros ? Hx; inversion Hx|auto]. }
  destruct (revisionByID st rid) as [rev|] eqn:Hrev; [|discriminate].
  destruct (_ || _ || _) eqn:Hok; [discriminate|].
  destruct (match plan_integrations p !! _ with Some _ => _ | None => _ end) eqn:Hkey; [discriminate|].
  to_prop. destruct (accept_revision_planned st p rid rev Hinv Hrev) as (Hinv' & Hin & Hsub).
  { intros prior Hprior. rewrite Hprior in Hkey. to_prop. exact Hkey. }
  destruct (IH _ _ Hp Hinv') as (Hp1 & Hp2 & Hp3 & Hp4 & Hframe).
  assert (Happs : plan_apps (accept_revision p rid rev) = plan_apps p /\ plan_repos (accept_revision p rid rev) = plan_repos p
                  /\ plan_app_snapshots (accept_revision p rid rev) = plan_app_snapshots p)
    by (unfold accept_revision; case_bool_decide; auto).
  split; [exact Hp1|]. split; [set_solver|]. split.
  { apply list.NoDup_cons; split; [|exact Hp3]. intros Hr. destruct (Hp4 rid Hr). set_solver. }
  split; [|destruct Happs as (<- & <- & <-); exact Hframe].
  intros r [->|Hr]%elem_of_cons.
  - split; [assumption|]. exists rev; repeat split; auto.
  - destruct (Hp4 r Hr). split; [set_solver|assumption].
Qed.

(** What planning guarantees of the components processed so far. *)
Record ComponentPlanned (st : State) (product : string) (p : plan) (comp : CompositionComponent) : Prop := {
  cp_base : safeBranch (CompositionComponent_BaseRef comp) = true /\ fullSHA (CompositionComponent_BaseCommit comp) = true;
  cp_target : safeBranch (CompositionComponent_TargetBranch comp) = true
    /\ has_prefix "generated/" (CompositionComponent_TargetBranch comp) = true
    /\ CompositionComponent_TargetBranch comp <> CompositionComponent_BaseRef comp;
  cp_nodup : NoDup (CompositionComponent_RevisionIDs comp);
  cp_app : exists app shared, app ∈ plan_app_snapshots p /\ ID app = CompositionComponent_ApplicationID comp
    /\ plan_repos p !! Application_RepositoryID app = Some shared /\ same_plan shared comp = true
    /\ forall rid, rid ∈ CompositionComponent_RevisionIDs comp -> Covers st product app p rid;
}.
Record Planned (st : State) (product : string) (done : list CompositionComponent) (p : plan) : Prop := {
  pl_revisions : RevisionsPlanned st p;
  pl_apps : forall a, a ∈ plan_app_snapshots p -> ID a ∈ plan_apps p /\ ProductID a = product /\ ComponentKind a = "APPLICATION"
    /\ is_Some (plan_repos p !! Application_RepositoryID a);
  pl_apps_nodup : NoDup (map ID (plan_app_snapshots p));
  pl_components : forall comp, comp ∈ done -> ComponentPlanned st product p comp;
}.

Lemma same_plan_trans a b c : same_plan a b = true -> same_plan a c = true -> same_plan b c = true.
Proof.
  unfold same_plan. intros Hab Hac. to_prop.
  repeat (apply andb_true_iff; split); apply bool_decide_eq_true; congruence.
Qed.
Lemma same_plan_refl a : same_plan a a = true.
Proof. unfold same_plan. rewrite !bool_decide_true by reflexivity. reflexivity. Qed.

Lemma Planned_step st product done p comp p' :
  Planned st product done p -> plan_component st product p comp = Ok p' -> Planned st product (done ++ [comp]) p'.
Proof.
  intros [Hrev Happs Hnd Hdone] Hc. unfold plan_component in Hc.
  destruct (applicationByID st _) as [app|] eqn:Happ; [|discriminate].
  apply find_first_Some in Happ as [_ Hid%has_id_true].
  step_guards Hc. cbv zeta in Hc.
  set (p1 := (_ <| plan_apps ::= _ |>) <| plan_repos ::= _ |> <| plan_app_snapshots ::= _ |>) in Hc.
  assert (Hrev1 : RevisionsPlanned st p1) by (destruct Hrev; constructor; auto).
  destruct (plan_component_revisions_planned _ _ _ _ _ _ _ Hc Hrev1) as (Hrev' & Hsub & Hndr & Hcov & Hpa & Hpr & Hps).
  change (plan_revision_snapshots p1) with (plan_revision_snapshots p) in Hsub.
  change (plan_apps p1) with ({[ID app]} ∪ plan_apps p) in Hpa.
  change (plan_repos p1) with (<[Application_RepositoryID app := comp]> (plan_repos p)) in Hpr.
  change (plan_app_snapshots p1) with (plan_app_snapshots p ++ [app]) in Hps.
  to_prop. constructor.
  - exact Hrev'.
  - rewrite Hps, Hpa, Hpr. intros a [Ha| ->%list_elem_of_singleton]%elem_of_app.
    + destruct (Happs a Ha) as (? & ? & ? & ?). repeat split; auto; [set_solver|]. apply lookup_insert_is_Some'; auto.
    + repeat split; auto; [set_solver|]. rewrite lookup_insert_eq; eauto.
  - rewrite Hps, map_app. apply list.NoDup_app. split; [exact Hnd|]. split.
    + intros i (a & -> & Ha)%elem_of_map Hin. apply list_elem_of_singleton in Hin.
      destruct (Happs a Ha). congruence.
    + apply NoDup_singleton.
  - intros co [Hco| ->%list_elem_of_singleton]%elem_of_app.
    + destruct (Hdone co Hco) as [Hb Ht Hn (a & shared & Ha & Hai & Hsh & Hsame & Hcv)].
      constructor; auto. rewrite Hps, Hpr.
      exists a, (if decide (Application_RepositoryID a = Application_RepositoryID app) then comp else shared).
      split; [apply elem_of_app; auto|]. split; [exact Hai|].
      assert (Hcv' : forall rid, rid ∈ CompositionComponent_RevisionIDs co -> Covers st product a p' rid).
      { intros rid Hr. destruct (Hcv rid Hr) as (rv & ? & ? & ? & ?). exists rv; auto. }
      destruct (decide _) as [E|E].
      * rewrite E, lookup_insert_eq. rewrite E in Hsh. rewrite Hsh in G2. to_prop.
        split; [reflexivity|]. split; [|exact Hcv']. eapply same_plan_trans; [exact G2|].
        exact Hsame.
      * rewrite lookup_insert_ne by congruence. auto.
    + constructor; auto. rewrite Hps, Hpr. exists app, comp.
      split; [apply elem_of_app; right; left|]. rewrite lookup_insert_eq. rewrite same_plan_refl.
      repeat split; auto. intros rid Hr. apply Hcov, Hr.
Qed.

Lemma Planned_all st product done l p p' :
  Planned st product done p -> foldM (plan_component st product) p l = Ok p' -> Planned st product (done ++ l) p'.
Proof.
  revert done p; induction l as [|c l IH]; cbn; intros done p Hp Hf.
  - injection Hf as <-. rewrite app_nil_r; exact Hp.
  - apply bind_Ok in Hf as (p1 & Hc & Hf). rewrite cons_middle, app_assoc.
    eapply IH; [|exact Hf]. eapply Planned_step; eassumption.
Qed.
Lemma Planned_start st product : Planned st product [] zero.
Proof. constructor; [constructor| | |]; cbn; try (intros ? Hx; inversion Hx); try constructor. Qed.

(** The contract of a stored composition. *)
Record CompositionWF (st : State) (product : string) (v : Composition) : Prop := {
  wf_applications : NoDup (map ID (Composition_ApplicationSnapshots v))
    /\ forall a, a ∈ Composition_ApplicationSnapshots v -> ProductID a = product /\ ComponentKind a = "APPLICATION";
  wf_targets : forall comp, comp ∈ Composition_Components v ->
    has_prefix "generated/" (CompositionComponent_TargetBranch comp) = true
    /\ CompositionComponent_TargetBranch comp <> CompositionComponent_BaseRef comp
    /\ fullSHA (CompositionComponent_BaseCommit comp) = true;
  wf_revisions : forall comp, comp ∈ Composition_Components v ->
    NoDup (CompositionComponent_RevisionIDs comp)
    /\ exists app, app ∈ Composition_ApplicationSnapshots v /\ ID app = CompositionComponent_ApplicationID comp
       /\ forall rid, rid ∈ CompositionComponent_RevisionIDs comp ->
            exists rev, rev ∈ Composition_RevisionSnapshots v /\ ID rev = rid /\ ProductID rev = product
              /\ IntegrationRevision_RepositoryID rev = Application_RepositoryID app;
  wf_one_revision : forall r1 r2, r1 ∈ Composition_RevisionSnapshots v -> r2 ∈ Composition_RevisionSnapshots v ->
    IntegrationRevision_IntegrationID r1 = IntegrationRevision_IntegrationID r2 ->
    IntegrationRevision_RepositoryID r1 = IntegrationRevision_RepositoryID r2 -> ID r1 = ID r2;
  wf_shared : forall c1 c2 a1 a2, c1 ∈ Composition_Components v -> c2 ∈ Composition_Components v ->
    a1 ∈ Composition_ApplicationSnapshots v -> a2 ∈ Composition_ApplicationSnapshots v ->
    ID a1 = CompositionComponent_ApplicationID c1 -> ID a2 = CompositionComponent_ApplicationID c2 ->
    Application_RepositoryID a1 = Application_RepositoryID a2 -> same_plan c1 c2 = true;
  wf_dependencies : forall r, r ∈ Composition_RevisionSnapshots v ->
    exists i, integration st (IntegrationRevision_IntegrationID r) = Some i
      /\ forall d, d ∈ Integration_Dependencies i ->
           exists di, integration st d = Some di
             /\ (Integration_Status di = "released"
                 \/ exists r', r' ∈ Composition_RevisionSnapshots v /\ IntegrationRevision_IntegrationID r' = d);
}.

Lemma same_plan_shared st product comps p c1 c2 a1 a2 :
  Planned st product comps p -> c1 ∈ comps -> c2 ∈ comps ->
  a1 ∈ plan_app_snapshots p -> a2 ∈ plan_app_snapshots p ->
  ID a1 = CompositionComponent_ApplicationID c1 -> ID a2 = CompositionComponent_ApplicationID c2 ->
  Application_RepositoryID a1 = Application_RepositoryID a2 -> same_plan c1 c2 = true.
Proof.
  intros Hp Hc1 Hc2 Ha1 Ha2 H1 H2 E.
  destruct (pl_components _ _ _ _ Hp c1 Hc1) as [_ _ _ (b1 & s1 & Hb1 & Hi1 & Hr1 & Hs1 & _)].
  destruct (pl_components _ _ _ _ Hp c2 Hc2) as [_ _ _ (b2 & s2 & Hb2 & Hi2 & Hr2 & Hs2 & _)].
  assert (b1 = a1) as -> by (eapply nodup_map_inj; [apply (pl_apps_nodup _ _ _ _ Hp)|..]; congruence).
  assert (b2 = a2) as -> by (eapply nodup_map_inj; [apply (pl_apps_nodup _ _ _ _ Hp)|..]; congruence).
  rewrite E in Hr1. eapply same_plan_trans; [exact Hs1|]. congruence.
Qed.

Lemma Planned_closed `{MapOrder} st product comps p :
  Planned st product comps p -> each (plan_dependencies st (plan_selected p)) (map_range (plan_selected p)) = Ok () ->
  forall r, r ∈ plan_revision_snapshots p ->
  exists i, integration st (IntegrationRevision_IntegrationID r) = Some i
    /\ forall d, d ∈ Integration_Dependencies i ->
         exists di, integration st d = Some di
           /\ (Integration_Status di = "released"
               \/ exists r', r' ∈ plan_revision_snapshots p /\ IntegrationRevision_IntegrationID r' = d).
Proof.
  intros [[Hkey Hsel Hback Hseen] _ _ _] Hdeps r Hr.
  rewrite each_Ok, list.Forall_forall in Hdeps.
  specialize (Hdeps (IntegrationRevision_IntegrationID r, ()) (proj2 (elem_of_map_range _ _ _) (Hsel r Hr))).
  unfold plan_dependencies in Hdeps. cbn in Hdeps.
  destruct (integration st (IntegrationRevision_IntegrationID r)) as [i|]; [|discriminate].
  exists i; split; [reflexivity|]. intros d Hd. rewrite each_Ok, list.Forall_forall in Hdeps.
  specialize (Hdeps d Hd). unfold plan_dependency in Hdeps.
  destruct (integration st d) as [di|]; [|discriminate]. exists di; split; [reflexivity|].
  rewrite reject_if_invalid in Hdeps. apply andb_false_iff in Hdeps as [Hs|Hs]; to_prop; [auto|].
  destruct Hs as [[] Hs]. right; apply Hback, Hs.
Qed.

(** A planned composition is well formed: its applications are distinct and
    belong to the product; every target is a separate [generated/] branch on a
    full base commit; a component's revisions are distinct revisions of its
    application's repository; at most one revision of an integration and
    repository is taken; applications sharing a repository share the plan; and
    every dependency of a selected integration is selected or released. *)
Theorem plan_composition_wellformed `{Runtime, MapOrder} st c m st' out m' :
  plan_composition st c m = Ok (st', out, m') ->
  exists v, out = OutComposition v /\ State_Compositions st' = State_Compositions st ++ [v]
    /\ Composition_Status v = "planned" /\ Composition_Components v <> []
    /\ environmentByID st (Composition_EnvironmentID v) = Some (Composition_EnvironmentSnapshot v)
    /\ CompositionWF st (Command_ProductID c) v.
Proof.
  unfold plan_composition. intros Hp. step_guards Hp.
  destruct (environmentByID st _) as [e|] eqn:He; [|discriminate]. step_guards Hp.
  rename a0 into p. destruct a1. injection Hp as <- <- _.
  assert (Hpl : Planned st (Command_ProductID c) (CompositionInput_Components a) p)
    by (apply (Planned_all st _ [] _ zero p (Planned_start _ _)); assumption).
  eexists; split; [reflexivity|]. split; [reflexivity|]. split; [reflexivity|].
  apply orb_false_iff in G1 as [_ Hne]. to_prop. split; [exact Hne|]. split; [exact He|].
  constructor; cbn.
  - split; [apply (pl_apps_nodup _ _ _ _ Hpl)|]. intros app Ha. destruct (pl_apps _ _ _ _ Hpl app Ha) as (_ & ? & ? & _); auto.
  - intros comp Hc. destruct (pl_components _ _ _ _ Hpl comp Hc) as [[_ Hb] (_ & Ht & Htb) _ _]. auto.
  - intros comp Hc. destruct (pl_components _ _ _ _ Hpl comp Hc) as [_ _ Hn (app & sh & Ha & Hi & _ & _ & Hcov)].
    split; [exact Hn|]. exists app; repeat split; auto.
    intros rid Hr. destruct (Hcov rid Hr) as (rev & Hrev & Hin & Hprod & Hrepo).
    apply revisionByID_Some in Hrev as [_ Hid]. exists rev; auto.
  - intros r1 r2 H1 H2 Ei Er. destruct (pl_revisions _ _ _ _ Hpl) as [Hk _ _ _].
    pose proof (Hk r1 H1) as K1. pose proof (Hk r2 H2) as K2. unfold revision_key in K1, K2. congruence.
  - intros c1 c2 a1 a2. apply (same_plan_shared st (Command_ProductID c) _ p c1 c2 a1 a2 Hpl).
  - apply (Planned_closed st (Command_ProductID c) (CompositionInput_Components a) p Hpl). assumption.
Qed.

(** ** Assembling: the merge order and the common base *)
Fixpoint first_occurrences (seen : gset string) (l : list string) : list string :=
  match l with
  | [] => []
  | i :: l => if bool_decide (i ∈ seen) then first_occurrences seen l else i :: first_occurrences ({[i]} ∪ seen) l
  end.
(** What one integration contributes to a repository. *)
Definition contribution (st : State) (repo iid : string) : list string :=
  match integration st iid with
  | Some v => flat_map (fun r =>
      if r == repo then match latest_revision st iid r with Some rev => [ID rev] | None => [] end else [])
      (revision_repositories st v)
  | None => []
  end.
Definition merge_order (st : State) (repo : string) (ids : list string) : list string :=
  flat_map (contribution st repo) (first_occurrences ∅ ids).

Definition ordered (a : assembly) (repo : string) : list string := default [] (orderedRevisions a !! repo).
(** [repo] is an input of [iid], on the base the assembly recorded. *)
Definition OnBase (st : State) (product : string) (a : assembly) (iid repo : string) : Prop :=
  exists rev, latest_revision st iid repo = Some rev
    /\ baseCommits a !! repo = Some (observed_base st product repo (IntegrationRevision_BaseCommit rev)).
Definition Extends (a a' : assembly) : Prop :=
  (forall r b, baseCommits a !! r = Some b -> baseCommits a' !! r = Some b)
  /\ (forall r, is_Some (orderedRevisions a !! r) -> is_Some (orderedRevisions a' !! r)).
Lemma Extends_trans a b c : Extends a b -> Extends b c -> Extends a c.
Proof. intros [H1 H2] [H3 H4]; split; auto. Qed.
Lemma Extends_refl a : Extends a a.
Proof. split; auto. Qed.
Lemma OnBase_extends st product a a' iid repo : Extends a a' -> OnBase st product a iid repo -> OnBase st product a' iid repo.
Proof. intros [H _] (rev & ? & Hb). exists rev; auto. Qed.

Lemma assemble_repository_spec st product iid a repo a' :
  assemble_repository st product iid a repo = Ok a' ->
  Extends a a' /\ seenIntegrations a' = seenIntegrations a /\ OnBase st product a' iid repo
  /\ is_Some (orderedRevisions a' !! repo)
  /\ forall r, ordered a' r =
       ordered a r ++ (if repo == r then match latest_revision st iid repo with Some rev => [ID rev] | None => [] end else []).
Proof.
  unfold assemble_repository. intros Ha.
  destruct (latest_revision st iid repo) as [rev|] eqn:Hrev; [|discriminate].
  destruct (repositoryBinding st repo) as [binding|]; [|discriminate].
  step_guards Ha. cbv zeta in Ha. step_guards Ha. injection Ha as <-.
  split; [split|split; [reflexivity|split; [|split]]].
  - intros r b Hb. cbn. apply lookup_insert_Some. destruct (decide (repo = r)) as [<-|]; [|auto].
    left; split; [reflexivity|]. rewrite Hb in G0. to_prop. congruence.
  - intros r Hr. cbn. apply lookup_insert_is_Some'; auto.
  - exists rev; split; [exact Hrev|]. cbn. apply lookup_insert_eq.
  - cbn. rewrite lookup_insert_eq. eauto.
  - intros r. unfold ordered. cbn. case_bool_decide as E; [subst r; rewrite lookup_insert_eq; reflexivity|].
    rewrite lookup_insert_ne, app_nil_r by exact E. reflexivity.
Qed.

Lemma assemble_repositories_spec st product iid repos a a' :
  foldM (assemble_repository st product iid) a repos = Ok a' ->
  Extends a a' /\ seenIntegrations a' = seenIntegrations a
  /\ (forall repo, repo ∈ repos -> OnBase st product a' iid repo /\ is_Some (orderedRevisions a' !! repo))
  /\ forall r, ordered a' r = ordered a r ++ flat_map (fun repo =>
       if repo == r then match latest_revision st iid repo with Some rev => [ID rev] | None => [] end else []) repos.
Proof.
  revert a; induction repos as [|repo repos IH]; cbn; intros a Ha.
  { injection Ha as <-. split; [apply Extends_refl|]. split; [reflexivity|].
    split; [intros ? Hx; inversion Hx|]. intros r; rewrite app_nil_r; reflexivity. }
  apply bind_Ok in Ha as (a1 & H1 & Ha).
  apply assemble_repository_spec in H1 as (He1 & Hs1 & Hb1 & Ho1 & Hr1).
  destruct (IH a1 Ha) as (He & Hs & Hb & Hr).
  split; [eapply Extends_trans; eassumption|]. split; [congruence|]. split.
  - intros r [->|Hin]%elem_of_cons; [|auto]. split; [eapply OnBase_extends; eassumption|apply He, Ho1].
  - intros r. rewrite Hr, Hr1, <- app_assoc. reflexivity.
Qed.

Lemma assemble_integration_spec st product a iid a' :
  assemble_integration st product a iid = Ok a' ->
  Extends a a' /\ seenIntegrations a' = {[iid]} ∪ seenIntegrations a
  /\ (iid ∈ seenIntegrations a -> a' = a)
  /\ (iid ∉ seenIntegrations a -> exists v, integration st iid = Some v /\ ProductID v = product
       /\ Integration_Status v <> "released"
       /\ (forall repo, repo ∈ revision_repositories st v -> OnBase st product a' iid repo /\ is_Some (orderedRevisions a' !! repo))
       /\ forall r, ordered a' r = ordered a r ++ contribution st r iid).
Proof.
  unfold assemble_integration. case_bool_decide as Hin.
  { intros [= <-]. split; [apply Extends_refl|]. split; [set_solver|]. split; [reflexivity|contradiction]. }
  destruct (integration st iid) as [v|] eqn:Hv; [|discriminate]. intros Ha. step_guards Ha.
  apply assemble_repositories_spec in Ha as (He & Hs & Hb & Hr). to_prop.
  split; [exact He|]. split; [exact Hs|]. split; [contradiction|]. intros _.
  exists v; repeat split; auto; try (apply Hb; assumption).
  intros r. rewrite Hr. unfold contribution. rewrite Hv. reflexivity.
Qed.

Lemma assemble_all_spec st product ids a a' :
  foldM (assemble_integration st product) a ids = Ok a' ->
  Extends a a'
  /\ (forall iid, iid ∈ ids -> iid ∉ seenIntegrations a ->
        exists v, integration st iid = Some v /\ ProductID v = product /\ Integration_Status v <> "released"
        /\ forall repo, repo ∈ revision_repositories st v -> OnBase st product a' iid repo /\ is_Some (orderedRevisions a' !! repo))
  /\ forall r, ordered a' r = ordered a r ++ flat_map (contribution st r) (first_occurrences (seenIntegrations a) ids).
Proof.
  revert a; induction ids as [|iid ids IH]; cbn; intros a Ha.
  { injection Ha as <-. split; [apply Extends_refl|]. split; [intros ? Hx; inversion Hx|].
    intros r; rewrite app_nil_r; reflexivity. }
  apply bind_Ok in Ha as (a1 & H1 & Ha).
  apply assemble_integration_spec in H1 as (He1 & Hs1 & Hold & Hnew).
  destruct (IH a1 Ha) as (He & Hb & Hr).
  split; [eapply Extends_trans; eassumption|]. split.
  - intros i Hi Hni. destruct (decide (i = iid)) as [->|Hne].
    + destruct (Hnew Hni) as (v & ? & ? & ? & Hrepos & _). exists v; repeat split; auto;
        [eapply OnBase_extends; [exact He|apply Hrepos; assumption]|apply He, Hrepos; assumption].
    + apply Hb; [|rewrite Hs1; set_solver]. apply elem_of_cons in Hi as [|]; [contradiction|assumption].
  - intros r. rewrite Hr. case_bool_decide as Hin; [rewrite (Hold Hin); reflexivity|].
    destruct (Hnew Hin) as (_ & _ & _ & _ & _ & Ho). cbn. rewrite Ho, Hs1, <- app_assoc. reflexivity.
Qed.

(** The integrations an assembly takes. *)
Definition selection (st : State) (productID : string) (requested : list string) : list string :=
  if bool_decide (requested = []) then default_selection st productID else requested.

(** Assembling is faithful to the selection: every selected integration
    belongs to the product and is unreleased; every component merges, in the
    caller's order, the latest captured revision of each selected integration
    in the application's repository, and all of them sit on the component's
    base commit; and every APPLICATION of a repository the selection touches
    gets a component. *)
Theorem assemble_components_faithful `{MapOrder} st product e comp_id requested comps :
  assembleComponents st product e comp_id requested = Ok comps ->
  let ids := selection st product requested in
  (forall iid, iid ∈ ids -> exists v, integration st iid = Some v /\ ProductID v = product /\ Integration_Status v <> "released")
  /\ (forall c, c ∈ comps -> exists app, app ∈ State_Applications st /\ ProductID app = product
        /\ ComponentKind app = "APPLICATION" /\ CompositionComponent_ApplicationID c = ID app
        /\ CompositionComponent_TargetBranch c = "generated/" +:+ e +:+ "/" +:+ comp_id +:+ "/" +:+ Application_RepositoryID app
        /\ CompositionComponent_RevisionIDs c = merge_order st (Application_RepositoryID app) ids
        /\ forall iid v, iid ∈ ids -> integration st iid = Some v ->
             Application_RepositoryID app ∈ revision_repositories st v ->
             exists rev, latest_revision st iid (Application_RepositoryID app) = Some rev
               /\ observed_base st product (Application_RepositoryID app) (IntegrationRevision_BaseCommit rev)
                  = CompositionComponent_BaseCommit c)
  /\ (forall iid v app, iid ∈ ids -> integration st iid = Some v -> app ∈ State_Applications st -> ProductID app = product ->
        ComponentKind app = "APPLICATION" -> Application_RepositoryID app ∈ revision_repositories st v ->
        exists c, c ∈ comps /\ CompositionComponent_ApplicationID c = ID app).
Proof.
  intros Ha ids. unfold assembleComponents in Ha. destruct (environmentByID st e) as [env|]; [|discriminate].
  step_guards Ha. injection Ha as <-. rename a into asm.
  change (foldM (assemble_integration st product) zero ids = Ok asm) in E.
  apply assemble_all_spec in E as (_ & Hids & Hord).
  assert (Hids' : forall iid, iid ∈ ids -> exists v, integration st iid = Some v /\ ProductID v = product
     /\ Integration_Status v <> "released" /\ forall repo, repo ∈ revision_repositories st v ->
     OnBase st product asm iid repo /\ is_Some (orderedRevisions asm !! repo)).
  { intros iid Hi. apply Hids; [exact Hi|cbn; set_solver]. }
  clear Hids. split; [|split].
  - intros iid Hi. destruct (Hids' iid Hi) as (v & ? & ? & ? & _). eauto.
  - intros c Hc. unfold components_of in Hc. rewrite list_elem_of_In in Hc.
    apply in_flat_map in Hc as ([repo revs] & Hm & Hc). apply list_elem_of_In in Hm. apply list_elem_of_In in Hc.
    apply elem_of_map_range in Hm. apply elem_of_map in Hc as (app & -> & Happ).
    apply elem_of_filter_list in Happ as [Happ Hsel]. unfold component_application in Hsel. to_prop.
    subst repo. exists app. cbn. repeat split; auto.
    + specialize (Hord (Application_RepositoryID app)). unfold ordered in Hord at 1. rewrite Hm in Hord. exact Hord.
    + intros iid v Hi Hv Hrepo. destruct (Hids' iid Hi) as (v' & Hv' & _ & _ & Hb).
      rewrite Hv in Hv'; injection Hv' as <-. destruct (Hb _ Hrepo) as [(rev & Hrev & Hbase) _].
      exists rev; split; [exact Hrev|]. rewrite Hbase. reflexivity.
  - intros iid v app Hi Hv Happ Hprod Hkind Hrepo. destruct (Hids' iid Hi) as (v' & Hv' & _ & _ & Hb).
    rewrite Hv in Hv'; injection Hv' as <-. destruct (Hb _ Hrepo) as [_ [revs Hrevs]].
    exists (component_of e comp_id asm (Application_RepositoryID app) revs app). split; [|reflexivity].
    unfold components_of. rewrite list_elem_of_In. apply in_flat_map.
    exists (Application_RepositoryID app, revs). rewrite <- !list_elem_of_In.
    split; [apply elem_of_map_range; exact Hrevs|]. apply elem_of_map. exists app; split; [reflexivity|].
    apply elem_of_filter_list. split; [exact Happ|]. unfold component_application.
    rewrite !bool_decide_true by auto. reflexivity.
Qed.
