(* ===== verification/Conflicts.v ===== *)
(** * Composition conflicts

    [internal/application/composition_conflict.go]: the durable record of a
    merge conflict with the semantic context it froze, the claim / resolve /
    verify protocol an outside agent follows, and the evidence a resolution
    needs before it can be reused in a rebuild. *)
From S2P Require Import Prelude GoText GoJson Delivery Domain Status Planning Handlers.
Open Scope string_scope.
Open Scope list_scope.

(** ** Recording a conflict — [appendCompositionConflict] *)
Definition affected_integrations (snapshot : Composition) (repo : string) : list string :=
  foldl (fun affected r =>
    if (IntegrationRevision_RepositoryID r == repo) && negb (contains affected (IntegrationRevision_IntegrationID r))
    then affected ++ [IntegrationRevision_IntegrationID r] else affected) [] (Composition_RevisionSnapshots snapshot).
Definition freeze_integration (st : State) (c : CompositionConflict) (iid : string) : CompositionConflict :=
  match integration st iid with
  | None => c
  | Some v =>
    let c := c <| CompositionConflict_Integrations ::= fun l => l ++ [v] |> in
    let c := match feature st (FeatureID v) with
             | Some f => c <| CompositionConflict_Features ::= fun l => l ++ [f] |>
             | None => c
             end in
    c <| CompositionConflict_Memories ::= fun l => l ++ List.filter (fun m =>
           (FeatureID m == FeatureID v) && ((Memory_IntegrationID m == "") || (Memory_IntegrationID m == iid)))
           (State_Memories st) |>
  end.
Definition freeze_gate (st : State) (c : CompositionConflict) (g : Gate) : CompositionConflict :=
  if existsb (fun v => contains (Gate_IntegrationIDs g) (ID v)) (CompositionConflict_Integrations c)
  then c <| CompositionConflict_Gates ::= fun l => l ++ [g] |>
         <| CompositionConflict_Checks ::= fun l => l ++ List.filter (fun k => Check_GateID k == ID g) (State_Checks st) |>
  else c.
Definition frozen_conflict `{World} (st : State) (op : ExternalOperation) (source : FlowSource) (at_ : Time)
    : CompositionConflict :=
  let c := (zero : CompositionConflict)
    <| CompositionConflict_Meta := mkMeta (fresh "appendCompositionConflict" 0) (ProductID op) ""
         (ExternalOperation_RequestedBy op) at_ at_ |>
    <| CompositionConflict_OperationID := ID op |>
    <| CompositionConflict_RepositoryID := FlowSource_RepositoryID source |>
    <| CompositionConflict_Source := source |> <| CompositionConflict_Status := "requires_resolution" |> in
  let c := match ExternalOperation_CompositionSnapshot op with
           | None => c
           | Some s => foldl (freeze_integration st) (c <| CompositionConflict_CompositionID := ID s |>)
                         (affected_integrations s (FlowSource_RepositoryID source))
           end in
  foldl (freeze_gate st) c (State_Gates st).
Definition appendCompositionConflict `{World} (st : State) (op : ExternalOperation) (source : FlowSource) (at_ : Time) : State :=
  if existsb (fun c => (CompositionConflict_OperationID c == ID op)
                       && (CompositionConflict_RepositoryID c == FlowSource_RepositoryID source)) (State_CompositionConflicts st)
  then st
  else
    let c := frozen_conflict st op source at_ in
    st <| State_CompositionConflicts ::= fun l => l ++ [c] |>
       <| State_Events ::= fun l => l ++ [mkEvent (fresh "appendCompositionConflict" 1) "composition_conflict_detected"
            (ExternalOperation_RequestedBy op) at_ (ID c) (ProductID op) "" zero] |>.
Definition saveCompositionConflict `{World} (st : State) (op : ExternalOperation) (source : FlowSource) (token : string) : res State :=
  match operationByID st (ID op) with
  | Some current =>
    if ExternalOperation_LeaseOwner current == token
    then Ok (appendCompositionConflict st op source (now "saveCompositionConflict" 0))
    else invalid "operation lease changed" []
  | None => invalid "operation lease changed" []
  end.

(** ** Evidence — [validateConflictResolutionEvidence] *)
Definition affected_scope (st : State) (v : CompositionConflict) (affected : gmap string string) (frozen : Integration)
    : res (gmap string string) :=
  match integration st (ID frozen), feature st (FeatureID frozen) with
  | Some current, Some owner =>
    if (ID frozen == "") || (default "" (affected !! ID frozen) != "") || (ProductID frozen != ProductID v)
       || (ProductID current != ProductID v) || (FeatureID current != FeatureID frozen) || (ProductID owner != ProductID v)
    then invalid "affected resolution integration scope changed" []
    else Ok (<[ID frozen := FeatureID frozen]> affected)
  | _, _ => invalid "affected resolution integration scope changed" []
  end.
(** The scan of one gate's integrations: which it has seen, and whether any is affected. *)
Section gate_relevant.
Context (v : CompositionConflict) (g : Gate) (affected : gmap string string).
Fixpoint gate_relevant (seen : gset string) (relevant : bool) (ids : list string) : res bool :=
  match ids with
  | [] => Ok relevant
  | i :: ids =>
    match affected !! i with
    | None => gate_relevant seen relevant ids
    | Some fid =>
      if bool_decide (i ∈ seen) || (ProductID g != ProductID v) || (FeatureID g != fid)
      then invalid "resolution gate scope changed" []
      else gate_relevant ({[i]} ∪ seen) true ids
    end
  end.
End gate_relevant.
Definition relevant_gate (v : CompositionConflict) (affected : gmap string string) (gates : gmap string Gate) (g : Gate)
    : res (gmap string Gate) :=
  relevant ← gate_relevant v g affected ∅ false (Gate_IntegrationIDs g);
  if negb relevant then Ok gates
  else if bool_decide (is_Some (gates !! ID g)) || (ID g == "") then invalid "resolution gate identity unavailable" []
  else Ok (<[ID g := g]> gates).
Definition relevant_check (v : CompositionConflict) (gates : gmap string Gate) (checks : gmap string Check) (c : Check)
    : res (gmap string Check) :=
  match gates !! Check_GateID c with
  | None => Ok checks
  | Some g =>
    if (ID c == "") || (ProductID c != ProductID v) || (FeatureID c != FeatureID g)
    then invalid "resolution check scope changed" []
    else Ok (<[ID c := c]> checks)
  end.
(** [m[key(x)] = i] and [m[key(x)]++] over a slice. *)
Definition last_index {A} (key : A -> string) (l : list A) : gmap string nat :=
  snd (foldl (fun '(i, m) x => (S i, <[key x := i]> m)) (O, ∅) l).
Definition counts {A} (key : A -> string) (l : list A) (k : string) : nat :=
  length (List.filter (fun x => key x == k) l).

Record evidence := mkEvidence { ev_seen : gset string; ev_passed : gset string; ev_covered : gset string }.
Definition covered_by (affected : gmap string string) (fid : string) (ids : list string) : gset string :=
  list_to_set (List.filter (fun i => bool_decide (affected !! i = Some fid)) ids).
Definition accept_result (st : State) (v : CompositionConflict) (affected : gmap string string) (gates : gmap string Gate)
    (checks : gmap string Check) (e : evidence) (rid : string) : res evidence :=
  if bool_decide (rid ∈ ev_seen e) || negb (counts ID (State_Results st) rid =? 1)%nat
  then invalid "unique current resolution results required" []
  else
    match last_index ID (State_Results st) !! rid with
    | None => Err ErrPanic
    | Some i =>
      match State_Results st !! i with
      | None => Err ErrPanic
      | Some r =>
        match checks !! CheckResult_CheckID r with
        | None => invalid "resolution checks must be current, scoped and passed on the exact commit" []
        | Some c =>
          if negb (counts ID (State_Checks st) (CheckResult_CheckID r) =? 1)%nat || (ProductID r != ProductID v)
             || (FeatureID r != FeatureID c) || (CheckResult_Result r != "passed")
             || (CheckResult_Commit r != CompositionConflict_ResolutionCommit v)
             || (last_index CheckResult_CheckID (State_Results st) !! CheckResult_CheckID r != Some i)
          then invalid "resolution checks must be current, scoped and passed on the exact commit" []
          else
            let ids := match gates !! Check_GateID c with Some g => Gate_IntegrationIDs g | None => [] end in
            Ok (mkEvidence ({[rid]} ∪ ev_seen e) ({[ID c]} ∪ ev_passed e)
                  (covered_by affected (FeatureID r) ids ∪ ev_covered e))
        end
      end
    end.
Definition blocking_gate (gates : gmap string Gate) (c : Check) : bool :=
  match gates !! Check_GateID c with Some g => Gate_Blocking g | None => false end.
Definition validateConflictResolutionEvidence `{MapOrder} (st : State) (v : CompositionConflict) (resultIDs : list string)
    : res unit :=
  _ ← reject_if (negb (fullSHA (CompositionConflict_ResolutionCommit v)) || bool_decide (resultIDs = [])
                 || bool_decide (CompositionConflict_Integrations v = []))
        (invalid "resolution and check evidence required" []);
  affected ← foldM (affected_scope st v) ∅ (CompositionConflict_Integrations v);
  gates ← foldM (relevant_gate v affected) ∅ (State_Gates st);
  checks ← foldM (relevant_check v gates) ∅ (State_Checks st);
  _ ← each (fun kv => reject_if (Gate_Blocking kv.2 && negb (existsb (fun c => Check_GateID c == ID kv.2) (State_Checks st)))
        (invalid "blocking resolution gate has no checks" [])) (map_range gates);
  e ← foldM (accept_result st v affected gates checks) (mkEvidence ∅ ∅ ∅) resultIDs;
  _ ← each (fun kv => reject_if (blocking_gate gates kv.2 && negb (bool_decide (ID kv.2 ∈ ev_passed e)))
        (invalid "blocking resolution check %s missing" [ID kv.2])) (map_range checks);
  each (fun kv => reject_if (negb (bool_decide (kv.1 ∈ ev_covered e)))
    (invalid "resolution verification missing for integration %s" [kv.1])) (map_range affected).

(** ** The protocol — [applyCompositionConflict] *)
(** The input struct — application/composition_conflict.go:72 *)
Record ConflictInput := mkConflictInput {
  ConflictInput_ConflictID : string; ConflictInput_Commit : string; ConflictInput_Rationale : string;
  ConflictInput_ResultIDs : list string
}.
#[export] Instance zero_ConflictInput : Zero ConflictInput := mkConflictInput zero zero zero zero.
#[export] Instance fields_ConflictInput `{Runtime} : Fields ConflictInput :=
  [
    field "conflict_id" ConflictInput_ConflictID; field "commit" ConflictInput_Commit;
    field "rationale" ConflictInput_Rationale; field "result_ids" ConflictInput_ResultIDs
  ].

Section apply.
Context `{Runtime, World, MapOrder}.

(** One command on one conflict. *)
Definition conflict_step (st : State) (action actor : string) (input : ConflictInput) (v : CompositionConflict)
    : res CompositionConflict :=
  if action == "claim_composition_conflict" then
    _ ← reject_if ((CompositionConflict_Status v != "requires_resolution")
          && negb ((CompositionConflict_Status v == "claimed") && (CompositionConflict_ClaimedBy v == actor)))
          (invalid "conflict already claimed or resolved" []);
    Ok (v <| CompositionConflict_Status := "claimed" |> <| CompositionConflict_ClaimedBy := actor |>)
  else if action == "record_conflict_resolution" then
    _ ← reject_if ((CompositionConflict_Status v != "claimed") || (CompositionConflict_ClaimedBy v != actor)
          || negb (fullSHA (ConflictInput_Commit input)) || (ConflictInput_Rationale input == ""))
          (invalid "claim owner, exact commit and rationale required" []);
    Ok (v <| CompositionConflict_ResolutionCommit := ConflictInput_Commit input |>
          <| CompositionConflict_Rationale := ConflictInput_Rationale input |>
          <| CompositionConflict_Status := "verification_required" |>)
  else if action == "verify_conflict_resolution" then
    _ ← reject_if ((CompositionConflict_Status v != "verification_required") && (CompositionConflict_Status v != "resolved"))
          (invalid "resolution and check evidence required" []);
    _ ← validateConflictResolutionEvidence st v (ConflictInput_ResultIDs input);
    Ok (v <| CompositionConflict_ResultIDs := ConflictInput_ResultIDs input |> <| CompositionConflict_Status := "resolved" |>)
  else Ok v.
Definition conflictByID (st : State) (id : string) : option CompositionConflict :=
  find_first (has_id id) (State_CompositionConflicts st).
Definition applyCompositionConflict : Handler := fun st c m =>
  input ← decode (Command_Data c) (zero : ConflictInput);
  match conflictByID st (ConflictInput_ConflictID input) with
  | None => missing "conflict" (ConflictInput_ConflictID input)
  | Some v =>
    _ ← reject_if ((Command_ProductID c == "") || (Command_ProductID c != ProductID v)) (invalid "conflict product mismatch" []);
    v' ← conflict_step st (Command_Action c) (Command_Actor c) input v;
    let v' := v' <| CompositionConflict_Meta ::= fun mt => mt <| Meta_UpdatedAt := now "applyCompositionConflict" 0 |> |> in
    Ok (st <| State_CompositionConflicts ::= update_first (has_id (ConflictInput_ConflictID input)) (fun _ => v') |>,
        OutConflict v', (CompositionConflict_Meta v') <| Meta_Actor := Command_Actor c |>)
  end.

(** ** Reusing resolutions in a rebuild — [attachConflictResolutions] *)
Definition attach_to (c : CompositionConflict) (s : FlowSource) : FlowSource :=
  s <| FlowSource_Plan ::= fun p =>
    p <| SourcePlan_ResolutionSHA := CompositionConflict_ResolutionCommit c |>
      <| SourcePlan_ResolutionConflictID := ID c |> |>.
(** The sources after one conflict, with [used] and whether it was found. *)
Fixpoint attach_sources (c : CompositionConflict) (used : gset string) (found : bool) (sources : list FlowSource)
    : res (list FlowSource * gset string * bool) :=
  match sources with
  | [] => Ok ([], used, found)
  | s :: sources =>
    if FlowSource_RepositoryID s != CompositionConflict_RepositoryID c then
      '(rest, used, found) ← attach_sources c used found sources;
      Ok (s :: rest, used, found)
    else if bool_decide (CompositionConflict_RepositoryID c ∈ used)
            || (SourcePlan_BaseSHA (FlowSource_Plan s) != SourcePlan_BaseSHA (FlowSource_Plan (CompositionConflict_Source c)))
            || (SourcePlan_HeadSHAs (FlowSource_Plan s) != SourcePlan_HeadSHAs (FlowSource_Plan (CompositionConflict_Source c)))
    then invalid "resolution source selection changed" []
    else
      '(rest, used, found) ← attach_sources c ({[CompositionConflict_RepositoryID c]} ∪ used) true sources;
      Ok (attach_to c s :: rest, used, found)
  end.
Definition attach_conflict (st : State) (comp : Composition) (id : string)
    (acc : list FlowSource * gset string * bool) (c : CompositionConflict) : res (list FlowSource * gset string * bool) :=
  if ID c != id then Ok acc
  else
    _ ← reject_if ((ProductID c != ProductID comp) || (CompositionConflict_CompositionID c != ID comp)
          || (CompositionConflict_Status c != "resolved") || negb (fullSHA (CompositionConflict_ResolutionCommit c)))
          (invalid "verified resolution for exact composition required" []);
    _ ← validateConflictResolutionEvidence st c (CompositionConflict_ResultIDs c);
    attach_sources c acc.1.2 acc.2 acc.1.1.
Definition attach_id (st : State) (comp : Composition) (acc : list FlowSource * gset string) (id : string)
    : res (list FlowSource * gset string) :=
  '(attached, found) ← foldM (attach_conflict st comp id) (acc, false) (State_CompositionConflicts st);
  if found : bool then Ok attached else invalid "resolution unavailable for composition" [].
Definition attachConflictResolutions (st : State) (comp : Composition) (sources : list FlowSource) (ids : list string)
    : res (list FlowSource) :=
  acc ← foldM (attach_id st comp) (sources, ∅ : gset string) ids;
  Ok acc.1.

(** [validateFlowConflictResolutions] *)
Definition queued_resolution (ids : list string) (s : FlowSource) : res (list string) :=
  let id := SourcePlan_ResolutionConflictID (FlowSource_Plan s) in
  let sha := SourcePlan_ResolutionSHA (FlowSource_Plan s) in
  if (id == "") && (sha == "") then Ok ids
  else if (id == "") || (sha == "") then invalid "incomplete queued resolution identity" []
  else Ok (ids ++ [id]).
Definition same_resolution (a b : FlowSource) : bool :=
  (SourcePlan_ResolutionSHA (FlowSource_Plan a) == SourcePlan_ResolutionSHA (FlowSource_Plan b))
  && (SourcePlan_ResolutionConflictID (FlowSource_Plan a) == SourcePlan_ResolutionConflictID (FlowSource_Plan b)).
Definition validateFlowConflictResolutions (st : State) (op : ExternalOperation) : res unit :=
  ids ← foldM queued_resolution [] (ExternalOperation_Sources op);
  if bool_decide (ids = []) then Ok ()
  else match ExternalOperation_CompositionSnapshot op with
       | None => invalid "queued resolution composition unavailable" []
       | Some s =>
         if ProductID op != ProductID s then invalid "queued resolution composition unavailable" []
         else
           checked ← attachConflictResolutions st s (ExternalOperation_Sources op) ids;
           each (fun ab => reject_if (negb (same_resolution ab.1 ab.2)) (invalid "queued resolution changed" []))
             (zip checked (ExternalOperation_Sources op))
       end.
End apply.

(** * Properties *)

(** ** What accepted evidence shows *)
Lemma last_index_spec {A} (key : A -> string) l k i :
  last_index key l !! k = Some i ->
  (exists x, l !! i = Some x /\ key x = k) /\ forall j y, l !! j = Some y -> key y = k -> (j <= i)%nat.
Proof.
  unfold last_index.
  assert (Hlen : forall l, fst (foldl (fun '(i, m) x => (S i, <[key x := i]> m)) (O, ∅ : gmap string nat) l) = length l).
  { clear. induction l as [|x l IH] using rev_ind; [reflexivity|].
    rewrite foldl_app, length_app; cbn. destruct (foldl _ _ l); cbn in *. lia. }
  induction l as [|x l IH] using rev_ind; [cbn; rewrite lookup_empty; discriminate|].
  rewrite foldl_app; cbn. pose proof (Hlen l) as Hl. destruct (foldl _ _ l) as [n m]; cbn in *. subst n.
  intros [[<- <-]|[Hne Hm]]%lookup_insert_Some.
  - split; [exists x; rewrite list_lookup_middle by reflexivity; auto|].
    intros j y Hj _. apply lookup_lt_Some in Hj. rewrite length_app in Hj; cbn in Hj. lia.
  - destruct (IH Hm) as [(y & Hy & Hk) Hmax]. split.
    + exists y; split; [apply lookup_app_l_Some; exact Hy|exact Hk].
    + intros j z [Hj|[Hge Hj]]%lookup_app_Some Hz; [eauto|].
      apply list_lookup_singleton_Some in Hj as [_ <-]. congruence.
Qed.

Lemma affected_spec st v l aff aff' :
  foldM (affected_scope st v) aff l = Ok aff' ->
  (forall i, is_Some (aff !! i) -> is_Some (aff' !! i)) /\ forall f, f ∈ l -> is_Some (aff' !! ID f).
Proof.
  revert aff; induction l as [|f l IH]; cbn; intros aff Hf.
  { injection Hf as <-. split; [auto|intros ? Hx; inversion Hx]. }
  apply bind_Ok in Hf as (a1 & H1 & Hf). destruct (IH a1 Hf) as [Hmono Hin].
  assert (Ha1 : a1 = <[ID f := FeatureID f]> aff).
  { revert H1; unfold affected_scope. destruct (integration st _); [|discriminate].
    destruct (feature st _); [|discriminate].
    destruct (_ || _); [discriminate|congruence]. }
  subst a1. split.
  - intros i Hi. apply Hmono, lookup_insert_is_Some'; auto.
  - intros g [->|Hg]%elem_of_cons; [|auto]. apply Hmono. rewrite lookup_insert_eq; eauto.
Qed.

Lemma gate_relevant_spec v g aff seen rel ids b :
  gate_relevant v g aff seen rel ids = Ok b ->
  rel = true \/ (exists i, i ∈ ids /\ is_Some (aff !! i)) -> b = true.
Proof.
  revert seen rel; induction ids as [|i ids IH]; cbn; intros seen rel Hg.
  { injection Hg as <-. intros [->|(i & Hi & _)]; [reflexivity|inversion Hi]. }
  destruct (aff !! i) as [fid|] eqn:E.
  - destruct (_ || _); [discriminate|]. intros _. eapply IH; eauto.
  - intros [->|(j & [->|Hj]%elem_of_cons & Hs)]; [eapply IH; eauto| |eapply IH; eauto].
    rewrite E in Hs; destruct Hs; discriminate.
Qed.

Lemma gates_spec v aff l m m' :
  foldM (relevant_gate v aff) m l = Ok m' ->
  (forall k g, m !! k = Some g -> m' !! k = Some g)
  /\ (forall k g, m' !! k = Some g -> m !! k = Some g \/ g ∈ l /\ ID g = k)
  /\ forall g i, g ∈ l -> i ∈ Gate_IntegrationIDs g -> is_Some (aff !! i) -> m' !! ID g = Some g.
Proof.
  revert m; induction l as [|g l IH]; cbn; intros m Hf.
  { injection Hf as <-. split; [auto|]. split; [auto|]. intros ? ? Hx; inversion Hx. }
  apply bind_Ok in Hf as (m1 & H1 & Hf). destruct (IH m1 Hf) as (Hmono & Hback & Hin).
  unfold relevant_gate in H1. apply bind_Ok in H1 as (rel & Hrel & H1).
  assert (Hm1 : (m1 = m /\ rel = false) \/ (m1 = <[ID g := g]> m /\ m !! ID g = None)).
  { destruct rel; cbn in H1; [|left; split; congruence]. right. revert H1.
    destruct (_ || _) eqn:Hd; [discriminate|]. intros [= <-]. to_prop. split; [reflexivity|].
    destruct (m !! ID g) eqn:E; [exfalso; eauto|reflexivity]. }
  split; [|split].
  - intros k h Hk. apply Hmono. destruct Hm1 as [[-> _]|[-> Hn]]; [exact Hk|].
    rewrite lookup_insert_ne by congruence. exact Hk.
  - intros k h Hk. destruct (Hback k h Hk) as [Hk'|[Hl Hid]]; [|right; split; [right|]; assumption].
    destruct Hm1 as [[-> _]|[-> Hn]]; [auto|]. apply lookup_insert_Some in Hk' as [[<- <-]|[_ Hk']]; [|auto].
    right; split; [left|reflexivity].
  - intros h i [->|Hh]%elem_of_cons Hi Ha; [|eauto].
    pose proof (gate_relevant_spec _ _ _ _ _ _ _ Hrel (or_intror (ex_intro _ i (conj Hi Ha)))) as ->.
    destruct Hm1 as [[_ Hx]|[-> _]]; [discriminate|]. apply Hmono, lookup_insert_eq.
Qed.

Lemma checks_spec v gates l m m' :
  foldM (relevant_check v gates) m l = Ok m' ->
  (forall k, is_Some (m !! k) -> is_Some (m' !! k))
  /\ (forall k c, m' !! k = Some c -> m !! k = Some c \/ c ∈ l /\ ID c = k /\ is_Some (gates !! Check_GateID c))
  /\ forall c, c ∈ l -> is_Some (gates !! Check_GateID c) -> is_Some (m' !! ID c).
Proof.
  revert m; induction l as [|c l IH]; cbn; intros m Hf.
  { injection Hf as <-. split; [auto|]. split; [auto|]. intros ? Hx; inversion Hx. }
  apply bind_Ok in Hf as (m1 & H1 & Hf). destruct (IH m1 Hf) as (Hmono & Hback & Hin).
  assert (Hm1 : (m1 = m /\ gates !! Check_GateID c = None) \/ (m1 = <[ID c := c]> m /\ is_Some (gates !! Check_GateID c))).
  { revert H1; unfold relevant_check. destruct (gates !! Check_GateID c); [|left; split; congruence].
    destruct (_ || _); [discriminate|]. intros [= <-]. eauto. }
  split; [|split].
  - intros k Hk. apply Hmono. destruct Hm1 as [[-> _]|[-> _]]; [exact Hk|]. apply lookup_insert_is_Some'; auto.
  - intros k h Hk. destruct (Hback k h Hk) as [Hk'|(? & ? & ?)]; [|right; repeat split; auto; right; assumption].
    destruct Hm1 as [[-> _]|[-> Hs]]; [auto|]. apply lookup_insert_Some in Hk' as [[<- <-]|[_ Hk']]; [|auto].
    right; repeat split; auto; left.
  - intros h [->|Hh]%elem_of_cons Hs; [|auto]. apply Hmono. destruct Hm1 as [[_ Hn]|[-> _]].
    + rewrite Hn in Hs; destruct Hs; discriminate.
    + rewrite lookup_insert_eq; eauto.
Qed.

(** A result that counts: the last one of its check, passed on the commit. *)
Definition Accepted (st : State) (v : CompositionConflict) (checks : gmap string Check) (rid : string)
    (r : CheckResult) (c : Check) : Prop :=
  exists i, State_Results st !! i = Some r /\ ID r = rid /\ checks !! CheckResult_CheckID r = Some c
    /\ CheckResult_Result r = "passed" /\ CheckResult_Commit r = CompositionConflict_ResolutionCommit v
    /\ ProductID r = ProductID v
    /\ forall j y, State_Results st !! j = Some y -> CheckResult_CheckID y = CheckResult_CheckID r -> (j <= i)%nat.

Lemma accept_result_spec st v aff gates checks e rid e' :
  accept_result st v aff gates checks e rid = Ok e' ->
  exists r c, Accepted st v checks rid r c /\ rid ∉ ev_seen e /\ ev_seen e' = {[rid]} ∪ ev_seen e
    /\ ev_passed e' = {[ID c]} ∪ ev_passed e
    /\ forall i, i ∈ ev_covered e' -> i ∈ ev_covered e \/ exists g, gates !! Check_GateID c = Some g /\ i ∈ Gate_IntegrationIDs g.
Proof.
  unfold accept_result. case_bool_decide as Hseen; [discriminate|]. cbn [orb].
  destruct (negb _); [discriminate|].
  destruct (last_index ID _ !! rid) as [i|] eqn:Hi; [|discriminate].
  destruct (last_index_spec _ _ _ _ Hi) as [(r & Hr & Hid) _]. rewrite Hr.
  destruct (checks !! CheckResult_CheckID r) as [c|] eqn:Hc; [|discriminate].
  destruct (_ || _) eqn:Hok; [discriminate|]. intros [= <-]. to_prop.
  exists r, c. split; [|split; [exact Hseen|split; [reflexivity|split; [reflexivity|]]]].
  - exists i. repeat split; auto. intros j y Hj Hy.
    match goal with Hl : last_index CheckResult_CheckID _ !! _ = Some i |- _ => apply last_index_spec in Hl as [_ Hmax] end.
    eapply Hmax; eassumption.
  - intros k [Hk|Hk]%elem_of_union; [right|left; exact Hk].
    unfold covered_by in Hk. rewrite elem_of_list_to_set, elem_of_filter_list in Hk. destruct Hk as [Hk _].
    destruct (gates !! Check_GateID c) as [g|]; [eauto|inversion Hk].
Qed.

Lemma accept_all_spec st v aff gates checks ids e e' :
  foldM (accept_result st v aff gates checks) e ids = Ok e' ->
  NoDup ids /\ (forall rid, rid ∈ ids -> rid ∉ ev_seen e /\ exists r c, Accepted st v checks rid r c)
  /\ (forall k, k ∈ ev_passed e' -> k ∈ ev_passed e \/ exists rid r c, rid ∈ ids /\ Accepted st v checks rid r c /\ ID c = k)
  /\ (forall i, i ∈ ev_covered e' -> i ∈ ev_covered e \/ exists rid r c g,
        rid ∈ ids /\ Accepted st v checks rid r c /\ gates !! Check_GateID c = Some g /\ i ∈ Gate_IntegrationIDs g).
Proof.
  revert e; induction ids as [|rid ids IH]; cbn; intros e Hf.
  { injection Hf as <-. split; [constructor|]. split; [intros ? Hx; inversion Hx|]. auto. }
  apply bind_Ok in Hf as (e1 & H1 & Hf).
  destruct (accept_result_spec _ _ _ _ _ _ _ _ H1) as (r & c & Hacc & Hns & Hs & Hp & Hcov).
  destruct (IH e1 Hf) as (Hnd & Hall & Hpass & Hcover). rewrite Hs in Hall. rewrite Hp in Hpass.
  split; [|split; [|split]].
  - apply list.NoDup_cons; split; [|exact Hnd]. intros Hin. destruct (Hall rid Hin). set_solver.
  - intros k [->|Hk]%elem_of_cons; [eauto|]. destruct (Hall k Hk). split; [set_solver|assumption].
  - intros k Hk. destruct (Hpass k Hk) as [Hk'|(? & ? & ? & ? & ? & ?)]; [|right; do 3 eexists; split; [right|]; eauto].
    apply elem_of_union in Hk' as [->%elem_of_singleton|Hk']; [|auto].
    right; exists rid, r, c; split; [left|auto].
  - intros i Hi. destruct (Hcover i Hi) as [Hi'|(? & ? & ? & ? & ? & ?)]; [|right; do 4 eexists; split; [right|]; eauto].
    destruct (Hcov i Hi') as [|(g & ? & ?)]; [auto|]. right; exists rid, r, c, g; split; [left|auto].
Qed.

(** Accepted evidence is real: the resolution commit is exact; every listed
    result is the last one recorded for its check, passed on that commit, in
    the conflict's product; every check of every blocking gate over an
    affected integration is among them; and every affected integration is
    covered by a listed result of a gate that names it. *)
Definition Evidence (st : State) (v : CompositionConflict) (ids : list string) : Prop :=
  fullSHA (CompositionConflict_ResolutionCommit v) = true /\ NoDup ids
  /\ exists checks : gmap string Check,
       (forall k c, checks !! k = Some c -> c ∈ State_Checks st /\ ID c = k)
       /\ (forall rid, rid ∈ ids -> exists r c, Accepted st v checks rid r c)
       /\ (forall f g c, f ∈ CompositionConflict_Integrations v -> g ∈ State_Gates st -> ID f ∈ Gate_IntegrationIDs g ->
             Gate_Blocking g = true -> c ∈ State_Checks st -> Check_GateID c = ID g ->
             exists rid r, rid ∈ ids /\ Accepted st v checks rid r c)
       /\ (forall f, f ∈ CompositionConflict_Integrations v -> exists rid r c g,
             rid ∈ ids /\ Accepted st v checks rid r c /\ g ∈ State_Gates st /\ Check_GateID c = ID g
             /\ ID f ∈ Gate_IntegrationIDs g).
Lemma conflict_evidence_sound `{MapOrder} st v ids :
  validateConflictResolutionEvidence st v ids = Ok () -> NoDup (map ID (State_Checks st)) -> Evidence st v ids.
Proof.
  intros Hv Hnd. unfold validateConflictResolutionEvidence in Hv. step_guards Hv. to_prop.
  rename a into aff, a0 into gates, a1 into checks, a3 into e.
  destruct (affected_spec _ _ _ _ _ E) as [_ Haff].
  destruct (gates_spec _ _ _ _ _ E0) as (_ & Hgback & Hgates).
  destruct (checks_spec _ _ _ _ _ E1) as (_ & Hcback & Hchecks).
  assert (Hc : forall k c, checks !! k = Some c -> c ∈ State_Checks st /\ ID c = k /\ is_Some (gates !! Check_GateID c)).
  { intros k c Hk. destruct (Hcback k c Hk) as [Hx|?]; [rewrite lookup_empty in Hx; discriminate|assumption]. }
  destruct (accept_all_spec _ _ _ _ _ _ _ _ E3) as (Hids & Hall & Hpass & Hcov).
  split; [assumption|]. split; [exact Hids|]. exists checks. split; [intros k c Hk; destruct (Hc k c Hk) as (? & ? & _); auto|].
  split; [intros rid Hr; apply Hall, Hr|]. split.
  - intros f g c Hf Hg Hfg Hblock Hcin Hcg.
    pose proof (Hgates g (ID f) Hg Hfg (Haff f Hf)) as Hgk.
    assert (Hck : checks !! ID c = Some c).
    { destruct (Hchecks c Hcin) as [c' Hc']; [rewrite Hcg; eauto|].
      destruct (Hc _ _ Hc') as (Hin' & Hid' & _). rewrite Hc'. f_equal.
      eapply nodup_map_inj; eauto. }
    destruct a4. rewrite each_Ok, list.Forall_forall in E4.
    specialize (E4 (ID c, c) (proj2 (elem_of_map_range _ _ _) Hck)). cbn in E4. rewrite reject_if_invalid in E4.
    unfold blocking_gate in E4. rewrite Hcg, Hgk, Hblock in E4. cbn in E4. to_prop.
    destruct (Hpass _ E4) as [Hx|(rid & r & c' & Hr & Hacc & Hid)]; [set_solver|].
    assert (c' = c) as ->; [|eauto]. destruct Hacc as (i & _ & _ & Hck' & _). destruct (Hc _ _ Hck') as (Hin' & _ & _).
    eapply nodup_map_inj; eauto.
  - intros f Hf. destruct (Haff f Hf) as [fid Hfid]. rewrite each_Ok, list.Forall_forall in Hv.
    specialize (Hv (ID f, fid) (proj2 (elem_of_map_range _ _ _) Hfid)). cbn in Hv. rewrite reject_if_invalid in Hv. to_prop.
    destruct (Hcov _ Hv) as [Hx|(rid & r & c & g & Hr & Hacc & Hg & Hin)]; [set_solver|].
    destruct (Hgback _ _ Hg) as [Hx|[Hgin Hgid]]; [rewrite lookup_empty in Hx; discriminate|].
    exists rid, r, c, g; auto.
Qed.

(** ** The protocol of one conflict *)
Definition settled (v : CompositionConflict) : Prop :=
  CompositionConflict_Status v = "verification_required" \/ CompositionConflict_Status v = "resolved".
Section protocol.
Context `{Runtime, MapOrder}.

(** A command accepted by the handler in a store that holds the conflict as
    [v] and leaves it as [v'], and a history of them.  Between two commands
    the rest of the store may have become anything. *)
Definition Handled (st : State) (c : Command) (v v' : CompositionConflict) : Prop :=
  exists (W : World) m st' m' input, decode (Command_Data c) (zero : ConflictInput) = Ok input
    /\ conflictByID st (ConflictInput_ConflictID input) = Some v
    /\ applyCompositionConflict st c m = Ok (st', OutConflict v', m').
Inductive History (v0 : CompositionConflict) : list (State * Command) -> CompositionConflict -> Prop :=
| history_start : History v0 [] v0
| history_command h st c v v' : History v0 h v -> Handled st c v v' -> History v0 (h ++ [(st, c)]) v'.

(** What each stage owes to the history. *)
Definition Claimed (h : list (State * Command)) (v : CompositionConflict) : Prop :=
  exists st c, (st, c) ∈ h /\ Command_Action c = "claim_composition_conflict"
    /\ Command_Actor c = CompositionConflict_ClaimedBy v.
Definition Recorded (h : list (State * Command)) (v : CompositionConflict) : Prop :=
  exists before st c after input, h = before ++ (st, c) :: after /\ Claimed before v
    /\ Command_Action c = "record_conflict_resolution" /\ Command_Actor c = CompositionConflict_ClaimedBy v
    /\ decode (Command_Data c) (zero : ConflictInput) = Ok input
    /\ ConflictInput_Commit input = CompositionConflict_ResolutionCommit v
    /\ ConflictInput_Rationale input = CompositionConflict_Rationale v
    /\ fullSHA (CompositionConflict_ResolutionCommit v) = true /\ CompositionConflict_Rationale v <> "".
Definition Verified (h : list (State * Command)) (v : CompositionConflict) : Prop :=
  exists before st c after input, h = before ++ (st, c) :: after /\ Recorded before v
    /\ Command_Action c = "verify_conflict_resolution"
    /\ decode (Command_Data c) (zero : ConflictInput) = Ok input
    /\ ConflictInput_ResultIDs input = CompositionConflict_ResultIDs v
    /\ validateConflictResolutionEvidence st v (CompositionConflict_ResultIDs v) = Ok ().
Record ConflictInv (h : list (State * Command)) (v : CompositionConflict) : Prop := {
  stage_known : CompositionConflict_Status v ∈ ["requires_resolution"; "claimed"; "verification_required"; "resolved"];
  stage_claimed : CompositionConflict_Status v = "claimed" -> Claimed h v;
  stage_recorded : settled v -> Recorded h v;
  stage_verified : CompositionConflict_Status v = "resolved" -> Verified h v;
}.

Lemma claimed_more h h' v : Claimed h v -> Claimed (h ++ h') v.
Proof. intros (st & c & Hin & ?). exists st, c. split; [apply elem_of_app; auto|assumption]. Qed.
Lemma recorded_more h h' v : Recorded h v -> Recorded (h ++ h') v.
Proof. intros (b & st & c & a & i & -> & ?). exists b, st, c, (a ++ h'), i. rewrite <- app_assoc. auto. Qed.
Lemma verified_more h h' v : Verified h v -> Verified (h ++ h') v.
Proof. intros (b & st & c & a & i & -> & ?). exists b, st, c, (a ++ h'), i. rewrite <- app_assoc. auto. Qed.

Lemma conflict_step_cases st action actor input v v' :
  conflict_step st action actor input v = Ok v' ->
  v' = v
  \/ (action = "claim_composition_conflict"
      /\ (CompositionConflict_Status v = "requires_resolution"
          \/ CompositionConflict_Status v = "claimed" /\ CompositionConflict_ClaimedBy v = actor)
      /\ v' = v <| CompositionConflict_Status := "claimed" |> <| CompositionConflict_ClaimedBy := actor |>)
  \/ (action = "record_conflict_resolution" /\ CompositionConflict_Status v = "claimed"
      /\ CompositionConflict_ClaimedBy v = actor /\ fullSHA (ConflictInput_Commit input) = true
      /\ ConflictInput_Rationale input <> ""
      /\ v' = v <| CompositionConflict_ResolutionCommit := ConflictInput_Commit input |>
                <| CompositionConflict_Rationale := ConflictInput_Rationale input |>
                <| CompositionConflict_Status := "verification_required" |>)
  \/ (action = "verify_conflict_resolution" /\ settled v
      /\ validateConflictResolutionEvidence st v (ConflictInput_ResultIDs input) = Ok ()
      /\ v' = v <| CompositionConflict_ResultIDs := ConflictInput_ResultIDs input |>
                <| CompositionConflict_Status := "resolved" |>).
Proof.
  unfold conflict_step, settled. intros Hs.
  case_bool_decide as Ha; [right; left|case_bool_decide as Hb; [right; right; left|case_bool_decide as Hc; [do 3 right|left; congruence]]].
  - step_guards Hs. injection Hs as <-. split; [exact Ha|]. split; [|reflexivity].
    apply andb_false_iff in G as [G|G]; to_prop; auto.
  - step_guards Hs. injection Hs as <-. to_prop. auto 10.
  - step_guards Hs. injection Hs as <-. destruct a. split; [exact Hc|]. split; [|auto].
    apply andb_false_iff in G as [G|G]; to_prop; auto.
Qed.

Definition restamped (t : Time) (v : CompositionConflict) : CompositionConflict :=
  v <| CompositionConflict_Meta ::= fun mt => mt <| Meta_UpdatedAt := t |> |>.
Lemma handled_inv st c v v' : Handled st c v v' ->
  exists input w t, decode (Command_Data c) (zero : ConflictInput) = Ok input
    /\ conflict_step st (Command_Action c) (Command_Actor c) input v = Ok w /\ v' = restamped t w.
Proof.
  intros (W & m & st' & m' & input & Hd & Hv & Ha). unfold applyCompositionConflict in Ha. rewrite Hd in Ha. cbn in Ha.
  rewrite Hv in Ha. apply bind_Ok in Ha as ([] & _ & Ha). apply bind_Ok in Ha as (w & Hw & Ha).
  injection Ha as _ <- _. exists input, w, (now "applyCompositionConflict" 0). auto.
Qed.

Lemma stamped_evidence st t v ids :
  validateConflictResolutionEvidence st (restamped t v) ids = validateConflictResolutionEvidence st v ids.
Proof. reflexivity. Qed.
Lemma conflict_step_inv h st c v v' : Handled st c v v' -> ConflictInv h v -> ConflictInv (h ++ [(st, c)]) v'.
Proof.
  intros (input & w & t & Hd & Hs & ->)%handled_inv [Hst Hcl Hset Hver].
  destruct (conflict_step_cases _ _ _ _ _ _ Hs) as [->|[(Ha & _ & ->)|[(Ha & Hc & Ho & Hsha & Hr & ->)|(Ha & Hprev & Hev & ->)]]].
  - split; intros; [exact Hst|apply claimed_more, Hcl; assumption|apply recorded_more, Hset; assumption
                   |apply verified_more, Hver; assumption].
  - split; cbn; [set_solver| |intros [Hx|Hx]; discriminate|discriminate]. intros _. exists st, c. split; [set_solver|auto].
  - split; cbn; [set_solver|discriminate| |discriminate]. intros _. exists h, st, c, [], input.
    split; [reflexivity|]. split; [exact (Hcl Hc)|]. cbn. auto 10.
  - split; cbn; [set_solver|discriminate|intros _; apply recorded_more; exact (Hset Hprev)|].
    intros _. exists h, st, c, [], input. split; [reflexivity|]. split; [exact (Hset Hprev)|]. auto.
Qed.
Lemma conflict_step_settled st c v v' : Handled st c v v' -> settled v ->
  settled v' /\ CompositionConflict_ResolutionCommit v' = CompositionConflict_ResolutionCommit v
  /\ CompositionConflict_Rationale v' = CompositionConflict_Rationale v
  /\ CompositionConflict_ClaimedBy v' = CompositionConflict_ClaimedBy v.
Proof.
  intros (input & w & t & _ & Hs & ->)%handled_inv Hset.
  destruct (conflict_step_cases _ _ _ _ _ _ Hs) as [->|[(_ & Hprev & ->)|[(_ & Hprev & _ & _ & _ & ->)|(_ & _ & _ & ->)]]].
  - auto.
  - unfold settled in Hset. destruct Hprev as [Hp|[Hp _]], Hset; congruence.
  - unfold settled in Hset. destruct Hset; congruence.
  - split; [right; reflexivity|auto].
Qed.
Lemma conflict_frozen v h v' : History v h v' -> settled v ->
  settled v' /\ CompositionConflict_ResolutionCommit v' = CompositionConflict_ResolutionCommit v
  /\ CompositionConflict_Rationale v' = CompositionConflict_Rationale v
  /\ CompositionConflict_ClaimedBy v' = CompositionConflict_ClaimedBy v.
Proof.
  intros Hh Hx; induction Hh as [|h st c y z _ IH Hyz]; [auto|]. destruct IH as (Hy & E1 & E2 & E3).
  destruct (conflict_step_settled _ _ _ _ Hyz Hy) as (Hz & F1 & F2 & F3). repeat split; congruence || assumption.
Qed.

(** A conflict starts unresolved. *)
Lemma frozen_unresolved `{World} st op source at_ :
  CompositionConflict_Status (frozen_conflict st op source at_) = "requires_resolution".
Proof.
  unfold frozen_conflict.
  assert (Hg : forall l c, CompositionConflict_Status (foldl (freeze_gate st) c l) = CompositionConflict_Status c).
  { induction l as [|g l IH]; intros c; cbn [foldl]; [reflexivity|]. rewrite IH. unfold freeze_gate. destruct (existsb _ _); reflexivity. }
  assert (Hi : forall l c, CompositionConflict_Status (foldl (freeze_integration st) c l) = CompositionConflict_Status c).
  { induction l as [|i l IH]; intros c; cbn [foldl]; [reflexivity|]. rewrite IH. unfold freeze_integration.
    destruct (integration st i) as [v|]; [|reflexivity]. destruct (feature st (FeatureID v)); reflexivity. }
  rewrite Hg. destruct (ExternalOperation_CompositionSnapshot op); [rewrite Hi|]; reflexivity.
Qed.
Lemma conflict_history_inv v0 h v : CompositionConflict_Status v0 = "requires_resolution" -> History v0 h v -> ConflictInv h v.
Proof.
  intros Hnew Hh; induction Hh as [|h st c y z _ IH Hyz]; [|eapply conflict_step_inv; eassumption].
  split; [rewrite Hnew; left|congruence|intros [E|E]; congruence|congruence].
Qed.

(** What a resolved conflict rests on. *)
Definition Resolved (h : list (State * Command)) (v : CompositionConflict) : Prop :=
  exists before st c after, h = before ++ (st, c) :: after /\ Recorded before v
    /\ Command_Action c = "verify_conflict_resolution"
    /\ (NoDup (map ID (State_Checks st)) -> Evidence st v (CompositionConflict_ResultIDs v)).
Lemma verified_resolved h v : Verified h v -> Resolved h v.
Proof.
  intros (b & st & c & a & i & -> & Hrec & Ha & _ & _ & Hev). exists b, st, c, a. split; [reflexivity|]. split; [exact Hrec|].
  split; [exact Ha|]. intros Hnd. exact (conflict_evidence_sound _ _ _ Hev Hnd).
Qed.

(** C39 whatever commands the handler accepts on a recorded conflict, in any
    order, with the rest of the store free to change in between: a claimed
    conflict was claimed by the actor it names; one with a recorded resolution
    was claimed first, and then an accepted record command of exactly that
    owner gave exactly that full commit and a rationale; a resolved one was
    verified after that by an accepted command in a store where the named
    results are [Evidence] for that commit (the last of their checks, passed
    on it, all blocking gates and affected integrations covered).  Once a
    resolution is recorded, its commit, rationale and owner never change. *)
Theorem conflict_protocol_safe `{World} st op source at_ h v :
  History (frozen_conflict st op source at_) h v ->
  CompositionConflict_Status v ∈ ["requires_resolution"; "claimed"; "verification_required"; "resolved"]
  /\ (CompositionConflict_Status v = "claimed" -> Claimed h v)
  /\ (settled v -> Recorded h v)
  /\ (CompositionConflict_Status v = "resolved" -> Resolved h v)
  /\ forall later v', History v later v' -> settled v -> settled v'
       /\ CompositionConflict_ResolutionCommit v' = CompositionConflict_ResolutionCommit v
       /\ CompositionConflict_Rationale v' = CompositionConflict_Rationale v
       /\ CompositionConflict_ClaimedBy v' = CompositionConflict_ClaimedBy v.
Proof.
  intros Hh. destruct (conflict_history_inv _ _ _ (frozen_unresolved st op source at_) Hh) as [Hst Hcl Hrec Hver].
  split; [exact Hst|]. split; [exact Hcl|]. split; [exact Hrec|]. split; [intros Hr; apply verified_resolved, Hver, Hr|].
  intros later v'. apply conflict_frozen.
Qed.
End protocol.

(** ** Reusing a resolution *)
Section attach.
Context `{MapOrder} (st : State) (comp : Composition).

(** A conflict whose resolution may be reused for the composition. *)
Definition Reusable (c : CompositionConflict) : Prop :=
  c ∈ State_CompositionConflicts st /\ ProductID c = ProductID comp /\ CompositionConflict_CompositionID c = ID comp
  /\ CompositionConflict_Status c = "resolved" /\ fullSHA (CompositionConflict_ResolutionCommit c) = true
  /\ validateConflictResolutionEvidence st c (CompositionConflict_ResultIDs c) = Ok ().
Definition SameSources (s : FlowSource) (c : CompositionConflict) : Prop :=
  FlowSource_RepositoryID s = CompositionConflict_RepositoryID c
  /\ SourcePlan_BaseSHA (FlowSource_Plan s) = SourcePlan_BaseSHA (FlowSource_Plan (CompositionConflict_Source c))
  /\ SourcePlan_HeadSHAs (FlowSource_Plan s) = SourcePlan_HeadSHAs (FlowSource_Plan (CompositionConflict_Source c)).
Definition Attached (s s' : FlowSource) : Prop :=
  s' = s \/ exists c, Reusable c /\ SameSources s c /\ s' = attach_to c s.

Lemma Attached_trans a b c : Attached a b -> Attached b c -> Attached a c.
Proof.
  intros [->|(x & Hx & Hsx & ->)]; [auto|].
  intros [->|(y & Hy & Hsy & ->)]; right; [exists x; auto|]. exists y; auto.
Qed.
Lemma Forall2_Attached_trans l1 l2 l3 : Forall2 Attached l1 l2 -> Forall2 Attached l2 l3 -> Forall2 Attached l1 l3.
Proof.
  intros H12; revert l3; induction H12 as [|a b l1 l2 Hab _ IH]; intros l3 H23; inversion H23; subst; constructor;
    [eapply Attached_trans; eassumption|auto].
Qed.
Lemma Forall2_Attached_refl l : Forall2 Attached l l.
Proof. induction l; constructor; [left|]; auto. Qed.

Lemma attach_sources_sound c used found l out :
  Reusable c -> attach_sources c used found l = Ok out -> Forall2 Attached l out.1.1.
Proof.
  intros Hc; revert used found out; induction l as [|s l IH]; cbn; intros used found out Ha.
  { injection Ha as <-. constructor. }
  destruct (FlowSource_RepositoryID s != _) eqn:Hrepo.
  - apply bind_Ok in Ha as ([[rest u] fd] & H1 & Ha). injection Ha as <-. constructor; [left; reflexivity|].
    apply (IH _ _ _ H1).
  - destruct (_ || _) eqn:Hok; [discriminate|]. apply bind_Ok in Ha as ([[rest u] fd] & H1 & Ha). injection Ha as <-.
    to_prop. constructor; [|apply (IH _ _ _ H1)]. right; exists c; split; [exact Hc|]. split; [split; auto|reflexivity].
Qed.
Lemma attach_conflicts_sound id l acc out :
  l ⊆ State_CompositionConflicts st -> foldM (attach_conflict st comp id) acc l = Ok out -> Forall2 Attached acc.1.1 out.1.1.
Proof.
  revert acc; induction l as [|c l IH]; cbn; intros acc Hl Hf.
  { injection Hf as <-. apply Forall2_Attached_refl. }
  apply bind_Ok in Hf as (acc1 & H1 & Hf).
  apply (Forall2_Attached_trans _ acc1.1.1); [|apply IH; [set_solver|exact Hf]].
  unfold attach_conflict in H1. destruct (ID c != id); [injection H1 as <-; apply Forall2_Attached_refl|].
  step_guards H1. destruct a. to_prop. eapply attach_sources_sound; [|exact H1]. repeat split; auto. set_solver.
Qed.

(** A rebuild reuses only verified resolutions of exactly its composition:
    each source either keeps its plan or carries the commit of a resolved
    conflict with currently valid evidence, recorded for the same repository,
    base and heads. *)
Theorem attached_resolutions_verified sources ids out :
  attachConflictResolutions st comp sources ids = Ok out -> Forall2 Attached sources out.
Proof.
  unfold attachConflictResolutions. intros Ha. apply bind_Ok in Ha as (acc & Ha & Hout). injection Hout as <-.
  change sources with (sources, ∅ : gset string).1 at 1. revert Ha. generalize (sources, ∅ : gset string).
  induction ids as [|id ids IH]; cbn; intros p Hf.
  { injection Hf as <-. apply Forall2_Attached_refl. }
  apply bind_Ok in Hf as (p1 & H1 & Hf). apply (Forall2_Attached_trans _ p1.1); [|apply IH, Hf].
  unfold attach_id in H1. apply bind_Ok in H1 as ([q found] & H1 & H2).
  apply attach_conflicts_sound in H1; [|reflexivity]. destruct found; [injection H2 as <-; exact H1|discriminate].
Qed.
End attach.
