(* ===== verification/Scenarios.v ===== *)
(** * Test scenarios

    [internal/application/scenarios.go]: immutable versions of a behaviour
    definition, execution runs bound to the exact sources and artifacts that
    were tested, and the readiness of a release candidate. *)
From S2P Require Import Prelude GoText GoJson Delivery Domain Status Planning Handlers.
Open Scope string_scope.
Open Scope list_scope.

Definition latest_scenario_step (id : string) (r : option ScenarioVersion) (v : ScenarioVersion) : option ScenarioVersion :=
  if (ScenarioVersion_ScenarioID v == id)
     && match r with None => true | Some r => (ScenarioVersion_Version r <? ScenarioVersion_Version v)%Z end
  then Some v else r.
Definition latestScenario (st : State) (id : string) : option ScenarioVersion :=
  foldl (latest_scenario_step id) None (State_ScenarioVersions st).
Definition scenarioVersion (st : State) (id : string) : option ScenarioVersion :=
  find_first (has_id id) (State_ScenarioVersions st).

(** The input struct — application/scenarios.go:34 *)
Record ScenarioInput := mkScenarioInput {
  ScenarioInput_ScenarioID : string; ScenarioInput_IntegrationIDs : list string;
  ScenarioInput_Title : string; ScenarioInput_Objective : string;
  ScenarioInput_Preconditions : list string; ScenarioInput_Steps : list string;
  ScenarioInput_ExpectedOutcomes : list string; ScenarioInput_Mechanism : string;
  ScenarioInput_Blocking : bool
}.
#[export] Instance zero_ScenarioInput : Zero ScenarioInput := mkScenarioInput zero zero zero zero zero zero zero zero zero.
#[export] Instance fields_ScenarioInput `{Runtime} : Fields ScenarioInput :=
  [
    field "scenario_id" ScenarioInput_ScenarioID; field "integration_ids" ScenarioInput_IntegrationIDs;
    field "title" ScenarioInput_Title; field "objective" ScenarioInput_Objective;
    field "preconditions" ScenarioInput_Preconditions; field "steps" ScenarioInput_Steps;
    field "expected_outcomes" ScenarioInput_ExpectedOutcomes;
    field "mechanism" ScenarioInput_Mechanism; field "blocking" ScenarioInput_Blocking
  ].
(** The input struct — application/scenarios.go:86 *)
Record RunInput := mkRunInput {
  RunInput_ScenarioVersionID : string; RunInput_CompositionID : string;
  RunInput_CandidateOperationID : string; RunInput_EnvironmentID : string;
  RunInput_Components : list ScenarioComponentEvidence; RunInput_Result : string;
  RunInput_Observations : list string; RunInput_Artifacts : list Artifact;
  RunInput_FindingIDs : list string
}.
#[export] Instance zero_RunInput : Zero RunInput := mkRunInput zero zero zero zero zero zero zero zero zero.
#[export] Instance fields_RunInput `{Runtime} : Fields RunInput :=
  [
    field "scenario_version_id" RunInput_ScenarioVersionID;
    field "composition_id" RunInput_CompositionID;
    field "candidate_operation_id" RunInput_CandidateOperationID;
    field "environment_id" RunInput_EnvironmentID; field "components" RunInput_Components;
    field "result" RunInput_Result; field "observations" RunInput_Observations;
    field "artifacts" RunInput_Artifacts; field "finding_ids" RunInput_FindingIDs
  ].

(** ** What a run must show — [validateScenarioTarget] *)
Definition scenario_execution (st : State) (run : ScenarioRun) (op : ExternalOperation) : bool :=
  (ProductID op == ProductID run) && (ExternalOperation_Kind op == "COMPOSE")
  && (ExternalOperation_Status op == "SUCCEEDED") && (ExternalOperation_DeploymentState op == "DEPLOYED")
  && match ExternalOperation_CompositionSnapshot op with
     | Some s => ID s == ScenarioRun_CompositionID run
     | None => false
     end
  && forallb (fun e => contains (ExternalOperation_ChildIDs op) (ScenarioComponentEvidence_OperationID e))
       (ScenarioRun_Components run).
(** The target of a run: its environment, the parent operation, and the
    applications and integrations under test. *)
Record target := mkTarget {
  target_environment : string;
  target_parent : ExternalOperation;
  target_applications : list string;
  target_integrations : list string
}.
Definition candidate_target (st : State) (run : ScenarioRun) : res target :=
  match operationByID st (ScenarioRun_CandidateOperationID run) with
  | None => invalid "successful product release candidate required" []
  | Some parent =>
    _ ← reject_if ((ExternalOperation_Kind parent != "RELEASE_CANDIDATE") || (ProductID parent != ProductID run)
          || (ExternalOperation_Status parent != "SUCCEEDED")
          || (ExternalOperation_DeploymentState parent != "READY_FOR_VERIFICATION"))
          (invalid "successful product release candidate required" []);
    _ ← reject_if ((ScenarioRun_EnvironmentID run != "")
          && match environmentByID st (ScenarioRun_EnvironmentID run) with
             | Some e => ProductID e != ProductID run
             | None => true
             end) (invalid "test environment outside product" []);
    Ok (mkTarget (ScenarioRun_EnvironmentID run) parent [] (ExternalOperation_IntegrationIDs parent))
  end.
Definition composition_target (st : State) (run : ScenarioRun) : res target :=
  match find_last (has_id (ScenarioRun_CompositionID run)) (State_Compositions st) with
  | None => invalid "composition must belong to product" []
  | Some comp =>
    _ ← reject_if (ProductID comp != ProductID run) (invalid "composition must belong to product" []);
    _ ← reject_if ((ScenarioRun_EnvironmentID run != "") && (ScenarioRun_EnvironmentID run != Composition_EnvironmentID comp))
          (invalid "composition environment mismatch" []);
    match find_first (scenario_execution st run) (State_Operations st) with
    | None => invalid "composition needs a successful execution matching component evidence" []
    | Some parent =>
      Ok (mkTarget (Composition_EnvironmentID comp) parent
            (map CompositionComponent_ApplicationID (Composition_Components comp))
            (map IntegrationRevision_IntegrationID (Composition_RevisionSnapshots comp)))
    end
  end.
Section validate.
Context `{Runtime}.

(** One component's evidence against the child operation it names. *)
Definition component_evidence (st : State) (run : ScenarioRun) (t : target) (seen : gset string)
    (e : ScenarioComponentEvidence) : res (gset string) :=
  match operationByID st (ScenarioComponentEvidence_OperationID e) with
  | None => invalid "successful target child with available artifact required" []
  | Some child =>
    match ExternalOperation_Snapshot child, ExternalOperation_Artifact child with
    | Some snap, Some artifact =>
      _ ← reject_if (negb (contains (ExternalOperation_ChildIDs (target_parent t)) (ID child))
            || (ProductID child != ProductID run) || (ExternalOperation_Status child != "SUCCEEDED")
            || negb (ArtifactResult_Available artifact))
            (invalid "successful target child with available artifact required" []);
      _ ← reject_if (bool_decide (ScenarioComponentEvidence_ApplicationID e ∈ seen)
            || (ScenarioComponentEvidence_ApplicationID e != ID (DeliverySnapshot_Application snap))
            || (ScenarioComponentEvidence_SourceSHA e != IntegrationRevision_HeadCommit (DeliverySnapshot_Revision snap))
            || (ScenarioComponentEvidence_ArtifactDigest e != ArtifactResult_Digest artifact)
            || negb (fullSHA (ScenarioComponentEvidence_SourceSHA e))
            || negb (is_digest (ScenarioComponentEvidence_ArtifactDigest e)))
            (invalid "component source or artifact does not match immutable execution" []);
      _ ← reject_if ((ScenarioRun_CompositionID run != "")
            && (negb (contains (target_applications t) (ScenarioComponentEvidence_ApplicationID e))
                || blank (ScenarioComponentEvidence_DeploymentEvidence e)))
            (invalid "composition component deployment evidence required" []);
      Ok ({[ScenarioComponentEvidence_ApplicationID e]} ∪ seen)
    | _, _ => invalid "successful target child with available artifact required" []
    end
  end.
(** The run comes back with the environment of its composition. *)
Definition validateScenarioTarget (st : State) (definition : ScenarioVersion) (run : ScenarioRun) : res ScenarioRun :=
  _ ← reject_if (Bool.eqb (ScenarioRun_CompositionID run == "") (ScenarioRun_CandidateOperationID run == ""))
        (invalid "exactly one composition_id or candidate_operation_id required" []);
  t ← (if ScenarioRun_CandidateOperationID run != "" then candidate_target st run else composition_target st run);
  let run := run <| ScenarioRun_EnvironmentID := target_environment t |> in
  _ ← each (fun i => reject_if (negb (contains (target_integrations t) i))
        (invalid "scenario integration is absent from tested target" [])) (ScenarioVersion_IntegrationIDs definition);
  _ ← reject_if (bool_decide (ScenarioRun_Components run = [])
                 || negb (length (ScenarioRun_Components run) =? length (ExternalOperation_ChildIDs (target_parent t)))%nat)
        (invalid "complete component evidence required" []);
  seen ← foldM (component_evidence st run t) ∅ (ScenarioRun_Components run);
  _ ← reject_if (negb (bool_decide (target_applications t = [])) && negb (size seen =? length (target_applications t))%nat)
        (invalid "evidence must cover complete composition" []);
  Ok run.

(** ** applyScenario *)
Definition put_scenario (st : State) (c : Command) (m : Meta) : res (State * Out * Meta) :=
  input ← decode (Command_Data c) (zero : ScenarioInput);
  _ ← reject_if (negb (productExists st (Command_ProductID c))) (missing "product" (Command_ProductID c));
  '(sid, version) ← (if Command_Action c == "revise_test_scenario" then
      match latestScenario st (ScenarioInput_ScenarioID input) with
      | None => invalid "scenario must belong to product" []
      | Some p =>
        if ProductID p != Command_ProductID c then invalid "scenario must belong to product" []
        else Ok (ScenarioInput_ScenarioID input, wrap_int64 (ScenarioVersion_Version p + 1))
      end
    else if ScenarioInput_ScenarioID input != "" then invalid "create assigns scenario_id from command id" []
    else Ok (Meta_ID m, 1%Z));
  _ ← reject_if (blank (ScenarioInput_Title input) || blank (ScenarioInput_Objective input)
        || blank (ScenarioInput_Mechanism input) || bool_decide (ScenarioInput_Steps input = [])
        || bool_decide (ScenarioInput_ExpectedOutcomes input = []))
        (invalid "title, objective, mechanism, steps and expected_outcomes required" []);
  _ ← reject_if (existsb blank (ScenarioInput_Steps input ++ ScenarioInput_ExpectedOutcomes input))
        (invalid "steps and outcomes cannot be empty" []);
  _ ← each_unique (fun i => match integration st i with
                            | Some v => ProductID v == Command_ProductID c
                            | None => false
                            end) (invalid "unique product-scoped integration_ids required" []) ∅ (ScenarioInput_IntegrationIDs input);
  let v := mkScenarioVersion m sid version (ScenarioInput_IntegrationIDs input) (ScenarioInput_Title input)
             (ScenarioInput_Objective input) (ScenarioInput_Preconditions input) (ScenarioInput_Steps input)
             (ScenarioInput_ExpectedOutcomes input) (ScenarioInput_Mechanism input) (ScenarioInput_Blocking input) in
  Ok (st <| State_ScenarioVersions ::= fun l => l ++ [v] |>, OutScenario v, m).

Definition record_scenario_run (st : State) (c : Command) (m : Meta) : res (State * Out * Meta) :=
  input ← decode (Command_Data c) (zero : RunInput);
  match scenarioVersion st (RunInput_ScenarioVersionID input) with
  | None => invalid "scenario version must belong to product" []
  | Some definition =>
    _ ← reject_if (ProductID definition != Command_ProductID c) (invalid "scenario version must belong to product" []);
    _ ← reject_if (negb (ValidStatus "scenario_result" (RunInput_Result input)))
          (invalid "result must be passed, failed or blocked" []);
    _ ← reject_if (bool_decide (RunInput_Observations input = []) && bool_decide (RunInput_Artifacts input = []))
          (invalid "execution observations or artifacts required" []);
    _ ← reject_if (existsb blank (RunInput_Observations input)) (invalid "observations cannot be blank" []);
    _ ← reject_if (existsb (fun a => blank (Artifact_Kind a) || blank (Artifact_URL a)) (RunInput_Artifacts input))
          (invalid "artifact kind and reference required" []);
    run ← validateScenarioTarget st definition
            (mkScenarioRun m (RunInput_ScenarioVersionID input) (RunInput_CompositionID input)
               (RunInput_CandidateOperationID input) (RunInput_EnvironmentID input) (RunInput_Components input)
               (RunInput_Result input) (RunInput_Observations input) (RunInput_Artifacts input) (RunInput_FindingIDs input));
    _ ← each_unique (fun i => existsb (fun f => (ID f == i) && (ProductID f == Meta_ProductID m)) (State_Findings st))
          (invalid "unique product-scoped finding_ids required" []) ∅ (RunInput_FindingIDs input);
    Ok (st <| State_ScenarioRuns ::= fun l => l ++ [run] |>, OutScenarioRun run, m)
  end.
Definition applyScenario : Handler := fun st c m =>
  if contains ["create_test_scenario"; "revise_test_scenario"] (Command_Action c) then put_scenario st c m
  else if Command_Action c == "record_scenario_run" then record_scenario_run st c m
  else invalid "unknown scenario action" [].

(** ** Readiness of a candidate — [scenarioCandidateReady] *)
Definition latest_run (st : State) (definition candidate : string) : option ScenarioRun :=
  foldl (fun r run =>
    if (ScenarioRun_ScenarioVersionID run == definition) && (ScenarioRun_CandidateOperationID run == candidate)
       && match r with None => true | Some r => negb (Before (CreatedAt run) (CreatedAt r)) end
    then Some run else r) None (State_ScenarioRuns st).
(** The version binds the candidate: blocking, current and inside its scope. *)
Definition binding_scenario (st : State) (candidate : ExternalOperation) (d : ScenarioVersion) : bool :=
  (ProductID d == ProductID candidate) && ScenarioVersion_Blocking d
  && (ID <$> latestScenario st (ScenarioVersion_ScenarioID d) == Some (ID d))
  && forallb (contains (ExternalOperation_IntegrationIDs candidate)) (ScenarioVersion_IntegrationIDs d).
Definition scenario_covered (st : State) (candidate : ExternalOperation) (covered : gset string) (d : ScenarioVersion)
    : res (gset string) :=
  if negb (binding_scenario st candidate d) then Ok covered
  else match latest_run st (ID d) (ID candidate) with
       | None => invalid "blocking scenario %s needs passing candidate evidence" [ScenarioVersion_Title d]
       | Some run =>
         _ ← reject_if (ScenarioRun_Result run != "passed")
               (invalid "blocking scenario %s needs passing candidate evidence" [ScenarioVersion_Title d]);
         _ ← validateScenarioTarget st d run;
         Ok (list_to_set (ScenarioVersion_IntegrationIDs d) ∪ covered)
       end.
Definition scenarioCandidateReady (st : State) (candidateID : string) : res unit :=
  match operationByID st candidateID with
  | None => invalid "successful release candidate required" []
  | Some candidate =>
    _ ← reject_if ((ExternalOperation_Kind candidate != "RELEASE_CANDIDATE") || (ExternalOperation_Status candidate != "SUCCEEDED"))
          (invalid "successful release candidate required" []);
    covered ← foldM (scenario_covered st candidate) ∅ (State_ScenarioVersions st);
    each (fun i => reject_if (negb (bool_decide (i ∈ covered)))
      (invalid "integration %s requires explicit blocking scenario coverage" [i])) (ExternalOperation_IntegrationIDs candidate)
  end.
End validate.

(** * Properties *)

(** ** Versions *)
Definition IsLatestScenario (id : string) (l : list ScenarioVersion) (r : option ScenarioVersion) : Prop :=
  match r with
  | None => forall v, v ∈ l -> ScenarioVersion_ScenarioID v <> id
  | Some r => r ∈ l /\ ScenarioVersion_ScenarioID r = id
      /\ forall v, v ∈ l -> ScenarioVersion_ScenarioID v = id -> (ScenarioVersion_Version v <= ScenarioVersion_Version r)%Z
  end.
Lemma latestScenario_spec st id : IsLatestScenario id (State_ScenarioVersions st) (latestScenario st id).
Proof.
  unfold latestScenario. induction (State_ScenarioVersions st) as [|v l IH] using rev_ind; [intros v Hv; inversion Hv|].
  rewrite foldl_app; cbn. unfold latest_scenario_step at 1. revert IH.
  generalize (foldl (latest_scenario_step id) None l); intros r IH.
  case_bool_decide as Hid; cbn; [destruct r as [r|]; [destruct (Z.ltb_spec (ScenarioVersion_Version r) (ScenarioVersion_Version v))|]|];
    cbn in *; try setoid_rewrite elem_of_app; try setoid_rewrite list_elem_of_singleton.
  - destruct IH as (? & ? & Hmax). repeat split; auto. intros w [Hw| ->] Hwid; [specialize (Hmax w Hw Hwid)|]; lia.
  - destruct IH as (? & ? & Hmax). repeat split; auto. intros w [Hw| ->] Hwid; [auto|lia].
  - repeat split; auto. intros w [Hw| ->] Hwid; [destruct (IH w Hw Hwid)|lia].
  - destruct r as [r|]; cbn in *; setoid_rewrite elem_of_app; setoid_rewrite list_elem_of_singleton.
    + destruct IH as (? & ? & Hmax). repeat split; auto. intros w [Hw| ->] Hwid; [auto|congruence].
    + intros w [Hw| ->]; auto.
Qed.
Lemma latestScenario_snoc st v :
  (forall w, w ∈ State_ScenarioVersions st -> ScenarioVersion_ScenarioID w = ScenarioVersion_ScenarioID v ->
     (ScenarioVersion_Version w < ScenarioVersion_Version v)%Z) ->
  latestScenario (st <| State_ScenarioVersions ::= fun l => l ++ [v] |>) (ScenarioVersion_ScenarioID v) = Some v.
Proof.
  intros Hlt. unfold latestScenario. change (State_ScenarioVersions (st <| State_ScenarioVersions ::= _ |>))
    with (State_ScenarioVersions st ++ [v]). rewrite foldl_app; cbn. unfold latest_scenario_step at 1.
  rewrite bool_decide_true by reflexivity. cbn.
  pose proof (latestScenario_spec st (ScenarioVersion_ScenarioID v)) as Hspec. unfold latestScenario in Hspec.
  destruct (foldl _ None _) as [r|]; [|reflexivity]. destruct Hspec as (Hr & Hid & _).
  destruct (Z.ltb_spec (ScenarioVersion_Version r) (ScenarioVersion_Version v)); [reflexivity|].
  specialize (Hlt r Hr Hid). lia.
Qed.

(** Revising a scenario never rewrites history: it appends one version of
    the same scenario, numbered above every stored one, and that version
    becomes the current one. *)
Theorem revise_scenario_monotone `{Runtime} st c m st' out m' :
  put_scenario st c m = Ok (st', out, m') ->
  Command_Action c = "revise_test_scenario" ->
  (forall w, w ∈ State_ScenarioVersions st -> (1 <= ScenarioVersion_Version w < 2 ^ 63 - 1)%Z) ->
  exists v, out = OutScenario v /\ State_ScenarioVersions st' = State_ScenarioVersions st ++ [v]
    /\ ProductID v = Meta_ProductID m
    /\ (forall w, w ∈ State_ScenarioVersions st -> ScenarioVersion_ScenarioID w = ScenarioVersion_ScenarioID v ->
          (ScenarioVersion_Version w < ScenarioVersion_Version v)%Z)
    /\ (exists w, latestScenario st (ScenarioVersion_ScenarioID v) = Some w /\ ProductID w = Command_ProductID c
          /\ ScenarioVersion_Version v = (ScenarioVersion_Version w + 1)%Z)
    /\ latestScenario st' (ScenarioVersion_ScenarioID v) = Some v.
Proof.
  intros Hp Ha Hrange. unfold put_scenario in Hp. rewrite bool_decide_true in Hp by exact Ha.
  step_guards Hp. destruct a0 as [sid version].
  destruct (latestScenario st (ScenarioInput_ScenarioID a)) as [w|] eqn:Hw; [|discriminate].
  destruct (ProductID w != Command_ProductID c) eqn:Hprod; [discriminate|]. injection E0 as <- <-. to_prop.
  step_guards Hp. injection Hp as <- <- _.
  pose proof (latestScenario_spec st (ScenarioInput_ScenarioID a)) as Hspec. rewrite Hw in Hspec.
  destruct Hspec as (Hwin & Hwid & Hmax). pose proof (Hrange w Hwin) as Hb.
  assert (Hver : wrap_int64 (ScenarioVersion_Version w + 1) = (ScenarioVersion_Version w + 1)%Z).
  { unfold wrap_int64, two64. rewrite Z.mod_small; lia. }
  rewrite Hver.
  assert (Hlt : forall x, x ∈ State_ScenarioVersions st -> ScenarioVersion_ScenarioID x = ScenarioInput_ScenarioID a ->
            (ScenarioVersion_Version x < ScenarioVersion_Version w + 1)%Z).
  { intros x Hx Hxid. specialize (Hmax x Hx Hxid). lia. }
  eexists; split; [reflexivity|]. split; [reflexivity|]. split; [reflexivity|]. split; [exact Hlt|].
  split; [exists w; cbn; auto|]. cbn [ScenarioVersion_ScenarioID].
  match goal with |- latestScenario (_ <| State_ScenarioVersions ::= fun l => l ++ [?v] |>) _ = _ =>
    apply (latestScenario_snoc st v) end. exact Hlt.
Qed.

(** ** Evidence of a run *)
Record EvidenceBound (st : State) (run : ScenarioRun) (t : target) (e : ScenarioComponentEvidence) : Prop := {
  eb_child : exists child snap artifact,
    operationByID st (ScenarioComponentEvidence_OperationID e) = Some child
    /\ ID child ∈ ExternalOperation_ChildIDs (target_parent t) /\ ProductID child = ProductID run
    /\ ExternalOperation_Status child = "SUCCEEDED"
    /\ ExternalOperation_Snapshot child = Some snap /\ ExternalOperation_Artifact child = Some artifact
    /\ ArtifactResult_Available artifact = true
    /\ ID (DeliverySnapshot_Application snap) = ScenarioComponentEvidence_ApplicationID e
    /\ IntegrationRevision_HeadCommit (DeliverySnapshot_Revision snap) = ScenarioComponentEvidence_SourceSHA e
    /\ ArtifactResult_Digest artifact = ScenarioComponentEvidence_ArtifactDigest e;
  eb_exact : fullSHA (ScenarioComponentEvidence_SourceSHA e) = true /\ is_digest (ScenarioComponentEvidence_ArtifactDigest e) = true;
  eb_composition : ScenarioRun_CompositionID run <> "" ->
    ScenarioComponentEvidence_ApplicationID e ∈ target_applications t /\ blank (ScenarioComponentEvidence_DeploymentEvidence e) = false;
}.
Lemma component_evidence_spec st run t seen e seen' :
  component_evidence st run t seen e = Ok seen' ->
  EvidenceBound st run t e /\ ScenarioComponentEvidence_ApplicationID e ∉ seen
  /\ seen' = {[ScenarioComponentEvidence_ApplicationID e]} ∪ seen.
Proof.
  unfold component_evidence. intros He. destruct (operationByID _ _) as [child|] eqn:Hchild; [|discriminate].
  destruct (ExternalOperation_Snapshot child) as [snap|] eqn:Hsnap; [|discriminate].
  destruct (ExternalOperation_Artifact child) as [artifact|] eqn:Hart; [|discriminate].
  step_guards He. injection He as <-. to_prop. split; [|auto]. constructor.
  - exists child, snap, artifact. repeat split; auto.
  - auto.
  - intros Hcomp. apply andb_false_iff in G1 as [G1|G1]; to_prop; [contradiction|auto].
Qed.
Lemma component_evidences_spec st run t es seen seen' :
  foldM (component_evidence st run t) seen es = Ok seen' ->
  (forall e, e ∈ es -> EvidenceBound st run t e /\ ScenarioComponentEvidence_ApplicationID e ∉ seen)
  /\ NoDup (map ScenarioComponentEvidence_ApplicationID es)
  /\ seen' = list_to_set (map ScenarioComponentEvidence_ApplicationID es) ∪ seen.
Proof.
  revert seen; induction es as [|e es IH]; cbn; intros seen Hf.
  { injection Hf as <-. split; [intros ? Hx; inversion Hx|]. split; [constructor|set_solver]. }
  apply bind_Ok in Hf as (s1 & H1 & Hf). apply component_evidence_spec in H1 as (Hb & Hns & ->).
  destruct (IH _ Hf) as (Hall & Hnd & ->). split; [|split].
  - intros x [->|Hx]%elem_of_cons; [auto|]. destruct (Hall x Hx). split; [assumption|set_solver].
  - apply list.NoDup_cons; split; [|exact Hnd]. intros (x & Hx & Hin)%elem_of_map.
    destruct (Hall x Hin). set_solver.
  - set_solver.
Qed.

(** What a validated run establishes. *)
Definition RunTarget (st : State) (run : ScenarioRun) (t : target) : Prop :=
  if ScenarioRun_CandidateOperationID run != "" then candidate_target st run = Ok t else composition_target st run = Ok t.
Lemma validateScenarioTarget_spec `{Runtime} st d run run' :
  validateScenarioTarget st d run = Ok run' ->
  exists t, RunTarget st run t
    /\ run' = run <| ScenarioRun_EnvironmentID := target_environment t |>
    /\ (ScenarioRun_CompositionID run = "" <-> ScenarioRun_CandidateOperationID run <> "")
    /\ (forall i, i ∈ ScenarioVersion_IntegrationIDs d -> i ∈ target_integrations t)
    /\ length (ScenarioRun_Components run) = length (ExternalOperation_ChildIDs (target_parent t))
    /\ NoDup (map ScenarioComponentEvidence_ApplicationID (ScenarioRun_Components run))
    /\ (forall e, e ∈ ScenarioRun_Components run -> EvidenceBound st run' t e)
    /\ (target_applications t <> [] -> length (ScenarioRun_Components run) = length (target_applications t)).
Proof.
  unfold validateScenarioTarget. intros Hv. step_guards Hv. cbv zeta in Hv. step_guards Hv. injection Hv as <-.
  rename a into t. exists t. destruct a0. rewrite each_Ok, list.Forall_forall in E0.
  apply component_evidences_spec in E1 as (Hall & Hnd & ->). to_prop.
  split; [unfold RunTarget; destruct (ScenarioRun_CandidateOperationID run != ""); exact E|].
  split; [reflexivity|]. split.
  { revert G. repeat case_bool_decide; cbn; intros; split; intros; try congruence; try contradiction; discriminate. }
  split; [intros i Hi; specialize (E0 i Hi); rewrite reject_if_invalid in E0; to_prop; assumption|].
  match goal with Hl : (_ =? length (ExternalOperation_ChildIDs _))%nat = true |- _ => apply Nat.eqb_eq in Hl; rename Hl into Hlen end.
  split; [exact Hlen|]. split; [exact Hnd|]. split; [intros e He; apply Hall, He|].
  intros Hne. apply andb_false_iff in G1 as [G1|G1]; to_prop; [contradiction|].
  apply Nat.eqb_eq in G1. rewrite union_empty_r_L, size_list_to_set in G1 by exact Hnd. rewrite length_map in G1. exact G1.
Qed.

(** A recorded run is bound to what was executed: for each component it
    names a child of the one successful parent execution of its target, with
    the head commit that child built and the digest of the artifact it left
    available; no component is reported twice and none of the executed ones is
    missing. *)
Theorem scenario_run_bound `{Runtime} st c m st' out m' :
  record_scenario_run st c m = Ok (st', out, m') ->
  exists run t d, out = OutScenarioRun run /\ State_ScenarioRuns st' = State_ScenarioRuns st ++ [run]
    /\ scenarioVersion st (ScenarioRun_ScenarioVersionID run) = Some d /\ ProductID d = Command_ProductID c
    /\ (forall i, i ∈ ScenarioVersion_IntegrationIDs d -> i ∈ target_integrations t)
    /\ target_parent t ∈ State_Operations st /\ ExternalOperation_Status (target_parent t) = "SUCCEEDED"
    /\ ProductID (target_parent t) = ProductID run
    /\ length (ScenarioRun_Components run) = length (ExternalOperation_ChildIDs (target_parent t))
    /\ NoDup (map ScenarioComponentEvidence_ApplicationID (ScenarioRun_Components run))
    /\ forall e, e ∈ ScenarioRun_Components run -> EvidenceBound st run t e.
Proof.
  unfold record_scenario_run. intros Hr. step_guards Hr.
  destruct (scenarioVersion st _) as [d|] eqn:Hd; [|discriminate]. step_guards Hr. injection Hr as <- <- _.
  rename a0 into run. to_prop.
  destruct (validateScenarioTarget_spec _ _ _ _ E0) as (t & Ht & -> & _ & Hints & Hlen & Hnd & Hev & _).
  eexists _, t, d. split; [reflexivity|]. split; [reflexivity|]. split; [exact Hd|]. split; [assumption|].
  split; [exact Hints|].
  assert (Hparent : target_parent t ∈ State_Operations st /\ ExternalOperation_Status (target_parent t) = "SUCCEEDED"
                    /\ ProductID (target_parent t) = Meta_ProductID m).
  { unfold RunTarget in Ht. destruct (_ != ""); [unfold candidate_target in Ht|unfold composition_target in Ht].
    - destruct (operationByID st _) as [p|] eqn:Hp; [|discriminate]. step_guards Ht. injection Ht as <-. to_prop.
      apply operationByID_Some in Hp as [? _]. auto.
    - destruct (find_last _ _) as [comp|]; [|discriminate]. step_guards Ht.
      destruct (find_first _ _) as [p|] eqn:Hp; [|discriminate]. injection Ht as <-.
      apply find_first_Some in Hp as [? Hp]. unfold scenario_execution in Hp. to_prop. auto. }
  destruct Hparent as (? & ? & ?). repeat split; auto; apply Hev; assumption.
Qed.

(** ** Candidate readiness *)
Definition ScenarioPasses (st : State) `{Runtime} (candidate : ExternalOperation) (d : ScenarioVersion) : Prop :=
  exists run, latest_run st (ID d) (ID candidate) = Some run /\ ScenarioRun_Result run = "passed"
    /\ is_ok (validateScenarioTarget st d run) = true.
Record CandidateReady (st : State) `{Runtime} (candidate : ExternalOperation) : Prop := {
  ready_scenarios : forall d, d ∈ State_ScenarioVersions st -> binding_scenario st candidate d = true -> ScenarioPasses st candidate d;
  ready_coverage : forall i, i ∈ ExternalOperation_IntegrationIDs candidate ->
    exists d, d ∈ State_ScenarioVersions st /\ binding_scenario st candidate d = true /\ i ∈ ScenarioVersion_IntegrationIDs d;
}.
Section readiness.
Context `{Runtime} (st : State) (candidate : ExternalOperation).

Lemma scenario_covered_step covered d covered' :
  scenario_covered st candidate covered d = Ok covered' <->
  (binding_scenario st candidate d = false /\ covered' = covered)
  \/ (binding_scenario st candidate d = true /\ ScenarioPasses st candidate d
      /\ covered' = list_to_set (ScenarioVersion_IntegrationIDs d) ∪ covered).
Proof.
  unfold scenario_covered. destruct (binding_scenario st candidate d) eqn:Hb; cbn;
    [|split; [intros [= <-]; auto|intros [[_ ->]|([=] & _)]; reflexivity]].
  unfold ScenarioPasses. destruct (latest_run _ _ _) as [run|].
  - split.
    + intros Hs. step_guards Hs. injection Hs as <-. to_prop. right; split; [reflexivity|]. split; [|reflexivity].
      exists run; split; [reflexivity|]. split; [assumption|]. rewrite E; reflexivity.
    + intros [[[=] _]|(_ & (r & [= <-] & Hr & Hv) & ->)].
      rewrite bool_decide_true by exact Hr. cbn. destruct (validateScenarioTarget st d run); [reflexivity|discriminate].
  - split; [discriminate|]. intros [[[=] _]|(_ & (r & [=] & _) & _)].
Qed.
Lemma scenario_covered_all l covered covered' :
  foldM (scenario_covered st candidate) covered l = Ok covered' ->
  (forall d, d ∈ l -> binding_scenario st candidate d = true -> ScenarioPasses st candidate d)
  /\ forall i, i ∈ covered' <-> i ∈ covered \/ exists d, d ∈ l /\ binding_scenario st candidate d = true
       /\ i ∈ ScenarioVersion_IntegrationIDs d.
Proof.
  revert covered; induction l as [|d l IH]; cbn; intros covered Hf.
  { injection Hf as <-. split; [intros ? Hx; inversion Hx|]. intros i; split; [auto|].
    intros [?|(d & Hx & _)]; [assumption|inversion Hx]. }
  apply bind_Ok in Hf as (c1 & H1 & Hf). destruct (IH _ Hf) as [Hall Hcov].
  apply scenario_covered_step in H1 as [[Hb ->]|(Hb & Hp & ->)].
  - split; [intros x [->|Hx]%elem_of_cons ?; [congruence|auto]|]. intros i. rewrite Hcov. split.
    + intros [?|(x & ? & ? & ?)]; [auto|]. right; exists x; split; [right|]; auto.
    + intros [?|(x & [->|Hx]%elem_of_cons & ? & ?)]; [auto|congruence|]. right; eauto.
  - split; [intros x [->|Hx]%elem_of_cons ?; auto|]. intros i. rewrite Hcov, elem_of_union, elem_of_list_to_set. split.
    + intros [[?|?]|(x & ? & ? & ?)]; [right; exists d; split; [left|auto]|auto|].
      right; exists x; split; [right|]; auto.
    + intros [?|(x & [->|Hx]%elem_of_cons & ? & ?)]; [auto|auto|]. right; eauto.
Qed.
Lemma scenario_covered_total l covered :
  (forall d, d ∈ l -> binding_scenario st candidate d = true -> ScenarioPasses st candidate d) ->
  exists covered', foldM (scenario_covered st candidate) covered l = Ok covered'.
Proof.
  revert covered; induction l as [|d l IH]; cbn; intros covered Hall; [eauto|].
  destruct (IH (if binding_scenario st candidate d then list_to_set (ScenarioVersion_IntegrationIDs d) ∪ covered else covered))
    as [c' Hc']; [intros x Hx; apply Hall; right; exact Hx|]. exists c'.
  apply bind_Ok. eexists; split; [|exact Hc'].
  apply scenario_covered_step. destruct (binding_scenario st candidate d) eqn:Hb; [|auto].
  right; split; [reflexivity|]. split; [apply Hall; [left|exact Hb]|reflexivity].
Qed.
End readiness.

(** A release candidate is ready exactly when every blocking, current
    scenario inside its scope passed in its latest run on the candidate
    itself, with evidence that still matches, and these scenarios cover every
    integration of the candidate. *)
Theorem candidate_ready_iff `{Runtime} st id :
  scenarioCandidateReady st id = Ok () <->
  exists candidate, operationByID st id = Some candidate /\ ExternalOperation_Kind candidate = "RELEASE_CANDIDATE"
    /\ ExternalOperation_Status candidate = "SUCCEEDED" /\ CandidateReady st candidate.
Proof.
  unfold scenarioCandidateReady. destruct (operationByID st id) as [candidate|];
    [|split; [discriminate|intros (? & [=] & _)]]. split.
  - intros Hr. step_guards Hr. to_prop. destruct (scenario_covered_all _ _ _ _ _ E) as [Hall Hcov].
    rewrite each_Ok, list.Forall_forall in Hr. exists candidate; repeat split; auto.
    intros i Hi. specialize (Hr i Hi). rewrite reject_if_invalid in Hr. to_prop.
    apply Hcov in Hr as [?|?]; [set_solver|assumption].
  - intros (? & [= <-] & Hk & Hs & [Hall Hcov]). rewrite !bool_decide_true by assumption. cbn.
    destruct (scenario_covered_total st candidate (State_ScenarioVersions st) ∅ Hall) as [cov Hf]. rewrite Hf. cbn.
    apply each_Ok, list.Forall_forall. intros i Hi. apply reject_if_invalid.
    rewrite bool_decide_true; [reflexivity|]. apply (scenario_covered_all _ _ _ _ _ Hf). right; auto.
Qed.
