(* ===== verification/Pins.v ===== *)
(** * Artifact pins and product deletion

    [internal/domain/artifact_pins.go], [internal/application/artifact_pins.go]
    and [product_delete.go]: durable protection intents with one request key
    per product, and the guarded removal of a product's records. *)
From Stdlib Require Import DecimalString.
From S2P Require Import Prelude GoText GoJson Delivery Domain Status Planning Handlers Collections Reservation.
Open Scope string_scope.
Open Scope list_scope.

(** ** Image repository names — domain/artifact_pins.go

    [url_host host] is what [url.Parse("https://" + host)] reports, [Hostname]
    and [Port], when it succeeds without user information or path; [is_ip] is
    [net.ParseIP(s) != nil], which reads dotted decimals and hexadecimal groups
    with colons. *)
Definition ip_char (a : ascii) : bool := is_digit a || in_range 97 102 a || in_range 65 70 a || str_mem a ".:".
Class NetURL := {
  url_host : string -> option (string * string);
  is_ip : string -> bool;
  is_ip_text : forall s, is_ip s = true -> str_all ip_char s = true;
}.
Fixpoint split_any (sep : ascii -> bool) (s : string) : list string :=
  match s with
  | EmptyString => [EmptyString]
  | String a s =>
    if sep a then EmptyString :: split_any sep s
    else match split_any sep s with
         | [] => [String a EmptyString]
         | w :: ws => String a w :: ws
         end
  end.
Definition lower_alnum (a : ascii) : bool := is_digit a || is_lower a.
Definition nonempty_word (w : string) : bool := (w != "") && str_all lower_alnum w.
(** [imagePath] *)
Definition image_segment (s : string) : bool := forallb nonempty_word (split_any (fun a => str_mem a "._-") s).
Definition imagePath (s : string) : bool := forallb image_segment (split_on slash s).
(** [^[a-z0-9](?:[a-z0-9-]{0,61}[a-z0-9])?$] *)
Definition host_label (s : string) : bool :=
  (s != "") && (String.length s <=? 63)%nat && str_all (fun a => lower_alnum a || (a == "-"%char)) s
  && negb (has_prefix "-" s) && negb (has_suffix "-" s).
Fixpoint cut (sep : ascii) (s : string) : option (string * string) :=
  match s with
  | EmptyString => None
  | String a s =>
    if a == sep then Some (EmptyString, s)
    else match cut sep s with Some (l, r) => Some (String a l, r) | None => None end
  end.
Definition decimal (n : Z) : string := NilZero.string_of_int (Z.to_int n).
Definition repository_forbidden (a : ascii) : bool :=
  str_mem a "@?#\" || contains [0; 13; 10; 9] (byte_of a).
Definition canonical_port (port : string) : option string :=
  if port == "" then Some ""
  else match parse_int port with
       | Some n =>
         if (1 <=? n)%Z && (n <=? 65535)%Z then Some (if (n =? 443)%Z then "" else decimal n) else None
       | None => None
       end.
Definition CanonicalImageRepository `{Runtime, NetURL} (raw : string) : res string :=
  if (raw == "") || (512 <? strlen raw)%Z || (trim_space raw != raw) || str_any repository_forbidden raw || str_contains "://" raw
  then plain "explicit canonical image repository required"
  else match cut slash raw with
  | None => plain "invalid image repository path"
  | Some (host, path) =>
    if negb (imagePath path) then plain "invalid image repository path"
    else if negb (contains_any ".:" host) && (host != "localhost") then plain "explicit registry host required"
    else match url_host host with
    | None => plain "invalid image registry host"
    | Some (hostname, port) =>
      if hostname == "" then plain "invalid image registry host"
      else
        let name := to_lower hostname in
        if negb (is_ip name) && negb (forallb host_label (split_on "."%char name))
        then plain "invalid image registry hostname"
        else match canonical_port port with
        | None => plain "invalid image registry port"
        | Some port =>
          let bracketed := if str_contains ":" name then "[" +:+ name +:+ "]" else name in
          Ok (bracketed +:+ (if port == "" then "" else ":" +:+ port) +:+ "/" +:+ path)
        end
    end
  end.

Section pins.
Context `{Runtime, World, NetURL, Hashing}.

Definition ArtifactPinRequestHash (product app repository digest purpose key : string) : string :=
  Fingerprint (product, app, repository, digest, purpose, key).
Definition pin_purpose (s : string) : bool := contains ["manual"; "rollback"] s.

(** ** applyArtifactPin

    The boolean is [changed]: an exact retry returns before the audit append. *)
(** The input struct — application/artifact_pins.go:22 *)
Record ReleasePinInput := mkReleasePinInput {
  ReleasePinInput_ApplicationID : string
}.
#[export] Instance zero_ReleasePinInput : Zero ReleasePinInput := mkReleasePinInput zero.
#[export] Instance fields_ReleasePinInput `{Runtime} : Fields ReleasePinInput :=
  [
    field "application_id" ReleasePinInput_ApplicationID
  ].
(** The input struct — application/artifact_pins.go:51 *)
Record PinInput := mkPinInput {
  PinInput_ApplicationID : string; PinInput_ImageRepository : string; PinInput_Digest : string;
  PinInput_Purpose : string; PinInput_RequestKey : string
}.
#[export] Instance zero_PinInput : Zero PinInput := mkPinInput zero zero zero zero zero.
#[export] Instance fields_PinInput `{Runtime} : Fields PinInput :=
  [
    field "application_id" PinInput_ApplicationID; field "image_repository" PinInput_ImageRepository;
    field "digest" PinInput_Digest; field "purpose" PinInput_Purpose;
    field "request_key" PinInput_RequestKey
  ].
Definition release_pin (st : State) (c : Command) : res (State * Out * Meta * bool) :=
  input ← decode (Command_Data c) (zero : ReleasePinInput);
  let app := ReleasePinInput_ApplicationID input in
  _ ← reject_if ((Command_ID c == "")
        || match applicationByID st app with Some a => ProductID a != Command_ProductID c | None => true end)
        (invalid "pin release requires exact product/component/ID" []);
  match find_first (has_id (Command_ID c)) (State_ArtifactPins st) with
  | None => missing "artifact pin" (Command_ID c)
  | Some p =>
    _ ← reject_if ((ProductID p != Command_ProductID c) || (ArtifactPin_ApplicationID p != app))
          (invalid "artifact pin outside requested scope" []);
    match ArtifactPin_ReleasedAt p with
    | Some _ => Ok (st, OutPin p, ArtifactPin_Meta p, false)
    | None =>
      let t := now "applyArtifactPin" 0 in
      let p := p <| ArtifactPin_ReleasedAt := Some t |>
                 <| ArtifactPin_Meta ::= fun m => m <| Meta_UpdatedAt := t |> <| Meta_Actor := Command_Actor c |> |> in
      Ok (st <| State_ArtifactPins ::= update_first (has_id (Command_ID c)) (fun _ => p) |>,
          OutPin p, ArtifactPin_Meta p, true)
    end
  end.
Definition same_pin_key (product key : string) (p : ArtifactPin) : bool :=
  (ProductID p == product) && (ArtifactPin_RequestKey p == key).
Definition pin_artifact (st : State) (c : Command) (m : Meta) : res (State * Out * Meta * bool) :=
  input ← decode (Command_Data c) (zero : PinInput);
  _ ← reject_if ((Command_ID c != "") || negb (artifactPinKey (PinInput_RequestKey input))
        || negb (is_digest (PinInput_Digest input)) || negb (pin_purpose (PinInput_Purpose input)))
        (invalid "invalid immutable artifact pin request" []);
  _ ← reject_if match applicationByID st (PinInput_ApplicationID input) with
                | Some a => ProductID a != Command_ProductID c
                | None => true
                end (invalid "component must belong to pin product" []);
  match CanonicalImageRepository (PinInput_ImageRepository input) with
  | Err _ => invalid "invalid explicit image repository" []
  | Ok repository =>
    let hash := ArtifactPinRequestHash (Command_ProductID c) (PinInput_ApplicationID input) repository
                  (PinInput_Digest input) (PinInput_Purpose input) (PinInput_RequestKey input) in
    match find_first (same_pin_key (Command_ProductID c) (PinInput_RequestKey input)) (State_ArtifactPins st) with
    | Some p =>
      if (ArtifactPin_RequestHash p != hash) || (ArtifactPin_ApplicationID p != PinInput_ApplicationID input)
         || (ArtifactPin_ImageRepository p != repository) || (ArtifactPin_Digest p != PinInput_Digest input)
         || (ArtifactPin_Purpose p != PinInput_Purpose input)
      then invalid "artifact pin request_key conflicts with original intent" []
      else Ok (st, OutPin p, ArtifactPin_Meta p, false)
    | None =>
      let pin := mkArtifactPin m (PinInput_ApplicationID input) repository (PinInput_Digest input) (PinInput_Purpose input)
                   (PinInput_RequestKey input) hash None in
      Ok (st <| State_ArtifactPins ::= fun l => l ++ [pin] |>, OutPin pin, m, true)
    end
  end.
Definition applyArtifactPin (st : State) (c : Command) (m : Meta) : res (State * Out * Meta * bool) :=
  _ ← reject_if ((Command_ProductID c == "") || (Command_FeatureID c != "") || (Command_IntegrationID c != "")
        || (Command_GateID c != "") || (Command_CheckID c != "") || (Command_ResultID c != ""))
        (invalid "artifact pin requires exact product/component scope" []);
  _ ← reject_if (negb (productExists st (Command_ProductID c))) (missing "product" (Command_ProductID c));
  if Command_Action c == "release_artifact_pin" then release_pin st c else pin_artifact st c m.

(** ** The store's check — domain [ValidateArtifactPins] *)
Definition pin_error : res unit := plain "invalid artifact pin identity, references or fingerprint".
Definition id_count (st : State) (id : string) : nat := length (List.filter (fun i => i == id) (state_ids st)).
(** Events that release a pin, or pretend to. *)
Definition release_event (p : ArtifactPin) (e : Event) : bool :=
  ((Event_Action e == "release_artifact_pin") || (Command_Action (Event_Data e) == "release_artifact_pin"))
  && ((Event_EntityID e == ID p) || (Command_ID (Event_Data e) == ID p)).
Definition genuine_release (st : State) (p : ArtifactPin) (e : Event) : bool :=
  let cmd := Event_Data e in
  (Event_ID e != "") && (id_count st (Event_ID e) =? 1)%nat
  && (Event_Action e == "release_artifact_pin") && (Command_Action cmd == "release_artifact_pin")
  && (Event_EntityID e == ID p) && (Command_ID cmd == ID p)
  && (Event_ProductID e == ProductID p) && (Command_ProductID cmd == ProductID p)
  && (Event_FeatureID e == "") && (Command_FeatureID cmd == "") && (Command_IntegrationID cmd == "")
  && (Command_GateID cmd == "") && (Command_CheckID cmd == "") && (Command_ResultID cmd == "")
  && negb (blank (Actor p)) && (Event_Actor e == Actor p) && (Command_Actor cmd == Actor p)
  && (Command_Data cmd !! "application_id" == Some (JStr (ArtifactPin_ApplicationID p)))
  && (size (Command_Data cmd) =? 1)%nat
  && (ArtifactPin_ReleasedAt p == Some (Event_At e)).
Definition pin_shape (st : State) (p : ArtifactPin) : bool :=
  match CanonicalImageRepository (ArtifactPin_ImageRepository p) with
  | Ok repo => repo == ArtifactPin_ImageRepository p
  | Err _ => false
  end
  && is_digest (ArtifactPin_Digest p) && artifactPinKey (ArtifactPin_RequestKey p) && pin_purpose (ArtifactPin_Purpose p)
  && (ID p != "") && (id_count st (ID p) =? 1)%nat && (ProductID p != "") && (FeatureID p == "")
  && negb (IsZero (CreatedAt p)) && negb (Before (UpdatedAt p) (CreatedAt p))
  && match ArtifactPin_ReleasedAt p with
     | Some t => negb (IsZero t) && negb (Before t (CreatedAt p)) && (t == UpdatedAt p)
     | None => true
     end
  && (ArtifactPin_RequestHash p == ArtifactPinRequestHash (ProductID p) (ArtifactPin_ApplicationID p)
        (ArtifactPin_ImageRepository p) (ArtifactPin_Digest p) (ArtifactPin_Purpose p) (ArtifactPin_RequestKey p)).
Definition pin_events (st : State) (p : ArtifactPin) : bool :=
  let es := List.filter (release_event p) (State_Events st) in
  forallb (genuine_release st p) es
  && match ArtifactPin_ReleasedAt p with Some _ => (length es =? 1)%nat | None => (length es =? 0)%nat end.
Definition pin_references (st : State) (p : ArtifactPin) : bool :=
  existsb (has_id (ProductID p)) (State_Products st)
  && existsb (fun a => (ID a == ArtifactPin_ApplicationID p) && (ProductID a == ProductID p)) (State_Applications st).
(** The key separator is a NUL byte, which no request key contains. *)
Definition pin_key (p : ArtifactPin) : string := ProductID p +:+ String (ascii_of_nat 0) (ArtifactPin_RequestKey p).
Fixpoint validate_pins (st : State) (keys : gset string) (l : list ArtifactPin) : res unit :=
  match l with
  | [] => Ok ()
  | p :: l =>
    if negb (pin_shape st p && pin_events st p && pin_references st p) || bool_decide (pin_key p ∈ keys) then pin_error
    else validate_pins st ({[pin_key p]} ∪ keys) l
  end.
Definition ValidateArtifactPins (st : State) : res unit := validate_pins st ∅ (State_ArtifactPins st).

(** ** Deleting a product — application/product_delete.go *)
(** The input struct — application/product_delete.go:16 *)
Record DeleteInput := mkDeleteInput {
  DeleteInput_Name : string
}.
#[export] Instance zero_DeleteInput : Zero DeleteInput := mkDeleteInput zero.
#[export] Instance fields_DeleteInput `{Runtime} : Fields DeleteInput :=
  [
    field "name" DeleteInput_Name
  ].
Definition deleteProduct `{RestorationEvidence} (st : State) (c : Command) : res State :=
  let product := Command_ProductID c in
  _ ← each (fun e => if ProductID e == product then reservationFree st (ID e) else Ok ()) (State_Environments st);
  input ← decode (Command_Data c) (zero : DeleteInput);
  _ ← each (fun p => reject_if ((ID p == product) && (DeleteInput_Name input != Product_Name p))
        (invalid "type the exact product name to confirm deletion" [])) (State_Products st);
  _ ← reject_if (negb (productExists st product)) (missing "product" product);
  _ ← reject_if (nativeQuarantined st product)
        (invalid "native-quarantined product cannot be deleted; ownership transfer is not implemented" []);
  _ ← reject_if (existsb (fun p => (ProductID p == product) && negb (is_some (ArtifactPin_ReleasedAt p))) (State_ArtifactPins st))
        (invalid "product has active artifact pins; release each pin explicitly before deletion" []);
  _ ← reject_if (existsb (fun op => (ProductID op == product) && negb (terminalOperation (ExternalOperation_Status op))) (State_Operations st))
        (invalid "product has unfinished operations; finish or cancel them before deletion" []);
  Ok (without_product product st).
End pins.

(** * Properties *)

(** ** The life of a pin *)
Section lifecycle.
Context `{Runtime, NetURL, Hashing}.

(** One accepted pin command, under any clock. *)
Definition PinStep (st st' : State) : Prop :=
  exists (W : World) c m out m' changed,
    Meta_ProductID m = Command_ProductID c /\ applyArtifactPin st c m = Ok (st', out, m', changed).
Definition released_pin (p : ArtifactPin) : bool := is_some (ArtifactPin_ReleasedAt p).
(** What never changes in a pin. *)
Definition pin_identity (p : ArtifactPin) :=
  (ID p, ProductID p, CreatedAt p, ArtifactPin_ApplicationID p, ArtifactPin_ImageRepository p, ArtifactPin_Digest p,
   ArtifactPin_Purpose p, (ArtifactPin_RequestKey p, ArtifactPin_RequestHash p)).
Definition same_key (p q : ArtifactPin) : Prop :=
  ProductID p = ProductID q /\ ArtifactPin_RequestKey p = ArtifactPin_RequestKey q.
Definition PinKeysUnique (st : State) : Prop := Pairwise (fun p q => ~ same_key p q) (State_ArtifactPins st).
#[export] Instance different_key_sym : Symmetric (fun p q => ~ same_key p q).
Proof. intros p q Hpq [? ?]; apply Hpq; split; auto. Qed.

Lemma pin_artifact_cases `{World} st c m st' out m' changed :
  pin_artifact st c m = Ok (st', out, m', changed) ->
  (st' = st /\ changed = false)
  \/ exists pin, State_ArtifactPins st' = State_ArtifactPins st ++ [pin] /\ changed = true /\ out = OutPin pin /\ m' = m
       /\ ProductID pin = Meta_ProductID m /\ ArtifactPin_ReleasedAt pin = None
       /\ find_first (same_pin_key (Command_ProductID c) (ArtifactPin_RequestKey pin)) (State_ArtifactPins st) = None.
Proof.
  unfold pin_artifact. intros Hp. step_guards Hp. destruct (CanonicalImageRepository _); [|discriminate].
  cbv zeta in Hp. destruct (find_first _ _) as [p|] eqn:Hf.
  - destruct (_ || _) in Hp; [discriminate|]. injection Hp as <- _ _ <-. auto.
  - injection Hp as <- <- <- <-. right. eexists; repeat split; try reflexivity. exact Hf.
Qed.
Lemma release_pin_cases `{World} st c st' out m' changed :
  release_pin st c = Ok (st', out, m', changed) ->
  exists p, find_first (has_id (Command_ID c)) (State_ArtifactPins st) = Some p
    /\ ((st' = st /\ changed = false /\ released_pin p = true /\ out = OutPin p /\ m' = ArtifactPin_Meta p)
        \/ exists q, State_ArtifactPins st' = update_first (has_id (Command_ID c)) (fun _ => q) (State_ArtifactPins st)
             /\ changed = true /\ released_pin p = false /\ released_pin q = true /\ pin_identity q = pin_identity p
             /\ out = OutPin q /\ m' = ArtifactPin_Meta q).
Proof.
  unfold release_pin. intros Hp. step_guards Hp. destruct (find_first _ _) as [p|] eqn:Hf; [|discriminate].
  step_guards Hp. exists p; split; [reflexivity|]. unfold released_pin.
  destruct (ArtifactPin_ReleasedAt p) eqn:Hr.
  - injection Hp as <- <- <- <-. left; auto.
  - injection Hp as <- <- <- <-. right; eexists; repeat split; reflexivity.
Qed.

Lemma pin_step_keeps st st' : PinStep st st' ->
  (forall p, p ∈ State_ArtifactPins st -> released_pin p = true -> p ∈ State_ArtifactPins st')
  /\ (forall p, p ∈ State_ArtifactPins st -> exists p', p' ∈ State_ArtifactPins st' /\ pin_identity p' = pin_identity p).
Proof.
  intros (W & c & m & out & m' & changed & Hm & Ha). unfold applyArtifactPin in Ha. step_guards Ha.
  destruct (Command_Action c == "release_artifact_pin").
  - apply release_pin_cases in Ha as (p & Hp & [(-> & _)|(q & -> & _ & Hnr & Hr & Hid & _)]); [split; eauto|].
    destruct (update_first_insert (has_id (Command_ID c)) (fun _ => q) _ p Hp) as (i & Hi & ->).
    assert (Hq : q ∈ <[i := q]> (State_ArtifactPins st))
      by (eapply list_elem_of_lookup_2, list_lookup_insert_eq, lookup_lt_Some, Hi).
    assert (Hkeep : forall x, x ∈ State_ArtifactPins st -> x = p \/ x ∈ <[i := q]> (State_ArtifactPins st)).
    { intros x [j Hj]%list_elem_of_lookup_1. destruct (decide (i = j)) as [<-|Hne]; [left; congruence|].
      right. eapply list_elem_of_lookup_2. rewrite list_lookup_insert_ne; eassumption. }
    split; intros x Hx; destruct (Hkeep x Hx) as [->|?]; eauto. congruence.
  - apply pin_artifact_cases in Ha as [(-> & _)|(pin & -> & _)]; [split; eauto|].
    setoid_rewrite elem_of_app. split; eauto.
Qed.
Lemma pin_step_keys st st' : PinStep st st' -> PinKeysUnique st -> PinKeysUnique st'.
Proof.
  intros (W & c & m & out & m' & changed & Hm & Ha) Huniq. unfold applyArtifactPin in Ha. step_guards Ha.
  unfold PinKeysUnique. destruct (Command_Action c == "release_artifact_pin").
  - apply release_pin_cases in Ha as (p & Hp & [(-> & _)|(q & -> & _ & _ & _ & Hid & _)]); [exact Huniq|].
    destruct (update_first_insert (has_id (Command_ID c)) (fun _ => q) _ p Hp) as (k & Hk & ->).
    assert (Hpq : forall x, same_key q x <-> same_key p x) by (unfold same_key; injection Hid; intros; split; intros []; split; congruence).
    intros i j a b [(-> & <- & _)|[Hki Hi]]%list_lookup_insert_Some [(-> & <- & _)|[Hkj Hj]]%list_lookup_insert_Some Hne.
    + contradiction.
    + rewrite Hpq. apply (Huniq i j p b); assumption.
    + intros [E1 E2]. apply (Huniq i j a p Hi Hk Hne).
      destruct (proj1 (Hpq a) (conj (eq_sym E1) (eq_sym E2))). split; congruence.
    + apply (Huniq i j a b); assumption.
  - apply pin_artifact_cases in Ha as [(-> & _)|(pin & -> & _ & _ & _ & Hprod & _ & Hnone)]; [exact Huniq|].
    apply (pairwise_snoc (fun p q => ~ same_key p q)); [exact Huniq|]. intros x Hx [E1 E2].
    rewrite find_first_None in Hnone. specialize (Hnone x Hx). unfold same_pin_key in Hnone.
    rewrite !bool_decide_true in Hnone; [discriminate|congruence|congruence].
Qed.

(** A pin's intent is durable: through any sequence of pin commands a
    released pin stays released exactly as it was, no pin loses its identity,
    and a product never holds two pins under one request key. *)
Theorem artifact_pins_durable st st' :
  rtc PinStep st st' ->
  (forall p, p ∈ State_ArtifactPins st -> released_pin p = true -> p ∈ State_ArtifactPins st')
  /\ (forall p, p ∈ State_ArtifactPins st -> exists p', p' ∈ State_ArtifactPins st' /\ pin_identity p' = pin_identity p)
  /\ (PinKeysUnique st -> PinKeysUnique st').
Proof.
  intros Hr. split; [|split].
  - intros p Hp Hrel. revert Hp. apply (rtc_invariant PinStep (fun st => p ∈ State_ArtifactPins st)); [|exact Hr].
    intros x y Hxy Hx. apply (pin_step_keeps x y Hxy); assumption.
  - intros p Hp.
    apply (rtc_invariant PinStep (fun st => exists p', p' ∈ State_ArtifactPins st /\ pin_identity p' = pin_identity p)) with st; eauto.
    intros x y Hxy (p1 & Hp1 & E1). destruct (proj2 (pin_step_keeps x y Hxy) p1 Hp1) as (p2 & ? & ?). exists p2; split; congruence.
  - apply (rtc_invariant PinStep PinKeysUnique pin_step_keys), Hr.
Qed.
End lifecycle.

(** ** Retries *)
Lemma find_first_snoc {A} (p : A -> bool) l x : find_first p l = None -> p x = true -> find_first p (l ++ [x]) = Some x.
Proof. intros Hn Hx. rewrite find_first_app, Hn; cbn. rewrite Hx; reflexivity. Qed.

Lemma release_retry `{Runtime} (W W' : World) st c st' out m' changed :
  release_pin (H0 := W) st c = Ok (st', out, m', changed) -> release_pin (H0 := W') st' c = Ok (st', out, m', false).
Proof.
  unfold release_pin. intros Ha. step_guards Ha. rewrite E. cbn.
  destruct (find_first _ (State_ArtifactPins st)) as [p|] eqn:Hf; [|discriminate]. step_guards Ha.
  destruct (ArtifactPin_ReleasedAt p) as [t|] eqn:Hr.
  - injection Ha as <- <- <- _. rewrite G, Hf. cbn. rewrite G0, Hr. reflexivity.
  - cbv zeta in Ha. injection Ha as <- <- <- _.
    change (applicationByID (st <| State_ArtifactPins ::= _ |>)) with (applicationByID st). rewrite G. cbn [mbind].
    change (State_ArtifactPins (st <| State_ArtifactPins ::= ?f |>)) with (f (State_ArtifactPins st)).
    rewrite find_first_update_first, Hf; [|intros x Hx; apply find_first_Some in Hf as [_ Hf]; exact Hf].
    cbn [fmap option_fmap option_map]. match goal with |- context [ProductID ?q != _] => set (q' := q) end.
    change (ProductID q') with (ProductID p). change (ArtifactPin_ApplicationID q') with (ArtifactPin_ApplicationID p).
    rewrite G0. reflexivity.
Qed.
Lemma pin_retry `{Runtime, NetURL, Hashing} st c m m2 st' out m' changed :
  Meta_ProductID m = Command_ProductID c ->
  pin_artifact st c m = Ok (st', out, m', changed) -> pin_artifact st' c m2 = Ok (st', out, m', false).
Proof.
  unfold pin_artifact. intros Hm Ha. step_guards Ha. rewrite E. cbn. rewrite G. cbn.
  destruct (CanonicalImageRepository _) as [repository|]; [|discriminate]. cbv zeta in Ha.
  destruct (find_first _ (State_ArtifactPins st)) as [p|] eqn:Hf.
  - destruct (_ || _) eqn:Hc in Ha; [discriminate|]. injection Ha as <- <- <- _. rewrite G0, Hf. cbn. rewrite Hc. reflexivity.
  - injection Ha as <- <- <- _.
    change (applicationByID (st <| State_ArtifactPins ::= _ |>)) with (applicationByID st). rewrite G0. cbn [mbind].
    change (State_ArtifactPins (st <| State_ArtifactPins ::= ?f |>)) with (f (State_ArtifactPins st)).
    cbn. rewrite find_first_snoc; [|exact Hf|].
    + rewrite !bool_decide_true by reflexivity. reflexivity.
    + unfold same_pin_key. cbn. rewrite !bool_decide_true; auto.
Qed.

(** Repeating a pin or release command, at any later time, returns the same
    pin, changes nothing and reports no change, so that no second audit event
    is written. *)
Theorem artifact_pin_retry `{Runtime, World, NetURL, Hashing} st c m st' out m' changed :
  Meta_ProductID m = Command_ProductID c ->
  applyArtifactPin st c m = Ok (st', out, m', changed) ->
  forall (W : World) m2, exists out2 m2', applyArtifactPin st' c m2 = Ok (st', out2, m2', false) /\ out2 = out /\ m2' = m'.
Proof.
  intros Hm Ha W m2. exists out, m'. split; [|auto]. unfold applyArtifactPin in *. step_guards Ha.
  assert (Hprod : productExists st' (Command_ProductID c) = productExists st (Command_ProductID c)).
  { destruct (Command_Action c == "release_artifact_pin").
    - unfold release_pin in Ha. step_guards Ha. destruct (find_first _ _); [|discriminate]. step_guards Ha.
      destruct (ArtifactPin_ReleasedAt _); injection Ha as <- _ _ _; reflexivity.
    - unfold pin_artifact in Ha. step_guards Ha. destruct (CanonicalImageRepository _); [|discriminate]. cbv zeta in Ha.
      destruct (find_first _ _); [destruct (_ || _) in Ha; [discriminate|]|]; injection Ha as <- _ _ _; reflexivity. }
  rewrite G. cbn. rewrite Hprod, G0. cbn. destruct (Command_Action c == "release_artifact_pin").
  - apply (release_retry _ W) in Ha. exact Ha.
  - eapply pin_retry; eassumption.
Qed.

(** ** Deletion *)
Lemma map_filter_commute {A B} (f : A -> B) (p : A -> bool) (q : B -> bool) l :
  (forall x, p x = q (f x)) -> map f (List.filter p l) = List.filter q (map f l).
Proof. intros Hpq; induction l as [|x l IH]; cbn; [reflexivity|]. rewrite <- Hpq. destruct (p x); cbn; congruence. Qed.

Lemma filter_all {A} (q : A -> bool) l : (forall x, q x = true) -> l = List.filter q l.
Proof. intros Hq; induction l as [|x l IH]; cbn; [reflexivity|]. rewrite Hq; congruence. Qed.

(** The records that survive, stated on the generic listing of the state. *)
Definition survives (product kind : string) (row : string * string) : bool :=
  (kind == "events") || ((row.2 != product) && negb ((kind == "products") && (row.1 == product))).
Lemma owners_without_product product st :
  owners (without_product product st)
  = map (fun kv => (kv.1, List.filter (survives product kv.1) kv.2)) (owners st).
Proof.
  unfold owners. cbn [map fst snd].
  repeat match goal with
  | |- (_, _) :: _ = (_, _) :: _ =>
    f_equal; [f_equal; apply map_filter_commute; intros v; unfold survives, kept; cbn;
      rewrite ?andb_true_r; reflexivity|]
  end.
  do 2 f_equal. apply filter_all. reflexivity.
Qed.

(** Deleting a product is exact: it needs the product's name, no active
    reservation, no quarantine, no active pin and no unfinished operation; it
    removes every record the product owns and the product itself, and keeps
    every record of another owner and the whole audit trail, in order. *)
Theorem delete_product_exact `{Runtime, Hashing, RestorationEvidence} st c st' :
  deleteProduct st c = Ok st' ->
  owners st' = map (fun kv => (kv.1, List.filter (survives (Command_ProductID c) kv.1) kv.2)) (owners st)
  /\ State_Events st' = State_Events st
  /\ productExists st (Command_ProductID c) = true
  /\ (forall e, e ∈ State_Environments st -> ProductID e = Command_ProductID c -> reservationFree st (ID e) = Ok ())
  /\ (forall p, p ∈ State_ArtifactPins st -> ProductID p = Command_ProductID c -> ArtifactPin_ReleasedAt p <> None)
  /\ (forall op, op ∈ State_Operations st -> ProductID op = Command_ProductID c -> terminalOperation (ExternalOperation_Status op) = true)
  /\ exists name, forall p, p ∈ State_Products st -> ID p = Command_ProductID c -> Product_Name p = name.
Proof.
  unfold deleteProduct. intros Hd. step_guards Hd. injection Hd as <-. destruct a, a1. to_prop.
  split; [apply owners_without_product|]. split; [reflexivity|]. split; [assumption|].
  rewrite each_Ok, list.Forall_forall in E. rewrite each_Ok, list.Forall_forall in E1.
  match goal with Hx : existsb _ (State_ArtifactPins st) = false |- _ => rename Hx into Hpins end.
  match goal with Hx : existsb _ (State_Operations st) = false |- _ => rename Hx into Hops end.
  rewrite existsb_none in Hpins. rewrite existsb_none in Hops.
  split; [|split; [|split]].
  - intros e He Hp. specialize (E e He). rewrite bool_decide_true in E by exact Hp. exact E.
  - intros p Hp Hid Hn. specialize (Hpins p Hp). rewrite bool_decide_true, Hn in Hpins by exact Hid. discriminate.
  - intros op Ho Hid. specialize (Hops op Ho). rewrite bool_decide_true in Hops by exact Hid. cbn in Hops. to_prop. assumption.
  - exists (DeleteInput_Name a0). intros p Hp Hid. specialize (E1 p Hp). rewrite reject_if_invalid, bool_decide_true in E1 by exact Hid.
    cbn in E1. to_prop. congruence.
Qed.
