(* ===== verification/WorkerJobs.v ===== *)
(** * Worker jobs

    The part of [internal/application] that every path through the worker
    protocol shares: jobs and their attempts (worker_execution.go), the
    recovery of expired leases, the configuration a job was queued under
    (worker_execution.go, native_publication.go, registry_inventory.go), the
    origin of managed jobs and their stop (native_delivery.go), and the
    validation of a build receipt.

    A [*WorkerJob] points into the state's slice; here it is the index [i] of
    the job, and the current attempt is the index of an attempt. *)
From S2P Require Import Prelude GoText GoJson Delivery Domain Status Planning Handlers Collections DeviceAuth Reservation WorkerAuth Pins.
Open Scope string_scope.
Open Scope list_scope.

Definition WorkerOperationKind : string := "WORKER_EXECUTION".

(** ** Jobs and attempts *)
Definition workerTerminal (status : string) : bool :=
  (status == "SUCCEEDED") || (status == "FAILED") || (status == "CANCELLED") || (status == "DEADLINE_EXCEEDED").
Definition job_at (st : State) (i : nat) : option WorkerJob := State_WorkerJobs st !! i.
Definition job_index (st : State) (id : string) : option nat := find_index (has_id id) (State_WorkerJobs st).
Definition set_job (i : nat) (j : WorkerJob) (st : State) : State := st <| State_WorkerJobs ::= <[i := j]> |>.
Definition attempt_index (st : State) (id : string) : option nat := find_index (has_id id) (State_WorkerAttempts st).
Definition attempt_of (j : WorkerJob) (a : WorkerAttempt) : bool :=
  (WorkerAttempt_JobID a == ID j) && (WorkerAttempt_Fence a == WorkerJob_Fence j).
Definition currentWorkerAttempt (st : State) (j : WorkerJob) : option nat := find_index (attempt_of j) (State_WorkerAttempts st).
Definition set_attempt (k : nat) (a : WorkerAttempt) (st : State) : State := st <| State_WorkerAttempts ::= <[k := a]> |>.
(** [if a := currentWorkerAttempt(st, j); a != nil { a.Status = status; a.UpdatedAt = now }] *)
Definition settle_attempt (status : string) (now : Time) (a : WorkerAttempt) : WorkerAttempt :=
  a <| WorkerAttempt_Status := status |> <| WorkerAttempt_Meta ::= fun m => m <| Meta_UpdatedAt := now |> |>.
Definition settle_current (j : WorkerJob) (status : string) (now : Time) (st : State) : State :=
  match currentWorkerAttempt st j with
  | Some k => st <| State_WorkerAttempts ::= alter (settle_attempt status now) k |>
  | None => st
  end.

Definition literal (z : Z) : json := JNum (decimal z).
Definition audited_status (status : string) : string :=
  if workerTerminal status then (if status == "DEADLINE_EXCEEDED" then "FAILED" else status)
  else if status == "QUEUED" then "PENDING" else "RUNNING".
Definition audited_operation (j : WorkerJob) (now : Time) (op : ExternalOperation) : ExternalOperation :=
  let op := op <| ExternalOperation_Status := audited_status (WorkerJob_Status j) |>
               <| ExternalOperation_Attempts := wrap_int64 (WorkerJob_Fence j) |>
               <| ExternalOperation_Phase := "EXTERNAL_" +:+ WorkerJob_Status j |>
               <| ExternalOperation_Meta ::= fun m => m <| Meta_UpdatedAt := now |> |>
               <| ExternalOperation_LeaseOwner := "" |> <| ExternalOperation_LeaseUntil := 0%Z |>
               <| ExternalOperation_Error := "" |> <| ExternalOperation_Detail := "" |> in
  let op := if WorkerJob_Status j == "RECONCILIATION_REQUIRED"
            then op <| ExternalOperation_Error := "WORKER_RECONCILIATION_REQUIRED" |>
                    <| ExternalOperation_Detail := "External execution requires explicit reconciliation; automatic replay is disabled" |>
            else op in
  op <| ExternalOperation_FinishedAt := if workerTerminal (WorkerJob_Status j) then Some now else None |>.
Definition worker_event `{World} (st : State) (j : WorkerJob) (actor action : string) (now : Time) : Event :=
  mkEvent (fresh "workerAudit" (length (State_Events st))) action actor now (ID j) (ProductID j) (FeatureID j)
    ((zero : Command) <| Command_Action := action |> <| Command_Actor := actor |> <| Command_ID := ID j |>
      <| Command_ProductID := ProductID j |> <| Command_FeatureID := FeatureID j |>
      <| Command_Data := list_to_map [("status", JStr (WorkerJob_Status j)); ("fence", literal (WorkerJob_Fence j));
           ("input_hash", JStr (WorkerJob_InputHash j))] |>).
Definition workerAudit `{World} (i : nat) (actor action : string) (now : Time) (st : State) : State :=
  match job_at st i with
  | None => st
  | Some j =>
    let j := j <| WorkerJob_Meta ::= fun m => m <| Meta_UpdatedAt := now |> |> in
    let st := set_job i j st in
    let st := st <| State_Events ::= fun l => l ++ [worker_event st j actor action now] |> in
    st <| State_Operations ::= update_first (has_id (WorkerJob_OperationID j)) (audited_operation j now) |>
  end.

(** ** Expired leases *)
Definition lease_expired (st : State) (j : WorkerJob) (now : Time) : bool :=
  ((WorkerJob_Status j == "CLAIMED") || (WorkerJob_Status j == "RUNNING"))
  && match currentWorkerAttempt st j with
     | Some k => match State_WorkerAttempts st !! k with Some a => negb (Before now (WorkerAttempt_LeaseUntil a)) | None => false end
     | None => false
     end.
Definition recovered_status (j : WorkerJob) (now : Time) : string :=
  if WorkerJob_Status j == "RUNNING" then "RECONCILIATION_REQUIRED"
  else if WorkerJob_Status j == "CLAIMED" then
    (if Before now (WorkerJob_Deadline j) && (WorkerJob_Fence j <? wrap_uint64 (WorkerJob_MaxAttempts j))%Z
     then "QUEUED" else "FAILED")
  else if WorkerJob_Status j == "QUEUED" then "DEADLINE_EXCEEDED"
  else WorkerJob_Status j.
Definition recoverWorker `{World} (i : nat) (now : Time) (st : State) : State :=
  match job_at st i with
  | None => st
  | Some j =>
    if workerTerminal (WorkerJob_Status j) || (WorkerJob_Status j == "RECONCILIATION_REQUIRED") then st
    else if negb (Before now (WorkerJob_Deadline j)) || lease_expired st j now then
      let st := set_job i (j <| WorkerJob_Status := recovered_status j now |>) st in
      let st := settle_current j "EXPIRED" now st in
      workerAudit i "system/worker-recovery" "worker_expired" now st
    else st
  end.

(** ** Managed jobs — native_delivery.go *)
Definition nativeSourceProof `{Hashing} (op : ExternalOperation) : WorkerSourceProof :=
  (zero : WorkerSourceProof) <| WorkerSourceProof_DeliveryID := ID op |> <| WorkerSourceProof_ParentID := ExternalOperation_ParentID op |>
    <| WorkerSourceProof_SnapshotHash := Fingerprint (ExternalOperation_Snapshot op) |>
    <| WorkerSourceProof_ParentHash := match ExternalOperation_Native op with Some n => NativeDelivery_ParentHash n | None => "" end |>.
Definition nativeParentHash `{Hashing} (parent : ExternalOperation) : string :=
  match ExternalOperation_MainCandidate parent with
  | Some proof => Fingerprint (ExternalOperation_CompositionSnapshot parent, Some proof, ExternalOperation_PreparedDeployments parent)
  | None => Fingerprint (ExternalOperation_CompositionSnapshot parent, ExternalOperation_Sources parent)
  end.
Definition native_link (n : NativeDelivery) (j : WorkerJob) : bool :=
  ((WorkerJob_Capability j == "local_oci_build") && (NativeDelivery_BuildJobID n == ID j))
  || ((WorkerJob_Capability j == "registry_publish") && (NativeDelivery_PublicationJobID n == ID j)).
Definition nativeWorkerOrigin `{Hashing} (st : State) (j : WorkerJob) : res unit :=
  match WorkerInputs_SourceProof (WorkerJob_Inputs j) with
  | None => Ok ()
  | Some proof =>
    let mismatch := invalid "immutable native delivery origin mismatch" [] in
    match operationByID st (WorkerSourceProof_DeliveryID proof) with
    | None => mismatch
    | Some op =>
      match ExternalOperation_Native op, ExternalOperation_Snapshot op with
      | Some n, Some snap =>
        let rev := DeliverySnapshot_Revision snap in
        _ ← reject_if ((nativeSourceProof op != proof) || (ProductID j != ProductID op)
              || (WorkerJob_IntegrationID j != ExternalOperation_IntegrationID op)
              || (WorkerInputs_SourceSHA (WorkerJob_Inputs j) != IntegrationRevision_HeadCommit rev)
              || (WorkerInputs_RevisionID (WorkerJob_Inputs j) != ID rev)
              || (WorkerInputs_RepositoryID (WorkerJob_Inputs j) != IntegrationRevision_RepositoryID rev)) mismatch;
        _ ← reject_if ((ExternalOperation_ParentID op != "")
              && match operationByID st (ExternalOperation_ParentID op) with
                 | Some parent => NativeDelivery_ParentHash n != nativeParentHash parent
                 | None => true
                 end) (invalid "immutable native composition origin mismatch" []);
        reject_if (negb (native_link n j)) (invalid "immutable native job link mismatch" [])
      | _, _ => mismatch
      end
    end
  end.
Definition stopped_status (status : string) : string :=
  if (status == "RUNNING") || (status == "RECONCILIATION_REQUIRED") then "RECONCILIATION_REQUIRED" else "CANCELLED".
(** What a cancellation does to a job that has not ended. *)
Definition stop_job (i : nat) (now : Time) (st : State) : State :=
  match job_at st i with
  | None => st
  | Some j =>
    let j := j <| WorkerJob_CancellationRequested := true |> <| WorkerJob_Status := stopped_status (WorkerJob_Status j) |> in
    settle_current j (WorkerJob_Status j) now (set_job i j st)
  end.
Definition stop_managed_job `{World} (now : Time) (st : State) (id : string) : State :=
  match job_index st id with
  | None => st
  | Some i =>
    match job_at st i with
    | Some j =>
      if workerTerminal (WorkerJob_Status j) then st
      else workerAudit i "system/native-delivery" "native_delivery_stopped" now (stop_job i now st)
    | None => st
    end
  end.
Definition stopped_operation (status detail : string) (now : Time) (op : ExternalOperation) : ExternalOperation :=
  let op := op <| ExternalOperation_Status := status |> in
  let op := if status == "BLOCKED" then op <| ExternalOperation_Status := "FAILED" |> <| ExternalOperation_Error := detail |> else op in
  op <| ExternalOperation_DeploymentState := status |> <| ExternalOperation_Detail := detail |>
     <| ExternalOperation_FinishedAt := Some now |> <| ExternalOperation_Meta ::= fun m => m <| Meta_UpdatedAt := now |> |>
     <| ExternalOperation_LeaseOwner := "" |> <| ExternalOperation_LeaseUntil := 0%Z |>.
Definition stopNativeDelivery `{World} (opID status detail : string) (now : Time) (st : State) : State :=
  let st := st <| State_Operations ::= update_first (has_id opID) (stopped_operation status detail now) |> in
  match operationByID st opID with
  | Some op =>
    match ExternalOperation_Native op with
    | Some n => foldl (stop_managed_job now) st [NativeDelivery_BuildJobID n; NativeDelivery_PublicationJobID n]
    | None => st
    end
  | None => st
  end.

(** ** The configuration a job was queued under *)
(** [net/url]: what [url.Parse] reports of an address, and [URL.String]. *)
Record URL := mkURL {
  URL_Scheme : string; URL_Host : string; URL_Hostname : string; URL_Port : string; URL_User : bool;
  URL_Path : string; URL_RawPath : string; URL_RawQuery : string; URL_Fragment : string; URL_Opaque : string;
  URL_ForceQuery : bool
}.
(** [is_loopback host]: [net.ParseIP] reads the host and reports a loopback address. *)
Class URLs := { url_parse : string -> option URL; url_string : URL -> string; is_loopback : string -> bool }.

(** What [ClaimWorker] and [mutateWorker] ask of the intelligence tasks
    (intelligence_worker.go) and of the native deliveries (native_delivery.go). *)
Class WorkerPolicy := {
  intelligencePatch : State -> WorkerJob -> res string;
  bindIntelligencePatch : State -> Recipe -> string -> string -> string -> string -> res (option IntelligencePatchBinding);
  managedWorkerAllowed : State -> WorkerJob -> res unit;
}.

Section configuration.
Context `{Runtime, NetURL, URLs, Hashing, World} (w : Authority).

Definition observationScope (r : RegistryObserveRecipe) : RegistryScope :=
  let image :=
    match url_parse (RegistryObserveRecipe_Origin r) with
    | Some u => match CanonicalImageRepository (URL_Host u +:+ "/" +:+ RegistryObserveRecipe_Repository r) with Ok s => s | Err _ => "" end
    | None => ""
    end in
  mkRegistryScope (RegistryObserveRecipe_ProductID r) (RegistryObserveRecipe_ComponentID r) (RegistryObserveRecipe_RepositoryID r)
    (RegistryObserveRecipe_Origin r) (RegistryObserveRecipe_Repository r) image.
Definition registryScopeCurrent (st : State) (scope : RegistryScope) (repositoryURL : string) : bool :=
  negb (nativeQuarantined st (RegistryScope_ProductID scope))
  && match applicationByID st (RegistryScope_ComponentID scope) with
     | Some app => (ProductID app == RegistryScope_ProductID scope)
                   && (Application_RepositoryID app == RegistryScope_RepositoryID scope) && (ComponentKind app == "APPLICATION")
     | None => false
     end
  && existsb (fun repo => (ID repo == RegistryScope_RepositoryID scope) && (ProductID repo == RegistryScope_ProductID scope)
       && ((repositoryURL == "") || (Repository_URL repo == repositoryURL))) (State_Repositories st).
Definition frozen_inputs (j : WorkerJob) : bool := Fingerprint (WorkerJob_Inputs j) == WorkerJob_InputHash j.
Definition registryConfigMatches (j : WorkerJob) : bool :=
  let i := WorkerJob_Inputs j in
  match WorkerInputs_Registry i, observation w (WorkerInputs_RecipeID i) with
  | Some p, Some r =>
    (WorkerJob_Capability j == "registry_observe") && (RegistryObserveRecipe_Hash r == WorkerInputs_RecipeHash i)
    && (RegistryObserveRecipe_Revision r == WorkerInputs_RecipeRevision i) && (Revision w == WorkerInputs_ConfigRevision i)
    && (WorkerRegistryInputs_Scope p == observationScope r) && (WorkerRegistryInputs_Limits p == RegistryObserveRecipe_Limits r)
    && frozen_inputs j
  | _, _ => false
  end.
Definition registryWorkerAllowed (st : State) (j : WorkerJob) : res unit :=
  reject_if (negb (registryConfigMatches j)
    || match WorkerInputs_Registry (WorkerJob_Inputs j) with
       | Some p => negb (registryScopeCurrent st (WorkerRegistryInputs_Scope p) (WorkerInputs_RepositoryURL (WorkerJob_Inputs j)))
       | None => true
       end)
    (invalid "registry observation authority changed or quarantined" []).
Definition nativeConfigMatches (j : WorkerJob) : bool :=
  let i := WorkerJob_Inputs j in
  match publication w (WorkerInputs_RecipeID i), WorkerInputs_Publication i with
  | Some r, Some p =>
    (WorkerJob_Capability j == "registry_publish") && (PublicationRecipe_ProductID r == ProductID j)
    && (PublicationRecipe_RepositoryID r == WorkerInputs_RepositoryID i)
    && (PublicationRecipe_ComponentID r == WorkerPublication_ComponentID p)
    && (PublicationRecipe_Profile r == WorkerPublication_Profile p) && (PublicationRecipe_Origin r == WorkerPublication_Origin p)
    && (PublicationRecipe_Repository r == WorkerPublication_Repository p)
    && (PublicationRecipe_BuildRecipeHash r == WorkerLocalOCI_RecipeHash (WorkerPublication_Receipt p))
    && (PublicationRecipe_Hash r == WorkerInputs_RecipeHash i) && (PublicationRecipe_Revision r == WorkerInputs_RecipeRevision i)
    && (Revision w == WorkerInputs_ConfigRevision i) && frozen_inputs j
  | _, _ => false
  end.
Definition workerConfigMatches (j : WorkerJob) : bool :=
  if WorkerJob_Capability j == "registry_observe" then registryConfigMatches j
  else if WorkerJob_Capability j == "registry_publish" then nativeConfigMatches j
  else
    let i := WorkerJob_Inputs j in
    match recipe w (WorkerInputs_RecipeID i) with
    | None => false
    | Some r =>
      (Recipe_Hash r == WorkerInputs_RecipeHash i) && (Recipe_Revision r == WorkerInputs_RecipeRevision i)
      && (Recipe_ProductID r == ProductID j) && (Recipe_RepositoryID r == WorkerInputs_RepositoryID i)
      && (Recipe_RepositoryURL r == WorkerInputs_RepositoryURL i) && (Recipe_Trust r == WorkerInputs_Trust i)
      && (Recipe_Capability r == WorkerJob_Capability j) && (Recipe_Check r == WorkerInputs_Check i)
      && (Revision w == WorkerInputs_ConfigRevision i) && frozen_inputs j
    end.
Definition admitRegistryInventory (st : State) (j : WorkerJob) (a : WorkerAttempt) (report : WorkerRegistryReport) (now : Time) : State :=
  let m := mkMeta (fresh "admitRegistryInventory" 0) (ProductID j) (FeatureID j) (WorkerAttempt_Principal a) now now in
  st <| State_RegistryInventories ::= fun l => l ++ [
    mkRegistryInventory m (ID j) (ID a) (WorkerAttempt_Fence a) (WorkerJob_InputHash j) (WorkerJob_Inputs j) report now] |>.
End configuration.

(** ** Build receipts — worker_execution.go *)
Definition local_oci_matches (j : WorkerJob) (a : WorkerAttempt) (e : WorkerExecution) (v : WorkerLocalOCI) : bool :=
  let i := WorkerJob_Inputs j in
  (WorkerLocalOCI_JobID v == ID j) && (WorkerLocalOCI_AttemptID v == ID a) && (WorkerLocalOCI_InputHash v == WorkerJob_InputHash j)
  && (WorkerLocalOCI_SourceSHA v == WorkerInputs_SourceSHA i) && (WorkerLocalOCI_RecipeHash v == WorkerInputs_RecipeHash i)
  && (WorkerLocalOCI_ConfigRevision v == WorkerInputs_ConfigRevision i)
  && (WorkerLocalOCI_ToolchainImage v == WorkerExecution_ToolchainImage e) && (WorkerLocalOCI_Platform v == WorkerExecution_Platform e)
  && (1 <=? WorkerLocalOCI_ArchiveBytes v)%Z && (WorkerLocalOCI_ArchiveBytes v <=? WorkerExecution_OutputBytes e)%Z.
Definition validateWorkerLocalOCI (j : WorkerJob) (a : WorkerAttempt) (r : WorkerReport) : res unit :=
  _ ← reject_if (negb (bool_decide (WorkerReport_Registry r = None))) (invalid "unexpected registry report kind" []);
  _ ← reject_if (negb (bool_decide (WorkerReport_Publication r = None))) (invalid "unexpected publication result" []);
  if (WorkerReport_Result r != "PASSED") || (WorkerJob_Capability j != "local_oci_build") then
    reject_if (negb (bool_decide (WorkerReport_LocalOCI r = None))) (invalid "unexpected local OCI result" [])
  else match WorkerReport_LocalOCI r, WorkerInputs_Execution (WorkerJob_Inputs j) with
  | Some v, Some e =>
    _ ← reject_if (negb (local_oci_matches j a e v)) (invalid "local OCI provenance mismatch" []);
    _ ← reject_if (WorkerLocalOCI_RuntimeRootFS v != WorkerExecution_RuntimeRootFS e) (invalid "runtime rootfs provenance mismatch" []);
    each (fun d => reject_if (negb (is_digest d)) (invalid "invalid local OCI identity" []))
      [WorkerLocalOCI_ArchiveHash v; WorkerLocalOCI_LayoutHash v; WorkerLocalOCI_IndexDigest v; WorkerLocalOCI_ManifestDigest v]
  | _, _ => invalid "local OCI provenance mismatch" []
  end.

(** * What the job operations leave alone *)
Lemma settle_current_operations j s t st : State_Operations (settle_current j s t st) = State_Operations st.
Proof. unfold settle_current. destruct (currentWorkerAttempt st j); reflexivity. Qed.
Lemma settle_current_jobs j s t st : State_WorkerJobs (settle_current j s t st) = State_WorkerJobs st.
Proof. unfold settle_current. destruct (currentWorkerAttempt st j); reflexivity. Qed.
Lemma job_at_settle j s t st i : job_at (settle_current j s t st) i = job_at st i.
Proof. unfold job_at. rewrite settle_current_jobs. reflexivity. Qed.
Lemma job_at_set i j v st : job_at st i = Some v -> job_at (set_job i j st) i = Some j.
Proof. unfold job_at, set_job; cbn. intros Hi. apply list_lookup_insert_eq. eapply lookup_lt_Some, Hi. Qed.
Lemma job_at_set_other i k j st : i <> k -> job_at (set_job i j st) k = job_at st k.
Proof. unfold job_at, set_job; cbn. apply list_lookup_insert_ne. Qed.
Lemma audited_operation_ID j t op : ID (audited_operation j t op) = ID op.
Proof. unfold audited_operation. cbv zeta. destruct (WorkerJob_Status j == "RECONCILIATION_REQUIRED"); reflexivity. Qed.
Lemma job_at_audit `{World} i a b t st k : job_at (workerAudit i a b t st) k =
  (if (i == k) then (fun j => j <| WorkerJob_Meta ::= fun m => m <| Meta_UpdatedAt := t |> |>) <$> job_at st k else job_at st k).
Proof.
  unfold workerAudit. destruct (job_at st i) as [j|] eqn:E.
  - case_bool_decide as Hik.
    + subst k. rewrite E. apply (job_at_set _ _ j), E.
    + apply (job_at_set_other i k), Hik.
  - case_bool_decide as Hik; [subst k; rewrite E|]; reflexivity.
Qed.
Lemma attempts_audit `{World} i a b t st : State_WorkerAttempts (workerAudit i a b t st) = State_WorkerAttempts st.
Proof. unfold workerAudit. destruct (job_at st i); reflexivity. Qed.

(** Jobs keep their places. *)
Lemma find_index_ids {A B} `{HasMeta A, HasMeta B} id (l : list A) (l' : list B) : map ID l = map ID l' ->
  find_index (has_id id) l = find_index (has_id id) l'.
Proof.
  revert l'. induction l as [|x l IH]; intros [|y l'] E; try discriminate; [reflexivity|]. injection E as Hx E. cbn.
  unfold has_id. rewrite Hx. destruct (ID y == id); [reflexivity|]. unfold has_id in IH. rewrite (IH l' E). reflexivity.
Qed.
Definition job_ids (st : State) : list string := map ID (State_WorkerJobs st).
Lemma job_ids_set i j v st : job_at st i = Some v -> ID j = ID v -> job_ids (set_job i j st) = job_ids st.
Proof.
  unfold job_ids, job_at, set_job; cbn. intros Hi HE. apply list_eq. intros k. rewrite !lookup_map.
  destruct (decide (i = k)) as [<-|Hne].
  - rewrite list_lookup_insert_eq by (eapply lookup_lt_Some, Hi). rewrite Hi. cbn. rewrite HE. reflexivity.
  - rewrite list_lookup_insert_ne by exact Hne. reflexivity.
Qed.
Lemma job_ids_settle j s t st : job_ids (settle_current j s t st) = job_ids st.
Proof. unfold job_ids. rewrite settle_current_jobs. reflexivity. Qed.
Lemma job_ids_audit `{World} i a b t st : job_ids (workerAudit i a b t st) = job_ids st.
Proof.
  unfold workerAudit. destruct (job_at st i) as [j|] eqn:E; [|reflexivity].
  change (job_ids (set_job i (j <| WorkerJob_Meta ::= fun m => m <| Meta_UpdatedAt := t |> |>) st) = job_ids st).
  apply (job_ids_set _ _ j); [exact E|reflexivity].
Qed.
Lemma job_ids_recover `{World} i t st : job_ids (recoverWorker i t st) = job_ids st.
Proof.
  unfold recoverWorker. destruct (job_at st i) as [j|] eqn:E; [|reflexivity].
  destruct (workerTerminal _ || _); [reflexivity|]. destruct (_ || _); [|reflexivity].
  rewrite job_ids_audit, job_ids_settle. apply (job_ids_set _ _ j); [exact E|reflexivity].
Qed.
Lemma job_index_ids st st' id : job_ids st' = job_ids st -> job_index st' id = job_index st id.
Proof. apply find_index_ids. Qed.
Lemma job_index_workerJob st id j : workerJob st id = Some j <-> exists i, job_index st id = Some i /\ job_at st i = Some j.
Proof.
  unfold workerJob, job_index, job_at. rewrite find_index_first. destruct (find_index _ _) as [i|]; split.
  - eauto.
  - intros (? & [= <-] & ?); assumption.
  - discriminate.
  - intros (? & [=] & _).
Qed.
