(* ===== verification/Publications.v ===== *)
(** * Publications, managed branches and the retention policy

    The handlers of [internal/application/publications.go] (external package
    destinations and what was published there), [managed_branch.go] (branches
    and revision tags the control plane creates) and [retention.go] (the policy
    of a component), and [tickManagedBranch], the step of the worker that
    creates a ref. *)
From S2P Require Import Prelude GoText GoJson Delivery Domain Status Planning Handlers Collections ExternalSystems Reservation Composition Pins WorkerAuth WorkerJobs.
Open Scope string_scope.
Open Scope list_scope.

(** ** Inputs *)
Record PublicationInput := mkPublicationInput {
  PublicationInput_ApplicationID : string; PublicationInput_Format : string; PublicationInput_RegistryURL : string;
  PublicationInput_PackageName : string
}.
#[export] Instance zero_PublicationInput : Zero PublicationInput := mkPublicationInput zero zero zero zero.
#[export] Instance fields_PublicationInput `{Runtime} : Fields PublicationInput :=
  [
    field "application_id" PublicationInput_ApplicationID; field "format" PublicationInput_Format;
    field "registry_url" PublicationInput_RegistryURL; field "package_name" PublicationInput_PackageName
  ].
Record PackageInput := mkPackageInput {
  PackageInput_ApplicationID : string; PackageInput_PublicationTargetID : string; PackageInput_SourceCommit : string;
  PackageInput_Version : string; PackageInput_Checksum : string; PackageInput_URI : string; PackageInput_BuildURL : string
}.
#[export] Instance zero_PackageInput : Zero PackageInput := mkPackageInput zero zero zero zero zero zero zero.
#[export] Instance fields_PackageInput `{Runtime} : Fields PackageInput :=
  [
    field "application_id" PackageInput_ApplicationID; field "publication_target_id" PackageInput_PublicationTargetID;
    field "source_commit" PackageInput_SourceCommit; field "version" PackageInput_Version;
    field "checksum" PackageInput_Checksum; field "uri" PackageInput_URI; field "build_url" PackageInput_BuildURL
  ].
Record ManagedBranchInput := mkManagedBranchInput {
  ManagedBranchInput_ApplicationID : string; ManagedBranchInput_BaseCommit : string; ManagedBranchInput_RevisionID : string;
  ManagedBranchInput_Approve : bool
}.
#[export] Instance zero_ManagedBranchInput : Zero ManagedBranchInput := mkManagedBranchInput zero zero zero zero.
#[export] Instance fields_ManagedBranchInput `{Runtime} : Fields ManagedBranchInput :=
  [
    field "application_id" ManagedBranchInput_ApplicationID; field "base_commit" ManagedBranchInput_BaseCommit;
    field "revision_id" ManagedBranchInput_RevisionID; field "approve" ManagedBranchInput_Approve
  ].
Record RetentionInput := mkRetentionInput {
  RetentionInput_ApplicationID : string; RetentionInput_KeepLast : Z; RetentionInput_KeepCurrent : bool; RetentionInput_KeepPrevious : Z
}.
#[export] Instance zero_RetentionInput : Zero RetentionInput := mkRetentionInput zero zero zero zero.
#[export] Instance fields_RetentionInput `{Runtime} : Fields RetentionInput :=
  [
    field "application_id" RetentionInput_ApplicationID; field "keep_last" RetentionInput_KeepLast;
    field "keep_current" RetentionInput_KeepCurrent; field "keep_previous" RetentionInput_KeepPrevious
  ].

(** [^(sha256:[0-9a-f]{64}|sha512:[0-9a-f]{128})$] *)
Definition packageChecksum (s : string) : bool :=
  is_digest s || has_prefix "sha512:" s && str_all is_hex (str_drop 7 s) && (String.length s =? 135)%nat.
(** [strings.ContainsAny(s, CR LF TAB)] *)
Definition has_line_break (s : string) : bool := str_any (fun a => contains [13; 10; 9] (byte_of a)) s.
(** Nonempty, without white space around it and without line breaks. *)
Definition plain_label (s : string) : bool := (trim_space s != "") && (trim_space s == s) && negb (has_line_break s).

Section handlers.
Context `{Runtime, URLs}.

Definition publicationURL (value : string) : bool :=
  match url_parse value with
  | Some parsed =>
    (URL_Scheme parsed == "https") && (URL_Hostname parsed != "") && negb (URL_User parsed) && (URL_RawQuery parsed == "")
    && negb (URL_ForceQuery parsed) && (URL_Fragment parsed == "") && (trim_space value == value)
  | None => false
  end.
Definition publicationTarget (st : State) (id : string) : option PublicationTarget := find_first (has_id id) (State_PublicationTargets st).
Definition publicationLibrary (st : State) (productID applicationID : string) : res Application :=
  _ ← (if negb (productExists st productID) then missing "product" productID else Ok ());
  match applicationByID st applicationID with
  | None => invalid "publication requires a product-scoped LIBRARY component" []
  | Some app =>
    _ ← reject_if ((ProductID app != productID) || (ComponentKind app != "LIBRARY"))
          (invalid "publication requires a product-scoped LIBRARY component" []);
    _ ← repositories st [Application_RepositoryID app] productID;
    Ok app
  end.

Definition configure_publication (st : State) (c : Command) (m : Meta) : res (State * Out * Meta) :=
  input ← decode (Command_Data c) (zero : PublicationInput);
  _ ← publicationLibrary st (Command_ProductID c) (PublicationInput_ApplicationID input);
  _ ← reject_if (negb (contains PublicationFormats (PublicationInput_Format input))) (invalid "unsupported publication format" []);
  _ ← reject_if (negb (publicationURL (PublicationInput_RegistryURL input)))
        (invalid "registry_url must be HTTPS without credentials, query or fragment" []);
  _ ← reject_if (negb (plain_label (PublicationInput_PackageName input)))
        (invalid "package_name required without surrounding whitespace" []);
  let target := mkPublicationTarget m (PublicationInput_ApplicationID input) (PublicationInput_Format input)
                  (PublicationInput_RegistryURL input) (PublicationInput_PackageName input) in
  Ok (st <| State_PublicationTargets ::= fun l => l ++ [target] |>, OutPublicationTarget target, m).

(** A record of the same version of the same package, with other provenance. *)
Definition same_destination (a b : PublicationTarget) : bool :=
  (PublicationTarget_Format a == PublicationTarget_Format b)
  && (trim_suffix "/" (PublicationTarget_RegistryURL a) == trim_suffix "/" (PublicationTarget_RegistryURL b))
  && (PublicationTarget_PackageName a == PublicationTarget_PackageName b).
Definition conflicting_package (st : State) (product app : string) (input : PackageInput) (target : PublicationTarget)
    (record : PackageArtifact) : bool :=
  (ProductID record == product) && (PackageArtifact_ApplicationID record == app)
  && (PackageArtifact_Version record == PackageInput_Version input)
  && match publicationTarget st (PackageArtifact_PublicationTargetID record) with
     | Some previous => same_destination previous target
     | None => false
     end
  && ((PackageArtifact_Checksum record != PackageInput_Checksum input)
      || (PackageArtifact_SourceCommit record != PackageInput_SourceCommit input)).
(** The integration the package was built for gives the feature. *)
Definition package_feature (st : State) (c : Command) (app : Application) (m : Meta) : res Meta :=
  if Command_IntegrationID c == "" then Ok m
  else match integration st (Command_IntegrationID c) with
  | None => invalid "integration must belong to product" []
  | Some inn =>
    _ ← reject_if (ProductID inn != Command_ProductID c) (invalid "integration must belong to product" []);
    _ ← reject_if (negb (bool_decide (Integration_Repositories inn = [])) && negb (contains (Integration_Repositories inn) (Application_RepositoryID app)))
          (invalid "library repository outside integration scope" []);
    match feature st (FeatureID inn) with
    | None => invalid "library repository outside feature scope" []
    | Some f =>
      _ ← reject_if (negb (bool_decide (Feature_Repositories f = [])) && negb (contains (Feature_Repositories f) (Application_RepositoryID app)))
            (invalid "library repository outside feature scope" []);
      Ok (m <| Meta_FeatureID := FeatureID inn |>)
    end
  end.
Definition record_package_artifact (st : State) (c : Command) (m : Meta) : res (State * Out * Meta) :=
  input ← decode (Command_Data c) (zero : PackageInput);
  app ← publicationLibrary st (Command_ProductID c) (PackageInput_ApplicationID input);
  match publicationTarget st (PackageInput_PublicationTargetID input) with
  | None => invalid "publication target must belong to component and product" []
  | Some target =>
    _ ← reject_if ((ProductID target != Command_ProductID c) || (PublicationTarget_ApplicationID target != ID app))
          (invalid "publication target must belong to component and product" []);
    _ ← reject_if (negb (fullSHA (PackageInput_SourceCommit input)) || negb (packageChecksum (PackageInput_Checksum input)))
          (invalid "full lowercase source SHA and canonical sha256/sha512 checksum required" []);
    _ ← reject_if (negb (plain_label (PackageInput_Version input))) (invalid "nonempty version without surrounding whitespace required" []);
    _ ← reject_if (negb (publicationURL (PackageInput_URI input))
                   || (PackageInput_BuildURL input != "") && negb (publicationURL (PackageInput_BuildURL input)))
          (invalid "artifact uri and optional build_url must be HTTPS without credentials, query or fragment" []);
    m ← package_feature st c app m;
    _ ← each (fun record => reject_if (conflicting_package st (Command_ProductID c) (ID app) input target record)
                (invalid "package version already has different immutable provenance" [])) (State_PackageArtifacts st);
    let record := mkPackageArtifact m (Command_IntegrationID c) (ID app) (Application_RepositoryID app) (PackageInput_SourceCommit input)
                    (ID target) (PackageInput_Version input) (PackageInput_Checksum input) (PackageInput_URI input)
                    (PackageInput_BuildURL input) in
    Ok (st <| State_PackageArtifacts ::= fun l => l ++ [record] |>, OutPackageArtifact record, m)
  end.
Definition applyPublication (st : State) (c : Command) (m : Meta) : res (State * Out * Meta) :=
  if Command_Action c == "configure_publication" then configure_publication st c m
  else if Command_Action c == "record_package_artifact" then record_package_artifact st c m
  else invalid "unknown publication command" [].

(** ** retention.go *)
Definition applyRetention (st : State) (c : Command) (m : Meta) : res (State * Out * Meta) :=
  input ← decode (Command_Data c) (zero : RetentionInput);
  match applicationByID st (RetentionInput_ApplicationID input) with
  | None => invalid "component must belong to product" []
  | Some app =>
    _ ← reject_if (ProductID app != Command_ProductID c) (invalid "component must belong to product" []);
    _ ← reject_if ((RetentionInput_KeepLast input <? 0)%Z || (RetentionInput_KeepPrevious input <? 0)%Z
                   || (10000 <? RetentionInput_KeepLast input)%Z || (10000 <? RetentionInput_KeepPrevious input)%Z)
          (invalid "retention counts must be between 0 and 10000" []);
    let app := app <| Application_Retention := Some (mkArtifactRetention (RetentionInput_KeepLast input)
                       (RetentionInput_KeepCurrent input) (RetentionInput_KeepPrevious input)) |>
                   <| Application_Meta ::= fun a => a <| Meta_UpdatedAt := Meta_CreatedAt m |> <| Meta_Actor := Command_Actor c |> |> in
    Ok (st <| State_Applications ::= update_first (has_id (RetentionInput_ApplicationID input)) (fun _ => app) |>, OutApplication app, m)
  end.

(** ** managed_branch.go *)
(** The number of the registered repository, or the full name of the binding. *)
Definition registered_number (st : State) (repo : Repository) : option string :=
  (fun r => decimal (RegisteredRepository_ProviderRepositoryID r))
  <$> find_first (fun r => (ID r == Repository_RegisteredRepositoryID repo) && (0 <? RegisteredRepository_ProviderRepositoryID r)%Z)
        (State_RegisteredRepositories st).
Definition repositoryLocator (st : State) (b : RepositoryBinding) : string :=
  match omap (registered_number st) (List.filter (fun repo => ID repo == RepositoryBinding_RepositoryID b) (State_Repositories st)) with
  | number :: _ => number
  | [] => RepositoryBinding_FullName b
  end.
Definition ref_pending (inn : Integration) (app : Application) (pending : ExternalOperation) : bool :=
  (ExternalOperation_IntegrationID pending == ID inn) && (ExternalOperation_ApplicationID pending == ID app)
  && ((ExternalOperation_Kind pending == "CREATE_BRANCH") || (ExternalOperation_Kind pending == "PIN_REVISION"))
  && negb (terminalOperation (ExternalOperation_Status pending)).
(** Branch, source commit and kind of the ref to create. *)
Definition managed_ref (st : State) (c : Command) (input : ManagedBranchInput) (inn : Integration) (app : Application)
    : res (string * string * string) :=
  if Command_Action c == "protect_integration_revision" then
    match revisionByID st (ManagedBranchInput_RevisionID input) with
    | None => invalid "revision scope mismatch" []
    | Some rev =>
      if (IntegrationRevision_IntegrationID rev != ID inn) || (IntegrationRevision_RepositoryID rev != Application_RepositoryID app)
      then invalid "revision scope mismatch" []
      else Ok ("rcp/revisions/" +:+ ID rev, IntegrationRevision_HeadCommit rev, "PIN_REVISION")
    end
  else
    _ ← each (fun b => reject_if (Branch_RepositoryID b == Application_RepositoryID app) (invalid "integration already bound" []))
          (Integration_Branches inn);
    Ok ("feature/rcp-" +:+ ID inn, ManagedBranchInput_BaseCommit input, "CREATE_BRANCH").
Definition unapproved {A} : res A := invalid "explicit approval and integration-scoped component required" [].
Definition applyManagedBranch (st : State) (c : Command) (m : Meta) : res (State * Out * Meta) :=
  input ← decode (Command_Data c) (zero : ManagedBranchInput);
  match integration st (Command_IntegrationID c), applicationByID st (ManagedBranchInput_ApplicationID input) with
  | Some inn, Some app =>
    _ ← reject_if (negb (ManagedBranchInput_Approve input) || (Integration_Status inn == "released") || (ProductID app != ProductID inn)
                   || negb (contains (Integration_Repositories inn) (Application_RepositoryID app))) unapproved;
    match repositoryBinding st (Application_RepositoryID app) with
    | None => invalid "attached source repository required" []
    | Some binding =>
      _ ← reject_if (negb (IsSourceRole (RepositoryBinding_Role binding))) (invalid "attached source repository required" []);
      conn ← scopedConnection st (RepositoryBinding_ConnectionID binding) (ProductID inn);
      _ ← each (fun pending => reject_if (ref_pending inn app pending) (invalid "source ref operation already active" [])) (State_Operations st);
      '(branch, sha, kind) ← managed_ref st c input inn app;
      _ ← reject_if (negb (fullSHA sha)) (invalid "exact source commit required" []);
      let source := (zero : FlowSource)
        <| FlowSource_RepositoryID := Application_RepositoryID app |> <| FlowSource_Connection := GitHubConnection_Config conn |>
        <| FlowSource_Plan := (zero : SourcePlan) <| SourcePlan_Repository := repositoryLocator st binding |>
             <| SourcePlan_BaseRef := configuredBase binding |> <| SourcePlan_BaseSHA := sha |> <| SourcePlan_TargetBranch := branch |>
             <| SourcePlan_OperationID := Meta_ID m |> |> in
      let op := (zero : ExternalOperation)
        <| ExternalOperation_Meta := m |> <| ExternalOperation_Kind := kind |> <| ExternalOperation_IntegrationID := ID inn |>
        <| ExternalOperation_ApplicationID := ID app |> <| ExternalOperation_RequestedBy := Command_Actor c |>
        <| ExternalOperation_Status := "PENDING" |> <| ExternalOperation_Phase := "CREATE_REF" |>
        <| ExternalOperation_DeploymentState := "PENDING" |> <| ExternalOperation_Sources := [source] |> in
      Ok (st <| State_Operations ::= fun l => l ++ [op] |>, OutOperation op, m)
    end
  | _, _ => unapproved
  end.
End handlers.

(** ** What was published stays what it was *)
Section provenance.
Context `{Runtime, URLs}.

Definition PublicationStep (st st' : State) : Prop := exists c m out m', Meta_ProductID m = Command_ProductID c /\ applyPublication st c m = Ok (st', out, m').
(** Two records of one version of one package. *)
Definition same_package (st : State) (a b : PackageArtifact) : Prop :=
  ProductID a = ProductID b /\ PackageArtifact_ApplicationID a = PackageArtifact_ApplicationID b
  /\ PackageArtifact_Version a = PackageArtifact_Version b
  /\ exists t u, publicationTarget st (PackageArtifact_PublicationTargetID a) = Some t
       /\ publicationTarget st (PackageArtifact_PublicationTargetID b) = Some u /\ same_destination t u = true.
Record Provenance (st : State) : Prop := {
  provenance_target : forall a, a ∈ State_PackageArtifacts st -> is_Some (publicationTarget st (PackageArtifact_PublicationTargetID a));
  provenance_agrees : forall a b, a ∈ State_PackageArtifacts st -> b ∈ State_PackageArtifacts st -> same_package st a b ->
    PackageArtifact_Checksum a = PackageArtifact_Checksum b /\ PackageArtifact_SourceCommit a = PackageArtifact_SourceCommit b;
}.
Lemma same_destination_sym a b : same_destination a b = true -> same_destination b a = true.
Proof using Type. unfold same_destination. intros Hs. to_prop. rewrite !bool_decide_eq_true_2 by congruence. reflexivity. Qed.
Lemma same_package_sym st a b : same_package st a b -> same_package st b a.
Proof using Type.
  intros (? & ? & ? & t & u & ? & ? & Hs). split; [congruence|]. split; [congruence|]. split; [congruence|].
  exists u, t. auto using same_destination_sym.
Qed.
Lemma target_added st t id : is_Some (publicationTarget st id) ->
  publicationTarget (st <| State_PublicationTargets ::= fun l => l ++ [t] |>) id = publicationTarget st id.
Proof using Type.
  intros [t' E]. unfold publicationTarget in *.
  change (State_PublicationTargets (st <| State_PublicationTargets ::= _ |>)) with (State_PublicationTargets st ++ [t]).
  rewrite find_first_app, E. reflexivity.
Qed.
Lemma configure_keeps st c m st' out m' : configure_publication st c m = Ok (st', out, m') -> Provenance st -> Provenance st'.
Proof using Type.
  unfold configure_publication. intros Hx [Ht Ha]. step_guards Hx. injection Hx as <- _ _.
  split; change (State_PackageArtifacts (st <| State_PublicationTargets ::= _ |>)) with (State_PackageArtifacts st).
  - intros r Hr. rewrite target_added by auto. auto.
  - intros r s Hr Hs (E1 & E2 & E3 & t & u & Et & Eu & Hd). apply Ha; [exact Hr|exact Hs|].
    rewrite target_added in Et, Eu by auto. repeat split; try assumption. eauto.
Qed.
Lemma package_feature_product st c app m m' : package_feature st c app m = Ok m' -> Meta_ProductID m' = Meta_ProductID m.
Proof using Type. unfold package_feature. intros Hx. crunch Hx; reflexivity. Qed.
Lemma record_package_cases st c m st' out m' : record_package_artifact st c m = Ok (st', out, m') -> Meta_ProductID m = Command_ProductID c ->
  exists r target, State_PackageArtifacts st' = State_PackageArtifacts st ++ [r] /\ State_PublicationTargets st' = State_PublicationTargets st
    /\ publicationTarget st (PackageArtifact_PublicationTargetID r) = Some target
    /\ forall x u, x ∈ State_PackageArtifacts st -> ProductID x = ProductID r -> PackageArtifact_ApplicationID x = PackageArtifact_ApplicationID r ->
         PackageArtifact_Version x = PackageArtifact_Version r -> publicationTarget st (PackageArtifact_PublicationTargetID x) = Some u ->
         same_destination u target = true ->
         PackageArtifact_Checksum x = PackageArtifact_Checksum r /\ PackageArtifact_SourceCommit x = PackageArtifact_SourceCommit r.
Proof using Type.
  unfold record_package_artifact. intros Hx Hm. apply bind_Ok in Hx as (input & _ & Hx). apply bind_Ok in Hx as (app & _ & Hx).
  destruct (publicationTarget st _) as [target|] eqn:Et; [|discriminate].
  apply bind_Ok in Hx as (_ & _ & Hx). apply bind_Ok in Hx as (_ & _ & Hx). apply bind_Ok in Hx as (_ & _ & Hx). apply bind_Ok in Hx as (_ & _ & Hx).
  apply bind_Ok in Hx as (m1 & Hf & Hx). apply package_feature_product in Hf. apply bind_Ok in Hx as ([] & Hc & Hx). injection Hx as <- _ _.
  assert (Eid : ID target = PackageInput_PublicationTargetID input) by (apply find_first_Some in Et as [_ Hid]; unfold has_id in Hid; to_prop; exact Hid).
  eexists _, target. split; [reflexivity|]. split; [reflexivity|]. cbn [PackageArtifact_PublicationTargetID]. split; [rewrite Eid; exact Et|].
  intros x u Hx Ep Ea Ev Eu Hd. rewrite each_Ok, list.Forall_forall in Hc. specialize (Hc x Hx). rewrite reject_if_invalid in Hc.
  unfold conflicting_package in Hc. rewrite Eu, Hd in Hc. cbn [PackageArtifact_Checksum PackageArtifact_SourceCommit PackageArtifact_Version PackageArtifact_ApplicationID] in *.
  change (ProductID x = Meta_ProductID m1) in Ep.
  rewrite !(bool_decide_eq_true_2 (_ = _)) in Hc by congruence. cbn [andb] in Hc. apply orb_false_iff in Hc as [H1 H2]. to_prop. auto.
Qed.
Lemma record_keeps st c m st' out m' : record_package_artifact st c m = Ok (st', out, m') -> Meta_ProductID m = Command_ProductID c ->
  Provenance st -> Provenance st'.
Proof using Type.
  intros Hx Hm [Ht Ha]. destruct (record_package_cases _ _ _ _ _ _ Hx Hm) as (r & target & El & Es & Er & Hold).
  assert (E : forall id, publicationTarget st' id = publicationTarget st id) by (intros id; unfold publicationTarget; rewrite Es; reflexivity).
  assert (Hnew : forall x, x ∈ State_PackageArtifacts st -> same_package st x r ->
    PackageArtifact_Checksum x = PackageArtifact_Checksum r /\ PackageArtifact_SourceCommit x = PackageArtifact_SourceCommit r).
  { intros x Hin (E1 & E2 & E3 & t & u & Et & Eu & Hd). assert (u = target) as -> by congruence. eapply Hold; eassumption. }
  assert (Hsame : forall x y, same_package st' x y -> same_package st x y).
  { intros x y (E1 & E2 & E3 & t & u & Et & Eu & Hd). rewrite E in Et, Eu. repeat split; try assumption. eauto. }
  split.
  - rewrite El. intros x [Hin|Hin%list_elem_of_singleton]%elem_of_app; rewrite E; [auto|subst x; rewrite Er; eauto].
  - rewrite El. intros x y [Hxi|Hxi%list_elem_of_singleton]%elem_of_app [Hyi|Hyi%list_elem_of_singleton]%elem_of_app Hs%Hsame; subst; auto.
    apply same_package_sym in Hs. destruct (Hnew y Hyi Hs). auto.
Qed.

Lemma publication_step_keeps st st' : PublicationStep st st' ->
  State_PackageArtifacts st `prefix_of` State_PackageArtifacts st' /\ (Provenance st -> Provenance st').
Proof using Type.
  intros (c & m & out & m' & Hm & Hx). unfold applyPublication in Hx. destruct (_ == "configure_publication"); [|destruct (_ == "record_package_artifact"); [|discriminate]].
  - split; [|eapply configure_keeps, Hx]. unfold configure_publication in Hx. step_guards Hx. injection Hx as <- _ _. reflexivity.
  - split; [|eapply record_keeps; eassumption]. destruct (record_package_cases _ _ _ _ _ _ Hx Hm) as (r & _ & -> & _). apply prefix_app_r. reflexivity.
Qed.

(** Published provenance is immutable: whatever publication commands
    follow, no record is lost or changed, and one version of one package never
    has two checksums or two source commits. *)
Theorem package_provenance_immutable st st' : rtc PublicationStep st st' ->
  State_PackageArtifacts st `prefix_of` State_PackageArtifacts st' /\ (Provenance st -> Provenance st').
Proof using Type.
  intros Hr. split.
  - apply (rtc_invariant PublicationStep (fun x => State_PackageArtifacts st `prefix_of` State_PackageArtifacts x)) with st; [|exact Hr|reflexivity].
    intros x y Hxy Hx. etransitivity; [exact Hx|]. apply publication_step_keeps, Hxy.
  - apply (rtc_invariant PublicationStep Provenance); [|exact Hr]. intros x y Hxy. apply publication_step_keeps, Hxy.
Qed.
End provenance.
