(* ===== verification/Registry.v ===== *)
(** * Registry inventories

    [internal/domain/registry_inventory.go] and [registry_image_content.go]:
    what a worker reports after reading an image registry, its bounds, its
    canonical form, and the checks that a report passes before it becomes an
    inventory.  A map of the source that is filled from a slice is [index_by];
    [reflect.DeepEqual] is equality of the decoded values, in which a slice
    that is absent from the JSON text is an empty one. *)
From S2P Require Import Prelude GoText Worklist GoJson Delivery Domain Status Planning Handlers Collections Reservation WorkerAuth Pins WorkerJobs.
Open Scope string_scope.
Open Scope list_scope.

Definition RegistryObservationKind : string := "WORKER_ATTESTED_REGISTRY_READ".
Definition RegistryObserveOperationKind : string := "REFRESH_REGISTRY_INVENTORY".
Definition RegistryReportMaxBytes : Z := 262144.
Definition registryCodes : list string := [
  "registry_global_inventory_unproven"; "registry_request_failed"; "registry_unauthorized"; "registry_missing";
  "registry_malformed"; "registry_digest_mismatch"; "registry_descriptor_conflict"; "registry_unsupported"; "registry_limit";
  "registry_pagination"; "registry_discovery_changed"; "registry_referrers_unknown"; "registry_filtered_referrers";
  "registry_cancelled"].

(** The number of bytes [json.Marshal] writes. *)
Class Encoding := { encoded_size : forall {A : Type}, A -> Z }.

Definition out_of (lo hi z : Z) : bool := (z <? lo)%Z || (hi <? z)%Z.
Definition ValidateRegistryObserveLimits (l : RegistryObserveLimits) : bool :=
  negb (out_of 1024 (2 ^ 30) (RegistryObserveLimits_MaxResponseBytes l)
    || out_of (RegistryObserveLimits_MaxResponseBytes l) (8 * 2 ^ 30) (RegistryObserveLimits_MaxTotalBytes l)
    || out_of 1 1024 (RegistryObserveLimits_MaxNodes l) || out_of 1 4096 (RegistryObserveLimits_MaxEdges l)
    || out_of 1 32 (RegistryObserveLimits_MaxDepth l) || out_of 1 128 (RegistryObserveLimits_MaxPages l)
    || out_of 1 8192 (RegistryObserveLimits_MaxRequests l) || out_of 1 900 (RegistryObserveLimits_TimeoutSeconds l)).
Definition ValidateRegistryScope `{Runtime, NetURL, URLs} (s : RegistryScope) : res unit :=
  _ ← reject_if ((RegistryScope_ProductID s == "") || (RegistryScope_ComponentID s == "") || (RegistryScope_RepositoryID s == ""))
        (plain "missing registry scope");
  match url_parse (RegistryScope_Origin s) with
  | None => plain "invalid registry origin"
  | Some u =>
    _ ← reject_if ((URL_Host u == "") || URL_User u || (URL_Path u != "") || (URL_RawQuery u != "") || (URL_Fragment u != "")
          || (URL_Opaque u != "") || (url_string u != RegistryScope_Origin s)) (plain "invalid registry origin");
    _ ← reject_if ((URL_Scheme u != "https") && ((URL_Scheme u != "http") || negb (is_loopback (URL_Hostname u))))
          (plain "registry TLS required");
    match CanonicalImageRepository (URL_Host u +:+ "/" +:+ RegistryScope_Repository s) with
    | Ok image => reject_if (image != RegistryScope_ImageRepository s) (plain "noncanonical registry repository")
    | Err _ => plain "noncanonical registry repository"
    end
  end.
Definition registryStatus (s : string) : bool := (s == "COMPLETE") || (s == "PARTIAL") || (s == "UNKNOWN").
Definition registryBlockers (v : list string) : bool :=
  (length v <=? length registryCodes)%nat && forallb (contains registryCodes) v.
Definition retentionHasCode (codes : list string) (want : string) : bool := existsb (fun code => code == want) codes.
Definition count {A} (l : list A) : Z := Z.of_nat (length l).

(** ** Image content attestations — registry_image_content.go *)
(** [boundedImageContent]; the running totals of manifests and descriptors. *)
Definition bounded_descriptor (d : RegistryImageContentDescriptor) : bool :=
  negb ((71 <? strlen (RegistryImageContentDescriptor_Digest d))%Z || (8 <? strlen (RegistryImageContentDescriptor_Kind d))%Z
    || (128 <? strlen (RegistryImageContentDescriptor_MediaType d))%Z)
  && match RegistryImageContentDescriptor_Platform d with
     | Some p => negb ((32 <? strlen (RegistryPlatform_OS p))%Z || (32 <? strlen (RegistryPlatform_Architecture p))%Z
                       || (32 <? strlen (RegistryPlatform_Variant p))%Z)
     | None => true
     end.
Definition bounded_manifest (l : RegistryObserveLimits) (descriptors : Z) (m : RegistryImageContentManifest) : option Z :=
  if (71 <? strlen (RegistryImageContentManifest_Digest m))%Z || (8 <? strlen (RegistryImageContentManifest_Kind m))%Z
     || (128 <? strlen (RegistryImageContentManifest_MediaType m))%Z
     || (71 <? strlen (RegistryImageContentManifest_DescriptorHash m))%Z
     || (RegistryObserveLimits_MaxEdges l <? count (RegistryImageContentManifest_Descriptors m))%Z
  then None
  else
    let descriptors := (descriptors + count (RegistryImageContentManifest_Descriptors m))%Z in
    if (RegistryReportMaxBytes / 64 <? descriptors)%Z then None
    else if forallb bounded_descriptor (RegistryImageContentManifest_Descriptors m) then Some descriptors else None.
Fixpoint fold_option {A B} (f : B -> A -> option B) (b : B) (l : list A) : option B :=
  match l with
  | [] => Some b
  | x :: l => match f b x with Some b => fold_option f b l | None => None end
  end.
Definition bounded_root (l : RegistryObserveLimits) (totals : Z * Z) (root : RegistryImageContentRoot) : option (Z * Z) :=
  let ms := RegistryImageContentRoot_Manifests root in
  if (71 <? strlen (RegistryImageContentRoot_Digest root))%Z || (8 <? strlen (RegistryImageContentRoot_Closure root))%Z
     || (71 <? strlen (RegistryImageContentRoot_Hash root))%Z || (RegistryObserveLimits_MaxNodes l <? count ms)%Z
  then None
  else
    let manifests := (totals.1 + count ms)%Z in
    if (RegistryReportMaxBytes / 64 <? manifests)%Z then None
    else match fold_option (bounded_manifest l) totals.2 ms with
         | Some descriptors => Some (manifests, descriptors)
         | None => None
         end.
Definition boundedImageContent (roots : list RegistryImageContentRoot) (l : RegistryObserveLimits) : bool :=
  if (256 <? count roots)%Z then false else is_some (fold_option (bounded_root l) (0, 0)%Z roots).

Definition normalizeImageContent (roots : list RegistryImageContentRoot) : list RegistryImageContentRoot :=
  sort_by RegistryImageContentRoot_Digest
    (map (fun r => r <| RegistryImageContentRoot_Manifests ::= sort_by RegistryImageContentManifest_Digest |>) roots).

Section graphs.
Context `{Hashing, Encoding}.

Definition RegistryImageContentDescriptorHash (descriptors : list RegistryImageContentDescriptor) : string := Fingerprint descriptors.
Definition RegistryImageContentRootHash (root : RegistryImageContentRoot) : string :=
  Fingerprint (root <| RegistryImageContentRoot_Hash := "" |>).
Definition RegistryRootSetHash (scope : RegistryScope) (recipeID recipeRevision recipeHash configRevision : string)
    (roots : list string) : string :=
  Fingerprint (scope, recipeID, recipeRevision, recipeHash, configRevision, sortedUnique roots).

(** ** The canonical form of a graph *)
Definition nul : string := String (ascii_of_nat 0) EmptyString.
Definition registryEdgeKey (e : RegistryEdge) : string :=
  RegistryEdge_From e +:+ nul +:+ RegistryEdge_To e +:+ nul +:+ RegistryEdge_Kind e +:+ nul +:+ Fingerprint (RegistryEdge_Platform e).
Definition NormalizeRegistryGraph (g : RegistryGraph) : res RegistryGraph :=
  let nodes := sort_by RegistryNode_Digest (RegistryGraph_Nodes g) in
  _ ← reject_if (adjacent_equal RegistryNode_Digest nodes) (plain "duplicate registry object identity");
  let edges := sort_by registryEdgeKey (RegistryGraph_Edges g) in
  _ ← reject_if (adjacent_equal registryEdgeKey edges) (plain "duplicate registry edge");
  let roots := sort_by RegistryRoot_Digest (RegistryGraph_Roots g) in
  _ ← reject_if (adjacent_equal RegistryRoot_Digest roots) (plain "duplicate registry root");
  Ok (g <| RegistryGraph_ImageContentRoots ::= normalizeImageContent |> <| RegistryGraph_Blockers ::= sortedUnique |>
        <| RegistryGraph_Nodes := nodes |> <| RegistryGraph_Edges := edges |>
        <| RegistryGraph_Roots := map (fun r => r <| RegistryRoot_Blockers ::= sortedUnique |>) roots |>).
Definition RegistryGraphHash (g : RegistryGraph) : string :=
  match NormalizeRegistryGraph g with
  | Ok g => Fingerprint (g <| RegistryGraph_GraphHash := "" |>)
  | Err _ => ""
  end.

(** ** The bounds and shape of a graph *)
(** [^[a-z0-9!#$&^_.+-]+/[a-z0-9!#$&^_.+-]+$] *)
Definition media_char (a : ascii) : bool := lower_alnum a || str_mem a "!#$&^_.+-".
Definition media_type (s : string) : bool :=
  match cut slash s with
  | Some (l, r) => (l != "") && str_all media_char l && (r != "") && str_all media_char r
  | None => false
  end.
(** [^[A-Za-z0-9_.-]{1,32}$] *)
Definition platform_name (s : string) : bool :=
  str_all (ident_char "_.-") s && (1 <=? String.length s)%nat && (String.length s <=? 32)%nat.
Definition present (n : RegistryNode) : bool := RegistryNode_Availability n == "PRESENT".
Definition valid_node (l : RegistryObserveLimits) (n : RegistryNode) : bool :=
  is_digest (RegistryNode_Digest n) && contains ["INDEX"; "MANIFEST"; "BLOB"; "UNKNOWN"] (RegistryNode_Kind n)
  && contains ["PRESENT"; "MISSING"; "UNKNOWN"] (RegistryNode_Availability n) && (0 <=? RegistryNode_Size n)%Z
  && (RegistryNode_Size n <=? RegistryObserveLimits_MaxResponseBytes l)%Z && (strlen (RegistryNode_MediaType n) <=? 128)%Z
  && ((RegistryNode_MediaType n == "") || media_type (RegistryNode_MediaType n))
  && negb (present n && (((RegistryNode_Size n == 0%Z) && (RegistryNode_Kind n != "BLOB")) || (RegistryNode_Kind n == "UNKNOWN")
                         || (RegistryNode_MediaType n == ""))).
Definition node_map (g : RegistryGraph) : gmap string RegistryNode := index_by RegistryNode_Digest (RegistryGraph_Nodes g).
Definition valid_platform (e : RegistryEdge) : bool :=
  match RegistryEdge_Platform e with
  | Some p =>
    (RegistryEdge_Kind e == "CHILD")
    && forallb (fun s => (s == "") || platform_name s) [RegistryPlatform_OS p; RegistryPlatform_Architecture p; RegistryPlatform_Variant p]
  | None => true
  end.
Definition valid_ends (kind : string) (from to : RegistryNode) : bool :=
  let from := RegistryNode_Kind from in
  let to := RegistryNode_Kind to in
  negb ((kind == "CHILD") && ((from != "INDEX") || (to == "BLOB"))
    || contains ["CONFIG"; "LAYER"] kind && ((from != "MANIFEST") || ((to != "BLOB") && (to != "UNKNOWN")))
    || contains ["SUBJECT"; "REFERRER"; "REFERRERS_INDEX"] kind && ((from == "BLOB") || (to == "BLOB"))).
Definition valid_edge (g : RegistryGraph) (e : RegistryEdge) : bool :=
  match node_map g !! RegistryEdge_From e, node_map g !! RegistryEdge_To e with
  | Some from, Some to =>
    contains ["CHILD"; "CONFIG"; "LAYER"; "SUBJECT"; "REFERRER"; "REFERRERS_INDEX"] (RegistryEdge_Kind e)
    && valid_platform e && valid_ends (RegistryEdge_Kind e) from to
  | _, _ => false
  end.
(** [adjacency[digest]] and [configs[digest]] *)
Definition adjacency (g : RegistryGraph) (d : string) : list string :=
  map RegistryEdge_To (List.filter (fun e => RegistryEdge_From e == d) (RegistryGraph_Edges g)).
Definition configs (g : RegistryGraph) (d : string) : Z :=
  count (List.filter (fun e => (RegistryEdge_Kind e == "CONFIG") && (RegistryEdge_From e == d)) (RegistryGraph_Edges g)).
Definition oci_manifest (mediaType : string) : bool :=
  (mediaType == "application/vnd.oci.image.manifest.v1+json")
  || (mediaType == "application/vnd.docker.distribution.manifest.v2+json").
Definition oci_index (mediaType : string) : bool :=
  (mediaType == "application/vnd.oci.image.index.v1+json")
  || (mediaType == "application/vnd.docker.distribution.manifest.list.v2+json").

(** The search from one root; an item is a digest and its depth. *)
Definition item : Type := string * Z.
Definition next_items (g : RegistryGraph) (x : item) : list item := map (fun d => (d, x.2 + 1)%Z) (adjacency g x.1).
Definition admitted_item (g : RegistryGraph) (l : RegistryObserveLimits) (r : RegistryRoot) (x : item) : bool :=
  let node := default zero (node_map g !! x.1) in
  negb (RegistryObserveLimits_MaxDepth l <? x.2)%Z
  && ((RegistryRoot_Closure r != "COMPLETE")
      || present node && negb ((RegistryNode_Kind node == "MANIFEST") && oci_manifest (RegistryNode_MediaType node)
                               && (configs g x.1 != 1%Z))).
(** One entry per edge and the root: enough for the search to end. *)
Definition search_fuel (g : RegistryGraph) : nat := S (length (RegistryGraph_Edges g)).
Definition valid_root (g : RegistryGraph) (l : RegistryObserveLimits) (r : RegistryRoot) : bool :=
  match node_map g !! RegistryRoot_Digest r with
  | None => false
  | Some n =>
    (RegistryNode_Kind n != "BLOB") && registryStatus (RegistryRoot_Closure r) && registryBlockers (RegistryRoot_Blockers r)
    && negb ((RegistryRoot_Closure r == "COMPLETE") && (negb (bool_decide (RegistryRoot_Blockers r = [])) || negb (present n)))
    && match search fst (next_items g) (admitted_item g l r) (search_fuel g) [(RegistryRoot_Digest r, 0%Z)] ∅ with
       | Some (Visited _) => true
       | _ => false
       end
  end.

(** *** validateImageContent *)
Definition content_kind (kind : string) : bool := contains ["CHILD"; "CONFIG"; "LAYER"] kind.
Definition content_edge (e : RegistryEdge) : bool := content_kind (RegistryEdge_Kind e).
Definition content_edges (g : RegistryGraph) : gset string :=
  list_to_set (map registryEdgeKey (List.filter content_edge (RegistryGraph_Edges g))).
Definition outgoing (g : RegistryGraph) (d : string) : gset string :=
  list_to_set (map registryEdgeKey (List.filter (fun e => content_edge e && (RegistryEdge_From e == d)) (RegistryGraph_Edges g))).
Definition descriptor_key (m : RegistryImageContentManifest) (d : RegistryImageContentDescriptor) : string :=
  registryEdgeKey (mkRegistryEdge (RegistryImageContentManifest_Digest m) (RegistryImageContentDescriptor_Digest d)
    (RegistryImageContentDescriptor_Kind d) (RegistryImageContentDescriptor_Platform d)).
Definition valid_descriptor (g : RegistryGraph) (m : RegistryImageContentManifest) (d : RegistryImageContentDescriptor) : bool :=
  match node_map g !! RegistryImageContentDescriptor_Digest d with
  | None => false
  | Some target =>
    let kind := RegistryImageContentDescriptor_Kind d in
    present target && (RegistryNode_MediaType target == RegistryImageContentDescriptor_MediaType d)
    && (RegistryNode_Size target == RegistryImageContentDescriptor_Size d)
    && is_digest (RegistryImageContentDescriptor_Digest d) && (0 <=? RegistryImageContentDescriptor_Size d)%Z
    && (if RegistryImageContentManifest_Kind m == "INDEX"
        then (kind == "CHILD") && ((RegistryNode_Kind target == "MANIFEST") || (RegistryNode_Kind target == "INDEX"))
        else ((kind == "CONFIG") || (kind == "LAYER")) && (RegistryNode_Kind target == "BLOB")
             && negb (is_some (RegistryImageContentDescriptor_Platform d)))
    && bool_decide (descriptor_key m d ∈ content_edges g)
  end.
Definition attested_media (kind mediaType : string) : bool :=
  if kind == "INDEX" then oci_index mediaType else if kind == "MANIFEST" then oci_manifest mediaType else false.
Definition config_descriptors (m : RegistryImageContentManifest) : Z :=
  count (List.filter (fun d => RegistryImageContentDescriptor_Kind d == "CONFIG") (RegistryImageContentManifest_Descriptors m)).
Definition valid_manifest (g : RegistryGraph) (l : RegistryObserveLimits) (m : RegistryImageContentManifest) : bool :=
  let ds := RegistryImageContentManifest_Descriptors m in
  match node_map g !! RegistryImageContentManifest_Digest m with
  | None => false
  | Some n =>
    present n && (RegistryNode_Digest n == RegistryImageContentManifest_Digest m)
    && (RegistryNode_Kind n == RegistryImageContentManifest_Kind m)
    && (RegistryNode_MediaType n == RegistryImageContentManifest_MediaType m)
    && (RegistryNode_Size n == RegistryImageContentManifest_Size m) && (1 <=? RegistryImageContentManifest_Size m)%Z
    && (RegistryImageContentManifest_DescriptorCount m == count ds)
    && (RegistryImageContentManifest_DescriptorCount m <=? RegistryObserveLimits_MaxEdges l)%Z
    && (RegistryImageContentManifest_DescriptorHash m == RegistryImageContentDescriptorHash ds)
    && attested_media (RegistryImageContentManifest_Kind m) (RegistryImageContentManifest_MediaType m)
    && forallb (valid_descriptor g m) ds
    && negb ((RegistryImageContentManifest_Kind m == "INDEX") && bool_decide (ds = []))
    && negb ((RegistryImageContentManifest_Kind m == "MANIFEST") && (config_descriptors m != 1%Z))
    && bool_decide (list_to_set (map (descriptor_key m) ds) = outgoing g (RegistryImageContentManifest_Digest m))
  end.
Definition add_manifest (g : RegistryGraph) (l : RegistryObserveLimits) (manifests : gmap string RegistryImageContentManifest)
    (m : RegistryImageContentManifest) : option (gmap string RegistryImageContentManifest) :=
  if is_some (manifests !! RegistryImageContentManifest_Digest m) then None
  else if valid_manifest g l m then Some (<[RegistryImageContentManifest_Digest m := m]> manifests) else None.

(** The depth-first walk over the attested manifests.  [active] are the nodes
    on the path to [d]; the answer is [seen] when the walk succeeds.  [budget]
    is the depth left, so [O] is [depth > l.MaxDepth]. *)
Fixpoint walk (manifests : gmap string RegistryImageContentManifest) (budget : nat) (active : gset string)
    (seen : gset string) (d : string) : option (gset string) :=
  match budget with
  | O => None
  | S budget =>
    if bool_decide (d ∈ active) then None
    else if bool_decide (d ∈ seen) then Some seen
    else match manifests !! d with
    | None => None
    | Some m =>
      match fold_option (fun seen desc =>
              if RegistryImageContentDescriptor_Kind desc == "CHILD"
              then walk manifests budget ({[d]} ∪ active) seen (RegistryImageContentDescriptor_Digest desc)
              else Some seen) seen (RegistryImageContentManifest_Descriptors m) with
      | Some seen => Some ({[d]} ∪ seen)
      | None => None
      end
    end
  end.
Definition allowed_code (code : string) : bool :=
  contains ["registry_global_inventory_unproven"; "registry_referrers_unknown"; "registry_missing"] code.
Definition valid_content_root (g : RegistryGraph) (l : RegistryObserveLimits) (expected : string) (root : RegistryImageContentRoot) : bool :=
  let ms := RegistryImageContentRoot_Manifests root in
  if (RegistryImageContentRoot_Digest root != expected) || (RegistryImageContentRoot_Hash root != RegistryImageContentRootHash root)
     || ((RegistryImageContentRoot_Closure root != "COMPLETE") && (RegistryImageContentRoot_Closure root != "PARTIAL"))
  then false
  else if RegistryImageContentRoot_Closure root != "COMPLETE" then bool_decide (ms = [])
  else
    forallb allowed_code (RegistryGraph_Blockers g)
    && forallb (fun r => forallb allowed_code (RegistryRoot_Blockers r)) (RegistryGraph_Roots g)
    && negb (bool_decide (ms = [])) && (count ms <=? RegistryObserveLimits_MaxNodes l)%Z
    && match fold_option (add_manifest g l) ∅ ms with
       | None => false
       | Some manifests =>
         match walk manifests (Z.to_nat (RegistryObserveLimits_MaxDepth l + 1)) ∅ ∅ (RegistryImageContentRoot_Digest root) with
         | Some seen => (size seen =? size manifests)%nat
         | None => false
         end
       end.
Definition validateImageContent (g : RegistryGraph) (l : RegistryObserveLimits) (requested : list string) : bool :=
  let roots := RegistryGraph_ImageContentRoots g in
  if bool_decide (roots = []) then true
  else
    let expected := sortedUnique requested in
    (length roots =? length expected)%nat && (count expected <=? 256)%Z && (roots == normalizeImageContent roots)
    && forallb (fun p => valid_content_root g l p.1 p.2) (zip expected roots).

Definition ValidateRegistryGraph (g : RegistryGraph) (l : RegistryObserveLimits) (knownRoots : list string) : bool :=
  ValidateRegistryObserveLimits l && (count (RegistryGraph_Nodes g) <=? RegistryObserveLimits_MaxNodes l)%Z
  && (count (RegistryGraph_Edges g) <=? RegistryObserveLimits_MaxEdges l)%Z
  && (count (RegistryGraph_Roots g) <=? RegistryObserveLimits_MaxNodes l)%Z && (0 <=? RegistryGraph_TagCount g)%Z
  && (RegistryGraph_TagCount g <=? RegistryObserveLimits_MaxNodes l * RegistryObserveLimits_MaxPages l)%Z
  && negb (RegistryGraph_GlobalInventoryComplete g) && registryStatus (RegistryGraph_Discovery g)
  && registryBlockers (RegistryGraph_Blockers g) && is_digest (RegistryGraph_TagSetHash g)
  && boundedImageContent (RegistryGraph_ImageContentRoots g) l
  && (NormalizeRegistryGraph g == Ok g) && (RegistryGraph_GraphHash g == RegistryGraphHash g)
  && forallb (valid_node l) (RegistryGraph_Nodes g) && forallb (valid_edge g) (RegistryGraph_Edges g)
  && ((RegistryGraph_Discovery g != "COMPLETE")
      || forallb (fun code => code == "registry_global_inventory_unproven") (RegistryGraph_Blockers g))
  && forallb (valid_root g l) (RegistryGraph_Roots g)
  && forallb (fun digest => is_digest digest && contains (map RegistryRoot_Digest (RegistryGraph_Roots g)) digest) knownRoots
  && retentionHasCode (RegistryGraph_Blockers g) "registry_global_inventory_unproven"
  && validateImageContent g l knownRoots && (encoded_size g <=? RegistryReportMaxBytes)%Z.

(** The proof that the bytes of an image are complete. *)
Definition RegistryImageContentProofHash (g : RegistryGraph) (l : RegistryObserveLimits) (requested : list string)
    (digest : string) : res string :=
  if negb (ValidateRegistryGraph g l requested) then plain "invalid image content graph"
  else match find_first (fun root => (RegistryImageContentRoot_Digest root == digest)
                                     && (RegistryImageContentRoot_Closure root == "COMPLETE")) (RegistryGraph_ImageContentRoots g) with
       | Some root => Ok (RegistryImageContentRoot_Hash root)
       | None => plain "complete requested image content proof unavailable"
       end.

(** ** The report of a worker *)
Definition report_request (r : WorkerReport) : WorkerAttemptRequest := WorkerReport_WorkerAttemptRequest r.
Definition reports_attempt (j : WorkerJob) (a : WorkerAttempt) (r : WorkerReport) : bool :=
  let q := report_request r in
  (WorkerAttemptRequest_JobID q == ID j) && (WorkerAttemptRequest_AttemptID q == ID a)
  && (WorkerAttemptRequest_Fence q == WorkerAttempt_Fence a) && (WorkerAttemptRequest_InputHash q == WorkerJob_InputHash j).
(** The observation answers the inputs of its job within their limits. *)
Definition answers_inputs (i : WorkerInputs) (p : WorkerRegistryInputs) (v : WorkerRegistryReport) : bool :=
  let l := WorkerRegistryInputs_Limits p in
  (WorkerRegistryReport_Kind v == RegistryObservationKind) && (WorkerRegistryReport_Scope v == WorkerRegistryInputs_Scope p)
  && (WorkerRegistryReport_RecipeID v == WorkerInputs_RecipeID i)
  && (WorkerRegistryReport_RecipeRevision v == WorkerInputs_RecipeRevision i)
  && (WorkerRegistryReport_RecipeHash v == WorkerInputs_RecipeHash i)
  && (WorkerRegistryReport_ConfigRevision v == WorkerInputs_ConfigRevision i)
  && (WorkerRegistryReport_RootSetHash v == WorkerRegistryInputs_RootSetHash p)
  && (0 <=? WorkerRegistryReport_Requests v)%Z && (WorkerRegistryReport_Requests v <=? RegistryObserveLimits_MaxRequests l)%Z
  && (0 <=? WorkerRegistryReport_Bytes v)%Z && (WorkerRegistryReport_Bytes v <=? RegistryObserveLimits_MaxTotalBytes l)%Z.
Definition observed_within (a : WorkerAttempt) (l : RegistryObserveLimits) (v : WorkerRegistryReport) (received : Time) : bool :=
  let started := WorkerRegistryReport_StartedAt v in
  let finished := WorkerRegistryReport_FinishedAt v in
  negb (IsZero started) && negb (IsZero finished) && negb (Before started (CreatedAt a)) && negb (Before finished started)
  && negb (After finished received) && negb (Before received (CreatedAt a))
  && (finished - started <=? RegistryObserveLimits_TimeoutSeconds l * second)%Z.
Definition verified_bytes (g : RegistryGraph) : Z :=
  foldl (fun n node => if present node then (n + RegistryNode_Size node)%Z else n) 0%Z (RegistryGraph_Nodes g).
Definition ValidateRegistryWorkerReport (j : WorkerJob) (a : WorkerAttempt) (r : WorkerReport) (received : Time) : bool :=
  match WorkerInputs_Registry (WorkerJob_Inputs j) with
  | None => false
  | Some p =>
    if (WorkerJob_Capability j != "registry_observe") || is_some (WorkerReport_LocalOCI r) || is_some (WorkerReport_Publication r)
       || negb (reports_attempt j a r)
    then false
    else if negb (contains ["PASSED"; "EXECUTOR_FAILED"] (WorkerReport_Result r)) then false
    else match WorkerReport_Registry r with
    | None => WorkerReport_Result r != "PASSED"
    | Some v =>
      (WorkerReport_Result r == "PASSED") && answers_inputs (WorkerJob_Inputs j) p v
      && observed_within a (WorkerRegistryInputs_Limits p) v received
      && ValidateRegistryGraph (WorkerRegistryReport_Graph v) (WorkerRegistryInputs_Limits p) (WorkerRegistryInputs_Roots p)
      && (verified_bytes (WorkerRegistryReport_Graph v) <=? WorkerRegistryReport_Bytes v)%Z
      && (encoded_size r <=? RegistryReportMaxBytes)%Z
    end
  end.

(** ** The inventories of a store *)
Definition observation_operation (j : WorkerJob) (p : WorkerRegistryInputs) (o : ExternalOperation) : bool :=
  (ExternalOperation_Kind o == RegistryObserveOperationKind) && (ProductID o == ProductID j)
  && (ExternalOperation_ApplicationID o == RegistryScope_ComponentID (WorkerRegistryInputs_Scope p))
  && (ExternalOperation_RepositoryID o == RegistryScope_RepositoryID (WorkerRegistryInputs_Scope p))
  && (ExternalOperation_RegistryObservation o == Some (WorkerJob_Inputs j)).
Definition observation_inputs (i : WorkerInputs) : bool :=
  (WorkerInputs_SourceSHA i == "") && (WorkerInputs_RevisionID i == "") && negb (is_some (WorkerInputs_Execution i))
  && negb (is_some (WorkerInputs_SourceProof i)) && negb (is_some (WorkerInputs_Publication i))
  && negb (is_some (WorkerInputs_Check i)) && (WorkerInputs_Trust i == "registry_observation")
  && is_digest (WorkerInputs_RecipeHash i) && (WorkerInputs_RecipeID i != "") && (WorkerInputs_RecipeRevision i != "")
  && (WorkerInputs_ConfigRevision i != "") && (size (WorkerInputs_Parameters i) =? 0)%nat.
Definition observation_roots (i : WorkerInputs) (p : WorkerRegistryInputs) : bool :=
  (count (WorkerRegistryInputs_Roots p) <=? 256)%Z
  && (WorkerRegistryInputs_RootSetHash p
        == RegistryRootSetHash (WorkerRegistryInputs_Scope p) (WorkerInputs_RecipeID i) (WorkerInputs_RecipeRevision i)
             (WorkerInputs_RecipeHash i) (WorkerInputs_ConfigRevision i) (WorkerRegistryInputs_Roots p))
  && is_digest (WorkerRegistryInputs_RequestRetentionInputHash p)
  && (WorkerRegistryInputs_Roots p == sortedUnique (WorkerRegistryInputs_Roots p))
  && forallb is_digest (WorkerRegistryInputs_Roots p).
Context `{Runtime, NetURL, URLs}.
Definition valid_observation_job (st : State) (j : WorkerJob) : bool :=
  let i := WorkerJob_Inputs j in
  if WorkerJob_Capability j != "registry_observe" then negb (is_some (WorkerInputs_Registry i))
  else match WorkerInputs_Registry i, index_by ID (State_Operations st) !! WorkerJob_OperationID j with
  | Some p, Some o =>
    let scope := WorkerRegistryInputs_Scope p in
    observation_operation j p o && (RegistryScope_ProductID scope == ProductID j)
    && (RegistryScope_RepositoryID scope == WorkerInputs_RepositoryID i) && is_ok (ValidateRegistryScope scope)
    && ValidateRegistryObserveLimits (WorkerRegistryInputs_Limits p) && (WorkerJob_InputHash j == Fingerprint i)
    && observation_inputs i && observation_roots i p
    && existsb (fun app => (ID app == RegistryScope_ComponentID scope) && (ProductID app == ProductID j)) (State_Applications st)
    && existsb (fun repo => (ID repo == RegistryScope_RepositoryID scope) && (ProductID repo == ProductID j)) (State_Repositories st)
  | _, _ => false
  end.
(** How often an identifier is used in any collection: the source walks the
    fields of [State] by reflection. *)
Definition id_uses (st : State) (id : string) : nat :=
  length (List.filter (fun o => o.1 == id) (concat (map snd (owners st)))).
Definition valid_inventory (st : State) (seen : gset string) (v : RegistryInventory) : option (gset string) :=
  match index_by ID (State_WorkerJobs st) !! RegistryInventory_JobID v,
        index_by ID (State_WorkerAttempts st) !! RegistryInventory_AttemptID v with
  | Some j, Some a =>
    match WorkerAttempt_Report a with
    | None => None
    | Some r =>
      if (ID v != "") && (id_uses st (ID v) =? 1)%nat && (FeatureID v == FeatureID j)
         && (WorkerJob_Status j == "SUCCEEDED") && (WorkerAttempt_Status a == "SUCCEEDED") && (ProductID v == ProductID j)
         && (ProductID a == ProductID j) && (WorkerAttempt_JobID a == ID j) && (WorkerAttempt_Fence a == RegistryInventory_Fence v)
         && (WorkerJob_InputHash j == RegistryInventory_InputHash v) && (WorkerAttempt_InputHash a == RegistryInventory_InputHash v)
         && (WorkerJob_Capability j == "registry_observe") && (RegistryInventory_Inputs v == WorkerJob_Inputs j)
         && (WorkerReport_Result r == "PASSED") && (WorkerReport_Registry r == Some (RegistryInventory_Report v))
         && (UpdatedAt a == RegistryInventory_ReceivedAt v) && (CreatedAt v == RegistryInventory_ReceivedAt v)
         && (UpdatedAt v == RegistryInventory_ReceivedAt v)
         && ValidateRegistryWorkerReport j a r (RegistryInventory_ReceivedAt v)
         && negb (bool_decide (RegistryInventory_AttemptID v ∈ seen))
      then Some ({[RegistryInventory_AttemptID v]} ∪ seen) else None
    end
  | _, _ => None
  end.
Definition valid_observation_attempt (st : State) (seen : gset string) (a : WorkerAttempt) : bool :=
  let registry := match WorkerAttempt_Report a with Some r => is_some (WorkerReport_Registry r) | None => false end in
  match index_by ID (State_WorkerJobs st) !! WorkerAttempt_JobID a, WorkerAttempt_Report a with
  | Some j, Some r =>
    if WorkerJob_Capability j == "registry_observe" then
      ValidateRegistryWorkerReport j a r (UpdatedAt a)
      && ((WorkerReport_Result r != "PASSED") || bool_decide (ID a ∈ seen))
    else negb registry
  | _, _ => negb registry
  end.
Definition ValidateRegistryInventories (st : State) : bool :=
  forallb (valid_observation_job st) (State_WorkerJobs st)
  && match fold_option (valid_inventory st) ∅ (State_RegistryInventories st) with
     | Some seen => forallb (valid_observation_attempt st seen) (State_WorkerAttempts st)
     | None => false
     end.
End graphs.

(** ** Freshness and coverage — registry_retention.go *)
Definition retentionFreshness : Z := 5 * minute.
Definition evidenceFreshness (at_ now : Time) : string :=
  if IsZero at_ || After at_ now then "UNKNOWN" else if (now - at_ <=? retentionFreshness)%Z then "FRESH" else "STALE".
Fixpoint freshness_of (state : string) (now : Time) (times : list Time) : string :=
  match times with
  | [] => state
  | t :: times =>
    let f := evidenceFreshness t now in
    if f == "UNKNOWN" then f else freshness_of (if f == "STALE" then f else state) now times
  end.
Definition RegistryInventoryFreshness (v : RegistryInventory) (now : Time) : string :=
  freshness_of "FRESH" now [WorkerRegistryReport_StartedAt (RegistryInventory_Report v);
    WorkerRegistryReport_FinishedAt (RegistryInventory_Report v); RegistryInventory_ReceivedAt v].
(** [domain.RegistryObservationAuthority] — domain/registry_inventory.go *)
Record RegistryObservationAuthority := mkRegistryObservationAuthority {
  RegistryObservationAuthority_Scope : RegistryScope; RegistryObservationAuthority_RecipeID : string;
  RegistryObservationAuthority_RecipeRevision : string; RegistryObservationAuthority_RecipeHash : string;
  RegistryObservationAuthority_ConfigRevision : string; RegistryObservationAuthority_Limits : RegistryObserveLimits;
  RegistryObservationAuthority_Current : bool
}.
#[export] Instance zero_RegistryObservationAuthority : Zero RegistryObservationAuthority :=
  mkRegistryObservationAuthority zero zero zero zero zero zero zero.
Definition inventoryMatches (a : RegistryObservationAuthority) (v : RegistryInventory) : bool :=
  let i := RegistryInventory_Inputs v in
  let scope := RegistryObservationAuthority_Scope a in
  (ProductID v == RegistryScope_ProductID scope) && (WorkerRegistryReport_Scope (RegistryInventory_Report v) == scope)
  && match WorkerInputs_Registry i with
     | Some p => (WorkerRegistryInputs_Scope p == scope) && (WorkerRegistryInputs_Limits p == RegistryObservationAuthority_Limits a)
     | None => false
     end
  && (WorkerInputs_RecipeID i == RegistryObservationAuthority_RecipeID a)
  && (WorkerInputs_RecipeRevision i == RegistryObservationAuthority_RecipeRevision a)
  && (WorkerInputs_RecipeHash i == RegistryObservationAuthority_RecipeHash a)
  && (WorkerInputs_ConfigRevision i == RegistryObservationAuthority_ConfigRevision a).
(** [registryReachable]; the search never runs out of its fuel. *)
Definition registryReachable (g : RegistryGraph) (root : string) : gset string :=
  match search id (adjacency g) (fun _ => true) (search_fuel g) [root] ∅ with
  | Some (Visited seen) => seen
  | _ => ∅
  end.
Definition registryCovered (g : RegistryGraph) (digest : string) : bool :=
  existsb (fun root =>
    (RegistryRoot_Closure root == "COMPLETE") && bool_decide (digest ∈ registryReachable g (RegistryRoot_Digest root))
    && existsb (fun node => (RegistryNode_Digest node == digest) && present node && (RegistryNode_Kind node != "BLOB")
                            && (RegistryNode_Kind node != "UNKNOWN")) (RegistryGraph_Nodes g)) (RegistryGraph_Roots g).
Definition later (v latest : RegistryInventory) : bool :=
  After (RegistryInventory_ReceivedAt v) (RegistryInventory_ReceivedAt latest)
  || (RegistryInventory_ReceivedAt v == RegistryInventory_ReceivedAt latest) && String.ltb (ID v) (ID latest).
Definition registryLatest (inventories : list RegistryInventory) (a : RegistryObservationAuthority) : option RegistryInventory :=
  foldl (fun latest v =>
    if inventoryMatches a v && match latest with None => true | Some w => later v w end then Some v else latest) None inventories.
Definition registryLatestAmbiguous (inventories : list RegistryInventory) (a : RegistryObservationAuthority)
    (latest : option RegistryInventory) : bool :=
  match latest with
  | None => false
  | Some w => existsb (fun v => inventoryMatches a v && (RegistryInventory_ReceivedAt v == RegistryInventory_ReceivedAt w)
                                && (RegistryInventory_Report v != RegistryInventory_Report w)) inventories
  end.

(** * Properties *)

(** ** Edges and searches *)
Definition leads (g : RegistryGraph) (a b : string) : Prop :=
  exists e, e ∈ RegistryGraph_Edges g /\ RegistryEdge_From e = a /\ RegistryEdge_To e = b.
Definition edge_sources (g : RegistryGraph) : list string := map RegistryEdge_From (RegistryGraph_Edges g).

Lemma elem_of_adjacency g a b : b ∈ adjacency g a <-> leads g a b.
Proof.
  unfold adjacency, leads. rewrite elem_of_map. setoid_rewrite elem_of_filter_list. setoid_rewrite bool_decide_eq_true.
  split; intros (e & Ha & Hb); [destruct Hb|destruct Hb]; subst; eauto.
Qed.
Lemma length_adjacency g a : length (adjacency g a) = degree (edge_sources g) a.
Proof.
  unfold adjacency, degree, edge_sources. rewrite length_map. induction (RegistryGraph_Edges g) as [|e l IH]; [reflexivity|]. cbn.
  case_bool_decide; cbn; rewrite IH; reflexivity.
Qed.
Lemma unspent_all g : unspent (edge_sources g) ∅ = length (RegistryGraph_Edges g).
Proof.
  unfold unspent, edge_sources. induction (RegistryGraph_Edges g) as [|e l IH]; [reflexivity|]. cbn.
  rewrite bool_decide_eq_false_2 by set_solver. cbn. rewrite IH. reflexivity.
Qed.
(** The fuel of both searches is enough on any graph. *)
Lemma root_search_total {V} (node : V -> string) next ok g x : (forall v, length (next v) = length (adjacency g (node v))) ->
  is_Some (search node next ok (search_fuel g) [x] ∅).
Proof.
  intros Hn. apply (search_total node next ok (edge_sources g)); [intros v; rewrite Hn; apply length_adjacency|].
  rewrite unspent_all. reflexivity.
Qed.
Lemma From_leads g root d : From (adjacency g) [root] d <-> rtc (leads g) root d.
Proof.
  unfold From. setoid_rewrite list_elem_of_singleton. split.
  - intros (r & -> & Hr). revert Hr. apply rtc_subrel. intros a b. apply elem_of_adjacency.
  - intros Hr. exists root. split; [reflexivity|]. revert Hr. apply rtc_subrel. intros a b. apply elem_of_adjacency.
Qed.

(** The search ends with the nodes it has seen. *)
Lemma reachable_searched g root : Searched id (adjacency g) (fun _ => true) [root] [] (registryReachable g root).
Proof.
  unfold registryReachable.
  destruct (root_search_total id (adjacency g) (fun _ => true) g root (fun v => eq_refl)) as [o Ho]. rewrite Ho.
  pose proof (explored_start id (adjacency g) (fun _ => true) [root]) as Hs. destruct o as [|seen].
  - destruct (search_rejected _ _ _ _ _ _ _ Hs Ho) as (v & _ & [=]).
  - exact (search_explored _ _ _ _ _ _ _ _ Hs Ho).
Qed.
Lemma reachable_path g root d : rtc (leads g) root d -> d ∈ registryReachable g root.
Proof.
  intros Hd%From_leads. refine (explored_complete id _ _ _ _ _ _ (reachable_searched g root) Hd).
  intros a b E. unfold id in E. subst. reflexivity.
Qed.
(** C35 Reachability is computed exactly: on every graph, cyclic or not, the
    search ends and has seen a digest if and only if a path of edges leads to
    it from the root. *)
Theorem registry_reachable_exact g root d : d ∈ registryReachable g root <-> rtc (leads g) root d.
Proof.
  split; [|apply reachable_path]. intros Hd.
  destruct (explored_seen _ _ _ _ _ _ (reachable_searched g root) d Hd) as (v & <- & _ & Hv & _). apply From_leads, Hv.
Qed.

(** The items of the search from a root are the paths from it. *)
Lemma item_path g root v : From (next_items g) [(root, 0%Z)] v -> exists n, v.2 = Z.of_nat n /\ nsteps (leads g) n root v.1.
Proof.
  intros (r & ->%list_elem_of_singleton & Hv). revert v Hv.
  refine (rtc_ind_r (fun v => exists n, v.2 = Z.of_nat n /\ nsteps (leads g) n root v.1) (root, 0%Z) _ _).
  - exists O. split; [reflexivity|constructor].
  - intros a b _ Hb (n & En & Hn). unfold next_items in Hb. apply elem_of_map in Hb as (d & -> & Hd). cbn.
    exists (S n). split; [lia|]. eapply nsteps_r; [exact Hn|apply elem_of_adjacency, Hd].
Qed.
Lemma path_item g root d : rtc (leads g) root d -> exists k, From (next_items g) [(root, 0%Z)] (d, k).
Proof.
  revert d. refine (rtc_ind_r _ root _ _).
  - exists 0%Z, (root, 0%Z). split; [left|apply rtc_refl].
  - intros a b _ Hb (k & Hk). exists (k + 1)%Z. eapply From_next; [exact Hk|]. unfold next_items. apply elem_of_map.
    exists b. split; [reflexivity|apply elem_of_adjacency, Hb].
Qed.

Section validated.
Context `{Hashing, Encoding}.

(** ** What an accepted graph satisfies *)
Record Validated (g : RegistryGraph) (l : RegistryObserveLimits) (known : list string) : Prop := {
  validated_normal : NormalizeRegistryGraph g = Ok g;
  validated_nodes : forall n, n ∈ RegistryGraph_Nodes g -> valid_node l n = true;
  validated_edges : forall e, e ∈ RegistryGraph_Edges g -> valid_edge g e = true;
  validated_roots : forall r, r ∈ RegistryGraph_Roots g -> valid_root g l r = true;
  validated_known : forall d, d ∈ known -> d ∈ map RegistryRoot_Digest (RegistryGraph_Roots g);
  validated_content : validateImageContent g l known = true;
}.
Lemma validated g l known : ValidateRegistryGraph g l known = true -> Validated g l known.
Proof.
  unfold ValidateRegistryGraph. intros Hv. to_prop.
  repeat match goal with Hf : forallb _ _ = true |- _ => rewrite forallb_elem in Hf end.
  split; try assumption. intros d Hd.
  match goal with Hk : forall x, x ∈ known -> _ |- _ => specialize (Hk d Hd) end. to_prop. assumption.
Qed.

Lemma sorted_nodes g : NormalizeRegistryGraph g = Ok g -> NoDup (map RegistryNode_Digest (RegistryGraph_Nodes g)).
Proof.
  unfold NormalizeRegistryGraph. intros Hn. step_guards Hn. injection Hn as E.
  rewrite <- E. cbn. apply adjacent_distinct; [apply sort_by_sorted|]. assumption.
Qed.
Lemma sorted_edges g : NormalizeRegistryGraph g = Ok g -> NoDup (map registryEdgeKey (RegistryGraph_Edges g)).
Proof.
  unfold NormalizeRegistryGraph. intros Hn. step_guards Hn. injection Hn as E.
  rewrite <- E. cbn. apply adjacent_distinct; [apply sort_by_sorted|]. assumption.
Qed.
Lemma node_map_Some g d n : node_map g !! d = Some n -> n ∈ RegistryGraph_Nodes g /\ RegistryNode_Digest n = d.
Proof. apply index_by_Some. Qed.
(** The search from a root that was accepted. *)
Lemma root_explored g l r : valid_root g l r = true -> exists seen,
  Searched fst (next_items g) (admitted_item g l r) [(RegistryRoot_Digest r, 0%Z)] [] seen.
Proof.
  unfold valid_root. destruct (node_map g !! RegistryRoot_Digest r); [|discriminate]. intros Hv.
  apply andb_true_iff in Hv as [_ Hv]. destruct (search _ _ _ _ _ _) as [[|seen]|] eqn:E; try discriminate.
  exists seen. eapply search_explored; [apply explored_start|exact E].
Qed.

(** What an edge of each kind may join. *)
Inductive Joins (from to : RegistryNode) : string -> Prop :=
| joins_child : RegistryNode_Kind from = "INDEX" -> RegistryNode_Kind to <> "BLOB" -> Joins from to "CHILD"
| joins_content kind : kind ∈ ["CONFIG"; "LAYER"] -> RegistryNode_Kind from = "MANIFEST" ->
    RegistryNode_Kind to ∈ ["BLOB"; "UNKNOWN"] -> Joins from to kind
| joins_reference kind : kind ∈ ["SUBJECT"; "REFERRER"; "REFERRERS_INDEX"] -> RegistryNode_Kind from <> "BLOB" ->
    RegistryNode_Kind to <> "BLOB" -> Joins from to kind.
Lemma valid_ends_joins kind from to :
  contains ["CHILD"; "CONFIG"; "LAYER"; "SUBJECT"; "REFERRER"; "REFERRERS_INDEX"] kind = true ->
  valid_ends kind from to = true -> Joins from to kind.
Proof.
  unfold valid_ends. intros Hk Hv. assert (Hand : forall p q, (p && q)%bool = false -> p = true -> q = false) by (intros [] []; done).
  apply negb_true_iff, orb_false_iff in Hv as [[Hchild Hcontent]%orb_false_iff Href]. to_prop.
  apply elem_of_cons in Hk as [->|Hk].
  { apply Hand in Hchild; [|reflexivity]. to_prop. constructor; assumption. }
  assert (Hs : kind ∈ ["CONFIG"; "LAYER"] \/ kind ∈ ["SUBJECT"; "REFERRER"; "REFERRERS_INDEX"]) by (clear -Hk; set_solver).
  destruct Hs as [Hs|Hs].
  - apply Hand in Hcontent; [|apply bool_decide_eq_true, Hs]. to_prop. apply joins_content; try assumption.
    destruct (decide (RegistryNode_Kind to = "BLOB")) as [->|Hb]; [left|].
    match goal with Ht : (negb _ && _)%bool = false |- _ => apply Hand in Ht; [|by rewrite bool_decide_eq_false_2]; to_prop; rewrite Ht end.
    right; left.
  - apply Hand in Href; [|apply bool_decide_eq_true, Hs]. to_prop. apply joins_reference; assumption.
Qed.

Definition config_edge (g : RegistryGraph) (d : string) (e : RegistryEdge) : Prop :=
  e ∈ RegistryGraph_Edges g /\ RegistryEdge_Kind e = "CONFIG" /\ RegistryEdge_From e = d.
Lemma configs_one g d : configs g d = 1%Z -> exists e, forall e', config_edge g d e' <-> e' = e.
Proof.
  unfold configs, count, config_edge. intros E. destruct (List.filter _ _) as [|e [|? ?]] eqn:F; cbn in E; try lia.
  exists e. intros e'. transitivity (e' ∈ [e]); [|apply list_elem_of_singleton].
  rewrite <- F, elem_of_filter_list. split.
  - intros (He & Hk & Hf). split; [exact He|]. rewrite Hk, Hf, !bool_decide_eq_true_2; reflexivity.
  - intros [He Hb]. to_prop. auto.
Qed.
(** The content of one complete object: it is present, each of its edges is
    of a kind that may join what it joins and leads to an object of the graph,
    and an image manifest has one configuration. *)
Record Complete (g : RegistryGraph) (n : RegistryNode) : Prop := {
  complete_listed : n ∈ RegistryGraph_Nodes g;
  complete_present : present n = true;
  complete_edges : forall e, e ∈ RegistryGraph_Edges g -> RegistryEdge_From e = RegistryNode_Digest n ->
    exists to, to ∈ RegistryGraph_Nodes g /\ RegistryNode_Digest to = RegistryEdge_To e /\ Joins n to (RegistryEdge_Kind e)
      /\ (RegistryEdge_Platform e <> None -> RegistryEdge_Kind e = "CHILD");
  complete_config : RegistryNode_Kind n = "MANIFEST" -> oci_manifest (RegistryNode_MediaType n) = true ->
    exists e, forall e', config_edge g (RegistryNode_Digest n) e' <-> e' = e;
}.
Lemma valid_edge_joins g e n : valid_edge g e = true -> node_map g !! RegistryEdge_From e = Some n ->
  exists to, to ∈ RegistryGraph_Nodes g /\ RegistryNode_Digest to = RegistryEdge_To e /\ Joins n to (RegistryEdge_Kind e)
    /\ (RegistryEdge_Platform e <> None -> RegistryEdge_Kind e = "CHILD").
Proof.
  unfold valid_edge. intros Hv Hn. rewrite Hn in Hv. destruct (node_map g !! RegistryEdge_To e) as [to|] eqn:Et; [|discriminate].
  apply andb_true_iff in Hv as [[Hk Hp]%andb_true_iff Hends]. apply node_map_Some in Et as [Ht Ed].
  exists to. split; [exact Ht|]. split; [exact Ed|]. split; [apply valid_ends_joins; assumption|].
  unfold valid_platform in Hp. destruct (RegistryEdge_Platform e); [|congruence]. to_prop. auto.
Qed.

(** C36 A root that an accepted graph calls complete is complete: everything
    that a path of edges leads to from it is an object of the graph that is
    present, no further than the depth limit from the root; every edge that
    leaves it leads to an object of the graph, is of a known kind and joins
    what an edge of its kind may join; and an image manifest among them has
    exactly one configuration. *)
Theorem registry_complete_closure g l known r d : ValidateRegistryGraph g l known = true ->
  r ∈ RegistryGraph_Roots g -> RegistryRoot_Closure r = "COMPLETE" -> rtc (leads g) (RegistryRoot_Digest r) d ->
  (exists n, RegistryNode_Digest n = d /\ Complete g n)
  /\ exists n, nsteps (leads g) n (RegistryRoot_Digest r) d /\ (Z.of_nat n <= RegistryObserveLimits_MaxDepth l)%Z.
Proof.
  intros Hv%validated Hr Hc Hd. destruct (root_explored g l r) as [seen He]; [apply (validated_roots _ _ _ Hv), Hr|].
  apply path_item in Hd as [k Hk].
  assert (Hin : (d, k).1 ∈ seen).
  { eapply (explored_complete fst (next_items g)); [|exact He|exact Hk]. intros [a i] [b j] E. cbn in E. subst b.
    unfold next_items. rewrite !map_map. reflexivity. }
  destruct (explored_seen _ _ _ _ _ _ He _ Hin) as ([d' k'] & Ed & Hok & Hf & _). cbn in Ed. subst d'.
  unfold admitted_item in Hok. cbn in Hok. to_prop. rewrite Hc in *.
  match goal with Hp : (_ || _)%bool = true |- _ => apply orb_true_iff in Hp as [Hp|Hp]; to_prop; [congruence|] end.
  split.
  - destruct (node_map g !! d) as [n|] eqn:En; [cbn [default from_option id] in *|discriminate]. destruct (node_map_Some _ _ _ En) as [Hn <-].
    exists n. split; [reflexivity|]. split; [exact Hn|assumption| |].
    + intros e Hin' Hfrom. apply valid_edge_joins; [apply (validated_edges _ _ _ Hv e Hin')|]. rewrite Hfrom. exact En.
    + intros Hkind Hmedia. apply configs_one.
      change (id n) with n in *.
      match goal with Hcfg : (_ && _)%bool = false |- _ =>
        rewrite (bool_decide_eq_true_2 _ Hkind), Hmedia in Hcfg; cbn in Hcfg; to_prop; exact Hcfg end.
  - destruct (item_path _ _ _ Hf) as (n & En & Hn). cbn in En, Hn. exists n. split; [exact Hn|]. rewrite <- En. lia.
Qed.

(** ** Image content *)
Lemma edge_key_inj a b : is_digest (RegistryEdge_From a) = true -> is_digest (RegistryEdge_From b) = true ->
  is_digest (RegistryEdge_To a) = true -> is_digest (RegistryEdge_To b) = true -> registryEdgeKey a = registryEdgeKey b ->
  RegistryEdge_From a = RegistryEdge_From b /\ RegistryEdge_To a = RegistryEdge_To b /\ RegistryEdge_Kind a = RegistryEdge_Kind b.
Proof.
  intros Fa%is_digest_length Fb%is_digest_length Ta%is_digest_length Tb%is_digest_length. unfold registryEdgeKey. intros E.
  apply str_app_inj in E as [EF E]; [|congruence]. apply str_app_inj in E as [_ E]; [|reflexivity].
  apply str_app_inj in E as [ET E]; [|congruence]. apply str_app_inj in E as [_ E]; [|reflexivity].
  assert (Hk : String.length (RegistryEdge_Kind a) = String.length (RegistryEdge_Kind b)).
  { apply (f_equal String.length) in E. rewrite !str_length_app in E.
    rewrite !(is_digest_length _ (Fingerprint_digest _)) in E. lia. }
  apply str_app_inj in E as [EK _]; [auto|exact Hk].
Qed.
Lemma edge_digests g l known e : Validated g l known -> e ∈ RegistryGraph_Edges g ->
  is_digest (RegistryEdge_From e) = true /\ is_digest (RegistryEdge_To e) = true.
Proof.
  intros Hv He. pose proof (validated_edges _ _ _ Hv e He) as Hok. unfold valid_edge in Hok.
  destruct (node_map g !! RegistryEdge_From e) as [from|] eqn:Ef; [|discriminate].
  destruct (node_map g !! RegistryEdge_To e) as [to|] eqn:Et; [|discriminate].
  apply node_map_Some in Ef as [Hf <-], Et as [Ht <-].
  pose proof (validated_nodes _ _ _ Hv from Hf) as Vf. pose proof (validated_nodes _ _ _ Hv to Ht) as Vt.
  unfold valid_node in Vf, Vt. to_prop. auto.
Qed.

(** The descriptors of an attested manifest are its content edges. *)
Definition attests (m : RegistryImageContentManifest) (e : RegistryEdge) (d : RegistryImageContentDescriptor) : Prop :=
  d ∈ RegistryImageContentManifest_Descriptors m /\ RegistryImageContentDescriptor_Digest d = RegistryEdge_To e
  /\ RegistryImageContentDescriptor_Kind d = RegistryEdge_Kind e.
Lemma attested g l known m e : Validated g l known -> valid_manifest g l m = true -> e ∈ RegistryGraph_Edges g ->
  content_edge e = true -> RegistryEdge_From e = RegistryImageContentManifest_Digest m -> exists d, attests m e d.
Proof.
  intros Hv Hm He Hc Hf. unfold valid_manifest in Hm.
  destruct (node_map g !! RegistryImageContentManifest_Digest m) as [n|] eqn:En; [|discriminate]. to_prop.
  match goal with Ho : _ = outgoing _ _ |- _ => rename Ho into Hout end.
  match goal with Hd : forallb (valid_descriptor _ _) _ = true |- _ => rewrite forallb_elem in Hd; rename Hd into Hds end.
  assert (Hin : registryEdgeKey e ∈ outgoing g (RegistryImageContentManifest_Digest m)).
  { unfold outgoing. apply elem_of_list_to_set, elem_of_map. exists e. split; [reflexivity|]. apply elem_of_filter_list.
    split; [exact He|]. rewrite Hc, bool_decide_eq_true_2 by exact Hf. reflexivity. }
  rewrite <- Hout in Hin. apply elem_of_list_to_set, elem_of_map in Hin as (d & Ek & Hd).
  specialize (Hds d Hd). unfold valid_descriptor in Hds.
  destruct (node_map g !! RegistryImageContentDescriptor_Digest d); [|discriminate]. to_prop.
  destruct (edge_digests _ _ _ e Hv He) as [De Te].
  unfold descriptor_key in Ek. apply edge_key_inj in Ek as (_ & ET & EK); cbn; [|exact De|rewrite <- Hf; exact De|exact Te|assumption].
  cbn in ET, EK. exists d. split; [exact Hd|]. auto.
Qed.

(** An image whose pull can be completed: an index refers to such images, and
    a manifest has exactly one configuration, and its blobs are present.  The
    predicate is inductive, so the images it holds of refer to no cycle. *)
Inductive Pullable (g : RegistryGraph) : string -> Prop :=
| pullable_index d n :
    n ∈ RegistryGraph_Nodes g -> RegistryNode_Digest n = d -> present n = true -> RegistryNode_Kind n = "INDEX" ->
    (forall e, e ∈ RegistryGraph_Edges g -> content_edge e = true -> RegistryEdge_From e = d ->
       RegistryEdge_Kind e = "CHILD" /\ Pullable g (RegistryEdge_To e)) ->
    Pullable g d
| pullable_manifest d n :
    n ∈ RegistryGraph_Nodes g -> RegistryNode_Digest n = d -> present n = true -> RegistryNode_Kind n = "MANIFEST" ->
    (exists e, config_edge g d e /\ forall e', config_edge g d e' -> RegistryEdge_To e' = RegistryEdge_To e) ->
    (forall e, e ∈ RegistryGraph_Edges g -> content_edge e = true -> RegistryEdge_From e = d ->
       RegistryEdge_Kind e <> "CHILD" /\ exists b, b ∈ RegistryGraph_Nodes g /\ RegistryNode_Digest b = RegistryEdge_To e
         /\ present b = true /\ RegistryNode_Kind b = "BLOB") ->
    Pullable g d.

Lemma valid_manifest_node g l m : valid_manifest g l m = true -> exists n,
  n ∈ RegistryGraph_Nodes g /\ RegistryNode_Digest n = RegistryImageContentManifest_Digest m /\ present n = true
  /\ RegistryNode_Kind n = RegistryImageContentManifest_Kind m.
Proof.
  unfold valid_manifest. destruct (node_map g !! _) as [n|] eqn:En; [|discriminate]. intros Hm. to_prop.
  apply node_map_Some in En as [Hn Hd]. exists n. auto.
Qed.
Lemma valid_manifest_descriptor g l m d : valid_manifest g l m = true -> d ∈ RegistryImageContentManifest_Descriptors m ->
  valid_descriptor g m d = true.
Proof.
  unfold valid_manifest. destruct (node_map g !! _) as [n|]; [|discriminate]. intros Hm. to_prop.
  match goal with Hd : forallb (valid_descriptor _ _) _ = true |- _ => rewrite forallb_elem in Hd; exact (Hd d) end.
Qed.
Lemma descriptor_kind g m d : valid_descriptor g m d = true ->
  if RegistryImageContentManifest_Kind m == "INDEX" then RegistryImageContentDescriptor_Kind d = "CHILD"
  else RegistryImageContentDescriptor_Kind d <> "CHILD" /\ exists b, b ∈ RegistryGraph_Nodes g
    /\ RegistryNode_Digest b = RegistryImageContentDescriptor_Digest d /\ present b = true /\ RegistryNode_Kind b = "BLOB".
Proof.
  unfold valid_descriptor. destruct (node_map g !! _) as [b|] eqn:Eb; [|discriminate]. intros Hd. to_prop.
  apply node_map_Some in Eb as [Hb Ed].
  destruct (RegistryImageContentManifest_Kind m == "INDEX"); to_prop; [assumption|].
  match goal with Hk : (_ || _)%bool = true |- _ => apply orb_true_iff in Hk end.
  split; [|exists b; auto]. intros E. rewrite E in *. match goal with Hk : _ \/ _ |- _ => destruct Hk; to_prop; congruence end.
Qed.
(** A descriptor is an edge of the graph. *)
Lemma descriptor_edge g l known m d : Validated g l known -> valid_manifest g l m = true ->
  d ∈ RegistryImageContentManifest_Descriptors m -> exists e, e ∈ RegistryGraph_Edges g /\ content_edge e = true
    /\ RegistryEdge_From e = RegistryImageContentManifest_Digest m /\ attests m e d.
Proof.
  intros Hv Hm Hd. pose proof (valid_manifest_descriptor _ _ _ _ Hm Hd) as Hok.
  unfold valid_manifest in Hm. destruct (node_map g !! RegistryImageContentManifest_Digest m); [|discriminate]. to_prop.
  match goal with Ho : _ = outgoing _ _ |- _ => rename Ho into Hout end.
  assert (Hin : descriptor_key m d ∈ outgoing g (RegistryImageContentManifest_Digest m)).
  { rewrite <- Hout. apply elem_of_list_to_set, elem_of_map. eauto. }
  unfold outgoing in Hin. apply elem_of_list_to_set, elem_of_map in Hin as (e & Ek & He).
  apply elem_of_filter_list in He as [He Hc]. to_prop. exists e. split; [exact He|]. split; [assumption|]. split; [assumption|].
  destruct (edge_digests _ _ _ e Hv He) as [De Te]. unfold valid_descriptor in Hok.
  destruct (node_map g !! RegistryImageContentDescriptor_Digest d); [|discriminate]. to_prop.
  match goal with Hf : RegistryEdge_From e = _ |- _ => rename Hf into EF end.
  unfold descriptor_key in Ek. apply edge_key_inj in Ek as (_ & ET & EK); cbn; [|rewrite <- EF; exact De|exact De|assumption|exact Te].
  split; [exact Hd|]. auto.
Qed.

Lemma filter_one {A} (p : A -> bool) l x y : count (List.filter p l) = 1%Z -> x ∈ l -> y ∈ l -> p x = true -> p y = true -> x = y.
Proof.
  unfold count. intros E Hx Hy Px Py. destruct (List.filter p l) as [|z [|? ?]] eqn:F; cbn in E; try lia.
  assert (Hz : forall w, w ∈ l -> p w = true -> w = z).
  { intros w Hw Pw. apply list_elem_of_singleton. rewrite <- F. apply elem_of_filter_list. auto. }
  rewrite (Hz x), (Hz y); auto.
Qed.
Lemma one_config g l known m : Validated g l known -> valid_manifest g l m = true ->
  RegistryImageContentManifest_Kind m = "MANIFEST" -> exists e, config_edge g (RegistryImageContentManifest_Digest m) e
    /\ forall e', config_edge g (RegistryImageContentManifest_Digest m) e' -> RegistryEdge_To e' = RegistryEdge_To e.
Proof.
  intros Hv Hm Hk.
  assert (Hone : config_descriptors m = 1%Z).
  { unfold valid_manifest in Hm. destruct (node_map g !! _); [|discriminate]. to_prop.
    match goal with Hc : (_ && _)%bool = false |- _ => rewrite (bool_decide_eq_true_2 _ Hk) in Hc end.
    match goal with Hc : (true && _)%bool = false |- _ => cbn in Hc; to_prop; assumption end. }
  assert (Hd : exists d, d ∈ RegistryImageContentManifest_Descriptors m /\ RegistryImageContentDescriptor_Kind d = "CONFIG").
  { unfold config_descriptors, count in Hone. destruct (List.filter _ _) as [|d ?] eqn:F; [discriminate|].
    assert (Hin : d ∈ d :: l0) by left. rewrite <- F in Hin. apply elem_of_filter_list in Hin as [? ?]. to_prop. eauto. }
  destruct Hd as (d & Hd & Kd). destruct (descriptor_edge _ _ _ _ _ Hv Hm Hd) as (e & He & _ & Hf & _ & Et & Ek).
  exists e. split; [split; [exact He|]; split; congruence|]. intros e' (He' & Kc & Hf').
  destruct (attested _ _ _ _ e' Hv Hm He') as (d' & Hd' & Et' & Ek'); [unfold content_edge; rewrite Kc; reflexivity|exact Hf'|].
  assert (d = d') as <-; [|congruence]. apply (filter_one _ _ _ _ Hone Hd Hd'); apply bool_decide_eq_true; congruence.
Qed.

Section walks.
Context (g : RegistryGraph) (l : RegistryObserveLimits) (known : list string) (Hv : Validated g l known).
Definition attesting (manifests : gmap string RegistryImageContentManifest) : Prop :=
  forall d m, manifests !! d = Some m -> RegistryImageContentManifest_Digest m = d /\ valid_manifest g l m = true.

(** A manifest whose children can be pulled can be pulled. *)
Lemma manifest_pullable m : valid_manifest g l m = true ->
  (forall d, d ∈ RegistryImageContentManifest_Descriptors m -> RegistryImageContentDescriptor_Kind d = "CHILD" ->
     Pullable g (RegistryImageContentDescriptor_Digest d)) ->
  Pullable g (RegistryImageContentManifest_Digest m).
Proof using Hv.
  intros Hm Hch. destruct (valid_manifest_node _ _ _ Hm) as (n & Hn & Hd & Hp & Hk).
  assert (Hedge : forall e, e ∈ RegistryGraph_Edges g -> content_edge e = true ->
    RegistryEdge_From e = RegistryImageContentManifest_Digest m ->
    exists d, attests m e d /\ valid_descriptor g m d = true).
  { intros e He Hc Hf. destruct (attested _ _ _ _ _ Hv Hm He Hc Hf) as (d & Ha). exists d. split; [exact Ha|].
    eapply valid_manifest_descriptor; [exact Hm|apply Ha]. }
  destruct (decide (RegistryImageContentManifest_Kind m = "INDEX")) as [Ei|Ei].
  - apply (pullable_index g _ n); try assumption; [congruence|]. intros e He Hc Hf.
    destruct (Hedge e He Hc Hf) as (d & (Hdin & Et & Ek) & Hok). apply descriptor_kind in Hok.
    rewrite (bool_decide_eq_true_2 _ Ei) in Hok. split; [congruence|]. rewrite <- Et. apply Hch; [exact Hdin|congruence].
  - assert (Em : RegistryImageContentManifest_Kind m = "MANIFEST").
    { unfold valid_manifest in Hm. destruct (node_map g !! _); [|discriminate]. to_prop.
      match goal with Ha : attested_media _ _ = true |- _ => unfold attested_media in Ha;
        rewrite (bool_decide_eq_false_2 _ Ei) in Ha; revert Ha end. case_bool_decide; [auto|discriminate]. }
    apply (pullable_manifest g _ n); try assumption; [congruence|apply (one_config g l known); assumption|].
    intros e He Hc Hf. destruct (Hedge e He Hc Hf) as (d & (Hdin & Et & Ek) & Hok). apply descriptor_kind in Hok.
    rewrite (bool_decide_eq_false_2 _ Ei) in Hok. rewrite <- Et, <- Ek. exact Hok.
Qed.

Lemma walk_pullable manifests : attesting manifests -> forall budget active seen d seen',
  walk manifests budget active seen d = Some seen' -> (forall x, x ∈ seen -> Pullable g x) ->
  (forall x, x ∈ seen' -> Pullable g x) /\ d ∈ seen' /\ seen ⊆ seen'.
Proof using Hv.
  intros Ha. induction budget as [|budget IH]; intros active seen d seen' Hw Hs; cbn [walk] in Hw; [discriminate|].
  case_bool_decide; [discriminate|]. case_bool_decide as Hin; [injection Hw as <-; auto|].
  destruct (manifests !! d) as [m|] eqn:Em; [|discriminate]. destruct (Ha d m Em) as [Ed Hm].
  destruct (fold_option _ seen _) as [s|] eqn:F; [|discriminate]. injection Hw as <-.
  enough (Hf : forall ds seen s, fold_option (fun seen desc =>
      if RegistryImageContentDescriptor_Kind desc == "CHILD"
      then walk manifests budget ({[d]} ∪ active) seen (RegistryImageContentDescriptor_Digest desc) else Some seen) seen ds = Some s ->
    (forall x, x ∈ seen -> Pullable g x) ->
    (forall x, x ∈ s -> Pullable g x) /\ seen ⊆ s
    /\ forall c, c ∈ ds -> RegistryImageContentDescriptor_Kind c = "CHILD" -> RegistryImageContentDescriptor_Digest c ∈ s).
  { destruct (Hf _ _ _ F Hs) as (Hp & Hsub & Hch). split; [|split; [|set_solver]]; [|set_solver].
    intros x [->%elem_of_singleton|Hx]%elem_of_union; [|auto]. rewrite <- Ed. apply manifest_pullable; auto. }
  clear F Em Ed Hm m s Hs seen Hin.
  induction ds as [|c ds IHds]; intros seen s F Hs; cbn [fold_option] in F.
  - injection F as <-. split; [exact Hs|]. split; [reflexivity|]. intros c Hc; inversion Hc.
  - destruct (decide (RegistryImageContentDescriptor_Kind c = "CHILD")) as [Ec|Ec].
    + rewrite (bool_decide_eq_true_2 _ Ec) in F. destruct (walk _ _ _ _ _) as [t|] eqn:W; [|discriminate].
      destruct (IH _ _ _ _ W Hs) as (Ht & Hc & Hsub). destruct (IHds _ _ F Ht) as (Hp & Hsub' & Hch).
      split; [exact Hp|]. split; [set_solver|]. intros x [->|Hx]%elem_of_cons Kx; [set_solver|auto].
    + rewrite (bool_decide_eq_false_2 _ Ec) in F. destruct (IHds _ _ F Hs) as (Hp & Hsub' & Hch).
      split; [exact Hp|]. split; [exact Hsub'|]. intros x [->|Hx]%elem_of_cons Kx; [contradiction|auto].
Qed.
(** An edge from an index to one of its images. *)
Definition child (a b : string) : Prop :=
  exists e, e ∈ RegistryGraph_Edges g /\ RegistryEdge_Kind e = "CHILD" /\ RegistryEdge_From e = a /\ RegistryEdge_To e = b.
Lemma child_descriptor m y : valid_manifest g l m = true -> child (RegistryImageContentManifest_Digest m) y ->
  exists c, c ∈ RegistryImageContentManifest_Descriptors m /\ RegistryImageContentDescriptor_Kind c = "CHILD"
    /\ RegistryImageContentDescriptor_Digest c = y.
Proof using Hv.
  intros Hm (e & He & Hk & Hf & <-). destruct (attested _ _ _ _ _ Hv Hm He) as (c & Hc & Ed & Ek); [|exact Hf|].
  - unfold content_edge. rewrite Hk. reflexivity.
  - exists c. split; [exact Hc|]. split; congruence.
Qed.
Lemma descriptor_child m c : valid_manifest g l m = true -> c ∈ RegistryImageContentManifest_Descriptors m ->
  RegistryImageContentDescriptor_Kind c = "CHILD" -> child (RegistryImageContentManifest_Digest m) (RegistryImageContentDescriptor_Digest c).
Proof using Hv.
  intros Hm Hc Hk. destruct (descriptor_edge _ _ _ _ _ Hv Hm Hc) as (e & He & _ & Hf & _ & Et & Ek). exists e. split_and!; congruence.
Qed.

(** What a walk adds: images within its budget that are attested and whose
    images have been seen. *)
Definition Visit (manifests : gmap string RegistryImageContentManifest) (budget : nat) (seen : gset string) (d x : string) : Prop :=
  (exists n, n < budget /\ nsteps child n d x) /\ is_Some (manifests !! x) /\ forall y, child x y -> y ∈ seen.
Lemma Visit_mono ms budget seen seen' d x : seen ⊆ seen' -> Visit ms budget seen d x -> Visit ms budget seen' d x.
Proof using. intros Hs (Hn & Hm & Hc). split; [exact Hn|]. split; [exact Hm|]. intros y Hy. apply Hs, Hc, Hy. Qed.
Lemma Visit_child ms budget seen d c x : child d c -> Visit ms budget seen c x -> Visit ms (S budget) seen d x.
Proof using.
  intros Hd ((n & Hn & Hp) & Hm & Hc). split; [|split; assumption]. exists (S n). split; [lia|]. econstructor; eauto.
Qed.
Lemma walk_visits manifests : attesting manifests -> forall budget active seen d seen',
  walk manifests budget active seen d = Some seen' ->
  d ∈ seen' /\ seen ⊆ seen' /\ forall x, x ∈ seen' -> x ∈ seen \/ Visit manifests budget seen' d x.
Proof using Hv.
  intros Ha. induction budget as [|budget IH]; intros active seen d seen' Hw; cbn [walk] in Hw; [discriminate|].
  case_bool_decide; [discriminate|]. case_bool_decide as Hin; [injection Hw as <-; auto|].
  destruct (manifests !! d) as [m|] eqn:Em; [|discriminate]. destruct (Ha d m Em) as [Ed Hm].
  destruct (fold_option _ seen _) as [s|] eqn:F; [|discriminate]. injection Hw as <-.
  assert (Hf : forall ds seen s, fold_option (fun seen desc =>
      if RegistryImageContentDescriptor_Kind desc == "CHILD"
      then walk manifests budget ({[d]} ∪ active) seen (RegistryImageContentDescriptor_Digest desc) else Some seen) seen ds = Some s ->
    seen ⊆ s
    /\ (forall c, c ∈ ds -> RegistryImageContentDescriptor_Kind c = "CHILD" -> RegistryImageContentDescriptor_Digest c ∈ s)
    /\ forall x, x ∈ s -> x ∈ seen \/ exists c, c ∈ ds /\ RegistryImageContentDescriptor_Kind c = "CHILD"
         /\ Visit manifests budget s (RegistryImageContentDescriptor_Digest c) x).
  { clear -IH. induction ds as [|c ds IHds]; intros seen s F; cbn [fold_option] in F.
    - injection F as <-. split; [reflexivity|]. split; [|auto]. intros c Hc; inversion Hc.
    - destruct (decide (RegistryImageContentDescriptor_Kind c = "CHILD")) as [Ec|Ec].
      + rewrite (bool_decide_eq_true_2 _ Ec) in F. destruct (walk _ _ _ _ _) as [t|] eqn:W; [|discriminate].
        destruct (IH _ _ _ _ W) as (Hc & Hsub & Ht), (IHds _ _ F) as (Hsub' & Hch & Hs).
        split; [set_solver|]. split; [intros x [->|Hx]%elem_of_cons Kx; [set_solver|auto]|].
        intros x [Hx|(c' & Hc' & Kc & Hx)]%Hs; [|right; exists c'; split; [right; exact Hc'|auto]].
        apply Ht in Hx as [Hx|Hx]; [auto|]. right. exists c. split; [left|]. split; [exact Ec|]. eapply Visit_mono; eauto.
      + rewrite (bool_decide_eq_false_2 _ Ec) in F. destruct (IHds _ _ F) as (Hsub & Hch & Hs).
        split; [exact Hsub|]. split; [intros x [->|Hx]%elem_of_cons Kx; [contradiction|auto]|].
        intros x [Hx|(c' & Hc' & Hx)]%Hs; [auto|]. right. exists c'. split; [right; exact Hc'|exact Hx]. }
  destruct (Hf _ _ _ F) as (Hsub & Hch & Hs). subst d. split; [set_solver|]. split; [set_solver|].
  intros x [->%elem_of_singleton|Hx]%elem_of_union.
  - right. split; [exists 0; split; [lia|constructor]|]. split; [eauto|]. intros y Hy.
    destruct (child_descriptor _ _ Hm Hy) as (c & Hc & Kc & <-). apply elem_of_union_r, Hch; assumption.
  - destruct (Hs x Hx) as [?|(c & Hc & Kc & Hv')]; [auto|]. right. eapply Visit_child; [apply descriptor_child; eassumption|].
    eapply Visit_mono; [|exact Hv']. set_solver.
Qed.
Lemma add_manifests ms : forall acc manifests, attesting acc -> fold_option (add_manifest g l) acc ms = Some manifests -> attesting manifests.
Proof.
  induction ms as [|m ms IH]; intros acc manifests Ha F; cbn in F; [injection F as <-; exact Ha|].
  destruct (add_manifest g l acc m) as [acc'|] eqn:E; [|discriminate]. refine (IH _ _ _ F). unfold add_manifest in E.
  destruct (is_some _); [discriminate|]. destruct (valid_manifest g l m) eqn:Em; [|discriminate]. injection E as <-.
  intros d x [[<- <-]|[_ Hx]]%lookup_insert_Some; [auto|apply Ha, Hx].
Qed.
Lemma manifests_added ms : forall acc manifests, fold_option (add_manifest g l) acc ms = Some manifests ->
  (forall d m, manifests !! d = Some m -> acc !! d = Some m \/ m ∈ ms) /\ acc ⊆ manifests
  /\ (forall m, m ∈ ms -> manifests !! RegistryImageContentManifest_Digest m = Some m /\ acc !! RegistryImageContentManifest_Digest m = None)
  /\ NoDup (map RegistryImageContentManifest_Digest ms).
Proof using.
  induction ms as [|m ms IH]; intros acc manifests F; cbn [fold_option map] in F |- *.
  - injection F as <-. split; [auto|]. split; [reflexivity|]. split; [intros m Hm; inversion Hm|constructor].
  - destruct (add_manifest g l acc m) as [acc'|] eqn:E; [|discriminate]. destruct (IH _ _ F) as (Hfrom & Hsub & Hin & Hnd).
    unfold add_manifest in E. destruct (acc !! RegistryImageContentManifest_Digest m) eqn:En; [discriminate|].
    destruct (valid_manifest g l m); [|discriminate]. injection E as <-.
    assert (Hm : manifests !! RegistryImageContentManifest_Digest m = Some m) by (eapply lookup_weaken; [apply lookup_insert_eq|exact Hsub]).
    split; [|split; [|split]].
    + intros d x Hx. destruct (Hfrom d x Hx) as [[[_ <-]|[_ Hacc]]%lookup_insert_Some|Hx']; [right; left|auto|right; right; exact Hx'].
    + etransitivity; [apply insert_subseteq, En|exact Hsub].
    + intros x [->|Hx]%elem_of_cons; [auto|]. destruct (Hin x Hx) as [Hx' [Hacc _]%lookup_insert_None]. auto.
    + constructor; [|exact Hnd]. intros (x & Ex & Hx)%elem_of_map. destruct (Hin x Hx) as [_ [_ Hne]%lookup_insert_None]. congruence.
Qed.
End walks.

(** An attested manifest is verified: it describes an object of the graph
    that is present, and its descriptors are the content edges of the object. *)
Record Verified (g : RegistryGraph) (m : RegistryImageContentManifest) : Prop := {
  verified_node : exists n, n ∈ RegistryGraph_Nodes g /\ RegistryNode_Digest n = RegistryImageContentManifest_Digest m
    /\ present n = true /\ RegistryNode_Kind n = RegistryImageContentManifest_Kind m
    /\ RegistryNode_MediaType n = RegistryImageContentManifest_MediaType m /\ RegistryNode_Size n = RegistryImageContentManifest_Size m;
  verified_hash : RegistryImageContentManifest_DescriptorHash m = RegistryImageContentDescriptorHash (RegistryImageContentManifest_Descriptors m);
  verified_edges : forall e, e ∈ RegistryGraph_Edges g -> content_edge e = true ->
    RegistryEdge_From e = RegistryImageContentManifest_Digest m -> exists d, attests m e d;
  verified_descriptors : forall d, d ∈ RegistryImageContentManifest_Descriptors m -> exists e, e ∈ RegistryGraph_Edges g
    /\ content_edge e = true /\ RegistryEdge_From e = RegistryImageContentManifest_Digest m /\ attests m e d;
}.
Lemma valid_manifest_verified g l known m : Validated g l known -> valid_manifest g l m = true -> Verified g m.
Proof.
  intros Hv Hm. split.
  - unfold valid_manifest in Hm. destruct (node_map g !! _) as [n|] eqn:En; [|discriminate]. to_prop.
    apply node_map_Some in En as [Hn Hd]. exists n. auto 10.
  - unfold valid_manifest in Hm. destruct (node_map g !! _) as [n|]; [|discriminate]. to_prop. assumption.
  - intros e He Hc Hf. eapply attested; eassumption.
  - intros d Hd. eapply descriptor_edge; eassumption.
Qed.
(** A proof within the bounds: the root attests one verified manifest for each
    image it leads to and for nothing else, at most [MaxNodes] of them, each
    at most [MaxDepth] steps from it. *)
Record Proven (g : RegistryGraph) (l : RegistryObserveLimits) (root : RegistryImageContentRoot) : Prop := {
  proven_count : (count (RegistryImageContentRoot_Manifests root) <= RegistryObserveLimits_MaxNodes l)%Z;
  proven_once : NoDup (map RegistryImageContentManifest_Digest (RegistryImageContentRoot_Manifests root));
  proven_verified : forall m, m ∈ RegistryImageContentRoot_Manifests root -> Verified g m;
  proven_exact : forall d, rtc (child g) (RegistryImageContentRoot_Digest root) d
    <-> d ∈ map RegistryImageContentManifest_Digest (RegistryImageContentRoot_Manifests root);
  proven_depth : forall d, rtc (child g) (RegistryImageContentRoot_Digest root) d ->
    exists n, nsteps (child g) n (RegistryImageContentRoot_Digest root) d /\ (Z.of_nat n <= RegistryObserveLimits_MaxDepth l)%Z;
}.
(** A walk that saw as many images as there are manifests saw the image of
    each of them. *)
Lemma walk_proven g l known root manifests seen : Validated g l known ->
  (count (RegistryImageContentRoot_Manifests root) <= RegistryObserveLimits_MaxNodes l)%Z ->
  fold_option (add_manifest g l) ∅ (RegistryImageContentRoot_Manifests root) = Some manifests -> attesting g l manifests ->
  walk manifests (Z.to_nat (RegistryObserveLimits_MaxDepth l + 1)) ∅ ∅ (RegistryImageContentRoot_Digest root) = Some seen ->
  size seen = size manifests -> Proven g l root.
Proof.
  intros Hv Hcount A Ha W Hsize. destruct (manifests_added g l _ _ _ A) as (Hfrom & _ & Hin & Hnd).
  destruct (walk_visits g l known Hv manifests Ha _ _ _ _ _ W) as (Hroot & _ & Hseen).
  assert (Hvisit : forall x, x ∈ seen -> Visit g manifests (Z.to_nat (RegistryObserveLimits_MaxDepth l + 1)) seen (RegistryImageContentRoot_Digest root) x).
  { intros x [Hx|Hx]%Hseen; [set_solver|exact Hx]. }
  assert (Hdom : seen = dom manifests).
  { apply set_subseteq_size_eq; [|rewrite size_dom; lia]. intros x (_ & [m Hm] & _)%Hvisit. apply elem_of_dom. eauto. }
  assert (Hpath : forall d, rtc (child g) (RegistryImageContentRoot_Digest root) d <-> d ∈ seen).
  { intros d. split; [|intros ((n & _ & Hn) & _)%Hvisit; eapply rtc_nsteps_2; exact Hn].
    revert d. refine (rtc_ind_r (fun d => d ∈ seen) _ Hroot _). intros a b _ Hab (_ & _ & Hc)%Hvisit. exact (Hc b Hab). }
  split; [exact Hcount|exact Hnd| | |].
  - intros m (Hm & _)%Hin. eapply valid_manifest_verified; [exact Hv|]. apply (Ha _ _ Hm).
  - intros d. rewrite Hpath, Hdom, elem_of_dom, elem_of_map. split.
    + intros [m Hm]. destruct (Hfrom d m Hm) as [He|Hi]; [rewrite lookup_empty in He; discriminate|].
      exists m. split; [symmetry; apply (Ha _ _ Hm)|exact Hi].
    + intros (m & -> & Hm). destruct (Hin m Hm) as [Hx _]. eauto.
  - intros d Hd%Hpath. destruct (Hvisit d Hd) as ((n & Hn & Hp) & _). exists n. split; [exact Hp|lia].
Qed.

(** C37 What a content proof is worth: when the graph of a registry is
    accepted and yields a proof for a digest, the digest was requested and the
    proof is the hash of the root that the report attests.  The root attests
    one verified manifest for each image that a path of index entries leads to
    from the digest and for nothing else, at most [MaxNodes] of them and each
    at most [MaxDepth] entries away; and the image can be pulled to the end:
    following the content edges of the whole graph from it meets only present
    objects, one configuration per manifest, and no cycle. *)
Theorem content_proof_pullable g l requested digest h :
  RegistryImageContentProofHash g l requested digest = Ok h ->
  Pullable g digest /\ digest ∈ requested
  /\ exists root, root ∈ RegistryGraph_ImageContentRoots g /\ RegistryImageContentRoot_Digest root = digest
    /\ h = RegistryImageContentRootHash root /\ Proven g l root.
Proof.
  unfold RegistryImageContentProofHash. destruct (ValidateRegistryGraph g l requested) eqn:E; cbn; [|discriminate].
  apply validated in E as Hv. destruct (find_first _ _) as [root|] eqn:F; [|discriminate]. intros [= <-].
  apply find_first_Some in F as [Hin F]. to_prop.
  pose proof (validated_content _ _ _ Hv) as Hc. unfold validateImageContent in Hc.
  rewrite bool_decide_eq_false_2 in Hc by (intros E0; rewrite E0 in Hin; inversion Hin). to_prop.
  match goal with Hz : forallb _ _ = true |- _ => rewrite forallb_elem in Hz; rename Hz into Hall end.
  match goal with Hl : (_ =? _)%nat = true |- _ => apply Nat.eqb_eq in Hl; rename Hl into Hlen end.
  apply list_elem_of_lookup in Hin as [i Hi].
  destruct (lookup_lt_is_Some_2 (sortedUnique requested) i) as [expected He].
  { rewrite <- Hlen. apply lookup_lt_Some in Hi. exact Hi. }
  assert (Hp : valid_content_root g l expected root = true).
  { apply (Hall (expected, root)), list_elem_of_lookup. exists i. apply lookup_zip_Some. auto. }
  unfold valid_content_root in Hp. destruct (_ || _)%bool eqn:G in Hp; [discriminate|]. to_prop.
  match goal with Hc : RegistryImageContentRoot_Closure root = "COMPLETE" |- _ => rewrite (bool_decide_eq_true_2 _ Hc) in Hp; cbn [negb] in Hp end.
  apply andb_true_iff in Hp as [[_ Hcount%Z.leb_le]%andb_true_iff Hp]. destruct (fold_option _ _ _) as [manifests|] eqn:A in Hp; [|discriminate].
  destruct (walk _ _ _ _ _) as [seen|] eqn:W in Hp; [|discriminate]. apply Nat.eqb_eq in Hp.
  assert (Ha : attesting g l manifests) by (apply (add_manifests g l) in A; [exact A|intros d m Hm; rewrite lookup_empty in Hm; discriminate]).
  destruct (walk_pullable g l requested Hv manifests Ha _ _ _ _ _ W) as (Hall' & Hd & _); [set_solver|].
  assert (Hproven : Proven g l root) by (eapply walk_proven; eassumption).
  subst digest. split; [auto|]. split.
  - apply sortedUnique_elem, list_elem_of_lookup. exists i. congruence.
  - exists root. split; [apply list_elem_of_lookup; eauto|]. split; [reflexivity|]. split; [congruence|exact Hproven].
Qed.

(** ** The canonical form *)
(** Two accounts of one graph: its objects, edges, roots and blockers in any
    order, and any claimed hash. *)
Record Reordered (g g' : RegistryGraph) : Prop := {
  reordered_content : RegistryGraph_ImageContentRoots g = RegistryGraph_ImageContentRoots g';
  reordered_nodes : RegistryGraph_Nodes g ≡ₚ RegistryGraph_Nodes g';
  reordered_edges : RegistryGraph_Edges g ≡ₚ RegistryGraph_Edges g';
  reordered_roots : RegistryGraph_Roots g ≡ₚ RegistryGraph_Roots g';
  reordered_tags : (RegistryGraph_TagCount g, RegistryGraph_TagSetHash g) = (RegistryGraph_TagCount g', RegistryGraph_TagSetHash g');
  reordered_discovery : (RegistryGraph_Discovery g, RegistryGraph_GlobalInventoryComplete g)
                        = (RegistryGraph_Discovery g', RegistryGraph_GlobalInventoryComplete g');
  reordered_blockers : forall b, b ∈ RegistryGraph_Blockers g <-> b ∈ RegistryGraph_Blockers g';
}.
Lemma sorted_distinct {A} (key : A -> string) l : adjacent_equal key (sort_by key l) = false <-> NoDup (map key l).
Proof.
  assert (E : map key (sort_by key l) ≡ₚ map key l) by (apply Permutation_map, sort_by_perm).
  rewrite <- E. split; [apply adjacent_distinct, sort_by_sorted|apply distinct_adjacent].
Qed.
(** Either both slices are sorted to the same one, or both repeat a key. *)
Lemma sort_by_either {A} (key : A -> string) l l' : l ≡ₚ l' ->
  adjacent_equal key (sort_by key l) = adjacent_equal key (sort_by key l')
  /\ (adjacent_equal key (sort_by key l) = false -> sort_by key l = sort_by key l').
Proof.
  intros Hp. destruct (adjacent_equal key (sort_by key l)) eqn:E.
  - split; [|discriminate]. symmetry. apply not_false_iff_true. intros E'. apply sorted_distinct in E'.
    rewrite <- Hp in E'. apply sorted_distinct in E'. congruence.
  - apply sorted_distinct in E as Hd. split; [|intros _; apply sort_by_unique; assumption].
    symmetry. apply sorted_distinct. rewrite <- Hp. exact Hd.
Qed.

(** — The hash of a graph names the graph and not an account of it: two
    accounts in different orders have the same hash, and an account that
    repeats an object, an edge or a root has none in any order. *)
Theorem graph_hash_order_free g g' : Reordered g g' -> RegistryGraphHash g = RegistryGraphHash g'.
Proof.
  intros [Hc Hn He Hr Ht Hd Hb]. unfold RegistryGraphHash, NormalizeRegistryGraph.
  destruct (sort_by_either RegistryNode_Digest _ _ Hn) as [En Sn], (sort_by_either registryEdgeKey _ _ He) as [Ee Se],
    (sort_by_either RegistryRoot_Digest _ _ Hr) as [Er Sr].
  rewrite <- En, <- Ee, <- Er.
  destruct (adjacent_equal _ (sort_by RegistryNode_Digest _)); [reflexivity|]. rewrite <- Sn by reflexivity.
  destruct (adjacent_equal _ (sort_by registryEdgeKey _)); [reflexivity|]. rewrite <- Se by reflexivity.
  destruct (adjacent_equal _ (sort_by RegistryRoot_Digest _)); [reflexivity|]. rewrite <- Sr by reflexivity.
  apply sortedUnique_ext in Hb. injection Ht as Ht1 Ht2. injection Hd as Hd1 Hd2. cbn [reject_if mbind res_bind]. f_equal.
  unfold set_field; cbn. f_equal; try reflexivity; try assumption. f_equal; assumption.
Qed.
End validated.
