(* ===== verification/Restoration.v ===== *)
(** * Restoration of a Dev environment

    [internal/domain/dev_runtime_validation.go] and [dev_restoration.go]: the
    validation of what an observer saw running, of the plan that brings the
    original images back, and of the evidence that a restoration has ended.
    The file discharges the interface [RestorationEvidence] of Reservation. *)
From S2P Require Import Prelude GoText Worklist GoJson Delivery Domain Status Planning Handlers Collections Reservation WorkerAuth Composition Pins WorkerJobs Registry.
Open Scope string_scope.
Open Scope list_scope.

(** ** Exact images — dev_runtime_validation.go *)
Definition runtimeCommit : string -> bool := fullSHA.
Fixpoint str_count (c : ascii) (s : string) : nat :=
  match s with
  | EmptyString => O
  | String a s => if a == c then S (str_count c s) else str_count c s
  end.
Definition tag_char (a : ascii) : bool := is_alnum a || (a == "_"%char).
(** [range tag]: the first character may not be a dot or a dash. *)
Definition image_tag (tag : string) : bool :=
  match tag with
  | EmptyString => false
  | String a rest => (String.length tag <=? 128)%nat && tag_char a && str_all (fun b => tag_char b || str_mem b ".-") rest
  end.
Definition ExactDevRuntimeImage (v repository digest : string) : bool :=
  let suffix := "@" +:+ digest in
  if negb (is_digest digest) || negb (str_count "@" v =? 1)%nat || negb (has_suffix suffix v) then false
  else
    let ref := trim_suffix suffix v in
    if ref == repository then true
    else has_prefix (repository +:+ ":") ref && image_tag (trim_prefix (repository +:+ ":") ref).
Definition ValidDevRuntimeImageID (v repository digest : string) : bool :=
  (v == digest) || (v == "containerd://" +:+ digest) || (v == "docker://" +:+ digest) || (v == "cri-o://" +:+ digest)
  || ExactDevRuntimeImage (trim_prefix "docker-pullable://" v) repository digest.
Definition ValidateDevRuntimeGitOps (c : DevRuntimeComponent) (g : DevRuntimeGitOpsObservation) (p : GitOpsRevisionProof) : res unit :=
  let gitops := DevRuntimeComponent_GitOps c in
  reject_if (negb (is_digest (DevRuntimeComponent_AuthorityHash c))
    || (DevRuntimeGitOpsObservation_HeadSHA g != GitOpsRevisionProof_HeadSHA p)
    || negb (runtimeCommit (DevRuntimeGitOpsObservation_HeadSHA g)) || negb (runtimeCommit (DevRuntimeGitOpsObservation_BlobSHA g))
    || negb (is_digest (DevRuntimeGitOpsObservation_ContentHash g))
    || (DevRuntimeGitOpsObservation_ImageRepository g != DevRuntimeComponent_ImageRepository c)
    || (DevRuntimeGitOpsObservation_Digest g != DevRuntimeComponent_Digest c)
    || negb (is_digest (DevRuntimeGitOpsObservation_Digest g)) || (GitOpsRevisionProof_Repository p != GitOpsRequest_Repository gitops)
    || (GitOpsRevisionProof_Ref p != GitOpsRequest_Ref gitops)
    || negb (contains (GitOpsRevisionProof_AncestorSHAs p) (DevRuntimeComponent_GitOpsCommit c)))
    (plain "runtime exact GitOps image and ancestry mismatch").
Definition exact_role (c : DevRuntimeComponent) (scope : RuntimeVerificationScope) (r : DeliveryRuntimeSnapshot) (now : Time) : bool :=
  (DeliveryRuntimeSnapshot_ProductID r == RuntimeVerificationScope_ProductID scope)
  && (DeliveryRuntimeSnapshot_EnvironmentID r == RuntimeVerificationScope_EnvironmentID scope)
  && (DeliveryRuntimeSnapshot_ApplicationID r == RuntimeVerificationScope_ApplicationID scope)
  && (DeliveryRuntimeSnapshot_Context r == RuntimeVerificationScope_Context scope)
  && (DeliveryRuntimeSnapshot_Namespace r == RuntimeVerificationScope_Namespace scope)
  && (DeliveryRuntimeSnapshot_Deployment r == RuntimeVerificationScope_Deployment scope)
  && (DeliveryRuntimeSnapshot_Container r == RuntimeVerificationScope_Container scope)
  && negb (IsZero (DeliveryRuntimeSnapshot_ObservedAt r)) && negb (After (DeliveryRuntimeSnapshot_ObservedAt r) now)
  && (now - DeliveryRuntimeSnapshot_ObservedAt r <=? 5 * minute)%Z.
Definition flux_ready (c : DevRuntimeComponent) (head : string) (flux : option RuntimeFluxSnapshot) : bool :=
  match flux with
  | None => false
  | Some f =>
    (RuntimeFluxSnapshot_Status f == "READY") && (RuntimeFluxSnapshot_Error f == "")
    && ((RuntimeFluxSnapshot_Revision f == head)
        || (RuntimeFluxSnapshot_Revision f == GitOpsRequest_Ref (DevRuntimeComponent_GitOps c) +:+ "@sha1:" +:+ head))
  end.
Definition healthy_role (c : DevRuntimeComponent) (r : DeliveryRuntimeSnapshot) (head : string) : bool :=
  bool_decide (DeliveryRuntimeSnapshot_Errors r = []) && (0 <? DeliveryRuntimeSnapshot_Generation r)%Z
  && (DeliveryRuntimeSnapshot_ObservedGeneration r == DeliveryRuntimeSnapshot_Generation r)
  && (0 <? DeliveryRuntimeSnapshot_DesiredReplicas r)%Z && (DeliveryRuntimeSnapshot_Health r == "HEALTHY")
  && ExactDevRuntimeImage (DeliveryRuntimeSnapshot_WorkloadImage r) (DevRuntimeComponent_ImageRepository c) (DevRuntimeComponent_Digest c)
  && (count (DeliveryRuntimeSnapshot_Pods r) == DeliveryRuntimeSnapshot_DesiredReplicas r)
  && (count (DeliveryRuntimeSnapshot_Pods r) <=? 512)%Z && flux_ready c head (DeliveryRuntimeSnapshot_Flux r).
(** The pods seen so far, by UID and by name. *)
Definition valid_pod (c : DevRuntimeComponent) (seen : gset string * gset string) (pod : RuntimePod) : res (gset string * gset string) :=
  let repository := DevRuntimeComponent_ImageRepository c in
  let digest := DevRuntimeComponent_Digest c in
  _ ← reject_if ((RuntimePod_Name pod == "") || (256 <? strlen (RuntimePod_Name pod))%Z || (RuntimePod_UID pod == "")
        || (256 <? strlen (RuntimePod_UID pod))%Z || bool_decide (RuntimePod_UID pod ∈ seen.1)
        || bool_decide (RuntimePod_Name pod ∈ seen.2) || (RuntimePod_Phase pod != "Running") || negb (RuntimePod_Ready pod)
        || negb (ExactDevRuntimeImage (RuntimePod_Image pod) repository digest)
        || negb (ValidDevRuntimeImageID (RuntimePod_ImageID pod) repository digest))
        (plain "runtime all unique Running Ready exact immutable pods required");
  Ok ({[RuntimePod_UID pod]} ∪ seen.1, {[RuntimePod_Name pod]} ∪ seen.2).
Definition ValidateDevRuntimeRoleAt (c : DevRuntimeComponent) (scope : RuntimeVerificationScope) (r : DeliveryRuntimeSnapshot)
    (head : string) (now : Time) : res unit :=
  _ ← reject_if (negb (exact_role c scope r now && healthy_role c r head))
        (plain "runtime complete healthy exact role and Flux revision required");
  _ ← foldM (valid_pod c) (∅, ∅) (DeliveryRuntimeSnapshot_Pods r);
  Ok ().

Section runtime.
Context `{Hashing, Encoding}.

Definition runtimeProofHash (p : DevRuntimeProof) : string := Fingerprint (p <| DevRuntimeProof_SnapshotHash := "" |>).
Definition runtimeResultHash (r : DevRuntimeResult) : string := Fingerprint (r <| DevRuntimeResult_Hash := "" |>).
Definition destination (c : DevRuntimeComponent) : string :=
  DevRuntimeComponent_AuthorityHash c +:+ nul +:+ GitOpsRequest_Repository (DevRuntimeComponent_GitOps c) +:+ nul
  +:+ GitOpsRequest_Ref (DevRuntimeComponent_GitOps c).
(** [ancestors[key]] once the components are read and the slice is sorted. *)
Definition add_ancestor (key : string) (commits : list string) (c : DevRuntimeComponent) : list string :=
  if (destination c == key) && negb (contains commits (DevRuntimeComponent_GitOpsCommit c))
  then commits ++ [DevRuntimeComponent_GitOpsCommit c] else commits.
Definition ancestors (p : DevRuntimeProof) (key : string) : list string :=
  sort_strings (foldl (add_ancestor key) [] (DevRuntimeProof_Components p)).
(** The roles of one component; the accumulator is [pods]. *)
Definition validate_role (c : DevRuntimeComponent) (head : string) (now : Time) (pods : Z)
    (sr : RuntimeVerificationScope * DeliveryRuntimeSnapshot) : res Z :=
  _ ← ValidateDevRuntimeRoleAt c sr.1 sr.2 head now;
  Ok (pods + count (DeliveryRuntimeSnapshot_Pods sr.2))%Z.
Definition validate_component (p : DevRuntimeProof) (now : Time) (acc : gmap string string * Z)
    (cr : DevRuntimeComponent * DevRuntimeComponentResult) : res (gmap string string * Z) :=
  let c := cr.1 in
  let r := cr.2 in
  let revision := DevRuntimeComponentResult_Revision r in
  let head := GitOpsRevisionProof_HeadSHA revision in
  let prior := default "" (acc.1 !! destination c) in
  _ ← reject_if ((DevRuntimeComponentResult_ApplicationID r != DevRuntimeComponent_ApplicationID c)
        || negb (length (DevRuntimeComponentResult_Roles r) =? length (DevRuntimeComponent_Scopes c))%nat)
        (plain "runtime result coverage mismatch");
  _ ← reject_if ((prior != "") && (prior != head)) (plain "runtime sibling GitOps head mismatch");
  _ ← reject_if (GitOpsRevisionProof_AncestorSHAs revision != ancestors p (destination c))
        (plain "runtime complete sibling ancestry required");
  _ ← ValidateDevRuntimeGitOps c (DevRuntimeComponentResult_GitOps r) revision;
  pods ← foldM (validate_role c head now) acc.2 (zip (DevRuntimeComponent_Scopes c) (DevRuntimeComponentResult_Roles r));
  Ok (<[destination c := head]> acc.1, pods).
Definition ValidateDevRuntimeResultAt (p : DevRuntimeProof) (r : DevRuntimeResult) (now : Time) : res unit :=
  let cs := DevRuntimeProof_Components p in
  _ ← reject_if (bool_decide (cs = []) || (16 <? count cs)%Z || (DevRuntimeProof_Generation p == 0%Z)
        || (DevRuntimeProof_SnapshotHash p != runtimeProofHash p) || (DevRuntimeResult_Outcome r != "VERIFIED")
        || (DevRuntimeResult_Reason r != "EXACT_CONFIGURED_RUNTIME_MATCH")
        || (DevRuntimeResult_ExpectedHash r != DevRuntimeProof_SnapshotHash p)
        || negb (length (DevRuntimeResult_Components r) =? length cs)%nat || (DevRuntimeResult_Hash r == "")
        || (DevRuntimeResult_Hash r != runtimeResultHash r) || IsZero (DevRuntimeResult_ObservedAt r))
        (plain "runtime result proof mismatch");
  acc ← foldM (validate_component p now) (∅, 0%Z) (zip cs (DevRuntimeResult_Components r));
  reject_if ((256 * 1024 <? encoded_size (p, r))%Z || (512 <? acc.2)%Z) (plain "runtime encoded proof or pod bounds exceeded").
End runtime.

(** ** Restoration plans — dev_restoration.go *)
Section restoration.
Context `{Hashing, Encoding, Runtime, URLs}.

(** The record with an identifier when there is exactly one; the source's loops
    fail on a second one. *)
Definition only {A} `{HasMeta A} (id : string) (l : list A) : option A :=
  match List.filter (has_id id) l with [x] => Some x | _ => None end.

Definition restorationCanonicalPlanHash (p : DevRestorationPlan) : string := Fingerprint (frozen_plan p).
Definition plan_of (parent : ExternalOperation) : option DevRestorationPlan := ExternalOperation_DevRestorationPlan parent.

(** [RestorationRuntimeExpected]: the commit at which each original image was
    restored.  The accumulator of the members of a group is their number so
    far and the commit found. *)
Definition restored_result (c : DevBaselineComponent) (g : DevRestorationGroup) (acc : nat * string) (m : DevRestorationMember)
    : res (nat * string) :=
  if DevRestorationMember_GroupID m != DevRestorationGroup_ID g then Ok acc
  else if DevRestorationMember_ApplicationID m == DevBaselineComponent_ApplicationID c then
    match DevRestorationGroup_Result g !! acc.1 with
    | None => plain "complete recovery group result missing"
    | Some r =>
      _ ← reject_if ((DevRuntimeGitOpsObservation_ImageRepository r != DevBaselineComponent_ImageRepository c)
            || (DevRuntimeGitOpsObservation_Digest r != DevBaselineComponent_Digest c)
            || negb (runtimeCommit (DevRuntimeGitOpsObservation_HeadSHA r)) || negb (runtimeCommit (DevRuntimeGitOpsObservation_BlobSHA r)))
            (plain "original desired result changed");
      Ok (S acc.1, DevRuntimeGitOpsObservation_HeadSHA r)
    end
  else Ok (S acc.1, acc.2).
Definition restored_commit (plan : DevRestorationPlan) (c : DevBaselineComponent) : res string :=
  foldM (fun commit g =>
    acc ← foldM (restored_result c g) (O, commit) (DevRestorationPlan_Components plan);
    Ok acc.2) "" (DevRestorationPlan_Groups plan).
Definition expected_component (plan : DevRestorationPlan) (acc : list DevRuntimeComponent) (c : DevBaselineComponent)
    : res (list DevRuntimeComponent) :=
  commit ← restored_commit plan c;
  _ ← reject_if (commit == "") (plain "original component recovery result missing");
  Ok (acc ++ [mkDevRuntimeComponent (DevBaselineComponent_AuthorityHash c) (DevBaselineComponent_ApplicationID c) ""
    (DevBaselineComponent_ArtifactID c) (DevBaselineComponent_ImageRepository c) (DevBaselineComponent_Digest c)
    (DevBaselineComponent_GitOps c) commit (DevBaselineComponent_ConfigHash c) (DevBaselineComponent_Scopes c)]).
Definition RestorationRuntimeExpected (parent : ExternalOperation) (input : DevRestorationRequest) (generation : Z) : res DevRuntimeProof :=
  match ExternalOperation_DevRestoration parent with
  | None => plain "immutable restoration proof required"
  | Some r =>
    match plan_of parent with
    | None => plain "complete restored desired state required"
    | Some plan =>
      _ ← reject_if ((DevRestorationPlan_Hash plan == "") || (DevRestorationPlan_Hash plan != restorationCanonicalPlanHash plan)
            || (ExternalOperation_Status parent != "SUCCEEDED") || (ExternalOperation_Phase parent != "GITOPS_APPLIED"))
            (plain "complete restored desired state required");
      components ← foldM (expected_component plan) [] (DevRestorationProof_Components r);
      let p := mkDevRuntimeProof (mkDevRuntimeRequest (ID parent) (DevRestorationRequest_RequestKey input)
                 (DevRestorationRequest_ExpectedSelection input)) generation (Fingerprint (plan_of parent)) components "" in
      Ok (p <| DevRuntimeProof_SnapshotHash := runtimeProofHash p |>)
    end
  end.

(** [validRestorationRequestReceipt] *)
Definition request_shape (action : string) (input : DevRestorationRequest) : bool :=
  let reservation := DevRestorationRequest_ReservationOperationID input in
  let restoration := DevRestorationRequest_RestorationOperationID input in
  let verification := DevRestorationRequest_RestorationVerificationOperationID input in
  let plan := DevRestorationRequest_ExpectedPlanHash input in
  if action == "request_candidate_dev_restoration" then
    (reservation != "") && (restoration == "") && (verification == "") && (plan == "")
  else if action == "confirm_candidate_dev_restoration" then
    (reservation == "") && (restoration != "") && (verification == "") && is_digest plan
  else if action == "verify_candidate_dev_restoration" then
    (reservation == "") && (restoration != "") && (verification == "") && (plan == "")
  else if action == "release_candidate_dev_after_restoration" then
    (reservation == "") && (restoration != "") && (verification != "") && (plan == "")
  else false.
Definition bare_operation (o : ExternalOperation) : bool :=
  (ID o != "") && (ProductID o != "") && negb (blank (ExternalOperation_RequestedBy o))
  && (Actor o == ExternalOperation_RequestedBy o) && (FeatureID o == "") && (ExternalOperation_IntegrationID o == "")
  && (ExternalOperation_ApplicationID o == "") && (ExternalOperation_RepositoryID o == "") && negb (ExternalOperation_BuildOnly o)
  && negb (is_some (ExternalOperation_Native o)) && negb (is_some (ExternalOperation_MainCandidate o))
  && negb (is_some (ExternalOperation_Snapshot o)) && negb (is_some (ExternalOperation_Run o))
  && negb (is_some (ExternalOperation_GitOpsPR o)) && negb (is_some (ExternalOperation_GitOpsResult o))
  && bool_decide (ExternalOperation_Sources o = []) && bool_decide (ExternalOperation_PreparedDeployments o = [])
  && negb (IsZero (CreatedAt o)).
Definition validRestorationRequestReceipt (o : ExternalOperation) (action : string) (input : DevRestorationRequest) : bool :=
  bare_operation o && (ExternalOperation_RequestKey o == DevRestorationRequest_RequestKey input)
  && opaque_key (DevRestorationRequest_RequestKey input) && is_some (DevRestorationRequest_ExpectedSelection input)
  && request_shape action input
  && (ExternalOperation_RequestHash o == Fingerprint (action, ProductID o, ExternalOperation_RequestedBy o, input)).
Definition without_registry (c : DevBaselineComponent) : DevBaselineComponent :=
  c <| DevBaselineComponent_RegistryJobID := "" |> <| DevBaselineComponent_RegistryInputHash := "" |>
    <| DevBaselineComponent_RegistryRootSetHash := "" |>.
Definition sameRestorationOriginalComponents (a b : list DevBaselineComponent) : bool :=
  negb (bool_decide (a = [])) && (length a =? length b)%nat && (length a <=? 16)%nat
  && forallb (fun p => without_registry p.1 == without_registry p.2) (zip a b).

(** *** The physical destination of a write *)
Definition GitOpsAuthorityFingerprint (c : Connection) : res string :=
  let raw := if Connection_APIURL c == "" then "https://api.github.com" else Connection_APIURL c in
  match url_parse raw with
  | None => plain "GitOps API authority unavailable"
  | Some u =>
    _ ← reject_if ((URL_Host u == "") || (URL_RawPath u != "") || URL_User u || (URL_RawQuery u != "") || (URL_Fragment u != "")
          || ((URL_Scheme u != "http") && (URL_Scheme u != "https"))) (plain "GitOps API authority unavailable");
    let scheme := to_lower (URL_Scheme u) in
    let hostname := to_lower (URL_Hostname u) in
    let standard := ((scheme == "https") && (URL_Port u == "443")) || ((scheme == "http") && (URL_Port u == "80")) in
    let host := if standard then (if str_contains ":" hostname then "[" +:+ hostname +:+ "]" else hostname)
                else to_lower (URL_Host u) in
    Ok (Fingerprint (url_string (mkURL scheme host hostname (if standard then "" else URL_Port u) (URL_User u)
          (trim_right_char slash (URL_Path u)) "" (URL_RawQuery u) (URL_Fragment u) (URL_Opaque u) (URL_ForceQuery u))))
  end.
Definition authority_of (c : Connection) : string := match GitOpsAuthorityFingerprint c with Ok s => s | Err _ => "" end.
Definition restorationPhysicalKey (c : Connection) (repository ref : string) : string :=
  authority_of c +:+ "|" +:+ repository +:+ "|" +:+ ref.

(** *** ValidateDevRestorationPlan *)
Definition add_group (op : ExternalOperation) (groups : gmap string DevRestorationGroup) (g : DevRestorationGroup)
    : res (gmap string DevRestorationGroup) :=
  _ ← GitOpsAuthorityFingerprint (DevRestorationGroup_Connection g);
  let key := restorationPhysicalKey (DevRestorationGroup_Connection g) (DevRestorationGroup_Repository g) (DevRestorationGroup_Ref g) in
  let hash := Fingerprint key in
  _ ← reject_if ((DevRestorationGroup_ID g != hash)
        || (DevRestorationGroup_LeaderID g != ID op +:+ "-" +:+ str_take 16 (str_drop 7 hash))
        || is_some (groups !! DevRestorationGroup_ID g)) (plain "recovery group authority changed");
  Ok (<[DevRestorationGroup_ID g := g]> groups).
(** The heads at which the groups are prepared, and the changes they make. *)
Record prepared := mkPrepared { heads : gmap string string; changes : gmap string (list GitOpsImageChange) }.
Definition current_selector (c : DevBaselineComponent) (m : DevRestorationMember) : GitOpsRequest :=
  (DevBaselineComponent_GitOps c) <| GitOpsRequest_ImageRepository := DevRuntimeGitOpsObservation_ImageRepository (DevRestorationMember_Current m) |>
    <| GitOpsRequest_ExpectedHeadSHA := "" |>.
Definition no_write (m : DevRestorationMember) : bool :=
  (DevRuntimeGitOpsObservation_ImageRepository (DevRestorationMember_Current m)
     == DevRuntimeGitOpsObservation_ImageRepository (DevRestorationMember_Original m))
  && (DevRuntimeGitOpsObservation_Digest (DevRestorationMember_Current m)
        == DevRuntimeGitOpsObservation_Digest (DevRestorationMember_Original m)).
Definition sound_member (c : DevBaselineComponent) (m : DevRestorationMember) (g : DevRestorationGroup) : bool :=
  let current := DevRestorationMember_Current m in
  let selector := current_selector c m in
  (DevRestorationMember_ApplicationID m == DevBaselineComponent_ApplicationID c)
  && (DevBaselineComponent_ObservedGitOps c == Some (DevRestorationMember_Original m))
  && (DevRestorationMember_Selector m == selector) && (DevRestorationGroup_Repository g == GitOpsRequest_Repository selector)
  && (DevRestorationGroup_Ref g == GitOpsRequest_Ref selector) && Bool.eqb (DevRestorationMember_NoWrite m) (no_write m)
  && runtimeCommit (DevRuntimeGitOpsObservation_HeadSHA current) && runtimeCommit (DevRuntimeGitOpsObservation_BlobSHA current)
  && is_digest (DevRuntimeGitOpsObservation_ContentHash current) && is_digest (DevRuntimeGitOpsObservation_Digest current).
Definition prepare_member (groups : gmap string DevRestorationGroup) (acc : prepared) (cm : DevBaselineComponent * DevRestorationMember)
    : res prepared :=
  let c := cm.1 in
  let m := cm.2 in
  let g := default zero (groups !! DevRestorationMember_GroupID m) in
  let head := DevRuntimeGitOpsObservation_HeadSHA (DevRestorationMember_Current m) in
  let prior := default "" (heads acc !! DevRestorationGroup_ID g) in
  _ ← reject_if (authority_of (DevRestorationGroup_Connection g) != DevBaselineComponent_AuthorityHash c)
        (plain "recovery group differs from original physical authority");
  _ ← reject_if (negb (is_some (groups !! DevRestorationMember_GroupID m)) || negb (sound_member c m g))
        (plain "recovery original/current member changed");
  _ ← reject_if ((prior != "") && (prior != head)) (plain "recovery group prepared at different heads");
  let change := mkGitOpsImageChange (DevBaselineComponent_ApplicationID c) (current_selector c m)
                  (DevRuntimeGitOpsObservation_BlobSHA (DevRestorationMember_Current m))
                  (DevBaselineComponent_ImageRepository c) (DevBaselineComponent_Digest c) in
  let id := DevRestorationGroup_ID g in
  Ok (mkPrepared (<[id := head]> (heads acc))
        (if no_write m then changes acc else <[id := default [] (changes acc !! id) ++ [change]]> (changes acc))).
Definition expected_batch (acc : prepared) (g : DevRestorationGroup) (list : list GitOpsImageChange) : GitOpsBatchApply :=
  mkGitOpsBatchApply (DevRestorationGroup_Repository g) (DevRestorationGroup_Ref g) (default "" (heads acc !! DevRestorationGroup_ID g))
    (DevRestorationGroup_LeaderID g) ("release-control: " +:+ DevRestorationGroup_LeaderID g) list.
Definition check_group (acc : prepared) (g : DevRestorationGroup) : res unit :=
  match default [] (changes acc !! DevRestorationGroup_ID g) with
  | [] =>
    reject_if (is_some (DevRestorationGroup_Batch g) || DevRestorationGroup_SendStarted g || is_some (DevRestorationGroup_PullRequest g)
      || (DevRestorationGroup_IntentHash g != "") || is_some (DevRestorationGroup_MergedAt g))
      (plain "no-write recovery group gained mutation authority")
  | list =>
    let expected := expected_batch acc g list in
    _ ← reject_if ((DevRestorationGroup_Batch g != Some expected) || (DevRestorationGroup_IntentHash g != Fingerprint expected))
          (plain "complete recovery intent changed");
    _ ← reject_if (64 * 1024 <? encoded_size (DevRestorationGroup_Batch g))%Z (plain "recovery batch bound exceeded");
    reject_if match DevRestorationGroup_PullRequest g with
              | None => false
              | Some pr => negb (DevRestorationGroup_SendStarted g) || (GitOpsPullRequest_Number pr <=? 0)%Z
                           || (GitOpsPullRequest_URL pr == "") || negb (runtimeCommit (GitOpsPullRequest_HeadSHA pr))
              end (plain "recovery proposal identity changed")
  end.
Definition ValidateDevRestorationPlan (op : ExternalOperation) : res unit :=
  match plan_of op with
  | None => Ok ()
  | Some p =>
    match ExternalOperation_DevRestoration op with
    | None => plain "recovery plan membership changed"
    | Some proof =>
      _ ← reject_if ((DevRestorationPlan_ExpectedHash p != DevRestorationProof_SnapshotHash proof)
            || (DevRestorationPlan_SettlementHash p == "")
            || negb (length (DevRestorationPlan_Components p) =? length (DevRestorationProof_Components proof))%nat
            || bool_decide (DevRestorationPlan_Groups p = []) || (16 <? count (DevRestorationPlan_Groups p))%Z)
            (plain "recovery plan membership changed");
      groups ← foldM (add_group op) ∅ (DevRestorationPlan_Groups p);
      acc ← foldM (prepare_member groups) (mkPrepared ∅ ∅) (zip (DevRestorationProof_Components proof) (DevRestorationPlan_Components p));
      _ ← each (check_group acc) (DevRestorationPlan_Groups p);
      reject_if ((DevRestorationPlan_Hash p != "") && (DevRestorationPlan_Hash p != restorationCanonicalPlanHash p))
        (plain "final recovery plan hash changed")
    end
  end.

(** *** Availability of the original images *)
Definition available_artifact (st : State) (op : ExternalOperation) (component : DevBaselineComponent)
    (result : DevBaselineComponentResult) (at_ : Time) : bool :=
  match DevBaselineComponentResult_Availability result with
  | None => false
  | Some a =>
    let found := List.filter (has_id (DevBaselineComponent_ArtifactID component)) (State_DeliveryArtifacts st) in
    negb (is_some (DevBaselineComponentResult_Registry result)) && ArtifactResult_Available a
    && (ArtifactResult_Digest a == DevBaselineComponent_Digest component) && negb (Before (ArtifactResult_ObservedAt a) (CreatedAt op))
    && negb (After (ArtifactResult_ObservedAt a) at_) && (at_ - ArtifactResult_ObservedAt a <=? 5 * minute)%Z
    && (length found =? 1)%nat
    && forallb (fun artifact =>
         (ProductID artifact == ProductID op) && (DeliveryArtifact_ApplicationID artifact == DevBaselineComponent_ApplicationID component)
         && (DeliveryArtifact_RepositoryID artifact == DevBaselineComponent_RepositoryID component)
         && (DeliveryArtifact_ImageRepository artifact == DevBaselineComponent_ImageRepository component)
         && (DeliveryArtifact_Digest artifact == DevBaselineComponent_Digest component)
         && (Fingerprint artifact == DevBaselineComponent_ArtifactHash component)) found
  end.
Definition observed_receipt (op : ExternalOperation) (component : DevBaselineComponent) (receipt : DevBaselineRegistryReceipt) (at_ : Time) : bool :=
  (DevBaselineRegistryReceipt_ClosureKind receipt == "IMAGE_CONTENT")
  && (DevBaselineRegistryReceipt_JobID receipt == DevBaselineComponent_RegistryJobID component)
  && (DevBaselineRegistryReceipt_InputHash receipt == DevBaselineComponent_RegistryInputHash component)
  && (DevBaselineRegistryReceipt_RootSetHash receipt == DevBaselineComponent_RegistryRootSetHash component)
  && negb (Before (DevBaselineRegistryReceipt_ObservedAt receipt) (CreatedAt op))
  && negb (After (DevBaselineRegistryReceipt_ObservedAt receipt) at_)
  && (at_ - DevBaselineRegistryReceipt_ObservedAt receipt <=? 5 * minute)%Z.
Definition observing_job (op : ExternalOperation) (component : DevBaselineComponent) (receipt : DevBaselineRegistryReceipt)
    (job : WorkerJob) (p : WorkerRegistryInputs) : bool :=
  let scope := WorkerRegistryInputs_Scope p in
  (WorkerJob_Status job == "SUCCEEDED") && negb (WorkerJob_CancellationRequested job) && (ProductID job == ProductID op)
  && (WorkerJob_Capability job == "registry_observe") && negb (Before (CreatedAt job) (CreatedAt op))
  && (WorkerJob_InputHash job == DevBaselineRegistryReceipt_InputHash receipt)
  && (WorkerJob_InputHash job == Fingerprint (WorkerJob_Inputs job))
  && (WorkerRegistryInputs_RootSetHash p == DevBaselineRegistryReceipt_RootSetHash receipt)
  && (RegistryScope_ProductID scope == ProductID op) && (RegistryScope_ComponentID scope == DevBaselineComponent_ApplicationID component)
  && (RegistryScope_RepositoryID scope == DevBaselineComponent_RepositoryID component)
  && (RegistryScope_ImageRepository scope == DevBaselineComponent_ImageRepository component)
  && contains (WorkerRegistryInputs_Roots p) (DevBaselineComponent_Digest component)
  && (WorkerJob_OperationID job == DevBaselineRegistryReceipt_OperationID receipt).
Definition observing_operation (op : ExternalOperation) (component : DevBaselineComponent) (job : WorkerJob) (child : ExternalOperation) : bool :=
  (ExternalOperation_Kind child == RegistryObserveOperationKind) && (ExternalOperation_ParentID child == ID op)
  && (ProductID child == ProductID op) && (ExternalOperation_RequestedBy child == ExternalOperation_RequestedBy op)
  && (ExternalOperation_ApplicationID child == DevBaselineComponent_ApplicationID component)
  && (ExternalOperation_RepositoryID child == DevBaselineComponent_RepositoryID component)
  && (ExternalOperation_RegistryObservation child == Some (WorkerJob_Inputs job))
  && (ExternalOperation_Status child == "SUCCEEDED") && (ExternalOperation_Phase child == "EXTERNAL_SUCCEEDED").
Definition observed_inventory (receipt : DevBaselineRegistryReceipt) (job : WorkerJob) (inventory : RegistryInventory) (at_ : Time) : bool :=
  (RegistryInventory_JobID inventory == ID job)
  && (RegistryInventory_AttemptID inventory == DevBaselineRegistryReceipt_AttemptID receipt)
  && (RegistryInventory_Fence inventory == WorkerJob_Fence job)
  && (RegistryInventory_Fence inventory == DevBaselineRegistryReceipt_Fence receipt)
  && (RegistryInventory_InputHash inventory == WorkerJob_InputHash job)
  && (RegistryInventory_Inputs inventory == WorkerJob_Inputs job)
  && (RegistryInventoryFreshness inventory at_ == "FRESH")
  && (RegistryGraph_GraphHash (WorkerRegistryReport_Graph (RegistryInventory_Report inventory)) == DevBaselineRegistryReceipt_GraphHash receipt)
  && (WorkerRegistryReport_FinishedAt (RegistryInventory_Report inventory) == DevBaselineRegistryReceipt_ObservedAt receipt).
Definition observed_attempt (receipt : DevBaselineRegistryReceipt) (job : WorkerJob) (inventory : RegistryInventory) (attempt : WorkerAttempt) : bool :=
  (WorkerAttempt_Status attempt == "SUCCEEDED") && (WorkerAttempt_Fence attempt == DevBaselineRegistryReceipt_Fence receipt)
  && match WorkerAttempt_Report attempt with
     | Some r => (WorkerReport_Registry r == Some (RegistryInventory_Report inventory))
                 && ValidateRegistryWorkerReport job attempt r (RegistryInventory_ReceivedAt inventory)
     | None => false
     end.
(** What the receipt repeats of the metadata graph. *)
Definition metadata_of (g : RegistryGraph) (digest : string) : string * list string :=
  foldl (fun acc root => if RegistryRoot_Digest root == digest then (RegistryRoot_Closure root, acc.2 ++ RegistryRoot_Blockers root) else acc)
    ("UNKNOWN", RegistryGraph_Blockers g) (RegistryGraph_Roots g).
Definition received_content (receipt : DevBaselineRegistryReceipt) (component : DevBaselineComponent) (p : WorkerRegistryInputs)
    (g : RegistryGraph) : bool :=
  let '(closure, blockers) := metadata_of g (DevBaselineComponent_Digest component) in
  match RegistryImageContentProofHash g (WorkerRegistryInputs_Limits p) (WorkerRegistryInputs_Roots p) (DevBaselineComponent_Digest component) with
  | Ok hash => hash == DevBaselineRegistryReceipt_ContentProofHash receipt
  | Err _ => false
  end
  && (DevBaselineRegistryReceipt_MetadataRootClosure receipt == closure)
  && (DevBaselineRegistryReceipt_MetadataDiscovery receipt == RegistryGraph_Discovery g)
  && Bool.eqb (DevBaselineRegistryReceipt_GlobalInventoryComplete receipt) (RegistryGraph_GlobalInventoryComplete g)
  && (sortedUnique blockers == DevBaselineRegistryReceipt_MetadataBlockers receipt).
(** The operation that observed the image, when the receipt stands up. *)
Definition available_image (st : State) (op : ExternalOperation) (component : DevBaselineComponent)
    (result : DevBaselineComponentResult) (at_ : Time) : option string :=
  match DevBaselineComponentResult_Availability result, DevBaselineComponentResult_Registry result with
  | None, Some receipt =>
    if negb (observed_receipt op component receipt at_) then None
    else match only (DevBaselineRegistryReceipt_JobID receipt) (State_WorkerJobs st) with
    | None => None
    | Some job =>
      match WorkerInputs_Registry (WorkerJob_Inputs job), only (WorkerJob_OperationID job) (State_Operations st),
            only (DevBaselineRegistryReceipt_InventoryID receipt) (State_RegistryInventories st),
            only (DevBaselineRegistryReceipt_AttemptID receipt) (State_WorkerAttempts st) with
      | Some p, Some child, Some inventory, Some attempt =>
        if observing_job op component receipt job p && observing_operation op component job child
           && observed_inventory receipt job inventory at_ && observed_attempt receipt job inventory attempt
           && received_content receipt component p (WorkerRegistryReport_Graph (RegistryInventory_Report inventory))
        then Some (WorkerJob_OperationID job) else None
      | _, _, _, _ => None
      end
    end
  | _, _ => None
  end.
Definition matching_result (component : DevBaselineComponent) (result : DevBaselineComponentResult) : bool :=
  (DevBaselineComponentResult_ApplicationID result == DevBaselineComponent_ApplicationID component)
  && (DevBaselineComponentResult_ImageRepository result == DevBaselineComponent_ImageRepository component)
  && (DevBaselineComponentResult_Digest result == DevBaselineComponent_Digest component)
  && (DevBaselineComponentResult_ArtifactID result == DevBaselineComponent_ArtifactID component)
  && (DevBaselineComponentResult_ArtifactHash result == DevBaselineComponent_ArtifactHash component)
  && (DevBaselineComponent_ObservedGitOps component == Some (DevBaselineComponentResult_GitOps result)).
Definition check_available (st : State) (op : ExternalOperation) (at_ : Time) (children : list string)
    (cr : DevBaselineComponent * DevBaselineComponentResult) : option (list string) :=
  if negb (matching_result cr.1 cr.2) then None
  else if DevBaselineComponent_ArtifactID cr.1 != "" then
    (if available_artifact st op cr.1 cr.2 at_ then Some children else None)
  else match available_image st op cr.1 cr.2 at_ with Some id => Some (children ++ [id]) | None => None end.
Definition validRestorationAvailabilityEvidence (st : State) (op : ExternalOperation) (components : list DevBaselineComponent)
    (results : list DevBaselineComponentResult) (at_ : Time) : bool :=
  negb (bool_decide (components = [])) && (length components =? length results)%nat
  && match fold_option (check_available st op at_) [] (zip components results) with
     | Some children => children == ExternalOperation_ChildIDs op
     | None => false
     end.

(** *** validRestorationSuccessorEvidence *)
(** The four requests are receipts of their own operations. *)
Definition four_receipts (receipt recovery confirmation verification : ExternalOperation) (r : DevRestorationProof)
    (c : DevRestorationConfirmation) (v : DevRestorationVerification) (p : DevRestorationRelease) : bool :=
  negb (ExternalOperation_DevRestorationUnapproved recovery)
  && validRestorationRequestReceipt recovery "request_candidate_dev_restoration" (DevRestorationProof_Request r)
  && validRestorationRequestReceipt confirmation "confirm_candidate_dev_restoration" (DevRestorationConfirmation_Request c)
  && validRestorationRequestReceipt verification "verify_candidate_dev_restoration" (DevRestorationVerification_Request v)
  && validRestorationRequestReceipt receipt "release_candidate_dev_after_restoration" (DevRestorationRelease_Request p).
(** Each operation carries the payload of its own kind only. *)
Definition payloads (o : ExternalOperation) : list bool :=
  [is_some (ExternalOperation_DevRestoration o); is_some (ExternalOperation_DevRestorationPlan o);
   is_some (ExternalOperation_DevRestorationConfirmation o); is_some (ExternalOperation_DevRestorationVerification o);
   is_some (ExternalOperation_DevRestorationRelease o)].
Definition own_payloads (receipt recovery confirmation verification : ExternalOperation) : bool :=
  (drop 2 (payloads recovery) == [false; false; false])
  && (take 2 (payloads confirmation) ++ drop 3 (payloads confirmation) == [false; false; false; false])
  && (take 3 (payloads verification) ++ drop 4 (payloads verification) == [false; false; false; false])
  && (take 4 (payloads receipt) == [false; false; false; false])
  && bool_decide (ExternalOperation_ChildIDs confirmation = []) && bool_decide (ExternalOperation_ChildIDs receipt = []).
(** The generation, the epoch and the selection follow the reservation's. *)
Definition advanced (hold recovery : ExternalOperation) (r : DevRestorationProof) (d : DevReservationProof) : bool :=
  let reserved := DevReservationProof_ReservedSelection d in
  let selection := DevRestorationProof_Selection r in
  (ExternalOperation_Kind hold == "DEV_RESERVATION") && (ExternalOperation_Status hold == "SUCCEEDED")
  && (ExternalOperation_Phase hold == "RESERVED") && (ExternalOperation_RequestedBy hold == ExternalOperation_RequestedBy recovery)
  && (DevReservationProof_Epoch d == ExternalOperation_ReservationEpoch hold)
  && (DevReservationProof_CandidateHash d == Fingerprint (DevReservationProof_CandidateProof d))
  && (DevRestorationRequest_ReservationOperationID (DevRestorationProof_Request r) == ID hold)
  && (DevRestorationProof_Generation r != 0%Z) && (DevRestorationProof_Generation r <=? 256)%Z
  && (DevRestorationProof_Epoch r == wrap_uint64 (ExternalOperation_ReservationEpoch hold + DevRestorationProof_Generation r))
  && (ExternalOperation_ReservationEpoch hold <? DevRestorationProof_Epoch r)%Z
  && (EnvironmentSelection_Generation selection
        == wrap_uint64 (EnvironmentSelection_Generation reserved + DevRestorationProof_Generation r))
  && (EnvironmentSelection_Generation reserved <? EnvironmentSelection_Generation selection)%Z
  && (EnvironmentSelection_CompositionID selection == EnvironmentSelection_CompositionID reserved)
  && (EnvironmentSelection_OperationID selection == EnvironmentSelection_OperationID reserved)
  && match DevRestorationRequest_ExpectedSelection (DevRestorationProof_Request r) with
     | Some e => (wrap_uint64 (EnvironmentSelection_Generation e + 1) == EnvironmentSelection_Generation selection)
                 && (EnvironmentSelection_CompositionID e == EnvironmentSelection_CompositionID selection)
                 && (EnvironmentSelection_OperationID e == EnvironmentSelection_OperationID selection)
     | None => false
     end
  && (DevRestorationProof_Deadline r == CreatedAt recovery + hour)%Z.
Definition same_target (recovery : ExternalOperation) (r : DevRestorationProof) (input : DevRestorationRequest) : bool :=
  (DevRestorationRequest_RestorationOperationID input == ID recovery)
  && (DevRestorationRequest_ExpectedSelection input == Some (DevRestorationProof_Selection r)).
(** The confirmed plan is the executed one, and the steps follow each other in time. *)
Definition in_sequence (receipt recovery confirmation verification : ExternalOperation) (plan : DevRestorationPlan)
    (c : DevRestorationConfirmation) : bool :=
  match ExternalOperation_FinishedAt confirmation, ExternalOperation_FinishedAt verification,
        ExternalOperation_DevRuntimeResult verification, ExternalOperation_FinishedAt receipt, ExternalOperation_FinishedAt recovery with
  | Some confirmed, Some verified, Some result, Some finished, Some recovered =>
    (DevRestorationRequest_ExpectedPlanHash (DevRestorationConfirmation_Request c) == DevRestorationPlan_Hash plan)
    && (DevRestorationPlan_Hash (DevRestorationConfirmation_Plan c) == restorationCanonicalPlanHash (DevRestorationConfirmation_Plan c))
    && (frozen_plan (DevRestorationConfirmation_Plan c) == frozen_plan plan)
    && negb (Before (DevRestorationConfirmation_ConfirmedAt c) (CreatedAt recovery))
    && (DevRestorationConfirmation_ConfirmedAt c == CreatedAt confirmation) && (confirmed == DevRestorationConfirmation_ConfirmedAt c)
    && negb (Before (CreatedAt verification) (DevRestorationConfirmation_ConfirmedAt c))
    && negb (Before (DevRuntimeResult_ObservedAt result) (CreatedAt verification))
    && negb (After (DevRuntimeResult_ObservedAt result) verified) && negb (Before (CreatedAt receipt) verified)
    && negb (Before finished (CreatedAt receipt))
    && negb (Before recovered (DevRestorationConfirmation_ConfirmedAt c)) && negb (Before (CreatedAt verification) recovered)
  | _, _, _, _, _ => false
  end.
(** The baseline that the restoration brings back was captured under the reservation. *)
Definition captured_baseline (st : State) (hold : ExternalOperation) (r : DevRestorationProof) : bool :=
  match only (DevRestorationProof_BaselineCaptureID r) (State_Operations st) with
  | None => false
  | Some capture =>
    match ExternalOperation_DevBaseline capture, ExternalOperation_DevBaselineResult capture with
    | Some baseline, Some result =>
      (ExternalOperation_Kind capture == devBaselineKind) && negb (ExternalOperation_ReservationQuarantined capture)
      && (ExternalOperation_Status capture == "SUCCEEDED") && (ExternalOperation_Phase capture == "BASELINE_CAPTURED")
      && (ProductID capture == ProductID hold) && (ExternalOperation_RequestedBy capture == ExternalOperation_RequestedBy hold)
      && (ExternalOperation_EnvironmentID capture == ExternalOperation_EnvironmentID hold)
      && (ExternalOperation_ReservationEpoch capture == ExternalOperation_ReservationEpoch hold)
      && (ExternalOperation_ParentID capture == ID hold)
      && (DevRestorationProof_BaselineCaptureHash r
            == Fingerprint (ExternalOperation_DevBaseline capture, ExternalOperation_DevBaselineResult capture))
      && sameRestorationOriginalComponents (DevRestorationProof_Components r) (DevBaselineProof_Components baseline)
      && (DevBaselineProof_SnapshotHash baseline == Fingerprint (baseline <| DevBaselineProof_SnapshotHash := "" |>))
      && (DevBaselineResult_Hash result == Fingerprint (result <| DevBaselineResult_Hash := "" |>))
      && (DevBaselineResult_ExpectedHash result == DevBaselineProof_SnapshotHash baseline)
      && (DevBaselineProof_ReservationHash baseline == Fingerprint (ExternalOperation_DevReservation hold))
      && (DevBaselineProof_ReservationOperationID baseline == ID hold) && (DevBaselineResult_Outcome result == "CAPTURED")
    | _, _ => false
    end
  end.
Definition expected_runtime (recovery receipt : ExternalOperation) (v : DevRestorationVerification) (result : DevRuntimeResult) : bool :=
  let runtime := DevRestorationVerification_Runtime v in
  match RestorationRuntimeExpected recovery (DevRestorationVerification_Request v) (DevRestorationVerification_Generation v),
        ExternalOperation_FinishedAt receipt with
  | Ok expected, Some finished =>
    (expected == runtime) && (DevRuntimeProof_ActivationHash runtime == Fingerprint (plan_of recovery))
    && (DevRuntimeProof_SnapshotHash runtime == runtimeProofHash runtime)
    && is_ok (ValidateDevRuntimeResultAt runtime result finished)
  | _, _ => false
  end.
(** The roles observed belong to the environment, at the time of the verification. *)
Definition observed_scope (hold verification : ExternalOperation) (result : DevRuntimeResult) (component : DevRuntimeComponent)
    (sr : RuntimeVerificationScope * DeliveryRuntimeSnapshot) : bool :=
  (RuntimeVerificationScope_ProductID sr.1 == ProductID hold)
  && (RuntimeVerificationScope_EnvironmentID sr.1 == ExternalOperation_EnvironmentID hold)
  && (RuntimeVerificationScope_ApplicationID sr.1 == DevRuntimeComponent_ApplicationID component)
  && negb (Before (DeliveryRuntimeSnapshot_ObservedAt sr.2) (CreatedAt verification))
  && negb (After (DeliveryRuntimeSnapshot_ObservedAt sr.2) (DevRuntimeResult_ObservedAt result)).
Definition observe_component (hold verification : ExternalOperation) (result : DevRuntimeResult) (acc : gset string * (Z * Z))
    (cr : DevRuntimeComponent * DevRuntimeComponentResult) : option (gset string * (Z * Z)) :=
  let app := DevRuntimeComponent_ApplicationID cr.1 in
  let pairs := zip (DevRuntimeComponent_Scopes cr.1) (DevRuntimeComponentResult_Roles cr.2) in
  if (app == "") || bool_decide (app ∈ acc.1) || bool_decide (DevRuntimeComponent_Scopes cr.1 = [])
     || negb (forallb (observed_scope hold verification result cr.1) pairs)
  then None
  else Some ({[app]} ∪ acc.1,
             (acc.2.1 + count (DevRuntimeComponent_Scopes cr.1),
              foldl (fun pods sr => pods + count (DeliveryRuntimeSnapshot_Pods sr.2)) acc.2.2 pairs))%Z.
Definition observed_roles (hold verification : ExternalOperation) (v : DevRestorationVerification) (result : DevRuntimeResult) : bool :=
  match fold_option (observe_component hold verification result) (∅, (0, 0))%Z
          (zip (DevRuntimeProof_Components (DevRestorationVerification_Runtime v)) (DevRuntimeResult_Components result)) with
  | Some (_, (roles, pods)) => (roles <=? 64)%Z && (pods <=? 512)%Z
  | None => false
  end.
(** [ValidRestorationRelease] asks for a plan and a runtime result before it
    calls this; a pointer that the source would follow is matched here. *)
Definition successor_evidence (st : State) (receipt hold recovery confirmation verification : ExternalOperation) : bool :=
  match ExternalOperation_DevRestoration recovery, ExternalOperation_DevRestorationConfirmation confirmation,
        ExternalOperation_DevRestorationVerification verification, ExternalOperation_DevRestorationRelease receipt,
        ExternalOperation_DevReservation hold, plan_of recovery, ExternalOperation_DevRuntimeResult verification,
        ExternalOperation_FinishedAt receipt with
  | Some r, Some c, Some v, Some p, Some d, Some plan, Some result, Some finished =>
    four_receipts receipt recovery confirmation verification r c v p && own_payloads receipt recovery confirmation verification
    && advanced hold recovery r d
    && forallb (same_target recovery r)
         [DevRestorationConfirmation_Request c; DevRestorationVerification_Request v; DevRestorationRelease_Request p]
    && in_sequence receipt recovery confirmation verification plan c && is_ok (ValidateDevRestorationPlan recovery)
    && (DevRestorationRequest_RestorationVerificationOperationID (DevRestorationRelease_Request p) == ID verification)
    && (DevRestorationPlan_ExpectedHash plan == DevRestorationProof_SnapshotHash r)
    && sameRestorationOriginalComponents (DevRestorationProof_Components r) (DevRestorationVerification_Components v)
    && captured_baseline st hold r && expected_runtime recovery receipt v result && observed_roles hold verification v result
    && validRestorationAvailabilityEvidence st verification (DevRestorationVerification_Components v)
         (DevRestorationVerification_Availability v) (DevRuntimeResult_ObservedAt result)
    && (DevRestorationRelease_AvailabilityHash p != "")
    && (DevRestorationRelease_AvailabilityHash p == Fingerprint (DevRestorationRelease_Availability p))
    && validRestorationAvailabilityEvidence st verification (DevRestorationVerification_Components v)
         (DevRestorationRelease_Availability p) finished
    && forallb (fun o => (encoded_size o + 4096 <=? 256 * 1024)%Z) [recovery; confirmation; verification; receipt]
  | _, _, _, _, _, _, _, _ => false
  end.
#[export] Instance restoration_evidence : RestorationEvidence := {| validRestorationSuccessorEvidence := successor_evidence |}.
End restoration.

(** * Properties *)
Section properties.
Context `{Hashing, Encoding, Runtime, URLs}.

(** ** What a verified runtime shows *)
(** All replicas of a role run one image, and are ready. *)
Record RunsExactly (repository digest : string) (scope : RuntimeVerificationScope) (role : DeliveryRuntimeSnapshot) (now : Time) : Prop := {
  runs_role : DeliveryRuntimeSnapshot_EnvironmentID role = RuntimeVerificationScope_EnvironmentID scope
              /\ DeliveryRuntimeSnapshot_Namespace role = RuntimeVerificationScope_Namespace scope
              /\ DeliveryRuntimeSnapshot_Deployment role = RuntimeVerificationScope_Deployment scope
              /\ DeliveryRuntimeSnapshot_Container role = RuntimeVerificationScope_Container scope;
  runs_fresh : (DeliveryRuntimeSnapshot_ObservedAt role <= now <= DeliveryRuntimeSnapshot_ObservedAt role + 5 * minute)%Z;
  runs_healthy : DeliveryRuntimeSnapshot_Health role = "HEALTHY";
  runs_replicas : (0 < count (DeliveryRuntimeSnapshot_Pods role))%Z
                  /\ count (DeliveryRuntimeSnapshot_Pods role) = DeliveryRuntimeSnapshot_DesiredReplicas role;
  runs_image : forall pod, pod ∈ DeliveryRuntimeSnapshot_Pods role ->
    RuntimePod_Ready pod = true /\ RuntimePod_Phase pod = "Running" /\ ExactDevRuntimeImage (RuntimePod_Image pod) repository digest = true;
}.
Lemma role_runs c scope r head now : ValidateDevRuntimeRoleAt c scope r head now = Ok () ->
  RunsExactly (DevRuntimeComponent_ImageRepository c) (DevRuntimeComponent_Digest c) scope r now.
Proof.
  unfold ValidateDevRuntimeRoleAt. intros Hr. step_guards Hr. to_prop. unfold exact_role, healthy_role, After in *. to_prop.
  match goal with Hf : foldM (valid_pod c) _ _ = Ok _ |- _ => rename Hf into Hpods end.
  split; auto; try lia.
  intros pod Hp. destruct (foldM_elem _ _ _ _ pod Hpods Hp) as (b1 & b2 & Hv). unfold valid_pod in Hv. step_guards Hv. to_prop. auto.
Qed.
Lemma result_runs p r now i c cr j scope role : ValidateDevRuntimeResultAt p r now = Ok () ->
  DevRuntimeProof_Components p !! i = Some c -> DevRuntimeResult_Components r !! i = Some cr ->
  DevRuntimeComponent_Scopes c !! j = Some scope -> DevRuntimeComponentResult_Roles cr !! j = Some role ->
  RunsExactly (DevRuntimeComponent_ImageRepository c) (DevRuntimeComponent_Digest c) scope role now.
Proof.
  unfold ValidateDevRuntimeResultAt. intros Hv Hc Hcr Hs Hr. step_guards Hv.
  match goal with Hf : foldM (validate_component p now) _ _ = Ok _ |- _ => rename Hf into Hall end.
  destruct (foldM_elem _ _ _ _ (c, cr) Hall) as (b1 & b2 & Hone).
  { apply list_elem_of_lookup. exists i. apply lookup_zip_Some. auto. }
  unfold validate_component in Hone. cbn in Hone. step_guards Hone.
  match goal with Hf : foldM (validate_role _ _ _) _ _ = Ok _ |- _ => rename Hf into Hroles end.
  destruct (foldM_elem _ _ _ _ (scope, role) Hroles) as (n1 & n2 & Hrole).
  { apply list_elem_of_lookup. exists j. apply lookup_zip_Some. auto. }
  unfold validate_role in Hrole. cbn in Hrole. apply bind_Ok in Hrole as ([] & Hrole & _). eapply role_runs, Hrole.
Qed.
(** The result covers every component and every scope of the proof. *)
Lemma result_covers p r now i c : ValidateDevRuntimeResultAt p r now = Ok () -> DevRuntimeProof_Components p !! i = Some c ->
  exists cr, DevRuntimeResult_Components r !! i = Some cr
    /\ DevRuntimeComponentResult_ApplicationID cr = DevRuntimeComponent_ApplicationID c
    /\ length (DevRuntimeComponentResult_Roles cr) = length (DevRuntimeComponent_Scopes c).
Proof.
  unfold ValidateDevRuntimeResultAt. intros Hv Hc. step_guards Hv. to_prop.
  match goal with Hl : (_ =? _)%nat = true |- _ => apply Nat.eqb_eq in Hl; rename Hl into Hlen end.
  destruct (lookup_lt_is_Some_2 (DevRuntimeResult_Components r) i) as [cr Hcr]; [rewrite Hlen; eapply lookup_lt_Some, Hc|].
  match goal with Hf : foldM (validate_component p now) _ _ = Ok _ |- _ => rename Hf into Hall end.
  destruct (foldM_elem _ _ _ _ (c, cr) Hall) as (b1 & b2 & Hone).
  { apply list_elem_of_lookup. exists i. apply lookup_zip_Some. auto. }
  unfold validate_component in Hone. cbn in Hone. step_guards Hone. to_prop.
  match goal with Hl : (_ =? _)%nat = true |- _ => apply Nat.eqb_eq in Hl end. eauto.
Qed.

(** ** The images a restoration expects are the original ones *)
Definition original_of (c : DevBaselineComponent) (e : DevRuntimeComponent) : Prop :=
  DevRuntimeComponent_ApplicationID e = DevBaselineComponent_ApplicationID c
  /\ DevRuntimeComponent_ImageRepository e = DevBaselineComponent_ImageRepository c
  /\ DevRuntimeComponent_Digest e = DevBaselineComponent_Digest c
  /\ DevRuntimeComponent_Scopes e = DevBaselineComponent_Scopes c.
Lemma expected_components plan cs : forall acc out, foldM (expected_component plan) acc cs = Ok out ->
  exists l, out = acc ++ l /\ Forall2 original_of cs l.
Proof.
  induction cs as [|c cs IH]; intros acc out HF; cbn in HF.
  - inv_res. exists []. rewrite app_nil_r. split; [reflexivity|constructor].
  - destruct (expected_component plan acc c) as [acc'|] eqn:E; cbn in HF; [|discriminate].
    destruct (IH _ _ HF) as (l & -> & Hl). unfold expected_component in E. step_guards E. injection E as <-.
    rewrite <- app_assoc. eexists. split; [reflexivity|]. constructor; [repeat split|exact Hl].
Qed.
Lemma runtime_expected recovery input generation p r : ExternalOperation_DevRestoration recovery = Some r ->
  RestorationRuntimeExpected recovery input generation = Ok p ->
  Forall2 original_of (DevRestorationProof_Components r) (DevRuntimeProof_Components p).
Proof.
  unfold RestorationRuntimeExpected. intros ->. destruct (plan_of recovery); [|discriminate]. intros Hp. step_guards Hp. injection Hp as <-.
  match goal with Hf : foldM (expected_component _) _ _ = Ok _ |- _ => apply expected_components in Hf as (l & -> & Hl) end. exact Hl.
Qed.

(** An original image that is back: every role of the component runs it. *)
Definition BackInPlace (result : DevRuntimeResult) (now : Time) (c : DevBaselineComponent) : Prop :=
  exists cr, cr ∈ DevRuntimeResult_Components result
    /\ DevRuntimeComponentResult_ApplicationID cr = DevBaselineComponent_ApplicationID c
    /\ forall scope, scope ∈ DevBaselineComponent_Scopes c -> exists role, role ∈ DevRuntimeComponentResult_Roles cr
      /\ RunsExactly (DevBaselineComponent_ImageRepository c) (DevBaselineComponent_Digest c) scope role now.
Lemma expected_back recovery receipt v result r finished : ExternalOperation_DevRestoration recovery = Some r ->
  ExternalOperation_FinishedAt receipt = Some finished -> expected_runtime recovery receipt v result = true ->
  forall c, c ∈ DevRestorationProof_Components r -> BackInPlace result finished c.
Proof.
  intros Hr Hf. unfold expected_runtime. rewrite Hf. destruct (RestorationRuntimeExpected _ _ _) as [p|] eqn:E; [|discriminate].
  intros Hv c Hc. to_prop. subst p. apply (runtime_expected _ _ _ _ r Hr) in E.
  destruct (ValidateDevRuntimeResultAt _ _ _) as [[]|] eqn:V; [|discriminate].
  apply list_elem_of_lookup in Hc as [i Hi].
  destruct (Forall2_lookup_l _ _ _ _ _ E Hi) as (e & He & Ea & Er & Ed & Es).
  destruct (result_covers _ _ _ _ _ V He) as (cr & Hcr & Eapp & Hlen). exists cr.
  split; [eapply list_elem_of_lookup_2, Hcr|]. split; [congruence|]. intros scope Hs. rewrite <- Es in Hs.
  apply list_elem_of_lookup in Hs as [j Hj]. destruct (lookup_lt_is_Some_2 (DevRuntimeComponentResult_Roles cr) j) as [role Hrole].
  { rewrite Hlen. eapply lookup_lt_Some, Hj. }
  exists role. split; [eapply list_elem_of_lookup_2, Hrole|]. rewrite <- Er, <- Ed. eapply result_runs; eassumption.
Qed.

(** What the baseline capture recorded, up to the registry job that reads it. *)
Definition CapturedUnder (st : State) (hold : ExternalOperation) (c : DevBaselineComponent) : Prop :=
  exists capture baseline c', capture ∈ State_Operations st /\ ExternalOperation_DevBaseline capture = Some baseline
    /\ ExternalOperation_ParentID capture = ID hold /\ ExternalOperation_Phase capture = "BASELINE_CAPTURED"
    /\ c' ∈ DevBaselineProof_Components baseline /\ without_registry c' = without_registry c.
Lemma same_originals a b c : sameRestorationOriginalComponents a b = true -> c ∈ a ->
  exists c', c' ∈ b /\ without_registry c' = without_registry c.
Proof.
  unfold sameRestorationOriginalComponents. intros Hs Hc. to_prop.
  match goal with Hl : (_ =? _)%nat = true |- _ => apply Nat.eqb_eq in Hl; rename Hl into Hlen end.
  match goal with Hf : forallb _ _ = true |- _ => rewrite forallb_elem in Hf; rename Hf into Hall end.
  apply list_elem_of_lookup in Hc as [i Hi]. destruct (lookup_lt_is_Some_2 b i) as [c' Hc']; [rewrite <- Hlen; eapply lookup_lt_Some, Hi|].
  exists c'. split; [eapply list_elem_of_lookup_2, Hc'|]. symmetry.
  specialize (Hall (c, c')). cbn in Hall. apply bool_decide_eq_true in Hall; [exact Hall|].
  apply list_elem_of_lookup. exists i. apply lookup_zip_Some. auto.
Qed.
Lemma baseline_captured st hold r c : captured_baseline st hold r = true -> c ∈ DevRestorationProof_Components r -> CapturedUnder st hold c.
Proof.
  unfold captured_baseline, only. destruct (List.filter _ _) as [|capture [|]] eqn:F; try discriminate.
  destruct (ExternalOperation_DevBaseline capture) as [baseline|] eqn:Eb; [|discriminate].
  destruct (ExternalOperation_DevBaselineResult capture); [|discriminate]. intros Hb Hc. to_prop.
  match goal with Hs : sameRestorationOriginalComponents _ _ = true |- _ => destruct (same_originals _ _ c Hs Hc) as (c' & Hc' & E) end.
  assert (Hin : capture ∈ State_Operations st) by (eapply proj1, elem_of_filter_list; rewrite F; left).
  exists capture, baseline, c'. repeat split; auto.
Qed.

(** ** The original images are still there *)
(** Something was observed after the verification was requested and at most
    five minutes before [now]. *)
Definition observed_lately (op : ExternalOperation) (at_ now : Time) : Prop :=
  (CreatedAt op <= at_ <= now /\ now <= at_ + 5 * minute)%Z.
(** The artifact of a component was found in its registry, and its record is
    the one the baseline names. *)
Record ArtifactFound (st : State) (op : ExternalOperation) (c : DevBaselineComponent) (a : ArtifactResult)
    (artifact : DeliveryArtifact) (now : Time) : Prop := {
  found_available : ArtifactResult_Available a = true;
  found_digest : ArtifactResult_Digest a = DevBaselineComponent_Digest c;
  found_lately : observed_lately op (ArtifactResult_ObservedAt a) now;
  found_record : artifact ∈ State_DeliveryArtifacts st /\ ID artifact = DevBaselineComponent_ArtifactID c;
  found_owner : ProductID artifact = ProductID op
    /\ DeliveryArtifact_ApplicationID artifact = DevBaselineComponent_ApplicationID c
    /\ DeliveryArtifact_RepositoryID artifact = DevBaselineComponent_RepositoryID c;
  found_image : DeliveryArtifact_ImageRepository artifact = DevBaselineComponent_ImageRepository c
    /\ DeliveryArtifact_Digest artifact = DevBaselineComponent_Digest c;
  found_unchanged : Fingerprint artifact = DevBaselineComponent_ArtifactHash c;
}.
(** The content of an image was observed by a job queued for the verification:
    the report of the job yields a content proof for the image. *)
Record ImageObserved (st : State) (op : ExternalOperation) (c : DevBaselineComponent) (receipt : DevBaselineRegistryReceipt)
    (job : WorkerJob) (inventory : RegistryInventory) (now : Time) : Prop := {
  observed_when : observed_lately op (DevBaselineRegistryReceipt_ObservedAt receipt) now
    /\ WorkerRegistryReport_FinishedAt (RegistryInventory_Report inventory) = DevBaselineRegistryReceipt_ObservedAt receipt;
  observed_job : job ∈ State_WorkerJobs st /\ ID job = DevBaselineComponent_RegistryJobID c
    /\ WorkerJob_Status job = "SUCCEEDED" /\ WorkerJob_CancellationRequested job = false /\ ProductID job = ProductID op;
  observed_report : inventory ∈ State_RegistryInventories st /\ RegistryInventory_JobID inventory = ID job
    /\ RegistryInventory_Fence inventory = WorkerJob_Fence job /\ RegistryInventory_Inputs inventory = WorkerJob_Inputs job
    /\ RegistryInventoryFreshness inventory now = "FRESH";
  observed_proof : exists p, WorkerInputs_Registry (WorkerJob_Inputs job) = Some p
    /\ RegistryScope_ImageRepository (WorkerRegistryInputs_Scope p) = DevBaselineComponent_ImageRepository c
    /\ RegistryImageContentProofHash (WorkerRegistryReport_Graph (RegistryInventory_Report inventory)) (WorkerRegistryInputs_Limits p)
         (WorkerRegistryInputs_Roots p) (DevBaselineComponent_Digest c) = Ok (DevBaselineRegistryReceipt_ContentProofHash receipt);
}.
(** A component is available by the evidence of one of the results. *)
Definition StillAvailable (st : State) (op : ExternalOperation) (c : DevBaselineComponent) (results : list DevBaselineComponentResult)
    (now : Time) : Prop :=
  exists result, result ∈ results /\ DevBaselineComponentResult_ApplicationID result = DevBaselineComponent_ApplicationID c
    /\ DevBaselineComponentResult_Digest result = DevBaselineComponent_Digest c
    /\ ((DevBaselineComponent_ArtifactID c <> "" /\ exists a artifact, DevBaselineComponentResult_Availability result = Some a
           /\ ArtifactFound st op c a artifact now)
        \/ (DevBaselineComponent_ArtifactID c = "" /\ exists receipt job inventory,
           DevBaselineComponentResult_Registry result = Some receipt /\ ImageObserved st op c receipt job inventory now)).
Lemma only_Some {A} `{HasMeta A} id (l : list A) x : only id l = Some x -> x ∈ l /\ ID x = id.
Proof.
  unfold only. destruct (List.filter _ _) as [|y [|]] eqn:F; try discriminate. intros [= ->].
  assert (Hin : x ∈ List.filter (has_id id) l) by (rewrite F; left). apply elem_of_filter_list in Hin as [Hin Hid].
  split; [exact Hin|apply has_id_true, Hid].
Qed.
Lemma lately op at_ now : Before at_ (CreatedAt op) = false -> After at_ now = false -> (now - at_ <=? 5 * minute)%Z = true ->
  observed_lately op at_ now.
Proof. unfold Before, After, observed_lately. lia. Qed.
Lemma artifact_found st op c result now : available_artifact st op c result now = true ->
  exists a artifact, DevBaselineComponentResult_Availability result = Some a /\ ArtifactFound st op c a artifact now.
Proof.
  unfold available_artifact. destruct (DevBaselineComponentResult_Availability result) as [a|]; [|discriminate]. intros Ha.
  apply andb_true_iff in Ha as [[Ha Hone]%andb_true_iff Hall].
  destruct (List.filter _ _) as [|artifact [|]] eqn:F; try discriminate Hone. rewrite forallb_elem in Hall.
  assert (Hin : artifact ∈ List.filter (has_id (DevBaselineComponent_ArtifactID c)) (State_DeliveryArtifacts st)) by (rewrite F; left).
  apply elem_of_filter_list in Hin as [Hin Hid%has_id_true].
  specialize (Hall artifact (list_elem_of_here _ _)). repeat apply andb_true_iff in Ha as [Ha ?].
  exists a, artifact. split; [reflexivity|]. to_prop. split; auto. apply lately; assumption.
Qed.
Lemma image_observed st op c result now id : available_image st op c result now = Some id ->
  exists receipt job inventory, DevBaselineComponentResult_Registry result = Some receipt /\ ImageObserved st op c receipt job inventory now.
Proof.
  unfold available_image. destruct (DevBaselineComponentResult_Availability result); [discriminate|].
  destruct (DevBaselineComponentResult_Registry result) as [receipt|]; [|discriminate].
  destruct (observed_receipt _ _ _ _) eqn:Er; cbn [negb]; [|discriminate].
  destruct (only _ (State_WorkerJobs st)) as [job|] eqn:Ej; [|discriminate]. apply only_Some in Ej as [Hj Ej].
  destruct (WorkerInputs_Registry (WorkerJob_Inputs job)) as [p|] eqn:Ep; [|discriminate].
  destruct (only _ (State_Operations st)) as [child|]; [|discriminate].
  destruct (only _ (State_RegistryInventories st)) as [inventory|] eqn:Ei; [|discriminate]. apply only_Some in Ei as [Hi _].
  destruct (only _ (State_WorkerAttempts st)) as [attempt|]; [|discriminate].
  destruct (_ && _)%bool eqn:Hall; [|discriminate]. intros _. exists receipt, job, inventory. split; [reflexivity|].
  unfold observed_receipt, observing_job, observed_inventory, received_content in *.
  destruct (metadata_of _ _) as [closure blockers]. apply andb_true_iff in Hall as [Hall Hc].
  destruct (RegistryImageContentProofHash _ _ _ _) as [hash|] eqn:Eh; [|discriminate Hc].
  repeat apply andb_true_iff in Er as [Er ?]. to_prop.
  split; [split; [apply lately; assumption|assumption]| | |exists p]; split_and!; congruence.
Qed.
Lemma fold_option_elem {A B} (f : B -> A -> option B) l : forall b b', fold_option f b l = Some b' ->
  forall x, x ∈ l -> exists b1 b2, f b1 x = Some b2.
Proof.
  induction l as [|y l IH]; intros b b' F x Hx; [inversion Hx|]. cbn in F. destruct (f b y) as [b1|] eqn:E; [|discriminate].
  apply elem_of_cons in Hx as [->|Hx]; eauto.
Qed.
Lemma evidence_available st op cs results now : validRestorationAvailabilityEvidence st op cs results now = true ->
  forall c, c ∈ cs -> StillAvailable st op c results now.
Proof.
  unfold validRestorationAvailabilityEvidence. intros Hv c Hc. apply andb_true_iff in Hv as [[_ Hlen%Nat.eqb_eq]%andb_true_iff Hv].
  destruct (fold_option _ _ _) as [children|] eqn:F; [|discriminate Hv].
  apply list_elem_of_lookup in Hc as [i Hi]. destruct (lookup_lt_is_Some_2 results i) as [result Hresult]; [rewrite <- Hlen; eapply lookup_lt_Some, Hi|].
  destruct (fold_option_elem _ _ _ _ F (c, result)) as (b1 & b2 & Hone).
  { apply list_elem_of_lookup. exists i. apply lookup_zip_Some. auto. }
  unfold check_available, matching_result in Hone. cbn [fst snd] in Hone. destruct (negb _) eqn:Em in Hone; [discriminate|]. to_prop.
  exists result. split; [eapply list_elem_of_lookup_2, Hresult|]. split; [assumption|]. split; [assumption|].
  destruct (DevBaselineComponent_ArtifactID c != "") eqn:Ea; to_prop.
  - left. split; [assumption|]. destruct (available_artifact _ _ _ _ _) eqn:E; [|discriminate]. eapply artifact_found, E.
  - right. split; [assumption|]. destruct (available_image _ _ _ _ _) as [id|] eqn:E; [|discriminate]. eapply image_observed, E.
Qed.
(** The verification and the release name the original images, each with its
    own observation of the registry. *)
Definition AvailableOriginal (st : State) (op : ExternalOperation) (c : DevBaselineComponent) (results : list DevBaselineComponentResult)
    (now : Time) : Prop :=
  exists c', without_registry c' = without_registry c /\ StillAvailable st op c' results now.
Lemma available_original st op r v results now c : sameRestorationOriginalComponents r v = true ->
  validRestorationAvailabilityEvidence st op v results now = true -> c ∈ r -> AvailableOriginal st op c results now.
Proof.
  intros Hs Hv Hc. destruct (same_originals _ _ _ Hs Hc) as (c' & Hc' & E). exists c'. split; [exact E|].
  eapply evidence_available; eassumption.
Qed.
Lemma find_unique_In st id o : find_unique st id = Some o -> o ∈ State_Operations st.
Proof.
  unfold find_unique. destruct (List.filter _ _) as [|o' [|]] eqn:F; try discriminate. intros [= ->].
  eapply proj1, elem_of_filter_list. rewrite F. left.
Qed.

(** C29 An environment is released from a restored reservation only when the
    restoration happened: there is a recovery under that reservation whose
    components are those the baseline capture recorded under it, and for each
    of them every configured role was observed healthy, all its pods ready and
    running exactly the original image, at most five minutes before the
    release was finished.  And the original images can still be pulled: twice,
    when the runtime was verified and when the release was finished, each
    artifact had been found in its registry, or the content of the image had
    been proven complete, at most five minutes before. *)
Theorem release_restores_originals st receipt hold : ValidRestorationRelease st receipt hold = true ->
  exists recovery r verification v result release finished,
    recovery ∈ State_Operations st /\ ExternalOperation_ParentID recovery = ID hold
    /\ ExternalOperation_DevRestoration recovery = Some r /\ ExternalOperation_FinishedAt receipt = Some finished
    /\ (verification ∈ State_Operations st /\ ExternalOperation_DevRestorationVerification verification = Some v
        /\ ExternalOperation_DevRuntimeResult verification = Some result /\ ExternalOperation_DevRestorationRelease receipt = Some release)
    /\ DevRestorationProof_Components r <> []
    /\ forall c, c ∈ DevRestorationProof_Components r -> CapturedUnder st hold c /\ BackInPlace result finished c
       /\ AvailableOriginal st verification c (DevRestorationVerification_Availability v) (DevRuntimeResult_ObservedAt result)
       /\ AvailableOriginal st verification c (DevRestorationRelease_Availability release) finished.
Proof.
  unfold ValidRestorationRelease. destruct (nativeQuarantined _ _); [discriminate|].
  destruct (ExternalOperation_DevRestorationRelease receipt) as [p|] eqn:Ep; [|discriminate].
  destruct (negb (release_receipt receipt hold p && release_tokens receipt p)); [discriminate|].
  destruct (find_unique st (DevRestorationRequest_RestorationOperationID _)) as [recovery|] eqn:Erec; [|discriminate].
  destruct (find_unique st (DevRestorationRelease_ConfirmationID p)) as [confirmation|]; [|discriminate].
  destruct (find_unique st (DevRestorationRequest_RestorationVerificationOperationID _)) as [verification|] eqn:Ever; [|discriminate].
  destruct (ExternalOperation_DevRestoration recovery) as [r|] eqn:Er; [|discriminate].
  destruct (ExternalOperation_DevRestorationPlan recovery) as [plan|] eqn:Eplan; [|discriminate].
  destruct (ExternalOperation_DevRestorationConfirmation confirmation) as [c|] eqn:Ec; [|discriminate].
  destruct (ExternalOperation_DevRestorationVerification verification) as [v|] eqn:Ev; [|discriminate].
  destruct (ExternalOperation_DevRuntimeResult verification) as [result|] eqn:Eres; [|discriminate].
  intros Hv. apply andb_true_iff in Hv as [Hv Hs]. to_prop.
  match goal with Hrec : release_recovery _ _ _ _ _ _ = true |- _ => unfold release_recovery in Hrec; to_prop end.
  cbn [validRestorationSuccessorEvidence restoration_evidence] in Hs. unfold successor_evidence, plan_of in Hs.
  rewrite Er, Ec, Ev, Ep, Eplan, Eres in Hs.
  destruct (ExternalOperation_DevReservation hold); [|discriminate].
  destruct (ExternalOperation_FinishedAt receipt) as [finished|] eqn:Ef; [|discriminate]. to_prop.
  exists recovery, r, verification, v, result, p, finished. apply find_unique_In in Erec, Ever.
  repeat split; auto.
  - intros E. match goal with Ha : sameRestorationOriginalComponents _ _ = true |- _ => unfold sameRestorationOriginalComponents in Ha;
      rewrite (bool_decide_eq_true_2 _ E) in Ha; discriminate Ha end.
  - eapply baseline_captured; eassumption.
  - eapply expected_back; eassumption.
  - eapply available_original; eassumption.
  - eapply available_original; eassumption.
Qed.
End properties.
