(* ===== verification/Checks.v ===== *)
(** * Check publications

    [internal/application/checks.go]: the GitHub check run that publishes the
    progress of a worker job.  A check operation alternates between a durable
    intent, written before the provider is called, and the observation of its
    outcome: after an uncertain write it only reads. *)
From S2P Require Import Prelude GoText GoJson Delivery Domain Status Planning Handlers Collections DeviceAuth Reservation WorkerAuth Pins WorkerJobs.
Open Scope string_scope.
Open Scope list_scope.

Definition checkObservationBudget : Z := 64.
(** [^[A-Za-z0-9_.-]+/[A-Za-z0-9_.-]+$] *)
Definition repositoryName (s : string) : bool :=
  match split_on slash s with
  | [owner; name] => (owner != "") && (name != "") && str_all (ident_char "_.-") owner && str_all (ident_char "_.-") name
  | _ => false
  end.

Section checks.
Context `{Runtime, NetURL, URLs, Hashing, World, WorkerPolicy} (w : Authority).
(** [s.provider.(delivery.CheckRunProvider)] succeeds. *)
Context (check_provider : bool).

(** ** The physical repository of a check *)
Definition join_host_port (host port : string) : string :=
  if str_contains ":" host then "[" +:+ host +:+ "]:" +:+ port else host +:+ ":" +:+ port.
Definition checkAPIIdentity (raw : string) : res string :=
  let raw := if raw == "" then "https://api.github.com" else raw in
  match url_parse raw with
  | None => invalid "invalid check provider API identity" []
  | Some u =>
    _ ← reject_if ((URL_Hostname u == "") || URL_User u || (URL_RawQuery u != "") || (URL_Fragment u != "")
                   || ((URL_Scheme u != "https") && (URL_Scheme u != "http")))
          (invalid "invalid check provider API identity" []);
    let host := to_lower (URL_Hostname u) in
    let port := if ((URL_Port u == "443") && (URL_Scheme u == "https")) || ((URL_Port u == "80") && (URL_Scheme u == "http"))
                then "" else URL_Port u in
    let host := if port != "" then join_host_port host port
                else if str_contains ":" host then "[" +:+ host +:+ "]" else host in
    Ok (url_string (mkURL (URL_Scheme u) host (URL_Hostname u) (URL_Port u) (URL_User u)
          (trim_right_char slash (URL_Path u)) "" (URL_RawQuery u) (URL_Fragment u) (URL_Opaque u) (URL_ForceQuery u)))
  end.
Definition checkAPISame (a b : string) : bool :=
  match checkAPIIdentity a, checkAPIIdentity b with Ok x, Ok y => x == y | _, _ => false end.
Definition checkRegisteredConnection (r : RegisteredRepository) (connectionID : string) : bool :=
  (RegisteredRepository_ConnectionID r == connectionID) || contains (RegisteredRepository_ConnectionIDs r) connectionID.
Definition registered_source (source : RepositoryBinding) (conn : GitHubConnection) (registered : RegisteredRepository) : bool :=
  (0 <? RegisteredRepository_ProviderRepositoryID registered)%Z
  && equal_fold (RegisteredRepository_FullName registered) (RepositoryBinding_FullName source)
  && checkAPISame (RegisteredRepository_ProviderAPIURL registered) (Connection_APIURL (GitHubConnection_Config conn))
  && checkRegisteredConnection registered (RepositoryBinding_ConnectionID source).
Definition registered_of (st : State) (repo : Repository) : list RegisteredRepository :=
  List.filter (fun r => ID r == Repository_RegisteredRepositoryID repo) (State_RegisteredRepositories st).
Definition checkPhysical (st : State) (product repository : string) : res (RepositoryBinding * GitHubConnection * Z) :=
  match repositoryBinding st repository with
  | None => invalid "check source repository binding unavailable" []
  | Some source =>
    _ ← reject_if ((ProductID source != product) || (RepositoryBinding_Role source != "APPLICATION")
                   || negb (repositoryName (RepositoryBinding_FullName source)))
          (invalid "check source repository binding unavailable" []);
    conn ← scopedConnection st (RepositoryBinding_ConnectionID source) product;
    let repos := List.filter (fun repo => (ID repo == repository) && (ProductID repo == product)) (State_Repositories st) in
    match find_first (registered_source source conn) (concat (map (registered_of st) repos)) with
    | Some registered => Ok (source, conn, RegisteredRepository_ProviderRepositoryID registered)
    | None => invalid "check requires registered physical repository identity" []
    end
  end.
(** The number the last matching registration gives a recipe's repository. *)
Definition recipe_number (st : State) (r : Recipe) (api : string) : Z :=
  let repos := List.filter (fun repo => (ID repo == Recipe_RepositoryID r) && (ProductID repo == Recipe_ProductID r)) (State_Repositories st) in
  match find_last (fun g => checkAPISame (RegisteredRepository_ProviderAPIURL g) api) (concat (map (registered_of st) repos)) with
  | Some g => RegisteredRepository_ProviderRepositoryID g
  | None => 0%Z
  end.
Definition check_owned (st : State) (j : WorkerJob) (check : WorkerCheckBinding) (source : RepositoryBinding)
    (conn : Connection) (physical : Z) (r : Recipe) : bool :=
  match Recipe_Check r with
  | None => false
  | Some rc =>
    if (Recipe_ID r == WorkerInputs_RecipeID (WorkerJob_Inputs j)) && (Recipe_ProductID r == ProductID j) then false
    else if (WorkerCheckBinding_Name rc != WorkerCheckBinding_Name check)
            || (WorkerCheckBinding_ExpectedAppID rc != WorkerCheckBinding_ExpectedAppID check) then false
    else match repositoryBinding st (Recipe_RepositoryID r) with
    | None => false
    | Some other =>
      match connection st (RepositoryBinding_ConnectionID other) with
      | None => false
      | Some oc =>
        if negb (checkAPISame (Connection_APIURL (GitHubConnection_Config oc)) (Connection_APIURL conn)) then false
        else (recipe_number st r (Connection_APIURL conn) == physical)
             || equal_fold (RepositoryBinding_FullName other) (RepositoryBinding_FullName source)
      end
    end
  end.
Definition checkOwnership (st : State) (j : WorkerJob) (check : WorkerCheckBinding) (source : RepositoryBinding)
    (conn : Connection) (physical : Z) : res unit :=
  reject_if (existsb (check_owned st j check source conn physical) (WorkerConfig_Recipes (Authority_config w)))
    (invalid "physical repository check name owned by another configured recipe" []).

(** ** Queueing a check *)
Definition run_identity (source : RepositoryBinding) (conn : Connection) (physical : Z) (j : WorkerJob)
    (check : WorkerCheckBinding) (id : string) : CheckRunIdentity :=
  mkCheckRunIdentity physical (RepositoryBinding_FullName source) (WorkerInputs_SourceSHA (WorkerJob_Inputs j))
    (WorkerCheckBinding_Name check) ("rcp:" +:+ id) (Connection_AppID conn).
Definition queued_check (j : WorkerJob) (check : WorkerCheckBinding) (source : RepositoryBinding) (conn : Connection)
    (physical : Z) (requestedBy : string) (m : Meta) (now : Time) (parentID : string) : ExternalOperation :=
  let cp := (zero : CheckPublication) <| CheckPublication_JobID := ID j |>
    <| CheckPublication_WorkerOperationID := WorkerJob_OperationID j |> <| CheckPublication_Inputs := WorkerJob_Inputs j |>
    <| CheckPublication_InputHash := WorkerJob_InputHash j |> <| CheckPublication_Source := source |>
    <| CheckPublication_Connection := conn |> <| CheckPublication_ProviderRepositoryID := physical |>
    <| CheckPublication_Identity := run_identity source conn physical j check (Meta_ID m) |>
    <| CheckPublication_FinalizeDeadline := (WorkerJob_Deadline j + WorkerCheckBinding_FinalizeSeconds check * second)%Z |> in
  (zero : ExternalOperation) <| ExternalOperation_Meta := m |> <| ExternalOperation_Kind := "CHECK_PUBLICATION" |>
    <| ExternalOperation_ParentID := parentID |> <| ExternalOperation_IntegrationID := WorkerJob_IntegrationID j |>
    <| ExternalOperation_RepositoryID := WorkerInputs_RepositoryID (WorkerJob_Inputs j) |>
    <| ExternalOperation_RequestedBy := requestedBy |> <| ExternalOperation_Status := "PENDING" |>
    <| ExternalOperation_Phase := "CHECK_CREATE_READY" |> <| ExternalOperation_CurrentStep := "CHECK_CREATE_READY" |>
    <| ExternalOperation_CheckPublication := Some cp |> <| ExternalOperation_NextAttemptAt := now |>.
Definition queueWorkerCheck (st : State) (jobID : string) : res State :=
  match job_index st jobID with
  | None => invalid "check worker job missing" []
  | Some i =>
    match job_at st i with
    | None => invalid "check worker job missing" []
    | Some j =>
      match WorkerInputs_Check (WorkerJob_Inputs j) with
      | None => Ok st
      | Some check =>
        _ ← reject_if (negb check_provider) (invalid "check publication provider unavailable" []);
        '(source, conn, physical) ← checkPhysical st (ProductID j) (WorkerInputs_RepositoryID (WorkerJob_Inputs j));
        let config := GitHubConnection_Config conn in
        _ ← reject_if (Connection_AppID config != WorkerCheckBinding_ExpectedAppID check)
              (invalid "check GitHub App identity mismatch" []);
        _ ← checkOwnership st j check source config physical;
        _ ← reject_if match WorkerInputs_SourceProof (WorkerJob_Inputs j) with
                      | None => false
                      | Some proof =>
                        match operationByID st (WorkerSourceProof_DeliveryID proof) with
                        | Some origin => match ExternalOperation_Snapshot origin with
                                         | Some snap => (DeliverySnapshot_Source snap != source) || (DeliverySnapshot_SourceConnection snap != config)
                                         | None => true
                                         end
                        | None => true
                        end
                      end (invalid "check native source authority mismatch" []);
        match operationByID st (WorkerJob_OperationID j) with
        | None => invalid "check worker operation missing" []
        | Some parent =>
          _ ← reject_if ((ExternalOperation_Kind parent != WorkerOperationKind) || (ProductID parent != ProductID j))
                (invalid "check worker operation missing" []);
          let t := now "queueWorkerCheck" 0 in
          let m := mkMeta (fresh "queueWorkerCheck" 0) (ProductID j) (FeatureID j) "system/check-publication" t t in
          let child := queued_check j check source config physical (ExternalOperation_RequestedBy parent) m t (ID parent) in
          let st := set_job i (j <| WorkerJob_CheckOperationID := ID child |>) st in
          let st := st <| State_Operations ::= update_first (has_id (WorkerJob_OperationID j))
                           (fun p => p <| ExternalOperation_ChildIDs ::= fun l => l ++ [ID child] |>) |> in
          Ok (st <| State_Operations ::= fun l => l ++ [child] |>)
        end
      end
    end
  end.

(** ** What the provider shows and what it should show *)
Definition checkObservationMatches (o : CheckRunObservation) (v : CheckRunWrite) : bool :=
  CheckRunObservation_Found o && (0 <? CheckRunObservation_ID o)%Z
  && ((CheckRunWrite_ID v == 0%Z) || (CheckRunObservation_ID o == CheckRunWrite_ID v))
  && (CheckRunObservation_Identity o == CheckRunWrite_Identity v) && (CheckRunObservation_Status o == CheckRunWrite_Status v)
  && (CheckRunObservation_Conclusion o == CheckRunWrite_Conclusion v) && (CheckRunObservation_StartedAt o == CheckRunWrite_StartedAt v)
  && (CheckRunObservation_CompletedAt o == CheckRunWrite_CompletedAt v) && (CheckRunObservation_Output o == CheckRunWrite_Output v).
Definition checkInitialReady (st : State) (j : WorkerJob) : bool :=
  match WorkerInputs_Check (WorkerJob_Inputs j) with
  | None => true
  | Some _ =>
    match operationByID st (WorkerJob_CheckOperationID j) with
    | None => false
    | Some op =>
      (ExternalOperation_Kind op == "CHECK_PUBLICATION") && (ExternalOperation_Status op != "FAILED")
      && (ExternalOperation_Status op != "CANCELLED")
      && match ExternalOperation_CheckPublication op with
         | None => false
         | Some cp =>
           (CheckPublication_JobID cp == ID j)
           && match CheckPublication_Observed cp with
              | None => false
              | Some o =>
                CheckRunObservation_Found o
                && ((CheckRunObservation_Status o == "queued") || (CheckRunObservation_Status o == "in_progress"))
                && (CheckRunObservation_Identity o == CheckPublication_Identity cp)
              end
         end
    end
  end.
Definition workerCheckSucceeded (st : State) (j : option WorkerJob) : bool :=
  match j with
  | None => false
  | Some j =>
    match WorkerInputs_Check (WorkerJob_Inputs j) with
    | None => true
    | Some _ =>
      match operationByID st (WorkerJob_CheckOperationID j) with
      | None => false
      | Some op =>
        (ExternalOperation_Status op == "SUCCEEDED")
        && match ExternalOperation_CheckPublication op with
           | None => false
           | Some cp =>
             (CheckPublication_JobID cp == ID j)
             && match CheckPublication_Intent cp, CheckPublication_Observed cp with
                | Some v, Some o =>
                  (CheckRunObservation_Status o == "completed") && (CheckRunObservation_Conclusion o == "success")
                  && checkObservationMatches o v
                | _, _ => false
                end
           end
      end
    end
  end.

(** ** The authority of a check *)
Definition captured_source (j : WorkerJob) (r : IntegrationRevision) : bool :=
  (ID r == WorkerInputs_RevisionID (WorkerJob_Inputs j)) && (ProductID r == ProductID j)
  && (IntegrationRevision_IntegrationID r == WorkerJob_IntegrationID j)
  && (IntegrationRevision_RepositoryID r == WorkerInputs_RepositoryID (WorkerJob_Inputs j))
  && (IntegrationRevision_HeadCommit r == WorkerInputs_SourceSHA (WorkerJob_Inputs j)).
Definition check_changed {A} : res A := invalid "check worker authority changed or quarantined" [].
(** Everything but the last question, which is asked before a success is sent. *)
Definition check_standing (st : State) (op : option ExternalOperation) : res WorkerJob :=
  match op with
  | None => invalid "check publication snapshot missing" []
  | Some op =>
    match ExternalOperation_CheckPublication op with
    | None => invalid "check publication snapshot missing" []
    | Some cp =>
      match workerJob st (CheckPublication_JobID cp) with
      | None => check_changed
      | Some j =>
        match WorkerInputs_Check (WorkerJob_Inputs j) with
        | None => check_changed
        | Some check =>
          _ ← reject_if ((WorkerJob_CheckOperationID j != ID op) || (WorkerJob_OperationID j != CheckPublication_WorkerOperationID cp)
                || (ProductID j != ProductID op) || (WorkerJob_InputHash j != CheckPublication_InputHash cp)
                || (WorkerJob_Inputs j != CheckPublication_Inputs cp) || negb (workerConfigMatches w j)
                || nativeQuarantined st (ProductID j)) check_changed;
          '(source, conn, physical) ← checkPhysical st (ProductID j) (WorkerInputs_RepositoryID (WorkerJob_Inputs j));
          let config := GitHubConnection_Config conn in
          _ ← reject_if ((source != CheckPublication_Source cp) || (config != CheckPublication_Connection cp)
                || (physical != CheckPublication_ProviderRepositoryID cp)
                || (Connection_AppID config != WorkerCheckBinding_ExpectedAppID check))
                (invalid "check source connection authority changed" []);
          _ ← checkOwnership st j check source config physical;
          _ ← match WorkerInputs_SourceProof (WorkerJob_Inputs j) with
              | Some _ => nativeWorkerOrigin st j
              | None => reject_if (negb (existsb (captured_source j) (State_IntegrationRevisions st)))
                          (invalid "check captured revision identity changed" [])
              end;
          Ok j
        end
      end
    end
  end.
Definition checkAuthority (st : State) (op : option ExternalOperation) (success : bool) : res unit :=
  j ← check_standing st op;
  if success && is_some (WorkerInputs_SourceProof (WorkerJob_Inputs j)) then managedWorkerAllowed st j else Ok ().
(** [checkAuthority] with [success] false is [check_standing]. *)
Definition workerCheckGate (st : State) (j : option WorkerJob) : bool :=
  workerCheckSucceeded st j
  && match j with
     | None => false
     | Some j =>
       match WorkerInputs_Check (WorkerJob_Inputs j) with
       | None => true
       | Some _ => is_ok (check_standing st (operationByID st (WorkerJob_CheckOperationID j)))
       end
     end.

(** ** The state a check run should be in *)
Definition lf : string := String (ascii_of_nat 10) EmptyString.
Definition check_summary (job source inputs recipe result : string) : string :=
  "Worker " +:+ job +:+ lf +:+ "Source " +:+ source +:+ lf +:+ "Inputs " +:+ inputs +:+ lf +:+ "Recipe " +:+ recipe
  +:+ lf +:+ "Result " +:+ result.
(** [t.UTC().Truncate(time.Second)] *)
Definition truncate_second (t : Time) : Time := (t - t mod second)%Z.
Definition accepted_receipt (st : State) (j : WorkerJob) : bool :=
  match currentWorkerAttempt st j with
  | None => false
  | Some k =>
    match State_WorkerAttempts st !! k with
    | None => false
    | Some a =>
      match WorkerAttempt_Report a with
      | None => false
      | Some r =>
        (WorkerReport_Result r == "PASSED") && negb (After (Meta_UpdatedAt (WorkerAttempt_Meta a)) (WorkerJob_Deadline j))
        && is_ok (validateWorkerLocalOCI j a r)
      end
    end
  end.
(** A claimed job whose lease and deadline passed before it reported. *)
Definition expired_unreported (st : State) (j : WorkerJob) : bool :=
  match currentWorkerAttempt st j with
  | None => false
  | Some k =>
    match State_WorkerAttempts st !! k with
    | None => false
    | Some a => (WorkerAttempt_Status a == "EXPIRED") && negb (is_some (WorkerAttempt_Report a))
    end
  end.
(** [None] while the job goes on, else the conclusion of the check. *)
Definition job_conclusion (status : string) : option string :=
  if status == "SUCCEEDED" then Some "success" else if status == "FAILED" then Some "failure"
  else if status == "CANCELLED" then Some "cancelled" else if status == "DEADLINE_EXCEEDED" then Some "timed_out" else None.
Definition check_conclusion (st : State) (j : WorkerJob) (now : Time) : option string :=
  let late := negb (Before now (WorkerJob_Deadline j)) in
  let c := job_conclusion (WorkerJob_Status j) in
  let c := if (WorkerJob_Status j == "FAILED") && late && negb (Before (Meta_UpdatedAt (WorkerJob_Meta j)) (WorkerJob_Deadline j))
              && expired_unreported st j then Some "timed_out" else c in
  let c := if late && negb (is_some c) then Some "timed_out" else c in
  let c := if WorkerJob_CancellationRequested j then Some "cancelled" else c in
  if is_some (WorkerInputs_SourceProof (WorkerJob_Inputs j)) && (negb (is_some c) || (c == Some "success"))
     && negb (is_ok (managedWorkerAllowed st j))
  then Some "cancelled" else c.
Definition active_status (status : string) : bool :=
  (status == "CLAIMED") || (status == "RUNNING") || (status == "RECONCILIATION_REQUIRED").
Definition shown_status (j : WorkerJob) (cp : CheckPublication) (conclusion : option string) : string :=
  let s := if active_status (WorkerJob_Status j) then "in_progress" else "queued" in
  let s := match CheckPublication_Observed cp with
           | Some o => if (CheckRunObservation_Status o == "in_progress") && (s == "queued") then "in_progress" else s
           | None => s
           end in
  if is_some conclusion then "completed" else s.
Definition desired_write (j : WorkerJob) (cp : CheckPublication) (conclusion : option string) : CheckRunWrite :=
  let s := shown_status j cp conclusion in
  let c := default "" conclusion in
  let ended := match conclusion with
               | None => 0%Z
               | Some c => truncate_second (if c == "timed_out" then WorkerJob_Deadline j else Meta_UpdatedAt (WorkerJob_Meta j))
               end in
  let started := if s != "queued" then truncate_second (Meta_CreatedAt (WorkerJob_Meta j)) else 0%Z in
  mkCheckRunWrite (CheckPublication_Identity cp)
    match CheckPublication_Observed cp with Some o => CheckRunObservation_ID o | None => 0%Z end s c started ended
    (mkCheckRunOutput ("RCP checks/build: " +:+ (if c != "" then c else s))
       (check_summary (ID j) (WorkerInputs_SourceSHA (WorkerJob_Inputs j)) (WorkerJob_InputHash j)
          (WorkerInputs_RecipeHash (WorkerJob_Inputs j)) (WorkerJob_Status j))).
(** The state after the job's lease is looked at, and what the check should
    show; the caller has found the job. *)
Definition desiredCheck (st : State) (cp : CheckPublication) (now : Time) : res (State * res CheckRunWrite) :=
  match job_index st (CheckPublication_JobID cp) with
  | None => Err ErrPanic
  | Some i =>
    let st := recoverWorker i now st in
    match job_at st i with
    | None => Err ErrPanic
    | Some j =>
      Ok (st, if (WorkerJob_Status j == "SUCCEEDED") && negb (accepted_receipt st j)
              then invalid "check success requires accepted on-time typed build receipt" []
              else Ok (desired_write j cp (check_conclusion st j now)))
    end
  end.

(** ** The two transactions of a tick *)
Inductive CheckCall : Type := CallCreate | CallFind | CallRead | CallUpdate.
#[export] Instance CheckCall_eq_dec : EqDecision CheckCall.
Proof. solve_decision. Defined.

(** An assignment through the pointer [operationByID] returned. *)
Definition set_operation (id : string) (f : ExternalOperation -> ExternalOperation) (st : State) : State :=
  st <| State_Operations ::= update_first (has_id id) f |>.
Definition checkUpdate {A} (opID token : string) (fn : ExternalOperation -> res A) (st : State) : res A :=
  match operationByID st opID with
  | None => invalid "check operation lease lost" []
  | Some current =>
    _ ← reject_if ((ExternalOperation_LeaseOwner current != token)
          || negb (After (ExternalOperation_LeaseUntil current) (now "checkUpdate" 0))) (invalid "check operation lease lost" []);
    fn current
  end.
Definition step_meta (site : string) (at_ : Time) (op : ExternalOperation) : Meta :=
  mkMeta (fresh site 0) (ProductID op) (FeatureID op) "system/check-publication" at_ at_.
Definition checkStep (opID detail : string) (terminal : bool) (st : State) : State :=
  let t := now "checkStep" 0 in
  let st := set_operation opID (fun op =>
    let op := op <| ExternalOperation_Meta ::= fun m => m <| Meta_UpdatedAt := t |> |> <| ExternalOperation_Detail := detail |>
                 <| ExternalOperation_CurrentStep := ExternalOperation_Phase op |>
                 <| ExternalOperation_NextAttemptAt := (t + 2 * second)%Z |>
                 <| ExternalOperation_LeaseOwner := "" |> <| ExternalOperation_LeaseUntil := 0%Z |> in
    if terminal then op <| ExternalOperation_FinishedAt := Some t |> else op) st in
  match operationByID st opID with
  | None => st
  | Some op =>
    st <| State_OperationSteps ::= fun l => l ++
      [mkOperationStep (step_meta "checkStep" t op) (ID op) (ExternalOperation_Phase op) (ExternalOperation_Status op) detail ∅] |>
  end.
Definition run_status (status error : string) (op : ExternalOperation) : ExternalOperation :=
  op <| ExternalOperation_Status := status |> <| ExternalOperation_Error := error |>.
Definition check_fail (opID error detail : string) (st : State) : State :=
  checkStep opID detail true (set_operation opID (run_status "FAILED" error) st).
Definition with_publication (f : CheckPublication -> CheckPublication) (op : ExternalOperation) : ExternalOperation :=
  op <| ExternalOperation_CheckPublication ::= fmap f |>.
(** [p.Intent = &desired; p.IntentHash = Fingerprint(desired)] and the phase that goes with it. *)
Definition store_intent (opID : string) (v : CheckRunWrite) (phase : string) (st : State) : State :=
  set_operation opID (fun op =>
    with_publication (fun p => p <| CheckPublication_Intent := Some v |> <| CheckPublication_IntentHash := Fingerprint v |>) op
      <| ExternalOperation_Phase := phase |>) st.
Definition initial_write (p : CheckPublication) (v : CheckRunWrite) : CheckRunWrite :=
  mkCheckRunWrite (CheckRunWrite_Identity v) 0%Z "queued" "" 0%Z 0%Z
    (mkCheckRunOutput "RCP checks/build: queued"
       (check_summary (CheckPublication_JobID p) (WorkerInputs_SourceSHA (CheckPublication_Inputs p)) (CheckPublication_InputHash p)
          (WorkerInputs_RecipeHash (CheckPublication_Inputs p)) "QUEUED")).
(** The call the phase asks for, or the end of the tick. *)
Definition dispatch_check (opID : string) (p : CheckPublication) (phase : string) (desired : CheckRunWrite) (st : State)
    : State * option CheckCall :=
  if phase == "CHECK_CREATE_READY" then (store_intent opID (initial_write p desired) "CHECK_CREATE_UNCERTAIN" st, Some CallCreate)
  else if phase == "CHECK_CREATE_UNCERTAIN" then (st, Some CallFind)
  else if phase == "CHECK_UPDATE_UNCERTAIN" then (st, Some CallRead)
  else if phase == "CHECK_OBSERVE" then
    match CheckPublication_Observed p with
    | None => (check_fail opID "CHECK_OBSERVATION_MISSING" "CHECK_OBSERVATION_MISSING" st, None)
    | Some o =>
      if CheckRunObservation_Status o == "completed" then
        (check_fail opID "CHECK_TERMINAL_OUTCOME_MISMATCH" "CHECK_TERMINAL_OUTCOME_MISMATCH" st, None)
      else if checkObservationMatches o desired then
        (checkStep opID "Check state observed; waiting for accepted worker result" false
           (set_operation opID (fun op => op <| ExternalOperation_Status := "RUNNING" |>) st), None)
      else (store_intent opID desired "CHECK_UPDATE_UNCERTAIN" st, Some CallUpdate)
    end
  else (check_fail opID "CHECK_PHASE_INVALID" "CHECK_PHASE_INVALID" st, None).
Definition sound_intent (p : CheckPublication) : bool :=
  match CheckPublication_Intent p with
  | None => false
  | Some v => CheckPublication_IntentHash p == Fingerprint v
  end.
(** The call becomes durable before it is made. *)
Definition count_observation (opID : string) (t : Time) (st : State) : State :=
  let st := set_operation opID (fun op =>
    let op := with_publication (fun p => p <| CheckPublication_Observations ::= fun n => wrap_int64 (n + 1) |>) op in
    op <| ExternalOperation_CurrentStep := ExternalOperation_Phase op |>
       <| ExternalOperation_Meta ::= fun m => m <| Meta_UpdatedAt := t |> |>) st in
  match operationByID st opID with
  | None => st
  | Some op =>
    st <| State_OperationSteps ::= fun l => l ++
      [mkOperationStep (step_meta "tickCheck" t op) (ID op) (ExternalOperation_Phase op) "RUNNING"
         "Durable bounded check intent/observation" ∅] |>
  end.
Definition publication_of (st : State) (opID : string) : option CheckPublication :=
  match operationByID st opID with Some op => ExternalOperation_CheckPublication op | None => None end.
Definition check_begin (opID token : string) (st : State) : res (State * option (CheckCall * CheckPublication)) :=
  checkUpdate opID token (fun current =>
    let t := now "tickCheck" 0 in
    let fail reason st := Ok (check_fail opID reason reason st, None) in
    if negb check_provider then
      Ok (check_fail opID "CHECK_PROVIDER_UNAVAILABLE" "Check provider unavailable" st, None)
    else match ExternalOperation_CheckPublication current with
    | None => fail "CHECK_SNAPSHOT_INVALID" st
    | Some p =>
      if negb (Before t (CheckPublication_FinalizeDeadline p)) || (checkObservationBudget <=? CheckPublication_Observations p)%Z
      then fail "CHECK_RECONCILIATION_REQUIRED: finalization deadline or observation budget exhausted" st
      else if negb (is_ok (checkAuthority st (Some current) false)) then fail "CHECK_AUTHORITY_CHANGED" st
      else
        '(st, desired) ← desiredCheck st p t;
        match desired with
        | Err _ => fail "CHECK_RESULT_INVALID" st
        | Ok desired =>
          if (CheckRunWrite_Conclusion desired == "success")
             && negb (is_ok (checkAuthority st (operationByID st opID) true))
          then fail "CHECK_SUCCESS_AUTHORITY_CHANGED" st
          else
            match operationByID st opID with
            | None => Err ErrPanic
            | Some current =>
              let '(st, action) := dispatch_check opID p (ExternalOperation_Phase current) desired st in
              match action with
              | None => Ok (st, None)
              | Some action =>
                match publication_of st opID with
                | None => Err ErrPanic
                | Some p =>
                  if negb (sound_intent p) then fail "CHECK_INTENT_INVALID" st
                  else
                    let st := count_observation opID t st in
                    Ok (st, (fun p => (action, p)) <$> publication_of st opID)
                end
              end
            end
        end
    end) st.
Definition check_uncertain (opID : string) (p : CheckPublication) (st : State) : State :=
  let st := set_operation opID (fun op => op <| ExternalOperation_Status := "RUNNING" |>) st in
  let st := checkStep opID "Check write outcome uncertain; read-only reconciliation pending" false st in
  set_operation opID (fun op => op <| ExternalOperation_NextAttemptAt :=
    (now "tickCheck" 2 + (2 + CheckPublication_Observations p `quot` 4) * second)%Z |>) st.
Definition observe_check (opID : string) (o : CheckRunObservation) (st : State) : State :=
  let done := CheckRunObservation_Status o == "completed" in
  let st := set_operation opID (fun op =>
    with_publication (fun p => p <| CheckPublication_Observed := Some o |>) op
      <| ExternalOperation_Phase := "CHECK_OBSERVE" |>
      <| ExternalOperation_Status := if done then "SUCCEEDED" else "RUNNING" |>) st in
  checkStep opID ("Exact check state observed: " +:+ CheckRunObservation_Status o +:+ " " +:+ CheckRunObservation_Conclusion o) done st.
(** [cp] is the copy the first transaction took; [observed] is [None] when
    the provider call failed. *)
Definition check_finish (opID token : string) (cp : CheckPublication) (observed : option CheckRunObservation) (st : State) : res State :=
  checkUpdate opID token (fun current =>
    match ExternalOperation_CheckPublication current with
    | None => invalid "check intent changed during provider I/O" []
    | Some p =>
      _ ← reject_if ((CheckPublication_IntentHash p != CheckPublication_IntentHash cp)
            || (CheckPublication_Observations p != CheckPublication_Observations cp))
            (invalid "check intent changed during provider I/O" []);
      let fail reason := Ok (check_fail opID reason reason st) in
      match CheckPublication_Intent cp with
      | None => Err ErrPanic
      | Some sent =>
        if negb (is_ok (checkAuthority st (Some current) (CheckRunWrite_Conclusion sent == "success")))
        then fail "CHECK_POST_IO_AUTHORITY_CHANGED"
        else if negb (Before (now "tickCheck" 1) (CheckPublication_FinalizeDeadline p)) then fail "CHECK_FINALIZATION_EXPIRED"
        else match observed with
        | None => Ok (check_uncertain opID p st)
        | Some o =>
          if CheckRunObservation_Found o && (CheckRunObservation_Identity o != CheckPublication_Identity p)
          then fail "CHECK_PROVIDER_IDENTITY_MISMATCH"
          else match CheckPublication_Intent p with
          | None => Err ErrPanic
          | Some intent =>
            if checkObservationMatches o intent then Ok (observe_check opID o st) else Ok (check_uncertain opID p st)
          end
        end
      end
    end) st.
End checks.

(** * Properties *)
(** ** What the transactions leave alone *)
Definition check_view (st : State) (opID : string) : option (string * option CheckPublication) :=
  (fun op => (ExternalOperation_Phase op, ExternalOperation_CheckPublication op)) <$> operationByID st opID.

Definition view_map (phase : string -> string) (f : CheckPublication -> CheckPublication) (w : string * option CheckPublication) :
    string * option CheckPublication := (phase w.1, f <$> w.2).

Lemma operationByID_update id f st : (forall op, ID (f op) = ID op) ->
  operationByID (set_operation id f st) id = f <$> operationByID st id.
Proof.
  intros Hf. unfold operationByID, set_operation; cbn. apply find_first_update_first.
  intros op. rewrite !has_id_true, Hf. auto.
Qed.
Lemma operationByID_other id id' f st : (forall op, ID (f op) = ID op) -> id <> id' ->
  operationByID (st <| State_Operations ::= update_first (has_id id) f |>) id' = operationByID st id'.
Proof.
  intros Hf Hne. unfold operationByID; cbn. apply find_first_update_first_other.
  intros op Hop%has_id_true. unfold has_id. rewrite Hf, Hop. split; apply bool_decide_eq_false; exact Hne.
Qed.
Lemma operationByID_ext st st' id : State_Operations st = State_Operations st' -> operationByID st id = operationByID st' id.
Proof. unfold operationByID. intros ->. reflexivity. Qed.

Section views.
Context `{World}.
Implicit Types (st : State) (opID : string).

Lemma workerAudit_operation i actor action t st opID j : job_at st i = Some j -> WorkerJob_OperationID j <> opID ->
  operationByID (workerAudit i actor action t st) opID = operationByID st opID.
Proof using Type.
  unfold workerAudit. intros -> Hne. rewrite operationByID_other; [reflexivity|apply audited_operation_ID|exact Hne].
Qed.
Lemma recoverWorker_operation i t st opID j : job_at st i = Some j -> WorkerJob_OperationID j <> opID ->
  operationByID (recoverWorker i t st) opID = operationByID st opID.
Proof using Type.
  unfold recoverWorker. intros Hj Hne. rewrite Hj.
  destruct (workerTerminal _ || _); [reflexivity|]. destruct (negb _ || _); [|reflexivity].
  rewrite (workerAudit_operation _ _ _ _ _ _ (j <| WorkerJob_Status := recovered_status j t |>)); [| |exact Hne].
  - apply operationByID_ext. rewrite settle_current_operations. reflexivity.
  - rewrite job_at_settle. eapply job_at_set, Hj.
Qed.
Lemma checkStep_view opID detail b st : check_view (checkStep opID detail b st) opID = check_view st opID.
Proof using Type.
  unfold checkStep. cbv zeta.
  match goal with |- context [set_operation opID ?f st] =>
    assert (Hv : check_view (set_operation opID f st) opID = check_view st opID) end.
  { unfold check_view. rewrite operationByID_update by (intros; destruct b; reflexivity).
    destruct (operationByID st opID); cbn; destruct b; reflexivity. }
  destruct (operationByID (set_operation _ _ _) opID); exact Hv.
Qed.
Lemma check_fail_view opID e d st : check_view (check_fail opID e d st) opID = check_view st opID.
Proof using Type.
  unfold check_fail. rewrite checkStep_view. unfold check_view. rewrite operationByID_update by reflexivity.
  destruct (operationByID st opID); reflexivity.
Qed.
Lemma check_uncertain_view opID p st : check_view (check_uncertain opID p st) opID = check_view st opID.
Proof using Type.
  unfold check_uncertain. cbv zeta.
  assert (Hset : forall f st, (forall op, ID (f op) = ID op) ->
    (forall op, ExternalOperation_Phase (f op) = ExternalOperation_Phase op) ->
    (forall op, ExternalOperation_CheckPublication (f op) = ExternalOperation_CheckPublication op) ->
    check_view (set_operation opID f st) opID = check_view st opID).
  { intros f s H1 H2 H3. unfold check_view. rewrite operationByID_update by exact H1.
    destruct (operationByID s opID); cbn; [rewrite H2, H3|]; reflexivity. }
  rewrite Hset by reflexivity. rewrite checkStep_view. apply Hset; reflexivity.
Qed.
Lemma observe_check_view opID o st : check_view (observe_check opID o st) opID =
  view_map (fun _ => "CHECK_OBSERVE") (fun p => p <| CheckPublication_Observed := Some o |>) <$> check_view st opID.
Proof using Type.
  unfold observe_check. cbv zeta. rewrite checkStep_view. unfold check_view. rewrite operationByID_update by reflexivity.
  destruct (operationByID st opID); reflexivity.
Qed.
Lemma store_intent_view opID `{Hashing} v phase st : check_view (store_intent opID v phase st) opID =
  view_map (fun _ => phase) (fun p => p <| CheckPublication_Intent := Some v |> <| CheckPublication_IntentHash := Fingerprint v |>)
    <$> check_view st opID.
Proof using Type.
  unfold store_intent, check_view. rewrite operationByID_update by reflexivity. destruct (operationByID st opID); reflexivity.
Qed.
Lemma count_observation_view opID t st : check_view (count_observation opID t st) opID =
  view_map id (fun p => p <| CheckPublication_Observations ::= fun n => wrap_int64 (n + 1) |>) <$> check_view st opID.
Proof using Type.
  unfold count_observation. cbv zeta.
  match goal with |- context [set_operation opID ?f st] =>
    assert (Hv : check_view (set_operation opID f st) opID = view_map id (fun p => p <| CheckPublication_Observations ::= fun n => wrap_int64 (n + 1) |>) <$> check_view st opID) end.
  { unfold check_view. rewrite operationByID_update by reflexivity. destruct (operationByID st opID); reflexivity. }
  destruct (operationByID (set_operation _ _ _) opID); exact Hv.
Qed.
Lemma publication_of_view st opID : publication_of st opID = v ← check_view st opID; v.2.
Proof using Type. unfold publication_of, check_view. destruct (operationByID st opID); reflexivity. Qed.
End views.

(** ** One transaction, seen from the check *)
(** The phases each provider call belongs to. *)
Inductive CheckMove : string -> CheckCall -> string -> Prop :=
| move_create : CheckMove "CHECK_CREATE_READY" CallCreate "CHECK_CREATE_UNCERTAIN"
| move_find : CheckMove "CHECK_CREATE_UNCERTAIN" CallFind "CHECK_CREATE_UNCERTAIN"
| move_read : CheckMove "CHECK_UPDATE_UNCERTAIN" CallRead "CHECK_UPDATE_UNCERTAIN"
| move_update : CheckMove "CHECK_OBSERVE" CallUpdate "CHECK_UPDATE_UNCERTAIN".
(** What a transaction keeps of a publication. *)
Record SamePublication (p q : CheckPublication) : Prop := {
  same_worker : CheckPublication_WorkerOperationID q = CheckPublication_WorkerOperationID p;
  same_job : CheckPublication_JobID q = CheckPublication_JobID p;
  same_identity : CheckPublication_Identity q = CheckPublication_Identity p;
}.
Lemma SamePublication_refl p : SamePublication p p.
Proof. constructor; reflexivity. Qed.
#[export] Hint Resolve SamePublication_refl : go.

Section transactions.
Context `{Runtime, NetURL, URLs, Hashing, World, WorkerPolicy} (w : Authority) (check_provider : bool).
Implicit Types (st : State) (opID : string) (p : CheckPublication).

Lemma checkAuthority_job st op b p : checkAuthority w st (Some op) b = Ok () -> ExternalOperation_CheckPublication op = Some p ->
  exists j, workerJob st (CheckPublication_JobID p) = Some j /\ WorkerJob_OperationID j = CheckPublication_WorkerOperationID p
    /\ WorkerJob_CheckOperationID j = ID op.
Proof using Type.
  unfold checkAuthority, check_standing. intros Ha Hp. rewrite Hp in Ha. apply bind_Ok in Ha as (j0 & Ha & _). destruct (workerJob _ _) as [j|]; [|discriminate].
  destruct (WorkerInputs_Check _); [|discriminate]. apply bind_guard in Ha as [G _]; [|discriminate].
  to_prop. exists j. repeat split; assumption.
Qed.
(** Looking at the job does not touch the check. *)
Lemma desiredCheck_view st st' p t r opID j : desiredCheck st p t = Ok (st', r) ->
  workerJob st (CheckPublication_JobID p) = Some j -> WorkerJob_OperationID j <> opID ->
  check_view st' opID = check_view st opID.
Proof using Type.
  unfold desiredCheck. intros Hd (i & Hi & Hj)%job_index_workerJob Hne. rewrite Hi in Hd.
  destruct (job_at (recoverWorker i t st) i); [|discriminate]. injection Hd as <- _.
  unfold check_view. rewrite (recoverWorker_operation _ _ _ _ j) by assumption. reflexivity.
Qed.
Lemma dispatch_check_view opID p ph v st st' a : dispatch_check opID p ph v st = (st', a) ->
  check_view st opID = Some (ph, Some p) ->
  match a with
  | None => check_view st' opID = Some (ph, Some p)
  | Some c => exists ph' q, check_view st' opID = Some (ph', Some q) /\ CheckMove ph c ph' /\ SamePublication p q
      /\ CheckPublication_Observations q = CheckPublication_Observations p
      /\ match c with
         | CallUpdate => CheckPublication_Intent q = Some v /\ sound_intent q = true
         | CallCreate => CheckPublication_Intent q = Some (initial_write p v) /\ sound_intent q = true
         | _ => q = p /\ ph' = ph
         end
  end.
Proof using Type.
  unfold dispatch_check. intros Hd Hv.
  destruct (ph == "CHECK_CREATE_READY") eqn:E1; [|destruct (ph == "CHECK_CREATE_UNCERTAIN") eqn:E2;
    [|destruct (ph == "CHECK_UPDATE_UNCERTAIN") eqn:E3; [|destruct (ph == "CHECK_OBSERVE") eqn:E4]]].
  - to_prop; subst ph. injection Hd as <- <-. do 2 eexists. rewrite store_intent_view, Hv. split; [reflexivity|].
    split; [constructor|]. split; [constructor; reflexivity|]. split; [reflexivity|]. split; [reflexivity|apply bool_decide_eq_true; reflexivity].
  - to_prop; subst ph. injection Hd as <- <-. do 2 eexists. split; [exact Hv|]. split; [constructor|]. auto with go.
  - to_prop; subst ph. injection Hd as <- <-. do 2 eexists. split; [exact Hv|]. split; [constructor|]. auto with go.
  - to_prop; subst ph. destruct (CheckPublication_Observed p) as [o|].
    2:{ injection Hd as <- <-. rewrite check_fail_view. exact Hv. }
    destruct (CheckRunObservation_Status o == "completed"); [injection Hd as <- <-; rewrite check_fail_view; exact Hv|].
    destruct (checkObservationMatches o v).
    + injection Hd as <- <-. rewrite checkStep_view. unfold check_view in *. rewrite operationByID_update by reflexivity.
      destruct (operationByID st opID); [exact Hv|discriminate].
    + injection Hd as <- <-. do 2 eexists. rewrite store_intent_view, Hv. split; [reflexivity|].
      split; [constructor|]. split; [constructor; reflexivity|]. split; [reflexivity|]. split; [reflexivity|apply bool_decide_eq_true; reflexivity].
  - injection Hd as <- <-. rewrite check_fail_view. exact Hv.
Qed.
Definition BeginsFrom (ph : string) (p : CheckPublication) (st' : State) opID (r : option (CheckCall * CheckPublication)) : Prop :=
  match r with
  | None => check_view st' opID = Some (ph, Some p)
  | Some (c, q) => exists ph', check_view st' opID = Some (ph', Some q) /\ CheckMove ph c ph' /\ SamePublication p q
      /\ (CheckPublication_Observations p < checkObservationBudget)%Z
      /\ CheckPublication_Observations q = wrap_int64 (CheckPublication_Observations p + 1)
      /\ is_some (CheckPublication_Intent q) = true
  end.
Lemma check_begin_view opID token st st' r ph p : check_begin w check_provider opID token st = Ok (st', r) ->
  check_view st opID = Some (ph, Some p) -> CheckPublication_WorkerOperationID p <> opID ->
  BeginsFrom ph p st' opID r.
Proof using Type.
  unfold check_begin, checkUpdate. intros Hb Hv Hne.
  pose proof Hv as Hop. unfold check_view in Hop. destruct (operationByID st opID) as [op|] eqn:Eop; [|discriminate].
  injection Hop as Hph Hp. apply bind_guard in Hb as [_ Hb]; [|discriminate]. cbv zeta in Hb. rewrite Hp in Hb.
  destruct (negb check_provider); [injection Hb as <- <-; cbn; rewrite check_fail_view; exact Hv|].
  destruct (negb (Before _ _) || _) eqn:Ebudget; [injection Hb as <- <-; cbn; rewrite check_fail_view; exact Hv|].
  destruct (checkAuthority w st (Some op) false) as [[]|] eqn:Ea; [|injection Hb as <- <-; cbn; rewrite check_fail_view; exact Hv].
  cbn [is_ok negb] in Hb. destruct (checkAuthority_job _ _ _ _ Ea Hp) as (j & Hj & Hjop & _).
  apply bind_Ok in Hb as ([st1 desired] & Hd & Hb).
  assert (Hv1 : check_view st1 opID = Some (ph, Some p)).
  { rewrite (desiredCheck_view _ _ _ _ _ opID j Hd Hj) by congruence. exact Hv. }
  destruct desired as [v|]; [|injection Hb as <- <-; cbn; rewrite check_fail_view; exact Hv1].
  destruct (_ && negb (is_ok _)); [injection Hb as <- <-; cbn; rewrite check_fail_view; exact Hv1|].
  destruct (operationByID st1 opID) as [op1|] eqn:Eop1; [|discriminate].
  assert (Hph1 : ExternalOperation_Phase op1 = ph).
  { unfold check_view in Hv1. rewrite Eop1 in Hv1. injection Hv1 as <- _. reflexivity. }
  rewrite Hph1 in Hb. destruct (dispatch_check opID p ph v st1) as [st2 a] eqn:Edisp.
  apply dispatch_check_view in Edisp; [|exact Hv1].
  destruct a as [c|]; [|injection Hb as <- <-; exact Edisp].
  destruct Edisp as (ph' & q & Hv2 & Hmove & Hsame & Hobs & Hc). rewrite publication_of_view, Hv2 in Hb. cbn in Hb.
  destruct (sound_intent q) eqn:Esound; cbn [negb] in Hb.
  2:{ injection Hb as <- <-. cbn. rewrite check_fail_view, Hv2. destruct c; try (destruct Hc as [_ Hc]; congruence);
      destruct Hc as [-> ->]; reflexivity. }
  injection Hb as <- <-. rewrite publication_of_view, count_observation_view, Hv2. cbn.
  exists ph'. rewrite count_observation_view, Hv2. split; [reflexivity|]. split; [exact Hmove|].
  split; [destruct Hsame; constructor; assumption|]. apply orb_false_iff in Ebudget as [_ Hbudget]. apply Z.leb_gt in Hbudget.
  split; [exact Hbudget|]. split; [rewrite <- Hobs; reflexivity|].
  unfold sound_intent in Esound. change (is_some (CheckPublication_Intent q) = true). destruct (CheckPublication_Intent q); [reflexivity|discriminate].
Qed.
Lemma check_finish_view opID token cp o st st' ph p : check_finish w opID token cp o st = Ok st' ->
  check_view st opID = Some (ph, Some p) ->
  check_view st' opID = Some (ph, Some p)
  \/ exists q, check_view st' opID = Some ("CHECK_OBSERVE", Some q) /\ SamePublication p q
      /\ CheckPublication_Observations q = CheckPublication_Observations p /\ is_some (CheckPublication_Intent p) = true.
Proof using Type.
  unfold check_finish, checkUpdate. intros Hf Hv.
  pose proof Hv as Hop. unfold check_view in Hop. destruct (operationByID st opID) as [op|] eqn:Eop; [|discriminate].
  injection Hop as Hph Hp. apply bind_guard in Hf as [_ Hf]; [|discriminate]. rewrite Hp in Hf.
  apply bind_guard in Hf as [_ Hf]; [|discriminate]. cbv zeta in Hf. destruct (CheckPublication_Intent cp); [|discriminate].
  repeat match type of Hf with
  | (if ?b then _ else _) = _ => destruct b
  | match ?x with _ => _ end = _ => destruct x eqn:?
  | Err _ = Ok _ => discriminate Hf
  end; injection Hf as <-; try (left; rewrite ?check_fail_view, ?check_uncertain_view; exact Hv).
  subst o. right. eexists. rewrite observe_check_view, Hv. split; [reflexivity|].
  split; [constructor; reflexivity|]. split; [reflexivity|].
  reflexivity.
Qed.
End transactions.

(** ** Any number of ticks, interleaved with the rest of the program *)
Section runs.
Context `{Runtime, NetURL, URLs, Hashing} (opID : string).

(** The transactions of ticks on one check, each with the clock, policy and
    worker configuration of its time, in any order and against any copy
    [cp]; between them anything may happen that leaves the publication and its
    phase alone.  [calls] lists the provider calls made. *)
Inductive CheckRuns : State -> list CheckCall -> State -> Prop :=
| runs_start st : CheckRuns st [] st
| runs_begin (W : World) (P : WorkerPolicy) w provider token st calls st' st'' r :
    CheckRuns st calls st' -> check_begin w provider opID token st' = Ok (st'', r) ->
    CheckRuns st (calls ++ match r with Some (c, _) => [c] | None => [] end) st''
| runs_finish (W : World) (P : WorkerPolicy) w token cp o st calls st' st'' :
    CheckRuns st calls st' -> check_finish w opID token cp o st' = Ok st'' -> CheckRuns st calls st''
| runs_other st calls st' st'' :
    CheckRuns st calls st' -> check_view st'' opID = check_view st' opID -> CheckRuns st calls st''.

(** One creation, then only searches for it; one update, then only reads of it. *)
Definition call_sequence (searches : nat) (reads : list nat) : list CheckCall :=
  CallCreate :: replicate searches CallFind ++ concat (map (fun n => CallUpdate :: replicate n CallRead) reads).
Definition CallsSoFar (ph : string) (p : CheckPublication) (calls : list CheckCall) : Prop :=
  if ph == "CHECK_CREATE_READY" then calls = [] /\ CheckPublication_Intent p = None
  else if ph == "CHECK_CREATE_UNCERTAIN" then exists n, calls = call_sequence n []
  else if ph == "CHECK_UPDATE_UNCERTAIN" then exists n ks k, calls = call_sequence n (ks ++ [k])
  else exists n ks, calls = call_sequence n ks.
(** A check as [queueWorkerCheck] leaves it: the operation of the worker job
    is another one. *)
Definition Queued (st : State) : Prop := exists p, check_view st opID = Some ("CHECK_CREATE_READY", Some p)
  /\ CheckPublication_Intent p = None /\ CheckPublication_Observations p = 0%Z /\ CheckPublication_WorkerOperationID p <> opID.

Lemma replicate_snoc {A} n (x : A) : replicate n x ++ [x] = replicate (S n) x.
Proof using Type. symmetry. apply replicate_S_end. Qed.
Lemma calls_move ph c ph' p q calls : CheckMove ph c ph' -> is_some (CheckPublication_Intent q) = true ->
  CallsSoFar ph p calls -> CallsSoFar ph' q (calls ++ [c]).
Proof using Type.
  unfold call_sequence. intros [] Hq Hc; unfold CallsSoFar in *; cbn in *.
  - destruct Hc as [-> _]. exists O. reflexivity.
  - destruct Hc as (n & ->). exists (S n). unfold call_sequence; cbn. rewrite !app_nil_r, replicate_snoc. reflexivity.
  - destruct Hc as (n & ks & k & ->). exists n, ks, (S k). unfold call_sequence. cbn [app]. f_equal. rewrite <- app_assoc. f_equal.
    rewrite !map_app, !concat_app, <- app_assoc. f_equal. cbn. rewrite !app_nil_r, replicate_snoc. reflexivity.
  - destruct Hc as (n & ks & ->). exists n, ks, O. unfold call_sequence. cbn [app]. f_equal. rewrite <- app_assoc. f_equal.
    rewrite !map_app, !concat_app. reflexivity.
Qed.
Lemma calls_observe ph p q calls : is_some (CheckPublication_Intent p) = true -> CallsSoFar ph p calls -> CallsSoFar "CHECK_OBSERVE" q calls.
Proof using Type.
  intros Hi. change (CallsSoFar ph p calls -> exists n ks, calls = call_sequence n ks). unfold CallsSoFar. repeat case_bool_decide.
  - intros [_ Hn]. rewrite Hn in Hi. discriminate.
  - intros (n & ->). eauto.
  - intros (n & ks & k & ->). eauto.
  - auto.
Qed.

Record CheckInv (calls : list CheckCall) (st : State) : Prop := {
  inv_view : exists ph p, check_view st opID = Some (ph, Some p) /\ CallsSoFar ph p calls
    /\ CheckPublication_Observations p = Z.of_nat (length calls) /\ CheckPublication_WorkerOperationID p <> opID;
  inv_budget : (Z.of_nat (length calls) <= checkObservationBudget)%Z;
}.
Lemma check_runs_inv st calls st' : CheckRuns st calls st' -> Queued st -> CheckInv calls st'.
Proof using Type.
  intros Hr Hq. induction Hr as [st|W P w provider token st calls st' st'' r Hr IH Hb|W P w token cp o st calls st' st'' Hr IH Hf|st calls st' st'' Hr IH Hv].
  - destruct Hq as (p & Hv & Hi & Ho & Hne). constructor; [|cbn; unfold checkObservationBudget; lia].
    exists "CHECK_CREATE_READY", p. split; [exact Hv|]. split; [split; [reflexivity|exact Hi]|]. auto.
  - destruct (IH Hq) as [(ph & p & Hv & Hc & Ho & Hne) Hb']. pose proof (check_begin_view _ _ _ _ _ _ _ _ _ Hb Hv Hne) as Hbeg.
    destruct r as [[c q]|]; cbn in Hbeg.
    + destruct Hbeg as (ph' & Hv' & Hmove & [Hs _ _] & Hlt & Hobs & Hi).
      assert (Hlen : CheckPublication_Observations q = Z.of_nat (length (calls ++ [c]))).
      { rewrite Hobs, Ho, length_app. cbn [length]. unfold checkObservationBudget in Hlt. unfold wrap_int64, two64. rewrite Z.mod_small; lia. }
      constructor; [|rewrite length_app; cbn [length]; unfold checkObservationBudget in *; lia].
      exists ph', q. split; [exact Hv'|]. split; [eapply calls_move; eassumption|]. split; [exact Hlen|]. rewrite Hs. exact Hne.
    + rewrite app_nil_r. constructor; [|exact Hb']. exists ph, p. auto.
  - destruct (IH Hq) as [(ph & p & Hv & Hc & Ho & Hne) Hb'].
    destruct (check_finish_view _ _ _ _ _ _ _ _ _ Hf Hv) as [Hv'|(q & Hv' & [Hs _ _] & Hobs & Hi)]; constructor; try exact Hb'.
    + exists ph, p. auto.
    + exists "CHECK_OBSERVE", q. split; [exact Hv'|]. split; [eapply calls_observe; eassumption|].
      split; [congruence|]. rewrite Hs. exact Hne.
  - destruct (IH Hq) as [Hi Hb']. constructor; [|exact Hb']. rewrite Hv. exact Hi.
Qed.
(** C24 whatever happens between and during the ticks of a check, at most 64
    provider calls are made; the check run is created at most once, after
    which an uncertain creation is only searched for, and after each update an
    uncertain outcome is only read back. *)
Theorem check_writes_never_repeat st calls st' : Queued st -> CheckRuns st calls st' ->
  (length calls <= 64)%nat /\ (calls = [] \/ exists searches reads, calls = call_sequence searches reads).
Proof using Type.
  intros Hq Hr. destruct (check_runs_inv _ _ _ Hr Hq) as [(ph & p & _ & Hc & _ & _) Hb].
  unfold checkObservationBudget in Hb. split; [lia|]. unfold CallsSoFar in Hc. repeat case_bool_decide; [left; apply Hc|right..].
  - destruct Hc as (n & ->). eauto.
  - destruct Hc as (n & ks & k & ->). eauto.
  - exact Hc.
Qed.
End runs.

(** ** Success is earned *)
Section success.
Context `{Runtime, NetURL, URLs, Hashing, World, WorkerPolicy} (w : Authority) (check_provider : bool).
Implicit Types (st : State) (opID : string) (p q : CheckPublication).

Definition same_work st st' : Prop := State_WorkerJobs st' = State_WorkerJobs st /\ State_WorkerAttempts st' = State_WorkerAttempts st.
Lemma work_checkStep opID d b st : same_work st (checkStep opID d b st).
Proof using Type. unfold checkStep. cbv zeta. destruct (operationByID _ opID); split; reflexivity. Qed.
Lemma work_count opID t st : same_work st (count_observation opID t st).
Proof using Type. unfold count_observation. cbv zeta. destruct (operationByID _ opID); split; reflexivity. Qed.
Lemma work_dispatch opID p ph v st st' c : dispatch_check opID p ph v st = (st', Some c) -> same_work st st'.
Proof using Type.
  unfold dispatch_check. do 3 (case_bool_decide; [intros [= <- _]; split; reflexivity|]). case_bool_decide; [|discriminate].
  destruct (CheckPublication_Observed p); [|discriminate]. case_bool_decide; [discriminate|].
  destruct (checkObservationMatches _ _); [discriminate|]. intros [= <- _]. split; reflexivity.
Qed.
(** The run of a tick that ends in a provider call. *)
Lemma check_begin_sent opID token st st' c q : check_begin w check_provider opID token st = Ok (st', Some (c, q)) ->
  exists op p st1 v op1 st2, operationByID st opID = Some op /\ ExternalOperation_CheckPublication op = Some p
    /\ checkAuthority w st (Some op) false = Ok () /\ desiredCheck st p (now "tickCheck" 0) = Ok (st1, Ok v)
    /\ operationByID st1 opID = Some op1 /\ dispatch_check opID p (ExternalOperation_Phase op1) v st1 = (st2, Some c)
    /\ st' = count_observation opID (now "tickCheck" 0) st2 /\ publication_of st' opID = Some q.
Proof using Type.
  unfold check_begin, checkUpdate. intros Hb. destruct (operationByID st opID) as [op|] eqn:Eop; [|discriminate].
  apply bind_guard in Hb as [_ Hb]; [|discriminate]. cbv zeta in Hb. destruct (negb check_provider); [discriminate|].
  destruct (ExternalOperation_CheckPublication op) as [p|] eqn:Ep; [|discriminate].
  destruct (negb (Before _ _) || _); [discriminate|].
  destruct (checkAuthority w st (Some op) false) as [[]|] eqn:Ea; [|discriminate]. cbn [is_ok negb] in Hb.
  apply bind_Ok in Hb as ([st1 desired] & Hd & Hb). destruct desired as [v|]; [|discriminate].
  destruct (_ && negb (is_ok _)); [discriminate|]. destruct (operationByID st1 opID) as [op1|] eqn:Eop1; [|discriminate].
  destruct (dispatch_check _ _ _ _ _) as [st2 [c2|]] eqn:Edisp; [|discriminate].
  destruct (publication_of st2 opID) as [p2|]; [|discriminate]. destruct (negb (sound_intent p2)); [discriminate|].
  destruct (publication_of (count_observation opID (now "tickCheck" 0) st2) opID) as [q2|] eqn:Eq; [|discriminate].
  injection Hb as <- <- <-. exists op, p, st1, v, op1, st2. repeat (split; [first [reflexivity|assumption]|]). exact Eq.
Qed.

(** A passing report, accepted before the deadline, of the job's current
    attempt, whose build receipt is the job's own. *)
Definition EarnedBy st (j : WorkerJob) : Prop :=
  WorkerJob_Status j = "SUCCEEDED" /\ WorkerJob_CancellationRequested j = false
  /\ exists a r, a ∈ State_WorkerAttempts st /\ WorkerAttempt_JobID a = ID j /\ WorkerAttempt_Fence a = WorkerJob_Fence j
    /\ WorkerAttempt_Report a = Some r /\ WorkerReport_Result r = "PASSED"
    /\ (Meta_UpdatedAt (WorkerAttempt_Meta a) <= WorkerJob_Deadline j)%Z /\ validateWorkerLocalOCI j a r = Ok ().
Lemma accepted_receipt_spec st j : accepted_receipt st j = true ->
  exists a r, a ∈ State_WorkerAttempts st /\ WorkerAttempt_JobID a = ID j /\ WorkerAttempt_Fence a = WorkerJob_Fence j
    /\ WorkerAttempt_Report a = Some r /\ WorkerReport_Result r = "PASSED"
    /\ (Meta_UpdatedAt (WorkerAttempt_Meta a) <= WorkerJob_Deadline j)%Z /\ validateWorkerLocalOCI j a r = Ok ().
Proof using Type.
  unfold accepted_receipt, currentWorkerAttempt. destruct (find_index _ _) as [k|] eqn:Ek; [|discriminate].
  apply find_index_Some in Ek as (a & Ha & Hof & _). rewrite Ha. destruct (WorkerAttempt_Report a) as [r|] eqn:Er; [|discriminate].
  intros [[Hp Ht]%andb_true_iff Hv]%andb_true_iff. unfold attempt_of in Hof. unfold After in Ht. to_prop.
  exists a, r. destruct (validateWorkerLocalOCI j a r) as [[]|] eqn:E; [|discriminate].
  split; [eapply list_elem_of_lookup_2, Ha|]. repeat (split; [assumption|]). split; [lia|reflexivity].
Qed.
Lemma check_conclusion_success st j t : check_conclusion st j t = Some "success" ->
  WorkerJob_Status j = "SUCCEEDED" /\ WorkerJob_CancellationRequested j = false.
Proof using Type.
  unfold check_conclusion. cbv zeta. intros Hc.
  destruct (_ && negb (is_ok (managedWorkerAllowed st j))); [discriminate|].
  destruct (WorkerJob_CancellationRequested j); [discriminate|]. split; [|reflexivity].
  destruct (_ && negb (is_some _)); [discriminate|].
  destruct (_ && expired_unreported st j); [discriminate|]. unfold job_conclusion in Hc. repeat case_bool_decide; congruence.
Qed.

(** C25 an update that reports success is only sent when the job has succeeded
    uncancelled, with a passing report of its current attempt, accepted by its
    deadline, whose build receipt is the job's own; and when the check is still
    authorised. *)
Theorem check_success_earned opID token st st' p0 q v : check_view st opID = Some ("CHECK_OBSERVE", Some p0) ->
  CheckPublication_WorkerOperationID p0 <> opID ->
  check_begin w check_provider opID token st = Ok (st', Some (CallUpdate, q)) ->
  CheckPublication_Intent q = Some v -> CheckRunWrite_Conclusion v = "success" ->
  checkAuthority w st (operationByID st opID) false = Ok ()
  /\ exists j, workerJob st' (CheckPublication_JobID q) = Some j /\ EarnedBy st' j.
Proof using Type.
  intros Hv Hne Hb Hi Hs. destruct (check_begin_sent _ _ _ _ _ _ Hb) as (op & p & st1 & v1 & op1 & st2 & Hop & Hp & Ha & Hd & Hop1 & Hdisp & -> & Hq).
  unfold check_view in Hv. rewrite Hop in Hv. injection Hv as Hph Hp0. rewrite Hp in Hp0. injection Hp0 as ->.
  rewrite Hop. split; [exact Ha|].
  destruct (checkAuthority_job _ _ _ _ _ Ha Hp) as (j0 & Hj0 & Hjop & _).
  assert (Hv1 : check_view st1 opID = Some ("CHECK_OBSERVE", Some p0)).
  { rewrite (desiredCheck_view _ _ _ _ _ opID j0 Hd Hj0) by congruence. unfold check_view. rewrite Hop. cbn. rewrite Hph, Hp. reflexivity. }
  assert (Hph1 : ExternalOperation_Phase op1 = "CHECK_OBSERVE").
  { unfold check_view in Hv1. rewrite Hop1 in Hv1. injection Hv1 as -> _. reflexivity. }
  rewrite Hph1 in Hdisp. destruct (dispatch_check_view _ _ _ _ _ _ _ Hdisp Hv1) as (ph' & q2 & Hv2 & _ & [_ Hjob _] & _ & [Hi2 _]).
  rewrite publication_of_view, count_observation_view, Hv2 in Hq. cbn in Hq. injection Hq as <-.
  assert (v = v1) as -> by (change (CheckPublication_Intent q2 = Some v) in Hi; congruence).
  change (exists j, workerJob (count_observation opID (now "tickCheck" 0) st2) (CheckPublication_JobID q2) = Some j
    /\ EarnedBy (count_observation opID (now "tickCheck" 0) st2) j).
  destruct (work_count opID (now "tickCheck" 0) st2) as [Hw1 Hw2]. destruct (work_dispatch _ _ _ _ _ _ _ Hdisp) as [Hw3 Hw4].
  unfold desiredCheck in Hd. destruct (job_index st (CheckPublication_JobID p0)) as [i|] eqn:Ei; [|discriminate].
  destruct (job_at (recoverWorker i _ st) i) as [j|] eqn:Ej; [|discriminate].
  injection Hd as <- Hd. destruct (_ && negb (accepted_receipt (recoverWorker i _ st) j)) eqn:Er; [discriminate|]. injection Hd as Hd.
  rewrite <- Hd in Hs. unfold desired_write in Hs. cbn in Hs.
  destruct (check_conclusion _ j _) as [c|] eqn:Ec; [|discriminate]. cbn in Hs. subst c.
  destruct (check_conclusion_success _ _ _ Ec) as [Hst Hcan].
  rewrite Hst in Er. cbn in Er. apply negb_false_iff in Er. apply accepted_receipt_spec in Er.
  exists j. split.
  - apply job_index_workerJob. exists i. unfold job_index, job_at. rewrite Hw1, Hw3. split; [|exact Ej]. rewrite Hjob.
    rewrite <- Ei. apply (job_index_ids st), job_ids_recover.
  - split; [exact Hst|]. split; [exact Hcan|]. rewrite Hw2, Hw4. exact Er.
Qed.
End success.
