(* ===== verification/WorkerChecks.v ===== *)
(** * The store's validation of check publications

    [internal/domain/worker_checks.go]: on every update the store checks that
    jobs and check operations refer to each other, that a durable intent is
    the payload of its check, and that a success it holds was earned.
    [desired_write_storable] shows that what Checks wants to write passes. *)
From S2P Require Import Prelude GoText Worklist GoJson Delivery Domain Status Planning Handlers Collections DeviceAuth Reservation WorkerAuth Pins WorkerJobs Checks.
Open Scope string_scope.
Open Scope list_scope.

(** ** Payloads *)
(** [^RCP /[A-Za-z0-9 ._/-]{1,96}$] *)
Definition check_name (s : string) : bool :=
  has_prefix "RCP /" s
  && (let r := str_drop 5 s in
      str_all (ident_char " ._/-") r && (1 <=? String.length r)%nat && (String.length r <=? 96)%nat).
Definition ValidWorkerCheckBinding (c : option WorkerCheckBinding) : bool :=
  match c with
  | None => false
  | Some c =>
    check_name (WorkerCheckBinding_Name c) && (0 <? WorkerCheckBinding_ExpectedAppID c)%Z
    && (60 <=? WorkerCheckBinding_FinalizeSeconds c)%Z && (WorkerCheckBinding_FinalizeSeconds c <=? 600)%Z
  end.
(** [t.Nanosecond()] *)
Definition nanosecond (t : Time) : Z := (t mod second)%Z.
Definition has_byte (codes : list nat) (s : string) : bool := str_any (fun a => contains codes (byte_of a)) s.
Definition check_text (w : CheckRunWrite) : bool :=
  let out := CheckRunWrite_Output w in
  contains ["queued"; "in_progress"; "completed"] (CheckRunWrite_Status w)
  && negb (256 <? strlen (CheckRunOutput_Title out))%Z && negb (4096 <? strlen (CheckRunOutput_Summary out))%Z
  && negb (has_byte [13; 10; 0] (CheckRunOutput_Title out)) && negb (has_byte [13; 0] (CheckRunOutput_Summary out)).
Definition whole_second (t : Time) : bool := IsZero t || (nanosecond t =? 0)%Z.
Definition validCheckPayload (w : CheckRunWrite) : bool :=
  let started := CheckRunWrite_StartedAt w in
  let completed := CheckRunWrite_CompletedAt w in
  if negb (check_text w) then false
  else if negb (whole_second started && whole_second completed) then false
  else if CheckRunWrite_Status w == "queued" then (CheckRunWrite_Conclusion w == "") && IsZero started && IsZero completed
  else if CheckRunWrite_Status w == "in_progress"
  then (CheckRunWrite_Conclusion w == "") && negb (IsZero started) && IsZero completed
  else if CheckRunWrite_Status w == "completed"
  then contains ["success"; "failure"; "cancelled"; "timed_out"] (CheckRunWrite_Conclusion w)
       && negb (IsZero started) && negb (IsZero completed) && negb (Before completed started)
  else false.
Definition shown_statuses : list string :=
  ["QUEUED"; "CLAIMED"; "RUNNING"; "RECONCILIATION_REQUIRED"; "SUCCEEDED"; "FAILED"; "CANCELLED"; "DEADLINE_EXCEEDED"].
Definition safeCheckOutput (w : CheckRunWrite) (p : CheckPublication) : bool :=
  let title := if CheckRunWrite_Conclusion w != "" then CheckRunWrite_Conclusion w else CheckRunWrite_Status w in
  if CheckRunOutput_Title (CheckRunWrite_Output w) != "RCP checks/build: " +:+ title then false
  else existsb (fun status => CheckRunOutput_Summary (CheckRunWrite_Output w)
                  == check_summary (CheckPublication_JobID p) (WorkerInputs_SourceSHA (CheckPublication_Inputs p))
                       (CheckPublication_InputHash p) (WorkerInputs_RecipeHash (CheckPublication_Inputs p)) status) shown_statuses.

(** ** The proof of a success *)
Definition proven_report (j : WorkerJob) (a : WorkerAttempt) (r : WorkerReport) (v : WorkerLocalOCI) (e : WorkerExecution) : bool :=
  let request := WorkerReport_WorkerAttemptRequest r in
  (WorkerAttempt_Status a == "SUCCEEDED") && (WorkerAttempt_InputHash a == WorkerJob_InputHash j)
  && negb (After (Meta_UpdatedAt (WorkerAttempt_Meta a)) (WorkerJob_Deadline j)) && (WorkerReport_Result r == "PASSED")
  && (WorkerAttemptRequest_JobID request == ID j) && (WorkerAttemptRequest_AttemptID request == ID a)
  && (WorkerAttemptRequest_Fence request == WorkerAttempt_Fence a)
  && (WorkerAttemptRequest_InputHash request == WorkerJob_InputHash j)
  && negb (is_some (WorkerReport_Publication r))
  && ((WorkerLocalOCI_JobID v == ID j) && (WorkerLocalOCI_AttemptID v == ID a)
      && (WorkerLocalOCI_InputHash v == WorkerJob_InputHash j)
      && (WorkerLocalOCI_SourceSHA v == WorkerInputs_SourceSHA (WorkerJob_Inputs j))
      && (WorkerLocalOCI_RecipeHash v == WorkerInputs_RecipeHash (WorkerJob_Inputs j))
      && (WorkerLocalOCI_ConfigRevision v == WorkerInputs_ConfigRevision (WorkerJob_Inputs j))
      && (WorkerLocalOCI_ToolchainImage v == WorkerExecution_ToolchainImage e)
      && (WorkerLocalOCI_Platform v == WorkerExecution_Platform e)
      && negb (WorkerLocalOCI_ArchiveBytes v <? 1)%Z && negb (WorkerExecution_OutputBytes e <? WorkerLocalOCI_ArchiveBytes v)%Z
      && (WorkerLocalOCI_RuntimeRootFS v == WorkerExecution_RuntimeRootFS e))
  && forallb is_digest [WorkerLocalOCI_ArchiveHash v; WorkerLocalOCI_LayoutHash v; WorkerLocalOCI_IndexDigest v;
                        WorkerLocalOCI_ManifestDigest v].
(** The loop decides on the first attempt of the job with its fence. *)
Definition checkSuccessProvenance (st : State) (j : WorkerJob) : bool :=
  if (WorkerJob_Status j != "SUCCEEDED") || WorkerJob_CancellationRequested j then false
  else match find_first (attempt_of j) (State_WorkerAttempts st) with
  | None => false
  | Some a =>
    match WorkerAttempt_Report a with
    | None => false
    | Some r =>
      match WorkerReport_LocalOCI r, WorkerInputs_Execution (WorkerJob_Inputs j) with
      | Some v, Some e => proven_report j a r v e
      | _, _ => false
      end
    end
  end.

(** ** ValidateWorkerChecks *)
Section validate.
Context `{Hashing}.

Definition check_error : res unit := plain "invalid worker check publication references or intent".
Definition valid_check_job (ops : gmap string ExternalOperation) (j : WorkerJob) : bool :=
  match WorkerInputs_Check (WorkerJob_Inputs j) with
  | None => WorkerJob_CheckOperationID j == ""
  | Some _ =>
    ValidWorkerCheckBinding (WorkerInputs_Check (WorkerJob_Inputs j)) && (WorkerJob_Capability j == "local_oci_build")
    && (WorkerInputs_Trust (WorkerJob_Inputs j) == "trusted_source")
    && bool_decide (WorkerInputs_Parameters (WorkerJob_Inputs j) = ∅) && (WorkerJob_CheckOperationID j != "")
    && match ops !! WorkerJob_CheckOperationID j with
       | None => false
       | Some child =>
         (ExternalOperation_Kind child == "CHECK_PUBLICATION")
         && match ExternalOperation_CheckPublication child with
            | Some p => CheckPublication_JobID p == ID j
            | None => false
            end
       end
  end.
Definition check_of_job (o : ExternalOperation) (p : CheckPublication) (j : WorkerJob) : bool :=
  (WorkerJob_CheckOperationID j == ID o) && (WorkerJob_OperationID j == CheckPublication_WorkerOperationID p)
  && (ExternalOperation_ParentID o == CheckPublication_WorkerOperationID p) && (ProductID j == ProductID o)
  && (FeatureID j == FeatureID o) && (WorkerJob_InputHash j == CheckPublication_InputHash p)
  && (Fingerprint (CheckPublication_Inputs p) == CheckPublication_InputHash p)
  && (WorkerJob_Inputs j == CheckPublication_Inputs p)
  && ValidWorkerCheckBinding (WorkerInputs_Check (CheckPublication_Inputs p)).
Definition check_parent (o parent : ExternalOperation) : bool :=
  (ExternalOperation_Kind parent == WorkerOperationKind) && (ProductID parent == ProductID o)
  && contains (ExternalOperation_ChildIDs parent) (ID o).
Definition check_identity_of (o : ExternalOperation) (p : CheckPublication) (j : WorkerJob) : bool :=
  let identity := CheckPublication_Identity p in
  match WorkerInputs_Check (CheckPublication_Inputs p) with
  | None => false
  | Some binding =>
    fullSHA (CheckRunIdentity_HeadSHA identity) && negb (CheckRunIdentity_RepositoryID identity <? 1)%Z
    && (CheckPublication_ProviderRepositoryID p == CheckRunIdentity_RepositoryID identity)
    && (CheckRunIdentity_Repository identity == RepositoryBinding_FullName (CheckPublication_Source p))
    && (CheckRunIdentity_AppID identity == Connection_AppID (CheckPublication_Connection p))
    && (CheckRunIdentity_AppID identity == WorkerCheckBinding_ExpectedAppID binding)
    && (CheckRunIdentity_HeadSHA identity == WorkerInputs_SourceSHA (CheckPublication_Inputs p))
    && (CheckRunIdentity_Name identity == WorkerCheckBinding_Name binding)
    && (CheckRunIdentity_ExternalID identity == "rcp:" +:+ ID o)
    && (ProductID (CheckPublication_Source p) == ProductID o)
    && (RepositoryBinding_RepositoryID (CheckPublication_Source p) == WorkerInputs_RepositoryID (CheckPublication_Inputs p))
    && (RepositoryBinding_ConnectionID (CheckPublication_Source p) == Connection_ID (CheckPublication_Connection p))
    && negb (CheckPublication_Observations p <? 0)%Z && negb (64 <? CheckPublication_Observations p)%Z
    && (CheckPublication_FinalizeDeadline p == WorkerJob_Deadline j + WorkerCheckBinding_FinalizeSeconds binding * second)%Z
  end.
Definition valid_intent (o : ExternalOperation) (p : CheckPublication) : bool :=
  match CheckPublication_Intent p with
  | Some intent =>
    (CheckPublication_IntentHash p == Fingerprint intent)
    && (CheckRunWrite_Identity intent == CheckPublication_Identity p) && validCheckPayload intent && safeCheckOutput intent p
  | None => (CheckPublication_IntentHash p == "") && (ExternalOperation_Phase o == "CHECK_CREATE_READY")
  end.
Definition observed_output (v : CheckRunObservation) : CheckRunWrite :=
  mkCheckRunWrite zero 0%Z (CheckRunObservation_Status v) (CheckRunObservation_Conclusion v) 0%Z 0%Z (CheckRunObservation_Output v).
Definition observed_payload (v : CheckRunObservation) : CheckRunWrite :=
  mkCheckRunWrite (CheckRunObservation_Identity v) (CheckRunObservation_ID v) (CheckRunObservation_Status v)
    (CheckRunObservation_Conclusion v) (CheckRunObservation_StartedAt v) (CheckRunObservation_CompletedAt v)
    (CheckRunObservation_Output v).
Definition valid_observed (p : CheckPublication) : bool :=
  match CheckPublication_Observed p with
  | None => true
  | Some v =>
    safeCheckOutput (observed_output v) p && CheckRunObservation_Found v && negb (CheckRunObservation_ID v <? 1)%Z
    && (CheckRunObservation_Identity v == CheckPublication_Identity p) && validCheckPayload (observed_payload v)
  end.
Definition claims_success (p : CheckPublication) : bool :=
  match CheckPublication_Intent p with Some v => CheckRunWrite_Conclusion v == "success" | None => false end
  || match CheckPublication_Observed p with Some v => CheckRunObservation_Conclusion v == "success" | None => false end.
Definition same_outcome (v : CheckRunObservation) (i : CheckRunWrite) : bool :=
  (CheckRunObservation_Status v == "completed") && (CheckRunWrite_Status i == "completed")
  && (CheckRunObservation_Conclusion v == CheckRunWrite_Conclusion i) && (CheckRunObservation_Output v == CheckRunWrite_Output i)
  && (CheckRunObservation_StartedAt v == CheckRunWrite_StartedAt i)
  && (CheckRunObservation_CompletedAt v == CheckRunWrite_CompletedAt i).
Definition valid_check_phase (o : ExternalOperation) (p : CheckPublication) : bool :=
  let phase := ExternalOperation_Phase o in
  let intent := CheckPublication_Intent p in
  let observed := CheckPublication_Observed p in
  negb ((phase == "CHECK_CREATE_READY") && (is_some intent || is_some observed || (CheckPublication_Observations p != 0%Z)))
  && negb ((phase == "CHECK_CREATE_UNCERTAIN")
           && match intent with
              | None => true
              | Some i => (CheckRunWrite_Status i != "queued") || (CheckRunWrite_ID i != 0%Z) || is_some observed
              end)
  && negb (((phase == "CHECK_OBSERVE") || (phase == "CHECK_UPDATE_UNCERTAIN")) && (negb (is_some intent) || negb (is_some observed)))
  && negb ((phase == "CHECK_UPDATE_UNCERTAIN")
           && match intent, observed with Some i, Some v => CheckRunWrite_ID i != CheckRunObservation_ID v | _, _ => false end)
  && negb ((ExternalOperation_Status o == "SUCCEEDED")
           && match intent, observed with Some i, Some v => negb (same_outcome v i) | _, _ => true end).
Definition valid_check_operation (st : State) (jobs : gmap string WorkerJob) (ops : gmap string ExternalOperation)
    (o : ExternalOperation) : bool :=
  if ExternalOperation_Kind o != "CHECK_PUBLICATION" then negb (is_some (ExternalOperation_CheckPublication o))
  else match ExternalOperation_CheckPublication o with
  | None => false
  | Some p =>
    match jobs !! CheckPublication_JobID p, ops !! CheckPublication_WorkerOperationID p with
    | Some j, Some parent =>
      check_of_job o p j && check_parent o parent && check_identity_of o p j
      && contains ["CHECK_CREATE_READY"; "CHECK_CREATE_UNCERTAIN"; "CHECK_OBSERVE"; "CHECK_UPDATE_UNCERTAIN"] (ExternalOperation_Phase o)
      && valid_intent o p && valid_observed p && negb (claims_success p && negb (checkSuccessProvenance st j))
      && valid_check_phase o p
    | _, _ => false
    end
  end.
Definition ValidateWorkerChecks (st : State) : res unit :=
  let jobs := index_by ID (State_WorkerJobs st) in
  let ops := index_by ID (State_Operations st) in
  _ ← each (fun j => reject_if (negb (valid_check_job ops j)) check_error) (State_WorkerJobs st);
  each (fun o => reject_if (negb (valid_check_operation st jobs ops o)) check_error) (State_Operations st).
End validate.

(** ** What Checks writes is what the store accepts *)
Lemma str_any_app p s t : str_any p (s +:+ t) = str_any p s || str_any p t.
Proof. unfold str_any. rewrite str_all_app. apply negb_andb. Qed.
Lemma has_byte_app codes s t : has_byte codes (s +:+ t) = has_byte codes s || has_byte codes t.
Proof. apply str_any_app. Qed.
Lemma strlen_app s t : strlen (s +:+ t) = (strlen s + strlen t)%Z.
Proof. unfold strlen. rewrite str_length_app. lia. Qed.

Lemma truncate_whole t : whole_second (truncate_second t) = true.
Proof.
  unfold whole_second, truncate_second, nanosecond. apply orb_true_iff. right. apply Z.eqb_eq.
  rewrite Zminus_mod_idemp_r, Z.sub_diag. reflexivity.
Qed.
Lemma truncate_mono a b : (a <= b)%Z -> (truncate_second a <= truncate_second b)%Z.
Proof.
  intros Hab. unfold truncate_second. pose proof (Z.div_mod a second ltac:(discriminate)). pose proof (Z.div_mod b second ltac:(discriminate)).
  pose proof (Z.div_le_mono a b second ltac:(reflexivity) Hab). unfold second in *. lia.
Qed.
Lemma truncate_positive t : (second <= t)%Z -> (second <= truncate_second t)%Z.
Proof. intros Ht. apply truncate_mono in Ht. exact Ht. Qed.

(** A job whose check is the publication, as [ValidateWorkerChecks] and the
    worker protocol keep it. *)
Record Publishes (j : WorkerJob) (cp : CheckPublication) : Prop := {
  publishes_inputs : CheckPublication_Inputs cp = WorkerJob_Inputs j;
  publishes_hash : CheckPublication_InputHash cp = WorkerJob_InputHash j;
  publishes_status : WorkerJob_Status j ∈ shown_statuses;
  publishes_created : (second <= Meta_CreatedAt (WorkerJob_Meta j))%Z;
  publishes_updated : (Meta_CreatedAt (WorkerJob_Meta j) <= Meta_UpdatedAt (WorkerJob_Meta j))%Z;
  publishes_deadline : (Meta_CreatedAt (WorkerJob_Meta j) <= WorkerJob_Deadline j)%Z;
  publishes_short : forall s, s ∈ [ID j; WorkerInputs_SourceSHA (WorkerJob_Inputs j); WorkerJob_InputHash j;
      WorkerInputs_RecipeHash (WorkerJob_Inputs j)] -> (strlen s <= 512)%Z /\ has_byte [13; 0] s = false;
}.
(** An attempt that succeeded, as [ReportWorker] leaves it. *)
Definition Reported (j : WorkerJob) (a : WorkerAttempt) : Prop :=
  WorkerAttempt_Status a = "SUCCEEDED" /\ WorkerAttempt_InputHash a = WorkerJob_InputHash j
  /\ forall r, WorkerAttempt_Report a = Some r ->
       WorkerReport_WorkerAttemptRequest r = mkWorkerAttemptRequest (ID j) (ID a) (WorkerAttempt_Fence a) (WorkerJob_InputHash j).

Lemma shown_status_short s : s ∈ shown_statuses -> (strlen s <= 32)%Z /\ has_byte [13; 0] s = false.
Proof.
  intros Hs. assert (Hall : forallb (fun s => (strlen s <=? 32)%Z && negb (has_byte [13; 0] s)) shown_statuses = true) by reflexivity.
  rewrite forallb_elem in Hall. specialize (Hall s Hs). to_prop. split; [lia|assumption].
Qed.
Ltac listed := rewrite ?elem_of_cons; tauto.
Lemma summary_text j cp s : Publishes j cp -> s ∈ shown_statuses ->
  let text := check_summary (ID j) (WorkerInputs_SourceSHA (WorkerJob_Inputs j)) (WorkerJob_InputHash j)
                (WorkerInputs_RecipeHash (WorkerJob_Inputs j)) s in
  (strlen text <= 4096)%Z /\ has_byte [13; 0] text = false.
Proof.
  intros Hp Hs. destruct (shown_status_short s Hs) as [Hl Hb]. pose proof (publishes_short _ _ Hp) as Hshort.
  destruct (Hshort (ID j)) as [L1 B1]; [listed|]. destruct (Hshort (WorkerInputs_SourceSHA (WorkerJob_Inputs j))) as [L2 B2]; [listed|].
  destruct (Hshort (WorkerJob_InputHash j)) as [L3 B3]; [listed|].
  destruct (Hshort (WorkerInputs_RecipeHash (WorkerJob_Inputs j))) as [L4 B4]; [listed|].
  cbv zeta. unfold check_summary. rewrite !strlen_app, !has_byte_app, B1, B2, B3, B4, Hb. split; [|reflexivity].
  change (strlen "Worker ") with 7%Z. change (strlen lf) with 1%Z. change (strlen "Source ") with 7%Z.
  change (strlen "Inputs ") with 7%Z. change (strlen "Recipe ") with 7%Z. change (strlen "Result ") with 7%Z. lia.
Qed.

Section storable.
Context `{Runtime, NetURL, URLs, Hashing, World, WorkerPolicy}.

Definition conclusions : list string := ["success"; "failure"; "cancelled"; "timed_out"].
Lemma check_conclusion_listed st j t c : check_conclusion st j t = Some c -> c ∈ conclusions.
Proof using Type.
  unfold check_conclusion, conclusions. cbv zeta. intros Hc.
  destruct (_ && negb (is_ok (managedWorkerAllowed st j))); [simplify_eq; set_solver|].
  destruct (WorkerJob_CancellationRequested j); [simplify_eq; set_solver|].
  destruct (_ && negb (is_some _)); [simplify_eq; set_solver|].
  destruct (_ && expired_unreported st j); [simplify_eq; set_solver|]. unfold job_conclusion in Hc.
  repeat case_bool_decide; simplify_eq; set_solver.
Qed.
Lemma shown_status_cases j cp c : shown_status j cp c = (if is_some c then "completed" else shown_status j cp None)
  /\ (shown_status j cp None = "queued" \/ shown_status j cp None = "in_progress").
Proof using Type.
  unfold shown_status. split; [destruct c; reflexivity|]. cbn.
  destruct (active_status _); destruct (CheckPublication_Observed cp) as [o|]; auto; destruct (_ && _); auto.
Qed.
Lemma check_title_text s : s ∈ conclusions ++ ["queued"; "in_progress"] ->
  let text := "RCP checks/build: " +:+ s in (strlen text <= 256)%Z /\ has_byte [13; 10; 0] text = false.
Proof using Type.
  intros Hs. assert (Hall : forallb (fun s => (strlen ("RCP checks/build: " +:+ s) <=? 256)%Z && negb (has_byte [13; 10; 0] ("RCP checks/build: " +:+ s)))
    (conclusions ++ ["queued"; "in_progress"]) = true) by reflexivity.
  rewrite forallb_elem in Hall. specialize (Hall s Hs). to_prop. split; [lia|assumption].
Qed.

(** The payload, once its title and text fit. *)
Lemma payload_queued w : check_text w = true -> CheckRunWrite_Status w = "queued" -> CheckRunWrite_Conclusion w = "" ->
  CheckRunWrite_StartedAt w = 0%Z -> CheckRunWrite_CompletedAt w = 0%Z -> validCheckPayload w = true.
Proof using Type. intros Ht Hs Hc Hst Hco. unfold validCheckPayload. rewrite Ht, Hs, Hc, Hst, Hco. reflexivity. Qed.
Lemma payload_in_progress w t : check_text w = true -> CheckRunWrite_Status w = "in_progress" -> CheckRunWrite_Conclusion w = "" ->
  CheckRunWrite_StartedAt w = truncate_second t -> (second <= t)%Z -> CheckRunWrite_CompletedAt w = 0%Z -> validCheckPayload w = true.
Proof using Type.
  intros Ht Hs Hc Hst Hpos Hco. unfold validCheckPayload. rewrite Ht, Hs, Hc, Hst, Hco, truncate_whole.
  change (negb (IsZero (truncate_second t)) && true = true). rewrite andb_true_r. apply negb_true_iff, bool_decide_eq_false_2.
  pose proof (truncate_positive t Hpos). unfold second in *. lia.
Qed.
Lemma payload_completed w t t' : check_text w = true -> CheckRunWrite_Status w = "completed" ->
  CheckRunWrite_Conclusion w ∈ conclusions -> CheckRunWrite_StartedAt w = truncate_second t -> (second <= t)%Z ->
  CheckRunWrite_CompletedAt w = truncate_second t' -> (t <= t')%Z -> validCheckPayload w = true.
Proof using Type.
  intros Ht Hs Hc Hst Hpos Hco Hle. unfold validCheckPayload. rewrite Ht, Hs, Hst, Hco, !truncate_whole.
  change (contains conclusions (CheckRunWrite_Conclusion w) && negb (IsZero (truncate_second t))
    && negb (IsZero (truncate_second t')) && negb (Before (truncate_second t') (truncate_second t)) = true).
  pose proof (truncate_positive t Hpos). pose proof (truncate_mono t t' Hle). unfold second in *.
  unfold contains. rewrite bool_decide_eq_true_2 by exact Hc. unfold IsZero, Before. rewrite !bool_decide_eq_false_2 by lia.
  apply negb_true_iff. lia.
Qed.
Lemma desired_text j cp c : Publishes j cp -> (forall x, c = Some x -> x ∈ conclusions) -> check_text (desired_write j cp c) = true.
Proof using Type.
  intros Hp Hc. destruct (shown_status_cases j cp c) as [Es Hs].
  destruct (summary_text j cp (WorkerJob_Status j) Hp (publishes_status _ _ Hp)) as [Hl Hb].
  assert (Htitle : (if default "" c != "" then default "" c else shown_status j cp c) ∈ conclusions ++ ["queued"; "in_progress"]).
  { rewrite Es. destruct c as [x|]; cbn [default is_some]; [|destruct Hs as [-> | ->]; apply elem_of_app; right; set_solver].
    specialize (Hc x eq_refl). replace (x != "") with true; [apply elem_of_app; left; exact Hc|].
    symmetry. apply negb_true_iff, bool_decide_eq_false_2. intros ->.
    unfold conclusions in Hc. rewrite !elem_of_cons, elem_of_nil in Hc. intuition discriminate. }
  destruct (check_title_text _ Htitle) as [Tl Tb].
  unfold check_text, desired_write. cbn [CheckRunWrite_Output CheckRunWrite_Status CheckRunOutput_Title CheckRunOutput_Summary].
  rewrite Hb, Tb, !andb_true_iff, !negb_true_iff, !Z.ltb_ge. repeat split; try assumption.
  rewrite Es. destruct (is_some c); [reflexivity|]. destruct Hs as [-> | ->]; reflexivity.
Qed.
Lemma desired_payload j cp c : Publishes j cp -> (forall x, c = Some x -> x ∈ conclusions) ->
  validCheckPayload (desired_write j cp c) = true.
Proof using Type.
  intros Hp Hc. pose proof (desired_text j cp c Hp Hc) as Ht. destruct (shown_status_cases j cp c) as [Es Hs].
  pose proof (publishes_created _ _ Hp) as Hcr. destruct c as [x|].
  - apply (payload_completed _ (Meta_CreatedAt (WorkerJob_Meta j))
             (if x == "timed_out" then WorkerJob_Deadline j else Meta_UpdatedAt (WorkerJob_Meta j)));
      [exact Ht|exact Es|exact (Hc x eq_refl)| |exact Hcr|reflexivity|].
    + unfold desired_write. cbn -[shown_status truncate_second]. rewrite Es. reflexivity.
    + destruct (x == "timed_out"); [apply (publishes_deadline _ _ Hp)|apply (publishes_updated _ _ Hp)].
  - destruct Hs as [Hs|Hs].
    + apply payload_queued; try assumption; try reflexivity. unfold desired_write. cbn -[shown_status]. rewrite Hs. reflexivity.
    + apply (payload_in_progress _ (Meta_CreatedAt (WorkerJob_Meta j))); try assumption; try reflexivity.
      unfold desired_write. cbn -[shown_status truncate_second]. rewrite Hs. reflexivity.
Qed.
Lemma desired_output j cp c : Publishes j cp -> ID j = CheckPublication_JobID cp -> safeCheckOutput (desired_write j cp c) cp = true.
Proof using Type.
  intros Hp Hid. unfold safeCheckOutput. cbv zeta. rewrite bool_decide_eq_true_2 by reflexivity.
  apply existsb_elem. exists (WorkerJob_Status j). split; [apply (publishes_status _ _ Hp)|]. apply bool_decide_eq_true_2.
  rewrite (publishes_inputs _ _ Hp), (publishes_hash _ _ Hp), <- Hid. reflexivity.
Qed.

(** An accepted receipt of a job that runs builds is a proof of its success. *)
Lemma local_receipt j a r : WorkerJob_Capability j = "local_oci_build" -> WorkerReport_Result r = "PASSED" ->
  validateWorkerLocalOCI j a r = Ok () ->
  exists v e, WorkerReport_LocalOCI r = Some v /\ WorkerInputs_Execution (WorkerJob_Inputs j) = Some e
    /\ WorkerReport_Publication r = None /\ local_oci_matches j a e v = true
    /\ WorkerLocalOCI_RuntimeRootFS v = WorkerExecution_RuntimeRootFS e
    /\ forallb is_digest [WorkerLocalOCI_ArchiveHash v; WorkerLocalOCI_LayoutHash v; WorkerLocalOCI_IndexDigest v;
                          WorkerLocalOCI_ManifestDigest v] = true.
Proof using Type.
  intros Hcap Hpass Hv. unfold validateWorkerLocalOCI in Hv. rewrite Hcap, Hpass in Hv.
  rewrite !bool_decide_eq_true_2 in Hv by reflexivity. step_guards Hv. cbn [negb orb] in Hv.
  destruct (WorkerReport_LocalOCI r) as [v|]; [|discriminate]. destruct (WorkerInputs_Execution (WorkerJob_Inputs j)) as [e|]; [|discriminate].
  step_guards Hv. to_prop. exists v, e. repeat (split; [reflexivity || assumption|]).
  cbn [forallb]. rewrite !andb_true_iff. repeat (split; [assumption|]). reflexivity.
Qed.
Lemma receipt_proves st j : WorkerJob_Status j = "SUCCEEDED" -> WorkerJob_CancellationRequested j = false ->
  WorkerJob_Capability j = "local_oci_build" -> (forall a, a ∈ State_WorkerAttempts st -> attempt_of j a = true -> Reported j a) ->
  accepted_receipt st j = true -> checkSuccessProvenance st j = true.
Proof using Type.
  intros Hs Hc Hcap Hrep. unfold accepted_receipt, checkSuccessProvenance, currentWorkerAttempt. rewrite Hs, Hc.
  rewrite bool_decide_eq_true_2 by reflexivity. cbn [negb orb]. rewrite find_index_first.
  destruct (find_index (attempt_of j) _) as [k|] eqn:Ek; [|discriminate].
  destruct (State_WorkerAttempts st !! k) as [a|] eqn:Ea; [|discriminate].
  apply find_index_Some in Ek as (a' & Ea' & Hof & _). rewrite Ea in Ea'. injection Ea' as <-.
  destruct (Hrep a (list_elem_of_lookup_2 _ _ _ Ea) Hof) as (Ra & Rh & Rr).
  destruct (WorkerAttempt_Report a) as [r|]; [|discriminate]. specialize (Rr r eq_refl).
  rewrite !andb_true_iff. intros [[Hpass Htime] Hv]. apply bool_decide_eq_true in Hpass.
  destruct (validateWorkerLocalOCI j a r) as [[]|] eqn:Ev; [|discriminate].
  destruct (local_receipt j a r Hcap Hpass Ev) as (v & e & -> & -> & Hpub & Hm & Hroot & Hd).
  unfold proven_report, local_oci_matches in *. rewrite Ra, Rh, Rr, Hpub, Hpass, Hroot, Htime, Hd.
  cbn [WorkerAttemptRequest_JobID WorkerAttemptRequest_AttemptID WorkerAttemptRequest_Fence WorkerAttemptRequest_InputHash is_some].
  rewrite <- !Z.leb_antisym. rewrite !andb_true_iff in Hm. rewrite !andb_true_iff.
  repeat match goal with |- _ /\ _ => split end; first [apply Hm | apply bool_decide_eq_true_2; reflexivity | reflexivity].
Qed.

(** Whatever the application wants to publish about a job, the store
    accepts it as the intent of its check: a payload of the allowed shape that
    says nothing but the job's identity and state; and if it announces success,
    the store finds the proof of it. *)
Theorem desired_write_storable st cp t st' v j : desiredCheck st cp t = Ok (st', Ok v) ->
  workerJob st' (CheckPublication_JobID cp) = Some j -> Publishes j cp -> WorkerJob_Capability j = "local_oci_build" ->
  (forall a, a ∈ State_WorkerAttempts st' -> attempt_of j a = true -> WorkerJob_Status j = "SUCCEEDED" -> Reported j a) ->
  validCheckPayload v = true /\ safeCheckOutput v cp = true
  /\ (CheckRunWrite_Conclusion v = "success" -> checkSuccessProvenance st' j = true).
Proof using Type.
  intros Hd Hj Hp Hcap Hrep. unfold desiredCheck in Hd. destruct (job_index st _) as [i|] eqn:Ei; [|discriminate].
  destruct (job_at (recoverWorker i t st) i) as [j'|] eqn:Ej; [|discriminate]. injection Hd as <- Hd.
  assert (j' = j) as ->.
  { apply job_index_workerJob in Hj as (i' & Hi' & Hj). replace i' with i in Hj; [congruence|].
    rewrite (job_index_ids st) in Hi' by apply job_ids_recover. congruence. }
  destruct (_ && negb (accepted_receipt _ j)) eqn:Er; [discriminate|]. injection Hd as <-.
  assert (Hc : forall x, check_conclusion (recoverWorker i t st) j t = Some x -> x ∈ conclusions) by apply check_conclusion_listed.
  split; [apply desired_payload; assumption|]. split.
  - apply desired_output; [exact Hp|]. unfold workerJob in Hj. apply find_first_Some in Hj as [_ Hid]. unfold has_id in Hid. to_prop. exact Hid.
  - intros Hs. cbn in Hs. destruct (check_conclusion _ j t) as [c|] eqn:Ec; [|discriminate]. cbn in Hs. subst c.
    destruct (check_conclusion_success _ _ _ Ec) as [Hst Hcan]. rewrite Hst in Er. 
    apply receipt_proves; try assumption; [intros a Ha Hof; apply Hrep; assumption|].
    cbn in Er. destruct (accepted_receipt _ j); [reflexivity|discriminate].
Qed.
End storable.
