(* ===== verification/Retention.v ===== *)
(** * Retention: what must be kept

    [internal/domain/retention.go]: the collector that walks over everything a
    product refers to and marks the images that may not be removed, with the
    reason, and the places where the evidence is incomplete, as blockers.  The
    methods of [retentionCollector] are functions from collectors to
    collectors; a pointer to an image is its key in [images].  [Grows] is the
    order in which the collector only ever learns. *)
From S2P Require Import Prelude GoText Worklist GoJson Delivery Domain Status Planning Handlers Collections DeviceAuth Reservation WorkerAuth Composition Pins WorkerJobs Publications Registry Restoration Checks WorkerChecks.
Open Scope string_scope.
Open Scope list_scope.

(** ** The report's parts *)
Record EffectiveRetentionPolicy := mkEffectiveRetentionPolicy {
  EffectiveRetentionPolicy_ApplicationID : string; EffectiveRetentionPolicy_ConfiguredKeepLast : Z;
  EffectiveRetentionPolicy_EffectiveKeepLast : Z; EffectiveRetentionPolicy_KeepCurrent : bool;
  EffectiveRetentionPolicy_KeepPrevious : Z
}.
Record RetentionImage := mkRetentionImage {
  RetentionImage_Identity : string; RetentionImage_ImageRepository : string; RetentionImage_Digest : string;
  RetentionImage_ApplicationIDs : list string; RetentionImage_Profiles : list string; RetentionImage_ArtifactIDs : list string;
  RetentionImage_Reasons : list string; RetentionImage_Blockers : list string; RetentionImage_Protected : bool;
  RetentionImage_Availability : string; RetentionImage_Freshness : string; RetentionImage_PublishedAt : option Time
}.

(** [retentionCollector] *)
Record retentionCollector := mkCollector {
  c_st : State; c_product : string; c_now : Time;
  c_images : gmap string RetentionImage; c_observed : gmap string Time; c_availabilityEvidence : gmap string (list string);
  c_policies : list EffectiveRetentionPolicy; c_blockers : list string; c_evidence : list string;
  c_ops : gmap string ExternalOperation
}.

(** [time.Parse(time.RFC3339Nano, s)] *)
Class TimeLayout := { parse_rfc3339nano : string -> option Time }.

Definition block (code : string) (c : retentionCollector) : retentionCollector := c <| c_blockers ::= fun l => l ++ [code] |>.
Definition learn (fact : string) (c : retentionCollector) : retentionCollector := c <| c_evidence ::= fun l => l ++ [fact] |>.
(** A write through the pointer to an image. *)
Definition edit_image (key : string) (f : RetentionImage -> RetentionImage) (c : retentionCollector) : retentionCollector :=
  c <| c_images ::= alter f key |>.
Definition protect (reason : string) (v : RetentionImage) : RetentionImage :=
  v <| RetentionImage_Protected := true |> <| RetentionImage_Reasons ::= fun l => l ++ [reason] |>.
Definition image_blocker (code : string) (v : RetentionImage) : RetentionImage :=
  v <| RetentionImage_Blockers ::= fun l => l ++ [code] |>.
Definition new_image (key repo digest : string) : RetentionImage :=
  mkRetentionImage key repo digest [] [] [] [] [] false "UNKNOWN" "UNKNOWN" None.
Definition image_use (app reason : string) (v : RetentionImage) : RetentionImage :=
  let v := if app != "" then v <| RetentionImage_ApplicationIDs ::= fun l => l ++ [app] |> else v in
  if reason != "" then protect reason v else v.
Definition image_key (repo digest : string) : string := repo +:+ "@" +:+ digest.
(** [^[A-Za-z0-9][A-Za-z0-9_.:/-]{0,127}$] *)
Definition validRetentionProfile : string -> bool := identifier (ident_char "_.:/-") 0 127.
Definition terminalRetention (status : string) : bool := (status == "SUCCEEDED") || (status == "FAILED") || (status == "CANCELLED").
Definition lookup_str (m : gmap string string) (k : string) : string := default "" (m !! k).
(** The publication's destination, [TrimPrefix(TrimPrefix(Origin, "https://"), "http://") + "/" + Repository]. *)
Definition publication_repository (p : WorkerPublication) : string :=
  trim_prefix "http://" (trim_prefix "https://" (WorkerPublication_Origin p)) +:+ "/" +:+ WorkerPublication_Repository p.
(** The prefixes container runtimes put before an image. *)
Definition runtime_reference (value : string) : string :=
  trim_prefix "containerd://" (trim_prefix "docker://" (trim_prefix "docker-pullable://" value)).
(** [strings.Index] and [strings.LastIndex] of one character; [None] is -1. *)
Fixpoint index_char (a : ascii) (s : string) : option nat :=
  match s with
  | EmptyString => None
  | String b s => if b == a then Some O else S <$> index_char a s
  end.
Fixpoint last_index_char (a : ascii) (s : string) : option nat :=
  match s with
  | EmptyString => None
  | String b s =>
    match last_index_char a s with
    | Some i => Some (S i)
    | None => if b == a then Some O else None
    end
  end.
Definition after_index (i j : option nat) : bool :=
  match i, j with
  | Some i, Some j => (j <? i)%nat
  | Some _, None => true
  | None, _ => false
  end.
(** [if i := LastIndex(s, ":"); i > LastIndex(s, "/") { s = s[:i] }] *)
Definition strip_tag (s : string) : string :=
  let i := last_index_char ":"%char s in
  if after_index i (last_index_char slash s) then str_take (default 0%nat i) s else s.
(** [if i := Index(s, "@"); i >= 0 { s = s[:i] }] *)
Definition strip_digest (s : string) : string :=
  match index_char "@"%char s with Some i => str_take i s | None => s end.

Section collector.
Context `{Runtime, NetURL, URLs, Encoding, Hashing, MapOrder, TimeLayout}.

(** [c.image]: the pointer returned is [None] when the reference is not exact. *)
Definition image (repo digest app reason : string) (c : retentionCollector) : retentionCollector * option string :=
  match CanonicalImageRepository repo with
  | Ok r =>
    if negb (is_digest digest) then (block "unresolved_image_reference" c, None)
    else
      let key := image_key r digest in
      let v := default (new_image key r digest) (c_images c !! key) in
      (c <| c_images ::= <[key := image_use app reason v]> |>, Some key)
  | Err _ => (block "unresolved_image_reference" c, None)
  end.
(** [c.image(...)] as a statement. *)
Definition root (repo digest app reason : string) (c : retentionCollector) : retentionCollector := (image repo digest app reason c).1.

(** ** Where an artifact was built *)
Definition gha_snapshot (a : DeliveryArtifact) (s : DeliverySnapshot) : bool :=
  let build := DeliverySnapshot_Build s in
  negb ((ComponentBuild_Mode build != "") && (ComponentBuild_Mode build != "GITHUB_ACTIONS"))
  && (ID (DeliverySnapshot_Application s) == DeliveryArtifact_ApplicationID a)
  && (ProductID (DeliverySnapshot_Application s) == ProductID a)
  && (ComponentBuild_ApplicationID build == DeliveryArtifact_ApplicationID a) && (ProductID build == ProductID a)
  && (ProductID (DeliverySnapshot_Revision s) == ProductID a)
  && (IntegrationRevision_RepositoryID (DeliverySnapshot_Revision s) == DeliveryArtifact_RepositoryID a)
  && (IntegrationRevision_HeadCommit (DeliverySnapshot_Revision s) == DeliveryArtifact_SourceCommit a)
  && (ProductID (DeliverySnapshot_Source s) == ProductID a)
  && (RepositoryBinding_RepositoryID (DeliverySnapshot_Source s) == DeliveryArtifact_RepositoryID a)
  && (DeliverySnapshot_BuildRequest s == DeliveryArtifact_BuildRequest a)
  && (BuildRequest_SourceSHA (DeliveryArtifact_BuildRequest a) == DeliveryArtifact_SourceCommit a)
  && (BuildRequest_Repository (DeliveryArtifact_BuildRequest a) != "")
  && (ComponentBuild_ImageRepository build == DeliveryArtifact_ImageRepository a)
  && negb (str_contains "/" (BuildRequest_Repository (DeliveryArtifact_BuildRequest a))
           && negb (equal_fold (BuildRequest_Repository (DeliveryArtifact_BuildRequest a))
                      (RepositoryBinding_FullName (DeliverySnapshot_Source s)))).
(** The operation, with its snapshot, when the boolean the source returns is true. *)
Definition ghaOrigin (c : retentionCollector) (a : DeliveryArtifact) : option (ExternalOperation * DeliverySnapshot) :=
  match c_ops c !! BuildRequest_OperationID (DeliveryArtifact_BuildRequest a) with
  | None => None
  | Some o =>
    match ExternalOperation_Snapshot o with
    | None => None
    | Some s =>
      if (ProductID a == c_product c) && (ProductID o == ProductID a)
         && (ExternalOperation_ApplicationID o == DeliveryArtifact_ApplicationID a) && (ExternalOperation_Kind o == "DEPLOY")
         && (BuildRequest_OperationID (DeliveryArtifact_BuildRequest a) == ID o) && gha_snapshot a s
      then Some (o, s) else None
    end
  end.
Definition githubAPI (raw : string) : bool :=
  (raw == "") || equal_fold (trim_right_char slash raw) "https://api.github.com"
  || equal_fold (trim_right_char slash raw) "https://api.github.com:443".
Definition artifactRepo (c : retentionCollector) (a : DeliveryArtifact) : string :=
  match CanonicalImageRepository (DeliveryArtifact_ImageRepository a) with
  | Ok r => r
  | Err _ =>
    match ghaOrigin c a with
    | Some (_, s) =>
      let conn := DeliverySnapshot_SourceConnection s in
      if (0 <? Connection_AppID conn)%Z && githubAPI (Connection_APIURL conn) then
        match CanonicalImageRepository ("ghcr.io/" +:+ DeliveryArtifact_ImageRepository a) with
        | Ok r => r
        | Err _ => DeliveryArtifact_ImageRepository a
        end
      else DeliveryArtifact_ImageRepository a
    | None => DeliveryArtifact_ImageRepository a
    end
  end.
Definition frozenImageRepository (c : retentionCollector) (s : DeliverySnapshot) : string :=
  artifactRepo c ((zero : DeliveryArtifact)
    <| DeliveryArtifact_Meta := (zero : Meta) <| Meta_ProductID := c_product c |> |>
    <| DeliveryArtifact_ApplicationID := ID (DeliverySnapshot_Application s) |>
    <| DeliveryArtifact_RepositoryID := IntegrationRevision_RepositoryID (DeliverySnapshot_Revision s) |>
    <| DeliveryArtifact_SourceCommit := IntegrationRevision_HeadCommit (DeliverySnapshot_Revision s) |>
    <| DeliveryArtifact_ImageRepository := ComponentBuild_ImageRepository (DeliverySnapshot_Build s) |>
    <| DeliveryArtifact_BuildRequest := DeliverySnapshot_BuildRequest s |>).

(** ** Availability: the newest observation, with all that are as new *)
Definition observe (key : option string) (at_ : Time) (availability : string) (c : retentionCollector) : retentionCollector :=
  match key with
  | None => c
  | Some key =>
    match c_observed c !! key with
    | Some old =>
      if After at_ old then
        c <| c_observed ::= <[key := at_]> |> <| c_availabilityEvidence ::= <[key := [availability]]> |>
      else if at_ == old then
        c <| c_availabilityEvidence ::= fun m => <[key := default [] (m !! key) ++ [availability]]> m |>
      else c
    | None => c <| c_observed ::= <[key := at_]> |> <| c_availabilityEvidence ::= <[key := [availability]]> |>
    end
  end.

(** ** When an artifact was published *)
Definition native_job (a : DeliveryArtifact) (n : NativeArtifact) (j : WorkerJob) : bool :=
  (ProductID j == ProductID a) && (WorkerJob_Capability j == "registry_publish")
  && (DeliveryArtifact_OperationID a == WorkerJob_OperationID j) && (WorkerJob_Status j == "SUCCEEDED")
  && negb (WorkerJob_CancellationRequested j) && (WorkerJob_InputHash j == Fingerprint (WorkerJob_Inputs j))
  && (WorkerJob_InputHash j == NativeArtifact_PublicationInputHash n)
  && (WorkerInputs_RepositoryID (WorkerJob_Inputs j) == DeliveryArtifact_RepositoryID a)
  && (WorkerInputs_SourceSHA (WorkerJob_Inputs j) == DeliveryArtifact_SourceCommit a).
Definition native_attempt (j : WorkerJob) (t : WorkerAttempt) : bool :=
  (WorkerAttempt_JobID t == ID j) && (ProductID t == ProductID j) && (WorkerAttempt_Fence t == WorkerJob_Fence j)
  && (WorkerAttempt_InputHash t == WorkerJob_InputHash j) && (WorkerAttempt_Status t == "SUCCEEDED")
  && negb (After (Meta_UpdatedAt (WorkerAttempt_Meta t)) (WorkerJob_Deadline j)).
Definition native_report (a : DeliveryArtifact) (n : NativeArtifact) (j : WorkerJob) (t : WorkerAttempt) (p : WorkerPublication)
    (r : WorkerReport) : bool :=
  let request := WorkerReport_WorkerAttemptRequest r in
  match CanonicalImageRepository (publication_repository p), CanonicalImageRepository (DeliveryArtifact_ImageRepository a) with
  | Ok x, Ok y => x == y
  | _, _ => false
  end
  && (WorkerPublication_ComponentID p == DeliveryArtifact_ApplicationID a) && (WorkerPublication_Profile p == NativeArtifact_Profile n)
  && (WorkerPublication_Receipt p == NativeArtifact_Receipt n)
  && (WorkerLocalOCI_ManifestDigest (NativeArtifact_Receipt n) == DeliveryArtifact_Digest a)
  && (NativeObservation_ManifestDigest (NativeArtifact_Observation n) == DeliveryArtifact_Digest a)
  && (WorkerReport_Result r == "PASSED") && (WorkerAttemptRequest_JobID request == ID j)
  && (WorkerAttemptRequest_AttemptID request == ID t) && (WorkerAttemptRequest_Fence request == WorkerAttempt_Fence t)
  && (WorkerAttemptRequest_InputHash request == WorkerJob_InputHash j) && negb (is_some (WorkerReport_LocalOCI r))
  && match WorkerReport_Publication r with
     | Some pr => WorkerPublicationReport_ManifestDigest pr == DeliveryArtifact_Digest a
     | None => false
     end.
Definition reports_receipt (p : WorkerPublication) (b : WorkerJob) (published : Time) (t : WorkerAttempt) : bool :=
  (ID t == WorkerLocalOCI_AttemptID (WorkerPublication_Receipt p)) && (WorkerAttempt_JobID t == ID b)
  && (ProductID t == ProductID b) && negb (IsZero (Meta_UpdatedAt (WorkerAttempt_Meta t)))
  && negb (After (Meta_UpdatedAt (WorkerAttempt_Meta t)) published)
  && match WorkerAttempt_Report t with
     | Some r => WorkerReport_LocalOCI r == Some (WorkerPublication_Receipt p)
     | None => false
     end.
Definition built_by (st : State) (j : WorkerJob) (p : WorkerPublication) (published : Time) : bool :=
  existsb (fun b =>
    (ID b == WorkerLocalOCI_JobID (WorkerPublication_Receipt p)) && (WorkerJob_InputHash b == Fingerprint (WorkerJob_Inputs b))
    && (ProductID b == ProductID j)
    && (WorkerInputs_RepositoryID (WorkerJob_Inputs b) == WorkerInputs_RepositoryID (WorkerJob_Inputs j))
    && (WorkerInputs_SourceSHA (WorkerJob_Inputs b) == WorkerInputs_SourceSHA (WorkerJob_Inputs j))
    && checkSuccessProvenance st b && existsb (reports_receipt p b published) (State_WorkerAttempts st)) (State_WorkerJobs st).
Definition native_chronology (c : retentionCollector) (a : DeliveryArtifact) (n : NativeArtifact) : option (string * Time) :=
  if (DeliveryArtifact_Provenance a != "NATIVE_WORKER") || is_some (NativeArtifact_Reconciliation n)
     || negb (validRetentionProfile (NativeArtifact_Profile n)) then None
  else match find_last (has_id (NativeArtifact_PublicationJobID n)) (State_WorkerJobs (c_st c)),
             find_last (has_id (NativeArtifact_PublicationAttemptID n)) (State_WorkerAttempts (c_st c)) with
  | Some j, Some t =>
    match WorkerInputs_Publication (WorkerJob_Inputs j), WorkerAttempt_Report t with
    | Some p, Some r =>
      let published := Meta_UpdatedAt (WorkerAttempt_Meta t) in
      if native_job a n j && native_attempt j t && native_report a n j t p r
         && (built_by (c_st c) j p published && negb (IsZero published) && negb (After published (c_now c)))
      then Some (NativeArtifact_Profile n, published) else None
    | _, _ => None
    end
  | _, _ => None
  end.
Definition run_matches (a : DeliveryArtifact) (o : ExternalOperation) (run : DeliveryBuildRun) : bool :=
  let r := DeliveryBuildRun_Result run in
  let f := lookup_str (RunResult_Artifacts r) in
  (ProductID run == ProductID a) && (DeliveryBuildRun_OperationID run == ID o)
  && (DeliveryBuildRun_ApplicationID run == DeliveryArtifact_ApplicationID a)
  && (DeliveryBuildRun_Request run == DeliveryArtifact_BuildRequest a) && RunResult_Found r
  && (RunResult_ID r == DeliveryArtifact_BuildRunID a) && (RunResult_Status r == "completed")
  && (RunResult_Conclusion r == "success") && (RunResult_HeadSHA r == DeliveryArtifact_SourceCommit a)
  && (f "operation_id" == ID o) && (f "source_sha" == DeliveryArtifact_SourceCommit a)
  && (f "image_repository" == DeliveryArtifact_ImageRepository a)
  && (f "image_tag" == BuildRequest_ImageTag (DeliveryArtifact_BuildRequest a)) && (f "digest" == DeliveryArtifact_Digest a)
  && (f "available" == "true").
(** One turn of the loop over the runs. *)
Definition earlier_run (c : retentionCollector) (a : DeliveryArtifact) (o : ExternalOperation) (earliest : Time) (run : DeliveryBuildRun) : Time :=
  if negb (run_matches a o run) then earliest
  else match parse_rfc3339nano (lookup_str (RunResult_Artifacts (DeliveryBuildRun_Result run)) "observed_at") with
  | Some at_ =>
    if negb (IsZero at_) && negb (After at_ (c_now c)) && (IsZero earliest || Before at_ earliest) then at_ else earliest
  | None => earliest
  end.
Definition chronology (c : retentionCollector) (a : DeliveryArtifact) : option (string * Time) :=
  match DeliveryArtifact_Native a with
  | Some n => native_chronology c a n
  | None =>
    match ghaOrigin c a with
    | None => None
    | Some (o, s) =>
      if (DeliveryArtifact_BuildRunID a <=? 0)%Z then None
      else
        let profile := if ComponentBuild_Profile (DeliverySnapshot_Build s) == "" then "default"
                       else ComponentBuild_Profile (DeliverySnapshot_Build s) in
        if negb (validRetentionProfile profile) then None
        else
          let earliest := foldl (earlier_run c a o) 0%Z (State_DeliveryBuildRuns (c_st c)) in
          if IsZero earliest then None else Some (profile, earliest)
    end
  end.

(** ** artifacts: the newest publications of a component and profile *)
Record imagePublication := mkPublication {
  publication_image : string; publication_app : string; publication_profile : string; publication_at : Time
}.
Definition group_key (app profile : string) : string := app +:+ nul +:+ profile.
Definition publication_key (app profile identity : string) : string := group_key app profile +:+ nul +:+ identity.
Definition unknown_chronology (v : RetentionImage) : RetentionImage :=
  image_blocker "unknown_publication_chronology" (protect "unknown_publication_chronology"
    (v <| RetentionImage_Profiles ::= fun l => l ++ ["unknown"] |>)).
Definition published (profile : string) (at_ : Time) (v : RetentionImage) : RetentionImage :=
  let v := v <| RetentionImage_Profiles ::= fun l => l ++ [profile] |> in
  if match RetentionImage_PublishedAt v with None => true | Some old => Before at_ old end
  then v <| RetentionImage_PublishedAt := Some at_ |> else v.
(** [if !exists || at.Before(old.at) { pubs[key] = ... }] *)
Definition add_publication (p : imagePublication) (pubs : gmap string imagePublication) : gmap string imagePublication :=
  let key := publication_key (publication_app p) (publication_profile p) (publication_image p) in
  match pubs !! key with
  | Some old => if Before (publication_at p) (publication_at old) then <[key := p]> pubs else pubs
  | None => <[key := p]> pubs
  end.
Definition collect_artifact (acc : retentionCollector * gmap string imagePublication) (a : DeliveryArtifact)
    : retentionCollector * gmap string imagePublication :=
  let '(c, pubs) := acc in
  if ProductID a != c_product c then (c, pubs)
  else
    let '(c, v) := image (artifactRepo c a) (DeliveryArtifact_Digest a) (DeliveryArtifact_ApplicationID a) "" c in
    match v with
    | None => (c, pubs)
    | Some key =>
      let c := edit_image key (fun v => v <| RetentionImage_ArtifactIDs ::= fun l => l ++ [ID a] |>) c in
      let c := observe (Some key) (DeliveryArtifact_ObservedAt a) (DeliveryArtifact_Availability a) c in
      match chronology c a with
      | None => (block "unknown_publication_chronology" (edit_image key unknown_chronology c), pubs)
      | Some (profile, at_) =>
        (edit_image key (published profile at_) c,
         add_publication (mkPublication key (DeliveryArtifact_ApplicationID a) profile at_) pubs)
      end
    end.
(** [groups[key] = append(groups[key], p)] for every publication. *)
Definition add_to_group (groups : gmap string (list imagePublication)) (p : imagePublication) : gmap string (list imagePublication) :=
  let key := group_key (publication_app p) (publication_profile p) in
  <[key := default [] (groups !! key) ++ [p]]> groups.
Definition publication_groups (pubs : gmap string imagePublication) : gmap string (list imagePublication) :=
  foldl add_to_group ∅ (map snd (map_range pubs)).
(** The order of [sort.Slice]: later first, then by image. *)
Definition newest_first : relation imagePublication := fun p q =>
  (publication_at q < publication_at p)%Z
  \/ publication_at p = publication_at q /\ String.le (publication_image p) (publication_image q).
#[export] Instance newest_first_dec : RelDecision newest_first.
Proof. intros p q. unfold newest_first. apply _. Defined.
Definition keep_last (policies : list EffectiveRetentionPolicy) (app : string) : Z :=
  match find_last (fun p => EffectiveRetentionPolicy_ApplicationID p == app) policies with
  | Some p => EffectiveRetentionPolicy_EffectiveKeepLast p
  | None => 10%Z
  end.
Definition keep_publication (c : retentionCollector) (p : imagePublication) : retentionCollector :=
  edit_image (publication_image p) (protect ("keep_last:" +:+ publication_app p +:+ ":" +:+ publication_profile p)) c.
Definition keep_group (c : retentionCollector) (group : list imagePublication) : retentionCollector :=
  let group := merge_sort newest_first group in
  match group with
  | [] => c
  | p :: _ => foldl keep_publication c (take (Z.to_nat (keep_last (c_policies c) (publication_app p))) group)
  end.
Definition artifacts (c : retentionCollector) : retentionCollector :=
  let '(c, pubs) := foldl collect_artifact (c, ∅) (State_DeliveryArtifacts (c_st c)) in
  foldl keep_group c (map snd (map_range (publication_groups pubs))).

(** ** References to images by their digest *)
Definition artifact_ref (value app reason : string) (acc : retentionCollector * bool) (a : DeliveryArtifact) : retentionCollector * bool :=
  let '(c, matched) := acc in
  if (ProductID a == c_product c) && (DeliveryArtifact_Digest a == value) && ((app == "") || (DeliveryArtifact_ApplicationID a == app))
  then (root (artifactRepo c a) value app reason c, true) else (c, matched).
Definition snapshot_ref (value app reason : string) (acc : retentionCollector * bool) (o : ExternalOperation) : retentionCollector * bool :=
  let '(c, matched) := acc in
  match ExternalOperation_Snapshot o with
  | Some s =>
    if (ProductID o == c_product c) && (ID (DeliverySnapshot_Application s) == app)
    then let '(c, v) := image (frozenImageRepository c s) value app reason c in (c, matched || is_some v)
    else (c, matched)
  | None => (c, matched)
  end.
Definition build_ref (value app reason : string) (acc : retentionCollector * bool) (b : ComponentBuild) : retentionCollector * bool :=
  let '(c, matched) := acc in
  if (ProductID b == c_product c) && (ComponentBuild_ApplicationID b == app)
  then let '(c, v) := image (ComponentBuild_ImageRepository b) value app reason c in (c, matched || is_some v)
  else (c, matched).
Definition bare_digest (value app reason : string) (c : retentionCollector) : retentionCollector :=
  let '(c, matched) := foldl (artifact_ref value app reason) (c, false) (State_DeliveryArtifacts (c_st c)) in
  let '(c, matched) :=
    if negb matched && (app != "") then
      let acc := foldl (snapshot_ref value app reason) (c, matched) (State_Operations (c_st c)) in
      foldl (build_ref value app reason) acc (State_ComponentBuilds (c_st c))
    else (c, matched) in
  if negb matched then block "unresolved_image_repository" c else c.
Definition ref (value hint app reason : string) (c : retentionCollector) : retentionCollector :=
  let value := runtime_reference value in
  match cut "@"%char value with
  | Some (repo, digest) => root repo digest app reason c
  | None =>
    if is_digest value then
      if hint != "" then root (strip_tag (strip_digest hint)) value app reason c
      else bare_digest value app reason c
    else if value != "" then block "mutable_or_unresolved_image_reference" c
    else c
  end.

(** ** Operations *)
Definition snapshot (s : DeliverySnapshot) (digest reason : string) (c : retentionCollector) : retentionCollector :=
  let app := ID (DeliverySnapshot_Application s) in
  let c := if digest != "" then root (frozenImageRepository c s) digest app reason c else c in
  let gitops := GitOpsRequest_ImageRepository (DeliverySnapshot_GitOpsRequest s) in
  if (gitops != "") && (digest != "") then root gitops digest app reason c else c.
Definition reconciled (c : retentionCollector) (o : ExternalOperation) : bool :=
  existsb (fun r =>
    (ProductID r == c_product c) && (RuntimeObservation_OperationID r == ID o)
    && (RuntimeObservation_EnvironmentID r == ExternalOperation_EnvironmentID o) && RuntimeObservation_Healthy r
    && match ExternalOperation_GitOpsResult o, ExternalOperation_Artifact o with
       | Some g, Some a =>
         (RuntimeObservation_GitOpsCommit r == GitOpsResult_CommitSHA g) && (RuntimeObservation_ArtifactDigest r == ArtifactResult_Digest a)
       | _, _ => false
       end
    && negb (Before (Meta_CreatedAt (RuntimeObservation_Meta r)) (Meta_UpdatedAt (ExternalOperation_Meta o)))
    && negb (IsZero (Meta_CreatedAt (RuntimeObservation_Meta r)))
    && negb (After (Meta_CreatedAt (RuntimeObservation_Meta r)) (c_now c))) (State_RuntimeObservations (c_st c)).
(** The deployed and the expected image of an operation with a snapshot. *)
Definition operation_images (o : ExternalOperation) (reason : string) (c : retentionCollector) : retentionCollector :=
  match ExternalOperation_Snapshot o with
  | None => c
  | Some s =>
    let c := match ExternalOperation_Artifact o with
             | Some a => snapshot s (ArtifactResult_Digest a) reason c
             | None => c
             end in
    if ExternalOperation_ExpectedDigest o != "" then snapshot s (ExternalOperation_ExpectedDigest o) reason c else c
  end.
Definition prepared_artifact (s : DeliverySnapshot) (reason : string) (acc : retentionCollector * string) (a : DeliveryArtifact)
    : retentionCollector * string :=
  let '(c, digest) := acc in
  if (ProductID a == c_product c) && (DeliveryArtifact_ApplicationID a == ID (DeliverySnapshot_Application s))
     && (DeliveryArtifact_SourceCommit a == IntegrationRevision_HeadCommit (DeliverySnapshot_Revision s))
  then (root (artifactRepo c a) (DeliveryArtifact_Digest a) (DeliveryArtifact_ApplicationID a) reason c, DeliveryArtifact_Digest a)
  else (c, digest).
Definition prepared_deployment (reason : string) (c : retentionCollector) (s : DeliverySnapshot) : retentionCollector :=
  let '(c, digest) := foldl (prepared_artifact s reason) (c, "") (State_DeliveryArtifacts (c_st c)) in
  if digest == "" then block "prepared_deployment_artifact_unresolved" c else c.
Definition child_images (reason : string) (c : retentionCollector) (id : string) : retentionCollector :=
  match c_ops c !! id with
  | Some child => if ProductID child == c_product c then operation_images child reason c else block "operation_child_unresolved" c
  | None => block "operation_child_unresolved" c
  end.
Definition gitops_observed (o : ExternalOperation) (c : retentionCollector) : retentionCollector :=
  match ExternalOperation_GitOpsBase o with
  | Some g => root (GitOpsSnapshot_ImageRepository g) (GitOpsSnapshot_Digest g) (ExternalOperation_ApplicationID o) "gitops_observed" c
  | None => c
  end.
Definition operation (o : ExternalOperation) (reason : string) (c : retentionCollector) : retentionCollector :=
  let c := operation_images o reason c in
  let c := match ExternalOperation_ExistingArtifact o with
           | Some a => root (artifactRepo c a) (DeliveryArtifact_Digest a) (DeliveryArtifact_ApplicationID a) reason c
           | None => c
           end in
  let c := gitops_observed o c in
  let c := foldl (prepared_deployment reason) c (ExternalOperation_PreparedDeployments o) in
  foldl (child_images reason) c (ExternalOperation_ChildIDs o).
Definition possible_effect (o : ExternalOperation) : bool :=
  is_some (ExternalOperation_StartedAt o) || is_some (ExternalOperation_Run o) || is_some (ExternalOperation_GitOpsPR o)
  || is_some (ExternalOperation_GitOpsResult o) || is_some (ExternalOperation_Native o) || (0 <? ExternalOperation_Attempts o)%Z.
Definition inflight (o : ExternalOperation) : bool :=
  negb (terminalRetention (ExternalOperation_Status o)) || (ExternalOperation_Kind o == "RELEASE_CANDIDATE")
  || is_some (ExternalOperation_GitOpsPR o).
Definition uncertain (c : retentionCollector) (o : ExternalOperation) : bool :=
  ((ExternalOperation_Status o == "FAILED") || (ExternalOperation_Status o == "CANCELLED")) && possible_effect o && negb (reconciled c o).
Definition collect_operation (c : retentionCollector) (o : ExternalOperation) : retentionCollector :=
  if ProductID o != c_product c then c
  else
    let reason := if inflight o then "operation_inflight" else "" in
    let '(reason, c) := if uncertain c o then ("uncertain_external_intent", block "uncertain_external_intent" c) else (reason, c) in
    let c := if reason != "" then operation o reason c else c in
    match ExternalOperation_GitOpsBase o with
    | Some g => if GitOpsSnapshot_Digest g != "" then gitops_observed o c else c
    | None => c
    end.

(** ** Worker jobs *)
Definition admitted_artifact (c : retentionCollector) (p : NativeArtifact -> bool) : bool :=
  existsb (fun a => (ProductID a == c_product c)
                    && match DeliveryArtifact_Native a with Some n => p n | None => false end
                    && is_some (chronology c a)) (State_DeliveryArtifacts (c_st c)).
Definition publication_receipt (j : WorkerJob) (p : WorkerPublication) (c : retentionCollector) (a : WorkerAttempt) : retentionCollector :=
  match WorkerAttempt_Report a with
  | Some r =>
    match WorkerReport_Publication r with
    | Some pr =>
      if WorkerAttempt_JobID a == ID j
      then root (publication_repository p) (WorkerPublicationReport_ManifestDigest pr) (WorkerPublication_ComponentID p)
             "worker_publication_receipt" c
      else c
    | None => c
    end
  | None => c
  end.
Definition collect_publication (j : WorkerJob) (p : WorkerPublication) (c : retentionCollector) : retentionCollector :=
  let status := WorkerJob_Status j in
  if (status != "SUCCEEDED") || negb (admitted_artifact c (fun n => NativeArtifact_PublicationJobID n == ID j)) then
    let c := root (publication_repository p) (WorkerLocalOCI_ManifestDigest (WorkerPublication_Receipt p))
               (WorkerPublication_ComponentID p) "worker_publication_intent" c in
    let c := if status == "SUCCEEDED" then block "publication_admission_missing_or_invalid" c
             else if (status == "FAILED") || (status == "CANCELLED") || (status == "RECONCILIATION_REQUIRED")
             then block "uncertain_publication_intent" c else c in
    foldl (publication_receipt j p) c (State_WorkerAttempts (c_st c))
  else c.
Definition receipt_delivery (j : WorkerJob) (digest : string) (acc : retentionCollector * bool) : retentionCollector * bool :=
  let '(c, known) := acc in
  match WorkerInputs_SourceProof (WorkerJob_Inputs j) with
  | Some proof =>
    match c_ops c !! WorkerSourceProof_DeliveryID proof with
    | Some o =>
      match ExternalOperation_Snapshot o with
      | Some s => if ProductID o == c_product c then (snapshot s digest "accepted_build_receipt" c, true) else (c, known)
      | None => (c, known)
      end
    | None => (c, known)
    end
  | None => (c, known)
  end.
Definition receipt_publication (j : WorkerJob) (digest : string) (acc : retentionCollector * bool) (pub : WorkerJob)
    : retentionCollector * bool :=
  let '(c, known) := acc in
  match WorkerInputs_Publication (WorkerJob_Inputs pub) with
  | Some p =>
    if (ProductID pub == c_product c) && (WorkerLocalOCI_JobID (WorkerPublication_Receipt p) == ID j)
    then (root (publication_repository p) digest (WorkerPublication_ComponentID p) "accepted_build_receipt" c, true)
    else (c, known)
  | None => (c, known)
  end.
Definition build_receipt (j : WorkerJob) (acc : retentionCollector * bool) (a : WorkerAttempt) : retentionCollector * bool :=
  match WorkerAttempt_Report a with
  | Some r =>
    match WorkerReport_LocalOCI r with
    | Some receipt =>
      if (WorkerAttempt_JobID a == ID j) && (WorkerAttempt_Fence a == WorkerJob_Fence j) then
        let digest := WorkerLocalOCI_ManifestDigest receipt in
        let acc := receipt_delivery j digest acc in
        foldl (receipt_publication j digest) acc (State_WorkerJobs (c_st acc.1))
      else acc
    | None => acc
    end
  | None => acc
  end.
Definition collect_build (j : WorkerJob) (c : retentionCollector) : retentionCollector :=
  if admitted_artifact c (fun n => WorkerLocalOCI_JobID (NativeArtifact_Receipt n) == ID j) then c
  else
    let '(c, known) := foldl (build_receipt j) (c, false) (State_WorkerAttempts (c_st c)) in
    if negb known then block "build_receipt_destination_unknown" c else c.
Definition collect_job (c : retentionCollector) (j : WorkerJob) : retentionCollector :=
  if ProductID j != c_product c then c
  else match WorkerInputs_Publication (WorkerJob_Inputs j) with
  | Some p => collect_publication j p c
  | None => if (WorkerJob_Capability j == "local_oci_build") && checkSuccessProvenance (c_st c) j then collect_build j c else c
  end.
Definition operations (c : retentionCollector) : retentionCollector :=
  let c := foldl collect_operation c (State_Operations (c_st c)) in
  foldl collect_job c (State_WorkerJobs (c_st c)).
End collector.
