(* ===== verification/RetentionRoots.v ===== *)
(** * Retention: roots of environments, releases and recoveries

    The rest of the collector: desired and observed environments and the
    executed releases (retention.go), the images of Dev baselines
    (dev_baseline_retention.go) and of restorations (dev_restoration.go). *)
From S2P Require Import Prelude GoText Worklist GoJson Delivery Domain Status Planning Handlers Collections DeviceAuth Reservation WorkerAuth Composition Pins WorkerJobs Publications Registry Restoration Checks WorkerChecks Retention.
Open Scope string_scope.
Open Scope list_scope.

(** ** JSON documents of environments *)
Definition key_of (e : string * json) : string := e.1.
(** The value a decoded object has under a key: a repeated key keeps the last. *)
Definition object_value (k : string) (kvs : list (string * json)) : option json := snd <$> find_last (fun e => e.1 == k) kvs.
Definition json_string (v : option json) : option string := match v with Some (JStr s) => Some s | _ => None end.

Section roots.
Context `{Runtime, NetURL, URLs, Encoding, Hashing, MapOrder, TimeLayout}.

Definition image_entry (reason repo k : string) (v : json) (c : retentionCollector) : retentionCollector :=
  match v with
  | JStr s => if (k == "image") || (k == "workload_image") || (k == "image_id") then ref s repo "" reason c else c
  | _ => c
  end.
(** A nested object is visited in the order it is written, without the entries
    that a later one with the same key replaced; the order of the top level is
    that of the map. *)
Fixpoint environmentMap (reason : string) (v : json) (c : retentionCollector) : retentionCollector :=
  match v with
  | JObj kvs =>
    match kvs with
    | [] => c
    | _ =>
      let c := block "untyped_environment_evidence" c in
      let repo := default "" (json_string (object_value "image_repository" kvs)) in
      let c := match json_string (object_value "digest" kvs) with Some digest => ref digest repo "" reason c | None => c end in
      (fix entries (l : list (string * json)) (c : retentionCollector) : retentionCollector :=
         match l with
         | [] => c
         | (k, x) :: l =>
           if contains (map key_of l) k then entries l c
           else
             let c := image_entry reason repo k x c in
             let c := match x with JObj _ => environmentMap reason x c | _ => c end in
             entries l c
         end) kvs c
    end
  | _ => c
  end.
Definition environment_document (reason : string) (m : gmap string json) (c : retentionCollector) : retentionCollector :=
  environmentMap reason (JObj (map_range m)) c.

(** ** Compositions *)
Definition part_commit (comp : Composition) (part : CompositionComponent) (commit : string) : bool :=
  (commit == CompositionComponent_BaseCommit part)
  || existsb (fun rev => contains (CompositionComponent_RevisionIDs part) (ID rev)
                         && (IntegrationRevision_HeadCommit rev == commit)) (Composition_RevisionSnapshots comp).
Definition part_artifact (comp : Composition) (part : CompositionComponent) (acc : retentionCollector * bool) (a : DeliveryArtifact)
    : retentionCollector * bool :=
  let '(c, found) := acc in
  if (ProductID a == c_product c) && (DeliveryArtifact_ApplicationID a == CompositionComponent_ApplicationID part)
     && part_commit comp part (DeliveryArtifact_SourceCommit a)
  then (root (artifactRepo c a) (DeliveryArtifact_Digest a) (DeliveryArtifact_ApplicationID a) "desired_composition" c, true)
  else (c, found).
Definition composition_part (comp : Composition) (c : retentionCollector) (part : CompositionComponent) : retentionCollector :=
  let '(c, found) := foldl (part_artifact comp part) (c, false) (State_DeliveryArtifacts (c_st c)) in
  if negb found then block "desired_composition_artifact_unresolved" c else c.
Definition composition (comp : Composition) (c : retentionCollector) : retentionCollector :=
  foldl (composition_part comp) c (Composition_Components comp).

(** ** Environments *)
Definition desired_operation (e : Environment) (c : retentionCollector) : retentionCollector :=
  if Environment_DesiredOperationID e == "" then c
  else match c_ops c !! Environment_DesiredOperationID e with
  | Some o => if ProductID o == c_product c then operation o "desired_operation" c else block "desired_operation_unresolved" c
  | None => block "desired_operation_unresolved" c
  end.
Definition desired_composition (e : Environment) (c : retentionCollector) : retentionCollector :=
  if Environment_DesiredCompositionID e == "" then c
  else
    let found := List.filter (fun comp => (ID comp == Environment_DesiredCompositionID e) && (ProductID comp == c_product c))
                   (State_Compositions (c_st c)) in
    let c := foldl (fun c comp => composition comp c) c found in
    if bool_decide (found = []) then block "desired_composition_unresolved" c else c.
Definition collect_environment (c : retentionCollector) (e : Environment) : retentionCollector :=
  if ProductID e != c_product c then c
  else
    let c := desired_operation e c in
    let c := desired_composition e c in
    let c := environment_document "desired_state" (Environment_Desired e) c in
    let c := environment_document "flux_reconciled" (Environment_Reconciled e) c in
    environment_document "runtime_observed" (Environment_Runtime e) c.

(** ** What was seen running *)
Definition runtimePodEvidence (r : RuntimeSnapshot) : list string :=
  sortedUnique (map (fun p => Fingerprint p) (DeliveryRuntimeSnapshot_Pods (RuntimeSnapshot_Runtime r))).
Definition runtime_fact (r : RuntimeSnapshot) (fresh : string) : string :=
  let v := RuntimeSnapshot_Runtime r in
  Fingerprint (ID r, RuntimeSnapshot_EnvironmentID r, RuntimeSnapshot_ApplicationID r, fresh, RuntimeSnapshot_Expected r,
    DeliveryRuntimeSnapshot_WorkloadImage v, runtimePodEvidence r, DeliveryRuntimeSnapshot_Flux v,
    negb (bool_decide (DeliveryRuntimeSnapshot_Errors v = []))).
Definition flux_operation (r : RuntimeSnapshot) (revision : string) (acc : retentionCollector * bool) (o : ExternalOperation)
    : retentionCollector * bool :=
  let '(c, matched) := acc in
  match ExternalOperation_GitOpsResult o, ExternalOperation_Snapshot o with
  | Some g, Some s =>
    let commit := GitOpsResult_CommitSHA g in
    if (ProductID o == c_product c) && (ExternalOperation_EnvironmentID o == RuntimeSnapshot_EnvironmentID r)
       && (ExternalOperation_ApplicationID o == RuntimeSnapshot_ApplicationID r) && (commit != "")
       && ((revision == commit) || has_suffix (":" +:+ commit) revision)
    then
      let digest := match ExternalOperation_Artifact o with
                    | Some a => ArtifactResult_Digest a
                    | None => ExternalOperation_ExpectedDigest o
                    end in
      if digest != "" then (snapshot s digest "flux_reconciled" c, true) else (c, matched)
    else (c, matched)
  | _, _ => (c, matched)
  end.
Definition flux_images (r : RuntimeSnapshot) (c : retentionCollector) : retentionCollector :=
  match DeliveryRuntimeSnapshot_Flux (RuntimeSnapshot_Runtime r) with
  | None => c
  | Some f =>
    if RuntimeFluxSnapshot_Revision f == "" then c
    else
      let '(c, matched) := foldl (flux_operation r (RuntimeFluxSnapshot_Revision f)) (c, false) (State_Operations (c_st c)) in
      if negb matched then block "flux_image_lineage_unresolved" c else c
  end.
Definition runtime_health (r : RuntimeSnapshot) (fresh : string) (c : retentionCollector) : retentionCollector :=
  let v := RuntimeSnapshot_Runtime r in
  let c := if fresh != "FRESH" then block ("runtime_evidence_" +:+ to_lower fresh) c else c in
  let c := if negb (bool_decide (DeliveryRuntimeSnapshot_Errors v = [])) || (RuntimeExpected_Error (RuntimeSnapshot_Expected r) != "")
           then block "runtime_observation_error" c else c in
  match DeliveryRuntimeSnapshot_Flux v with
  | None => block "flux_evidence_missing" c
  | Some f => if RuntimeFluxSnapshot_Error f != "" then block "flux_observation_error" c else c
  end.
Definition pod_images (app : string) (c : retentionCollector) (p : RuntimePod) : retentionCollector :=
  let c := ref (RuntimePod_Image p) "" app "runtime_pod" c in
  ref (RuntimePod_ImageID p) (RuntimePod_Image p) app "runtime_pod" c.
Definition collect_runtime (c : retentionCollector) (r : RuntimeSnapshot) : retentionCollector :=
  if ProductID r != c_product c then c
  else
    let app := RuntimeSnapshot_ApplicationID r in
    let fresh := evidenceFreshness (DeliveryRuntimeSnapshot_ObservedAt (RuntimeSnapshot_Runtime r)) (c_now c) in
    let c := learn (runtime_fact r fresh) c in
    let c := runtime_health r fresh c in
    let c := flux_images r c in
    let c := ref (RuntimeExpected_Value (RuntimeSnapshot_Expected r)) (RuntimeExpected_ImageRepository (RuntimeSnapshot_Expected r))
               app "gitops_expected" c in
    let c := ref (DeliveryRuntimeSnapshot_WorkloadImage (RuntimeSnapshot_Runtime r)) "" app "runtime_workload" c in
    foldl (pod_images app) c (DeliveryRuntimeSnapshot_Pods (RuntimeSnapshot_Runtime r)).
Definition collect_attestation (c : retentionCollector) (r : RuntimeObservation) : retentionCollector :=
  if ProductID r != c_product c then c
  else
    let digest := RuntimeObservation_ArtifactDigest r in
    let unresolved := block "runtime_lineage_unresolved" (ref digest "" "" "runtime_attestation" c) in
    let c := match c_ops c !! RuntimeObservation_OperationID r with
             | Some o =>
               match ExternalOperation_Snapshot o with
               | Some s => if ProductID o == c_product c
                           then root (frozenImageRepository c s) digest (ExternalOperation_ApplicationID o) "runtime_attestation" c
                           else unresolved
               | None => unresolved
               end
             | None => unresolved
             end in
    if evidenceFreshness (Meta_CreatedAt (RuntimeObservation_Meta r)) (c_now c) != "FRESH"
    then block "runtime_attestation_stale_or_unknown" c else c.
Definition environments (c : retentionCollector) : retentionCollector :=
  let c := foldl collect_environment c (State_Environments (c_st c)) in
  let c := foldl collect_runtime c (State_RuntimeSnapshots (c_st c)) in
  foldl collect_attestation c (State_RuntimeObservations (c_st c)).

(** ** Releases *)
Record retainedRelease := mkRetainedRelease {
  retainedRelease_at : Time; retainedRelease_id : string; retainedRelease_scope : string;
  retainedRelease_children : list ExternalOperation; retainedRelease_extra : Z
}.
(** The local variables of the loop over the artifacts of a release. *)
Record lineage := mkLineage {
  lineage_children : list ExternalOperation; lineage_unproven : list (DeliverySnapshot * string);
  lineage_complete : bool; lineage_scopes : list string
}.
Definition release_shape (c : retentionCollector) (r : Release) (parent : option ExternalOperation) : bool :=
  let digests := size (Release_ArtifactDigests r) in
  match parent with
  | None => false
  | Some parent =>
    (ProductID parent == c_product c) && (ExternalOperation_Status parent == "SUCCEEDED")
    && (ExternalOperation_Kind parent == "RELEASE_PROMOTION") && negb (Release_RecordedExternally r)
    && (Release_Status r == "released") && negb (digests =? 0)%nat && (length (ExternalOperation_ChildIDs parent) =? digests)%nat
    && negb (IsZero (Meta_CreatedAt (Release_Meta r))) && negb (After (Meta_CreatedAt (Release_Meta r)) (c_now c))
  end.
Definition executed_child (c : retentionCollector) (r : Release) (app : string) (child : ExternalOperation) : bool :=
  (Release_ExecutionOperationID r != "") && (ProductID child == c_product c)
  && (ExternalOperation_ParentID child == Release_ExecutionOperationID r) && (ExternalOperation_ApplicationID child == app)
  && is_some (ExternalOperation_Snapshot child).
Definition child_roots (digest : string) (child : ExternalOperation) : list (DeliverySnapshot * string) :=
  match ExternalOperation_Snapshot child with
  | Some s => (s, digest) :: match ExternalOperation_Artifact child with Some a => [(s, ArtifactResult_Digest a)] | None => [] end
  | None => []
  end.
Definition matched_child (parent : option ExternalOperation) (digest : string) (child : ExternalOperation) : bool :=
  contains (ExternalOperation_ChildIDs (default zero parent)) (ID child)
  && match ExternalOperation_Artifact child with Some a => ArtifactResult_Digest a == digest | None => false end.
Definition released_child (r : Release) (app : string) (child : ExternalOperation) (snap : DeliverySnapshot) : bool :=
  match ExternalOperation_GitOpsResult child with
  | None => false
  | Some g =>
    (ExternalOperation_Status child == "SUCCEEDED") && (GitOpsResult_CommitSHA g != "")
    && (GitOpsResult_CommitSHA g == lookup_str (Release_GitOpsCommits r) app)
    && (EnvironmentBinding_Purpose (DeliverySnapshot_Target snap) == "PROD")
    && (EnvironmentBinding_EnvironmentID (DeliverySnapshot_Target snap) == ExternalOperation_EnvironmentID child)
    && (ID (DeliverySnapshot_Environment snap) == ExternalOperation_EnvironmentID child)
    && (ID (DeliverySnapshot_Application snap) == app)
    && (lookup_str (Release_SourceCommits r) app == IntegrationRevision_HeadCommit (DeliverySnapshot_Revision snap))
    && (EnvironmentBinding_RepositoryID (DeliverySnapshot_Target snap) != "")
    && (EnvironmentBinding_Ref (DeliverySnapshot_Target snap) != "") && (EnvironmentBinding_Path (DeliverySnapshot_Target snap) != "")
    && (ComponentBuild_ImageRepository (DeliverySnapshot_Build snap) != "")
  end.
Definition healthy_child (c : retentionCollector) (r : Release) (digest : string) (child : ExternalOperation) : bool :=
  match ExternalOperation_GitOpsResult child with
  | None => false
  | Some g =>
    existsb (fun obs =>
      (ProductID obs == c_product c) && (RuntimeObservation_OperationID obs == ID child)
      && (RuntimeObservation_EnvironmentID obs == ExternalOperation_EnvironmentID child) && RuntimeObservation_Healthy obs
      && (RuntimeObservation_GitOpsCommit obs == GitOpsResult_CommitSHA g) && (RuntimeObservation_ArtifactDigest obs == digest)
      && negb (IsZero (Meta_CreatedAt (RuntimeObservation_Meta obs)))
      && negb (After (Meta_CreatedAt (RuntimeObservation_Meta obs)) (Meta_CreatedAt (Release_Meta r)))) (State_RuntimeObservations (c_st c))
  end.
Definition release_scope (c : retentionCollector) (app : string) (snap : DeliverySnapshot) : string :=
  let target := DeliverySnapshot_Target snap in
  let environment := DeliverySnapshot_Environment snap in
  Fingerprint (app, EnvironmentBinding_Purpose target,
    EnvironmentBinding_RepositoryID target +:+ "|" +:+ RepositoryBinding_FullName (DeliverySnapshot_GitOps snap),
    EnvironmentBinding_Ref target, EnvironmentBinding_Path target, ID environment, Environment_Cluster environment,
    Environment_Namespace environment, frozenImageRepository c snap).
Definition trace_artifact (c : retentionCollector) (r : Release) (parent : option ExternalOperation) (l : lineage)
    (entry : string * string) : lineage :=
  let '(app, digest) := entry in
  let executed := List.filter (executed_child c r app) (State_Operations (c_st c)) in
  let l := l <| lineage_unproven ::= fun u => u ++ flat_map (child_roots digest) executed |> in
  match List.filter (matched_child parent digest) executed with
  | [child] =>
    let l := l <| lineage_children ::= fun u => u ++ [child] |> in
    match ExternalOperation_Snapshot child with
    | None => l
    | Some snap =>
      let l := if negb (released_child r app child snap && healthy_child c r digest child) then l <| lineage_complete := false |> else l in
      l <| lineage_scopes ::= fun u => u ++ [release_scope c app snap] |>
    end
  | _ => l <| lineage_complete := false |>
  end.
Definition trace_release (c : retentionCollector) (r : Release) : lineage :=
  let parent := c_ops c !! Release_ExecutionOperationID r in
  foldl (trace_artifact c r parent) (mkLineage [] [] (release_shape c r parent) []) (map_range (Release_ArtifactDigests r)).
Definition unproven_digest (unproven : list (DeliverySnapshot * string)) (c : retentionCollector) (entry : string * string) : retentionCollector :=
  let '(app, digest) := entry in
  if existsb (fun root => (ID (DeliverySnapshot_Application root.1) == app) && (root.2 == digest)) unproven then c
  else ref digest "" app "release_unproven" c.
Definition unproven_release (r : Release) (unproven : list (DeliverySnapshot * string)) (c : retentionCollector) : retentionCollector :=
  let c := block "release_lineage_incomplete_or_external" c in
  let c := foldl (fun c root => snapshot root.1 root.2 "release_unproven" c) c unproven in
  foldl (unproven_digest unproven) c (map_range (Release_ArtifactDigests r)).
(** How many earlier releases are kept: the largest wish of its components. *)
Definition keep_previous (policies : list EffectiveRetentionPolicy) (children : list ExternalOperation) : Z :=
  foldl (fun extra p => foldl (fun extra child =>
      if (EffectiveRetentionPolicy_ApplicationID p == ExternalOperation_ApplicationID child)
         && (extra <? EffectiveRetentionPolicy_KeepPrevious p)%Z
      then EffectiveRetentionPolicy_KeepPrevious p else extra) extra children) 1%Z policies.
Definition collect_release (acc : retentionCollector * gmap string (list retainedRelease)) (r : Release)
    : retentionCollector * gmap string (list retainedRelease) :=
  let '(c, groups) := acc in
  if ProductID r != c_product c then (c, groups)
  else
    let l := trace_release c r in
    if negb (lineage_complete l) then (unproven_release r (lineage_unproven l) c, groups)
    else
      let scope := Fingerprint (sort_strings (lineage_scopes l)) in
      let kept := mkRetainedRelease (Meta_CreatedAt (Release_Meta r)) (ID r) scope (lineage_children l)
                    (keep_previous (c_policies c) (lineage_children l)) in
      (c, <[scope := default [] (groups !! scope) ++ [kept]]> groups).
Definition latest_first : relation retainedRelease := fun a b =>
  (retainedRelease_at b < retainedRelease_at a)%Z
  \/ retainedRelease_at a = retainedRelease_at b /\ String.le (retainedRelease_id a) (retainedRelease_id b).
#[export] Instance latest_first_dec : RelDecision latest_first.
Proof. intros a b. unfold latest_first. apply _. Defined.
Definition release_children (reason : string) (r : retainedRelease) (c : retentionCollector) : retentionCollector :=
  foldl (fun c child =>
    match ExternalOperation_Snapshot child, ExternalOperation_Artifact child with
    | Some s, Some a => snapshot s (ArtifactResult_Digest a) reason c
    | _, _ => c
    end) c (retainedRelease_children r).
Definition keep_release (acc : retentionCollector * nat) (r : retainedRelease) : retentionCollector * nat :=
  let '(c, n) := acc in
  (if (Z.of_nat n <=? retainedRelease_extra r)%Z
   then release_children (if (n =? 0)%nat then "production_current" else "production_previous") r c else c, S n).
Definition keep_releases (c : retentionCollector) (rs : list retainedRelease) : retentionCollector :=
  (foldl keep_release (c, O) (merge_sort latest_first rs)).1.
Definition release_roots (c : retentionCollector) : retentionCollector :=
  let '(c, groups) := foldl collect_release (c, ∅) (State_Releases (c_st c)) in
  foldl keep_releases c (map snd (map_range groups)).
End roots.
