(* ===== verification/RetentionRecovery.v ===== *)
(** * Retention: roots of Dev baselines and restorations

    [internal/domain/dev_baseline_retention.go] and the retention part of
    [dev_restoration.go]: the images a Dev reservation may have to bring back
    stay roots until the reservation has verifiably ended. *)
From S2P Require Import Prelude GoText Worklist GoJson Delivery Domain Status Planning Handlers Collections DeviceAuth Reservation WorkerAuth Composition Pins WorkerJobs Publications Registry Restoration Checks WorkerChecks Retention.
Open Scope string_scope.
Open Scope list_scope.

(** The code of the first guard that fails. *)
Fixpoint first_failure (guards : list (bool * string)) : option string :=
  match guards with
  | [] => None
  | (failed, code) :: guards => if failed then Some code else first_failure guards
  end.

Section recovery.
Context `{Runtime, NetURL, URLs, Encoding, Hashing, MapOrder, TimeLayout}.

(** The reason names the operation, by its hash where the ID is not a word. *)
Definition operation_reason (prefix id : string) : string :=
  prefix +:+ (if (128 <? strlen id)%Z || has_line_break id then Fingerprint id else id).

(** ** Baselines *)
Definition baselineHold (c : retentionCollector) (o : ExternalOperation) : ExternalOperation * bool :=
  let id := match ExternalOperation_DevBaseline o with
            | Some p => if DevBaselineProof_ReservationOperationID p != "" then DevBaselineProof_ReservationOperationID p
                        else ExternalOperation_ParentID o
            | None => ExternalOperation_ParentID o
            end in
  let holds := List.filter (has_id id) (State_Operations (c_st c)) in
  (default zero (list.last holds), (length holds =? 1)%nat && (id != "")).
Definition linked_effect (o hold effect : ExternalOperation) : bool :=
  match ExternalOperation_DevReservation effect with
  | Some p => (DevReservationProof_ReservationOperationID p == ID hold) && (ID hold != "")
  | None => false
  end
  || match ExternalOperation_DevActivation effect with
     | Some p => (DevActivationProof_ReservationOperationID p == ID hold) && (ID hold != "")
     | None => false
     end
  || ((ExternalOperation_EnvironmentID effect == ExternalOperation_EnvironmentID o)
      && (ExternalOperation_ReservationEpoch effect == ExternalOperation_ReservationEpoch o)
      && (ExternalOperation_Kind effect == "DEV_CANDIDATE_DEPLOY")).
Definition uncertain_effect (o effect : ExternalOperation) : bool :=
  (ExternalOperation_EnvironmentID effect == ExternalOperation_EnvironmentID o)
  && ((ExternalOperation_ReservationMutationIntent effect != "") || (ExternalOperation_Phase effect == "APPLY_UNCERTAIN")
      || is_some (ExternalOperation_GitOpsPR effect)).
Definition effect_fact (effect : ExternalOperation) : string :=
  Fingerprint (ID effect, ExternalOperation_Kind effect, ExternalOperation_Status effect, ExternalOperation_Phase effect,
    ExternalOperation_RequestKey effect, ExternalOperation_RequestHash effect, ExternalOperation_RequestedBy effect,
    ExternalOperation_ReservationMutationIntent effect, ExternalOperation_ReservationEpoch effect,
    ExternalOperation_ReservationQuarantined effect, ExternalOperation_DevReservation effect,
    ExternalOperation_DevActivation effect, ExternalOperation_GitOpsPR effect).
Definition baseline_facts (c : retentionCollector) (o hold : ExternalOperation) : list string :=
  map effect_fact (List.filter (fun effect => (ProductID effect == ProductID o)
                                             && (linked_effect o hold effect || uncertain_effect o effect)) (State_Operations (c_st c)))
  ++ match ExternalOperation_DevBaseline o with
     | None => []
     | Some p =>
       map (fun comp => Fingerprint comp) (List.filter (has_id (DevBaselineProof_CompositionID p)) (State_Compositions (c_st c)))
       ++ flat_map (fun part => map (fun app => Fingerprint (ID app, ProductID app, Application_RepositoryID app))
            (List.filter (has_id (DevBaselineComponent_ApplicationID part)) (State_Applications (c_st c)))) (DevBaselineProof_Components p)
     end.
Definition baselineEvidence (c : retentionCollector) (o : ExternalOperation) : string :=
  let '(hold, unique) := baselineHold c o in
  Fingerprint ((ID o, ProductID o, ExternalOperation_EnvironmentID o, ExternalOperation_ParentID o, ExternalOperation_Kind o,
      ExternalOperation_Status o, ExternalOperation_Phase o, ExternalOperation_RequestHash o, ExternalOperation_RequestedBy o,
      ExternalOperation_ReservationEpoch o, ExternalOperation_DevBaseline o, ExternalOperation_DevBaselineResult o),
    unique, (ID hold, ProductID hold, ExternalOperation_EnvironmentID hold, ExternalOperation_Kind hold,
      ExternalOperation_Status hold, ExternalOperation_Phase hold, ExternalOperation_RequestedBy hold,
      ExternalOperation_RequestHash hold, ExternalOperation_ReservationEpoch hold,
      ExternalOperation_ReservationQuarantined hold, ExternalOperation_DevReservation hold),
    sortedUnique (baseline_facts c o hold)).

(** *** What a capture covers *)
Definition baseline_proof (o : ExternalOperation) (p : DevBaselineProof) : bool :=
  let components := DevBaselineProof_Components p in
  (ExternalOperation_Kind o == "DEV_CANDIDATE_BASELINE_CAPTURE") && (DevBaselineProof_SnapshotHash p != "")
  && (DevBaselineProof_SnapshotHash p == Fingerprint (p <| DevBaselineProof_SnapshotHash := "" |>))
  && (DevBaselineProof_Generation p != 0%Z) && negb (bool_decide (components = [])) && (length components <=? 16)%nat.
Definition baseline_authority (c : retentionCollector) (o : ExternalOperation) (p : DevBaselineProof) : bool :=
  let '(hold, unique) := baselineHold c o in
  unique && (ExternalOperation_Kind hold == "DEV_RESERVATION") && (ProductID hold == ProductID o)
  && (ExternalOperation_EnvironmentID hold == ExternalOperation_EnvironmentID o)
  && (ExternalOperation_RequestedBy hold == ExternalOperation_RequestedBy o)
  && (ExternalOperation_ReservationEpoch hold == ExternalOperation_ReservationEpoch o)
  && match ExternalOperation_DevReservation hold with
     | Some d => (DevReservationProof_Epoch d == ExternalOperation_ReservationEpoch o)
                 && (Fingerprint (Some d) == DevBaselineProof_ReservationHash p)
     | None => false
     end
  && (DevBaselineRequest_ReservationOperationID (DevBaselineProof_Request p) == ID hold)
  && (DevBaselineProof_ReservationOperationID p == ID hold)
  && negb ((ExternalOperation_ParentID o != "") && (ExternalOperation_ParentID o != ID hold)).
Definition uncertain_hold (c : retentionCollector) (o : ExternalOperation) : bool :=
  let hold := (baselineHold c o).1 in
  ExternalOperation_ReservationQuarantined hold || (ExternalOperation_Status hold != "SUCCEEDED")
  || (ExternalOperation_Phase hold != "RESERVED").
Definition registered_part (c : retentionCollector) (o : ExternalOperation) (part : DevBaselineComponent) : bool :=
  existsb (fun app => (ID app == DevBaselineComponent_ApplicationID part) && (ProductID app == ProductID o)
                      && (Application_RepositoryID app == DevBaselineComponent_RepositoryID part)) (State_Applications (c_st c)).
Definition exact_part (part : DevBaselineComponent) : bool :=
  match CanonicalImageRepository (DevBaselineComponent_ImageRepository part) with
  | Ok repo => (repo == DevBaselineComponent_ImageRepository part)
               && negb ((DevBaselineComponent_Digest part != "") && negb (is_digest (DevBaselineComponent_Digest part)))
  | Err _ => false
  end.
Fixpoint part_failure (c : retentionCollector) (o : ExternalOperation) (seen : list string) (parts : list DevBaselineComponent)
    : option string :=
  match parts with
  | [] => None
  | part :: parts =>
    match first_failure [
        ((DevBaselineComponent_ApplicationID part == "") || contains seen (DevBaselineComponent_ApplicationID part),
         "baseline_capture_component_scope_invalid");
        (negb (registered_part c o part), "baseline_capture_component_scope_invalid");
        (negb (exact_part part), "baseline_capture_image_scope_invalid")] with
    | Some code => Some code
    | None => part_failure c o (DevBaselineComponent_ApplicationID part :: seen) parts
    end
  end.
Definition role_count (p : DevBaselineProof) : nat :=
  foldl (fun n part => (n + length (DevBaselineComponent_Scopes part))%nat) O (DevBaselineProof_Components p).
Definition captured_composition (c : retentionCollector) (o : ExternalOperation) (p : DevBaselineProof) : bool :=
  let seen := map DevBaselineComponent_ApplicationID (DevBaselineProof_Components p) in
  let found := List.filter (has_id (DevBaselineProof_CompositionID p)) (State_Compositions (c_st c)) in
  forallb (fun composition =>
    (ProductID composition == ProductID o) && (Composition_EnvironmentID composition == ExternalOperation_EnvironmentID o)
    && (Fingerprint composition == DevBaselineProof_CompositionHash p)
    && (length (Composition_Components composition) =? length seen)%nat
    && forallb (fun part => contains seen (CompositionComponent_ApplicationID part)) (Composition_Components composition)) found
  && (length found =? 1)%nat.
Definition pending_capture (p : DevBaselineProof) : bool :=
  existsb (fun part => DevBaselineComponent_Digest part == "") (DevBaselineProof_Components p).
Definition observed_count (r : DevRuntimeResult) : nat * nat :=
  foldl (fun acc part => (acc.1 + length (DevRuntimeComponentResult_Roles part),
    foldl (fun n role => n + length (DeliveryRuntimeSnapshot_Pods role)) acc.2 (DevRuntimeComponentResult_Roles part)))%nat
    (O, O) (DevRuntimeResult_Components r).
Definition runtime_within (r : DevRuntimeResult) : bool :=
  (length (DevRuntimeResult_Components r) <=? 16)%nat && ((observed_count r).1 <=? 64)%nat && ((observed_count r).2 <=? 512)%nat.
Definition result_failure (p : DevBaselineProof) (r : DevBaselineResult) : option string :=
  first_failure [
    ((DevBaselineResult_Hash r == "") || (DevBaselineResult_Hash r != Fingerprint (r <| DevBaselineResult_Hash := "" |>))
     || (DevBaselineResult_ExpectedHash r != DevBaselineProof_SnapshotHash p), "baseline_capture_result_invalid");
    (negb (length (DevBaselineResult_Components r) <=? 16)%nat, "baseline_capture_bounds_exceeded");
    (match DevBaselineResult_Runtime r with Some v => negb (runtime_within v) | None => false end, "baseline_capture_bounds_exceeded")].
Definition capture_failure (c : retentionCollector) (o : ExternalOperation) (p : DevBaselineProof) : option string :=
  match first_failure [
      (negb (baseline_proof o p), "baseline_capture_proof_missing_or_invalid");
      ((ExternalOperation_Status o == "SUCCEEDED") && negb (is_some (ExternalOperation_DevBaselineResult o)), "baseline_capture_result_invalid");
      ((262144 <? encoded_size (Some p, ExternalOperation_DevBaselineResult o))%Z, "baseline_capture_bounds_exceeded");
      (negb (baseline_authority c o p), "baseline_capture_authority_unknown");
      (uncertain_hold c o, "baseline_capture_hold_uncertain");
      (nativeQuarantined (c_st c) (ProductID o), "baseline_capture_hold_uncertain")] with
  | Some code => Some code
  | None =>
    match part_failure c o [] (DevBaselineProof_Components p) with
    | Some code => Some code
    | None => first_failure [(negb (role_count p <=? 64)%nat, "baseline_capture_bounds_exceeded");
                             (negb (captured_composition c o p), "baseline_capture_composition_scope_invalid")]
    end
  end.
Definition baselineCaptureScope (o : ExternalOperation) (c : retentionCollector) : retentionCollector * bool :=
  match ExternalOperation_DevBaseline o with
  | None => (block "baseline_capture_proof_missing_or_invalid" c, false)
  | Some p =>
    match capture_failure c o p with
    | Some code => (block code c, false)
    | None =>
      let c := if pending_capture p then block "baseline_capture_roots_pending" c else c in
      match ExternalOperation_DevBaselineResult o with
      | None => (c, true)
      | Some r => match result_failure p r with Some code => (block code c, false) | None => (c, true) end
      end
    end
  end.

(** *** When the hold has ended *)
Definition activating_effect (hold effect : ExternalOperation) : bool :=
  match ExternalOperation_DevActivation effect with
  | Some p => DevActivationProof_ReservationOperationID p == ID hold
  | None => false
  end
  || ((ExternalOperation_Kind effect == "DEV_CANDIDATE_DEPLOY")
      && (ExternalOperation_EnvironmentID effect == ExternalOperation_EnvironmentID hold)
      && (ExternalOperation_ReservationEpoch effect == ExternalOperation_ReservationEpoch hold)).
Definition open_effect (hold effect : ExternalOperation) : bool :=
  (ExternalOperation_EnvironmentID effect == ExternalOperation_EnvironmentID hold)
  && ((ExternalOperation_ReservationMutationIntent effect != "") || (ExternalOperation_Phase effect == "APPLY_UNCERTAIN")
      || match ExternalOperation_GitOpsPR effect with
         | Some pr => negb (GitOpsPullRequest_Merged pr) && negb (equal_fold (GitOpsPullRequest_State pr) "closed")
         | None => false
         end).
Definition settling_receipt (hold : ExternalOperation) (d : DevReservationProof) (receipt : ExternalOperation) : bool :=
  match ExternalOperation_DevReservation receipt with
  | None => false
  | Some p =>
    let request := DevReservationProof_Request p in
    (ExternalOperation_Kind receipt == "DEV_RESERVATION_RELEASE") && (ExternalOperation_Status receipt == "SUCCEEDED")
    && (ExternalOperation_Phase receipt == "RELEASED") && (ProductID receipt == ProductID hold)
    && (ExternalOperation_EnvironmentID receipt == ExternalOperation_EnvironmentID hold)
    && (ExternalOperation_RequestedBy receipt == ExternalOperation_RequestedBy hold)
    && negb (ExternalOperation_ReservationQuarantined receipt)
    && (DevReservationProof_ReservationOperationID p == ID hold)
    && (DevReservationRequest_ReservationOperationID request == ID hold)
    && (DevReservationRequest_RequestKey request == ExternalOperation_RequestKey receipt)
    && (DevReservationRequest_ExpectedSelection request == Some (DevReservationProof_ReservedSelection d))
    && (ExternalOperation_ReservationEpoch receipt == DevReservationProof_Epoch d)
    && (Fingerprint ("release_candidate_dev", ProductID receipt, ExternalOperation_RequestedBy receipt, request)
          == ExternalOperation_RequestHash receipt)
    && (p <| DevReservationProof_Request := DevReservationProof_Request d |> <| DevReservationProof_ReservationOperationID := "" |> == d)
  end.
Definition baselineHoldSettled (o : ExternalOperation) (c : retentionCollector) : retentionCollector * bool :=
  let '(hold, ok) := baselineHold c o in
  let ops := State_Operations (c_st c) in
  match ExternalOperation_DevReservation hold with
  | None => (c, false)
  | Some d =>
    if negb ok then (c, false)
    else if existsb (fun receipt => ValidRestorationRelease (c_st c) receipt hold) ops then (c, true)
    else match find_first (fun effect => (ProductID effect == ProductID hold) && (activating_effect hold effect || open_effect hold effect)) ops with
    | Some effect =>
      (block (if activating_effect hold effect then "baseline_restore_unverified" else "baseline_hold_effect_uncertain") c, false)
    | None => (c, existsb (settling_receipt hold d) ops)
    end
  end.

(** *** The images of a capture *)
Definition baseline_image (reason : string) (valid : bool) (app repo digest : string) (c : retentionCollector) : retentionCollector :=
  if digest == "" then c
  else
    let '(c, v) := image repo digest app reason c in
    match v with
    | Some key => if negb valid then edit_image key (image_blocker "baseline_capture_authority_unknown") c else c
    | None => c
    end.
Definition baseline_part (add : string -> string -> string -> retentionCollector -> retentionCollector)
    (c : retentionCollector) (part : DevBaselineComponent) : retentionCollector :=
  let app := DevBaselineComponent_ApplicationID part in
  let c := add app (DevBaselineComponent_ImageRepository part) (DevBaselineComponent_Digest part) c in
  match DevBaselineComponent_ObservedGitOps part with
  | Some g => add app (DevRuntimeGitOpsObservation_ImageRepository g) (DevRuntimeGitOpsObservation_Digest g) c
  | None => c
  end.
Definition baseline_result_part (add : string -> string -> string -> retentionCollector -> retentionCollector)
    (c : retentionCollector) (part : DevBaselineComponentResult) : retentionCollector :=
  let app := DevBaselineComponentResult_ApplicationID part in
  let g := DevBaselineComponentResult_GitOps part in
  let c := add app (DevBaselineComponentResult_ImageRepository part) (DevBaselineComponentResult_Digest part) c in
  add app (DevRuntimeGitOpsObservation_ImageRepository g) (DevRuntimeGitOpsObservation_Digest g) c.
Definition runtime_part (add : string -> string -> string -> retentionCollector -> retentionCollector)
    (c : retentionCollector) (part : DevRuntimeComponentResult) : retentionCollector :=
  let g := DevRuntimeComponentResult_GitOps part in
  add (DevRuntimeComponentResult_ApplicationID part) (DevRuntimeGitOpsObservation_ImageRepository g) (DevRuntimeGitOpsObservation_Digest g) c.
Definition baseline_images (o : ExternalOperation) (valid : bool) (c : retentionCollector) : retentionCollector :=
  let add := baseline_image (operation_reason "dev_baseline:" (ID o)) valid in
  let c := match ExternalOperation_DevBaseline o with
           | Some p => foldl (baseline_part add) c (DevBaselineProof_Components p)
           | None => c
           end in
  match ExternalOperation_DevBaselineResult o with
  | None => c
  | Some r =>
    let c := foldl (baseline_result_part add) c (DevBaselineResult_Components r) in
    match DevBaselineResult_Runtime r with
    | Some v => foldl (runtime_part add) c (DevRuntimeResult_Components v)
    | None => c
    end
  end.
Definition baseline_operation_of (c : retentionCollector) (o : ExternalOperation) : bool :=
  (ProductID o == c_product c)
  && ((ExternalOperation_Kind o == "DEV_CANDIDATE_BASELINE_CAPTURE") || is_some (ExternalOperation_DevBaseline o)
      || is_some (ExternalOperation_DevBaselineResult o)).
Definition collect_baseline (c : retentionCollector) (o : ExternalOperation) : retentionCollector :=
  if negb (baseline_operation_of c o) then c
  else
    let c := learn (baselineEvidence c o) c in
    let '(c, valid) := baselineCaptureScope o c in
    let '(c, settled) := if valid then baselineHoldSettled o c else (c, false) in
    if settled then c
    else
      let c := if ExternalOperation_Status o != "SUCCEEDED" then block "baseline_capture_unverified" c else c in
      baseline_images o valid c.
Definition baselineRoots (c : retentionCollector) : retentionCollector := foldl collect_baseline c (State_Operations (c_st c)).
Definition baselineInScope (o : ExternalOperation) (inScope : string -> bool) : bool :=
  match ExternalOperation_DevBaseline o with
  | Some p =>
    existsb (fun part => inScope (DevBaselineComponent_ImageRepository part)
      || match DevBaselineComponent_ObservedGitOps part with
         | Some g => inScope (DevRuntimeGitOpsObservation_ImageRepository g)
         | None => false
         end) (DevBaselineProof_Components p)
  | None => false
  end
  || match ExternalOperation_DevBaselineResult o with
     | Some r =>
       existsb (fun part => inScope (DevBaselineComponentResult_ImageRepository part)
                            || inScope (DevRuntimeGitOpsObservation_ImageRepository (DevBaselineComponentResult_GitOps part)))
         (DevBaselineResult_Components r)
       || match DevBaselineResult_Runtime r with
          | Some v => existsb (fun part => inScope (DevRuntimeGitOpsObservation_ImageRepository (DevRuntimeComponentResult_GitOps part)))
                        (DevRuntimeResult_Components v)
          | None => false
          end
     | None => false
     end.

(** ** Restorations that have settled — dev_restoration.go *)
Definition registered_app (st : State) (product id : string) : list Application :=
  List.filter (fun a => (ID a == id) && (ProductID a == product)) (State_Applications st).
Definition restorationChangeApplication (st : State) (product id : string) : string :=
  let apps := map ID (registered_app st product id) in
  let ops := map ExternalOperation_ApplicationID
    (List.filter (fun o => (ID o == id) && (ProductID o == product) && (ExternalOperation_ApplicationID o != "")
                           && (length (registered_app st product (ExternalOperation_ApplicationID o)) =? 1)%nat) (State_Operations st)) in
  match (apps ++ ops)%list with
  | [app] => app
  | _ => ""
  end.
Definition restorationEffectIdentity (a b : DevRestorationEffect) : bool :=
  (DevRestorationEffect_OperationID a == DevRestorationEffect_OperationID b)
  && Bool.eqb (DevRestorationEffect_NoIntent a) (DevRestorationEffect_NoIntent b)
  && (DevRestorationEffect_Connection a == DevRestorationEffect_Connection b)
  && (DevRestorationEffect_Batch a == DevRestorationEffect_Batch b)
  && match DevRestorationEffect_PullRequest a, DevRestorationEffect_PullRequest b with
     | Some x, Some y =>
       (GitOpsPullRequest_Number x == GitOpsPullRequest_Number y) && (GitOpsPullRequest_URL x == GitOpsPullRequest_URL y)
       && (GitOpsPullRequest_HeadSHA x == GitOpsPullRequest_HeadSHA y)
     | None, None => true
     | _, _ => false
     end.
Definition prior_attempt (old current hold : ExternalOperation) (p r : DevRestorationProof) (d : DevReservationProof) : bool :=
  let reserved := DevReservationProof_ReservedSelection d in
  negb (ExternalOperation_ReservationQuarantined old) && (ExternalOperation_Kind old == "DEV_CANDIDATE_RESTORATION")
  && (ProductID old == ProductID current) && (ExternalOperation_RequestedBy old == ExternalOperation_RequestedBy current)
  && (ExternalOperation_EnvironmentID old == ExternalOperation_EnvironmentID current)
  && (ExternalOperation_ParentID old == ID hold) && (DevRestorationProof_ReservationOperationID p == ID hold)
  && (DevRestorationProof_ReservationHash p == DevRestorationProof_ReservationHash r)
  && (DevRestorationProof_BaselineCaptureID p == DevRestorationProof_BaselineCaptureID r)
  && (DevRestorationProof_BaselineCaptureHash p == DevRestorationProof_BaselineCaptureHash r)
  && (DevRestorationProof_Generation p != 0%Z) && (DevRestorationProof_Generation p <? DevRestorationProof_Generation r)%Z
  && (DevRestorationProof_Epoch p == wrap_uint64 (ExternalOperation_ReservationEpoch hold + DevRestorationProof_Generation p))
  && (DevRestorationProof_Epoch p == ExternalOperation_ReservationEpoch old)
  && (EnvironmentSelection_Generation (DevRestorationProof_Selection p)
        == wrap_uint64 (EnvironmentSelection_Generation reserved + DevRestorationProof_Generation p))
  && (EnvironmentSelection_CompositionID (DevRestorationProof_Selection p)
        == EnvironmentSelection_CompositionID (DevRestorationProof_Selection r))
  && (EnvironmentSelection_OperationID (DevRestorationProof_Selection p)
        == EnvironmentSelection_OperationID (DevRestorationProof_Selection r))
  && sameRestorationOriginalComponents (DevRestorationProof_Components p) (DevRestorationProof_Components r)
  && validRestorationRequestReceipt old "request_candidate_dev_restoration" (DevRestorationProof_Request p)
  && (ExternalOperation_ReservationMutationIntent old == "") && negb (is_some (ExternalOperation_GitOpsPR old))
  && negb (is_some (ExternalOperation_GitOpsResult old)) && negb (is_some (ExternalOperation_DevActivationBatch old)).
(** The request receipt of [prior_attempt] has an expected selection. *)
Definition prior_snapshot (old hold : ExternalOperation) (p : DevRestorationProof) : bool :=
  let request := DevRestorationProof_Request p in
  let selection := DevRestorationProof_Selection p in
  (DevRestorationProof_SnapshotHash p == Fingerprint (p <| DevRestorationProof_SnapshotHash := "" |>))
  && (DevRestorationRequest_ReservationOperationID request == ID hold)
  && match DevRestorationRequest_ExpectedSelection request with
     | Some s =>
       (wrap_uint64 (EnvironmentSelection_Generation s + 1) == EnvironmentSelection_Generation selection)
       && (EnvironmentSelection_CompositionID s == EnvironmentSelection_CompositionID selection)
       && (EnvironmentSelection_OperationID s == EnvironmentSelection_OperationID selection)
     | None => false
     end
  && (DevRestorationProof_Deadline p == (Meta_CreatedAt (ExternalOperation_Meta old) + hour)%Z)
  && is_ok (ValidateDevRestorationPlan old).
Definition bound_effect (r : DevRestorationProof) (effect : DevRestorationEffect) : bool :=
  (length (List.filter (restorationEffectIdentity effect) (DevRestorationProof_Effects r)) =? 1)%nat.
Definition bound_group (r : DevRestorationProof) (g : DevRestorationGroup) : bool :=
  let batch := DevRestorationGroup_Batch g in
  let pr := DevRestorationGroup_PullRequest g in
  if negb (DevRestorationGroup_SendStarted g)
  then negb (is_some pr || is_some (DevRestorationGroup_MergedAt g)
             || (is_some batch && negb (bool_decide (DevRestorationGroup_Result g = []))))
  else is_some batch
       && bound_effect r (mkDevRestorationEffect (DevRestorationGroup_LeaderID g) (DevRestorationGroup_Connection g) batch pr false).
Definition restorationPriorAttemptBound (old current hold : ExternalOperation) : bool :=
  match ExternalOperation_DevRestoration old, ExternalOperation_DevRestoration current, ExternalOperation_DevReservation hold with
  | Some p, Some r, Some d =>
    prior_attempt old current hold p r d && prior_snapshot old hold p && forallb (bound_effect r) (DevRestorationProof_Effects p)
    && match ExternalOperation_DevRestorationPlan old with
       | Some plan => forallb (bound_group r) (DevRestorationPlan_Groups plan)
       | None => true
       end
  | _, _, _ => false
  end.

(** *** The images of a settled chain *)
Definition settled_key (app repo digest : string) : option string :=
  match CanonicalImageRepository repo with
  | Ok canonical => if (app != "") && is_digest digest then Some (app +:+ nul +:+ canonical +:+ "@" +:+ digest) else None
  | Err _ => None
  end.
Definition settle_image (app repo digest : string) (images : gset string) : gset string :=
  match settled_key app repo digest with Some key => {[key]} ∪ images | None => images end.
Definition settle_observation (app : string) (g : DevRuntimeGitOpsObservation) : gset string -> gset string :=
  settle_image app (DevRuntimeGitOpsObservation_ImageRepository g) (DevRuntimeGitOpsObservation_Digest g).
Definition settle_batch (c : retentionCollector) (images : gset string) (batch : option GitOpsBatchApply) : gset string :=
  match batch with
  | Some b => foldl (fun images change =>
      settle_image (restorationChangeApplication (c_st c) (c_product c) (GitOpsImageChange_ID change))
        (GitOpsImageChange_ImageRepository change) (GitOpsImageChange_Digest change) images) images (GitOpsBatchApply_Changes b)
  | None => images
  end.
Definition settled_images (c : retentionCollector) (r : DevRestorationProof) (plan : DevRestorationPlan) : gset string :=
  let images := foldl (fun images m =>
      let images := settle_image (DevBaselineComponent_ApplicationID m) (DevBaselineComponent_ImageRepository m)
                      (DevBaselineComponent_Digest m) images in
      match DevBaselineComponent_ObservedGitOps m with
      | Some g => settle_observation (DevBaselineComponent_ApplicationID m) g images
      | None => images
      end) (∅ : gset string) (DevRestorationProof_Components r) in
  let images := foldl (fun images effect => settle_batch c images (DevRestorationEffect_Batch effect)) images (DevRestorationProof_Effects r) in
  let images := foldl (fun images m =>
      settle_observation (DevRestorationMember_ApplicationID m) (DevRestorationMember_Current m)
        (settle_observation (DevRestorationMember_ApplicationID m) (DevRestorationMember_Original m) images)) images (DevRestorationPlan_Components plan) in
  foldl (fun images g => settle_batch c images (DevRestorationGroup_Batch g)) images (DevRestorationPlan_Groups plan).

(** *** The operations of a settled chain *)
Definition duplicate_id (st : State) (id : string) : bool := (1 <? length (List.filter (has_id id) (State_Operations st)))%nat.
Definition chain_ids (receipt : ExternalOperation) (p : DevRestorationRelease) : list string :=
  [DevRestorationRelease_ReservationOperationID p; DevRestorationRequest_RestorationOperationID (DevRestorationRelease_Request p);
   DevRestorationRelease_ConfirmationID p;
   DevRestorationRequest_RestorationVerificationOperationID (DevRestorationRelease_Request p); ID receipt].
Fixpoint valid_chain (c : retentionCollector) (unique : gmap string ExternalOperation) (seen ids : list string) : bool :=
  match ids with
  | [] => true
  | id :: ids =>
    (id != "") && negb (contains seen id) && negb (duplicate_id (c_st c) id)
    && match unique !! id with Some o => ProductID o == c_product c | None => false end
    && valid_chain c unique (id :: seen) ids
  end.
(** [settled]: for each operation of a settled chain, its images. *)
Definition settlements := gmap string (gset string).
Definition one_generation (st : State) (old : ExternalOperation) (p : DevRestorationProof) : bool :=
  forallb (fun other => (ID other == ID old)
    || match ExternalOperation_DevRestoration other with
       | Some q => negb ((DevRestorationProof_ReservationOperationID q == ExternalOperation_ParentID old)
                         && (DevRestorationProof_Generation q == DevRestorationProof_Generation p))
       | None => true
       end) (State_Operations st).
Definition old_confirmation (old confirmation : ExternalOperation) (p : DevRestorationProof) (plan : DevRestorationPlan)
    (cp : DevRestorationConfirmation) : bool :=
  let request := DevRestorationConfirmation_Request cp in
  let confirmed := DevRestorationConfirmation_Plan cp in
  negb (ExternalOperation_ReservationQuarantined confirmation) && (ProductID confirmation == ProductID old)
  && (ExternalOperation_RequestedBy confirmation == ExternalOperation_RequestedBy old)
  && (ExternalOperation_EnvironmentID confirmation == ExternalOperation_EnvironmentID old)
  && (ExternalOperation_ReservationEpoch confirmation == ExternalOperation_ReservationEpoch old)
  && (ExternalOperation_Status confirmation == "SUCCEEDED") && (ExternalOperation_Phase confirmation == "ATTRIBUTED_CONTROL_CONFIRMATION")
  && validRestorationRequestReceipt confirmation "confirm_candidate_dev_restoration" request
  && (DevRestorationRequest_RestorationOperationID request == ID old)
  && (DevRestorationRequest_ExpectedSelection request == Some (DevRestorationProof_Selection p))
  && (DevRestorationConfirmation_TrustGrade cp == "ATTRIBUTED_CONTROL_CONFIRMATION")
  && (DevRestorationConfirmation_RestorationHash cp == DevRestorationProof_SnapshotHash p)
  && (DevRestorationPlan_Hash confirmed == DevRestorationPlan_Hash plan)
  && (DevRestorationRequest_ExpectedPlanHash request == DevRestorationPlan_Hash confirmed)
  && (DevRestorationPlan_Hash confirmed == restorationCanonicalPlanHash confirmed)
  && (frozen_plan confirmed == frozen_plan plan)
  && (DevRestorationConfirmation_ConfirmedAt cp == Meta_CreatedAt (ExternalOperation_Meta confirmation))
  && negb (Before (DevRestorationConfirmation_ConfirmedAt cp) (Meta_CreatedAt (ExternalOperation_Meta old)))
  && (DevRestorationConfirmation_Hash cp == Fingerprint (cp <| DevRestorationConfirmation_Hash := "" |>)).
Definition old_verification (st : State) (old confirmation : ExternalOperation) (p : DevRestorationProof) (plan : DevRestorationPlan)
    (cp : DevRestorationConfirmation) (verification : ExternalOperation) : bool :=
  match ExternalOperation_DevRestorationVerification verification with
  | None => false
  | Some v =>
    let request := DevRestorationVerification_Request v in
    negb (duplicate_id st (ID verification)) && negb (ExternalOperation_ReservationQuarantined verification)
    && (ExternalOperation_Kind verification == "DEV_RESTORATION_VERIFICATION")
    && (ExternalOperation_ParentID verification == ID old) && (ProductID verification == ProductID old)
    && (ExternalOperation_RequestedBy verification == ExternalOperation_RequestedBy old)
    && (ExternalOperation_EnvironmentID verification == ExternalOperation_EnvironmentID old)
    && (ExternalOperation_ReservationEpoch verification == ExternalOperation_ReservationEpoch old)
    && validRestorationRequestReceipt verification "verify_candidate_dev_restoration" request
    && (DevRestorationRequest_RestorationOperationID request == ID old)
    && (DevRestorationRequest_ExpectedSelection request == Some (DevRestorationProof_Selection p))
    && (DevRestorationVerification_RestorationHash v == DevRestorationProof_SnapshotHash p)
    && (DevRestorationVerification_PlanHash v == DevRestorationPlan_Hash plan)
    && (DevRestorationVerification_ConfirmationID v == ID confirmation)
    && (DevRestorationVerification_ConfirmationHash v == DevRestorationConfirmation_Hash cp)
    && (DevRestorationVerification_Generation v != 0%Z)
    && sameRestorationOriginalComponents (DevRestorationVerification_Components v) (DevRestorationProof_Components p)
    && (DevRestorationVerification_Hash v == Fingerprint (v <| DevRestorationVerification_Hash := "" |>))
    && match RestorationRuntimeExpected old request (DevRestorationVerification_Generation v) with
       | Ok expected => expected == DevRestorationVerification_Runtime v
       | Err _ => false
       end
  end.
(** The confirmation and the verifications of an earlier attempt. *)
Definition settle_followers (st : State) (old : ExternalOperation) (p : DevRestorationProof) (images : gset string)
    (settled : settlements) : settlements :=
  match List.filter (fun o => (ExternalOperation_ParentID o == ID old) && (ExternalOperation_Kind o == "DEV_RESTORATION_CONFIRMATION"))
          (State_Operations st) with
  | [confirmation] =>
    match ExternalOperation_DevRestorationConfirmation confirmation, ExternalOperation_DevRestorationPlan old with
    | Some cp, Some plan =>
      if negb (duplicate_id st (ID confirmation)) && old_confirmation old confirmation p plan cp then
        foldl (fun settled verification =>
          if old_verification st old confirmation p plan cp verification then <[ID verification := images]> settled else settled)
          (<[ID confirmation := images]> settled) (State_Operations st)
      else settled
    | _, _ => settled
    end
  | _ => settled
  end.
Definition settle_attempt_before (st : State) (recovery hold : ExternalOperation) (images : gset string) (settled : settlements)
    (old : ExternalOperation) : settlements :=
  if duplicate_id st (ID old) || negb (restorationPriorAttemptBound old recovery hold) then settled
  else match ExternalOperation_DevRestoration old with
  | Some p =>
    if one_generation st old p then settle_followers st old p images (<[ID old := images]> settled) else settled
  | None => settled
  end.
Definition settle_receipt (c : retentionCollector) (unique : gmap string ExternalOperation) (settled : settlements)
    (receipt : ExternalOperation) : settlements :=
  match ExternalOperation_DevRestorationRelease receipt with
  | None => settled
  | Some p =>
    let ids := chain_ids receipt p in
    if (ProductID receipt != c_product c) || negb (valid_chain c unique [] ids) then settled
    else match unique !! DevRestorationRelease_ReservationOperationID p,
               unique !! DevRestorationRequest_RestorationOperationID (DevRestorationRelease_Request p) with
    | Some hold, Some recovery =>
      if negb (ValidRestorationRelease (c_st c) receipt hold) then settled
      else match ExternalOperation_DevRestoration recovery, ExternalOperation_DevRestorationPlan recovery with
      | Some r, Some plan =>
        let images := settled_images c r plan in
        let settled := foldl (fun settled id => <[id := images]> settled) settled (tail ids) in
        foldl (settle_attempt_before (c_st c) recovery hold images) settled (State_Operations (c_st c))
      | _, _ => settled
      end
    | _, _ => settled
    end
  end.
Definition restorationSettledImages (c : retentionCollector) : settlements :=
  foldl (settle_receipt c (index_by ID (State_Operations (c_st c)))) ∅ (State_Operations (c_st c)).

(** ** The roots of restorations *)
Section restoration_roots.
Context (settled : settlements).

Definition restoration_image (o : ExternalOperation) (app repo digest : string) (c : retentionCollector) : retentionCollector :=
  if digest == "" then c
  else if match settled_key app repo digest with
          | Some key => bool_decide (key ∈ default ∅ (settled !! ID o))
          | None => false
          end then c
  else
    let '(c, v) := image repo digest app (operation_reason "dev_restoration:" (ID o)) c in
    match v with
    | Some key =>
      if is_some (settled !! ID o)
      then block "restoration_unvalidated_nested_reference" (edit_image key (image_blocker "restoration_unvalidated_nested_reference") c)
      else c
    | None => c
    end.
Definition observation_image (o : ExternalOperation) (app : string) (g : DevRuntimeGitOpsObservation) (c : retentionCollector) : retentionCollector :=
  restoration_image o app (DevRuntimeGitOpsObservation_ImageRepository g) (DevRuntimeGitOpsObservation_Digest g) c.
Definition restoration_artifact (o : ExternalOperation) (id app : string) (c : retentionCollector) : retentionCollector :=
  if id == "" then c
  else foldl (fun c a => if (ID a == id) && (ProductID a == c_product c)
                         then restoration_image o app (artifactRepo c a) (DeliveryArtifact_Digest a) c else c) c
         (State_DeliveryArtifacts (c_st c)).
Definition restoration_ref (o : ExternalOperation) (value hint app : string) (c : retentionCollector) : retentionCollector :=
  let value := trim_prefix "cri-o://" (runtime_reference value) in
  match cut "@"%char value with
  | Some (repo, digest) => restoration_image o app (strip_tag repo) digest c
  | None =>
    if is_digest value && (hint != "") then restoration_image o app hint value c
    else if value != "" then block "unresolved_image_reference" c else c
  end.
Definition restoration_component (o : ExternalOperation) (c : retentionCollector) (m : DevBaselineComponent) : retentionCollector :=
  let app := DevBaselineComponent_ApplicationID m in
  let c := restoration_image o app (DevBaselineComponent_ImageRepository m) (DevBaselineComponent_Digest m) c in
  let c := restoration_artifact o (DevBaselineComponent_ArtifactID m) app c in
  match DevBaselineComponent_ObservedGitOps m with Some g => observation_image o app g c | None => c end.
Definition restoration_batch (o : ExternalOperation) (batch : option GitOpsBatchApply) (c : retentionCollector) : retentionCollector :=
  match batch with
  | Some b => foldl (fun c change =>
      restoration_image o (restorationChangeApplication (c_st c) (c_product c) (GitOpsImageChange_ID change))
        (GitOpsImageChange_ImageRepository change) (GitOpsImageChange_Digest change) c) c (GitOpsBatchApply_Changes b)
  | None => c
  end.
(** The applications of a group's results, where the members name them one to one. *)
Definition group_members (plan : DevRestorationPlan) (g : DevRestorationGroup) : list string :=
  map DevRestorationMember_ApplicationID
    (List.filter (fun m => DevRestorationMember_GroupID m == DevRestorationGroup_ID g) (DevRestorationPlan_Components plan)).
Definition group_mapping (plan : DevRestorationPlan) (g : DevRestorationGroup) : bool :=
  let members := group_members plan g in
  (DevRestorationGroup_ID g != "") && negb (contains members "") && bool_decide (NoDup members)
  && (length (List.filter (fun other => DevRestorationGroup_ID other == DevRestorationGroup_ID g) (DevRestorationPlan_Groups plan)) =? 1)%nat
  && (length members =? length (DevRestorationGroup_Result g))%nat.
Definition restoration_group (o : ExternalOperation) (plan : DevRestorationPlan) (c : retentionCollector) (g : DevRestorationGroup)
    : retentionCollector :=
  let c := restoration_batch o (DevRestorationGroup_Batch g) c in
  let results := DevRestorationGroup_Result g in
  let apps := if group_mapping plan g then group_members plan g else map (fun _ => "") results in
  foldl (fun c ar => observation_image o ar.1 ar.2 c) c (zip apps results).
Definition restoration_plan (o : ExternalOperation) (plan : option DevRestorationPlan) (c : retentionCollector) : retentionCollector :=
  match plan with
  | None => c
  | Some p =>
    let c := foldl (fun c m =>
        observation_image o (DevRestorationMember_ApplicationID m) (DevRestorationMember_Current m)
          (observation_image o (DevRestorationMember_ApplicationID m) (DevRestorationMember_Original m) c)) c (DevRestorationPlan_Components p) in
    foldl (restoration_group o p) c (DevRestorationPlan_Groups p)
  end.
Definition restoration_available (o : ExternalOperation) (c : retentionCollector) (m : DevBaselineComponentResult) : retentionCollector :=
  let app := DevBaselineComponentResult_ApplicationID m in
  let repo := DevBaselineComponentResult_ImageRepository m in
  let c := restoration_image o app repo (DevBaselineComponentResult_Digest m) c in
  let c := observation_image o app (DevBaselineComponentResult_GitOps m) c in
  let c := restoration_artifact o (DevBaselineComponentResult_ArtifactID m) app c in
  match DevBaselineComponentResult_Availability m with
  | Some v =>
    let c := restoration_image o app repo (ArtifactResult_Digest v) c in
    if str_contains "@" (ArtifactResult_URI v) then restoration_ref o (ArtifactResult_URI v) repo app c else c
  | None => c
  end.
Definition restoration_verification (o : ExternalOperation) (c : retentionCollector) : retentionCollector :=
  match ExternalOperation_DevRestorationVerification o with
  | None => c
  | Some p =>
    let c := foldl (restoration_component o) c (DevRestorationVerification_Components p) in
    let c := foldl (fun c m =>
        restoration_artifact o (DevRuntimeComponent_ArtifactID m) (DevRuntimeComponent_ApplicationID m)
          (restoration_image o (DevRuntimeComponent_ApplicationID m) (DevRuntimeComponent_ImageRepository m) (DevRuntimeComponent_Digest m) c))
        c (DevRuntimeProof_Components (DevRestorationVerification_Runtime p)) in
    foldl (restoration_available o) c (DevRestorationVerification_Availability p)
  end.
Definition expected_hint (o : ExternalOperation) (m : DevRuntimeComponentResult) : string :=
  let own := DevRuntimeGitOpsObservation_ImageRepository (DevRuntimeComponentResult_GitOps m) in
  match ExternalOperation_DevRestorationVerification o with
  | None => own
  | Some v =>
    match find_last (fun e => DevRuntimeComponent_ApplicationID e == DevRuntimeComponentResult_ApplicationID m)
            (DevRuntimeProof_Components (DevRestorationVerification_Runtime v)) with
    | Some e => DevRuntimeComponent_ImageRepository e
    | None => own
    end
  end.
Definition restoration_role (o : ExternalOperation) (hint app : string) (c : retentionCollector) (role : DeliveryRuntimeSnapshot) : retentionCollector :=
  let c := restoration_ref o (DeliveryRuntimeSnapshot_WorkloadImage role) hint app c in
  foldl (fun c pod => restoration_ref o (RuntimePod_ImageID pod) hint app (restoration_ref o (RuntimePod_Image pod) hint app c)) c
    (DeliveryRuntimeSnapshot_Pods role).
Definition restoration_runtime (o : ExternalOperation) (c : retentionCollector) : retentionCollector :=
  match ExternalOperation_DevRuntimeResult o with
  | None => c
  | Some p => foldl (fun c m =>
      let app := DevRuntimeComponentResult_ApplicationID m in
      let c := observation_image o app (DevRuntimeComponentResult_GitOps m) c in
      foldl (restoration_role o (expected_hint o m) app) c (DevRuntimeComponentResult_Roles m)) c (DevRuntimeResult_Components p)
  end.
Definition collect_restoration (c : retentionCollector) (o : ExternalOperation) : retentionCollector :=
  if (ProductID o != c_product c) || negb (IsRestorationOperation o) then c
  else
    let c := learn (Fingerprint o) c in
    let c := match ExternalOperation_DevRestoration o with
             | Some p =>
               let c := foldl (restoration_component o) c (DevRestorationProof_Components p) in
               foldl (fun c effect => restoration_batch o (DevRestorationEffect_Batch effect) c) c (DevRestorationProof_Effects p)
             | None => c
             end in
    let c := restoration_plan o (ExternalOperation_DevRestorationPlan o) c in
    let c := match ExternalOperation_DevRestorationConfirmation o with
             | Some p => restoration_plan o (Some (DevRestorationConfirmation_Plan p)) c
             | None => c
             end in
    let c := restoration_verification o c in
    let c := match ExternalOperation_DevRestorationRelease o with
             | Some p => foldl (restoration_available o) c (DevRestorationRelease_Availability p)
             | None => c
             end in
    let c := foldl (restoration_available o) c (ExternalOperation_DevRestorationAvailability o) in
    restoration_runtime o c.
End restoration_roots.
Definition restorationRoots (c : retentionCollector) : retentionCollector :=
  foldl (collect_restoration (restorationSettledImages c)) c (State_Operations (c_st c)).
End recovery.
