(* ===== verification/RetentionReport.v ===== *)
(** * Retention: the report

    [EvaluateRetention] (internal/domain/retention.go): the collector is run
    for the product and for every other product whose images share a
    repository, the registries that were observed are judged
    (registry_retention.go), and the result is hashed over the facts it used.
    The attention report of [internal/application/retention.go] is at the end. *)
From S2P Require Import Prelude GoText Worklist GoJson Delivery Domain Status Planning Handlers Collections DeviceAuth Reservation WorkerAuth Composition Pins WorkerJobs Publications Registry Restoration Checks WorkerChecks Retention RetentionRoots RetentionRecovery.
Open Scope string_scope.
Open Scope list_scope.

(** ** The report *)
Record RegistryCoverageSummary := mkRegistryCoverageSummary {
  RegistryCoverageSummary_RecipeRevision : string; RegistryCoverageSummary_ApplicationID : string;
  RegistryCoverageSummary_ImageRepository : string; RegistryCoverageSummary_RecipeID : string;
  RegistryCoverageSummary_RecipeHash : string; RegistryCoverageSummary_ConfigRevision : string;
  RegistryCoverageSummary_InventoryID : string; RegistryCoverageSummary_Status : string;
  RegistryCoverageSummary_Freshness : string; RegistryCoverageSummary_Attestation : string;
  RegistryCoverageSummary_RootSetHash : string; RegistryCoverageSummary_GraphHash : string;
  RegistryCoverageSummary_StartedAt : option Time; RegistryCoverageSummary_FinishedAt : option Time;
  RegistryCoverageSummary_ReceivedAt : option Time; RegistryCoverageSummary_RequiredRoots : Z;
  RegistryCoverageSummary_CoveredRoots : Z; RegistryCoverageSummary_Nodes : Z; RegistryCoverageSummary_Edges : Z;
  RegistryCoverageSummary_Blockers : list string; RegistryCoverageSummary_GlobalInventoryComplete : bool
}.
#[export] Instance zero_RegistryCoverageSummary : Zero RegistryCoverageSummary :=
  mkRegistryCoverageSummary zero zero zero zero zero zero zero zero zero zero zero zero zero zero zero zero zero zero zero zero zero.
Record RegistryProtectedObject := mkRegistryProtectedObject {
  RegistryProtectedObject_ImageRepository : string; RegistryProtectedObject_Digest : string; RegistryProtectedObject_Kind : string;
  RegistryProtectedObject_MediaType : string; RegistryProtectedObject_Availability : string; RegistryProtectedObject_Size : Z;
  RegistryProtectedObject_Protected : bool; RegistryProtectedObject_RootDigests : list string;
  RegistryProtectedObject_Reasons : list string; RegistryProtectedObject_Blockers : list string
}.
Record RegistryProtectedEdge := mkRegistryProtectedEdge {
  RegistryProtectedEdge_ImageRepository : string; RegistryProtectedEdge_RegistryEdge : RegistryEdge
}.
Record RetentionReport := mkRetentionReport {
  RetentionReport_Registry : list RegistryCoverageSummary; RetentionReport_ProtectedObjects : list RegistryProtectedObject;
  RetentionReport_ProtectedEdges : list RegistryProtectedEdge; RetentionReport_GlobalInventoryComplete : bool;
  RetentionReport_ProductID : string; RetentionReport_EvaluatedAt : Time; RetentionReport_InputHash : string;
  RetentionReport_DeletionAllowed : bool; RetentionReport_Policies : list EffectiveRetentionPolicy;
  RetentionReport_Images : list RetentionImage; RetentionReport_Blockers : list string
}.

Section report.
Context `{Runtime, NetURL, URLs, Encoding, Hashing, MapOrder, TimeLayout}.

(** ** The facts of a product — relevantEvidence *)
Definition retentionRunEvidence (run : DeliveryBuildRun) : string :=
  let r := DeliveryBuildRun_Result run in
  let f := lookup_str (RunResult_Artifacts r) in
  Fingerprint (ID run, DeliveryBuildRun_OperationID run, DeliveryBuildRun_ApplicationID run, DeliveryBuildRun_Request run,
    RunResult_Found r, RunResult_ID r, RunResult_Status r, RunResult_Conclusion r, RunResult_HeadSHA r,
    (f "operation_id", f "source_sha", f "image_repository", f "image_tag", f "digest", f "available", f "observed_at")).
Definition retentionSnapshotHash (s : DeliverySnapshot) : string :=
  let build := DeliverySnapshot_Build s in
  let target := DeliverySnapshot_Target s in
  let environment := DeliverySnapshot_Environment s in
  Fingerprint (ID (DeliverySnapshot_Application s), ComponentBuild_Mode build, ComponentBuild_Profile build,
    ComponentBuild_ImageRepository build, EnvironmentBinding_Purpose target, EnvironmentBinding_RepositoryID target,
    EnvironmentBinding_Ref target, EnvironmentBinding_Path target, ID environment, Environment_Cluster environment,
    Environment_Namespace environment,
    (IntegrationRevision_HeadCommit (DeliverySnapshot_Revision s), DeliverySnapshot_Native s, DeliverySnapshot_BuildRequest s)).
Definition retentionWorkerReportHash (r : option WorkerReport) : string :=
  match r with
  | Some w =>
    match WorkerReport_Registry w with
    | Some registry =>
      let registry := match NormalizeRegistryGraph (WorkerRegistryReport_Graph registry) with
                      | Ok g => registry <| WorkerRegistryReport_Graph := g |>
                      | Err _ => registry
                      end in
      Fingerprint (w <| WorkerReport_Registry := Some registry |>)
    | None => Fingerprint r
    end
  | None => Fingerprint r
  end.
Definition artifact_fact (c : retentionCollector) (a : DeliveryArtifact) : string :=
  Fingerprint (ID a, DeliveryArtifact_OperationID a, DeliveryArtifact_ApplicationID a, DeliveryArtifact_RepositoryID a,
    DeliveryArtifact_SourceCommit a, artifactRepo c a, DeliveryArtifact_Digest a, DeliveryArtifact_Provenance a,
    DeliveryArtifact_Native a, DeliveryArtifact_BuildRequest a, DeliveryArtifact_BuildRunID a).
Definition operation_facts (o : ExternalOperation) : list string :=
  let snapshots := match ExternalOperation_Snapshot o with Some s => [retentionSnapshotHash s] | None => [] end
                   ++ map retentionSnapshotHash (ExternalOperation_PreparedDeployments o) in
  [Fingerprint (ID o, ExternalOperation_Sources o);
   Fingerprint (ID o, ExternalOperation_ParentID o, ExternalOperation_ApplicationID o, ExternalOperation_EnvironmentID o,
     ExternalOperation_Kind o, ExternalOperation_Status o, ExternalOperation_Phase o, ExternalOperation_ExpectedDigest o,
     sortedUnique (ExternalOperation_ChildIDs o), sortedUnique snapshots,
     (ExternalOperation_Artifact o, ExternalOperation_Run o, ExternalOperation_Native o, is_some (ExternalOperation_GitOpsPR o)))].
Definition job_facts (j : WorkerJob) : list string :=
  [Fingerprint (ID j, WorkerJob_Deadline j, WorkerJob_MaxAttempts j);
   Fingerprint (ID j, WorkerJob_OperationID j, WorkerJob_Status j, WorkerJob_Capability j, WorkerJob_InputHash j,
     Fingerprint (WorkerJob_Inputs j), WorkerJob_Fence j, WorkerJob_CancellationRequested j)].
Definition attempt_facts (a : WorkerAttempt) : list string :=
  [Fingerprint (ID a, WorkerAttempt_LeaseUntil a);
   Fingerprint (ID a, WorkerAttempt_JobID a, WorkerAttempt_Status a, WorkerAttempt_InputHash a,
     retentionWorkerReportHash (WorkerAttempt_Report a), WorkerAttempt_Fence a, Meta_UpdatedAt (WorkerAttempt_Meta a))].
Definition release_fact (r : Release) : string :=
  Fingerprint (ID r, Release_Status r, Release_ExecutionOperationID r, Release_ArtifactDigests r, Release_GitOpsCommits r,
    Release_SourceCommits r, Release_RecordedExternally r, Meta_CreatedAt (Release_Meta r)).
Definition observation_fact (now : Time) (r : RuntimeObservation) : string :=
  Fingerprint (ID r, RuntimeObservation_OperationID r, RuntimeObservation_EnvironmentID r, RuntimeObservation_ArtifactDigest r,
    RuntimeObservation_GitOpsCommit r, evidenceFreshness (Meta_CreatedAt (RuntimeObservation_Meta r)) now, RuntimeObservation_Healthy r).
Definition environment_fact (e : Environment) : string :=
  Fingerprint (ID e, Environment_DesiredOperationID e, Environment_DesiredCompositionID e, Environment_Cluster e, Environment_Namespace e).
Definition composition_facts (comp : Composition) : list string :=
  let revisions := map (fun rev => Fingerprint (ID rev, IntegrationRevision_RepositoryID rev, IntegrationRevision_BaseCommit rev,
    IntegrationRevision_HeadCommit rev)) (Composition_RevisionSnapshots comp) in
  [Fingerprint (ID comp, sortedUnique revisions);
   Fingerprint (ID comp, Composition_EnvironmentID comp, Composition_Status comp,
     sortedUnique (map (fun v => Fingerprint v) (Composition_Components comp)))].
Definition owned {A} `{HasMeta A} (c : retentionCollector) (l : list A) : list A := List.filter (fun v => ProductID v == c_product c) l.
Definition relevant_facts (c : retentionCollector) : list string :=
  let st := c_st c in
  map retentionRunEvidence (owned c (State_DeliveryBuildRuns st))
  ++ map (artifact_fact c) (owned c (State_DeliveryArtifacts st))
  ++ flat_map operation_facts (owned c (State_Operations st))
  ++ flat_map job_facts (owned c (State_WorkerJobs st))
  ++ flat_map attempt_facts (owned c (State_WorkerAttempts st))
  ++ map release_fact (owned c (State_Releases st))
  ++ map (observation_fact (c_now c)) (owned c (State_RuntimeObservations st))
  ++ map environment_fact (owned c (State_Environments st))
  ++ flat_map composition_facts (owned c (State_Compositions st)).
Definition relevantEvidence (c : retentionCollector) : retentionCollector := c <| c_evidence ::= fun l => l ++ relevant_facts c |>.

(** ** evaluate *)
Definition effective_policy (a : Application) : EffectiveRetentionPolicy :=
  match Application_Retention a with
  | None => mkEffectiveRetentionPolicy (ID a) 0%Z 10%Z true 1%Z
  | Some p =>
    mkEffectiveRetentionPolicy (ID a) (ArtifactRetention_KeepLast p)
      (if (10 <? ArtifactRetention_KeepLast p)%Z then ArtifactRetention_KeepLast p else 10%Z) true
      (if (1 <? ArtifactRetention_KeepPrevious p)%Z then ArtifactRetention_KeepPrevious p else 1%Z)
  end.
Definition policies_of (c : retentionCollector) : list EffectiveRetentionPolicy :=
  sort_by EffectiveRetentionPolicy_ApplicationID (map effective_policy (owned c (State_Applications (c_st c)))).
Definition collect_pin (c : retentionCollector) (p : ArtifactPin) : retentionCollector :=
  if ProductID p != c_product c then c
  else
    let c := learn (Fingerprint (ID p, ArtifactPin_RequestHash p, ArtifactPin_ReleasedAt p)) c in
    if is_some (ArtifactPin_ReleasedAt p) then c
    else root (ArtifactPin_ImageRepository p) (ArtifactPin_Digest p) (ArtifactPin_ApplicationID p) ("pin:" +:+ ArtifactPin_Purpose p) c.
Definition collect_quarantine (c : retentionCollector) (q : NativeQuarantine) : retentionCollector :=
  if ProductID q == c_product c then block "restore_quarantine" c else c.
(** The observations of one image, judged. *)
Definition judged_availability (freshness : string) (av : list string) (old : string) : string :=
  match av with
  | [a] => if (freshness != "UNKNOWN") && ((a == "PRESENT") || (a == "MISSING")) then a else old
  | _ => old
  end.
Definition judge_observation (c : retentionCollector) (key : string) : retentionCollector :=
  match c_observed c !! key with
  | None => c
  | Some at_ =>
    let freshness := evidenceFreshness at_ (c_now c) in
    let av := sortedUnique (default [] (c_availabilityEvidence c !! key)) in
    learn (Fingerprint (key, at_, av, freshness))
      (edit_image key (fun v => v <| RetentionImage_Freshness := freshness |>
                                  <| RetentionImage_Availability ::= judged_availability freshness av |>) c)
  end.
Definition judge_image (c : retentionCollector) (key : string) : retentionCollector :=
  let c := judge_observation c key in
  match c_images c !! key with
  | None => c
  | Some v =>
    let c := if RetentionImage_Availability v == "UNKNOWN"
             then block "availability_evidence_unknown_or_conflicting"
                    (edit_image key (image_blocker "availability_evidence_unknown_or_conflicting") c)
             else c in
    if RetentionImage_Freshness v != "FRESH" then
      let code := "registry_evidence_" +:+ to_lower (RetentionImage_Freshness v) in
      block code (edit_image key (image_blocker code) c)
    else c
  end.
Definition newRetentionCollector (st : State) (product : string) (now : Time) : retentionCollector :=
  mkCollector st product now ∅ ∅ ∅ [] [] [] (index_by ID (State_Operations st)).
Definition collect_roots (c : retentionCollector) : retentionCollector :=
  let c := artifacts c in
  let c := operations c in
  let c := baselineRoots c in
  let c := restorationRoots c in
  let c := environments c in
  let c := release_roots c in
  let c := foldl collect_pin c (State_ArtifactPins (c_st c)) in
  foldl collect_quarantine c (State_NativeQuarantines (c_st c)).
Definition evaluate (c : retentionCollector) : retentionCollector :=
  let c := c <| c_policies := policies_of c |> in
  let c := collect_roots (relevantEvidence c) in
  foldl judge_image c (map fst (map_range (c_images c))).

(** ** The facts of another product in shared repositories — sharedScopeEvidence *)
Record scoping := mkScoping {
  scoping_apps : gset string; scoping_ops : gset string; scoping_jobs : gset string; scoping_pins : gset string;
  scoping_selected : State; scoping_evidence : list string
}.
Definition note (fact : string) (s : scoping) : scoping := s <| scoping_evidence ::= fun l => l ++ [fact] |>.
Definition mark (proj_apps proj_ops proj_jobs : list string) (s : scoping) : scoping :=
  s <| scoping_apps ::= fun m => list_to_set proj_apps ∪ m |> <| scoping_ops ::= fun m => list_to_set proj_ops ∪ m |>
    <| scoping_jobs ::= fun m => list_to_set proj_jobs ∪ m |>.
Definition in_scope (repositories : gset string) (repo : string) : bool :=
  match CanonicalImageRepository repo with Ok canonical => bool_decide (canonical ∈ repositories) | Err _ => false end.

Section shared.
Context (c : retentionCollector) (inScope : string -> bool).

(** [strings.Index(value, "@")] comes first, then digests with their hint. *)
Definition refScope (value hint : string) : bool :=
  let value := runtime_reference value in
  match index_char "@"%char value with
  | Some i => inScope (str_take i value)
  | None =>
    if is_digest value then
      if (hint == "") && existsb (fun e => (RetentionImage_Digest e.2 == value) && inScope (RetentionImage_ImageRepository e.2))
                           (map_range (c_images c)) then true
      else inScope (strip_tag hint)
    else inScope (strip_tag value)
  end.
Definition canonical_image (v : RetentionImage) : RetentionImage :=
  v <| RetentionImage_ApplicationIDs ::= sortedUnique |> <| RetentionImage_Profiles ::= sortedUnique |>
    <| RetentionImage_ArtifactIDs ::= sortedUnique |> <| RetentionImage_Reasons ::= sortedUnique |>
    <| RetentionImage_Blockers ::= sortedUnique |>.
Definition scope_image (s : scoping) (v : RetentionImage) : scoping :=
  if negb (inScope (RetentionImage_ImageRepository v)) then s
  else mark (RetentionImage_ApplicationIDs v) [] [] (note (Fingerprint (canonical_image v)) s).
Definition scope_pin (s : scoping) (p : ArtifactPin) : scoping :=
  if (ProductID p == c_product c) && inScope (ArtifactPin_ImageRepository p) then
    mark [ArtifactPin_ApplicationID p] [] []
      (note (Fingerprint (ID p, ArtifactPin_RequestHash p, ArtifactPin_ReleasedAt p)) (s <| scoping_pins ::= fun m => {[ID p]} ∪ m |>))
  else s.
Definition scope_event (s : scoping) (e : Event) : scoping :=
  if (bool_decide (Event_EntityID e ∈ scoping_pins s) || bool_decide (Command_ID (Event_Data e) ∈ scoping_pins s))
     && ((Event_Action e == "pin_artifact") || (Event_Action e == "release_artifact_pin"))
  then note (Fingerprint e) s else s.
Definition scope_artifact (s : scoping) (a : DeliveryArtifact) : scoping :=
  if (ProductID a != c_product c) || negb (inScope (artifactRepo c a)) then s
  else
    mark [DeliveryArtifact_ApplicationID a] [DeliveryArtifact_OperationID a; BuildRequest_OperationID (DeliveryArtifact_BuildRequest a)]
      match DeliveryArtifact_Native a with
      | Some n => [NativeArtifact_PublicationJobID n; WorkerLocalOCI_JobID (NativeArtifact_Receipt n)]
      | None => []
      end (s <| scoping_selected ::= fun st => st <| State_DeliveryArtifacts ::= fun l => l ++ [a] |> |>).
Definition operation_in_scope (o : ExternalOperation) : bool :=
  match ExternalOperation_Snapshot o with Some v => inScope (frozenImageRepository c v) | None => false end
  || match ExternalOperation_GitOpsBase o with Some g => inScope (GitOpsSnapshot_ImageRepository g) | None => false end
  || match ExternalOperation_ExistingArtifact o with Some a => inScope (artifactRepo c a) | None => false end
  || IsRestorationOperation o || baselineInScope o inScope
  || existsb (fun v => inScope (frozenImageRepository c v)) (ExternalOperation_PreparedDeployments o).
Definition scope_operation (s : scoping) (o : ExternalOperation) : scoping :=
  if ProductID o != c_product c then s
  else
    let s := if IsRestorationOperation o then note (Fingerprint o) s else s in
    let s := if baselineInScope o inScope then note (baselineEvidence c o) s else s in
    if operation_in_scope o then mark [ExternalOperation_ApplicationID o] [ID o] [] s else s.
Definition scope_release (s : scoping) (r : Release) : scoping :=
  if ProductID r != c_product c then s
  else
    let parent := default zero (c_ops c !! Release_ExecutionOperationID r) in
    if bool_decide (ID parent ∈ scoping_ops s) || existsb (fun id => bool_decide (id ∈ scoping_ops s)) (ExternalOperation_ChildIDs parent)
    then mark [] (ID parent :: ExternalOperation_ChildIDs parent) []
           (s <| scoping_selected ::= fun st => st <| State_Releases ::= fun l => l ++ [r] |> |>)
    else s.
Definition scope_publication (s : scoping) (j : WorkerJob) : scoping :=
  match WorkerInputs_Publication (WorkerJob_Inputs j) with
  | Some p =>
    if (ProductID j == c_product c) && inScope (publication_repository p)
    then mark [WorkerPublication_ComponentID p] [] [ID j; WorkerLocalOCI_JobID (WorkerPublication_Receipt p)] s else s
  | None => s
  end.
Definition scope_job (s : scoping) (j : WorkerJob) : scoping :=
  if ProductID j != c_product c then s
  else
    let s := match WorkerInputs_SourceProof (WorkerJob_Inputs j) with
             | Some proof => if bool_decide (WorkerSourceProof_DeliveryID proof ∈ scoping_ops s) then mark [] [] [ID j] s else s
             | None => s
             end in
    if bool_decide (ID j ∈ scoping_jobs s)
    then mark [] [WorkerJob_OperationID j] [] (s <| scoping_selected ::= fun st => st <| State_WorkerJobs ::= fun l => l ++ [j] |> |>)
    else s.
(** A runtime in scope, without the images of unrelated containers. *)
Definition scope_runtime (s : scoping) (r : RuntimeSnapshot) : scoping :=
  let v := RuntimeSnapshot_Runtime r in
  let wanted := RuntimeSnapshot_Expected r in
  if ProductID r != c_product c then s
  else
    let workload := refScope (DeliveryRuntimeSnapshot_WorkloadImage v) "" in
    let expected := inScope (RuntimeExpected_ImageRepository wanted) || refScope (RuntimeExpected_Value wanted) (RuntimeExpected_ImageRepository wanted) in
    let pods := map (fun pod => Fingerprint pod)
      (List.filter (fun pod => refScope (RuntimePod_Image pod) "" || refScope (RuntimePod_ImageID pod) (RuntimePod_Image pod))
         (DeliveryRuntimeSnapshot_Pods v)) in
    if negb workload && negb expected && bool_decide (pods = []) then s
    else
      mark [RuntimeSnapshot_ApplicationID r] [] []
        (note (Fingerprint (ID r, RuntimeSnapshot_EnvironmentID r, RuntimeSnapshot_ApplicationID r,
                 evidenceFreshness (DeliveryRuntimeSnapshot_ObservedAt v) (c_now c),
                 (if workload then DeliveryRuntimeSnapshot_WorkloadImage v else ""), DeliveryRuntimeSnapshot_Health v,
                 (if expected then wanted else mkRuntimeExpected "" "" "" ""), sortedUnique pods, DeliveryRuntimeSnapshot_Flux v,
                 negb (bool_decide (DeliveryRuntimeSnapshot_Errors v = [])))) s).
Definition selected_compositions (s : scoping) : list Composition :=
  let desired := map Environment_DesiredCompositionID (List.filter (fun e => Environment_DesiredCompositionID e != "")
                   (owned c (State_Environments (c_st c)))) in
  List.filter (fun comp => contains desired (ID comp)
      && existsb (fun part => bool_decide (CompositionComponent_ApplicationID part ∈ scoping_apps s)) (Composition_Components comp))
    (owned c (State_Compositions (c_st c))).
Definition selected_environments (s : scoping) (comps : list Composition) : list Environment :=
  List.filter (fun e => bool_decide (Environment_DesiredOperationID e ∈ scoping_ops s)
                        || contains (map ID comps) (Environment_DesiredCompositionID e)) (owned c (State_Environments (c_st c))).
(** The loops before the selection of records by the marks. *)
Definition scope_marks : scoping :=
  let st := c_st c in
  let s := mkScoping ∅ ∅ ∅ ∅ zero [] in
  let s := foldl scope_image s (map snd (map_range (c_images c))) in
  let s := foldl scope_pin s (State_ArtifactPins st) in
  let s := foldl scope_event s (State_Events st) in
  let s := foldl scope_artifact s (State_DeliveryArtifacts st) in
  let s := foldl scope_operation s (State_Operations st) in
  let s := foldl scope_release s (State_Releases st) in
  let s := foldl scope_publication s (State_WorkerJobs st) in
  foldl scope_job s (State_WorkerJobs st).
Definition select (s : scoping) : scoping :=
  let st := c_st c in
  let comps := selected_compositions s in
  s <| scoping_selected ::= fun selected =>
      selected <| State_WorkerAttempts := List.filter (fun a => bool_decide (WorkerAttempt_JobID a ∈ scoping_jobs s)) (owned c (State_WorkerAttempts st)) |>
        <| State_Operations := List.filter (fun o => bool_decide (ID o ∈ scoping_ops s)) (owned c (State_Operations st)) |>
        <| State_RuntimeObservations :=
             List.filter (fun r => bool_decide (RuntimeObservation_OperationID r ∈ scoping_ops s)) (owned c (State_RuntimeObservations st)) |>
        <| State_Compositions := comps |> <| State_Environments := selected_environments s comps |> |>.
Definition sharedScopeEvidence : string :=
  let s := scope_marks in
  let runs := map retentionRunEvidence
    (List.filter (fun run => bool_decide (DeliveryBuildRun_OperationID run ∈ scoping_ops s)) (owned c (State_DeliveryBuildRuns (c_st c)))) in
  let s := s <| scoping_evidence ::= fun l => l ++ runs |> in
  let s := select (foldl scope_runtime s (State_RuntimeSnapshots (c_st c))) in
  let policies := map (fun p => Fingerprint (mkEffectiveRetentionPolicy (EffectiveRetentionPolicy_ApplicationID p) 0%Z
                          (EffectiveRetentionPolicy_EffectiveKeepLast p) (EffectiveRetentionPolicy_KeepCurrent p)
                          (EffectiveRetentionPolicy_KeepPrevious p)))
    (List.filter (fun p => bool_decide (EffectiveRetentionPolicy_ApplicationID p ∈ scoping_apps s)) (c_policies c)) in
  let evidence := scoping_evidence s ++ policies ++ relevant_facts (c <| c_st := scoping_selected s |>) in
  if bool_decide (evidence = []) then "" else Fingerprint (sortedUnique evidence).
End shared.

(** ** Registries — registry_retention.go *)
Definition RegistryKnownRoots (images : list RetentionImage) (repo : string) : list string :=
  sortedUnique (map RetentionImage_Digest (List.filter (fun v => RetentionImage_ImageRepository v == repo) images)).
Definition registryInventoryEvidence (v : RegistryInventory) (now : Time) : string :=
  let v := match NormalizeRegistryGraph (WorkerRegistryReport_Graph (RegistryInventory_Report v)) with
           | Ok g => v <| RegistryInventory_Report ::= fun r => r <| WorkerRegistryReport_Graph := g |> |>
           | Err _ => v
           end in
  Fingerprint (v, RegistryInventoryFreshness v now).
Definition add_blocker (code : string) (s : RegistryCoverageSummary) : RegistryCoverageSummary :=
  s <| RegistryCoverageSummary_Blockers ::= fun l => l ++ [code] |>.
Definition with_status (status code : string) (s : RegistryCoverageSummary) : RegistryCoverageSummary :=
  add_blocker code (s <| RegistryCoverageSummary_Status := status |>).
Definition known_summary (now : Time) (roots : list string) (v : RegistryInventory) (s : RegistryCoverageSummary) : RegistryCoverageSummary :=
  let report := RegistryInventory_Report v in
  let graph := WorkerRegistryReport_Graph report in
  let covered := count (List.filter (registryCovered graph) roots) in
  let freshness := RegistryInventoryFreshness v now in
  let s := s <| RegistryCoverageSummary_InventoryID := ID v |>
             <| RegistryCoverageSummary_Attestation := WorkerRegistryReport_Kind report |>
             <| RegistryCoverageSummary_GraphHash := RegistryGraph_GraphHash graph |>
             <| RegistryCoverageSummary_StartedAt := Some (WorkerRegistryReport_StartedAt report) |>
             <| RegistryCoverageSummary_FinishedAt := Some (WorkerRegistryReport_FinishedAt report) |>
             <| RegistryCoverageSummary_ReceivedAt := Some (RegistryInventory_ReceivedAt v) |>
             <| RegistryCoverageSummary_Nodes := count (RegistryGraph_Nodes graph) |>
             <| RegistryCoverageSummary_Edges := count (RegistryGraph_Edges graph) |>
             <| RegistryCoverageSummary_Freshness := freshness |> <| RegistryCoverageSummary_CoveredRoots := covered |>
             <| RegistryCoverageSummary_Blockers ::= fun l => l ++ RegistryGraph_Blockers graph |>
             <| RegistryCoverageSummary_Status := "CURRENT" |> in
  let s := if (covered != RegistryCoverageSummary_RequiredRoots s) || (RegistryGraph_Discovery graph != "COMPLETE")
           then with_status "PARTIAL" "registry_current_roots_uncovered" s else s in
  let s := if freshness == "STALE" then with_status "STALE" "registry_observation_stale" s else s in
  if freshness == "UNKNOWN" then with_status "UNKNOWN" "registry_observation_window_unknown" s else s.
Definition failed_observer (product : string) (a : RegistryObservationAuthority) (latest : option RegistryInventory) (j : WorkerJob) : bool :=
  (ProductID j == product)
  && match WorkerInputs_Registry (WorkerJob_Inputs j) with
     | Some p => WorkerRegistryInputs_Scope p == RegistryObservationAuthority_Scope a
     | None => false
     end
  && (WorkerInputs_RecipeHash (WorkerJob_Inputs j) == RegistryObservationAuthority_RecipeHash a)
  && (WorkerInputs_ConfigRevision (WorkerJob_Inputs j) == RegistryObservationAuthority_ConfigRevision a)
  && contains ["FAILED"; "RECONCILIATION_REQUIRED"; "DEADLINE_EXCEEDED"] (WorkerJob_Status j)
  && match latest with
     | None => true
     | Some v => After (Meta_UpdatedAt (WorkerJob_Meta j)) (RegistryInventory_ReceivedAt v)
     end.
Definition registrySummary (st : State) (product : string) (images : list RetentionImage) (a : RegistryObservationAuthority) (now : Time)
    : RegistryCoverageSummary :=
  let scope := RegistryObservationAuthority_Scope a in
  let roots := RegistryKnownRoots images (RegistryScope_ImageRepository scope) in
  let s := (zero : RegistryCoverageSummary)
    <| RegistryCoverageSummary_ApplicationID := RegistryScope_ComponentID scope |>
    <| RegistryCoverageSummary_ImageRepository := RegistryScope_ImageRepository scope |>
    <| RegistryCoverageSummary_RecipeID := RegistryObservationAuthority_RecipeID a |>
    <| RegistryCoverageSummary_RecipeRevision := RegistryObservationAuthority_RecipeRevision a |>
    <| RegistryCoverageSummary_RecipeHash := RegistryObservationAuthority_RecipeHash a |>
    <| RegistryCoverageSummary_ConfigRevision := RegistryObservationAuthority_ConfigRevision a |>
    <| RegistryCoverageSummary_Status := "MISSING" |> <| RegistryCoverageSummary_Freshness := "UNKNOWN" |>
    <| RegistryCoverageSummary_RequiredRoots := count roots |>
    <| RegistryCoverageSummary_RootSetHash := RegistryRootSetHash scope (RegistryObservationAuthority_RecipeID a)
         (RegistryObservationAuthority_RecipeRevision a) (RegistryObservationAuthority_RecipeHash a)
         (RegistryObservationAuthority_ConfigRevision a) roots |>
    <| RegistryCoverageSummary_Blockers := ["registry_global_inventory_unproven"] |> in
  let latest := registryLatest (State_RegistryInventories st) a in
  let s := match latest with
           | Some v => known_summary now roots v s
           | None => add_blocker "registry_observation_missing" s
           end in
  let s := if registryLatestAmbiguous (State_RegistryInventories st) a latest
           then with_status "UNKNOWN" "registry_observation_order_ambiguous" s else s in
  let s := foldl (fun s j => if failed_observer product a latest j then with_status "UNKNOWN" "registry_observer_execution_unknown" s else s)
             s (State_WorkerJobs st) in
  let s := if negb (RegistryObservationAuthority_Current a) then with_status "AUTHORITY_UNKNOWN" "registry_authority_unavailable" s else s in
  let s := foldl (fun s q => if ProductID q == product then with_status "QUARANTINED" "restore_quarantine" s else s)
             s (State_NativeQuarantines st) in
  s <| RegistryCoverageSummary_Blockers ::= sortedUnique |>.

(** *** The summaries of all authorities, present and past *)
Definition authority_key (component repo recipe : string) : string := component +:+ nul +:+ repo +:+ nul +:+ recipe.
Definition key_of_authority (a : RegistryObservationAuthority) : string :=
  authority_key (RegistryScope_ComponentID (RegistryObservationAuthority_Scope a))
    (RegistryScope_ImageRepository (RegistryObservationAuthority_Scope a)) (RegistryObservationAuthority_RecipeID a).
Definition authority_from (v : RegistryInventory) : RegistryObservationAuthority :=
  let r := RegistryInventory_Report v in
  mkRegistryObservationAuthority (WorkerRegistryReport_Scope r) (WorkerRegistryReport_RecipeID r) (WorkerRegistryReport_RecipeRevision r)
    (WorkerRegistryReport_RecipeHash r) (WorkerRegistryReport_ConfigRevision r)
    match WorkerInputs_Registry (RegistryInventory_Inputs v) with Some p => WorkerRegistryInputs_Limits p | None => zero end false.
Definition newest_inventory : relation RegistryInventory := fun v w =>
  (RegistryInventory_ReceivedAt w < RegistryInventory_ReceivedAt v)%Z
  \/ RegistryInventory_ReceivedAt v = RegistryInventory_ReceivedAt w /\ String.le (ID v) (ID w).
#[export] Instance newest_inventory_dec : RelDecision newest_inventory.
Proof. intros v w. unfold newest_inventory. apply _. Defined.
Definition summary_key (s : RegistryCoverageSummary) : string :=
  authority_key (RegistryCoverageSummary_ApplicationID s) (RegistryCoverageSummary_ImageRepository s) (RegistryCoverageSummary_RecipeID s).
Definition inventory_repository (v : RegistryInventory) : string :=
  RegistryScope_ImageRepository (WorkerRegistryReport_Scope (RegistryInventory_Report v)).
(** The repositories the report speaks of. *)
Definition scope_repositories (product : string) (images : list RetentionImage) (authorities : list RegistryObservationAuthority) : list string :=
  map RetentionImage_ImageRepository images
  ++ map (fun a => RegistryScope_ImageRepository (RegistryObservationAuthority_Scope a))
       (List.filter (fun a => RegistryScope_ProductID (RegistryObservationAuthority_Scope a) == product) authorities).
Definition add_history (st : State) (product : string) (images : list RetentionImage) (now : Time) (acc : list RegistryCoverageSummary * list string)
    (v : RegistryInventory) : list RegistryCoverageSummary * list string :=
  let '(registry, seen) := acc in
  let a := authority_from v in
  if (ProductID v == product) && negb (contains seen (key_of_authority a))
  then (registry ++ [registrySummary st product images a now], key_of_authority a :: seen) else (registry, seen).
Definition registry_summaries (st : State) (product : string) (images : list RetentionImage) (now : Time)
    (authorities : list RegistryObservationAuthority) (history : list RegistryInventory) : list RegistryCoverageSummary :=
  let own := List.filter (fun a => RegistryScope_ProductID (RegistryObservationAuthority_Scope a) == product) authorities in
  let registry := map (fun a => registrySummary st product images a now) own in
  sort_by summary_key (foldl (add_history st product images now) (registry, map key_of_authority own) history).1.

(** *** What the protected images contain *)
Record historicalNode := mkHistoricalNode {
  historicalNode_node : RegistryNode; historicalNode_at : Time; historicalNode_id : string; historicalNode_conflict : bool
}.
Definition descriptor_conflict (a b : RegistryNode) : bool :=
  (RegistryNode_Kind a != RegistryNode_Kind b) || (RegistryNode_MediaType a != RegistryNode_MediaType b) || (RegistryNode_Size a != RegistryNode_Size b).
Definition add_node (v : RegistryInventory) (nodes : gmap string historicalNode) (n : RegistryNode) : gmap string historicalNode :=
  let key := image_key (inventory_repository v) (RegistryNode_Digest n) in
  let at_ := RegistryInventory_ReceivedAt v in
  match nodes !! key with
  | None => <[key := mkHistoricalNode n at_ (ID v) false]> nodes
  | Some old =>
    let conflict := descriptor_conflict (historicalNode_node old) n in
    if After at_ (historicalNode_at old) || (at_ == historicalNode_at old) && String.ltb (ID v) (historicalNode_id old)
    then <[key := mkHistoricalNode n at_ (ID v) (historicalNode_conflict old || conflict)]> nodes
    else if conflict then <[key := old <| historicalNode_conflict := true |>]> nodes else nodes
  end.
Definition add_edge (repo : string) (edges : gmap string RegistryProtectedEdge) (e : RegistryEdge) : gmap string RegistryProtectedEdge :=
  <[repo +:+ nul +:+ registryEdgeKey e := mkRegistryProtectedEdge repo e]> edges.
Definition historical_nodes (inventories : list RegistryInventory) : gmap string historicalNode :=
  foldl (fun nodes v => foldl (add_node v) nodes (RegistryGraph_Nodes (WorkerRegistryReport_Graph (RegistryInventory_Report v)))) ∅ inventories.
Definition historical_edges (inventories : list RegistryInventory) : gmap string RegistryProtectedEdge :=
  foldl (fun edges v => foldl (add_edge (inventory_repository v)) edges
    (RegistryGraph_Edges (WorkerRegistryReport_Graph (RegistryInventory_Report v)))) ∅ inventories.
Definition partial_inventory (now : Time) (v : RegistryInventory) : bool :=
  (RegistryGraph_Discovery (WorkerRegistryReport_Graph (RegistryInventory_Report v)) != "COMPLETE") || (RegistryInventoryFreshness v now != "FRESH").
Definition degraded (now : Time) (inventories : list RegistryInventory) (repo : string) : bool :=
  existsb (fun v => (inventory_repository v == repo) && partial_inventory now v) inventories.
(** The graph of a repository, united over all inventories. *)
Definition repository_graph (edges : gmap string RegistryProtectedEdge) (repo : string) : RegistryGraph :=
  (zero : RegistryGraph) <| RegistryGraph_Edges :=
    map RegistryProtectedEdge_RegistryEdge
      (List.filter (fun e => RegistryProtectedEdge_ImageRepository e == repo) (map snd (map_range edges))) |>.
Definition new_object (now : Time) (inventories : list RegistryInventory) (nodes : gmap string historicalNode) (repo digest : string)
    : RegistryProtectedObject :=
  let partial := if degraded now inventories repo then ["registry_historical_coverage_degraded"] else [] in
  match nodes !! image_key repo digest with
  | Some n =>
    let d := historicalNode_node n in
    mkRegistryProtectedObject repo digest (RegistryNode_Kind d) (RegistryNode_MediaType d) (RegistryNode_Availability d) (RegistryNode_Size d)
      true [] [] ((if historicalNode_conflict n then ["registry_historical_descriptor_conflict"] else []) ++ partial)
  | None => mkRegistryProtectedObject repo digest "UNKNOWN" "" "UNKNOWN" 0%Z true [] [] ("registry_object_unknown" :: partial)
  end.
Definition root_reason (v : RetentionImage) : string :=
  if retentionHasCode (RetentionImage_Reasons v) "shared_product_root" then "shared_product_root" else "registry_historical_closure".
Definition closure (edges : gmap string RegistryProtectedEdge) (v : RetentionImage) : gset string :=
  registryReachable (repository_graph edges (RetentionImage_ImageRepository v)) (RetentionImage_Digest v).
Definition reach_object (now : Time) (inventories : list RegistryInventory) (nodes : gmap string historicalNode) (v : RetentionImage)
    (objects : gmap string RegistryProtectedObject) (digest : string) : gmap string RegistryProtectedObject :=
  let repo := RetentionImage_ImageRepository v in
  let key := image_key repo digest in
  let object := default (new_object now inventories nodes repo digest) (objects !! key) in
  <[key := object <| RegistryProtectedObject_RootDigests ::= fun l => l ++ [RetentionImage_Digest v] |>
                  <| RegistryProtectedObject_Reasons ::= fun l => l ++ [root_reason v] |>]> objects.
(** One protected image: every object its closure reaches. *)
Definition protect_closure (now : Time) (inventories : list RegistryInventory) (nodes : gmap string historicalNode)
    (edges : gmap string RegistryProtectedEdge) (objects : gmap string RegistryProtectedObject) (v : RetentionImage)
    : gmap string RegistryProtectedObject :=
  foldl (reach_object now inventories nodes v) objects (elements (closure edges v)).
Definition used_edge (edges : gmap string RegistryProtectedEdge) (roots : list RetentionImage) (e : RegistryProtectedEdge) : bool :=
  existsb (fun v => (RetentionImage_ImageRepository v == RegistryProtectedEdge_ImageRepository e)
                    && bool_decide (RegistryEdge_From (RegistryProtectedEdge_RegistryEdge e) ∈ closure edges v)) roots.
Definition sorted_object (o : RegistryProtectedObject) : RegistryProtectedObject :=
  o <| RegistryProtectedObject_RootDigests ::= sortedUnique |> <| RegistryProtectedObject_Reasons ::= sortedUnique |>
    <| RegistryProtectedObject_Blockers ::= sortedUnique |>.
Definition object_key (o : RegistryProtectedObject) : string :=
  image_key (RegistryProtectedObject_ImageRepository o) (RegistryProtectedObject_Digest o).
Definition protected_edge_key (e : RegistryProtectedEdge) : string :=
  RegistryProtectedEdge_ImageRepository e +:+ registryEdgeKey (RegistryProtectedEdge_RegistryEdge e).
Definition summary_blockers (s : RegistryCoverageSummary) : list string :=
  List.filter (fun b => has_prefix "registry_" b && (b != "registry_global_inventory_unproven")) (RegistryCoverageSummary_Blockers s).
Definition registryRetention (st : State) (report : RetentionReport) (now : Time) (authorities : list RegistryObservationAuthority)
    : RetentionReport * list string :=
  let product := RetentionReport_ProductID report in
  let images := RetentionReport_Images report in
  let repos := scope_repositories product images authorities in
  let own := List.filter (fun a => RegistryScope_ProductID (RegistryObservationAuthority_Scope a) == product) authorities in
  let history := List.filter (fun v => contains repos (inventory_repository v)) (merge_sort newest_inventory (State_RegistryInventories st)) in
  let evidence := map (fun a => Fingerprint a) own ++ map (fun v => registryInventoryEvidence v now) history in
  let registry := registry_summaries st product images now authorities history in
  let inventories := List.filter (fun v => contains repos (inventory_repository v)) (State_RegistryInventories st) in
  let nodes := historical_nodes inventories in
  let edges := historical_edges inventories in
  let roots := List.filter RetentionImage_Protected images in
  let objects := foldl (protect_closure now inventories nodes edges) ∅ roots in
  let used := List.filter (used_edge edges roots) (map snd (map_range edges)) in
  (mkRetentionReport registry (sort_by object_key (map sorted_object (map snd (map_range objects)))) (sort_by protected_edge_key used)
     (RetentionReport_GlobalInventoryComplete report) product (RetentionReport_EvaluatedAt report) (RetentionReport_InputHash report)
     (RetentionReport_DeletionAllowed report) (RetentionReport_Policies report) images
     (sortedUnique (RetentionReport_Blockers report ++ flat_map summary_blockers registry
        ++ ["registry_global_inventory_unproven"; "deletion_fence_unavailable"])),
   sortedUnique evidence).

(** ** EvaluateRetention *)
Definition all_products (st : State) : gset string :=
  list_to_set (map ID (State_Products st) ++ map ProductID (State_DeliveryArtifacts st) ++ map ProductID (State_ArtifactPins st)).
Definition local_repositories (st : State) (product : string) (c : retentionCollector) : gset string :=
  list_to_set (map (fun e => RetentionImage_ImageRepository e.2) (map_range (c_images c))
    ++ omap (fun b => if ProductID b == product
                      then match CanonicalImageRepository (ComponentBuild_ImageRepository b) with Ok r => Some r | Err _ => None end
                      else None) (State_ComponentBuilds st)).
(** A key of [images] holds a canonical repository and a digest, so the pointer
    that [c.image] returns for it is not nil. *)
Definition share_image (local : gset string) (c : retentionCollector) (e : string * RetentionImage) : retentionCollector :=
  let '(key, f) := e in
  if negb (RetentionImage_Protected f) || negb (bool_decide (RetentionImage_ImageRepository f ∈ local)) then c
  else match c_images c !! key with
  | None =>
    let '(c, v) := image (RetentionImage_ImageRepository f) (RetentionImage_Digest f) "" "shared_product_root" c in
    match v with
    | Some key => block "registry_evidence_unknown" (edit_image key (image_blocker "registry_evidence_unknown") c)
    | None => c
    end
  | Some _ => edit_image key (protect "shared_product_root") c
  end.
Definition share_product (st : State) (product : string) (now : Time) (c : retentionCollector) (other : string) : retentionCollector :=
  if other == product then c
  else
    let foreign := evaluate (newRetentionCollector st other now) in
    let local := local_repositories st product c in
    let evidence := sharedScopeEvidence foreign (in_scope local) in
    let c := if evidence != "" then learn evidence c else c in
    foldl (share_image local) c (map_range (c_images foreign)).
(** The products are the keys of a map. *)
Definition range_set (s : gset string) : list string := map fst (map_range (gset_to_gmap tt s)).
Definition shared_collector (st : State) (product : string) (now : Time) : retentionCollector :=
  foldl (share_product st product now) (evaluate (newRetentionCollector st product now)) (range_set (all_products st)).
Definition first_report (product : string) (now : Time) (c : retentionCollector) : RetentionReport :=
  mkRetentionReport [] [] [] false product now "" false (c_policies c)
    (sort_by RetentionImage_Identity (map canonical_image (map snd (map_range (c_images c)))))
    (sortedUnique (c_blockers c ++ ["registry_completeness_unavailable"; "oci_closure_unavailable"; "workload_coverage_unavailable"])).
Definition without_wish (p : EffectiveRetentionPolicy) : EffectiveRetentionPolicy :=
  p <| EffectiveRetentionPolicy_ConfiguredKeepLast := 0%Z |>.
Definition EvaluateRetention (st : State) (product : string) (now : Time) (authorities : list RegistryObservationAuthority) : RetentionReport :=
  let c := shared_collector st product now in
  let '(report, facts) := registryRetention st (first_report product now c) now authorities in
  let hashed := report <| RetentionReport_Policies ::= map without_wish |> <| RetentionReport_EvaluatedAt := 0%Z |> in
  report <| RetentionReport_InputHash := Fingerprint (hashed, sortedUnique (c_evidence c ++ facts)) |>.
End report.

(** ** Attention — application/retention.go *)
(** [retentionAttentionReport]: an entry per image that needs attention. *)
Definition needs_attention (e : RetentionImage) : bool :=
  RetentionImage_Protected e
  && negb ((RetentionImage_Availability e == "PRESENT") && (RetentionImage_Freshness e == "FRESH") && bool_decide (RetentionImage_Blockers e = [])).
Definition attention_reason (e : RetentionImage) : string :=
  if RetentionImage_Availability e == "MISSING" then "RETENTION_ARTIFACT_MISSING" else "RETENTION_AVAILABILITY_UNKNOWN".
Definition strings_json (l : list string) : json := JArr (map JStr l).
Definition attention_entry (report : RetentionReport) (e : RetentionImage) : gmap string json :=
  list_to_map [("id", JStr ("retention:" +:+ RetentionImage_Identity e)); ("reason", JStr (attention_reason e));
    ("application_ids", strings_json (RetentionImage_ApplicationIDs e)); ("artifact_ids", strings_json (RetentionImage_ArtifactIDs e));
    ("image_repository", JStr (RetentionImage_ImageRepository e)); ("digest", JStr (RetentionImage_Digest e));
    ("detail", JStr "A protected image has missing, stale, unknown or incomplete stored evidence. No registry query or deletion was performed.");
    ("retention_reasons", strings_json (RetentionImage_Reasons e)); ("blockers", strings_json (RetentionImage_Blockers e));
    ("freshness", JStr (RetentionImage_Freshness e)); ("input_hash", JStr (RetentionReport_InputHash report))].
Definition retentionAttentionReport (report : RetentionReport) : list (gmap string json) :=
  map (attention_entry report) (List.filter needs_attention (RetentionReport_Images report)).
