(* ===== verification/RetentionSafety.v ===== *)
(** * Retention: nothing in use is given up

    The properties of [EvaluateRetention].  [Grows] is the order of knowledge
    on collectors: every step of the evaluation only adds images, reasons and
    blockers, and everything but the list of artifacts adds protected images
    only.  What a step protects is therefore protected in the report. *)
From S2P Require Import Prelude GoText Worklist GoJson Delivery Domain Status Planning Handlers Collections DeviceAuth Reservation WorkerAuth Composition Pins WorkerJobs Publications Registry Restoration Checks WorkerChecks Retention RetentionRoots RetentionRecovery RetentionReport.
Open Scope string_scope.
Open Scope list_scope.

(** ** The order of knowledge *)
Record image_le (v w : RetentionImage) : Prop := {
  le_identity : RetentionImage_Identity w = RetentionImage_Identity v;
  le_repository : RetentionImage_ImageRepository w = RetentionImage_ImageRepository v;
  le_digest : RetentionImage_Digest w = RetentionImage_Digest v;
  le_protected : RetentionImage_Protected v = true -> RetentionImage_Protected w = true;
  le_reasons : forall r, r ∈ RetentionImage_Reasons v -> r ∈ RetentionImage_Reasons w;
  le_blockers : forall b, b ∈ RetentionImage_Blockers v -> b ∈ RetentionImage_Blockers w;
}.
#[export] Instance image_le_preorder : PreOrder image_le.
Proof.
  split.
  - intros v. split; auto.
  - intros u v w [] []. split; try (etransitivity; eassumption); auto.
Qed.
(** Protection has a reason, and only a reason protects. *)
Definition justified (v : RetentionImage) : Prop := RetentionImage_Protected v = true <-> RetentionImage_Reasons v <> [].
(** An image is known by its repository and its digest. *)
Definition named (v : RetentionImage) : Prop :=
  RetentionImage_Identity v = image_key (RetentionImage_ImageRepository v) (RetentionImage_Digest v) /\ is_digest (RetentionImage_Digest v) = true.
Definition Sound (c : retentionCollector) : Prop :=
  forall k v, c_images c !! k = Some v -> RetentionImage_Identity v = k /\ named v /\ justified v.
Lemma named_le v w : image_le v w -> named v -> named w.
Proof. intros [Ei Er Ed _ _ _] [E D]. unfold named. rewrite Ei, Er, Ed. auto. Qed.
Definition frame (c : retentionCollector) := (c_st c, c_product c, c_now c, c_policies c, c_ops c).
Record Grows (strict : bool) (c c' : retentionCollector) : Prop := {
  grows_frame : frame c' = frame c;
  grows_images : forall k v, c_images c !! k = Some v -> exists w, c_images c' !! k = Some w /\ image_le v w;
  grows_new : strict = true -> forall k w, c_images c' !! k = Some w -> c_images c !! k = None -> RetentionImage_Protected w = true;
  grows_sound : Sound c -> Sound c';
  grows_blockers : forall b, b ∈ c_blockers c -> b ∈ c_blockers c';
}.
#[export] Instance grows_preorder s : PreOrder (Grows s).
Proof.
  split.
  - intros c. split; auto; try congruence. intros k v Hv. exists v. split; [exact Hv|reflexivity].
  - intros c1 c2 c3 [F1 I1 N1 S1 B1] [F2 I2 N2 S2 B2]. split; [congruence| | |auto|auto].
    + intros k v Hv. destruct (I1 k v Hv) as (w & Hw & L1). destruct (I2 k w Hw) as (x & Hx & L2).
      exists x. split; [exact Hx|]. etransitivity; eassumption.
    + intros Hs k w Hw Hn. destruct (c_images c2 !! k) as [v|] eqn:E.
      * destruct (I2 k v E) as (w' & Hw' & L). rewrite Hw in Hw'. injection Hw' as <-. apply (le_protected _ _ L), (N1 Hs k v E Hn).
      * exact (N2 Hs k w Hw E).
Qed.
Lemma grows_weaken s c c' : Grows s c c' -> Grows false c c'.
Proof. intros [F I N S B]. split; auto. discriminate. Qed.
Lemma grows_foldl {A} s (f : retentionCollector -> A -> retentionCollector) l c :
  (forall c x, Grows s c (f c x)) -> Grows s c (foldl f c l).
Proof. intros Hf. revert c; induction l as [|x l IH]; intros c; [reflexivity|]. cbn. etransitivity; [apply Hf|apply IH]. Qed.
Lemma grows_foldl_pair {A B} s (f : retentionCollector * B -> A -> retentionCollector * B) l acc :
  (forall acc x, Grows s acc.1 (f acc x).1) -> Grows s acc.1 (foldl f acc l).1.
Proof. intros Hf. revert acc; induction l as [|x l IH]; intros acc; [reflexivity|]. cbn. etransitivity; [apply Hf|apply IH]. Qed.

(** *** The primitive steps *)
Lemma grows_block s code c : Grows s c (block code c).
Proof.
  split; auto; cbn; try congruence.
  - intros k v Hv. exists v. split; [exact Hv|reflexivity].
  - intros b Hb. apply elem_of_app. left; exact Hb.
Qed.
Lemma grows_learn s fact c : Grows s c (learn fact c).
Proof. split; auto; cbn; try congruence. intros k v Hv. exists v. split; [exact Hv|reflexivity]. Qed.
(** A write to an image that forgets nothing. *)
Definition Edit (f : RetentionImage -> RetentionImage) : Prop := forall v, image_le v (f v) /\ (justified v -> justified (f v)).
Lemma grows_edit s key f c : Edit f -> Grows s c (edit_image key f c).
Proof.
  intros Hf. split; auto; change (c_images (edit_image key f c)) with (alter f key (c_images c)).
  - intros k v Hv. destruct (decide (k = key)) as [->|Hne].
    + exists (f v). rewrite lookup_alter_eq. split; [apply fmap_Some; eauto|apply Hf].
    + exists v. rewrite lookup_alter_ne by congruence. split; [exact Hv|reflexivity].
  - intros _ k w Hw Hn. apply lookup_alter_Some in Hw as [(-> & y & Hy & _)|[_ Hw]]; congruence.
  - intros Hs k w Hw. change (alter f key (c_images c) !! k = Some w) in Hw.
    apply lookup_alter_Some in Hw as [(-> & v & Hv & ->)|[_ Hw]]; [|apply Hs, Hw].
    destruct (Hs _ _ Hv) as (Hi & Hn & Hj). destruct (Hf v) as [L J].
    split; [rewrite (le_identity _ _ L); exact Hi|]. split; [apply (named_le _ _ L), Hn|auto].
Qed.
Lemma edit_protect reason : Edit (protect reason).
Proof.
  intros v. split; [split; cbn; auto; intros r Hr; apply elem_of_app; left; exact Hr|].
  intros _. unfold justified. cbn. split; [|reflexivity]. intros _ E. apply app_eq_nil in E as [_ [=]].
Qed.
Lemma edit_blocker code : Edit (image_blocker code).
Proof. intros v. split; [split; cbn; auto; intros b Hb; apply elem_of_app; left; exact Hb|auto]. Qed.
Lemma edit_compose f g : Edit f -> Edit g -> Edit (fun v => g (f v)).
Proof.
  intros Hf Hg v. destruct (Hf v) as [L1 J1], (Hg (f v)) as [L2 J2]. split; [etransitivity; eassumption|auto].
Qed.
Lemma edit_use app reason : Edit (image_use app reason).
Proof.
  assert (Happ : Edit (fun v => if app != "" then v <| RetentionImage_ApplicationIDs ::= fun l => l ++ [app] |> else v)).
  { intros v. destruct (app != ""); (split; [split; auto|auto]). }
  unfold image_use. destruct (reason != ""); [apply (edit_compose _ _ Happ (edit_protect reason))|exact Happ].
Qed.
Lemma edit_id_like f : (forall v, RetentionImage_Identity (f v) = RetentionImage_Identity v /\ RetentionImage_ImageRepository (f v) = RetentionImage_ImageRepository v
    /\ RetentionImage_Digest (f v) = RetentionImage_Digest v
    /\ RetentionImage_Protected (f v) = RetentionImage_Protected v /\ RetentionImage_Reasons (f v) = RetentionImage_Reasons v
    /\ RetentionImage_Blockers (f v) = RetentionImage_Blockers v) -> Edit f.
Proof.
  intros Hf v. destruct (Hf v) as (E1 & E2 & Ed & E3 & E4 & E5). split; [split; rewrite ?E1, ?E2, ?Ed, ?E3, ?E4, ?E5; auto|].
  unfold justified. rewrite E3, E4. auto.
Qed.
Lemma justified_new key repo digest : justified (new_image key repo digest).
Proof. split; [discriminate|]. intros Hn. destruct Hn. reflexivity. Qed.
#[export] Hint Resolve edit_protect edit_blocker edit_compose : core.

Section safety.
Context `{Runtime, NetURL, URLs, Encoding, Hashing, MapOrder, TimeLayout}.

(** [c.image] with a reason only adds protected images. *)
Lemma grows_insert s key w c : (forall v, c_images c !! key = Some v -> image_le v w) ->
  (s = true -> c_images c !! key = None -> RetentionImage_Protected w = true) ->
  (Sound c -> RetentionImage_Identity w = key /\ named w /\ justified w) -> Grows s c (c <| c_images ::= <[key := w]> |>).
Proof using Type.
  intros Hle Hnew Hw. split; auto; change (c_images (c <| c_images ::= <[key := w]> |>)) with (<[key := w]> (c_images c)).
  - intros k v Hv. destruct (decide (k = key)) as [->|Hne].
    + exists w. rewrite lookup_insert_eq. auto.
    + exists v. rewrite lookup_insert_ne by congruence. split; [exact Hv|reflexivity].
  - intros Hs k x Hx Hn. apply lookup_insert_Some in Hx as [[<- <-]|[_ Hx]]; [auto|congruence].
  - intros Hs k x Hx. change (<[key := w]> (c_images c) !! k = Some x) in Hx.
    apply lookup_insert_Some in Hx as [[<- <-]|[_ Hx]]; [auto|apply Hs, Hx].
Qed.
Lemma grows_image s repo digest app reason c : (s = true -> reason <> "") -> Grows s c (image repo digest app reason c).1.
Proof using Type.
  intros Hr. unfold image. destruct (CanonicalImageRepository repo) as [r|]; [|apply grows_block].
  destruct (negb (is_digest digest)) eqn:Ed; [apply grows_block|]. apply negb_false_iff in Ed. set (key := image_key r digest).
  refine (grows_insert s key (image_use app reason (default (new_image key r digest) (c_images c !! key))) c _ _ _);
    destruct (c_images c !! key) as [old|] eqn:E; cbn [from_option]; change (@id RetentionImage) with (fun v : RetentionImage => v); cbv beta.
  - intros v [= <-]. apply edit_use.
  - intros v [=].
  - intros _ [=].
  - intros Hs _. unfold image_use. replace (reason != "") with true by (symmetry; apply negb_true_iff, bool_decide_eq_false_2; auto). reflexivity.
  - intros Hs. destruct (Hs _ _ E) as (Hi & Hn & Hj). destruct (edit_use app reason old) as [L J]. rewrite (le_identity _ _ L).
    split; [exact Hi|]. split; [apply (named_le _ _ L), Hn|auto].
  - intros _. destruct (edit_use app reason (new_image key r digest)) as [L J]. rewrite (le_identity _ _ L).
    split; [reflexivity|]. split; [apply (named_le _ _ L); split; [reflexivity|exact Ed]|apply J, justified_new].
Qed.
Lemma grows_root s repo digest app reason c : (s = true -> reason <> "") -> Grows s c (root repo digest app reason c).
Proof using Type. apply grows_image. Qed.

(** *** Automation: a step grows when all its parts do *)
Lemma grows_then s c1 c2 c3 : Grows s c2 c3 -> Grows s c1 c2 -> Grows s c1 c3.
Proof using Type. intros G2 G1. etransitivity; eassumption. Qed.
Lemma grows_pair {B} s c (x : retentionCollector * B) (k : retentionCollector -> B -> retentionCollector) :
  Grows s c x.1 -> (forall c' b, Grows s c c' -> Grows s c (k c' b)) -> Grows s c (let '(c', b) := x in k c' b).
Proof using Type. destruct x as [c' b]. intros Hx Hk. apply Hk, Hx. Qed.
Lemma grows_pair_fst {B D} s c (x : retentionCollector * B) (k : retentionCollector -> B -> retentionCollector * D) :
  Grows s c x.1 -> (forall c' b, Grows s c c' -> Grows s c (k c' b).1) -> Grows s c (let '(c', b) := x in k c' b).1.
Proof using Type. destruct x as [c' b]. intros Hx Hk. apply Hk, Hx. Qed.
End safety.

Create HintDb grows discriminated.
#[export] Hint Resolve grows_block grows_learn grows_edit grows_root grows_image edit_protect edit_blocker : grows.
#[export] Hint Extern 2 (_ = true -> _ <> "") => first [assumption | intros _; discriminate] : grows.
Ltac grow1 :=
  lazymatch goal with
  | |- Grows _ ?c ?c => reflexivity
  | |- Grows _ _ (let '(_, _) := ?x in _) => first [refine (grows_pair _ _ x _ _ _); [|intros ? ? ?] | destruct x]
  | |- Grows _ _ (let '(_, _) := ?x in _).1 => first [refine (grows_pair_fst _ _ x _ _ _); [|intros ? ? ?] | destruct x]
  | |- Grows _ _ (match ?x with _ => _ end).1 => destruct x; cbn [fst snd]
  | |- Grows _ _ (match ?x with _ => _ end) => destruct x
  | |- Grows _ _ (foldl _ _ _).1 => eapply grows_then; [apply grows_foldl_pair; intros [? ?] ?; cbn [fst snd]|cbn [fst snd]]
  | |- Grows _ _ (foldl _ _ _) => eapply grows_then; [apply grows_foldl; intros ? ?|]
  | |- Grows _ _ _ => first [assumption | eapply grows_then; [solve [eauto 4 with grows]|]]
  end.
Ltac grow := repeat (cbv zeta; cbn [fst snd]; grow1).

Section roots.
Context `{Runtime, NetURL, URLs, Encoding, Hashing, MapOrder, TimeLayout}.

Lemma grows_observe s key t a c : Grows s c (observe key t a c).
Proof using Type.
  unfold observe. destruct key as [key|]; [|reflexivity]. 
  repeat match goal with |- Grows _ _ (match ?x with _ => _ end) => destruct x end; try reflexivity;
    (split; auto; cbn; try congruence; intros k v Hv; exists v; split; [exact Hv|reflexivity]).
Qed.
Lemma grows_bare_digest s value app reason c : (s = true -> reason <> "") -> Grows s c (bare_digest value app reason c).
Proof using Type.
  intros Hr. unfold bare_digest.
  assert (Ha : forall acc a, Grows s acc.1 (artifact_ref value app reason acc a).1) by (intros [c1 m] a; cbn; unfold artifact_ref; grow).
  assert (Hs : forall acc o, Grows s acc.1 (snapshot_ref value app reason acc o).1) by (intros [c1 m] o; unfold snapshot_ref; grow).
  assert (Hb : forall acc b, Grows s acc.1 (build_ref value app reason acc b).1) by (intros [c1 m] b; unfold build_ref; grow).
  grow.
Qed.
#[local] Hint Resolve grows_observe grows_bare_digest : grows.
Lemma grows_ref s value hint app reason c : (s = true -> reason <> "") -> Grows s c (ref value hint app reason c).
Proof using Type. intros Hr. unfold ref. grow. Qed.
Lemma grows_snapshot s v digest reason c : (s = true -> reason <> "") -> Grows s c (snapshot v digest reason c).
Proof using Type. intros Hr. unfold snapshot. grow. Qed.
#[local] Hint Resolve grows_ref grows_snapshot : grows.

(** *** Operations and jobs *)
Lemma grows_operation_images s o reason c : (s = true -> reason <> "") -> Grows s c (operation_images o reason c).
Proof using Type. intros Hr. unfold operation_images. grow. Qed.
Lemma grows_gitops s o c : Grows s c (gitops_observed o c).
Proof using Type. unfold gitops_observed. grow. Qed.
Lemma grows_prepared s v reason c x a : (s = true -> reason <> "") -> Grows s c (prepared_artifact v reason (c, x) a).1.
Proof using Type. intros Hr. unfold prepared_artifact. grow. Qed.
#[local] Hint Resolve grows_operation_images grows_gitops grows_prepared : grows.
Lemma grows_deployment s reason c v : (s = true -> reason <> "") -> Grows s c (prepared_deployment reason c v).
Proof using Type. intros Hr. unfold prepared_deployment. grow. Qed.
Lemma grows_child s reason c id : (s = true -> reason <> "") -> Grows s c (child_images reason c id).
Proof using Type. intros Hr. unfold child_images. grow. Qed.
#[local] Hint Resolve grows_deployment grows_child : grows.
Lemma grows_operation s o reason c : (s = true -> reason <> "") -> Grows s c (operation o reason c).
Proof using Type. intros Hr. unfold operation. grow. Qed.
#[local] Hint Resolve grows_operation : grows.
Lemma grows_operation_if s o reason c : Grows s c (if reason != "" then operation o reason c else c).
Proof using Type. destruct (reason != "") eqn:E; [|reflexivity]. to_prop. apply grows_operation. auto. Qed.
#[local] Hint Resolve grows_operation_if : grows.
Lemma grows_collect_operation s c o : Grows s c (collect_operation c o).
Proof using Type.
  unfold collect_operation. destruct (ProductID o != c_product c); [reflexivity|]. cbv zeta.
  assert (Hop : forall reason c', Grows s c c' -> Grows s c (if reason != "" then operation o reason c' else c')).
  { intros reason c' Hc. eapply grows_then; [apply grows_operation_if|exact Hc]. }
  destruct (uncertain c o).
  - pose proof (Hop "uncertain_external_intent" _ (grows_block s "uncertain_external_intent" c)) as Hc.
    destruct (ExternalOperation_GitOpsBase o) as [g|]; [|exact Hc].
    destruct (GitOpsSnapshot_Digest g != ""); [eapply grows_then; [apply grows_gitops|]|]; exact Hc.
  - pose proof (Hop (if inflight o then "operation_inflight" else "") c (PreOrder_Reflexive c)) as Hc.
    destruct (ExternalOperation_GitOpsBase o) as [g|]; [|exact Hc].
    destruct (GitOpsSnapshot_Digest g != ""); [eapply grows_then; [apply grows_gitops|]|]; exact Hc.
Qed.
Lemma grows_publication_receipt s j p c a : Grows s c (publication_receipt j p c a).
Proof using Type. unfold publication_receipt. grow. Qed.
#[local] Hint Resolve grows_collect_operation grows_publication_receipt : grows.
Lemma grows_collect_publication s j p c : Grows s c (collect_publication j p c).
Proof using Type. unfold collect_publication. grow. Qed.
Lemma grows_receipt_delivery s j d c b : Grows s c (receipt_delivery j d (c, b)).1.
Proof using Type. unfold receipt_delivery. grow. Qed.
Lemma grows_receipt_publication s j d c b w : Grows s c (receipt_publication j d (c, b) w).1.
Proof using Type. unfold receipt_publication. grow. Qed.
#[local] Hint Resolve grows_collect_publication grows_receipt_delivery grows_receipt_publication : grows.
Lemma grows_build_receipt s j c b a : Grows s c (build_receipt j (c, b) a).1.
Proof using Type. unfold build_receipt. grow. Qed.
#[local] Hint Resolve grows_build_receipt : grows.
Lemma grows_collect_build s j c : Grows s c (collect_build j c).
Proof using Type. unfold collect_build. grow. Qed.
#[local] Hint Resolve grows_collect_build : grows.
Lemma grows_collect_job s c j : Grows s c (collect_job c j).
Proof using Type. unfold collect_job. grow. Qed.
#[local] Hint Resolve grows_collect_job : grows.
Lemma grows_operations s c : Grows s c (operations c).
Proof using Type. unfold operations. grow. Qed.

(** *** Environments *)
Lemma grows_image_entry s reason repo k v c : (s = true -> reason <> "") -> Grows s c (image_entry reason repo k v c).
Proof using Type. intros Hr. unfold image_entry. grow. Qed.
#[local] Hint Resolve grows_operations grows_image_entry : grows.
Lemma grows_environment_map s reason v c : (s = true -> reason <> "") -> Grows s c (environmentMap reason v c).
Proof using Type.
  intros Hr. revert c. induction v as [|b|l|str|l _|kvs IH] using json_nested_ind; intros c; try reflexivity.
  cbn [environmentMap]. cbv zeta.
  lazymatch goal with |- Grows _ _ (match _ with [] => _ | _ :: _ => ?f kvs ?c1 end) =>
    assert (Hf : forall l, Forall (fun kv : string * json => forall c, Grows s c (environmentMap reason kv.2 c)) l -> forall c', Grows s c' (f l c'));
    [|specialize (Hf kvs IH c1)] end.
  { induction 1 as [|[k x] l Hx _ IHl]; intros c'; [reflexivity|]. cbn. destruct (contains _ k); [apply IHl|].
    eapply grows_then; [apply IHl|]. cbn [snd] in Hx. eapply grows_then with (image_entry reason _ k x c'); [|grow].
    destruct x; [reflexivity..|apply Hx]. }
  destruct kvs as [|e kvs]; [reflexivity|]. eapply grows_then; [exact Hf|]. grow.
Qed.
#[local] Hint Resolve grows_environment_map : grows.
Lemma grows_document s reason m c : (s = true -> reason <> "") -> Grows s c (environment_document reason m c).
Proof using Type. intros Hr. unfold environment_document. grow. Qed.
Lemma grows_part_artifact s comp part c b a : Grows s c (part_artifact comp part (c, b) a).1.
Proof using Type. unfold part_artifact. grow. Qed.
#[local] Hint Resolve grows_document grows_part_artifact : grows.
Lemma grows_composition_part s comp c part : Grows s c (composition_part comp c part).
Proof using Type. unfold composition_part. grow. Qed.
#[local] Hint Resolve grows_composition_part : grows.
Lemma grows_composition s comp c : Grows s c (composition comp c).
Proof using Type. unfold composition. grow. Qed.
Lemma grows_desired_operation s e c : Grows s c (desired_operation e c).
Proof using Type. unfold desired_operation. grow. Qed.
#[local] Hint Resolve grows_composition grows_desired_operation : grows.
Lemma grows_desired_composition s e c : Grows s c (desired_composition e c).
Proof using Type. unfold desired_composition. grow. Qed.
#[local] Hint Resolve grows_desired_composition : grows.
Lemma grows_collect_environment s c e : Grows s c (collect_environment c e).
Proof using Type. unfold collect_environment. grow. Qed.
Lemma grows_flux_operation s r rev c b o : Grows s c (flux_operation r rev (c, b) o).1.
Proof using Type. unfold flux_operation. grow. Qed.
#[local] Hint Resolve grows_collect_environment grows_flux_operation : grows.
Lemma grows_flux_images s r c : Grows s c (flux_images r c).
Proof using Type. unfold flux_images. grow. Qed.
Lemma grows_runtime_health s r f c : Grows s c (runtime_health r f c).
Proof using Type. unfold runtime_health. grow. Qed.
Lemma grows_pod_images s app c p : Grows s c (pod_images app c p).
Proof using Type. unfold pod_images. grow. Qed.
#[local] Hint Resolve grows_flux_images grows_runtime_health grows_pod_images : grows.
Lemma grows_collect_runtime s c r : Grows s c (collect_runtime c r).
Proof using Type. unfold collect_runtime. grow. Qed.
Lemma grows_collect_attestation s c r : Grows s c (collect_attestation c r).
Proof using Type. unfold collect_attestation. grow. Qed.
#[local] Hint Resolve grows_collect_runtime grows_collect_attestation : grows.
Lemma grows_environments s c : Grows s c (environments c).
Proof using Type. unfold environments. grow. Qed.

(** *** Releases *)
Lemma grows_unproven_digest s u c e : Grows s c (unproven_digest u c e).
Proof using Type. unfold unproven_digest. grow. Qed.
#[local] Hint Resolve grows_environments grows_unproven_digest : grows.
Lemma grows_unproven_release s r u c : Grows s c (unproven_release r u c).
Proof using Type. unfold unproven_release. grow. Qed.
#[local] Hint Resolve grows_unproven_release : grows.
Lemma grows_collect_release s c g r : Grows s c (collect_release (c, g) r).1.
Proof using Type. unfold collect_release. grow. Qed.
Lemma grows_release_children s reason r c : (s = true -> reason <> "") -> Grows s c (release_children reason r c).
Proof using Type. intros Hr. unfold release_children. grow. Qed.
#[local] Hint Resolve grows_collect_release grows_release_children : grows.
Lemma grows_keep_release s c n r : Grows s c (keep_release (c, n) r).1.
Proof using Type.
  unfold keep_release. cbn [fst]. destruct (_ <=? _)%Z; [|reflexivity]. apply grows_release_children. intros _. destruct (n =? 0)%nat; discriminate.
Qed.
#[local] Hint Resolve grows_keep_release : grows.
Lemma grows_keep_releases s c rs : Grows s c (keep_releases c rs).
Proof using Type. unfold keep_releases. grow. Qed.
#[local] Hint Resolve grows_keep_releases : grows.
Lemma grows_release_roots s c : Grows s c (release_roots c).
Proof using Type. unfold release_roots. grow. Qed.
#[local] Hint Resolve grows_release_roots : grows.

(** *** Recoveries *)
Lemma grows_capture_scope s o c : Grows s c (baselineCaptureScope o c).1.
Proof using Type. unfold baselineCaptureScope. grow. Qed.
Lemma grows_hold_settled s o c : Grows s c (baselineHoldSettled o c).1.
Proof using Type. unfold baselineHoldSettled. destruct (baselineHold c o). grow. Qed.
Lemma operation_reason_nonempty p id : p <> "" -> operation_reason p id <> "".
Proof using Type. destruct p; [contradiction|discriminate]. Qed.
Lemma grows_baseline_image s reason valid app repo d c : (s = true -> reason <> "") -> Grows s c (baseline_image reason valid app repo d c).
Proof using Type. intros Hr. unfold baseline_image. grow. Qed.
#[local] Hint Resolve grows_capture_scope grows_hold_settled grows_baseline_image : grows.
Lemma grows_baseline_images s o valid c : Grows s c (baseline_images o valid c).
Proof using Type.
  unfold baseline_images. cbv zeta. set (add := baseline_image _ _).
  assert (Hadd : forall app repo d c, Grows s c (add app repo d c)).
  { intros app repo d c'. apply grows_baseline_image. intros _. apply operation_reason_nonempty. discriminate. }
  unfold baseline_part, baseline_result_part, runtime_part. clearbody add. grow.
Qed.
#[local] Hint Resolve grows_baseline_images : grows.
Lemma grows_collect_baseline s c o : Grows s c (collect_baseline c o).
Proof using Type.
  unfold collect_baseline. destruct (negb _); [reflexivity|]. cbv zeta.
  set (c0 := learn _ c). assert (H0' : Grows s c c0) by apply grows_learn. clearbody c0.
  pose proof (grows_capture_scope s o c0) as H1'. destruct (baselineCaptureScope o c0) as [c1 valid]. cbn [fst] in H1'.
  pose proof (grows_hold_settled s o c1) as H2'. destruct (baselineHoldSettled o c1) as [c2 settled]. cbn [fst] in H2'.
  assert (Hc2 : Grows s c c2) by (repeat (eapply grows_then; [eassumption|]); reflexivity).
  assert (Hc1 : Grows s c c1) by (repeat (eapply grows_then; [eassumption|]); reflexivity).
  destruct valid; [destruct settled|]; grow.
Qed.
#[local] Hint Resolve grows_collect_baseline : grows.
Lemma grows_baseline_roots s c : Grows s c (baselineRoots c).
Proof using Type. unfold baselineRoots. grow. Qed.
Lemma grows_restoration_image s m o app repo d c : Grows s c (restoration_image m o app repo d c).
Proof using Type.
  unfold restoration_image. destruct (d == ""); [reflexivity|]. destruct (match settled_key app repo d with Some _ => _ | None => _ end); [reflexivity|].
  refine (grows_pair _ _ (image repo d app (operation_reason "dev_restoration:" (ID o)) c) _ _ _).
  - apply grows_image. intros _. apply operation_reason_nonempty. discriminate.
  - intros c' key Hc. grow.
Qed.
#[local] Hint Resolve grows_baseline_roots grows_restoration_image : grows.
Lemma grows_observation_image s m o app g c : Grows s c (observation_image m o app g c).
Proof using Type. apply grows_restoration_image. Qed.
Lemma grows_restoration_artifact s m o id app c : Grows s c (restoration_artifact m o id app c).
Proof using Type. unfold restoration_artifact. grow. Qed.
Lemma grows_restoration_ref s m o value hint app c : Grows s c (restoration_ref m o value hint app c).
Proof using Type. unfold restoration_ref. grow. Qed.
Lemma grows_restoration_batch s m o b c : Grows s c (restoration_batch m o b c).
Proof using Type. unfold restoration_batch. grow. Qed.
#[local] Hint Resolve grows_observation_image grows_restoration_artifact grows_restoration_ref grows_restoration_batch : grows.
Lemma grows_restoration_component s m o c x : Grows s c (restoration_component m o c x).
Proof using Type. unfold restoration_component. grow. Qed.
Lemma grows_restoration_group s m o plan c g : Grows s c (restoration_group m o plan c g).
Proof using Type. unfold restoration_group. grow. Qed.
Lemma grows_restoration_available s m o c x : Grows s c (restoration_available m o c x).
Proof using Type. unfold restoration_available. grow. Qed.
Lemma grows_restoration_role s m o hint app c r : Grows s c (restoration_role m o hint app c r).
Proof using Type. unfold restoration_role. grow. Qed.
#[local] Hint Resolve grows_restoration_component grows_restoration_group grows_restoration_available grows_restoration_role : grows.
Lemma grows_restoration_plan s m o plan c : Grows s c (restoration_plan m o plan c).
Proof using Type. unfold restoration_plan. grow. Qed.
Lemma grows_restoration_verification s m o c : Grows s c (restoration_verification m o c).
Proof using Type. unfold restoration_verification. grow. Qed.
Lemma grows_restoration_runtime s m o c : Grows s c (restoration_runtime m o c).
Proof using Type. unfold restoration_runtime. grow. Qed.
#[local] Hint Resolve grows_restoration_plan grows_restoration_verification grows_restoration_runtime : grows.
Lemma grows_collect_restoration s m c o : Grows s c (collect_restoration m c o).
Proof using Type. unfold collect_restoration. grow. Qed.
#[local] Hint Resolve grows_collect_restoration : grows.
Lemma grows_restoration_roots s c : Grows s c (restorationRoots c).
Proof using Type. unfold restorationRoots. grow. Qed.

(** *** The rest of the evaluation *)
Lemma grows_collect_pin s c p : Grows s c (collect_pin c p).
Proof using Type. unfold collect_pin. grow. Qed.
Lemma grows_collect_quarantine s c q : Grows s c (collect_quarantine c q).
Proof using Type. unfold collect_quarantine. grow. Qed.
#[local] Hint Resolve grows_restoration_roots grows_collect_pin grows_collect_quarantine : grows.
Lemma edit_judged f av : Edit (fun v => v <| RetentionImage_Freshness := f |> <| RetentionImage_Availability ::= judged_availability f av |>).
Proof using Type. apply edit_id_like. intros v. repeat split. Qed.
#[local] Hint Resolve edit_judged : grows.
Lemma grows_judge_observation s c k : Grows s c (judge_observation c k).
Proof using Type. unfold judge_observation. grow. Qed.
#[local] Hint Resolve grows_judge_observation : grows.
Lemma grows_judge_image s c k : Grows s c (judge_image c k).
Proof using Type.
  unfold judge_image. cbv zeta. set (c0 := judge_observation c k). assert (Hc : Grows s c c0) by apply grows_judge_observation. clearbody c0.
  destruct (c_images c0 !! k); grow.
Qed.
#[local] Hint Resolve grows_judge_image : grows.
(** Everything after the artifacts. *)
Definition after_artifacts (c : retentionCollector) : retentionCollector :=
  let c := operations c in
  let c := baselineRoots c in
  let c := restorationRoots c in
  let c := environments c in
  let c := release_roots c in
  let c := foldl collect_pin c (State_ArtifactPins (c_st c)) in
  let c := foldl collect_quarantine c (State_NativeQuarantines (c_st c)) in
  foldl judge_image c (map fst (map_range (c_images c))).
Lemma grows_after s c : Grows s c (after_artifacts c).
Proof using Type. unfold after_artifacts. grow. Qed.
(** The collector that [artifacts] starts from. *)
Definition start (st : State) (product : string) (now : Time) : retentionCollector :=
  let c := newRetentionCollector st product now in
  relevantEvidence (c <| c_policies := policies_of c |>).
Lemma evaluate_start st product now : evaluate (newRetentionCollector st product now) = after_artifacts (artifacts (start st product now)).
Proof using Type. reflexivity. Qed.

(** *** Artifacts *)
Lemma edit_artifact id : Edit (fun v => v <| RetentionImage_ArtifactIDs ::= fun l => l ++ [id] |>).
Proof using Type. apply edit_id_like. intros v. repeat split. Qed.
Lemma edit_published profile t : Edit (published profile t).
Proof using Type. apply edit_id_like. intros v. unfold published. cbv zeta. destruct (match _ with None => _ | Some _ => _ end); repeat split. Qed.
Lemma edit_unknown : Edit unknown_chronology.
Proof using Type.
  unfold unknown_chronology. refine (edit_compose (fun v => protect _ (v <| RetentionImage_Profiles ::= fun l => l ++ ["unknown"] |>)) _ _ (edit_blocker _)).
  refine (edit_compose (fun v => v <| RetentionImage_Profiles ::= fun l => l ++ ["unknown"] |>) _ _ (edit_protect _)).
  apply edit_id_like. intros v. repeat split.
Qed.
#[local] Hint Resolve edit_artifact edit_published edit_unknown : grows.
Lemma grows_collect_artifact c pubs a : Grows false c (collect_artifact (c, pubs) a).1.
Proof using Type.
  assert (Hn : forall reason : string, false = true -> reason <> "") by discriminate.
  unfold collect_artifact. grow.
Qed.
Lemma grows_keep_publication s c p : Grows s c (keep_publication c p).
Proof using Type. unfold keep_publication. grow. Qed.
#[local] Hint Resolve grows_collect_artifact grows_keep_publication : grows.
Lemma grows_keep_group s c g : Grows s c (keep_group c g).
Proof using Type. unfold keep_group. grow. Qed.
#[local] Hint Resolve grows_keep_group : grows.
Lemma grows_artifacts c : Grows false c (artifacts c).
Proof using Type. unfold artifacts. grow. Qed.
Lemma grows_evaluate st product now : Grows false (start st product now) (evaluate (newRetentionCollector st product now)).
Proof using Type. rewrite evaluate_start. etransitivity; [apply grows_artifacts|apply grows_after]. Qed.

(** *** Other products *)
Lemma grows_share_image s local c e : Grows s c (share_image local c e).
Proof using Type. unfold share_image. destruct e as [k f]. grow. Qed.
#[local] Hint Resolve grows_share_image : grows.
Lemma grows_share_product s st product now c other : Grows s c (share_product st product now c other).
Proof using Type. unfold share_product. grow. Qed.
#[local] Hint Resolve grows_share_product : grows.
Lemma grows_shared s st product now : Grows s (evaluate (newRetentionCollector st product now)) (shared_collector st product now).
Proof using Type. unfold shared_collector. grow. Qed.

(** *** A step inside a loop *)
Lemma foldl_at {A} s (f : retentionCollector -> A -> retentionCollector) l c0 c x (R : retentionCollector -> Prop) :
  x ∈ l -> (forall c y, Grows s c (f c y)) -> Grows s c0 c -> (forall c, Grows s c0 c -> R (f c x)) ->
  (forall c c', Grows s c c' -> R c -> R c') -> R (foldl f c l).
Proof using Type.
  intros Hx Hf Hc HR Hup. revert c Hc. induction l as [|y l IH]; [inversion Hx|]. intros c Hc. cbn.
  apply elem_of_cons in Hx as [->|Hx].
  - apply (Hup (f c y)); [apply grows_foldl, Hf|apply HR, Hc].
  - apply IH; [exact Hx|]. etransitivity; [exact Hc|apply Hf].
Qed.
End roots.
