(* ===== verification/RetentionKept.v ===== *)
(** * Retention: what may be given up, and what is kept

    What [EvaluateRetention] promises of each image it lists: an image without
    protection has been superseded by enough newer images of its component and
    profile ([unprotected_is_superseded]); what is pinned, in flight, in
    production or used by another product is protected. *)
From Stdlib Require Import DecimalString.
From S2P Require Import Prelude GoText Worklist GoJson Delivery Domain Status Planning Handlers DeviceAuth Collections Reservation WorkerAuth Composition Pins WorkerJobs Publications Registry Restoration Checks WorkerChecks Retention RetentionRoots RetentionRecovery RetentionReport RetentionSafety.
Open Scope string_scope.
Open Scope list_scope.

(** ** Keys without ambiguity

    The keys of [pubs] and [groups] join strings with NUL; identities and
    profiles have none. *)
Definition nonzero (a : ascii) : bool := negb (byte_of a =? 0)%nat.
Definition no_nul (s : string) : Prop := str_all nonzero s = true.
Lemma no_nul_app s t : no_nul (s +:+ t) <-> no_nul s /\ no_nul t.
Proof. unfold no_nul. rewrite str_all_app. apply andb_true_iff. Qed.
Lemma no_nul_mono p s : (forall a, p a = true -> nonzero a = true) -> str_all p s = true -> no_nul s.
Proof. apply str_all_mono. Qed.
Lemma split_on_all sep (q : ascii -> bool) s : (forall w, w ∈ split_on sep s -> str_all q w = true) ->
  str_all (fun a => (a == sep) || q a) s = true.
Proof.
  induction s as [|a s IH]; [reflexivity|]. cbn. destruct (a == sep) eqn:E; intros Hw; cbn.
  - apply IH. intros w Hin. apply Hw. right; exact Hin.
  - destruct (split_on sep s) as [|w ws] eqn:Es; [apply split_on_nonempty in Es; contradiction|].
    pose proof (Hw (String a w) (list_elem_of_here _ _)) as Ha. cbn in Ha. apply andb_true_iff in Ha as [-> Ha]. cbn.
    apply IH. intros v [->|Hv]%elem_of_cons; [exact Ha|apply Hw; right; exact Hv].
Qed.
Lemma split_any_all sep (q : ascii -> bool) s : (forall w, w ∈ split_any sep s -> str_all q w = true) ->
  str_all (fun a => sep a || q a) s = true.
Proof.
  induction s as [|a s IH]; [reflexivity|]. cbn. destruct (sep a) eqn:E; intros Hw; cbn.
  - apply IH. intros w Hin. apply Hw. right; exact Hin.
  - assert (Hne : split_any sep s <> []) by (destruct s as [|b s]; cbn; [discriminate|destruct (sep b); [discriminate|destruct (split_any sep s); discriminate]]).
    destruct (split_any sep s) as [|w ws] eqn:Es; [contradiction|].
    pose proof (Hw (String a w) (list_elem_of_here _ _)) as Ha. cbn in Ha. apply andb_true_iff in Ha as [-> Ha]. cbn.
    apply IH. intros v [->|Hv]%elem_of_cons; [exact Ha|apply Hw; right; exact Hv].
Qed.
Lemma lower_nonzero a : lower_alnum a = true -> nonzero a = true.
Proof. unfold lower_alnum, is_digit, is_lower, in_range, nonzero, byte_of. intros Hl. destruct (nat_of_ascii a); [discriminate|reflexivity]. Qed.
Lemma listed_nonzero chars a : str_mem a chars = true -> str_mem (ascii_of_nat 0) chars = false -> nonzero a = true.
Proof.
  intros Ha Hz. unfold nonzero, byte_of. destruct (nat_of_ascii a) eqn:E; [|reflexivity].
  assert (a = ascii_of_nat 0) as -> by (rewrite <- E, ascii_nat_embedding; reflexivity). congruence.
Qed.
Lemma prefix_drop p s : has_prefix p s = true -> s = p +:+ str_drop (String.length p) s.
Proof.
  revert s; induction p as [|a p IH]; intros s; [destruct s; reflexivity|]. destruct s as [|b s]; [discriminate|]. cbn.
  destruct (ascii_dec a b) as [->|]; [|discriminate]. intros Hp. change (String b s = String b (p +:+ str_drop (String.length p) s)). f_equal. apply IH, Hp.
Qed.
Lemma hex_nonzero a : is_hex a = true -> nonzero a = true.
Proof. unfold is_hex, is_digit, in_range, nonzero, byte_of. intros Hl. destruct (nat_of_ascii a); [discriminate|reflexivity]. Qed.
Lemma is_digest_no_nul s : is_digest s = true -> no_nul s.
Proof.
  unfold is_digest. intros [[Hp Hh]%andb_true_iff _]%andb_true_iff. rewrite (prefix_drop _ _ Hp).
  apply no_nul_app. split; [reflexivity|]. apply (no_nul_mono is_hex); [apply hex_nonzero|exact Hh].
Qed.
Lemma identifier_no_nul extra lo hi s : str_mem (ascii_of_nat 0) extra = false -> identifier (ident_char extra) lo hi s = true -> no_nul s.
Proof.
  intros Hz. unfold identifier. destruct s as [|a s]; [discriminate|]. intros Hs. to_prop. unfold no_nul. cbn.
  assert (Halnum : forall b, is_alnum b = true -> nonzero b = true).
  { intros b. unfold is_alnum, is_digit, is_lower, is_upper, in_range, nonzero, byte_of. destruct (nat_of_ascii b); [discriminate|reflexivity]. }
  apply andb_true_iff. split; [auto|].
  match goal with Hc : str_all _ s = true |- _ => revert Hc; apply str_all_mono end.
  unfold ident_char. intros b [Hb|Hb]%orb_true_iff; [auto|]. eapply listed_nonzero; eassumption.
Qed.
Lemma decimal_no_nul z : no_nul (decimal z).
Proof.
  assert (Hu : forall d, no_nul (NilEmpty.string_of_uint d)) by (induction d; cbn; [reflexivity|..]; assumption).
  assert (Hz : forall d, no_nul (NilZero.string_of_uint d)) by (intros []; [reflexivity|..]; apply Hu).
  unfold decimal. destruct (Z.to_int z) as [d|d]; cbn; apply Hz.
Qed.

Section keys.
Context `{Runtime, NetURL}.
Lemma host_label_no_nul w : host_label w = true -> str_all (fun a => lower_alnum a || (a == "-"%char)) w = true.
Proof using Type. unfold host_label. intros Hw. to_prop. assumption. Qed.
Lemma host_no_nul name : is_ip name = true \/ forallb host_label (split_on "."%char name) = true -> no_nul name.
Proof using Type.
  intros [Hip|Hl].
  - apply is_ip_text in Hip. revert Hip. apply no_nul_mono. intros a. unfold ip_char. intros [Ha|Ha]%orb_true_iff.
    + unfold is_digit, in_range, nonzero, byte_of in *. destruct (nat_of_ascii a); [discriminate|reflexivity].
    + eapply listed_nonzero; [exact Ha|reflexivity].
  - rewrite forallb_elem in Hl. apply (no_nul_mono (fun a => (a == "."%char) || (lower_alnum a || (a == "-"%char)))).
    + intros a. rewrite !orb_true_iff. intros [Ha|[Ha|Ha]]; [to_prop; subst; reflexivity|apply lower_nonzero, Ha|to_prop; subst; reflexivity].
    + apply split_on_all. intros w Hw. apply host_label_no_nul, Hl, Hw.
Qed.
Lemma path_no_nul path : imagePath path = true -> no_nul path.
Proof using Type.
  unfold imagePath. rewrite forallb_elem. intros Hp.
  apply (no_nul_mono (fun a => (a == slash) || (str_mem a "._-" || lower_alnum a))).
  - intros a. rewrite !orb_true_iff. intros [Ha|[Ha|Ha]]; [to_prop; subst; reflexivity|eapply listed_nonzero; [exact Ha|reflexivity]|apply lower_nonzero, Ha].
  - apply split_on_all. intros w Hw. apply Hp in Hw. unfold image_segment in Hw. rewrite forallb_elem in Hw.
    apply split_any_all. intros v Hv. apply Hw in Hv. unfold nonempty_word in Hv. to_prop. assumption.
Qed.
Lemma canonical_no_nul raw r : CanonicalImageRepository raw = Ok r -> no_nul r.
Proof using Type.
  unfold CanonicalImageRepository. destruct (_ || str_contains _ _); [discriminate|].
  destruct (cut slash raw) as [[host path]|]; [|discriminate].
  destruct (negb (imagePath path)) eqn:Epath; [discriminate|]. destruct (negb _ && _); [discriminate|].
  destruct (url_host host) as [[hostname port]|]; [|discriminate]. destruct (hostname == ""); [discriminate|].
  cbv zeta. destruct (negb (is_ip _) && _) eqn:Ehost; [discriminate|].
  destruct (canonical_port port) as [p|] eqn:Eport; [|discriminate]. intros [= <-].
  apply andb_false_iff in Ehost as [Ehost|Ehost]; apply negb_false_iff in Ehost, Epath.
  all: rewrite !no_nul_app; repeat split.
  1, 4: (assert (Hn : no_nul (to_lower hostname)) by (apply host_no_nul; auto);
         destruct (str_contains ":" (to_lower hostname)); [apply no_nul_app; split; [reflexivity|]; apply no_nul_app; split; [exact Hn|reflexivity]|exact Hn]).
  1, 3: (unfold canonical_port in Eport; destruct (p == "") eqn:Ep; [reflexivity|]; apply no_nul_app; split; [reflexivity|];
         destruct (port == ""); [to_prop; congruence|]; destruct (parse_int port); [|discriminate];
         destruct (_ && _); [|discriminate]; injection Eport as <-; destruct (_ =? 443)%Z; [to_prop; congruence|apply decimal_no_nul]).
  all: apply path_no_nul; assumption.
Qed.
Lemma image_key_no_nul raw r d : CanonicalImageRepository raw = Ok r -> is_digest d = true -> no_nul (image_key r d).
Proof using Type.
  intros Hr Hd. unfold image_key. apply no_nul_app. split; [eapply canonical_no_nul, Hr|].
  apply no_nul_app. split; [reflexivity|apply is_digest_no_nul, Hd].
Qed.
End keys.

(** The last NUL separates. *)
Lemma last_index_none a t : str_all (fun b => negb (b == a)) t = true -> last_index_char a t = None.
Proof.
  induction t as [|b t IH]; [reflexivity|]. cbn. intros [Hb Ht]%andb_true_iff. rewrite (IH Ht). to_prop.
  rewrite bool_decide_eq_false_2; [reflexivity|assumption].
Qed.
Lemma last_index_app a s t : last_index_char a t = None -> last_index_char a (s +:+ String a t) = Some (String.length s).
Proof.
  intros Ht. induction s as [|b s IH].
  - change (match last_index_char a t with Some i => Some (S i) | None => if a == a then Some O else None end = Some O).
    rewrite Ht, bool_decide_eq_true_2; reflexivity.
  - change (match last_index_char a (s +:+ String a t) with Some i => Some (S i) | None => if b == a then Some O else None end
      = Some (S (String.length s))). rewrite IH. reflexivity.
Qed.
Lemma last_index_nul s t : no_nul t -> last_index_char (ascii_of_nat 0) (s +:+ nul +:+ t) = Some (String.length s).
Proof.
  intros Ht. apply (last_index_app (ascii_of_nat 0) s t), last_index_none. revert Ht. apply str_all_mono.
  intros b Hb. apply negb_true_iff, bool_decide_eq_false_2. intros ->. discriminate.
Qed.
Lemma nul_inj s t s' t' : no_nul t -> no_nul t' -> s +:+ nul +:+ t = s' +:+ nul +:+ t' -> s = s' /\ t = t'.
Proof.
  intros Ht Ht' E. pose proof (last_index_nul s t Ht) as L. rewrite E, (last_index_nul s' t' Ht') in L. injection L as L.
  apply str_app_inj in E as [-> E]; [|congruence]. cbn in E. injection E as E. auto.
Qed.
Lemma group_key_inj app profile app' profile' : no_nul profile -> no_nul profile' ->
  group_key app profile = group_key app' profile' -> app = app' /\ profile = profile'.
Proof. unfold group_key. apply nul_inj. Qed.
Lemma publication_key_inj app profile i app' profile' i' : no_nul profile -> no_nul profile' -> no_nul i -> no_nul i' ->
  publication_key app profile i = publication_key app' profile' i' -> app = app' /\ profile = profile' /\ i = i'.
Proof.
  unfold publication_key. intros Hp Hp' Hi Hi' E. apply nul_inj in E as [E ->]; [|assumption..].
  apply group_key_inj in E as [-> ->]; auto.
Qed.

(** ** What the loop over the artifacts has collected *)
Lemma add_publication_own p pubs : exists q, add_publication p pubs
    !! publication_key (publication_app p) (publication_profile p) (publication_image p) = Some q /\ (publication_at q <= publication_at p)%Z.
Proof.
  unfold add_publication, Before. destruct (pubs !! _) as [old|] eqn:E.
  - destruct (_ <? _)%Z eqn:L; [exists p; rewrite lookup_insert_eq; split; [reflexivity|lia]|exists old; split; [exact E|lia]].
  - exists p. rewrite lookup_insert_eq. split; [reflexivity|lia].
Qed.
Lemma add_publication_other p pubs k q : pubs !! k = Some q ->
  exists q', add_publication p pubs !! k = Some q' /\ (publication_at q' <= publication_at q)%Z.
Proof.
  intros Hq. unfold add_publication, Before. set (key := publication_key _ _ _).
  destruct (decide (k = key)) as [->|Hne].
  - rewrite Hq. destruct (_ <? _)%Z eqn:L; [exists p; rewrite lookup_insert_eq; split; [reflexivity|lia]|exists q; split; [exact Hq|lia]].
  - exists q. split; [|lia]. destruct (pubs !! key); [destruct (_ <? _)%Z|]; rewrite ?lookup_insert_ne by congruence; exact Hq.
Qed.
Lemma add_publication_inv p pubs k q : add_publication p pubs !! k = Some q ->
  (q = p /\ k = publication_key (publication_app p) (publication_profile p) (publication_image p)) \/ pubs !! k = Some q.
Proof.
  unfold add_publication. set (key := publication_key _ _ _).
  assert (Hi : <[key := p]> pubs !! k = Some q -> q = p /\ k = key \/ pubs !! k = Some q).
  { intros Hq%lookup_insert_Some. destruct Hq as [[<- <-]|[_ Hq]]; auto. }
  destruct (pubs !! key); [destruct (Before _ _)|]; auto.
Qed.

Section keep.
Context `{Runtime, NetURL, URLs, Encoding, Hashing, MapOrder, TimeLayout}.

Lemma frame_repo c c' a : frame c' = frame c -> artifactRepo c' a = artifactRepo c a.
Proof using Type. destruct c, c'. unfold frame. cbn. intros [= -> -> -> -> ->]. reflexivity. Qed.
Lemma frame_frozen c c' s : frame c' = frame c -> frozenImageRepository c' s = frozenImageRepository c s.
Proof using Type. destruct c, c'. unfold frame. cbn. intros [= -> -> -> -> ->]. reflexivity. Qed.
Lemma frame_chronology c c' a : frame c' = frame c -> chronology c' a = chronology c a.
Proof using Type. destruct c, c'. unfold frame. cbn. intros [= -> -> -> -> ->]. reflexivity. Qed.
Lemma frame_product c c' : frame c' = frame c -> c_product c' = c_product c.
Proof using Type. destruct c, c'. unfold frame. cbn. intros [= -> -> -> -> ->]. reflexivity. Qed.
Lemma frame_state c c' : frame c' = frame c -> c_st c' = c_st c.
Proof using Type. destruct c, c'. unfold frame. cbn. intros [= -> -> -> -> ->]. reflexivity. Qed.
Lemma frame_policies c c' : frame c' = frame c -> c_policies c' = c_policies c.
Proof using Type. destruct c, c'. unfold frame. cbn. intros [= -> -> -> -> ->]. reflexivity. Qed.

(** The key of a reference, when it is exact. *)
Definition exact_key (repo digest : string) : option string :=
  match CanonicalImageRepository repo with
  | Ok r => if is_digest digest then Some (image_key r digest) else None
  | Err _ => None
  end.
Definition artifact_key (c : retentionCollector) (a : DeliveryArtifact) : option string :=
  exact_key (artifactRepo c a) (DeliveryArtifact_Digest a).
Lemma image_pointer repo digest app reason c : (image repo digest app reason c).2 = exact_key repo digest.
Proof using Type. unfold image, exact_key. destruct (CanonicalImageRepository repo); [|reflexivity]. destruct (is_digest digest); reflexivity. Qed.
Lemma image_exists repo digest app reason c key : exact_key repo digest = Some key ->
  exists v, c_images (image repo digest app reason c).1 !! key = Some v /\ (reason <> "" -> reason ∈ RetentionImage_Reasons v /\ RetentionImage_Protected v = true).
Proof using Type.
  unfold image, exact_key. destruct (CanonicalImageRepository repo) as [r|]; [|discriminate]. destruct (is_digest digest); [|discriminate].
  intros [= <-]. cbn [negb fst]. eexists. split; [apply lookup_insert_eq|]. intros Hr. unfold image_use.
  replace (reason != "") with true by (symmetry; apply negb_true_iff, bool_decide_eq_false_2; exact Hr).
  cbn. split; [apply elem_of_app; right; left|reflexivity].
Qed.
Lemma exact_key_no_nul repo digest key : exact_key repo digest = Some key -> no_nul key.
Proof using Type.
  unfold exact_key. destruct (CanonicalImageRepository repo) eqn:E; [|discriminate]. destruct (is_digest digest) eqn:D; [|discriminate].
  intros [= <-]. eapply image_key_no_nul; eassumption.
Qed.
Lemma chronology_profile c a profile t : chronology c a = Some (profile, t) -> no_nul profile.
Proof using Type.
  assert (Hv : forall p, validRetentionProfile p = true -> no_nul p) by (intros p; apply (identifier_no_nul "_.:/-"); reflexivity).
  unfold chronology. destruct (DeliveryArtifact_Native a) as [n|].
  - unfold native_chronology. destruct (_ || negb (validRetentionProfile _)) eqn:E; [discriminate|]. apply orb_false_iff in E as [_ E].
    apply negb_false_iff in E. destruct (find_last _ _); [|discriminate]. destruct (find_last _ _); [|discriminate].
    destruct (WorkerInputs_Publication _); [|discriminate]. destruct (WorkerAttempt_Report _); [|discriminate].
    cbv zeta. destruct (_ && _); [|discriminate]. intros [= <- _]. apply Hv, E.
  - destruct (ghaOrigin c a) as [[o s]|]; [|discriminate]. destruct (_ <=? 0)%Z; [discriminate|]. cbv zeta.
    destruct (negb (validRetentionProfile _)) eqn:E; [discriminate|]. apply negb_false_iff in E.
    destruct (IsZero _); [discriminate|]. intros [= <- _]. apply Hv, E.
Qed.

(** For the artifacts seen so far: the image of each is known, it is protected
    when its publication is not, and otherwise the publications hold a time no
    later than its own; and each publication is an artifact's. *)
Record Collected (c0 : retentionCollector) (done : list DeliveryArtifact) (c : retentionCollector) (pubs : gmap string imagePublication) : Prop := {
  collected_frame : frame c = frame c0;
  collected_artifact : forall a key, a ∈ done -> ProductID a = c_product c0 -> artifact_key c0 a = Some key ->
    exists v, c_images c !! key = Some v /\ match chronology c0 a with
    | None => RetentionImage_Protected v = true
    | Some (profile, t) => exists p, pubs !! publication_key (DeliveryArtifact_ApplicationID a) profile key = Some p /\ (publication_at p <= t)%Z
    end;
  collected_pubs : forall k p, pubs !! k = Some p ->
    k = publication_key (publication_app p) (publication_profile p) (publication_image p) /\ is_Some (c_images c !! publication_image p)
    /\ exists a, a ∈ done /\ ProductID a = c_product c0 /\ artifact_key c0 a = Some (publication_image p)
       /\ DeliveryArtifact_ApplicationID a = publication_app p /\ chronology c0 a = Some (publication_profile p, publication_at p);
}.
Lemma collected_grows c0 done c pubs c' : Collected c0 done c pubs -> Grows false c c' -> Collected c0 done c' pubs.
Proof using Type.
  intros [F A P] G. split.
  - rewrite (grows_frame _ _ _ G). exact F.
  - intros a key Ha Hp Hk. destruct (A a key Ha Hp Hk) as (v & Hv & Hm). destruct (grows_images _ _ _ G _ _ Hv) as (w & Hw & L).
    exists w. split; [exact Hw|]. destruct (chronology c0 a) as [[profile t]|]; [exact Hm|apply (le_protected _ _ L), Hm].
  - intros k p Hp. destruct (P k p Hp) as (Hk & [v Hv] & Ha). split; [exact Hk|]. split; [|exact Ha].
    destruct (grows_images _ _ _ G _ _ Hv) as (w & Hw & _). eauto.
Qed.
(** An artifact that leaves no trace: another product's, or no exact image. *)
Lemma collected_skip c0 done c pubs a : Collected c0 done c pubs -> ProductID a <> c_product c0 \/ artifact_key c0 a = None ->
  Collected c0 (done ++ [a]) c pubs.
Proof using Type.
  intros [F A P] Hs. split; [exact F| |].
  - intros b key [Hb|Hb%list_elem_of_singleton]%elem_of_app Hp Hk; [apply A; assumption|]. subst b. destruct Hs; congruence.
  - intros k p Hp. destruct (P k p Hp) as (Hk & Hv & b & Hb & Hrest). split; [exact Hk|]. split; [exact Hv|].
    exists b. split; [apply elem_of_app; left; exact Hb|exact Hrest].
Qed.
(** One whose publication is not known is protected. *)
Lemma collected_unknown c0 done c pubs a key v : Collected c0 done c pubs -> artifact_key c0 a = Some key -> chronology c0 a = None ->
  c_images c !! key = Some v -> RetentionImage_Protected v = true -> Collected c0 (done ++ [a]) c pubs.
Proof using Type.
  intros [F A P] Ha Hc Hv Hprot. split; [exact F| |].
  - intros b k [Hb|Hb%list_elem_of_singleton]%elem_of_app Hp Hk; [apply A; assumption|]. subst b. rewrite Hc.
    assert (k = key) as -> by congruence. eauto.
  - intros k p Hp. destruct (P k p Hp) as (Hk & Hi & b & Hb & Hrest). split; [exact Hk|]. split; [exact Hi|].
    exists b. split; [apply elem_of_app; left; exact Hb|exact Hrest].
Qed.
Lemma collected_published c0 done c pubs a key v profile t : Collected c0 done c pubs -> artifact_key c0 a = Some key ->
  ProductID a = c_product c0 -> chronology c0 a = Some (profile, t) -> c_images c !! key = Some v ->
  Collected c0 (done ++ [a]) c (add_publication (mkPublication key (DeliveryArtifact_ApplicationID a) profile t) pubs).
Proof using Type.
  intros [F A P] Ha Hprod Hc Hv. set (new := mkPublication _ _ _ _). split; [exact F| |].
  - intros b k [Hb|Hb%list_elem_of_singleton]%elem_of_app Hp Hk.
    + destruct (A b k Hb Hp Hk) as (w & Hw & Hm). exists w. split; [exact Hw|].
      destruct (chronology c0 b) as [[pr u]|]; [|exact Hm]. destruct Hm as (p & Hpp & Hle).
      destruct (add_publication_other new pubs _ _ Hpp) as (q & Hq & Hle'). exists q. split; [exact Hq|lia].
    + subst b. assert (k = key) as -> by congruence. rewrite Hc. exists v. split; [exact Hv|]. exact (add_publication_own new pubs).
  - intros k p Hp. apply add_publication_inv in Hp as [[-> ->]|Hp].
    + split; [reflexivity|]. split; [eauto|]. exists a. split; [apply elem_of_app; right; left|]. auto.
    + destruct (P k p Hp) as (Hk & Hi & b & Hb & Hrest). split; [exact Hk|]. split; [exact Hi|].
      exists b. split; [apply elem_of_app; left; exact Hb|exact Hrest].
Qed.
Lemma edited c key f v : c_images c !! key = Some v -> c_images (edit_image key f c) !! key = Some (f v).
Proof using Type.
  intros Hv. change (alter f key (c_images c) !! key = Some (f v)). rewrite lookup_alter_eq. apply fmap_Some. eauto.
Qed.
Lemma observed_images key t av c : c_images (observe key t av c) = c_images c.
Proof using Type.
  unfold observe. destruct key as [key|]; [|reflexivity]. destruct (c_observed c !! key); [destruct (After _ _); [|destruct (_ == _)]|]; reflexivity.
Qed.
Lemma collected_step c0 done c pubs a : Collected c0 done c pubs ->
  Collected c0 (done ++ [a]) (collect_artifact (c, pubs) a).1 (collect_artifact (c, pubs) a).2.
Proof using Type.
  intros Hcol. pose proof (collected_frame _ _ _ _ Hcol) as HF. unfold collect_artifact.
  destruct (ProductID a != c_product c) eqn:Ep; to_prop; rewrite (frame_product _ _ HF) in Ep; [apply collected_skip; auto|].
  pose proof (grows_image false (artifactRepo c a) (DeliveryArtifact_Digest a) (DeliveryArtifact_ApplicationID a) "" c ltac:(discriminate)) as G1.
  pose proof (image_pointer (artifactRepo c a) (DeliveryArtifact_Digest a) (DeliveryArtifact_ApplicationID a) "" c) as Hk.
  pose proof (image_exists (artifactRepo c a) (DeliveryArtifact_Digest a) (DeliveryArtifact_ApplicationID a) "" c) as He.
  destruct (image _ _ _ "" c) as [c1 pointer]. cbn [fst snd] in G1, Hk, He.
  rewrite (frame_repo _ _ a HF) in Hk. change (pointer = artifact_key c0 a) in Hk.
  destruct pointer as [key|]; [|apply collected_skip; [eapply collected_grows; eassumption|auto]].
  rewrite (frame_repo _ _ a HF) in He. destruct (He key (eq_sym Hk)) as (v & Hv & _). clear He.
  set (c2 := edit_image key _ c1). assert (G2 : Grows false c1 c2) by apply grows_edit, edit_artifact.
  assert (Hv2 : exists v2, c_images c2 !! key = Some v2) by (eexists; apply edited, Hv).
  set (c3 := observe _ _ _ c2). assert (G3 : Grows false c2 c3) by apply grows_observe.
  assert (Hv3 : exists v3, c_images c3 !! key = Some v3) by (unfold c3; rewrite observed_images; exact Hv2). destruct Hv3 as [v3 Hv3].
  assert (G : Grows false c c3) by (etransitivity; [exact G1|etransitivity; eassumption]). clearbody c2 c3.
  assert (E : chronology c3 a = chronology c0 a) by (apply frame_chronology; rewrite (grows_frame _ _ _ G); exact HF). rewrite E.
  assert (Hcol3 : Collected c0 done c3 pubs) by (eapply collected_grows; eassumption).
  destruct (chronology c0 a) as [[profile t]|] eqn:Ec.
  - eapply (collected_published c0 done _ pubs a key); [|auto..|apply edited, Hv3].
    eapply collected_grows; [exact Hcol3|]. apply grows_edit, edit_published.
  - eapply (collected_unknown c0 done _ pubs a key (unknown_chronology v3)); [|auto|exact Ec|apply (edited _ _ unknown_chronology _ Hv3)|reflexivity].
    eapply collected_grows; [exact Hcol3|]. etransitivity; [apply grows_edit, edit_unknown|apply grows_block].
Qed.
Lemma collected_all c0 l : forall done c pubs, Collected c0 done c pubs ->
  Collected c0 (done ++ l) (foldl collect_artifact (c, pubs) l).1 (foldl collect_artifact (c, pubs) l).2.
Proof using Type.
  induction l as [|a l IH]; intros done c pubs Hc; [rewrite app_nil_r; exact Hc|].
  change (foldl collect_artifact (c, pubs) (a :: l)) with (foldl collect_artifact (collect_artifact (c, pubs) a) l).
  pose proof (collected_step c0 done c pubs a Hc) as Hs. destruct (collect_artifact (c, pubs) a) as [c' pubs']. cbn in Hs.
  specialize (IH (done ++ [a]) c' pubs' Hs). rewrite <- app_assoc in IH. exact IH.
Qed.

(** *** The groups *)
Lemma group_members l groups k : foldl add_to_group groups l !! k
  = match List.filter (fun p => group_key (publication_app p) (publication_profile p) == k) l with
    | [] => groups !! k
    | g => Some (default [] (groups !! k) ++ g)
    end.
Proof using Type.
  revert groups. induction l as [|p l IH]; intros groups; [reflexivity|]. cbn [foldl List.filter]. rewrite IH. unfold add_to_group.
  destruct (group_key _ _ == k) eqn:E; to_prop.
  - rewrite E, lookup_insert_eq. cbn [default]. destruct (List.filter _ l) as [|q g]; [reflexivity|]. cbn. rewrite <- app_assoc. reflexivity.
  - rewrite lookup_insert_ne by assumption. reflexivity.
Qed.
(** The publications of a group, in some order. *)
Definition group_of (pubs : gmap string imagePublication) (k : string) : list imagePublication :=
  List.filter (fun p => group_key (publication_app p) (publication_profile p) == k) (map snd (map_range pubs)).
Lemma group_found pubs k p : p ∈ group_of pubs k -> publication_groups pubs !! k = Some (group_of pubs k).
Proof using Type.
  intros Hp. unfold publication_groups. rewrite group_members. fold (group_of pubs k). rewrite lookup_empty.
  destruct (group_of pubs k); [inversion Hp|reflexivity].
Qed.
Lemma elem_of_group pubs k p : p ∈ group_of pubs k <-> group_key (publication_app p) (publication_profile p) = k /\ exists key, pubs !! key = Some p.
Proof using Type.
  unfold group_of. rewrite elem_of_filter_list, elem_of_map. split.
  - intros [([key q] & -> & Hq) Hk]. to_prop. apply elem_of_map_range in Hq. eauto.
  - intros [Hk [key Hq]]. split; [exists (key, p); split; [reflexivity|apply elem_of_map_range, Hq]|]. apply bool_decide_eq_true_2, Hk.
Qed.
Lemma group_distinct pubs k : (forall key p, pubs !! key = Some p -> key = publication_key (publication_app p) (publication_profile p) (publication_image p)) ->
  NoDup (map publication_image (group_of pubs k)).
Proof using Type.
  intros Hkeys. unfold group_of.
  assert (Hnd : NoDup (map fst (map_range pubs))) by (rewrite map_range_perm; apply NoDup_fst_map_to_list).
  assert (Hall : forall key p, (key, p) ∈ map_range pubs -> key = publication_key (publication_app p) (publication_profile p) (publication_image p))
    by (intros key p Hp%elem_of_map_range; auto).
  induction (map_range pubs) as [|[key p] l IH]; [constructor|]. cbn in Hnd. apply list.NoDup_cons in Hnd as [Hn Hnd].
  specialize (IH Hnd (fun key p Hp => Hall key p (list_elem_of_further _ _ _ Hp))). cbn.
  destruct (group_key _ _ == k) eqn:E; [|exact IH]. cbn. apply list.NoDup_cons. split; [|exact IH].
  intros (q & Eq & Hq)%elem_of_map. apply elem_of_filter_list in Hq as [Hq Hk]. apply elem_of_map in Hq as ([key' q'] & -> & Hq).
  cbn [snd] in *. to_prop. apply Hn. apply elem_of_map. exists (key', q'). split; [|exact Hq]. cbn.
  rewrite (Hall key p (list_elem_of_here _ _)), (Hall key' q' (list_elem_of_further _ _ _ Hq)). unfold publication_key. congruence.
Qed.

(** *** Keeping the newest *)
#[local] Instance newest_first_total : Total newest_first.
Proof.
  intros p q. unfold newest_first. destruct (Z.lt_total (publication_at q) (publication_at p)) as [?|[E|?]]; [tauto| |tauto].
  rewrite E. destruct (String.le_total (publication_image p) (publication_image q)); tauto.
Qed.
#[local] Instance newest_first_trans : Transitive newest_first.
Proof.
  intros p q r. unfold newest_first. intros [Hpq|[Hpq Ip]] [Hqr|[Hqr Iq]]; [left; lia..|].
  right. split; [congruence|]. transitivity (publication_image q); assumption.
Qed.
Lemma sorted_drop {A} (R : relation A) n l x y : StronglySorted R l -> x ∈ take n l -> y ∈ drop n l -> R x y.
Proof using Type.
  intros Hs. revert n. induction Hs as [|a l Hs IH Ha]; intros [|n]; cbn; [intros Hx; inversion Hx..|].
  intros [->|Hx]%elem_of_cons Hy; [|eapply IH; eassumption]. rewrite list.Forall_forall in Ha. apply Ha.
  rewrite <- (take_drop n l). apply elem_of_app. right. exact Hy.
Qed.
Lemma keep_last_least policies app : (forall p, p ∈ policies -> 10 <= EffectiveRetentionPolicy_EffectiveKeepLast p)%Z ->
  (10 <= keep_last policies app)%Z.
Proof using Type. intros Hp. unfold keep_last. destruct (find_last _ _) eqn:E; [|lia]. apply find_last_Some in E as [Hin _]. auto. Qed.
(** A protected image, whatever else is known of it. *)
Definition Guarded (c : retentionCollector) (key : string) : Prop :=
  exists v, c_images c !! key = Some v /\ RetentionImage_Protected v = true.
Lemma guarded_grows s c c' key : Grows s c c' -> Guarded c key -> Guarded c' key.
Proof using Type.
  intros G (v & Hv & Hp). destruct (grows_images _ _ _ G _ _ Hv) as (w & Hw & L). exists w. split; [exact Hw|]. apply (le_protected _ _ L), Hp.
Qed.
Lemma present_grows s c c' key : Grows s c c' -> is_Some (c_images c !! key) -> is_Some (c_images c' !! key).
Proof using Type. intros G [v Hv]. destruct (grows_images _ _ _ G _ _ Hv) as (w & Hw & _). eauto. Qed.
Lemma keep_publication_guards c p : is_Some (c_images c !! publication_image p) -> Guarded (keep_publication c p) (publication_image p).
Proof using Type.
  intros [v Hv]. eexists. split; [apply (edited _ _ (protect _) _ Hv)|reflexivity].
Qed.
(** The number of publications of a group that are kept. *)
Definition kept_count (policies : list EffectiveRetentionPolicy) (app : string) : nat := Z.to_nat (keep_last policies app).
Lemma keep_group_guards c g p app : (forall q, q ∈ g -> publication_app q = app) -> is_Some (c_images c !! publication_image p) ->
  p ∈ take (kept_count (c_policies c) app) (merge_sort newest_first g) -> Guarded (keep_group c g) (publication_image p).
Proof using Type.
  intros Happ Hp Hin. unfold keep_group. cbv zeta. destruct (merge_sort newest_first g) as [|q l] eqn:E; [rewrite take_nil in Hin; inversion Hin|].
  assert (Hq : q ∈ g) by (rewrite <- (merge_sort_Permutation newest_first g), E; left).
  rewrite (Happ q Hq). fold (kept_count (c_policies c) app).
  apply (foldl_at false keep_publication _ c c p (fun c => Guarded c (publication_image p)) Hin); [intros; apply grows_keep_publication|reflexivity| |].
  - intros c' G. apply keep_publication_guards. eapply present_grows; eassumption.
  - intros c1 c2. apply guarded_grows.
Qed.
Lemma keep_groups_guard c pubs k p app : p ∈ group_of pubs k -> (forall q, q ∈ group_of pubs k -> publication_app q = app) ->
  is_Some (c_images c !! publication_image p) -> p ∈ take (kept_count (c_policies c) app) (merge_sort newest_first (group_of pubs k)) ->
  Guarded (foldl keep_group c (map snd (map_range (publication_groups pubs)))) (publication_image p).
Proof using Type.
  intros Hp Happ Himg Htake. refine (foldl_at false keep_group _ c c (group_of pubs k) (fun c => Guarded c (publication_image p)) _ _ _ _ _).
  - apply elem_of_map. exists (k, group_of pubs k). split; [reflexivity|]. apply elem_of_map_range. apply (group_found _ _ _ Hp).
  - intros. apply grows_keep_group.
  - reflexivity.
  - intros c' G. apply (keep_group_guards _ _ _ app Happ); [eapply present_grows; eassumption|].
    rewrite (frame_policies _ _ (grows_frame _ _ _ G)). exact Htake.
  - intros c1 c2. apply guarded_grows.
Qed.

(** ** An image is published when its first artifact was *)
Definition publishes (c : retentionCollector) (app profile key : string) (t : Time) : Prop :=
  exists a, a ∈ State_DeliveryArtifacts (c_st c) /\ ProductID a = c_product c /\ artifact_key c a = Some key
            /\ DeliveryArtifact_ApplicationID a = app /\ chronology c a = Some (profile, t).
Definition first_published (c : retentionCollector) (app profile key : string) (t : Time) : Prop :=
  publishes c app profile key t /\ forall u, publishes c app profile key u -> (t <= u)%Z.
(** [keep] other images of the component and profile, each published first no
    earlier than this one. *)
Definition superseded (c : retentionCollector) (app profile key : string) (keep : nat) : Prop :=
  exists t newer, first_published c app profile key t /\ NoDup newer /\ length newer = keep /\ ~ (key ∈ newer)
    /\ forall i, i ∈ newer -> exists u, first_published c app profile i u /\ (t <= u)%Z.
Lemma collected_first c0 c pubs k p : Collected c0 (State_DeliveryArtifacts (c_st c0)) c pubs -> pubs !! k = Some p ->
  first_published c0 (publication_app p) (publication_profile p) (publication_image p) (publication_at p).
Proof using Type.
  intros Hcol Hp. destruct (collected_pubs _ _ _ _ Hcol k p Hp) as (Hk & _ & a & Ha & Hprod & Hkey & Happ & Hchr). split.
  - exists a. auto.
  - intros u (b & Hb & Hbp & Hbk & Hba & Hbc). destruct (collected_artifact _ _ _ _ Hcol b _ Hb Hbp Hbk) as (v & _ & Hm).
    rewrite Hbc, Hba, <- Hk in Hm. destruct Hm as (q & Hq & Hle). assert (q = p) as -> by congruence. exact Hle.
Qed.
Lemma map_take {A B} (f : A -> B) n l : map f (take n l) = take n (map f l).
Proof using Type. revert n; induction l as [|x l IH]; intros [|n]; [reflexivity..|]. cbn. f_equal. apply IH. Qed.
Lemma not_kept_superseded c0 c pubs k p app : Collected c0 (State_DeliveryArtifacts (c_st c0)) c pubs -> p ∈ group_of pubs k ->
  (forall q, q ∈ group_of pubs k -> publication_app q = app /\ publication_profile q = publication_profile p) ->
  p ∉ take (kept_count (c_policies c0) app) (merge_sort newest_first (group_of pubs k)) ->
  superseded c0 app (publication_profile p) (publication_image p) (kept_count (c_policies c0) app).
Proof using Type.
  intros Hcol Hp Hgrp Hn. set (n := kept_count _ _) in *. set (g := merge_sort newest_first (group_of pubs k)) in *.
  assert (Hg : forall q, q ∈ g <-> q ∈ group_of pubs k) by (intros q; unfold g; rewrite merge_sort_Permutation; reflexivity).
  assert (Hs : StronglySorted newest_first g) by (apply StronglySorted_merge_sort; apply _).
  assert (Hd : NoDup (map publication_image g)).
  { unfold g. rewrite merge_sort_Permutation. apply group_distinct. intros key q Hq. apply (collected_pubs _ _ _ _ Hcol key q Hq). }
  assert (Hdrop : p ∈ drop n g). { apply Hg in Hp. rewrite <- (take_drop n g), elem_of_app in Hp. tauto. }
  pose proof (proj1 (elem_of_group _ _ _) Hp) as [_ [key Hkey]]. destruct (Hgrp p Hp) as [Happ _].
  exists (publication_at p), (map publication_image (take n g)). split; [|split; [|split; [|split]]].
  - rewrite <- Happ. eapply collected_first; eassumption.
  - rewrite map_take. rewrite <- (take_drop n (map publication_image g)) in Hd. apply list.NoDup_app in Hd. tauto.
  - rewrite length_map, length_take. assert (n < length g)%nat; [|lia].
    apply list_elem_of_lookup in Hdrop as [i Hi]. rewrite lookup_drop in Hi. apply lookup_lt_Some in Hi. lia.
  - intros (q & Eq & Hq)%elem_of_map. rewrite <- (take_drop n g), map_app in Hd. apply list.NoDup_app in Hd as (_ & Hd & _).
    apply (Hd (publication_image p)); [rewrite Eq|]; apply elem_of_map; eauto.
  - intros i (q & -> & Hq)%elem_of_map. pose proof (sorted_drop _ _ _ _ _ Hs Hq Hdrop) as Hle.
    assert (Hqg : q ∈ group_of pubs k) by (apply Hg; rewrite <- (take_drop n g), elem_of_app; auto).
    destruct (Hgrp q Hqg) as [Hqa Hqp]. pose proof (proj1 (elem_of_group _ _ _) Hqg) as [_ [key' Hkey']].
    exists (publication_at q). split; [|unfold newest_first in Hle; lia].
    rewrite <- Hqa, <- Hqp. eapply collected_first; eassumption.
Qed.
End keep.

Section kept.
Context `{Runtime, NetURL, URLs, Encoding, Hashing, MapOrder, TimeLayout}.

#[local] Instance publication_eq_dec : EqDecision imagePublication.
Proof. solve_decision. Defined.

(** ** Policies *)
Lemma effective_policy_least a : (10 <= EffectiveRetentionPolicy_EffectiveKeepLast (effective_policy a))%Z.
Proof using Type. unfold effective_policy. destruct (Application_Retention a) as [p|]; cbn; [destruct (10 <? _)%Z eqn:E|]; lia. Qed.
Lemma policies_least c app : (10 <= keep_last (policies_of c) app)%Z.
Proof using Type.
  apply keep_last_least. intros p Hp. apply elem_of_sort_by, elem_of_map in Hp as (a & -> & _). apply effective_policy_least.
Qed.

(** ** The images of the report *)
Lemma report_image st product now auths e : e ∈ RetentionReport_Images (EvaluateRetention st product now auths)
  <-> exists k v, c_images (shared_collector st product now) !! k = Some v /\ e = canonical_image v.
Proof using Type.
  change (RetentionReport_Images _) with (RetentionReport_Images (first_report product now (shared_collector st product now))).
  unfold first_report. cbn [RetentionReport_Images]. rewrite elem_of_sort_by, elem_of_map. split.
  - intros (v & -> & ([k w] & -> & Hkv)%elem_of_map). apply elem_of_map_range in Hkv. eauto.
  - intros (k & v & Hkv & ->). exists v. split; [reflexivity|]. apply elem_of_map. exists (k, v).
    split; [reflexivity|]. apply elem_of_map_range, Hkv.
Qed.
Lemma report_blocker st product now auths b : b ∈ c_blockers (shared_collector st product now) ->
  b ∈ RetentionReport_Blockers (EvaluateRetention st product now auths).
Proof using Type.
  intros Hb. set (c := shared_collector st product now) in *.
  assert (Hr : forall report, b ∈ RetentionReport_Blockers report -> b ∈ RetentionReport_Blockers (registryRetention st report now auths).1).
  { intros report Hin. unfold registryRetention. cbv zeta. cbn [fst RetentionReport_Blockers]. rewrite sortedUnique_elem, elem_of_app. auto. }
  apply (Hr (first_report product now c)). unfold first_report. cbn [RetentionReport_Blockers]. rewrite sortedUnique_elem, elem_of_app. auto.
Qed.

(** ** From the artifacts to the report *)
Lemma start_sound st product now : Sound (start st product now).
Proof using Type. intros k v Hv. change ((∅ : gmap string RetentionImage) !! k = Some v) in Hv. rewrite lookup_empty in Hv. discriminate. Qed.
Lemma collected_start st product now : Collected (start st product now) [] (start st product now) ∅.
Proof using Type.
  split; [reflexivity|intros a key Ha; inversion Ha|]. intros k p Hp. rewrite lookup_empty in Hp. discriminate.
Qed.
Lemma artifact_kept_or_superseded st product now a key (c := start st product now) : a ∈ State_DeliveryArtifacts st ->
  ProductID a = product -> artifact_key c a = Some key ->
  Guarded (artifacts c) key \/ exists profile t, chronology c a = Some (profile, t)
    /\ superseded c (DeliveryArtifact_ApplicationID a) profile key (kept_count (c_policies c) (DeliveryArtifact_ApplicationID a)).
Proof using Type.
  intros Ha Hprod Hkey. pose proof (collected_all c (State_DeliveryArtifacts st) [] c ∅ (collected_start st product now)) as Hcol.
  unfold artifacts. change (State_DeliveryArtifacts (c_st c)) with (State_DeliveryArtifacts st).
  destruct (foldl collect_artifact _ _) as [c' pubs]. cbn [fst snd app] in Hcol.
  destruct (collected_artifact _ _ _ _ Hcol a key Ha Hprod Hkey) as (v & Hv & Hm).
  destruct (chronology c a) as [[profile t]|] eqn:Ec.
  2: { left. eapply (guarded_grows false); [apply grows_foldl; intros; apply grows_keep_group|]. exists v; auto. }
  destruct Hm as (p & Hp & _). set (app := DeliveryArtifact_ApplicationID a) in *. set (k := group_key app profile).
  destruct (collected_pubs _ _ _ _ Hcol _ p Hp) as (Ek & Himg & b & _ & _ & Hbk & _ & Hbc).
  apply publication_key_inj in Ek as (Ea & Epr & Ei); [|eapply chronology_profile; eassumption..|eapply exact_key_no_nul; eassumption|eapply exact_key_no_nul; eassumption].
  assert (Hin : p ∈ group_of pubs k) by (apply elem_of_group; unfold k; split; [congruence|eauto]).
  assert (Hgrp : forall q, q ∈ group_of pubs k -> publication_app q = app /\ publication_profile q = publication_profile p).
  { intros q [Hq [key' Hk']]%elem_of_group. destruct (collected_pubs _ _ _ _ Hcol _ q Hk') as (_ & _ & d & _ & _ & _ & _ & Hdc).
    unfold k in Hq. rewrite Epr in Hq. apply group_key_inj in Hq as [-> ->]; [auto|eapply chronology_profile; eassumption..]. }
  destruct (decide (p ∈ take (kept_count (c_policies c) app) (merge_sort newest_first (group_of pubs k)))) as [Ht|Hn].
  - left. rewrite Ei. apply (keep_groups_guard _ _ k _ app Hin); [intros q Hq; apply Hgrp, Hq|exact Himg|].
    rewrite (frame_policies _ _ (collected_frame _ _ _ _ Hcol)). exact Ht.
  - right. exists profile, t. split; [reflexivity|]. rewrite Ei, Epr. eapply not_kept_superseded; eassumption.
Qed.
Lemma grows_to_shared st product now : Grows false (artifacts (start st product now)) (shared_collector st product now).
Proof using Type.
  etransitivity; [|apply grows_shared]. rewrite evaluate_start. apply grows_after.
Qed.
Lemma shared_sound st product now : Sound (shared_collector st product now).
Proof using Type.
  eapply grows_sound; [apply (grows_shared false)|]. eapply grows_sound; [apply grows_evaluate|]. apply start_sound.
Qed.
(** Two images of the report with the same identity are the same. *)
Lemma guarded_report st product now auths e : Guarded (shared_collector st product now) (RetentionImage_Identity e) ->
  e ∈ RetentionReport_Images (EvaluateRetention st product now auths) -> RetentionImage_Protected e = true.
Proof using Type.
  intros (v & Hv & Hp) (k & w & Hw & ->)%report_image. destruct (shared_sound st product now k w Hw) as [Hi _].
  change (c_images (shared_collector st product now) !! RetentionImage_Identity w = Some v) in Hv. change (RetentionImage_Protected w = true). congruence.
Qed.

(** ** Roots: what a step protects is protected in the report *)
Definition Rooted (c : retentionCollector) (repo digest reason : string) : Prop :=
  match exact_key repo digest with
  | Some key => exists v, c_images c !! key = Some v /\ RetentionImage_Protected v = true /\ reason ∈ RetentionImage_Reasons v
  | None => "unresolved_image_reference" ∈ c_blockers c
  end.
(** The image is listed as protected for the reason; when the reference is not
    exact, the report says so. *)
Definition Kept (report : RetentionReport) (repo digest reason : string) : Prop :=
  match exact_key repo digest with
  | Some key => exists e, e ∈ RetentionReport_Images report /\ RetentionImage_Identity e = key
                          /\ RetentionImage_Protected e = true /\ reason ∈ RetentionImage_Reasons e
  | None => "unresolved_image_reference" ∈ RetentionReport_Blockers report
  end.
Lemma rooted_grows s c c' repo digest reason : Grows s c c' -> Rooted c repo digest reason -> Rooted c' repo digest reason.
Proof using Type.
  intros G. unfold Rooted. destruct (exact_key repo digest) as [key|]; [|apply (grows_blockers _ _ _ G)].
  intros (v & Hv & Hp & Hr). destruct (grows_images _ _ _ G _ _ Hv) as (w & Hw & L). exists w.
  split; [exact Hw|]. split; [apply (le_protected _ _ L), Hp|apply (le_reasons _ _ L), Hr].
Qed.
Lemma root_rooted repo digest app reason c : reason <> "" -> Rooted (root repo digest app reason c) repo digest reason.
Proof using Type.
  intros Hr. unfold Rooted. destruct (exact_key repo digest) as [key|] eqn:E.
  - destruct (image_exists repo digest app reason c key E) as (v & Hv & Hk). exists v. split; [exact Hv|]. destruct (Hk Hr); auto.
  - unfold root, image, exact_key in *. destruct (CanonicalImageRepository repo); [destruct (is_digest digest); [discriminate|]|];
      apply elem_of_app; right; left.
Qed.
Lemma rooted_kept st product now auths repo digest reason : Rooted (shared_collector st product now) repo digest reason ->
  Kept (EvaluateRetention st product now auths) repo digest reason.
Proof using Type.
  unfold Rooted, Kept. destruct (exact_key repo digest) as [key|]; [|apply report_blocker].
  intros (v & Hv & Hp & Hr). exists (canonical_image v). split; [apply report_image; eauto|].
  destruct (shared_sound st product now key v Hv) as [Hi _]. split; [exact Hi|]. split; [exact Hp|]. apply sortedUnique_elem, Hr.
Qed.

(** *** The stages of the evaluation *)
Ltac stage := eapply grows_weaken; repeat (lazymatch goal with |- Grows _ ?c ?c => fail | _ => idtac end; eapply (grows_then true); [first
  [ apply grows_foldl; intros; first [apply grows_collect_pin|apply grows_collect_quarantine|apply grows_judge_image|apply grows_collect_job|apply grows_keep_releases]
  | apply grows_release_roots | apply grows_environments | apply grows_restoration_roots | apply grows_baseline_roots ]|]); reflexivity.
Lemma pins_stage st product now : exists c, Grows false (start st product now) c
  /\ Grows false (foldl collect_pin c (State_ArtifactPins (c_st c))) (shared_collector st product now).
Proof using Type.
  set (c0 := artifacts (start st product now)). exists (release_roots (environments (restorationRoots (baselineRoots (operations c0))))). split.
  - etransitivity; [apply grows_artifacts|]. fold c0. eapply grows_weaken. eapply (grows_then true); [apply grows_release_roots|].
    eapply grows_then; [apply grows_environments|]. eapply grows_then; [apply grows_restoration_roots|].
    eapply grows_then; [apply grows_baseline_roots|]. apply grows_operations.
  - etransitivity; [|apply grows_shared]. rewrite evaluate_start. unfold after_artifacts. cbv zeta. fold c0. stage.
Qed.
Lemma releases_stage st product now : exists c, Grows false (start st product now) c
  /\ Grows false (release_roots c) (shared_collector st product now).
Proof using Type.
  set (c0 := artifacts (start st product now)). exists (environments (restorationRoots (baselineRoots (operations c0)))). split.
  - etransitivity; [apply grows_artifacts|]. fold c0. eapply grows_weaken.
    eapply (grows_then true); [apply grows_environments|]. eapply grows_then; [apply grows_restoration_roots|].
    eapply grows_then; [apply grows_baseline_roots|]. apply grows_operations.
  - etransitivity; [|apply grows_shared]. rewrite evaluate_start. unfold after_artifacts. cbv zeta. fold c0. stage.
Qed.
Lemma operations_stage st product now : exists c, Grows false (start st product now) c
  /\ Grows false (foldl collect_operation c (State_Operations (c_st c))) (shared_collector st product now).
Proof using Type.
  set (c0 := artifacts (start st product now)). exists c0. split; [apply grows_artifacts|].
  etransitivity; [|apply grows_shared]. rewrite evaluate_start. unfold after_artifacts. cbv zeta. fold c0.
  change (operations c0) with (foldl collect_job (foldl collect_operation c0 (State_Operations (c_st c0))) (State_WorkerJobs (c_st (foldl collect_operation c0 (State_Operations (c_st c0)))))).
  stage.
Qed.

(** C30 An image that the report lists without protection, and that an artifact
    of the product names, has a known publication, and at least
    [effectiveKeepLast] (ten or more) other images of the same component and
    profile were each first published no earlier than it. *)
Theorem unprotected_is_superseded st product now auths e a (c := start st product now) :
  e ∈ RetentionReport_Images (EvaluateRetention st product now auths) -> RetentionImage_Protected e = false ->
  a ∈ State_DeliveryArtifacts st -> ProductID a = product -> artifact_key c a = Some (RetentionImage_Identity e) ->
  let app := DeliveryArtifact_ApplicationID a in
  let keep := kept_count (policies_of c) app in
  (10 <= keep)%nat
  /\ exists profile t, chronology c a = Some (profile, t) /\ superseded c app profile (RetentionImage_Identity e) keep.
Proof using Type.
  intros He Hun Ha Hprod Hkey. cbv zeta. split; [unfold kept_count; pose proof (policies_least c (DeliveryArtifact_ApplicationID a)); lia|].
  destruct (artifact_kept_or_superseded st product now a _ Ha Hprod Hkey) as [Hg|(profile & t & Hc & Hs)].
  - exfalso. assert (Hp : RetentionImage_Protected e = true); [|congruence].
    apply (guarded_report st product now auths); [|exact He]. eapply guarded_grows; [apply grows_to_shared|exact Hg].
  - exists profile, t. split; [exact Hc|exact Hs].
Qed.

(** A pin that is not released keeps its image. *)
Theorem pinned_images_kept st product now auths p : p ∈ State_ArtifactPins st -> ProductID p = product -> ArtifactPin_ReleasedAt p = None ->
  Kept (EvaluateRetention st product now auths) (ArtifactPin_ImageRepository p) (ArtifactPin_Digest p) ("pin:" +:+ ArtifactPin_Purpose p).
Proof using Type.
  intros Hp Hprod Hrel. apply rooted_kept. destruct (pins_stage st product now) as (c & G & G'). eapply rooted_grows; [exact G'|].
  pose proof (grows_frame _ _ _ G) as F. rewrite (frame_state _ _ F). change (c_st (start st product now)) with st.
  refine (foldl_at false collect_pin _ c c p (fun c => Rooted c _ _ _) Hp (grows_collect_pin false) _ _ (fun c1 c2 => rooted_grows false c1 c2 _ _ _)); [reflexivity|].
  intros c' G1. unfold collect_pin. rewrite (frame_product _ _ (grows_frame _ _ _ G1)), (frame_product _ _ F).
  change (c_product (start st product now)) with product. rewrite Hprod, Hrel. rewrite bool_decide_eq_true_2 by reflexivity.
  apply root_rooted. discriminate.
Qed.

(** ** Operations in flight *)
Inductive DirectRef (c : retentionCollector) (o : ExternalOperation) : string -> string -> Prop :=
  | ref_built s a : ExternalOperation_Snapshot o = Some s -> ExternalOperation_Artifact o = Some a -> ArtifactResult_Digest a <> "" ->
      DirectRef c o (frozenImageRepository c s) (ArtifactResult_Digest a)
  | ref_built_gitops s a : ExternalOperation_Snapshot o = Some s -> ExternalOperation_Artifact o = Some a -> ArtifactResult_Digest a <> "" ->
      GitOpsRequest_ImageRepository (DeliverySnapshot_GitOpsRequest s) <> "" ->
      DirectRef c o (GitOpsRequest_ImageRepository (DeliverySnapshot_GitOpsRequest s)) (ArtifactResult_Digest a)
  | ref_expected s : ExternalOperation_Snapshot o = Some s -> ExternalOperation_ExpectedDigest o <> "" ->
      DirectRef c o (frozenImageRepository c s) (ExternalOperation_ExpectedDigest o)
  | ref_expected_gitops s : ExternalOperation_Snapshot o = Some s -> ExternalOperation_ExpectedDigest o <> "" ->
      GitOpsRequest_ImageRepository (DeliverySnapshot_GitOpsRequest s) <> "" ->
      DirectRef c o (GitOpsRequest_ImageRepository (DeliverySnapshot_GitOpsRequest s)) (ExternalOperation_ExpectedDigest o).
(** What an operation may still run: its own images, the artifact it reuses,
    the artifacts of the deployments it prepared, and its children's images. *)
Inductive OperationRef (c : retentionCollector) (o : ExternalOperation) : string -> string -> Prop :=
  | ref_direct repo digest : DirectRef c o repo digest -> OperationRef c o repo digest
  | ref_existing a : ExternalOperation_ExistingArtifact o = Some a -> OperationRef c o (artifactRepo c a) (DeliveryArtifact_Digest a)
  | ref_prepared s a : s ∈ ExternalOperation_PreparedDeployments o -> a ∈ State_DeliveryArtifacts (c_st c) -> ProductID a = c_product c ->
      DeliveryArtifact_ApplicationID a = ID (DeliverySnapshot_Application s) ->
      DeliveryArtifact_SourceCommit a = IntegrationRevision_HeadCommit (DeliverySnapshot_Revision s) ->
      OperationRef c o (artifactRepo c a) (DeliveryArtifact_Digest a)
  | ref_child id child repo digest : id ∈ ExternalOperation_ChildIDs o -> c_ops c !! id = Some child -> ProductID child = c_product c ->
      DirectRef c child repo digest -> OperationRef c o repo digest.
Lemma snapshot_rooted s digest reason c : reason <> "" -> digest <> "" ->
  Rooted (snapshot s digest reason c) (frozenImageRepository c s) digest reason
  /\ (GitOpsRequest_ImageRepository (DeliverySnapshot_GitOpsRequest s) <> "" ->
      Rooted (snapshot s digest reason c) (GitOpsRequest_ImageRepository (DeliverySnapshot_GitOpsRequest s)) digest reason).
Proof using Type.
  intros Hr Hd. unfold snapshot. rewrite (bool_decide_eq_false_2 (digest = "")) by exact Hd. cbn [negb andb]. cbv zeta.
  split.
  - destruct (_ && _); [eapply (rooted_grows false); [apply grows_root; discriminate|]|]; apply root_rooted, Hr.
  - intros Hg. rewrite bool_decide_eq_false_2 by exact Hg. apply root_rooted, Hr.
Qed.
Lemma operation_images_rooted o reason c c0 repo digest : reason <> "" -> frame c = frame c0 -> DirectRef c0 o repo digest ->
  Rooted (operation_images o reason c) repo digest reason.
Proof using Type.
  intros Hr HF Href. unfold operation_images.
  assert (Hs : forall c s, frame c = frame c0 -> frozenImageRepository c s = frozenImageRepository c0 s) by (intros; apply frame_frozen; assumption).
  assert (Hfirst : forall s a, Rooted (snapshot s (ArtifactResult_Digest a) reason c) repo digest reason ->
    Rooted (if ExternalOperation_ExpectedDigest o != "" then snapshot s (ExternalOperation_ExpectedDigest o) reason (snapshot s (ArtifactResult_Digest a) reason c)
            else snapshot s (ArtifactResult_Digest a) reason c) repo digest reason).
  { intros s a Hroot. destruct (_ != _); [|exact Hroot]. eapply (rooted_grows false); [apply grows_snapshot; discriminate|exact Hroot]. }
  assert (Hc : forall s, frame (match ExternalOperation_Artifact o with Some a => snapshot s (ArtifactResult_Digest a) reason c | None => c end) = frame c0).
  { intros s. rewrite <- HF. destruct (ExternalOperation_Artifact o) as [a|]; [|reflexivity]. apply (grows_frame false). apply grows_snapshot; discriminate. }
  destruct Href as [s a Es Ea Hd|s a Es Ea Hd Hg|s Es Hd|s Es Hd Hg]; rewrite Es; specialize (Hc s).
  - rewrite Ea. apply Hfirst. rewrite <- (Hs c s HF). apply snapshot_rooted; assumption.
  - rewrite Ea. apply Hfirst. apply snapshot_rooted; assumption.
  - cbv zeta. rewrite bool_decide_eq_false_2 by exact Hd. rewrite <- (Hs _ s Hc). apply snapshot_rooted; assumption.
  - cbv zeta. rewrite bool_decide_eq_false_2 by exact Hd. apply snapshot_rooted; assumption.
Qed.
Lemma frame_ops c c' : frame c' = frame c -> c_ops c' = c_ops c.
Proof using Type. destruct c, c'. unfold frame. cbn. intros [= -> -> -> -> ->]. reflexivity. Qed.
Lemma prepared_rooted s reason l : forall c x a c0, reason <> "" -> frame c = frame c0 -> a ∈ l -> ProductID a = c_product c0 ->
  DeliveryArtifact_ApplicationID a = ID (DeliverySnapshot_Application s) ->
  DeliveryArtifact_SourceCommit a = IntegrationRevision_HeadCommit (DeliverySnapshot_Revision s) ->
  Rooted (foldl (prepared_artifact s reason) (c, x) l).1 (artifactRepo c0 a) (DeliveryArtifact_Digest a) reason.
Proof using Type.
  intros c x a c0 Hr HF Ha Hp Happ Hsrc. revert c x HF. induction l as [|b l IH]; [inversion Ha|]. intros c x HF. cbn [foldl].
  apply elem_of_cons in Ha as [<-|Ha].
  - assert (E : prepared_artifact s reason (c, x) a = (root (artifactRepo c a) (DeliveryArtifact_Digest a) (DeliveryArtifact_ApplicationID a) reason c, DeliveryArtifact_Digest a)).
    { unfold prepared_artifact. rewrite (frame_product _ _ HF), !bool_decide_eq_true_2 by assumption. reflexivity. }
    rewrite E. eapply (rooted_grows false); [apply (grows_foldl_pair false (prepared_artifact s reason) l (_, _)); intros [c' y] b; apply grows_prepared; discriminate|].
    cbn [fst]. rewrite (frame_repo _ _ a HF). apply root_rooted, Hr.
  - pose proof (grows_frame _ _ _ (grows_prepared false s reason c x b ltac:(discriminate))) as F'.
    destruct (prepared_artifact s reason (c, x) b) as [c' y]. apply (IH Ha). cbn [fst] in F'. congruence.
Qed.
Lemma operation_rooted o reason c c0 repo digest : reason <> "" -> frame c = frame c0 -> OperationRef c0 o repo digest ->
  Rooted (operation o reason c) repo digest reason.
Proof using Type.
  intros Hr HF Href. unfold operation. cbv zeta.
  set (c1 := operation_images o reason c). assert (G1 : Grows false c c1) by (apply grows_operation_images; discriminate).
  set (c2 := match ExternalOperation_ExistingArtifact o with Some a => _ | None => _ end).
  assert (G2 : Grows false c1 c2) by (unfold c2; destruct (ExternalOperation_ExistingArtifact o); [apply grows_root; discriminate|reflexivity]).
  assert (G3 : Grows false c2 (gitops_observed o c2)) by apply grows_gitops. set (c3 := gitops_observed o c2) in *.
  assert (Hd : forall c s, Grows false c (prepared_deployment reason c s)) by (intros; apply grows_deployment; discriminate).
  assert (Hc : forall c id, Grows false c (child_images reason c id)) by (intros; apply grows_child; discriminate).
  assert (F3 : frame c3 = frame c0) by (rewrite (grows_frame _ _ _ G3), (grows_frame _ _ _ G2), (grows_frame _ _ _ G1); exact HF).
  assert (Hup : Grows false c3 (foldl (child_images reason) (foldl (prepared_deployment reason) c3 (ExternalOperation_PreparedDeployments o)) (ExternalOperation_ChildIDs o)))
    by (etransitivity; [apply (grows_foldl false (prepared_deployment reason)), Hd|apply (grows_foldl false (child_images reason)), Hc]).
  destruct Href as [repo digest Hdir|a Ea|s a Hs Ha Hp Happ Hsrc|id child repo digest Hid Hch Hp Hdir].
  - eapply rooted_grows; [etransitivity; [exact G2|etransitivity; [exact G3|exact Hup]]|]. eapply operation_images_rooted; eassumption.
  - eapply rooted_grows; [etransitivity; [exact G3|exact Hup]|]. unfold c2. rewrite Ea.
    rewrite <- (frame_repo c0 c1 a) by (rewrite (grows_frame _ _ _ G1); exact HF). apply root_rooted, Hr.
  - eapply rooted_grows; [apply (grows_foldl false (child_images reason)), Hc|].
    refine (foldl_at false (prepared_deployment reason) _ c3 c3 s (fun c => Rooted c _ _ _) Hs Hd _ _ (fun c1 c2 => rooted_grows false c1 c2 _ _ _)); [reflexivity|].
    intros c' G'. pose proof (eq_trans (grows_frame _ _ _ G') F3) as F'. unfold prepared_deployment.
    pose proof (prepared_rooted s reason (State_DeliveryArtifacts (c_st c')) c' "" a c0 Hr F') as Hroot.
    rewrite (frame_state _ _ F') in *. specialize (Hroot Ha Hp Happ Hsrc).
    destruct (foldl (prepared_artifact s reason) (c', "") (State_DeliveryArtifacts (c_st c0))) as [c'' x]. cbn [fst] in Hroot.
    destruct (x == ""); [eapply (rooted_grows false); [apply grows_block|]|]; exact Hroot.
  - set (c4 := foldl (prepared_deployment reason) c3 _). assert (G4 : Grows false c3 c4) by apply (grows_foldl false (prepared_deployment reason)), Hd.
    refine (foldl_at false (child_images reason) _ c4 c4 id (fun c => Rooted c _ _ _) Hid Hc _ _ (fun c1 c2 => rooted_grows false c1 c2 _ _ _)); [reflexivity|].
    intros c' G'. assert (F' : frame c' = frame c0) by (rewrite (grows_frame _ _ _ G'), (grows_frame _ _ _ G4); exact F3).
    unfold child_images. rewrite (frame_ops _ _ F'), Hch, (frame_product _ _ F'), bool_decide_eq_true_2 by exact Hp.
    eapply operation_images_rooted; eassumption.
Qed.
(** The reason the operation is kept for, if it may still run. *)
Definition flight_reason (c : retentionCollector) (o : ExternalOperation) : string :=
  if uncertain c o then "uncertain_external_intent" else if inflight o then "operation_inflight" else "".

(** C31 Everything an operation in flight, or one that may have had an effect
    without being observed, may still run is kept. *)
Theorem inflight_images_kept st product now auths o repo digest (c := start st product now) : o ∈ State_Operations st -> ProductID o = product ->
  inflight o || uncertain c o = true -> OperationRef c o repo digest -> Kept (EvaluateRetention st product now auths) repo digest (flight_reason c o).
Proof using Type.
  intros Ho Hprod Hfl Href. apply rooted_kept. destruct (operations_stage st product now) as (c1 & G & G'). eapply rooted_grows; [exact G'|].
  pose proof (grows_frame _ _ _ G) as F. rewrite (frame_state _ _ F). change (c_st (start st product now)) with st.
  refine (foldl_at false collect_operation _ c1 c1 o (fun c => Rooted c _ _ _) Ho (grows_collect_operation false) _ _ (fun c1 c2 => rooted_grows false c1 c2 _ _ _)); [reflexivity|].
  intros c' G1. pose proof (eq_trans (grows_frame _ _ _ G1) F) as F'. fold c in F'.
  assert (Eu : uncertain c' o = uncertain c o) by (unfold uncertain; f_equal; f_equal; revert F'; clear; destruct c', c; unfold frame; cbn; intros [= -> -> -> -> ->]; reflexivity).
  assert (Hr : flight_reason c o <> "") by (unfold flight_reason; destruct (uncertain c o); [discriminate|]; rewrite orb_false_r in Hfl; rewrite Hfl; discriminate).
  assert (Hgo : forall c2, frame c2 = frame c -> Rooted
    (match ExternalOperation_GitOpsBase o with
     | Some g => if GitOpsSnapshot_Digest g != "" then gitops_observed o (if flight_reason c o != "" then operation o (flight_reason c o) c2 else c2)
                 else (if flight_reason c o != "" then operation o (flight_reason c o) c2 else c2)
     | None => (if flight_reason c o != "" then operation o (flight_reason c o) c2 else c2) end) repo digest (flight_reason c o)).
  { intros c2 F2. rewrite (bool_decide_eq_false_2 (flight_reason c o = "")) by exact Hr. cbn [negb].
    pose proof (operation_rooted o _ c2 c repo digest Hr F2 Href) as Hroot.
    destruct (ExternalOperation_GitOpsBase o) as [g|]; [|exact Hroot]. destruct (_ != _); [|exact Hroot].
    eapply (rooted_grows false); [apply grows_gitops|exact Hroot]. }
  unfold collect_operation. rewrite (frame_product _ _ F'). change (c_product c) with product. rewrite bool_decide_eq_true_2 by exact Hprod. cbn [negb].
  rewrite Eu. revert Hgo. unfold flight_reason. destruct (uncertain c o); intros Hgo; apply Hgo; [|exact F'].
  rewrite <- F'. apply (grows_frame false), grows_block.
Qed.
End kept.
