(* ===== verification/RetentionProduction.v ===== *)
(** * Retention: releases and shared repositories

    The images of the newest releases of a scope are kept
    ([production_images_kept]), and an image that another product protects is
    protected ([shared_images_protected]). *)
From S2P Require Import Prelude GoText Worklist GoJson Delivery Domain Status Planning Handlers DeviceAuth Collections Reservation WorkerAuth Composition Pins WorkerJobs Publications Registry Restoration Checks WorkerChecks Retention RetentionRoots RetentionRecovery RetentionReport RetentionSafety RetentionKept.
Open Scope string_scope.
Open Scope list_scope.

(** ** The rank of an element in a sorted slice *)
Lemma filter_length_perm {A} (p : A -> bool) l l' : l ≡ₚ l' -> length (List.filter p l) = length (List.filter p l').
Proof. induction 1; cbn; repeat destruct (p _); cbn; congruence. Qed.
Lemma filter_length_take {A} (p : A -> bool) n l : (forall x, x ∈ take n l -> p x = true) -> length (take n l) <= length (List.filter p l).
Proof.
  revert n; induction l as [|x l IH]; intros [|n] Hp; cbn; [lia..|].
  rewrite (Hp x ltac:(left)). cbn. apply le_n_S, IH. intros y Hy. apply Hp. right. exact Hy.
Qed.
Lemma sorted_rank {A} (R : relation A) `{!RelDecision R, !Reflexive R, !Transitive R, !Total R} g x : x ∈ g ->
  exists i, merge_sort R g !! i = Some x /\ S i <= length (List.filter (fun y => bool_decide (R y x)) g).
Proof.
  intros Hx. pose proof (StronglySorted_merge_sort R g) as Hs. rewrite <- (merge_sort_Permutation R g) in Hx.
  apply list_elem_of_lookup in Hx as [i Hi]. exists i. split; [exact Hi|].
  rewrite (filter_length_perm _ g (merge_sort R g)) by (symmetry; apply merge_sort_Permutation).
  set (l := merge_sort R g) in *. replace (S i) with (length (take (S i) l)) by (rewrite length_take; apply lookup_lt_Some in Hi; lia).
  apply filter_length_take. intros y Hy. apply bool_decide_eq_true_2. rewrite (take_S_r _ _ _ Hi) in Hy.
  apply elem_of_app in Hy as [Hy|Hy%list_elem_of_singleton]; [|subst y; reflexivity].
  apply (sorted_drop R i l); [exact Hs|exact Hy|]. apply list_elem_of_lookup. exists 0. rewrite lookup_drop, Nat.add_0_r. exact Hi.
Qed.
#[local] Instance latest_first_refl : Reflexive latest_first.
Proof. intros a. right. auto. Qed.
#[local] Instance latest_first_total : Total latest_first.
Proof.
  intros a b. unfold latest_first. destruct (Z.lt_total (retainedRelease_at b) (retainedRelease_at a)) as [?|[E|?]]; [tauto| |tauto].
  rewrite E. destruct (String.le_total (retainedRelease_id a) (retainedRelease_id b)); tauto.
Qed.
#[local] Instance latest_first_trans : Transitive latest_first.
Proof.
  intros a b c. unfold latest_first. intros [Hab|[Hab Iab]] [Hbc|[Hbc Ibc]]; [left; lia..|].
  right. split; [congruence|]. transitivity (retainedRelease_id b); assumption.
Qed.

Section production.
Context `{Runtime, NetURL, URLs, Encoding, Hashing, MapOrder, TimeLayout}.

(** ** Releases whose execution is proven *)
Definition release_proven (c : retentionCollector) (r : Release) : bool :=
  (ProductID r == c_product c) && lineage_complete (trace_release c r).
Definition retained (c : retentionCollector) (r : Release) : retainedRelease :=
  let l := trace_release c r in
  mkRetainedRelease (Meta_CreatedAt (Release_Meta r)) (ID r) (Fingerprint (sort_strings (lineage_scopes l))) (lineage_children l)
    (keep_previous (c_policies c) (lineage_children l)).
(** The proven releases of a scope: the same components, environments,
    manifests and repositories. *)
Definition same_scope (c : retentionCollector) (k : string) (r : Release) : bool :=
  release_proven c r && (retainedRelease_scope (retained c r) == k).
Definition release_group (c : retentionCollector) (l : list Release) (k : string) : list retainedRelease :=
  map (retained c) (List.filter (same_scope c k) l).
Lemma frame_trace c c' r : frame c' = frame c -> trace_release c' r = trace_release c r /\ retained c' r = retained c r.
Proof using Type. destruct c, c'. unfold frame. cbn. intros [= -> -> -> -> ->]. split; reflexivity. Qed.
Lemma collect_release_spec c0 c groups r : frame c = frame c0 ->
  exists c', collect_release (c, groups) r =
    (c', if release_proven c0 r then let k := retainedRelease_scope (retained c0 r) in <[k := default [] (groups !! k) ++ [retained c0 r]]> groups else groups)
  /\ Grows true c c'.
Proof using Type.
  intros HF. pose proof (grows_collect_release true c groups r) as G. destruct (frame_trace _ _ r HF) as [Et Er]. unfold release_proven.
  revert G. unfold collect_release. rewrite (frame_product _ _ HF), Et, (frame_policies _ _ HF).
  destruct (ProductID r == c_product c0); cbn [negb andb]; [|intros G; exists c; auto].
  destruct (lineage_complete (trace_release c0 r)); cbn [negb]; intros G; eexists; (split; [reflexivity|exact G]).
Qed.
Lemma release_groups_spec c0 l : forall c groups, frame c = frame c0 -> exists c' groups', foldl collect_release (c, groups) l = (c', groups')
  /\ Grows true c c' /\ forall k, groups' !! k = match release_group c0 l k with [] => groups !! k | g => Some (default [] (groups !! k) ++ g) end.
Proof using Type.
  induction l as [|r l IH]; intros c groups HF; [exists c, groups; split; [reflexivity|split; [reflexivity|reflexivity]]|].
  destruct (collect_release_spec c0 c groups r HF) as (c1 & E & G).
  change (foldl collect_release (c, groups) (r :: l)) with (foldl collect_release (collect_release (c, groups) r) l). rewrite E. clear E.
  set (g1 := if release_proven c0 r then _ else groups).
  destruct (IH c1 g1) as (c' & g' & E' & G' & Hg); [rewrite (grows_frame _ _ _ G); exact HF|].
  exists c', g'. split; [exact E'|]. split; [etransitivity; eassumption|]. intros k. rewrite Hg. unfold g1, release_group. cbn [List.filter].
  destruct (same_scope c0 k r) eqn:Es; unfold same_scope in Es; destruct (release_proven c0 r); cbn [andb] in Es; cbv zeta; to_prop; try discriminate.
  - rewrite Es, lookup_insert_eq. cbn [default map]. destruct (map (retained c0) (List.filter _ l)); [reflexivity|]. cbn. rewrite <- app_assoc. reflexivity.
  - rewrite lookup_insert_ne by assumption. reflexivity.
  - reflexivity.
Qed.
Lemma keep_release_at l : forall c n i r child s a c0, frame c = frame c0 -> l !! i = Some r -> (Z.of_nat (n + i) <= retainedRelease_extra r)%Z ->
  child ∈ retainedRelease_children r -> ExternalOperation_Snapshot child = Some s -> ExternalOperation_Artifact child = Some a ->
  ArtifactResult_Digest a <> "" ->
  Rooted (foldl keep_release (c, n) l).1 (frozenImageRepository c0 s) (ArtifactResult_Digest a)
    (if (n + i =? 0)%nat then "production_current" else "production_previous").
Proof using Type.
  induction l as [|x l IH]; intros c n [|i] r child s a c0 HF Hi Hle Hch Hs Ha Hd; [discriminate..|injection Hi as ->|].
  - rewrite Nat.add_0_r in Hle |- *. change (foldl keep_release (c, n) (r :: l)) with (foldl keep_release (keep_release (c, n) r) l).
    unfold keep_release at 2. rewrite (proj2 (Z.leb_le _ _) Hle). set (reason := if (n =? 0)%nat then _ else _).
    assert (Hr : reason <> "") by (unfold reason; destruct (n =? 0)%nat; discriminate).
    eapply (rooted_grows false); [apply (grows_foldl_pair false keep_release l (_, _)); intros [c' m] y; apply grows_keep_release|]. cbn [fst].
    unfold release_children.
    refine (foldl_at false _ _ c c child (fun c => Rooted c _ _ _) Hch _ _ _ (fun c1 c2 => rooted_grows false c1 c2 _ _ _)); [|reflexivity|].
    + intros c' y. destruct (ExternalOperation_Snapshot y), (ExternalOperation_Artifact y); try reflexivity. apply grows_snapshot; discriminate.
    + intros c' G. cbn beta. rewrite Hs, Ha. rewrite <- (frame_frozen c0 c' s) by (rewrite (grows_frame _ _ _ G); exact HF).
      apply snapshot_rooted; assumption.
  - change (foldl keep_release (c, n) (x :: l)) with (foldl keep_release ((keep_release (c, n) x).1, S n) l).
    replace (n + S i)%nat with (S n + i)%nat in * by lia. eapply IH; try eassumption. rewrite (grows_frame _ _ _ (grows_keep_release false c n x)). exact HF.
Qed.
(** How many releases of the scope are at least as new, the release included. *)
Definition release_rank (c : retentionCollector) (r : Release) : nat :=
  length (List.filter (fun x => bool_decide (latest_first x (retained c r)))
    (release_group c (State_Releases (c_st c)) (retainedRelease_scope (retained c r)))).

(** C32 The images of a proven release are kept while fewer than its wished
    number of releases of the same scope are newer; the newest of all is the
    current one. *)
Theorem production_images_kept st product now auths r child s a (c := start st product now) : r ∈ State_Releases st ->
  release_proven c r = true -> (Z.of_nat (release_rank c r) <= 1 + keep_previous (policies_of c) (lineage_children (trace_release c r)))%Z ->
  child ∈ lineage_children (trace_release c r) -> ExternalOperation_Snapshot child = Some s -> ExternalOperation_Artifact child = Some a ->
  ArtifactResult_Digest a <> "" ->
  exists reason, Kept (EvaluateRetention st product now auths) (frozenImageRepository c s) (ArtifactResult_Digest a) reason
    /\ (reason = "production_current" \/ reason = "production_previous" /\ release_rank c r <> 1).
Proof using Type.
  intros Hr Hp Hrank Hch Hs Ha Hd. destruct (releases_stage st product now) as (c1 & G & G'). pose proof (grows_frame _ _ _ G) as F. fold c in F.
  set (k := retainedRelease_scope (retained c r)). set (g := release_group c (State_Releases st) k).
  assert (Hin : retained c r ∈ g).
  { unfold g, release_group. apply elem_of_map. exists r. split; [reflexivity|]. apply elem_of_filter_list. split; [exact Hr|].
    unfold same_scope. rewrite Hp. apply bool_decide_eq_true_2. reflexivity. }
  destruct (sorted_rank latest_first g _ Hin) as (i & Hi & Hle). change (S i <= release_rank c r) in Hle.
  exists (if (0 + i =? 0)%nat then "production_current" else "production_previous"). split.
  - apply rooted_kept. eapply rooted_grows; [exact G'|]. unfold release_roots.
    rewrite (frame_state _ _ F). change (c_st c) with st.
    destruct (release_groups_spec c (State_Releases st) c1 ∅ F) as (c2 & groups & -> & G2 & Hg).
    refine (foldl_at false keep_releases _ c2 c2 g (fun c => Rooted c _ _ _) _ (grows_keep_releases false) _ _ (fun c1 c2 => rooted_grows false c1 c2 _ _ _)); [|reflexivity|].
    + apply elem_of_map. exists (k, g). split; [reflexivity|]. apply elem_of_map_range. rewrite Hg. fold g. rewrite lookup_empty.
      destruct g; [inversion Hin|reflexivity].
    + intros c' G3. unfold keep_releases. apply (keep_release_at _ _ _ _ (retained c r) child); try assumption.
      * rewrite (grows_frame _ _ _ G3), (grows_frame _ _ _ G2). exact F.
      * change (retainedRelease_extra (retained c r)) with (keep_previous (policies_of c) (lineage_children (trace_release c r))). lia.
  - destruct i as [|i]; [left; reflexivity|]. right. split; [reflexivity|lia].
Qed.

(** ** Images shared with other products *)
Lemma image_key_inj r d r' d' : is_digest d = true -> is_digest d' = true -> image_key r d = image_key r' d' -> r = r' /\ d = d'.
Proof using Type.
  unfold image_key. intros Hd%is_digest_length Hd'%is_digest_length E.
  pose proof (f_equal String.length E) as L. rewrite !str_length_app, Hd, Hd' in L.
  apply str_app_inj in E as [-> E]; [|lia]. cbn in E. injection E as E. auto.
Qed.
Definition listed_protected (key : string) (c : retentionCollector) : Prop :=
  forall v, c_images c !! key = Some v -> RetentionImage_Protected v = true.
Lemma listed_grows key c c' : Grows true c c' -> listed_protected key c -> listed_protected key c'.
Proof using Type.
  intros G Hp w Hw. destruct (c_images c !! key) as [v|] eqn:E; [|exact (grows_new _ _ _ G eq_refl _ _ Hw E)].
  destruct (grows_images _ _ _ G _ _ E) as (w' & Hw' & L). assert (w' = w) as -> by congruence. apply (le_protected _ _ L), Hp, E.
Qed.
Lemma evaluate_sound st product now : Sound (evaluate (newRetentionCollector st product now)).
Proof using Type. eapply grows_sound; [apply grows_evaluate|apply start_sound]. Qed.
Lemma share_image_listed own local c key f : Sound own -> Grows true own c -> RetentionImage_Identity f = key -> named f ->
  RetentionImage_Protected f = true -> (forall k v, c_images own !! k = Some v -> RetentionImage_ImageRepository v ∈ local) ->
  listed_protected key (share_image local c (key, f)).
Proof using Type.
  intros Hsound G Hid [Hf Hdf] Hprot Hlocal. unfold share_image. rewrite Hprot. cbn [negb orb].
  case_bool_decide as Hin; cbn [negb].
  - destruct (c_images c !! key) as [v|] eqn:E.
    + intros w Hw. rewrite (edited c key (protect "shared_product_root") v E) in Hw. injection Hw as <-. reflexivity.
    + apply (listed_grows key c); [|intros v Hv; congruence].
      pose proof (grows_image true (RetentionImage_ImageRepository f) (RetentionImage_Digest f) "" "shared_product_root" c ltac:(discriminate)) as Gi.
      destruct (image _ _ _ _ c) as [c' [k|]]; cbn [fst] in Gi; [|exact Gi].
      etransitivity; [exact Gi|]. etransitivity; [apply grows_edit, edit_blocker|apply grows_block].
  - intros w Hw. destruct (c_images own !! key) as [v|] eqn:E; [|exact (grows_new _ _ _ G eq_refl _ _ Hw E)]. exfalso.
    destruct (Hsound _ _ E) as (Hvi & [Hv Hdv] & _). apply Hin.
    assert (RetentionImage_ImageRepository f = RetentionImage_ImageRepository v) as -> by (apply (image_key_inj _ (RetentionImage_Digest f) _ (RetentionImage_Digest v)); congruence).
    eapply Hlocal, E.
Qed.
Lemma local_covers st product c key v : c_images c !! key = Some v -> RetentionImage_ImageRepository v ∈ local_repositories st product c.
Proof using Type.
  intros Hv. unfold local_repositories. apply elem_of_list_to_set, elem_of_app. left. apply elem_of_map.
  exists (key, v). split; [reflexivity|]. apply elem_of_map_range, Hv.
Qed.
Lemma share_product_listed st product now c other key f (own := evaluate (newRetentionCollector st product now)) : other <> product ->
  Grows true own c -> c_images (evaluate (newRetentionCollector st other now)) !! key = Some f -> RetentionImage_Protected f = true ->
  listed_protected key (share_product st product now c other).
Proof using Type.
  intros Hne G Hf Hp. unfold share_product. rewrite bool_decide_eq_false_2 by exact Hne. cbv zeta.
  set (foreign := evaluate (newRetentionCollector st other now)) in *.
  destruct (evaluate_sound st other now key f Hf) as (Hid & Hn & _).
  set (local := local_repositories st product c). set (c1 := if sharedScopeEvidence foreign (in_scope local) != "" then _ else c).
  assert (G1 : Grows true c c1) by (unfold c1; destruct (_ != _); [apply grows_learn|reflexivity]).
  refine (foldl_at true (share_image local) _ c1 c1 (key, f) (listed_protected key) _ (grows_share_image true local) _ _ (listed_grows key)).
  - apply elem_of_map_range, Hf.
  - reflexivity.
  - intros c' G'. apply (share_image_listed own); try assumption; [apply evaluate_sound|etransitivity; [exact G|etransitivity; eassumption]|].
    intros k v Hv. destruct (grows_images _ _ _ G _ _ Hv) as (w & Hw & L). rewrite <- (le_repository _ _ L). eapply local_covers, Hw.
Qed.

(** No image that another product protects is left without protection. *)
Theorem shared_images_protected st product now auths other f e : other ∈ all_products st -> other <> product ->
  c_images (evaluate (newRetentionCollector st other now)) !! RetentionImage_Identity e = Some f -> RetentionImage_Protected f = true ->
  e ∈ RetentionReport_Images (EvaluateRetention st product now auths) -> RetentionImage_Protected e = true.
Proof using Type.
  intros Ho Hne Hf Hp He. apply report_image in He as (k & v & Hv & ->). destruct (shared_sound st product now k v Hv) as [Hi _].
  change (RetentionImage_Identity (canonical_image v)) with (RetentionImage_Identity v) in Hf. rewrite Hi in Hf.
  change (RetentionImage_Protected v = true). revert v Hv Hi. unfold shared_collector. set (own := evaluate (newRetentionCollector st product now)).
  assert (Hall : listed_protected k (foldl (share_product st product now) own (range_set (all_products st)))).
  { refine (foldl_at true (share_product st product now) _ own own other (listed_protected k) _ (grows_share_product true st product now) _ _ (listed_grows k)).
    - unfold range_set. apply elem_of_map. exists (other, ()). split; [reflexivity|]. apply elem_of_map_range, lookup_gset_to_gmap_Some. auto.
    - reflexivity.
    - intros c G. eapply share_product_listed; eassumption. }
  intros v Hv _. apply (Hall v Hv).
Qed.
End production.
