(* ===== verification/RetentionClosure.v ===== *)
(** * Retention: the report as a whole

    The report is well formed and never permits a deletion
    ([report_wellformed]), and whatever a protected image leads to, in any
    observed graph of its repository, is listed as protected
    ([protected_closure_listed]). *)
From S2P Require Import Prelude GoText Worklist GoJson Delivery Domain Status Planning Handlers DeviceAuth Collections Reservation WorkerAuth Composition Pins WorkerJobs Publications Registry Restoration Checks WorkerChecks Retention RetentionRoots RetentionRecovery RetentionReport RetentionSafety RetentionKept RetentionProduction.
Open Scope string_scope.
Open Scope list_scope.

(** The first NUL separates. *)
Lemma no_nul_cut s s' t t' : no_nul s -> no_nul s' -> s +:+ nul +:+ t = s' +:+ nul +:+ t' -> s = s' /\ t = t'.
Proof.
  intros Hs Hs'. revert s' Hs'. induction s as [|a s IH]; intros [|b s'] Hs' E.
  - cbn in E. injection E as E. auto.
  - exfalso. cbn in E. injection E as <- _. discriminate.
  - exfalso. cbn in E. injection E as -> _. discriminate.
  - unfold no_nul in Hs, Hs'. cbn in Hs, Hs'. apply andb_true_iff in Hs as [_ Hs], Hs' as [_ Hs'].
    change (String a (s +:+ nul +:+ t) = String b (s' +:+ nul +:+ t')) in E. injection E as -> E. destruct (IH Hs s' Hs' E) as [-> ->]. auto.
Qed.
Section closure.
Context `{Runtime, NetURL, URLs, Encoding, Hashing, MapOrder, TimeLayout}.

(** ** The edges observed in a repository *)
(** Some inventory of the repository has seen the edge. *)
Definition observed_edge (st : State) (repo a b : string) : Prop :=
  exists v, v ∈ State_RegistryInventories st /\ inventory_repository v = repo /\ leads (WorkerRegistryReport_Graph (RegistryInventory_Report v)) a b.
(** Inventories that were admitted name canonical repositories and objects by
    their digests. *)
Definition admitted_inventory (v : RegistryInventory) : Prop :=
  (exists raw, CanonicalImageRepository raw = Ok (inventory_repository v))
  /\ forall e, e ∈ RegistryGraph_Edges (WorkerRegistryReport_Graph (RegistryInventory_Report v)) ->
     is_digest (RegistryEdge_From e) = true /\ is_digest (RegistryEdge_To e) = true.
Definition edge_at (repo a b : string) (edges : gmap string RegistryProtectedEdge) : Prop :=
  exists k e, edges !! k = Some e /\ RegistryProtectedEdge_ImageRepository e = repo
    /\ RegistryEdge_From (RegistryProtectedEdge_RegistryEdge e) = a /\ RegistryEdge_To (RegistryProtectedEdge_RegistryEdge e) = b.
(** Every entry has the key of its edge, without NUL in its parts. *)
Definition keyed_edges (edges : gmap string RegistryProtectedEdge) : Prop := forall k e, edges !! k = Some e ->
  k = RegistryProtectedEdge_ImageRepository e +:+ nul +:+ registryEdgeKey (RegistryProtectedEdge_RegistryEdge e)
  /\ no_nul (RegistryProtectedEdge_ImageRepository e) /\ no_nul (RegistryEdge_From (RegistryProtectedEdge_RegistryEdge e))
  /\ no_nul (RegistryEdge_To (RegistryProtectedEdge_RegistryEdge e)).
Definition plain_edge (repo : string) (e : RegistryEdge) : Prop :=
  no_nul repo /\ no_nul (RegistryEdge_From e) /\ no_nul (RegistryEdge_To e).
Lemma add_edge_keyed repo edges e : plain_edge repo e -> keyed_edges edges -> keyed_edges (add_edge repo edges e).
Proof using Type.
  intros (Hr & Hf & Ht) Hk k x Hx. unfold add_edge in Hx. apply lookup_insert_Some in Hx as [[<- <-]|[_ Hx]]; [|apply Hk, Hx]. cbn. auto.
Qed.
Lemma add_edge_at repo edges e a b : RegistryEdge_From e = a -> RegistryEdge_To e = b -> edge_at repo a b (add_edge repo edges e).
Proof using Type. intros Ha Hb. do 2 eexists. split; [apply lookup_insert_eq|]. auto. Qed.
Lemma add_edge_keeps repo edges e r a b : plain_edge repo e -> keyed_edges edges -> edge_at r a b edges -> edge_at r a b (add_edge repo edges e).
Proof using Type.
  intros (Hr & Hf & Ht) Hk (k & x & Hx & Er & Ea & Eb). destruct (Hk k x Hx) as (Ek & Hxr & Hxf & Hxt).
  set (key := repo +:+ nul +:+ registryEdgeKey e). destruct (decide (k = key)) as [E|Hne].
  - exists key, (mkRegistryProtectedEdge repo e). split; [apply lookup_insert_eq|]. unfold key in E. rewrite Ek in E.
    apply no_nul_cut in E as [<- E]; [|assumption..]. apply no_nul_cut in E as [E1 E]; [|assumption..].
    apply no_nul_cut in E as [E2 _]; [|assumption..]. cbn. rewrite <- E1, <- E2. auto.
  - exists k, x. split; [|auto]. unfold add_edge. fold key. rewrite lookup_insert_ne by congruence. exact Hx.
Qed.
Definition add_edges (edges : gmap string RegistryProtectedEdge) (v : RegistryInventory) : gmap string RegistryProtectedEdge :=
  foldl (add_edge (inventory_repository v)) edges (RegistryGraph_Edges (WorkerRegistryReport_Graph (RegistryInventory_Report v))).
Lemma admitted_plain v e : admitted_inventory v -> e ∈ RegistryGraph_Edges (WorkerRegistryReport_Graph (RegistryInventory_Report v)) ->
  plain_edge (inventory_repository v) e.
Proof using Type.
  intros [[raw Hr] He] Hin. destruct (He e Hin) as [Hf Ht]. split; [eapply canonical_no_nul, Hr|]. split; apply is_digest_no_nul; assumption.
Qed.
(** A loop over a slice is a loop over its elements. *)
Lemma foldl_members {A B} (f : A -> B -> A) (I R : A -> Prop) (ok : B -> Prop) l x a : x ∈ l -> (forall y, y ∈ l -> ok y) -> I a ->
  (forall a y, ok y -> I a -> I (f a y)) -> (forall a, I a -> R (f a x)) -> (forall a y, ok y -> I a -> R a -> R (f a y)) -> R (foldl f a l).
Proof using Type.
  intros Hx Hok Ha HI HR Hkeep.
  assert (Hrest : forall l a, (forall y, y ∈ l -> ok y) -> I a -> R a -> R (foldl f a l)).
  { intros l'; induction l' as [|y l' IHl]; intros b Hok' Hb Hr; cbn; [exact Hr|].
    apply IHl; [intros z Hz; apply Hok'; right; exact Hz|apply HI|apply Hkeep]; auto; apply Hok'; left. }
  revert a Ha. induction l as [|y l IH]; [inversion Hx|]. intros a Ha. cbn.
  assert (Hok' : forall z, z ∈ l -> ok z) by (intros z Hz; apply Hok; right; exact Hz).
  apply elem_of_cons in Hx as [<-|Hx]; [apply Hrest; auto; apply HI; auto; apply Hok; left|apply IH; auto; apply HI; auto; apply Hok; left].
Qed.
Lemma foldl_members_inv {A B} (f : A -> B -> A) (I : A -> Prop) (ok : B -> Prop) l a : (forall y, y ∈ l -> ok y) -> I a ->
  (forall a y, ok y -> I a -> I (f a y)) -> I (foldl f a l).
Proof using Type.
  revert a; induction l as [|y l IH]; intros a Hok Ha HI; cbn; [exact Ha|].
  apply IH; [intros z Hz; apply Hok; right; exact Hz|apply HI; [apply Hok; left|exact Ha]|exact HI].
Qed.
Lemma add_edges_keyed edges v : admitted_inventory v -> keyed_edges edges -> keyed_edges (add_edges edges v).
Proof using Type.
  intros Hv Hk. apply (foldl_members_inv _ keyed_edges (plain_edge (inventory_repository v))); [intros e; apply admitted_plain, Hv|exact Hk|].
  intros edges' e He. apply add_edge_keyed, He.
Qed.
Lemma add_edges_keeps edges v r a b : admitted_inventory v -> keyed_edges edges -> edge_at r a b edges -> edge_at r a b (add_edges edges v).
Proof using Type.
  intros Hv Hk Hat. apply (foldl_members_inv _ (fun m => keyed_edges m /\ edge_at r a b m) (plain_edge (inventory_repository v)));
    [intros e; apply admitted_plain, Hv|auto|].
  intros edges' e He [Hk' Hat']. split; [apply add_edge_keyed|apply add_edge_keeps]; assumption.
Qed.
Lemma historical_edge_at l v a b : (forall w, w ∈ l -> admitted_inventory w) -> v ∈ l ->
  leads (WorkerRegistryReport_Graph (RegistryInventory_Report v)) a b -> edge_at (inventory_repository v) a b (historical_edges l).
Proof using Type.
  intros Hl Hv (e & He & Ha & Hb). change (historical_edges l) with (foldl add_edges ∅ l).
  apply (foldl_members add_edges keyed_edges _ admitted_inventory l v); auto.
  - intros k x Hx. rewrite lookup_empty in Hx. discriminate.
  - intros m w Hw. apply add_edges_keyed, Hw.
  - intros m Hm. unfold add_edges. specialize (Hl v Hv).
    apply (foldl_members _ keyed_edges _ (plain_edge (inventory_repository v)) _ e); auto.
    + intros y. apply admitted_plain, Hl.
    + intros m' y Hy. apply add_edge_keyed, Hy.
    + intros m' _. apply add_edge_at; assumption.
    + intros m' y Hy. apply add_edge_keeps, Hy.
  - intros m w Hw. apply add_edges_keeps, Hw.
Qed.
Lemma repository_leads edges repo a b : edge_at repo a b edges -> leads (repository_graph edges repo) a b.
Proof using Type.
  intros (k & e & He & Hr & Ha & Hb). exists (RegistryProtectedEdge_RegistryEdge e). split; [|auto].
  change (RegistryProtectedEdge_RegistryEdge e ∈ map RegistryProtectedEdge_RegistryEdge (List.filter (fun e => RegistryProtectedEdge_ImageRepository e == repo) (map snd (map_range edges)))).
  apply elem_of_map. exists e. split; [reflexivity|]. apply elem_of_filter_list. split; [|apply bool_decide_eq_true_2, Hr].
  apply elem_of_map. exists (k, e). split; [reflexivity|]. apply elem_of_map_range, He.
Qed.

(** ** Objects *)
Definition keyed_objects (objects : gmap string RegistryProtectedObject) : Prop := forall k o, objects !! k = Some o ->
  object_key o = k /\ RegistryProtectedObject_Protected o = true.
Definition object_at (key root : string) (objects : gmap string RegistryProtectedObject) : Prop :=
  exists o, objects !! key = Some o /\ root ∈ RegistryProtectedObject_RootDigests o.
Lemma new_object_keyed now invs nodes repo d : object_key (new_object now invs nodes repo d) = image_key repo d
  /\ RegistryProtectedObject_Protected (new_object now invs nodes repo d) = true.
Proof using Type. unfold new_object. destruct (nodes !! _); split; reflexivity. Qed.
Lemma reach_object_spec now invs nodes v objects d (key := image_key (RetentionImage_ImageRepository v) d) :
  exists o, reach_object now invs nodes v objects d = <[key := o]> objects /\ RetentionImage_Digest v ∈ RegistryProtectedObject_RootDigests o
    /\ (keyed_objects objects -> object_key o = key /\ RegistryProtectedObject_Protected o = true)
    /\ forall old, objects !! key = Some old -> forall r, r ∈ RegistryProtectedObject_RootDigests old -> r ∈ RegistryProtectedObject_RootDigests o.
Proof using Type.
  unfold reach_object. fold key. eexists. split; [reflexivity|]. split; [apply elem_of_app; right; left|]. split.
  - intros Hk. destruct (objects !! key) as [old|] eqn:E; [exact (Hk _ _ E)|exact (new_object_keyed _ _ _ _ _)].
  - intros old -> r Hr. apply elem_of_app. left. exact Hr.
Qed.
Lemma reach_object_keyed now invs nodes v objects d : keyed_objects objects -> keyed_objects (reach_object now invs nodes v objects d).
Proof using Type.
  intros Hk k o. destruct (reach_object_spec now invs nodes v objects d) as (x & -> & _ & Hx & _).
  intros [[<- <-]|[_ Ho]]%lookup_insert_Some; [apply Hx, Hk|apply Hk, Ho].
Qed.
Lemma reach_object_keeps now invs nodes v objects d key root : object_at key root objects -> object_at key root (reach_object now invs nodes v objects d).
Proof using Type.
  intros (o & Ho & Hr). destruct (reach_object_spec now invs nodes v objects d) as (x & -> & _ & _ & Hx). set (k := image_key _ d) in *.
  destruct (decide (key = k)) as [->|Hne]; [exists x; rewrite lookup_insert_eq; split; [reflexivity|eapply Hx; eassumption]|].
  exists o. rewrite lookup_insert_ne by congruence. auto.
Qed.
Lemma closure_keyed now invs nodes edges objects v : keyed_objects objects -> keyed_objects (protect_closure now invs nodes edges objects v).
Proof using Type.
  intros Hk. apply (foldl_members_inv _ keyed_objects (fun _ => True)); auto. intros m d _. apply reach_object_keyed.
Qed.
Lemma closure_keeps now invs nodes edges objects v key root : object_at key root objects -> object_at key root (protect_closure now invs nodes edges objects v).
Proof using Type.
  intros Hk. apply (foldl_members_inv _ (object_at key root) (fun _ => True)); auto. intros m d _. apply reach_object_keeps.
Qed.
Lemma closure_reaches now invs nodes edges objects v d : d ∈ closure edges v ->
  object_at (image_key (RetentionImage_ImageRepository v) d) (RetentionImage_Digest v) (protect_closure now invs nodes edges objects v).
Proof using Type.
  intros Hd. apply (foldl_members (reach_object now invs nodes v) (fun _ => True) _ (fun _ => True) _ d); auto; [apply elem_of_elements, Hd| |].
  - intros m _. destruct (reach_object_spec now invs nodes v m d) as (x & -> & Hx & _). exists x. rewrite lookup_insert_eq. auto.
  - intros m y _ _. apply reach_object_keeps.
Qed.
Lemma protected_objects now invs nodes edges roots v d (objects := foldl (protect_closure now invs nodes edges) ∅ roots) :
  v ∈ roots -> d ∈ closure edges v ->
  exists o, objects !! image_key (RetentionImage_ImageRepository v) d = Some o /\ RetentionImage_Digest v ∈ RegistryProtectedObject_RootDigests o
    /\ object_key o = image_key (RetentionImage_ImageRepository v) d /\ RegistryProtectedObject_Protected o = true.
Proof using Type.
  intros Hv Hd.
  assert (Hk : keyed_objects objects).
  { apply (foldl_members_inv _ keyed_objects (fun _ => True)); auto; [intros k o Ho; rewrite lookup_empty in Ho; discriminate|].
    intros m w _. apply closure_keyed. }
  assert (Ho : object_at (image_key (RetentionImage_ImageRepository v) d) (RetentionImage_Digest v) objects).
  { apply (foldl_members (protect_closure now invs nodes edges) (fun _ => True) _ (fun _ => True) _ v); auto.
    - intros m _. apply closure_reaches, Hd.
    - intros m w _ _. apply closure_keeps. }
  destruct Ho as (o & Ho & Hr). exists o. destruct (Hk _ _ Ho). auto.
Qed.

(** C33 What a protected image leads to is protected: along any path of edges
    that admitted inventories of its repository have observed, old or partial
    ones included, every object is listed as protected with the image's digest
    among its roots. *)
Theorem protected_closure_listed st product now auths e d : (forall v, v ∈ State_RegistryInventories st -> admitted_inventory v) ->
  e ∈ RetentionReport_Images (EvaluateRetention st product now auths) -> RetentionImage_Protected e = true ->
  rtc (observed_edge st (RetentionImage_ImageRepository e)) (RetentionImage_Digest e) d ->
  exists o, o ∈ RetentionReport_ProtectedObjects (EvaluateRetention st product now auths)
    /\ object_key o = image_key (RetentionImage_ImageRepository e) d /\ RegistryProtectedObject_Protected o = true
    /\ RetentionImage_Digest e ∈ RegistryProtectedObject_RootDigests o.
Proof using Type.
  intros Hadm He Hp Hpath. set (report := first_report product now (shared_collector st product now)).
  change (e ∈ RetentionReport_Images report) in He.
  set (repos := scope_repositories product (RetentionReport_Images report) auths).
  set (invs := List.filter (fun v => contains repos (inventory_repository v)) (State_RegistryInventories st)).
  assert (Hd : d ∈ closure (historical_edges invs) e).
  { apply reachable_path. revert Hpath. apply rtc_subrel. intros a b (v & Hv & Hr & Hl). apply repository_leads. rewrite <- Hr.
    apply historical_edge_at; [intros w [Hw _]%elem_of_filter_list; apply Hadm, Hw| |exact Hl].
    apply elem_of_filter_list. split; [exact Hv|]. apply bool_decide_eq_true_2. unfold repos, scope_repositories. rewrite Hr.
    apply elem_of_app. left. apply elem_of_map. eauto. }
  destruct (protected_objects now invs (historical_nodes invs) (historical_edges invs) (List.filter RetentionImage_Protected (RetentionReport_Images report)) e d) as (o & Ho & Hr & Hk & Hprot);
    [apply elem_of_filter_list; auto|exact Hd|].
  exists (sorted_object o). split; [|split; [exact Hk|split; [exact Hprot|apply sortedUnique_elem, Hr]]].
  change (sorted_object o ∈ sort_by object_key (map sorted_object (map snd (map_range
    (foldl (protect_closure now invs (historical_nodes invs) (historical_edges invs)) ∅ (List.filter RetentionImage_Protected (RetentionReport_Images report))))))).
  apply elem_of_sort_by, elem_of_map. exists o. split; [reflexivity|]. apply elem_of_map. eexists (_, o). split; [reflexivity|].
  apply elem_of_map_range, Ho.
Qed.

(** C34 The report is well formed: its images are in order, each once under the
    name of its repository and digest, protected when and only when there is a
    reason; whatever the evidence, no deletion is permitted and the missing
    fence is reported. *)
Theorem report_wellformed st product now auths (report := EvaluateRetention st product now auths) :
  StronglySorted (by_key RetentionImage_Identity) (RetentionReport_Images report) /\ NoDup (map RetentionImage_Identity (RetentionReport_Images report))
  /\ (forall e, e ∈ RetentionReport_Images report -> named e /\ justified e)
  /\ RetentionReport_DeletionAllowed report = false /\ "deletion_fence_unavailable" ∈ RetentionReport_Blockers report.
Proof using Type.
  set (c := shared_collector st product now).
  change (RetentionReport_Images report) with (sort_by RetentionImage_Identity (map canonical_image (map snd (map_range (c_images c))))).
  pose proof (shared_sound st product now) as Hsound. fold c in Hsound.
  split; [apply sort_by_sorted|]. split; [|split; [|split; [reflexivity|]]].
  - rewrite (Permutation_map _ (sort_by_perm _ _)), !List.map_map.
    assert (Hnd : NoDup (map fst (map_range (c_images c)))) by (rewrite map_range_perm; apply NoDup_fst_map_to_list).
    erewrite map_ext_in; [exact Hnd|]. intros [k v] Hin. apply list_elem_of_In in Hin.
    apply elem_of_map_range in Hin. exact (proj1 (Hsound k v Hin)).
  - intros e He. apply elem_of_sort_by, elem_of_map in He as (v & -> & ([k w] & -> & Hkv)%elem_of_map).
    apply elem_of_map_range in Hkv. destruct (Hsound k w Hkv) as (_ & Hn & [Hp Hr]). split; [exact Hn|].
    assert (Hs : forall l, sortedUnique l = [] <-> l = []).
    { intros l. split; intros E; [|subst; reflexivity]. destruct l as [|x l]; [reflexivity|].
      assert (Hx : x ∈ sortedUnique (x :: l)) by (apply sortedUnique_elem; left). rewrite E in Hx. inversion Hx. }
    split; [intros Hprot Hnil; apply (Hp Hprot), Hs, Hnil|]. intros Hne. apply Hr. intros Hnil. apply Hne, Hs, Hnil.
  - change (RetentionReport_Blockers report) with (RetentionReport_Blockers (registryRetention st (first_report product now c) now auths).1).
    unfold registryRetention. cbv zeta. cbn [fst RetentionReport_Blockers]. rewrite sortedUnique_elem, !elem_of_app. right. right. right. left.
Qed.
End closure.
