(* ===== verification/WorkerProtocol.v ===== *)
(** * The worker protocol

    [internal/application/worker_execution.go]: the commands that queue, cancel
    and reconcile worker jobs, and the requests of the workers themselves,
    which claim a job, start it, keep its lease and report its result.  Every
    grant raises the fence of the job, and a request must name the current
    one. *)
From S2P Require Import Prelude GoText GoJson Delivery Domain Status Planning Handlers Collections DeviceAuth Reservation WorkerAuth Pins WorkerJobs Registry Checks.
Open Scope string_scope.
Open Scope list_scope.

(** ** Requests *)
(** [domain.WorkerClaim], [domain.WorkerLease] — domain/worker_jobs.go *)
Record WorkerClaim := mkWorkerClaim {
  WorkerClaim_RecipeID : string; WorkerClaim_RecipeHash : string; WorkerClaim_ProductID : string;
  WorkerClaim_RepositoryID : string; WorkerClaim_Capability : string
}.
Record WorkerLease := mkWorkerLease {
  WorkerLease_IntelligencePatch : option string; WorkerLease_Job : WorkerJob; WorkerLease_Attempt : WorkerAttempt
}.
Record QueueInput := mkQueueInput {
  QueueInput_IntelligenceTaskID : string; QueueInput_RequestKey : string; QueueInput_RecipeID : string;
  QueueInput_RecipeRevision : string; QueueInput_RecipeHash : string; QueueInput_ConfigRevision : string;
  QueueInput_RevisionID : string; QueueInput_SourceSHA : string; QueueInput_Parameters : gmap string json;
  QueueInput_Deadline : Time; QueueInput_MaxAttempts : Z
}.
#[export] Instance zero_QueueInput : Zero QueueInput := mkQueueInput zero zero zero zero zero zero zero zero zero (zero : Z) zero.
#[export] Instance fields_QueueInput `{Runtime} : Fields QueueInput := [
  field "intelligence_task_id" QueueInput_IntelligenceTaskID; field "request_key" QueueInput_RequestKey;
  field "recipe_id" QueueInput_RecipeID; field "recipe_revision" QueueInput_RecipeRevision;
  field "recipe_hash" QueueInput_RecipeHash; field "config_revision" QueueInput_ConfigRevision;
  field "revision_id" QueueInput_RevisionID; field "source_sha" QueueInput_SourceSHA;
  field "parameters" QueueInput_Parameters; field_with "deadline" QueueInput_Deadline decode_time;
  field "max_attempts" QueueInput_MaxAttempts ].
Record OutcomeInput := mkOutcomeInput { OutcomeInput_Outcome : string }.
#[export] Instance zero_OutcomeInput : Zero OutcomeInput := mkOutcomeInput zero.
#[export] Instance fields_OutcomeInput : Fields OutcomeInput := [field "outcome" OutcomeInput_Outcome].
#[export] Instance fields_empty : Fields unit := [].

(** ** Parameters — workerconfig/config.go *)
(** An integer parameter is marshalled and read back into an [int], which
    [null] leaves at zero. *)
Definition valid_parameter (def : RecipeParameter) (v : json) : bool :=
  if RecipeParameter_Type def == "boolean" then match v with JBool _ => true | _ => false end
  else if RecipeParameter_Type def == "enum" then match v with JStr s => contains (RecipeParameter_Enum def) s | _ => false end
  else if RecipeParameter_Type def == "integer" then
    match decode_int 0%Z v with
    | Some n => (RecipeParameter_Min def <=? n)%Z && (n <=? RecipeParameter_Max def)%Z
    | None => false
    end
  else false.
Definition ValidateParameters (r : Recipe) (params : gmap string json) : bool :=
  (size params == size (Recipe_Parameters r))
  && forallb (fun '(name, def) => match params !! name with Some v => valid_parameter def v | None => false end)
       (map_to_list (Recipe_Parameters r)).

Definition reserved_key (key : string) : bool := has_prefix "native-build:" key || has_prefix "native-publish:" key.
Definition no_scope (c : Command) : bool :=
  (Command_FeatureID c == "") && (Command_GateID c == "") && (Command_CheckID c == "") && (Command_ResultID c == "").

Section protocol.
Context `{Runtime, NetURL, URLs, Crypto, Hashing, World, WorkerPolicy, Encoding}.
(** [s.externalWorkers]; [nil] when external workers are disabled. *)
Context (workers : option Authority) (check_provider : bool).

(** ** Commands *)
Definition cancel_managed (i : nat) (j : WorkerJob) (proof : WorkerSourceProof) (now : Time) (st : State) : res State :=
  match operationByID st (WorkerSourceProof_DeliveryID proof) with
  | None => invalid "managed delivery has external PR intent" []
  | Some parent =>
    _ ← reject_if ((ExternalOperation_Phase parent == "APPLY_UNCERTAIN") || is_some (ExternalOperation_GitOpsPR parent)
          || is_some (ExternalOperation_GitOpsResult parent)) (invalid "managed delivery has external PR intent" []);
    Ok (stopNativeDelivery (WorkerSourceProof_DeliveryID proof) "CANCELLED" "managed worker job cancelled" now st)
  end.
Definition cancel_worker_job (c : Command) (i : nat) (j : WorkerJob) (now : Time) (st : State) : res State :=
  _ ← decode (R := unit) (Command_Data c) tt;
  _ ← reject_if (workerTerminal (WorkerJob_Status j)) (invalid "job already terminal" []);
  match WorkerInputs_SourceProof (WorkerJob_Inputs j) with
  | Some proof => cancel_managed i j proof now st
  | None => Ok (workerAudit i (Command_Actor c) (Command_Action c) now (stop_job i now st))
  end.
Definition reconcile_worker_job (c : Command) (i : nat) (j : WorkerJob) (now : Time) (st : State) : res State :=
  input ← decode (Command_Data c) (zero : OutcomeInput);
  let outcome := OutcomeInput_Outcome input in
  _ ← reject_if ((WorkerJob_Status j != "RECONCILIATION_REQUIRED") || ((outcome != "FAILED") && (outcome != "CANCELLED")))
        (invalid "explicit reconciliation requires FAILED or CANCELLED" []);
  let st := settle_current j outcome now (set_job i (j <| WorkerJob_Status := outcome |>) st) in
  Ok (workerAudit i (Command_Actor c) (Command_Action c) now st).
Definition steer_worker_job (c : Command) (now : Time) (st : State) : res (State * WorkerJob) :=
  _ ← reject_if (negb (no_scope c && (Command_IntegrationID c == ""))) (invalid "unexpected worker command scope" []);
  match job_index st (Command_ID c) with
  | None => missing "worker job" (Command_ID c)
  | Some i =>
    match job_at st i with
    | None => Err ErrPanic
    | Some j =>
      _ ← reject_if (Command_ProductID c != ProductID j) (invalid "worker job outside product" []);
      st' ← (if Command_Action c == "cancel_worker_job" then cancel_worker_job c i j now st
             else if Command_Action c == "reconcile_worker_job" then reconcile_worker_job c i j now st
             else invalid "unknown worker action" []);
      match job_at st' i with Some j => Ok (st', j) | None => Err ErrPanic end
    end
  end.

(** The revision a queue request captures: the last one with its ID. *)
Definition captured (st : State) (id : string) : option IntegrationRevision := find_last (has_id id) (State_IntegrationRevisions st).
Definition configured_repository (st : State) (product : string) (r : Recipe) : bool :=
  existsb (fun repo => (ID repo == Recipe_RepositoryID r) && (ProductID repo == product)
    && (Repository_URL repo == Recipe_RepositoryURL r)) (State_Repositories st).
Definition queued_job (c : Command) (input : QueueInput) (requestHash : string) (r : Recipe) (inputs : WorkerInputs)
    (integrationID : string) (m : Meta) (op : string) : WorkerJob :=
  (zero : WorkerJob) <| WorkerJob_Meta := m |> <| WorkerJob_OperationID := op |>
    <| WorkerJob_RequestKey := QueueInput_RequestKey input |> <| WorkerJob_RequestHash := requestHash |>
    <| WorkerJob_IntegrationID := integrationID |> <| WorkerJob_Capability := Recipe_Capability r |>
    <| WorkerJob_Inputs := inputs |> <| WorkerJob_InputHash := Fingerprint inputs |> <| WorkerJob_Status := "QUEUED" |>
    <| WorkerJob_Deadline := QueueInput_Deadline input |> <| WorkerJob_MaxAttempts := QueueInput_MaxAttempts input |>.
Definition queued_operation (m : Meta) (integrationID repositoryID requestedBy : string) : ExternalOperation :=
  (zero : ExternalOperation) <| ExternalOperation_Meta := m |> <| ExternalOperation_Kind := WorkerOperationKind |>
    <| ExternalOperation_IntegrationID := integrationID |> <| ExternalOperation_RepositoryID := repositoryID |>
    <| ExternalOperation_RequestedBy := requestedBy |> <| ExternalOperation_Status := "PENDING" |>
    <| ExternalOperation_Phase := "EXTERNAL_QUEUED" |>.
Definition queue_inputs (r : Recipe) (input : QueueInput) (rev : IntegrationRevision) (patch : option IntelligencePatchBinding) : WorkerInputs :=
  (zero : WorkerInputs) <| WorkerInputs_IntelligencePatch := patch |> <| WorkerInputs_Check := Recipe_Check r |>
    <| WorkerInputs_RecipeID := Recipe_ID r |> <| WorkerInputs_RecipeRevision := Recipe_Revision r |>
    <| WorkerInputs_RecipeHash := Recipe_Hash r |> <| WorkerInputs_ConfigRevision := QueueInput_ConfigRevision input |>
    <| WorkerInputs_RepositoryID := Recipe_RepositoryID r |> <| WorkerInputs_RepositoryURL := Recipe_RepositoryURL r |>
    <| WorkerInputs_RevisionID := ID rev |> <| WorkerInputs_SourceSHA := IntegrationRevision_HeadCommit rev |>
    <| WorkerInputs_Trust := Recipe_Trust r |> <| WorkerInputs_Parameters := QueueInput_Parameters input |>
    <| WorkerInputs_Execution := Recipe_Execution r |>.
Definition enqueue (w : Authority) (actor action : string) (now : Time) (op : ExternalOperation) (j : WorkerJob) (st : State)
    : res (State * WorkerJob) :=
  let st := st <| State_Operations ::= fun l => l ++ [op] |> <| State_WorkerJobs ::= fun l => l ++ [j] |> in
  st ← queueWorkerCheck w check_provider st (ID j);
  let st := workerAudit (length (State_WorkerJobs st) - 1) actor action now st in
  match workerJob st (ID j) with Some j => Ok (st, j) | None => Err ErrPanic end.
Definition accept_job (w : Authority) (c : Command) (input : QueueInput) (requestHash : string) (now : Time) (st : State)
    : res (State * WorkerJob) :=
  match recipe w (QueueInput_RecipeID input) with
  | None => invalid "recipe or configuration identity mismatch" []
  | Some r =>
    _ ← reject_if ((QueueInput_RecipeRevision input != Recipe_Revision r) || (QueueInput_RecipeHash input != Recipe_Hash r)
          || (QueueInput_ConfigRevision input != Revision w) || (Recipe_ProductID r != Command_ProductID c))
          (invalid "recipe or configuration identity mismatch" []);
    _ ← reject_if (negb (ValidateParameters r (QueueInput_Parameters input))) (invalid "invalid typed recipe parameters" []);
    _ ← reject_if ((QueueInput_MaxAttempts input <? 1)%Z || (10 <? QueueInput_MaxAttempts input)%Z
          || negb (After (QueueInput_Deadline input) now) || After (QueueInput_Deadline input) (now + hour)%Z)
          (invalid "worker bounds: deadline within one hour, attempts 1..10" []);
    match integration st (Command_IntegrationID c) with
    | None => invalid "integration outside product" []
    | Some inn =>
      _ ← reject_if (ProductID inn != Command_ProductID c) (invalid "integration outside product" []);
      match captured st (QueueInput_RevisionID input) with
      | None => invalid "captured source identity mismatch" []
      | Some rev =>
        _ ← reject_if ((ProductID rev != Command_ProductID c) || (IntegrationRevision_IntegrationID rev != ID inn)
              || (IntegrationRevision_RepositoryID rev != Recipe_RepositoryID r)
              || (IntegrationRevision_HeadCommit rev != QueueInput_SourceSHA input) || negb (fullSHA (QueueInput_SourceSHA input)))
              (invalid "captured source identity mismatch" []);
        _ ← reject_if (negb (configured_repository st (Command_ProductID c) r)) (invalid "configured repository identity mismatch" []);
        patch ← bindIntelligencePatch st r (QueueInput_IntelligenceTaskID input) (Command_ProductID c)
                  (QueueInput_SourceSHA input) (Command_IntegrationID c);
        let inputs := queue_inputs r input rev patch in
        let m := mkMeta (fresh "queueOperation" 0) (Command_ProductID c) (FeatureID inn) (Command_Actor c) now now in
        let op := queued_operation m (ID inn) (Recipe_RepositoryID r) (Command_Actor c) in
        enqueue w (Command_Actor c) (Command_Action c) now op
          (queued_job c input requestHash r inputs (ID inn) (m <| Meta_ID := fresh "queueJob" 0 |>) (ID op)) st
      end
    end
  end.
Definition queue_worker_job (w : Authority) (c : Command) (now : Time) (st : State) : res (State * WorkerJob) :=
  _ ← reject_if (negb (no_scope c && (Command_ID c == ""))) (invalid "unexpected queue metadata" []);
  input ← decode (Command_Data c) (zero : QueueInput);
  _ ← reject_if (negb (workerRequestKey (QueueInput_RequestKey input)) || reserved_key (QueueInput_RequestKey input))
        (invalid "request_key must contain 16..128 identifier characters" []);
  let requestHash := Fingerprint (Command_ProductID c, Command_IntegrationID c, Command_Actor c, input) in
  match find_first (fun j => (ProductID j == Command_ProductID c) && (WorkerJob_RequestKey j == QueueInput_RequestKey input))
          (State_WorkerJobs st) with
  | Some previous =>
    if WorkerJob_RequestHash previous != requestHash then invalid "request_key already names different immutable inputs" []
    else Ok (st, previous)
  | None => accept_job w c input requestHash now st
  end.
Definition quarantined_build (w : Authority) (c : Command) (st : State) : bool :=
  nativeQuarantined st (Command_ProductID c)
  && match Command_Data c !! "recipe_id" with
     | Some (JStr id) => match recipe w id with Some r => Recipe_Capability r == "local_oci_build" | None => false end
     | _ => match recipe w "" with Some r => Recipe_Capability r == "local_oci_build" | None => false end
     end.
Definition executeWorkerCommand (st : State) (c : Command) : res (State * WorkerJob) :=
  match workers with
  | None => invalid "external workers disabled" []
  | Some w =>
    _ ← reject_if (blank (Command_Actor c)) (invalid "actor required" []);
    let t := now "executeWorkerCommand" 0 in
    if Command_Action c == "queue_worker_job" then
      _ ← reject_if (quarantined_build w c st) (invalid "native product quarantined after restore" []);
      queue_worker_job w c t st
    else steer_worker_job c t st
  end.

(** ** Claims *)
Definition claim_filter (w : Authority) (r : WorkerClaim) : res unit :=
  _ ← reject_if (negb (Bool.eqb (WorkerClaim_RecipeID r == "") (WorkerClaim_RecipeHash r == "")))
        (invalid "exact recipe claim filter required" []);
  if WorkerClaim_RecipeID r == "" then Ok ()
  else if WorkerClaim_Capability r == "registry_observe" then
    reject_if match observation w (WorkerClaim_RecipeID r) with
              | None => true
              | Some o => (RegistryObserveRecipe_Hash o != WorkerClaim_RecipeHash r) || (RegistryObserveRecipe_ProductID o != WorkerClaim_ProductID r)
                          || (RegistryObserveRecipe_RepositoryID o != WorkerClaim_RepositoryID r)
              end (invalid "invalid registry observation claim filter" [])
  else if WorkerClaim_Capability r == "registry_publish" then
    reject_if match publication w (WorkerClaim_RecipeID r) with
              | None => true
              | Some o => (PublicationRecipe_Hash o != WorkerClaim_RecipeHash r) || (PublicationRecipe_ProductID o != WorkerClaim_ProductID r)
                          || (PublicationRecipe_RepositoryID o != WorkerClaim_RepositoryID r)
              end (invalid "invalid publication claim filter" [])
  else
    reject_if match recipe w (WorkerClaim_RecipeID r) with
              | None => true
              | Some o => (Recipe_Hash o != WorkerClaim_RecipeHash r) || (Recipe_Capability o != WorkerClaim_Capability r)
                          || (Recipe_ProductID o != WorkerClaim_ProductID r) || (Recipe_RepositoryID o != WorkerClaim_RepositoryID r)
              end (invalid "invalid recipe claim filter" []).
Definition may_act (w : Authority) (p : WorkerPrincipal) (product repo capability : string) (now : Time) : bool :=
  Current w p now && Allows p product repo capability now.
Definition native_capability (capability : string) : bool :=
  (capability == "registry_observe") || (capability == "registry_publish") || (capability == "local_oci_build").
Definition claimed_scope (r : WorkerClaim) (j : WorkerJob) : bool :=
  (ProductID j == WorkerClaim_ProductID r) && (WorkerInputs_RepositoryID (WorkerJob_Inputs j) == WorkerClaim_RepositoryID r)
  && (WorkerJob_Capability j == WorkerClaim_Capability r)
  && ((WorkerClaim_RecipeID r == "")
      || ((WorkerInputs_RecipeID (WorkerJob_Inputs j) == WorkerClaim_RecipeID r)
          && (WorkerInputs_RecipeHash (WorkerJob_Inputs j) == WorkerClaim_RecipeHash r))).
Definition job_authorised (w : Authority) (st : State) (j : WorkerJob) : bool :=
  workerConfigMatches w j
  && (negb (WorkerJob_Capability j == "registry_observe") || is_ok (registryWorkerAllowed w st j))
  && is_ok (managedWorkerAllowed st j)
  && match WorkerInputs_Check (WorkerJob_Inputs j) with
     | None => true
     | Some _ => is_ok (checkAuthority w st (operationByID st (WorkerJob_CheckOperationID j)) false)
     end.
Definition attachIntelligencePatch (st : State) (lease : WorkerLease) : res WorkerLease :=
  match WorkerInputs_IntelligencePatch (WorkerJob_Inputs (WorkerLease_Job lease)) with
  | None => Ok lease
  | Some _ =>
    raw ← intelligencePatch st (WorkerLease_Job lease);
    Ok (mkWorkerLease (Some raw) (WorkerLease_Job lease) (WorkerLease_Attempt lease))
  end.
Definition lease_end (w : Authority) (j : WorkerJob) (now : Time) : Time :=
  let until := (now + Lease w)%Z in if After until (WorkerJob_Deadline j) then WorkerJob_Deadline j else until.
Definition park_job (i : nat) (j : WorkerJob) (status action : string) (now : Time) (st : State) : State :=
  workerAudit i "system/worker-recovery" action now (set_job i (j <| WorkerJob_Status := status |>) st).
Definition granted_job (j : WorkerJob) : WorkerJob :=
  j <| WorkerJob_Fence ::= fun f => wrap_uint64 (f + 1) |> <| WorkerJob_Status := "CLAIMED" |>.
Definition new_attempt (w : Authority) (p : WorkerPrincipal) (i : nat) (j : WorkerJob) (now : Time) : WorkerAttempt :=
  (zero : WorkerAttempt) <| WorkerAttempt_Meta := mkMeta (fresh "ClaimWorker" i) (ProductID j) (FeatureID j) (PrincipalID p) now now |>
    <| WorkerAttempt_JobID := ID j |> <| WorkerAttempt_Principal := PrincipalID p |> <| WorkerAttempt_Fence := WorkerJob_Fence j |>
    <| WorkerAttempt_InputHash := WorkerJob_InputHash j |> <| WorkerAttempt_LeaseUntil := lease_end w j now |>
    <| WorkerAttempt_Status := "CLAIMED" |>.
Definition grant (w : Authority) (p : WorkerPrincipal) (i : nat) (j : WorkerJob) (now : Time) (st : State) : res (State * WorkerLease) :=
  let j := granted_job j in
  let a := new_attempt w p i j now in
  let st := set_job i j st <| State_WorkerAttempts ::= fun l => l ++ [a] |> in
  let st := workerAudit i (PrincipalID p) "worker_claimed" now st in
  match job_at st i with
  | None => Err ErrPanic
  | Some j => lease ← attachIntelligencePatch st (mkWorkerLease None j a); Ok (st, lease)
  end.
Definition claim_queued (w : Authority) (p : WorkerPrincipal) (i : nat) (j : WorkerJob) (now : Time) (st : State)
    : res (State * option WorkerLease) :=
  if negb (is_ok (intelligencePatch st j)) then
    Ok (park_job i j "RECONCILIATION_REQUIRED" "worker_patch_stale" now st, None)
  else if negb (job_authorised w st j) then
    Ok (park_job i j "RECONCILIATION_REQUIRED" "worker_configuration_changed" now st, None)
  else if negb (checkInitialReady st j) then Ok (st, None)
  else if (wrap_uint64 (WorkerJob_MaxAttempts j) <=? WorkerJob_Fence j)%Z then
    Ok (park_job i j "FAILED" "worker_attempts_exhausted" now st, None)
  else '(st, lease) ← grant w p i j now st; Ok (st, Some lease).
Definition claim_job (w : Authority) (p : WorkerPrincipal) (r : WorkerClaim) (now : Time) (acc : State * option WorkerLease) (i : nat)
    : res (State * option WorkerLease) :=
  let '(st, out) := acc in
  match job_at st i with
  | None => Ok (st, out)
  | Some j =>
    if negb (claimed_scope r j) || (native_capability (WorkerJob_Capability j) && nativeQuarantined st (ProductID j)) then Ok (st, out)
    else
      let st := recoverWorker i now st in
      match job_at st i with
      | None => Ok (st, out)
      | Some j =>
        if (WorkerJob_Status j != "QUEUED") || is_some out then Ok (st, out) else claim_queued w p i j now st
      end
  end.
Definition ClaimWorker (p : WorkerPrincipal) (r : WorkerClaim) (st : State) : res (State * option WorkerLease) :=
  match workers with
  | None => invalid "external workers disabled" []
  | Some w =>
    _ ← claim_filter w r;
    let allowed t := may_act w p (WorkerClaim_ProductID r) (WorkerClaim_RepositoryID r) (WorkerClaim_Capability r) t in
    _ ← reject_if (negb (allowed (now "ClaimWorker" 0))) (invalid "worker scope denied" []);
    let t := now "ClaimWorker" 1 in
    _ ← reject_if (negb (allowed t)) (invalid "worker scope expired" []);
    foldM (claim_job w p r t) (st, None) (seq 0 (length (State_WorkerJobs st)))
  end.

(** ** Requests of the holder of an attempt *)
Inductive WorkerAction : Type :=
| ActStart
| ActHeartbeat
| ActReport (report : WorkerReport).
Definition action_name (action : WorkerAction) : string :=
  match action with ActStart => "worker_start" | ActHeartbeat => "worker_heartbeat" | ActReport _ => "worker_report" end.
Definition owns_attempt (p : WorkerPrincipal) (r : WorkerAttemptRequest) (j : WorkerJob) (a : WorkerAttempt) : bool :=
  (WorkerAttempt_JobID a == ID j) && (WorkerAttempt_Fence a == WorkerAttemptRequest_Fence r)
  && (WorkerJob_Fence j == WorkerAttemptRequest_Fence r) && (WorkerAttempt_InputHash a == WorkerAttemptRequest_InputHash r)
  && (WorkerJob_InputHash j == WorkerAttemptRequest_InputHash r) && (WorkerAttempt_Principal a == PrincipalID p).
Definition lease_of (j : WorkerJob) (a : WorkerAttempt) : WorkerLease := mkWorkerLease None j a.
(** A report that was already accepted is answered again when it is the same. *)
Definition replay_report (st : State) (j : WorkerJob) (a : WorkerAttempt) (accepted report : WorkerReport) : res WorkerLease :=
  if accepted == report then _ ← nativeWorkerOrigin st j; Ok (lease_of j a)
  else invalid "conflicting report replay" [].
Definition still_authorised (w : Authority) (st : State) (j : WorkerJob) : res unit :=
  _ ← (match WorkerInputs_Check (WorkerJob_Inputs j) with
       | None => Ok ()
       | Some _ => checkAuthority w st (operationByID st (WorkerJob_CheckOperationID j)) false
       end);
  _ ← (_ ← intelligencePatch st j; Ok ());
  managedWorkerAllowed st j.
Definition lease_broken (w : Authority) (st : State) (j : WorkerJob) (a : WorkerAttempt) (now : Time) : bool :=
  ((WorkerJob_Capability j == "registry_publish") && nativeQuarantined st (ProductID j)) || negb (workerConfigMatches w j)
  || negb (Before now (WorkerAttempt_LeaseUntil a)) || negb (Before now (WorkerJob_Deadline j)) || WorkerJob_CancellationRequested j
  || workerTerminal (WorkerJob_Status j) || (WorkerJob_Status j == "RECONCILIATION_REQUIRED").
Definition valid_report (j : WorkerJob) (a : WorkerAttempt) (r : WorkerReport) (now : Time) : res unit :=
  _ ← reject_if match WorkerInputs_IntelligencePatch (WorkerJob_Inputs j) with
                | Some b => (WorkerReport_EvidenceHash r != IntelligencePatchBinding_ResultFingerprint b) || is_some (WorkerReport_LocalOCI r)
                | None => false
                end (invalid "patch report must bind exact checked proposal and cannot publish an image" []);
  _ ← reject_if (negb (contains ["PASSED"; "CHECK_FAILED"; "EXECUTOR_FAILED"] (WorkerReport_Result r))
        || ((WorkerReport_EvidenceHash r != "") && negb (is_digest (WorkerReport_EvidenceHash r))))
        (invalid "invalid bounded worker result" []);
  if WorkerJob_Capability j == "registry_observe" then
    reject_if (negb (ValidateRegistryWorkerReport j a r now)) (invalid "invalid registry observation report" [])
  else validateWorkerLocalOCI j a r.
Definition reported_status (r : WorkerReport) : string := if WorkerReport_Result r == "PASSED" then "SUCCEEDED" else "FAILED".
(** The job and attempt an action leaves. *)
Definition act_on (w : Authority) (action : WorkerAction) (j : WorkerJob) (a : WorkerAttempt) (now : Time) : res (WorkerJob * WorkerAttempt) :=
  match action with
  | ActStart =>
    _ ← reject_if (WorkerJob_Status j != "CLAIMED") (invalid "start requires CLAIMED" []);
    Ok (j <| WorkerJob_Status := "RUNNING" |>, a <| WorkerAttempt_Status := "RUNNING" |>)
  | ActHeartbeat =>
    _ ← reject_if ((WorkerJob_Status j != "CLAIMED") && (WorkerJob_Status j != "RUNNING")) (invalid "heartbeat requires active attempt" []);
    Ok (j, a <| WorkerAttempt_LeaseUntil := lease_end w j now |>)
  | ActReport r =>
    _ ← reject_if (WorkerJob_Status j != "RUNNING") (invalid "report requires RUNNING" []);
    _ ← valid_report j a r now;
    Ok (j <| WorkerJob_Status := reported_status r |>,
        a <| WorkerAttempt_Status := reported_status r |> <| WorkerAttempt_Report := Some r |>)
  end.
Definition admit_inventory (j : WorkerJob) (a : WorkerAttempt) (action : WorkerAction) (now : Time) (st : State) : res State :=
  match action with
  | ActReport r =>
    if (WorkerJob_Capability j == "registry_observe") && (WorkerReport_Result r == "PASSED") then
      match WorkerReport_Registry r with
      | Some v => Ok (admitRegistryInventory st j a v now)
      | None => Err ErrPanic
      end
    else Ok st
  | _ => Ok st
  end.
Definition perform (w : Authority) (p : WorkerPrincipal) (i k : nat) (action : WorkerAction) (now : Time) (j : WorkerJob) (a : WorkerAttempt)
    (st : State) : res (State * WorkerLease) :=
  '(j, a) ← act_on w action j a now;
  let st := set_attempt k a (set_job i j st) in
  st ← admit_inventory j a action now st;
  let a := a <| WorkerAttempt_Meta ::= fun m => m <| Meta_UpdatedAt := now |> |> in
  let st := workerAudit i (PrincipalID p) (action_name action) now (set_attempt k a st) in
  match job_at st i with
  | None => Err ErrPanic
  | Some j => lease ← attachIntelligencePatch st (lease_of j a); Ok (st, lease)
  end.
(** After the guards: the lease is looked at, and a request too late leaves
    what the recovery did and is rejected. *)
Definition mutate_current (w : Authority) (p : WorkerPrincipal) (i k : nat) (action : WorkerAction) (now : Time) (st : State)
    : res (State * res WorkerLease) :=
  let st := recoverWorker i now st in
  match job_at st i, State_WorkerAttempts st !! k with
  | Some j, Some a =>
    if lease_broken w st j a now then Ok (st, invalid "worker lease or immutable inputs invalid" [])
    else match action with
    | ActStart =>
      if (WorkerJob_Status j == "RUNNING") && (WorkerAttempt_Status a == "RUNNING") then Ok (st, Ok (lease_of j a))
      else '(st, lease) ← perform w p i k action now j a st; Ok (st, Ok lease)
    | _ => '(st, lease) ← perform w p i k action now j a st; Ok (st, Ok lease)
    end
  | _, _ => Err ErrPanic
  end.
Definition mutate_owned (w : Authority) (p : WorkerPrincipal) (i k : nat) (action : WorkerAction) (now : Time) (j : WorkerJob)
    (a : WorkerAttempt) (st : State) : res (State * res WorkerLease) :=
  _ ← reject_if (native_capability (WorkerJob_Capability j) && nativeQuarantined st (ProductID j))
        (invalid "native product quarantined after restore" []);
  _ ← (if WorkerJob_Capability j == "registry_observe" then registryWorkerAllowed w st j else Ok ());
  match action, WorkerAttempt_Report a with
  | ActReport r, Some accepted => lease ← replay_report st j a accepted r; Ok (st, Ok lease)
  | _, _ => _ ← still_authorised w st j; mutate_current w p i k action now st
  end.
Definition mutateWorker (p : WorkerPrincipal) (r : WorkerAttemptRequest) (action : WorkerAction) (st : State) : res (State * res WorkerLease) :=
  match workers with
  | None => invalid "external workers disabled" []
  | Some w =>
    let t := now "mutateWorker" 0 in
    let denied := invalid "worker ownership or scope denied" [] in
    match job_index st (WorkerAttemptRequest_JobID r), attempt_index st (WorkerAttemptRequest_AttemptID r) with
    | Some i, Some k =>
      match job_at st i, State_WorkerAttempts st !! k with
      | Some j, Some a =>
        if negb (owns_attempt p r j a && may_act w p (ProductID j) (WorkerInputs_RepositoryID (WorkerJob_Inputs j)) (WorkerJob_Capability j) t)
        then denied
        else mutate_owned w p i k action t j a st
      | _, _ => denied
      end
    | _, _ => denied
    end
  end.
Definition StartWorker p r := mutateWorker p r ActStart.
Definition HeartbeatWorker p r := mutateWorker p r ActHeartbeat.
End protocol.

(** * Properties *)
(** ** What every step keeps *)
Definition job_core (j : WorkerJob) : string * (Z * Z) := (ID j, (WorkerJob_Fence j, WorkerJob_MaxAttempts j)).
Definition attempt_core (a : WorkerAttempt) : string * Z := (WorkerAttempt_JobID a, WorkerAttempt_Fence a).
(** The inputs of a job are immutable and its end is final. *)
Record JobKept (j j' : WorkerJob) : Prop := {
  kept_id : ID j' = ID j;
  kept_inputs : WorkerJob_Inputs j' = WorkerJob_Inputs j /\ WorkerJob_InputHash j' = WorkerJob_InputHash j;
  kept_bounds : WorkerJob_Deadline j' = WorkerJob_Deadline j /\ WorkerJob_MaxAttempts j' = WorkerJob_MaxAttempts j;
  kept_end : workerTerminal (WorkerJob_Status j) = true ->
    WorkerJob_Status j' = WorkerJob_Status j /\ WorkerJob_Fence j' = WorkerJob_Fence j;
}.
(** An attempt belongs to one job, fence and principal, and its report is final. *)
Record AttemptKept (a a' : WorkerAttempt) : Prop := {
  kept_attempt : ID a' = ID a /\ attempt_core a' = attempt_core a;
  kept_owner : WorkerAttempt_Principal a' = WorkerAttempt_Principal a /\ WorkerAttempt_InputHash a' = WorkerAttempt_InputHash a;
  kept_report : forall r, WorkerAttempt_Report a = Some r -> WorkerAttempt_Report a' = Some r;
}.
Definition rows_kept {A} (K : A -> A -> Prop) (l l' : list A) : Prop :=
  forall i x, l !! i = Some x -> exists x', l' !! i = Some x' /\ K x x'.
Definition WorkKept (st st' : State) : Prop :=
  rows_kept JobKept (State_WorkerJobs st) (State_WorkerJobs st') /\ rows_kept AttemptKept (State_WorkerAttempts st) (State_WorkerAttempts st').
Definition same_core (st st' : State) : Prop :=
  map job_core (State_WorkerJobs st') = map job_core (State_WorkerJobs st)
  /\ map attempt_core (State_WorkerAttempts st') = map attempt_core (State_WorkerAttempts st).
(** A step that grants nothing and queues nothing. *)
Definition Frame (st st' : State) : Prop := WorkKept st st' /\ same_core st st'.

#[export] Instance JobKept_preorder : PreOrder JobKept.
Proof.
  split; [intros j; constructor; auto|]. intros x y z [Hi [Hn Hh] [Hd Hm] He] [Hi' [Hn' Hh'] [Hd' Hm'] He'].
  constructor; [congruence|split; congruence..|]. intros Ht. destruct (He Ht) as [Hs Hf]. destruct He' as [Hs' Hf']; [congruence|].
  split; congruence.
Qed.
#[export] Instance AttemptKept_preorder : PreOrder AttemptKept.
Proof.
  split; [intros a; constructor; auto|]. intros x y z [[Hi Hc] [Hp Hh] Hr] [[Hi' Hc'] [Hp' Hh'] Hr'].
  constructor; [split; congruence..|]. auto.
Qed.
Lemma rows_kept_refl {A} (K : A -> A -> Prop) `{!PreOrder K} l : rows_kept K l l.
Proof. intros i x Hx. exists x. split; [exact Hx|reflexivity]. Qed.
Lemma rows_kept_trans {A} (K : A -> A -> Prop) `{!PreOrder K} l l' l'' : rows_kept K l l' -> rows_kept K l' l'' -> rows_kept K l l''.
Proof.
  intros H1 H2 i x Hx. destruct (H1 i x Hx) as (x' & Hx' & K1). destruct (H2 i x' Hx') as (x'' & Hx'' & K2).
  exists x''. split; [exact Hx''|]. etransitivity; eassumption.
Qed.
Lemma rows_kept_insert {A} (K : A -> A -> Prop) `{!PreOrder K} (l : list A) i x y : l !! i = Some x -> K x y -> rows_kept K l (<[i := y]> l).
Proof.
  intros Hi HK k z Hz. destruct (decide (i = k)) as [<-|Hne].
  - exists y. split; [apply list_lookup_insert_eq; eapply lookup_lt_Some, Hi|]. congruence.
  - exists z. rewrite list_lookup_insert_ne by exact Hne. split; [exact Hz|reflexivity].
Qed.
Lemma rows_kept_app {A} (K : A -> A -> Prop) `{!PreOrder K} (l t : list A) : rows_kept K l (l ++ t).
Proof. intros i x Hx. exists x. split; [apply lookup_app_l_Some, Hx|reflexivity]. Qed.
#[export] Instance WorkKept_preorder : PreOrder WorkKept.
Proof.
  split; [intros st; split; apply rows_kept_refl; exact _|].
  intros x y z [H1 H2] [H3 H4]. split; eapply rows_kept_trans; eauto; exact _.
Qed.
#[export] Instance Frame_preorder : PreOrder Frame.
Proof.
  split; [intros st; split; [reflexivity|split; reflexivity]|].
  intros x y z [H1 [H2 H3]] [H4 [H5 H6]]. split; [etransitivity; eassumption|split; congruence].
Qed.
Lemma frame_same st st' : State_WorkerJobs st' = State_WorkerJobs st -> State_WorkerAttempts st' = State_WorkerAttempts st -> Frame st st'.
Proof.
  intros Hj Ha. unfold Frame, WorkKept, same_core. rewrite Hj, Ha.
  split; [split; apply rows_kept_refl; exact _|split; reflexivity].
Qed.
Lemma map_insert_same {A B} (f : A -> B) (l : list A) i x y : l !! i = Some x -> f y = f x -> map f (<[i := y]> l) = map f l.
Proof.
  intros Hi Hf. apply list_eq. intros k. rewrite !lookup_map. destruct (decide (i = k)) as [<-|Hne].
  - rewrite list_lookup_insert_eq by (eapply lookup_lt_Some, Hi). rewrite Hi. cbn. rewrite Hf. reflexivity.
  - rewrite list_lookup_insert_ne by exact Hne. reflexivity.
Qed.
Lemma frame_set_job i j j' st : job_at st i = Some j -> JobKept j j' -> WorkerJob_Fence j' = WorkerJob_Fence j ->
  Frame st (set_job i j' st).
Proof.
  intros Hi HK Hf. split.
  - split; [apply (rows_kept_insert JobKept _ _ j); assumption|apply rows_kept_refl; exact _].
  - split; [|reflexivity]. apply (map_insert_same job_core _ _ j); [exact Hi|]. unfold job_core.
    destruct HK as [Hid _ [_ Hm] _]. congruence.
Qed.
Lemma frame_set_attempt k a a' st : State_WorkerAttempts st !! k = Some a -> AttemptKept a a' -> Frame st (set_attempt k a' st).
Proof.
  intros Hk HK. split.
  - split; [apply rows_kept_refl; exact _|apply (rows_kept_insert AttemptKept _ _ a); assumption].
  - split; [reflexivity|]. apply (map_insert_same attempt_core _ _ a); [exact Hk|]. apply HK.
Qed.
Lemma settle_kept s t a : AttemptKept a (settle_attempt s t a).
Proof. constructor; auto. Qed.
Lemma rows_kept_alter {A} (K : A -> A -> Prop) `{!PreOrder K} f (l : list A) k : (forall x, K x (f x)) -> rows_kept K l (alter f k l).
Proof.
  intros Hf i x Hx. destruct (decide (k = i)) as [<-|Hne].
  - exists (f x). rewrite list_lookup_alter_eq, Hx. auto.
  - exists x. rewrite list_lookup_alter_ne by exact Hne. split; [exact Hx|reflexivity].
Qed.
Lemma map_alter_same {A B} (g : A -> B) f (l : list A) k : (forall x, g (f x) = g x) -> map g (alter f k l) = map g l.
Proof.
  intros Hf. apply list_eq. intros i. rewrite !lookup_map. destruct (decide (k = i)) as [<-|Hne].
  - rewrite list_lookup_alter_eq. destruct (l !! k); cbn; [rewrite Hf|]; reflexivity.
  - rewrite list_lookup_alter_ne by exact Hne. reflexivity.
Qed.
Lemma frame_settle j s t st : Frame st (settle_current j s t st).
Proof.
  unfold settle_current. destruct (currentWorkerAttempt st j) as [k|]; [|reflexivity]. split.
  - split; [apply rows_kept_refl; exact _|]. apply rows_kept_alter; [exact _|apply settle_kept].
  - split; [reflexivity|]. apply map_alter_same. reflexivity.
Qed.
Section frames.
Context `{World}.
Lemma frame_audit i actor action t st : Frame st (workerAudit i actor action t st).
Proof using Type.
  unfold workerAudit. destruct (job_at st i) as [j|] eqn:Hj; [|reflexivity].
  transitivity (set_job i (j <| WorkerJob_Meta ::= fun m => m <| Meta_UpdatedAt := t |> |>) st); [|apply frame_same; reflexivity].
  eapply frame_set_job; [exact Hj| |reflexivity]. constructor; auto.
Qed.
Lemma frame_recover i t st : Frame st (recoverWorker i t st).
Proof using Type.
  unfold recoverWorker. destruct (job_at st i) as [j|] eqn:Hj; [|reflexivity].
  destruct (workerTerminal (WorkerJob_Status j)) eqn:Ht; [reflexivity|]. cbn [orb].
  destruct (WorkerJob_Status j == "RECONCILIATION_REQUIRED"); [reflexivity|]. destruct (_ || _); [|reflexivity].
  etransitivity; [|apply frame_audit]. etransitivity; [|apply frame_settle].
  eapply frame_set_job; [exact Hj| |reflexivity]. constructor; [reflexivity|split; reflexivity..|congruence].
Qed.
Lemma frame_park i j s action t st : job_at st i = Some j -> workerTerminal (WorkerJob_Status j) = false ->
  Frame st (park_job i j s action t st).
Proof using Type.
  intros Hj Ht. unfold park_job. etransitivity; [|apply frame_audit].
  eapply frame_set_job; [exact Hj| |reflexivity]. constructor; [reflexivity|split; reflexivity..|congruence].
Qed.
Lemma frame_stop i j t st : job_at st i = Some j -> workerTerminal (WorkerJob_Status j) = false -> Frame st (stop_job i t st).
Proof using Type.
  intros Hj Ht. unfold stop_job. rewrite Hj. cbv zeta. etransitivity; [|apply frame_settle].
  eapply frame_set_job; [exact Hj| |reflexivity]. constructor; [reflexivity|split; reflexivity..|congruence].
Qed.
Lemma frame_stop_managed t st id : Frame st (stop_managed_job t st id).
Proof using Type.
  unfold stop_managed_job. destruct (job_index st id) as [i|]; [|reflexivity]. destruct (job_at st i) as [j|] eqn:Hj; [|reflexivity].
  destruct (workerTerminal _) eqn:Ht; [reflexivity|]. etransitivity; [apply (frame_stop i j); assumption|apply frame_audit].
Qed.
Lemma frame_stopNative id s d t st : Frame st (stopNativeDelivery id s d t st).
Proof using Type.
  unfold stopNativeDelivery. cbv zeta.
  set (st1 := st <| State_Operations ::= _ |>). assert (Frame st st1) as Hs by (apply frame_same; reflexivity).
  destruct (operationByID st1 id) as [op|]; [|exact Hs]. destruct (ExternalOperation_Native op) as [n|]; [|exact Hs].
  cbn [foldl]. etransitivity; [exact Hs|]. etransitivity; apply frame_stop_managed.
Qed.
End frames.

(** ** The leases as an abstract system *)
(** Jobs with their fence and the number of attempts they may have, and the
    attempts with the job and fence they were granted under. *)
Record Leases := mkLeases { lease_jobs : list (string * (Z * Z)); lease_attempts : list (string * Z) }.
Definition leases (st : State) : Leases :=
  mkLeases (map job_core (State_WorkerJobs st)) (map attempt_core (State_WorkerAttempts st)).
Inductive LeaseStep : Leases -> Leases -> Prop :=
| lease_queued jobs attempts id max :
    id ∉ jobs.*1 -> id ∉ attempts.*1 -> (1 <= max <= 10)%Z ->
    LeaseStep (mkLeases jobs attempts) (mkLeases (jobs ++ [(id, (0%Z, max))]) attempts)
| lease_granted jobs attempts i id fence max :
    jobs !! i = Some (id, (fence, max)) -> (fence < wrap_uint64 max)%Z ->
    LeaseStep (mkLeases jobs attempts)
      (mkLeases (<[i := (id, (wrap_uint64 (fence + 1), max))]> jobs) (attempts ++ [(id, wrap_uint64 (fence + 1))]))
| lease_removed jobs attempts jobs' attempts' :
    jobs' `sublist_of` jobs -> attempts' `sublist_of` attempts -> LeaseStep (mkLeases jobs attempts) (mkLeases jobs' attempts').
(** What one transaction does: its kept part and at most one lease step. *)
Definition Progress (st st' : State) : Prop := WorkKept st st' /\ rtc LeaseStep (leases st) (leases st').
Lemma leases_frame st st' : same_core st st' -> leases st' = leases st.
Proof. intros [H1 H2]. unfold leases. congruence. Qed.
Lemma frame_progress st st' : Frame st st' -> Progress st st'.
Proof. intros [Hk Hc]. split; [exact Hk|]. rewrite (leases_frame _ _ Hc). reflexivity. Qed.
#[export] Instance Progress_preorder : PreOrder Progress.
Proof.
  split; [intros st; apply frame_progress; reflexivity|]. intros x y z [H1 H2] [H3 H4].
  split; [etransitivity; eassumption|etransitivity; eassumption].
Qed.
#[export] Hint Resolve frame_progress frame_recover frame_audit frame_settle frame_stopNative : go.

Section steps.
Context `{Runtime, NetURL, URLs, Crypto, Hashing, World, WorkerPolicy, Encoding}.
Implicit Types (st : State) (w : Authority).

Lemma steer_progress c t st st' out : steer_worker_job c t st = Ok (st', out) -> Progress st st'.
Proof using Type.
  unfold steer_worker_job. intros Hs. apply bind_guard in Hs as [_ Hs]; [|discriminate].
  destruct (job_index st _) as [i|]; [|discriminate]. destruct (job_at st i) as [j|] eqn:Hj; [|discriminate].
  apply bind_guard in Hs as [_ Hs]; [|discriminate]. apply bind_Ok in Hs as (st1 & Hc & Hs).
  destruct (job_at st1 i); [|discriminate]. injection Hs as <- _. apply frame_progress.
  destruct (Command_Action c == "cancel_worker_job").
  - unfold cancel_worker_job in Hc. apply bind_Ok in Hc as (? & _ & Hc). apply bind_guard in Hc as [Ht Hc]; [|discriminate].
    destruct (WorkerInputs_SourceProof _) as [proof|].
    + unfold cancel_managed in Hc. destruct (operationByID _ _); [|discriminate]. apply bind_guard in Hc as [_ Hc]; [|discriminate].
      injection Hc as <-. auto with go.
    + injection Hc as <-. etransitivity; [apply (frame_stop i j); assumption|apply frame_audit].
  - destruct (Command_Action c == "reconcile_worker_job"); [|discriminate].
    unfold reconcile_worker_job in Hc. apply bind_Ok in Hc as (input & _ & Hc). apply bind_guard in Hc as [Hg Hc]; [|discriminate].
    injection Hc as <-. etransitivity; [|apply frame_audit]. etransitivity; [|apply frame_settle].
    eapply frame_set_job; [exact Hj| |reflexivity]. constructor; [reflexivity|split; reflexivity..|].
    apply orb_false_iff in Hg as [Hg _]. to_prop. rewrite Hg. discriminate.
Qed.
Lemma queueWorkerCheck_frame w prov st st' id : queueWorkerCheck w prov st id = Ok st' -> Frame st st'.
Proof using Type.
  unfold queueWorkerCheck. intros Hq. destruct (job_index st id) as [i|]; [|discriminate].
  destruct (job_at st i) as [j|] eqn:Hj; [|discriminate]. destruct (WorkerInputs_Check _) as [check|]; [|injection Hq as <-; reflexivity].
  apply bind_guard in Hq as [_ Hq]; [|discriminate]. apply bind_Ok in Hq as ([[source conn] physical] & _ & Hq).
  apply bind_guard in Hq as [_ Hq]; [|discriminate]. apply bind_Ok in Hq as (? & _ & Hq). apply bind_guard in Hq as [_ Hq]; [|discriminate].
  destruct (operationByID _ _) as [parent|]; [|discriminate]. apply bind_guard in Hq as [_ Hq]; [|discriminate].
  injection Hq as <-. etransitivity; [|apply frame_same; reflexivity].
  eapply frame_set_job; [exact Hj| |reflexivity]. constructor; [reflexivity|split; reflexivity..|auto].
Qed.
(** The identifier a queued job takes is not in use. *)
Definition FreshJob st : Prop := fresh "queueJob" 0 ∉ job_ids st /\ forall a, a ∈ State_WorkerAttempts st -> WorkerAttempt_JobID a <> fresh "queueJob" 0.
Lemma enqueue_progress w prov actor action t op j st st' out : enqueue prov w actor action t op j st = Ok (st', out) ->
  FreshJob st -> ID j = fresh "queueJob" 0 -> WorkerJob_Fence j = 0%Z -> (1 <= WorkerJob_MaxAttempts j <= 10)%Z -> Progress st st'.
Proof using Type.
  unfold enqueue. cbv zeta. set (st1 := st <| State_Operations ::= _ |> <| State_WorkerJobs ::= _ |>).
  intros He [Hf1 Hf2] Hid Hfence Hmax. apply bind_Ok in He as (st2 & Hq & He).
  destruct (workerJob _ _); [|discriminate]. injection He as <- _.
  transitivity st1.
  - split; [split; [apply rows_kept_app|apply rows_kept_refl]; exact _|]. apply rtc_once. unfold leases.
    assert (Hj : map job_core (State_WorkerJobs st1) = map job_core (State_WorkerJobs st) ++ [(ID j, (WorkerJob_Fence j, WorkerJob_MaxAttempts j))])
      by apply map_app.
    rewrite Hj, Hid, Hfence. change (State_WorkerAttempts st1) with (State_WorkerAttempts st). constructor; [| |exact Hmax].
    + intros Hin. apply Hf1. unfold job_ids. apply list_elem_of_fmap in Hin as ([x y] & -> & (j0 & Hj0 & Hin)%elem_of_map). injection Hj0 as -> _.
      apply elem_of_map. exists j0. auto.
    + intros Hin. apply list_elem_of_fmap in Hin as ([x y] & Hx & (a & Ha & Hin)%elem_of_map). injection Ha as -> _. apply (Hf2 a Hin). symmetry. exact Hx.
  - apply frame_progress. etransitivity; [eapply queueWorkerCheck_frame, Hq|apply frame_audit].
Qed.
Lemma command_progress workers prov st c st' out : executeWorkerCommand workers prov st c = Ok (st', out) -> FreshJob st -> Progress st st'.
Proof using Type.
  unfold executeWorkerCommand. intros He Hfresh. destruct workers as [w|]; [|discriminate].
  apply bind_guard in He as [_ He]; [|discriminate]. cbv zeta in He.
  destruct (Command_Action c == "queue_worker_job"); [|eapply steer_progress, He].
  apply bind_guard in He as [_ He]; [|discriminate]. unfold queue_worker_job in He.
  apply bind_guard in He as [_ He]; [|discriminate]. apply bind_Ok in He as (input & _ & He).
  apply bind_guard in He as [_ He]; [|discriminate]. cbv zeta in He.
  destruct (find_first _ _) as [previous|].
  { destruct (_ != _); [discriminate|]. injection He as <- _. reflexivity. }
  unfold accept_job in He. destruct (recipe w _) as [r|]; [|discriminate]. apply bind_guard in He as [_ He]; [|discriminate].
  apply bind_guard in He as [_ He]; [|discriminate]. apply bind_guard in He as [Hb He]; [|discriminate].
  destruct (integration _ _) as [inn|]; [|discriminate]. apply bind_guard in He as [_ He]; [|discriminate].
  destruct (captured _ _) as [rev|]; [|discriminate]. apply bind_guard in He as [_ He]; [|discriminate].
  apply bind_guard in He as [_ He]; [|discriminate]. apply bind_Ok in He as (patch & _ & He).
  apply (enqueue_progress _ _ _ _ _ _ _ _ _ _ He Hfresh); [reflexivity|reflexivity|].
  change (1 <= QueueInput_MaxAttempts input <= 10)%Z. to_prop. lia.
Qed.

Lemma grant_progress w p i j t st st' lease : grant w p i j t st = Ok (st', lease) -> job_at st i = Some j ->
  WorkerJob_Status j = "QUEUED" -> (WorkerJob_Fence j < wrap_uint64 (WorkerJob_MaxAttempts j))%Z -> Progress st st'.
Proof using Type.
  unfold grant. cbv zeta. set (a := new_attempt w p i (granted_job j) t).
  set (st1 := set_job i (granted_job j) st <| State_WorkerAttempts ::= _ |>). intros Hg Hj Hs Hf.
  destruct (job_at _ i); [|discriminate]. apply bind_Ok in Hg as (? & _ & Hg). injection Hg as <- _.
  transitivity st1; [|apply frame_progress, frame_audit]. split.
  - split; [apply (rows_kept_insert JobKept _ _ j); [exact Hj|]|apply rows_kept_app; exact _].
    constructor; [reflexivity|split; reflexivity..|]. rewrite Hs. discriminate.
  - apply rtc_once. unfold leases.
    assert (E1 : map job_core (State_WorkerJobs st1) = <[i := (ID j, (wrap_uint64 (WorkerJob_Fence j + 1), WorkerJob_MaxAttempts j))]> (map job_core (State_WorkerJobs st)))
      by apply (list_fmap_insert job_core).
    assert (E2 : map attempt_core (State_WorkerAttempts st1) = map attempt_core (State_WorkerAttempts st) ++ [(ID j, wrap_uint64 (WorkerJob_Fence j + 1))])
      by apply map_app.
    rewrite E1, E2. constructor; [|exact Hf]. rewrite lookup_map. unfold job_at in Hj. rewrite Hj. reflexivity.
Qed.
Lemma claim_queued_progress w p i j t st st' out : claim_queued w p i j t st = Ok (st', out) -> job_at st i = Some j ->
  WorkerJob_Status j = "QUEUED" -> Progress st st'.
Proof using Type.
  unfold claim_queued. intros Hc Hj Hs. assert (Ht : workerTerminal (WorkerJob_Status j) = false) by (rewrite Hs; reflexivity).
  destruct (negb (is_ok _)); [injection Hc as <- _; apply frame_progress, frame_park; assumption|].
  destruct (negb (job_authorised _ _ _)); [injection Hc as <- _; apply frame_progress, frame_park; assumption|].
  destruct (negb (checkInitialReady _ _)); [injection Hc as <- _; reflexivity|].
  destruct (_ <=? _)%Z eqn:Hf; [injection Hc as <- _; apply frame_progress, frame_park; assumption|].
  apply bind_Ok in Hc as ([st1 lease] & Hg & Hc). injection Hc as <- _. apply Z.leb_gt in Hf. eapply grant_progress; eassumption.
Qed.
Lemma claim_job_progress w p r t st out i st' out' : claim_job w p r t (st, out) i = Ok (st', out') -> Progress st st'.
Proof using Type.
  unfold claim_job. intros Hc. destruct (job_at st i); [|injection Hc as <- _; reflexivity].
  destruct (_ || _); [injection Hc as <- _; reflexivity|].
  transitivity (recoverWorker i t st); [auto with go|]. destruct (job_at (recoverWorker i t st) i) as [j|] eqn:Hj; [|injection Hc as <- _; reflexivity].
  destruct (_ || _) eqn:Hs; [injection Hc as <- _; reflexivity|]. apply orb_false_iff in Hs as [Hs _]. to_prop.
  eapply claim_queued_progress; eassumption.
Qed.
Lemma claim_progress workers p r st st' out : ClaimWorker workers p r st = Ok (st', out) -> Progress st st'.
Proof using Type.
  unfold ClaimWorker. intros Hc. destruct workers as [w|]; [|discriminate]. apply bind_Ok in Hc as (? & _ & Hc).
  apply bind_guard in Hc as [_ Hc]; [|discriminate]. apply bind_guard in Hc as [_ Hc]; [|discriminate].
  apply (foldM_ind (fun acc => Progress st acc.1) _ _ _ _ Hc); [cbn; reflexivity|].
  intros [st1 o1] i [st2 o2] _ Hp Hi. cbn in *. etransitivity; [exact Hp|]. eapply claim_job_progress, Hi.
Qed.
Lemma act_on_kept w action j a t j' a' : act_on w action j a t = Ok (j', a') -> workerTerminal (WorkerJob_Status j) = false ->
  match action with ActReport _ => WorkerAttempt_Report a = None | _ => True end ->
  JobKept j j' /\ WorkerJob_Fence j' = WorkerJob_Fence j /\ AttemptKept a a'.
Proof using Type.
  unfold act_on. intros Ha Ht Hr. destruct action as [| |r]; apply bind_guard in Ha as [_ Ha]; try discriminate.
  - injection Ha as <- <-. split; [constructor; [reflexivity|split; reflexivity..|congruence]|]. split; [reflexivity|constructor; auto].
  - injection Ha as <- <-. split; [reflexivity|]. split; [reflexivity|constructor; auto].
  - apply bind_Ok in Ha as (? & _ & Ha). injection Ha as <- <-. split; [constructor; [reflexivity|split; reflexivity..|congruence]|].
    split; [reflexivity|]. constructor; [split; reflexivity..|]. intros r0 E. congruence.
Qed.
Lemma admit_work j a action t st st' : admit_inventory j a action t st = Ok st' -> same_work st st'.
Proof using Type.
  unfold admit_inventory. intros Ha. destruct action as [| |r]; try (injection Ha as <-; split; reflexivity).
  destruct (_ && _); [|injection Ha as <-; split; reflexivity]. destruct (WorkerReport_Registry r); [|discriminate].
  injection Ha as <-. split; reflexivity.
Qed.
Lemma perform_frame w p i k action t j a st st' lease : perform w p i k action t j a st = Ok (st', lease) ->
  job_at st i = Some j -> State_WorkerAttempts st !! k = Some a -> workerTerminal (WorkerJob_Status j) = false ->
  match action with ActReport _ => WorkerAttempt_Report a = None | _ => True end -> Frame st st'.
Proof using Type.
  unfold perform. intros Hp Hj Ha Ht Hr. apply bind_Ok in Hp as ([j' a'] & Hact & Hp).
  destruct (act_on_kept _ _ _ _ _ _ _ Hact Ht Hr) as (HKj & Hf & HKa).
  apply bind_Ok in Hp as (st2 & Hadm & Hp). cbv zeta in Hp. destruct (job_at _ i); [|discriminate].
  apply bind_Ok in Hp as (? & _ & Hp). injection Hp as <- _. apply admit_work in Hadm as [Hw1 Hw2].
  etransitivity; [eapply (frame_set_job i j j'); eassumption|].
  etransitivity; [eapply (frame_set_attempt k a a'); [exact Ha|exact HKa]|].
  etransitivity; [apply frame_same; eassumption|]. etransitivity; [|apply frame_audit].
  eapply (frame_set_attempt k a'); [|constructor; auto].
  rewrite Hw2. cbn. apply list_lookup_insert_eq. eapply lookup_lt_Some, Ha.
Qed.
(** Looking at a lease never takes a report away. *)
Lemma recover_report i t st k a a' : State_WorkerAttempts st !! k = Some a -> State_WorkerAttempts (recoverWorker i t st) !! k = Some a' ->
  WorkerAttempt_Report a' = WorkerAttempt_Report a.
Proof using Type.
  unfold recoverWorker. intros Ha. destruct (job_at st i) as [j|]; [|congruence].
  destruct (_ || _); [congruence|]. destruct (_ || _); [|congruence]. rewrite attempts_audit. unfold settle_current.
  destruct (currentWorkerAttempt _ j) as [k'|]; [|cbn; congruence]. intros Hk.
  change (alter (settle_attempt "EXPIRED" t) k' (State_WorkerAttempts st) !! k = Some a') in Hk. revert Hk.
  destruct (decide (k' = k)) as [->|Hne].
  - rewrite list_lookup_alter_eq, Ha. cbn. intros [= <-]. reflexivity.
  - rewrite list_lookup_alter_ne by exact Hne. congruence.
Qed.
Lemma mutate_current_frame w p i k action t st st' r a : mutate_current w p i k action t st = Ok (st', r) ->
  State_WorkerAttempts st !! k = Some a ->
  match action with ActReport _ => WorkerAttempt_Report a = None | _ => True end -> Frame st st'.
Proof using Type.
  unfold mutate_current. cbv zeta. intros Hm Ha Hr.
  destruct (job_at (recoverWorker i t st) i) as [j|] eqn:Hj; [|discriminate].
  destruct (State_WorkerAttempts (recoverWorker i t st) !! k) as [a1|] eqn:Ha1; [|discriminate].
  transitivity (recoverWorker i t st); [apply frame_recover|].
  destruct (lease_broken _ _ _ _ _) eqn:Hb; [injection Hm as <- _; reflexivity|].
  assert (Ht : workerTerminal (WorkerJob_Status j) = false).
  { unfold lease_broken in Hb. to_prop. assumption. }
  assert (Hr1 : match action with ActReport _ => WorkerAttempt_Report a1 = None | _ => True end).
  { destruct action; try exact I. rewrite (recover_report _ _ _ _ _ _ Ha Ha1). exact Hr. }
  destruct action; try (destruct (_ && _); [injection Hm as <- _; reflexivity|]);
    apply bind_Ok in Hm as ([st2 lease] & Hp & Hm); injection Hm as <- _; eapply perform_frame; eassumption.
Qed.
Lemma mutate_frame workers p r action st st' out : mutateWorker workers p r action st = Ok (st', out) -> Frame st st'.
Proof using Type.
  unfold mutateWorker. intros Hm. destruct workers as [w|]; [|discriminate]. cbv zeta in Hm.
  destruct (job_index st _) as [i|]; [|discriminate]. destruct (attempt_index st _) as [k|]; [|discriminate].
  destruct (job_at st i) as [j|] eqn:Hj; [|discriminate]. destruct (State_WorkerAttempts st !! k) as [a|] eqn:Ha; [|discriminate].
  destruct (negb _); [discriminate|]. unfold mutate_owned in Hm. apply bind_guard in Hm as [_ Hm]; [|discriminate].
  apply bind_Ok in Hm as (? & _ & Hm).
  destruct action as [| |rep]; [| |destruct (WorkerAttempt_Report a) eqn:Hr; [apply bind_Ok in Hm as (? & _ & Hm); injection Hm as <- _; reflexivity|]];
    apply bind_Ok in Hm as (? & _ & Hm); eapply mutate_current_frame; try eassumption; exact I.
Qed.
End steps.

(** ** Histories *)
Section histories.
Context `{Runtime, NetURL, URLs, Crypto, Hashing, Encoding}.

(** The transactions of the worker protocol and of the checks, each at its
    own time and under the configuration of its time; in between the rest of
    the program may do anything but touch jobs and attempts. *)
Inductive WorkerStep : State -> State -> Prop :=
| worker_command (W : World) (P : WorkerPolicy) workers prov st c st' out :
    executeWorkerCommand workers prov st c = Ok (st', out) -> FreshJob st -> WorkerStep st st'
| worker_claim (W : World) (P : WorkerPolicy) workers p r st st' out : ClaimWorker workers p r st = Ok (st', out) -> WorkerStep st st'
| worker_mutate (W : World) (P : WorkerPolicy) workers p r action st st' out :
    mutateWorker workers p r action st = Ok (st', out) -> WorkerStep st st'
| worker_recovery (W : World) i t st : WorkerStep st (recoverWorker i t st)
| worker_stop (W : World) id status detail t st : WorkerStep st (stopNativeDelivery id status detail t st)
| worker_other st st' : same_work st st' -> WorkerStep st st'.
Lemma worker_step_progress st st' : WorkerStep st st' -> Progress st st'.
Proof using Type.
  destruct 1 as [W P workers prov st c st' out He Hf|W P workers p r st st' out Hc|W P workers p r action st st' out Hm|W i t st|W id s d t st|st st' [H1' H2']].
  - eapply command_progress; eassumption.
  - eapply claim_progress, Hc.
  - eapply frame_progress, mutate_frame, Hm.
  - auto with go.
  - auto with go.
  - apply frame_progress, frame_same; assumption.
Qed.
Lemma worker_history_progress st st' : rtc WorkerStep st st' -> Progress st st'.
Proof using Type. induction 1 as [|x y z Hs _ IH]; [reflexivity|]. etransitivity; [apply worker_step_progress, Hs|exact IH]. Qed.

(** C23 whatever the workers, the commands and the rest of the program do, a
    job that has ended keeps its status and fence, every job keeps its inputs,
    deadline and number of attempts, and an attempt keeps its job, fence and
    principal, and its report once it has one. *)
Theorem worker_ends_are_final st st' : rtc WorkerStep st st' -> WorkKept st st'.
Proof using Type. intros Hr. apply worker_history_progress, Hr. Qed.
End histories.

(** ** Fences *)
(** A grant never repeats a fence and never exceeds the attempts of its job. *)
Record LeaseInv (c : Leases) : Prop := {
  li_ids : NoDup (lease_jobs c).*1;
  li_fence : forall id f m, (id, (f, m)) ∈ lease_jobs c -> (0 <= f <= m)%Z /\ (m <= 10)%Z;
  li_attempts : forall id g f m, (id, g) ∈ lease_attempts c -> (id, (f, m)) ∈ lease_jobs c -> (1 <= g <= f)%Z;
  li_distinct : NoDup (lease_attempts c);
}.
Lemma insert_keeps_ids (l : list (string * (Z * Z))) i id f m v : l !! i = Some (id, (f, m)) -> (<[i := (id, v)]> l).*1 = l.*1.
Proof. intros Hi. apply (map_insert_same fst _ _ (id, (f, m))); [exact Hi|reflexivity]. Qed.
Lemma job_row_unique (l : list (string * (Z * Z))) i id f m v : NoDup l.*1 -> l !! i = Some (id, (f, m)) -> (id, v) ∈ l -> v = (f, m).
Proof.
  intros Hn Hi [k Hk]%list_elem_of_lookup. assert (i = k) as <-; [|congruence].
  eapply (NoDup_lookup _ i k id Hn); rewrite list_lookup_fmap; [rewrite Hi|rewrite Hk]; reflexivity.
Qed.
Lemma map_sublist {A B} (f : A -> B) l l' : l `sublist_of` l' -> map f l `sublist_of` map f l'.
Proof. induction 1; cbn; constructor; assumption. Qed.
Lemma lease_step_inv c c' : LeaseStep c c' -> LeaseInv c -> LeaseInv c'.
Proof.
  intros [jobs attempts id max Hid Hat Hmax|jobs attempts i id fence max Hi Hlt|jobs attempts jobs' attempts' Hj Hs] [Hn Hf Ha Hd]; cbn in *.
  - constructor; cbn.
    + rewrite fmap_app. apply list.NoDup_app. split; [exact Hn|]. split; [set_solver|apply NoDup_singleton].
    + intros id' f m [Hin|Heq%list_elem_of_singleton]%elem_of_app; [eapply Hf, Hin|]. injection Heq as -> -> ->. lia.
    + intros id' g f m Hin [Hj|Heq%list_elem_of_singleton]%elem_of_app; [eapply Ha; eassumption|]. injection Heq as -> _ _.
      exfalso. apply Hat, list_elem_of_fmap. exists (id, g). auto.
    + exact Hd.
  - destruct (Hf id fence max ltac:(eapply list_elem_of_lookup_2, Hi)) as [Hb Hm].
    assert (wrap_uint64 max = max) as Hwm by (apply wrap_uint64_small; unfold two64; lia). rewrite Hwm in Hlt.
    assert (wrap_uint64 (fence + 1) = (fence + 1)%Z) as Hwf by (apply wrap_uint64_small; unfold two64; lia). rewrite Hwf.
    assert (Hrows : forall id' f m, (id', (f, m)) ∈ <[i:=(id, ((fence + 1)%Z, max))]> jobs ->
      id' = id /\ f = (fence + 1)%Z /\ m = max \/ id' <> id /\ (id', (f, m)) ∈ jobs).
    { intros id' f m [k Hk]%list_elem_of_lookup. apply list_lookup_insert_Some in Hk as [(-> & E & _)|[Hne Hk]].
      - injection E as <- <- <-. left. auto.
      - right. split; [|eapply list_elem_of_lookup_2, Hk]. intros ->. apply Hne.
        eapply (NoDup_lookup _ i k id Hn); rewrite list_lookup_fmap; [rewrite Hi|rewrite Hk]; reflexivity. }
    constructor; cbn.
    + rewrite (insert_keeps_ids _ _ _ _ _ _ Hi). exact Hn.
    + intros id' f m [(-> & -> & ->)|[_ Hj]]%Hrows; [lia|eapply Hf, Hj].
    + intros id' g f m [Hin|Heq%list_elem_of_singleton]%elem_of_app Hj%Hrows.
      * destruct Hj as [(-> & -> & ->)|[_ Hj]]; [|eapply Ha; eassumption].
        pose proof (Ha _ _ _ _ Hin ltac:(eapply list_elem_of_lookup_2, Hi)). lia.
      * injection Heq as -> ->. destruct Hj as [(_ & -> & _)|[Hne _]]; [lia|contradiction].
    + apply list.NoDup_app. split; [exact Hd|]. split; [|apply NoDup_singleton]. intros x Hx ->%list_elem_of_singleton.
      pose proof (Ha _ _ _ _ Hx ltac:(eapply list_elem_of_lookup_2, Hi)). lia.
  - constructor; cbn.
    + eapply sublist_NoDup; [exact Hn|apply map_sublist, Hj].
    + intros id f m Hin. eapply Hf, elem_of_sublist; eassumption.
    + intros id g f m Hg Hin. eapply Ha; eapply elem_of_sublist; eassumption.
    + eapply sublist_NoDup; eassumption.
Qed.
Lemma distinct_bounded (l : list Z) f : NoDup l -> (forall g, g ∈ l -> 1 <= g <= f)%Z -> (Z.of_nat (length l) <= Z.max 0 f)%Z.
Proof.
  intros Hn Hb. assert (Hs : l ⊆+ seqZ 1 f).
  { apply NoDup_submseteq; [exact Hn|]. intros g Hg%Hb. apply elem_of_seqZ. lia. }
  apply submseteq_length in Hs. rewrite length_seqZ in Hs. lia.
Qed.
(** The fences granted to one job. *)
Definition fences_of (st : State) (id : string) : list Z :=
  (List.filter (fun r => r.1 == id) (map attempt_core (State_WorkerAttempts st))).*2.
Lemma NoDup_fences (l : list (string * Z)) id : NoDup l -> NoDup (List.filter (fun r => r.1 == id) l).*2.
Proof.
  induction 1 as [|[x g] l Hx Hl IH]; cbn; [constructor|]. case_bool_decide as E; [|exact IH]. cbn. constructor; [|exact IH].
  intros ([y h] & Hg & Hin)%list_elem_of_fmap. cbn in Hg. subst h x.
  apply elem_of_filter_list in Hin as [Hin Hy]. to_prop. cbn in Hy. subst y. contradiction.
Qed.

Section fences.
Context `{Runtime, NetURL, URLs, Crypto, Hashing, Encoding}.

(** What the invariant means for a job of a state. *)
Lemma lease_inv_job st j : LeaseInv (leases st) -> j ∈ State_WorkerJobs st ->
  (0 <= WorkerJob_Fence j <= WorkerJob_MaxAttempts j)%Z /\ (WorkerJob_MaxAttempts j <= 10)%Z
  /\ (Z.of_nat (length (fences_of st (ID j))) <= WorkerJob_Fence j)%Z /\ NoDup (fences_of st (ID j)).
Proof using Type.
  intros [Hn Hf Hat Hd] Hin. assert (Hrow : job_core j ∈ lease_jobs (leases st)) by (apply elem_of_map; eauto).
  destruct (Hf _ _ _ Hrow) as [Hb Hm]. split; [exact Hb|]. split; [exact Hm|].
  pose proof (NoDup_fences _ (ID j) Hd) as Hnf. split; [|exact Hnf].
  rewrite <- (Z.max_r 0 (WorkerJob_Fence j)) by apply Hb. apply distinct_bounded; [exact Hnf|].
  intros g ([id g'] & -> & [Hg Hid]%elem_of_filter_list)%list_elem_of_fmap. to_prop. cbn in *. subst id.
  exact (Hat _ _ _ _ Hg Hrow).
Qed.
Lemma lease_inv_empty st : State_WorkerJobs st = [] -> State_WorkerAttempts st = [] -> LeaseInv (leases st).
Proof using Type.
  intros Hj Ha. unfold leases. rewrite Hj, Ha.
  constructor; cbn; [constructor|..|constructor]; intros * Hin%elem_of_nil; destruct Hin.
Qed.

(** What a change by the holder of an attempt went through. *)
Lemma act_on_active {W : World} {P : WorkerPolicy} w action j a t v : act_on w action j a t = Ok v ->
  WorkerJob_Status j = "CLAIMED" \/ WorkerJob_Status j = "RUNNING".
Proof using Type.
  unfold act_on. intros Hact. destruct action; apply bind_guard in Hact as [G _]; try discriminate; to_prop; auto.
  destruct (WorkerJob_Status j == "CLAIMED") eqn:E1; [to_prop; auto|].
  destruct (WorkerJob_Status j == "RUNNING") eqn:E2; [to_prop; auto|discriminate].
Qed.
(** The lease of a job is good at a moment: the job is live, within its lease
    and its deadline, under the configuration it was queued with. *)
Record Live (w : Authority) (j : WorkerJob) (a : WorkerAttempt) (t : Time) : Prop := {
  live_lease : (t < WorkerAttempt_LeaseUntil a)%Z;
  live_deadline : (t < WorkerJob_Deadline j)%Z;
  live_wanted : WorkerJob_CancellationRequested j = false;
  live_status : WorkerJob_Status j = "CLAIMED" \/ WorkerJob_Status j = "RUNNING";
  live_config : workerConfigMatches w j = true;
}.
(** What a request that was let through to the lease does: a request that is
    late is rejected and leaves what the recovery of the job did, and nothing
    else; of a live job a start that was made before is answered again, and
    otherwise the action is performed. *)
Inductive Acted {W : World} {P : WorkerPolicy} (w : Authority) (p : WorkerPrincipal) (i k : nat) (action : WorkerAction) (t : Time) (st0 : State) :
    State -> res WorkerLease -> Prop :=
| acted_late j a e : job_at st0 i = Some j -> State_WorkerAttempts st0 !! k = Some a -> lease_broken w st0 j a t = true ->
    Acted w p i k action t st0 st0 (Err e)
| acted_again j a : job_at st0 i = Some j -> State_WorkerAttempts st0 !! k = Some a -> Live w j a t ->
    action = ActStart -> WorkerJob_Status j = "RUNNING" -> WorkerAttempt_Status a = "RUNNING" ->
    Acted w p i k action t st0 st0 (Ok (lease_of j a))
| acted_now j a st' lease : job_at st0 i = Some j -> State_WorkerAttempts st0 !! k = Some a -> Live w j a t ->
    perform w p i k action t j a st0 = Ok (st', lease) -> Acted w p i k action t st0 st' (Ok lease).
Lemma mutate_current_acted {W : World} {P : WorkerPolicy} w p i k action t st st' answer :
  mutate_current w p i k action t st = Ok (st', answer) -> Acted w p i k action t (recoverWorker i t st) st' answer.
Proof using Type.
  unfold mutate_current. cbv zeta. intros Hm. destruct (job_at (recoverWorker i t st) i) as [j|] eqn:Ej; [|discriminate].
  destruct (State_WorkerAttempts (recoverWorker i t st) !! k) as [a|] eqn:Ea; [|discriminate].
  destruct (lease_broken _ _ _ _ _) eqn:Hb; [injection Hm as <- <-; eapply acted_late; eassumption|].
  assert (Hlive : WorkerJob_Status j = "CLAIMED" \/ WorkerJob_Status j = "RUNNING" -> Live w j a t).
  { unfold lease_broken, Before in Hb. to_prop. intros Hs. split; try assumption; apply Z.ltb_lt; assumption. }
  assert (Hperf : (x ← perform w p i k action t j a (recoverWorker i t st); let '(st, lease) := x in Ok (st, Ok lease)) = Ok (st', answer) ->
    Acted w p i k action t (recoverWorker i t st) st' answer).
  { intros ([st2 l2] & Hp & Ho)%bind_Ok. injection Ho as <- <-. eapply acted_now; try eassumption. apply Hlive.
    unfold perform in Hp. apply bind_Ok in Hp as (? & Hact & _). eapply act_on_active, Hact. }
  destruct action; [|exact (Hperf Hm)..]. destruct (_ && _)%bool eqn:Er in Hm; [|exact (Hperf Hm)].
  to_prop. injection Hm as <- <-. apply acted_again; auto.
Qed.

(** C22 a request of a worker is only answered to the principal of the current
    attempt of the job: it names the job's fence and inputs, and the credential
    is current and covers the job.  Either it repeats the accepted report and
    changes nothing; or the job is still authorised, and what the request does
    depends on its lease after the recovery of the job: late, it is rejected
    and changes nothing else, and only within the lease and before the deadline
    of a job that is neither ended nor to be reconciled, under the
    configuration the job was queued with, the action is performed. *)
Theorem worker_requests_fenced {W : World} {P : WorkerPolicy} w p r action st st' answer :
  mutateWorker (Some w) p r action st = Ok (st', answer) ->
  exists i k j a, job_index st (WorkerAttemptRequest_JobID r) = Some i /\ job_at st i = Some j
    /\ attempt_index st (WorkerAttemptRequest_AttemptID r) = Some k /\ State_WorkerAttempts st !! k = Some a
    /\ WorkerAttempt_JobID a = ID j /\ WorkerAttempt_Fence a = WorkerJob_Fence j /\ WorkerJob_Fence j = WorkerAttemptRequest_Fence r
    /\ WorkerAttempt_Principal a = PrincipalID p /\ Current w p (now "mutateWorker" 0) = true
    /\ Allows p (ProductID j) (WorkerInputs_RepositoryID (WorkerJob_Inputs j)) (WorkerJob_Capability j) (now "mutateWorker" 0) = true
    /\ ((exists rep, action = ActReport rep /\ WorkerAttempt_Report a = Some rep /\ st' = st /\ answer = Ok (lease_of j a))
        \/ (still_authorised w st j = Ok ()
            /\ Acted w p i k action (now "mutateWorker" 0) (recoverWorker i (now "mutateWorker" 0) st) st' answer)).
Proof using Type.
  unfold mutateWorker. cbv zeta. intros Hm. destruct (job_index st _) as [i|] eqn:Hi; [|discriminate].
  destruct (attempt_index st _) as [k|] eqn:Hk; [|discriminate]. destruct (job_at st i) as [j|] eqn:Hj; [|discriminate].
  destruct (State_WorkerAttempts st !! k) as [a|] eqn:Ha; [|discriminate].
  destruct (owns_attempt _ _ _ _ && may_act _ _ _ _ _ _) eqn:Ho; [|discriminate]. cbn [negb] in Hm.
  unfold owns_attempt, may_act in Ho. to_prop. exists i, k, j, a. repeat (split; [first [reflexivity|assumption|congruence]|]).
  unfold mutate_owned in Hm. apply bind_guard in Hm as [_ Hm]; [|discriminate]. apply bind_Ok in Hm as (? & _ & Hm).
  destruct action as [| |rep]; [right|right|destruct (WorkerAttempt_Report a) as [acc|] eqn:Hr; [left|right]].
  3:{ apply bind_Ok in Hm as (l & Hrep & Hm). injection Hm as <- <-. exists rep. split; [reflexivity|].
      unfold replay_report in Hrep. destruct (acc == rep) eqn:E; [|discriminate]. to_prop. subst acc.
      apply bind_Ok in Hrep as (? & _ & [= <-]). auto. }
  all: apply bind_Ok in Hm as ([] & Hs & Hm); split; [exact Hs|eapply mutate_current_acted, Hm].
Qed.
End fences.
