(* ===== verification/External.v ===== *)
(** * Providers, builds and targets

    [internal/application/external.go]: connections to a provider and their
    grants, the repositories imported from it, the build of a component, the
    target of an environment, and the operations a worker of the control plane
    carries out later (reading runtimes and Git, deploying an integration).
    [existing_artifact.go] decides which recorded artifact may be deployed
    again, and native_delivery.go freezes the recipes of a native build. *)
From S2P Require Import Prelude GoText GoJson Delivery Domain Status Planning Handlers DeviceAuth Collections ExternalSystems Reservation Composition Pins WorkerAuth WorkerJobs Publications WorkerProtocol.
Open Scope string_scope.
Open Scope list_scope.

(** The authority over workers the process was configured with, [Service.externalWorkers]. *)
Class Operator := externalWorkers : option Authority.

(** ** Inputs *)
Record RuntimeInput := mkRuntimeInput { RuntimeInput_EnvironmentID : string; RuntimeInput_ApplicationID : string }.
#[export] Instance zero_RuntimeInput : Zero RuntimeInput := mkRuntimeInput zero zero.
#[export] Instance fields_RuntimeInput `{Runtime} : Fields RuntimeInput :=
  [field "environment_id" RuntimeInput_EnvironmentID; field "application_id" RuntimeInput_ApplicationID].
Record GrantInput := mkGrantInput { GrantInput_ConnectionID : string }.
#[export] Instance zero_GrantInput : Zero GrantInput := mkGrantInput zero.
#[export] Instance fields_GrantInput `{Runtime} : Fields GrantInput := [field "connection_id" GrantInput_ConnectionID].
Record ConnectionInput := mkConnectionInput {
  ConnectionInput_Name : string; ConnectionInput_AppID : Z; ConnectionInput_InstallationID : Z;
  ConnectionInput_PrivateKeyRef : string; ConnectionInput_Owner : string; ConnectionInput_APIURL : string;
  ConnectionInput_RegistryCredentialRef : string
}.
#[export] Instance zero_ConnectionInput : Zero ConnectionInput := mkConnectionInput zero zero zero zero zero zero zero.
#[export] Instance fields_ConnectionInput `{Runtime} : Fields ConnectionInput :=
  [
    field "name" ConnectionInput_Name; field "app_id" ConnectionInput_AppID;
    field "installation_id" ConnectionInput_InstallationID; field "private_key_ref" ConnectionInput_PrivateKeyRef;
    field "owner" ConnectionInput_Owner; field "api_url" ConnectionInput_APIURL;
    field "registry_credential_ref" ConnectionInput_RegistryCredentialRef
  ].
Record ImportInput := mkImportInput {
  ImportInput_BaseBranch : string; ImportInput_ConnectionID : string; ImportInput_FullName : string;
  ImportInput_Role : string; ImportInput_DefaultBranch : string; ImportInput_URL : string
}.
#[export] Instance zero_ImportInput : Zero ImportInput := mkImportInput zero zero zero zero zero zero.
#[export] Instance fields_ImportInput `{Runtime} : Fields ImportInput :=
  [
    field "base_branch" ImportInput_BaseBranch; field "connection_id" ImportInput_ConnectionID;
    field "full_name" ImportInput_FullName; field "role" ImportInput_Role;
    field "default_branch" ImportInput_DefaultBranch; field "url" ImportInput_URL
  ].
#[export] Instance fields_NativeBinding `{Runtime} : Fields NativeBinding :=
  [
    field "build_recipe_id" NativeBinding_BuildRecipeID; field "publication_recipe_id" NativeBinding_PublicationRecipeID;
    field "parameters" NativeBinding_Parameters
  ].
Record BuildInput := mkBuildInput {
  BuildInput_Native : option NativeBinding; BuildInput_Mode : string; BuildInput_Profile : string;
  BuildInput_RebuildMissing : bool; BuildInput_ApplicationID : string; BuildInput_ConnectionID : string;
  BuildInput_Workflow : string; BuildInput_ImageRepository : string; BuildInput_WorkflowRef : string;
  BuildInput_Inputs : gmap string string
}.
#[export] Instance zero_BuildInput : Zero BuildInput := mkBuildInput zero zero zero zero zero zero zero zero zero zero.
#[export] Instance fields_BuildInput `{Runtime} : Fields BuildInput :=
  [
    field "native" BuildInput_Native; field "mode" BuildInput_Mode; field "profile" BuildInput_Profile;
    field "rebuild_missing" BuildInput_RebuildMissing; field "application_id" BuildInput_ApplicationID;
    field "connection_id" BuildInput_ConnectionID; field "workflow" BuildInput_Workflow;
    field "image_repository" BuildInput_ImageRepository; field "workflow_ref" BuildInput_WorkflowRef;
    field "inputs" BuildInput_Inputs
  ].
Record TargetInput := mkTargetInput {
  TargetInput_GitOpsMode : string; TargetInput_EnvironmentID : string; TargetInput_ApplicationID : string;
  TargetInput_Purpose : string; TargetInput_ConnectionID : string; TargetInput_RepositoryID : string;
  TargetInput_Ref : string; TargetInput_Path : string; TargetInput_ImageField : string;
  TargetInput_DigestField : string; TargetInput_AllowDeploy : bool
}.
#[export] Instance zero_TargetInput : Zero TargetInput := mkTargetInput zero zero zero zero zero zero zero zero zero zero zero.
#[export] Instance fields_TargetInput `{Runtime} : Fields TargetInput :=
  [
    field "gitops_mode" TargetInput_GitOpsMode; field "environment_id" TargetInput_EnvironmentID;
    field "application_id" TargetInput_ApplicationID; field "purpose" TargetInput_Purpose;
    field "connection_id" TargetInput_ConnectionID; field "repository_id" TargetInput_RepositoryID;
    field "ref" TargetInput_Ref; field "path" TargetInput_Path; field "image_field" TargetInput_ImageField;
    field "digest_field" TargetInput_DigestField; field "allow_deploy" TargetInput_AllowDeploy
  ].
Record GitInput := mkGitInput { GitInput_RepositoryID : string }.
#[export] Instance zero_GitInput : Zero GitInput := mkGitInput zero.
#[export] Instance fields_GitInput `{Runtime} : Fields GitInput := [field "repository_id" GitInput_RepositoryID].
Record DeployInput := mkDeployInput {
  DeployInput_RequestKey : string; DeployInput_ArtifactID : string; DeployInput_EnvironmentID : string;
  DeployInput_ApplicationID : string; DeployInput_RevisionID : string; DeployInput_ExpectedDigest : string
}.
#[export] Instance zero_DeployInput : Zero DeployInput := mkDeployInput zero zero zero zero zero zero.
#[export] Instance fields_DeployInput `{Runtime} : Fields DeployInput :=
  [
    field "request_key" DeployInput_RequestKey; field "artifact_id" DeployInput_ArtifactID;
    field "environment_id" DeployInput_EnvironmentID; field "application_id" DeployInput_ApplicationID;
    field "revision_id" DeployInput_RevisionID; field "expected_digest" DeployInput_ExpectedDigest
  ].

(** ** Texts *)
(** [^[A-Za-z0-9_.-]+/[A-Za-z0-9_.-]+$] *)
Definition repositoryName (s : string) : bool :=
  match split_on slash s with
  | [owner; name] => (owner != "") && (name != "") && str_all (ident_char "_.-") owner && str_all (ident_char "_.-") name
  | _ => false
  end.
(** [^ghcr\.io/[a-z0-9][a-z0-9._/-]+$] *)
Definition imageName (s : string) : bool :=
  has_prefix "ghcr.io/" s &&
  match str_drop 8 s with
  | String a r => (is_lower a || is_digit a) && (r != "") && str_all (fun b => is_lower b || is_digit b || str_mem b "._/-") r
  | EmptyString => false
  end.
(** workerconfig [ValidIdentifier]: [^[A-Za-z0-9][A-Za-z0-9_.:/-]{0,127}$] *)
Definition ValidIdentifier : string -> bool := identifier (ident_char "_.:/-") 0 127.
Definition line_feed : string := String (ascii_of_nat 10) EmptyString.
Definition carriage_return : string := String (ascii_of_nat 13) EmptyString.
Definition tabulator : string := String (ascii_of_nat 9) EmptyString.
Definition secretRef (ref : string) : bool :=
  has_prefix "env:" ref && (4 <? String.length ref)%nat
    && negb (contains_any (" /" +:+ line_feed +:+ carriage_return +:+ tabulator) (str_drop 4 ref))
  || has_prefix "file:/" ref && (6 <? String.length ref)%nat && negb (contains_any (line_feed +:+ carriage_return) ref).
(** [^sha256:[0-9a-f]{64}$], read rune by rune *)
Definition validArtifactDigest (d : string) : bool :=
  has_prefix "sha256:" d && (String.length d =? 71)%nat && str_all is_hex (str_drop 7 d).

(** ** Lookups *)
Definition componentBuild (st : State) (i : string) : option ComponentBuild :=
  find_last (fun b => ComponentBuild_ApplicationID b == i) (State_ComponentBuilds st).
Definition pendingRefresh (st : State) (kind product integration repository environment application : string) : option ExternalOperation :=
  find_first (fun op => (ExternalOperation_Kind op == kind) && (ProductID op == product)
    && (ExternalOperation_IntegrationID op == integration) && (ExternalOperation_RepositoryID op == repository)
    && (ExternalOperation_EnvironmentID op == environment) && (ExternalOperation_ApplicationID op == application)
    && negb (terminalOperation (ExternalOperation_Status op))) (State_Operations st).
Definition registered_api (st : State) (v : RegisteredRepository) : string :=
  if RegisteredRepository_ProviderAPIURL v != "" then RegisteredRepository_ProviderAPIURL v
  else match connection st (RegisteredRepository_ConnectionID v) with
       | Some original => trim_right_char slash (Connection_APIURL (GitHubConnection_Config original))
       | None => ""
       end.

Section lookups.
Context `{Runtime, Upper, Hashing}.

(** The registered repository [registeredRepositoryIdentity] finds: same API,
    and the same provider identity or, failing that, the same name. *)
Definition same_registered (st : State) (api fullName : string) (providerID : Z) (v : RegisteredRepository) : bool :=
  (registered_api st v == api)
  && (if (0 <? providerID)%Z && (0 <? RegisteredRepository_ProviderRepositoryID v)%Z
      then RegisteredRepository_ProviderRepositoryID v == providerID
      else equal_fold (RegisteredRepository_FullName v) fullName).
Definition registeredRepositoryIdentity (st : State) (connectionID fullName : string) (providerID : Z) : option RegisteredRepository :=
  match connection st connectionID with
  | None => None
  | Some conn =>
    let api := trim_right_char slash (Connection_APIURL (GitHubConnection_Config conn)) in
    find_first (same_registered st api fullName providerID) (State_RegisteredRepositories st)
  end.
Definition associateRegistryConnection (conn : GitHubConnection) (v : RegisteredRepository) : RegisteredRepository :=
  let v := v <| RegisteredRepository_ProviderAPIURL := trim_right_char slash (Connection_APIURL (GitHubConnection_Config conn)) |> in
  if contains (RegisteredRepository_ConnectionIDs v) (ID conn) then v
  else v <| RegisteredRepository_ConnectionIDs ::= fun l => l ++ [ID conn] |>.
(** git_scheduler.go *)
Definition repositoryGitInventoryRole (role : string) : bool :=
  contains ["SOURCE"; "APPLICATION"; "LIBRARY"; "MIXED"] (to_upper (trim_space role)).

(** ** existing_artifact.go *)
Definition native_published (j : WorkerJob) (t : WorkerAttempt) (artifact : DeliveryArtifact) (n : NativeArtifact) (product app repo sha : string) : bool :=
  (WorkerJob_Status j == "SUCCEEDED") && (WorkerJob_Capability j == "registry_publish")
  && (DeliveryArtifact_OperationID artifact == WorkerJob_OperationID j) && (WorkerAttempt_Fence t == WorkerJob_Fence j)
  && (WorkerAttempt_InputHash t == WorkerJob_InputHash j) && (ProductID j == product)
  && (WorkerJob_InputHash j == NativeArtifact_PublicationInputHash n) && (WorkerAttempt_JobID t == ID j)
  && match WorkerInputs_Publication (WorkerJob_Inputs j) with
     | None => false
     | Some p =>
       (WorkerPublication_ComponentID p == app) && (WorkerInputs_SourceSHA (WorkerJob_Inputs j) == sha)
       && (WorkerInputs_RepositoryID (WorkerJob_Inputs j) == repo) && (WorkerPublication_Profile p == NativeArtifact_Profile n)
       && (WorkerPublication_Receipt p == NativeArtifact_Receipt n)
     end
  && (WorkerLocalOCI_ManifestDigest (NativeArtifact_Receipt n) == DeliveryArtifact_Digest artifact)
  && (NativeObservation_ManifestDigest (NativeArtifact_Observation n) == DeliveryArtifact_Digest artifact)
  && (NativeObservation_Platform (NativeArtifact_Observation n) == WorkerLocalOCI_Platform (NativeArtifact_Receipt n))
  && negb (IsZero (NativeObservation_ObservedAt (NativeArtifact_Observation n))).
Definition reported_published (t : WorkerAttempt) (artifact : DeliveryArtifact) : bool :=
  (WorkerAttempt_Status t == "SUCCEEDED")
  && match WorkerAttempt_Report t with
     | Some report =>
       match WorkerReport_Publication report with
       | Some p => (WorkerReport_Result report == "PASSED") && (WorkerPublicationReport_ManifestDigest p == DeliveryArtifact_Digest artifact)
       | None => false
       end
     | None => false
     end.
Definition reconciled_published (t : WorkerAttempt) (r : NativeReconciliation) : bool :=
  (WorkerAttempt_Status t == "EXPIRED") && match WorkerAttempt_Report t with Some _ => false | None => true end
  && (NativeReconciliation_Actor r != "") && negb (IsZero (NativeReconciliation_At r)).
Definition native_evidence (st : State) (artifact : DeliveryArtifact) (product app repo sha : string) : res unit :=
  let quarantined := invalid "invalid or quarantined native provenance" [] in
  match DeliveryArtifact_Native artifact with
  | None => quarantined
  | Some n =>
    _ ← reject_if (nativeQuarantined st product || (DeliveryArtifact_BuildRunID artifact != 0%Z) || (DeliveryArtifact_Tag artifact != "")
                   || (DeliveryArtifact_BuildRequest artifact != zero)) quarantined;
    match workerJob st (NativeArtifact_PublicationJobID n), find_first (has_id (NativeArtifact_PublicationAttemptID n)) (State_WorkerAttempts st) with
    | Some j, Some t =>
      _ ← reject_if (negb (native_published j t artifact n product app repo sha)) (invalid "invalid native publication evidence" []);
      _ ← nativeWorkerOrigin st j;
      match NativeArtifact_Reconciliation n with
      | Some r => reject_if (negb (reconciled_published t r)) (invalid "invalid native reconciliation evidence" [])
      | None => reject_if (negb (reported_published t artifact)) (invalid "invalid native worker report" [])
      end
    | _, _ => invalid "invalid native publication evidence" []
    end
  end.
Definition text_at (m : gmap string string) (k : string) : string := default "" (m !! k).
Definition observed_build (product app image sha : string) (artifact : DeliveryArtifact) (build : DeliveryBuildRun) : bool :=
  let r := DeliveryBuildRun_Result build in let q := DeliveryBuildRun_Request build in
  (ProductID build == product) && (DeliveryBuildRun_ApplicationID build == app) && (RunResult_ID r == DeliveryArtifact_BuildRunID artifact)
  && (RunResult_Status r == "completed") && (RunResult_Conclusion r == "success")
  && (BuildRequest_OperationID q == BuildRequest_OperationID (DeliveryArtifact_BuildRequest artifact))
  && (BuildRequest_Repository q == BuildRequest_Repository (DeliveryArtifact_BuildRequest artifact))
  && (BuildRequest_SourceSHA q == sha) && (text_at (RunResult_Artifacts r) "source_sha" == sha)
  && (text_at (RunResult_Artifacts r) "image_repository" == image) && (text_at (RunResult_Artifacts r) "digest" == DeliveryArtifact_Digest artifact).
Definition validatedExistingArtifact (st : State) (id product app repo sha image : string) : res DeliveryArtifact :=
  match find_first (has_id id) (State_DeliveryArtifacts st) with
  | None => missing "artifact" id
  | Some artifact =>
    _ ← reject_if ((sha == "") || (ProductID artifact != product) || (DeliveryArtifact_ApplicationID artifact != app)
                   || (DeliveryArtifact_RepositoryID artifact != repo) || (DeliveryArtifact_SourceCommit artifact != sha)
                   || (DeliveryArtifact_ImageRepository artifact != image) || negb (validArtifactDigest (DeliveryArtifact_Digest artifact))
                   || (DeliveryArtifact_Availability artifact != "PRESENT"))
          (invalid "artifact must have successful build provenance for exact product/component/repository/revision" []);
    if DeliveryArtifact_Provenance artifact == "NATIVE_WORKER" then
      _ ← native_evidence st artifact product app repo sha; Ok artifact
    else
      _ ← reject_if (match DeliveryArtifact_Native artifact with Some _ => true | None => false end
                     || (DeliveryArtifact_Provenance artifact != "") && (DeliveryArtifact_Provenance artifact != "GITHUB_ACTIONS")
                     || (DeliveryArtifact_BuildRunID artifact <=? 0)%Z) (invalid "mixed artifact provenance" []);
      if existsb (observed_build product app image sha artifact) (State_DeliveryBuildRuns st) then Ok artifact
      else invalid "artifact has no matching successful observed workflow run" []
  end.
End lookups.

(** ** native_delivery.go: the recipes of a native build *)
Section native.
Context `{Operator}.
Definition nativeImage (p : PublicationRecipe) : string :=
  trim_prefix "http://" (trim_prefix "https://" (PublicationRecipe_Origin p)) +:+ "/" +:+ PublicationRecipe_Repository p.
Definition matching_recipes (product : string) (app : Application) (profile image : string) (binding : NativeBinding)
    (b : Recipe) (p : PublicationRecipe) : bool :=
  (Recipe_ProductID b == product) && (PublicationRecipe_ProductID p == product)
  && (Recipe_RepositoryID b == Application_RepositoryID app) && (PublicationRecipe_RepositoryID p == Application_RepositoryID app)
  && (PublicationRecipe_ComponentID p == ID app) && (Recipe_Capability b == "local_oci_build")
  && (Recipe_Hash b == PublicationRecipe_BuildRecipeHash p) && (PublicationRecipe_Profile p == profile) && (nativeImage p == image)
  && ValidateParameters b (NativeBinding_Parameters binding).
Definition nativeRecipes (product : string) (app : Application) (profile image : string) (binding : option NativeBinding)
    : res (Recipe * PublicationRecipe) :=
  match externalWorkers, binding with
  | Some w, Some binding =>
    match recipe w (NativeBinding_BuildRecipeID binding), publication w (NativeBinding_PublicationRecipeID binding) with
    | Some b, Some p =>
      if matching_recipes product app profile image binding b p then Ok (b, p)
      else invalid "automatic native recipe identity mismatch" []
    | _, _ => invalid "automatic native recipe identity mismatch" []
    end
  | _, _ => invalid "automatic native binding required" []
  end.
Definition freezeNative (product : string) (app : Application) (build : ComponentBuild) (now : Time) : res NativeDelivery :=
  '(b, p) ← nativeRecipes product app (ComponentBuild_Profile build) (ComponentBuild_ImageRepository build) (ComponentBuild_Native build);
  Ok ((zero : NativeDelivery) <| NativeDelivery_ConfigRevision := match externalWorkers with Some w => Revision w | None => "" end |>
        <| NativeDelivery_BuildRecipeHash := Recipe_Hash b |> <| NativeDelivery_BuildRecipeRevision := Recipe_Revision b |>
        <| NativeDelivery_PublicationRecipeHash := PublicationRecipe_Hash p |>
        <| NativeDelivery_PublicationRecipeRevision := PublicationRecipe_Revision p |>
        <| NativeDelivery_Deadline := (now + hour)%Z |>).
End native.

(** ** The commands *)
Section handlers.
Context `{Runtime, Upper, World, MapOrder, URLs, Hashing, RestorationEvidence, Operator}.

(** An operation queued for the worker of the control plane. *)
Definition queued_operation (c : Command) (m : Meta) (kind phase : string) : ExternalOperation :=
  (zero : ExternalOperation) <| ExternalOperation_Meta := m |> <| ExternalOperation_Kind := kind |>
    <| ExternalOperation_Status := "PENDING" |> <| ExternalOperation_RequestedBy := Command_Actor c |>
    <| ExternalOperation_Phase := phase |> <| ExternalOperation_NextAttemptAt := Meta_CreatedAt m |>.
(** A pending refresh of the same thing is answered instead of a new one. *)
Definition refresh_once (st : State) (c : Command) (m : Meta) (v : ExternalOperation) : res (State * Out * Meta) :=
  match pendingRefresh st (ExternalOperation_Kind v) (Command_ProductID c) (ExternalOperation_IntegrationID v)
          (ExternalOperation_RepositoryID v) (ExternalOperation_EnvironmentID v) (ExternalOperation_ApplicationID v) with
  | Some existing => Ok (st, OutOperation existing, ExternalOperation_Meta existing)
  | None => Ok (st <| State_Operations ::= fun l => l ++ [v] |>, OutOperation v, m)
  end.
Definition refresh_environment_runtime (st : State) (c : Command) (m : Meta) : res (State * Out * Meta) :=
  input ← decode (Command_Data c) (zero : RuntimeInput);
  _ ← reject_if (match environmentByID st (RuntimeInput_EnvironmentID input) with
                 | Some e => ProductID e != Command_ProductID c | None => true end) (invalid "environment must belong to product" []);
  _ ← (if RuntimeInput_ApplicationID input == "" then Ok ()
       else reject_if (match applicationByID st (RuntimeInput_ApplicationID input) with
                       | Some a => ProductID a != Command_ProductID c | None => true end) (invalid "component must belong to product" []));
  refresh_once st c m ((queued_operation c m "REFRESH_RUNTIME" "OBSERVE_RUNTIME")
    <| ExternalOperation_EnvironmentID := RuntimeInput_EnvironmentID input |>
    <| ExternalOperation_ApplicationID := RuntimeInput_ApplicationID input |>
    <| ExternalOperation_CurrentStep := "OBSERVE_RUNTIME" |>).
Definition grant_connection (st : State) (c : Command) (m : Meta) : res (State * Out * Meta) :=
  input ← decode (Command_Data c) (zero : GrantInput);
  _ ← reject_if (negb (productExists st (Command_ProductID c))
                 || match connection st (GrantInput_ConnectionID input) with None => true | Some _ => false end)
        (invalid "existing product and instance connection required" []);
  _ ← each (fun g => reject_if ((ProductID g == Command_ProductID c) && (ConnectionGrant_ConnectionID g == GrantInput_ConnectionID input))
              (invalid "connection grant already exists" [])) (State_ConnectionGrants st);
  let v := mkConnectionGrant m (GrantInput_ConnectionID input) in
  Ok (st <| State_ConnectionGrants ::= fun l => l ++ [v] |>, OutConnectionGrant v, m).
Definition api_url (value : string) : bool :=
  match url_parse value with
  | Some u => (URL_Scheme u == "https") && (URL_Host u != "") && negb (URL_User u) && (URL_RawQuery u == "") && (URL_Fragment u == "")
  | None => false
  end.
Definition create_github_connection (st : State) (c : Command) (m : Meta) : res (State * Out * Meta) :=
  input ← decode (Command_Data c) (zero : ConnectionInput);
  _ ← (if (Command_ProductID c != "") && negb (productExists st (Command_ProductID c)) then missing "product" (Command_ProductID c) else Ok ());
  _ ← reject_if (blank (ConnectionInput_Name input) || (ConnectionInput_AppID input <=? 0)%Z || (ConnectionInput_InstallationID input <=? 0)%Z
                 || (ConnectionInput_Owner input == "") || negb (secretRef (ConnectionInput_PrivateKeyRef input)))
        (invalid "name, app_id, installation_id, owner and env:/file: private_key_ref required" []);
  let api := if ConnectionInput_APIURL input == "" then "https://api.github.com" else ConnectionInput_APIURL input in
  _ ← reject_if (negb (api_url api)) (invalid "api_url must be an HTTPS API origin/base" []);
  _ ← reject_if (ConnectionInput_RegistryCredentialRef input != "")
        (invalid "permanent registry credentials are not supported; use the correlated Actions report" []);
  let v := (zero : GitHubConnection) <| GitHubConnection_Meta := m <| Meta_ProductID := "" |> |>
    <| GitHubConnection_Name := ConnectionInput_Name input |>
    <| GitHubConnection_Config := mkConnection (Meta_ID m) (ConnectionInput_AppID input) (ConnectionInput_InstallationID input)
         (ConnectionInput_PrivateKeyRef input) (ConnectionInput_Owner input) (trim_right_char slash api) "" |> in
  let st := if Command_ProductID c != ""
            then st <| State_ConnectionGrants ::= fun l => l ++ [mkConnectionGrant (m <| Meta_ID := fresh "grant" 0 |>) (ID v)] |>
            else st in
  Ok (st <| State_GitHubConnections ::= fun l => l ++ [v] |>, OutGitHubConnection v, m).

(** The registered repository of an import: the one known, or a new one. *)
Definition register (st : State) (m : Meta) (conn : GitHubConnection) (input : ImportInput) : State * RegisteredRepository :=
  match registeredRepositoryIdentity st (ImportInput_ConnectionID input) (ImportInput_FullName input) 0 with
  | Some v =>
    let api := trim_right_char slash (Connection_APIURL (GitHubConnection_Config conn)) in
    (st <| State_RegisteredRepositories ::=
             update_first (same_registered st api (ImportInput_FullName input) 0) (associateRegistryConnection conn) |>,
     associateRegistryConnection conn v)
  | None =>
    let v := associateRegistryConnection conn ((zero : RegisteredRepository)
      <| RegisteredRepository_Meta := m <| Meta_ID := fresh "registered" 0 |> <| Meta_ProductID := "" |> |>
      <| RegisteredRepository_ConnectionID := ImportInput_ConnectionID input |>
      <| RegisteredRepository_FullName := ImportInput_FullName input |>
      <| RegisteredRepository_DefaultBranch := ImportInput_DefaultBranch input |> <| RegisteredRepository_URL := ImportInput_URL input |>) in
    (st <| State_RegisteredRepositories ::= fun l => l ++ [v] |>, v)
  end.
Definition import_repository (st : State) (c : Command) (m : Meta) : res (State * Out * Meta) :=
  input ← decode (Command_Data c) (zero : ImportInput);
  let input := if ImportInput_BaseBranch input == "" then input <| ImportInput_BaseBranch := ImportInput_DefaultBranch input |> else input in
  _ ← reject_if (negb (safeBranch (ImportInput_BaseBranch input))) (invalid "valid base_branch required" []);
  conn ← scopedConnection st (ImportInput_ConnectionID input) (Command_ProductID c);
  _ ← reject_if (negb (repositoryName (ImportInput_FullName input))
                 || negb (equal_fold (default "" (head (split_on slash (ImportInput_FullName input)))) (Connection_Owner (GitHubConnection_Config conn)))
                 || negb (contains RepositoryRoles (ImportInput_Role input)) || negb (safeBranch (ImportInput_DefaultBranch input)))
        (invalid "repository owner, valid role and default_branch required" []);
  _ ← each (fun r => reject_if ((ProductID r == Command_ProductID c) && equal_fold (RepositoryBinding_FullName r) (ImportInput_FullName input))
              (invalid "repository already imported" [])) (State_RepositoryBindings st);
  let '(st, registered) := register st m conn input in
  let repo := mkRepository (ImportInput_Role input) (ID registered) m (ImportInput_FullName input)
    (if ImportInput_URL input == "" then "https://github.com/" +:+ ImportInput_FullName input else ImportInput_URL input) "github" in
  let binding := (zero : RepositoryBinding) <| RepositoryBinding_BaseBranch := ImportInput_BaseBranch input |>
    <| RepositoryBinding_Meta := m <| Meta_ID := fresh "binding" 0 |> |> <| RepositoryBinding_RepositoryID := ID repo |>
    <| RepositoryBinding_ConnectionID := ImportInput_ConnectionID input |> <| RepositoryBinding_FullName := ImportInput_FullName input |>
    <| RepositoryBinding_Role := ImportInput_Role input |> <| RepositoryBinding_DefaultBranch := ImportInput_DefaultBranch input |> in
  Ok (st <| State_Repositories ::= fun l => l ++ [repo] |> <| State_RepositoryBindings ::= fun l => l ++ [binding] |>, OutRepository repo, m).
Definition reserved_inputs : list string := ["source_sha"; "image_tag"; "operation_id"; "image_repository"].
(** The mode decides what a build needs: recipes of workers, or a workflow. *)
Definition build_mode (st : State) (c : Command) (app : Application) (input : BuildInput) : res unit :=
  if BuildInput_Mode input == "NATIVE" then
    _ ← reject_if (nativeQuarantined st (Command_ProductID c) || negb (ValidIdentifier (BuildInput_Profile input))
                   || (BuildInput_Workflow input != "") || (BuildInput_WorkflowRef input != "") || negb (bool_decide (BuildInput_Inputs input = ∅))
                   || BuildInput_RebuildMissing input || (BuildInput_ImageRepository input == "")
                   || contains_any (" @" +:+ line_feed +:+ carriage_return) (BuildInput_ImageRepository input))
          (invalid "invalid native existing-artifact configuration or quarantine" []);
    match BuildInput_Native input with
    | Some binding => _ ← nativeRecipes (Command_ProductID c) app (BuildInput_Profile input) (BuildInput_ImageRepository input) (Some binding); Ok ()
    | None => Ok ()
    end
  else if (BuildInput_Mode input != "") && (BuildInput_Mode input != "GITHUB_ACTIONS") then invalid "unknown component build mode" []
  else reject_if ((BuildInput_Workflow input == "") || contains_any (line_feed +:+ carriage_return) (BuildInput_Workflow input)
                  || negb (imageName (BuildInput_ImageRepository input))) (invalid "workflow and ghcr.io image_repository required" []).
Definition configure_component (st : State) (c : Command) (m : Meta) : res (State * Out * Meta) :=
  input ← decode (Command_Data c) (zero : BuildInput);
  match applicationByID st (BuildInput_ApplicationID input) with
  | None => invalid "application must belong to product" []
  | Some app =>
    _ ← reject_if ((ProductID app != Command_ProductID c) || (ComponentKind app != "APPLICATION")) (invalid "application must belong to product" []);
    _ ← reject_if (match repositoryBinding st (Application_RepositoryID app) with
                   | Some b => negb (IsSourceRole (RepositoryBinding_Role b)) || (RepositoryBinding_ConnectionID b != BuildInput_ConnectionID input)
                   | None => true end) (invalid "component requires SOURCE repository and its connection" []);
    _ ← scopedConnection st (BuildInput_ConnectionID input) (Command_ProductID c);
    _ ← build_mode st c app input;
    _ ← reject_if ((BuildInput_Mode input != "NATIVE") && match BuildInput_Native input with Some _ => true | None => false end)
          (invalid "native binding requires native mode" []);
    _ ← reject_if ((BuildInput_WorkflowRef input != "") && negb (safeBranch (BuildInput_WorkflowRef input))) (invalid "invalid workflow_ref" []);
    _ ← each (fun kv => reject_if (contains reserved_inputs kv.1) (invalid "reserved workflow input %s" [kv.1])) (map_range (BuildInput_Inputs input));
    let v := mkComponentBuild (BuildInput_Native input) (BuildInput_Mode input) (BuildInput_Profile input) (BuildInput_RebuildMissing input) m
      (ID app) (BuildInput_ConnectionID input) (BuildInput_Workflow input) (BuildInput_ImageRepository input) (BuildInput_WorkflowRef input)
      (BuildInput_Inputs input) in
    Ok (st <| State_ComponentBuilds ::= fun l => l ++ [v] |>, OutComponentBuild v, m)
  end.
Definition relative_path (p : string) : bool :=
  (p != "") && negb (path_is_abs p) && (path_clean p == p) && negb (has_prefix "../" p).
Definition configure_environment (st : State) (c : Command) (m : Meta) : res (State * Out * Meta) :=
  input ← decode (Command_Data c) (zero : TargetInput);
  _ ← reject_if (match environmentByID st (TargetInput_EnvironmentID input), applicationByID st (TargetInput_ApplicationID input) with
                 | Some e, Some app => (ProductID e != Command_ProductID c) || (ProductID app != Command_ProductID c)
                                       || (ComponentKind app != "APPLICATION")
                 | _, _ => true end) (invalid "environment and application must belong to product" []);
  _ ← reject_if (match repositoryBinding st (TargetInput_RepositoryID input) with
                 | Some b => (ProductID b != Command_ProductID c) || (RepositoryBinding_Role b != "GITOPS")
                             || (RepositoryBinding_ConnectionID b != TargetInput_ConnectionID input)
                 | None => true end) (invalid "explicit GITOPS repository and its connection required" []);
  _ ← scopedConnection st (TargetInput_ConnectionID input) (Command_ProductID c);
  _ ← reject_if (negb (contains ["DEV"; "TEST"; "PROD"] (TargetInput_Purpose input)) || negb (safeBranch (TargetInput_Ref input))
                 || negb (relative_path (TargetInput_Path input)) || (TargetInput_ImageField input == ""))
        (invalid "explicit DEV/TEST/PROD purpose with ref, clean relative path and image_field required" []);
  let mode := if TargetInput_GitOpsMode input == "" then "DIRECT" else TargetInput_GitOpsMode input in
  _ ← reject_if ((mode != "DIRECT") && (mode != "PR")) (invalid "gitops_mode must be DIRECT or PR" []);
  let v := mkEnvironmentBinding mode m (TargetInput_EnvironmentID input) (TargetInput_ApplicationID input) (TargetInput_Purpose input)
    (TargetInput_ConnectionID input) (TargetInput_RepositoryID input) (TargetInput_Ref input) (TargetInput_Path input)
    (TargetInput_ImageField input) (TargetInput_DigestField input) (TargetInput_AllowDeploy input) in
  Ok (st <| State_EnvironmentBindings ::= fun l => l ++ [v] |>, OutEnvironmentBinding v, m).
Definition refresh_integration_git (st : State) (c : Command) (m : Meta) : res (State * Out * Meta) :=
  _ ← decode (Command_Data c) tt;
  match integration st (Command_IntegrationID c) with
  | None => missing "integration" (Command_IntegrationID c)
  | Some inn =>
    _ ← reject_if (ProductID inn != Command_ProductID c) (invalid "integration must belong to product" []);
    refresh_once st c m ((queued_operation c m "REFRESH_GIT" "OBSERVE") <| ExternalOperation_IntegrationID := ID inn |>)
  end.
Definition refresh_repository_git (st : State) (c : Command) (m : Meta) : res (State * Out * Meta) :=
  input ← decode (Command_Data c) (zero : GitInput);
  _ ← reject_if (GitInput_RepositoryID input == "") (invalid "repository_id required" []);
  match repositoryBinding st (GitInput_RepositoryID input) with
  | None => invalid "attached code repository required" []
  | Some binding =>
    _ ← reject_if ((ProductID binding != Command_ProductID c) || negb (repositoryGitInventoryRole (RepositoryBinding_Role binding)))
          (invalid "attached code repository required" []);
    _ ← scopedConnection st (RepositoryBinding_ConnectionID binding) (Command_ProductID c);
    refresh_once st c m ((queued_operation c m "REFRESH_REPOSITORY_GIT" "SCAN")
      <| ExternalOperation_RepositoryID := GitInput_RepositoryID input |>)
  end.

(** *** Deploying an integration *)
(** The component deployed: the one named, or the only one the environment has. *)
Definition deployed_component (st : State) (inn : Integration) (input : DeployInput) : res string :=
  if DeployInput_ApplicationID input != "" then Ok (DeployInput_ApplicationID input)
  else match remove_dups (map EnvironmentBinding_ApplicationID (List.filter (fun b =>
           (EnvironmentBinding_EnvironmentID b == DeployInput_EnvironmentID input) && (ProductID b == ProductID inn)) (State_EnvironmentBindings st))) with
       | [app] => Ok app
       | _ => invalid "application_id required when environment has multiple components" []
       end.
(** The branch bound for the component's repository: every binding agrees. *)
Definition bound_branch (repo : string) (branches : list Branch) : res string :=
  foldM (fun branch b =>
    if Branch_RepositoryID b != repo then Ok branch
    else if (branch != "") && (branch != Branch_Name b) then invalid "bind one source branch for deployment" []
    else Ok (Branch_Name b)) "" branches.
Definition revision_of (inn : Integration) (app : Application) (r : IntegrationRevision) : bool :=
  (IntegrationRevision_IntegrationID r == ID inn) && (IntegrationRevision_RepositoryID r == Application_RepositoryID app).
Definition deployed_revision (st : State) (inn : Integration) (app : Application) (input : DeployInput) : res IntegrationRevision :=
  let revision := revisionByID st (DeployInput_RevisionID input) in
  _ ← reject_if ((DeployInput_RevisionID input != "")
                 && match revision with Some r => negb (revision_of inn app r) | None => true end)
        (invalid "revision must match integration and component repository" []);
  match revision with
  | Some r => Ok r
  | None =>
    branch ← bound_branch (Application_RepositoryID app) (Integration_Branches inn);
    let branch := if branch != "" then branch
                  else match find_last (revision_of inn app) (State_IntegrationRevisions st) with
                       | Some r => IntegrationRevision_Branch r | None => "" end in
    _ ← reject_if (branch == "") (invalid "bind an integration branch before deployment" []);
    Ok ((zero : IntegrationRevision)
          <| IntegrationRevision_Meta := (zero : Meta) <| Meta_ProductID := ProductID inn |> <| Meta_FeatureID := FeatureID inn |> |>
          <| IntegrationRevision_IntegrationID := ID inn |> <| IntegrationRevision_RepositoryID := Application_RepositoryID app |>
          <| IntegrationRevision_Branch := branch |>)
  end.
(** The frozen configuration of a deployment. *)
Definition build_request (st : State) (m : Meta) (build : ComponentBuild) (source : RepositoryBinding) (revision : IntegrationRevision) : BuildRequest :=
  let head := IntegrationRevision_HeadCommit revision in
  mkBuildRequest "" (repositoryLocator st source) (ComponentBuild_Workflow build)
    (if ComponentBuild_WorkflowRef build == "" then RepositoryBinding_DefaultBranch source else ComponentBuild_WorkflowRef build)
    head ("rcp-" +:+ head) (Meta_ID m)
    (<["image_repository" := ComponentBuild_ImageRepository build]> (<["operation_id" := Meta_ID m]>
      (<["image_tag" := "rcp-" +:+ head]> (<["source_sha" := head]> (ComponentBuild_Inputs build))))) (Meta_CreatedAt m).
Definition gitops_request (st : State) (build : ComponentBuild) (target : EnvironmentBinding) (gitops : RepositoryBinding) : GitOpsRequest :=
  mkGitOpsRequest (repositoryLocator st gitops) (EnvironmentBinding_Ref target) (EnvironmentBinding_Path target)
    (ComponentBuild_ImageRepository build) (EnvironmentBinding_ImageField target) (EnvironmentBinding_DigestField target) "".
(** [strings.Contains(locator, SLASH)]: the repository has no numeric identity yet. *)
Definition unpinned (st : State) (b : RepositoryBinding) : bool := str_mem slash (repositoryLocator st b).
Definition frozen_delivery (st : State) (c : Command) (m : Meta) (inn : Integration) (app : Application) (e : Environment)
    (revision : IntegrationRevision) : res DeliverySnapshot :=
  match componentBuild st (ID app), environmentBinding st (ID e) (ID app), repositoryBinding st (Application_RepositoryID app) with
  | Some build, Some target, Some source =>
    _ ← reject_if ((EnvironmentBinding_Purpose target != "DEV") || negb (EnvironmentBinding_AllowDeploy target))
          (invalid "component build and explicit enabled DEV mapping required" []);
    _ ← reject_if ((ComponentBuild_Mode build == "NATIVE")
                   && (nativeQuarantined st (ProductID inn)
                       || (Command_Action c != "deploy_existing_artifact") && match ComponentBuild_Native build with None => true | Some _ => false end
                       || (EnvironmentBinding_GitOpsMode target != "PR")))
          (invalid "native requires existing artifact and GitOps pull request; automatic builds disabled" []);
    sc ← scopedConnection st (ComponentBuild_ConnectionID build) (ProductID inn);
    gc ← scopedConnection st (EnvironmentBinding_ConnectionID target) (ProductID inn);
    match repositoryBinding st (EnvironmentBinding_RepositoryID target) with
    | None => invalid "GITOPS repository binding missing" []
    | Some gitops =>
      _ ← reject_if (unpinned st source || unpinned st gitops)
            (invalid "discover provider repositories before deployment to pin numeric repository identities" []);
      Ok ((zero : DeliverySnapshot) <| DeliverySnapshot_Revision := revision |> <| DeliverySnapshot_Application := app |>
            <| DeliverySnapshot_Build := build |> <| DeliverySnapshot_Target := target |> <| DeliverySnapshot_Environment := e |>
            <| DeliverySnapshot_Source := source |> <| DeliverySnapshot_GitOps := gitops |>
            <| DeliverySnapshot_SourceConnection := GitHubConnection_Config sc |>
            <| DeliverySnapshot_GitOpsConnection := GitHubConnection_Config gc |>
            <| DeliverySnapshot_BuildRequest := build_request st m build source revision |>
            <| DeliverySnapshot_GitOpsRequest := gitops_request st build target gitops |>)
    end
  | _, _, _ => invalid "component build and explicit enabled DEV mapping required" []
  end.
(** [^sha256:[a-f0-9]{64}$] is [is_digest]; the artifact that is deployed again. *)
Definition selected_artifact (st : State) (c : Command) (input : DeployInput) (inn : Integration) (app : Application)
    (snap : DeliverySnapshot) : res (option DeliveryArtifact) :=
  if Command_Action c == "deploy_existing_artifact" then
    let build := DeliverySnapshot_Build snap in
    known ← validatedExistingArtifact st (DeployInput_ArtifactID input) (ProductID inn) (ID app) (Application_RepositoryID app)
              (IntegrationRevision_HeadCommit (DeliverySnapshot_Revision snap)) (ComponentBuild_ImageRepository build);
    _ ← (if ComponentBuild_Mode build == "NATIVE" then
           reject_if (match DeliveryArtifact_Native known with Some n => NativeArtifact_Profile n != ComponentBuild_Profile build | None => true end)
             (invalid "native artifact profile mismatch" [])
         else reject_if (match DeliveryArtifact_Native known with Some _ => true | None => false end)
             (invalid "native artifact requires native component mode" []));
    _ ← reject_if ((DeployInput_ExpectedDigest input != "") && (DeployInput_ExpectedDigest input != DeliveryArtifact_Digest known))
          (invalid "expected digest differs from selected artifact" []);
    Ok (Some known)
  else
    _ ← reject_if (DeployInput_ArtifactID input != "") (invalid "artifact_id requires deploy_existing_artifact" []);
    Ok None.
Definition deploying (e : Environment) (app : Application) (op : ExternalOperation) : bool :=
  (ExternalOperation_Kind op == "DEPLOY") && (ExternalOperation_EnvironmentID op == ID e)
  && (ExternalOperation_ApplicationID op == ID app) && negb (terminalOperation (ExternalOperation_Status op)).
Definition delivery_operation (c : Command) (m : Meta) (input : DeployInput) (hash : string) (inn : Integration) (app : Application)
    (e : Environment) (snap : DeliverySnapshot) (known : option DeliveryArtifact) (native : option NativeDelivery) : ExternalOperation :=
  (zero : ExternalOperation) <| ExternalOperation_RequestKey := DeployInput_RequestKey input |> <| ExternalOperation_RequestHash := hash |>
    <| ExternalOperation_Meta := m |> <| ExternalOperation_Kind := "DEPLOY" |> <| ExternalOperation_IntegrationID := ID inn |>
    <| ExternalOperation_EnvironmentID := ID e |> <| ExternalOperation_ApplicationID := ID app |>
    <| ExternalOperation_Status := "PENDING" |> <| ExternalOperation_RequestedBy := Command_Actor c |>
    <| ExternalOperation_Phase := "PREFLIGHT" |> <| ExternalOperation_Snapshot := Some snap |>
    <| ExternalOperation_ExistingArtifact := known |>
    <| ExternalOperation_ExpectedDigest := match known with Some k => DeliveryArtifact_Digest k | None => DeployInput_ExpectedDigest input end |>
    <| ExternalOperation_Native := native |> <| ExternalOperation_NextAttemptAt := now "deploy" 0 |>.
(** An exact retry is answered with the operation it created. *)
Definition deploy_replay (st : State) (c : Command) (input : DeployInput) (hash : string) : res (option ExternalOperation) :=
  if DeployInput_RequestKey input == "" then Ok None
  else
    _ ← reject_if (negb (workerRequestKey (DeployInput_RequestKey input))) (invalid "invalid delivery request_key" []);
    match find_first (fun previous => (ExternalOperation_Kind previous == "DEPLOY") && (ExternalOperation_IntegrationID previous == Command_IntegrationID c)
                        && (ExternalOperation_RequestKey previous == DeployInput_RequestKey input)) (State_Operations st) with
    | None => Ok None
    | Some previous =>
      if ExternalOperation_RequestHash previous != hash then invalid "conflicting delivery request replay" [] else Ok (Some previous)
    end.
Definition outside_scope (repos : list string) (repo : string) : bool := negb (bool_decide (repos = [])) && negb (contains repos repo).
Definition deploy_integration (st : State) (c : Command) (m : Meta) : res (State * Out * Meta) :=
  input ← decode (Command_Data c) (zero : DeployInput);
  let hash := Fingerprint (Command_Action c, Command_IntegrationID c, Command_Actor c, input) in
  replay ← deploy_replay st c input hash;
  match replay with
  | Some previous => Ok (st, OutOperation previous, ExternalOperation_Meta previous)
  | None =>
    match integration st (Command_IntegrationID c) with
    | None => missing "integration" (Command_IntegrationID c)
    | Some inn =>
      component ← deployed_component st inn input;
      match applicationByID st component, environmentByID st (DeployInput_EnvironmentID input) with
      | Some app, Some e =>
        _ ← reject_if ((ProductID app != ProductID inn) || (ProductID e != ProductID inn) || (ComponentKind app != "APPLICATION"))
              (invalid "component and environment must belong to integration product" []);
        _ ← reservationFree st (ID e);
        _ ← reject_if (outside_scope (Integration_Repositories inn) (Application_RepositoryID app))
              (invalid "component repository not in integration scope" []);
        _ ← reject_if (match feature st (FeatureID inn) with
                       | Some f => outside_scope (Feature_Repositories f) (Application_RepositoryID app) | None => false end)
              (invalid "component repository not in feature scope" []);
        revision ← deployed_revision st inn app input;
        snap ← frozen_delivery st c m inn app e revision;
        _ ← reject_if ((DeployInput_ExpectedDigest input != "") && negb (is_digest (DeployInput_ExpectedDigest input)))
              (invalid "expected_digest requires sha256 digest" []);
        _ ← each (fun op => reject_if (deploying e app op) (invalid "deployment already active for environment/component" [])) (State_Operations st);
        known ← selected_artifact st c input inn app snap;
        native ← (if (ComponentBuild_Mode (DeliverySnapshot_Build snap) == "NATIVE") && (Command_Action c == "deploy_integration")
                  then Some <$> freezeNative (ProductID inn) app (DeliverySnapshot_Build snap) (Meta_CreatedAt m) else Ok None);
        let v := delivery_operation c m input hash inn app e snap known native in
        Ok (st <| State_Operations ::= fun l => l ++ [v] |>, OutOperation v, m)
      | _, _ => invalid "component and environment must belong to integration product" []
      end
    end
  end.

Definition applyExternal (st : State) (c : Command) (m : Meta) : res (State * Out * Meta) :=
  let action := Command_Action c in
  if action == "refresh_environment_runtime" then refresh_environment_runtime st c m
  else if action == "grant_connection" then grant_connection st c m
  else if action == "create_github_connection" then create_github_connection st c m
  else if action == "import_repository" then import_repository st c m
  else if action == "configure_component" then configure_component st c m
  else if action == "configure_environment" then configure_environment st c m
  else if action == "refresh_integration_git" then refresh_integration_git st c m
  else if action == "refresh_repository_git" then refresh_repository_git st c m
  else if contains ["deploy_integration"; "deploy_existing_artifact"] action then deploy_integration st c m
  else invalid "unknown external command" [].
End handlers.
