(* ===== verification/Candidates.v ===== *)
(** * Main candidates

    The guards of [internal/application/main_candidate.go]: which evidence
    entitles a selection of merged revisions to become a candidate for
    production, and that a candidate admitted earlier still rests on it.
    [releaseWorkReady] of flow.go and the freezing of native builds
    (native_delivery.go) are shared with the composition flow. *)
From S2P Require Import Prelude GoText GoJson Delivery Domain Status Planning Handlers DeviceAuth Collections ExternalSystems Reservation Composition Conflicts Scenarios Pins WorkerAuth WorkerJobs Publications WorkerProtocol External.
Open Scope string_scope.
Open Scope list_scope.

(** [strconv.ParseInt(s, 10, 64)] *)
Definition ParseInt (s : string) : option Z :=
  match s with
  | String "+" EmptyString => None
  | String "+" r => v ← digits_value 0 r; if (v <=? 2 ^ 63 - 1)%Z then Some v else None
  | _ => parse_int s
  end.
(** [if ok is false, the error] *)
Definition require (b : bool) (format : string) : res unit := reject_if (negb b) (invalid format []).
(** A looked-up pointer is neither nil nor different from the frozen value. *)
Definition still {A} `{EqDecision A} (current : option A) (frozen : A) : bool := current == Some frozen.

(** ** flow.go *)
Definition selectedIntegrations (comp : Composition) : list string :=
  foldl (fun out r => if contains out (IntegrationRevision_IntegrationID r) then out else out ++ [IntegrationRevision_IntegrationID r])
    [] (Composition_RevisionSnapshots comp).
Definition dependency_released (st : State) (selected : list string) (dep : string) : bool :=
  match integration st dep with
  | Some d => (Integration_Status d == "released") || contains selected dep
  | None => false
  end.

Section candidates.
Context `{Runtime, Upper, Hashing, RestorationEvidence, Operator}.

Definition selected_ready (st : State) (comp : Composition) (selected : list string) (iid : string) : res unit :=
  match integration st iid with
  | None => invalid "selected integration must be ready: %s" [iid]
  | Some inn =>
    _ ← reject_if ((ProductID inn != ProductID comp) || negb (ready_status (Integration_Status inn)))
          (invalid "selected integration must be ready: %s" [iid]);
    _ ← readiness st inn;
    each (fun dep => reject_if (negb (dependency_released st selected dep)) (invalid "unreleased dependency %s" [dep]))
      (Integration_Dependencies inn)
  end.
Definition repositories_included (st : State) (comp : Composition) (iid : string) : res unit :=
  match integration st iid with
  | None => Err ErrPanic
  | Some inn =>
    each (fun repo => reject_if (negb (existsb (fun r => (IntegrationRevision_IntegrationID r == iid) && (IntegrationRevision_RepositoryID r == repo))
                                         (Composition_RevisionSnapshots comp)))
                        (invalid "release missing integration repository %s" [repo])) (Integration_Repositories inn)
  end.
Definition releaseWorkReady (st : State) (comp : Composition) : res unit :=
  let selected := selectedIntegrations comp in
  _ ← reject_if (bool_decide (selected = [])) (invalid "release requires selected integrations" []);
  _ ← each (selected_ready st comp selected) selected;
  each (repositories_included st comp) selected.

(** ** native_delivery.go: the authority frozen when a build was requested *)
Context `{World}.
Definition validateFrozenNative (product : string) (snap : DeliverySnapshot) (requestedAt : Time) : res unit :=
  if ComponentBuild_Mode (DeliverySnapshot_Build snap) != "NATIVE" then
    reject_if (match DeliverySnapshot_Native snap with Some _ => true | None => false end)
      (invalid "unexpected native component authority" [])
  else match DeliverySnapshot_Native snap with
  | None => invalid "missing request-time native component authority" []
  | Some native =>
    expected ← freezeNative product (DeliverySnapshot_Application snap) (DeliverySnapshot_Build snap) requestedAt;
    reject_if ((native != expected) || negb (Before (now "nativeNow" 0) (NativeDelivery_Deadline native)))
      (invalid "request-time native authority changed or deadline expired" [])
  end.

(** ** The evidence for a candidate *)
(** Only the last result of every check. *)
Definition mainCandidateCausalState (st : State) : State :=
  st <| State_Results := (fix go (l : list CheckResult) : list CheckResult :=
      match l with
      | [] => []
      | r :: l => if existsb (fun r' => CheckResult_CheckID r' == CheckResult_CheckID r) l then go l else r :: go l
      end) (State_Results st) |>.
Definition mainCandidateSnapshotHash (op : ExternalOperation) : string :=
  Fingerprint (ExternalOperation_CompositionSnapshot op,
    map (fun snap => snap <| DeliverySnapshot_MainCandidate := None |>) (ExternalOperation_PreparedDeployments op)).
Definition last_result (st : State) (chk : Check) : option CheckResult :=
  find_last (fun r => CheckResult_CheckID r == ID chk) (State_Results st).
Definition checks_of (st : State) (g : Gate) : list Check := List.filter (fun chk => Check_GateID chk == ID g) (State_Checks st).
Definition source_gate (product : string) (integ : Integration) (g : Gate) : bool :=
  (ProductID g == product) && (FeatureID g == FeatureID integ) && Gate_Blocking g && contains (Gate_IntegrationIDs g) (ID integ).
(** The gate is one whose results the request names. *)
Definition selected_gate (st : State) (supplied : list string) (g : Gate) : bool :=
  existsb (fun chk => existsb (fun r => (CheckResult_CheckID r == ID chk) && contains supplied (ID r)) (State_Results st)) (checks_of st g).
Definition verified_result (product head : string) (g : Gate) (supplied : list string) (selected : bool) (last : CheckResult) : bool :=
  (CheckResult_Result last == "passed") && (ProductID last == product) && (FeatureID last == FeatureID g)
  && negb (selected && (negb (contains supplied (ID last)) || (CheckResult_Commit last != head)))
  && negb ((Gate_Commit g != "") && (CheckResult_Commit last != Gate_Commit g))
  && negb ((Gate_EnvironmentID g != "") && (CheckResult_EnvironmentID last != Gate_EnvironmentID g))
  && negb ((Gate_Deployment g != "") && (CheckResult_Deployment last != Gate_Deployment g)).
Definition verified_check (st : State) (product head : string) (g : Gate) (supplied : list string) (selected : bool) (chk : Check)
    : res (Check * CheckResult) :=
  _ ← reject_if ((ProductID chk != product) || (FeatureID chk != FeatureID g)) (invalid "source check scope mismatch" []);
  match last_result st chk with
  | None => invalid "complete latest exact-head source gate verification required" []
  | Some last =>
    if verified_result product head g supplied selected last then Ok (chk, last)
    else invalid "complete latest exact-head source gate verification required" []
  end.
(** Whether the request names the gate, and its checks with their last results. *)
Definition verified_gate (st : State) (product head : string) (supplied : list string) (g : Gate) : res (bool * list (Check * CheckResult)) :=
  let selected := selected_gate st supplied g in
  verified ← foldM (fun acc chk => v ← verified_check st product head g supplied selected chk; Ok (acc ++ [v])) [] (checks_of st g);
  _ ← reject_if (bool_decide (verified = [])) (invalid "source blocking gate has no checks" []);
  Ok (selected, verified).
Definition distinct_ids (ids : list string) : res unit :=
  _ ← foldM (fun seen rid => if contains seen rid || (rid == "") || (128 <? strlen rid)%Z
                             then invalid "duplicate source verification result" [] else Ok (rid :: seen)) [] ids;
  Ok ().
Definition gate_proof (v : Gate * (bool * list (Check * CheckResult))) :=
  (v.1 <| Gate_Result := "" |>, map fst v.2.2, map (fun cr => (ID cr.2, Fingerprint (Some cr.2))) v.2.2).
Definition revision_evidence (st : State) (product : string) (app : Application) (chosen : MainCandidateRevision)
    : res (IntegrationRevision * Integration * list (Gate * (bool * list (Check * CheckResult)))) :=
  match revisionByID st (MainCandidateRevision_RevisionID chosen) with
  | None => invalid "main revision identity mismatch" []
  | Some rev =>
    let head := IntegrationRevision_HeadCommit rev in
    _ ← reject_if ((ProductID rev != product) || (IntegrationRevision_RepositoryID rev != Application_RepositoryID app)
                   || negb (strlen head == 40%Z) || negb (fullSHA head)) (invalid "main revision identity mismatch" []);
    match integration st (IntegrationRevision_IntegrationID rev) with
    | None => invalid "main source integration must be ready" []
    | Some integ =>
      _ ← reject_if ((ProductID integ != product) || (FeatureID integ != FeatureID rev) || negb (ready_status (Integration_Status integ)))
            (invalid "main source integration must be ready" []);
      _ ← readiness (mainCandidateCausalState st) integ;
      let supplied := MainCandidateRevision_VerificationResultIDs chosen in
      _ ← distinct_ids supplied;
      gates ← foldM (fun acc g => if source_gate product integ g
                                  then v ← verified_gate st product head supplied g; Ok (acc ++ [(g, v)]) else Ok acc) [] (State_Gates st);
      let used := remove_dups (concat (map (fun v => if v.2.1 : bool then map (fun cr => ID cr.2) v.2.2 else []) gates)) in
      _ ← reject_if (negb (existsb (fun v => v.2.1) gates) || negb (length used =? length supplied)%nat)
            (invalid "whole blocking source gate coverage required" []);
      Ok (rev, integ, gates)
    end
  end.
Definition source_evidence (st : State) (product : string) (src : MainCandidateSource)
    : res (list (IntegrationRevision * Integration * list (Gate * (bool * list (Check * CheckResult))))) :=
  match applicationByID st (MainCandidateSource_ApplicationID src) with
  | None => invalid "main source component outside product" []
  | Some app =>
    _ ← reject_if (ProductID app != product) (invalid "main source component outside product" []);
    foldM (fun acc chosen => e ← revision_evidence st product app chosen; Ok (acc ++ [e])) [] (MainCandidateSource_Revisions src)
  end.
Definition candidate_evidence (st : State) (product : string) (request : MainCandidateRequest) :=
  foldM (fun acc src => es ← source_evidence st product src; Ok (acc ++ es)) [] (MainCandidateRequest_MainSources request).
Definition mainCandidateAuthority (st : State) (product : string) (request : MainCandidateRequest) : res string :=
  evidence ← candidate_evidence st product request;
  Ok (Fingerprint (map (fun e => (e.1.1, e.1.2, map gate_proof e.2)) evidence)).

(** ** The guards of a candidate *)
Definition candidate_phase (op : ExternalOperation) : bool :=
  contains ["QUEUE_BUILDS"; "WAIT_CHILDREN"] (ExternalOperation_Phase op) && bool_decide (ExternalOperation_Sources op = [])
  && (ExternalOperation_ParentID op == "") && (ExternalOperation_ReleaseCandidateID op == "")
  && bool_decide (ExternalOperation_GitOpsPR op = None) && bool_decide (ExternalOperation_GitOpsResult op = None)
  && bool_decide (ExternalOperation_Run op = None).
Definition candidate_request (op : ExternalOperation) (p : MainCandidateProof) : bool :=
  let request := MainCandidateProof_Request p in
  (ExternalOperation_EnvironmentID op == MainCandidateRequest_EnvironmentID request)
  && (ExternalOperation_RequestKey op == MainCandidateRequest_IdempotencyKey request)
  && (ExternalOperation_RequestHash op == Fingerprint (ProductID op, ExternalOperation_RequestedBy op, request)).
(** The build, target and sources the candidate was admitted with. *)
Definition candidate_binding (snap : DeliverySnapshot) (selected : MainCandidateSource) (proof : MainCandidateRepository) : bool :=
  (MainCandidateRepository_RepositoryID proof == Application_RepositoryID (DeliverySnapshot_Application snap))
  && (length (MainCandidateRepository_Revisions proof) =? length (MainCandidateSource_Revisions selected))%nat
  && (ComponentBuild_Mode (DeliverySnapshot_Build snap) == "NATIVE") && (EnvironmentBinding_Purpose (DeliverySnapshot_Target snap) == "PROD")
  && (EnvironmentBinding_GitOpsMode (DeliverySnapshot_Target snap) == "PR") && EnvironmentBinding_AllowDeploy (DeliverySnapshot_Target snap)
  && negb (ComponentBuild_RebuildMissing (DeliverySnapshot_Build snap))
  && (ComponentBuild_Native (DeliverySnapshot_Build snap) == Some (MainCandidateSource_Native selected)).
Definition merged_revision (st : State) (chosen : MainCandidateRevision) (frozen : MainCandidateMergedRevision) : bool :=
  match revisionByID st (MainCandidateRevision_RevisionID chosen) with
  | None => false
  | Some rev =>
    (MainCandidateMergedRevision_RevisionID frozen == ID rev) && (MainCandidateMergedRevision_HeadSHA frozen == IntegrationRevision_HeadCommit rev)
    && (MainCandidateMergedRevision_HeadRef frozen == IntegrationRevision_Branch rev)
    && (MainCandidateMergedRevision_PullRequestNumber frozen == MainCandidateRevision_PullRequestNumber chosen)
    && (strlen (MainCandidateMergedRevision_MergeSHA frozen) == 40%Z) && fullSHA (MainCandidateMergedRevision_MergeSHA frozen)
    && (MainCandidateMergedRevision_ObservationHash frozen != "")
  end.
Definition candidate_configuration (st : State) (op : ExternalOperation) (snap : DeliverySnapshot) : bool :=
  match DeliverySnapshot_BuildBaseline snap with
  | None => false
  | Some baseline =>
    still (componentBuild st (ID (DeliverySnapshot_Application snap))) baseline
    && still (environmentBinding st (ExternalOperation_EnvironmentID op) (ID (DeliverySnapshot_Application snap))) (DeliverySnapshot_Target snap)
    && still (repositoryBinding st (RepositoryBinding_RepositoryID (DeliverySnapshot_Source snap))) (DeliverySnapshot_Source snap)
    && still (repositoryBinding st (RepositoryBinding_RepositoryID (DeliverySnapshot_GitOps snap))) (DeliverySnapshot_GitOps snap)
    && match environmentByID st (ExternalOperation_EnvironmentID op) with
       | Some e => (ProductID e == ProductID op) && (Environment_Cluster e == Environment_Cluster (DeliverySnapshot_Environment snap))
                   && (Environment_Namespace e == Environment_Namespace (DeliverySnapshot_Environment snap))
       | None => false
       end
    && still (applicationByID st (ID (DeliverySnapshot_Application snap))) (DeliverySnapshot_Application snap)
  end.
Definition same_connection (st : State) (product id : string) (config : Connection) (changed : string) : res unit :=
  conn ← scopedConnection st id product;
  reject_if (GitHubConnection_Config conn != config) (invalid changed []).
Definition guarded_component (st : State) (op : ExternalOperation) (p : MainCandidateProof)
    (x : DeliverySnapshot * (MainCandidateSource * MainCandidateRepository)) : res unit :=
  let '(snap, (selected, proof)) := x in
  _ ← require (candidate_binding snap selected proof) "main candidate effective binding changed";
  _ ← each (fun y => require (merged_revision st y.1 y.2) "main candidate merged revision proof changed")
        (zip (MainCandidateSource_Revisions selected) (MainCandidateRepository_Revisions proof));
  _ ← require (candidate_configuration st op snap) "main candidate frozen configuration changed";
  _ ← same_connection st (ProductID op) (RepositoryBinding_ConnectionID (DeliverySnapshot_Source snap)) (DeliverySnapshot_SourceConnection snap)
        "main candidate provider authority changed";
  _ ← same_connection st (ProductID op) (RepositoryBinding_ConnectionID (DeliverySnapshot_GitOps snap)) (DeliverySnapshot_GitOpsConnection snap)
        "main candidate provider authority changed";
  _ ← require ((ParseInt (repositoryLocator st (DeliverySnapshot_Source snap)) == Some (MainCandidateRepository_ProviderRepositoryID proof))
               && (configuredBase (DeliverySnapshot_Source snap) == MainCandidateRepository_MainRef proof))
        "main candidate physical repository changed";
  require ((DeliverySnapshot_MainCandidate snap == Some p) && (MainCandidateRepository_MainSHA proof == MainCandidateSource_MainSHA selected)
           && (ID (DeliverySnapshot_Application snap) == MainCandidateSource_ApplicationID selected)) "main candidate frozen proof mismatch".
Definition mainCandidateGuard (st : State) (candidate : option ExternalOperation) : res unit :=
  match candidate with
  | None => invalid "main candidate unavailable" []
  | Some op =>
    match ExternalOperation_MainCandidate op, ExternalOperation_CompositionSnapshot op with
    | Some p, Some comp =>
      _ ← require ((ExternalOperation_Kind op == "RELEASE_CANDIDATE") && (MainCandidateProof_EvidenceKind p == "ATTRIBUTED_RCP_VERIFICATION")
                   && (ExternalOperation_Status op != "CANCELLED") && (ExternalOperation_Status op != "FAILED")) "main candidate unavailable";
      _ ← require (candidate_phase op) "main candidate build-only phase policy denied";
      _ ← require ((MainCandidateProof_ConfigurationHash p != "") && (mainCandidateSnapshotHash op == MainCandidateProof_ConfigurationHash p))
            "main candidate frozen parent snapshot changed";
      _ ← require (candidate_request op p) "main candidate request proof changed";
      hash ← mainCandidateAuthority st (ProductID op) (MainCandidateProof_Request p);
      _ ← require (hash == MainCandidateProof_AuthorityHash p) "main candidate source authority changed";
      let sources := MainCandidateRequest_MainSources (MainCandidateProof_Request p) in
      _ ← require ((length (ExternalOperation_PreparedDeployments op) =? length sources)%nat
                   && (length (MainCandidateProof_Sources p) =? length (ExternalOperation_PreparedDeployments op))%nat)
            "main candidate component proof incomplete";
      _ ← releaseWorkReady (mainCandidateCausalState st) comp;
      each (guarded_component st op p) (zip (ExternalOperation_PreparedDeployments op) (zip sources (MainCandidateProof_Sources p)))
    | _, _ => invalid "main candidate unavailable" []
    end
  end.
End candidates.
