(* ===== verification/Activation.v ===== *)
(** * Activating a candidate in Dev

    The guards of [internal/application/dev_activation.go] and
    [dev_activation_groups.go]: an aggregate operation may write to a reserved
    environment only while the reservation, the candidate, its artifacts, the
    targets and the groups of writes are exactly those it was admitted with.
    [reservationOperationAllowed] (dev_reservation.go) is the fence every
    operation on an environment passes. *)
From S2P Require Import Prelude GoText GoJson Delivery Domain Status Planning Handlers DeviceAuth Collections ExternalSystems Reservation Composition Conflicts Scenarios Pins WorkerAuth WorkerJobs Publications Registry Restoration WorkerProtocol External Candidates.
Open Scope string_scope.
Open Scope list_scope.

(** [slices.IsSorted] *)
Fixpoint is_sorted (l : list string) : bool :=
  match l with
  | a :: (b :: _) as t => String.leb a b && is_sorted t
  | _ => true
  end.
Definition activationComponent (p : DevActivationProof) (id : string) : option DevActivationComponent :=
  find_first (fun c => DevActivationComponent_ChildID c == id) (DevActivationProof_Components p).
Definition activationGroup (p : DevActivationProof) (id : string) : option DevActivationGroup :=
  find_first (fun g => DevActivationGroup_ID g == id) (DevActivationProof_Groups p).
Definition devActivationParent (st : State) (op : ExternalOperation) : option ExternalOperation :=
  if ExternalOperation_Kind op == devActivationKind then operationByID st (ID op)
  else if (ExternalOperation_Kind op == "DEPLOY") && (ExternalOperation_ParentID op != "") then
    match operationByID st (ExternalOperation_ParentID op) with
    | Some p => if ExternalOperation_Kind p == devActivationKind then Some p else None
    | None => None
    end
  else None.
Definition activated_child (st : State) (op : ExternalOperation) : bool := is_some (devActivationParent st op).
(** What a child of an activation has done, for the bound on the whole proof. *)
Definition child_proof (v : ExternalOperation) : ExternalOperation :=
  (zero : ExternalOperation) <| ExternalOperation_DevActivationBatch := ExternalOperation_DevActivationBatch v |>
    <| ExternalOperation_GitOpsBase := ExternalOperation_GitOpsBase v |> <| ExternalOperation_GitOpsPR := ExternalOperation_GitOpsPR v |>
    <| ExternalOperation_GitOpsResult := ExternalOperation_GitOpsResult v |>.

Section activation.
Context `{Runtime, Upper, Hashing, Encoding, URLs, RestorationEvidence, Operator}.

Definition activationProofHash (p : DevActivationProof) : string := Fingerprint (p <| DevActivationProof_SnapshotHash := "" |>).
Definition activationPRHash (pr : GitOpsPullRequest) : string :=
  Fingerprint (GitOpsPullRequest_Number pr, GitOpsPullRequest_URL pr, GitOpsPullRequest_HeadSHA pr).
Definition runtimeGitOpsAuthority (c : Connection) : res string :=
  match GitOpsAuthorityFingerprint c with
  | Ok v => Ok v
  | Err _ => invalid "%v" ["GitOps API authority unavailable"]
  end.
Definition activationPhysicalKey (c : Connection) (repository ref : string) : string :=
  authority_of c +:+ "|" +:+ repository +:+ "|" +:+ ref.

(** ** The groups of writes *)
Definition activationGroupBounds (proof : option DevActivationProof) (operations : list ExternalOperation) : res unit :=
  match proof with
  | None => invalid "candidate Dev group proof missing" []
  | Some p =>
    reject_if ((256 * 1024) <? encoded_size (p, operations) + Z.of_nat (length (DevActivationProof_Components p)) * 2000)%Z
      (invalid "candidate Dev grouped authority exceeds bound" [])
  end.
(** Every baseline of the component's application is the one frozen. *)
Definition original_selector (capture : DevBaselineProof) (c : DevActivationComponent) : res unit :=
  let sources := omap (fun b => (fun o => (b, o)) <$> DevBaselineComponent_ObservedGitOps b)
    (List.filter (fun b => DevBaselineComponent_ApplicationID b == DeliveryArtifact_ApplicationID (DevActivationComponent_Artifact c))
       (DevBaselineProof_Components capture)) in
  _ ← each (fun bo => require
        ((DevActivationComponent_Selector c == (DevBaselineComponent_GitOps bo.1) <| GitOpsRequest_ExpectedHeadSHA := "" |>)
         && (DevActivationComponent_Baseline c == bo.2)) "group original selector changed") sources;
  require (negb (bool_decide (sources = []))) "group original baseline missing".
Definition inspected_base (c : DevActivationComponent) (base : GitOpsSnapshot) : bool :=
  let baseline := DevActivationComponent_Baseline c in
  (GitOpsSnapshot_Content base == "") && fullSHA (GitOpsSnapshot_HeadSHA base)
  && (GitOpsSnapshot_BlobSHA base == DevRuntimeGitOpsObservation_BlobSHA baseline)
  && (GitOpsSnapshot_ImageRepository base == DevRuntimeGitOpsObservation_ImageRepository baseline)
  && (GitOpsSnapshot_Digest base == DevRuntimeGitOpsObservation_Digest baseline).
(** The result of a member is the leader's, from the same pull request. *)
Definition atomic_result (leader child : ExternalOperation) (result : GitOpsResult) : bool :=
  match ExternalOperation_GitOpsResult leader, ExternalOperation_GitOpsPR child, ExternalOperation_GitOpsPR leader with
  | Some lr, Some cp, Some lp =>
    (ExternalOperation_Status child == "SUCCEEDED") && (activationPRHash cp == activationPRHash lp)
    && (GitOpsResult_CommitSHA result == GitOpsResult_CommitSHA lr) && (GitOpsResult_URL result == GitOpsPullRequest_URL cp)
    && fullSHA (GitOpsResult_CommitSHA result) && fullSHA (GitOpsResult_BlobSHA result)
  | _, _, _ => false
  end.
Definition group_member (st : State) (p : DevActivationProof) (g : DevActivationGroup) (leader : ExternalOperation)
    (seen : list string) (id : string) : res ExternalOperation :=
  match activationComponent p id, operationByID st id with
  | Some c, Some child =>
    _ ← require (negb (contains seen id) && (DevActivationComponent_GroupID c == DevActivationGroup_ID g)
          && (ExternalOperation_DevActivationGroupID child == DevActivationGroup_ID g)
          && (DeliverySnapshot_GitOpsConnection (DevActivationComponent_Snapshot c) == DevActivationGroup_Connection g)
          && (GitOpsRequest_Repository (DevActivationComponent_Selector c) == DevActivationGroup_Repository g)
          && (GitOpsRequest_Ref (DevActivationComponent_Selector c) == DevActivationGroup_Ref g))
          "candidate Dev group membership changed";
    _ ← require (match ExternalOperation_GitOpsBase child with Some base => inspected_base c base | None => true end)
          "candidate Dev original inspected base changed";
    _ ← require (match ExternalOperation_GitOpsResult child with Some r => atomic_result leader child r | None => true end)
          "candidate Dev atomic group result changed";
    _ ← reject_if (is_some (ExternalOperation_GitOpsResult leader) && negb (is_some (ExternalOperation_GitOpsResult child)))
          (invalid "candidate Dev partial group result" []);
    _ ← reject_if ((ID child != DevActivationGroup_LeaderID g)
          && (is_some (ExternalOperation_DevActivationBatch child) || (ExternalOperation_DevActivationIntentHash child != "")))
          (invalid "follower gained proposal authority" []);
    Ok child
  | _, _ => invalid "candidate Dev group membership changed" []
  end.
Definition prepared_member (p : DevActivationProof) (x : string * GitOpsImageChange) : res unit :=
  match activationComponent p x.1 with
  | None => Err ErrPanic
  | Some c =>
    require ((GitOpsImageChange_ID x.2 == x.1) && (GitOpsImageChange_Selector x.2 == DevActivationComponent_Selector c)
        && (GitOpsImageChange_ExpectedBlobSHA x.2 == DevRuntimeGitOpsObservation_BlobSHA (DevActivationComponent_Baseline c))
        && (GitOpsImageChange_ImageRepository x.2 == DeliveryArtifact_ImageRepository (DevActivationComponent_Artifact c))
        && (GitOpsImageChange_Digest x.2 == DeliveryArtifact_Digest (DevActivationComponent_Artifact c)))
      "candidate Dev prepared member intent changed"
  end.
Definition prepared_intent (p : DevActivationProof) (g : DevActivationGroup) (leader : ExternalOperation) : res unit :=
  match ExternalOperation_DevActivationBatch leader with
  | Some b =>
    _ ← require (negb (64 * 1024 <? encoded_size b)%Z && (GitOpsBatchApply_Repository b == DevActivationGroup_Repository g)
          && (GitOpsBatchApply_Ref b == DevActivationGroup_Ref g) && (GitOpsBatchApply_OperationID b == DevActivationGroup_LeaderID g)
          && (GitOpsBatchApply_Message b == "release-control: " +:+ DevActivationGroup_LeaderID g)
          && fullSHA (GitOpsBatchApply_ExpectedHeadSHA b)
          && (length (GitOpsBatchApply_Changes b) =? length (DevActivationGroup_MemberIDs g))%nat
          && (ExternalOperation_DevActivationIntentHash leader == Fingerprint (Some b)))
          "candidate Dev prepared group intent changed";
    each (prepared_member p) (zip (DevActivationGroup_MemberIDs g) (GitOpsBatchApply_Changes b))
  | None =>
    reject_if ((ExternalOperation_DevActivationIntentHash leader != "")
               || contains ["APPLY_UNCERTAIN"; "WAIT_GITOPS_PR"] (ExternalOperation_Phase leader))
      (invalid "candidate Dev prepared group intent missing" [])
  end.
(** The members seen, the physical destinations and the work of the children. *)
Definition checked_groups : Type := list string * list string * list ExternalOperation.
Definition validate_group (st : State) (p : DevActivationProof) (acc : checked_groups) (g : DevActivationGroup) : res checked_groups :=
  let '(seen, physical, ops) := acc in
  _ ← runtimeGitOpsAuthority (DevActivationGroup_Connection g);
  let key := activationPhysicalKey (DevActivationGroup_Connection g) (DevActivationGroup_Repository g) (DevActivationGroup_Ref g) in
  _ ← require (is_sorted (DevActivationGroup_MemberIDs g) && (head (DevActivationGroup_MemberIDs g) == Some (DevActivationGroup_LeaderID g))
        && (DevActivationGroup_ID g == Fingerprint key) && negb (contains physical key)) "candidate Dev group identity changed";
  match operationByID st (DevActivationGroup_LeaderID g) with
  | None => invalid "candidate Dev group leader missing" []
  | Some leader =>
    '(seen, ops) ← foldM (fun '(seen, ops) id => child ← group_member st p g leader seen id; Ok (id :: seen, ops ++ [child_proof child]))
                     (seen, ops) (DevActivationGroup_MemberIDs g);
    _ ← prepared_intent p g leader;
    Ok (seen, key :: physical, ops)
  end.
Definition validateActivationGroups (st : State) (parent : ExternalOperation) : res unit :=
  match ExternalOperation_DevActivation parent with
  | None => Err ErrPanic
  | Some p =>
    match mbind ExternalOperation_DevBaseline (operationByID st (DevActivationProof_BaselineCaptureID p)) with
    | None => invalid "group baseline capture missing" []
    | Some capture =>
      _ ← each (original_selector capture) (DevActivationProof_Components p);
      _ ← reject_if (bool_decide (DevActivationProof_Groups p = []) || (16 <? length (DevActivationProof_Groups p))%nat
                     || (16 <? length (DevActivationProof_Components p))%nat) (invalid "grouped candidate Dev capability required" []);
      '(seen, _, ops) ← foldM (validate_group st p) ([], [], []) (DevActivationProof_Groups p);
      _ ← require (length seen =? length (DevActivationProof_Components p))%nat "candidate Dev incomplete grouped membership";
      activationGroupBounds (Some p) ops
    end
  end.

(** ** The capability of an activation *)
(** The aggregate a worker carries is the one stored. *)
Definition unchanged_aggregate (op parent : ExternalOperation) : bool :=
  (ExternalOperation_DevActivation op == ExternalOperation_DevActivation parent) && (ExternalOperation_ChildIDs op == ExternalOperation_ChildIDs parent)
  && (ExternalOperation_PreparedDeployments op == ExternalOperation_PreparedDeployments parent)
  && (ExternalOperation_RequestHash op == ExternalOperation_RequestHash parent)
  && (ExternalOperation_RequestKey op == ExternalOperation_RequestKey parent)
  && (ExternalOperation_ReservationEpoch op == ExternalOperation_ReservationEpoch parent).
Definition aggregate_shape (op : ExternalOperation) : bool :=
  (ExternalOperation_ParentID op == "") && negb (ExternalOperation_BuildOnly op) && bool_decide (ExternalOperation_Native op = None)
  && bool_decide (ExternalOperation_Snapshot op = None) && bool_decide (ExternalOperation_MainCandidate op = None)
  && (ExternalOperation_ReleaseCandidateID op == "") && bool_decide (ExternalOperation_Sources op = []).
Definition activation_request (parent : ExternalOperation) (p : DevActivationProof) : bool :=
  (DevActivationProof_SnapshotHash p != "") && (DevActivationProof_SnapshotHash p == activationProofHash p)
  && (ExternalOperation_RequestKey parent == DevReservationRequest_RequestKey (DevActivationProof_Request p))
  && (DevReservationRequest_ReservationOperationID (DevActivationProof_Request p) == DevActivationProof_ReservationOperationID p)
  && (ExternalOperation_RequestHash parent
      == Fingerprint ("deploy_candidate_dev", ProductID parent, ExternalOperation_RequestedBy parent, DevActivationProof_Request p)).
Definition activation_hold (st : State) (parent : ExternalOperation) (p : DevActivationProof) : option (ExternalOperation * DevReservationProof) :=
  match activeDevReservation st (ExternalOperation_EnvironmentID parent) with
  | Some hold =>
    match ExternalOperation_DevReservation hold with
    | Some reservation =>
      if (ID hold == DevActivationProof_ReservationOperationID p) && (ProductID hold == ProductID parent)
         && (ExternalOperation_RequestedBy hold == ExternalOperation_RequestedBy parent) && (ExternalOperation_Status hold == "SUCCEEDED")
         && (ExternalOperation_Phase hold == "RESERVED") && negb (ExternalOperation_ReservationQuarantined hold)
         && (Fingerprint (Some reservation) == DevActivationProof_ReservationHash p)
      then Some (hold, reservation) else None
    | None => None
    end
  | None => None
  end.
Definition reserved_selection (parent : ExternalOperation) (p : DevActivationProof) (reservation : DevReservationProof) (e : Environment) : bool :=
  (ProductID e == ProductID parent) && (Environment_ReservationEpoch e == ExternalOperation_ReservationEpoch parent)
  && (Environment_ReservationEpoch e == DevReservationProof_Epoch reservation)
  && (selectionToken e == DevReservationProof_ReservedSelection reservation)
  && (DevReservationRequest_ExpectedSelection (DevActivationProof_Request p) == Some (selectionToken e))
  && (Environment_Cluster e == Environment_Cluster (DevReservationProof_Environment reservation))
  && (Environment_Namespace e == Environment_Namespace (DevReservationProof_Environment reservation)).
Definition activated_candidate (st : State) (parent : ExternalOperation) (p : DevActivationProof) (reservation : DevReservationProof)
    : option ExternalOperation :=
  match operationByID st (DevActivationProof_CandidateOperationID p) with
  | Some candidate =>
    if (ProductID candidate == ProductID parent) && (ExternalOperation_Status candidate == "SUCCEEDED")
       && (ExternalOperation_DeploymentState candidate == "READY_FOR_VERIFICATION") && is_some (ExternalOperation_MainCandidate candidate)
       && (Fingerprint (ExternalOperation_MainCandidate candidate) == DevActivationProof_CandidateHash p)
       && (DevReservationProof_CandidateOperationID reservation == ID candidate)
       && (DevReservationProof_CandidateHash reservation == DevActivationProof_CandidateHash p)
    then Some candidate else None
  | None => None
  end.

(** *** One component *)
Definition original_child (st : State) (candidate : ExternalOperation) (c : DevActivationComponent) : option (ExternalOperation * DeliverySnapshot) :=
  match operationByID st (DevActivationComponent_OriginalChildID c) with
  | Some origin =>
    match ExternalOperation_Snapshot origin, ExternalOperation_Artifact origin with
    | Some snap, Some artifact =>
      if contains (ExternalOperation_ChildIDs candidate) (ID origin) && (ExternalOperation_ParentID origin == ID candidate)
         && ExternalOperation_BuildOnly origin && (ExternalOperation_Status origin == "SUCCEEDED")
         && (ExternalOperation_DeploymentState origin == "ARTIFACT_READY") && is_some (DeliverySnapshot_MainCandidate snap)
         && (ArtifactResult_Digest artifact == DeliveryArtifact_Digest (DevActivationComponent_Artifact c))
      then Some (origin, snap) else None
    | _, _ => None
    end
  | None => None
  end.
(** Only the destination differs from the original snapshot. *)
Definition substituted (original snap : DeliverySnapshot) : DeliverySnapshot :=
  original <| DeliverySnapshot_Target := DeliverySnapshot_Target snap |> <| DeliverySnapshot_Environment := DeliverySnapshot_Environment snap |>
    <| DeliverySnapshot_GitOps := DeliverySnapshot_GitOps snap |> <| DeliverySnapshot_GitOpsConnection := DeliverySnapshot_GitOpsConnection snap |>
    <| DeliverySnapshot_GitOpsRequest := DeliverySnapshot_GitOpsRequest snap |>.
Definition delivery_scope (parent origin : ExternalOperation) (original snap : DeliverySnapshot) (reservation : DevReservationProof) (e : Environment) : bool :=
  let target := DeliverySnapshot_Target snap in
  (substituted original snap == snap) && (EnvironmentBinding_EnvironmentID target == ID e)
  && (EnvironmentBinding_ApplicationID target == ExternalOperation_ApplicationID origin) && (ProductID target == ProductID parent)
  && (EnvironmentBinding_GitOpsMode target == "PR") && EnvironmentBinding_AllowDeploy target
  && contains ["DEV"; "TEST"] (EnvironmentBinding_Purpose target) && contains (DevReservationProof_Targets reservation) target.
Definition destination_current (st : State) (origin : ExternalOperation) (snap : DeliverySnapshot) (e : Environment) : bool :=
  still (environmentBinding st (ID e) (ExternalOperation_ApplicationID origin)) (DeliverySnapshot_Target snap)
  && still (repositoryBinding st (RepositoryBinding_RepositoryID (DeliverySnapshot_GitOps snap))) (DeliverySnapshot_GitOps snap)
  && (ID (DeliverySnapshot_Environment snap) == ID e) && (Environment_Cluster (DeliverySnapshot_Environment snap) == Environment_Cluster e)
  && (Environment_Namespace (DeliverySnapshot_Environment snap) == Environment_Namespace e).
Definition gitops_authority (st : State) (snap : DeliverySnapshot) (conn : GitHubConnection) : bool :=
  let request := DeliverySnapshot_GitOpsRequest snap in let target := DeliverySnapshot_Target snap in
  (GitHubConnection_Config conn == DeliverySnapshot_GitOpsConnection snap)
  && (GitOpsRequest_Repository request == repositoryLocator st (DeliverySnapshot_GitOps snap))
  && (GitOpsRequest_Ref request == EnvironmentBinding_Ref target) && (GitOpsRequest_Path request == EnvironmentBinding_Path target)
  && (GitOpsRequest_ImageField request == EnvironmentBinding_ImageField target)
  && (GitOpsRequest_DigestField request == EnvironmentBinding_DigestField target)
  && (GitOpsRequest_ImageRepository request == ComponentBuild_ImageRepository (DeliverySnapshot_Build snap)).
Definition positive_number (s : string) : bool := match ParseInt s with Some n => (0 <? n)%Z | None => false end.
Definition child_capability (parent origin child : ExternalOperation) (c : DevActivationComponent) (e : Environment) : bool :=
  (ExternalOperation_Status child != "FAILED") && (ExternalOperation_Status child != "CANCELLED") && (ExternalOperation_Kind child == "DEPLOY")
  && (ExternalOperation_ParentID child == ID parent) && (ProductID child == ProductID parent) && (ExternalOperation_EnvironmentID child == ID e)
  && (ExternalOperation_RequestedBy child == ExternalOperation_RequestedBy parent)
  && (ExternalOperation_ApplicationID child == ExternalOperation_ApplicationID origin)
  && (ExternalOperation_ReservationEpoch child == ExternalOperation_ReservationEpoch parent) && negb (ExternalOperation_BuildOnly child)
  && bool_decide (ExternalOperation_Native child = None) && bool_decide (ExternalOperation_MainCandidate child = None)
  && bool_decide (ExternalOperation_DevActivation child = None) && (ExternalOperation_ReleaseCandidateID child == "")
  && bool_decide (ExternalOperation_Run child = None) && (ExternalOperation_ExistingArtifact child == Some (DevActivationComponent_Artifact c))
  && (ExternalOperation_Snapshot child == Some (DevActivationComponent_Snapshot c))
  && (ExternalOperation_ExpectedDigest child == DeliveryArtifact_Digest (DevActivationComponent_Artifact c))
  && contains ["INSPECT"; "APPLY"; "APPLY_UNCERTAIN"; "WAIT_GITOPS_PR"] (ExternalOperation_Phase child).
Definition observed_artifact (artifact : option ArtifactResult) (digest : string) (required : bool) : bool :=
  match artifact with
  | Some a => ArtifactResult_Available a && (ArtifactResult_Digest a == digest) && negb (IsZero (ArtifactResult_ObservedAt a))
  | None => negb required
  end.
Definition complete_pr (pr : GitOpsPullRequest) : bool :=
  (0 <? GitOpsPullRequest_Number pr)%Z && (GitOpsPullRequest_URL pr != "") && fullSHA (GitOpsPullRequest_HeadSHA pr).
Definition when_some {A} (o : option A) (p : A -> bool) : bool := match o with Some x => p x | None => true end.
Definition complete_result (r : GitOpsResult) : bool := (GitOpsResult_CommitSHA r != "") && (GitOpsResult_BlobSHA r != "").
Definition uncertain_phase (op : ExternalOperation) : bool := contains ["APPLY_UNCERTAIN"; "WAIT_GITOPS_PR"] (ExternalOperation_Phase op).
Definition child_progress (child : ExternalOperation) (digest : string) : res unit :=
  _ ← require (observed_artifact (ExternalOperation_Artifact child) digest (ExternalOperation_Phase child != "INSPECT"))
        "candidate Dev observed artifact changed";
  _ ← require (when_some (ExternalOperation_GitOpsPR child) complete_pr) "candidate Dev PR identity incomplete";
  _ ← require (when_some (ExternalOperation_GitOpsPR child) (fun pr => (ExternalOperation_DevActivationPRHash child != "")
          && (ExternalOperation_DevActivationPRHash child == activationPRHash pr))) "candidate Dev frozen PR proof changed";
  _ ← require (when_some (ExternalOperation_GitOpsResult child) (fun r => complete_result r
          && (ExternalOperation_DevActivationResultHash child != "") && (ExternalOperation_DevActivationResultHash child == Fingerprint (Some r))))
        "candidate Dev frozen GitOps result changed";
  _ ← reject_if ((ExternalOperation_Status child == "SUCCEEDED")
        && ((ExternalOperation_DeploymentState child != "GITOPS_APPLIED") || negb (is_some (ExternalOperation_GitOpsResult child))))
        (invalid "candidate Dev child desired-state result missing" []);
  reject_if (uncertain_phase child
      && (negb (is_some (ExternalOperation_Artifact child)) || negb (is_some (ExternalOperation_GitOpsBase child))
          || negb (is_some (ExternalOperation_DevActivationBatch child))
          || (ExternalOperation_DevActivationIntentHash child != Fingerprint (ExternalOperation_DevActivationBatch child))))
    (invalid "candidate Dev durable GitOps intent changed" []).

(** One component of the aggregate: its original child, the snapshot prepared
    from it, the destination and the child that writes it. *)
Definition activated_component (st : State) (parent candidate : ExternalOperation) (reservation : DevReservationProof) (e : Environment)
    (x : (string * DeliverySnapshot) * DevActivationComponent) : res unit :=
  let '((childID, prepared), c) := x in
  match original_child st candidate c with
  | None => invalid "original main build-only artifact unavailable" []
  | Some (origin, original) =>
    let snap := DevActivationComponent_Snapshot c in
    _ ← require ((childID == DevActivationComponent_ChildID c) && (prepared == snap)) "candidate Dev component list changed";
    _ ← require (delivery_scope parent origin original snap reservation e) "candidate Dev delivery scope changed";
    _ ← require (destination_current st origin snap e) "candidate Dev destination changed";
    conn ← scopedConnection st (RepositoryBinding_ConnectionID (DeliverySnapshot_GitOps snap)) (ProductID parent);
    _ ← require (gitops_authority st snap conn) "candidate Dev GitOps authority changed";
    _ ← require (positive_number (GitOpsRequest_Repository (DeliverySnapshot_GitOpsRequest snap)))
          "candidate Dev numeric GitOps repository required";
    known ← validatedExistingArtifact st (ID (DevActivationComponent_Artifact c)) (ProductID parent) (ExternalOperation_ApplicationID origin)
              (IntegrationRevision_RepositoryID (DeliverySnapshot_Revision snap)) (IntegrationRevision_HeadCommit (DeliverySnapshot_Revision snap))
              (ComponentBuild_ImageRepository (DeliverySnapshot_Build snap));
    _ ← require ((known == DevActivationComponent_Artifact c)
                 && match DeliveryArtifact_Native known with
                    | Some n => NativeArtifact_Profile n == ComponentBuild_Profile (DeliverySnapshot_Build snap)
                    | None => false
                    end) "candidate Dev original artifact identity changed";
    match operationByID st (DevActivationComponent_ChildID c) with
    | None => invalid "candidate Dev exact child capability changed" []
    | Some child =>
      _ ← require (child_capability parent origin child c e) "candidate Dev exact child capability changed";
      child_progress child (DeliveryArtifact_Digest (DevActivationComponent_Artifact c))
    end
  end.

(** *** The child a worker holds *)
Definition leased_capability (parent current op : ExternalOperation) : bool :=
  contains (ExternalOperation_ChildIDs parent) (ID op) && (ExternalOperation_ParentID current == ExternalOperation_ParentID op)
  && (ExternalOperation_DevActivationGroupID current == ExternalOperation_DevActivationGroupID op)
  && is_some (ExternalOperation_Snapshot current) && (ExternalOperation_Snapshot current == ExternalOperation_Snapshot op)
  && is_some (ExternalOperation_ExistingArtifact current) && (ExternalOperation_ExistingArtifact current == ExternalOperation_ExistingArtifact op)
  && negb (ExternalOperation_BuildOnly op) && bool_decide (ExternalOperation_Native op = None) && bool_decide (ExternalOperation_Run op = None)
  && (ExternalOperation_ExpectedDigest op == ExternalOperation_ExpectedDigest current)
  && (ExternalOperation_ReservationEpoch op == ExternalOperation_ReservationEpoch current).
Definition same_pr (a b : GitOpsPullRequest) : bool :=
  (GitOpsPullRequest_Number a == GitOpsPullRequest_Number b) && (GitOpsPullRequest_HeadSHA a == GitOpsPullRequest_HeadSHA b)
  && (GitOpsPullRequest_URL a == GitOpsPullRequest_URL b).
Definition leased_child (parent current op : ExternalOperation) : res unit :=
  _ ← require (leased_capability parent current op) "candidate Dev worker capability changed";
  _ ← require (observed_artifact (ExternalOperation_Artifact op) (ExternalOperation_ExpectedDigest current) (ExternalOperation_Phase current != "INSPECT"))
        "candidate Dev leased artifact changed";
  _ ← reject_if (uncertain_phase current
        && (negb (is_some (ExternalOperation_GitOpsBase current)) || (ExternalOperation_GitOpsBase current != ExternalOperation_GitOpsBase op)
            || (ExternalOperation_DevActivationIntentHash current != ExternalOperation_DevActivationIntentHash op)
            || (ExternalOperation_DevActivationBatch current != ExternalOperation_DevActivationBatch op)))
        (invalid "candidate Dev durable GitOps base changed" []);
  _ ← require (when_some (ExternalOperation_GitOpsPR current)
                 (fun pr => match ExternalOperation_GitOpsPR op with Some held => same_pr pr held | None => false end))
        "candidate Dev frozen PR identity changed";
  _ ← require (when_some (ExternalOperation_GitOpsPR current)
                 (fun _ => ExternalOperation_DevActivationPRHash current == ExternalOperation_DevActivationPRHash op))
        "candidate Dev leased PR proof changed";
  _ ← require (when_some (ExternalOperation_GitOpsPR op) complete_pr) "candidate Dev leased PR identity incomplete";
  _ ← require (when_some (ExternalOperation_GitOpsResult current)
                 (fun _ => (ExternalOperation_GitOpsResult current == ExternalOperation_GitOpsResult op)
                           && (ExternalOperation_DevActivationResultHash current == ExternalOperation_DevActivationResultHash op)))
        "candidate Dev leased GitOps result changed";
  require (when_some (ExternalOperation_GitOpsResult op) complete_result) "candidate Dev GitOps result evidence incomplete".

(** *** The guard *)
Definition available_parent (op parent : ExternalOperation) : bool :=
  (ProductID parent == ProductID op) && (ExternalOperation_EnvironmentID parent == ExternalOperation_EnvironmentID op)
  && (ExternalOperation_RequestedBy parent == ExternalOperation_RequestedBy op) && negb (ExternalOperation_ReservationQuarantined parent)
  && (ExternalOperation_Status parent != "FAILED") && (ExternalOperation_Status parent != "CANCELLED").
Definition devActivationGuard (st : State) (op : ExternalOperation) : res unit :=
  match devActivationParent st op with
  | None => invalid "candidate Dev activation unavailable or stopped" []
  | Some parent =>
    match ExternalOperation_DevActivation parent with
    | None => invalid "candidate Dev activation unavailable or stopped" []
    | Some p =>
      _ ← require (available_parent op parent) "candidate Dev activation unavailable or stopped";
      _ ← reject_if ((ExternalOperation_Kind op == devActivationKind) && negb (unchanged_aggregate op parent && aggregate_shape op))
            (invalid "candidate Dev aggregate worker proof changed" []);
      _ ← validateActivationGroups st parent;
      _ ← require (activation_request parent p) "candidate Dev activation proof changed";
      match activation_hold st parent p with
      | None => invalid "candidate Dev reservation capability unavailable" []
      | Some (_, reservation) =>
        match environmentByID st (ExternalOperation_EnvironmentID parent) with
        | None => invalid "candidate Dev reservation selection or target changed" []
        | Some e =>
          _ ← require (reserved_selection parent p reservation e) "candidate Dev reservation selection or target changed";
          match activated_candidate st parent p reservation with
          | None => invalid "original main candidate unavailable" []
          | Some candidate =>
            _ ← mainCandidateGuard st (Some candidate);
            _ ← require (aggregate_shape parent
                  && (length (ExternalOperation_ChildIDs parent) =? length (DevActivationProof_Components p))%nat
                  && (length (DevActivationProof_Components p) =? length (ExternalOperation_ChildIDs candidate))%nat
                  && (length (ExternalOperation_PreparedDeployments parent) =? length (DevActivationProof_Components p))%nat)
                  "candidate Dev aggregate shape changed";
            _ ← each (activated_component st parent candidate reservation e)
                  (zip (zip (ExternalOperation_ChildIDs parent) (ExternalOperation_PreparedDeployments parent)) (DevActivationProof_Components p));
            if ExternalOperation_Kind op == "DEPLOY" then
              match operationByID st (ID op) with
              | None => invalid "candidate Dev worker capability changed" []
              | Some current => leased_child parent current op
              end
            else Ok ()
          end
        end
      end
    end
  end.

(** ** The fence of a reservation — dev_reservation.go *)
Definition group_authority (op : ExternalOperation) : bool :=
  (ExternalOperation_DevActivationGroupID op != "") || is_some (ExternalOperation_DevActivationBatch op)
  || (ExternalOperation_DevActivationIntentHash op != "") || (ExternalOperation_DevActivationPRHash op != "")
  || (ExternalOperation_DevActivationResultHash op != "").
Definition environment_kinds : list string := ["DEPLOY"; "COMPOSE"; "RELEASE_CANDIDATE"; "RELEASE_PROMOTION"].
Definition epoch_current (st : State) (op : ExternalOperation) : bool :=
  match environmentByID st (ExternalOperation_EnvironmentID op) with
  | Some e => Environment_ReservationEpoch e == ExternalOperation_ReservationEpoch op
  | None => false
  end.
Definition reservationOperationAllowed (st : State) (op : ExternalOperation) : res unit :=
  _ ← reject_if (group_authority op && negb (activated_child st op)) (invalid "orphaned candidate Dev group authority cannot resume" []);
  if activated_child st op then devActivationGuard st op
  else if contains environment_kinds (ExternalOperation_Kind op) then
    _ ← reservationFree st (ExternalOperation_EnvironmentID op);
    require (epoch_current st op) "environment reservation epoch changed; old operation authority cannot resume"
  else Ok ().
End activation.
