(* ===== verification/FlowGuards.v ===== *)
(** * The fences of deliveries

    What must still hold when an operation is about to have an effect:
    [flowGuard] for a composition or a release (worker_flow.go and the method
    of native_delivery.go), [flowChildAllowed] for its children
    (flow_guard.go), [mainCandidateAllowed] and [nativeMainChildAllowed] for
    candidates (main_candidate.go), [nativeDeliveryAllowed] and
    [managedWorkerAllowed] for native builds (native_delivery.go),
    [publicationEligible] for their images (native_publication.go) and
    [devActivationAllowed] for activations in Dev (dev_activation.go).  The
    package function and the method of the same name are told apart by the
    prefix [service_]. *)
From S2P Require Import Prelude GoText GoJson Delivery Domain Status Planning Handlers DeviceAuth Collections ExternalSystems Reservation Composition Conflicts Scenarios Pins WorkerAuth WorkerJobs Publications Registry Restoration Checks WorkerProtocol External Candidates Activation.
Open Scope string_scope.
Open Scope list_scope.

(** dev_baseline_activation.go [activationBaselineAllowed]: the captured
    baseline of an activation is still the one it was admitted with. *)
Class Baselines := { activationBaselineAllowed : forall `{World}, State -> ExternalOperation -> res unit }.

Section guards.
Context `{Runtime, NetURL, Upper, World, MapOrder, URLs, Hashing, Encoding, RestorationEvidence, Operator}.

(** ** Compositions and releases — worker_flow.go *)
Definition stopped (op : ExternalOperation) : bool := contains ["FAILED"; "CANCELLED"] (ExternalOperation_Status op).
Definition dependency_selected (st : State) (op : ExternalOperation) (selected : list string) (iid : string) : res unit :=
  match integration st iid with
  | None => invalid "integration unavailable" []
  | Some inn =>
    _ ← require (ProductID inn == ProductID op) "integration unavailable";
    each (fun dep => require (dependency_released st selected dep) "composition dependency changed; replan") (Integration_Dependencies inn)
  end.
(** A prepared deployment is still what is configured. *)
Definition frozen_configuration (st : State) (op : ExternalOperation) (frozen : DeliverySnapshot) : bool :=
  let app := ID (DeliverySnapshot_Application frozen) in
  EnvironmentBinding_AllowDeploy (DeliverySnapshot_Target frozen)
  && still (environmentBinding st (ExternalOperation_EnvironmentID op) app) (DeliverySnapshot_Target frozen)
  && match environmentByID st (ExternalOperation_EnvironmentID op) with
     | Some e => (Environment_Cluster e == Environment_Cluster (DeliverySnapshot_Environment frozen))
                 && (Environment_Namespace e == Environment_Namespace (DeliverySnapshot_Environment frozen))
     | None => false
     end
  && still (repositoryBinding st (RepositoryBinding_RepositoryID (DeliverySnapshot_Source frozen))) (DeliverySnapshot_Source frozen)
  && still (repositoryBinding st (RepositoryBinding_RepositoryID (DeliverySnapshot_GitOps frozen))) (DeliverySnapshot_GitOps frozen)
  && still (componentBuild st app) (DeliverySnapshot_Build frozen).
Definition same_connections (st : State) (product : string) (snap : DeliverySnapshot) (changed : string) : res unit :=
  source ← scopedConnection st (RepositoryBinding_ConnectionID (DeliverySnapshot_Source snap)) product;
  gitops ← scopedConnection st (RepositoryBinding_ConnectionID (DeliverySnapshot_GitOps snap)) product;
  require ((GitHubConnection_Config source == DeliverySnapshot_SourceConnection snap)
           && (GitHubConnection_Config gitops == DeliverySnapshot_GitOpsConnection snap)) changed.
Definition frozen_deployment (st : State) (op : ExternalOperation) (frozen : DeliverySnapshot) : res unit :=
  _ ← require (frozen_configuration st op frozen) "frozen deployment configuration changed; create a new operation";
  same_connections st (ProductID op) frozen "provider connection changed; create a new operation".
Definition native_component (st : State) (app : string) : bool :=
  match componentBuild st app with Some b => ComponentBuild_Mode b == "NATIVE" | None => false end.
Definition native_build (snap : DeliverySnapshot) : bool := ComponentBuild_Mode (DeliverySnapshot_Build snap) == "NATIVE".
Definition native_child (st : State) (id : string) : bool :=
  match mbind ExternalOperation_Snapshot (operationByID st id) with Some snap => native_build snap | None => false end.
Definition composed_apps (op : ExternalOperation) : list string :=
  match ExternalOperation_CompositionSnapshot op with
  | Some comp => map CompositionComponent_ApplicationID (Composition_Components comp)
  | None => []
  end.
Definition release_kinds : list string := ["RELEASE_CANDIDATE"; "RELEASE_PROMOTION"].
Definition nativeReleaseDenied (st : State) (op : ExternalOperation) : res unit :=
  if contains release_kinds (ExternalOperation_Kind op) then
    reject_if (existsb native_build (ExternalOperation_PreparedDeployments op) || existsb (native_child st) (ExternalOperation_ChildIDs op)
               || existsb (native_component st) (composed_apps op)) (invalid "native release/main advancement is unsupported" [])
  else Ok ().
(** The environment still desires this operation's composition. *)
Definition desires (st : State) (environmentID : string) (op : ExternalOperation) (comp : Composition) : bool :=
  match environmentByID st environmentID with
  | Some e => (Environment_DesiredOperationID e == ID op) && (Environment_DesiredCompositionID e == ID comp)
  | None => false
  end.
Definition flowGuard (st : State) (op : ExternalOperation) : res unit :=
  _ ← reservationOperationAllowed st op;
  if is_some (ExternalOperation_MainCandidate op) then mainCandidateGuard st (Some op)
  else match ExternalOperation_CompositionSnapshot op with
  | None => invalid "missing composition snapshot" []
  | Some comp =>
    _ ← validateFlowConflictResolutions st op;
    _ ← reject_if ((ExternalOperation_Kind op != "RELEASE_CANDIDATE") && negb (desires st (ExternalOperation_EnvironmentID op) op comp))
          (invalid "environment operation superseded" []);
    _ ← each (dependency_selected st op (selectedIntegrations comp)) (selectedIntegrations comp);
    _ ← each (frozen_deployment st op) (ExternalOperation_PreparedDeployments op);
    _ ← nativeReleaseDenied st op;
    _ ← (if contains release_kinds (ExternalOperation_Kind op) then releaseWorkReady st comp else Ok ());
    if ExternalOperation_Kind op == "RELEASE_PROMOTION" then scenarioCandidateReady st (ExternalOperation_ReleaseCandidateID op) else Ok ()
  end.

(** ** Children — flow_guard.go *)
Definition target_configured (st : State) (op : ExternalOperation) (snap : DeliverySnapshot) : bool :=
  EnvironmentBinding_AllowDeploy (DeliverySnapshot_Target snap)
  && still (environmentBinding st (ExternalOperation_EnvironmentID op) (ExternalOperation_ApplicationID op)) (DeliverySnapshot_Target snap).
Definition superseded (st : State) (op parent : ExternalOperation) : bool :=
  (ExternalOperation_Kind parent != "RELEASE_CANDIDATE")
  && match ExternalOperation_CompositionSnapshot parent with
     | Some comp => negb (desires st (ExternalOperation_EnvironmentID op) parent comp)
     | None => true
     end.
Definition promotion_ready (st : State) (parent : ExternalOperation) : res unit :=
  if ExternalOperation_Kind parent == "RELEASE_PROMOTION" then
    match ExternalOperation_CompositionSnapshot parent with
    | Some comp => _ ← releaseWorkReady st comp; scenarioCandidateReady st (ExternalOperation_ReleaseCandidateID parent)
    | None => Err ErrPanic
    end
  else Ok ().
Definition flowChildAllowed (st : State) (op : ExternalOperation) : res unit :=
  if activated_child st op then devActivationGuard st op
  else
    _ ← reservationOperationAllowed st op;
    if ExternalOperation_ParentID op == "" then Ok ()
    else match operationByID st (ExternalOperation_ParentID op) with
    | None => invalid "parent operation is unavailable or stopped" []
    | Some parent =>
      _ ← reject_if (stopped parent) (invalid "parent operation is unavailable or stopped" []);
      _ ← flowGuard st parent;
      _ ← reject_if (superseded st op parent) (invalid "deployment superseded by another desired composition" []);
      _ ← promotion_ready st parent;
      match ExternalOperation_Snapshot op with
      | Some snap => require (target_configured st op snap) "deployment configuration changed"
      | None => Ok ()
      end
    end.

(** ** Candidates — main_candidate.go *)
Definition candidate_recipe (st : State) (op : ExternalOperation) (snap : DeliverySnapshot) : res unit :=
  let build := DeliverySnapshot_Build snap in
  '(b, _) ← nativeRecipes (ProductID op) (DeliverySnapshot_Application snap) (ComponentBuild_Profile build) (ComponentBuild_ImageRepository build)
              (ComponentBuild_Native build);
  _ ← require (existsb (fun r => (ID r == Application_RepositoryID (DeliverySnapshot_Application snap)) && (ProductID r == ProductID op)
                                 && (Repository_URL r == Recipe_RepositoryURL b)) (State_Repositories st))
        "main candidate repository URL changed";
  validateFrozenNative (ProductID op) snap (Meta_CreatedAt (ExternalOperation_Meta op)).
Definition candidateAllowed (st : State) (candidate : option ExternalOperation) : res unit :=
  _ ← match candidate with Some op => reservationOperationAllowed st op | None => Ok () end;
  _ ← mainCandidateGuard st candidate;
  match candidate with
  | None => Err ErrPanic
  | Some op =>
    _ ← reject_if (nativeQuarantined st (ProductID op)) (invalid "main candidate quarantined" []);
    each (candidate_recipe st op) (ExternalOperation_PreparedDeployments op)
  end.
(** The interface [MainCandidates] the reservations are proved against. *)
Definition guarded_candidates (observe : ExternalOperation -> res unit) : MainCandidates :=
  {| mainCandidateAllowed := fun st op => candidateAllowed st (Some op); observeMainCandidate := observe |}.

Definition candidate_child_policy (child : ExternalOperation) (snap : DeliverySnapshot) : bool :=
  ExternalOperation_BuildOnly child && is_some (DeliverySnapshot_MainCandidate snap) && (ExternalOperation_ParentID child != "")
  && (ExternalOperation_ReleaseCandidateID child == "") && (EnvironmentBinding_Purpose (DeliverySnapshot_Target snap) == "PROD").
Definition candidate_child_phase (child : ExternalOperation) : bool :=
  contains ["NATIVE_BUILD"; "INSPECT"; "APPLY"] (ExternalOperation_Phase child)
  && bool_decide (ExternalOperation_GitOpsPR child = None) && bool_decide (ExternalOperation_GitOpsResult child = None)
  && bool_decide (ExternalOperation_GitOpsBase child = None) && is_some (ExternalOperation_Native child)
  && bool_decide (ExternalOperation_Run child = None).
Definition same_preparation (prepared snap : DeliverySnapshot) : bool :=
  (DeliverySnapshot_Build prepared == DeliverySnapshot_Build snap) && (DeliverySnapshot_BuildBaseline prepared == DeliverySnapshot_BuildBaseline snap)
  && (DeliverySnapshot_Application prepared == DeliverySnapshot_Application snap)
  && (DeliverySnapshot_Source prepared == DeliverySnapshot_Source snap) && (DeliverySnapshot_Target prepared == DeliverySnapshot_Target snap).
Definition prepared_app (app : string) (snap : DeliverySnapshot) : bool := ID (DeliverySnapshot_Application snap) == app.
(** The pinned source of a component is the one at the same position of the request. *)
Definition pinned_main (parent : ExternalOperation) (app : string) : option string :=
  i ← find_index (prepared_app app) (ExternalOperation_PreparedDeployments parent);
  p ← ExternalOperation_MainCandidate parent;
  MainCandidateSource_MainSHA <$> MainCandidateRequest_MainSources (MainCandidateProof_Request p) !! i.
Definition nativeMainChildAllowed (st : State) (child : ExternalOperation) : res unit :=
  match ExternalOperation_Snapshot child with
  | None => invalid "main candidate child policy denied" []
  | Some snap =>
    _ ← require (candidate_child_policy child snap) "main candidate child policy denied";
    _ ← require (candidate_child_phase child) "main candidate child phase cannot write GitOps or dispatch";
    match operationByID st (ExternalOperation_ParentID child) with
    | None => invalid "main candidate child link missing" []
    | Some parent =>
      let app := ExternalOperation_ApplicationID child in
      let same := List.filter (prepared_app app) (ExternalOperation_PreparedDeployments parent) in
      _ ← require (contains (ExternalOperation_ChildIDs parent) (ID child)) "main candidate child link missing";
      _ ← candidateAllowed st (Some parent);
      _ ← require (ExternalOperation_MainCandidate parent == DeliverySnapshot_MainCandidate snap) "main candidate child proof changed";
      _ ← each (fun prepared =>
            _ ← require (same_preparation prepared snap) "main candidate child snapshot changed";
            match pinned_main parent app with
            | Some sha => require (IntegrationRevision_HeadCommit (DeliverySnapshot_Revision snap) == sha) "main candidate child snapshot changed"
            | None => Err ErrPanic
            end) same;
      reject_if (bool_decide (same = [])) (invalid "main candidate component missing" [])
    end
  end.

(** ** Published native images — native_publication.go *)
Definition operator_matches (j : WorkerJob) : bool := match externalWorkers with Some w => nativeConfigMatches w j | None => false end.
Definition publication_build (st : State) (j : WorkerJob) (p : WorkerPublication) : bool :=
  let receipt := WorkerPublication_Receipt p in
  match workerJob st (WorkerLocalOCI_JobID receipt), find_first (has_id (WorkerLocalOCI_AttemptID receipt)) (State_WorkerAttempts st) with
  | Some b, Some a =>
    (ProductID b == ProductID j) && (WorkerJob_IntegrationID b == WorkerJob_IntegrationID j)
    && (WorkerInputs_SourceSHA (WorkerJob_Inputs b) == WorkerInputs_SourceSHA (WorkerJob_Inputs j))
    && (WorkerInputs_RepositoryID (WorkerJob_Inputs b) == WorkerInputs_RepositoryID (WorkerJob_Inputs j))
    && (WorkerJob_Status b == "SUCCEEDED") && (WorkerAttempt_JobID a == ID b) && (WorkerAttempt_Status a == "SUCCEEDED")
    && (mbind WorkerReport_LocalOCI (WorkerAttempt_Report a) == Some receipt)
  | _, _ => false
  end.
(** The build configuration the image must still agree with: a candidate's own
    when its baseline is unchanged. *)
Definition published_build (st : State) (j : WorkerJob) (p : WorkerPublication) : res (option ComponentBuild) :=
  let build := componentBuild st (WorkerPublication_ComponentID p) in
  match proof ← WorkerInputs_SourceProof (WorkerJob_Inputs j); origin ← operationByID st (WorkerSourceProof_DeliveryID proof);
        ExternalOperation_Snapshot origin with
  | Some snap =>
    if is_some (DeliverySnapshot_MainCandidate snap) then
      _ ← require (is_some build && (build == DeliverySnapshot_BuildBaseline snap)) "candidate baseline profile changed";
      Ok (Some (DeliverySnapshot_Build snap))
    else Ok build
  | None => Ok build
  end.
Definition published_image (w : Authority) (j : WorkerJob) (p : WorkerPublication) (build : option ComponentBuild) : res unit :=
  match build with
  | None => invalid "native component profile changed" []
  | Some b =>
    _ ← require ((ComponentBuild_Mode b == "NATIVE") && (ComponentBuild_Profile b == WorkerPublication_Profile p)) "native component profile changed";
    require (match publication w (WorkerInputs_RecipeID (WorkerJob_Inputs j)) with
             | Some r => ComponentBuild_ImageRepository b == nativeImage r
             | None => ComponentBuild_ImageRepository b == "/"
             end) "native image target changed"
  end.
Definition publication_standing (st : State) (candidate : option WorkerJob) : res unit :=
  let denied := invalid "native publication quarantined, cancelled or configuration changed" [] in
  match candidate, externalWorkers with
  | Some j, Some w =>
    _ ← reject_if ((WorkerJob_Capability j != "registry_publish") || nativeQuarantined st (ProductID j) || negb (operator_matches j)
                   || WorkerJob_CancellationRequested j) denied;
    _ ← nativeWorkerOrigin st j;
    match WorkerInputs_Publication (WorkerJob_Inputs j) with
    | None => Err ErrPanic
    | Some p =>
      _ ← require (publication_build st j p) "publication build provenance changed";
      _ ← match workerJob st (WorkerLocalOCI_JobID (WorkerPublication_Receipt p)) with Some b => nativeWorkerOrigin st b | None => Err ErrPanic end;
      build ← published_build st j p;
      published_image w j p build
    end
  | _, _ => denied
  end.
(** [publicationEligibleWithParent] with [live] false. *)
Definition historicalPublicationEligible (st : State) (j : option WorkerJob) : res unit := publication_standing st j.
Definition check_gate (st : State) (j : option WorkerJob) : bool :=
  match externalWorkers with
  | Some w => workerCheckGate w st j
  | None => workerCheckSucceeded st j
            && match j with Some j => bool_decide (WorkerInputs_Check (WorkerJob_Inputs j) = None) | None => false end
  end.

(** ** Activations — dev_activation.go *)
Context `{Baselines}.
Definition activated_image (st : State) (c : DevActivationComponent) : res unit :=
  match DeliveryArtifact_Native (DevActivationComponent_Artifact c) with
  | None => Err ErrPanic
  | Some n =>
    let job := workerJob st (NativeArtifact_PublicationJobID n) in
    _ ← historicalPublicationEligible st job;
    match mbind (fun j => WorkerInputs_Publication (WorkerJob_Inputs j)) job with
    | None => Err ErrPanic
    | Some p => require (check_gate st (workerJob st (WorkerLocalOCI_JobID (WorkerPublication_Receipt p))))
                  "candidate Dev native build check success missing"
    end
  end.
Definition devActivationAllowed (st : State) (op : ExternalOperation) : res unit :=
  _ ← devActivationGuard st op;
  match devActivationParent st op with
  | None => Err ErrPanic
  | Some parent =>
    match ExternalOperation_DevActivation parent with
    | None => Err ErrPanic
    | Some p =>
      _ ← activationBaselineAllowed st parent;
      _ ← reject_if (nativeQuarantined st (ProductID parent)) (invalid "candidate Dev activation quarantined" []);
      _ ← candidateAllowed st (operationByID st (DevActivationProof_CandidateOperationID p));
      each (activated_image st) (DevActivationProof_Components p)
    end
  end.

(** ** Native authority over a flow — native_delivery.go *)
Definition flowHasNative (st : State) (op : ExternalOperation) : bool :=
  existsb (fun snap => native_build snap || is_some (DeliverySnapshot_Native snap)) (ExternalOperation_PreparedDeployments op)
  || existsb (native_component st) (composed_apps op).
(** Each prepared deployment names a component of the composition once. *)
Definition covered_components (product : string) (requestedAt : Time) (expected : list string) (snap : DeliverySnapshot) : res (list string) :=
  let app := ID (DeliverySnapshot_Application snap) in
  _ ← require (contains expected app) "native composition component authority missing or duplicated";
  _ ← validateFrozenNative product snap requestedAt;
  Ok (List.filter (fun a => a != app) expected).
Definition service_flowGuard (st : State) (op : ExternalOperation) : res unit :=
  if is_some (ExternalOperation_MainCandidate op) then candidateAllowed st (Some op)
  else
    _ ← flowGuard st op;
    if flowHasNative st op then
      _ ← reject_if (nativeQuarantined st (ProductID op) || negb (length (ExternalOperation_PreparedDeployments op) =? length (composed_apps op))%nat)
            (invalid "native composition authority missing or quarantined" []);
      _ ← require (bool_decide (NoDup (composed_apps op))) "duplicate composition component";
      _ ← foldM (covered_components (ProductID op) (Meta_CreatedAt (ExternalOperation_Meta op))) (composed_apps op)
            (ExternalOperation_PreparedDeployments op);
      Ok ()
    else Ok ().
Definition service_flowChildAllowed (st : State) (op : ExternalOperation) : res unit :=
  if activated_child st op then devActivationAllowed st op
  else
    _ ← flowChildAllowed st op;
    match operationByID st (ExternalOperation_ParentID op) with
    | Some parent => service_flowGuard st parent
    | None => Ok ()
    end.

(** ** Native deliveries — native_delivery.go *)
Definition native_policy (op : ExternalOperation) (snap : DeliverySnapshot) : bool :=
  let target := DeliverySnapshot_Target snap in
  (is_some (DeliverySnapshot_MainCandidate snap)
   || negb (ExternalOperation_BuildOnly op) && contains ["DEV"; "TEST"] (EnvironmentBinding_Purpose target))
  && (ExternalOperation_ReleaseCandidateID op == "") && (EnvironmentBinding_GitOpsMode target == "PR") && EnvironmentBinding_AllowDeploy target
  && negb (ComponentBuild_RebuildMissing (DeliverySnapshot_Build snap)) && bool_decide (ExternalOperation_Run op = None).
Definition composition_inputs (st : State) (op : ExternalOperation) : bool :=
  (ExternalOperation_ParentID op == "")
  || match operationByID st (ExternalOperation_ParentID op), ExternalOperation_Native op with
     | Some parent, Some n => NativeDelivery_ParentHash n == nativeParentHash parent
     | _, _ => false
     end.
Definition snapshot_recipes (op : ExternalOperation) (snap : DeliverySnapshot) : res (Recipe * PublicationRecipe) :=
  let build := DeliverySnapshot_Build snap in
  nativeRecipes (ProductID op) (DeliverySnapshot_Application snap) (ComponentBuild_Profile build) (ComponentBuild_ImageRepository build)
    (ComponentBuild_Native build).
Definition recipe_repository (st : State) (op : ExternalOperation) (snap : DeliverySnapshot) : bool :=
  match find_last (fun r => (ID r == IntegrationRevision_RepositoryID (DeliverySnapshot_Revision snap)) && (ProductID r == ProductID op))
          (State_Repositories st), snapshot_recipes op snap with
  | Some r, Ok (b, _) => Repository_URL r == Recipe_RepositoryURL b
  | _, _ => false
  end.
Definition native_configuration (st : State) (op : ExternalOperation) (snap : DeliverySnapshot) : bool :=
  match environmentByID st (ExternalOperation_EnvironmentID op) with
  | Some e => (Environment_Cluster e == Environment_Cluster (DeliverySnapshot_Environment snap))
              && (Environment_Namespace e == Environment_Namespace (DeliverySnapshot_Environment snap))
  | None => false
  end
  && match componentBuild st (ExternalOperation_ApplicationID op),
           (if is_some (DeliverySnapshot_MainCandidate snap) then DeliverySnapshot_BuildBaseline snap else Some (DeliverySnapshot_Build snap)) with
     | Some current, Some expected => current == expected
     | _, _ => false
     end
  && still (environmentBinding st (ExternalOperation_EnvironmentID op) (ExternalOperation_ApplicationID op)) (DeliverySnapshot_Target snap)
  && still (repositoryBinding st (RepositoryBinding_RepositoryID (DeliverySnapshot_Source snap))) (DeliverySnapshot_Source snap)
  && still (repositoryBinding st (RepositoryBinding_RepositoryID (DeliverySnapshot_GitOps snap))) (DeliverySnapshot_GitOps snap).
(** The authority frozen with the request is the operator's and not overdue. *)
Definition native_authority (op : ExternalOperation) (snap : DeliverySnapshot) (n : NativeDelivery) : res unit :=
  '(b, p) ← snapshot_recipes op snap;
  require (match externalWorkers with Some w => NativeDelivery_ConfigRevision n == Revision w | None => false end
           && (NativeDelivery_BuildRecipeHash n == Recipe_Hash b) && (NativeDelivery_BuildRecipeRevision n == Recipe_Revision b)
           && (NativeDelivery_PublicationRecipeHash n == PublicationRecipe_Hash p)
           && (NativeDelivery_PublicationRecipeRevision n == PublicationRecipe_Revision p)
           && Before (now "nativeNow" 0) (NativeDelivery_Deadline n)) "native authority changed or delivery deadline exceeded".
Definition native_gate (st : State) (n : NativeDelivery) : bool :=
  (NativeDelivery_PublicationJobID n == "") || check_gate st (workerJob st (NativeDelivery_BuildJobID n)).
Definition nativeDeliveryAllowed (st : State) (delivery : option ExternalOperation) : res unit :=
  match delivery with
  | None => invalid "native delivery unavailable or stopped" []
  | Some op =>
    if activated_child st op then devActivationAllowed st op
    else match ExternalOperation_Snapshot op with
    | None => invalid "native delivery unavailable or stopped" []
    | Some snap =>
      _ ← require ((ExternalOperation_Kind op == "DEPLOY") && native_build snap && negb (nativeQuarantined st (ProductID op))
                   && negb (terminalOperation (ExternalOperation_Status op))) "native delivery unavailable or stopped";
      _ ← reservationOperationAllowed st op;
      _ ← (if is_some (DeliverySnapshot_MainCandidate snap) then nativeMainChildAllowed st op else Ok ());
      _ ← require (native_policy op snap) "native delivery policy denied";
      _ ← service_flowChildAllowed st op;
      _ ← require (composition_inputs st op) "native composition inputs changed";
      _ ← reject_if (is_some (ExternalOperation_Native op) && negb (recipe_repository st op snap)) (invalid "native recipe repository changed" []);
      _ ← require (native_configuration st op snap) "native delivery configuration changed";
      _ ← same_connections st (ProductID op) snap "native provider authority changed";
      _ ← require (when_some (ExternalOperation_Native op) (native_gate st)) "native build check success missing";
      match ExternalOperation_Native op with
      | Some n => native_authority op snap n
      | None => Ok ()
      end
    end
  end.
Definition managed_delivery (st : State) (j : WorkerJob) : res unit :=
  match WorkerInputs_SourceProof (WorkerJob_Inputs j) with
  | None => Ok ()
  | Some proof =>
    let delivery := operationByID st (WorkerSourceProof_DeliveryID proof) in
    _ ← nativeDeliveryAllowed st delivery;
    match delivery with
    | None => Err ErrPanic
    | Some op =>
      match ExternalOperation_Native op, ExternalOperation_Snapshot op with
      | Some n, Some snap =>
        let rev := DeliverySnapshot_Revision snap in
        _ ← require ((nativeSourceProof op == proof) && (ProductID j == ProductID op)
              && (WorkerJob_IntegrationID j == ExternalOperation_IntegrationID op)
              && (WorkerInputs_RepositoryID (WorkerJob_Inputs j) == IntegrationRevision_RepositoryID rev)
              && (WorkerInputs_RevisionID (WorkerJob_Inputs j) == ID rev)
              && (WorkerInputs_SourceSHA (WorkerJob_Inputs j) == IntegrationRevision_HeadCommit rev)) "managed worker source proof mismatch";
        reject_if (negb (native_link n j)) (invalid "managed worker link mismatch" [])
      | _, _ => invalid "managed worker source proof mismatch" []
      end
    end
  end.
(** The interface [WorkerPolicy] the worker protocol and the checks are proved
    against: managed jobs by the fence above, patches by the intelligence tasks. *)
Definition guarded_policy (patch : State -> WorkerJob -> res string)
    (bind : State -> Recipe -> string -> string -> string -> string -> res (option IntelligencePatchBinding)) : WorkerPolicy :=
  {| intelligencePatch := patch; bindIntelligencePatch := bind; managedWorkerAllowed := managed_delivery |}.
Definition publicationEligible (st : State) (j : option WorkerJob) : res unit :=
  _ ← match j with Some j => managed_delivery st j | None => Ok () end;
  publication_standing st j.
End guards.
