(* ===== verification/RegistryRefresh.v ===== *)
(** * Observations of a registry

    Who may observe an image repository now (workerconfig/observation.go,
    registry_inventory.go), the job that asks for an observation of every
    image retention knows there, and the command that queues one
    ([refreshRegistryInventory]). *)
From S2P Require Import Prelude GoText GoJson Delivery Domain Status Planning Handlers DeviceAuth Collections ExternalSystems Reservation WorkerAuth Pins WorkerJobs Registry Retention RetentionReport WorkerProtocol External Candidates.
Open Scope string_scope.
Open Scope list_scope.

(** ** The request *)
Record RefreshRequest := mkRefreshRequest {
  RefreshRequest_ApplicationID : string; RefreshRequest_RecipeID : string; RefreshRequest_RecipeRevision : string;
  RefreshRequest_RecipeHash : string; RefreshRequest_ConfigRevision : string; RefreshRequest_RequestKey : string;
  RefreshRequest_Deadline : Time
}.
#[export] Instance zero_RefreshRequest : Zero RefreshRequest := mkRefreshRequest zero zero zero zero zero zero zero.
#[export] Instance fields_RefreshRequest `{Runtime} : Fields RefreshRequest :=
  [
    field "application_id" RefreshRequest_ApplicationID; field "recipe_id" RefreshRequest_RecipeID;
    field "recipe_revision" RefreshRequest_RecipeRevision; field "recipe_hash" RefreshRequest_RecipeHash;
    field "config_revision" RefreshRequest_ConfigRevision; field "request_key" RefreshRequest_RequestKey;
    field_with "deadline" RefreshRequest_Deadline decode_time
  ].

Section refresh.
Context `{Runtime, NetURL, URLs, Hashing, Encoding, MapOrder, TimeLayout, Crypto, Operator}.
Implicit Types (w : Authority) (r : RegistryObserveRecipe) (st : State).

(** ** Authority *)
(** A configured credential that may observe for the recipe at [t]. *)
Definition may_observe w r (t : Time) (c : Credential) : bool :=
  match Authenticate w (Authority_lookup w (Credential_TokenEnv c)) t with
  | Some p => Allows p (RegistryObserveRecipe_ProductID r) (RegistryObserveRecipe_RepositoryID r) "registry_observe" t
  | None => false
  end.
Definition RegistryObservations w (t : Time) : list RegistryObservationAuthority :=
  map (fun r => mkRegistryObservationAuthority (observationScope r) (RegistryObserveRecipe_ID r) (RegistryObserveRecipe_Revision r)
                  (RegistryObserveRecipe_Hash r) (Revision w) (RegistryObserveRecipe_Limits r)
                  (existsb (may_observe w r t) (WorkerConfig_Credentials (Authority_config w))))
    (WorkerConfig_Observations (Authority_config w)).
Definition registryAuthorities st (t : Time) : list RegistryObservationAuthority :=
  match externalWorkers with
  | None => []
  | Some w =>
    map (fun a => a <| RegistryObservationAuthority_Current ::= fun current =>
           current && registryScopeCurrent st (RegistryObservationAuthority_Scope a) "" |>) (RegistryObservations w t)
  end.
Definition evaluateRetention st (product : string) (t : Time) : RetentionReport :=
  EvaluateRetention st product t (registryAuthorities st t).

(** ** The job *)
(** The URL of the last repository with this identifier in the product. *)
Definition repository_url st (product repositoryID : string) : string :=
  foldl (fun url repo => if (ID repo == repositoryID) && (ProductID repo == product) then Repository_URL repo else url) "" (State_Repositories st).
Definition known_roots (report : RetentionReport) r : list string :=
  RegistryKnownRoots (RetentionReport_Images report) (RegistryScope_ImageRepository (observationScope r)).
Definition too_many r (roots : list string) : bool :=
  (RegistryObserveLimits_MaxNodes (RegistryObserveRecipe_Limits r) <? count roots)%Z || (256 <? count roots)%Z.
Definition observation_inputs_of r (revision repositoryID repositoryURL : string) (roots : list string) (report : RetentionReport) : WorkerInputs :=
  let scope := observationScope r in
  (zero : WorkerInputs) <| WorkerInputs_RecipeID := RegistryObserveRecipe_ID r |>
    <| WorkerInputs_RecipeRevision := RegistryObserveRecipe_Revision r |> <| WorkerInputs_RecipeHash := RegistryObserveRecipe_Hash r |>
    <| WorkerInputs_ConfigRevision := revision |> <| WorkerInputs_RepositoryID := repositoryID |>
    <| WorkerInputs_RepositoryURL := repositoryURL |> <| WorkerInputs_Trust := "registry_observation" |>
    <| WorkerInputs_Registry := Some (mkWorkerRegistryInputs scope roots
         (RegistryRootSetHash scope (RegistryObserveRecipe_ID r) (RegistryObserveRecipe_Revision r) (RegistryObserveRecipe_Hash r) revision roots)
         (RetentionReport_InputHash report) (RegistryObserveRecipe_Limits r)) |>.
Definition observation_child (m : Meta) (parent integrationID app repositoryID actor : string) (inputs : WorkerInputs) : ExternalOperation :=
  (zero : ExternalOperation) <| ExternalOperation_Meta := m |> <| ExternalOperation_Kind := RegistryObserveOperationKind |>
    <| ExternalOperation_ParentID := parent |> <| ExternalOperation_IntegrationID := integrationID |>
    <| ExternalOperation_RepositoryID := repositoryID |> <| ExternalOperation_ApplicationID := app |>
    <| ExternalOperation_Status := "PENDING" |> <| ExternalOperation_Phase := "EXTERNAL_QUEUED" |>
    <| ExternalOperation_RequestedBy := actor |> <| ExternalOperation_RegistryObservation := Some inputs |>.
Definition observation_job (m : Meta) (operation key requestHash integrationID : string) (inputs : WorkerInputs) (deadline : Time) : WorkerJob :=
  (zero : WorkerJob) <| WorkerJob_Meta := m |> <| WorkerJob_OperationID := operation |> <| WorkerJob_RequestKey := key |>
    <| WorkerJob_RequestHash := requestHash |> <| WorkerJob_IntegrationID := integrationID |>
    <| WorkerJob_Capability := "registry_observe" |> <| WorkerJob_Inputs := inputs |> <| WorkerJob_InputHash := Fingerprint inputs |>
    <| WorkerJob_Status := "QUEUED" |> <| WorkerJob_Deadline := deadline |> <| WorkerJob_MaxAttempts := 1%Z |>.
(** Both are appended, and the job is audited through the pointer to it. *)
Definition queue_observation `{World} (child : ExternalOperation) (job : WorkerJob) (actor action : string) (t : Time) st : State :=
  workerAudit (length (State_WorkerJobs st)) actor action t
    (st <| State_Operations ::= fun l => l ++ [child] |> <| State_WorkerJobs ::= fun l => l ++ [job] |>).

(** ** The command *)
Definition refresh_scope (c : Command) : bool :=
  is_some externalWorkers && negb (blank (Command_Actor c)) && (Command_ProductID c != "") && (Command_ID c == "") && (Command_GateID c == "")
  && (Command_CheckID c == "") && (Command_ResultID c == "").
Definition refreshInput (c : Command) : res (RefreshRequest * string) :=
  _ ← require (refresh_scope c) "explicit registry observation scope required";
  input ← decode (Command_Data c) (zero : RefreshRequest);
  _ ← require (workerRequestKey (RefreshRequest_RequestKey input)) "bounded registry observation request key required";
  Ok (input, Fingerprint (Command_ProductID c, Command_FeatureID c, Command_IntegrationID c, Command_Actor c, input)).
(** The feature of the job, checked to be in scope. *)
Definition refresh_feature st (c : Command) : res string :=
  let featureID := Command_FeatureID c in
  _ ← reject_if ((featureID != "") && match feature st featureID with Some f => ProductID f != Command_ProductID c | None => true end)
        (invalid "registry feature outside product" []);
  if Command_IntegrationID c == "" then Ok featureID
  else match integration st (Command_IntegrationID c) with
  | Some inn =>
    _ ← require ((ProductID inn == Command_ProductID c) && ((featureID == "") || (FeatureID inn == featureID)))
          "registry integration outside feature/product";
    Ok (FeatureID inn)
  | None => invalid "registry integration outside feature/product" []
  end.
Definition requested_recipe (c : Command) (input : RefreshRequest) w (t : Time) : option RegistryObserveRecipe :=
  match observation w (RefreshRequest_RecipeID input) with
  | Some r =>
    if (RegistryObserveRecipe_ProductID r == Command_ProductID c) && (RegistryObserveRecipe_ComponentID r == RefreshRequest_ApplicationID input)
       && (RegistryObserveRecipe_Revision r == RefreshRequest_RecipeRevision input) && (RegistryObserveRecipe_Hash r == RefreshRequest_RecipeHash input)
       && (Revision w == RefreshRequest_ConfigRevision input) && After (RefreshRequest_Deadline input) t
       && negb (After (RefreshRequest_Deadline input) (t + hour)%Z)
    then Some r else None
  | None => None
  end.
Definition accept_refresh `{World} w (c : Command) (input : RefreshRequest) (hash : string) st : res (State * WorkerJob) :=
  let t := now "refreshRegistryInventory" 0 in
  match requested_recipe c input w t with
  | None => invalid "registry recipe/configuration/deadline mismatch" []
  | Some r =>
    let scope := observationScope r in
    _ ← require (registryScopeCurrent st scope "") "registry component/repository scope unavailable";
    _ ← require (existsb (fun a => RegistryObservationAuthority_Current a && (RegistryObservationAuthority_RecipeID a == RegistryObserveRecipe_ID r)
                                   && (RegistryObservationAuthority_RecipeHash a == RegistryObserveRecipe_Hash r)) (registryAuthorities st t))
          "no current registry observer grant";
    featureID ← refresh_feature st c;
    let report := evaluateRetention st (Command_ProductID c) t in
    let roots := known_roots report r in
    _ ← reject_if (too_many r roots) (invalid "known roots exceed registry observation bounds" []);
    let inputs := observation_inputs_of r (RefreshRequest_ConfigRevision input) (RegistryObserveRecipe_RepositoryID r)
                    (repository_url st (Command_ProductID c) (RegistryScope_RepositoryID scope)) roots report in
    let m := mkMeta (fresh "refreshRegistryInventory" 0) (Command_ProductID c) featureID (Command_Actor c) t t in
    let op := observation_child m "" (Command_IntegrationID c) (RegistryObserveRecipe_ComponentID r) (RegistryObserveRecipe_RepositoryID r)
                (Command_Actor c) inputs in
    let job := observation_job (m <| Meta_ID := fresh "refreshRegistryInventory" 1 |>) (ID op) (RefreshRequest_RequestKey input) hash
                 (Command_IntegrationID c) inputs (RefreshRequest_Deadline input) in
    Ok (queue_observation op job (Command_Actor c) (Command_Action c) t st, job)
  end.
(** The transaction: a request key answers with its job. *)
Definition refreshRegistryInventory `{World} (c : Command) st : res (State * WorkerJob) :=
  '(input, hash) ← refreshInput c;
  match find_first (fun j => (ProductID j == Command_ProductID c) && (WorkerJob_RequestKey j == RefreshRequest_RequestKey input)) (State_WorkerJobs st) with
  | Some previous =>
    _ ← require ((WorkerJob_Capability previous == "registry_observe") && (WorkerJob_RequestHash previous == hash))
          "conflicting registry observation request replay";
    Ok (st, previous)
  | None => match externalWorkers with Some w => accept_refresh w c input hash st | None => Err ErrPanic end
  end.
End refresh.
