(* ===== verification/Effects.v ===== *)
(** * Programs with effects

    The worker of the control plane (worker.go) reads the store, commits
    transactions, reads the clock and calls providers, and any of these can
    fail, or succeed without the worker learning it.  A worker step is a tree
    of effects; its meaning is given three ways: [runs] (one step of the tree
    against any reply the store or a provider may give), [run] (the tree
    against given replies, executable) and [wp] (what holds of the replies a
    tree may see, for a protocol of the effects), with the lemmas that connect
    them.  The requests and replies of delivery/types.go that only cross this
    boundary are declared here. *)
From S2P Require Import Prelude GoText GoJson Delivery Domain Handlers WorkerAuth.
Open Scope string_scope.
Open Scope list_scope.

(** ** Requests and replies — delivery *)
Record BranchInfo := mkBranchInfo { BranchInfo_Name : string; BranchInfo_SHA : string; BranchInfo_Protected : bool }.
Record CompareResult := mkCompareResult {
  CompareResult_Commits : list CommitInfo; CompareResult_BaseSHA : string; CompareResult_HeadSHA : string;
  CompareResult_Ahead : Z; CompareResult_Behind : Z; CompareResult_Status : string }.
Record DispatchResult := mkDispatchResult { DispatchResult_Correlation : string; DispatchResult_ProviderRunID : Z }.
Record ArtifactRequest := mkArtifactRequest {
  ArtifactRequest_EvidenceRepository : string; ArtifactRequest_EvidenceRunID : Z; ArtifactRequest_EvidenceOperationID : string;
  ArtifactRequest_SourceSHA : string; ArtifactRequest_Repository : string; ArtifactRequest_Tag : string;
  ArtifactRequest_ExpectedDigest : string; ArtifactRequest_CredentialRef : string }.
Record GitOpsApply := mkGitOpsApply {
  GitOpsApply_Request : GitOpsRequest; GitOpsApply_ExpectedHeadSHA : string; GitOpsApply_ExpectedBlobSHA : string;
  GitOpsApply_Digest : string; GitOpsApply_OperationID : string; GitOpsApply_Message : string }.
Record PullRequestObservation := mkPullRequestObservation {
  PullRequestObservation_Number : Z; PullRequestObservation_BaseRepositoryID : Z; PullRequestObservation_HeadRepositoryID : Z;
  PullRequestObservation_URL : string; PullRequestObservation_Title : string; PullRequestObservation_State : string;
  PullRequestObservation_Head : string; PullRequestObservation_Base : string; PullRequestObservation_HeadSHA : string;
  PullRequestObservation_MergeSHA : string; PullRequestObservation_CreatedAt : Time; PullRequestObservation_MergedAt : Time }.
Record GitOpsRevisionRequest := mkGitOpsRevisionRequest {
  GitOpsRevisionRequest_Repository : string; GitOpsRevisionRequest_Ref : string; GitOpsRevisionRequest_HeadSHA : string;
  GitOpsRevisionRequest_AncestorSHAs : list string }.

(** What a provider is asked.  A grouped proposal is given the check it must
    pass before every request that writes. *)
Inductive Call : Type -> Type :=
| Branches (c : Connection) (repository : string) : Call (list BranchInfo)
| Compare (c : Connection) (repository base head : string) : Call CompareResult
| Dispatch (c : Connection) (r : BuildRequest) : Call DispatchResult
| FindRun (c : Connection) (r : BuildRequest) : Call RunResult
| InspectArtifact (c : Connection) (r : ArtifactRequest) : Call ArtifactResult
| ReadGitOps (c : Connection) (r : GitOpsRequest) : Call GitOpsSnapshot
| ApplyGitOps (c : Connection) (a : GitOpsApply) : Call GitOpsResult
| ProposeGitOps (c : Connection) (a : GitOpsApply) : Call GitOpsPullRequest
| ObserveGitOpsPR (c : Connection) (a : GitOpsApply) (pr : GitOpsPullRequest) : Call GitOpsPullRequest
| EnsureRef (c : Connection) (repository branch sha : string) : Call string
| ObservePullRequest (c : Connection) (repository : string) (number : Z) : Call PullRequestObservation
| VerifyGitOpsRevision (c : Connection) (r : GitOpsRevisionRequest) : Call GitOpsRevisionProof
| ProposeGitOpsBatch (c : Connection) (b : GitOpsBatchApply) (guard : World -> State -> res unit) : Call GitOpsPullRequest
| LookupGitOpsBatchProposal (c : Connection) (b : GitOpsBatchApply) : Call GitOpsPullRequest
| ObserveGitOpsBatchPR (c : Connection) (b : GitOpsBatchApply) (pr : GitOpsPullRequest) : Call GitOpsPullRequest
| ReadPublication (r : PublicationRecipe) (p : WorkerPublication) : Call NativeObservation
| ObserveBranch (c : Connection) (repository branch : string) : Call BranchInfo
| ComposeSource (c : Connection) (p : SourcePlan) : Call SourceResult
| AdvanceMain (c : Connection) (repository baseRef baseSHA sha : string) : Call SourceResult
| VerifyComposedSource (c : Connection) (p : SourcePlan) (result : SourceResult) : Call unit
| SnapshotRuntime (scope : RuntimeVerificationScope) : Call DeliveryRuntimeSnapshot.
(** The value and the error; Go returns both. *)
Definition Reply (A : Type) : Type := A * option string.

(** [Update f] commits the state of [f w cancelled st] and answers its value, where [w] holds the identifiers and
    the times the transaction draws and [cancelled] is what [ctx.Err] says;
    [Fresh] draws outside a transaction, and [Expired] tells whether the
    context of the tick has ended. *)
Inductive Eff : Type -> Type :=
| Read : Eff (res State)
| Update {A} (f : World -> bool -> State -> res (State * A)) : Eff (res A)
| Fresh : Eff World
| Expired : Eff bool
| Ask {A} (c : Call A) : Eff (Reply A).

Inductive Prog (A : Type) : Type :=
| Ret (a : A)
| Do {X : Type} (e : Eff X) (k : X -> Prog A).
Arguments Ret {A} a.
Arguments Do {A X} e k.
#[export] Instance prog_ret : MRet Prog := @Ret.
#[export] Instance prog_bind : MBind Prog := fun A B f =>
  fix go p := match p with Ret a => f a | Do e k => Do e (fun x => go (k x)) end.
Definition effect {X} (e : Eff X) : Prog X := Do e Ret.
(** A transaction that answers nothing. *)
Definition transact (f : World -> bool -> State -> res State) : Prog (res unit) :=
  effect (Update (fun w cancelled st => (fun st => (st, tt)) <$> f w cancelled st)).
Definition ask {A} (c : Call A) : Prog (Reply A) := effect (Ask c).
(** [if err != nil { return err }] *)
Definition try {A B} (p : Prog (res A)) (k : A -> Prog (res B)) : Prog (res B) :=
  r ← p; match r with Ok a => k a | Err e => Ret (Err e) end.

(** [ctx.Err()] *)
Definition alive : Prog (res unit) := over ← effect Expired; Ret (if over : bool then plain "context canceled" else Ok ()).

(** The loops of worker steps: every iteration may fail. *)
Fixpoint loop {A B} (f : B -> A -> Prog (res B)) (b : B) (l : list A) : Prog (res B) :=
  match l with
  | [] => Ret (Ok b)
  | x :: l => try (f b x) (fun b => loop f b l)
  end.
(** A check between effects. *)
Definition check {A} (r : res A) : Prog (res A) := Ret r.

(** ** What can happen *)
(** A reply to an effect, and the state it leaves.  A transaction that
    committed may still be reported as failed. *)
Definition outcome {X} (e : Eff X) (st st' : State) : X -> Prop :=
  match e in Eff X return X -> Prop with
  | Read => fun r => st' = st /\ match r with Ok seen => seen = st | Err _ => True end
  | Update f => fun r => match r with
                         | Ok a => exists w c, f w c st = Ok (st', a)
                         | Err _ => st' = st \/ exists w c a, f w c st = Ok (st', a)
                         end
  | Fresh => fun _ => st' = st
  | Expired => fun _ => st' = st
  | Ask _ => fun _ => st' = st
  end.
(** One effect of a program. *)
Definition runs {A} (st : State) (p : Prog A) (st' : State) (p' : Prog A) : Prop :=
  match p with
  | Ret _ => False
  | Do e k => exists x, outcome e st st' x /\ p' = k x
  end.

(** ** What a given environment answers *)
Record Environment_replies := mkReplies { reply_world : World; reply : forall A, Call A -> Reply A }.
Definition answer (h : Environment_replies) {X} (e : Eff X) (st : State) : State * X :=
  match e in Eff X return State * X with
  | Read => (st, Ok st)
  | Update f => match f (reply_world h) false st with Ok (st', a) => (st', Ok a) | Err e => (st, Err e) end
  | Fresh => (st, reply_world h)
  | Expired => (st, false)
  | Ask c => (st, reply h _ c)
  end.
Fixpoint run {A} (h : Environment_replies) (p : Prog A) (st : State) : State * A :=
  match p with
  | Ret a => (st, a)
  | Do e k => let '(st, x) := answer h e st in run h (k x) st
  end.
Lemma answer_outcome h {X} (e : Eff X) st : outcome e st (answer h e st).1 (answer h e st).2.
Proof.
  destruct e as [|B f| | |A c]; cbn; auto. destruct (f (reply_world h) false st) as [[st' a]|e] eqn:E; cbn; [|left; reflexivity].
  exists (reply_world h), false. exact E.
Qed.
Lemma run_bind h {A B} (p : Prog A) (f : A -> Prog B) st : run h (p ≫= f) st = run h (f (run h p st).2) (run h p st).1.
Proof. revert st. induction p as [a|X e k IH]; intros st; cbn; [reflexivity|]. destruct (answer h e st) as [st' x]. apply IH. Qed.

(** ** Protocols

    A protocol says, for what is known [κ] before an effect, what is known
    after each reply; [wp p κ Φ] says that [p] keeps to it and that [Φ] holds
    of what is known and returned at its end. *)
Section protocol.
Context {K : Type} (rule : forall X, Eff X -> K -> (K -> X -> Prop) -> Prop).
Definition MonotoneRule : Prop := forall X (e : Eff X) κ (Φ Ψ : K -> X -> Prop),
  (forall κ' x, Φ κ' x -> Ψ κ' x) -> rule X e κ Φ -> rule X e κ Ψ.
Fixpoint wp {A} (p : Prog A) (κ : K) (Φ : K -> A -> Prop) : Prop :=
  match p with
  | Ret a => Φ κ a
  | Do e k => rule _ e κ (fun κ' x => wp (k x) κ' Φ)
  end.
Context (mono : MonotoneRule).
Lemma wp_mono {A} (p : Prog A) κ (Φ Ψ : K -> A -> Prop) : (forall κ' a, Φ κ' a -> Ψ κ' a) -> wp p κ Φ -> wp p κ Ψ.
Proof using Type*. intros Hi. revert κ. induction p as [a|X e k IH]; intros κ; cbn; [apply Hi|]. apply mono. intros κ' x. apply IH. Qed.
Lemma wp_bind {A B} (p : Prog A) (f : A -> Prog B) κ Φ : wp p κ (fun κ' a => wp (f a) κ' Φ) -> wp (p ≫= f) κ Φ.
Proof using Type*. revert κ. induction p as [a|X e k IH]; intros κ; cbn; [auto|]. apply mono. intros κ' x. apply IH. Qed.
Lemma wp_try {A B} (p : Prog (res A)) (k : A -> Prog (res B)) κ Φ :
  wp p κ (fun κ' r => match r with Ok a => wp (k a) κ' Φ | Err e => Φ κ' (Err e) end) -> wp (try p k) κ Φ.
Proof using Type*. intros Hp. apply wp_bind. eapply wp_mono; [|exact Hp]. intros κ' [a|e] Hr; exact Hr. Qed.
End protocol.
Lemma wp_weaken {K} (rule rule' : forall X, Eff X -> K -> (K -> X -> Prop) -> Prop) : MonotoneRule rule' ->
  (forall X e κ Φ, rule X e κ Φ -> rule' X e κ Φ) -> forall A (p : Prog A) κ Φ, wp rule p κ Φ -> wp rule' p κ Φ.
Proof.
  intros mono Hi A p. induction p as [a|X e k IH]; intros κ Φ Hp; cbn in *; [exact Hp|]. apply Hi in Hp. revert Hp. apply mono. intros κ' x. apply IH.
Qed.

(** ** Programs that only read *)
(** The calls that change something outside. *)
Definition writes {A} (c : Call A) : bool :=
  match c with
  | Dispatch _ _ | ApplyGitOps _ _ | ProposeGitOps _ _ | EnsureRef _ _ _ _ | ProposeGitOpsBatch _ _ _
  | ComposeSource _ _ | AdvanceMain _ _ _ _ _ => true
  | _ => false
  end.
Definition reads {X} (e : Eff X) : Prop :=
  match e with Read | Fresh | Expired => True | Ask c => writes c = false | Update _ => False end.
Fixpoint harmless {A} (p : Prog A) : Prop :=
  match p with Ret _ => True | Do e k => reads e /\ forall x, harmless (k x) end.
Lemma harmless_bind {A B} (p : Prog A) (f : A -> Prog B) : harmless p -> (forall a, harmless (f a)) -> harmless (p ≫= f).
Proof. intros Hp Hf. induction p as [a|X e k IH]; cbn in *; [apply Hf|]. destruct Hp as [He Hk]. split; [exact He|]. intros x. apply IH, Hk. Qed.
Lemma harmless_try {A B} (p : Prog (res A)) (k : A -> Prog (res B)) : harmless p -> (forall a, harmless (k a)) -> harmless (try p k).
Proof. intros Hp Hk. apply harmless_bind; [exact Hp|]. intros [a|e]; [apply Hk|exact I]. Qed.
Lemma harmless_loop {A B} (f : B -> A -> Prog (res B)) b l : (forall b x, harmless (f b x)) -> harmless (loop f b l).
Proof. intros Hf. revert b. induction l as [|x l IH]; intros b; cbn; [exact I|]. apply harmless_try; auto. Qed.
(** A protocol that reading does not affect. *)
Definition ReadsFreely {K} (rule : forall X, Eff X -> K -> (K -> X -> Prop) -> Prop) : Prop :=
  forall X (e : Eff X) κ Φ, reads e -> (forall x, Φ κ x) -> rule X e κ Φ.
Lemma wp_harmless {K} (rule : forall X, Eff X -> K -> (K -> X -> Prop) -> Prop) {A} (p : Prog A) κ Φ :
  MonotoneRule rule -> ReadsFreely rule -> harmless p -> (forall a, Φ κ a) -> wp rule p κ Φ.
Proof.
  intros mono free. induction p as [a|X e k IH]; cbn; intros Hp HΦ; [apply HΦ|]. destruct Hp as [He Hk].
  apply free; [exact He|]. intros x. apply IH; auto.
Qed.
