(* ===== verification/Saving.v ===== *)
(** * Saving a step of an operation

    [Service.save] of worker.go: the one transaction by which a worker records
    what it did to an operation it holds.  It checks the lease and the fences
    of the operation, carries the intent of an unconfirmed mutation until
    there is evidence of its result, and appends the build run, the artifact
    and the step.  [finish], [advance] and [retry] are its callers. *)
From S2P Require Import Prelude GoText GoJson Delivery Domain Status Planning Handlers DeviceAuth Collections ExternalSystems Reservation Composition Conflicts Scenarios Pins WorkerAuth WorkerJobs Publications Registry Restoration Checks WorkerProtocol External Candidates Activation FlowGuards Effects.
Open Scope string_scope.
Open Scope list_scope.

(** ** The text of an error *)
Definition percent : ascii := ascii_of_nat 37.
Definition quotation : string := String (ascii_of_nat 34) EmptyString.
(** [fmt.Sprintf] for the verbs [%s] and [%v] of strings *)
Fixpoint sprintf (f : string) (args : list string) : string :=
  match f with
  | EmptyString => ""
  | String c r =>
    if bool_decide (c = percent) then
      match r, args with
      | String _ r, a :: args => a +:+ sprintf r args
      | _, _ => String c (sprintf r args)
      end
    else String c (sprintf r args)
  end.
Definition error_text (e : Error) : string :=
  match e with
  | ErrValidation f args => "validation: " +:+ sprintf f args
  | ErrNotFound kind i => "not found: " +:+ kind +:+ " " +:+ quotation +:+ i +:+ quotation
  | ErrPlain f args => sprintf f args
  | ErrPanic => ""
  end.

(** source_retention.go [retentionLease]: the sources of a composition are the
    ones its retention was verified with. *)
Class ComposeLease := { retentionLease : World -> State -> ExternalOperation -> string -> res unit }.

(** ** Evidence of a source mutation *)
Definition evidence_at (evidence : gmap string string) (key : string) : string := default "" (evidence !! key).
Definition composed_source (evidence : gmap string string) (old next : FlowSource) : bool :=
  match FlowSource_Result old, FlowSource_Result next with
  | None, Some r =>
    negb (SourceResult_Conflict r) && fullSHA (SourceResult_SHA r) && (SourceResult_Branch r == SourcePlan_TargetBranch (FlowSource_Plan next))
    && (SourceResult_SHA r == evidence_at evidence "source_sha") && (SourceResult_Branch r == evidence_at evidence "branch")
    && (old == next <| FlowSource_Result := None |>)
  | _, _ => false
  end.
Definition advanced_source (evidence : gmap string string) (old next : FlowSource) : bool :=
  match FlowSource_Result next with
  | Some r =>
    negb (FlowSource_MainAdvanced old) && FlowSource_MainAdvanced next && negb (SourceResult_Conflict r)
    && (SourceResult_SHA r == evidence_at evidence "source_sha") && (old == next <| FlowSource_MainAdvanced := FlowSource_MainAdvanced old |>)
  | None => false
  end.
Definition source_transition (phase : string) (evidence : gmap string string) (old next : FlowSource) : bool :=
  (FlowSource_RepositoryID old == evidence_at evidence "repository_id") && (FlowSource_RepositoryID next == FlowSource_RepositoryID old)
  && (if phase == "COMPOSE_SOURCE" then composed_source evidence old next
      else if phase == "ADVANCE_MAIN" then advanced_source evidence old next else false).
(** Exactly one source changed, and by the transition the evidence names. *)
Definition confirmedSourceMutation (before after : ExternalOperation) (phase : string) (evidence : gmap string string) : bool :=
  let changed := List.filter (fun on => on.1 != on.2) (zip (ExternalOperation_Sources before) (ExternalOperation_Sources after)) in
  (ExternalOperation_Phase before == phase) && (length (ExternalOperation_Sources before) =? length (ExternalOperation_Sources after))%nat
  && negb (bool_decide (ExternalOperation_Sources before = []))
  && forallb (fun on => source_transition phase evidence on.1 on.2) changed && (length changed =? 1)%nat.

(** ** The transaction *)
Definition stopping (status : string) : bool := contains ["FAILED"; "BLOCKED"; "CANCELLED"] status.
Definition flow_kinds : list string := ["COMPOSE"; "RELEASE_CANDIDATE"; "RELEASE_PROMOTION"].
(** What [save] is asked to record. *)
Record Step := mkStep {
  Step_phase : string; Step_status : string; Step_detail : string; Step_evidence : gmap string string; Step_release : bool
}.

Section saving.
Context `{Runtime, NetURL, Upper, MapOrder, URLs, Hashing, Encoding, RestorationEvidence, Operator, Baselines, ComposeLease}.

Section transaction.
Context `{World} (cancelled : bool) (op : ExternalOperation) (token : string) (s : Step).
Definition guarded_child (st : State) : bool :=
  (ExternalOperation_ParentID op != "")
  && ((Step_phase s == "APPLY_UNCERTAIN")
      || match operationByID st (ExternalOperation_ParentID op) with Some parent => flowHasNative st parent | None => false end).
Definition save_fences (st : State) (current : ExternalOperation) : res unit :=
  _ ← reject_if (activated_child st op && (negb (After (ExternalOperation_LeaseUntil current) (now "save lease" 0)) || cancelled))
        (invalid "candidate Dev final save lease unavailable" []);
  if stopping (Step_status s) then Ok ()
  else
    _ ← (if activated_child st op then devActivationAllowed st op else Ok ());
    _ ← reservationOperationAllowed st op;
    _ ← (if ExternalOperation_Kind op == "COMPOSE" then
           _ ← reject_if cancelled (plain "context canceled");
           retentionLease _ st op token
         else Ok ());
    if guarded_child st then service_flowChildAllowed st op else Ok ().
(** A flow whose guard fails is blocked instead. *)
Definition flow_verdict (st : State) : res (string * string) :=
  if contains flow_kinds (ExternalOperation_Kind op) && negb (stopping (Step_status s)) then
    match service_flowGuard st op with
    | Ok _ => Ok (Step_status s, Step_detail s)
    | Err ErrPanic => Err ErrPanic
    | Err e => Ok ("BLOCKED", error_text e)
    end
  else Ok (Step_status s, Step_detail s).

(** *** The intent of a mutation *)
Definition gitops_confirmed (phase : string) (v : ExternalOperation) : bool :=
  match ExternalOperation_GitOpsResult v with Some r => complete_result r | None => false end
  || match ExternalOperation_GitOpsPR v with
     | Some pr => (0 <? GitOpsPullRequest_Number pr)%Z && ((phase == "WAIT_GITOPS_PR") || (GitOpsPullRequest_State pr == "closed"))
     | None => false
     end.
Definition build_confirmed (v : ExternalOperation) : bool :=
  match ExternalOperation_Run v with Some r => RunResult_Status r == "completed" | None => false end.
Definition declared_intent (current : ExternalOperation) : string :=
  let intent := if ExternalOperation_ReservationMutationIntent current != "" then ExternalOperation_ReservationMutationIntent current
                else ExternalOperation_ReservationMutationIntent op in
  let intent := if Step_phase s == "APPLY_UNCERTAIN" then "GITOPS" else intent in
  if (Step_phase s == "BUILD_LOOKUP") && negb (Step_release s) then "BUILD" else intent.
Definition settled_intent (current : ExternalOperation) (status : string) : string :=
  let intent := declared_intent current in
  if (intent == "GITOPS") && gitops_confirmed (Step_phase s) op then ""
  else if (intent == "BUILD") && build_confirmed op then ""
  else if (intent == "SOURCE") && negb (stopping status) && confirmedSourceMutation current op (Step_phase s) (Step_evidence s) then ""
  else intent.
(** The proofs an activation freezes the first time they are known. *)
Definition frozen_proofs (st : State) (current : ExternalOperation) (status : string) : ExternalOperation -> ExternalOperation := fun v =>
  if negb (activated_child st op) then v
  else
    let v := if (Step_phase s == "APPLY_UNCERTAIN") && (ExternalOperation_DevActivationIntentHash current == "")
                && (ExternalOperation_Phase current == "APPLY") && (status == "GITOPS_PENDING") && is_some (ExternalOperation_Snapshot op)
                && is_some (ExternalOperation_GitOpsBase op) && is_some (ExternalOperation_Artifact op)
             then v <| ExternalOperation_DevActivationIntentHash := Fingerprint (ExternalOperation_DevActivationBatch op) |> else v in
    let v := match ExternalOperation_GitOpsPR op with
             | Some pr => if (ExternalOperation_DevActivationPRHash current == "") && (Step_phase s == "WAIT_GITOPS_PR") && (status == "GITOPS_PENDING")
                          then v <| ExternalOperation_DevActivationPRHash := activationPRHash pr |> else v
             | None => v
             end in
    match ExternalOperation_GitOpsResult op with
    | Some r => if (ExternalOperation_DevActivationResultHash current == "") && (status == "GITOPS_APPLIED")
                then v <| ExternalOperation_DevActivationResultHash := Fingerprint (Some r) |> else v
    | None => v
    end.

(** *** The operation saved *)
Definition saved_status (status : string) : string :=
  if contains ["GITOPS_APPLIED"; "SUCCEEDED"; "READY_FOR_VERIFICATION"; "DEPLOYED"] status then "SUCCEEDED"
  else if status == "ARTIFACT_READY" then
    if ExternalOperation_BuildOnly op && (Step_phase s == "APPLY") && Step_release s then "SUCCEEDED" else "RUNNING"
  else if contains ["FAILED"; "BLOCKED"] status then "FAILED"
  else if status == "CANCELLED" then "CANCELLED" else "RUNNING".
Definition next_attempt (t : Time) : Time :=
  (t + if contains ["BUILD_LOOKUP"; "WAIT_CHILDREN"; "WAIT_RUNTIME"; "WAIT_GITOPS_PR"] (Step_phase s) then 10 * second else 2 * second)%Z.
Definition stamped (current : ExternalOperation) (status detail : string) (v : ExternalOperation) : ExternalOperation :=
  let t := now "save" 0 in
  let final := saved_status status in
  v <| ExternalOperation_Phase := Step_phase s |> <| ExternalOperation_DeploymentState := status |> <| ExternalOperation_Status := final |>
    <| ExternalOperation_Error := if contains ["FAILED"; "BLOCKED"] status then detail else ExternalOperation_Error v |>
    <| ExternalOperation_CurrentStep := Step_phase s |> <| ExternalOperation_Detail := detail |>
    <| ExternalOperation_Meta ::= fun m => m <| Meta_UpdatedAt := t |> |> <| ExternalOperation_NextAttemptAt := next_attempt t |>
    <| ExternalOperation_LeaseOwner := if Step_release s then "" else token |>
    <| ExternalOperation_LeaseUntil := if Step_release s then 0%Z else ExternalOperation_LeaseUntil current |>
    <| ExternalOperation_FinishedAt := if terminalOperation final then Some t else ExternalOperation_FinishedAt v |>.
Definition saved_operation (st : State) (current : ExternalOperation) (status detail : string) : ExternalOperation :=
  stamped current status detail (frozen_proofs st current status
    (op <| ExternalOperation_ReservationMutationIntent := settled_intent current status |>)).
Definition native_fence (st : State) (current : ExternalOperation) (status : string) : res unit :=
  match ExternalOperation_Snapshot op with
  | Some snap =>
    if native_build snap && negb (stopping status) then
      _ ← nativeDeliveryAllowed st (Some current);
      match ExternalOperation_ExistingArtifact op with
      | Some known =>
        _ ← validatedExistingArtifact st (ID known) (ProductID op) (ExternalOperation_ApplicationID op)
              (IntegrationRevision_RepositoryID (DeliverySnapshot_Revision snap)) (IntegrationRevision_HeadCommit (DeliverySnapshot_Revision snap))
              (ComponentBuild_ImageRepository (DeliverySnapshot_Build snap));
        Ok ()
      | None => Ok ()
      end
    else Ok ()
  | None => Ok ()
  end.
Definition activation_bounds (st : State) (v : ExternalOperation) : res unit :=
  match devActivationParent st v with
  | None => Ok ()
  | Some parent =>
    activationGroupBounds (ExternalOperation_DevActivation parent)
      (omap (fun cid => child ← operationByID st cid; Some (child_proof (if cid == ID v then v else child))) (ExternalOperation_ChildIDs parent))
  end.
Definition activation_groups (st : State) (v : ExternalOperation) (status : string) : res unit :=
  if stopping status then Ok ()
  else match devActivationParent st v with Some parent => validateActivationGroups st parent | None => Ok () end.

(** *** The records appended *)
Definition worker_meta (site : string) : Meta :=
  mkMeta (fresh site 0) (ProductID op) (FeatureID op) "worker" (now "save" 0) (now "save" 0).
Definition append_run (st : State) : res State :=
  match ExternalOperation_Run op with
  | None => Ok st
  | Some run =>
    match ExternalOperation_Snapshot op with
    | None => Err ErrPanic
    | Some snap => Ok (st <| State_DeliveryBuildRuns ::= fun l => l ++ [mkDeliveryBuildRun (worker_meta "save run") (ID op)
                     (ExternalOperation_ApplicationID op) (DeliverySnapshot_BuildRequest snap) run] |>)
    end
  end.
Definition saved_artifact (snap : DeliverySnapshot) (a : ArtifactResult) : DeliveryArtifact :=
  let request := match ExternalOperation_ExistingArtifact op with Some known => DeliveryArtifact_BuildRequest known
                 | None => DeliverySnapshot_BuildRequest snap end in
  let run := match ExternalOperation_ExistingArtifact op, ExternalOperation_Run op with
             | Some known, _ => DeliveryArtifact_BuildRunID known | None, Some run => RunResult_ID run | None, None => 0%Z end in
  (zero : DeliveryArtifact) <| DeliveryArtifact_Meta := worker_meta "save artifact" |> <| DeliveryArtifact_OperationID := ID op |>
    <| DeliveryArtifact_ApplicationID := ExternalOperation_ApplicationID op |>
    <| DeliveryArtifact_RepositoryID := IntegrationRevision_RepositoryID (DeliverySnapshot_Revision snap) |>
    <| DeliveryArtifact_SourceCommit := IntegrationRevision_HeadCommit (DeliverySnapshot_Revision snap) |>
    <| DeliveryArtifact_ImageRepository := ComponentBuild_ImageRepository (DeliverySnapshot_Build snap) |>
    <| DeliveryArtifact_Tag := BuildRequest_ImageTag request |> <| DeliveryArtifact_Digest := ArtifactResult_Digest a |>
    <| DeliveryArtifact_Availability := "PRESENT" |> <| DeliveryArtifact_ObservedAt := ArtifactResult_ObservedAt a |>
    <| DeliveryArtifact_BuildRequest := request |> <| DeliveryArtifact_BuildRunID := run |>.
Definition append_artifact (st : State) : State :=
  match ExternalOperation_Artifact op, ExternalOperation_Snapshot op with
  | Some a, Some snap => if native_build snap then st else st <| State_DeliveryArtifacts ::= fun l => l ++ [saved_artifact snap a] |>
  | _, _ => st
  end.
Definition append_step (status detail : string) (st : State) : State :=
  st <| State_OperationSteps ::= fun l => l ++ [mkOperationStep (worker_meta "save step") (ID op) (Step_phase s) (saved_status status) detail
                                                 (Step_evidence s)] |>.

Definition save_tx (st : State) : res State :=
  match operationByID st (ID op) with
  | None => plain "operation lease lost"
  | Some current =>
    _ ← reject_if (ExternalOperation_LeaseOwner current != token) (plain "operation lease lost");
    _ ← save_fences st current;
    '(status, detail) ← flow_verdict st;
    let v := saved_operation st current status detail in
    _ ← native_fence st current status;
    _ ← activation_bounds st v;
    let st := set_operation (ID op) (fun _ => v) st in
    _ ← activation_groups st v status;
    st ← append_run st;
    Ok (append_step status detail (append_artifact st))
  end.
End transaction.

(** ** save, finish, advance, retry *)
Definition save (op : ExternalOperation) (token phase status detail : string) (evidence : gmap string string) (release : bool) : Prog (res unit) :=
  transact (fun w cancelled st =>
    save_tx cancelled op token (mkStep phase status (str_take 1000 detail) evidence release) st).
Definition finish (op : ExternalOperation) (token status detail : string) (evidence : gmap string string) : Prog (res unit) :=
  save op token (ExternalOperation_Phase op) status detail evidence true.
Definition advance (op : ExternalOperation) (token phase status detail : string) (evidence : gmap string string) : Prog (res unit) :=
  save (op <| ExternalOperation_Attempts := 0%Z |>) token phase status detail evidence true.
Definition deadline_exceeded (t : Time) (op : ExternalOperation) : bool := (45 * minute <? t - Meta_CreatedAt (ExternalOperation_Meta op))%Z.
Definition retry (op : ExternalOperation) (token detail : string) : Prog (res unit) :=
  w ← effect Fresh;
  if deadline_exceeded (now "retry" 0) op then finish op token "BLOCKED" ("operation deadline exceeded: " +:+ detail) ∅
  else save op token (ExternalOperation_Phase op) (ExternalOperation_DeploymentState op) detail ∅ true.
(** Another observation of a missing artifact. *)
Definition observed_missing `{World} (op : ExternalOperation) (snap : DeliverySnapshot) (availability : string) (a : ArtifactResult) : DeliveryArtifact :=
  (zero : DeliveryArtifact) <| DeliveryArtifact_Meta := mkMeta (fresh "observation" 0) (ProductID op) (FeatureID op) "worker" (now "observation" 0) (now "observation" 0) |>
    <| DeliveryArtifact_OperationID := ID op |> <| DeliveryArtifact_ApplicationID := ExternalOperation_ApplicationID op |>
    <| DeliveryArtifact_RepositoryID := IntegrationRevision_RepositoryID (DeliverySnapshot_Revision snap) |>
    <| DeliveryArtifact_SourceCommit := IntegrationRevision_HeadCommit (DeliverySnapshot_Revision snap) |>
    <| DeliveryArtifact_ImageRepository := ComponentBuild_ImageRepository (DeliverySnapshot_Build snap) |>
    <| DeliveryArtifact_Tag := BuildRequest_ImageTag (DeliverySnapshot_BuildRequest snap) |>
    <| DeliveryArtifact_Digest := ExternalOperation_ExpectedDigest op |> <| DeliveryArtifact_Availability := availability |>
    <| DeliveryArtifact_ObservedAt := ArtifactResult_ObservedAt a |> <| DeliveryArtifact_BuildRequest := DeliverySnapshot_BuildRequest snap |>.
Definition record_tx `{World} (op : ExternalOperation) (availability : string) (a : ArtifactResult) (st : State) : res State :=
  match operationByID st (ID op) with
  | None => invalid "lease lost" []
  | Some v =>
    _ ← reject_if (ExternalOperation_LeaseOwner v != ExternalOperation_LeaseOwner op) (invalid "lease lost" []);
    match ExternalOperation_Snapshot op with
    | Some snap => Ok (st <| State_DeliveryArtifacts ::= fun l => l ++ [observed_missing op snap availability a] |>)
    | None => Err ErrPanic
    end
  end.
Definition recordArtifactObservation (op : ExternalOperation) (availability : string) (a : ArtifactResult) : Prog (res unit) :=
  transact (fun w _ st => record_tx op availability a st).
End saving.
