(* ===== verification/SourceRetention.v ===== *)
(** * Retained sources of a composition

    internal/application/source_retention.go: the intent by which a
    composition pins the revisions it is built from ([expectedSourceRetention],
    [validSourceRetention], [freezeSourceRetention]), the provenance of an
    automatic refresh ([sourceRetentionProvenance]) and the fence of the
    worker that composes ([retentionLease], the class [ComposeLease] of
    Saving.v).  The walk over the parents of a composition takes fuel; it is
    bounded by the number of operations, and [provenance_exact] shows that the
    verdict is that of its specification. *)
From S2P Require Import Prelude GoText GoJson Delivery Domain Status Planning Handlers DeviceAuth Collections ExternalSystems Reservation Composition Conflicts Scenarios Pins WorkerAuth WorkerJobs Publications Registry Restoration Checks WorkerProtocol External Candidates Activation FlowGuards Effects Saving.
Open Scope string_scope.
Open Scope list_scope.

(** The selection a scheduled refresh was started from. *)
Record composeRefreshOrigin := mkComposeRefreshOrigin {
  composeRefreshOrigin_Selection : EnvironmentSelection;
  composeRefreshOrigin_ParentID : string
}.

Section intent.
Context `{Hashing}.

(** backup.go [backupHash] of a JSON payload: hexadecimal SHA-256, without
    the scheme [Fingerprint] writes before it. *)
Definition backupHash {A} (payload : A) : string := str_drop 7 (Fingerprint payload).

(** ** The intent of one source *)
Definition retained_branch (rid : string) : string := "rcp/revisions/" +:+ rid.
Definition malformed_intent : res unit :=
  invalid "source retention intent missing or malformed; request a new explicit DEV/TEST PR composition" [].
Definition malformed_plan (op : ExternalOperation) (source : FlowSource) : bool :=
  let plan := FlowSource_Plan source in
  (ExternalOperation_Kind op != "COMPOSE") || (ExternalOperation_SourceRetentionOriginID op == "")
  || (SourcePlan_OperationID plan != ID op) || (FlowSource_RepositoryID source == "")
  || negb (safeBranch (SourcePlan_TargetBranch plan)) || (192 <? strlen (SourcePlan_TargetBranch plan))%Z
  || negb (safeBranch (SourcePlan_BaseRef plan)) || (200 <? strlen (SourcePlan_BaseRef plan))%Z
  || negb (fullSHA (SourcePlan_BaseSHA plan)) || (20 <? length (SourcePlan_HeadSHAs plan))%nat.
(** The frozen application a component names. *)
Definition snapshot_application (comp : Composition) (component : CompositionComponent) : option Application :=
  find_last (has_id (CompositionComponent_ApplicationID component)) (Composition_ApplicationSnapshots comp).
Definition composes (comp : Composition) (repositoryID : string) (component : CompositionComponent) : bool :=
  match snapshot_application comp component with
  | Some app => Application_RepositoryID app == repositoryID
  | None => false
  end.
(** The one ordered selection of the components built from a repository. *)
Definition canonical_selection (comp : Composition) (source : FlowSource) (acc : option (list string))
    (component : CompositionComponent) : res (option (list string)) :=
  let plan := FlowSource_Plan source in
  if composes comp (FlowSource_RepositoryID source) component then
    _ ← reject_if ((CompositionComponent_BaseRef component != SourcePlan_BaseRef plan)
                   || (CompositionComponent_BaseCommit component != SourcePlan_BaseSHA plan)
                   || match acc with Some ids => ids != CompositionComponent_RevisionIDs component | None => false end)
          (invalid "retention source plan does not match frozen composition" []);
    Ok (Some (CompositionComponent_RevisionIDs component))
  else Ok acc.
Definition dotted_segment (branch : string) : bool := existsb (has_suffix ".") (split_on slash branch).
Definition retained_revision (op : ExternalOperation) (source : FlowSource) (heads : list string) (head_ rid : string)
    (r : IntegrationRevision) : bool :=
  let branch := retained_branch rid in
  (ProductID r == ProductID op) && (IntegrationRevision_RepositoryID r == FlowSource_RepositoryID source)
  && (IntegrationRevision_HeadCommit r == head_) && fullSHA (IntegrationRevision_HeadCommit r)
  && (String.length (IntegrationRevision_HeadCommit r) =? String.length (SourcePlan_BaseSHA (FlowSource_Plan source)))%nat
  && negb (contains heads (IntegrationRevision_HeadCommit r)) && (strlen branch <=? 200)%Z && safeBranch branch.
(** [acc] holds the heads seen and the revisions retained so far. *)
Definition retain_revision (op : ExternalOperation) (comp : Composition) (source : FlowSource)
    (acc : list string * list SourceRevisionRetention) (rh : string * string)
    : res (list string * list SourceRevisionRetention) :=
  let '(rid, head_) := rh in
  match find_last (has_id rid) (Composition_RevisionSnapshots comp) with
  | None => invalid "invalid bounded retained revision identity or multiple integrations claim same source head" []
  | Some r =>
    _ ← reject_if (negb (retained_revision op source acc.1 head_ rid r))
          (invalid "invalid bounded retained revision identity or multiple integrations claim same source head" []);
    _ ← reject_if (dotted_segment (retained_branch rid)) (invalid "invalid derived retained branch segment" []);
    Ok (IntegrationRevision_HeadCommit r :: acc.1,
        acc.2 ++ [mkSourceRevisionRetention rid (retained_branch rid) (IntegrationRevision_HeadCommit r)])
  end.
(** The hash binds the plan, the connection and the frozen configuration. *)
Definition intent_payload (op : ExternalOperation) (source : FlowSource) (intent : SourceRetentionIntent) :=
  (intent, FlowSource_Plan source, FlowSource_Connection source, ExternalOperation_PreparedDeployments op,
   ExternalOperation_SourceRetentionParentID op).
Definition expectedSourceRetention (op : ExternalOperation) (source : FlowSource) : res SourceRetentionIntent :=
  match ExternalOperation_CompositionSnapshot op with
  | None => invalid "source retention intent missing or malformed; request a new explicit DEV/TEST PR composition" []
  | Some comp =>
    _ ← reject_if (malformed_plan op source) malformed_intent;
    selection ← foldM (canonical_selection comp source) None (Composition_Components comp);
    match selection with
    | None => invalid "retention source selection missing or mismatched" []
    | Some ids =>
      let heads := SourcePlan_HeadSHAs (FlowSource_Plan source) in
      _ ← reject_if (negb (length ids =? length heads)%nat) (invalid "retention source selection missing or mismatched" []);
      acc ← foldM (retain_revision op comp source) ([], []) (zip ids heads);
      let intent := mkSourceRetentionIntent (ProductID op) (ID op) (ExternalOperation_EnvironmentID op)
                      (FlowSource_RepositoryID source) (ExternalOperation_SourceRetentionOriginID op) "" acc.2 in
      Ok (intent <| SourceRetentionIntent_InputHash := backupHash (intent_payload op source intent) |>)
    end
  end.

(** ** The intents of an operation; [clock] is read for every observation *)
Definition retained_target (snap : DeliverySnapshot) : bool :=
  let target := DeliverySnapshot_Target snap in
  EnvironmentBinding_AllowDeploy target && (EnvironmentBinding_GitOpsMode target == "PR")
  && contains ["DEV"; "TEST"] (EnvironmentBinding_Purpose target).
Definition binds_intent (clock : nat -> Time) (op : ExternalOperation) (intent : SourceRetentionIntent) (n : nat)
    (rp : SourceRevisionRetention * SourceRetentionObservation) : bool :=
  let '(revision, proof) := rp in
  (SourceRetentionObservation_IntentHash proof == SourceRetentionIntent_InputHash intent)
  && (SourceRetentionObservation_RevisionID proof == SourceRevisionRetention_RevisionID revision)
  && (SourceRetentionObservation_Branch proof == SourceRevisionRetention_Branch revision)
  && (SourceRetentionObservation_HeadCommit proof == SourceRevisionRetention_HeadCommit revision)
  && negb (IsZero (SourceRetentionObservation_ObservedAt proof))
  && negb (Before (SourceRetentionObservation_ObservedAt proof) (CreatedAt op))
  && negb (After (SourceRetentionObservation_ObservedAt proof) (clock n + second)%Z).
(** The repositories seen, the revisions counted and the observations read. *)
Record retention_count := mkRetentionCount {
  seen_repositories : list string; counted_revisions : nat; read_observations : nat
}.
Definition valid_source (clock : nat -> Time) (op : ExternalOperation) (acc : retention_count) (source : FlowSource)
    : res retention_count :=
  _ ← reject_if (contains (seen_repositories acc) (FlowSource_RepositoryID source)) (invalid "duplicate retained repository" []);
  expected ← expectedSourceRetention op source;
  _ ← reject_if (FlowSource_Retention source != Some expected)
        (invalid "source retention intent scope/hash changed; request a new explicit composition" []);
  let revisions := SourceRetentionIntent_Revisions expected in
  let total := (counted_revisions acc + length revisions)%nat in
  _ ← reject_if ((100 <? total)%nat || (length revisions <? length (FlowSource_Retained source))%nat)
        (invalid "retention progress exceeds bounded frozen selection" []);
  _ ← reject_if (existsb_at (fun n rp => negb (binds_intent clock op expected n rp)) (read_observations acc)
                   (zip revisions (FlowSource_Retained source)))
        (invalid "retained source observation does not bind exact frozen intent" []);
  Ok (mkRetentionCount (FlowSource_RepositoryID source :: seen_repositories acc) total
        (read_observations acc + length (FlowSource_Retained source))).
Definition validSourceRetention (clock : nat -> Time) (op : ExternalOperation) : res unit :=
  let sources := ExternalOperation_Sources op in
  _ ← reject_if ((ExternalOperation_Kind op != "COMPOSE") || bool_decide (sources = []) || (20 <? length sources)%nat
                 || bool_decide (ExternalOperation_PreparedDeployments op = []))
        (invalid "explicit source retention intent required; request a new DEV/TEST PR composition" []);
  _ ← reject_if (negb (forallb retained_target (ExternalOperation_PreparedDeployments op)))
        (invalid "retained compositions require enabled DEV/TEST PR-only targets" []);
  _ ← foldM (valid_source clock op) (mkRetentionCount [] 0 0) sources;
  Ok ().
(** Equal after sorting. *)
Definition sameRetentionIntegrationScope (a b : list string) : bool := merge_sort String.le a == merge_sort String.le b.
End intent.

(** ** Provenance: who asked for the lineage of a composition *)
Section provenance.
Context `{Hashing}.

Definition explicit_actions : list string := ["assemble_environment"; "reconcile_composition"; "update_environment_feature"].
Record creation := mkCreation { creation_index : Z; creation_count : Z; creation_scoped : bool }.
#[export] Instance zero_creation : Zero creation := mkCreation 0 0 false.
(** The operations by identity, and the identities that occur twice. *)
Definition operation_index (st : State) : gmap string ExternalOperation * gset string :=
  foldl (fun '(operations, duplicates) op =>
    (<[ID op := op]> operations, if is_some (operations !! ID op) then {[ID op]} ∪ duplicates else duplicates))
    (∅, ∅) (State_Operations st).
Definition scoped_creation (op : ExternalOperation) (event : Event) : bool :=
  let data := Event_Data event in
  (Event_ProductID event == ProductID op) && (Command_Action data == Event_Action event)
  && ((Command_ProductID data == "") || (Command_ProductID data == ProductID op))
  && (if Event_Action event == "reconcile_composition" then
        match ExternalOperation_CompositionSnapshot op with Some comp => Command_ID data == ID comp | None => false end
      else data_string (Command_Data data) "environment_id" == ExternalOperation_EnvironmentID op).
Record trail := mkTrail { trail_index : Z; trail_restore : Z; trail_creations : gmap string creation }.
#[export] Instance zero_trail : Zero trail := mkTrail 0 (-1) ∅.
Definition read_event (operations : gmap string ExternalOperation) (t : trail) (event : Event) : trail :=
  let index := trail_index t in
  let t := t <| trail_index := (index + 1)%Z |>
             <| trail_restore ::= fun r => if Event_Action event == "restore_backup" then index else r |> in
  if negb (contains explicit_actions (Event_Action event)) then t
  else match operations !! Event_EntityID event with
       | None => t
       | Some op =>
         t <| trail_creations ::= fun creations =>
                <[ID op := mkCreation index (creation_count (default zero (creations !! ID op)) + 1) (scoped_creation op event)]> creations |>
       end.
Definition read_trail (st : State) (operations : gmap string ExternalOperation) : trail :=
  foldl (read_event operations) zero (State_Events st).
(** An ancestor belongs to the lineage of [start]; [clock] is read by its
    [validSourceRetention], which has refused an operation without a
    composition. *)
Definition lineage_member (clock : nat -> Time) (start current : ExternalOperation) : bool :=
  (ProductID current == ProductID start) && (ExternalOperation_EnvironmentID current == ExternalOperation_EnvironmentID start)
  && (ExternalOperation_SourceRetentionOriginID current == ExternalOperation_SourceRetentionOriginID start)
  && (ExternalOperation_Status current != "CANCELLED") && is_ok (validSourceRetention clock current)
  && match ExternalOperation_CompositionSnapshot current with
     | Some comp => (ProductID comp == ProductID current)
                    && (Composition_EnvironmentID comp == ExternalOperation_EnvironmentID current)
     | None => false
     end.
(** Created once, by a scoped command, after the last restore and before its child. *)
Definition proven_creation (t : trail) (child : Z) (e : creation) : bool :=
  (creation_count e =? 1)%Z && creation_scoped e && (trail_restore t <? creation_index e)%Z && (creation_index e <? child)%Z.
Fixpoint walk_lineage (clock : ExternalOperation -> nat -> Time) (operations : gmap string ExternalOperation) (duplicates : gset string)
    (t : trail) (start : ExternalOperation) (fuel : nat) (seen : gset string) (child : Z) (current : option ExternalOperation) : res unit :=
  match fuel, current with
  | O, _ => Err ErrPanic
  | S _, None => invalid "source retention ancestor missing" []
  | S fuel, Some current =>
    _ ← reject_if (bool_decide (ID current ∈ seen) || bool_decide (ID current ∈ duplicates) || (size operations <=? size seen)%nat)
          (invalid "cyclic or ambiguous source retention lineage" []);
    _ ← reject_if (negb (lineage_member (clock current) start current))
          (invalid "source retention lineage scope or intent unavailable" []);
    let e := default zero (trail_creations t !! ID current) in
    _ ← reject_if (negb (proven_creation t child e))
          (invalid "source retention creation provenance missing, ambiguous or predates restore; request new explicit work" []);
    if ExternalOperation_SourceRetentionParentID current == "" then
      reject_if (ID current != ExternalOperation_SourceRetentionOriginID start)
        (invalid "source retention origin is not an explicit root" [])
    else walk_lineage clock operations duplicates t start fuel ({[ID current]} ∪ seen) (creation_index e)
           (operations !! ExternalOperation_SourceRetentionParentID current)
  end.
Definition provenance (clock : ExternalOperation -> nat -> Time) (st : State) (start : ExternalOperation) : res unit :=
  let '(operations, duplicates) := operation_index st in
  walk_lineage clock operations duplicates (read_trail st operations) start (S (size operations)) ∅
    (Z.of_nat (length (State_Events st))) (operations !! ID start).
End provenance.

Section retention.
Context `{World, Hashing}.

(** The ancestors of a lineage are distinct, and so are their clock readings. *)
Definition lineage_clock (op : ExternalOperation) (n : nat) : Time := now ("source retention of " +:+ ID op) n.
Definition sourceRetentionProvenance (st : State) (start : ExternalOperation) : res unit := provenance lineage_clock st start.
Definition sourceRetentionRefreshAllowed (st : State) (op : ExternalOperation) : bool := is_ok (sourceRetentionProvenance st op).

(** ** Freezing the intents of a new composition *)
Definition refreshed_parent (st : State) (op : ExternalOperation) (parent : ExternalOperation) : bool :=
  (ProductID parent == ProductID op) && (ExternalOperation_EnvironmentID parent == ExternalOperation_EnvironmentID op)
  && sourceRetentionRefreshAllowed st parent
  && match ExternalOperation_CompositionSnapshot parent with
     | Some comp => sameRetentionIntegrationScope (selectedIntegrations comp) (ExternalOperation_IntegrationIDs op)
     | None => false
     end.
Definition refresh_lineage (st : State) (op : ExternalOperation) (origin : composeRefreshOrigin) : res ExternalOperation :=
  _ ← reject_if (negb (is_some (environmentByID st (ExternalOperation_EnvironmentID op)))
                 || match ExternalOperation_CompositionSnapshot op with
                    | Some comp => selectionToken (Composition_EnvironmentSnapshot comp) != composeRefreshOrigin_Selection origin
                    | None => true
                    end
                 || (composeRefreshOrigin_ParentID origin != EnvironmentSelection_OperationID (composeRefreshOrigin_Selection origin)))
        (invalid "automatic composition selection changed" []);
  match operationByID st (composeRefreshOrigin_ParentID origin) with
  | None => invalid "automatic source refresh requires current explicit parent retention intent" []
  | Some parent =>
    if refreshed_parent st op parent then
      Ok (op <| ExternalOperation_SourceRetentionOriginID := ExternalOperation_SourceRetentionOriginID parent |>
             <| ExternalOperation_SourceRetentionParentID := ID parent |>)
    else invalid "automatic source refresh requires current explicit parent retention intent" []
  end.
Fixpoint freeze_sources (op : ExternalOperation) (sources : list FlowSource) : res (list FlowSource) :=
  match sources with
  | [] => Ok []
  | source :: sources =>
    intent ← expectedSourceRetention op source;
    rest ← freeze_sources op sources;
    Ok (source <| FlowSource_Retention := Some intent |> :: rest)
  end.
Definition freezeSourceRetention (st : State) (op : ExternalOperation) (origin : option composeRefreshOrigin) : res ExternalOperation :=
  let op := op <| ExternalOperation_SourceRetentionOriginID := ID op |> in
  op ← match origin with None => Ok op | Some origin => refresh_lineage st op origin end;
  sources ← freeze_sources op (ExternalOperation_Sources op);
  let op := op <| ExternalOperation_Sources := sources |> in
  _ ← validSourceRetention (now "freezeSourceRetention") op;
  Ok op.
End retention.

(** ** The fence of the worker that composes *)
Section lease.
Context `{Runtime, NetURL, Upper, MapOrder, URLs, Hashing, Encoding, RestorationEvidence, Operator, Baselines}.

Definition unchanged_sources (current checked : ExternalOperation) : bool :=
  (ExternalOperation_Sources current == ExternalOperation_Sources checked)
  && (ExternalOperation_CompositionSnapshot current == ExternalOperation_CompositionSnapshot checked)
  && (ExternalOperation_PreparedDeployments current == ExternalOperation_PreparedDeployments checked)
  && (ExternalOperation_SourceRetentionOriginID current == ExternalOperation_SourceRetentionOriginID checked)
  && (ExternalOperation_SourceRetentionParentID current == ExternalOperation_SourceRetentionParentID checked)
  && (ExternalOperation_Phase current == ExternalOperation_Phase checked).
Definition composeLease `{World} (st : State) (checked : ExternalOperation) (token : string) : res unit :=
  match operationByID st (ID checked) with
  | None => invalid "composition lease expired or lost" []
  | Some current =>
    _ ← reject_if ((ExternalOperation_LeaseOwner current != token)
                   || negb (After (ExternalOperation_LeaseUntil current) (now "retentionLease" 0)))
          (invalid "composition lease expired or lost" []);
    _ ← sourceRetentionProvenance st current;
    _ ← service_flowGuard st current;
    _ ← validSourceRetention (now "retentionLease sources") current;
    reject_if (negb (unchanged_sources current checked)) (invalid "composition source snapshot changed after verification" [])
  end.
#[export] Instance compose_lease : ComposeLease := {| retentionLease := fun world => @composeLease world |}.
End lease.

(** * Properties *)

(** ** The only element of a list with a property, and its position *)
Section only.
Context {A : Type} (p : A -> bool).

Definition NoneOf (l : list A) : Prop := forall i x, l !! i = Some x -> p x = false.
Definition Only (l : list A) (i : nat) (x : A) : Prop :=
  l !! i = Some x /\ p x = true /\ forall j y, l !! j = Some y -> p y = true -> j = i.

Lemma lookup_snoc_cases (l : list A) x i y : (l ++ [x]) !! i = Some y -> l !! i = Some y \/ i = length l /\ y = x.
Proof using Type.
  intros [H|[Hi H]]%lookup_app_Some; [left; exact H|right].
  apply list_lookup_singleton_Some in H as [H ->]. split; [lia|reflexivity].
Qed.
Lemma NoneOf_snoc l x : NoneOf (l ++ [x]) <-> NoneOf l /\ p x = false.
Proof using Type.
  split.
  - intros H. split; [intros i y Hy; apply (H i), lookup_app_l_Some, Hy|].
    apply (H (length l)), list_lookup_middle; reflexivity.
  - intros [H Hx] i y [Hy|[_ ->]]%lookup_snoc_cases; eauto.
Qed.
Lemma Only_snoc l x i y :
  Only (l ++ [x]) i y <-> (p x = false /\ Only l i y) \/ (p x = true /\ NoneOf l /\ i = length l /\ y = x).
Proof using Type.
  assert (Hx : (l ++ [x]) !! length l = Some x) by (apply list_lookup_middle; reflexivity).
  split.
  - intros (Hi & Hy & Hu). destruct (p x) eqn:E; [right|left].
    + pose proof (Hu _ _ Hx E) as <-. rewrite Hx in Hi. injection Hi as <-.
      split; [reflexivity|split; [|auto]]. intros j z Hj. destruct (p z) eqn:Ez; [|reflexivity].
      pose proof (Hu j z (lookup_app_l_Some _ [x] _ _ Hj) Ez). apply lookup_lt_Some in Hj. lia.
    + split; [reflexivity|]. apply lookup_snoc_cases in Hi as [Hi|[_ ->]]; [|congruence].
      split; [exact Hi|split; [exact Hy|]]. intros j z Hj. apply Hu. apply lookup_app_l_Some, Hj.
  - intros [(E & Hi & Hy & Hu)|(E & Hn & -> & ->)].
    + split; [apply lookup_app_l_Some, Hi|split; [exact Hy|]]. intros j z [Hj|[-> ->]]%lookup_snoc_cases; [apply Hu, Hj|congruence].
    + split; [exact Hx|split; [exact E|]]. intros j z [Hj|[-> ->]]%lookup_snoc_cases; [|reflexivity].
      rewrite (Hn _ _ Hj). discriminate.
Qed.
Lemma Only_not_none l i x : Only l i x -> NoneOf l -> False.
Proof using Type. intros (Hi & Hx & _) H. rewrite (H _ _ Hi) in Hx. discriminate. Qed.
Lemma NoneOf_nil : NoneOf [].
Proof using Type. intros i x H. destruct i; discriminate H. Qed.
End only.

(** ** The indexes say what scanning says *)
Definition lone (st : State) (op : ExternalOperation) : Prop := exists i, Only (has_id (ID op)) (State_Operations st) i op.
Lemma operation_index_exact st id :
  let '(operations, duplicates) := operation_index st in
  (operations !! id = None <-> NoneOf (has_id id) (State_Operations st))
  /\ (operations !! id = None -> id ∉ duplicates)
  /\ (forall op, operations !! id = Some op /\ id ∉ duplicates <-> exists i, Only (has_id id) (State_Operations st) i op)
  /\ (forall op, operations !! id = Some op -> ID op = id).
Proof.
  unfold operation_index. induction (State_Operations st) as [|x l IH] using rev_ind.
  - cbn. split; [split; [intros _; apply NoneOf_nil|reflexivity]|split; [set_solver|split; [|discriminate]]].
    intros op. split; [intros [? _]; discriminate|intros (i & Hi & _); destruct i; discriminate Hi].
  - rewrite foldl_app. cbn [foldl]. destruct (foldl _ _ l) as [operations duplicates]. destruct IH as (IHn & IHd & IHo & IHi).
    setoid_rewrite Only_snoc. rewrite NoneOf_snoc.
    assert (Hx : has_id id x = bool_decide (ID x = id)) by reflexivity. rewrite Hx. case_bool_decide as E.
    + subst id. rewrite lookup_insert_eq.
      split; [split; [discriminate|intros [_ ?]; discriminate]|split; [discriminate|split; [|intros op [= <-]; reflexivity]]].
      intros op. split.
      * intros [[= <-] Hd]. exists (length l). right. split; [reflexivity|split; [|auto]].
        apply IHn. destruct (operations !! ID x); [|reflexivity]. cbn in Hd. set_solver.
      * intros [i [[? _]|(_ & Hn & -> & ->)]]; [discriminate|]. split; [reflexivity|].
        apply IHn in Hn. rewrite Hn. cbn. apply IHd, Hn.
    + rewrite lookup_insert_ne by exact E.
      assert (Hd : id ∈ (if is_some (operations !! ID x) then {[ID x]} ∪ duplicates else duplicates) <-> id ∈ duplicates).
      { destruct (is_some _); [|reflexivity]. rewrite elem_of_union, elem_of_singleton. intuition congruence. }
      setoid_rewrite Hd. split; [rewrite IHn; tauto|split; [exact IHd|split; [|exact IHi]]].
      intros op. rewrite IHo. split; intros [i Hi]; exists i; [left; auto|destruct Hi as [[_ Hi]|[? _]]; [exact Hi|discriminate]].
Qed.

(** An event that asks for [op], as [sourceRetentionProvenance] reads the trail. *)
Definition asks_for (id : string) (event : Event) : bool := contains explicit_actions (Event_Action event) && (Event_EntityID event == id).
Definition is_restore (event : Event) : bool := Event_Action event == "restore_backup".
Record TrailReads (operations : gmap string ExternalOperation) (events : list Event) (t : trail) : Prop := {
  reads_index : trail_index t = Z.of_nat (length events);
  reads_restore : forall i, (0 <= i)%Z ->
    (trail_restore t < i)%Z <-> forall j event, events !! j = Some event -> is_restore event = true -> (Z.of_nat j < i)%Z;
  reads_creation : forall id op, operations !! id = Some op -> ID op = id ->
    let e := default zero (trail_creations t !! id) in
    (0 <= creation_count e)%Z
    /\ (creation_count e = 0%Z <-> NoneOf (asks_for id) events)
    /\ (creation_count e = 1%Z -> exists i event, Only (asks_for id) events i event)
    /\ (forall i event, Only (asks_for id) events i event -> e = mkCreation (Z.of_nat i) 1 (scoped_creation op event))
}.
Lemma read_event_index operations t event : trail_index (read_event operations t event) = (trail_index t + 1)%Z.
Proof. unfold read_event. destruct (negb _); [reflexivity|]. destruct (operations !! _); reflexivity. Qed.
Lemma read_event_restore operations t event :
  trail_restore (read_event operations t event) = if is_restore event then trail_index t else trail_restore t.
Proof. unfold read_event, is_restore. destruct (negb _); [reflexivity|]. destruct (operations !! _); reflexivity. Qed.
Lemma read_event_creation operations t event id op :
  operations !! id = Some op -> ID op = id ->
  (forall id' op', operations !! id' = Some op' -> ID op' = id') ->
  trail_creations (read_event operations t event) !! id
  = if asks_for id event
    then Some (mkCreation (trail_index t) (creation_count (default zero (trail_creations t !! id)) + 1) (scoped_creation op event))
    else trail_creations t !! id.
Proof.
  intros Ho Hop Hid. unfold read_event, asks_for. destruct (contains explicit_actions _); cbn [negb andb]; [|reflexivity].
  destruct (bool_decide_reflect (Event_EntityID event = id)) as [E|E].
  - rewrite E, Ho. subst id. apply lookup_insert_eq.
  - destruct (operations !! Event_EntityID event) as [op'|] eqn:E'; [|reflexivity].
    apply lookup_insert_ne. rewrite (Hid _ _ E'). exact E.
Qed.
Lemma read_trail_exact st operations :
  (forall id op, operations !! id = Some op -> ID op = id) -> TrailReads operations (State_Events st) (read_trail st operations).
Proof.
  intros Hid. unfold read_trail. induction (State_Events st) as [|event l IH] using rev_ind.
  - constructor; cbn; [reflexivity| |].
    + intros i Hi. split; [intros _ j ? Hj; destruct j; discriminate Hj|lia].
    + intros id op _ _. rewrite lookup_empty. cbn.
      split; [lia|]. split; [split; [intros _; apply NoneOf_nil|reflexivity]|]. split; [discriminate|].
      intros i event (Hi & _). destruct i; discriminate Hi.
  - rewrite foldl_app. cbn [foldl]. revert IH. generalize (foldl (read_event operations) zero l). intros t IH.
    pose proof (reads_index _ _ _ IH) as Ii. pose proof (reads_restore _ _ _ IH) as Ir. pose proof (reads_creation _ _ _ IH) as Ic.
    constructor.
    + rewrite read_event_index, length_app. cbn. lia.
    + intros i Hi. rewrite read_event_restore. specialize (Ir i Hi). destruct (is_restore event) eqn:E.
      * rewrite Ii. split; [intros Hlt j event' [Hj|[-> ->]]%lookup_snoc_cases _; [apply lookup_lt_Some in Hj|]; lia|].
        intros H. apply (H (length l) event); [apply list_lookup_middle; reflexivity|exact E].
      * rewrite Ir. split; [intros H j event' [Hj|[-> ->]]%lookup_snoc_cases; [apply H, Hj|congruence]|].
        intros H j event' Hj. apply H, lookup_app_l_Some, Hj.
    + intros id op Ho Hop. rewrite (read_event_creation _ _ _ _ _ Ho Hop Hid). destruct (Ic id op Ho Hop) as (Cc & Cn & C1 & Co).
      cbv zeta in *. setoid_rewrite Only_snoc. rewrite NoneOf_snoc, Ii. destruct (asks_for id event); cbn -[Z.add].
      * split; [lia|split; [split; [lia|intros [_ ?]; discriminate]|split]].
        -- intros H. exists (length l), event. right. split; [reflexivity|split; [apply Cn; lia|auto]].
        -- intros i event' [[? _]|(_ & Hn & -> & ->)]; [discriminate|]. apply Cn in Hn. rewrite Hn. reflexivity.
      * split; [exact Cc|split; [rewrite Cn; tauto|split]].
        -- intros H. destruct (C1 H) as (i & event' & Hi). exists i, event'. left. auto.
        -- intros i event' [[_ Hi]|[? _]]; [exact (Co _ _ Hi)|discriminate].
Qed.

(** ** Lineages

    [ProvenAt st i op]: the event at position [i] is the only one that asks
    for [op], is scoped to it, and follows every restore. *)
Definition ProvenAt (st : State) (i : nat) (op : ExternalOperation) : Prop :=
  (exists event, Only (asks_for (ID op)) (State_Events st) i event /\ scoped_creation op event = true)
  /\ forall j event, State_Events st !! j = Some event -> is_restore event = true -> (j < i)%nat.

Section lineage.
Context `{Hashing} (clock : ExternalOperation -> nat -> Time).
(** From [op] over its parents to an explicit root, each asked for before its
    child ([child] bounds the position of the event). *)
Inductive Lineage (st : State) (start : ExternalOperation) : nat -> ExternalOperation -> Prop :=
| lineage_root child op i :
    lone st op -> lineage_member (clock op) start op = true -> ProvenAt st i op -> (i < child)%nat ->
    ExternalOperation_SourceRetentionParentID op = "" -> ID op = ExternalOperation_SourceRetentionOriginID start ->
    Lineage st start child op
| lineage_child child op i parent :
    lone st op -> lineage_member (clock op) start op = true -> ProvenAt st i op -> (i < child)%nat ->
    ExternalOperation_SourceRetentionParentID op <> "" -> ID parent = ExternalOperation_SourceRetentionParentID op ->
    Lineage st start i parent -> Lineage st start child op.

Section walk.
Context (st : State) (start : ExternalOperation).
Let operations := (operation_index st).1.
Let duplicates := (operation_index st).2.
Let history := read_trail st operations.

Lemma index_some op : lone st op <-> operations !! ID op = Some op /\ ID op ∉ duplicates.
Proof using Type.
  unfold operations, duplicates. pose proof (operation_index_exact st (ID op)) as Hx.
  destruct (operation_index st). destruct Hx as (_ & _ & Ho & _). cbn. rewrite Ho. reflexivity.
Qed.
Lemma index_id id op : operations !! id = Some op -> ID op = id.
Proof using Type.
  unfold operations. pose proof (operation_index_exact st id) as Hx.
  destruct (operation_index st). destruct Hx as (_ & _ & _ & Hi). apply Hi.
Qed.
Lemma proven_exact op i child :
  operations !! ID op = Some op ->
  creation_index (default zero (trail_creations history !! ID op)) = Z.of_nat i ->
  proven_creation history (Z.of_nat child) (default zero (trail_creations history !! ID op)) = true <-> ProvenAt st i op /\ (i < child)%nat.
Proof using Type.
  intros Ho Hi. pose proof (read_trail_exact st operations index_id) as Hx.
  pose proof (reads_restore _ _ _ Hx) as Hr. destruct (reads_creation _ _ _ Hx (ID op) op Ho eq_refl) as (_ & _ & H1 & Honly).
  fold history in Hr, H1, Honly. unfold proven_creation, ProvenAt. rewrite Hi. rewrite !andb_true_iff, Z.eqb_eq, !Z.ltb_lt.
  rewrite (Hr (Z.of_nat i)) by lia. split.
  - intros [[[Hc1 Hs] Hres] Hlt]. destruct (H1 Hc1) as (k & event & Hk). pose proof (Honly _ _ Hk) as E. rewrite E in *. cbn in *.
    assert (k = i) as -> by lia. split; [split; [exists event; auto|]|lia]. intros j event' Hj Hj'. specialize (Hres j event' Hj Hj'). lia.
  - intros [[(event & Hk & Hs) Hres] Hlt]. rewrite (Honly _ _ Hk). cbn. repeat split; [exact Hs| |lia].
    intros j event' Hj Hj'. specialize (Hres j event' Hj Hj'). lia.
Qed.
Lemma proven_index op i : operations !! ID op = Some op -> ProvenAt st i op ->
  creation_index (default zero (trail_creations history !! ID op)) = Z.of_nat i.
Proof using Type.
  intros Ho [(event & Hk & _) _]. pose proof (read_trail_exact st operations index_id) as Hx.
  destruct (reads_creation _ _ _ Hx (ID op) op Ho eq_refl) as (_ & _ & _ & Honly). fold history in Honly. rewrite (Honly _ _ Hk). reflexivity.
Qed.
Lemma proven_read op child : operations !! ID op = Some op ->
  proven_creation history (Z.of_nat child) (default zero (trail_creations history !! ID op)) = true ->
  exists i, ProvenAt st i op /\ (i < child)%nat /\ creation_index (default zero (trail_creations history !! ID op)) = Z.of_nat i.
Proof using Type.
  intros Ho Hp. pose proof (read_trail_exact st operations index_id) as Hx.
  destruct (reads_creation _ _ _ Hx (ID op) op Ho eq_refl) as (_ & _ & H1 & Honly). fold history in H1, Honly.
  assert (Hc : creation_count (default zero (trail_creations history !! ID op)) = 1%Z).
  { unfold proven_creation in Hp. rewrite !andb_true_iff in Hp. apply Z.eqb_eq, Hp. }
  destruct (H1 Hc) as (i & event & Hi). exists i. pose proof (Honly _ _ Hi) as E.
  assert (Ei : creation_index (default zero (trail_creations history !! ID op)) = Z.of_nat i) by (rewrite E; reflexivity).
  destruct (proj1 (proven_exact op i child Ho Ei) Hp) as [Hat Hlt]. exact (conj Hat (conj Hlt Ei)).
Qed.
Notation walk := (walk_lineage clock operations duplicates history start).
Lemma walk_sound fuel seen child current :
  (forall op, current = Some op -> operations !! ID op = Some op) ->
  walk fuel seen (Z.of_nat child) current = Ok () -> exists op, current = Some op /\ Lineage st start child op.
Proof using Type.
  revert seen child current; induction fuel as [|fuel IH]; intros seen child [op|] Hop; try discriminate.
  specialize (Hop op eq_refl). intros Hw. exists op. split; [reflexivity|]. cbn [walk_lineage] in Hw.
  apply bind_guard in Hw as [Hg Hw]; [|discriminate]. apply bind_guard in Hw as [Hm%negb_false_iff Hw]; [|discriminate]. cbv zeta in Hw.
  apply bind_guard in Hw as [Hp%negb_false_iff Hw]; [|discriminate].
  destruct (proven_read op child Hop Hp) as (i & Hat & Hlt & Ei). rewrite Ei in Hw.
  assert (Hl : lone st op). { apply index_some. split; [exact Hop|]. to_prop. tauto. }
  case_bool_decide as Hr.
  - apply reject_if_invalid in Hw. to_prop. eapply lineage_root; eauto.
  - apply IH in Hw as (parent & Hparent & Hline).
    + apply index_id in Hparent as Hid. eapply lineage_child; eauto.
    + intros parent Hparent. rewrite (index_id _ _ Hparent). exact Hparent.
Qed.
Lemma unseen op i child (seen : gset string) : ProvenAt st i op -> (i < child)%nat ->
  (forall id, id ∈ seen -> exists op' j, ID op' = id /\ ProvenAt st j op' /\ (child <= j)%nat) -> ID op ∉ seen.
Proof using Type.
  intros [(event & Hi & _) _] Hlt Hseen (op' & j & Hid & [(event' & Hj & _) _] & Hle)%Hseen. rewrite Hid in Hj.
  destruct Hj as (_ & _ & Hj). destruct Hi as (Hi & Ha & _). specialize (Hj _ _ Hi Ha). lia.
Qed.
Lemma walk_complete child op : Lineage st start child op -> forall fuel seen,
  seen ⊆ dom operations -> (forall id, id ∈ seen -> exists op' j, ID op' = id /\ ProvenAt st j op' /\ (child <= j)%nat) ->
  (size operations - size seen < fuel)%nat -> walk fuel seen (Z.of_nat child) (Some op) = Ok ().
Proof using Type.
  assert (Hstep : forall child op i, lone st op -> lineage_member (clock op) start op = true -> ProvenAt st i op -> (i < child)%nat ->
    forall fuel seen, seen ⊆ dom operations -> (forall id, id ∈ seen -> exists op' j, ID op' = id /\ ProvenAt st j op' /\ (child <= j)%nat) ->
    walk (S fuel) seen (Z.of_nat child) (Some op)
    = if ExternalOperation_SourceRetentionParentID op == "" then
        reject_if (ID op != ExternalOperation_SourceRetentionOriginID start) (invalid "source retention origin is not an explicit root" [])
      else walk fuel ({[ID op]} ∪ seen) (Z.of_nat i) (operations !! ExternalOperation_SourceRetentionParentID op)).
  { clear child op. intros child op i [Ho Hd]%index_some Hm Hat Hlt fuel seen Hsub Hseen. cbn [walk_lineage].
    pose proof (unseen op i child seen Hat Hlt Hseen) as Hns.
    assert (Hsize : (size seen < size operations)%nat).
    { rewrite <- size_dom. apply subset_size. split; [exact Hsub|]. intros Hx. apply Hns, Hx, elem_of_dom. eauto. }
    rewrite (bool_decide_false _ Hns), (bool_decide_false _ Hd), (proj2 (Nat.leb_gt _ _) Hsize), Hm.
    cbn [orb negb reject_if mbind res_bind]. cbv zeta.
    rewrite (proven_index op i Ho Hat). 
    rewrite (proj2 (proven_exact op i child Ho (proven_index op i Ho Hat)) (conj Hat Hlt)). reflexivity. }
  induction 1 as [child op i Hl Hm Hat Hlt Hroot Hid|child op i parent Hl Hm Hat Hlt Hroot Hid Hline IH]; intros [|fuel] seen Hsub Hseen Hfuel; try lia;
    rewrite (Hstep child op i Hl Hm Hat Hlt fuel seen Hsub Hseen).
  - rewrite Hroot, Hid, !bool_decide_true by reflexivity. reflexivity.
  - rewrite (bool_decide_false _ Hroot). 
    assert (Hp : lone st parent) by (destruct Hline; assumption). apply index_some in Hp as [Hp _]. rewrite <- Hid, Hp.
    assert (Hns : ID op ∉ seen) by exact (unseen op i child seen Hat Hlt Hseen).
    apply index_some in Hl as [Ho _]. assert (Hd : ID op ∈ dom operations) by (apply elem_of_dom; eauto).
    assert (Hsub' : {[ID op]} ∪ seen ⊆ dom operations).
    { intros x [Hx%elem_of_singleton|Hx]%elem_of_union; [rewrite Hx; exact Hd|exact (Hsub x Hx)]. }
    apply IH; [exact Hsub'| |].
    + intros x [Hx%elem_of_singleton|Hx]%elem_of_union; [exists op, i; auto|].
      destruct (Hseen x Hx) as (op' & j & ? & ? & ?). exists op', j. split; [assumption|split; [assumption|lia]].
    + apply subseteq_size in Hsub'. rewrite size_dom, size_union, size_singleton in *; [lia| |]; set_solver.
Qed.
End walk.

(** The walk that the code bounds by the number of operations decides
    exactly whether the operation stored under the identity of [start] has a
    lineage: its ancestors up to an explicit root, each stored and asked for
    once, in scope, with intents that hold, after every restore and before its
    child. *)
Theorem provenance_exact st start :
  provenance clock st start = Ok ()
  <-> exists op, ID op = ID start /\ Lineage st start (length (State_Events st)) op.
Proof using Type.
  unfold provenance. pose proof (walk_sound st start) as Hs. pose proof (walk_complete st start) as Hc.
  pose proof (index_some st) as Hi. pose proof (index_id st) as Hid.
  destruct (operation_index st) as [operations duplicates]. cbn [fst snd] in *. split.
  - intros Hw. apply Hs in Hw as (op & Hop & Hl); [exists op; auto|]. intros op Hop. rewrite (Hid _ _ Hop). exact Hop.
  - intros (op & E & Hl). rewrite <- E.
    assert (Ho : lone st op) by (destruct Hl; assumption). apply Hi in Ho as [Ho _]. rewrite Ho.
    apply (Hc _ _ Hl); [set_solver|set_solver|lia].
Qed.
End lineage.

(** C17 The provenance of a composition is decided exactly, and the walk over
    its parents ends: the verdict is positive exactly when the operation
    stored under that identity descends, through operations of one scope, each
    stored once and asked for once after every restore of the state and before
    its child, from a root that a person asked for. *)
Theorem provenance_decided `{World, Hashing} st start :
  sourceRetentionProvenance st start = Ok ()
  <-> exists op, ID op = ID start /\ Lineage lineage_clock st start (length (State_Events st)) op.
Proof. apply provenance_exact. Qed.


(** ** What an intent retains *)
Section intents.
Context `{Hashing}.

(** A revision retained from [comp] for a source of [product]. *)
Definition Retained (product : string) (comp : Composition) (source : FlowSource) (v : SourceRevisionRetention) : Prop :=
  SourceRevisionRetention_Branch v = retained_branch (SourceRevisionRetention_RevisionID v)
  /\ safeBranch (SourceRevisionRetention_Branch v) = true /\ fullSHA (SourceRevisionRetention_HeadCommit v) = true
  /\ exists r, r ∈ Composition_RevisionSnapshots comp /\ ID r = SourceRevisionRetention_RevisionID v /\ ProductID r = product
     /\ IntegrationRevision_RepositoryID r = FlowSource_RepositoryID source
     /\ IntegrationRevision_HeadCommit r = SourceRevisionRetention_HeadCommit v.
Lemma retain_revision_Ok op comp source acc rid head_ acc' :
  retain_revision op comp source acc (rid, head_) = Ok acc' ->
  exists v, acc' = (head_ :: acc.1, acc.2 ++ [v]) /\ SourceRevisionRetention_HeadCommit v = head_
    /\ SourceRevisionRetention_RevisionID v = rid /\ head_ ∉ acc.1 /\ Retained (ProductID op) comp source v.
Proof using Type.
  unfold retain_revision. destruct (find_last _ _) as [r|] eqn:E; [|discriminate]. intros Hs.
  apply find_last_Some in E as [Hr Hid]. apply bool_decide_eq_true in Hid.
  apply bind_guard in Hs as [Hg%negb_false_iff Hs]; [|discriminate]. apply bind_guard in Hs as [_ Hs]; [|discriminate].
  injection Hs as <-. unfold retained_revision in Hg. cbv zeta in Hg.
  rewrite !andb_true_iff in Hg. destruct Hg as [[[[[[[Hp Hrepo] Hh] Hsha] _] Hnew] _] Hsafe]. to_prop.
  exists (mkSourceRevisionRetention rid (retained_branch rid) (IntegrationRevision_HeadCommit r)).
  rewrite Hh in *. repeat split; auto. exists r. auto.
Qed.
Lemma retain_revisions_Ok op comp source l acc acc' :
  foldM (retain_revision op comp source) acc l = Ok acc' -> NoDup acc.1 -> reverse acc.1 = map SourceRevisionRetention_HeadCommit acc.2 ->
  (forall v, v ∈ acc.2 -> Retained (ProductID op) comp source v) ->
  NoDup (map SourceRevisionRetention_HeadCommit acc'.2)
  /\ map SourceRevisionRetention_HeadCommit acc'.2 = map SourceRevisionRetention_HeadCommit acc.2 ++ map snd l
  /\ map SourceRevisionRetention_RevisionID acc'.2 = map SourceRevisionRetention_RevisionID acc.2 ++ map fst l
  /\ forall v, v ∈ acc'.2 -> Retained (ProductID op) comp source v.
Proof using Type.
  revert acc; induction l as [|[rid head_] l IH]; intros acc; cbn [foldM].
  - intros [= <-] Hn Hr Ha. rewrite !app_nil_r, <- Hr. split; [|auto]. rewrite reverse_Permutation. exact Hn.
  - intros Hs Hn Hr Ha. apply bind_Ok in Hs as (acc1 & H1 & Hs). apply retain_revision_Ok in H1 as (v & -> & Hh & Hv & Hnew & Hret).
    specialize (IH _ Hs). cbn [fst snd] in IH. destruct IH as (I1 & I2 & I3 & I4).
    + apply list.NoDup_cons. auto.
    + rewrite reverse_cons, Hr, <- Hh. symmetry. apply (map_app _ acc.2 [v]).
    + intros w [Hw| ->%list_elem_of_singleton]%elem_of_app; auto.
    + assert (Happ : map SourceRevisionRetention_HeadCommit (acc.2 ++ [v]) = map SourceRevisionRetention_HeadCommit acc.2 ++ [head_])
        by (rewrite <- Hh; apply (map_app _ acc.2 [v])).
      assert (Happ' : map SourceRevisionRetention_RevisionID (acc.2 ++ [v]) = map SourceRevisionRetention_RevisionID acc.2 ++ [rid])
        by (rewrite <- Hv; apply (map_app _ acc.2 [v])).
      rewrite Happ, <- app_assoc in I2. rewrite Happ', <- app_assoc in I3. auto.
Qed.
(** The intent of a source pins, in order, one distinct head for each revision
    the composition selects in that repository. *)
Lemma expected_intent_exact op source intent : expectedSourceRetention op source = Ok intent ->
  exists comp, ExternalOperation_CompositionSnapshot op = Some comp
  /\ malformed_plan op source = false
  /\ map SourceRevisionRetention_HeadCommit (SourceRetentionIntent_Revisions intent) = SourcePlan_HeadSHAs (FlowSource_Plan source)
  /\ NoDup (SourcePlan_HeadSHAs (FlowSource_Plan source))
  /\ forall v, v ∈ SourceRetentionIntent_Revisions intent -> Retained (ProductID op) comp source v.
Proof using Type.
  unfold expectedSourceRetention. destruct (ExternalOperation_CompositionSnapshot op) as [comp|]; [|discriminate]. intros Hs.
  exists comp. split; [reflexivity|].
  apply bind_guard in Hs as [Hg Hs]; [|discriminate]. split; [exact Hg|].
  apply bind_Ok in Hs as ([ids|] & _ & Hs); [|discriminate]. cbv zeta in Hs.
  apply bind_guard in Hs as [Hlen%negb_false_iff Hs]; [|discriminate]. apply Nat.eqb_eq in Hlen.
  apply bind_Ok in Hs as (acc & Hacc & Hs). injection Hs as <-.
  apply retain_revisions_Ok in Hacc as (H1 & H2 & _ & H4); [|apply list.NoDup_nil; exact I|reflexivity|set_solver].
  cbn [fst snd map app] in H2. change (map snd (zip ids _)) with ((zip ids (SourcePlan_HeadSHAs (FlowSource_Plan source))).*2) in H2.
  rewrite snd_zip in H2 by lia. cbn. rewrite <- H2. auto.
Qed.
Lemma freeze_sources_Ok op sources sources' : freeze_sources op sources = Ok sources' ->
  Forall2 (fun s s' => exists intent, expectedSourceRetention op s = Ok intent /\ s' = s <| FlowSource_Retention := Some intent |>)
    sources sources'.
Proof using Type.
  revert sources'; induction sources as [|s sources IH]; cbn; intros sources' Hs.
  - injection Hs as <-. constructor.
  - apply bind_Ok in Hs as (intent & Hi & Hs). apply bind_Ok in Hs as (rest & Hr & Hs). injection Hs as <-.
    constructor; eauto.
Qed.
End intents.
