(* ===== verification/SourceChecks.v ===== *)
(** * Reading sources before an effect

    The provider reads that stand between a decision and its effect: the
    merged pull requests of a main candidate ([observeMainCandidate],
    main_candidate.go), the branch of a native build ([verifyNativeSource],
    native_delivery.go), the main branch of a promotion
    ([verifyPromotionSource], flow_guard.go) and the published image of a
    native artifact ([inspectNativeArtifact], native_publication.go). *)
From S2P Require Import Prelude GoText GoJson Delivery Domain Status Planning Handlers DeviceAuth Collections ExternalSystems Reservation Composition Conflicts Scenarios Pins WorkerAuth WorkerJobs Publications Registry Restoration Checks WorkerProtocol External Candidates Activation FlowGuards Effects Saving.
Open Scope string_scope.
Open Scope list_scope.

(** The interfaces the configured provider implements. *)
Class Capabilities := {
  provider_configured : bool; pull_request_observer : bool; gitops_pr_provider : bool; gitops_batch_provider : bool;
  gitops_revision_verifier : bool; ref_provider : bool; check_run_provider : bool; source_provider : bool; scoped_git_observer : bool;
  composed_source_verifier : bool
}.
(** The SHA of the last branch of that name. *)
Definition branch_sha (name : string) (branches : list BranchInfo) : string :=
  foldl (fun sha b => if BranchInfo_Name b == name then BranchInfo_SHA b else sha) "" branches.
(** dev_runtime_worker.go [validRevisionProof] *)
Definition validRevisionProof (r : GitOpsRevisionRequest) (p : GitOpsRevisionProof) : bool :=
  (GitOpsRevisionProof_Repository p == GitOpsRevisionRequest_Repository r) && (GitOpsRevisionProof_Ref p == GitOpsRevisionRequest_Ref r)
  && fullSHA (GitOpsRevisionProof_HeadSHA p)
  && ((GitOpsRevisionRequest_HeadSHA r == "") || (GitOpsRevisionProof_HeadSHA p == GitOpsRevisionRequest_HeadSHA r))
  && (GitOpsRevisionProof_AncestorSHAs p == GitOpsRevisionRequest_AncestorSHAs r).
Definition commit_sha (s : string) : bool := (strlen s == 40%Z) && fullSHA s.

Section sources.
Context `{Runtime, NetURL, Upper, MapOrder, URLs, Hashing, Encoding, RestorationEvidence, Operator, Baselines, Capabilities}.

(** [Service.State]: the worker's own context restricts nothing. *)
Definition service_state : Prog (res State) := try (effect Read) (fun st => check (Ok (derive st))).

(** ** The merged sources of a candidate *)
Definition is_ancestor (snap : DeliverySnapshot) (base head : string) : Prog (res unit) :=
  if base == head then Ret (Ok ())
  else
    '(v, e) ← ask (Compare (DeliverySnapshot_SourceConnection snap) (BuildRequest_Repository (DeliverySnapshot_BuildRequest snap)) base head);
    check (reject_if (is_some e || (CompareResult_BaseSHA v != base) || (CompareResult_HeadSHA v != head) || (CompareResult_Behind v != 0%Z))
             (invalid "candidate source is not current main ancestry" [])).
Definition merged_identity (src : MainCandidateRepository) (r : MainCandidateMergedRevision) (pr : PullRequestObservation) : bool :=
  (PullRequestObservation_Number pr == MainCandidateMergedRevision_PullRequestNumber r)
  && (PullRequestObservation_BaseRepositoryID pr == MainCandidateRepository_ProviderRepositoryID src)
  && (PullRequestObservation_Base pr == MainCandidateRepository_MainRef src)
  && (PullRequestObservation_HeadSHA pr == MainCandidateMergedRevision_HeadSHA r)
  && (PullRequestObservation_Head pr == MainCandidateMergedRevision_HeadRef r) && equal_fold (PullRequestObservation_State pr) "merged"
  && negb (IsZero (PullRequestObservation_MergedAt pr)) && commit_sha (PullRequestObservation_MergeSHA pr).
Definition observation_hash (pr : PullRequestObservation) : string :=
  Fingerprint (PullRequestObservation_BaseRepositoryID pr, PullRequestObservation_HeadRepositoryID pr, PullRequestObservation_Number pr,
    PullRequestObservation_Base pr, PullRequestObservation_Head pr, PullRequestObservation_HeadSHA pr, PullRequestObservation_MergeSHA pr,
    PullRequestObservation_MergedAt pr).
(** The merge is recorded the first time and compared later. *)
Definition merged_as (initial : bool) (r : MainCandidateMergedRevision) (pr : PullRequestObservation) : res MainCandidateMergedRevision :=
  if initial then
    Ok (r <| MainCandidateMergedRevision_MergeSHA := PullRequestObservation_MergeSHA pr |>
          <| MainCandidateMergedRevision_ObservationHash := observation_hash pr |>)
  else
    _ ← require ((MainCandidateMergedRevision_MergeSHA r == PullRequestObservation_MergeSHA pr)
                 && (MainCandidateMergedRevision_ObservationHash r == observation_hash pr)) "merged pull request identity changed";
    Ok r.
Definition observe_revision (initial : bool) (snap : DeliverySnapshot) (src : MainCandidateRepository)
    (acc : list MainCandidateMergedRevision * bool) (r : MainCandidateMergedRevision) : Prog (res (list MainCandidateMergedRevision * bool)) :=
  '(pr, e) ← ask (ObservePullRequest (DeliverySnapshot_SourceConnection snap) (BuildRequest_Repository (DeliverySnapshot_BuildRequest snap))
                    (MainCandidateMergedRevision_PullRequestNumber r));
  if is_some e || negb (merged_identity src r pr) then check (invalid "merged main pull request identity mismatch" [])
  else try (check (merged_as initial r pr)) (fun r =>
    try (is_ancestor snap (PullRequestObservation_MergeSHA pr) (MainCandidateRepository_MainSHA src)) (fun _ =>
    check (Ok (acc.1 ++ [r], acc.2 || (PullRequestObservation_MergeSHA pr == MainCandidateRepository_MainSHA src))))).
Definition observe_source (initial : bool) (acc : list MainCandidateRepository) (x : MainCandidateRepository * option DeliverySnapshot)
    : Prog (res (list MainCandidateRepository)) :=
  match x with
  | (_, None) => check (Err ErrPanic)
  | (src, Some snap) =>
    '(branches, e) ← ask (Branches (DeliverySnapshot_SourceConnection snap) (decimal (MainCandidateRepository_ProviderRepositoryID src)));
    if is_some e then check (invalid "candidate main observation failed" [])
    else
      let tip := branch_sha (MainCandidateRepository_MainRef src) branches in
      if negb (commit_sha tip) then check (invalid "configured main missing" [])
      else try (is_ancestor snap (MainCandidateRepository_MainSHA src) tip) (fun _ =>
        try (loop (observe_revision initial snap src) ([], false) (MainCandidateRepository_Revisions src)) (fun revs =>
        if negb revs.2 then check (invalid "pinned main must equal a selected pull request merge" [])
        else check (Ok (acc ++ [src <| MainCandidateRepository_Revisions := revs.1 |>]))))
  end.
(** [observeMainCandidate]: the operation with what it observed, the first time. *)
Definition observe_candidate (initial : bool) (op : ExternalOperation) : Prog (res ExternalOperation) :=
  match ExternalOperation_MainCandidate op with
  | None => check (invalid "merged pull request observer required" [])
  | Some p =>
    if negb pull_request_observer then check (invalid "merged pull request observer required" [])
    else
      let n := length (MainCandidateProof_Sources p) in
      let snaps := map Some (take n (ExternalOperation_PreparedDeployments op)) ++ replicate (n - length (ExternalOperation_PreparedDeployments op)) None in
      try (loop (observe_source initial) [] (zip (MainCandidateProof_Sources p) snaps)) (fun sources =>
        let op := op <| ExternalOperation_MainCandidate := Some (p <| MainCandidateProof_Sources := sources |>) |> in
        check (Ok (if initial then
          let frozen := p <| MainCandidateProof_Sources := sources |> <| MainCandidateProof_ConfigurationHash := mainCandidateSnapshotHash op |> in
          op <| ExternalOperation_MainCandidate := Some frozen |>
            <| ExternalOperation_PreparedDeployments ::= map (fun s => s <| DeliverySnapshot_MainCandidate := Some frozen |>) |>
        else op)))
  end.
Definition reobserve (op : option ExternalOperation) : Prog (res unit) :=
  match op with
  | Some op => try (observe_candidate false op) (fun _ => check (Ok ()))
  | None => check (Err ErrPanic)
  end.

(** ** Native sources — native_delivery.go *)
Definition native_branches (op : ExternalOperation) (snap : DeliverySnapshot) : Prog (res unit) :=
  let rev := DeliverySnapshot_Revision snap in
  let repo := BuildRequest_Repository (DeliverySnapshot_BuildRequest snap) in
  '(branches, e) ← ask (Branches (DeliverySnapshot_SourceConnection snap) repo);
  match e with
  | Some e => check (plain e)
  | None =>
    let head := branch_sha (IntegrationRevision_Branch rev) branches in
    let base := branch_sha (configuredBase (DeliverySnapshot_Source snap)) branches in
    if (head != IntegrationRevision_HeadCommit rev) || (base == "") then check (invalid "native source moved or missing" [])
    else if (ExternalOperation_ParentID op == "") && (base != IntegrationRevision_BaseCommit rev) then
      check (invalid "native base moved; capture new revision" [])
    else
      let comparisonBase := if ExternalOperation_ParentID op != "" then IntegrationRevision_BaseCommit rev else base in
      '(v, e) ← ask (Compare (DeliverySnapshot_SourceConnection snap) repo comparisonBase head);
      match e with
      | Some e => check (plain e)
      | None => check (reject_if (0 <? CompareResult_Behind v)%Z (invalid "native source is behind base" []))
      end
  end.
Definition verifyNativeSource (op : ExternalOperation) : Prog (res unit) :=
  try (effect Read) (fun st =>
  w ← effect Fresh;
  match devActivationParent st op with
  | Some parent =>
    try (check (devActivationAllowed st op)) (fun _ =>
    match ExternalOperation_DevActivation parent with
    | Some p => reobserve (operationByID st (DevActivationProof_CandidateOperationID p))
    | None => check (Err ErrPanic)
    end)
  | None =>
    match ExternalOperation_Snapshot op with
    | None => Ret (Ok ())
    | Some snap =>
      if is_some (DeliverySnapshot_MainCandidate snap) then
        try (effect Read) (fun st =>
        w ← effect Fresh;
        try (check (nativeMainChildAllowed st op)) (fun _ => reobserve (operationByID st (ExternalOperation_ParentID op))))
      else if native_build snap then native_branches op snap else Ret (Ok ())
    end
  end).

(** ** The source of a promotion — flow_guard.go *)
Definition verifyPromotionSource (op : ExternalOperation) : Prog (res unit) :=
  try service_state (fun st =>
  w ← effect Fresh;
  try (check (service_flowChildAllowed st op)) (fun _ =>
  match operationByID st (ExternalOperation_ParentID op), ExternalOperation_Snapshot op with
  | Some parent, Some snap =>
    if ExternalOperation_Kind parent != "RELEASE_PROMOTION" then Ret (Ok ())
    else
      '(branches, e) ← ask (Branches (DeliverySnapshot_SourceConnection snap) (BuildRequest_Repository (DeliverySnapshot_BuildRequest snap)));
      match e with
      | Some e => check (plain e)
      | None => check (require (existsb (fun b => (BranchInfo_Name b == configuredBase (DeliverySnapshot_Source snap))
                                    && (BranchInfo_SHA b == IntegrationRevision_HeadCommit (DeliverySnapshot_Revision snap))) branches)
                         "main changed after candidate verification; prepare a new candidate")
      end
  | Some parent, None => if ExternalOperation_Kind parent != "RELEASE_PROMOTION" then Ret (Ok ()) else check (Err ErrPanic)
  | None, _ => Ret (Ok ())
  end)).

(** ** The published image — native_publication.go *)
Definition inspectNativeArtifact (op : ExternalOperation) : Prog (res ArtifactResult) :=
  try (effect Read) (fun st =>
  match ExternalOperation_ExistingArtifact op, ExternalOperation_Snapshot op with
  | Some known, Some snap =>
    match DeliveryArtifact_Native known with
    | None => check (invalid "native artifact required" [])
    | Some n =>
      w ← effect Fresh;
      try (check (validatedExistingArtifact st (ID known) (ProductID op) (ExternalOperation_ApplicationID op)
             (IntegrationRevision_RepositoryID (DeliverySnapshot_Revision snap)) (IntegrationRevision_HeadCommit (DeliverySnapshot_Revision snap))
             (ComponentBuild_ImageRepository (DeliverySnapshot_Build snap)))) (fun _ =>
      let job := workerJob st (NativeArtifact_PublicationJobID n) in
      try (check (historicalPublicationEligible st job)) (fun _ =>
      match job, externalWorkers with
      | Some j, Some o =>
        match publication o (WorkerInputs_RecipeID (WorkerJob_Inputs j)), WorkerInputs_Publication (WorkerJob_Inputs j) with
        | Some r, Some p =>
          '(seen, e) ← ask (ReadPublication r p);
          match e with
          | Some e => check (plain e)
          | None =>
            try (effect Read) (fun after =>
            w ← effect Fresh;
            try (check (historicalPublicationEligible after (workerJob after (ID j)))) (fun _ =>
            check (Ok (mkArtifactResult true (NativeObservation_ManifestDigest seen) "" (NativeObservation_ObservedAt seen)))))
          end
        | _, _ => check (Err ErrPanic)
        end
      | _, _ => check (Err ErrPanic)
      end))
    end
  | _, _ => check (invalid "native artifact required" [])
  end).
End sources.
