(* ===== verification/DevRuntime.v ===== *)
(** * Runtime verifications of a candidate in Dev

    dev_runtime.go: the roles an application's observers must cover, the proof
    of what an activation is expected to run, the request that asks for a
    verification, its admission and its capability.  The successive
    verifications of an activation, and the successive captures of a
    reservation (Baseline.v), are numbered by generations. *)
From S2P Require Import Prelude GoText Worklist GoJson Delivery Domain Status Planning Handlers DeviceAuth Collections ExternalSystems Reservation Composition Conflicts Scenarios Pins WorkerAuth WorkerJobs Publications Registry Restoration Checks WorkerProtocol External Candidates Activation FlowGuards Effects SourceChecks.
Open Scope string_scope.
Open Scope list_scope.

(** ** Observers — delivery/runtime.go

    [Service.runtimeObservers].  An observer that is not a
    [RuntimeVerificationObserver] has no scope; the scope is read from the
    observer's files, so that its answer may change between transactions. *)
Record RuntimeTarget := mkRuntimeTarget {
  RuntimeTarget_ProductID : string; RuntimeTarget_EnvironmentID : string; RuntimeTarget_ApplicationID : string }.
#[export] Instance RuntimeTarget_eq_dec : EqDecision RuntimeTarget.
Proof. solve_decision. Defined.
Record RuntimeObserver := mkRuntimeObserver {
  TargetIdentity : RuntimeTarget; VerificationScope : option (option RuntimeVerificationScope) }.
Class Observers := { runtimeObservers : forall `{World}, list RuntimeObserver }.

(** ** Generations *)
Section generations.
Context (own : ExternalOperation -> bool) (generation : ExternalOperation -> option Z).
(** The own operation of the greatest generation, and whether all of them are
    numbered and that one is alone. *)
Definition newer (acc : option ExternalOperation * bool) (v : ExternalOperation) : option ExternalOperation * bool :=
  if negb (own v) then acc
  else match generation v with
  | None => (acc.1, false)
  | Some n =>
    if n == 0%Z then (acc.1, false)
    else match acc.1 ≫= generation with
    | None => (Some v, acc.2)
    | Some m => if (m <? n)%Z then (Some v, acc.2) else if n == m then (acc.1, false) else acc
    end
  end.
Definition latest_generation (ops : list ExternalOperation) : option ExternalOperation * bool := foldl newer (None, true) ops.
Definition past_generation (message : string) (next : Z) (v : ExternalOperation) : res Z :=
  if negb (own v) then Ok next
  else match generation v with
  | None => invalid message []
  | Some n => _ ← reject_if ((n == 0%Z) || (n == max_uint64)) (invalid message []); Ok (if (next <=? n)%Z then n + 1 else next)%Z
  end.
Definition next_generation (message : string) (ops : list ExternalOperation) : res Z := foldM (past_generation message) 1%Z ops.
End generations.

(** ** Requests *)
#[export] Instance fields_DevRuntimeRequest `{Runtime} : Fields DevRuntimeRequest :=
  [
    field "activation_operation_id" DevRuntimeRequest_ActivationOperationID; field "request_key" DevRuntimeRequest_RequestKey;
    field "expected_selection" DevRuntimeRequest_ExpectedSelection
  ].
Definition product_scope (c : Command) : bool :=
  (Command_ProductID c != "") && negb (blank (Command_Actor c)) && (Command_ID c == "") && (Command_FeatureID c == "")
  && (Command_IntegrationID c == "") && (Command_GateID c == "") && (Command_CheckID c == "") && (Command_ResultID c == "").
Definition selection_exact (d : Data) : bool :=
  match d !! "expected_selection" with
  | Some (JObj kvs) =>
    let keys : gmap string json := list_to_map (reverse kvs) in
    (size keys =? 3)%nat
    && forallb (fun k => match keys !! k with None | Some JNull => false | Some _ => true end) ["composition_id"; "operation_id"; "generation"]
  | _ => false
  end.

(** ** Roles *)
Definition runtimeRoleKey (v : RuntimeVerificationScope) : string :=
  RuntimeVerificationScope_Context v +:+ nul +:+ RuntimeVerificationScope_Namespace v +:+ nul +:+ RuntimeVerificationScope_Deployment v
  +:+ nul +:+ RuntimeVerificationScope_Container v.
Definition validBindingHash (v : string) : bool := (String.length v =? 64)%nat && str_all is_hex v.
Definition scope_texts (s : RuntimeVerificationScope) : list string :=
  [RuntimeVerificationScope_ProductID s; RuntimeVerificationScope_EnvironmentID s; RuntimeVerificationScope_ApplicationID s;
   RuntimeVerificationScope_Context s; RuntimeVerificationScope_Namespace s; RuntimeVerificationScope_Deployment s;
   RuntimeVerificationScope_Container s; RuntimeVerificationScope_FluxNamespace s; RuntimeVerificationScope_Kustomization s;
   RuntimeVerificationScope_VerificationGroup s].
Definition bounded_text (v : string) : bool :=
  (strlen v <=? 1024)%Z && negb (str_any (fun a => (byte_of a <? 32)%nat || (byte_of a =? 127)%nat) v).
Definition complete_scope (target : RuntimeTarget) (cluster namespace : string) (s : RuntimeVerificationScope) : bool :=
  (RuntimeVerificationScope_ProductID s == RuntimeTarget_ProductID target)
  && (RuntimeVerificationScope_EnvironmentID s == RuntimeTarget_EnvironmentID target)
  && (RuntimeVerificationScope_ApplicationID s == RuntimeTarget_ApplicationID target)
  && (RuntimeVerificationScope_Context s == cluster) && (RuntimeVerificationScope_Namespace s == namespace)
  && (RuntimeVerificationScope_Context s != "") && (RuntimeVerificationScope_Namespace s != "")
  && (RuntimeVerificationScope_Deployment s != "") && (RuntimeVerificationScope_Container s != "")
  && (RuntimeVerificationScope_FluxNamespace s != "") && (RuntimeVerificationScope_Kustomization s != "")
  && (RuntimeVerificationScope_VerificationGroup s != "") && validBindingHash (RuntimeVerificationScope_BindingHash s).
(** One observer of the target; the group is that of the scopes before it. *)
Definition cover (target : RuntimeTarget) (cluster namespace : string) (out : list RuntimeVerificationScope) (o : RuntimeObserver)
    : res (list RuntimeVerificationScope) :=
  if TargetIdentity o != target then Ok out
  else match VerificationScope o with
  | None => invalid "all configured runtime roles require verification capability" []
  | Some None => invalid "runtime role binding unavailable" []
  | Some (Some s) =>
    _ ← require (complete_scope target cluster namespace s) "runtime role scope incomplete or target mismatch";
    _ ← require (forallb bounded_text (scope_texts s)) "runtime role scope exceeds bounds";
    _ ← reject_if (contains (map runtimeRoleKey out) (runtimeRoleKey s)
                   || match list.last out with
                      | Some last => RuntimeVerificationScope_VerificationGroup last != RuntimeVerificationScope_VerificationGroup s
                      | None => false
                      end) (invalid "duplicate runtime role or mixed verification groups" []);
    _ ← reject_if (64 <? count (out ++ [s]))%Z (invalid "runtime role bound exceeded" []);
    Ok (out ++ [s])
  end.
Definition runtimeCoverage `{World, Observers} (product environment application cluster namespace : string) : res (list RuntimeVerificationScope) :=
  out ← foldM (cover (mkRuntimeTarget product environment application) cluster namespace) [] runtimeObservers;
  _ ← reject_if (bool_decide (out = [])) (invalid "complete operator runtime verification group required" []);
  Ok (sort_by runtimeRoleKey out).
(** Every workload is claimed by one component. *)
Definition claim_role (message : string) (roles : list string) (s : RuntimeVerificationScope) : res (list string) :=
  _ ← reject_if (contains roles (runtimeRoleKey s)) (invalid message []);
  Ok (runtimeRoleKey s :: roles).
(** [time.Date(9999, 12, 31, 23, 59, 59, 999999999, time.UTC)] *)
Definition end_of_time : Time := (3652059 * 24 * hour - 1)%Z.
(** [strings.Repeat] *)
Fixpoint str_repeat (n : nat) (s : string) : string := match n with O => "" | S n => s +:+ str_repeat n s end.
Definition zeros : string := str_repeat 64 "0".

Section runtime.
Context `{Runtime, NetURL, Upper, MapOrder, URLs, Hashing, Encoding, RestorationEvidence, Operator, Baselines, Capabilities, Observers}.

(** ** What an activation is expected to run *)
Definition devRuntimeProofHash (p : DevRuntimeProof) : string := Fingerprint (p <| DevRuntimeProof_SnapshotHash := "" |>).
Definition devRuntimeResultHash (r : DevRuntimeResult) : string := Fingerprint (r <| DevRuntimeResult_Hash := "" |>).
Definition runtime_receipt (st : State) (cid : string) : option (string * string * string) :=
  (fun child => (cid, ExternalOperation_DevActivationPRHash child, ExternalOperation_DevActivationResultHash child)) <$> operationByID st cid.
Definition runtimeActivationHash (st : State) (activation : ExternalOperation) : string :=
  match mapM (runtime_receipt st) (ExternalOperation_ChildIDs activation) with
  | None => ""
  | Some children => Fingerprint (ExternalOperation_DevActivation activation, children)
  end.
Definition devRuntimeMaxBytes : Z := 256 * 1024.
Definition devRuntimeProofFits (proof : DevRuntimeProof) : bool :=
  let failure := (zero : DevRuntimeResult) <| DevRuntimeResult_ExpectedHash := DevRuntimeProof_SnapshotHash proof |>
    <| DevRuntimeResult_Outcome := "UNVERIFIED" |> <| DevRuntimeResult_Reason := str_repeat 64 "x" |>
    <| DevRuntimeResult_ObservedAt := end_of_time |> <| DevRuntimeResult_Hash := "sha256:" +:+ zeros |> in
  (encoded_size (proof, failure) <=? devRuntimeMaxBytes)%Z.
(** The components so far, their applications and the workloads they claim. *)
Definition claims : Type := list DevRuntimeComponent * list string * list string.
Definition applied_child (seen : list string) (child : ExternalOperation) : option (DeliverySnapshot * DeliveryArtifact * GitOpsResult) :=
  match ExternalOperation_Snapshot child, ExternalOperation_ExistingArtifact child, ExternalOperation_GitOpsResult child with
  | Some snap, Some artifact, Some result =>
    if (ExternalOperation_Status child == "SUCCEEDED") && (ExternalOperation_DeploymentState child == "GITOPS_APPLIED")
       && fullSHA (GitOpsResult_CommitSHA result) && fullSHA (GitOpsResult_BlobSHA result)
       && negb (contains seen (ExternalOperation_ApplicationID child))
    then Some (snap, artifact, result) else None
  | _, _, _ => None
  end.
Definition expected_child `{World} (st : State) (activation : ExternalOperation) (acc : claims) (cid : string) : res claims :=
  let '(components, seen, roles) := acc in
  match operationByID st cid with
  | None => invalid "complete immutable activated component required" []
  | Some child =>
    match applied_child seen child with
    | None => invalid "complete immutable activated component required" []
    | Some (snap, artifact, result) =>
      let app := ExternalOperation_ApplicationID child in
      scopes ← runtimeCoverage (ProductID activation) (ExternalOperation_EnvironmentID activation) app
                 (Environment_Cluster (DeliverySnapshot_Environment snap)) (Environment_Namespace (DeliverySnapshot_Environment snap));
      roles ← foldM (claim_role "runtime workload claimed by multiple components") roles scopes;
      authority ← runtimeGitOpsAuthority (DeliverySnapshot_GitOpsConnection snap);
      Ok (components ++ [mkDevRuntimeComponent authority app cid (ID artifact) (DeliveryArtifact_ImageRepository artifact)
                           (DeliveryArtifact_Digest artifact) (DeliverySnapshot_GitOpsRequest snap) (GitOpsResult_CommitSHA result)
                           (Fingerprint snap) scopes], app :: seen, roles)
    end
  end.
Definition applied_activation (activation : ExternalOperation) : bool :=
  (ExternalOperation_Kind activation == devActivationKind) && (ExternalOperation_Status activation == "SUCCEEDED")
  && (ExternalOperation_DeploymentState activation == "GITOPS_APPLIED") && is_some (ExternalOperation_DevActivation activation).
Definition runtimeExpectedProof `{World} (st : State) (activation : option ExternalOperation) (input : DevRuntimeRequest) (generation : Z)
    : res DevRuntimeProof :=
  match activation with
  | None => invalid "successful exact candidate Dev activation required" []
  | Some activation =>
    _ ← require (applied_activation activation) "successful exact candidate Dev activation required";
    _ ← devActivationAllowed st activation;
    _ ← checkSelection (environmentByID st (ExternalOperation_EnvironmentID activation)) (DevRuntimeRequest_ExpectedSelection input);
    _ ← require gitops_revision_verifier "read-only GitOps revision verifier required";
    '(components, _, roles) ← foldM (expected_child st activation) ([], [], []) (ExternalOperation_ChildIDs activation);
    _ ← reject_if (bool_decide (components = []) || (16 <? count components)%Z || (64 <? count roles)%Z)
          (invalid "runtime verification component/role bounds exceeded" []);
    let p := mkDevRuntimeProof input generation (runtimeActivationHash st activation) components "" in
    let p := p <| DevRuntimeProof_SnapshotHash := devRuntimeProofHash p |> in
    _ ← require (devRuntimeProofFits p) "runtime expected proof bound exceeded";
    Ok p
  end.

(** ** Capability *)
Definition verifies (activation : string) (v : ExternalOperation) : bool :=
  (ExternalOperation_Kind v == devRuntimeKind) && (ExternalOperation_ParentID v == activation).
Definition runtime_generation (v : ExternalOperation) : option Z := DevRuntimeProof_Generation <$> ExternalOperation_DevRuntime v.
Definition latestDevRuntime (st : State) (activation : string) : option ExternalOperation * bool :=
  latest_generation (verifies activation) runtime_generation (State_Operations st).
Definition runtime_immutable (op current : ExternalOperation) (p : DevRuntimeProof) : bool :=
  is_some (ExternalOperation_DevRuntime current) && (ExternalOperation_Kind op == devRuntimeKind)
  && negb (ExternalOperation_ReservationQuarantined op) && negb (ExternalOperation_ReservationQuarantined current)
  && (ExternalOperation_ParentID op == DevRuntimeRequest_ActivationOperationID (DevRuntimeProof_Request p)) && (ProductID op == ProductID current)
  && (ExternalOperation_Kind current == ExternalOperation_Kind op) && (ExternalOperation_ParentID current == ExternalOperation_ParentID op)
  && (ExternalOperation_EnvironmentID current == ExternalOperation_EnvironmentID op)
  && (ExternalOperation_ReservationEpoch current == ExternalOperation_ReservationEpoch op)
  && (ExternalOperation_RequestedBy op == ExternalOperation_RequestedBy current)
  && (ExternalOperation_RequestKey op == DevRuntimeRequest_RequestKey (DevRuntimeProof_Request p))
  && (ExternalOperation_RequestHash op == ExternalOperation_RequestHash current) && (ExternalOperation_DevRuntime current == Some p)
  && (DevRuntimeProof_Generation p != 0%Z) && (DevRuntimeProof_SnapshotHash p != "") && (DevRuntimeProof_SnapshotHash p == devRuntimeProofHash p)
  && bool_decide (ExternalOperation_Native op = None) && bool_decide (ExternalOperation_Snapshot op = None)
  && bool_decide (ExternalOperation_DevActivation op = None) && bool_decide (ExternalOperation_MainCandidate op = None)
  && bool_decide (ExternalOperation_ChildIDs op = []) && negb (ExternalOperation_BuildOnly op).
(** The operation another one is attached to: same owner, scope and epoch. *)
Definition same_owner (op other : ExternalOperation) : bool :=
  (ProductID other == ProductID op) && (ExternalOperation_RequestedBy other == ExternalOperation_RequestedBy op)
  && (ExternalOperation_EnvironmentID other == ExternalOperation_EnvironmentID op)
  && (ExternalOperation_ReservationEpoch other == ExternalOperation_ReservationEpoch op).
Definition is_latest (v : option ExternalOperation * bool) (op : ExternalOperation) : bool :=
  match v with (Some v, true) => ID v == ID op | _ => false end.
Definition devRuntimeAllowed `{World} (st : State) (op : ExternalOperation) (latest : bool) : res unit :=
  match ExternalOperation_DevRuntime op, operationByID st (ID op) with
  | Some p, Some current =>
    _ ← require (runtime_immutable op current p) "runtime verification immutable proof unavailable";
    _ ← require (Fingerprint ("verify_candidate_dev_runtime", ProductID op, ExternalOperation_RequestedBy op, DevRuntimeProof_Request p)
                 == ExternalOperation_RequestHash op) "runtime verification request proof changed";
    match operationByID st (DevRuntimeRequest_ActivationOperationID (DevRuntimeProof_Request p)) with
    | None => invalid "same candidate reservation owner and epoch required" []
    | Some activation =>
      _ ← require (same_owner op activation) "same candidate reservation owner and epoch required";
      expected ← runtimeExpectedProof st (Some activation) (DevRuntimeProof_Request p) (DevRuntimeProof_Generation p);
      _ ← require (expected == p) "runtime activation, config or coverage changed";
      reject_if (latest && negb (is_latest (latestDevRuntime st (ID activation)) op)) (invalid "runtime verification superseded" [])
    end
  | _, _ => invalid "runtime verification immutable proof unavailable" []
  end.

(** ** Admission *)
Definition devRuntimeInput (c : Command) : res (DevRuntimeRequest * string) :=
  _ ← require (product_scope c) "runtime verification requires attributed actor and Product scope only";
  _ ← require (forallb (fun kv => contains ["activation_operation_id"; "request_key"; "expected_selection"] kv.1) (map_range (Command_Data c)))
        "unknown runtime verification field";
  input ← decode (Command_Data c) (zero : DevRuntimeRequest);
  _ ← require ((DevRuntimeRequest_ActivationOperationID input != "") && (strlen (DevRuntimeRequest_ActivationOperationID input) <=? 128)%Z
               && opaque_key (DevRuntimeRequest_RequestKey input) && is_some (DevRuntimeRequest_ExpectedSelection input))
        "exact activation, request_key16..128 and selection required";
  _ ← require (selection_exact (Command_Data c)) "exact selection fields required";
  Ok (input, Fingerprint (Command_Action c, Command_ProductID c, Command_Actor c, input)).
(** The first operation with the key decides. *)
Definition devRuntimeReplay (st : State) (c : Command) (input : DevRuntimeRequest) (hash : string) : res (option ExternalOperation) :=
  match find_first (fun op => ExternalOperation_RequestKey op == DevRuntimeRequest_RequestKey input) (State_Operations st) with
  | None => Ok None
  | Some op =>
    _ ← reject_if (ExternalOperation_Kind op == devBaselineKind) (invalid "request_key already binds a baseline capture" []);
    _ ← require ((ExternalOperation_Kind op == devRuntimeKind) && (ProductID op == Command_ProductID c)
                 && (ExternalOperation_RequestedBy op == Command_Actor c) && (ExternalOperation_RequestHash op == hash))
          "request_key already binds another runtime scope, payload or owner";
    Ok (Some op)
  end.
Definition verification_operation (c : Command) (m : Meta) (activation : ExternalOperation) (input : DevRuntimeRequest) (hash : string)
    (proof : DevRuntimeProof) : ExternalOperation :=
  (zero : ExternalOperation) <| ExternalOperation_Meta := m |> <| ExternalOperation_Kind := devRuntimeKind |>
    <| ExternalOperation_ParentID := ID activation |> <| ExternalOperation_RequestedBy := Command_Actor c |>
    <| ExternalOperation_EnvironmentID := ExternalOperation_EnvironmentID activation |>
    <| ExternalOperation_ReservationEpoch := ExternalOperation_ReservationEpoch activation |>
    <| ExternalOperation_RequestKey := DevRuntimeRequest_RequestKey input |> <| ExternalOperation_RequestHash := hash |>
    <| ExternalOperation_DevRuntime := Some proof |> <| ExternalOperation_Status := "PENDING" |>
    <| ExternalOperation_Phase := "VERIFY_RUNTIME" |> <| ExternalOperation_CurrentStep := "VERIFY_RUNTIME" |>
    <| ExternalOperation_Detail := "Read-only candidate runtime verification pending; reservation retained" |>
    <| ExternalOperation_NextAttemptAt := Meta_CreatedAt m |>.
(** The operation and the event of an admitted command. *)
Definition admit_operation `{World} (site : string) (c : Command) (op : ExternalOperation) (st : State) : State :=
  st <| State_Operations ::= fun l => l ++ [op] |>
     <| State_Events ::= fun l => l ++ [mkEvent (fresh site 0) (Command_Action c) (Command_Actor c) (CreatedAt op) (ID op) (Command_ProductID c) "" c] |>.
Definition executeDevRuntime `{World} (c : Command) (st : State) : res (State * ExternalOperation) :=
  '(input, hash) ← devRuntimeInput c;
  old ← devRuntimeReplay st c input hash;
  match old with
  | Some old => Ok (st, old)
  | None =>
    match operationByID st (DevRuntimeRequest_ActivationOperationID input) with
    | None => invalid "same attributed candidate Dev owner required" []
    | Some activation =>
      _ ← require ((ProductID activation == Command_ProductID c) && (ExternalOperation_RequestedBy activation == Command_Actor c))
            "same attributed candidate Dev owner required";
      generation ← next_generation (verifies (ID activation)) runtime_generation "runtime generation unavailable or exhausted" (State_Operations st);
      proof ← runtimeExpectedProof st (Some activation) input generation;
      let op := verification_operation c (meta c) activation input hash proof in
      Ok (admit_operation "executeDevRuntime" c op st, op)
    end
  end.
End runtime.
