(* ===== verification/ActivationWorker.v ===== *)
(** * The worker of an activation in Dev

    dev_activation_gitops.go and the worker half of dev_activation.go: the
    leader of a group prepares one proposal that changes every member's image,
    commits its intent, proposes it once, and waits for the merge; after a
    crash or an uncertain answer the proposal is only looked up, never sent
    again.  [recheckActivationBaseline] (dev_baseline_activation.go) rereads
    the captured baseline before the first effect. *)
From S2P Require Import Prelude GoText GoJson Delivery Domain Status Planning Handlers DeviceAuth Collections ExternalSystems Reservation Composition Conflicts Scenarios Pins WorkerAuth WorkerJobs Publications Registry Restoration Checks WorkerProtocol External Candidates Activation FlowGuards Effects Saving SourceChecks.
Open Scope string_scope.
Open Scope list_scope.

Section activation.
Context `{Runtime, NetURL, Upper, MapOrder, URLs, Hashing, Encoding, RestorationEvidence, Operator, Baselines, ComposeLease, Capabilities}.

(** [validateDevActivationIO]: the lease and the whole capability, again. *)
Definition activation_lease `{World} (op : ExternalOperation) (st : State) : res unit :=
  match operationByID st (ID op) with
  | None => invalid "candidate Dev lease unavailable" []
  | Some current =>
    _ ← reject_if (terminalOperation (ExternalOperation_Status current) || (ExternalOperation_LeaseOwner current != ExternalOperation_LeaseOwner op)
                   || negb (After (ExternalOperation_LeaseUntil current) (now "activation lease" 0))) (invalid "candidate Dev lease unavailable" []);
    devActivationAllowed st op
  end.
Definition validateDevActivationIO (op : ExternalOperation) : Prog (res unit) :=
  try (effect Read) (fun st => w ← effect Fresh; check (activation_lease op st)).
Definition activationGroupState (op : ExternalOperation) : Prog (res (State * ExternalOperation * DevActivationProof * DevActivationGroup)) :=
  try (effect Read) (fun st =>
  match (parent ← devActivationParent st op; p ← ExternalOperation_DevActivation parent; Some (parent, p)) with
  | None => check (invalid "candidate Dev group unavailable" [])
  | Some (parent, p) =>
    match activationGroup p (ExternalOperation_DevActivationGroupID op) with
    | None => check (invalid "candidate Dev group missing" [])
    | Some g => check (Ok (st, parent, p, g))
    end
  end).

(** ** The baseline, reread — dev_baseline_activation.go *)
Definition activationHasBaselineEffect (st : State) (parent : ExternalOperation) : bool :=
  existsb (fun cid => match operationByID st cid with
                      | Some child => (ExternalOperation_ReservationMutationIntent child == "GITOPS") || (ExternalOperation_DevActivationIntentHash child != "")
                                      || is_some (ExternalOperation_GitOpsPR child) || is_some (ExternalOperation_GitOpsResult child)
                      | None => false
                      end) (ExternalOperation_ChildIDs parent).
Definition runtimeGitOpsGroupKey (c : Connection) (r : GitOpsRequest) : string :=
  Fingerprint (authority_of c, GitOpsRequest_Repository r, GitOpsRequest_Ref r).
Definition unchanged_baseline (c : DevBaselineComponent) (head : string) (current : GitOpsSnapshot) : bool :=
  match DevBaselineComponent_ObservedGitOps c with
  | None => false
  | Some o =>
    (GitOpsSnapshot_ImageRepository current == DevBaselineComponent_ImageRepository c) && (GitOpsSnapshot_Digest current == DevBaselineComponent_Digest c)
    && (GitOpsSnapshot_HeadSHA current == head) && (GitOpsSnapshot_BlobSHA current == DevRuntimeGitOpsObservation_BlobSHA o)
    && (Fingerprint (GitOpsSnapshot_Content current) == DevRuntimeGitOpsObservation_ContentHash o)
  end.
Definition reread_captured (op : ExternalOperation) (st : State) (heads : gmap string string) (c : DevBaselineComponent) : Prog (res (gmap string string)) :=
  try (validateDevActivationIO op) (fun _ =>
  try (check (scopedConnection st (DevBaselineComponent_ConnectionID c) (ProductID op))) (fun connection =>
  match DevBaselineComponent_ObservedGitOps c with
  | None => check (Err ErrPanic)
  | Some o =>
    let config := GitHubConnection_Config connection in
    let target := DevBaselineComponent_GitOps c in
    let key := runtimeGitOpsGroupKey config target in
    let request := mkGitOpsRevisionRequest (GitOpsRequest_Repository target) (GitOpsRequest_Ref target) (default "" (heads !! key))
                     [DevRuntimeGitOpsObservation_HeadSHA o] in
    '(revision, e) ← ask (VerifyGitOpsRevision config request);
    if is_some e || negb (validRevisionProof request revision) then check (invalid "baseline captured HEAD no longer contained" [])
    else
      let head := GitOpsRevisionProof_HeadSHA revision in
      '(current, e) ← ask (ReadGitOps config (target <| GitOpsRequest_ExpectedHeadSHA := head |>));
      if is_some e || negb (unchanged_baseline c head current) then check (invalid "original shared baseline drifted before candidate effect" [])
      else check (Ok (<[key := head]> heads))
  end)).
Definition reread_common (op : ExternalOperation) (st : State) (heads : gmap string string) (_ : unit) (c : DevBaselineComponent) : Prog (res unit) :=
  try (check (scopedConnection st (DevBaselineComponent_ConnectionID c) (ProductID op))) (fun connection =>
  let config := GitHubConnection_Config connection in
  let target := DevBaselineComponent_GitOps c in
  let head := default "" (heads !! runtimeGitOpsGroupKey config target) in
  try (validateDevActivationIO op) (fun _ =>
  '(current, e) ← ask (ReadGitOps config (target <| GitOpsRequest_ExpectedHeadSHA := head |>));
  check (reject_if (is_some e || negb (unchanged_baseline c head current)) (invalid "shared baseline changed during pre-effect read" [])))).
Definition recheckActivationBaseline (op : ExternalOperation) : Prog (res unit) :=
  try (effect Read) (fun st =>
  match devActivationParent st op with
  | None => check (invalid "candidate activation unavailable" [])
  | Some parent =>
    w ← effect Fresh;
    try (check (activationBaselineAllowed st parent)) (fun _ =>
    if activationHasBaselineEffect st parent then Ret (Ok ())
    else if negb gitops_revision_verifier then check (invalid "baseline ancestry verifier unavailable" [])
    else match (p ← ExternalOperation_DevActivation parent; capture ← operationByID st (DevActivationProof_BaselineCaptureID p);
                ExternalOperation_DevBaseline capture) with
    | None => check (Err ErrPanic)
    | Some b =>
      try (loop (reread_captured op st) ∅ (DevBaselineProof_Components b)) (fun heads =>
      loop (reread_common op st heads) tt (DevBaselineProof_Components b))
    end)
  end).

(** ** Preparing the proposal of a group *)
Definition member_ready (st : State) (id : string) : res bool :=
  match operationByID st id with
  | None => invalid "group member failed; reservation retained" []
  | Some child =>
    if stopped child then invalid "group member failed; reservation retained" []
    else Ok ((ExternalOperation_Phase child == "APPLY") && is_some (ExternalOperation_Artifact child) && is_some (ExternalOperation_GitOpsBase child))
  end.
(** In member order, the first that is stopped or not ready decides. *)
Fixpoint members_ready (st : State) (ids : list string) : res bool :=
  match ids with
  | [] => Ok true
  | id :: ids => ready ← member_ready st id; if ready : bool then members_ready st ids else Ok false
  end.
Definition selected_baseline (c : DevActivationComponent) (head : string) (base : GitOpsSnapshot) : bool :=
  let b := DevActivationComponent_Baseline c in
  (GitOpsSnapshot_HeadSHA base == head) && (GitOpsSnapshot_BlobSHA base == DevRuntimeGitOpsObservation_BlobSHA b)
  && (GitOpsSnapshot_ImageRepository base == DevRuntimeGitOpsObservation_ImageRepository b)
  && (GitOpsSnapshot_Digest base == DevRuntimeGitOpsObservation_Digest b)
  && (Fingerprint (GitOpsSnapshot_Content base) == DevRuntimeGitOpsObservation_ContentHash b).
(** A step that stopped with a saved status, or the error of the tick. *)
Inductive Halt : Type := HaltBlocked (detail : string) | HaltError (e : Error).
Definition prepare_member (op : ExternalOperation) (st : State) (p : DevActivationProof) (g : DevActivationGroup)
    (acc : Halt + string * list GitOpsImageChange) (id : string) : Prog (res (Halt + string * list GitOpsImageChange)) :=
  match acc with
  | inl _ => check (Ok acc)
  | inr (head, changes) =>
    match operationByID st id, activationComponent p id with
    | Some child, Some c =>
      source ← verifyNativeSource child;
      match source with
      | Err _ => check (Ok (inl (HaltBlocked "group native source unavailable")))
      | Ok _ =>
        io ← validateDevActivationIO op;
        match io with
        | Err e => check (Ok (inl (HaltError e)))
        | Ok _ =>
          let request := mkGitOpsRevisionRequest (DevActivationGroup_Repository g) (DevActivationGroup_Ref g) head
                           [DevRuntimeGitOpsObservation_HeadSHA (DevActivationComponent_Baseline c)] in
          '(revision, e) ← ask (VerifyGitOpsRevision (DevActivationGroup_Connection g) request);
          if is_some e || negb (validRevisionProof request revision) then check (Ok (inl (HaltBlocked "group baseline ancestry changed")))
          else
            let head := GitOpsRevisionProof_HeadSHA revision in
            '(base, e) ← ask (ReadGitOps (DevActivationGroup_Connection g)
                                ((DevActivationComponent_Selector c) <| GitOpsRequest_ExpectedHeadSHA := head |>));
            if is_some e || negb (selected_baseline c head base) then check (Ok (inl (HaltBlocked "selected group baseline changed")))
            else check (Ok (inr (head, changes ++ [mkGitOpsImageChange id (DevActivationComponent_Selector c)
                   (DevRuntimeGitOpsObservation_BlobSHA (DevActivationComponent_Baseline c))
                   (DeliveryArtifact_ImageRepository (DevActivationComponent_Artifact c)) (DeliveryArtifact_Digest (DevActivationComponent_Artifact c))])))
        end
      end
    | _, _ => check (Err ErrPanic)
    end
  end.
Definition reread_member (g : DevActivationGroup) (head : string) (same : bool) (v : GitOpsImageChange) : Prog (res bool) :=
  if negb same then check (Ok false)
  else
    '(current, e) ← ask (ReadGitOps (DevActivationGroup_Connection g) ((GitOpsImageChange_Selector v) <| GitOpsRequest_ExpectedHeadSHA := head |>));
    check (Ok (negb (is_some e) && (GitOpsSnapshot_HeadSHA current == head) && (GitOpsSnapshot_BlobSHA current == GitOpsImageChange_ExpectedBlobSHA v))).
Definition complete_proposal (pr : GitOpsPullRequest) : bool := (0 <? GitOpsPullRequest_Number pr)%Z && fullSHA (GitOpsPullRequest_HeadSHA pr).

(** ** Proposing it once *)
Definition recover_proposal (op : ExternalOperation) (g : DevActivationGroup) (token : string) : Prog (res unit) :=
  match ExternalOperation_DevActivationBatch op with
  | None => finish op token "BLOCKED" "prepared grouped intent missing" ∅
  | Some batch =>
    '(pr, e) ← ask (LookupGitOpsBatchProposal (DevActivationGroup_Connection g) batch);
    if is_some e || negb (complete_pr pr)
    then retry op token "group proposal uncertain; exact cached-token GET-only proof unavailable; no write repeated"
    else advance (op <| ExternalOperation_GitOpsPR := Some pr |>) token "WAIT_GITOPS_PR" "GITOPS_PENDING"
           "exact grouped proposal recovered; external merge required" ∅
  end.
Definition propose_group (op : ExternalOperation) (g : DevActivationGroup) (batch : GitOpsBatchApply) (token : string) : Prog (res unit) :=
  '(pr, e) ← ask (ProposeGitOpsBatch (DevActivationGroup_Connection g) batch (fun w st => activation_lease op st));
  if is_some e then retry op token "group proposal uncertain; GET-only reconciliation required"
  else
    '(proof, e) ← ask (LookupGitOpsBatchProposal (DevActivationGroup_Connection g) batch);
    if is_some e || negb (same_pr proof pr) || negb (complete_proposal pr)
    then retry op token "complete first grouped proposal proof unavailable; no write repeated"
    else advance (op <| ExternalOperation_GitOpsPR := Some proof |>) token "WAIT_GITOPS_PR" "GITOPS_PENDING"
           "group proposal awaits external review and merge" ∅.
Definition commit_group (op : ExternalOperation) (g : DevActivationGroup) (batch : GitOpsBatchApply) (token : string) : Prog (res unit) :=
  let op := op <| ExternalOperation_DevActivationBatch := Some batch |> <| ExternalOperation_DevActivationIntentHash := Fingerprint batch |> in
  try (save op token "APPLY_UNCERTAIN" "GITOPS_PENDING" "one-shot complete group proposal intent frozen" ∅ false) (fun _ =>
  let op := op <| ExternalOperation_Phase := "APPLY_UNCERTAIN" |> <| ExternalOperation_ReservationMutationIntent := "GITOPS" |> in
  try (validateDevActivationIO op) (fun _ => propose_group op g batch token)).
Definition prepare_group (op : ExternalOperation) (st : State) (p : DevActivationProof) (g : DevActivationGroup) (token : string) : Prog (res unit) :=
  baseline ← recheckActivationBaseline op;
  match baseline with
  | Err _ => finish op token "BLOCKED" "shared baseline recheck failed" ∅
  | Ok _ =>
    if negb gitops_revision_verifier then finish op token "BLOCKED" "group ancestry verifier required" ∅
    else try (loop (prepare_member op st p g) (inr ("", [])) (DevActivationGroup_MemberIDs g)) (fun prepared =>
      match prepared with
      | inl (HaltBlocked detail) => finish op token "BLOCKED" detail ∅
      | inl (HaltError e) => check (Err e)
      | inr (head, changes) =>
        try (loop (reread_member g head) true changes) (fun same =>
        if negb same then finish op token "BLOCKED" "group head changed during preparation" ∅
        else commit_group op g (mkGitOpsBatchApply (DevActivationGroup_Repository g) (DevActivationGroup_Ref g) head (ID op)
                                  ("release-control: " +:+ ID op) changes) token)
      end)
  end.
Definition applyDevActivation (op : ExternalOperation) (token : string) : Prog (res unit) :=
  try (activationGroupState op) (fun '(st, parent, p, g) =>
  try (validateDevActivationIO op) (fun _ =>
  if ID op != DevActivationGroup_LeaderID g then retry op token "waiting for group leader; no follower proposal authority"
  else if negb gitops_batch_provider then finish op token "BLOCKED" "grouped GitOps provider required" ∅
  else if ExternalOperation_Phase op == "APPLY_UNCERTAIN" then recover_proposal op g token
  else match members_ready st (DevActivationGroup_MemberIDs g) with
  | Err _ => finish op token "BLOCKED" "group member failed; reservation retained" ∅
  | Ok false => retry op token "waiting for all exact group artifacts and baseline inspections"
  | Ok true => prepare_group op st p g token
  end)).

(** ** Waiting for the merge *)
Definition merged_image (c : DevActivationComponent) (head : string) (current : GitOpsSnapshot) : bool :=
  (GitOpsSnapshot_HeadSHA current == head) && fullSHA (GitOpsSnapshot_BlobSHA current)
  && (GitOpsSnapshot_ImageRepository current == DeliveryArtifact_ImageRepository (DevActivationComponent_Artifact c))
  && (GitOpsSnapshot_Digest current == DeliveryArtifact_Digest (DevActivationComponent_Artifact c)).
Definition merged_member (p : DevActivationProof) (g : DevActivationGroup) (head url : string)
    (acc : option (gmap string GitOpsResult)) (id : string) : Prog (res (option (gmap string GitOpsResult))) :=
  match acc, activationComponent p id with
  | None, _ => check (Ok None)
  | Some _, None => check (Err ErrPanic)
  | Some results, Some c =>
    '(current, e) ← ask (ReadGitOps (DevActivationGroup_Connection g) ((DevActivationComponent_Selector c)
        <| GitOpsRequest_ImageRepository := DeliveryArtifact_ImageRepository (DevActivationComponent_Artifact c) |>
        <| GitOpsRequest_ExpectedHeadSHA := head |>));
    check (Ok (if is_some e || negb (merged_image c head current) then None
               else Some (<[id := mkGitOpsResult head (GitOpsSnapshot_BlobSHA current) url false]> results)))
  end.
Definition settled_child `{World} (pr : GitOpsPullRequest) (result : GitOpsResult) (child : ExternalOperation) : ExternalOperation :=
  let t := now "settle group" 0 in
  child <| ExternalOperation_GitOpsPR := Some pr |> <| ExternalOperation_DevActivationPRHash := activationPRHash pr |>
    <| ExternalOperation_GitOpsResult := Some result |> <| ExternalOperation_DevActivationResultHash := Fingerprint result |>
    <| ExternalOperation_Status := "SUCCEEDED" |> <| ExternalOperation_DeploymentState := "GITOPS_APPLIED" |>
    <| ExternalOperation_ReservationMutationIntent := "" |>
    <| ExternalOperation_Detail := "group desired state applied; runtime unverified; reservation retained" |>
    <| ExternalOperation_Meta ::= fun m => m <| Meta_UpdatedAt := t |> |> <| ExternalOperation_FinishedAt := Some t |>
    <| ExternalOperation_LeaseOwner := "" |> <| ExternalOperation_LeaseUntil := 0%Z |>.
Definition settle_tx `{World} (cancelled : bool) (op : ExternalOperation) (token : string) (g : DevActivationGroup) (pr : GitOpsPullRequest)
    (results : gmap string GitOpsResult) (st : State) : res State :=
  _ ← reject_if cancelled (plain "context canceled");
  match operationByID st (ID op) with
  | None => invalid "group leader lease lost" []
  | Some leader =>
    _ ← reject_if ((ExternalOperation_LeaseOwner leader != token) || negb (After (ExternalOperation_LeaseUntil leader) (now "group lease" 0)))
          (invalid "group leader lease lost" []);
    _ ← devActivationAllowed st op;
    _ ← require (ExternalOperation_DevActivationBatch leader == ExternalOperation_DevActivationBatch op) "group prepared intent changed";
    st ← foldM (fun st id => match operationByID st id with
                             | Some _ => Ok (set_operation id (settled_child pr (default zero (results !! id))) st)
                             | None => Err ErrPanic
                             end) st (DevActivationGroup_MemberIDs g);
    match devActivationParent st op with
    | Some parent => _ ← validateActivationGroups st parent; Ok st
    | None => Err ErrPanic
    end
  end.
Definition settle_group (op : ExternalOperation) (p : DevActivationProof) (g : DevActivationGroup) (pr : GitOpsPullRequest) (token : string)
    : Prog (res unit) :=
  let request := mkGitOpsRevisionRequest (DevActivationGroup_Repository g) (DevActivationGroup_Ref g) "" [GitOpsPullRequest_HeadSHA pr] in
  '(rev, e) ← ask (VerifyGitOpsRevision (DevActivationGroup_Connection g) request);
  if is_some e || negb (validRevisionProof request rev) then retry op token "merged group head ancestry unavailable"
  else
    let head := GitOpsRevisionProof_HeadSHA rev in
    try (loop (merged_member p g head (GitOpsPullRequest_URL pr)) (Some ∅) (DevActivationGroup_MemberIDs g)) (fun results =>
    match results with
    | None => retry op token "all merged group images not proven at common head"
    | Some results =>
      let pinned := mkGitOpsRevisionRequest (DevActivationGroup_Repository g) (DevActivationGroup_Ref g) head [GitOpsPullRequest_HeadSHA pr] in
      '(stable, e) ← ask (VerifyGitOpsRevision (DevActivationGroup_Connection g) pinned);
      if is_some e || negb (validRevisionProof pinned stable) || (GitOpsRevisionProof_HeadSHA stable != head)
      then retry op token "merged group target moved during observation"
      else transact (fun w cancelled st => settle_tx cancelled op token g pr results st)
    end).
Definition observe_group (op : ExternalOperation) (p : DevActivationProof) (g : DevActivationGroup) (batch : GitOpsBatchApply)
    (known : GitOpsPullRequest) (token : string) : Prog (res unit) :=
  '(pr, e) ← ask (ObserveGitOpsBatchPR (DevActivationGroup_Connection g) batch known);
  if is_some e then retry op token "exact group PR observation unavailable"
  else if negb (same_pr known pr) then finish op token "BLOCKED" "group PR identity changed" ∅
  else
    let op := op <| ExternalOperation_GitOpsPR := Some pr |> in
    if negb (GitOpsPullRequest_Merged pr) then
      if GitOpsPullRequest_State pr == "closed" then finish op token "CANCELLED" "group PR closed; full reservation retained" ∅
      else save op token "WAIT_GITOPS_PR" "GITOPS_PENDING" "awaiting external group merge" ∅ true
    else if negb gitops_revision_verifier then retry op token "merged group ancestry unavailable"
    else settle_group op p g pr token.
Definition waitDevActivationGroup (op : ExternalOperation) (token : string) : Prog (res unit) :=
  try (activationGroupState op) (fun '(st, parent, p, g) =>
  match ExternalOperation_DevActivationBatch op, ExternalOperation_GitOpsPR op with
  | Some batch, Some known =>
    if ID op != DevActivationGroup_LeaderID g then finish op token "BLOCKED" "exact grouped leader proposal required" ∅
    else try (validateDevActivationIO op) (fun _ =>
      source ← verifyNativeSource op;
      match source with
      | Err _ => finish op token "BLOCKED" "group original main source no longer eligible" ∅
      | Ok _ =>
        if negb gitops_batch_provider then retry op token "group observation unavailable"
        else observe_group op p g batch known token
      end)
  | _, _ => finish op token "BLOCKED" "exact grouped leader proposal required" ∅
  end).

(** ** The aggregate — dev_activation.go *)
Definition child_verdict (st : State) (cid : string) : option (bool * string) :=
  match operationByID st cid with
  | None => Some (true, "candidate Dev child missing")
  | Some child =>
    if stopped child then Some (true, "partial candidate Dev activation; reservation retained: " +:+ ExternalOperation_Detail child)
    else if (ExternalOperation_Status child != "SUCCEEDED") || (ExternalOperation_DeploymentState child != "GITOPS_APPLIED")
            || negb (is_some (ExternalOperation_GitOpsResult child))
    then Some (false, "waiting for exact candidate Dev GitOps results; reservation retained")
    else None
  end.
Definition aggregate_children (op : ExternalOperation) (st : State) (token : string) : Prog (res unit) :=
  match omap (child_verdict st) (ExternalOperation_ChildIDs op) with
  | (true, detail) :: _ => finish op token "BLOCKED" detail ∅
  | (false, detail) :: _ => retry op token detail
  | [] => finish op token "GITOPS_APPLIED"
            "PENDING_RECONCILIATION: candidate GitOps applied; runtime and acceptance remain unverified, reservation retained" ∅
  end.
Definition tickDevActivation (op : ExternalOperation) (token : string) : Prog (res unit) :=
  try (effect Read) (fun st =>
  w ← effect Fresh;
  match devActivationAllowed st op with
  | Err e => finish op token "BLOCKED" (error_text e) ∅
  | Ok _ =>
    if activationHasBaselineEffect st op then aggregate_children op st token
    else
      observed ← match ExternalOperation_DevActivation op with
                 | Some p => reobserve (operationByID st (DevActivationProof_CandidateOperationID p))
                 | None => check (Err ErrPanic)
                 end;
      match observed with
      | Err e => finish op token "BLOCKED" (error_text e) ∅
      | Ok _ => aggregate_children op st token
      end
  end).
End activation.
