(* ===== verification/Baseline.v ===== *)
(** * The shared baseline of a reserved environment

    dev_baseline.go, and what dev_baseline_worker.go and
    dev_baseline_activation.go decide on a state: the components a capture
    must cover, the evidence a capture rests on, its admission, and the guard
    of every activation admitted on it.  The last discharges the interface
    [Baselines] of FlowGuards.v ([captured_baselines]). *)
From S2P Require Import Prelude GoText Worklist GoJson Delivery Domain Status Planning Handlers DeviceAuth Collections ExternalSystems Reservation Composition Conflicts Scenarios Pins WorkerAuth WorkerJobs Publications Registry Restoration Checks Retention RetentionReport WorkerProtocol External Candidates Activation FlowGuards RegistryRefresh Effects SourceChecks DevRuntime ActivationWorker.
Open Scope string_scope.
Open Scope list_scope.

Definition workerAttempt (st : State) (id : string) : option WorkerAttempt := find_first (has_id id) (State_WorkerAttempts st).

(** ** Captures of a reservation *)
Definition captures (hold : string) (v : ExternalOperation) : bool :=
  (ExternalOperation_Kind v == devBaselineKind) && (ExternalOperation_ParentID v == hold).
Definition baseline_generation (v : ExternalOperation) : option Z := DevBaselineProof_Generation <$> ExternalOperation_DevBaseline v.
Definition latestBaseline (st : State) (hold : string) : option ExternalOperation * bool :=
  latest_generation (captures hold) baseline_generation (State_Operations st).
Definition activates (hold op : ExternalOperation) : bool :=
  match ExternalOperation_DevActivation op with Some p => DevActivationProof_ReservationOperationID p == ID hold | None => false end
  || (ExternalOperation_Kind op == devActivationKind) && (ExternalOperation_EnvironmentID op == ExternalOperation_EnvironmentID hold)
     && (ExternalOperation_ReservationEpoch op == ExternalOperation_ReservationEpoch hold).
Definition baselineHasActivation (st : State) (hold : ExternalOperation) : bool := existsb (activates hold) (State_Operations st).

Section baseline.
Context `{Runtime, NetURL, Upper, MapOrder, URLs, Hashing, Encoding, RestorationEvidence, Operator, Capabilities, Observers}.

Definition baselineProofHash (p : DevBaselineProof) : string := Fingerprint (p <| DevBaselineProof_SnapshotHash := "" |>).
Definition baselineResultHash (r : DevBaselineResult) : string := Fingerprint (r <| DevBaselineResult_Hash := "" |>).
Definition baselineCaptureHash (op : ExternalOperation) : string :=
  Fingerprint (ExternalOperation_DevBaseline op, ExternalOperation_DevBaselineResult op).

(** ** Requests *)
Definition baselineInput (c : Command) : res (DevBaselineRequest * string) :=
  '(request, _) ← devReservationInput (c <| Command_Action := "release_candidate_dev" |>);
  let input := mkDevBaselineRequest (DevReservationRequest_ReservationOperationID request) (DevReservationRequest_RequestKey request)
                 (DevReservationRequest_ExpectedSelection request) in
  _ ← require (DevBaselineRequest_ReservationOperationID input != "") "reservation_operation_id required";
  Ok (input, Fingerprint (Command_Action c, Command_ProductID c, Command_Actor c, input)).
Definition baselineReplay (st : State) (c : Command) (input : DevBaselineRequest) (hash : string) : res (option ExternalOperation) :=
  match find_first (fun v => ExternalOperation_RequestKey v == DevBaselineRequest_RequestKey input) (State_Operations st) with
  | None => Ok None
  | Some v =>
    _ ← require ((ExternalOperation_Kind v == devBaselineKind) && (ProductID v == Command_ProductID c)
                 && (ExternalOperation_RequestedBy v == Command_Actor c) && (ExternalOperation_RequestHash v == hash))
          "request_key already binds another baseline scope, owner or payload";
    Ok (Some v)
  end.

(** ** What a capture must cover *)
Definition unlisted_failure (p : DevBaselineProof) : DevBaselineResult :=
  (zero : DevBaselineResult) <| DevBaselineResult_ExpectedHash := DevBaselineProof_SnapshotHash p |>
    <| DevBaselineResult_Outcome := "UNVERIFIED" |> <| DevBaselineResult_Reason := str_repeat 64 "x" |>
    <| DevBaselineResult_ObservedAt := end_of_time |> <| DevBaselineResult_Hash := "sha256:" +:+ zeros |>.
Definition baselineSize (p : DevBaselineProof) (r : option DevBaselineResult) : bool :=
  (encoded_size (p, default (unlisted_failure p) r) <=? devRuntimeMaxBytes)%Z.
Definition active_hold (st : State) (hold : ExternalOperation) : option DevReservationProof :=
  match ExternalOperation_DevReservation hold with
  | Some d =>
    if (ExternalOperation_Kind hold == "DEV_RESERVATION") && (ExternalOperation_Status hold == "SUCCEEDED")
       && (ExternalOperation_Phase hold == "RESERVED") && negb (ExternalOperation_ReservationQuarantined hold)
       && negb (nativeQuarantined st (ProductID hold))
    then Some d else None
  | None => None
  end.
(** The environment, while it is reserved exactly as the reservation says. *)
Definition held_environment (st : State) (hold : ExternalOperation) (d : DevReservationProof) (input : DevBaselineRequest) : option Environment :=
  match activeDevReservation st (ExternalOperation_EnvironmentID hold), environmentByID st (ExternalOperation_EnvironmentID hold) with
  | Some active, Some e =>
    if (ID active == ID hold) && (ProductID e == ProductID hold) && (Environment_ReservationEpoch e == ExternalOperation_ReservationEpoch hold)
       && (DevReservationProof_Epoch d == ExternalOperation_ReservationEpoch hold)
       && (selectionToken e == DevReservationProof_ReservedSelection d)
       && (Environment_Cluster e == Environment_Cluster (DevReservationProof_Environment d))
       && (Environment_Namespace e == Environment_Namespace (DevReservationProof_Environment d))
       && (DevBaselineRequest_ExpectedSelection input == Some (selectionToken e))
    then Some e else None
  | _, _ => None
  end.
Definition shared_baseline (st : State) (hold : ExternalOperation) (d : DevReservationProof) (e : Environment) : option Composition :=
  match compositionByID st (EnvironmentSelection_CompositionID (DevReservationProof_BaselineSelection d)) with
  | Some comp =>
    if (ID comp == Environment_DesiredCompositionID e) && (ProductID comp == ProductID hold) && (Composition_EnvironmentID comp == ID e)
       && (Environment_Cluster (Composition_EnvironmentSnapshot comp) == Environment_Cluster e)
       && (Environment_Namespace (Composition_EnvironmentSnapshot comp) == Environment_Namespace e)
    then Some comp else None
  | None => None
  end.
Definition dev_target (hold : ExternalOperation) (target : EnvironmentBinding) : bool :=
  (ProductID target == ProductID hold) && (EnvironmentBinding_GitOpsMode target == "PR") && EnvironmentBinding_AllowDeploy target
  && contains ["DEV"; "TEST"] (EnvironmentBinding_Purpose target).
Definition baseline_profile (st : State) (hold : ExternalOperation) (e : Environment) (app : string)
    : option (Application * ComponentBuild * EnvironmentBinding) :=
  match applicationByID st app, componentBuild st app, environmentBinding st (ID e) app with
  | Some a, Some build, Some target =>
    if (ProductID a == ProductID hold) && (ComponentKind a == "APPLICATION") && dev_target hold target then Some (a, build, target) else None
  | _, _, _ => None
  end.
(** The components, the applications, the manifests and the workloads so far. *)
Definition coverage : Type := list DevBaselineComponent * list string * list string * list string.
Definition target_key (authority repository : string) (target : EnvironmentBinding) (image : string) : string :=
  authority +:+ nul +:+ repository +:+ nul +:+ EnvironmentBinding_Ref target +:+ nul +:+ EnvironmentBinding_Path target +:+ nul
  +:+ EnvironmentBinding_ImageField target +:+ nul +:+ EnvironmentBinding_DigestField target +:+ nul +:+ image.
Definition baseline_component `{World} (st : State) (hold : ExternalOperation) (e : Environment) (acc : coverage) (part : CompositionComponent)
    : res coverage :=
  let '(components, apps, targets, workloads) := acc in
  let app := CompositionComponent_ApplicationID part in
  _ ← reject_if (contains apps app) (invalid "duplicate baseline component" []);
  match baseline_profile st hold e app with
  | None => invalid "complete current baseline component profile and PR-only Dev target required" []
  | Some (a, build, target) =>
    _ ← match CanonicalImageRepository (ComponentBuild_ImageRepository build) with
        | Ok image => require (image == ComponentBuild_ImageRepository build) "exact baseline Dev image selector required"
        | Err _ => invalid "exact baseline Dev image selector required" []
        end;
    let image := ComponentBuild_ImageRepository build in
    match repositoryBinding st (EnvironmentBinding_RepositoryID target) with
    | None => invalid "baseline GitOps authority unavailable" []
    | Some gitops =>
      _ ← require ((ProductID gitops == ProductID hold) && (RepositoryBinding_Role gitops == "GITOPS")
                   && (RepositoryBinding_ConnectionID gitops == EnvironmentBinding_ConnectionID target)) "baseline GitOps authority unavailable";
      connection ← scopedConnection st (EnvironmentBinding_ConnectionID target) (ProductID hold);
      let config := GitHubConnection_Config connection in
      let repository := repositoryLocator st gitops in
      _ ← require (positive_number repository) "numeric baseline GitOps repository required";
      authority ← runtimeGitOpsAuthority config;
      let request := mkGitOpsRequest repository (EnvironmentBinding_Ref target) (EnvironmentBinding_Path target) image
                       (EnvironmentBinding_ImageField target) (EnvironmentBinding_DigestField target) "" in
      let key := target_key authority repository target image in
      _ ← reject_if (contains targets key) (invalid "overlapping baseline target selector" []);
      scopes ← runtimeCoverage (ProductID hold) (ID e) (ID a) (Environment_Cluster e) (Environment_Namespace e);
      workloads ← foldM (claim_role "overlapping baseline runtime roles") workloads scopes;
      let hash := Fingerprint (a, build, target, gitops, config, Environment_Cluster e, Environment_Namespace e) in
      let c := (zero : DevBaselineComponent) <| DevBaselineComponent_ApplicationID := ID a |>
        <| DevBaselineComponent_RepositoryID := Application_RepositoryID a |> <| DevBaselineComponent_ConnectionID := ID connection |>
        <| DevBaselineComponent_ConfigHash := hash |> <| DevBaselineComponent_AuthorityHash := authority |>
        <| DevBaselineComponent_ImageRepository := image |> <| DevBaselineComponent_GitOps := request |>
        <| DevBaselineComponent_Scopes := scopes |> in
      Ok (components ++ [c], app :: apps, key :: targets, workloads)
    end
  end.
Definition reserved_component (st : State) (e : Environment) (apps : list string) (target : EnvironmentBinding) : res unit :=
  _ ← require (contains apps (EnvironmentBinding_ApplicationID target)) "candidate component missing from full baseline";
  require (still (environmentBinding st (ID e) (EnvironmentBinding_ApplicationID target)) target) "reserved candidate target changed".
Definition baselineExpected `{World} (st : State) (hold : ExternalOperation) (input : DevBaselineRequest) (generation : Z) : res DevBaselineProof :=
  match active_hold st hold with
  | None => invalid "active nonquarantined reservation required" []
  | Some d =>
    match held_environment st hold d input with
    | None => invalid "baseline hold, epoch or exact selection changed" []
    | Some e =>
      match shared_baseline st hold d e with
      | None => invalid "reserved full shared baseline unavailable" []
      | Some comp =>
        _ ← require gitops_revision_verifier "read-only GitOps revision verifier required";
        '(components, apps, _, workloads) ← foldM (baseline_component st hold e) ([], [], [], []) (Composition_Components comp);
        _ ← reject_if (bool_decide (components = []) || (16 <? count components)%Z || (64 <? count workloads)%Z)
              (invalid "complete baseline coverage exceeds component/role bounds" []);
        _ ← each (reserved_component st e apps) (DevReservationProof_Targets d);
        let p := mkDevBaselineProof input (ID hold) (Fingerprint (Some d)) (ID comp) (Fingerprint (Some comp)) generation components "" in
        let p := p <| DevBaselineProof_SnapshotHash := baselineProofHash p |> in
        _ ← require (baselineSize p None) "baseline proof bound exceeded";
        Ok p
      end
    end
  end.

(** ** The availability of the original images — dev_baseline_worker.go *)
Definition recorded_artifact (c : DevBaselineComponent) (a : DeliveryArtifact) : bool :=
  (Fingerprint a == DevBaselineComponent_ArtifactHash c) && (DeliveryArtifact_ApplicationID a == DevBaselineComponent_ApplicationID c)
  && (DeliveryArtifact_Digest a == DevBaselineComponent_Digest c)
  && (DeliveryArtifact_ImageRepository a == DevBaselineComponent_ImageRepository c).
Definition baselineArtifact (st : State) (product : string) (c : DevBaselineComponent) : res DeliveryArtifact :=
  match find_first (has_id (DevBaselineComponent_ArtifactID c)) (State_DeliveryArtifacts st) with
  | None => invalid "original baseline artifact missing" []
  | Some a =>
    _ ← require (recorded_artifact c a) "original baseline artifact changed";
    known ← validatedExistingArtifact st (ID a) product (DevBaselineComponent_ApplicationID c) (DevBaselineComponent_RepositoryID c)
              (DeliveryArtifact_SourceCommit a) (DevBaselineComponent_ImageRepository c);
    _ ← match DeliveryArtifact_Native known with
        | Some n => historicalPublicationEligible st (workerJob st (NativeArtifact_PublicationJobID n))
        | None => Ok ()
        end;
    Ok known
  end.
Definition known_image (product : string) (c : DevBaselineComponent) (a : DeliveryArtifact) : bool :=
  (ProductID a == product) && (DeliveryArtifact_ApplicationID a == DevBaselineComponent_ApplicationID c)
  && (DeliveryArtifact_ImageRepository a == DevBaselineComponent_ImageRepository c)
  && (DeliveryArtifact_Digest a == DevBaselineComponent_Digest c)
  && (is_some (DeliveryArtifact_Native a) || (0 <? DeliveryArtifact_BuildRunID a)%Z).
(** The first artifact of the image decides. *)
Definition findBaselineArtifact (st : State) (product : string) (c : DevBaselineComponent) : res (option DeliveryArtifact) :=
  match find_first (known_image product c) (State_DeliveryArtifacts st) with
  | None => Ok None
  | Some a =>
    known ← baselineArtifact st product (c <| DevBaselineComponent_ArtifactID := ID a |> <| DevBaselineComponent_ArtifactHash := Fingerprint a |>);
    Ok (Some known)
  end.
Definition observing_baseline (op : ExternalOperation) (c : DevBaselineComponent) (j : WorkerJob) : bool :=
  match WorkerInputs_Registry (WorkerJob_Inputs j) with
  | None => false
  | Some p =>
    let scope := WorkerRegistryInputs_Scope p in
    (ProductID j == ProductID op) && (WorkerJob_Capability j == "registry_observe")
    && (WorkerJob_InputHash j == DevBaselineComponent_RegistryInputHash c)
    && (WorkerRegistryInputs_RootSetHash p == DevBaselineComponent_RegistryRootSetHash c)
    && contains (WorkerRegistryInputs_Roots p) (DevBaselineComponent_Digest c)
    && (RegistryScope_ComponentID scope == DevBaselineComponent_ApplicationID c)
    && (RegistryScope_ImageRepository scope == DevBaselineComponent_ImageRepository c)
    && (RegistryScope_RepositoryID scope == DevBaselineComponent_RepositoryID c)
    && negb (Before (CreatedAt j) (CreatedAt op)) && negb (WorkerJob_CancellationRequested j)
  end.
Definition causal_child (op : ExternalOperation) (c : DevBaselineComponent) (j : WorkerJob) (child : ExternalOperation) : bool :=
  (ExternalOperation_Kind child == RegistryObserveOperationKind) && (ProductID child == ProductID op)
  && (ExternalOperation_ApplicationID child == DevBaselineComponent_ApplicationID c)
  && (ExternalOperation_RepositoryID child == DevBaselineComponent_RepositoryID c) && negb (stopped child)
  && (ExternalOperation_ParentID child == ID op) && contains (ExternalOperation_ChildIDs op) (ID child)
  && (ExternalOperation_RegistryObservation child == Some (WorkerJob_Inputs j)).
Definition baselineRegistryJob (st : State) (op : ExternalOperation) (c : DevBaselineComponent) : res WorkerJob :=
  match workerJob st (DevBaselineComponent_RegistryJobID c) with
  | None => invalid "baseline causal registry job changed" []
  | Some j =>
    _ ← require (observing_baseline op c j) "baseline causal registry job changed";
    match operationByID st (WorkerJob_OperationID j) with
    | None => invalid "baseline registry operation link changed" []
    | Some child =>
      _ ← require (causal_child op c j child) "baseline registry operation link changed";
      _ ← match externalWorkers with
          | Some w => registryWorkerAllowed w st j
          | None => invalid "registry observation authority changed or quarantined" []
          end;
      Ok j
    end
  end.
Definition baselineRegistryContentHash (v : RegistryInventory) (digest : string) (t : Time) : res string :=
  match WorkerInputs_Registry (RegistryInventory_Inputs v) with
  | Some p =>
    _ ← require (RegistryInventoryFreshness v t == "FRESH") "baseline fresh image content unavailable";
    RegistryImageContentProofHash (WorkerRegistryReport_Graph (RegistryInventory_Report v)) (WorkerRegistryInputs_Limits p)
      (WorkerRegistryInputs_Roots p) digest
  | None => invalid "baseline fresh image content unavailable" []
  end.
Definition causal_inventory (j : WorkerJob) (child : ExternalOperation) (v : RegistryInventory) (a : WorkerAttempt) : bool :=
  match WorkerAttempt_Report a with
  | None => false
  | Some report =>
    (WorkerReport_Registry report == Some (RegistryInventory_Report v)) && (UpdatedAt child == RegistryInventory_ReceivedAt v)
    && (ExternalOperation_FinishedAt child == Some (RegistryInventory_ReceivedAt v)) && (WorkerAttempt_Status a == "SUCCEEDED")
    && (RegistryInventory_Fence v == WorkerJob_Fence j) && (RegistryInventory_Fence v == WorkerAttempt_Fence a)
    && (RegistryInventory_InputHash v == WorkerJob_InputHash j) && (RegistryInventory_Inputs v == WorkerJob_Inputs j)
    && ValidateRegistryWorkerReport j a report (RegistryInventory_ReceivedAt v)
  end.
Definition registry_receipt (c : DevBaselineComponent) (j : WorkerJob) (a : WorkerAttempt) (v : RegistryInventory) (content : string)
    : DevBaselineRegistryReceipt :=
  let report := RegistryInventory_Report v in
  let g := WorkerRegistryReport_Graph report in
  let '(closure, blockers) := metadata_of g (DevBaselineComponent_Digest c) in
  mkDevBaselineRegistryReceipt "IMAGE_CONTENT" content closure (RegistryGraph_Discovery g) (sortedUnique blockers)
    (RegistryGraph_GlobalInventoryComplete g) (ID j) (WorkerJob_OperationID j) (ID a) (RegistryInventory_Fence v) (WorkerJob_InputHash j)
    (DevBaselineComponent_RegistryRootSetHash c) (ID v) (RegistryGraph_GraphHash g) (WorkerRegistryReport_FinishedAt report).
Definition baselineRegistryReceipt (st : State) (op : ExternalOperation) (c : DevBaselineComponent) (t : Time) : res DevBaselineRegistryReceipt :=
  j ← baselineRegistryJob st op c;
  _ ← require (WorkerJob_Status j == "SUCCEEDED") "baseline registry observation incomplete";
  match operationByID st (WorkerJob_OperationID j) with
  | None => invalid "baseline registry operation completion unavailable" []
  | Some child =>
    _ ← require ((ExternalOperation_Status child == "SUCCEEDED") && (ExternalOperation_Phase child == "EXTERNAL_SUCCEEDED")
                 && is_some (ExternalOperation_FinishedAt child)) "baseline registry operation completion unavailable";
    match find_first (fun v => RegistryInventory_JobID v == ID j) (State_RegistryInventories st) with
    | None => invalid "baseline causal inventory absent" []
    | Some v =>
      match workerAttempt st (RegistryInventory_AttemptID v) with
      | None => invalid "baseline complete fresh causal registry closure unavailable" []
      | Some a =>
        _ ← require (causal_inventory j child v a) "baseline complete fresh causal registry closure unavailable";
        match baselineRegistryContentHash v (DevBaselineComponent_Digest c) t with
        | Err _ => invalid "baseline complete image content unavailable" []
        | Ok content => Ok (registry_receipt c j a v content)
        end
      end
    end
  end.

(** ** The capability of a capture *)
Definition clearBaselinePhysical (c : DevBaselineComponent) : DevBaselineComponent :=
  c <| DevBaselineComponent_Digest := "" |> <| DevBaselineComponent_ObservedGitOps := None |> <| DevBaselineComponent_Revision := None |>
    <| DevBaselineComponent_ArtifactID := "" |> <| DevBaselineComponent_ArtifactHash := "" |>
    <| DevBaselineComponent_RegistryJobID := "" |> <| DevBaselineComponent_RegistryInputHash := "" |>
    <| DevBaselineComponent_RegistryRootSetHash := "" |>.
Definition unstaged (p : DevBaselineProof) : DevBaselineProof :=
  let p := p <| DevBaselineProof_Components ::= map clearBaselinePhysical |> in
  p <| DevBaselineProof_SnapshotHash := baselineProofHash p |>.
Definition capture_immutable (op current : ExternalOperation) (p : DevBaselineProof) : bool :=
  let request := DevBaselineProof_Request p in
  (ExternalOperation_Kind op == devBaselineKind) && (ExternalOperation_Kind current == ExternalOperation_Kind op)
  && (ExternalOperation_ParentID current == ExternalOperation_ParentID op) && (ProductID current == ProductID op)
  && (ExternalOperation_RequestedBy current == ExternalOperation_RequestedBy op)
  && (ExternalOperation_EnvironmentID current == ExternalOperation_EnvironmentID op)
  && (ExternalOperation_ReservationEpoch current == ExternalOperation_ReservationEpoch op)
  && (ExternalOperation_ChildIDs current == ExternalOperation_ChildIDs op) && negb (ExternalOperation_ReservationQuarantined op)
  && negb (ExternalOperation_ReservationQuarantined current) && (ExternalOperation_ParentID op == DevBaselineProof_ReservationOperationID p)
  && (DevBaselineRequest_ReservationOperationID request == DevBaselineProof_ReservationOperationID p)
  && (ExternalOperation_RequestKey op == DevBaselineRequest_RequestKey request)
  && (ExternalOperation_RequestHash op == ExternalOperation_RequestHash current) && (ExternalOperation_DevBaseline current == Some p)
  && (DevBaselineProof_Generation p != 0%Z) && (DevBaselineProof_SnapshotHash p != "") && (DevBaselineProof_SnapshotHash p == baselineProofHash p)
  && bool_decide (ExternalOperation_Native op = None) && bool_decide (ExternalOperation_DevActivation op = None)
  && bool_decide (ExternalOperation_MainCandidate op = None) && bool_decide (ExternalOperation_DevRuntime op = None)
  && bool_decide (ExternalOperation_Snapshot op = None) && negb (ExternalOperation_BuildOnly op) && bool_decide (ExternalOperation_Sources op = []).
Definition physical_evidence (c : DevBaselineComponent) : bool :=
  match DevBaselineComponent_ObservedGitOps c, DevBaselineComponent_Revision c with
  | Some o, Some revision =>
    let head := DevRuntimeGitOpsObservation_HeadSHA o in
    validArtifactDigest (DevBaselineComponent_Digest c) && (DevRuntimeGitOpsObservation_ImageRepository o == DevBaselineComponent_ImageRepository c)
    && (DevRuntimeGitOpsObservation_Digest o == DevBaselineComponent_Digest c) && fullSHA head
    && fullSHA (DevRuntimeGitOpsObservation_BlobSHA o) && is_digest (DevRuntimeGitOpsObservation_ContentHash o)
    && validRevisionProof (mkGitOpsRevisionRequest (GitOpsRequest_Repository (DevBaselineComponent_GitOps c))
                             (GitOpsRequest_Ref (DevBaselineComponent_GitOps c)) head [head]) revision
  | _, _ => false
  end.
(** One component; the children are those of the observations so far. *)
Definition staged_component (st : State) (op : ExternalOperation) (children : list string) (c : DevBaselineComponent) : res (list string) :=
  if DevBaselineComponent_Digest c == "" then
    _ ← reject_if (is_some (DevBaselineComponent_ObservedGitOps c) || is_some (DevBaselineComponent_Revision c)
                   || (DevBaselineComponent_ArtifactID c != "") || (DevBaselineComponent_RegistryJobID c != ""))
          (invalid "partial staged baseline proof" []);
    Ok children
  else
    _ ← require (physical_evidence c) "baseline physical evidence changed";
    if DevBaselineComponent_ArtifactID c != "" then
      _ ← baselineArtifact st (ProductID op) c;
      _ ← reject_if ((DevBaselineComponent_RegistryJobID c != "") || (DevBaselineComponent_RegistryInputHash c != "")
                     || (DevBaselineComponent_RegistryRootSetHash c != "")) (invalid "mixed baseline availability authority" []);
      Ok children
    else if DevBaselineComponent_RegistryJobID c != "" then
      job ← baselineRegistryJob st op c;
      Ok (children ++ [WorkerJob_OperationID job])
    else Ok children.
Definition before_activation (st : State) (op hold : ExternalOperation) : res unit :=
  _ ← reject_if (baselineHasActivation st hold) (invalid "baseline capture forbidden after activation admission" []);
  unresolvedReservationEffects st (ExternalOperation_EnvironmentID op).
Definition baselineAllowed `{World} (st : State) (op : ExternalOperation) (latest beforeActivation : bool) : res unit :=
  match operationByID st (ID op), ExternalOperation_DevBaseline op with
  | Some current, Some p =>
    _ ← require (capture_immutable op current p) "immutable baseline capture proof unavailable";
    _ ← require (Fingerprint ("capture_candidate_dev_baseline", ProductID op, ExternalOperation_RequestedBy op, DevBaselineProof_Request p)
                 == ExternalOperation_RequestHash op) "baseline request proof changed";
    match operationByID st (DevBaselineProof_ReservationOperationID p) with
    | None => invalid "baseline owner or reservation changed" []
    | Some hold =>
      _ ← require (same_owner op hold) "baseline owner or reservation changed";
      _ ← (if beforeActivation then before_activation st op hold else Ok ());
      expected ← baselineExpected st hold (DevBaselineProof_Request p) (DevBaselineProof_Generation p);
      _ ← require (unstaged p == expected) "baseline configuration or coverage changed";
      children ← foldM (staged_component st op) [] (DevBaselineProof_Components p);
      _ ← require (length (ExternalOperation_ChildIDs op) =? length children)%nat "baseline causal registry child set changed";
      _ ← require (ExternalOperation_ChildIDs op == children) "baseline causal registry child order changed";
      reject_if (latest && negb (is_latest (latestBaseline st (ID hold)) op)) (invalid "baseline capture superseded or damaged" [])
    end
  | _, _ => invalid "immutable baseline capture proof unavailable" []
  end.

(** ** The result of a capture *)
(** What the captured components are expected to run; [None] dereferences a
    component without an observation. *)
Definition captured_component (c : DevBaselineComponent) : option DevRuntimeComponent :=
  (fun o => mkDevRuntimeComponent (DevBaselineComponent_AuthorityHash c) (DevBaselineComponent_ApplicationID c) ""
              (DevBaselineComponent_ArtifactID c) (DevBaselineComponent_ImageRepository c) (DevBaselineComponent_Digest c)
              (DevBaselineComponent_GitOps c) (DevRuntimeGitOpsObservation_HeadSHA o) (DevBaselineComponent_ConfigHash c)
              (DevBaselineComponent_Scopes c)) <$> DevBaselineComponent_ObservedGitOps c.
Definition baselineRuntimeProof (op : ExternalOperation) (p : DevBaselineProof) : option DevRuntimeProof :=
  components ← mapM captured_component (DevBaselineProof_Components p);
  let r := mkDevRuntimeProof (mkDevRuntimeRequest (ID op) (ExternalOperation_RequestKey op) (DevBaselineRequest_ExpectedSelection (DevBaselineProof_Request p)))
             (DevBaselineProof_Generation p) (DevBaselineProof_SnapshotHash p) components "" in
  Some (r <| DevRuntimeProof_SnapshotHash := devRuntimeProofHash r |>).
(** [validateDevRuntimeResultAt] *)
Definition validateDevRuntimeResultAt (p : DevRuntimeProof) (r : DevRuntimeResult) (t : Time) : res unit :=
  match ValidateDevRuntimeResultAt p r t with Ok _ => Ok () | Err e => invalid "%v" [Saving.error_text e] end.
Definition result_matches (p : DevBaselineProof) (r : DevBaselineResult) : bool :=
  (DevBaselineResult_Outcome r == "CAPTURED") && (DevBaselineResult_Reason r == "EXACT_SHARED_BASELINE_MATCH")
  && (DevBaselineResult_ExpectedHash r == DevBaselineProof_SnapshotHash p) && (DevBaselineResult_Hash r == baselineResultHash r)
  && is_some (DevBaselineResult_Runtime r) && negb (IsZero (DevBaselineResult_ObservedAt r))
  && (length (DevBaselineResult_Components r) =? length (DevBaselineProof_Components p))%nat && baselineSize p (Some r).
Definition complete_component (c : DevBaselineComponent) : bool :=
  validArtifactDigest (DevBaselineComponent_Digest c) && is_some (DevBaselineComponent_ObservedGitOps c) && is_some (DevBaselineComponent_Revision c).
Definition recent (at_ t : Time) : bool := negb (After at_ t) && (t - at_ <=? 5 * minute)%Z.
Definition available_until (op : ExternalOperation) (c : DevBaselineComponent) (t : Time) (a : ArtifactResult) : bool :=
  ArtifactResult_Available a && (ArtifactResult_Digest a == DevBaselineComponent_Digest c) && negb (IsZero (ArtifactResult_ObservedAt a))
  && negb (Before (ArtifactResult_ObservedAt a) (CreatedAt op)) && recent (ArtifactResult_ObservedAt a) t.
Definition component_result (st : State) (op : ExternalOperation) (t : Time)
    (x : (DevBaselineComponent * DevBaselineComponentResult) * DevRuntimeComponentResult) : res unit :=
  let '((c, cr), actual) := x in
  _ ← require (matching_result c cr) "baseline component result changed";
  _ ← require (DevBaselineComponent_ObservedGitOps c == Some (DevRuntimeComponentResult_GitOps actual)) "baseline initial/final GitOps drift";
  if DevBaselineComponent_ArtifactID c != "" then
    _ ← require (negb (is_some (DevBaselineComponentResult_Registry cr))
                 && match DevBaselineComponentResult_Availability cr with Some a => available_until op c t a | None => false end)
          "baseline artifact availability changed";
    _ ← baselineArtifact st (ProductID op) c;
    Ok ()
  else
    match baselineRegistryReceipt st op c t with
    | Ok receipt =>
      require (negb (is_some (DevBaselineComponentResult_Availability cr)) && (DevBaselineComponentResult_Registry cr == Some receipt))
        "baseline causal availability receipt changed"
    | Err _ => invalid "baseline causal availability receipt changed" []
    end.
Definition validateBaselineResult (st : State) (op : ExternalOperation) (r : DevBaselineResult) : res unit :=
  match ExternalOperation_DevBaseline op, DevBaselineResult_Runtime r with
  | Some p, Some runtime =>
    let t := DevBaselineResult_ObservedAt r in
    _ ← require (result_matches p r) "baseline result proof mismatch";
    _ ← require (forallb complete_component (DevBaselineProof_Components p)) "baseline complete physical proof unavailable";
    _ ← reject_if (Before t (CreatedAt op) || Before (DevRuntimeResult_ObservedAt runtime) (CreatedAt op))
          (invalid "baseline observation predates admission" []);
    _ ← reject_if (existsb (fun component => existsb (fun role => Before (DeliveryRuntimeSnapshot_ObservedAt role) (CreatedAt op))
                              (DevRuntimeComponentResult_Roles component)) (DevRuntimeResult_Components runtime))
          (invalid "baseline role observation predates admission" []);
    _ ← require (negb (IsZero (DevRuntimeResult_ObservedAt runtime)) && recent (DevRuntimeResult_ObservedAt runtime) t)
          "nested baseline runtime observation time invalid";
    match baselineRuntimeProof op p with
    | None => Err ErrPanic
    | Some proof =>
      _ ← validateDevRuntimeResultAt proof runtime t;
      each (component_result st op t)
        (zip (zip (DevBaselineProof_Components p) (DevBaselineResult_Components r)) (DevRuntimeResult_Components runtime))
    end
  | _, _ => invalid "baseline result proof mismatch" []
  end.
Definition captured_operation (op : ExternalOperation) : option (DevBaselineProof * DevBaselineResult) :=
  match ExternalOperation_DevBaseline op, ExternalOperation_DevBaselineResult op with
  | Some p, Some r =>
    if (ExternalOperation_Status op == "SUCCEEDED") && (ExternalOperation_Phase op == "BASELINE_CAPTURED")
       && (ExternalOperation_DeploymentState op == "BASELINE_CAPTURED") && (DevBaselineResult_Outcome r == "CAPTURED")
       && (DevBaselineResult_ExpectedHash r == DevBaselineProof_SnapshotHash p) && (DevBaselineResult_Hash r == baselineResultHash r)
       && negb (IsZero (DevBaselineResult_ObservedAt r))
    then Some (p, r) else None
  | _, _ => None
  end.
(** [at.After(time.Now())] and [time.Since(at) > 5*time.Minute] read the clock twice. *)
Definition fresh_at `{World} (site : string) (at_ : Time) : bool :=
  negb (After at_ (now site 0)) && (now site 1 - at_ <=? 5 * minute)%Z.
Definition baselineCurrent `{World} (st : State) (op : ExternalOperation) (beforeActivation : bool) : res unit :=
  match captured_operation op with
  | None => invalid "latest successful fresh baseline capture required" []
  | Some (p, r) =>
    _ ← require (fresh_at "baselineCurrent" (DevBaselineResult_ObservedAt r)) "latest successful fresh baseline capture required";
    _ ← baselineAllowed st op true beforeActivation;
    validateBaselineResult st op r
  end.

(** ** The baseline of an activation — dev_baseline_activation.go *)
Definition admitted_capture (p : DevActivationProof) (parent capture : ExternalOperation) (r : DevBaselineResult) : bool :=
  is_some (ExternalOperation_DevBaseline capture) && (ProductID capture == ProductID parent)
  && (ExternalOperation_EnvironmentID capture == ExternalOperation_EnvironmentID parent)
  && (ExternalOperation_RequestedBy capture == ExternalOperation_RequestedBy parent)
  && (ExternalOperation_ReservationEpoch capture == ExternalOperation_ReservationEpoch parent)
  && (ExternalOperation_ParentID capture == DevActivationProof_ReservationOperationID p)
  && (baselineCaptureHash capture == DevActivationProof_BaselineCaptureHash p)
  && (Fingerprint (DevBaselineResult_Components r) == DevActivationProof_OriginalBaselineHash p)
  && (ExternalOperation_Status capture == "SUCCEEDED") && (ExternalOperation_Phase capture == "BASELINE_CAPTURED")
  && negb (ExternalOperation_ReservationQuarantined capture).
Definition baseline_of_activation `{World} (st : State) (parent : ExternalOperation) : res unit :=
  match ExternalOperation_DevActivation parent with
  | None => invalid "physical preactivation baseline required; historical activation grants no new rights" []
  | Some p =>
    _ ← require (DevActivationProof_BaselineCaptureID p != "") "physical preactivation baseline required; historical activation grants no new rights";
    match (capture ← operationByID st (DevActivationProof_BaselineCaptureID p); r ← ExternalOperation_DevBaselineResult capture; Some (capture, r)) with
    | None => invalid "exact original baseline capture relation changed" []
    | Some (capture, r) =>
      _ ← require (admitted_capture p parent capture r) "exact original baseline capture relation changed";
      _ ← baselineAllowed st capture true false;
      _ ← validateBaselineResult st capture r;
      if activationHasBaselineEffect st parent then Ok ()
      else require (negb (IsZero (DevBaselineResult_ObservedAt r)) && fresh_at "activationBaselineAllowed" (DevBaselineResult_ObservedAt r))
             "fresh baseline required before first activation effect"
    end
  end.
Definition captured_baselines : Baselines := {| activationBaselineAllowed := fun _ => baseline_of_activation |}.
Definition currentBaselineForHold `{World} (st : State) (hold : ExternalOperation) : res ExternalOperation :=
  match latestBaseline st (ID hold) with
  | (Some capture, true) =>
    _ ← require ((ProductID capture == ProductID hold) && (ExternalOperation_RequestedBy capture == ExternalOperation_RequestedBy hold))
          "latest successful complete baseline capture required";
    _ ← baselineCurrent st capture true;
    Ok capture
  | _ => invalid "latest successful complete baseline capture required" []
  end.

(** ** Admission *)
Definition capture_operation (c : Command) (m : Meta) (hold : ExternalOperation) (input : DevBaselineRequest) (hash : string)
    (p : DevBaselineProof) : ExternalOperation :=
  (zero : ExternalOperation) <| ExternalOperation_Meta := m |> <| ExternalOperation_Kind := devBaselineKind |>
    <| ExternalOperation_ParentID := ID hold |> <| ExternalOperation_EnvironmentID := ExternalOperation_EnvironmentID hold |>
    <| ExternalOperation_ReservationEpoch := ExternalOperation_ReservationEpoch hold |>
    <| ExternalOperation_RequestedBy := Command_Actor c |> <| ExternalOperation_RequestKey := DevBaselineRequest_RequestKey input |>
    <| ExternalOperation_RequestHash := hash |> <| ExternalOperation_DevBaseline := Some p |> <| ExternalOperation_Status := "PENDING" |>
    <| ExternalOperation_Phase := "CAPTURE_GITOPS" |> <| ExternalOperation_CurrentStep := "CAPTURE_GITOPS" |>
    <| ExternalOperation_NextAttemptAt := Meta_CreatedAt m |>
    <| ExternalOperation_Detail := "Read-only full shared baseline capture pending; no candidate effects permitted" |>.
Definition executeDevBaseline `{World} (c : Command) (st : State) : res (State * ExternalOperation) :=
  '(input, hash) ← baselineInput c;
  old ← baselineReplay st c input hash;
  match old with
  | Some old => Ok (st, old)
  | None =>
    match operationByID st (DevBaselineRequest_ReservationOperationID input) with
    | None => invalid "same active preactivation reservation owner required" []
    | Some hold =>
      _ ← require ((ProductID hold == Command_ProductID c) && (ExternalOperation_RequestedBy hold == Command_Actor c)
                   && negb (baselineHasActivation st hold)) "same active preactivation reservation owner required";
      generation ← next_generation (captures (ID hold)) baseline_generation "baseline generation unavailable or exhausted" (State_Operations st);
      _ ← unresolvedReservationEffects st (ExternalOperation_EnvironmentID hold);
      p ← baselineExpected st hold input generation;
      let op := capture_operation c (meta c) hold input hash p in
      Ok (admit_operation "executeDevBaseline" c op st, op)
    end
  end.
End baseline.
