(* ===== verification/RuntimeWorker.v ===== *)
(** * The worker that verifies a runtime

    dev_runtime_worker.go: [readRuntimeProof] establishes the common revision
    of every GitOps repository, reads every manifest at it before and after
    the roles of its component, reads all of them again once every role was
    read, and establishes the revisions again.  It is shared by the
    verification of an activation ([tickDevRuntime]) and by the capture of a
    baseline (BaselineWorker.v). *)
From S2P Require Import Prelude GoText Worklist GoJson Delivery Domain Status Planning Handlers DeviceAuth Collections ExternalSystems Reservation Composition Conflicts Scenarios Pins WorkerAuth WorkerJobs Publications Registry Restoration Checks Retention RetentionReport WorkerProtocol External Candidates Activation FlowGuards RegistryRefresh Effects Saving SourceChecks DevRuntime ActivationWorker Baseline.
Open Scope string_scope.
Open Scope list_scope.

(** ** The reasons that are recorded *)
Definition runtime_reasons : list string :=
  ["EVIDENCE_UNAVAILABLE"; "GITOPS_ANCESTRY_UNVERIFIED"; "GITOPS_TARGET_DRIFT"; "GITOPS_UNAVAILABLE"; "RUNTIME_ROLE_MISMATCH";
   "PROOF_BOUNDS_EXCEEDED"; "AUTHORITY_CHANGED"].
Definition validRuntimeReason (v : string) : bool := contains runtime_reasons v.
Definition runtimeFailureReason (e : Error) : string :=
  let v := error_text e in
  if str_contains "ancestry" v || str_contains "common GitOps revision" v then "GITOPS_ANCESTRY_UNVERIFIED"
  else if str_contains "drift" v || str_contains "target changed" v then "GITOPS_TARGET_DRIFT"
  else if str_contains "GitOps read" v || str_contains "target unavailable" v then "GITOPS_UNAVAILABLE"
  else if str_contains "role" v || str_contains "pods" v then "RUNTIME_ROLE_MISMATCH"
  else if str_contains "bound" v then "PROOF_BOUNDS_EXCEEDED"
  else "AUTHORITY_CHANGED".

Section worker.
Context `{Runtime, NetURL, Upper, MapOrder, URLs, Hashing, Encoding, RestorationEvidence, Operator, Capabilities, Observers}.
Implicit Types (op : ExternalOperation) (c : DevRuntimeComponent) (proof : DevRuntimeProof) (connections : gmap string Connection).

(** ** The repositories of a proof *)
Record runtimeGitOpsGroup := mkRuntimeGitOpsGroup {
  group_key : string; group_connection : Connection; group_request : GitOpsRevisionRequest }.
Definition runtimeGitOpsObservation (v : GitOpsSnapshot) : DevRuntimeGitOpsObservation :=
  mkDevRuntimeGitOpsObservation (GitOpsSnapshot_ImageRepository v) (GitOpsSnapshot_HeadSHA v) (GitOpsSnapshot_BlobSHA v)
    (Fingerprint (GitOpsSnapshot_Content v)) (GitOpsSnapshot_Digest v).
Definition connection_of connections c : Connection := default zero (connections !! DevRuntimeComponent_ApplicationID c).
Definition group_key_of connections c : string := runtimeGitOpsGroupKey (connection_of connections c) (DevRuntimeComponent_GitOps c).
Definition with_commit (commit : string) (g : runtimeGitOpsGroup) : runtimeGitOpsGroup :=
  let commits := GitOpsRevisionRequest_AncestorSHAs (group_request g) in
  if contains commits commit then g
  else g <| group_request ::= fun r => r <| GitOpsRevisionRequest_AncestorSHAs := commits ++ [commit] |> |>.
Definition add_component connections (groups : list runtimeGitOpsGroup) c : list runtimeGitOpsGroup :=
  let key := group_key_of connections c in
  let target := DevRuntimeComponent_GitOps c in
  let new := mkRuntimeGitOpsGroup key (connection_of connections c)
               (mkGitOpsRevisionRequest (GitOpsRequest_Repository target) (GitOpsRequest_Ref target) "" []) in
  let groups := if existsb (fun g => group_key g == key) groups then groups else groups ++ [new] in
  update_first (fun g => group_key g == key) (with_commit (DevRuntimeComponent_GitOpsCommit c)) groups.
Definition sorted_group (g : runtimeGitOpsGroup) : runtimeGitOpsGroup :=
  g <| group_request ::= fun r => r <| GitOpsRevisionRequest_AncestorSHAs ::= sort_strings |> |>.
Definition runtime_groups connections proof : list runtimeGitOpsGroup :=
  map sorted_group (foldl (add_component connections) [] (DevRuntimeProof_Components proof)).
(** The revisions established, by the key of their group. *)
Definition heads : Type := gmap string GitOpsRevisionProof.
Definition revision_at connections (proofs : heads) c : GitOpsRevisionProof := default zero (proofs !! group_key_of connections c).

Section reading.
Context (guard : Prog (res unit)) (connections : gmap string Connection).

Definition establish_revision proof (proofs : heads) (g : runtimeGitOpsGroup) : Prog (res heads) :=
  let request := match find_first (fun c => group_key_of connections c == group_key g) (DevRuntimeProof_Components proof) with
                 | Some c => DevRuntimeComponent_GitOps c | None => zero end in
  try guard (fun _ =>
  '(_, e) ← ask (ReadGitOps (group_connection g) request);
  if is_some e then check (invalid "runtime GitOps read unavailable" [])
  else try guard (fun _ =>
    '(revision, e) ← ask (VerifyGitOpsRevision (group_connection g) (group_request g));
    if is_some e || negb (validRevisionProof (group_request g) revision) then check (invalid "runtime common GitOps ancestry unavailable" [])
    else check (Ok (<[group_key g := revision]> proofs)))).
(** Exactly one configured observer has the frozen scope. *)
Definition chosen_observer `{World} (scope : RuntimeVerificationScope) : res unit :=
  match List.filter (fun o => VerificationScope o == Some (Some scope)) runtimeObservers with
  | [] => invalid "frozen runtime role unavailable" []
  | [_] => Ok ()
  | _ => invalid "duplicate runtime binding" []
  end.
Definition validateRuntimeRoleAt c (scope : RuntimeVerificationScope) (r : DeliveryRuntimeSnapshot) (head : string) (t : Time) : res unit :=
  match ValidateDevRuntimeRoleAt c scope r head t with Ok _ => Ok () | Err e => invalid "%v" [error_text e] end.
Definition validateRuntimeGitOps c (g : DevRuntimeGitOpsObservation) (p : GitOpsRevisionProof) : res unit :=
  match ValidateDevRuntimeGitOps c g p with Ok _ => Ok () | Err e => invalid "%v" [error_text e] end.
(** The roles of the component so far, and the pods of all. *)
Definition observe_role c (head : string) (acc : list DeliveryRuntimeSnapshot * Z) (scope : RuntimeVerificationScope)
    : Prog (res (list DeliveryRuntimeSnapshot * Z)) :=
  w ← effect Fresh;
  try (check (chosen_observer scope)) (fun _ =>
  try guard (fun _ =>
  '(actual, _) ← ask (SnapshotRuntime scope);
  w ← effect Fresh;
  try (check (validateRuntimeRoleAt c scope actual head (now "validateRuntimeRole" 0))) (fun _ =>
  let pods := (acc.2 + count (DeliveryRuntimeSnapshot_Pods actual))%Z in
  check (_ ← reject_if (512 <? pods)%Z (invalid "runtime pod proof bound exceeded" []); Ok (acc.1 ++ [actual], pods))))).
Definition at_head (proofs : heads) c : GitOpsRequest :=
  (DevRuntimeComponent_GitOps c) <| GitOpsRequest_ExpectedHeadSHA := GitOpsRevisionProof_HeadSHA (revision_at connections proofs c) |>.
Definition observe_manifest (proofs : heads) (acc : list DevRuntimeComponentResult * Z) c : Prog (res (list DevRuntimeComponentResult * Z)) :=
  let connection := connection_of connections c in
  let revision := revision_at connections proofs c in
  let request := at_head proofs c in
  try guard (fun _ =>
  '(before, e) ← ask (ReadGitOps connection request);
  if is_some e then check (invalid "runtime pinned GitOps read unavailable" [])
  else
    let observed := runtimeGitOpsObservation before in
    try (check (validateRuntimeGitOps c observed revision)) (fun _ =>
    try (loop (observe_role c (GitOpsRevisionProof_HeadSHA revision)) ([], acc.2) (DevRuntimeComponent_Scopes c)) (fun '(roles, pods) =>
    try guard (fun _ =>
    '(after, e) ← ask (ReadGitOps connection request);
    if is_some e || (before != after) then check (invalid "runtime target changed during observation" [])
    else check (Ok (acc.1 ++ [mkDevRuntimeComponentResult (DevRuntimeComponent_ApplicationID c) observed revision roles], pods)))))).
(** Every manifest again, once all roles were read. *)
Definition reread_component (proofs : heads) (results : list DevRuntimeComponentResult) (_ : unit) c : Prog (res unit) :=
  try guard (fun _ =>
  '(after, e) ← ask (ReadGitOps (connection_of connections c) (at_head proofs c));
  if is_some e then check (invalid "runtime final target unavailable" [])
  else
    let expected := match find_first (fun cr => DevRuntimeComponentResult_ApplicationID cr == DevRuntimeComponent_ApplicationID c) results with
                    | Some cr => DevRuntimeComponentResult_GitOps cr | None => zero end in
    check (require (runtimeGitOpsObservation after == expected) "runtime final target drift")).
Definition reverify_revision (proofs : heads) (_ : unit) (g : runtimeGitOpsGroup) : Prog (res unit) :=
  let known := default zero (proofs !! group_key g) in
  let request := (group_request g) <| GitOpsRevisionRequest_HeadSHA := GitOpsRevisionProof_HeadSHA known |> in
  try guard (fun _ =>
  '(revision, e) ← ask (VerifyGitOpsRevision (group_connection g) request);
  check (reject_if (is_some e || negb (validRevisionProof request revision) || (known != revision))
           (invalid "runtime final common GitOps revision drift" []))).
Definition concluded `{World} proof (results : list DevRuntimeComponentResult) : res DevRuntimeResult :=
  let r := mkDevRuntimeResult "EXACT_CONFIGURED_RUNTIME_MATCH" (DevRuntimeProof_SnapshotHash proof) "VERIFIED" (now "readRuntimeProof" 0) results "" in
  let r := r <| DevRuntimeResult_Hash := devRuntimeResultHash r |> in
  _ ← validateDevRuntimeResultAt proof r (now "readRuntimeProof" 1);
  Ok r.
Definition readRuntimeProof proof : Prog (res DevRuntimeResult) :=
  if negb gitops_revision_verifier then check (invalid "runtime GitOps revision verifier unavailable" [])
  else
    let groups := runtime_groups connections proof in
    try (loop (establish_revision proof) ∅ groups) (fun proofs =>
    try (loop (observe_manifest proofs) ([], 0%Z) (DevRuntimeProof_Components proof)) (fun '(results, _) =>
    try (loop (reread_component proofs results) tt (DevRuntimeProof_Components proof)) (fun _ =>
    try (loop (reverify_revision proofs) tt groups) (fun _ =>
    w ← effect Fresh;
    check (concluded proof results))))).
End reading.

(** ** The verification of an activation *)
Context `{Baselines}.
Definition live_lease `{World} op (st : State) (site message : string) : res unit :=
  match operationByID st (ID op) with
  | None => invalid message []
  | Some current =>
    reject_if (terminalOperation (ExternalOperation_Status current) || (ExternalOperation_LeaseOwner current != ExternalOperation_LeaseOwner op)
               || negb (After (ExternalOperation_LeaseUntil current) (now site 0))) (invalid message [])
  end.
Definition validateDevRuntimeIO op : Prog (res unit) :=
  try alive (fun _ => try (effect Read) (fun st => w ← effect Fresh;
  check (_ ← live_lease op st "validateDevRuntimeIO" "runtime verification lease unavailable"; devRuntimeAllowed st op true))).
Definition child_connection (st : State) (connections : gmap string Connection) c : option (gmap string Connection) :=
  child ← operationByID st (DevRuntimeComponent_ChildID c);
  snap ← ExternalOperation_Snapshot child;
  Some (<[DevRuntimeComponent_ApplicationID c := DeliverySnapshot_GitOpsConnection snap]> connections).
Definition readDevRuntime op (st : State) : Prog (res DevRuntimeResult) :=
  match (proof ← ExternalOperation_DevRuntime op; connections ← fold_option (child_connection st) ∅ (DevRuntimeProof_Components proof);
         Some (proof, connections)) with
  | None => check (Err ErrPanic)
  | Some (proof, connections) => readRuntimeProof (validateDevRuntimeIO op) connections proof
  end.
(** [finishDevRuntime] *)
Definition sound_verification `{World} (cancelled : bool) (st : State) op current (r : DevRuntimeResult) : bool :=
  match ExternalOperation_DevRuntime op with
  | None => false
  | Some p =>
    let t := now "finishDevRuntime" 0 in
    negb cancelled && After (ExternalOperation_LeaseUntil current) t && is_ok (devRuntimeAllowed st op true)
    && is_ok (validateDevRuntimeResultAt p r (now "finishDevRuntime" 1)) && recent (DevRuntimeResult_ObservedAt r) t
  end.
Definition unverified `{World} (cancelled : bool) (st : State) op current (r : DevRuntimeResult) : DevRuntimeResult :=
  let t := now "finishDevRuntime" 0 in
  let reason := if cancelled || negb (After (ExternalOperation_LeaseUntil current) t) || negb (is_ok (devRuntimeAllowed st op true)) then "AUTHORITY_CHANGED"
                else if validRuntimeReason (DevRuntimeResult_Reason r) then DevRuntimeResult_Reason r else "EVIDENCE_UNAVAILABLE" in
  let r := mkDevRuntimeResult reason (match ExternalOperation_DevRuntime op with Some p => DevRuntimeProof_SnapshotHash p | None => "" end)
             "UNVERIFIED" t [] "" in
  r <| DevRuntimeResult_Hash := devRuntimeResultHash r |>.
(** The fields every ending of a verification or a capture sets. *)
Definition ended (status phase detail error : string) (t : Time) op : ExternalOperation :=
  op <| ExternalOperation_Status := status |> <| ExternalOperation_Phase := phase |> <| ExternalOperation_DeploymentState := phase |>
     <| ExternalOperation_Detail := detail |> <| ExternalOperation_Error := error |> <| ExternalOperation_CurrentStep := phase |>
     <| ExternalOperation_Meta ::= fun m => m <| Meta_UpdatedAt := t |> |> <| ExternalOperation_FinishedAt := Some t |>
     <| ExternalOperation_LeaseOwner := "" |> <| ExternalOperation_LeaseUntil := 0%Z |>.
Definition verified_operation (valid : bool) (r : DevRuntimeResult) (t : Time) current : ExternalOperation :=
  let failure := "Runtime unverified: incomplete, changed or unavailable exact read-only evidence; reservation retained ("
                 +:+ DevRuntimeResult_Reason r +:+ ")" in
  (if valid then ended "SUCCEEDED" "RUNTIME_VERIFIED"
     "Configured candidate runtime matched at observation; functional acceptance and restoration remain unverified, reservation retained" "" t
   else ended "FAILED" "RUNTIME_UNVERIFIED" failure failure t) (current <| ExternalOperation_DevRuntimeResult := Some r |>).
Definition ending_step `{World} (site actor : string) op current (t : Time) (evidence : list (string * string)) : OperationStep :=
  mkOperationStep (mkMeta (fresh site 0) (ProductID op) "" actor t t) (ID op) (ExternalOperation_Phase current) (ExternalOperation_Status current)
    (ExternalOperation_Detail current) (list_to_map evidence).
Definition finish_runtime_tx `{World} (cancelled : bool) op (token : string) (r : DevRuntimeResult) (st : State) : res State :=
  match operationByID st (ID op) with
  | None => invalid "runtime observation lease lost" []
  | Some current =>
    _ ← reject_if ((ExternalOperation_LeaseOwner current != token) || terminalOperation (ExternalOperation_Status current))
          (invalid "runtime observation lease lost" []);
    let valid := sound_verification cancelled st op current r in
    let r := if valid then r else unverified cancelled st op current r in
    _ ← reject_if (devRuntimeMaxBytes <? encoded_size (ExternalOperation_DevRuntime op, r))%Z (invalid "runtime proof/result bound exceeded" []);
    let t := now "finishDevRuntime" 0 in
    let v := verified_operation valid r t current in
    let expected := match ExternalOperation_DevRuntime op with Some p => DevRuntimeProof_SnapshotHash p | None => "" end in
    Ok (set_operation (ID op) (fun _ => v) st
          <| State_OperationSteps ::= fun l => l ++ [ending_step "finishDevRuntime" "system/runtime-verifier" op v t
               [("expected_hash", expected); ("result_hash", DevRuntimeResult_Hash r)]] |>)
  end.
Definition finishDevRuntime op (token : string) (r : DevRuntimeResult) : Prog (res unit) :=
  transact (fun w cancelled st => finish_runtime_tx cancelled op token r st).
Definition fail_runtime op (token reason : string) : Prog (res unit) :=
  finishDevRuntime op token ((zero : DevRuntimeResult) <| DevRuntimeResult_Reason := reason |>).
Definition tickDevRuntime op (token : string) : Prog (res unit) :=
  io ← validateDevRuntimeIO op;
  match io with
  | Err e => fail_runtime op token (runtimeFailureReason e)
  | Ok _ =>
    try (effect Read) (fun st =>
    w ← effect Fresh;
    if negb (is_ok (devRuntimeAllowed st op true)) then fail_runtime op token "AUTHORITY_CHANGED"
    else match (activation ← operationByID st (ExternalOperation_ParentID op); ExternalOperation_DevActivation activation) with
    | None => check (Err ErrPanic)
    | Some p =>
      observed ← reobserve (operationByID st (DevActivationProof_CandidateOperationID p));
      match observed with
      | Err ErrPanic => check (Err ErrPanic)
      | Err e => fail_runtime op token (runtimeFailureReason e)
      | Ok _ =>
        result ← readDevRuntime op st;
        match result with
        | Err ErrPanic => check (Err ErrPanic)
        | Err e => fail_runtime op token (runtimeFailureReason e)
        | Ok r => finishDevRuntime op token r
        end
      end
    end)
  end.
End worker.
