(* ===== verification/NativeWorker.v ===== *)
(** * The worker of a native delivery

    [tickNativeDelivery] (native_delivery.go): one transaction that moves a
    native build forward.  It queues the build job, waits for its accepted
    receipt and its check, queues the publication of exactly that receipt, and
    hands the published artifact to the inspection of the delivery.  When the
    fence of the delivery fails, its jobs are stopped in the same transaction. *)
From S2P Require Import Prelude GoText GoJson Delivery Domain Status Planning Handlers DeviceAuth Collections ExternalSystems Reservation Composition Conflicts Scenarios Pins WorkerAuth WorkerJobs Publications Registry Restoration Checks WorkerProtocol External Candidates Activation FlowGuards Effects Saving SourceChecks.
Open Scope string_scope.
Open Scope list_scope.

Section native.
Context `{Runtime, NetURL, Upper, MapOrder, URLs, Hashing, Encoding, RestorationEvidence, Operator, Baselines, ComposeLease, Capabilities}.

Section transaction.
Context `{World} (cancelled : bool) (op : ExternalOperation) (token : string).
Let t : Time := now "tickNativeDelivery" 0.
Definition native_stop (detail : string) (st : State) : State := stopNativeDelivery (ID op) "BLOCKED" detail t st.
Definition native_link_set (f : NativeDelivery -> NativeDelivery) (st : State) : State :=
  set_operation (ID op) (fun v => v <| ExternalOperation_Native ::= fmap f |>) st.
(** [appendJob] *)
Definition native_operation (parent : ExternalOperation) (inputs : WorkerInputs) : ExternalOperation :=
  (zero : ExternalOperation)
    <| ExternalOperation_Meta := mkMeta (fresh "native operation" 0) (ProductID parent) (FeatureID parent) (ExternalOperation_RequestedBy parent) t t |>
    <| ExternalOperation_ParentID := ID parent |> <| ExternalOperation_Kind := WorkerOperationKind |>
    <| ExternalOperation_IntegrationID := ExternalOperation_IntegrationID parent |>
    <| ExternalOperation_RepositoryID := WorkerInputs_RepositoryID inputs |>
    <| ExternalOperation_RequestedBy := ExternalOperation_RequestedBy parent |> <| ExternalOperation_Status := "PENDING" |>
    <| ExternalOperation_Phase := "EXTERNAL_QUEUED" |>.
Definition native_job (parent : ExternalOperation) (n : NativeDelivery) (inputs : WorkerInputs) (capability key : string) : WorkerJob :=
  (zero : WorkerJob)
    <| WorkerJob_Meta := mkMeta (fresh "native job" 0) (ProductID parent) (FeatureID parent) (ExternalOperation_RequestedBy parent) t t |>
    <| WorkerJob_OperationID := fresh "native operation" 0 |> <| WorkerJob_IntegrationID := ExternalOperation_IntegrationID parent |>
    <| WorkerJob_RequestKey := key |> <| WorkerJob_RequestHash := Fingerprint inputs |> <| WorkerJob_Capability := capability |>
    <| WorkerJob_Inputs := inputs |> <| WorkerJob_InputHash := Fingerprint inputs |> <| WorkerJob_Status := "QUEUED" |>
    <| WorkerJob_Deadline := NativeDelivery_Deadline n |> <| WorkerJob_MaxAttempts := 1%Z |>.
Definition append_job (parent : ExternalOperation) (n : NativeDelivery) (inputs : WorkerInputs) (capability key : string) (st : State)
    : res (State * string) :=
  let j := native_job parent n inputs capability key in
  let i := length (State_WorkerJobs st) in
  let st := st <| State_Operations ::= fun l => l ++ [native_operation parent inputs] |> in
  let st := st <| State_WorkerJobs ::= fun l => l ++ [j] |> in
  match externalWorkers with
  | None => Err ErrPanic
  | Some w =>
    st ← queueWorkerCheck w check_run_provider st (ID j);
    Ok (workerAudit i (ExternalOperation_RequestedBy parent) "native_job_queued" t st, ID j)
  end.

(** ** The build *)
Definition build_inputs (parent : ExternalOperation) (n : NativeDelivery) (snap : DeliverySnapshot) (b : Recipe) : WorkerInputs :=
  (zero : WorkerInputs) <| WorkerInputs_Check := Recipe_Check b |> <| WorkerInputs_SourceProof := Some (nativeSourceProof parent) |>
    <| WorkerInputs_RecipeID := Recipe_ID b |> <| WorkerInputs_RecipeRevision := Recipe_Revision b |> <| WorkerInputs_RecipeHash := Recipe_Hash b |>
    <| WorkerInputs_ConfigRevision := NativeDelivery_ConfigRevision n |> <| WorkerInputs_RepositoryID := Recipe_RepositoryID b |>
    <| WorkerInputs_RepositoryURL := Recipe_RepositoryURL b |> <| WorkerInputs_RevisionID := ID (DeliverySnapshot_Revision snap) |>
    <| WorkerInputs_SourceSHA := IntegrationRevision_HeadCommit (DeliverySnapshot_Revision snap) |> <| WorkerInputs_Trust := Recipe_Trust b |>
    <| WorkerInputs_Parameters := match ComponentBuild_Native (DeliverySnapshot_Build snap) with
                                  | Some binding => NativeBinding_Parameters binding | None => ∅ end |>
    <| WorkerInputs_Execution := Recipe_Execution b |>.
Definition queue_build (parent : ExternalOperation) (n : NativeDelivery) (snap : DeliverySnapshot) (st : State) : res State :=
  '(b, _) ← snapshot_recipes parent snap;
  '(st, job) ← append_job parent n (build_inputs parent n snap b) "local_oci_build" ("native-build:" +:+ ID parent) st;
  Ok (native_link_set (fun n => n <| NativeDelivery_BuildJobID := job |>) st).

(** ** The publication of its receipt *)
Definition publication_inputs (parent : ExternalOperation) (n : NativeDelivery) (b : WorkerJob) (p : PublicationRecipe) (receipt : WorkerLocalOCI)
    : WorkerInputs :=
  let i := WorkerJob_Inputs b in
  (zero : WorkerInputs) <| WorkerInputs_SourceProof := Some (nativeSourceProof parent) |> <| WorkerInputs_RecipeID := PublicationRecipe_ID p |>
    <| WorkerInputs_RecipeRevision := PublicationRecipe_Revision p |> <| WorkerInputs_RecipeHash := PublicationRecipe_Hash p |>
    <| WorkerInputs_ConfigRevision := NativeDelivery_ConfigRevision n |> <| WorkerInputs_RepositoryID := WorkerInputs_RepositoryID i |>
    <| WorkerInputs_RepositoryURL := WorkerInputs_RepositoryURL i |> <| WorkerInputs_RevisionID := WorkerInputs_RevisionID i |>
    <| WorkerInputs_SourceSHA := WorkerInputs_SourceSHA i |> <| WorkerInputs_Trust := "publication" |>
    <| WorkerInputs_Publication := Some (mkWorkerPublication (PublicationRecipe_ComponentID p) (PublicationRecipe_Profile p)
         (PublicationRecipe_Origin p) (PublicationRecipe_Repository p) receipt) |>.
(** The accepted receipt of a job that succeeded. *)
Definition accepted_build (st : State) (b : WorkerJob) : option WorkerLocalOCI :=
  k ← currentWorkerAttempt st b;
  a ← State_WorkerAttempts st !! k;
  r ← WorkerAttempt_Report a;
  receipt ← WorkerReport_LocalOCI r;
  if is_ok (validateWorkerLocalOCI b a r) then Some receipt else None.
(** A state and whether the operation is to be released to its next attempt. *)
Definition progress : Type := State * bool.
Definition adopt_artifact (parent : ExternalOperation) (snap : DeliverySnapshot) (job : string) (st : State) : res progress :=
  match find_first (fun a => match DeliveryArtifact_Native a with Some n => NativeArtifact_PublicationJobID n == job | None => false end)
          (State_DeliveryArtifacts st) with
  | None => Ok (st, true)
  | Some artifact =>
    known ← validatedExistingArtifact st (ID artifact) (ProductID parent) (ExternalOperation_ApplicationID parent)
              (IntegrationRevision_RepositoryID (DeliverySnapshot_Revision snap)) (IntegrationRevision_HeadCommit (DeliverySnapshot_Revision snap))
              (ComponentBuild_ImageRepository (DeliverySnapshot_Build snap));
    Ok (set_operation (ID op) (fun v => v <| ExternalOperation_ExistingArtifact := Some known |>
          <| ExternalOperation_ExpectedDigest := DeliveryArtifact_Digest known |>
          <| ExternalOperation_Phase := "INSPECT" |> <| ExternalOperation_CurrentStep := "INSPECT" |>) st, true)
  end.
Definition watch_publication (parent : ExternalOperation) (n : NativeDelivery) (snap : DeliverySnapshot) (st : State) : res progress :=
  match job_index st (NativeDelivery_PublicationJobID n) with
  | None => invalid "native publication link missing" []
  | Some i =>
    let st := recoverWorker i t st in
    match job_at st i with
    | None => Err ErrPanic
    | Some job =>
      if WorkerJob_Status job == "SUCCEEDED" then adopt_artifact parent snap (ID job) st
      else if workerTerminal (WorkerJob_Status job) then Ok (native_stop ("native publication stopped: " +:+ WorkerJob_Status job) st, false)
      else Ok (st, true)
    end
  end.
Definition publish_receipt (parent : ExternalOperation) (n : NativeDelivery) (snap : DeliverySnapshot) (b : WorkerJob) (receipt : WorkerLocalOCI)
    (st : State) : res progress :=
  '(_, p) ← snapshot_recipes parent snap;
  if (PublicationRecipe_MaxBytes p <? WorkerLocalOCI_ArchiveBytes receipt)%Z then Ok (native_stop "publication archive too large" st, false)
  else
    '(st, job) ← append_job parent n (publication_inputs parent n b p receipt) "registry_publish" ("native-publish:" +:+ ID parent) st;
    Ok (native_link_set (fun n => n <| NativeDelivery_PublicationJobID := job |>) st, true).
(** The lease is given up for two seconds while the check is finalised. *)
Definition await_check (b : WorkerJob) (st : State) : progress :=
  match operationByID st (WorkerJob_CheckOperationID b) with
  | Some c =>
    if terminalOperation (ExternalOperation_Status c) then (native_stop "native check finalization unavailable" st, false)
    else (set_operation (ID op) (fun v => v <| ExternalOperation_LeaseOwner := "" |> <| ExternalOperation_LeaseUntil := 0%Z |>
            <| ExternalOperation_NextAttemptAt := (t + 2 * second)%Z |>) st, false)
  | None => (set_operation (ID op) (fun v => v <| ExternalOperation_LeaseOwner := "" |> <| ExternalOperation_LeaseUntil := 0%Z |>
            <| ExternalOperation_NextAttemptAt := (t + 2 * second)%Z |>) st, false)
  end.
Definition watch_build (parent : ExternalOperation) (n : NativeDelivery) (snap : DeliverySnapshot) (st : State) : res progress :=
  match job_index st (NativeDelivery_BuildJobID n) with
  | None => invalid "native build link missing" []
  | Some i =>
    let st := recoverWorker i t st in
    match job_at st i with
    | None => Err ErrPanic
    | Some b =>
      if WorkerJob_Status b == "SUCCEEDED" then
        if negb (check_gate st (Some b)) then Ok (await_check b st)
        else match accepted_build st b with
        | None => Ok (native_stop "accepted build receipt missing" st, false)
        | Some receipt =>
          if NativeDelivery_PublicationJobID n == "" then publish_receipt parent n snap b receipt st
          else watch_publication parent n snap st
        end
      else if workerTerminal (WorkerJob_Status b) then Ok (native_stop ("native build stopped: " +:+ WorkerJob_Status b) st, false)
      else Ok (st, true)
    end
  end.
Definition release_native (st : State) : State :=
  set_operation (ID op) (fun v => v <| ExternalOperation_Meta ::= fun m => m <| Meta_UpdatedAt := t |> |>
    <| ExternalOperation_LeaseOwner := "" |> <| ExternalOperation_LeaseUntil := 0%Z |>
    <| ExternalOperation_NextAttemptAt := (t + 2 * second)%Z |>) st.
Definition native_held (parent : ExternalOperation) : res unit :=
  if match ExternalOperation_Snapshot parent with Some snap => is_some (DeliverySnapshot_MainCandidate snap) | None => false end then
    _ ← reject_if cancelled (plain "context canceled");
    require (After (ExternalOperation_LeaseUntil parent) (now "native lease" 0)) "main candidate child lease expired"
  else Ok ().
Definition native_step (parent : ExternalOperation) (st : State) : res progress :=
  match ExternalOperation_Native parent, ExternalOperation_Snapshot parent with
  | Some n, Some snap =>
    if NativeDelivery_BuildJobID n == "" then st ← queue_build parent n snap st; Ok (st, true)
    else watch_build parent n snap st
  | _, _ => Err ErrPanic
  end.
Definition native_tx (st : State) : res State :=
  match operationByID st (ID op) with
  | None => invalid "native delivery lease lost" []
  | Some parent =>
    _ ← reject_if (ExternalOperation_LeaseOwner parent != token) (invalid "native delivery lease lost" []);
    _ ← native_held parent;
    match nativeDeliveryAllowed st (Some parent) with
    | Err ErrPanic => Err ErrPanic
    | Err e => Ok (native_stop (error_text e) st)
    | Ok _ => '(st, release) ← native_step parent st; Ok (if release : bool then release_native st else st)
    end
  end.
End transaction.

Definition tickNativeDelivery (op : ExternalOperation) (token : string) : Prog (res unit) :=
  source ← (if match ExternalOperation_Snapshot op with Some snap => is_some (DeliverySnapshot_MainCandidate snap) | None => false end
            then verifyNativeSource op else Ret (Ok ()));
  match source with
  | Err e => finish op token "BLOCKED" (error_text e) ∅
  | Ok _ => transact (fun w cancelled st => native_tx cancelled op token st)
  end.
End native.
