(* ===== verification/Operations.v ===== *)
(** * The worker of operations

    [Tick] of worker.go: a transaction claims the due operation of least
    priority, attempt time and identifier; the step its kind and phase call
    for then runs outside the store.  The phases of a deployment are modelled
    whole, with the pull requests of gitops_pr.go and the managed branches of
    managed_branch.go; the steps of the other kinds (compositions and
    releases, observations, checks, restorations, intelligence) are the class
    [OtherSteps]. *)
From S2P Require Import Prelude GoText GoJson Delivery Domain Status Planning Handlers DeviceAuth Collections ExternalSystems Reservation Composition Conflicts Scenarios Pins WorkerAuth WorkerJobs Publications Registry Restoration Checks WorkerProtocol External Candidates Activation FlowGuards Effects Saving SourceChecks ActivationWorker NativeWorker.
Open Scope string_scope.
Open Scope list_scope.

(** ** Claiming *)
Definition operationPriority (kind : string) : Z :=
  if contains ["REFRESH_GIT"; "REFRESH_REPOSITORY_GIT"; "REFRESH_RUNTIME"] kind then 10 else 0.
Definition IntelligenceOperationKind : string := "INTELLIGENCE".
(** The intelligence service and its time budget, when it is configured. *)
Class Analyst := { intelligence_timeout : option Z; runtime_observers : bool }.

Section claim.
Context `{Capabilities, Analyst}.
Definition claimable (t : Time) (v : ExternalOperation) : bool :=
  negb (contains [WorkerOperationKind; RegistryObserveOperationKind] (ExternalOperation_Kind v))
  && ((ExternalOperation_Kind v != IntelligenceOperationKind) || is_some intelligence_timeout)
  && (provider_configured || contains ["REFRESH_RUNTIME"; IntelligenceOperationKind] (ExternalOperation_Kind v))
  && negb (terminalOperation (ExternalOperation_Status v) || After (ExternalOperation_NextAttemptAt v) t || After (ExternalOperation_LeaseUntil v) t).
(** [v] is taken before [candidate]. *)
Definition sooner (v candidate : ExternalOperation) : bool :=
  let p := operationPriority (ExternalOperation_Kind v) in let q := operationPriority (ExternalOperation_Kind candidate) in
  (p <? q)%Z
  || ((p =? q)%Z
      && (Before (ExternalOperation_NextAttemptAt v) (ExternalOperation_NextAttemptAt candidate)
          || (ExternalOperation_NextAttemptAt v == ExternalOperation_NextAttemptAt candidate) && String.ltb (ID v) (ID candidate))).
(** The position of the operation to claim. *)
Definition better (t : Time) (ops : list ExternalOperation) (acc : option nat) (i : nat) : option nat :=
  match ops !! i with
  | None => acc
  | Some v =>
    if negb (claimable t v) then acc
    else match i' ← acc; ops !! i' with
         | None => Some i
         | Some candidate => if sooner v candidate then Some i else acc
         end
  end.
Definition claim_candidate (t : Time) (ops : list ExternalOperation) : option nat := foldl (better t ops) None (seq 0 (length ops)).
Definition lease_length (kind : string) : Z :=
  if kind == "REFRESH_RUNTIME" then 10 * minute
  else match intelligence_timeout with
       | Some budget => if kind == IntelligenceOperationKind then budget + 10 * second else 45 * second
       | None => 45 * second
       end.
Definition claimed (t : Time) (token : string) (v : ExternalOperation) : ExternalOperation :=
  v <| ExternalOperation_LeaseOwner := token |> <| ExternalOperation_LeaseUntil := (t + lease_length (ExternalOperation_Kind v))%Z |>
    <| ExternalOperation_Attempts ::= fun n => wrap_int64 (n + 1) |>
    <| ExternalOperation_StartedAt := match ExternalOperation_StartedAt v with None => Some t | s => s end |>
    <| ExternalOperation_Status := "RUNNING" |>.
(** The transaction of [Tick] at time [t]: the state and the claimed operation. *)
Definition claim_tx (t : Time) (token : string) (st : State) : State * option ExternalOperation :=
  match i ← claim_candidate t (State_Operations st); v ← State_Operations st !! i; Some (i, claimed t token v) with
  | Some (i, v) => (st <| State_Operations ::= <[i := v]> |>, Some v)
  | None => (st, None)
  end.
End claim.

(** ** Steps of a deployment *)
Section operations.
Context `{Runtime, NetURL, Upper, MapOrder, URLs, Hashing, Encoding, RestorationEvidence, Operator, Baselines, ComposeLease, Capabilities}.
Implicit Types (op : ExternalOperation) (snap : DeliverySnapshot) (token : string).

Definition set_snapshot (snap : DeliverySnapshot) (op : ExternalOperation) : ExternalOperation := op <| ExternalOperation_Snapshot := Some snap |>.
Definition one (key value : string) : gmap string string := {[ key := value ]}.
Definition two (k v k' v' : string) : gmap string string := <[k := v]> {[ k' := v' ]}.
Definition image_of snap : string := ComponentBuild_ImageRepository (DeliverySnapshot_Build snap).
Definition head_of snap : string := IntegrationRevision_HeadCommit (DeliverySnapshot_Revision snap).
Definition failure (what : string) (e : option string) : string := what +:+ default "" e.

(** *** GitOps pull requests — gitops_pr.go *)
Definition gitOpsPRApply op snap (base : GitOpsSnapshot) (artifact : ArtifactResult) : GitOpsApply :=
  mkGitOpsApply (DeliverySnapshot_GitOpsRequest snap) (GitOpsSnapshot_HeadSHA base) (GitOpsSnapshot_BlobSHA base)
    (ArtifactResult_Digest artifact) (ID op) ("release-control: " +:+ ID op).
Definition proposeGitOpsPR op snap (apply : GitOpsApply) token : Prog (res unit) :=
  if negb gitops_pr_provider then finish op token "BLOCKED" "provider does not support GitOps pull requests" ∅
  else
    '(pr, e) ← ask (ProposeGitOps (DeliverySnapshot_GitOpsConnection snap) apply);
    if is_some e then retry op token (failure "GitOps PR proposal: " e)
    else if (GitOpsPullRequest_Number pr <=? 0)%Z || (GitOpsPullRequest_URL pr == "") || (GitOpsPullRequest_HeadSHA pr == "")
    then finish op token "BLOCKED" "PR provider returned incomplete evidence" ∅
    else advance (op <| ExternalOperation_GitOpsPR := Some pr |>) token "WAIT_GITOPS_PR" "GITOPS_PENDING"
           "GitOps pull request awaits external review and merge; no deployment yet"
           (two "pull_request" (GitOpsPullRequest_URL pr) "head" (GitOpsPullRequest_HeadSHA pr)).
Definition merged_pull_request op snap (artifact : ArtifactResult) (pr : GitOpsPullRequest) token : Prog (res unit) :=
  '(current, e) ← ask (ReadGitOps (DeliverySnapshot_GitOpsConnection snap)
                         ((DeliverySnapshot_GitOpsRequest snap) <| GitOpsRequest_ExpectedHeadSHA := "" |>));
  if is_some e then retry op token (default "" e)
  else if (GitOpsSnapshot_Digest current != ArtifactResult_Digest artifact) || (GitOpsSnapshot_ImageRepository current != image_of snap)
  then finish op token "BLOCKED" "merged PR does not match desired image in target branch" ∅
  else finish (op <| ExternalOperation_GitOpsResult := Some (mkGitOpsResult (GitOpsSnapshot_HeadSHA current) (GitOpsSnapshot_BlobSHA current)
                       (GitOpsPullRequest_URL pr) false) |>) token "GITOPS_APPLIED"
         "PR merged and exact image observed in GitOps; Flux/runtime still pending"
         (<["digest" := GitOpsSnapshot_Digest current]> (two "pull_request" (GitOpsPullRequest_URL pr) "commit" (GitOpsSnapshot_HeadSHA current))).
Definition target_unchanged (st : State) op snap : bool :=
  EnvironmentBinding_AllowDeploy (DeliverySnapshot_Target snap)
  && still (environmentBinding st (ExternalOperation_EnvironmentID op) (ExternalOperation_ApplicationID op)) (DeliverySnapshot_Target snap).
Definition observe_pull_request op snap (known : GitOpsPullRequest) (base : GitOpsSnapshot) (artifact : ArtifactResult) token : Prog (res unit) :=
  try service_state (fun st =>
  if negb (target_unchanged st op snap) then finish op token "BLOCKED" "GitOps policy changed while PR awaiting merge" ∅
  else
    '(pr, e) ← ask (ObserveGitOpsPR (DeliverySnapshot_GitOpsConnection snap) (gitOpsPRApply op snap base artifact) known);
    if is_some e then retry op token (failure "observe GitOps PR: " e)
    else
      let op := op <| ExternalOperation_GitOpsPR := Some pr |> in
      if negb (GitOpsPullRequest_Merged pr) then
        if GitOpsPullRequest_State pr == "closed" then finish op token "CANCELLED" "GitOps PR closed without merge" ∅
        else save op token "WAIT_GITOPS_PR" "GITOPS_PENDING" "Awaiting external PR merge" ∅ true
      else merged_pull_request op snap artifact pr token).
Definition waitGitOpsPR op snap token : Prog (res unit) :=
  try (effect Read) (fun st =>
  if activated_child st op then waitDevActivationGroup op token
  else match ExternalOperation_GitOpsPR op, ExternalOperation_GitOpsBase op, ExternalOperation_Artifact op with
  | Some pr, Some base, Some artifact =>
    if negb gitops_pr_provider then finish op token "FAILED" "missing GitOps PR evidence/provider" ∅
    else observe_pull_request op snap pr base artifact token
  | _, _, _ => finish op token "FAILED" "missing GitOps PR evidence/provider" ∅
  end).

(** *** PROMOTION_PREFLIGHT *)
Definition refreshed_request `{World} op snap : DeliverySnapshot :=
  snap <| DeliverySnapshot_BuildRequest ::= fun r => r <| BuildRequest_OperationID := ID op |>
    <| BuildRequest_RequestedAt := now "promotion" 0 |> <| BuildRequest_Inputs ::= <["operation_id" := ID op]> |> |>.
Definition promotion_preflight op snap token : Prog (res unit) :=
  source ← verifyPromotionSource op;
  match source with
  | Err e => finish op token "BLOCKED" (error_text e) ∅
  | Ok _ =>
    '(base, e) ← ask (ReadGitOps (DeliverySnapshot_GitOpsConnection snap) (DeliverySnapshot_GitOpsRequest snap));
    if is_some e then retry op token (default "" e)
    else if (GitOpsSnapshot_HeadSHA base == "") || (GitOpsSnapshot_BlobSHA base == "") then finish op token "BLOCKED" "GitOps evidence missing" ∅
    else
      let op := op <| ExternalOperation_GitOpsBase := Some base |> in
      if ComponentBuild_RebuildMissing (DeliverySnapshot_Build snap) then
        w ← effect Fresh;
        advance ((set_snapshot (refreshed_request op snap) op) <| ExternalOperation_Run := None |>) token "DISPATCH" "WAITING_FOR_ARTIFACT"
          "refresh registry proof for approved main digest; different rebuild digest will block" ∅
      else advance op token "INSPECT" "WAITING_FOR_ARTIFACT" "recheck exact verified main artifact before promotion" ∅
  end.

(** *** PREFLIGHT *)
Definition known_source op snap (head : string) (known : DeliveryArtifact) : bool :=
  (ProductID known == ProductID op) && (DeliveryArtifact_ApplicationID known == ExternalOperation_ApplicationID op)
  && (DeliveryArtifact_RepositoryID known == IntegrationRevision_RepositoryID (DeliverySnapshot_Revision snap))
  && (DeliveryArtifact_SourceCommit known == head) && (DeliveryArtifact_ImageRepository known == image_of snap)
  && (0 <? DeliveryArtifact_BuildRunID known)%Z.
(** The digest the latest build of this source reported. *)
Definition expected_digest op snap (head : string) (st : State) : string :=
  match find_last (fun a => known_source op snap head a && validArtifactDigest (DeliveryArtifact_Digest a)) (State_DeliveryArtifacts st) with
  | Some known => DeliveryArtifact_Digest known
  | None => ExternalOperation_ExpectedDigest op
  end.
Definition known_provenance op snap (head : string) (artifact : ArtifactResult) (st : State) : bool :=
  existsb (fun a => known_source op snap head a && (DeliveryArtifact_Digest a == ArtifactResult_Digest artifact)
                    && (DeliveryArtifact_Availability a == "PRESENT")) (State_DeliveryArtifacts st).
Definition reuse_artifact op (artifact : ArtifactResult) token : Prog (res unit) :=
  if (ExternalOperation_ExpectedDigest op != "") && (ArtifactResult_Digest artifact != ExternalOperation_ExpectedDigest op)
  then finish op token "BLOCKED" "observed artifact differs from requested digest; explicit new operation required" ∅
  else advance (op <| ExternalOperation_Artifact := Some artifact |>) token "APPLY" "ARTIFACT_READY"
         "existing source artifact observed; reuse without build" (one "digest" (ArtifactResult_Digest artifact)).
Definition rebuild_missing op snap (missing : option ArtifactResult) token : Prog (res unit) :=
  try (match missing with Some artifact => recordArtifactObservation op "MISSING" artifact | None => Ret (Ok ()) end) (fun _ =>
  if negb (ComponentBuild_RebuildMissing (DeliverySnapshot_Build snap))
  then finish op token "BLOCKED" "artifact missing or unverifiable and rebuild_missing policy is disabled" ∅
  else advance op token "DISPATCH" "WAITING_FOR_ARTIFACT" "artifact absent or private; workflow will probe/reuse or build" ∅).
Definition probe_artifact op snap (head : string) token : Prog (res unit) :=
  try (if ExternalOperation_ExpectedDigest op == ""
       then try service_state (fun st => Ret (Ok (op <| ExternalOperation_ExpectedDigest := expected_digest op snap head st |>)))
       else Ret (Ok op)) (fun op =>
  '(artifact, e) ← ask (InspectArtifact (DeliverySnapshot_SourceConnection snap)
     (mkArtifactRequest "" 0 "" "" (image_of snap) (BuildRequest_ImageTag (DeliverySnapshot_BuildRequest snap)) (ExternalOperation_ExpectedDigest op) ""));
  let available := negb (is_some e) && ArtifactResult_Available artifact in
  try (if available then try service_state (fun st => Ret (Ok (known_provenance op snap head artifact st))) else Ret (Ok false)) (fun known =>
  if negb (ExternalOperation_BuildOnly op) && known && available && validArtifactDigest (ArtifactResult_Digest artifact)
     && negb (IsZero (ArtifactResult_ObservedAt artifact))
  then reuse_artifact op artifact token
  else rebuild_missing op snap (if negb (is_some e) && negb (ArtifactResult_Available artifact) then Some artifact else None) token)).
(** The request of the build, pinned to the observed source and workflow. *)
Definition pinned_request (head workflow : string) (r : BuildRequest) : BuildRequest :=
  let tag := "rcp-" +:+ head in
  r <| BuildRequest_SourceSHA := head |> <| BuildRequest_WorkflowSHA := workflow |> <| BuildRequest_ImageTag := tag |>
    <| BuildRequest_Inputs ::= fun m => <["image_tag" := tag]> (<["source_sha" := head]> m) |>.
Definition preflight_gitops op snap (head workflow : string) token : Prog (res unit) :=
  let snap := snap <| DeliverySnapshot_BuildRequest ::= pinned_request head workflow |> in
  let op := set_snapshot snap op in
  '(base, e) ← ask (ReadGitOps (DeliverySnapshot_GitOpsConnection snap) (DeliverySnapshot_GitOpsRequest snap));
  if is_some e then finish op token "FAILED" (failure "GitOps preflight failed: " e) ∅
  else if (GitOpsSnapshot_HeadSHA base == "") || (GitOpsSnapshot_BlobSHA base == "")
  then finish op token "BLOCKED" "GitOps preflight did not provide pinned head/blob" ∅
  else
    let op := op <| ExternalOperation_GitOpsBase := Some base |> in
    match ExternalOperation_ExistingArtifact op with
    | Some known =>
      if DeliveryArtifact_SourceCommit known != head then finish op token "BLOCKED" "selected artifact does not match observed source" ∅
      else advance op token "INSPECT" "WAITING_FOR_ARTIFACT" "recheck selected immutable artifact; CI build is disabled for this operation"
             (one "artifact_id" (ID known))
    | None =>
      if native_build snap then advance op token "NATIVE_BUILD" "BUILDING" "native frozen-source build and publication requested" ∅
      else probe_artifact op snap head token
    end.
(** The revision observed for a branch that had none. *)
Definition observed_revision `{World} op (base head : string) (commits : list CommitInfo) (r : IntegrationRevision) : IntegrationRevision :=
  let t := now "preflight" 0 in
  r <| IntegrationRevision_Meta := mkMeta (fresh "revision" 0) (ProductID op) (FeatureID op) (ExternalOperation_RequestedBy op) t t |>
    <| IntegrationRevision_BaseCommit := base |> <| IntegrationRevision_HeadCommit := head |>
    <| IntegrationRevision_Commits := match map CommitInfo_SHA commits with [] => [head] | l => l end |>.
Definition revision_tx op token (r : IntegrationRevision) (st : State) : res State :=
  match operationByID st (ID op) with
  | Some v =>
    _ ← reject_if (ExternalOperation_LeaseOwner v != token) (invalid "lease lost" []);
    Ok (st <| State_IntegrationRevisions ::= fun l => l ++ [r] |>)
  | None => invalid "lease lost" []
  end.
Definition capture_revision op snap (base head : string) (commits : list CommitInfo) token : Prog (res DeliverySnapshot) :=
  if ID (DeliverySnapshot_Revision snap) != "" then Ret (Ok snap)
  else
    w ← effect Fresh;
    let r := observed_revision op base head commits (DeliverySnapshot_Revision snap) in
    try (transact (fun _ _ st => revision_tx op token r st)) (fun _ => Ret (Ok (snap <| DeliverySnapshot_Revision := r |>))).
Definition preflight op snap token : Prog (res unit) :=
  let repo := BuildRequest_Repository (DeliverySnapshot_BuildRequest snap) in
  let rev := DeliverySnapshot_Revision snap in
  '(branches, e) ← ask (Branches (DeliverySnapshot_SourceConnection snap) repo);
  if is_some e then finish op token "FAILED" (failure "source branch observation failed: " e) ∅
  else
    let head := branch_sha (IntegrationRevision_Branch rev) branches in
    let base := branch_sha (configuredBase (DeliverySnapshot_Source snap)) branches in
    let workflow := branch_sha (BuildRequest_Ref (DeliverySnapshot_BuildRequest snap)) branches in
    if (head == "") || (base == "") || (workflow == "")
    then finish op token "BLOCKED" "source, configured base or trusted workflow branch is missing" ∅
    else if (IntegrationRevision_HeadCommit rev != "") && (IntegrationRevision_HeadCommit rev != head)
    then finish op token "BLOCKED" "source branch moved; capture a new revision or deploy the currently bound branch" ∅
    else
      let comparisonBase := if (ExternalOperation_ParentID op != "") && negb (ExternalOperation_BuildOnly op)
                            then IntegrationRevision_BaseCommit rev else base in
      '(v, e) ← ask (Compare (DeliverySnapshot_SourceConnection snap) repo comparisonBase head);
      if is_some e then finish op token "FAILED" (failure "source comparison failed: " e) ∅
      else if (0 <? CompareResult_Behind v)%Z
      then finish op token "BLOCKED" "source branch is behind configured base; update it explicitly before deployment" ∅
      else try (capture_revision op snap base head (CompareResult_Commits v) token) (fun snap => preflight_gitops op snap head workflow token).

(** *** DISPATCH *)
Definition queued_run (id : Z) : RunResult := (zero : RunResult) <| RunResult_Found := true |> <| RunResult_ID := id |> <| RunResult_Status := "queued" |>.
Definition dispatch_build op snap token : Prog (res unit) :=
  try (save op token "BUILD_LOOKUP" "BUILDING" "dispatch intent committed" ∅ false) (fun _ =>
  '(dispatched, e) ← ask (Dispatch (DeliverySnapshot_SourceConnection snap) (DeliverySnapshot_BuildRequest snap));
  let op := if (0 <? DispatchResult_ProviderRunID dispatched)%Z
            then op <| ExternalOperation_Run := Some (queued_run (DispatchResult_ProviderRunID dispatched)) |> else op in
  advance op token "BUILD_LOOKUP" "BUILDING"
    (match e with
     | Some e => "dispatch outcome uncertain; discovering existing run only: " +:+ e
     | None => "workflow dispatch accepted; awaiting correlated run"
     end) ∅).

(** *** BUILD_LOOKUP *)
Definition reported (run : RunResult) (key : string) : string := default "" (RunResult_Artifacts run !! key).
Definition build_report op snap (run : RunResult) token : Prog (res unit) :=
  let digest := reported run "digest" in
  if negb (validArtifactDigest digest) || (reported run "source_sha" != head_of snap) || (reported run "image_repository" != image_of snap)
  then finish op token "BLOCKED" "build report lacks exact source, image repository or digest proof" ∅
  else if (ExternalOperation_ExpectedDigest op != "") && (ExternalOperation_ExpectedDigest op != digest)
  then finish op token "BLOCKED" "build produced a different digest; explicit replacement operation required" ∅
  else advance (op <| ExternalOperation_ExpectedDigest := digest |>) token "INSPECT" "WAITING_FOR_ARTIFACT"
         "build succeeded; inspect immutable artifact" (one "run_url" (RunResult_URL run)).
Definition build_lookup op snap token : Prog (res unit) :=
  '(run, e) ← ask (FindRun (DeliverySnapshot_SourceConnection snap) (DeliverySnapshot_BuildRequest snap));
  if is_some e then retry op token (failure "build lookup failed: " e)
  else if negb (RunResult_Found run) then
    w ← effect Fresh;
    if (15 * minute <? now "lookup" 0 - BuildRequest_RequestedAt (DeliverySnapshot_BuildRequest snap))%Z
    then finish op token "BLOCKED" "no correlated workflow run found; dispatch will not be repeated automatically" ∅
    else retry op token "waiting for correlated workflow run"
  else
    let op := op <| ExternalOperation_Run := Some run |> in
    if (RunResult_HeadSHA run != "") && (RunResult_HeadSHA run != BuildRequest_WorkflowSHA (DeliverySnapshot_BuildRequest snap))
    then finish op token "BLOCKED" "workflow definition commit differs from pinned trusted ref" ∅
    else if RunResult_Status run != "completed" then retry op token ("workflow " +:+ RunResult_Status run)
    else if RunResult_Conclusion run != "success"
    then finish op token "FAILED" ("workflow completed: " +:+ RunResult_Conclusion run) (one "run_url" (RunResult_URL run))
    else build_report op snap run token.

(** *** INSPECT *)
Definition inspect_request op snap : ArtifactRequest :=
  let request := BuildRequest_Repository (DeliverySnapshot_BuildRequest snap) in
  match ExternalOperation_ExistingArtifact op, ExternalOperation_Run op with
  | Some known, _ =>
    mkArtifactRequest (BuildRequest_Repository (DeliveryArtifact_BuildRequest known)) (DeliveryArtifact_BuildRunID known)
      (BuildRequest_OperationID (DeliveryArtifact_BuildRequest known)) (DeliveryArtifact_SourceCommit known) (image_of snap)
      (DeliveryArtifact_Tag known) (ExternalOperation_ExpectedDigest op) ""
  | None, Some run =>
    mkArtifactRequest request (RunResult_ID run) (BuildRequest_OperationID (DeliverySnapshot_BuildRequest snap)) (head_of snap) (image_of snap)
      (BuildRequest_ImageTag (DeliverySnapshot_BuildRequest snap)) (ExternalOperation_ExpectedDigest op) ""
  | None, None =>
    mkArtifactRequest "" 0 "" "" (image_of snap) (BuildRequest_ImageTag (DeliverySnapshot_BuildRequest snap)) (ExternalOperation_ExpectedDigest op) ""
  end.
Definition inspected_artifact op snap : Prog (ArtifactResult * option string) :=
  if native_build snap then
    r ← inspectNativeArtifact op;
    match r with Ok a => Ret (a, None) | Err e => Ret (zero : ArtifactResult, Some (error_text e)) end
  else ask (InspectArtifact (DeliverySnapshot_SourceConnection snap) (inspect_request op snap)).
(** The member of an activation also rereads its baseline. *)
Definition inspect_member op snap (c : DevActivationComponent) (ready : ExternalOperation -> Prog (res unit)) token : Prog (res unit) :=
  '(base, e) ← ask (ReadGitOps (DeliverySnapshot_GitOpsConnection snap) (DevActivationComponent_Selector c));
  if is_some e then retry op token "candidate Dev GitOps read failed"
  else if (GitOpsSnapshot_HeadSHA base == "") || (GitOpsSnapshot_BlobSHA base == "")
  then finish op token "BLOCKED" "candidate Dev GitOps base evidence missing" ∅
  else if negb (selected_baseline c (GitOpsSnapshot_HeadSHA base) base) then finish op token "BLOCKED" "candidate Dev baseline blob changed" ∅
  else ready (op <| ExternalOperation_GitOpsBase := Some (base <| GitOpsSnapshot_Content := "" |>) |>).
Definition inspect_activated (st : State) op snap (ready : ExternalOperation -> Prog (res unit)) token : Prog (res unit) :=
  match devActivationParent st op with
  | None => ready op
  | Some parent =>
    source ← verifyNativeSource op;
    match source with
    | Err e => finish op token "BLOCKED" (error_text e) ∅
    | Ok _ =>
      match ExternalOperation_DevActivation parent with
      | None => check (Err ErrPanic)
      | Some p =>
        match activationComponent p (ID op) with
        | None => finish op token "BLOCKED" "group member missing" ∅
        | Some c => inspect_member op snap c ready token
        end
      end
    end
  end.
Definition inspect (st : State) op snap token : Prog (res unit) :=
  '(artifact, e) ← inspected_artifact op snap;
  if is_some e then
    if is_some (ExternalOperation_ExistingArtifact op)
    then finish op token "BLOCKED" (failure "selected artifact unavailable or registry evidence expired; no build dispatched: " e) ∅
    else retry op token (failure "artifact inspection failed: " e)
  else if negb (ArtifactResult_Available artifact) || (ArtifactResult_Digest artifact == "") then
    try (recordArtifactObservation op "MISSING" artifact) (fun _ =>
    finish op token "BLOCKED" "artifact is missing; rebuild requires a new operation with explicit intent" ∅)
  else if negb (validArtifactDigest (ArtifactResult_Digest artifact)) || IsZero (ArtifactResult_ObservedAt artifact)
  then finish op token "BLOCKED" "artifact observation lacks exact digest or timestamp" ∅
  else if (ExternalOperation_ExpectedDigest op != "") && (ArtifactResult_Digest artifact != ExternalOperation_ExpectedDigest op)
  then finish op token "BLOCKED" "artifact digest differs; a new approved operation is required" ∅
  else inspect_activated st (op <| ExternalOperation_Artifact := Some artifact |>) snap (fun op =>
         advance op token "APPLY" "ARTIFACT_READY" "artifact digest observed; GitOps update pending" (one "digest" (ArtifactResult_Digest artifact))) token.

(** *** APPLY and APPLY_UNCERTAIN *)
Definition destination_unchanged (st : State) op snap : bool :=
  target_unchanged st op snap
  && match environmentByID st (ExternalOperation_EnvironmentID op) with
     | Some e => (Environment_Cluster e == Environment_Cluster (DeliverySnapshot_Environment snap))
                 && (Environment_Namespace e == Environment_Namespace (DeliverySnapshot_Environment snap))
     | None => false
     end.
Definition write_gitops op snap (apply : GitOpsApply) token : Prog (res unit) :=
  if EnvironmentBinding_GitOpsMode (DeliverySnapshot_Target snap) == "PR" then proposeGitOpsPR op snap apply token
  else
    '(applied, e) ← ask (ApplyGitOps (DeliverySnapshot_GitOpsConnection snap) apply);
    if is_some e then advance op token "APPLY_UNCERTAIN" "GITOPS_PENDING" (failure "GitOps outcome uncertain; reread before retry: " e) ∅
    else if GitOpsResult_CommitSHA applied == "" then finish op token "BLOCKED" "GitOps provider returned no commit evidence" ∅
    else finish (op <| ExternalOperation_GitOpsResult := Some applied |>) token "GITOPS_APPLIED"
           "PENDING_RECONCILIATION: GitOps committed; Flux and runtime are not observed"
           (two "commit" (GitOpsResult_CommitSHA applied) "digest" (GitOpsApply_Digest apply)).
Definition is_validation (e : Error) : bool := match e with ErrValidation _ _ => true | _ => false end.
(** The intent is committed before anything is written. *)
Definition commit_intent op snap (base : GitOpsSnapshot) (artifact : ArtifactResult) token : Prog (res unit) :=
  committed ← save op token "APPLY_UNCERTAIN" "GITOPS_PENDING" "GitOps CAS intent committed" ∅ false;
  match committed with
  | Err e => if is_validation e then finish op token "CANCELLED" (error_text e) ∅ else check (Err e)
  | Ok _ => write_gitops op snap (gitOpsPRApply op snap base artifact) token
  end.
Definition compare_gitops op snap (base : GitOpsSnapshot) (artifact : ArtifactResult) token : Prog (res unit) :=
  '(current, e) ← ask (ReadGitOps (DeliverySnapshot_GitOpsConnection snap) (DeliverySnapshot_GitOpsRequest snap));
  if is_some e then retry op token (failure "GitOps read failed: " e)
  else if (GitOpsSnapshot_Digest current == ArtifactResult_Digest artifact) && (GitOpsSnapshot_ImageRepository current == image_of snap) then
    finish (op <| ExternalOperation_GitOpsResult := Some (mkGitOpsResult (GitOpsSnapshot_HeadSHA current) (GitOpsSnapshot_BlobSHA current) "" true) |>)
      token "GITOPS_APPLIED" "PENDING_RECONCILIATION: desired digest is in GitOps; Flux and runtime are not observed"
      (two "commit" (GitOpsSnapshot_HeadSHA current) "digest" (ArtifactResult_Digest artifact))
  else if ((ExternalOperation_ParentID op == "") && (GitOpsSnapshot_HeadSHA current != GitOpsSnapshot_HeadSHA base))
          || (GitOpsSnapshot_BlobSHA current != GitOpsSnapshot_BlobSHA base)
  then finish op token "BLOCKED" "GitOps changed since planning; create a new operation" ∅
  else
    let base := base <| GitOpsSnapshot_HeadSHA := GitOpsSnapshot_HeadSHA current |> in
    commit_intent (op <| ExternalOperation_GitOpsBase := Some base |>) snap base artifact token.
Definition apply_gitops op snap token : Prog (res unit) :=
  source ← (if native_build snap then verifyNativeSource op else Ret (Ok ()));
  match source with
  | Err e => finish op token "BLOCKED" (error_text e) ∅
  | Ok _ =>
    promotion ← (if ExternalOperation_ParentID op != "" then verifyPromotionSource op else Ret (Ok ()));
    match promotion with
    | Err e => finish op token "BLOCKED" (error_text e) ∅
    | Ok _ =>
      try service_state (fun st =>
      if negb (destination_unchanged st op snap) then finish op token "BLOCKED" "environment target or policy changed; create a new operation" ∅
      else match ExternalOperation_Artifact op, ExternalOperation_GitOpsBase op with
      | Some artifact, Some base => compare_gitops op snap base artifact token
      | _, _ => finish op token "FAILED" "missing pinned artifact/GitOps base" ∅
      end)
    end
  end.

(** *** A step of a deployment *)
Definition tick_phase (st : State) op snap token : Prog (res unit) :=
  if ExternalOperation_Phase op == "WAIT_GITOPS_PR" then waitGitOpsPR op snap token
  else if ExternalOperation_Phase op == "PROMOTION_PREFLIGHT" then promotion_preflight op snap token
  else if ExternalOperation_Phase op == "PREFLIGHT" then preflight op snap token
  else if ExternalOperation_Phase op == "DISPATCH" then dispatch_build op snap token
  else if ExternalOperation_Phase op == "BUILD_LOOKUP" then build_lookup op snap token
  else if ExternalOperation_Phase op == "INSPECT" then inspect st op snap token
  else if contains ["APPLY"; "APPLY_UNCERTAIN"] (ExternalOperation_Phase op) then
    if activated_child st op then applyDevActivation op token else apply_gitops op snap token
  else finish op token "FAILED" "unknown operation phase" ∅.
Definition native_artifact_fence `{World} (st : State) op snap : res unit :=
  match ExternalOperation_ExistingArtifact op with
  | None => Ok ()
  | Some known =>
    _ ← require match DeliveryArtifact_Native known with
                | Some n => NativeArtifact_Profile n == ComponentBuild_Profile (DeliverySnapshot_Build snap)
                | None => false
                end "native profile mismatch";
    _ ← validatedExistingArtifact st (ID known) (ProductID op) (ExternalOperation_ApplicationID op)
          (IntegrationRevision_RepositoryID (DeliverySnapshot_Revision snap)) (head_of snap) (image_of snap);
    Ok ()
  end.
(** A blocked native delivery ends with the text of the error, without its
    sentinel for the one the tick states itself. *)
Definition fence_text (e : Error) : string :=
  match e with ErrValidation "native profile mismatch" [] => "native profile mismatch" | _ => error_text e end.
Definition native_phase op snap token (otherwise : Prog (res unit)) : Prog (res unit) :=
  try (effect Read) (fun st =>
  w ← effect Fresh;
  match nativeDeliveryAllowed st (Some op) with
  | Err e => finish op token "BLOCKED" (error_text e) ∅
  | Ok _ =>
    if is_some (ExternalOperation_Native op) && (ExternalOperation_Phase op == "NATIVE_BUILD") then tickNativeDelivery op token
    else if (negb (is_some (ExternalOperation_Native op)) && negb (is_some (ExternalOperation_ExistingArtifact op)))
            || contains ["DISPATCH"; "BUILD_LOOKUP"; "PROMOTION_PREFLIGHT"] (ExternalOperation_Phase op)
    then finish op token "BLOCKED" "native automatic binding or exact existing artifact required" ∅
    else match native_artifact_fence st op snap with
         | Err e => finish op token "BLOCKED" (fence_text e) ∅
         | Ok _ => otherwise
         end
  end).
Definition ready_phase (st : State) op snap token : Prog (res unit) :=
  if ComponentKind (DeliverySnapshot_Application snap) != "APPLICATION"
  then finish op token "BLOCKED" "library components use publication, not environment deployment" ∅
  else
    child ← (if ExternalOperation_ParentID op == "" then Ret (inr (Ok ()))
             else r ← service_state;
                  match r with
                  | Err e => Ret (inl e)
                  | Ok seen => w ← effect Fresh; Ret (inr (service_flowChildAllowed seen op))
                  end);
    match child with
    | inl e => check (Err e)
    | inr (Err e) => finish op token "CANCELLED" (error_text e) ∅
    | inr (Ok _) =>
      if ExternalOperation_BuildOnly op && (ExternalOperation_Phase op == "APPLY")
      then finish op token "ARTIFACT_READY" "main artifact ready; candidate verification required before any production deployment" ∅
      else tick_phase st op snap token
    end.
Definition tick_deploy op token : Prog (res unit) :=
  match ExternalOperation_Snapshot op with
  | None => finish op token "FAILED" "invalid operation snapshot" ∅
  | Some snap =>
    try (effect Read) (fun st =>
    match reservationOperationAllowed st op with
    | Err e => finish op token "BLOCKED" (error_text e) ∅
    | Ok _ => if native_build snap then native_phase op snap token (ready_phase st op snap token) else ready_phase st op snap token
    end)
  end.

(** ** Managed branches — managed_branch.go *)
Definition branch_scope (st : State) op (source : FlowSource) : option RepositoryBinding :=
  match repositoryBinding st (FlowSource_RepositoryID source), integration st (ExternalOperation_IntegrationID op) with
  | Some binding, Some inn =>
    if (Integration_Status inn != "released") && (ProductID inn == ProductID op) && contains (Integration_Repositories inn) (FlowSource_RepositoryID source)
    then Some binding else None
  | _, _ => None
  end.
Definition branch_connection (st : State) op (source : FlowSource) (binding : RepositoryBinding) : bool :=
  match scopedConnection st (RepositoryBinding_ConnectionID binding) (ProductID op) with
  | Ok conn => (GitHubConnection_Config conn == FlowSource_Connection source) && (repositoryLocator st binding == SourcePlan_Repository (FlowSource_Plan source))
               && (configuredBase binding == SourcePlan_BaseRef (FlowSource_Plan source))
  | Err _ => false
  end.
Definition bound_event `{World} op (inn : Integration) : Event :=
  (zero : Event) <| Event_ID := fresh "bind" 0 |> <| Event_Action := "integration_branch_bound" |> <| Event_Actor := ExternalOperation_RequestedBy op |>
    <| Event_At := now "bind" 0 |> <| Event_EntityID := ID inn |> <| Event_ProductID := ProductID inn |> <| Event_FeatureID := FeatureID inn |>.
Definition bind_tx `{World} op token (source : FlowSource) (st : State) : res State :=
  match operationByID st (ID op) with
  | None => plain "operation lease lost"
  | Some current =>
    _ ← reject_if (ExternalOperation_LeaseOwner current != token) (plain "operation lease lost");
    match integration st (ExternalOperation_IntegrationID op) with
    | None => invalid "integration unavailable" []
    | Some inn =>
      _ ← reject_if (ProductID inn != ProductID op) (invalid "integration unavailable" []);
      match find_first (fun b => Branch_RepositoryID b == FlowSource_RepositoryID source) (Integration_Branches inn) with
      | Some b => if Branch_Name b == SourcePlan_TargetBranch (FlowSource_Plan source) then Ok st else invalid "integration binding changed" []
      | None =>
        let bound := mkBranch (FlowSource_RepositoryID source) (SourcePlan_TargetBranch (FlowSource_Plan source)) in
        let st := st <| State_Integrations ::= update_first (has_id (ID inn)) (fun v => v <| Integration_Branches ::= fun l => l ++ [bound] |>
                    <| Integration_Meta ::= fun m => m <| Meta_UpdatedAt := now "bind" 0 |> |>) |> in
        Ok (st <| State_Events ::= fun l => l ++ [bound_event op inn] |>)
      end
    end
  end.
Definition ensure_branch op (source : FlowSource) token : Prog (res unit) :=
  let plan := FlowSource_Plan source in
  '(sha, e) ← ask (EnsureRef (FlowSource_Connection source) (SourcePlan_Repository plan) (SourcePlan_TargetBranch plan) (SourcePlan_BaseSHA plan));
  if is_some e then finish op token "FAILED" (default "" e) ∅
  else if sha != SourcePlan_BaseSHA plan then finish op token "FAILED" "provider returned wrong source identity" ∅
  else
    bound ← (if ExternalOperation_Kind op == "CREATE_BRANCH" then transact (fun w _ st => bind_tx op token source st) else Ret (Ok ()));
    match bound with
    | Err e => finish op token "BLOCKED" (error_text e) ∅
    | Ok _ => finish op token "SUCCEEDED" "managed ref created and exact SHA verified; no history rewritten"
                (two "branch" (SourcePlan_TargetBranch plan) "source_sha" sha)
    end.
Definition create_from_base op (source : FlowSource) token : Prog (res unit) :=
  let plan := FlowSource_Plan source in
  if ExternalOperation_Kind op != "CREATE_BRANCH" then ensure_branch op source token
  else
    '(branches, e) ← ask (Branches (FlowSource_Connection source) (SourcePlan_Repository plan));
    if is_some e then finish op token "FAILED" (default "" e) ∅
    else if negb (existsb (fun b => (BranchInfo_Name b == SourcePlan_BaseRef plan) && (BranchInfo_SHA b == SourcePlan_BaseSHA plan)) branches)
    then finish op token "BLOCKED" "base moved; request branch from current main commit" ∅
    else ensure_branch op source token.
Definition tickManagedBranch op token : Prog (res unit) :=
  match ExternalOperation_Sources op with
  | [source] =>
    if negb ref_provider then finish op token "BLOCKED" "provider cannot create managed refs" ∅
    else try service_state (fun st =>
      match branch_scope st op source with
      | None => finish op token "BLOCKED" "source scope changed" ∅
      | Some binding =>
        if negb (branch_connection st op source binding) then finish op token "BLOCKED" "connection changed" ∅
        else create_from_base op source token
      end)
  | _ => finish op token "BLOCKED" "provider cannot create managed refs" ∅
  end.
End operations.

(** ** A tick *)
(** The kinds that are handed over, and their steps; those of compositions and
    releases are in FlowWorker.v. *)
Definition other_kinds : list string :=
  [IntelligenceOperationKind; "CHECK_PUBLICATION"; "REFRESH_RUNTIME"; "REFRESH_GIT"; "REFRESH_REPOSITORY_GIT"; "DEV_CANDIDATE_RESTORATION";
   "DEV_RESTORATION_VERIFICATION"; devBaselineKind; devRuntimeKind; "COMPOSE"; "RELEASE_CANDIDATE"; "RELEASE_PROMOTION"].
Class OtherSteps := { other_step : ExternalOperation -> string -> Prog (res unit) }.
Section tick.
Context `{Runtime, NetURL, Upper, MapOrder, URLs, Hashing, Encoding, RestorationEvidence, Operator, Baselines, ComposeLease, Capabilities,
  Analyst, OtherSteps}.
Definition tick_claimed (op : ExternalOperation) (token : string) : Prog (res unit) :=
  if contains other_kinds (ExternalOperation_Kind op) then other_step op token
  else if contains ["CREATE_BRANCH"; "PIN_REVISION"] (ExternalOperation_Kind op) then tickManagedBranch op token
  else if ExternalOperation_Kind op == devActivationKind then tickDevActivation op token
  else if ExternalOperation_Kind op == "DEPLOY" then tick_deploy op token
  else finish op token "FAILED" "invalid operation snapshot" ∅.
(** Whether anything was claimed, and the error of the tick. *)
Definition Tick : Prog (res bool) :=
  if negb (provider_configured || runtime_observers || is_some intelligence_timeout) then Ret (Ok false)
  else
    w ← effect Fresh;
    let token := fresh "token" 0 in
    try (effect (Update (fun _ _ st => Ok (claim_tx (now "Tick" 0) token st)))) (fun op =>
    match op with
    | None => Ret (Ok false)
    | Some op => try (tick_claimed op token) (fun _ => Ret (Ok true))
    end).
End tick.
