(* ===== verification/OperationSafety.v ===== *)
(** * What the worker of operations may do

    The programs of the worker follow two protocols.  The first is about
    builds: whatever the interleaving of workers, crashes, lost replies and
    other commands, a build is dispatched at most once for an operation.  The
    second is about GitOps: what is written is what a committed intent of the
    same worker records. *)
From S2P Require Import Prelude GoText GoJson Delivery Domain Status Planning Handlers DeviceAuth Collections ExternalSystems Reservation Composition Conflicts Scenarios Pins WorkerAuth WorkerJobs Publications Registry Restoration Checks WorkerProtocol External Candidates Activation FlowGuards Effects Saving SourceChecks ActivationWorker NativeWorker Operations.
Open Scope string_scope.
Open Scope list_scope.

(** ** Reading programs *)
Ltac harmless_step :=
  match goal with
  | |- True => exact I
  | |- harmless (Ret _) => exact I
  | |- harmless (check _) => exact I
  | |- harmless (ask _) => split; [reflexivity|intros ?; exact I]
  | |- harmless (effect _) => split; [exact I|intros ?; exact I]
  | |- harmless (loop _ _ _) => apply harmless_loop; intros
  | |- harmless (try _ _) => apply harmless_try; [|intros]
  | |- harmless (_ ≫= _) => apply harmless_bind; [|intros]
  | |- harmless (match ?x with _ => _ end) => destruct x
  | |- harmless (let _ := _ in _) => cbv zeta
  end.
Ltac harmless_prog := repeat (first [solve [auto with harmless]|harmless_step]).
Create HintDb harmless.

Section reading.
Context `{Runtime, NetURL, Upper, MapOrder, URLs, Hashing, Encoding, RestorationEvidence, Operator, Baselines, ComposeLease, Capabilities}.
Lemma harmless_state : harmless service_state.
Proof using Type. unfold service_state. harmless_prog. Qed.
#[local] Hint Resolve harmless_state : harmless.
Lemma harmless_ancestor snap base head : harmless (is_ancestor snap base head).
Proof using Type. unfold is_ancestor. harmless_prog. Qed.
#[local] Hint Resolve harmless_ancestor : harmless.
Lemma harmless_observe initial op : harmless (observe_candidate initial op).
Proof using Type. unfold observe_candidate, observe_source, observe_revision. harmless_prog. Qed.
#[local] Hint Resolve harmless_observe : harmless.
Lemma harmless_reobserve op : harmless (reobserve op).
Proof using Type. unfold reobserve. harmless_prog. Qed.
#[local] Hint Resolve harmless_reobserve : harmless.
Lemma harmless_native op : harmless (verifyNativeSource op).
Proof using Type. unfold verifyNativeSource, native_branches. harmless_prog. Qed.
Lemma harmless_promotion op : harmless (verifyPromotionSource op).
Proof using Type. unfold verifyPromotionSource. harmless_prog. Qed.
Lemma harmless_inspect op : harmless (inspectNativeArtifact op).
Proof using Type. unfold inspectNativeArtifact. harmless_prog. Qed.
Lemma harmless_lease op : harmless (validateDevActivationIO op).
Proof using Type. unfold validateDevActivationIO. harmless_prog. Qed.
Lemma harmless_group op : harmless (activationGroupState op).
Proof using Type. unfold activationGroupState. harmless_prog. Qed.
#[local] Hint Resolve harmless_native harmless_promotion harmless_inspect harmless_lease harmless_group : harmless.
Lemma harmless_baseline op : harmless (recheckActivationBaseline op).
Proof using Type. unfold recheckActivationBaseline, reread_captured, reread_common. harmless_prog. Qed.
Lemma harmless_prepare op st p g acc id : harmless (prepare_member op st p g acc id).
Proof using Type. unfold prepare_member. harmless_prog. Qed.
Lemma harmless_reread g head same v : harmless (reread_member g head same v).
Proof using Type. unfold reread_member. harmless_prog. Qed.
Lemma harmless_merged p g head url acc id : harmless (merged_member p g head url acc id).
Proof using Type. unfold merged_member. harmless_prog. Qed.
Lemma harmless_inspected op snap : harmless (inspected_artifact op snap).
Proof using Type. unfold inspected_artifact. harmless_prog. Qed.
End reading.
#[export] Hint Resolve harmless_state harmless_native harmless_promotion harmless_inspect harmless_lease harmless_group harmless_baseline
  harmless_prepare harmless_reread harmless_merged harmless_inspected harmless_reobserve : harmless.

(** ** Phases and leases *)
(** The phases that come before a build is dispatched. *)
Definition undispatched (phase : string) : bool := contains ["PREFLIGHT"; "PROMOTION_PREFLIGHT"; "DISPATCH"] phase.
Definition lease_view (st : State) (o : string) : option (string * string) :=
  (fun v => (ExternalOperation_Phase v, ExternalOperation_LeaseOwner v)) <$> operationByID st o.
(** A lease is kept or given up, and no operation goes back before its dispatch. *)
Definition view_kept (before : option (string * string)) (after : option (string * string)) : Prop :=
  match after, before with
  | None, _ => True
  | Some (ph', ow'), Some (ph, ow) => (ow' = ow \/ ow' = "") /\ (undispatched ph' = true -> undispatched ph = true)
  | Some (ph', ow'), None => ow' = "" /\ undispatched ph' = false
  end.
Definition Undisturbed (st st' : State) : Prop := forall o, view_kept (lease_view st o) (lease_view st' o).
#[export] Instance view_kept_refl : Reflexive view_kept.
Proof. intros x. destruct x as [[ph ow]|]; cbn; auto. Qed.
(** An operation that is removed does not come back in the same transaction. *)
Definition Present (st st' : State) : Prop := forall o, is_some (lease_view st o) = true -> is_some (lease_view st' o) = true.
Definition Careful (st st' : State) : Prop := Undisturbed st st' /\ Present st st'.
#[export] Instance Careful_preorder : PreOrder Careful.
Proof.
  split; [intros st; split; [intros o; reflexivity|intros o; auto]|].
  intros a b c [U1 P1] [U2 P2]. split; [|intros o Ho; auto]. intros o. specialize (U1 o). specialize (U2 o). specialize (P1 o). unfold view_kept in *.
  destruct (lease_view c o) as [[ph3 ow3]|]; [|exact I]. destruct (lease_view b o) as [[ph2 ow2]|].
  - destruct U2 as [U2 V2]. destruct (lease_view a o) as [[ph1 ow1]|].
    + destruct U1 as [U1 V1]. split; [|auto]. destruct U2 as [->| ->]; [exact U1|right; reflexivity].
    + destruct U1 as [-> V1]. split; [destruct U2 as [->| ->]; reflexivity|]. destruct (undispatched ph3); [rewrite V2 in V1 by reflexivity; discriminate|reflexivity].
  - destruct (lease_view a o); [|exact U2]. specialize (P1 eq_refl). discriminate.
Qed.
Lemma careful_ops st st' : State_Operations st' = State_Operations st -> Careful st st'.
Proof. intros E. split; intros o; unfold lease_view, operationByID; rewrite E; [reflexivity|auto]. Qed.
(** An update of one operation that keeps its identity. *)
Definition gentle (f : ExternalOperation -> ExternalOperation) : Prop := forall v,
  ID (f v) = ID v /\ (ExternalOperation_LeaseOwner (f v) = ExternalOperation_LeaseOwner v \/ ExternalOperation_LeaseOwner (f v) = "")
  /\ (undispatched (ExternalOperation_Phase (f v)) = true -> undispatched (ExternalOperation_Phase v) = true).
Lemma find_updated (p : ExternalOperation -> bool) f o l : (forall v, ID (f v) = ID v) ->
  match find_first (has_id o) (update_first p f l), find_first (has_id o) l with
  | Some y, Some x => y = x \/ y = f x
  | None, None => True
  | _, _ => False
  end.
Proof.
  intros Hf. induction l as [|x l IH]; [exact I|].
  assert (E : has_id o (f x) = has_id o x) by (unfold has_id; rewrite Hf; reflexivity).
  cbn. destruct (p x); cbn; [rewrite E|]; destruct (has_id o x); auto. destruct (find_first (has_id o) l); auto.
Qed.
Lemma careful_update (p : ExternalOperation -> bool) f st : gentle f -> Careful st (st <| State_Operations ::= update_first p f |>).
Proof.
  intros Hf. split; intros o; pose proof (find_updated p f o (State_Operations st) (fun v => proj1 (Hf v))) as Hu;
    unfold lease_view, operationByID; cbn;
    destruct (find_first (has_id o) (update_first p f (State_Operations st))), (find_first (has_id o) (State_Operations st)); cbn; try contradiction; auto.
  destruct Hu as [->| ->]; [auto|]. destruct (Hf e0) as (_ & Ho & Hb). auto.
Qed.
Lemma careful_append v st : ExternalOperation_LeaseOwner v = "" -> undispatched (ExternalOperation_Phase v) = false ->
  Careful st (st <| State_Operations ::= fun l => l ++ [v] |>).
Proof.
  intros Ho Hb. split; intros o; unfold lease_view, operationByID; cbn; rewrite find_first_app;
    (destruct (find_first (has_id o) (State_Operations st)); [cbn; auto|cbn; case_match; cbn; auto]).
Qed.

(** *** The transactions that do not save *)
Create HintDb careful.
Create HintDb keeps.
Ltac gentle := try (intros ?); repeat split; first [reflexivity | left; reflexivity | right; reflexivity | (intros E; exact E) | discriminate].
Lemma careful_trans a b c : Careful a b -> Careful b c -> Careful a c.
Proof. intros. etransitivity; eassumption. Qed.
Lemma careful_set o f st : gentle f -> Careful st (set_operation o f st).
Proof. apply careful_update. Qed.
Lemma careful_job i j st : Careful st (set_job i j st).
Proof. apply careful_ops. reflexivity. Qed.
Lemma careful_settle j status t st : Careful st (settle_current j status t st).
Proof. unfold settle_current. destruct (currentWorkerAttempt st j); [apply careful_ops; reflexivity|reflexivity]. Qed.
#[export] Hint Resolve careful_job careful_settle : careful.

Section transactions.
Context `{World}.
Lemma audited_facts j t v : ID (audited_operation j t v) = ID v /\ ExternalOperation_LeaseOwner (audited_operation j t v) = ""
  /\ ExternalOperation_Phase (audited_operation j t v) = "EXTERNAL_" +:+ WorkerJob_Status j.
Proof using Type. unfold audited_operation. cbv zeta. destruct (bool_decide (WorkerJob_Status j = "RECONCILIATION_REQUIRED")); repeat split. Qed.
Lemma external_dispatched s : undispatched ("EXTERNAL_" +:+ s) = false.
Proof using Type. apply bool_decide_eq_false. cbn. rewrite !elem_of_cons, elem_of_nil. intuition discriminate. Qed.
Lemma careful_audit i actor action t st : Careful st (workerAudit i actor action t st).
Proof using Type.
  unfold workerAudit. destruct (job_at st i) as [j|]; [|reflexivity]. eapply careful_trans; [|apply careful_update].
  - apply careful_ops. reflexivity.
  - intros v. match goal with |- context [audited_operation ?j t v] => destruct (audited_facts j t v) as (-> & -> & ->) end.
    split; [reflexivity|]. split; [right; reflexivity|]. rewrite external_dispatched. discriminate.
Qed.
#[local] Hint Resolve careful_audit : careful.
Lemma careful_recover i t st : Careful st (recoverWorker i t st).
Proof using Type.
  unfold recoverWorker. destruct (job_at st i) as [j|]; [|reflexivity]. destruct (workerTerminal _ || _); [reflexivity|].
  destruct (negb _ || _); [|reflexivity]. cbv zeta.
  eapply careful_trans; [|apply careful_audit]. eapply careful_trans; [|apply careful_settle]. apply careful_job.
Qed.
Lemma careful_stop_job i t st : Careful st (stop_job i t st).
Proof using Type. unfold stop_job. destruct (job_at st i); [|reflexivity]. eapply careful_trans; [apply careful_job|apply careful_settle]. Qed.
Lemma careful_stop_managed t st id : Careful st (stop_managed_job t st id).
Proof using Type.
  unfold stop_managed_job. destruct (job_index st id) as [i|]; [|reflexivity]. destruct (job_at st i) as [j|]; [|reflexivity].
  destruct (workerTerminal _); [reflexivity|]. eapply careful_trans; [apply careful_stop_job|apply careful_audit].
Qed.
Lemma careful_stop o status detail t st : Careful st (stopNativeDelivery o status detail t st).
Proof using Type.
  unfold stopNativeDelivery. cbv zeta.
  apply careful_trans with (st <| State_Operations ::= update_first (has_id o) (stopped_operation status detail t) |>); [apply careful_update|].
  - intros v. unfold stopped_operation. destruct (bool_decide (status = "BLOCKED")); gentle.
  - destruct (operationByID _ o) as [v|]; [|reflexivity]. destruct (ExternalOperation_Native v); [|reflexivity]. cbn.
    eapply careful_trans; apply careful_stop_managed.
Qed.
End transactions.
#[export] Hint Resolve careful_audit careful_recover careful_stop : careful.

Section steps.
Context `{Runtime, NetURL, Upper, MapOrder, URLs, Hashing, Encoding, RestorationEvidence, Operator, Baselines, ComposeLease, Capabilities}.
Implicit Types (st : State) (op : ExternalOperation).

Lemma careful_check `{World} w b st st' i : queueWorkerCheck w b st i = Ok st' -> Careful st st'.
Proof using Type.
  unfold queueWorkerCheck. destruct (job_index st i) as [k|]; [|discriminate]. destruct (job_at st k) as [j|]; [|discriminate].
  destruct (WorkerInputs_Check _) as [c|]; [|intros [= <-]; reflexivity].
  intros (u1 & _ & Hq)%bind_Ok. apply bind_Ok in Hq as ([[source conn] physical] & _ & Hq). apply bind_Ok in Hq as (u2 & _ & Hq).
  apply bind_Ok in Hq as (u3 & _ & Hq). apply bind_Ok in Hq as (u4 & _ & Hq).
  destruct (operationByID st (WorkerJob_OperationID j)) as [parent|]; [|discriminate]. apply bind_Ok in Hq as (u5 & _ & [= <-]).
  eapply careful_trans; [|apply careful_append; reflexivity]. eapply careful_trans; [|apply careful_update; gentle].
  apply careful_job.
Qed.
Section native.
Context `{World} (op : ExternalOperation).
Lemma careful_append_job parent n inputs capability key st st' job : append_job parent n inputs capability key st = Ok (st', job) -> Careful st st'.
Proof using Type.
  unfold append_job. destruct externalWorkers as [w|]; [|discriminate]. intros (st1 & Hq & [= <- _])%bind_Ok. apply careful_check in Hq.
  eapply careful_trans; [|apply careful_audit]. eapply careful_trans; [|exact Hq].
  eapply careful_trans; [apply (careful_append (native_operation parent inputs)); reflexivity|]. apply careful_ops. reflexivity.
Qed.
Lemma careful_queue_build parent n snap st st' : queue_build op parent n snap st = Ok st' -> Careful st st'.
Proof using Type.
  intros ([b p] & _ & Hq)%bind_Ok. apply bind_Ok in Hq as ([st1 job] & Hq%careful_append_job & [= <-]).
  eapply careful_trans; [exact Hq|]. apply careful_set. gentle.
Qed.
Lemma careful_stopped detail st : Careful st (native_stop op detail st).
Proof using Type. apply careful_stop. Qed.
Lemma careful_adopt parent snap job st r : adopt_artifact op parent snap job st = Ok r -> Careful st r.1.
Proof using Type.
  unfold adopt_artifact. destruct (find_first _ _); [|intros [= <-]; reflexivity]. intros (known & _ & [= <-])%bind_Ok. apply careful_set. gentle.
Qed.
Lemma careful_await b st : Careful st (await_check op b st).1.
Proof using Type.
  unfold await_check. destruct (operationByID _ _) as [c|]; [destruct (terminalOperation _)|]; cbn;
    first [apply careful_stopped|apply careful_set; gentle].
Qed.
Lemma careful_publication parent n snap st r : watch_publication op parent n snap st = Ok r -> Careful st r.1.
Proof using Type.
  unfold watch_publication. destruct (job_index _ _) as [i|]; [|discriminate]. cbv zeta. destruct (job_at _ i) as [job|]; [|discriminate].
  destruct (_ == _); [intros Hr%careful_adopt; eapply careful_trans; [apply careful_recover|exact Hr]|].
  destruct (workerTerminal _); intros [= <-]; cbn; [eapply careful_trans; [apply careful_recover|apply careful_stopped]|apply careful_recover].
Qed.
Lemma careful_receipt parent n snap b receipt st r : publish_receipt op parent n snap b receipt st = Ok r -> Careful st r.1.
Proof using Type.
  intros ([b0 p] & _ & Hr)%bind_Ok. destruct (_ <? _)%Z; [injection Hr as <-; apply careful_stopped|].
  apply bind_Ok in Hr as ([st1 job] & Hq%careful_append_job & [= <-]). cbn. eapply careful_trans; [exact Hq|]. apply careful_set. gentle.
Qed.
Lemma careful_build parent n snap st r : watch_build op parent n snap st = Ok r -> Careful st r.1.
Proof using Type.
  unfold watch_build. destruct (job_index _ _) as [i|]; [|discriminate]. cbv zeta. set (st1 := recoverWorker i _ st).
  assert (Hst : Careful st st1) by apply careful_recover. destruct (job_at st1 i) as [b|]; [|discriminate].
  destruct (_ == _).
  - destruct (negb _); [intros [= <-]; eapply careful_trans; [exact Hst|apply careful_await]|].
    destruct (accepted_build st1 b) as [receipt|]; [|intros [= <-]; eapply careful_trans; [exact Hst|apply careful_stopped]].
    destruct (_ == _); [intros Hr%careful_receipt|intros Hr%careful_publication]; eapply careful_trans; eassumption.
  - destruct (workerTerminal _); intros [= <-]; cbn; [eapply careful_trans; [exact Hst|apply careful_stopped]|exact Hst].
Qed.
Lemma careful_native cancelled token st st' : native_tx cancelled op token st = Ok st' -> Careful st st'.
Proof using Type.
  unfold native_tx. destruct (operationByID st (ID op)) as [parent|]; [|discriminate].
  intros (u1 & _ & Hn)%bind_Ok. apply bind_Ok in Hn as (u2 & _ & Hn).
  destruct (nativeDeliveryAllowed st (Some parent)) as [u3|e]; [|destruct e; first [discriminate|injection Hn as <-; apply careful_stopped]].
  apply bind_Ok in Hn as ([st1 release] & Hs & [= <-]). apply (careful_trans _ st1).
  - unfold native_step in Hs. destruct (ExternalOperation_Native parent) as [n|]; [|discriminate].
    destruct (ExternalOperation_Snapshot parent) as [snap|]; [|discriminate].
    destruct (_ == _); [apply bind_Ok in Hs as (st2 & Hq%careful_queue_build & [= <- _]); exact Hq|exact (careful_build _ _ _ _ _ Hs)].
  - destruct release; [apply careful_set; gentle|reflexivity].
Qed.
End native.
Lemma careful_settle_tx `{World} c op token g pr results st st' : settle_tx c op token g pr results st = Ok st' -> Careful st st'.
Proof using Type.
  intros (u1 & _ & Hs)%bind_Ok. destruct (operationByID st (ID op)) as [leader|]; [|discriminate].
  apply bind_Ok in Hs as (u2 & _ & Hs). apply bind_Ok in Hs as (u3 & _ & Hs). apply bind_Ok in Hs as (u4 & _ & Hs).
  apply bind_Ok in Hs as (st1 & Hf & Hs). destruct (devActivationParent st1 op) as [parent|]; [|discriminate].
  apply bind_Ok in Hs as (u5 & _ & [= <-]). revert Hf. clear. revert st.
  induction (DevActivationGroup_MemberIDs g) as [|id l IH]; intros st; cbn; [intros [= <-]; reflexivity|].
  intros (st2 & Hst & Hl)%bind_Ok. destruct (operationByID st id); [|discriminate]. injection Hst as <-.
  eapply careful_trans; [|exact (IH _ Hl)]. apply careful_set. gentle.
Qed.
Lemma careful_record `{World} op availability a st st' : record_tx op availability a st = Ok st' -> Careful st st'.
Proof using Type.
  unfold record_tx. destruct (operationByID st (ID op)); [|discriminate]. intros (u & _ & Hr)%bind_Ok.
  destruct (ExternalOperation_Snapshot op); [|discriminate]. injection Hr as <-. apply careful_ops. reflexivity.
Qed.
Lemma careful_revision op token r st st' : revision_tx op token r st = Ok st' -> Careful st st'.
Proof using Type.
  unfold revision_tx. destruct (operationByID st (ID op)); [|discriminate]. intros (u & _ & [= <-])%bind_Ok. apply careful_ops. reflexivity.
Qed.
Lemma careful_bind `{World} op token source st st' : bind_tx op token source st = Ok st' -> Careful st st'.
Proof using Type.
  unfold bind_tx. destruct (operationByID st (ID op)); [|discriminate]. intros (u & _ & Hb)%bind_Ok.
  destruct (integration st _) as [inn|]; [|discriminate]. apply bind_Ok in Hb as (u2 & _ & Hb). destruct (find_first _ _).
  - destruct (_ == _); [injection Hb as <-; reflexivity|discriminate].
  - injection Hb as <-. apply careful_ops. reflexivity.
Qed.

(** *** The transaction that saves *)
Lemma save_tx_Ok `{World} c op token s st st' : save_tx c op token s st = Ok st' ->
  exists current status detail, operationByID st (ID op) = Some current /\ ExternalOperation_LeaseOwner current = token
    /\ save_fences c op token s st current = Ok () /\ flow_verdict op s st = Ok (status, detail)
    /\ State_Operations st' = update_first (has_id (ID op)) (fun _ => saved_operation op token s st current status detail) (State_Operations st).
Proof using Type.
  unfold save_tx. destruct (operationByID st (ID op)) as [current|]; [|discriminate].
  intros Hs. apply bind_guard in Hs as [Ho Hs]; [|discriminate]. apply bind_Ok in Hs as ([] & Hf & Hs).
  apply bind_Ok in Hs as ([status detail] & Hv & Hs). apply bind_Ok in Hs as (u1 & _ & Hs). apply bind_Ok in Hs as (u2 & _ & Hs).
  apply bind_Ok in Hs as (u3 & _ & Hs). apply bind_Ok in Hs as (st1 & Hr & [= <-]). to_prop.
  exists current, status, detail. repeat (split; [first [reflexivity|assumption]|]).
  unfold append_run in Hr. destruct (ExternalOperation_Run op); [destruct (ExternalOperation_Snapshot op); [|discriminate]|]; injection Hr as <-;
    unfold append_step, append_artifact; destruct (ExternalOperation_Artifact op), (ExternalOperation_Snapshot op);
    try reflexivity; destruct (native_build _); reflexivity.
Qed.
Lemma frozen_proofs_ID `{World} op s st current status v : ID (frozen_proofs op s st current status v) = ID v.
Proof using Type.
  unfold frozen_proofs. cbv zeta. destruct (negb _); [reflexivity|].
  destruct (ExternalOperation_GitOpsPR op), (ExternalOperation_GitOpsResult op); repeat match goal with |- context [if ?b then _ else _] => destruct b end; reflexivity.
Qed.
Lemma saved_facts `{World} op token s st current status detail : let v := saved_operation op token s st current status detail in
  ID v = ID op /\ ExternalOperation_Phase v = Step_phase s /\ ExternalOperation_LeaseOwner v = (if Step_release s then "" else token)
  /\ ExternalOperation_Status v = saved_status op s status /\ ExternalOperation_NextAttemptAt v = next_attempt s (now "save" 0).
Proof using Type.
  cbv zeta. split; [|repeat split]. unfold saved_operation.
  change (ID (frozen_proofs op s st current status (op <| ExternalOperation_ReservationMutationIntent := settled_intent op s current status |>)) = ID op).
  rewrite frozen_proofs_ID. reflexivity.
Qed.
Lemma find_replaced (v : ExternalOperation) o l : o = ID v -> is_some (find_first (has_id o) l) = true ->
  find_first (has_id o) (update_first (has_id o) (fun _ => v) l) = Some v.
Proof using Type.
  intros -> Hs. rewrite find_first_update_first; [|intros x _; apply has_id_true; reflexivity].
  destruct (find_first (has_id (ID v)) l); [reflexivity|discriminate].
Qed.
Lemma find_replaced_other (v : ExternalOperation) o o' l : o = ID v -> o' <> o ->
  find_first (has_id o') (update_first (has_id o) (fun _ => v) l) = find_first (has_id o') l.
Proof using Type.
  intros -> Hne. apply find_first_update_first_other. intros x Hx%has_id_true. unfold has_id. rewrite Hx. split; apply bool_decide_eq_false; auto.
Qed.
(** What a save changes of the leases: those of its operation, which it held. *)
Definition Saves (token o phase : string) (release : bool) (st st' : State) : Prop :=
  (exists ph, lease_view st o = Some (ph, token)) /\ lease_view st' o = Some (phase, if release then "" else token)
  /\ forall o', o' <> o -> lease_view st' o' = lease_view st o'.
Lemma save_tx_view `{World} c op token s st st' : save_tx c op token s st = Ok st' ->
  Saves token (ID op) (Step_phase s) (Step_release s) st st'.
Proof using Type.
  intros (current & status & detail & Hc & Ho & _ & _ & E)%save_tx_Ok.
  destruct (saved_facts op token s st current status detail) as (Hid & Hph & How & _ & _). cbv zeta in *.
  unfold Saves, lease_view, operationByID in *. rewrite E. repeat split.
  - exists (ExternalOperation_Phase current). rewrite Hc, <- Ho. reflexivity.
  - rewrite find_replaced by (rewrite ?Hc; auto). cbn [fmap option_fmap option_map]. rewrite <- Hph, <- How. reflexivity.
  - intros o' Hne. rewrite find_replaced_other by auto. reflexivity.
Qed.
End steps.

(** ** The protocol of a build *)
(** Of the operation [o] a worker holds under the token [t]: while it has the
    lease nothing was dispatched; it may dispatch once; or neither. *)
Inductive Knowledge : Type := Held | Ticket | Spent.
#[export] Instance knowledge_eq : EqDecision Knowledge.
Proof. solve_decision. Defined.
Definition dispatches {A} (c : Call A) : bool := match c with Dispatch _ _ => true | _ => false end.
Section build_protocol.
Context (t o : string).
Definition Allowed (κ : Knowledge) (st st' : State) : Prop :=
  Careful st st' \/ exists phase release, Saves t o phase release st st' /\ (undispatched phase = true -> κ = Held).
(** Committing the dispatch of a held operation gives the right to send it. *)
Definition Grants (κ : Knowledge) (st st' : State) : Prop :=
  κ = Held /\ exists phase release, Saves t o phase release st st' /\ undispatched phase = false.
Definition build_rule (X : Type) (e : Eff X) (κ : Knowledge) (Φ : Knowledge -> X -> Prop) : Prop :=
  match e in Eff X return (Knowledge -> X -> Prop) -> Prop with
  | Read => fun Φ => forall r, Φ κ r
  | Fresh => fun Φ => forall w, Φ κ w
  | Expired => fun Φ => forall b, Φ κ b
  | Ask c => fun Φ => (dispatches c = true -> κ = Ticket) /\ forall r, Φ (if dispatches c then Spent else κ) r
  | Update f => fun Φ => exists g : bool,
      (forall w c st st' a, f w c st = Ok (st', a) -> Allowed κ st st' /\ (g = true -> Grants κ st st'))
      /\ (forall a, Φ (if g then Ticket else κ) (Ok a)) /\ (forall e, Φ κ (Err e))
  end Φ.
Lemma build_mono : MonotoneRule build_rule.
Proof using Type.
  intros X e κ Φ Ψ Hi. destruct e as [|B f| | |B c]; cbn; auto.
  - intros (g & Hf & Ho & He). exists g. auto.
  - intros [Hd Hr]. auto.
Qed.
Lemma build_free : ReadsFreely build_rule.
Proof using Type. intros X e κ Φ Hr HΦ. destruct e as [|B f| | |B c]; cbn in *; auto; [contradiction|].
  destruct c; cbn in *; first [discriminate|split; [discriminate|auto]].
Qed.
End build_protocol.
Definition Any {K A} (_ : K) (_ : A) : Prop := True.

Section programs.
Context `{Runtime, NetURL, Upper, MapOrder, URLs, Hashing, Encoding, RestorationEvidence, Operator, Baselines, ComposeLease, Capabilities}.
Context (t o : string).
Implicit Types (op : ExternalOperation) (κ : Knowledge).
Abbreviation keeps p κ := (wp (build_rule t o) p κ Any).
Definition Entitled κ op : Prop := ID op = o /\ (undispatched (ExternalOperation_Phase op) = true -> κ = Held).

(** *** Single effects *)
Lemma wp_reading {A B} (p : Prog A) (f : A -> Prog B) κ : harmless p -> (forall a, keeps (f a) κ) -> keeps (p ≫= f) κ.
Proof using Type. intros Hp Hf. apply wp_bind; [apply build_mono|]. apply wp_harmless; [apply build_mono|apply build_free|exact Hp|exact Hf]. Qed.
Lemma wp_try_reading {A B} (p : Prog (res A)) (k : A -> Prog (res B)) κ : harmless p -> (forall a, keeps (k a) κ) -> keeps (try p k) κ.
Proof using Type. intros Hp Hk. apply wp_reading; [exact Hp|]. intros [a|e]; [apply Hk|exact I]. Qed.
Lemma wp_asking {A B} (c : Call A) (f : Reply A -> Prog B) κ : dispatches c = false -> (forall r, keeps (f r) κ) -> keeps (ask c ≫= f) κ.
Proof using Type. intros Hc Hf. cbn. rewrite Hc. split; [discriminate|exact Hf]. Qed.
Lemma wp_transact f κ Φ : (forall w c st st', f w c st = Ok st' -> Allowed t o κ st st') -> (forall r, Φ κ r) -> wp (build_rule t o) (transact f) κ Φ.
Proof using Type.
  intros Hf HΦ. exists false. split; [|cbn; auto]. intros w c st st' a Hc. destruct (f w c st) as [st1|] eqn:E; [|discriminate].
  injection Hc as <- <-. split; [eauto|discriminate].
Qed.
Lemma wp_careful f κ Φ : (forall w c st st', f w c st = Ok st' -> Careful st st') -> (forall r, Φ κ r) -> wp (build_rule t o) (transact f) κ Φ.
Proof using Type. intros Hf. apply wp_transact. intros. left. eauto. Qed.
Lemma wp_save op phase status detail ev rel κ Φ : ID op = o -> (undispatched phase = true -> κ = Held) -> (forall r, Φ κ r) ->
  wp (build_rule t o) (save op t phase status detail ev rel) κ Φ.
Proof using Type.
  intros Hid Hph HΦ. apply wp_transact; [|exact HΦ]. intros w c st st' Hs%save_tx_view. rewrite Hid in Hs. right. eexists _, _. split; [exact Hs|exact Hph].
Qed.
Lemma wp_finish op status detail ev κ : Entitled κ op -> keeps (finish op t status detail ev) κ.
Proof using Type. intros [Hid Hph]. apply wp_save; [exact Hid|exact Hph|intros; exact I]. Qed.
Lemma wp_advance op phase status detail ev κ : ID op = o -> undispatched phase = false \/ κ = Held -> keeps (advance op t phase status detail ev) κ.
Proof using Type. intros Hid Hph. apply wp_save; [exact Hid| |intros; exact I]. intros E. destruct Hph; congruence. Qed.
Lemma wp_save_end op phase status detail ev rel κ : ID op = o -> undispatched phase = false -> keeps (save op t phase status detail ev rel) κ.
Proof using Type. intros Hid Hph. apply wp_save; [exact Hid|congruence|intros; exact I]. Qed.
Lemma wp_retry op detail κ : Entitled κ op -> keeps (retry op t detail) κ.
Proof using Type.
  intros He. unfold retry. apply wp_reading; [split; [exact I|intros ?; exact I]|]. intros w. destruct (deadline_exceeded _ op); [apply wp_finish, He|].
  destruct He as [Hid Hph]. apply wp_save; [exact Hid|exact Hph|intros; exact I].
Qed.
Lemma wp_record op availability a κ Φ : (forall r, Φ κ r) -> wp (build_rule t o) (recordArtifactObservation op availability a) κ Φ.
Proof using Type. apply wp_careful. intros w c st st'. apply careful_record. Qed.

(** *** The steps *)
Ltac keep_step :=
  lazymatch goal with
  | |- wp _ (Ret _) _ _ => exact I
  | |- wp _ (check _) _ _ => exact I
  | |- wp _ (finish _ _ _ _ _) _ _ => apply wp_finish; assumption
  | |- wp _ (retry _ _ _) _ _ => apply wp_retry; assumption
  | |- wp _ (advance _ _ _ _ _ _) _ _ => apply wp_advance; [match goal with He : Entitled _ _ |- _ => exact (proj1 He) end|first [left; reflexivity|right; solve [auto]]]
  | |- wp _ (save _ _ _ _ _ _ _) _ _ => apply wp_save_end; [match goal with He : Entitled _ _ |- _ => exact (proj1 He) end|reflexivity]
  | |- wp _ (ask _ ≫= _) _ _ => apply wp_asking; [reflexivity|intros ?]
  | |- wp _ (try _ _) _ _ => apply wp_try_reading; [solve [harmless_prog]|intros ?]
  | |- wp _ (_ ≫= _) _ _ => apply wp_reading; [solve [harmless_prog]|intros ?]
  | |- wp _ (match ?x with _ => _ end) _ _ => destruct x
  | |- wp _ (let _ := _ in _) _ _ => cbv zeta
  end.
Ltac keeps_prog := repeat (first [solve [eauto with keeps]|keep_step]).
Lemma keep_propose op snap apply κ : Entitled κ op -> keeps (proposeGitOpsPR op snap apply t) κ.
Proof using Type. intros He. unfold proposeGitOpsPR. keeps_prog. Qed.
Lemma keep_merged op snap a pr κ : Entitled κ op -> keeps (merged_pull_request op snap a pr t) κ.
Proof using Type. intros He. unfold merged_pull_request. keeps_prog. Qed.
Lemma keep_recover op g κ : Entitled κ op -> keeps (recover_proposal op g t) κ.
Proof using Type. intros He. unfold recover_proposal. keeps_prog. Qed.
Lemma keep_propose_group op g batch κ : Entitled κ op -> keeps (propose_group op g batch t) κ.
Proof using Type. intros He. unfold propose_group. keeps_prog. Qed.
Lemma keep_commit_group op g batch κ : Entitled κ op -> keeps (commit_group op g batch t) κ.
Proof using Type.
  intros He. unfold commit_group. cbv zeta. apply wp_try; [apply build_mono|]. apply wp_save; [apply He|discriminate|].
  intros [u|e]; [|exact I]. apply wp_try_reading; [harmless_prog|]. intros _. apply keep_propose_group. split; [apply He|discriminate].
Qed.
Lemma keep_prepare op st p g κ : Entitled κ op -> keeps (prepare_group op st p g t) κ.
Proof using Type. intros He. unfold prepare_group. keeps_prog. apply keep_commit_group, He. Qed.
Lemma keep_apply_activation op κ : Entitled κ op -> keeps (applyDevActivation op t) κ.
Proof using Type. intros He. unfold applyDevActivation. keeps_prog; first [apply keep_recover, He|apply keep_prepare, He]. Qed.
Lemma keep_settle_group op p g pr κ : Entitled κ op -> keeps (settle_group op p g pr t) κ.
Proof using Type.
  intros He. unfold settle_group. keeps_prog. apply wp_careful; [|intros; exact I]. intros w c st st'. apply careful_settle_tx.
Qed.
Lemma keep_observe_group op p g batch known κ : Entitled κ op -> keeps (observe_group op p g batch known t) κ.
Proof using Type. intros He. unfold observe_group. keeps_prog. apply keep_settle_group, He. Qed.
Lemma keep_wait_activation op κ : Entitled κ op -> keeps (waitDevActivationGroup op t) κ.
Proof using Type. intros He. unfold waitDevActivationGroup. keeps_prog. apply keep_observe_group, He. Qed.
Lemma keep_tick_activation op κ : Entitled κ op -> keeps (tickDevActivation op t) κ.
Proof using Type. intros He. unfold tickDevActivation, aggregate_children. keeps_prog. Qed.
Lemma keep_observe op snap pr base a κ : Entitled κ op -> keeps (observe_pull_request op snap pr base a t) κ.
Proof using Type. intros He. unfold observe_pull_request. keeps_prog. apply keep_merged, He. Qed.
Lemma keep_wait op snap κ : Entitled κ op -> keeps (waitGitOpsPR op snap t) κ.
Proof using Type. intros He. unfold waitGitOpsPR. keeps_prog; first [apply keep_wait_activation, He|apply keep_observe, He]. Qed.

(** *** Before and after the build *)
Lemma keep_promotion op snap κ : κ = Held -> Entitled κ op -> keeps (promotion_preflight op snap t) κ.
Proof using Type. intros Hh He. unfold promotion_preflight. keeps_prog. Qed.
Lemma keep_reuse op a κ : Entitled κ op -> keeps (reuse_artifact op a t) κ.
Proof using Type. intros He. unfold reuse_artifact. keeps_prog. Qed.
Lemma keep_rebuild op snap missing κ : κ = Held -> Entitled κ op -> keeps (rebuild_missing op snap missing t) κ.
Proof using Type.
  intros Hh He. unfold rebuild_missing. apply wp_try; [apply build_mono|].
  assert (Hk : keeps (if negb (ComponentBuild_RebuildMissing (DeliverySnapshot_Build snap))
    then finish op t "BLOCKED" "artifact missing or unverifiable and rebuild_missing policy is disabled" ∅
    else advance op t "DISPATCH" "WAITING_FOR_ARTIFACT" "artifact absent or private; workflow will probe/reuse or build" ∅) κ) by keeps_prog.
  destruct missing; [apply wp_record; intros [u|e]; [exact Hk|exact I]|exact Hk].
Qed.
Lemma keep_probe op snap head κ : κ = Held -> Entitled κ op -> keeps (probe_artifact op snap head t) κ.
Proof using Type.
  intros Hh He. unfold probe_artifact. apply wp_try; [apply build_mono|].
  apply wp_mono with (fun κ' r => κ' = κ /\ match r with Ok v => Entitled κ v | Err _ => True end); [apply build_mono| |].
  - intros κ' [v|e] [-> Hv]; [|exact I]. apply wp_asking; [reflexivity|]. intros [a e]. cbv zeta.
    apply wp_try_reading; [harmless_prog|]. intros known. destruct (_ && _); [apply keep_reuse, Hv|apply keep_rebuild; assumption].
  - destruct (_ == _); [|split; [reflexivity|exact He]]. apply wp_bind; [apply build_mono|].
    apply wp_harmless; [apply build_mono|apply build_free|harmless_prog|]. intros [st|e]; split; first [reflexivity|exact I|exact He].
Qed.
Lemma keep_preflight_gitops op snap head workflow κ : κ = Held -> Entitled κ op -> keeps (preflight_gitops op snap head workflow t) κ.
Proof using Type. intros Hh He. unfold preflight_gitops. keeps_prog. apply keep_probe; assumption. Qed.
Lemma keep_preflight op snap κ : κ = Held -> Entitled κ op -> keeps (preflight op snap t) κ.
Proof using Type.
  intros Hh He. unfold preflight. keeps_prog. apply wp_try; [apply build_mono|].
  apply wp_mono with (fun κ' _ => κ' = κ); [apply build_mono|intros κ' [v|e] ->; [apply keep_preflight_gitops; assumption|exact I]|].
  unfold capture_revision. destruct (negb _); [reflexivity|]. apply wp_bind; [apply build_mono|].
  apply wp_harmless; [apply build_mono|apply build_free|harmless_prog|]. intros w. cbv zeta. apply wp_try; [apply build_mono|].
  apply wp_careful; [|intros [u|e]; reflexivity]. intros ? ? ? ?. apply careful_revision.
Qed.
(** The build is dispatched under the ticket of the commit before it. *)
Lemma keep_dispatch op snap κ : κ = Held -> Entitled κ op -> keeps (dispatch_build op snap t) κ.
Proof using Type.
  intros -> He. unfold dispatch_build. apply wp_try; [apply build_mono|]. exists true. split; [|split].
  - intros w c st st' a Hs. destruct (save_tx _ _ _ _ _) as [st1|] eqn:E; [|discriminate]. injection Hs as <- <-.
    apply save_tx_view in E. rewrite (proj1 He) in E. split; [|intros _; split; [reflexivity|]].
    + right. eexists _, _. split; [exact E|reflexivity].
    + eexists _, _. split; [exact E|reflexivity].
  - intros a. cbn. split; [reflexivity|]. intros [d e]. cbv zeta. apply wp_advance; [|left; reflexivity].
    destruct (0 <? _)%Z; apply He.
  - intros e. exact I.
Qed.
Lemma keep_build_lookup op snap κ : Entitled κ op -> keeps (build_lookup op snap t) κ.
Proof using Type. intros He. unfold build_lookup, build_report. keeps_prog. Qed.
Lemma keep_inspect_activated st op snap ready κ : Entitled κ op -> (forall v, Entitled κ v -> keeps (ready v) κ) ->
  keeps (inspect_activated st op snap ready t) κ.
Proof using Type. intros He Hr. unfold inspect_activated, inspect_member. keeps_prog; apply Hr, He. Qed.
Lemma keep_inspect st op snap κ : Entitled κ op -> keeps (inspect st op snap t) κ.
Proof using Type.
  intros He. unfold inspect. keeps_prog.
  - apply wp_try; [apply build_mono|]. apply wp_record. intros [u|e]; [keeps_prog|exact I].
  - apply keep_inspect_activated; [exact He|]. intros v Hv. keeps_prog.
Qed.

(** *** Writing to GitOps *)
Lemma keep_write op snap apply κ : Entitled κ op -> keeps (write_gitops op snap apply t) κ.
Proof using Type. intros He. unfold write_gitops. keeps_prog. apply keep_propose, He. Qed.
Lemma keep_commit op snap base a κ : Entitled κ op -> keeps (commit_intent op snap base a t) κ.
Proof using Type.
  intros He. unfold commit_intent. apply wp_bind; [apply build_mono|]. apply wp_save; [apply He|discriminate|].
  intros [u|e]; [apply keep_write, He|keeps_prog].
Qed.
Lemma keep_apply op snap κ : Entitled κ op -> keeps (apply_gitops op snap t) κ.
Proof using Type. intros He. unfold apply_gitops, compare_gitops. keeps_prog. apply keep_commit, He. Qed.

(** *** A tick *)
Lemma keep_phase st op snap κ : Entitled κ op -> keeps (tick_phase st op snap t) κ.
Proof using Type.
  intros He. unfold tick_phase. assert (Hheld : undispatched (ExternalOperation_Phase op) = true -> κ = Held) by apply He.
  do 6 (case_bool_decide as Hp;
    [rewrite Hp in Hheld; auto using keep_wait, keep_promotion, keep_preflight, keep_dispatch, keep_build_lookup, keep_inspect|clear Hp]).
  destruct (contains _ _); [destruct (activated_child st op); [apply keep_apply_activation|apply keep_apply]; exact He|apply wp_finish, He].
Qed.
Lemma keep_native op κ : Entitled κ op -> keeps (tickNativeDelivery op t) κ.
Proof using Type.
  intros He. unfold tickNativeDelivery. keeps_prog. apply wp_careful; [|intros; exact I]. intros w c st st'. apply careful_native.
Qed.
Lemma keep_ready st op snap κ : Entitled κ op -> keeps (ready_phase st op snap t) κ.
Proof using Type. intros He. unfold ready_phase. keeps_prog. apply keep_phase, He. Qed.
Lemma keep_deploy op κ : Entitled κ op -> keeps (tick_deploy op t) κ.
Proof using Type. intros He. unfold tick_deploy, native_phase. keeps_prog; first [apply keep_ready, He|apply keep_native, He]. Qed.
Lemma keep_branch op κ : Entitled κ op -> keeps (tickManagedBranch op t) κ.
Proof using Type.
  intros He. assert (Hens : forall source, keeps (ensure_branch op source t) κ).
  { intros source. unfold ensure_branch. keeps_prog. apply wp_bind; [apply build_mono|].
    destruct (_ == _); [apply wp_careful; [intros ? ? ? ?; apply careful_bind|intros [u|e]]|exact (wp_finish _ _ _ _ _ He)]; keeps_prog. }
  unfold tickManagedBranch, create_from_base. keeps_prog; apply Hens.
Qed.
End programs.
