(* ===== verification/Executions.v ===== *)
(** * Executions of a worker step

    What a step has seen, committed and been answered so far ([Happening]),
    the executions of a step against any store and any replies ([Execution]),
    and a protocol by which a step must have the right to make a call that is
    watched ([watch_rule]): the calls that write to GitOps in GitOpsIntent.v,
    those that write to a source in FlowIntent.v. *)
From S2P Require Import Prelude Delivery Domain Effects OperationSafety.
Open Scope string_scope.
Open Scope list_scope.

(** ** Executions of a step *)
Inductive Happening : Type :=
| Saw (st : State)
| Committed (before after : State)
| Answered {A} (c : Call A) (r : Reply A).
(** What a reply tells: a transaction counts when it is known to have committed. *)
Definition happened {X} (e : Eff X) (st st' : State) : X -> list Happening :=
  match e in Eff X return X -> list Happening with
  | Read => fun r => match r with Ok seen => [Saw seen] | Err _ => [] end
  | Update _ => fun r => match r with Ok _ => [Committed st st'] | Err _ => [] end
  | Fresh => fun _ => []
  | Expired => fun _ => []
  | Ask c => fun r => [Answered c r]
  end.
(** The effects of a step, the latest first; between two of them the store is
    whatever the rest of the application made it. *)
Inductive Execution {A} : Prog A -> list Happening -> Prog A -> Prop :=
| execution_start p : Execution p [] p
| execution_next p past X (e : Eff X) k st st' x : Execution p past (Do e k) -> outcome e st st' x ->
    Execution p (happened e st st' x ++ past) (k x).
(** The call a step makes next. *)
Definition calls {A} (p : Prog A) {B} (c : Call B) : Prop := exists k, p = Do (Ask c) k.

(** What every end of a program returns. *)
Fixpoint yields {A} (p : Prog A) (Φ : A -> Prop) : Prop := match p with Ret a => Φ a | Do e k => forall x, yields (k x) Φ end.
Lemma yields_any {A} (p : Prog A) : yields p (fun _ => True).
Proof. induction p as [a|X e k IH]; cbn; auto. Qed.
Lemma yields_mono {A} (p : Prog A) (Φ Ψ : A -> Prop) : (forall a, Φ a -> Ψ a) -> yields p Φ -> yields p Ψ.
Proof. intros Hi. induction p as [a|X e k IH]; cbn; auto. Qed.
Lemma yields_bind {A B} (p : Prog A) (f : A -> Prog B) (Φ : A -> Prop) Ψ : yields p Φ -> (forall a, Φ a -> yields (f a) Ψ) -> yields (p ≫= f) Ψ.
Proof. intros Hp Hf. induction p as [a|X e k IH]; cbn in *; auto. Qed.
Lemma yields_try {A B} (p : Prog (res A)) (k : A -> Prog (res B)) (Φ : A -> Prop) Ψ : yields p (fun r => forall a, r = Ok a -> Φ a) ->
  (forall a, Φ a -> yields (k a) Ψ) -> (forall e, Ψ (Err e)) -> yields (try p k) Ψ.
Proof. intros Hp Hk He. apply (yields_bind _ _ _ _ Hp). intros [a|e] Ha; [exact (Hk a (Ha a eq_refl))|apply He]. Qed.
Lemma yields_call {A B} (c : Call A) (f : Reply A -> Prog B) (Φ : B -> Prop) : (forall r, yields (f r) Φ) -> yields (ask c ≫= f) Φ.
Proof. intros Hf. exact Hf. Qed.

(** ** The protocol *)
(** The calls to watch; all of them write. *)
Class Watches (watched : forall A, Call A -> bool) := watched_writes : forall A (c : Call A), watched A c = true -> writes c = true.
Section watched.
Context (watched : forall A, Call A -> bool).
Section protocol.
Context (Permitted : forall A, Call A -> list Happening -> Prop).
Definition watch_rule (X : Type) (e : Eff X) (past : list Happening) (Φ : list Happening -> X -> Prop) : Prop :=
  match e with Ask c => watched _ c = true -> Permitted _ c past | _ => True end
  /\ forall st st' x, outcome e st st' x -> Φ (happened e st st' x ++ past) x.
Lemma watch_mono : MonotoneRule watch_rule.
Proof using Type. intros X e past Φ Ψ Hi [Hp Hx]. split; [exact Hp|]. eauto. Qed.
Lemma execution_keeps {A} (p p' : Prog A) past : wp watch_rule p [] Any -> Execution p past p' -> wp watch_rule p' past Any.
Proof using Type. intros Hp He. induction He as [|p past X e k st st' x He IH Ho]; [exact Hp|]. exact (proj2 (IH Hp) st st' x Ho). Qed.
Lemma execution_permitted {A B} (p p' : Prog A) past (c : Call B) : wp watch_rule p [] Any -> Execution p past p' -> calls p' c ->
  watched _ c = true -> Permitted _ c past.
Proof using Type. intros Hp He [k ->]. exact (proj1 (execution_keeps _ _ _ Hp He)). Qed.
End protocol.

(** ** Steps that make no watched call *)
Definition quiet_effect {X} (e : Eff X) : Prop := match e with Ask c => watched _ c = false | _ => True end.
Fixpoint quiet {A} (p : Prog A) : Prop := match p with Ret _ => True | Do e k => quiet_effect e /\ forall x, quiet (k x) end.
Lemma quiet_bind {A B} (p : Prog A) (f : A -> Prog B) : quiet p -> (forall a, quiet (f a)) -> quiet (p ≫= f).
Proof using Type. intros Hp Hf. induction p as [a|X e k IH]; cbn in *; [apply Hf|]. destruct Hp as [He Hk]. split; [exact He|]. intros x. apply IH, Hk. Qed.
Lemma quiet_try {A B} (p : Prog (res A)) (k : A -> Prog (res B)) : quiet p -> (forall a, quiet (k a)) -> quiet (try p k).
Proof using Type. intros Hp Hk. apply quiet_bind; [exact Hp|]. intros [a|e]; [apply Hk|exact I]. Qed.
Lemma quiet_loop {A B} (f : B -> A -> Prog (res B)) b l : (forall b x, quiet (f b x)) -> quiet (loop f b l).
Proof using Type. intros Hf. revert b. induction l as [|x l IH]; intros b; cbn; [exact I|]. apply quiet_try; auto. Qed.
Lemma harmless_quiet `{Watches watched} {A} (p : Prog A) : harmless p -> quiet p.
Proof using Type.
  induction p as [a|X e k IH]; cbn; [auto|]. intros [He Hk]. split; [|auto]. destruct e as [| | | |X c]; cbn in *; auto.
  apply not_true_iff_false. intros Hw%watched_writes. congruence.
Qed.

(** What a quiet step leaves on the record. *)
Definition calm (past : list Happening) : Prop := forall A (c : Call A) r, Answered c r ∈ past -> watched _ c = false.
Lemma calm_nil : calm [].
Proof using Type. intros A c r Hin. inversion Hin. Qed.
Lemma calm_app a b : calm a -> calm b -> calm (a ++ b).
Proof using Type. intros Ha Hb A c r [Hin|Hin]%elem_of_app; [exact (Ha _ _ _ Hin)|exact (Hb _ _ _ Hin)]. Qed.
Definition watched_answer (h : Happening) : bool := match h with Answered c _ => watched _ c | _ => false end.
Lemma calm_happened {X} (e : Eff X) st st' x : quiet_effect e -> calm (happened e st st' x).
Proof using Type.
  intros He A c r Hin. destruct e as [|B f| | |B c']; cbn in *.
  - destruct x; [apply list_elem_of_singleton in Hin; discriminate|inversion Hin].
  - destruct x; [apply list_elem_of_singleton in Hin; discriminate|inversion Hin].
  - inversion Hin.
  - inversion Hin.
  - apply list_elem_of_singleton in Hin. apply (f_equal watched_answer) in Hin. cbn in Hin. congruence.
Qed.

(** ** Rules *)
Section rules.
Context (Permitted : forall A, Call A -> list Happening -> Prop).
Abbreviation respects p past := (wp (watch_rule Permitted) p past Any).
Lemma wp_calm_yields {A} (p : Prog A) past (Ψ : A -> Prop) (Φ : list Happening -> A -> Prop) : quiet p -> yields p Ψ ->
  (forall later a, calm later -> Ψ a -> Φ (later ++ past) a) -> wp (watch_rule Permitted) p past Φ.
Proof using Type.
  intros Hp Hy. revert past Φ. induction p as [a|X e k IH]; intros past Φ HΦ; cbn in *; [apply (HΦ []); [exact calm_nil|exact Hy]|].
  destruct Hp as [He Hk]. split.
  - destruct e; cbn in *; auto. congruence.
  - intros st st' x _. apply IH; [apply Hk|apply Hy|]. intros later a Hc. rewrite app_assoc. apply HΦ.
    apply calm_app; [exact Hc|]. apply calm_happened, He.
Qed.
Lemma wp_calm {A} (p : Prog A) past (Φ : list Happening -> A -> Prop) : quiet p -> (forall later a, calm later -> Φ (later ++ past) a) ->
  wp (watch_rule Permitted) p past Φ.
Proof using Type. intros Hp HΦ. apply (wp_calm_yields _ _ (fun _ => True)); [exact Hp|apply yields_any|]. intros later a Hc _. apply HΦ, Hc. Qed.
Lemma wp_quiet_then {A} (p : Prog A) past (Φ : list Happening -> A -> Prop) : quiet p -> (forall later a, Φ (later ++ past) a) ->
  wp (watch_rule Permitted) p past Φ.
Proof using Type. intros Hp HΦ. apply wp_calm; [exact Hp|]. intros later a _. apply HΦ. Qed.
Lemma wp_quiet {A} (p : Prog A) past : quiet p -> respects p past.
Proof using Type. intros Hp. apply wp_quiet_then; [exact Hp|]. intros; exact I. Qed.
Lemma wp_after {A B} (p : Prog A) (f : A -> Prog B) past : quiet p -> (forall later a, respects (f a) (later ++ past)) -> respects (p ≫= f) past.
Proof using Type. intros Hp Hf. apply wp_bind; [apply watch_mono|]. apply wp_quiet_then; [exact Hp|exact Hf]. Qed.
Lemma wp_try_after {A B} (p : Prog (res A)) (k : A -> Prog (res B)) past : quiet p -> (forall later a, respects (k a) (later ++ past)) -> respects (try p k) past.
Proof using Type. intros Hp Hk. apply wp_after; [exact Hp|]. intros later [a|e]; [apply Hk|exact I]. Qed.
Lemma wp_call {A B} (c : Call A) (f : Reply A -> Prog B) past (Φ : list Happening -> B -> Prop) : (watched _ c = true -> Permitted A c past) ->
  (forall r, wp (watch_rule Permitted) (f r) (Answered c r :: past) Φ) -> wp (watch_rule Permitted) (ask c ≫= f) past Φ.
Proof using Type. intros Hc Hf. split; [exact Hc|]. intros st st' r _. exact (Hf r). Qed.
End rules.

(** ** What a step learns
    A quiet step extends what is on the record calmly; when it ends without
    an error, [Φ] holds of the record and of what it returns. *)
Definition learns {A} (p : Prog (res A)) (past : list Happening) (Φ : list Happening -> A -> Prop) : Prop :=
  wp (watch_rule (fun _ _ _ => False)) p past
    (fun past' r => exists later, past' = later ++ past /\ calm later /\ forall a, r = Ok a -> Φ past' a).
Lemma learns_check {A} (r : res A) past (Φ : list Happening -> A -> Prop) : (forall a, r = Ok a -> Φ past a) -> learns (check r) past Φ.
Proof using Type. intros Hr. exists []. split; [reflexivity|]. split; [exact calm_nil|exact Hr]. Qed.
Lemma learns_mono {A} (p : Prog (res A)) past (Φ Ψ : list Happening -> A -> Prop) :
  (forall past' a, Φ past' a -> Ψ past' a) -> learns p past Φ -> learns p past Ψ.
Proof using Type.
  intros Hi. apply wp_mono; [apply watch_mono|]. intros past' r (later & -> & Hc & Ha). exists later. split; [reflexivity|].
  split; [exact Hc|]. intros a Hr. exact (Hi _ _ (Ha a Hr)).
Qed.
Lemma learns_calm {A} (p : Prog (res A)) past (Φ : list Happening -> A -> Prop) : quiet p ->
  (forall later a, calm later -> Φ (later ++ past) a) -> learns p past Φ.
Proof using Type. intros Hp HΦ. apply wp_calm; [exact Hp|]. intros later r Hc. exists later. split; [reflexivity|]. split; [exact Hc|]. intros a _. apply HΦ, Hc. Qed.
(** The record after a part of the step is the record of the whole. *)
Lemma learns_extend {A} later past (p : Prog (res A)) (Φ : list Happening -> A -> Prop) : calm later -> learns p (later ++ past) Φ ->
  wp (watch_rule (fun _ _ _ => False)) p (later ++ past)
    (fun past' r => exists later, past' = later ++ past /\ calm later /\ forall a, r = Ok a -> Φ past' a).
Proof using Type.
  intros Hl. apply wp_mono; [apply watch_mono|]. intros past' r (later' & -> & Hc & Ha). exists (later' ++ later).
  split; [apply app_assoc|]. split; [apply calm_app; assumption|exact Ha].
Qed.
Lemma learns_try {A B} (p : Prog (res A)) (k : A -> Prog (res B)) past (Φ : list Happening -> A -> Prop) (Ψ : list Happening -> B -> Prop) :
  learns p past Φ -> (forall later a, calm later -> Φ (later ++ past) a -> learns (k a) (later ++ past) Ψ) -> learns (try p k) past Ψ.
Proof using Type.
  intros Hp Hk. apply wp_try; [apply watch_mono|]. eapply wp_mono; [apply watch_mono| |exact Hp]. intros past' r (later & -> & Hc & Ha).
  destruct r as [a|e]; [exact (learns_extend _ _ _ _ Hc (Hk later a Hc (Ha a eq_refl)))|]. exists later. split; [reflexivity|].
  split; [exact Hc|discriminate].
Qed.
Lemma learns_after {A B} (p : Prog A) (f : A -> Prog (res B)) past (Ψ : list Happening -> B -> Prop) : quiet p ->
  (forall later a, calm later -> learns (f a) (later ++ past) Ψ) -> learns (p ≫= f) past Ψ.
Proof using Type. intros Hp Hf. apply wp_bind; [apply watch_mono|]. apply wp_calm; [exact Hp|]. intros later a Hc. exact (learns_extend _ _ _ _ Hc (Hf later a Hc)). Qed.
Lemma learns_call {A B} (c : Call A) (f : Reply A -> Prog (res B)) past (Ψ : list Happening -> B -> Prop) : watched _ c = false ->
  (forall r, learns (f r) (Answered c r :: past) Ψ) -> learns (ask c ≫= f) past Ψ.
Proof using Type.
  intros Hc Hf. split; [congruence|]. intros st st' r _. apply (learns_extend [Answered c r] past); [|exact (Hf r)].
  exact (calm_happened (Ask c) st st r Hc).
Qed.
Lemma learns_read {B} (f : res State -> Prog (res B)) past (Ψ : list Happening -> B -> Prop) :
  (forall st, learns (f (Ok st)) (Saw st :: past) Ψ) -> (forall e, learns (f (Err e)) past Ψ) -> learns (effect Read ≫= f) past Ψ.
Proof using Type.
  intros Hok Herr. split; [exact I|]. intros st st' [seen|e] [-> Ho].
  - apply (learns_extend [Saw seen] past); [|exact (Hok seen)]. exact (calm_happened Read st st (Ok seen) I).
  - exact (Herr e).
Qed.
Lemma learns_loop {A B} (I : list A -> B -> list Happening -> Prop) (f : B -> A -> Prog (res B)) b l past : I [] b past ->
  (forall done x b past, I done b past -> learns (f b x) past (fun past' b' => I (done ++ [x]) b' past')) ->
  learns (loop f b l) past (fun past' b' => I l b' past').
Proof using Type.
  intros H0 Hf. enough (Hall : forall done b past, I done b past -> learns (loop f b l) past (fun past' b' => I (done ++ l) b' past')) by exact (Hall [] b past H0).
  clear b past H0. induction l as [|x l IH]; intros done b past Hd; cbn [loop].
  - apply learns_check. intros a [= <-]. rewrite app_nil_r. exact Hd.
  - apply (learns_try _ _ _ _ _ (Hf done x b past Hd)). intros later b' _ Hb. rewrite (app_assoc done [x] l : done ++ x :: l = _).
    exact (IH (done ++ [x]) b' (later ++ past) Hb).
Qed.
Section learning.
Context (Permitted : forall A, Call A -> list Happening -> Prop).
Abbreviation respects p past := (wp (watch_rule Permitted) p past Any).
(** A watched step may learn too. *)
Lemma wp_learned {A} (p : Prog (res A)) past (Φ : list Happening -> A -> Prop) (Ψ : list Happening -> res A -> Prop) : learns p past Φ ->
  (forall later a, calm later -> Φ (later ++ past) a -> Ψ (later ++ past) (Ok a)) -> (forall later e, calm later -> Ψ (later ++ past) (Err e)) ->
  wp (watch_rule Permitted) p past Ψ.
Proof using Type.
  intros Hp Hok Herr. assert (Hw : forall X (e : Eff X) past (Φ : list Happening -> X -> Prop), watch_rule (fun _ _ _ => False) X e past Φ -> watch_rule Permitted X e past Φ).
  { intros X e past0 Φ0 [Hc Hr]. split; [|exact Hr]. destruct e; auto. intros Hc'. destruct (Hc Hc'). }
  eapply wp_mono; [apply watch_mono| |exact (wp_weaken _ _ (watch_mono Permitted) Hw _ p past _ Hp)]. intros past' r (later & -> & Hc & Ha).
  destruct r as [a|e]; [exact (Hok later a Hc (Ha a eq_refl))|exact (Herr later e Hc)].
Qed.
Lemma wp_try_learned {A B} (p : Prog (res A)) (k : A -> Prog (res B)) past (Φ : list Happening -> A -> Prop) : learns p past Φ ->
  (forall later a, calm later -> Φ (later ++ past) a -> respects (k a) (later ++ past)) -> respects (try p k) past.
Proof using Type. intros Hp Hk. apply wp_bind; [apply watch_mono|]. apply (wp_learned _ _ _ _ Hp); [exact Hk|intros; exact I]. Qed.
End learning.
End watched.

(** ** What a step commits
    [Good] must hold of every transaction a step can commit, known or not. *)
Definition commits {A} (p : Prog A) (st st' : State) : Prop :=
  match p with
  | Ret _ => False
  | Do e k => match e with Update f => exists w cancelled a, f w cancelled st = Ok (st', a) | _ => False end
  end.
Section commits.
Context (Good : list Happening -> State -> State -> Prop).
Definition commit_rule (X : Type) (e : Eff X) (past : list Happening) (Φ : list Happening -> X -> Prop) : Prop :=
  match e with Update f => forall w cancelled st st' a, f w cancelled st = Ok (st', a) -> Good past st st' | _ => True end
  /\ forall st st' x, outcome e st st' x -> Φ (happened e st st' x ++ past) x.
Lemma commit_mono : MonotoneRule commit_rule.
Proof using Type. intros X e past Φ Ψ Hi [Hp Hx]. split; [exact Hp|]. eauto. Qed.
Lemma execution_commits {A} (p p' : Prog A) past st st' : wp commit_rule p [] Any -> Execution p past p' -> commits p' st st' -> Good past st st'.
Proof using Type.
  intros Hp He Hc. assert (Hw : wp commit_rule p' past Any).
  { clear Hc. induction He as [|p past X e k st0 st1 x He IH Ho]; [exact Hp|]. exact (proj2 (IH Hp) st0 st1 x Ho). }
  destruct p' as [a|X e k]; [contradiction|]. destruct Hw as [Hw _]. destruct e; try contradiction. destruct Hc as (w & c & a & Hf). exact (Hw w c st st' a Hf).
Qed.
(** A step that only reads commits nothing, whatever it learns. *)
Lemma wp_only_reading watched (Permitted : forall A, Call A -> list Happening -> Prop) {A} (p : Prog A) past (Φ : list Happening -> A -> Prop) : harmless p ->
  wp (watch_rule watched Permitted) p past Φ -> wp commit_rule p past Φ.
Proof using Type.
  revert past. induction p as [a|X e k IH]; intros past Hp Hw; [exact Hw|]. destruct Hp as [He Hk], Hw as [_ Hw]. split; [destruct e; auto; contradiction|].
  intros st st' x Ho. apply IH; [apply Hk|exact (Hw st st' x Ho)].
Qed.
End commits.

Create HintDb quiet.
Ltac quiet_step :=
  match goal with
  | |- True => exact I
  | |- quiet _ (Ret _) => exact I
  | |- quiet _ (check _) => exact I
  | |- quiet _ (ask _) => split; [reflexivity|intros ?; exact I]
  | |- quiet _ (effect _) => split; [exact I|intros ?; exact I]
  | |- quiet _ (transact _) => split; [exact I|intros ?; exact I]
  | |- quiet _ (loop _ _ _) => apply quiet_loop; intros
  | |- quiet _ (try _ _) => apply quiet_try; [|intros]
  | |- quiet _ (_ ≫= _) => apply quiet_bind; [|intros]
  | |- quiet _ (match ?x with _ => _ end) => destruct x
  | |- quiet _ (let _ := _ in _) => cbv zeta
  end.
Ltac quiet_prog := repeat (first [solve [auto with quiet]|solve [apply harmless_quiet; [assumption || typeclasses eauto|auto with harmless]]|quiet_step]).

(** ** Executions that can be evaluated *)
(** At most [n] effects answered by [h], up to a watched call. *)
Fixpoint execute (watched : forall A, Call A -> bool) {A} (h : Environment_replies) (n : nat) (p : Prog A) (st : State) (past : list Happening)
    : list Happening * Prog A :=
  match n, p with
  | S n, Do e k =>
    if match e with Ask c => watched _ c | _ => false end then (past, p)
    else let '(st', x) := answer h e st in execute watched h n (k x) st' (happened e st st' x ++ past)
  | _, _ => (past, p)
  end.
Lemma execute_execution watched {A} h n (p0 p : Prog A) st past : Execution p0 past p ->
  Execution p0 (execute watched h n p st past).1 (execute watched h n p st past).2.
Proof.
  revert p st past. induction n as [|n IH]; intros p st past Hp; cbn; [exact Hp|]. destruct p as [a|X e k]; [exact Hp|].
  destruct (match e with Ask c => watched _ c | _ => false end); [exact Hp|]. pose proof (answer_outcome h e st) as Ho.
  destruct (answer h e st) as [st' x]. apply IH. exact (execution_next _ _ _ _ _ _ _ _ Hp Ho).
Qed.
