(* ===== verification/DispatchOnce.v ===== *)
(** * A build is dispatched at most once

    Workers, their crashes, replies that are lost and the rest of the
    application as a step relation over the store; the invariant that ties
    what each running step knows to the leases of the store and to what was
    sent.  The rest of the application is a condition here ([Elsewhere]);
    Interleaving.v proves it of the commands and of the worker protocol. *)
From S2P Require Import Prelude GoText GoJson Delivery Domain Status Planning Handlers DeviceAuth Collections ExternalSystems Reservation Composition Conflicts Scenarios Pins WorkerAuth WorkerJobs Publications Registry Restoration Checks WorkerProtocol External Candidates Activation FlowGuards Effects Saving SourceChecks ActivationWorker NativeWorker Operations OperationSafety.
Open Scope string_scope.
Open Scope list_scope.

(** ** Workers over one store *)
(** A step that runs outside the store, with its token and its operation. *)
Record Thread := mkThread { th_token : string; th_op : string; th_prog : Prog (res unit) }.
(** [drawn] holds the tokens drawn so far, [seen] the identifiers of
    operations that were ever stored and [sent] the operations whose build was
    sent to the provider. *)
Record Sys := mkSys { store : State; threads : list Thread; drawn : list string; seen : list string; sent : list string }.
Definition operation_ids (st : State) : list string := ID <$> State_Operations st.
Definition sends {A} (p : Prog A) : bool :=
  match p with
  | Ret _ => false
  | @Do _ X e _ => match e with Ask c => dispatches c | _ => false end
  end.

#[local] Arguments lease_view : simpl never.
Section system.
Context `{Runtime, NetURL, Upper, MapOrder, URLs, Hashing, Encoding, RestorationEvidence, Operator, Baselines, ComposeLease, Capabilities,
  Analyst, OtherSteps}.
(** What commands and the steps of other kinds may do to the store: leases
    are kept or given up, no operation goes back before its dispatch, and an
    operation that was never stored has no lease. *)
Definition Elsewhere (known : list string) (st st' : State) : Prop := forall o,
  match lease_view st o, lease_view st' o with
  | None, Some (ph, ow) => ow = "" /\ (undispatched ph = true -> o ∉ known)
  | before, after => view_kept before after
  end.
Definition moved (s : Sys) (st : State) : Sys := mkSys st (threads s) (drawn s) (operation_ids st ++ seen s) (sent s).
(** The step of a thread goes on as [p]; [dispatched] when it sent a build. *)
Definition goes_on (i : nat) (th : Thread) (p : Prog (res unit)) (dispatched : bool) (s : Sys) : Sys :=
  mkSys (store s) (<[i := mkThread (th_token th) (th_op th) p]> (threads s)) (drawn s) (seen s)
    (if dispatched then th_op th :: sent s else sent s).
Definition start (v : ExternalOperation) (token : string) : list Thread :=
  if contains other_kinds (ExternalOperation_Kind v) then [] else [mkThread token (ID v) (tick_claimed v token)].
Inductive Step : Sys -> Sys -> Prop :=
| step_claim t token st' v s : token <> "" -> token ∉ drawn s -> claim_tx t token (store s) = (st', Some v) ->
    Step s (mkSys st' (threads s ++ start v token) (token :: drawn s) (operation_ids st' ++ seen s) (sent s))
| step_run i th st' p' s : threads s !! i = Some th -> runs (store s) (th_prog th) st' p' ->
    Step s (goes_on i th p' (sends (th_prog th)) (moved s st'))
| step_crash i th s : threads s !! i = Some th -> Step s (goes_on i th (Ret (Ok ())) false s)
| step_elsewhere st' s : Elsewhere (seen s) (store s) st' -> Step s (moved s st').
(** Before the first worker: nothing runs, nothing was sent and no token is
    drawn twice. *)
Definition Started (s : Sys) : Prop :=
  threads s = [] /\ sent s = [] /\ operation_ids (store s) ⊆ seen s
  /\ forall o ph ow, lease_view (store s) o = Some (ph, ow) -> ow = "" \/ ow ∈ drawn s.

(** ** The invariant *)
Fixpoint occurrences (o : string) (l : list string) : nat :=
  match l with [] => 0 | x :: l => (if x == o then 1 else 0) + occurrences o l end.
Definition ticket (o : string) (th : Thread) (κ : Knowledge) : nat :=
  match κ with Ticket => if th_op th == o then 1 else 0 | _ => 0 end.
Fixpoint tickets (o : string) (ths : list Thread) (ks : list Knowledge) : nat :=
  match ths, ks with th :: ths, κ :: ks => ticket o th κ + tickets o ths ks | _, _ => 0 end.
Definition spent (o : string) (s : Sys) (ks : list Knowledge) : nat := occurrences o (sent s) + tickets o (threads s) ks.
Definition owns (st : State) (th : Thread) : Prop := exists ph, lease_view st (th_op th) = Some (ph, th_token th).
#[local] Arguments spent : simpl never.
#[local] Arguments goes_on : simpl never.
Record Sound (s : Sys) (ks : list Knowledge) : Prop := {
  sound_programs : Forall2 (fun th κ => wp (build_rule (th_token th) (th_op th)) (th_prog th) κ Any) (threads s) ks;
  sound_tokens : NoDup (th_token <$> threads s);
  sound_drawn : forall th, th ∈ threads s -> th_token th <> "" /\ th_token th ∈ drawn s;
  sound_seen : operation_ids (store s) ⊆ seen s;
  sound_known : forall o, 0 < spent o s ks -> o ∈ seen s;
  sound_leases : forall o ph ow, lease_view (store s) o = Some (ph, ow) -> ow = "" \/ ow ∈ drawn s;
  sound_own : forall th o ph, th ∈ threads s -> lease_view (store s) o = Some (ph, th_token th) -> o = th_op th;
  sound_held : forall i th, threads s !! i = Some th -> ks !! i = Some Held -> owns (store s) th -> spent (th_op th) s ks = 0;
  sound_fresh : forall o ph ow, lease_view (store s) o = Some (ph, ow) -> undispatched ph = true -> spent o s ks = 0;
  sound_once : forall o, spent o s ks <= 1 }.

Lemma tickets_insert o ths ks i th κ p κ' : ths !! i = Some th -> ks !! i = Some κ ->
  tickets o (<[i := mkThread (th_token th) (th_op th) p]> ths) (<[i := κ']> ks) + ticket o th κ = tickets o ths ks + ticket o th κ'.
Proof using Type.
  revert ks i. induction ths as [|x ths IH]; intros [|k ks] [|i]; cbn; try discriminate.
  - intros [= ->] [= ->]. change (ticket o (mkThread (th_token th) (th_op th) p) κ') with (ticket o th κ'). lia.
  - intros Hx Hk. transitivity (ticket o x k + (tickets o ths ks + ticket o th κ')); [rewrite <- (IH ks i Hx Hk); apply eq_sym, Nat.add_assoc|lia].
Qed.
Lemma Elsewhere_careful known st st' : Careful st st' -> Elsewhere known st st'.
Proof using Type.
  intros [Hu _] o. specialize (Hu o). destruct (lease_view st o) as [[ph ow]|], (lease_view st' o) as [[ph' ow']|]; auto.
  destruct Hu as [-> E]. split; [reflexivity|congruence].
Qed.
(** An owned lease was owned before. *)
Lemma Elsewhere_own known st st' o ph ow : Elsewhere known st st' -> lease_view st' o = Some (ph, ow) -> ow <> "" ->
  exists ph0, lease_view st o = Some (ph0, ow).
Proof using Type.
  intros Hm E Hne. specialize (Hm o). rewrite E in Hm. destruct (lease_view st o) as [[ph0 ow0]|]; cbn in Hm.
  - destruct Hm as [[<-|Hm] _]; [eauto|contradiction].
  - destruct Hm; contradiction.
Qed.
Lemma sound_idle s ks o : Sound s ks -> o ∉ seen s -> spent o s ks = 0.
Proof using Type. intros S Ho. destruct (spent o s ks) eqn:E; [reflexivity|]. exfalso. apply Ho, (sound_known _ _ S). lia. Qed.
Lemma sound_moved s ks st' : Sound s ks -> Elsewhere (seen s) (store s) st' -> Sound (moved s st') ks.
Proof using Type.
  intros S Hm. split; cbn; try apply S.
  - intros x Hx. apply elem_of_app. auto.
  - intros o Ho. apply elem_of_app. right. exact (sound_known _ _ S o Ho).
  - intros o ph ow E. destruct (decide (ow = "")) as [->|Hne]; [auto|].
    destruct (Elsewhere_own _ _ _ _ _ _ Hm E Hne) as [ph0 E0]. exact (sound_leases _ _ S _ _ _ E0).
  - intros th o ph Hth E. destruct (Elsewhere_own _ _ _ _ _ _ Hm E (proj1 (sound_drawn _ _ S _ Hth))) as [ph0 E0].
    exact (sound_own _ _ S _ _ _ Hth E0).
  - intros i th Hth Hk [ph E]. assert (Hin : th ∈ threads s) by (eapply list_elem_of_lookup_2; exact Hth).
    apply (sound_held _ _ S i th Hth Hk). exact (Elsewhere_own _ _ _ _ _ _ Hm E (proj1 (sound_drawn _ _ S _ Hin))).
  - intros o ph ow E Hp. specialize (Hm o). rewrite E in Hm. destruct (lease_view (store s) o) as [[ph0 ow0]|] eqn:E0; cbn in Hm.
    + exact (sound_fresh _ _ S _ _ _ E0 (proj2 Hm Hp)).
    + apply (sound_idle _ _ _ S), Hm, Hp.
Qed.
Lemma same_thread s ks i j th th' : Sound s ks -> threads s !! i = Some th -> threads s !! j = Some th' -> th_token th = th_token th' -> i = j.
Proof using Type.
  intros S Hi Hj E. apply (NoDup_lookup (th_token <$> threads s) i j (th_token th)); [exact (sound_tokens _ _ S)| |];
    rewrite list_lookup_fmap; [rewrite Hi|rewrite Hj, E]; reflexivity.
Qed.
(** A save by the thread that holds the lease. *)
Lemma sound_saved s ks i th κ phase release st' : Sound s ks -> threads s !! i = Some th -> ks !! i = Some κ ->
  Saves (th_token th) (th_op th) phase release (store s) st' -> (undispatched phase = true -> κ = Held) -> Sound (moved s st') ks.
Proof using Type.
  intros S Hi Hk ([ph0 E0] & E' & Eo) Hheld. assert (Hin : th ∈ threads s) by (eapply list_elem_of_lookup_2; exact Hi).
  destruct (sound_drawn _ _ S _ Hin) as [Hne Hdrawn].
  assert (Hback : forall o ph ow, lease_view st' o = Some (ph, ow) -> ow <> "" -> exists ph0, lease_view (store s) o = Some (ph0, ow)).
  { intros o ph ow E Hn. destruct (decide (o = th_op th)) as [->|Ho]; [|rewrite (Eo _ Ho) in E; eauto].
    rewrite E' in E. destruct release; injection E as <- <-; [contradiction|eauto]. }
  split; cbn; try apply S.
  - intros x Hx. apply elem_of_app. auto.
  - intros o Ho. apply elem_of_app. right. exact (sound_known _ _ S o Ho).
  - intros o ph ow E. destruct (decide (ow = "")) as [->|Hn]; [auto|]. destruct (Hback _ _ _ E Hn) as [ph1 E1]. exact (sound_leases _ _ S _ _ _ E1).
  - intros th' o ph Hth E. destruct (Hback _ _ _ E (proj1 (sound_drawn _ _ S _ Hth))) as [ph1 E1]. exact (sound_own _ _ S _ _ _ Hth E1).
  - intros j th' Hth Hj [ph E]. assert (Hin' : th' ∈ threads s) by (eapply list_elem_of_lookup_2; exact Hth).
    apply (sound_held _ _ S j th' Hth Hj). exact (Hback _ _ _ E (proj1 (sound_drawn _ _ S _ Hin'))).
  - intros o ph ow E Hp. destruct (decide (o = th_op th)) as [->|Ho]; [|rewrite (Eo _ Ho) in E; exact (sound_fresh _ _ S _ _ _ E Hp)].
    rewrite E' in E. injection E as <- _. rewrite (Hheld Hp) in Hk. apply (sound_held _ _ S i th Hi Hk). exists ph0. exact E0.
Qed.

(** *** The step of one thread *)
(** What the thread knows changes with its program. *)
Definition learns (s : Sys) (th : Thread) (κ κ' : Knowledge) (dispatched : bool) (ks : list Knowledge) : Prop :=
  (κ' = κ /\ dispatched = false)
  \/ (κ = Ticket /\ κ' = Spent /\ dispatched = true)
  \/ (κ = Held /\ κ' = Ticket /\ dispatched = false /\ spent (th_op th) s ks = 0
      /\ exists phase (release : bool), undispatched phase = false
           /\ lease_view (store s) (th_op th) = Some (phase, if release then "" else th_token th)).
Lemma spent_goes_on s ks i th κ κ' p d o : threads s !! i = Some th -> ks !! i = Some κ ->
  spent o (goes_on i th p d s) (<[i := κ']> ks) + ticket o th κ
  = spent o s ks + ticket o th κ' + (if d && bool_decide (th_op th = o) then 1 else 0).
Proof using Type.
  intros Hi Hk. pose proof (tickets_insert o _ _ _ _ _ p κ' Hi Hk) as Ht. unfold spent, goes_on. cbn -[tickets].
  destruct d; cbn -[tickets]; [destruct (bool_decide (th_op th = o))|]; lia.
Qed.
Lemma learns_spent s ks i th κ κ' p d o : threads s !! i = Some th -> ks !! i = Some κ -> learns s th κ κ' d ks ->
  spent o (goes_on i th p d s) (<[i := κ']> ks) = spent o s ks + (if bool_decide (κ = Held /\ κ' = Ticket /\ th_op th = o) then 1 else 0).
Proof using Type.
  intros Hi Hk Hl. pose proof (spent_goes_on s ks i th κ κ' p d o Hi Hk) as E. unfold ticket in E.
  destruct Hl as [[-> ->]|[(-> & -> & ->)|(-> & -> & -> & _)]]; cbn in E.
  - rewrite bool_decide_false by (intros (-> & ? & _); discriminate). lia.
  - rewrite bool_decide_false by (intros (? & _); discriminate). destruct (bool_decide (th_op th = o)); lia.
  - destruct (decide (th_op th = o)) as [Ho|Ho].
    + rewrite (bool_decide_true _ Ho) in E. rewrite bool_decide_true by auto. lia.
    + rewrite (bool_decide_false _ Ho) in E. rewrite bool_decide_false by (intros (_ & _ & ?); contradiction). lia.
Qed.
Lemma lease_seen s ks o v : Sound s ks -> lease_view (store s) o = Some v -> o ∈ seen s.
Proof using Type.
  intros S E. apply (sound_seen _ _ S). unfold lease_view, operationByID in E.
  destruct (find_first (has_id o) (State_Operations (store s))) as [x|] eqn:Ef; [|discriminate].
  apply find_first_Some in Ef as [Hx Ho%has_id_true]. apply list_elem_of_fmap. exists x. auto.
Qed.
Lemma sound_goes_on s ks i th κ κ' p d : Sound s ks -> threads s !! i = Some th -> ks !! i = Some κ -> learns s th κ κ' d ks ->
  wp (build_rule (th_token th) (th_op th)) p κ' Any -> Sound (goes_on i th p d s) (<[i := κ']> ks).
Proof using Type.
  intros S Hi Hk Hl Hp. set (s' := goes_on i th p d s). assert (Hin : th ∈ threads s) by (eapply list_elem_of_lookup_2; exact Hi).
  assert (Hspent : forall o, spent o s' (<[i := κ']> ks) = spent o s ks + (if bool_decide (κ = Held /\ κ' = Ticket /\ th_op th = o) then 1 else 0))
    by (intros o; exact (learns_spent s ks i th κ κ' p d o Hi Hk Hl)).
  assert (Hmem : forall th', th' ∈ threads s' -> exists th0, th0 ∈ threads s /\ th_token th' = th_token th0 /\ th_op th' = th_op th0).
  { intros th' [j Hj]%list_elem_of_lookup. apply list_lookup_insert_Some in Hj as [(_ & <- & _)|[_ Hj]]; [exists th; auto|].
    exists th'. split; [eapply list_elem_of_lookup_2, Hj|auto]. }
  assert (Hnew : κ = Held -> κ' = Ticket -> spent (th_op th) s ks = 0 /\ exists phase (release : bool), undispatched phase = false
      /\ lease_view (store s) (th_op th) = Some (phase, if release then "" else th_token th)).
  { intros -> ->. destruct Hl as [[? _]|[(? & _)|(_ & _ & _ & Hl)]]; [discriminate|discriminate|exact Hl]. }
  split.
  - apply Forall2_insert; [apply S|exact Hp].
  - unfold s', goes_on. cbn. rewrite list_fmap_insert, list_insert_id; [apply S|]. rewrite list_lookup_fmap, Hi. reflexivity.
  - intros th' (th0 & Hth & -> & _)%Hmem. exact (sound_drawn _ _ S _ Hth).
  - apply S.
  - intros o. rewrite Hspent. case_bool_decide as Hg; [|rewrite Nat.add_0_r; apply S]. destruct Hg as (Hh & Ht & <-). intros _.
    destruct (Hnew Hh Ht) as (_ & phase & release & _ & E). exact (lease_seen _ _ _ _ S E).
  - apply S.
  - intros th' o ph (th0 & Hth & -> & ->)%Hmem E. exact (sound_own _ _ S _ _ _ Hth E).
  - intros j th' Hj Hh Ho. rewrite Hspent. apply list_lookup_insert_Some in Hj as [(<- & <- & _)|[Hne Hj]].
    + rewrite list_lookup_insert_eq in Hh by (eapply lookup_lt_Some; exact Hk). injection Hh as ->.
      rewrite bool_decide_false by (intros (_ & ? & _); discriminate). rewrite Nat.add_0_r.
      destruct Hl as [[<- _]|[(_ & ? & _)|(_ & ? & _)]]; [exact (sound_held _ _ S i th Hi Hk Ho)|discriminate|discriminate].
    + rewrite list_lookup_insert_ne in Hh by auto. case_bool_decide as Hg; [|rewrite Nat.add_0_r; exact (sound_held _ _ S j th' Hj Hh Ho)].
      destruct Hg as (Eh & Et & Eo). exfalso. destruct (Hnew Eh Et) as (_ & phase & release & _ & E). destruct Ho as [ph Ho].
      unfold s', goes_on in Ho. cbn in Ho. rewrite <- Eo, E in Ho. injection Ho as _ Ho. destruct release.
      * apply (proj1 (sound_drawn _ _ S th' ltac:(eapply list_elem_of_lookup_2; exact Hj))). auto.
      * apply Hne. exact (same_thread _ _ _ _ _ _ S Hi Hj Ho).
  - intros o ph ow E Hu. rewrite Hspent. case_bool_decide as Hg; [|rewrite Nat.add_0_r; exact (sound_fresh _ _ S _ _ _ E Hu)].
    destruct Hg as (Hh & Ht & <-). destruct (Hnew Hh Ht) as (_ & phase & release & Hph & E'). unfold s', goes_on in E. cbn in E.
    rewrite E' in E. injection E as <- _. congruence.
  - intros o. rewrite Hspent. case_bool_decide as Hg; [|rewrite Nat.add_0_r; apply S].
    destruct Hg as (Hh & Ht & <-). rewrite (proj1 (Hnew Hh Ht)). reflexivity.
Qed.
Lemma sound_run s ks i th st' p' : Sound s ks -> threads s !! i = Some th -> runs (store s) (th_prog th) st' p' ->
  exists ks', Sound (goes_on i th p' (sends (th_prog th)) (moved s st')) ks'.
Proof using Type.
  intros S Hi Hr. destruct (Forall2_lookup_l _ _ _ _ _ (sound_programs _ _ S) Hi) as (κ & Hk & Hwp).
  assert (Hstay : forall st1, Sound (moved s st1) ks -> forall p1, wp (build_rule (th_token th) (th_op th)) p1 κ Any ->
    exists ks', Sound (goes_on i th p1 false (moved s st1)) ks').
  { intros st1 S1 p1 Hp. eexists. apply (sound_goes_on _ ks i th κ κ p1 false S1 Hi Hk); [left; auto|exact Hp]. }
  assert (Hsame : Sound (moved s (store s)) ks) by (apply sound_moved; [exact S|apply Elsewhere_careful; reflexivity]).
  assert (Hallowed : forall st1, Allowed (th_token th) (th_op th) κ (store s) st1 -> Sound (moved s st1) ks).
  { intros st1 [Hc|(phase & release & Hs & Hu)]; [apply sound_moved; [exact S|apply Elsewhere_careful, Hc]|].
    exact (sound_saved _ _ _ _ _ _ _ _ S Hi Hk Hs Hu). }
  destruct (th_prog th) as [|X e k]; [contradiction|]. destruct Hr as (x & Ho & ->). cbn in Hwp.
  destruct e as [|A f| | |A c]; cbn in Ho, Hwp; cbn [sends].
  - destruct Ho as [-> _]. apply Hstay; [exact Hsame|apply Hwp].
  - destruct Hwp as (g & Hf & Hok & Herr). destruct x as [a|e].
    + destruct Ho as (w & c & Ef). destruct (Hf _ _ _ _ _ Ef) as [Ha Hg]. destruct g; [|apply Hstay; [exact (Hallowed _ Ha)|apply Hok]].
      destruct (Hg eq_refl) as (Hh & phase & release & Hs & Hu). eexists. apply (sound_goes_on _ ks i th κ Ticket _ _ (Hallowed _ Ha) Hi Hk); [|apply Hok].
      right. right. split; [exact Hh|]. split; [reflexivity|]. split; [reflexivity|]. split.
      * rewrite Hh in Hk. exact (sound_held _ _ S i th Hi Hk (proj1 Hs)).
      * exists phase, release. split; [exact Hu|apply Hs].
    + apply Hstay; [|apply Herr]. destruct Ho as [->|(w & c & a & Ef)]; [exact Hsame|]. exact (Hallowed _ (proj1 (Hf _ _ _ _ _ Ef))).
  - rewrite Ho. apply Hstay; [exact Hsame|apply Hwp].
  - rewrite Ho. apply Hstay; [exact Hsame|apply Hwp].
  - rewrite Ho. destruct Hwp as [Hd Hw]. destruct (dispatches c); [|apply Hstay; [exact Hsame|apply Hw]].
    eexists. apply (sound_goes_on _ ks i th κ Spent _ _ Hsame Hi Hk); [|apply Hw]. right. left. auto.
Qed.

(** *** A claim *)
Lemma find_claimed o i (v0 v : ExternalOperation) l : l !! i = Some v0 -> ID v = ID v0 ->
  find_first (has_id o) (<[i := v]> l) = find_first (has_id o) l
  \/ (o = ID v /\ find_first (has_id o) l = Some v0 /\ find_first (has_id o) (<[i := v]> l) = Some v).
Proof using Type.
  intros Hi E. revert i Hi. induction l as [|x l IH]; intros [|i]; cbn; try discriminate.
  - intros [= ->]. unfold has_id. rewrite E. case_bool_decide as Ho; [right; auto|left; reflexivity].
  - intros Hi. destruct (has_id o x); [left; reflexivity|exact (IH i Hi)].
Qed.
Lemma claim_view t token st st' v : claim_tx t token st = (st', Some v) -> forall o,
  lease_view st' o = lease_view st o
  \/ (o = ID v /\ (exists ow, lease_view st o = Some (ExternalOperation_Phase v, ow)) /\ lease_view st' o = Some (ExternalOperation_Phase v, token)).
Proof using Type.
  unfold claim_tx. destruct (claim_candidate t (State_Operations st)) as [i|]; cbn; [|discriminate].
  destruct (State_Operations st !! i) as [v0|] eqn:Hi; cbn; [|discriminate]. intros [= <- <-] o. unfold lease_view, operationByID.
  change (State_Operations (st <| State_Operations ::= <[i := claimed t token v0]> |>)) with (<[i := claimed t token v0]> (State_Operations st)).
  destruct (find_claimed o i v0 (claimed t token v0) _ Hi eq_refl) as [E|(-> & E & E')].
  - left. rewrite E. reflexivity.
  - right. rewrite E, E'. split; [reflexivity|]. split; [exists (ExternalOperation_LeaseOwner v0)|]; reflexivity.
Qed.
Definition leased (s : Sys) (token : string) (st : State) : Sys :=
  mkSys st (threads s) (token :: drawn s) (operation_ids st ++ seen s) (sent s).
Lemma sound_leased s ks t token st' v : Sound s ks -> token ∉ drawn s -> claim_tx t token (store s) = (st', Some v) -> Sound (leased s token st') ks.
Proof using Type.
  intros S Hnew Hc. pose proof (claim_view _ _ _ _ _ Hc) as Hv.
  assert (Hold : forall th o ph, th ∈ threads s -> lease_view st' o = Some (ph, th_token th) -> lease_view (store s) o = Some (ph, th_token th)).
  { intros th o ph Hth E. destruct (Hv o) as [<-|(_ & _ & E')]; [exact E|]. rewrite E' in E. injection E as _ ->.
    exfalso. apply Hnew, (sound_drawn _ _ S _ Hth). }
  split; cbn; try apply S.
  - intros th Hth. split; [apply (sound_drawn _ _ S _ Hth)|]. right. apply (sound_drawn _ _ S _ Hth).
  - intros x Hx. apply elem_of_app. auto.
  - intros o Ho. apply elem_of_app. right. exact (sound_known _ _ S o Ho).
  - intros o ph ow E. destruct (Hv o) as [E'|(_ & _ & E')]; rewrite E in E'.
    + destruct (sound_leases _ _ S o ph ow (eq_sym E')) as [->|Hd]; [auto|right; right; exact Hd].
    + injection E' as -> ->. right. left.
  - intros th o ph Hth E. exact (sound_own _ _ S _ _ _ Hth (Hold _ _ _ Hth E)).
  - intros i th Hi Hk [ph E]. apply (sound_held _ _ S i th Hi Hk). exists ph. apply Hold; [eapply list_elem_of_lookup_2; exact Hi|exact E].
  - intros o ph ow E Hu. destruct (Hv o) as [E'|(_ & (ow0 & E0) & E')]; rewrite E in E'.
    + exact (sound_fresh _ _ S o ph ow (eq_sym E') Hu).
    + injection E' as -> ->. exact (sound_fresh _ _ S o _ _ E0 Hu).
Qed.
Lemma tickets_app o ths ks ths' ks' : length ths = length ks -> tickets o (ths ++ ths') (ks ++ ks') = tickets o ths ks + tickets o ths' ks'.
Proof using Type.
  revert ks. induction ths as [|x ths IH]; intros [|k ks]; cbn; intros E; try discriminate; [reflexivity|].
  injection E as E. rewrite (IH _ E). lia.
Qed.
Definition joined (th : Thread) (s : Sys) : Sys := mkSys (store s) (threads s ++ [th]) (drawn s) (seen s) (sent s).
Lemma sound_joined s ks th κ : Sound s ks -> κ <> Ticket -> wp (build_rule (th_token th) (th_op th)) (th_prog th) κ Any ->
  th_token th <> "" -> th_token th ∈ drawn s -> th_token th ∉ th_token <$> threads s ->
  (forall o ph, lease_view (store s) o = Some (ph, th_token th) -> o = th_op th) ->
  (κ = Held -> owns (store s) th -> spent (th_op th) s ks = 0) -> Sound (joined th s) (ks ++ [κ]).
Proof using Type.
  intros S Hκ Hp Hne Hd Hnew Hown Hheld. pose proof (list.Forall2_length _ _ _ (sound_programs _ _ S)) as Hlen.
  assert (Hspent : forall o, spent o (joined th s) (ks ++ [κ]) = spent o s ks).
  { intros o. unfold spent, joined. cbn. rewrite tickets_app by exact Hlen. destruct κ; cbn; try lia. contradiction. }
  assert (Hmem : forall th', th' ∈ threads s ++ [th] -> th' ∈ threads s \/ th' = th).
  { intros th' [Hth|Hth%list_elem_of_singleton]%elem_of_app; auto. }
  split; cbn; try apply S.
  - apply Forall2_app; [apply S|]. constructor; [exact Hp|constructor].
  - rewrite fmap_app. apply list.NoDup_app. split; [apply S|]. split; [|apply NoDup_singleton].
    intros x Hx Hx'%list_elem_of_singleton. subst x. contradiction.
  - intros th' [Hth| ->]%Hmem; [exact (sound_drawn _ _ S _ Hth)|auto].
  - intros o. rewrite Hspent. apply S.
  - intros th' o ph [Hth| ->]%Hmem; [exact (sound_own _ _ S _ _ _ Hth)|apply Hown].
  - intros j th' Hj Hk Ho. rewrite Hspent. apply lookup_app_Some in Hj as [Hj|[Hlt Hj]].
    + rewrite lookup_app_l in Hk by (rewrite <- Hlen; eapply lookup_lt_Some; exact Hj). exact (sound_held _ _ S j th' Hj Hk Ho).
    + rewrite lookup_app_r in Hk by (rewrite <- Hlen; exact Hlt). apply list_lookup_singleton_Some in Hj as [Ej <-].
      rewrite <- Hlen, Ej in Hk. injection Hk as ->. auto.
  - intros o ph ow. rewrite Hspent. apply S.
  - intros o. rewrite Hspent. apply S.
Qed.
Lemma keep_claimed op token κ : contains other_kinds (ExternalOperation_Kind op) = false -> Entitled (ID op) κ op ->
  wp (build_rule token (ID op)) (tick_claimed op token) κ Any.
Proof using Type.
  intros Ho He. unfold tick_claimed. rewrite Ho. destruct (contains ["CREATE_BRANCH"; "PIN_REVISION"] _); [apply keep_branch, He|].
  destruct (_ == _); [apply keep_tick_activation, He|]. destruct (_ == _); [apply keep_deploy, He|]. apply wp_finish, He.
Qed.
Lemma sound_claim s ks t token st' v : Sound s ks -> token <> "" -> token ∉ drawn s -> claim_tx t token (store s) = (st', Some v) ->
  exists ks', Sound (mkSys st' (threads s ++ start v token) (token :: drawn s) (operation_ids st' ++ seen s) (sent s)) ks'.
Proof using Type.
  intros S Hne Hnew Hc. pose proof (sound_leased _ _ _ _ _ _ S Hnew Hc) as S'. pose proof (claim_view _ _ _ _ _ Hc) as Hv. unfold start.
  destruct (contains other_kinds (ExternalOperation_Kind v)) eqn:Ho; [exists ks; rewrite app_nil_r; exact S'|].
  set (κ := if undispatched (ExternalOperation_Phase v) then Held else Spent).
  assert (Hlease : forall o ph, lease_view st' o = Some (ph, token) -> o = ID v /\ exists ow, ph = ExternalOperation_Phase v /\ lease_view (store s) o = Some (ph, ow)).
  { intros o ph E. destruct (Hv o) as [E'|(-> & (ow & E0) & E')]; rewrite E in E'.
    - destruct (sound_leases _ _ S o ph token (eq_sym E')); contradiction.
    - injection E' as ->. eauto. }
  set (th := mkThread token (ID v) (tick_claimed v token)). exists (ks ++ [κ]). change (Sound (joined th (leased s token st')) (ks ++ [κ])).
  apply sound_joined; [exact S'|..].
  - unfold κ. destruct (undispatched _); discriminate.
  - apply keep_claimed; [exact Ho|]. split; [reflexivity|]. unfold κ. intros ->. reflexivity.
  - exact Hne.
  - left.
  - intros (th' & E & Hth)%list_elem_of_fmap. apply Hnew. cbn in E. rewrite E. exact (proj2 (sound_drawn _ _ S _ Hth)).
  - intros o ph E. exact (proj1 (Hlease o ph E)).
  - intros Hh [ph E]. cbn in E. destruct (Hlease _ _ E) as (_ & ow & -> & E0). unfold κ in Hh.
    destruct (undispatched _) eqn:Hu; [|discriminate]. exact (sound_fresh _ _ S _ _ _ E0 Hu).
Qed.
Lemma sound_started s : Started s -> Sound s [].
Proof using Type.
  intros (Ht & Hs & Hids & Hl). assert (Hz : forall o, spent o s [] = 0) by (intros o; unfold spent; rewrite Ht, Hs; reflexivity).
  assert (Hnone : forall th, th ∉ threads s) by (intros th Hth; rewrite Ht in Hth; inversion Hth).
  split; [rewrite Ht; constructor|rewrite Ht; constructor|intros th Hth; destruct (Hnone th Hth)|exact Hids| |exact Hl| | | |].
  - intros o. rewrite Hz. lia.
  - intros th o ph Hth. destruct (Hnone th Hth).
  - intros i th Hi. rewrite Ht in Hi. discriminate.
  - intros o ph ow _ _. apply Hz.
  - intros o. rewrite Hz. auto.
Qed.
Lemma sound_moves s s' : Step s s' -> (exists ks, Sound s ks) -> exists ks, Sound s' ks.
Proof using Type.
  intros Hs [ks S]. destruct Hs as [t token st' v s Hne Hd Hc|i th st' p' s Hi Hr|i th s Hi|st' s Hm].
  - exact (sound_claim _ _ _ _ _ _ S Hne Hd Hc).
  - exact (sound_run _ _ _ _ _ _ S Hi Hr).
  - destruct (Forall2_lookup_l _ _ _ _ _ (sound_programs _ _ S) Hi) as (κ & Hk & _). eexists.
    apply (sound_goes_on _ ks i th κ κ _ _ S Hi Hk); [left; auto|exact I].
  - exists ks. exact (sound_moved _ _ _ S Hm).
Qed.
(** *** Schedules that can be evaluated *)
Definition claim_at (t : Time) (token : string) (s : Sys) : Sys :=
  match claim_tx t token (store s) with
  | (st', Some v) => mkSys st' (threads s ++ start v token) (token :: drawn s) (operation_ids st' ++ seen s) (sent s)
  | (_, None) => s
  end.
(** [n] effects of the thread [i], answered by [h]. *)
Fixpoint drive (h : Environment_replies) (n i : nat) (s : Sys) : Sys :=
  match n, threads s !! i with
  | S n, Some th =>
    match th_prog th with
    | Ret _ => s
    | Do e k => let '(st', x) := answer h e (store s) in drive h n i (goes_on i th (k x) (sends (th_prog th)) (moved s st'))
    end
  | _, _ => s
  end.
Definition crash (i : nat) (s : Sys) : Sys :=
  match threads s !! i with Some th => goes_on i th (Ret (Ok ())) false s | None => s end.
Lemma claim_at_step t token s : token <> "" -> token ∉ drawn s -> rtc Step s (claim_at t token s).
Proof using Type.
  intros Hne Hd. unfold claim_at. destruct (claim_tx t token (store s)) as [st' [v|]] eqn:E; [|apply rtc_refl].
  apply rtc_once. exact (step_claim t token st' v s Hne Hd E).
Qed.
Lemma drive_steps h n i s : rtc Step s (drive h n i s).
Proof using Type.
  revert s. induction n as [|n IH]; intros s; cbn; [apply rtc_refl|]. destruct (threads s !! i) as [th|] eqn:Hi; [|apply rtc_refl].
  destruct (th_prog th) as [a|X e k] eqn:Hp; [apply rtc_refl|]. destruct (answer h e (store s)) as [st' x] eqn:Ha.
  eapply rtc_l; [|apply IH]. rewrite <- Hp. apply step_run; [exact Hi|]. rewrite Hp. exists x. split; [|reflexivity].
  pose proof (answer_outcome h e (store s)) as Ho. rewrite Ha in Ho. exact Ho.
Qed.
Lemma crash_step i s : rtc Step s (crash i s).
Proof using Type. unfold crash. destruct (threads s !! i) as [th|] eqn:Hi; [|apply rtc_refl]. apply rtc_once, step_crash, Hi. Qed.

(** From a start, whatever the interleaving, at most one dispatch of the build
    of an operation is sent; Interleaving.v discharges [Elsewhere] for the
    commands and the requests of external workers. *)
Lemma dispatched_once s0 s o : Started s0 -> rtc Step s0 s -> occurrences o (sent s) <= 1.
Proof using Type.
  intros Hs0 Hr. assert (Hi : exists ks, Sound s ks).
  { exact (rtc_invariant Step _ sound_moves s0 s Hr (ex_intro _ [] (sound_started _ Hs0))). }
  destruct Hi as [ks S]. pose proof (sound_once _ _ S o). unfold spent in *. lia.
Qed.
End system.
