(* ===== verification/GitOpsIntent.v ===== *)
(** * What the worker writes to GitOps

    A step that writes to a GitOps repository has first seen the store with
    the destination unchanged, has read the manifest it replaces, and has
    committed, under its lease and under the fence of the environment, the
    intent of exactly this write.  The statement is about every execution of
    a step, against any store and any replies. *)
From S2P Require Import Prelude GoText GoJson Delivery Domain Status Planning Handlers DeviceAuth Collections ExternalSystems Reservation Composition Conflicts Scenarios Pins WorkerAuth WorkerJobs Publications Registry Restoration Checks WorkerProtocol External Candidates Activation FlowGuards Effects Saving SourceChecks ActivationWorker NativeWorker Operations OperationSafety Executions.
Open Scope string_scope.
Open Scope list_scope.

(** ** The calls to watch *)
Definition gitops_write (A : Type) (c : Call A) : bool :=
  match c with ApplyGitOps _ _ | ProposeGitOps _ _ | ProposeGitOpsBatch _ _ _ => true | _ => false end.
#[export] Instance gitops_watches : Watches gitops_write.
Proof. intros A c. destruct c; cbn; congruence. Qed.
Abbreviation writeless p := (quiet gitops_write p).

Section programs.
Context `{Runtime, NetURL, Upper, MapOrder, URLs, Hashing, Encoding, RestorationEvidence, Operator, Baselines, ComposeLease, Capabilities}.
Context (token : string).
Implicit Types (op : ExternalOperation).
Lemma writeless_save op phase status detail ev rel : writeless (save op token phase status detail ev rel).
Proof using Type. unfold save. quiet_prog. Qed.
#[local] Hint Resolve writeless_save : quiet.
Lemma writeless_finish op status detail ev : writeless (finish op token status detail ev).
Proof using Type. apply writeless_save. Qed.
Lemma writeless_advance op phase status detail ev : writeless (advance op token phase status detail ev).
Proof using Type. apply writeless_save. Qed.
#[local] Hint Resolve writeless_finish writeless_advance : quiet.
Lemma writeless_retry op detail : writeless (retry op token detail).
Proof using Type. unfold retry. quiet_prog. Qed.
Lemma writeless_record op availability a : writeless (recordArtifactObservation op availability a).
Proof using Type. unfold recordArtifactObservation. quiet_prog. Qed.
#[local] Hint Resolve writeless_retry writeless_record : quiet.
Lemma writeless_wait op snap : writeless (waitGitOpsPR op snap token).
Proof using Type.
  unfold waitGitOpsPR, waitDevActivationGroup, observe_group, settle_group, observe_pull_request, merged_pull_request. quiet_prog.
Qed.
Lemma writeless_preflights op snap : writeless (promotion_preflight op snap token) /\ writeless (preflight op snap token).
Proof using Type.
  split; [unfold promotion_preflight; quiet_prog|].
  unfold preflight, capture_revision, preflight_gitops, probe_artifact, rebuild_missing, reuse_artifact. quiet_prog.
Qed.
Lemma writeless_build op snap : writeless (dispatch_build op snap token) /\ writeless (build_lookup op snap token).
Proof using Type. split; [unfold dispatch_build|unfold build_lookup, build_report]; quiet_prog. Qed.
Lemma writeless_inspect st op snap : writeless (inspect st op snap token).
Proof using Type. unfold inspect, inspect_activated, inspect_member. quiet_prog. Qed.
Lemma writeless_native op : writeless (tickNativeDelivery op token).
Proof using Type. unfold tickNativeDelivery. quiet_prog. Qed.
Lemma writeless_branch op : writeless (tickManagedBranch op token).
Proof using Type. unfold tickManagedBranch, create_from_base, ensure_branch. quiet_prog. Qed.
Lemma writeless_aggregate op : writeless (tickDevActivation op token).
Proof using Type. unfold tickDevActivation, aggregate_children. quiet_prog. Qed.
End programs.

(** ** The intent of a write *)
Section intent.
Context `{Runtime, NetURL, Upper, MapOrder, URLs, Hashing, Encoding, RestorationEvidence, Operator, Baselines, ComposeLease, Capabilities}.
Context (token : string).
Implicit Types (op v : ExternalOperation).
(** The store records that [token] is about to make the write [a] for the
    operation [o]. *)
Definition recorded_apply (st : State) (o : string) (a : GitOpsApply) : Prop :=
  exists saved base artifact, operationByID st o = Some saved /\ ExternalOperation_LeaseOwner saved = token
  /\ ExternalOperation_Phase saved = "APPLY_UNCERTAIN" /\ ExternalOperation_GitOpsBase saved = Some base
  /\ ExternalOperation_Artifact saved = Some artifact /\ GitOpsApply_ExpectedHeadSHA a = GitOpsSnapshot_HeadSHA base
  /\ GitOpsApply_ExpectedBlobSHA a = GitOpsSnapshot_BlobSHA base /\ GitOpsApply_Digest a = ArtifactResult_Digest artifact
  /\ GitOpsApply_OperationID a = o.
Definition recorded_batch (st : State) (o : string) (b : GitOpsBatchApply) : Prop :=
  exists saved, operationByID st o = Some saved /\ ExternalOperation_LeaseOwner saved = token
  /\ ExternalOperation_Phase saved = "APPLY_UNCERTAIN" /\ ExternalOperation_DevActivationBatch saved = Some b
  /\ GitOpsBatchApply_OperationID b = o.
(** What the application knows when it writes [a] for the operation it claimed
    as [v]: a view of the store where the destination stands as it was frozen;
    the manifest as it is in the repository, still the blob that was inspected;
    and the commit of the intent, under the fence of the environment. *)
Definition apply_permitted v (conn : Connection) (a : GitOpsApply) (past : list Happening) : Prop :=
  exists snap base artifact, ExternalOperation_Snapshot v = Some snap /\ ExternalOperation_GitOpsBase v = Some base
  /\ ExternalOperation_Artifact v = Some artifact /\ conn = DeliverySnapshot_GitOpsConnection snap
  /\ (exists seen, Saw seen ∈ past /\ destination_unchanged (derive seen) v snap = true)
  /\ (exists current : GitOpsSnapshot, @Answered GitOpsSnapshot (ReadGitOps conn (DeliverySnapshot_GitOpsRequest snap)) (current, None) ∈ past
      /\ GitOpsSnapshot_BlobSHA current = GitOpsSnapshot_BlobSHA base
      /\ a = gitOpsPRApply v snap (base <| GitOpsSnapshot_HeadSHA := GitOpsSnapshot_HeadSHA current |>) artifact)
  /\ (exists before after op, Committed before after ∈ past /\ ID op = ID v /\ reservationOperationAllowed before op = Ok () /\ recorded_apply after (ID v) a).
(** What the application knows when it proposes the batch [b] of a group: a
    view of the store in which [v] leads the group and every member is ready;
    one change per member, of its artifact, over the manifest it was seen to
    have as the activation's baseline; every manifest reread at the head the
    batch expects with the blob it replaces; and the commit of the batch under
    the guard of the activation. *)
Definition group_view v seen (p : DevActivationProof) (g : DevActivationGroup) : Prop :=
  (exists parent, devActivationParent seen v = Some parent /\ ExternalOperation_DevActivation parent = Some p)
  /\ activationGroup p (ExternalOperation_DevActivationGroupID v) = Some g /\ ID v = DevActivationGroup_LeaderID g
  /\ members_ready seen (DevActivationGroup_MemberIDs g) = Ok true.
Definition member_change (p : DevActivationProof) (g : DevActivationGroup) (past : list Happening) (id : string) (change : GitOpsImageChange) : Prop :=
  exists c head (base : GitOpsSnapshot), activationComponent p id = Some c
  /\ change = mkGitOpsImageChange id (DevActivationComponent_Selector c) (DevRuntimeGitOpsObservation_BlobSHA (DevActivationComponent_Baseline c))
       (DeliveryArtifact_ImageRepository (DevActivationComponent_Artifact c)) (DeliveryArtifact_Digest (DevActivationComponent_Artifact c))
  /\ @Answered GitOpsSnapshot (ReadGitOps (DevActivationGroup_Connection g) ((DevActivationComponent_Selector c) <| GitOpsRequest_ExpectedHeadSHA := head |>))
       (base, None) ∈ past /\ selected_baseline c head base = true.
Definition reread_unmoved (g : DevActivationGroup) (head : string) (past : list Happening) (change : GitOpsImageChange) : Prop :=
  exists current : GitOpsSnapshot,
  @Answered GitOpsSnapshot (ReadGitOps (DevActivationGroup_Connection g) ((GitOpsImageChange_Selector change) <| GitOpsRequest_ExpectedHeadSHA := head |>))
    (current, None) ∈ past
  /\ GitOpsSnapshot_HeadSHA current = head /\ GitOpsSnapshot_BlobSHA current = GitOpsImageChange_ExpectedBlobSHA change.
Record batch_permitted v (conn : Connection) (b : GitOpsBatchApply) (past : list Happening) : Prop := {
  batch_group : exists seen p g, Saw seen ∈ past /\ group_view v seen p g /\ conn = DevActivationGroup_Connection g
    /\ GitOpsBatchApply_Repository b = DevActivationGroup_Repository g /\ GitOpsBatchApply_Ref b = DevActivationGroup_Ref g
    /\ Forall2 (member_change p g past) (DevActivationGroup_MemberIDs g) (GitOpsBatchApply_Changes b)
    /\ Forall (reread_unmoved g (GitOpsBatchApply_ExpectedHeadSHA b) past) (GitOpsBatchApply_Changes b);
  batch_committed : exists before after op, Committed before after ∈ past /\ ID op = ID v /\ devActivationGuard before op = Ok ()
    /\ recorded_batch after (ID v) b;
}.
Definition permitted v (A : Type) (c : Call A) (past : list Happening) : Prop :=
  match c with
  | ApplyGitOps conn a | ProposeGitOps conn a => apply_permitted v conn a past
  | ProposeGitOpsBatch conn b _ => batch_permitted v conn b past
  | _ => True
  end.
Abbreviation respects v p past := (wp (watch_rule gitops_write (permitted v)) p past Any).

(** Looking at the store. *)
Lemma wp_state v {A} (k : State -> Prog (res A)) past : (forall seen, respects v (k (derive seen)) (Saw seen :: past)) -> respects v (try service_state k) past.
Proof using Type.
  intros Hk. unfold service_state. apply wp_try; [apply watch_mono|]. split; [exact I|]. intros st st' [seen|e]; cbn; intros [-> Hs]; [|exact I].
  subst seen. exact (Hk st).
Qed.
Lemma wp_saved v op phase status detail ev rel past (Φ : list Happening -> res unit -> Prop) :
  (forall (w : World) c before after, save_tx c op token (mkStep phase status (str_take 1000 detail) ev rel) before = Ok after ->
     Φ (Committed before after :: past) (Ok ())) ->
  (forall e, Φ past (Err e)) -> wp (watch_rule gitops_write (permitted v)) (save op token phase status detail ev rel) past Φ.
Proof using Type.
  intros Hok Herr. split; [exact I|]. intros st st' [[]|e]; cbn; [|intros _; apply Herr]. intros (w & c & Hs).
  destruct (save_tx c op token _ st) as [st1|] eqn:E; [|discriminate]. injection Hs as <-. exact (Hok w c st st1 E).
Qed.

(** A commit of the phase [APPLY_UNCERTAIN]. *)
Lemma frozen_proofs_keeps `{World} op s st current status u : let v := frozen_proofs op s st current status u in
  ID v = ID u /\ ExternalOperation_GitOpsBase v = ExternalOperation_GitOpsBase u /\ ExternalOperation_Artifact v = ExternalOperation_Artifact u
  /\ ExternalOperation_DevActivationBatch v = ExternalOperation_DevActivationBatch u.
Proof using Type.
  cbv zeta. unfold frozen_proofs. cbv zeta. destruct (negb _); [auto|].
  destruct (ExternalOperation_GitOpsPR op), (ExternalOperation_GitOpsResult op); repeat match goal with |- context [if ?b then _ else _] => destruct b end; auto.
Qed.
Lemma intent_saved `{World} c op s before after : save_tx c op token s before = Ok after -> Step_status s = "GITOPS_PENDING" -> Step_release s = false ->
  reservationOperationAllowed before op = Ok () /\ exists saved, operationByID after (ID op) = Some saved
  /\ ExternalOperation_LeaseOwner saved = token /\ ExternalOperation_Phase saved = Step_phase s
  /\ ExternalOperation_GitOpsBase saved = ExternalOperation_GitOpsBase op /\ ExternalOperation_Artifact saved = ExternalOperation_Artifact op
  /\ ExternalOperation_DevActivationBatch saved = ExternalOperation_DevActivationBatch op.
Proof using Type.
  intros (current & status & detail & Hc & Ho & Hf & _ & E)%save_tx_Ok Hs Hr. split.
  - unfold save_fences in Hf. rewrite Hs in Hf. change (stopping "GITOPS_PENDING") with false in Hf. apply bind_Ok in Hf as (u1 & _ & Hf).
    apply bind_Ok in Hf as (u2 & _ & Hf). apply bind_Ok in Hf as ([] & Hf & _). exact Hf.
  - eexists. destruct (saved_facts op token s before current status detail) as (Hid & Hph & How & _). cbv zeta in *. rewrite Hr in How.
    split; [|split; [exact How|split; [exact Hph|]]].
    + unfold operationByID. rewrite E. apply find_replaced; [symmetry; exact Hid|]. unfold operationByID in Hc. rewrite Hc. reflexivity.
    + destruct (frozen_proofs_keeps op s before current status (op <| ExternalOperation_ReservationMutationIntent := settled_intent op s current status |>))
        as (_ & Eb & Ea & Et). cbv zeta in *. repeat split; [exact Eb|exact Ea|exact Et].
Qed.

(** *** Steps that write *)
Hint Resolve writeless_save writeless_finish writeless_advance writeless_retry writeless_record : quiet.
Ltac quiet_rest := apply wp_quiet; quiet_prog.
Lemma respects_write v op snap a past : apply_permitted v (DeliverySnapshot_GitOpsConnection snap) a past -> respects v (write_gitops op snap a token) past.
Proof using Type.
  intros Hp. unfold write_gitops, proposeGitOpsPR. destruct (_ == _).
  - destruct (negb _); [quiet_rest|]. apply wp_call; [intros _; exact Hp|]. intros [pr e]. quiet_rest.
  - apply wp_call; [intros _; exact Hp|]. intros [r e]. quiet_rest.
Qed.
Lemma respects_commit v snap base artifact (current : GitOpsSnapshot) seen past : ExternalOperation_Snapshot v = Some snap ->
  ExternalOperation_GitOpsBase v = Some base -> ExternalOperation_Artifact v = Some artifact ->
  Saw seen ∈ past -> destination_unchanged (derive seen) v snap = true ->
  @Answered GitOpsSnapshot (ReadGitOps (DeliverySnapshot_GitOpsConnection snap) (DeliverySnapshot_GitOpsRequest snap)) (current, None) ∈ past ->
  GitOpsSnapshot_BlobSHA current = GitOpsSnapshot_BlobSHA base ->
  let base' := base <| GitOpsSnapshot_HeadSHA := GitOpsSnapshot_HeadSHA current |> in
  respects v (commit_intent (v <| ExternalOperation_GitOpsBase := Some base' |>) snap base' artifact token) past.
Proof using Type.
  intros Hsnap Hbase Hart Hseen Hdest Hread Hblob base'. unfold commit_intent. apply wp_bind; [apply watch_mono|].
  apply wp_saved; [|intros e; destruct (is_validation e); quiet_rest].
  intros w c before after Hs. apply intent_saved in Hs as (Hallowed & saved & Hop & Hown & Hph & Hb & Ha & _); [|reflexivity|reflexivity].
  apply respects_write. exists snap, base, artifact. split; [exact Hsnap|]. split; [exact Hbase|]. split; [exact Hart|]. split; [reflexivity|].
  split; [exists seen; split; [right; exact Hseen|exact Hdest]|]. split; [exists current; split; [right; exact Hread|split; [exact Hblob|reflexivity]]|].
  exists before, after, (v <| ExternalOperation_GitOpsBase := Some base' |>). split; [left|]. split; [reflexivity|]. split; [exact Hallowed|].
  exists saved, base', artifact. split; [exact Hop|]. split; [exact Hown|]. split; [exact Hph|]. split; [exact Hb|]. split; [|repeat split].
  rewrite Ha. exact Hart.
Qed.
Lemma respects_apply v snap past : ExternalOperation_Snapshot v = Some snap -> respects v (apply_gitops v snap token) past.
Proof using Type.
  intros Hsnap. unfold apply_gitops. apply wp_after; [quiet_prog|]. intros past1 [u1|e]; [|quiet_rest].
  apply wp_after; [quiet_prog|]. intros past2 [u2|e]; [|quiet_rest]. apply wp_state. intros seen.
  destruct (destination_unchanged (derive seen) v snap) eqn:Hdest; cbn [negb]; [|quiet_rest].
  destruct (ExternalOperation_Artifact v) as [artifact|] eqn:Hart; [|quiet_rest].
  destruct (ExternalOperation_GitOpsBase v) as [base|] eqn:Hbase; [|quiet_rest]. unfold compare_gitops. apply wp_call; [discriminate|].
  intros [current e]. destruct e as [e|]; cbn [is_some]; [quiet_rest|]. destruct (_ && _); [quiet_rest|].
  destruct (_ || _) eqn:Hm; [quiet_rest|]. apply orb_false_iff in Hm as [_ Hm]. apply negb_false_iff, bool_decide_eq_true in Hm.
  apply (respects_commit v snap base artifact current seen); [exact Hsnap|exact Hbase|exact Hart|right; left|exact Hdest|left|exact Hm].
Qed.
Lemma group_fence st op : group_authority op = true -> reservationOperationAllowed st op = Ok () -> devActivationGuard st op = Ok ().
Proof using Type.
  unfold reservationOperationAllowed. intros -> Ha. apply bind_guard in Ha as [Hg Ha]; [|discriminate].
  apply negb_false_iff in Hg. rewrite Hg in Ha. exact Ha.
Qed.
(** What preparing the proposal of a group establishes. *)
Abbreviation learns p past Φ := (learns gitops_write p past Φ).
Ltac settled := apply learns_check; intros ? ?.
Lemma member_change_mono p g past past' id c : (forall h, h ∈ past -> h ∈ past') -> member_change p g past id c -> member_change p g past' id c.
Proof using Type. intros Hi (k & head & base & Hk & Hc & Ha & Hb). exists k, head, base. auto. Qed.
Lemma reread_mono g head past past' c : (forall h, h ∈ past -> h ∈ past') -> reread_unmoved g head past c -> reread_unmoved g head past' c.
Proof using Type. intros Hi (k & Ha & Hb). exists k. auto. Qed.
Definition group_prepared (p : DevActivationProof) (g : DevActivationGroup) (done : list string) (acc : Halt + string * list GitOpsImageChange)
    (past : list Happening) : Prop :=
  match acc with inl _ => True | inr (_, changes) => Forall2 (member_change p g past) done changes end.
Lemma learns_member v st p g done id acc past : group_prepared p g done acc past ->
  learns (prepare_member v st p g acc id) past (fun past' acc' => group_prepared p g (done ++ [id]) acc' past').
Proof using Type.
  intros Hd. unfold prepare_member. destruct acc as [halt|[head changes]]; [settled; simplify_eq; exact I|].
  destruct (operationByID st id) as [child|]; [|settled; discriminate].
  destruct (activationComponent p id) as [c|] eqn:Hc; [|settled; discriminate]. apply learns_after; [quiet_prog|].
  intros l1 [u1|e] _; [|settled; simplify_eq; exact I]. apply learns_after; [quiet_prog|].
  intros l2 [u2|e] _; [|settled; simplify_eq; exact I]. cbv zeta. apply learns_call; [reflexivity|]. intros [rev e].
  destruct (_ || _); [settled; simplify_eq; exact I|]. apply learns_call; [reflexivity|]. intros [base e'].
  destruct (_ || _) eqn:Hb; [settled; simplify_eq; exact I|]. settled. simplify_eq. apply orb_false_iff in Hb as [He Hb].
  apply negb_false_iff in Hb. destruct e'; [discriminate|]. cbn. apply Forall2_app.
  - eapply Forall2_impl; [|exact Hd]. intros i ch. apply member_change_mono. intros h Hh.
    right; right. apply elem_of_app; right. apply elem_of_app; right. exact Hh.
  - repeat constructor. exists c, (GitOpsRevisionProof_HeadSHA rev), base. split; [exact Hc|]. split; [reflexivity|]. split; [left|exact Hb].
Qed.
Lemma learns_unmoved g head changes past : learns (loop (reread_member g head) true changes) past (fun past' same =>
  same = true -> Forall (reread_unmoved g head past') changes).
Proof using Type.
  apply (learns_loop _ (fun done (same : bool) past' => same = true -> Forall (reread_unmoved g head past') done)); [constructor|].
  intros done x same past0 Hd. unfold reread_member. destruct same; cbn [negb]; [|settled; simplify_eq; discriminate].
  apply learns_call; [reflexivity|]. intros [current e]. settled. simplify_eq. intros Hsame.
  apply andb_true_iff in Hsame as [Hsame Hblob]. apply andb_true_iff in Hsame as [He Hhead]. to_prop. destruct e; [discriminate|].
  apply Forall_app. split; [|repeat constructor; exists current; split; [left|auto]].
  eapply Forall_impl; [|exact (Hd eq_refl)]. intros ch. apply reread_mono. intros h Hh. right. exact Hh.
Qed.
Lemma respects_group v seen p g batch past : GitOpsBatchApply_OperationID batch = ID v -> Saw seen ∈ past -> group_view v seen p g ->
  GitOpsBatchApply_Repository batch = DevActivationGroup_Repository g -> GitOpsBatchApply_Ref batch = DevActivationGroup_Ref g ->
  Forall2 (member_change p g past) (DevActivationGroup_MemberIDs g) (GitOpsBatchApply_Changes batch) ->
  Forall (reread_unmoved g (GitOpsBatchApply_ExpectedHeadSHA batch) past) (GitOpsBatchApply_Changes batch) ->
  respects v (commit_group v g batch token) past.
Proof using Type.
  intros Hid Hseen Hview Hrepo Href Hchanges Hreread. unfold commit_group. cbv zeta. apply wp_try; [apply watch_mono|].
  apply wp_saved; [|intros e; exact I].
  intros w c before after Hs. apply intent_saved in Hs as (Hallowed & saved & Hop & Hown & Hph & _ & _ & Hbatch); [|reflexivity|reflexivity].
  apply wp_try_after; [quiet_prog|]. intros later u. unfold propose_group. apply wp_call; [|intros [pr e]; quiet_rest].
  assert (Hgrow : forall h, h ∈ past -> h ∈ later ++ Committed before after :: past) by (intros h Hh; apply elem_of_app; right; right; exact Hh).
  intros _. split.
  - exists seen, p, g. split; [apply Hgrow, Hseen|]. split; [exact Hview|]. split; [reflexivity|]. split; [exact Hrepo|]. split; [exact Href|]. split.
    + eapply Forall2_impl; [|exact Hchanges]. intros i ch. apply member_change_mono, Hgrow.
    + eapply Forall_impl; [|exact Hreread]. intros ch. apply reread_mono, Hgrow.
  - match type of Hallowed with reservationOperationAllowed _ ?op = _ => exists before, after, op end.
    split; [apply elem_of_app; right; left|]. split; [reflexivity|]. split.
    + apply group_fence; [|exact Hallowed]. unfold group_authority. cbn [is_some]. apply orb_true_iff. left. apply orb_true_iff. left.
      apply orb_true_iff. left. apply orb_true_r.
    + exists saved. split; [exact Hop|]. split; [exact Hown|]. split; [exact Hph|]. split; [exact Hbatch|exact Hid].
Qed.
Lemma learns_group v past : learns (activationGroupState v) past (fun past' '(st, parent, p, g) => Saw st ∈ past'
  /\ devActivationParent st v = Some parent /\ ExternalOperation_DevActivation parent = Some p
  /\ activationGroup p (ExternalOperation_DevActivationGroupID v) = Some g).
Proof using Type.
  unfold activationGroupState. apply learns_read; [|intros e; settled; discriminate]. intros st. cbn [mbind option_bind].
  destruct (devActivationParent st v) as [parent|] eqn:Hp; cbn [mbind option_bind]; [|settled; discriminate].
  destruct (ExternalOperation_DevActivation parent) as [p|] eqn:Hd; cbn [mbind option_bind]; [|settled; discriminate].
  destruct (activationGroup p _) as [g|] eqn:Hg; [|settled; discriminate]. settled. simplify_eq. split; [left|auto].
Qed.
Lemma respects_prepare v st p g past : Saw st ∈ past -> group_view v st p g -> respects v (prepare_group v st p g token) past.
Proof using Type.
  intros Hseen Hview. unfold prepare_group. apply wp_after; [quiet_prog|]. intros l1 [u|e]; [|quiet_rest]. destruct (negb _); [quiet_rest|].
  eapply wp_try_learned; [apply (learns_loop _ (fun done acc past' => group_prepared p g done acc past')); [constructor|intros; apply learns_member; assumption]|].
  intros l2 [[detail|e]|[head changes]] _ Hp; [quiet_rest|quiet_rest|]. eapply wp_try_learned; [apply learns_unmoved|].
  intros l3 same _ Hr. destruct same; cbn [negb]; [|quiet_rest]. eapply (respects_group v st p g); [reflexivity| |exact Hview|reflexivity|reflexivity| |exact (Hr eq_refl)].
  - do 3 (apply elem_of_app; right). exact Hseen.
  - eapply Forall2_impl; [|exact Hp]. intros i ch. apply member_change_mono. intros h Hh. apply elem_of_app; right. exact Hh.
Qed.
Lemma respects_activation v past : respects v (applyDevActivation v token) past.
Proof using Type.
  unfold applyDevActivation. eapply wp_try_learned; [apply learns_group|]. intros l1 [[[st parent] p] g] _ (Hseen & Hparent & Hp & Hg).
  apply wp_try_after; [quiet_prog|]. intros l2 _. destruct (ID v != _) eqn:Hlead; [quiet_rest|]. destruct (negb gitops_batch_provider); [quiet_rest|].
  destruct (ExternalOperation_Phase v == _); [unfold recover_proposal; quiet_rest|]. destruct (members_ready st (DevActivationGroup_MemberIDs g)) as [[|]|e] eqn:Hready; [|quiet_rest|quiet_rest]. to_prop.
  apply respects_prepare; [apply elem_of_app; right; exact Hseen|]. split; [exists parent; auto|]. auto.
Qed.
Lemma respects_deploy v past : respects v (tick_deploy v token) past.
Proof using Type.
  unfold tick_deploy. destruct (ExternalOperation_Snapshot v) as [snap|] eqn:Hsnap; [|quiet_rest].
  assert (Hphase : forall st past, respects v (tick_phase st v snap token) past).
  { intros st past0. unfold tick_phase. destruct (writeless_preflights token v snap), (writeless_build token v snap).
    pose proof (writeless_wait token v snap). pose proof (writeless_inspect token st v snap).
    do 6 (destruct (_ == _); [apply wp_quiet; assumption|]). destruct (contains _ _); [|quiet_rest].
    destruct (activated_child st v); [apply respects_activation|apply respects_apply, Hsnap]. }
  assert (Hready : forall st past, respects v (ready_phase st v snap token) past).
  { intros st past0. unfold ready_phase. destruct (_ != _); [quiet_rest|]. apply wp_after; [quiet_prog|].
    intros later [e|[u|e]]; [quiet_rest| |quiet_rest]. destruct (_ && _); [quiet_rest|apply Hphase]. }
  apply wp_try_after; [quiet_prog|]. intros later st. destruct (reservationOperationAllowed st v); [|quiet_rest].
  destruct (native_build snap); [|apply Hready]. unfold native_phase. apply wp_try_after; [quiet_prog|]. intros later2 st2.
  apply wp_after; [quiet_prog|]. intros later3 w. destruct (nativeDeliveryAllowed _ _); [|quiet_rest].
  destruct (_ && _); [apply wp_quiet, writeless_native|]. destruct (_ || _); [quiet_rest|]. destruct (native_artifact_fence _ _ _); [apply Hready|quiet_rest].
Qed.
End intent.

(** The write an evaluated execution has come to. *)
Definition next_apply {A} (p : Prog A) : option (Connection * GitOpsApply) :=
  match p with
  | Ret _ => None
  | @Do _ X e k => match e with Ask c => match c with ApplyGitOps conn a => Some (conn, a) | _ => None end | _ => None end
  end.
Lemma next_apply_calls {A} (p : Prog A) conn a : next_apply p = Some (conn, a) -> calls p (ApplyGitOps conn a).
Proof. destruct p as [r|X e k]; [discriminate|]. destruct e as [| | | |X c]; try discriminate. destruct c; try discriminate. intros [= -> ->]. exists k. reflexivity. Qed.

(** ** The theorem *)
Section writes.
Context `{Runtime, NetURL, Upper, MapOrder, URLs, Hashing, Encoding, RestorationEvidence, Operator, Baselines, ComposeLease, Capabilities,
  Analyst, OtherSteps}.
(** C3 a step of a deployment, a branch or an activation writes to GitOps only
    what it has the right to (the kinds of [other_kinds] have steps of their
    own and are not meant here).  In every execution of the step of a claimed
    operation: at a call that applies or proposes the change of one manifest,
    the step has seen the destination unchanged, has read the manifest with the
    blob that was inspected, writes the digest of the operation's artifact at
    the head just read, and has committed this intent with its lease in phase
    APPLY_UNCERTAIN under the fence of the environment; at a grouped proposal,
    the step has seen itself lead a group whose members are all ready, proposes
    exactly one change per member, to the artifact of its activation over the
    baseline it read, has reread every manifest unmoved at the expected head,
    and has committed this batch with its lease in phase APPLY_UNCERTAIN under
    the guard of the activation. *)
Theorem gitops_write_intended v token past p' A (c : Call A) : contains other_kinds (ExternalOperation_Kind v) = false ->
  Execution (tick_claimed v token) past p' -> calls p' c -> gitops_write _ c = true -> permitted token v A c past.
Proof using Type.
  intros Hk He. apply (execution_permitted gitops_write (permitted token v) (tick_claimed v token) p'); [|exact He].
  unfold tick_claimed. rewrite Hk. destruct (contains ["CREATE_BRANCH"; "PIN_REVISION"] _); [apply wp_quiet, writeless_branch|].
  destruct (_ == _); [apply wp_quiet, writeless_aggregate|]. destruct (_ == _); [apply respects_deploy|apply wp_quiet, writeless_finish].
Qed.
End writes.
