(* ===== verification/Fairness.v ===== *)
(** * Every due operation has its turn

    The order in which [Tick] (worker.go) claims operations: it takes a least
    one of those that are due, and an operation that is due is not passed over
    more often than there are operations ahead of it, because a claimed
    operation is leased.  Operations that get ahead meanwhile are counted, and
    shown to be none where the others are only saved or queued in order. *)
From Stdlib Require Import Structures.OrdersEx.
From S2P Require Import Prelude GoText GoJson Delivery Domain Status Planning Handlers DeviceAuth Collections ExternalSystems Reservation Composition Conflicts Scenarios Pins WorkerAuth WorkerJobs Publications Registry Restoration Checks WorkerProtocol External Candidates Activation FlowGuards Effects Saving SourceChecks ActivationWorker NativeWorker Operations OperationSafety.
Open Scope string_scope.
Open Scope list_scope.

(** ** The order *)
Lemma ltb_lt s t : String.ltb s t = true <-> String_as_OT.lt s t.
Proof.
  unfold String.ltb. change (String.compare s t) with (String_as_OT.compare s t). destruct (String_as_OT.compare_spec s t) as [->|Hl|Hg].
  - split; [discriminate|]. intros Hl. destruct (StrictOrder_Irreflexive _ Hl).
  - tauto.
  - split; [discriminate|]. intros Hl. destruct (StrictOrder_Irreflexive s). transitivity t; assumption.
Qed.
Lemma sooner_irreflexive v : sooner v v = false.
Proof.
  unfold sooner. destruct (String.ltb (ID v) (ID v)) eqn:E; [apply ltb_lt in E; destruct (StrictOrder_Irreflexive _ E)|].
  unfold Before. rewrite !Z.ltb_irrefl, andb_false_r. cbn. apply andb_false_r.
Qed.
Lemma sooner_spec u v : sooner u v = true <->
  let p := operationPriority (ExternalOperation_Kind u) in let q := operationPriority (ExternalOperation_Kind v) in
  let s := ExternalOperation_NextAttemptAt u in let t := ExternalOperation_NextAttemptAt v in
  (p < q \/ p = q /\ (s < t \/ s = t /\ String_as_OT.lt (ID u) (ID v)))%Z.
Proof.
  unfold sooner, Before. cbv zeta. rewrite !orb_true_iff, !andb_true_iff, !orb_true_iff, !andb_true_iff, !Z.ltb_lt, Z.eqb_eq, bool_decide_eq_true, ltb_lt.
  tauto.
Qed.
#[export] Instance sooner_transitive : Transitive (fun u v => sooner u v = true).
Proof.
  intros u v w. rewrite !sooner_spec. cbv zeta. intros [Hp|[Ep [Ht|[Et Hi]]]] [Hp'|[Ep' [Ht'|[Et' Hi']]]]; try (left; lia); right; (split; [lia|]);
    try (left; lia). right. split; [congruence|]. transitivity (ID v); assumption.
Qed.

(** ** The claim *)
Section claim.
Context `{Capabilities, Analyst}.
Implicit Types (ops : list ExternalOperation).
(** What the search holds after the first [k] operations. *)
Definition Least (t : Time) ops (k : nat) (acc : option nat) : Prop :=
  match acc with
  | Some i => exists c, i < k /\ ops !! i = Some c /\ claimable t c = true
              /\ forall j u, j < k -> ops !! j = Some u -> claimable t u = true -> sooner u c = false
  | None => forall j u, j < k -> ops !! j = Some u -> claimable t u = false
  end.
Lemma least_kept t ops k acc : Least t ops k acc ->
  (forall u, ops !! k = Some u -> claimable t u = true -> exists i c, acc = Some i /\ ops !! i = Some c /\ sooner u c = false) ->
  Least t ops (S k) acc.
Proof using Type.
  intros Hl Hk. destruct acc as [i|]; cbn in *.
  - destruct Hl as (c & Hi & Hc & Hd & Hm). exists c. split; [lia|]. split; [exact Hc|]. split; [exact Hd|].
    intros j u Hj Hu Hd'. destruct (decide (j = k)) as [->|]; [|apply (Hm j u); auto; lia].
    destruct (Hk u Hu Hd') as (i' & c' & [= <-] & Hc' & Hs). congruence.
  - intros j u Hj Hu. destruct (decide (j = k)) as [->|]; [|apply (Hl j u); auto; lia].
    destruct (claimable t u) eqn:Hd; [|reflexivity]. destruct (Hk u Hu Hd) as (i & c & ? & _). discriminate.
Qed.
Lemma least_replaced t ops k acc v : Least t ops k acc -> ops !! k = Some v -> claimable t v = true ->
  (forall i c, acc = Some i -> ops !! i = Some c -> sooner v c = true) -> Least t ops (S k) (Some k).
Proof using Type.
  intros Hl Hk Hv Hs. exists v. split; [lia|]. split; [exact Hk|]. split; [exact Hv|]. intros j u Hj Hu Hd.
  destruct (decide (j = k)) as [->|]; [rewrite Hk in Hu; injection Hu as <-; apply sooner_irreflexive|].
  destruct acc as [i|]; cbn in Hl; [|rewrite (Hl j u) in Hd; [discriminate|lia|exact Hu]].
  destruct Hl as (c & Hi & Hc & Hdc & Hm). destruct (sooner u v) eqn:Huv; [|reflexivity].
  rewrite <- (Hm j u); [|lia|exact Hu|exact Hd]. symmetry. exact (sooner_transitive u v c Huv (Hs i c eq_refl Hc)).
Qed.
Lemma better_least t ops k acc : Least t ops k acc -> Least t ops (S k) (better t ops acc k).
Proof using Type.
  intros Hl. unfold better. destruct (ops !! k) as [v|] eqn:Hk; [|apply least_kept; [exact Hl|congruence]].
  destruct (claimable t v) eqn:Hv; cbn [negb]; [|apply least_kept; [exact Hl|congruence]].
  destruct acc as [i|]; cbn.
  - destruct (ops !! i) as [c|] eqn:Hc.
    + destruct (sooner v c) eqn:Hs; [apply (least_replaced _ _ _ _ _ Hl Hk Hv); congruence|].
      apply least_kept; [exact Hl|]. intros u Hu _. exists i, c. rewrite Hk in Hu. injection Hu as <-. auto.
    + destruct Hl as (c & _ & Hc' & _). congruence.
  - apply (least_replaced _ _ _ _ _ Hl Hk Hv). discriminate.
Qed.
Lemma candidate_least t ops : Least t ops (length ops) (claim_candidate t ops).
Proof using Type.
  unfold claim_candidate. assert (Hk : forall k, Least t ops k (foldl (better t ops) None (seq 0 k))); [|apply Hk].
  induction k as [|k IH]; [intros j u Hj; lia|]. rewrite seq_S, foldl_app. cbn. apply better_least, IH.
Qed.
(** A claim takes a least due operation, when one is due. *)
Lemma claim_least t token st v : v ∈ State_Operations st -> claimable t v = true ->
  exists i u, State_Operations st !! i = Some u /\ claimable t u = true /\ sooner v u = false
    /\ claim_tx t token st = (st <| State_Operations ::= <[i := claimed t token u]> |>, Some (claimed t token u)).
Proof using Type.
  intros [j Hj]%list_elem_of_lookup Hd. pose proof (candidate_least t (State_Operations st)) as Hl. pose proof (lookup_lt_Some _ _ _ Hj) as Hlt.
  unfold claim_tx. destruct (claim_candidate t (State_Operations st)) as [i|]; cbn in Hl.
  - destruct Hl as (c & Hi & Hc & Hdc & Hm). exists i, c. cbn. rewrite Hc. cbn. repeat split; auto. exact (Hm j v Hlt Hj Hd).
  - rewrite (Hl j v Hlt Hj) in Hd. discriminate.
Qed.
End claim.

(** ** Turns *)
Lemma filter_replaced {A} (p : A -> bool) (l : list A) i x y : l !! i = Some x -> p x = true -> p y = false ->
  length (List.filter p (<[i := y]> l)) < length (List.filter p l).
Proof.
  intros Hi Hx Hy. revert i Hi. induction l as [|a l IH]; intros [|i]; cbn; try discriminate.
  - intros [= ->]. rewrite Hx, Hy. cbn. lia.
  - intros Hi. specialize (IH i Hi). destruct (p a); cbn; [apply (proj1 (Nat.succ_lt_mono _ _))|]; exact IH.
Qed.
Lemma filter_fewer {A} (p : A -> bool) (l l' : list A) : NoDup l -> (forall x, x ∈ l -> p x = true -> x ∈ l') ->
  length (List.filter p l) <= length (List.filter p l').
Proof.
  intros Hn Hs. apply List.NoDup_incl_length; [apply List.NoDup_filter; apply NoDup_ListNoDup, Hn|].
  intros x [Hx Hp]%List.filter_In. apply List.filter_In. split; [|exact Hp]. apply list_elem_of_In, Hs; [apply list_elem_of_In, Hx|exact Hp].
Qed.
Lemma claimable_later `{Capabilities, Analyst} t t' v : (t <= t')%Z -> claimable t v = true -> claimable t' v = true.
Proof.
  intros Ht. unfold claimable, After. rewrite !andb_true_iff, !negb_true_iff, !orb_false_iff, !Z.ltb_ge. intuition lia.
Qed.
Lemma sooner_total u v : ID u <> ID v -> sooner v u = false -> sooner u v = true.
Proof.
  intros Hne Hs. apply not_true_iff_false in Hs. rewrite sooner_spec in Hs. apply sooner_spec. cbv zeta in *.
  set (p := operationPriority (ExternalOperation_Kind u)) in *. set (q := operationPriority (ExternalOperation_Kind v)) in *.
  destruct (Z.lt_trichotomy p q) as [|[Ep|]]; [auto| |exfalso; apply Hs; auto].
  right. split; [exact Ep|]. destruct (Z.lt_trichotomy (ExternalOperation_NextAttemptAt u) (ExternalOperation_NextAttemptAt v)) as [|[Et|]];
    [auto| |exfalso; apply Hs; right; auto]. right. split; [exact Et|].
  destruct (String_as_OT.compare_spec (ID u) (ID v)) as [E|Hl|Hg]; [contradiction|exact Hl|]. exfalso. apply Hs. right. auto.
Qed.

Section queue.
Context `{Capabilities, Analyst} (v : ExternalOperation) (T W : Time).
(** [v] waits in a store without repeated identifiers. *)
Definition Waiting (st : State) : Prop := v ∈ State_Operations st /\ NoDup (ID <$> State_Operations st).
(** The operations that can be taken before [v] until [W]. *)
Definition rival (u : ExternalOperation) : bool := claimable W u && sooner u v.
Definition rivals (st : State) : nat := length (List.filter rival (State_Operations st)).
(** The operations that got ahead of [v]: those before it that were not there
    as they are. *)
Definition arrival (st : State) (u : ExternalOperation) : bool := rival u && negb (bool_decide (u ∈ State_Operations st)).
Definition arrivals (st st' : State) : nat := length (List.filter (arrival st) (State_Operations st')).
(** The work of an operator that stays behind [v]: what is written has ended
    or is due after it. *)
Definition Behind (st st' : State) : Prop :=
  Waiting st' /\ forall u, u ∈ State_Operations st' ->
    u ∈ State_Operations st \/ terminalOperation (ExternalOperation_Status u) = true
    \/ After (ExternalOperation_NextAttemptAt u) (ExternalOperation_NextAttemptAt v) = true.
(** A turn: a claim at a time with a token, and what happens before the next. *)
Record Turn := mkTurn { turn_time : Time; turn_token : string; turn_rest : State -> State }.
Fixpoint claims (turns : list Turn) (st : State) : list string :=
  match turns with
  | [] => []
  | r :: rs =>
    let '(st', taken) := claim_tx (turn_time r) (turn_token r) st in
    match taken with Some u => [ID u] | None => [] end ++ claims rs (turn_rest r st')
  end.
(** The operations that get ahead of [v] along the turns. *)
Fixpoint overtakers (turns : list Turn) (st : State) : nat :=
  match turns with
  | [] => 0
  | r :: rs => let st' := (claim_tx (turn_time r) (turn_token r) st).1 in arrivals st' (turn_rest r st') + overtakers rs (turn_rest r st')
  end.
Lemma rivals_arrivals st st' : Waiting st' -> rivals st' <= rivals st + arrivals st st'.
Proof using Type.
  intros [_ Hn]. unfold rivals, arrivals.
  set (old u := rival u && bool_decide (u ∈ State_Operations st)).
  assert (Hsplit : length (List.filter rival (State_Operations st'))
    = length (List.filter old (State_Operations st')) + length (List.filter (arrival st) (State_Operations st'))).
  { clear Hn. induction (State_Operations st') as [|u l IH]; cbn; [reflexivity|]. unfold old at 1, arrival at 1.
    destruct (rival u); [destruct (bool_decide (u ∈ _))|]; cbn; rewrite IH; lia. }
  rewrite Hsplit. apply Nat.add_le_mono_r. transitivity (length (List.filter old (State_Operations st))).
  - apply filter_fewer; [exact (NoDup_fmap_1 _ _ Hn)|]. intros u _ Hu. apply andb_true_iff in Hu as [_ Hu]. to_prop. exact Hu.
  - assert (Hle : forall l, length (List.filter old l) <= length (List.filter rival l)); [|apply Hle].
    induction l as [|u l IH]; cbn; [lia|]. unfold old at 1. destruct (rival u); [destruct (bool_decide _)|]; cbn; lia.
Qed.
Lemma arrivals_behind st st' : operationPriority (ExternalOperation_Kind v) = 0%Z -> Behind st st' -> arrivals st st' = 0.
Proof using Type.
  intros Hp [_ Hb]. apply length_zero_iff_nil. destruct (List.filter _ _) as [|u l] eqn:F; [reflexivity|exfalso].
  assert (Hin : u ∈ List.filter (arrival st) (State_Operations st')) by (rewrite F; left).
  apply elem_of_filter_list in Hin as [Hu Hr]. apply andb_true_iff in Hr as [Hr Hnew]. to_prop. apply andb_true_iff in Hr as [Hd Hs].
  destruct (Hb u Hu) as [Hin|[Ht|Ha]]; [contradiction| |].
  - unfold claimable in Hd. rewrite Ht, !andb_false_r in Hd. discriminate.
  - apply sooner_spec in Hs. cbv zeta in Hs. unfold After in Ha. apply Z.ltb_lt in Ha. rewrite Hp in Hs.
    assert (0 <= operationPriority (ExternalOperation_Kind u))%Z by (unfold operationPriority; destruct (contains _ _); lia). lia.
Qed.
Lemma taken_before st t token : (T <= t <= W)%Z -> (forall kind, W < T + lease_length kind)%Z -> Waiting st -> claimable T v = true ->
  exists st' u, claim_tx t token st = (st', Some u) /\ (ID u = ID v \/ Waiting st' /\ rivals st' < rivals st).
Proof using Type.
  intros Ht Hlease [Hv Hn] Hd. destruct (claim_least t token st v Hv (claimable_later T t v (proj1 Ht) Hd)) as (i & u & Hi & Hdu & Hs & ->).
  eexists _, _. split; [reflexivity|]. destruct (decide (ID u = ID v)) as [E|Hne]; [left; exact E|right]. split; [split|].
  - apply list_elem_of_lookup in Hv as [j Hj]. apply list_elem_of_lookup. exists j. cbn.
    rewrite list_lookup_insert_ne; [exact Hj|]. intros ->. rewrite Hi in Hj. injection Hj as ->. contradiction.
  - change (NoDup (ID <$> <[i := claimed t token u]> (State_Operations st))). rewrite list_fmap_insert.
    change (ID (claimed t token u)) with (ID u). rewrite list_insert_id; [exact Hn|]. rewrite list_lookup_fmap, Hi. reflexivity.
  - apply filter_replaced with u; [exact Hi| |].
    + apply andb_true_iff. split; [exact (claimable_later t W u (proj2 Ht) Hdu)|exact (sooner_total u v Hne Hs)].
    + apply andb_false_iff. left. unfold claimable. apply andb_false_iff. right. apply negb_false_iff, orb_true_iff. right.
      unfold After. apply Z.ltb_lt. change (W < t + lease_length (ExternalOperation_Kind u))%Z. specialize (Hlease (ExternalOperation_Kind u)). lia.
Qed.
(** A save of another operation is of this kind, when the clock has passed the
    time at which [v] is due. *)
Lemma save_behind `{Runtime, NetURL, Upper, World, MapOrder, URLs, Hashing, Encoding, RestorationEvidence, Operator, Baselines, ComposeLease}
  c op token s st st' : save_tx c op token s st = Ok st' -> ID op <> ID v -> (ExternalOperation_NextAttemptAt v <= now "save" 0)%Z ->
  Waiting st -> Behind st st'.
Proof using Type.
  intros (current & status & detail & Hc & _ & _ & _ & E)%save_tx_Ok Hne Ht [Hv Hn].
  destruct (saved_facts op token s st current status detail) as (Hid & _ & _ & _ & Hnext). cbv zeta in *.
  set (w := saved_operation op token s st current status detail) in *.
  destruct (update_first_insert (has_id (ID op)) (fun _ => w) _ _ Hc) as (i & Hi & Eu). rewrite Eu in E.
  apply find_first_Some in Hc as [_ Hx%has_id_true]. split; [split|].
  - rewrite E. apply list_elem_of_lookup in Hv as [j Hj]. apply list_elem_of_lookup. exists j.
    rewrite list_lookup_insert_ne; [exact Hj|]. intros ->. rewrite Hi in Hj. injection Hj as ->. congruence.
  - rewrite E, list_fmap_insert, list_insert_id; [exact Hn|]. rewrite list_lookup_fmap, Hi. cbn [fmap option_fmap option_map]. rewrite Hx, Hid. reflexivity.
  - intros u [j Hj]%list_elem_of_lookup. rewrite E in Hj. apply list_lookup_insert_Some in Hj as [(_ & <- & _)|[_ Hj]];
      [|left; eapply list_elem_of_lookup_2; exact Hj]. right. right. unfold After. apply Z.ltb_lt. rewrite Hnext. unfold next_attempt, second.
    destruct (contains _ _); lia.
Qed.
(** C6 A due operation is claimed, whatever its priority: among claims of a
    window shorter than a lease, one takes it as soon as they are more than the
    operations ahead of it, those that are ahead at the start and those that
    get ahead of it in between, as long as nobody else changes it and
    identifiers stay unique. *)
Theorem claimed_in_turn turns st : (forall kind, W < T + lease_length kind)%Z ->
  Forall (fun r => (T <= turn_time r <= W)%Z /\ forall st, Waiting st -> Waiting (turn_rest r st)) turns ->
  Waiting st -> claimable T v = true -> rivals st + overtakers turns st < length turns -> ID v ∈ claims turns st.
Proof using Type.
  intros Hlease Hturns. revert st. induction Hturns as [|r turns [Ht Hrest] Hturns IH]; intros st Hw Hd Hr; [cbn in Hr; lia|].
  cbn in Hr |- *. destruct (taken_before st (turn_time r) (turn_token r) Ht Hlease Hw Hd) as (st' & u & E & Hu). rewrite E in Hr |- *. cbn in Hr |- *.
  destruct Hu as [<-|[Hw' Hlt]]; [left|]. right. apply IH; [exact (Hrest st' Hw')|exact Hd|].
  pose proof (rivals_arrivals st' (turn_rest r st') (Hrest st' Hw')). lia.
Qed.
End queue.
