(* ===== verification/Schema.v ===== *)
(** * The schema of the state

    [codecStateSchema] (persistence/state_codec.go): the collections of
    [domain.State] as a list of fields that can be read and set, which the
    stores go through generically; setting one leaves the others. *)
From S2P Require Import Prelude GoText GoJson Delivery Domain Handlers.
Open Scope string_scope.
Open Scope list_scope.

(** ** The schema *)
(** A field of [State]: its JSON key, the type of its records, how it is read
    and set. *)
Record Collection := mkCollection {
  col_key : string; col_type : Type; col_meta : HasMeta col_type;
  col_get : State -> list col_type; col_set : list col_type -> State -> State }.
#[export] Existing Instance col_meta.
(** Every field but the events, in declaration order. *)
Definition schema : list Collection := [
  mkCollection "registry_inventories" RegistryInventory _ State_RegistryInventories (fun l st => st <| State_RegistryInventories := l |>);
  mkCollection "artifact_pins" ArtifactPin _ State_ArtifactPins (fun l st => st <| State_ArtifactPins := l |>);
  mkCollection "native_quarantines" NativeQuarantine _ State_NativeQuarantines (fun l st => st <| State_NativeQuarantines := l |>);
  mkCollection "worker_jobs" WorkerJob _ State_WorkerJobs (fun l st => st <| State_WorkerJobs := l |>);
  mkCollection "worker_attempts" WorkerAttempt _ State_WorkerAttempts (fun l st => st <| State_WorkerAttempts := l |>);
  mkCollection "composition_conflicts" CompositionConflict _ State_CompositionConflicts (fun l st => st <| State_CompositionConflicts := l |>);
  mkCollection "project_knowledge" ProjectKnowledge _ State_ProjectKnowledge (fun l st => st <| State_ProjectKnowledge := l |>);
  mkCollection "local_checkouts" LocalCheckout _ State_LocalCheckouts (fun l st => st <| State_LocalCheckouts := l |>);
  mkCollection "workspace_documents" WorkspaceDocument _ State_WorkspaceDocuments (fun l st => st <| State_WorkspaceDocuments := l |>);
  mkCollection "publication_targets" PublicationTarget _ State_PublicationTargets (fun l st => st <| State_PublicationTargets := l |>);
  mkCollection "package_artifacts" PackageArtifact _ State_PackageArtifacts (fun l st => st <| State_PackageArtifacts := l |>);
  mkCollection "scenario_versions" ScenarioVersion _ State_ScenarioVersions (fun l st => st <| State_ScenarioVersions := l |>);
  mkCollection "scenario_runs" ScenarioRun _ State_ScenarioRuns (fun l st => st <| State_ScenarioRuns := l |>);
  mkCollection "runtime_snapshots" RuntimeSnapshot _ State_RuntimeSnapshots (fun l st => st <| State_RuntimeSnapshots := l |>);
  mkCollection "runtime_observations" RuntimeObservation _ State_RuntimeObservations (fun l st => st <| State_RuntimeObservations := l |>);
  mkCollection "review_syncs" ReviewSync _ State_ReviewSyncs (fun l st => st <| State_ReviewSyncs := l |>);
  mkCollection "delivery_artifacts" DeliveryArtifact _ State_DeliveryArtifacts (fun l st => st <| State_DeliveryArtifacts := l |>);
  mkCollection "delivery_build_runs" DeliveryBuildRun _ State_DeliveryBuildRuns (fun l st => st <| State_DeliveryBuildRuns := l |>);
  mkCollection "external_systems" ExternalSystem _ State_ExternalSystems (fun l st => st <| State_ExternalSystems := l |>);
  mkCollection "system_relationships" SystemRelationship _ State_SystemRelationships (fun l st => st <| State_SystemRelationships := l |>);
  mkCollection "external_scopes" ExternalScope _ State_ExternalScopes (fun l st => st <| State_ExternalScopes := l |>);
  mkCollection "registered_repositories" RegisteredRepository _ State_RegisteredRepositories (fun l st => st <| State_RegisteredRepositories := l |>);
  mkCollection "connection_grants" ConnectionGrant _ State_ConnectionGrants (fun l st => st <| State_ConnectionGrants := l |>);
  mkCollection "github_connections" GitHubConnection _ State_GitHubConnections (fun l st => st <| State_GitHubConnections := l |>);
  mkCollection "repository_bindings" RepositoryBinding _ State_RepositoryBindings (fun l st => st <| State_RepositoryBindings := l |>);
  mkCollection "component_builds" ComponentBuild _ State_ComponentBuilds (fun l st => st <| State_ComponentBuilds := l |>);
  mkCollection "environment_bindings" EnvironmentBinding _ State_EnvironmentBindings (fun l st => st <| State_EnvironmentBindings := l |>);
  mkCollection "operations" ExternalOperation _ State_Operations (fun l st => st <| State_Operations := l |>);
  mkCollection "operation_steps" OperationStep _ State_OperationSteps (fun l st => st <| State_OperationSteps := l |>);
  mkCollection "git_observations" GitObservation _ State_GitObservations (fun l st => st <| State_GitObservations := l |>);
  mkCollection "applications" Application _ State_Applications (fun l st => st <| State_Applications := l |>);
  mkCollection "integration_revisions" IntegrationRevision _ State_IntegrationRevisions (fun l st => st <| State_IntegrationRevisions := l |>);
  mkCollection "compositions" Composition _ State_Compositions (fun l st => st <| State_Compositions := l |>);
  mkCollection "products" Product _ State_Products (fun l st => st <| State_Products := l |>);
  mkCollection "features" Feature _ State_Features (fun l st => st <| State_Features := l |>);
  mkCollection "integrations" Integration _ State_Integrations (fun l st => st <| State_Integrations := l |>);
  mkCollection "gates" Gate _ State_Gates (fun l st => st <| State_Gates := l |>);
  mkCollection "checks" Check _ State_Checks (fun l st => st <| State_Checks := l |>);
  mkCollection "results" CheckResult _ State_Results (fun l st => st <| State_Results := l |>);
  mkCollection "findings" Finding _ State_Findings (fun l st => st <| State_Findings := l |>);
  mkCollection "memories" Memory _ State_Memories (fun l st => st <| State_Memories := l |>);
  mkCollection "environments" Environment _ State_Environments (fun l st => st <| State_Environments := l |>);
  mkCollection "repositories" Repository _ State_Repositories (fun l st => st <| State_Repositories := l |>);
  mkCollection "releases" Release _ State_Releases (fun l st => st <| State_Releases := l |>)
].
Definition lower_letter (c : ascii) : bool := ("a" <=? c)%char && (c <=? "z")%char.
Definition key_char (c : ascii) : bool := lower_letter c || (("0" <=? c)%char && (c <=? "9")%char) || Ascii.eqb c "_".
Definition codecCollectionKey (key : string) : bool :=
  match key with
  | String c rest => lower_letter c && str_all key_char rest
  | EmptyString => false
  end.
(** [codecStateSchema]: the position of every key, the events last. *)
Definition codecStateSchema : option (gmap string nat) :=
  let keys := map col_key schema ++ ["events"] in
  if forallb codecCollectionKey keys && bool_decide (NoDup keys) then Some (list_to_map (imap (fun i k => (k, i)) keys)) else None.
Definition collection_of (kind : string) : option Collection := find_first (fun c => col_key c == kind) schema.

Lemma schema_get_set : Forall (fun c => forall l st, col_get c (col_set c l st) = l) schema.
Proof. repeat constructor. Qed.
Lemma schema_get_other : Forall (fun c => Forall (fun c' => col_key c = col_key c' \/ forall l st, col_get c' (col_set c l st) = col_get c' st) schema) schema.
Proof. unfold schema. repeat (constructor; [repeat (constructor; [first [left; reflexivity|right; intros; reflexivity]|]); constructor|]). constructor. Qed.

Lemma schema_events : Forall (fun c => forall l st, State_Events (col_set c l st) = State_Events st) schema.
Proof. unfold schema. repeat (constructor; [intros; reflexivity|]). constructor. Qed.
Lemma schema_collection : Forall (fun c => collection_of (col_key c) = Some c) schema.
Proof. unfold schema. repeat (constructor; [vm_compute; reflexivity|]). constructor. Qed.
(** A state is its collections and its events. *)
Lemma state_ext a b : Forall (fun c => col_get c a = col_get c b) schema -> State_Events a = State_Events b -> a = b.
Proof.
  destruct a, b. unfold schema. intros Hc He. cbn in He. subst. repeat (apply list.Forall_cons in Hc as [? Hc]). cbn in *. subst. reflexivity.
Qed.
Lemma collection_of_spec kind c : collection_of kind = Some c -> c ∈ schema /\ col_key c = kind.
Proof. intros [Hc Hk%bool_decide_eq_true]%find_first_Some. auto. Qed.
Lemma collection_key c : c ∈ schema -> collection_of (col_key c) = Some c.
Proof. apply (proj1 (list.Forall_forall _ _) schema_collection). Qed.
Lemma col_get_set c l st : c ∈ schema -> col_get c (col_set c l st) = l.
Proof. intros Hc. apply (proj1 (list.Forall_forall _ _) schema_get_set c Hc). Qed.
Lemma col_get_other c c' l st : c ∈ schema -> c' ∈ schema -> col_key c <> col_key c' -> col_get c' (col_set c l st) = col_get c' st.
Proof.
  intros Hc Hc' Hne. pose proof (proj1 (list.Forall_forall _ _) schema_get_other c Hc) as Hall.
  destruct (proj1 (list.Forall_forall _ _) Hall c' Hc') as [E|Hg]; [contradiction|apply Hg].
Qed.
Lemma col_set_events c l st : c ∈ schema -> State_Events (col_set c l st) = State_Events st.
Proof. intros Hc. apply (proj1 (list.Forall_forall _ _) schema_events c Hc). Qed.
Lemma schema_keys : NoDup (map col_key schema).
Proof. apply (bool_decide_unpack _). vm_compute. exact I. Qed.
(** The schema is accepted: no key is malformed or repeated. *)
Lemma schema_valid : codecStateSchema <> None.
Proof. assert (E : match codecStateSchema with Some _ => true | None => false end = true) by (vm_compute; reflexivity). intros En. rewrite En in E. discriminate. Qed.
Lemma schema_zero : Forall (fun c => col_get c zero = []) schema.
Proof. unfold schema. repeat (constructor; [reflexivity|]). constructor. Qed.
Lemma schema_without_events : Forall (fun c => forall l st, col_get c (st <| State_Events := l |>) = col_get c st) schema.
Proof. unfold schema. repeat (constructor; [reflexivity|]). constructor. Qed.
Lemma col_zero c : c ∈ schema -> col_get c zero = [].
Proof. intros Hc. apply (proj1 (list.Forall_forall _ _) schema_zero c Hc). Qed.
Lemma col_without_events c l st : c ∈ schema -> col_get c (st <| State_Events := l |>) = col_get c st.
Proof. intros Hc. apply (proj1 (list.Forall_forall _ _) schema_without_events c Hc). Qed.
