(* ===== verification/Documents.v ===== *)
(** * The documents of a state

    The store keeps every record of [domain.State] as a JSON document of its
    own (persistence/state_codec.go): the schema of collections, the encoding of
    a state into documents and back, and the index of documents that decides
    what an update wrote and what the deletion of a product removed
    (persistence/store.go).  [encoding/json] itself and the [jsonb] form in which
    PostgreSQL returns a document are the class [Json]. *)
From S2P Require Import Prelude GoText GoJson Delivery Domain Handlers Schema.
Open Scope string_scope.
Open Scope list_scope.

(** ** [encoding/json] and [jsonb] *)
(** [marshal] and [unmarshal] at the type of a collection, [header] the
    decoding of a document into its [id], [product_id] and [feature_id],
    [jsonb] what PostgreSQL returns for a document it was given, and
    [grouped_fallback] the decoding of the grouped documents as one object.
    [storable] holds of the values the encoding preserves: text that is valid
    UTF-8 without the null character. *)
Class Json := {
  marshal : forall c, col_type c -> res string;
  unmarshal : forall c, string -> option (col_type c);
  marshal_event : Event -> string;
  unmarshal_event : string -> option Event;
  header : string -> option (string * string * string);
  jsonb : string -> string;
  grouped_fallback : gmap string (list string) -> res State;
  storable : forall c, col_type c -> Prop;
  storable_event : Event -> Prop;
}.
(** What [encoding/json] and [jsonb] promise of such values. *)
Class JsonLaws `{Json} : Prop := {
  marshal_storable : forall c x, storable c x -> exists d, marshal c x = Ok d;
  header_marshal : forall c x d, storable c x -> marshal c x = Ok d -> header d = Some (ID x, ProductID x, FeatureID x);
  unmarshal_marshal : forall c x d, storable c x -> marshal c x = Ok d -> unmarshal c d = Some x;
  unmarshal_jsonb : forall c x d, storable c x -> marshal c x = Ok d -> unmarshal c (jsonb d) = unmarshal c d;
  unmarshal_event_jsonb : forall e, storable_event e -> unmarshal_event (jsonb (marshal_event e)) = Some e;
}.
Abbreviation Groups := (gmap string (list string)).

Section codec.
Context `{Json, MapOrder}.
(** ** Encoding and decoding — state_codec.go *)
Definition codecDocuments (st : State) : res Groups :=
  foldM (fun groups c => (fun docs => <[col_key c := docs]> groups) <$> mapM (marshal c) (col_get c st)) ∅ schema.
Definition decode_group (c : Collection) (docs : list string) : option (list (col_type c)) := mapM (unmarshal c) docs.
(** The groups in the order in which the map is ranged over. *)
Fixpoint decode_groups (groups : list (string * list string)) (st : State) : option State :=
  match groups with
  | [] => Some st
  | (kind, docs) :: l => c ← collection_of kind; rows ← decode_group c docs; decode_groups l (col_set c rows st)
  end.
Definition decodeStoredDocuments (groups : Groups) : res State :=
  match decode_groups (map_range groups) zero with
  | Some st => Ok st
  | None => grouped_fallback groups
  end.

(** ** The index of documents — store.go *)
Record documentIndex := mkDocumentIndex { byKind : gmap string (gmap string (list string)); owners_of : gset string }.
Definition header_of (raw : string) : res (string * string * string) :=
  match header raw with Some h => Ok h | None => plain "invalid document" end.
Definition index_row (acc : gmap string (list string) * gset string) (raw : string) : res (gmap string (list string) * gset string) :=
  '(id, product, _) ← header_of raw;
  Ok (<[id := default [] (acc.1 !! id) ++ [raw]]> acc.1, {[product]} ∪ acc.2).
Definition index_group (acc : documentIndex) (g : string * list string) : res documentIndex :=
  '(rows, owners) ← foldM index_row (∅, owners_of acc) g.2;
  Ok (mkDocumentIndex (<[g.1 := rows]> (byKind acc)) owners).
Definition indexDocuments (groups : Groups) : res documentIndex := foldM index_group (mkDocumentIndex ∅ ∅) (map_range groups).
Definition indexed (index : documentIndex) (kind id : string) : list string :=
  default [] (rows ← byKind index !! kind; rows !! id).
Definition unchanged (index : documentIndex) (kind id raw : string) : bool := bool_decide (raw ∈ indexed index kind id).
Definition index_removed (before after : documentIndex) (kind raw : string) : bool :=
  match header raw with
  | None => false
  | Some (id, product, _) =>
    let owner := if kind == "products" then id else product in
    (owner != "") && negb (bool_decide (owner ∈ owners_of after)) && negb (bool_decide (indexed before "products" owner = []))
    && bool_decide (indexed after "products" owner = []) && bool_decide (indexed after kind id = [])
  end.
(** The same predicate by scanning every document. *)
Definition raw_id (raw : string) : string := match header raw with Some (id, _, _) => id | None => "" end.
Definition raw_product (raw : string) : string := match header raw with Some (_, product, _) => product | None => "" end.
Definition exists_id (rows : list string) (id : string) : bool := existsb (fun r => raw_id r == id) rows.
Definition rows_of (groups : Groups) (kind : string) : list string := default [] (groups !! kind).
Definition productRecordRemoved (before after : Groups) (kind raw : string) : bool :=
  match header raw with
  | None => false
  | Some (id, product, _) =>
    let owner := if kind == "products" then id else product in
    if owner == "" then false
    else if existsb (fun kv => existsb (fun row => raw_product row == owner) kv.2) (map_range after) then false
    else exists_id (rows_of before "products") owner && negb (exists_id (rows_of after "products") owner)
         && negb (exists_id (rows_of after kind) id)
  end.
End codec.

(** ** The index says what scanning says *)
Section index_facts.
Context `{Json, MapOrder}.
Definition with_id (id : string) (rows : list string) : list string := List.filter (fun r => raw_id r == id) rows.
Lemma header_of_Ok raw h : header_of raw = Ok h -> header raw = Some h.
Proof using Type. unfold header_of. destruct (header raw) as [h'|]; [intros [= ->]; reflexivity|discriminate]. Qed.
Lemma index_rows_spec rows m owners m' owners' : foldM index_row (m, owners) rows = Ok (m', owners') ->
  (forall id, default [] (m' !! id) = default [] (m !! id) ++ with_id id rows)
  /\ (forall o, o ∈ owners' <-> o ∈ owners \/ exists r, r ∈ rows /\ raw_product r = o).
Proof using Type.
  revert m owners. induction rows as [|raw rows IH]; intros m owners; cbn.
  - intros [= <- <-]. split; [intros id; rewrite app_nil_r; reflexivity|]. intros o. split; [auto|].
    intros [Ho|(r & Hr & _)]; [exact Ho|inversion Hr].
  - intros ([m1 os1] & Hrow & Hl)%bind_Ok. apply bind_Ok in Hrow as ([[id product] feature] & Hh%header_of_Ok & [= <- <-]).
    assert (Eid : raw_id raw = id) by (unfold raw_id; rewrite Hh; reflexivity).
    assert (Ep : raw_product raw = product) by (unfold raw_product; rewrite Hh; reflexivity).
    destruct (IH _ _ Hl) as [Hm Ho]. split.
    + intros id'. rewrite Hm, Eid. destruct (decide (id = id')) as [<-|Hne].
      * rewrite lookup_insert_eq, bool_decide_true by reflexivity. cbn. rewrite <- app_assoc. reflexivity.
      * rewrite lookup_insert_ne, bool_decide_false by exact Hne. reflexivity.
    + intros o. rewrite Ho, elem_of_union, elem_of_singleton. split.
      * intros [[->|Hin]|(r & Hr & Er)]; [right; exists raw; split; [left|exact Ep]|auto|right; exists r; split; [right; exact Hr|exact Er]].
      * intros [Hin|(r & [->|Hr]%elem_of_cons & Er)]; [auto|left; left; congruence|eauto].
Qed.
Lemma index_groups_spec l ix ix' : foldM index_group ix l = Ok ix' -> NoDup l.*1 ->
  (forall kind, kind ∉ l.*1 -> byKind ix' !! kind = byKind ix !! kind)
  /\ (forall kind rows, (kind, rows) ∈ l -> forall id, indexed ix' kind id = with_id id rows)
  /\ (forall o, o ∈ owners_of ix' <-> o ∈ owners_of ix \/ exists kind rows r, (kind, rows) ∈ l /\ r ∈ rows /\ raw_product r = o).
Proof using Type.
  revert ix. induction l as [|[kind rows] l IH]; intros ix; cbn.
  - intros [= <-] _. split; [auto|]. split; [intros kind rows Hin; inversion Hin|]. intros o. split; [auto|].
    intros [Ho|(kind & rows & r & Hin & _)]; [exact Ho|inversion Hin].
  - intros (ix1 & Hg & Hl)%bind_Ok [Hni Hn]%list.NoDup_cons. apply bind_Ok in Hg as ([m owners] & Hr & [= <-]).
    destruct (index_rows_spec _ _ _ _ _ Hr) as [Hm Ho]. destruct (IH _ Hl Hn) as (Hk & Hi & Hos). split; [|split].
    + intros kind' [Hne Hni']%not_elem_of_cons. rewrite (Hk kind' Hni'). cbn. apply lookup_insert_ne. auto.
    + intros kind' rows' [[= -> ->]|Hin]%elem_of_cons id; [|exact (Hi _ _ Hin id)].
      unfold indexed. rewrite (Hk kind Hni). cbn. rewrite lookup_insert_eq. cbn. rewrite Hm, lookup_empty. reflexivity.
    + intros o. rewrite Hos. cbn. rewrite Ho. split.
      * intros [[Hin|(r & Hr' & Er)]|(k & rs & r & Hin & Hr')]; [auto| |]; right.
        -- exists kind, rows, r. split; [left|auto].
        -- exists k, rs, r. split; [right; exact Hin|exact Hr'].
      * intros [Hin|(k & rs & r & [[= -> ->]|Hin]%elem_of_cons & Hr' & Er)]; [auto|left; right; eauto|right; eauto 7].
Qed.
Lemma map_range_keys {A} (m : gmap string A) : NoDup (map_range m).*1.
Proof using Type. rewrite map_range_perm. apply NoDup_fst_map_to_list. Qed.
Lemma indexDocuments_spec groups ix : indexDocuments groups = Ok ix ->
  (forall kind id, indexed ix kind id = with_id id (rows_of groups kind))
  /\ (forall o, o ∈ owners_of ix <-> exists kind rows r, groups !! kind = Some rows /\ r ∈ rows /\ raw_product r = o).
Proof using Type.
  intros Hix. destruct (index_groups_spec _ _ _ Hix (map_range_keys groups)) as (Hk & Hi & Ho). split.
  - intros kind id. unfold rows_of. destruct (groups !! kind) as [rows|] eqn:E; cbn.
    + apply Hi, elem_of_map_range, E.
    + unfold indexed. rewrite Hk; [reflexivity|]. intros ([k rows] & -> & Hin)%list_elem_of_fmap.
      apply elem_of_map_range in Hin. discriminate (eq_trans (eq_sym Hin) E).
  - intros o. rewrite Ho. split.
    + intros [Hin|(kind & rows & r & Hin%elem_of_map_range & Hr)]; [inversion Hin|eauto].
    + intros (kind & rows & r & Hin%elem_of_map_range & Hr). eauto 7.
Qed.
Lemma with_id_nil id rows : bool_decide (with_id id rows = []) = negb (exists_id rows id).
Proof using Type.
  unfold with_id, exists_id. induction rows as [|r rows IH]; [reflexivity|]. cbn. destruct (raw_id r == id); [reflexivity|exact IH].
Qed.
(** C4. The index an update builds once answers for every document what
    scanning all documents answers: whether its product was deleted with
    everything it owned, so that the row may be deleted. *)
Theorem index_is_scan before after bi ai kind raw : indexDocuments before = Ok bi -> indexDocuments after = Ok ai ->
  index_removed bi ai kind raw = productRecordRemoved before after kind raw.
Proof using Type.
  intros [Hb _]%indexDocuments_spec [Ha Ho]%indexDocuments_spec. unfold index_removed, productRecordRemoved.
  destruct (header raw) as [[[id product] feature]|]; [|reflexivity]. cbv zeta. set (owner := if kind == "products" then id else product).
  rewrite Hb, !Ha, !with_id_nil, negb_involutive. destruct (owner == "") eqn:E; [reflexivity|]. cbn [negb andb].
  assert (Eo : existsb (fun kv : string * list string => existsb (fun row => raw_product row == owner) kv.2) (map_range after)
    = bool_decide (owner ∈ owners_of ai)).
  { apply eq_true_iff_eq. rewrite bool_decide_eq_true, Ho, existsb_elem. split.
    - intros ([k rows] & Hin%elem_of_map_range & Hr). cbn in Hr. apply existsb_elem in Hr as (r & Hr & Er%bool_decide_eq_true). eauto 7.
    - intros (k & rows & r & Hin%elem_of_map_range & Hr & Er). exists (k, rows). split; [exact Hin|]. apply existsb_elem. exists r.
      split; [exact Hr|apply bool_decide_eq_true, Er]. }
  rewrite Eo. destruct (bool_decide (owner ∈ owners_of ai)); reflexivity.
Qed.
End index_facts.

(** The groups are those of the schema. *)
Section keys.
Context `{Json}.
Lemma codec_fold_keys st cs (g g' : Groups) kind docs :
  foldM (fun (groups : Groups) c => (fun docs => <[col_key c := docs]> groups) <$> mapM (marshal c) (col_get c st)) g cs = Ok g' ->
  g' !! kind = Some docs -> g !! kind = Some docs \/ exists c, c ∈ cs /\ col_key c = kind.
Proof using Type.
  revert g. induction cs as [|c cs IH]; intros g; cbn; [intros [= <-]; auto|]. destruct (mapM (marshal c) (col_get c st)) as [ds|]; cbn; [|discriminate].
  intros Hf Hk. destruct (IH _ Hf Hk) as [Hk'|(c' & Hc' & E)]; [|right; exists c'; split; [right; exact Hc'|exact E]].
  destruct (decide (col_key c = kind)) as [E|Hne]; [right; exists c; split; [left|exact E]|]. left. rewrite lookup_insert_ne in Hk'; assumption.
Qed.
Lemma codec_keys st (g : Groups) kind docs : codecDocuments st = Ok g -> g !! kind = Some docs -> exists c, c ∈ schema /\ col_key c = kind.
Proof using Type. intros Hg Hk. destruct (codec_fold_keys st schema ∅ g kind docs Hg Hk) as [E|E]; [rewrite lookup_empty in E; discriminate|exact E]. Qed.
Lemma no_empty_key c : c ∈ schema -> col_key c <> "".
Proof using Type.
  intros Hc E. assert (Hin : "" ∈ map col_key schema) by (rewrite <- E; apply list_elem_of_fmap_2, Hc). revert Hin.
  apply (bool_decide_unpack ("" ∉ map col_key schema)). vm_compute. exact I.
Qed.
End keys.

(** ** The round trip *)
#[local] Arguments collection_of : simpl never.
#[local] Arguments decode_group : simpl never.
#[local] Arguments schema : simpl never.
Section round_trip.
Context `{Json, MapOrder} {laws : JsonLaws}.
Definition Storable (st : State) : Prop := Forall (fun c => Forall (storable c) (col_get c st)) schema /\ Forall storable_event (State_Events st).
Lemma mapM_res_Forall2 {A B} (f : A -> res B) l ys : mapM f l = Ok ys <-> Forall2 (fun x y => f x = Ok y) l ys.
Proof using Type.
  revert ys. induction l as [|x l IH]; intros ys; cbn.
  - split; [intros [= <-]; constructor|intros Hf; inversion Hf; reflexivity].
  - split.
    + intros (y & Hy & Hl)%bind_Ok. apply bind_Ok in Hl as (ys' & Hl & [= <-]). constructor; [exact Hy|apply IH, Hl].
    + intros Hf. inversion Hf as [|? y ? ys' Hy Hl]; subst. rewrite Hy. apply IH in Hl. cbn. rewrite Hl. reflexivity.
Qed.
Lemma marshal_all c l : Forall (storable c) l -> exists docs, mapM (marshal c) l = Ok docs.
Proof using laws.
  intros Hs. enough (exists docs, Forall2 (fun x d => marshal c x = Ok d) l docs) as [docs Hd] by (exists docs; apply mapM_res_Forall2, Hd).
  induction Hs as [|x l Hx _ [docs IH]]; [exists []; constructor|]. destruct (marshal_storable c x Hx) as [d Hd]. exists (d :: docs). constructor; assumption.
Qed.
(** The documents of a collection, read back, are its records. *)
Lemma decode_documents c l docs : Forall (storable c) l -> mapM (marshal c) l = Ok docs -> decode_group c docs = Some l /\ decode_group c (jsonb <$> docs) = Some l.
Proof using laws.
  intros Hs Hd%mapM_res_Forall2. unfold decode_group. induction Hd as [|x d l docs Hx _ IH]; [split; reflexivity|].
  inversion Hs as [|? ? Hsx Hsl]; subst. destruct (IH Hsl) as [E1 E2]. cbn. rewrite (unmarshal_jsonb c x d Hsx Hx), (unmarshal_marshal c x d Hsx Hx), E1, E2. split; reflexivity.
Qed.
Definition documents_of (st : State) (c : Collection) : list string := match mapM (marshal c) (col_get c st) with Ok docs => docs | Err _ => [] end.
Lemma documents_fold st cs (g : Groups) : Forall (fun c => Forall (storable c) (col_get c st)) cs -> NoDup (map col_key cs) -> exists g' : Groups,
  foldM (fun (groups : Groups) c => (fun docs => <[col_key c := docs]> groups) <$> mapM (marshal c) (col_get c st)) g cs = Ok g'
  /\ (forall c, c ∈ cs -> g' !! col_key c = Some (documents_of st c)) /\ (forall kind, kind ∉ map col_key cs -> g' !! kind = g !! kind).
Proof using laws.
  intros Hs. revert g. induction Hs as [|c cs Hc Hs IH]; intros g Hn; [exists g; split; [reflexivity|]; split; [intros c Hc; inversion Hc|auto]|].
  cbn in Hn. apply list.NoDup_cons in Hn as [Hni Hn]. destruct (marshal_all c _ Hc) as [docs Hd].
  destruct (IH (<[col_key c := docs]> g) Hn) as (g' & Hg & Hin & Hout). exists g'. cbn. rewrite Hd. cbn. split; [exact Hg|]. split.
  - intros c' [->|Hc']%elem_of_cons; [|exact (Hin c' Hc')]. rewrite Hout by exact Hni. unfold documents_of. rewrite Hd. apply lookup_insert_eq.
  - intros kind [Hne Hk]%not_elem_of_cons. rewrite Hout by exact Hk. apply lookup_insert_ne. auto.
Qed.
Lemma codecDocuments_spec st : Storable st -> exists g, codecDocuments st = Ok g
  /\ (forall c, c ∈ schema -> g !! col_key c = Some (documents_of st c)) /\ (forall kind, kind ∉ map col_key schema -> g !! kind = None).
Proof using laws.
  intros [Hs _]. destruct (documents_fold st schema ∅ Hs schema_keys) as (g & Hg & Hin & Hout). exists g. split; [exact Hg|]. split; [exact Hin|].
  intros kind Hk. rewrite (Hout kind Hk). apply lookup_empty.
Qed.
(** Decoding sets the collections of the groups, in whatever order they come. *)
Lemma decode_groups_spec target l st : NoDup l.*1 ->
  (forall kind docs, (kind, docs) ∈ l -> exists c, c ∈ schema /\ col_key c = kind /\ decode_group c docs = Some (col_get c target)) ->
  exists st', decode_groups l st = Some st' /\ State_Events st' = State_Events st
    /\ forall c, c ∈ schema -> col_get c st' = if bool_decide (col_key c ∈ l.*1) then col_get c target else col_get c st.
Proof using Type.
  revert st. induction l as [|[kind docs] l IH]; intros st Hn Hl; [exists st; cbn; auto|]. cbn in Hn. apply list.NoDup_cons in Hn as [Hni Hn].
  destruct (Hl kind docs ltac:(left)) as (c & Hc & <- & Hd). destruct (IH (col_set c (col_get c target) st) Hn) as (st' & Hst & He & Hg); [intros; apply Hl; right; assumption|].
  exists st'. cbn. rewrite (collection_key c Hc). cbn. rewrite Hd. cbn. split; [exact Hst|]. split; [rewrite He; apply col_set_events, Hc|].
  intros c' Hc'. rewrite (Hg c' Hc'). destruct (decide (col_key c' ∈ l.*1)) as [Hin|Hout].
  - rewrite !bool_decide_true; [reflexivity|right; exact Hin|exact Hin].
  - rewrite (bool_decide_false _ Hout). destruct (decide (col_key c = col_key c')) as [E|Hne].
    + rewrite bool_decide_true by (rewrite E; left). assert (Ec : c' = c) by (pose proof (collection_key c Hc); pose proof (collection_key c' Hc'); congruence).
      subst c'. apply col_get_set, Hc.
    + rewrite bool_decide_false; [apply col_get_other; assumption|]. intros [E|Hin]%elem_of_cons; [apply Hne; auto|contradiction].
Qed.
Lemma decode_exact target l : NoDup l.*1 ->
  (forall kind docs, (kind, docs) ∈ l -> exists c, c ∈ schema /\ col_key c = kind /\ decode_group c docs = Some (col_get c target)) ->
  (forall c, c ∈ schema -> col_key c ∉ l.*1 -> col_get c target = []) -> decode_groups l zero = Some (target <| State_Events := [] |>).
Proof using Type.
  intros Hn Hl Hrest. destruct (decode_groups_spec target l zero Hn Hl) as (st' & -> & He & Hg). f_equal. apply state_ext; [|exact He].
  apply list.Forall_forall. intros c Hc. rewrite (Hg c Hc).
  rewrite (col_without_events c [] target Hc). case_bool_decide as Hk; [reflexivity|]. rewrite (Hrest c Hc Hk). apply col_zero, Hc.
Qed.
(** C18 Storing loses nothing: the documents of a state, decoded in any order
    of the groups, are the state without its events. *)
Theorem documents_round_trip st groups : Storable st -> codecDocuments st = Ok groups -> decodeStoredDocuments groups = Ok (st <| State_Events := [] |>).
Proof using laws.
  intros Hs Hg. destruct (codecDocuments_spec st Hs) as (g & E & Hin & Hout). rewrite Hg in E. injection E as <-.
  unfold decodeStoredDocuments. rewrite (decode_exact st); [reflexivity|apply map_range_keys| |].
  - intros kind docs Hk%elem_of_map_range. destruct (decide (kind ∈ map col_key schema)) as [Hks|Hks]; [|rewrite (Hout kind Hks) in Hk; discriminate].
    apply list_elem_of_fmap in Hks as (c & -> & Hc). exists c. split; [exact Hc|]. split; [reflexivity|]. pose proof (eq_trans (eq_sym Hk) (Hin c Hc)) as [= ->].
    destruct Hs as [Hs _]. destruct (marshal_all c _ (proj1 (list.Forall_forall _ _) Hs c Hc)) as [docs Hd]. unfold documents_of. rewrite Hd.
    exact (proj1 (decode_documents c _ _ (proj1 (list.Forall_forall _ _) Hs c Hc) Hd)).
  - intros c Hc Hk. exfalso. apply Hk. apply list_elem_of_fmap. exists (col_key c, documents_of st c). split; [reflexivity|].
    apply elem_of_map_range, Hin, Hc.
Qed.
End round_trip.
