(* ===== verification/Stores.v ===== *)
(** * The stores

    PostgreSQL ([Store] of persistence/store.go) keeps a row for every record
    and writes the rows that changed; the local store ([LocalStore] of
    persistence/local.go) writes the whole state.  Both run the transaction on
    the state they read and refuse what is not a state.  The database itself is
    its tables: [records] with its primary key, [events] in the order of their
    sequence, [control_revision]. *)
From S2P Require Import Prelude GoText GoJson Delivery Domain Status Handlers Reservation Pins WorkerAuth WorkerJobs Registry Checks WorkerChecks Schema Documents.
Open Scope string_scope.
Open Scope list_scope.

(** ** Tables *)
Record Row := mkRow { row_id : string; row_kind : string; row_product : string; row_feature : string; row_document : string; row_position : Z }.
Record EventRow := mkEventRow { event_id : string; event_product : string; event_feature : string; event_document : string }.
Record Database := mkDatabase { records : gmap string Row; events : list EventRow; revision : Z }.
#[export] Instance row_eq : EqDecision Row.
Proof. solve_decision. Defined.
(** [ORDER BY kind, position, id]; the collation of [text] columns is the
    database's. *)
Class Collation := { text_le : string -> string -> bool; text_le_refl : forall s, text_le s s = true;
  text_le_trans : forall a b c, text_le a b = true -> text_le b c = true -> text_le a c = true;
  text_le_antisym : forall a b, text_le a b = true -> text_le b a = true -> a = b;
  text_le_total : forall a b, text_le a b = true \/ text_le b a = true }.
Definition row_le `{Collation} (a b : Row) : Prop :=
  (if row_kind a == row_kind b
   then (row_position a <? row_position b)%Z || ((row_position a =? row_position b)%Z && text_le (row_id a) (row_id b))
   else text_le (row_kind a) (row_kind b)) = true.
#[export] Instance row_le_dec `{Collation} a b : Decision (row_le a b).
Proof. unfold row_le. apply _. Defined.

Section stores.
Context `{Runtime, NetURL, URLs, Hashing, Encoding, MapOrder, Json, Collation}.

(** ** What a state is — domain/status_validation.go *)
Definition ValidateStateStatuses (st : State) : res unit :=
  _ ← reject_if (negb (ValidateRegistryInventories st)) (plain "invalid registry inventory references or immutable receipt");
  _ ← ValidateArtifactPins st;
  _ ← ValidateWorkerChecks st;
  _ ← ValidateRepositoryKinds st;
  ValidateStatuses st.

(** ** PostgreSQL *)
Definition ordered_rows (t : gmap string Row) : list Row := merge_sort row_le (map snd (map_to_list t)).
(** [groups[kind] = append(groups[kind], document)] *)
Definition add_document (groups : Groups) (r : Row) : Groups :=
  <[row_kind r := default [] (groups !! row_kind r) ++ [jsonb (row_document r)]]> groups.
Definition grouped (rows : list Row) : Groups := foldl add_document ∅ rows.
Definition read_events (rows : list EventRow) : res (list Event) :=
  mapM (fun r => match unmarshal_event (jsonb (event_document r)) with Some e => Ok e | None => plain "invalid event" end) rows.
Definition read (db : Database) : res State :=
  st ← decodeStoredDocuments (grouped (ordered_rows (records db)));
  evs ← read_events (events db);
  let st := st <| State_Events ::= fun l => l ++ evs |> in
  _ ← reject_if (negb (ValidateRegistryInventories st)) (plain "invalid registry inventory references or immutable receipt");
  _ ← ValidateArtifactPins st;
  Ok st.
(** [DELETE FROM records WHERE id=ANY(ids) AND kind=kind] *)
Definition delete_rows (kind : string) (ids : list string) (t : gmap string Row) : gmap string Row :=
  filter (fun kv => ~ (kv.1 ∈ ids /\ row_kind kv.2 = kind)) t.
(** [INSERT ... ON CONFLICT(id) DO UPDATE]: the kind of a row that exists stays. *)
Definition conflict (r : Row) (old : option Row) : Row :=
  match old with
  | Some old => mkRow (row_id r) (row_kind old) (row_product r) (row_feature r) (row_document r) (row_position r)
  | None => r
  end.
Definition upsert (r : Row) (t : gmap string Row) : gmap string Row := <[row_id r := conflict r (t !! row_id r)]> t.
Definition removed_ids (before after : documentIndex) (kind : string) (docs : list string) : list string :=
  map raw_id (List.filter (index_removed before after kind) docs).
Definition delete_removed (before after : documentIndex) (groups : list (string * list string)) (t : gmap string Row) : gmap string Row :=
  foldl (fun t g => delete_rows g.1 (removed_ids before after g.1 g.2) t) t groups.
(** The rows that changed, at their positions. *)
Definition changed_row (before : documentIndex) (kind : string) (position : nat) (raw : string) : option Row :=
  match header raw with
  | Some (id, product, feature) =>
    if unchanged before kind id raw then None else Some (mkRow id kind product feature raw (Z.of_nat position))
  | None => None
  end.
Definition changed_rows (before : documentIndex) (g : string * list string) : list Row :=
  omap id (imap (changed_row before g.1) g.2).
Definition write_rows (rows : list Row) (t : gmap string Row) : gmap string Row := foldl (fun t r => upsert r t) t rows.
Definition event_row (e : Event) : EventRow := mkEventRow (Event_ID e) (Event_ProductID e) (Event_FeatureID e) (marshal_event e).
(** The identifier of an event is unique. *)
Definition insert_event (rows : list EventRow) (e : Event) : res (list EventRow) :=
  _ ← reject_if (contains (map event_id rows) (Event_ID e)) (plain "duplicate key value violates unique constraint");
  Ok (rows ++ [event_row e]).
Definition update (fn : State -> res State) (db : Database) : res Database :=
  st ← read db;
  before ← codecDocuments st;
  st' ← fn st;
  _ ← ValidateStateStatuses st';
  after ← codecDocuments st';
  bi ← indexDocuments before;
  ai ← indexDocuments after;
  let t := delete_removed bi ai (map_range before) (records db) in
  let t := write_rows (List.concat (map (changed_rows bi) (map_range after))) t in
  _ ← reject_if (length (State_Events st') <? length (State_Events st))%nat (Err ErrPanic);
  rows ← foldM insert_event (events db) (drop (length (State_Events st)) (State_Events st'));
  Ok (mkDatabase t rows (revision db + 1)).

(** ** The local store *)
(** [encoding/json] of the whole state, of a list of events, and the bytes. *)
Context (encode_state : State -> string) (decode_state : string -> option State).
Definition maxLocalStateBytes : Z := Z.shiftl 256 20.
Definition readLocal (data : string) : res State :=
  _ ← reject_if ((data == "") || (maxLocalStateBytes <? Z.of_nat (String.length data))%Z) (plain "local state missing or exceeds 256 MiB limit");
  match decode_state data with
  | None => plain "decode local state"
  | Some st => _ ← ValidateStateStatuses st; Ok st
  end.
(** The kind of every record identifier. *)
Definition record_kind (acc : gmap string string) (kv : string * string) : res (gmap string string) :=
  '(id, _, _) ← header_of kv.2;
  _ ← reject_if (id == "") (plain "record ID is required");
  _ ← reject_if (bool_decide (is_Some (acc !! id))) (plain "duplicate record ID");
  Ok (<[id := kv.1]> acc).
Definition flat (groups : list (string * list string)) : list (string * string) :=
  List.concat (map (fun g => map (fun raw => (g.1, raw)) g.2) groups).
Definition kept_record (ids : gmap string string) (before after : Groups) (kv : string * string) : res unit :=
  '(id, _, _) ← header_of kv.2;
  reject_if (negb (default "" (ids !! id) == kv.1) && negb (productRecordRemoved before after kv.1 kv.2))
    (plain "existing records cannot be removed or change kind").
Definition unique_event (seen : list string) (e : Event) : res (list string) :=
  _ ← reject_if ((Event_ID e == "") || contains seen (Event_ID e)) (plain "audit event ID must be unique and nonempty");
  Ok (Event_ID e :: seen).
Definition updateLocal (fn : State -> res State) (data : string) : res string :=
  st ← readLocal data;
  before ← codecDocuments st;
  st' ← fn st;
  _ ← ValidateStateStatuses st';
  _ ← reject_if (length (State_Events st') <? length (State_Events st))%nat (plain "audit history cannot be removed");
  _ ← reject_if (bool_decide (map marshal_event (State_Events st) <> map marshal_event (take (length (State_Events st)) (State_Events st'))))
        (plain "audit history cannot be rewritten");
  after ← codecDocuments st';
  ids ← foldM record_kind ∅ (flat (map_range after));
  _ ← each (kept_record ids before after) (flat (map_range before));
  _ ← foldM unique_event [] (State_Events st');
  let encoded := encode_state st' in
  _ ← reject_if (maxLocalStateBytes <? Z.of_nat (String.length encoded))%Z (plain "local state exceeds 256 MiB limit; use PostgreSQL");
  Ok encoded.
End stores.
