(* ===== verification/StoreRefinement.v ===== *)
(** * The stores refine a single state

    What PostgreSQL holds for a state, that reading it gives the state back,
    and that a transaction which keeps the records where they are is stored
    exactly; and what the local store (persistence/local.go) guarantees of
    every transaction: it refuses one that rewrites the audit history, repeats
    or drops identifiers, or removes records other than those of a product
    that is gone. *)
From S2P Require Import Prelude GoText GoJson Delivery Domain Status Handlers Reservation WorkerAuth Pins WorkerJobs Registry Checks WorkerChecks Schema Documents Stores.
Open Scope string_scope.
Open Scope list_scope.

(** ** The order of rows *)
#[export] Instance row_le_total `{Collation} : Total row_le.
Proof.
  intros a b. unfold row_le. rewrite (bool_decide_ext (row_kind b = row_kind a) (row_kind a = row_kind b)) by (split; congruence).
  case_bool_decide as E; [|apply text_le_total].
  rewrite !orb_true_iff, !andb_true_iff, !Z.ltb_lt, !Z.eqb_eq. destruct (Z.lt_trichotomy (row_position a) (row_position b)) as [|[Ep|]]; auto.
  destruct (text_le_total (row_id a) (row_id b)); auto.
Qed.
Lemma row_le_spec `{Collation} a b : row_le a b <->
  (row_kind a = row_kind b /\ (row_position a < row_position b \/ row_position a = row_position b /\ text_le (row_id a) (row_id b) = true)%Z)
  \/ (row_kind a <> row_kind b /\ text_le (row_kind a) (row_kind b) = true).
Proof.
  unfold row_le. case_bool_decide as E; [rewrite !orb_true_iff, !andb_true_iff, !Z.ltb_lt, !Z.eqb_eq|]; tauto.
Qed.
#[export] Instance row_le_transitive `{Collation} : Transitive row_le.
Proof.
  intros a b c. rewrite !row_le_spec. intros [[E1 P1]|[N1 T1]] [[E2 P2]|[N2 T2]].
  - left. split; [congruence|]. destruct P1 as [|[Q1 T1]], P2 as [|[Q2 T2]]; try (left; lia). right. split; [lia|]. eapply text_le_trans; eassumption.
  - right. rewrite E1. auto.
  - right. rewrite <- E2. auto.
  - right. split; [|eapply text_le_trans; eassumption]. intros E. apply N2. rewrite E in T1. exact (text_le_antisym _ _ T2 T1).
Qed.
Lemma sorted_filter {A} (R : A -> A -> Prop) (p : A -> bool) l : StronglySorted R l -> StronglySorted R (List.filter p l).
Proof.
  induction 1 as [|x l Hs IH Hx]; cbn; [constructor|]. destruct (p x); [|exact IH]. constructor; [exact IH|].
  apply list.Forall_forall. intros y Hy. apply (proj1 (list.Forall_forall _ _) Hx). apply list_elem_of_In in Hy. apply List.filter_In in Hy as [Hy _].
  apply list_elem_of_In, Hy.
Qed.
#[export] Instance filter_permutation {A} (p : A -> bool) : Proper (Permutation ==> Permutation) (List.filter p).
Proof.
  induction 1 as [|x l l' _ IH|x y l|l1 l2 l3 _ IH1 _ IH2]; cbn; [reflexivity| | |etransitivity; eassumption].
  - destruct (p x); [constructor|]; exact IH.
  - destruct (p x), (p y); try reflexivity. constructor.
Qed.

Section refinement.
Context `{Runtime, NetURL, URLs, Hashing, Encoding, MapOrder, Json, Collation} {laws : JsonLaws}.
Implicit Types (st : State) (t : gmap string Row).

(** ** What the tables hold *)
Definition row_of (kind : string) (i : nat) (d : string) : Row :=
  match header d with
  | Some (id, product, feature) => mkRow id kind product feature d (Z.of_nat i)
  | None => mkRow "" kind "" "" d (Z.of_nat i)
  end.
Definition rows_in st (c : Collection) : list Row := imap (row_of (col_key c)) (documents_of st c).
Definition expected st : list Row := List.concat (map (rows_in st) schema).
(** The tables hold [st]: a row for every record, at its position in its
    collection, and the events in order. *)
Record Represents (db : Database) st : Prop := {
  represents_rows : forall id r, records db !! id = Some r <-> r ∈ expected st /\ row_id r = id;
  represents_events : events db = map event_row (State_Events st);
  represents_ids : NoDup (map row_id (expected st));
  represents_event_ids : NoDup (map Event_ID (State_Events st));
  represents_storable : Storable st;
  represents_registry : ValidateRegistryInventories st = true;
  represents_pins : ValidateArtifactPins st = Ok () }.

Lemma row_of_fields kind i d : row_kind (row_of kind i d) = kind /\ row_position (row_of kind i d) = Z.of_nat i
  /\ row_document (row_of kind i d) = d /\ row_id (row_of kind i d) = raw_id d.
Proof using Type. unfold row_of, raw_id. destruct (header d) as [[[id product] feature]|]; auto. Qed.
Lemma elem_of_expected st r : r ∈ expected st <-> exists c i d, c ∈ schema /\ documents_of st c !! i = Some d /\ r = row_of (col_key c) i d.
Proof using Type.
  unfold expected. rewrite list_elem_of_In, List.in_concat. split.
  - intros (l & (c & <- & Hc)%in_map_iff & Hr). apply list_elem_of_In in Hr, Hc. apply elem_of_lookup_imap in Hr as (i & d & -> & Hd). eauto 7.
  - intros (c & i & d & Hc & Hd & ->). exists (rows_in st c). split; [apply in_map, list_elem_of_In, Hc|].
    apply list_elem_of_In, elem_of_lookup_imap. eauto.
Qed.
(** The rows of one kind are those of its collection. *)
Lemma filter_everything {A} (p : A -> bool) l : (forall x, x ∈ l -> p x = true) -> List.filter p l = l.
Proof using Type.
  induction l as [|x l IH]; intros Hp; [reflexivity|]. cbn. rewrite (Hp x) by left. f_equal. apply IH. intros y Hy. apply Hp. right. exact Hy.
Qed.
Lemma filter_none {A} (p : A -> bool) l : (forall x, x ∈ l -> p x = false) -> List.filter p l = [].
Proof using Type.
  induction l as [|x l IH]; intros Hp; [reflexivity|]. cbn. rewrite (Hp x) by left. apply IH. intros y Hy. apply Hp. right. exact Hy.
Qed.
Lemma rows_in_kind st c r : r ∈ rows_in st c -> row_kind r = col_key c.
Proof using Type. intros (i & d & -> & _)%elem_of_lookup_imap. apply row_of_fields. Qed.
Lemma other_rows st c cs : col_key c ∉ map col_key cs -> List.filter (fun r => row_kind r == col_key c) (List.concat (map (rows_in st) cs)) = [].
Proof using Type.
  intros Hk. apply filter_none. intros r Hr. apply bool_decide_eq_false. intros E. apply Hk. apply list_elem_of_In, List.in_concat in Hr.
  destruct Hr as (l & (c' & <- & Hc')%in_map_iff & Hr). apply list_elem_of_In, rows_in_kind in Hr. rewrite <- E, Hr. apply list_elem_of_fmap_2, list_elem_of_In, Hc'.
Qed.
Lemma kind_rows st c cs : NoDup (map col_key cs) -> c ∈ cs -> List.filter (fun r => row_kind r == col_key c) (List.concat (map (rows_in st) cs)) = rows_in st c.
Proof using Type.
  intros Hn. induction cs as [|c' cs IH]; intros Hc; [inversion Hc|]. change (NoDup (col_key c' :: map col_key cs)) in Hn.
  apply list.NoDup_cons in Hn as [Hni Hn]. change (List.concat (map (rows_in st) (c' :: cs))) with (rows_in st c' ++ List.concat (map (rows_in st) cs)).
  rewrite List.filter_app. apply elem_of_cons in Hc as [->|Hc].
  - rewrite filter_everything, other_rows, app_nil_r; [reflexivity|exact Hni|]. intros r Hr. apply bool_decide_eq_true. exact (rows_in_kind _ _ _ Hr).
  - rewrite filter_none, (IH Hn Hc); [reflexivity|]. intros r Hr. apply bool_decide_eq_false. rewrite (rows_in_kind _ _ _ Hr). intros E. apply Hni.
    change (col_key c' ∈ map col_key cs). rewrite E. apply list_elem_of_fmap_2, Hc.
Qed.
(** *** Reading *)
Definition of_kind (kind : string) (rows : list Row) : list Row := List.filter (fun r => row_kind r == kind) rows.
Lemma grouped_spec rows (g : Groups) kind : (foldl add_document g rows) !! kind
  = match default [] (g !! kind) ++ ((fun r => jsonb (row_document r)) <$> of_kind kind rows) with
    | [] => g !! kind
    | l => Some l
    end.
Proof using Type.
  revert g. induction rows as [|r rows IH]; intros g; cbn.
  - rewrite app_nil_r. destruct (g !! kind) as [[|]|]; reflexivity.
  - rewrite IH. unfold add_document. destruct (decide (row_kind r = kind)) as [<-|Hne].
    + rewrite lookup_insert_eq. unfold of_kind. cbn. rewrite (bool_decide_true (row_kind r = row_kind r)) by reflexivity. cbn.
      rewrite <- app_assoc. cbn. destruct (default [] (g !! row_kind r)); reflexivity.
    + rewrite lookup_insert_ne by exact Hne. unfold of_kind. cbn. rewrite (bool_decide_false _ Hne). reflexivity.
Qed.
Lemma rows_sorted kind k docs : StronglySorted row_le (imap (fun i => row_of kind (k + i)) docs).
Proof using Type.
  revert k. induction docs as [|d docs IH]; intros k; [constructor|]. cbn. constructor.
  - rewrite (imap_ext _ (fun i => row_of kind (S k + i))); [apply IH|]. intros i x _. cbn. f_equal. lia.
  - apply list.Forall_forall. intros r (i & x & -> & _)%elem_of_lookup_imap. apply row_le_spec. left.
    destruct (row_of_fields kind (k + 0) d) as (-> & -> & _). cbn. destruct (row_of_fields kind (k + S i) x) as (-> & -> & _).
    split; [reflexivity|]. left. lia.
Qed.
Lemma in_order st c rows : c ∈ schema -> rows ≡ₚ expected st -> StronglySorted row_le rows -> of_kind (col_key c) rows = rows_in st c.
Proof using Type.
  intros Hc Hp Hs. apply (StronglySorted_unique_strong row_le).
  - intros a b Ha (j & d' & -> & Hj)%elem_of_lookup_imap. apply list_elem_of_In, List.filter_In in Ha as [Ha Hk]. apply bool_decide_eq_true in Hk.
    apply list_elem_of_In in Ha. rewrite Hp in Ha. apply elem_of_expected in Ha as (c' & i & d & Hc' & Hi & ->).
    destruct (row_of_fields (col_key c') i d) as (Ek & Ep & _). destruct (row_of_fields (col_key c) j d') as (Ek' & Ep' & _).
    rewrite Ek in Hk. assert (Ec : c' = c) by (pose proof (collection_key c Hc) as E1; pose proof (collection_key c' Hc') as E2; rewrite Hk, E1 in E2; congruence).
    subst c'. intros Ha' Hb'. apply row_le_spec in Ha', Hb'. rewrite Ek, Ep, Ek', Ep' in *.
    assert (Eij : i = j) by (destruct Ha' as [[_ [|[]]]|[]], Hb' as [[_ [|[]]]|[]]; first [lia|contradiction]). subst j. congruence.
  - apply sorted_filter, Hs.
  - apply (rows_sorted (col_key c) 0).
  - rewrite <- (kind_rows st c schema schema_keys Hc). unfold of_kind. change (List.concat (map (rows_in st) schema)) with (expected st). rewrite Hp. reflexivity.
Qed.
Lemma rows_permutation db st : Represents db st -> map snd (map_to_list (records db)) ≡ₚ expected st.
Proof using Type.
  intros R. assert (Hids : row_id <$> (map snd (map_to_list (records db))) = (map_to_list (records db)).*1).
  { rewrite <- list_fmap_compose. apply list_fmap_ext. intros i [id r] Hi. cbn. apply list_elem_of_lookup_2, elem_of_map_to_list in Hi.
    apply (represents_rows _ _ R) in Hi as [_ Hi]. exact Hi. }
  apply NoDup_Permutation.
  - apply (NoDup_fmap_1 row_id). rewrite Hids. apply NoDup_fst_map_to_list.
  - exact (NoDup_fmap_1 row_id _ (represents_ids _ _ R)).
  - intros r. rewrite list_elem_of_fmap. split.
    + intros ([id r'] & -> & Hin%elem_of_map_to_list). apply (represents_rows _ _ R) in Hin as [Hin _]. exact Hin.
    + intros Hr. exists (row_id r, r). split; [reflexivity|]. apply elem_of_map_to_list, (represents_rows _ _ R). auto.
Qed.
Lemma read_events_exact evs : Forall storable_event evs -> read_events (map event_row evs) = Ok evs.
Proof using laws.
  unfold read_events. induction 1 as [|e evs He _ IH]; [reflexivity|]. cbn. rewrite (unmarshal_event_jsonb e He). cbn. cbn in IH. rewrite IH. reflexivity.
Qed.
Lemma documents_storable st c : Storable st -> c ∈ schema -> decode_group c (jsonb <$> documents_of st c) = Some (col_get c st).
Proof using laws.
  intros [Hs _] Hc. pose proof (proj1 (list.Forall_forall _ _) Hs c Hc) as Hl. destruct (marshal_all c _ Hl) as [docs Hd]. unfold documents_of. rewrite Hd.
  exact (proj2 (decode_documents c _ _ Hl Hd)).
Qed.
Lemma documents_length st c : Storable st -> c ∈ schema -> documents_of st c = [] -> col_get c st = [].
Proof using laws. intros Hs Hc E. pose proof (documents_storable st c Hs Hc) as Hd. rewrite E in Hd. injection Hd as <-. reflexivity. Qed.
(** What is stored is what is read. *)
Lemma read_represents db st : Represents db st -> read db = Ok st.
Proof using laws.
  intros R. pose proof (represents_storable _ _ R) as Hs. unfold read. set (rows := ordered_rows (records db)).
  assert (Hperm : rows ≡ₚ expected st) by (unfold rows, ordered_rows; rewrite merge_sort_Permutation; exact (rows_permutation _ _ R)).
  assert (Hsorted : StronglySorted row_le rows) by (apply StronglySorted_merge_sort; apply _).
  assert (Hkinds : forall kind, of_kind kind rows <> [] -> exists c, c ∈ schema /\ col_key c = kind).
  { intros kind Hne. destruct (of_kind kind rows) as [|r l] eqn:E; [contradiction|]. assert (Hr : r ∈ of_kind kind rows) by (rewrite E; left).
    apply list_elem_of_In, List.filter_In in Hr as [Hr Hk%bool_decide_eq_true]. apply list_elem_of_In in Hr. rewrite Hperm in Hr.
    apply elem_of_expected in Hr as (c & i & d & Hc & _ & ->). exists c. split; [exact Hc|]. rewrite <- Hk. symmetry. apply row_of_fields. }
  assert (Hgroup : forall c, c ∈ schema -> (fun r => jsonb (row_document r)) <$> of_kind (col_key c) rows = jsonb <$> documents_of st c).
  { intros c Hc. rewrite (in_order st c rows Hc Hperm Hsorted). unfold rows_in. apply list_eq. intros i. rewrite !list_lookup_fmap, list_lookup_imap.
    destruct (documents_of st c !! i) as [d|]; [|reflexivity]. cbn. destruct (row_of_fields (col_key c) i d) as (_ & _ & -> & _). reflexivity. }
  assert (Hdec : decodeStoredDocuments (grouped rows) = Ok (st <| State_Events := [] |>)).
  { unfold decodeStoredDocuments. rewrite (decode_exact st); [reflexivity|apply map_range_keys| |].
    - intros kind docs Hk%elem_of_map_range. unfold grouped in Hk. rewrite grouped_spec in Hk. cbn in Hk.
      destruct (Hkinds kind) as (c & Hc & <-); [intros E; rewrite E in Hk; discriminate|]. exists c. split; [exact Hc|]. split; [reflexivity|].
      rewrite (Hgroup c Hc) in Hk. rewrite <- (documents_storable st c Hs Hc). destruct (jsonb <$> documents_of st c); [discriminate|injection Hk as <-; reflexivity].
    - intros c Hc Hk. apply (documents_length st c Hs Hc). destruct (documents_of st c) as [|d l] eqn:E; [reflexivity|]. exfalso. apply Hk.
      apply list_elem_of_fmap. exists (col_key c, jsonb <$> documents_of st c). split; [reflexivity|]. apply elem_of_map_range.
      unfold grouped. rewrite grouped_spec. cbn. rewrite (Hgroup c Hc), E. reflexivity. }
  rewrite Hdec. cbn [mbind res_bind]. rewrite (represents_events _ _ R), (read_events_exact _ (proj2 Hs)). cbn [mbind res_bind].
  cbv zeta. match goal with |- context [ValidateRegistryInventories ?s] => assert (Est : s = st) by (destruct st; reflexivity) end.
  rewrite Est, (represents_registry _ _ R). cbn [reject_if negb mbind res_bind]. rewrite (represents_pins _ _ R). reflexivity.
Qed.

(** *** Writing *)
Lemma document_at st c i d : Storable st -> c ∈ schema -> documents_of st c !! i = Some d ->
  exists x, col_get c st !! i = Some x /\ header d = Some (ID x, ProductID x, FeatureID x).
Proof using laws.
  intros [Hs _] Hc Hd. pose proof (proj1 (list.Forall_forall _ _) Hs c Hc) as Hl. destruct (marshal_all c _ Hl) as [docs E].
  unfold documents_of in Hd. rewrite E in Hd. apply mapM_res_Forall2 in E. destruct (Forall2_lookup_r _ _ _ _ _ E Hd) as (x & Hx & Em).
  exists x. split; [exact Hx|]. apply header_marshal; [|exact Em]. apply (proj1 (list.Forall_forall _ _) Hl). eapply list_elem_of_lookup_2, Hx.
Qed.
Lemma raw_id_at st c i d : Storable st -> c ∈ schema -> documents_of st c !! i = Some d -> map ID (col_get c st) !! i = Some (raw_id d).
Proof using laws.
  intros Hs Hc Hd. destruct (document_at st c i d Hs Hc Hd) as (x & Hx & Eh). rewrite list_lookup_fmap, Hx. unfold raw_id. rewrite Eh. reflexivity.
Qed.
Lemma document_for st c i x : Storable st -> c ∈ schema -> col_get c st !! i = Some x -> exists d, documents_of st c !! i = Some d /\ raw_id d = ID x.
Proof using laws.
  intros Hs Hc Hx. pose proof (proj1 (list.Forall_forall _ _) (proj1 Hs) c Hc) as Hl. destruct (marshal_all c _ Hl) as [docs E].
  pose proof E as E2. apply mapM_res_Forall2 in E2. destruct (Forall2_lookup_l _ _ _ _ _ E2 Hx) as (d & Hd & Em).
  exists d. assert (Hd' : documents_of st c !! i = Some d) by (unfold documents_of; rewrite E; exact Hd). split; [exact Hd'|].
  pose proof (raw_id_at st c i d Hs Hc Hd') as Ei. rewrite list_lookup_fmap, Hx in Ei. injection Ei as ->. reflexivity.
Qed.
Lemma index_rows_Ok acc rows : (forall r, r ∈ rows -> exists h, header r = Some h) -> exists acc', foldM index_row acc rows = Ok acc'.
Proof using Type.
  revert acc. induction rows as [|r rows IH]; intros acc Hh; [eexists; reflexivity|]. destruct (Hh r ltac:(left)) as [[[id product] feature] E].
  assert (Hrow : exists acc1, index_row acc r = Ok acc1) by (unfold index_row, header_of; rewrite E; eexists; reflexivity).
  destruct Hrow as [acc1 Hrow]. cbn. rewrite Hrow. apply IH. intros r' Hr'. apply Hh. right. exact Hr'.
Qed.
Lemma index_groups_Ok acc (l : list (string * list string)) : (forall g r, g ∈ l -> r ∈ g.2 -> exists h, header r = Some h) -> exists ix, foldM index_group acc l = Ok ix.
Proof using Type.
  revert acc. induction l as [|g l IH]; intros acc Hh; [eexists; reflexivity|]. cbn.
  destruct (index_rows_Ok (∅, owners_of acc) g.2) as [[rows owners] E]; [intros r Hr; apply (Hh g r); [left|exact Hr]|].
  assert (Hgroup : exists acc1, index_group acc g = Ok acc1) by (unfold index_group; rewrite E; eexists; reflexivity).
  destruct Hgroup as [acc1 Hgroup]. rewrite Hgroup. apply IH. intros g' r Hg Hr. apply (Hh g' r); [right; exact Hg|exact Hr].
Qed.
(** The documents of a storable state, and their index. *)
Lemma index_of st : Storable st -> exists g ix, codecDocuments st = Ok g /\ indexDocuments g = Ok ix
  /\ (forall kind docs, (kind, docs) ∈ map_range g <-> exists c, c ∈ schema /\ kind = col_key c /\ docs = documents_of st c)
  /\ (forall c id, c ∈ schema -> indexed ix (col_key c) id = with_id id (documents_of st c)).
Proof using laws.
  intros Hs. destruct (codecDocuments_spec st Hs) as (g & Eg & Hin & Hout).
  assert (Hrange : forall kind docs, (kind, docs) ∈ map_range g <-> exists c, c ∈ schema /\ kind = col_key c /\ docs = documents_of st c).
  { intros kind docs. rewrite elem_of_map_range. split.
    - intros Hk. destruct (decide (kind ∈ map col_key schema)) as [(c & -> & Hc)%list_elem_of_fmap|Hn]; [|rewrite (Hout kind Hn) in Hk; discriminate].
      exists c. pose proof (eq_trans (eq_sym Hk) (Hin c Hc)) as [= ->]. auto.
    - intros (c & Hc & -> & ->). exact (Hin c Hc). }
  destruct (index_groups_Ok (mkDocumentIndex ∅ ∅) (map_range g)) as [ix Eix].
  { intros [kind docs] r Hg Hr. apply Hrange in Hg as (c & Hc & -> & ->). cbn in Hr. apply list_elem_of_lookup in Hr as [i Hi].
    destruct (document_at st c i r Hs Hc Hi) as (x & _ & E). eauto. }
  exists g, ix. split; [exact Eg|]. split; [exact Eix|]. split; [exact Hrange|]. intros c id Hc.
  destruct (indexDocuments_spec g ix Eix) as [Hi _]. rewrite Hi. unfold rows_of. pose proof (Hin c Hc) as E. cbn. 
  assert (Ed : default [] (g !! col_key c) = documents_of st c) by (pose proof (f_equal (default []) E) as E'; exact E'). f_equal. exact Ed.
Qed.

(** The rows an update writes are rows of the new state, each once. *)
Lemma write_rows_lookup rows t id : NoDup (map row_id rows) ->
  (forall r, r ∈ rows -> row_id r = id -> write_rows rows t !! id = Some (conflict r (t !! id)))
  /\ ((forall r, r ∈ rows -> row_id r <> id) -> write_rows rows t !! id = t !! id).
Proof using Type.
  revert t. induction rows as [|r rows IH]; intros t Hn; [split; [intros r Hr; inversion Hr|reflexivity]|].
  change (NoDup (row_id r :: map row_id rows)) in Hn. apply list.NoDup_cons in Hn as [Hni Hn]. destruct (IH (upsert r t) Hn) as [Hin Hout].
  change (write_rows (r :: rows) t) with (write_rows rows (upsert r t)). split.
  - intros r' [->|Hr']%elem_of_cons <-.
    + rewrite Hout; [apply lookup_insert_eq|]. intros r' Hr' E. apply Hni. rewrite <- E. apply list_elem_of_fmap_2, Hr'.
    + rewrite (Hin r' Hr' eq_refl). unfold upsert. rewrite lookup_insert_ne; [reflexivity|]. intros E. apply Hni. rewrite E. apply list_elem_of_fmap_2, Hr'.
  - intros Hne. rewrite Hout by (intros r' Hr'; apply Hne; right; exact Hr'). apply lookup_insert_ne, Hne. left.
Qed.
Lemma omap_imap_sublist {A B} (f : nat -> A -> option B) (h : nat -> A -> B) l :
  (forall i x r, f i x = Some r -> r = h i x) -> omap (fun r => r) (imap f l) `sublist_of` imap h l.
Proof using Type.
  revert f h. induction l as [|x l IH]; intros f h Hf; [constructor|]. cbn. destruct (f 0 x) as [r|] eqn:E; cbn.
  - rewrite (Hf _ _ _ E). apply sublist_skip, IH. intros i y r'. apply Hf.
  - apply sublist_cons, IH. intros i y r'. apply Hf.
Qed.
Lemma changed_row_Some ix kind i d r : changed_row ix kind i d = Some r -> r = row_of kind i d /\ unchanged ix kind (raw_id d) d = false.
Proof using Type.
  unfold changed_row, row_of, raw_id. destruct (header d) as [[[id product] feature]|]; [|discriminate].
  destruct (unchanged ix kind id d); [discriminate|]. intros [= <-]. auto.
Qed.
Lemma concat_sublist {A B} (f h : A -> list B) l : (forall x, f x `sublist_of` h x) -> List.concat (map f l) `sublist_of` List.concat (map h l).
Proof using Type. intros Hf. induction l as [|x l IH]; [constructor|]. cbn. apply sublist_app; [apply Hf|exact IH]. Qed.
Lemma changed_expected st g ix : (forall kind docs, (kind, docs) ∈ map_range g <-> exists c, c ∈ schema /\ kind = col_key c /\ docs = documents_of st c) ->
  exists rows, List.concat (map (changed_rows ix) (map_range g)) ≡ₚ rows /\ rows `sublist_of` expected st.
Proof using Type.
  intros Hrange. exists (List.concat (map (fun c => changed_rows ix (col_key c, documents_of st c)) schema)). split.
  - rewrite <- !List.flat_map_concat_map.
    transitivity (List.flat_map (changed_rows ix) (map (fun c => (col_key c, documents_of st c)) schema)).
    + apply Permutation_flat_map, NoDup_Permutation.
      * apply (NoDup_fmap_1 fst), map_range_keys.
      * apply (NoDup_fmap_1 fst). rewrite <- list_fmap_compose. exact schema_keys.
      * intros [kind docs]. rewrite Hrange, list_elem_of_fmap. split; [intros (c & Hc & -> & ->); eauto|intros (c & [= -> ->] & Hc); eauto].
    + rewrite !List.flat_map_concat_map, List.map_map. reflexivity.
  - apply concat_sublist. intros c. apply omap_imap_sublist. intros i d r Hr. apply (changed_row_Some _ _ _ _ _ Hr).
Qed.
Lemma elem_of_changed st g ix r : (forall kind docs, (kind, docs) ∈ map_range g <-> exists c, c ∈ schema /\ kind = col_key c /\ docs = documents_of st c) ->
  Storable st -> r ∈ List.concat (map (changed_rows ix) (map_range g)) <->
  exists c i d, c ∈ schema /\ documents_of st c !! i = Some d /\ r = row_of (col_key c) i d /\ unchanged ix (col_key c) (raw_id d) d = false.
Proof using laws.
  intros Hrange Hs. rewrite list_elem_of_In, List.in_concat. split.
  - intros (l & ([kind docs] & <- & Hg)%in_map_iff & Hr). apply list_elem_of_In in Hg, Hr. apply Hrange in Hg as (c & Hc & -> & ->).
    unfold changed_rows in Hr. apply list_elem_of_omap in Hr as (o & Ho & Eo). apply elem_of_lookup_imap in Ho as (i & d & -> & Hd).
    destruct (changed_row_Some _ _ _ _ _ Eo) as [-> Hu]. eauto 9.
  - intros (c & i & d & Hc & Hd & -> & Hu). exists (changed_rows ix (col_key c, documents_of st c)). split.
    + apply in_map_iff. exists (col_key c, documents_of st c). split; [reflexivity|]. apply list_elem_of_In, Hrange. eauto.
    + apply list_elem_of_In, list_elem_of_omap. exists (changed_row ix (col_key c) i d). split; [apply elem_of_lookup_imap; eauto|].
      destruct (document_at st c i d Hs Hc Hd) as (x & _ & Eh). unfold changed_row, row_of, raw_id in *. rewrite Eh in *. rewrite Hu. reflexivity.
Qed.

(** A transaction that keeps the records where they are: it changes records
    and appends others, and appends events. *)
Definition Keeps st st' : Prop :=
  (forall c, c ∈ schema -> map ID (col_get c st) `prefix_of` map ID (col_get c st')) /\ State_Events st `prefix_of` State_Events st'.
Lemma conflict_same r old : row_kind old = row_kind r -> conflict r (Some old) = r.
Proof using Type. intros E. unfold conflict. rewrite E. destruct r; reflexivity. Qed.
Lemma same_record st c c' i j d d' : NoDup (map row_id (expected st)) -> c ∈ schema -> c' ∈ schema ->
  documents_of st c !! i = Some d -> documents_of st c' !! j = Some d' -> raw_id d = raw_id d' -> c = c' /\ i = j.
Proof using Type.
  intros Hn Hc Hc' Hd Hd' E. set (r := row_of (col_key c) i d). set (r' := row_of (col_key c') j d').
  assert (Er : r = r').
  { assert (Hr : r ∈ expected st) by (apply elem_of_expected; unfold r; eauto 7).
    assert (Hr' : r' ∈ expected st) by (apply elem_of_expected; unfold r'; eauto 7).
    apply list_elem_of_lookup in Hr as [a Ha], Hr' as [b Hb]. assert (Eab : a = b).
    { apply (NoDup_lookup (map row_id (expected st)) a b (row_id r) Hn); rewrite list_lookup_fmap, ?Ha, ?Hb; [reflexivity|].
      change (Some (row_id r') = Some (row_id r)). f_equal. unfold r, r'. destruct (row_of_fields (col_key c) i d) as (_ & _ & _ & ->).
      destruct (row_of_fields (col_key c') j d') as (_ & _ & _ & ->). auto. }
    subst b. congruence. }
  destruct (row_of_fields (col_key c) i d) as (Ek & Ep & _). destruct (row_of_fields (col_key c') j d') as (Ek' & Ep' & _).
  fold r in Ek, Ep. fold r' in Ek', Ep'. rewrite Er in Ek, Ep. split; [|lia].
  pose proof (collection_key c Hc). pose proof (collection_key c' Hc'). congruence.
Qed.
Lemma kept_id st st' c i d : Storable st -> Storable st' -> Keeps st st' -> c ∈ schema -> documents_of st c !! i = Some d ->
  exists d', documents_of st' c !! i = Some d' /\ raw_id d' = raw_id d.
Proof using laws.
  intros Hs Hs' [Hk _] Hc Hd. pose proof (prefix_lookup_Some _ _ _ _ (raw_id_at st c i d Hs Hc Hd) (Hk c Hc)) as Hi.
  rewrite list_lookup_fmap in Hi. destruct (col_get c st' !! i) as [x|] eqn:Hx; [|discriminate]. injection Hi as <-.
  exact (document_for st' c i x Hs' Hc Hx).
Qed.
(** Nothing is deleted then. *)
Lemma nothing_removed st st' g bi ai t : Storable st -> Storable st' -> Keeps st st' ->
  (forall kind docs, (kind, docs) ∈ map_range g <-> exists c, c ∈ schema /\ kind = col_key c /\ docs = documents_of st c) ->
  (forall c id, c ∈ schema -> indexed ai (col_key c) id = with_id id (documents_of st' c)) -> delete_removed bi ai (map_range g) t = t.
Proof using laws.
  intros Hs Hs' Hk Hrange Hai. assert (Hnone : forall kv, kv ∈ map_range g -> removed_ids bi ai kv.1 kv.2 = []).
  { intros [kind docs] Hg. apply Hrange in Hg as (c & Hc & -> & ->). cbn. unfold removed_ids. rewrite filter_none; [reflexivity|].
    intros d [i Hd]%list_elem_of_lookup. destruct (kept_id st st' c i d Hs Hs' Hk Hc Hd) as (d' & Hd' & E).
    unfold index_removed. destruct (header d) as [[[id product] feature]|] eqn:Eh; [|reflexivity]. cbv zeta. apply andb_false_iff. right.
    apply bool_decide_eq_false. rewrite (Hai c id Hc). intros En. assert (Hin : d' ∈ with_id id (documents_of st' c)).
    { apply list_elem_of_In, List.filter_In. split; [apply list_elem_of_In; eapply list_elem_of_lookup_2, Hd'|]. apply bool_decide_eq_true.
      rewrite E. unfold raw_id. rewrite Eh. reflexivity. }
    rewrite En in Hin. inversion Hin. }
  unfold delete_removed. revert Hnone. clear. intros Hnone. induction (map_range g) as [|kv l IH]; [reflexivity|]. cbn.
  rewrite (Hnone kv) by left. assert (Ed : delete_rows kv.1 [] t = t).
  { apply map_filter_id. intros id r _ [Hin _]. inversion Hin. }
  rewrite Ed. apply IH. intros kv' Hkv. apply Hnone. right. exact Hkv.
Qed.
(** The rows that are written make the table hold the new state. *)
Lemma rows_written db st st' g bi : Represents db st -> Storable st' -> NoDup (map row_id (expected st')) -> Keeps st st' ->
  (forall kind docs, (kind, docs) ∈ map_range g <-> exists c, c ∈ schema /\ kind = col_key c /\ docs = documents_of st' c) ->
  (forall c id, c ∈ schema -> indexed bi (col_key c) id = with_id id (documents_of st c)) ->
  forall id r, write_rows (List.concat (map (changed_rows bi) (map_range g))) (records db) !! id = Some r <-> r ∈ expected st' /\ row_id r = id.
Proof using laws.
  intros R Hs' Hn Hk Hrange Hbi. pose proof (represents_storable _ _ R) as Hs. set (rows := List.concat _).
  assert (Hrows : NoDup (map row_id rows)).
  { destruct (changed_expected st' g bi Hrange) as (rows' & Hp & Hsub). assert (Hp' : map row_id rows ≡ₚ map row_id rows') by (apply Permutation_map, Hp).
    rewrite Hp'. eapply sublist_NoDup; [exact Hn|]. apply fmap_sublist, Hsub. }
  assert (Hmem : forall r, r ∈ rows <-> _) by (intros r; exact (elem_of_changed st' g bi r Hrange Hs')).
  assert (Hat : forall c i d, c ∈ schema -> documents_of st' c !! i = Some d -> write_rows rows (records db) !! raw_id d = Some (row_of (col_key c) i d)).
  { intros c i d Hc Hd. destruct (write_rows_lookup rows (records db) (raw_id d) Hrows) as [Hin Hout].
    destruct (row_of_fields (col_key c) i d) as (Ekind & Epos & Edoc & Eid). destruct (unchanged bi (col_key c) (raw_id d) d) eqn:Hu.
    - rewrite Hout.
      + apply bool_decide_eq_true in Hu. rewrite (Hbi c _ Hc) in Hu. apply list_elem_of_In, List.filter_In in Hu as [Hu _].
        apply list_elem_of_In, list_elem_of_lookup in Hu as [j Hj]. destruct (kept_id st st' c j d Hs Hs' Hk Hc Hj) as (d' & Hd' & E).
        destruct (same_record st' c c i j d d' Hn Hc Hc Hd Hd' (eq_sym E)) as [_ <-].
        apply (represents_rows _ _ R). split; [apply elem_of_expected; eauto 7|exact Eid].
      + intros r (c' & j & d' & Hc' & Hd' & -> & Hu')%Hmem E. destruct (row_of_fields (col_key c') j d') as (_ & _ & _ & Eid'). rewrite Eid' in E.
        destruct (same_record st' c' c j i d' d Hn Hc' Hc Hd' Hd E) as [-> ->]. rewrite Hd in Hd'. injection Hd' as <-. congruence.
    - rewrite (Hin (row_of (col_key c) i d)); [|apply Hmem; eauto 9|exact Eid]. f_equal. destruct (records db !! raw_id d) as [old|] eqn:Hold; [|reflexivity].
      apply (represents_rows _ _ R) in Hold as [Hold Eold]. apply elem_of_expected in Hold as (c0 & j & d0 & Hc0 & Hd0 & ->).
      destruct (row_of_fields (col_key c0) j d0) as (Ek0 & _ & _ & Ei0). rewrite Ei0 in Eold. destruct (kept_id st st' c0 j d0 Hs Hs' Hk Hc0 Hd0) as (d1 & Hd1 & E1).
      destruct (same_record st' c0 c j i d1 d Hn Hc0 Hc Hd1 Hd) as [-> _]; [congruence|]. apply conflict_same. rewrite Ek0, Ekind. reflexivity. }
  intros id r. split.
  - intros Hr. destruct (write_rows_lookup rows (records db) id Hrows) as [Hin Hout].
    destruct (decide (id ∈ map row_id (expected st'))) as [(r' & Eid & Hr')%list_elem_of_fmap|Hno].
    + pose proof Hr' as Hr2. apply elem_of_expected in Hr2 as (c & i & d & Hc & Hd & ->). assert (Ei : id = raw_id d) by (rewrite Eid; apply row_of_fields).
      rewrite Ei, (Hat c i d Hc Hd) in Hr. injection Hr as <-. split; [exact Hr'|symmetry; exact Eid].
    + exfalso. rewrite Hout in Hr.
      * apply (represents_rows _ _ R) in Hr as [Hr <-]. apply elem_of_expected in Hr as (c & i & d & Hc & Hd & ->).
        destruct (kept_id st st' c i d Hs Hs' Hk Hc Hd) as (d' & Hd' & E). apply Hno. destruct (row_of_fields (col_key c) i d) as (_ & _ & _ & ->). rewrite <- E.
        apply list_elem_of_fmap. exists (row_of (col_key c) i d'). split; [symmetry; apply row_of_fields|]. apply elem_of_expected. eauto 7.
      * intros r' (c & i & d & Hc & Hd & -> & _)%Hmem <-. apply Hno. apply list_elem_of_fmap. eexists. split; [reflexivity|]. apply elem_of_expected. eauto 7.
  - intros [Hr <-]. apply elem_of_expected in Hr as (c & i & d & Hc & Hd & ->). destruct (row_of_fields (col_key c) i d) as (_ & _ & _ & ->). exact (Hat c i d Hc Hd).
Qed.
Lemma insert_events rows evs : NoDup (map event_id rows ++ map Event_ID evs) -> foldM insert_event rows evs = Ok (rows ++ map event_row evs).
Proof using Type.
  revert rows. induction evs as [|e evs IH]; intros rows Hn; [cbn; rewrite app_nil_r; reflexivity|].
  change (foldM insert_event rows (e :: evs)) with (insert_event rows e ≫= fun rows' => foldM insert_event rows' evs).
  assert (Hrow : insert_event rows e = Ok (rows ++ [event_row e])).
  { unfold insert_event. destruct (contains _ _) eqn:E; [|reflexivity]. exfalso. apply bool_decide_eq_true in E.
    apply list.NoDup_app in Hn as (_ & Hd & _). apply (Hd _ E). left. }
  rewrite Hrow. cbn [mbind res_bind]. rewrite IH.
  - rewrite <- app_assoc. reflexivity.
  - change (NoDup (map event_id (rows ++ [event_row e]) ++ map Event_ID evs)). rewrite List.map_app, <- app_assoc. exact Hn.
Qed.
Lemma valid_state st : ValidateStateStatuses st = Ok () -> ValidateRegistryInventories st = true /\ ValidateArtifactPins st = Ok ().
Proof using Type.
  unfold ValidateStateStatuses. intros Hv. apply bind_guard in Hv as [Hr Hv]; [|discriminate]. apply negb_false_iff in Hr.
  apply bind_Ok in Hv as ([] & Hp & _). auto.
Qed.
(** C4 PostgreSQL stores a transaction exactly: when the tables hold a state
    and a transaction makes of it a valid state that keeps the records where
    they are, with identifiers of its own, the update succeeds, and the tables
    then hold, and read gives, the new state, at the next revision. *)
Theorem update_refines db st fn st' : Represents db st -> fn st = Ok st' -> ValidateStateStatuses st' = Ok () -> Storable st' ->
  NoDup (map row_id (expected st')) -> NoDup (map Event_ID (State_Events st')) -> Keeps st st' ->
  exists db', update fn db = Ok db' /\ Represents db' st' /\ read db' = Ok st' /\ revision db' = (revision db + 1)%Z.
Proof using laws.
  intros R Hfn Hv Hs' Hn Hne Hk. pose proof (represents_storable _ _ R) as Hs. destruct (valid_state st' Hv) as [Hreg Hpins].
  destruct (index_of st Hs) as (g & bi & Eg & Ebi & Hrange & Hbi). destruct (index_of st' Hs') as (g' & ai & Eg' & Eai & Hrange' & Hai).
  destruct (proj2 Hk) as [new Enew]. eexists. unfold update. rewrite (read_represents _ _ R). cbn [mbind res_bind]. rewrite Eg. cbn [mbind res_bind].
  rewrite Hfn. cbn [mbind res_bind]. rewrite Hv. cbn [mbind res_bind]. rewrite Eg'. cbn [mbind res_bind]. rewrite Ebi. cbn [mbind res_bind]. rewrite Eai.
  cbn [mbind res_bind]. cbv zeta. rewrite (nothing_removed st st' g bi ai _ Hs Hs' Hk Hrange Hai).
  assert (Hlen : (length (State_Events st') <? length (State_Events st))%nat = false) by (apply Nat.ltb_ge; rewrite Enew, length_app; lia).
  rewrite Hlen. cbn [reject_if mbind res_bind]. rewrite (represents_events _ _ R), insert_events.
  2: { rewrite Enew, drop_app_length. rewrite Enew, List.map_app in Hne. rewrite List.map_map. exact Hne. }
  cbn [mbind res_bind]. split; [reflexivity|]. enough (R' : Represents (mkDatabase _ _ _) st') by (split; [exact R'|split; [apply read_represents, R'|reflexivity]]).
  split; cbn [records events].
  - exact (rows_written db st st' g' bi R Hs' Hn Hk Hrange' Hbi).
  - rewrite Enew, drop_app_length, <- List.map_app. reflexivity.
  - exact Hn.
  - exact Hne.
  - exact Hs'.
  - exact Hreg.
  - exact Hpins.
Qed.
End refinement.

Section local.
Context `{Runtime, NetURL, URLs, Hashing, Encoding, MapOrder, Json}.
Context (encode_state : State -> string) (decode_state : string -> option State).
Implicit Types (groups : Groups) (ids : gmap string string).

Lemma elem_of_flat l kind raw : (kind, raw) ∈ flat l <-> exists docs, (kind, docs) ∈ l /\ raw ∈ docs.
Proof using Type.
  unfold flat. rewrite list_elem_of_In, List.in_concat. split.
  - intros (l' & ([k docs] & <- & Hg)%in_map_iff & Hr). apply in_map_iff in Hr as (r & [= -> ->] & Hr). exists docs. split; apply list_elem_of_In; assumption.
  - intros (docs & Hg%list_elem_of_In & Hr%list_elem_of_In). exists (map (fun raw => (kind, raw)) docs).
    split; [apply in_map_iff; exists (kind, docs); auto|apply in_map_iff; eauto].
Qed.
Lemma record_kinds l ids ids' : foldM record_kind ids l = Ok ids' ->
  NoDup (map (fun kv => raw_id kv.2) l) /\ (forall kv, kv ∈ l -> raw_id kv.2 <> "" /\ ids !! raw_id kv.2 = None)
  /\ (forall id kind, ids' !! id = Some kind <-> ids !! id = Some kind \/ exists raw, (kind, raw) ∈ l /\ raw_id raw = id).
Proof using Type.
  revert ids. induction l as [|[kind raw] l IH]; intros ids; cbn.
  - intros [= <-]. split; [constructor|]. split; [intros kv Hkv; inversion Hkv|]. intros id kind. split; [auto|].
    intros [Hi|(raw & Hr & _)]; [exact Hi|inversion Hr].
  - intros (ids1 & Hrec & Hl)%bind_Ok. unfold record_kind in Hrec. apply bind_Ok in Hrec as ([[id product] feature] & Eh%header_of_Ok & Hrec).
    apply bind_guard in Hrec as [He Hrec]; [|discriminate]. apply bind_guard in Hrec as [Hd [= <-]]; [|discriminate]. cbn in *.
    apply bool_decide_eq_false in He, Hd. assert (Eid : raw_id raw = id) by (unfold raw_id; rewrite Eh; reflexivity).
    assert (Hnone : ids !! id = None) by (apply eq_None_not_Some; exact Hd). destruct (IH _ Hl) as (Hn & Hf & Hm). split; [|split].
    + rewrite Eid. constructor; [|exact Hn]. intros (kv & E & Hkv)%list_elem_of_fmap. destruct (Hf kv Hkv) as [_ Hf']. cbn in E.
      rewrite <- E, lookup_insert_eq in Hf'. discriminate.
    + intros kv [->|Hkv]%elem_of_cons; [cbn; rewrite Eid; auto|]. destruct (Hf kv Hkv) as [Hne Hf']. split; [exact Hne|].
      destruct (decide (id = raw_id kv.2)) as [E|Hne']; [rewrite <- E, lookup_insert_eq in Hf'; discriminate|]. rewrite lookup_insert_ne in Hf' by exact Hne'. exact Hf'.
    + intros id' kind'. rewrite Hm. destruct (decide (id = id')) as [<-|Hne].
      * rewrite lookup_insert_eq. split.
        -- intros [[= <-]|(raw' & Hr & Er)]; right; [exists raw; split; [left|exact Eid]|exists raw'; split; [right; exact Hr|exact Er]].
        -- intros [Hi|(raw' & [[= <- <-]|Hr]%elem_of_cons & Er)]; [congruence|left; reflexivity|right; eauto].
      * rewrite lookup_insert_ne by exact Hne. split.
        -- intros [Hi|(raw' & Hr & Er)]; [auto|right; exists raw'; split; [right; exact Hr|exact Er]].
        -- intros [Hi|(raw' & [[= -> ->]|Hr]%elem_of_cons & Er)]; [auto|congruence|right; eauto].
Qed.
Lemma unique_events evs seen seen' : foldM unique_event seen evs = Ok seen' ->
  NoDup (map Event_ID evs) /\ (forall e, e ∈ evs -> Event_ID e <> "" /\ Event_ID e ∉ seen).
Proof using Type.
  revert seen. induction evs as [|e evs IH]; intros seen; cbn; [intros _; split; [constructor|intros e He; inversion He]|].
  intros (seen1 & Hu & Hl)%bind_Ok. unfold unique_event in Hu. apply bind_guard in Hu as [He [= <-]]; [|discriminate].
  apply orb_false_iff in He as [He%bool_decide_eq_false Hc%bool_decide_eq_false]. destruct (IH _ Hl) as [Hn Hf]. split.
  - constructor; [|exact Hn]. intros (e' & E & He')%list_elem_of_fmap. apply (proj2 (Hf e' He')). assert (Ei : Event_ID e = Event_ID e') by exact E. rewrite <- Ei. left.
  - intros e' [->|He']%elem_of_cons; [auto|]. destruct (Hf e' He') as [Hne Hs]. split; [exact Hne|]. intros Hin. apply Hs. right. exact Hin.
Qed.
(** C5 A transaction the local store accepts turns one valid state into
    another: what is stored is what it made, within 256 MiB; every event that
    was recorded is still there, in place and byte for byte; identifiers of
    records and of events are set and unique; and a record is gone from its
    collection only when its product was deleted with everything it owned. *)
Theorem local_update_safe fn data data' : updateLocal encode_state decode_state fn data = Ok data' ->
  exists st st' before after, readLocal decode_state data = Ok st /\ fn st = Ok st' /\ data' = encode_state st' /\ ValidateStateStatuses st' = Ok ()
  /\ codecDocuments st = Ok before /\ codecDocuments st' = Ok after
  /\ map marshal_event (State_Events st) `prefix_of` map marshal_event (State_Events st')
  /\ NoDup (map (fun kv => raw_id kv.2) (flat (map_range after))) /\ NoDup (map Event_ID (State_Events st'))
  /\ (forall kind docs raw, before !! kind = Some docs -> raw ∈ docs ->
        (exists docs' raw', after !! kind = Some docs' /\ raw' ∈ docs' /\ raw_id raw' = raw_id raw) \/ productRecordRemoved before after kind raw = true)
  /\ (Z.of_nat (String.length data') <= maxLocalStateBytes)%Z.
Proof using Type.
  intros (st & Hst & Hu)%bind_Ok. apply bind_Ok in Hu as (before & Hb & Hu). apply bind_Ok in Hu as (st' & Hfn & Hu). apply bind_Ok in Hu as ([] & Hv & Hu).
  apply bind_guard in Hu as [Hlen Hu]; [|discriminate]. apply bind_guard in Hu as [Hev Hu]; [|discriminate]. apply bool_decide_eq_false, dec_stable in Hev.
  apply bind_Ok in Hu as (after & Ha & Hu). apply bind_Ok in Hu as (ids & Hids & Hu). apply bind_Ok in Hu as ([] & Hkept & Hu).
  apply bind_Ok in Hu as (seen & Hseen & Hu). cbv zeta in Hu. apply bind_guard in Hu as [Hsize [= <-]]; [|discriminate].
  destruct (record_kinds _ _ _ Hids) as (Hn & _ & Hm). destruct (unique_events _ _ _ Hseen) as [Hne _].
  exists st, st', before, after. do 6 (split; [first [assumption|reflexivity]|]). split; [|split; [exact Hn|split; [exact Hne|split]]].
  - rewrite Hev. exists (map marshal_event (drop (length (State_Events st)) (State_Events st'))). rewrite <- List.map_app, take_drop. reflexivity.
  - intros kind docs raw Hk Hr. pose proof (proj1 (list.Forall_forall _ _) (proj1 (each_Ok _ _) Hkept) (kind, raw)) as Hkr.
    assert (Hin : (kind, raw) ∈ flat (map_range before)) by (apply elem_of_flat; exists docs; split; [apply elem_of_map_range, Hk|exact Hr]).
    specialize (Hkr Hin). unfold kept_record in Hkr. apply bind_Ok in Hkr as ([[id product] feature] & Eh%header_of_Ok & Hkr). cbn in Eh, Hkr.
    assert (Eid : raw_id raw = id) by (unfold raw_id; rewrite Eh; reflexivity).
    destruct (default "" (ids !! id) == kind) eqn:Ek; cbn in Hkr.
    + left. apply bool_decide_eq_true in Ek. destruct (ids !! id) as [kind'|] eqn:Ei; cbn in Ek.
      * subst kind'. apply Hm in Ei as [Ei|(raw' & Hr' & Er)]; [rewrite lookup_empty in Ei; discriminate|].
        apply elem_of_flat in Hr' as (docs' & Hd'%elem_of_map_range & Hr'). exists docs', raw'. rewrite Eid. auto.
      * destruct (codec_keys st before kind docs Hb Hk) as (c & Hc & E). exfalso. apply (no_empty_key c Hc). congruence.
    + right. destruct (productRecordRemoved before after kind raw); [reflexivity|discriminate].
  - unfold maxLocalStateBytes in *. apply Z.ltb_ge in Hsize. exact Hsize.
Qed.
End local.
