(* ===== verification/Entities.v ===== *)
(** * Planning commands

    The cases of [applyAuthorizedOrigin] (internal/application/service.go)
    that work on the planning entities themselves: products, features,
    integrations, memories, gates, checks, findings, environments,
    repositories and releases.  Each case is a [Handler]; the command has
    already been resolved by [Commands]. *)
From S2P Require Import Prelude GoText GoJson Delivery Domain Status Planning Handlers Reservation Composition.
Open Scope string_scope.
Open Scope list_scope.

(** The pointer of a search without [break]: the last match. *)
Definition update_last {A} (p : A -> bool) (f : A -> A) (l : list A) : list A := reverse (update_first p f (reverse l)).
Definition touch (actor : string) (at_ : Time) (m : Meta) : Meta := m <| Meta_Actor := actor |> <| Meta_UpdatedAt := at_ |>.
Definition touched (at_ : Time) (m : Meta) : Meta := m <| Meta_UpdatedAt := at_ |>.

Section entities.
Context `{Runtime, World, Hashing, RestorationEvidence}.

(** [if parent := feature(st, id); parent != nil && parent.Status == "completed" { ... }] *)
Definition reactivate (st : State) (fid : string) (at_ : Time) : State :=
  match feature st fid with
  | Some f =>
    if Feature_Status f == "completed" then
      st <| State_Features ::= update_first (has_id fid) (fun f =>
              f <| Feature_Status := "active" |> <| Feature_Meta ::= touched at_ |>) |>
    else st
  | None => st
  end.

(** ** Repositories and products *)
(** The input struct — application/service.go:535 *)
Record ClassifyInput := mkClassifyInput {
  ClassifyInput_Role : string
}.
#[export] Instance zero_ClassifyInput : Zero ClassifyInput := mkClassifyInput zero.
#[export] Instance fields_ClassifyInput `{Runtime} : Fields ClassifyInput :=
  [
    field "role" ClassifyInput_Role
  ].
Definition classify_repository : Handler := fun st c m =>
  input ← decode (Command_Data c) (zero : ClassifyInput);
  let role := ClassifyInput_Role input in
  _ ← reject_if (negb (contains RepositoryRoles role)) (invalid "invalid repository role" []);
  match find_last (has_id (Command_ID c)) (State_Repositories st) with
  | None => missing "repository" (Command_ID c)
  | Some repo =>
    _ ← reject_if ((Command_ProductID c != "") && (ProductID repo != Command_ProductID c))
          (invalid "repository outside product" []);
    _ ← each (fun app => reject_if ((Application_RepositoryID app == ID repo) && negb (RepositoryAllows role (ComponentKind app)))
          (invalid "role conflicts with existing component %s" [ID app])) (State_Applications st);
    _ ← reject_if (existsb (fun t => (EnvironmentBinding_RepositoryID t == ID repo) && (role != "GITOPS")) (State_EnvironmentBindings st))
          (invalid "repository has GitOps deployment mappings" []);
    let repo := repo <| Repository_Role := role |> <| Repository_Meta ::= touch (Command_Actor c) (Meta_UpdatedAt m) |> in
    let m := m <| Meta_ProductID := ProductID repo |> in
    let st := st <| State_Repositories ::= update_last (has_id (Command_ID c)) (fun _ => repo) |> in
    let st := match repositoryBinding st (ID repo) with
              | Some old =>
                st <| State_RepositoryBindings ::= fun l => l ++ [old
                  <| RepositoryBinding_Meta := m <| Meta_ID := fresh "classify_repository" 0 |> |>
                  <| RepositoryBinding_Role := role |>] |>
              | None => st
              end in
    Ok (st, OutRepository repo, m)
  end.
Definition create_product : Handler := fun st c m =>
  v ← decode (Command_Data c) (zero : Product);
  let v := v <| Product_Meta := m |> in
  _ ← reject_if (blank (Product_Name v)) (invalid "name required" []);
  Ok (st <| State_Products ::= fun l => l ++ [v] |>, OutProduct v, m).
Definition create_repository : Handler := fun st c m =>
  _ ← reject_if (negb (productExists st (Command_ProductID c))) (missing "product" (Command_ProductID c));
  v ← decode (Command_Data c) ((zero : Repository) <| Repository_Role := "APPLICATION" |>);
  let v := v <| Repository_Meta := m |> in
  _ ← reject_if (negb (contains RepositoryRoles (Repository_Role v))) (invalid "invalid repository role" []);
  _ ← reject_if ((Repository_Name v == "") || (Repository_URL v == "")) (invalid "name and url required" []);
  Ok (st <| State_Repositories ::= fun l => l ++ [v] |>, OutRepository v, m).

(** ** Features *)
Definition feature_work (fid : string) (v : Integration) : bool := FeatureID v == fid.
Definition completion_ready (st : State) (fid : string) (v : Integration) : res unit :=
  if negb (feature_work fid v) then Ok ()
  else
    _ ← reject_if (negb (ready_status (Integration_Status v)))
          (invalid "feature completion requires all integrations ready or released" []);
    if Integration_Status v == "ready" then readiness st v else Ok ().
Definition feature_completion (st : State) (v : Feature) : res unit :=
  if Feature_Status v != "completed" then Ok ()
  else
    _ ← each (completion_ready st (ID v)) (State_Integrations st);
    reject_if (negb (existsb (feature_work (ID v)) (State_Integrations st)))
      (invalid "feature completion requires integrations" []).
Definition valid_feature (st : State) (old : option Feature) (v : Feature) : res unit :=
  _ ← reject_if (negb (ValidStatus "feature" (Feature_Status v))) (invalid "invalid feature status %q" [Feature_Status v]);
  _ ← match old with
      | None => reject_if (negb (contains ["planned"; "active"] (Feature_Status v)))
                  (invalid "new feature must be planned or active" [])
      | Some o => reject_if (negb (CanTransition "feature" (Feature_Status o) (Feature_Status v)))
                    (invalid "feature transition %s -> %s is not allowed" [Feature_Status o; Feature_Status v])
      end;
  _ ← feature_completion st v;
  _ ← reject_if (blank (Feature_Title v) || blank (Feature_Goal v)) (invalid "title and goal required" []);
  repositories st (Feature_Repositories v) (ProductID v).
Definition create_feature : Handler := fun st c m =>
  _ ← reject_if (negb (productExists st (Command_ProductID c))) (missing "product" (Command_ProductID c));
  v ← decode (Command_Data c) ((zero : Feature) <| Feature_Status := "active" |>);
  let v := v <| Feature_Meta := m <| Meta_FeatureID := "" |> |> in
  _ ← valid_feature st None v;
  Ok (st <| State_Features ::= fun l => l ++ [v] |>, OutFeature v, m).
Definition update_feature : Handler := fun st c _ =>
  match feature st (Command_FeatureID c) with
  | None => missing "feature" (Command_FeatureID c)
  | Some old =>
    let m := touch (Command_Actor c) (now "update_feature" 0) (Feature_Meta old) in
    v ← decode (Command_Data c) old;
    let v := v <| Feature_Meta := m <| Meta_FeatureID := "" |> |> in
    _ ← valid_feature st (Some old) v;
    let st := st <| State_Features ::= update_first (has_id (Command_FeatureID c)) (fun _ => v) |> in
    _ ← each (fun child => if FeatureID child == ID v then validateIntegration st child else Ok ()) (State_Integrations st);
    Ok (st, OutFeature v, m)
  end.

(** ** Integrations *)
Definition create_integration : Handler := fun st c m =>
  match feature st (Command_FeatureID c) with
  | None => missing "feature" (Command_FeatureID c)
  | Some _ =>
    v ← decode (Command_Data c) ((zero : Integration) <| Integration_Status := "planned" |>);
    let v := v <| Integration_Meta := m |> in
    _ ← reject_if (Integration_Status v != "planned") (invalid "new integrations must be planned" []);
    _ ← validateIntegration st v;
    let st := st <| State_Integrations ::= fun l => l ++ [v] |> in
    Ok (reactivate st (FeatureID v) (Meta_UpdatedAt m), OutIntegration v, m)
  end.
Definition update_integration : Handler := fun st c _ =>
  match integration st (Command_IntegrationID c) with
  | None => missing "integration" (Command_IntegrationID c)
  | Some old =>
    _ ← reject_if (Integration_Status old == "released") (invalid "released integration is immutable" []);
    let m := touch (Command_Actor c) (now "update_integration" 0) (Integration_Meta old) in
    _ ← reject_if (has_key (Command_Data c) "status") (invalid "use transition_integration for status" []);
    v ← decode (Command_Data c) old;
    let v := v <| Integration_Meta := m |> in
    _ ← validateIntegration st v;
    let reopened := Integration_Status v == "ready" in
    let v := if reopened then v <| Integration_Status := "working" |> else v in
    let st := if reopened then reactivate st (FeatureID v) (Meta_UpdatedAt m) else st in
    Ok (st <| State_Integrations ::= update_first (has_id (Command_IntegrationID c)) (fun _ => v) |>, OutIntegration v, m)
  end.
(** start_integration, complete_integration, transition_integration *)
Definition requested_status (c : Command) : string :=
  if Command_Action c == "complete_integration" then "ready"
  else if Command_Action c == "start_integration" then "working"
  else data_string (Command_Data c) "status".
Definition transition_integration : Handler := fun st c m =>
  match integration st (Command_IntegrationID c) with
  | None => missing "integration" (Command_IntegrationID c)
  | Some old =>
    _ ← reject_if (Integration_Status old == "released") (invalid "released integration is immutable" []);
    let status := requested_status c in
    _ ← reject_if (negb (CanTransition "integration" (Integration_Status old) status) || (status == "released"))
          (invalid "integration transition %s -> %s is not allowed" [Integration_Status old; status]);
    _ ← (if status == "ready" then readiness st old else Ok ());
    let v := old <| Integration_Status := status |> in
    let st := if status != "ready" then reactivate st (FeatureID v) (now "transition_integration" 0) else st in
    let v := if status == "working" then v <| Integration_Owner := Command_Actor c |> else v in
    let v := v <| Integration_Meta ::= touch (Command_Actor c) (Meta_UpdatedAt m) |> in
    Ok (st <| State_Integrations ::= update_first (has_id (Command_IntegrationID c)) (fun _ => v) |>,
        OutIntegration v, Integration_Meta v)
  end.

(** ** Memories *)
Definition memory_kind (action : string) : string :=
  if action == "record_progress" then "progress"
  else if action == "record_decision" then "decision"
  else if action == "record_discovery" then "discovery"
  else if action == "add_blocker" then "blocker"
  else if action == "handoff" then "handoff" else "".
Definition progress_update (d : Data) (at_ : Time) (mem : Memory) (v : Integration) : Integration :=
  let v := if has_key d "completed" then v <| Integration_Completed := Memory_Completed mem |> else v in
  let v := if has_key d "remaining" then v <| Integration_Remaining := Memory_Remaining mem |> else v in
  v <| Integration_Meta ::= touched at_ |>.
Definition record_memory : Handler := fun st c m =>
  _ ← reject_if (bool_decide (feature st (Command_FeatureID c) = None)) (missing "feature" (Command_FeatureID c));
  v ← decode (Command_Data c) (zero : Memory);
  let kind := memory_kind (Command_Action c) in
  let v := v <| Memory_Meta := m |> <| Memory_IntegrationID := Command_IntegrationID c |> <| Memory_Kind := kind |>
             <| Memory_Status := if kind == "blocker" then "open" else "" |> <| Memory_Resolution := "" |> in
  _ ← reject_if ((Memory_Title v == "") && (Memory_Body v == "") && (Memory_Current v == "")
        && bool_decide (Memory_Completed v = []) && bool_decide (Memory_Next v = []))
        (invalid "memory content required" []);
  _ ← reject_if ((kind == "decision") && (Memory_Reason v == "")) (invalid "decision reason required" []);
  st ← (if (Command_Action c == "record_progress") && (Command_IntegrationID c != "") then
          match integration st (Command_IntegrationID c) with
          | None => Err ErrPanic
          | Some i =>
            _ ← reject_if (Integration_Status i == "released") (invalid "released integration is immutable" []);
            Ok (st <| State_Integrations ::= update_first (has_id (Command_IntegrationID c))
                        (progress_update (Command_Data c) (Meta_UpdatedAt m) v) |>)
          end
        else Ok st);
  Ok (st <| State_Memories ::= fun l => l ++ [v] |>, OutMemory v, m).

(** The loop shared by resolve_blocker and resolve_finding: every match is
    resolved, and the last one is returned. *)
Fixpoint resolve_all {A} (matches open : A -> bool) (resolve : A -> A) (closed : string) (body : string)
    (acc : option A) (l : list A) : res (list A * option A) :=
  match l with
  | [] => Ok ([], acc)
  | v :: l =>
    if negb (matches v) then
      '(rest, acc) ← resolve_all matches open resolve closed body acc l;
      Ok (v :: rest, acc)
    else if negb (open v) then invalid closed []
    else if body == "" then invalid "resolution body required" []
    else
      '(rest, acc) ← resolve_all matches open resolve closed body (Some (resolve v)) l;
      Ok (resolve v :: rest, acc)
  end.
Definition resolve_blocker : Handler := fun st c m =>
  let body := data_string (Command_Data c) "body" in
  '(memories, found) ← resolve_all
      (fun v => (ID v == Command_ID c) && (Memory_Kind v == "blocker")) (fun v => Memory_Status v == "open")
      (fun v => v <| Memory_Status := "resolved" |> <| Memory_Resolution := body |>
                  <| Memory_Meta ::= touched (Meta_UpdatedAt m) |>)
      "blocker already resolved" body None (State_Memories st);
  match found with
  | None => missing "blocker" (Command_ID c)
  | Some v => Ok (st <| State_Memories := memories |>, OutMemory v, Memory_Meta v)
  end.

(** ** Gates, checks, results, findings *)
Definition create_gate : Handler := fun st c m =>
  _ ← reject_if (bool_decide (feature st (Command_FeatureID c) = None)) (missing "feature" (Command_FeatureID c));
  v ← decode (Command_Data c) ((zero : Gate) <| Gate_Blocking := true |>);
  let v := v <| Gate_Meta := m |> <| Gate_Result := "pending" |> in
  _ ← reject_if ((Gate_Title v == "") || (Gate_Reason v == "") || bool_decide (Gate_IntegrationIDs v = []))
        (invalid "title, reason and integration_ids required" []);
  _ ← refs st (Gate_IntegrationIDs v) (FeatureID v);
  _ ← env st (Gate_EnvironmentID v) (ProductID v);
  Ok (st <| State_Gates ::= fun l => l ++ [v] |>, OutGate v, m).
Definition add_check : Handler := fun st c m =>
  match gate st (Command_GateID c) with
  | None => missing "gate" (Command_GateID c)
  | Some g =>
    v ← decode (Command_Data c) (zero : Check);
    let m := m <| Meta_ProductID := ProductID g |> <| Meta_FeatureID := FeatureID g |> in
    let v := v <| Check_Meta := m |> <| Check_GateID := ID g |> in
    _ ← reject_if ((Check_Title v == "") || (Check_Mechanism v == "")) (invalid "title and mechanism required" []);
    Ok (st <| State_Checks ::= fun l => l ++ [v] |>, OutCheck v, m)
  end.
Definition record_check_result : Handler := fun st c m =>
  match check st (Command_CheckID c) with
  | None => missing "check" (Command_CheckID c)
  | Some ch =>
    v ← decode (Command_Data c) (zero : CheckResult);
    let m := m <| Meta_ProductID := ProductID ch |> <| Meta_FeatureID := FeatureID ch |> in
    let v := v <| CheckResult_Meta := m |> <| CheckResult_CheckID := ID ch |> in
    _ ← reject_if ((CheckResult_Commit v == "") && (CheckResult_Deployment v == ""))
          (invalid "tested commit or deployment required" []);
    _ ← reject_if (negb (ValidStatus "check_result" (CheckResult_Result v))) (invalid "invalid check result" []);
    _ ← env st (CheckResult_EnvironmentID v) (ProductID v);
    Ok (st <| State_Results ::= fun l => l ++ [v] |>, OutResult v, m)
  end.
Definition record_finding : Handler := fun st c m =>
  match result st (Command_ResultID c) with
  | None => missing "result" (Command_ResultID c)
  | Some r =>
    _ ← reject_if (negb (contains ["failed"; "blocked"] (CheckResult_Result r)))
          (invalid "findings require failed or blocked result" []);
    v ← decode (Command_Data c) ((zero : Finding) <| Finding_BlocksRelease := true |>);
    let m := m <| Meta_ProductID := ProductID r |> <| Meta_FeatureID := FeatureID r |> in
    let v := v <| Finding_Meta := m |> <| Finding_ResultID := ID r |> <| Finding_ReviewSource := None |>
               <| Finding_Status := "open" |> <| Finding_Resolution := "" |> <| Finding_FixCommit := "" |> in
    _ ← reject_if ((Finding_Title v == "") || (Finding_Severity v == "")) (invalid "title and severity required" []);
    _ ← refs st (Finding_IntegrationIDs v) (FeatureID v);
    v ← (if bool_decide (Finding_GateIDs v = []) then
           match check st (CheckResult_CheckID r) with
           | None => Err ErrPanic
           | Some k => Ok (v <| Finding_GateIDs := [Check_GateID k] |>)
           end
         else Ok v);
    _ ← each (fun i => reject_if match gate st i with Some g => FeatureID g != FeatureID v | None => true end
          (invalid "finding gate outside feature" [])) (Finding_GateIDs v);
    Ok (st <| State_Findings ::= fun l => l ++ [v] |>, OutFinding v, m)
  end.
Definition resolve_finding : Handler := fun st c m =>
  let body := data_string (Command_Data c) "body" in
  '(findings, found) ← resolve_all
      (fun v => ID v == Command_ID c) (fun v => Finding_Status v == "open")
      (fun v => v <| Finding_Status := "resolved" |> <| Finding_Resolution := body |>
                  <| Finding_FixCommit := data_string (Command_Data c) "commit" |>
                  <| Finding_Meta ::= touched (Meta_UpdatedAt m) |>)
      "finding already resolved" body None (State_Findings st);
  match found with
  | None => missing "finding" (Command_ID c)
  | Some v => Ok (st <| State_Findings := findings |>, OutFinding v, Finding_Meta v)
  end.

(** ** Environments *)
Definition environment_name_taken (st : State) (v : Environment) : bool :=
  existsb (fun e => (ID e != ID v) && (ProductID e == ProductID v) && equal_fold (trim_space (Environment_Name e)) (Environment_Name v))
    (State_Environments st).
Definition valid_environment (st : State) (m : Meta) (v : Environment) : res Environment :=
  let v := v <| Environment_Meta := m |> <| Environment_Name ::= trim_space |> <| Environment_Cluster ::= trim_space |>
             <| Environment_Namespace ::= trim_space |> in
  _ ← reject_if (Environment_Name v == "") (invalid "name required" []);
  _ ← reject_if (environment_name_taken st v) (invalid "environment name already exists in product" []);
  Ok v.
Definition create_environment : Handler := fun st c m =>
  _ ← reject_if (negb (productExists st (Command_ProductID c))) (missing "product" (Command_ProductID c));
  v ← decode (Command_Data c) (zero : Environment);
  v ← valid_environment st m v;
  Ok (st <| State_Environments ::= fun l => l ++ [v] |>, OutEnvironment v, m).
Definition update_environment : Handler := fun st c _ =>
  match find_last (has_id (Command_ID c)) (State_Environments st) with
  | None => missing "environment" (Command_ID c)
  | Some old =>
    let m := touch (Command_Actor c) (now "update_environment" 0) (Environment_Meta old) in
    v ← decode (Command_Data c) old;
    v ← valid_environment st m v;
    v ← (if (Environment_Cluster old != Environment_Cluster v) || (Environment_Namespace old != Environment_Namespace v) then
           _ ← selectionAllowed st (ID old);
           v ← advanceSelection v;
           Ok (v <| Environment_DesiredCompositionID := "" |> <| Environment_DesiredOperationID := "" |>)
         else Ok v);
    Ok (st <| State_Environments ::= update_last (has_id (Command_ID c)) (fun _ => v) |>, OutEnvironment v, m)
  end.

(** ** Releases *)
Definition release_dependency (st : State) (included : list string) (dep : string) : res unit :=
  match integration st dep with
  | None => Err ErrPanic
  | Some d => reject_if ((Integration_Status d != "released") && negb (contains included dep))
                (invalid "release excludes unreleased dependency %s" [dep])
  end.
Definition plan_release_integration (st : State) (v : Release) (snapshots : list Integration) (i : string) : res (list Integration) :=
  match integration st i with
  | None => invalid "integration outside product" []
  | Some w =>
    _ ← reject_if (ProductID w != ProductID v) (invalid "integration outside product" []);
    _ ← reject_if (negb (ready_status (Integration_Status w))) (invalid "release integration must be ready" []);
    _ ← readiness st w;
    _ ← each (release_dependency st (Release_IntegrationIDs v)) (Integration_Dependencies w);
    Ok (snapshots ++ [w])
  end.
Definition excluded_integration (st : State) (product : string) (included : string -> bool) (i : string) : res unit :=
  match integration st i with
  | None => invalid "invalid excluded integration" []
  | Some w => reject_if ((ProductID w != product) || included i) (invalid "invalid excluded integration" [])
  end.
Definition plan_release : Handler := fun st c m =>
  _ ← reject_if (negb (productExists st (Command_ProductID c))) (missing "product" (Command_ProductID c));
  v ← decode (Command_Data c) (zero : Release);
  let v := v <| Release_Meta := m |> <| Release_Status := "planned" |> <| Release_Snapshots := [] |> in
  _ ← reject_if ((Release_Name v == "") || bool_decide (Release_IntegrationIDs v = []))
        (invalid "name and integration_ids required" []);
  snapshots ← foldM (plan_release_integration st v) [] (Release_IntegrationIDs v);
  _ ← each (excluded_integration st (ProductID v) (contains (Release_IntegrationIDs v))) (Release_ExcludedIntegrationIDs v);
  let v := v <| Release_Snapshots := snapshots |> in
  Ok (st <| State_Releases ::= fun l => l ++ [v] |>, OutRelease v, m).

Fixpoint record_release_integrations (st : State) (product : string) (seen : gset string) (ids : list string)
    : res (list Integration) :=
  match ids with
  | [] => Ok []
  | i :: ids =>
    if bool_decide (i ∈ seen) then invalid "duplicate release integration" []
    else match integration st i with
         | None => invalid "release integration outside product" []
         | Some w =>
           if ProductID w != product then invalid "release integration outside product" []
           else rest ← record_release_integrations st product ({[i]} ∪ seen) ids; Ok (w :: rest)
         end
  end.
Definition record_release : Handler := fun st c m =>
  let product := Command_ProductID c in
  _ ← reject_if (negb (productExists st product)) (missing "product" product);
  v ← decode (Command_Data c) ((zero : Release) <| Release_Status := "released" |> <| Release_RecordedExternally := true |>);
  _ ← reject_if ((Release_Name v == "") || bool_decide (Release_IntegrationIDs v = []) || (Release_EnvironmentID v == ""))
        (invalid "name, environment_id and integration_ids required" []);
  match environmentByID st (Release_EnvironmentID v) with
  | None => missing "environment" (Release_EnvironmentID v)
  | Some e =>
    _ ← reject_if (ProductID e != product) (invalid "release environment outside product" []);
    let v := v <| Release_Meta := m <| Meta_ProductID := product |> |> <| Release_Status := "released" |>
               <| Release_RecordedExternally := true |> in
    snapshots ← record_release_integrations st product ∅ (Release_IntegrationIDs v);
    _ ← each (excluded_integration st product (contains (Release_IntegrationIDs v))) (Release_ExcludedIntegrationIDs v);
    let v := v <| Release_Snapshots := snapshots |> in
    Ok (st <| State_Releases ::= fun l => l ++ [v] |>, OutRelease v, m)
  end.
End entities.

(** * Properties *)
Section properties.
Context `{Runtime, World, Hashing, RestorationEvidence}.

Lemma reactivate_integrations st fid at_ : State_Integrations (reactivate st fid at_) = State_Integrations st.
Proof. unfold reactivate. destruct (feature st fid) as [f|]; [destruct (_ == _)|]; reflexivity. Qed.
Lemma reactivate_events st fid at_ : State_Events (reactivate st fid at_) = State_Events st.
Proof. unfold reactivate. destruct (feature st fid) as [f|]; [destruct (_ == _)|]; reflexivity. Qed.

(** ** Transitions *)

(** C40 a transition is accepted exactly when the integration exists, is not
    released, the table allows the step, the target is not [released], and,
    for [ready], the integration is ready. *)
Theorem transition_accepted_iff st c m :
  is_ok (transition_integration st c m) = true <->
  exists old, integration st (Command_IntegrationID c) = Some old
    /\ Integration_Status old <> "released" /\ requested_status c <> "released"
    /\ CanTransition "integration" (Integration_Status old) (requested_status c) = true
    /\ (requested_status c = "ready" -> Ready st old).
Proof.
  unfold transition_integration. destruct (integration st _) as [old|]; [|split; [discriminate|intros (? & [=] & _)]].
  split.
  - destruct (_ ≫= _) as [[[st' out] m']|e] eqn:Hx; [intros _|discriminate]. step_guards Hx. to_prop.
    exists old. do 4 (split; [auto|]). intros Hr. rewrite bool_decide_true in E by exact Hr. destruct a.
    apply readiness_Ready, E.
  - intros (? & [= <-] & Hold & Hreq & Hcan & Hready). rewrite (bool_decide_false (Integration_Status old = "released")) by exact Hold. cbn [reject_if mbind res_bind].
    rewrite Hcan, (bool_decide_false (requested_status c = "released")) by exact Hreq. cbn [negb orb reject_if].
    destruct (requested_status c == "ready") eqn:Hr; to_prop; [|reflexivity].
    rewrite (proj2 (readiness_Ready st old) (Hready Hr)). reflexivity.
Qed.

(** An accepted transition changes the status of the one integration it
    addresses, makes the actor its owner when work starts, and leaves every
    other integration alone. *)
Theorem transition_effect st c m st' out m' : transition_integration st c m = Ok (st', out, m') ->
  exists old v, integration st (Command_IntegrationID c) = Some old /\ out = OutIntegration v
    /\ integration st' (Command_IntegrationID c) = Some v
    /\ Integration_Status v = requested_status c /\ ID v = ID old /\ FeatureID v = FeatureID old
    /\ Integration_Dependencies v = Integration_Dependencies old
    /\ Integration_Owner v = (if requested_status c == "working" then Command_Actor c else Integration_Owner old)
    /\ forall i, i <> Command_IntegrationID c -> integration st' i = integration st i.
Proof.
  unfold transition_integration. intros Hx. destruct (integration st _) as [old|] eqn:Hold; [|discriminate].
  step_guards Hx. cbv zeta in Hx. injection Hx as <- <- _. pose proof (integration_Some _ _ _ Hold) as [_ Hid].
  exists old. eexists. split; [reflexivity|]. split; [reflexivity|].
  set (st1 := if requested_status c != "ready" then _ else st). set (v := _ <| Integration_Meta ::= _ |>).
  assert (HI : State_Integrations st1 = State_Integrations st).
  { unfold st1. match goal with |- context [if ?b then _ else _] => destruct b end; [apply reactivate_integrations|reflexivity]. }
  assert (Hv : Integration_Status v = requested_status c /\ ID v = ID old /\ FeatureID v = FeatureID old
    /\ Integration_Dependencies v = Integration_Dependencies old
    /\ Integration_Owner v = (if requested_status c == "working" then Command_Actor c else Integration_Owner old)).
  { unfold v. destruct (requested_status c == "working"); repeat split. }
  assert (Hself : forall w : Integration, has_id (Command_IntegrationID c) w = true -> has_id (Command_IntegrationID c) v = true).
  { intros _ _. apply has_id_true. destruct Hv as (_ & -> & _). exact Hid. }
  assert (Hints : forall i, integration (st1 <| State_Integrations ::= update_first (has_id (Command_IntegrationID c)) (fun _ => v) |>) i
    = find_first (has_id i) (update_first (has_id (Command_IntegrationID c)) (fun _ => v) (State_Integrations st))).
  { intros i. rewrite <- HI. reflexivity. }
  split; [rewrite Hints, find_first_update_first by exact Hself|].
  { unfold integration in Hold. rewrite Hold. reflexivity. }
  destruct Hv as (? & ? & ? & ? & ?). do 5 (split; [assumption|]).
  intros i Hne. rewrite Hints. apply find_first_update_first_other.
  intros x Hx%has_id_true. unfold has_id. rewrite !bool_decide_false by congruence. auto.
Qed.

(** ** Releases *)
(** What a planned release promises about an integration it includes. *)
Definition Releasable (st : State) (product : string) (included : list string) (w : Integration) : Prop :=
  ProductID w = product /\ ready_status (Integration_Status w) = true /\ Ready st w
  /\ forall dep, dep ∈ Integration_Dependencies w -> exists d, integration st dep = Some d
       /\ (Integration_Status d = "released" \/ dep ∈ included).
Lemma release_dependency_Ok st included dep : release_dependency st included dep = Ok () ->
  exists d, integration st dep = Some d /\ (Integration_Status d = "released" \/ dep ∈ included).
Proof using Type.
  unfold release_dependency. destruct (integration st dep) as [d|]; [|discriminate]. rewrite reject_if_invalid.
  intros Hb. exists d; split; [reflexivity|]. apply andb_false_iff in Hb as [Hb|Hb]; to_prop; auto.
Qed.
Lemma plan_release_integration_Ok st v snapshots i snapshots' :
  plan_release_integration st v snapshots i = Ok snapshots' ->
  exists w, integration st i = Some w /\ snapshots' = snapshots ++ [w] /\ Releasable st (ProductID v) (Release_IntegrationIDs v) w.
Proof using Type.
  unfold plan_release_integration. destruct (integration st i) as [w|]; [|discriminate]. intros Hx. step_guards Hx.
  injection Hx as <-. exists w. to_prop. destruct a, a0. split; [reflexivity|]. split; [reflexivity|].
  split; [assumption|]. split; [assumption|]. split; [apply readiness_Ready; assumption|].
  intros dep Hd. rewrite each_Ok, list.Forall_forall in *. apply release_dependency_Ok. auto.
Qed.
Lemma plan_release_snapshots st v ids snapshots snapshots' :
  foldM (plan_release_integration st v) snapshots ids = Ok snapshots' ->
  exists added, snapshots' = snapshots ++ added
    /\ Forall2 (fun i w => integration st i = Some w /\ Releasable st (ProductID v) (Release_IntegrationIDs v) w) ids added.
Proof using Type.
  revert snapshots; induction ids as [|i ids IH]; cbn; intros snapshots Hx.
  - injection Hx as <-. exists []. rewrite app_nil_r. split; [reflexivity|constructor].
  - apply bind_Ok in Hx as (s1 & Hs & Hx). apply plan_release_integration_Ok in Hs as (w & Hw & -> & Hr).
    apply IH in Hx as (added & -> & Hall). exists (w :: added). rewrite <- app_assoc. split; [reflexivity|].
    constructor; auto.
Qed.

(** A planned release is closed: it snapshots exactly its integrations, in
    order, each of the product, ready or released and ready to be, with every
    dependency released or in the same release; and what it excludes exists in
    the product and is not also included. *)
Theorem planned_release_closed st c m st' out m' : plan_release st c m = Ok (st', out, m') ->
  exists v, out = OutRelease v /\ State_Releases st' = State_Releases st ++ [v]
    /\ Release_Status v = "planned" /\ Release_IntegrationIDs v <> []
    /\ Forall2 (fun i w => integration st i = Some w /\ Releasable st (ProductID v) (Release_IntegrationIDs v) w)
         (Release_IntegrationIDs v) (Release_Snapshots v)
    /\ forall i, i ∈ Release_ExcludedIntegrationIDs v -> i ∉ Release_IntegrationIDs v
         /\ exists w, integration st i = Some w /\ ProductID w = ProductID v.
Proof using Type.
  unfold plan_release. intros Hx. step_guards Hx. cbv zeta in Hx. step_guards Hx. injection Hx as <- <- _. to_prop.
  apply plan_release_snapshots in E0 as (added & -> & Hall). destruct a1. eexists. split; [reflexivity|].
  split; [reflexivity|]. split; [reflexivity|]. split; [assumption|]. split; [exact Hall|].
  intros i Hi. rewrite each_Ok, list.Forall_forall in E1. specialize (E1 i Hi). unfold excluded_integration in E1.
  destruct (integration st i) as [w|]; [|discriminate]. apply reject_if_invalid in E1. to_prop. eauto.
Qed.

Lemma reject_if_err b e (err : Error) : reject_if b e = Err err -> e = Err err.
Proof using Type. destruct b; [auto|discriminate]. Qed.
Lemma bind_err {A B} (r : res A) (k : A -> res B) err :
  r ≫= k = Err err -> r = Err err \/ exists a, r = Ok a /\ k a = Err err.
Proof using Type. destruct r; cbn; [eauto|intros [= ->]; auto]. Qed.
Lemma each_err {A} (f : A -> res unit) l err : each f l = Err err -> exists x, x ∈ l /\ f x = Err err.
Proof using Type. destruct (each_cases f l) as [E|(x & e & Hx & Hf & E)]; rewrite E; [discriminate|intros [= ->]; eauto]. Qed.
Lemma readiness_no_panic st v : readiness st v <> Err ErrPanic.
Proof using Type.
  unfold readiness. intros Hx.
  repeat (apply bind_err in Hx as [Hx|([] & _ & Hx)]); apply each_err in Hx as (x & _ & Hx).
  - unfold dependency_ready in Hx. destruct (integration st x); [apply reject_if_err in Hx|]; discriminate.
  - apply reject_if_err in Hx; discriminate.
  - apply reject_if_err in Hx; discriminate.
  - unfold gate_ready in Hx. destruct (negb _); [discriminate|]. apply bind_err in Hx as [Hx|([] & _ & Hx)].
    + apply reject_if_err in Hx; discriminate.
    + destruct (bool_decide _); [discriminate|]. apply each_err in Hx as (y & _ & Hx). apply reject_if_err in Hx; discriminate.
Qed.

(** Planning a release never dereferences a missing dependency: readiness
    has resolved every dependency before the exclusion check looks it up. *)
Theorem plan_release_never_panics st c m : plan_release st c m <> Err ErrPanic.
Proof using Type.
  unfold plan_release. intros Hx. apply bind_err in Hx as [Hx|([] & _ & Hx)]; [apply reject_if_err in Hx; discriminate|].
  apply bind_err in Hx as [Hx|(v & _ & Hx)]; [unfold decode in Hx; destruct (decode_entries _ _ _); discriminate|].
  cbv zeta in Hx. apply bind_err in Hx as [Hx|([] & _ & Hx)]; [apply reject_if_err in Hx; discriminate|].
  match type of Hx with context [plan_release_integration st ?r] => set (rel := r) in * end.
  apply bind_err in Hx as [Hx|(snapshots & _ & Hx)].
  - revert Hx. generalize (@nil Integration). generalize (Release_IntegrationIDs rel) at 1 as ids.
    induction ids as [|i ids IH]; cbn; intros acc Hx; [discriminate|].
    apply bind_err in Hx as [Hx|(s & _ & Hx)]; [|exact (IH s Hx)]. unfold plan_release_integration in Hx.
    destruct (integration st i) as [w|]; [|discriminate].
    do 2 (apply bind_err in Hx as [Hx|([] & _ & Hx)]; [apply reject_if_err in Hx; discriminate|]).
    apply bind_err in Hx as [Hx|([] & Hr & Hx)]; [exact (readiness_no_panic _ _ Hx)|].
    apply bind_err in Hx as [Hx|([] & _ & Hx)]; [|discriminate]. apply each_err in Hx as (d & Hd & Hx).
    apply readiness_Ready in Hr. destruct (ready_dependencies _ _ Hr d Hd) as (u & Hu & _).
    unfold release_dependency in Hx. rewrite Hu in Hx. apply reject_if_err in Hx; discriminate.
  - apply bind_err in Hx as [Hx|([] & _ & Hx)]; [|discriminate]. apply each_err in Hx as (i & _ & Hx).
    unfold excluded_integration in Hx. destruct (integration st i); [apply reject_if_err in Hx|]; discriminate.
Qed.

(** ** Environments *)
Lemma environment_keeps {T} (g : Environment -> T) name (d : Data) old v :
  Forall (keeps_field g name) fields -> plain_keys d -> has_key d name = false -> decode d old = Ok v -> g v = g old.
Proof using Type. apply decode_keeps. Qed.

(** An update of an environment leaves its selection alone unless it moves
    the environment to another cluster or namespace; then the selection must
    be allowed, is cleared, and advances the generation.  The reservation
    epoch is never touched. *)
Theorem update_environment_fenced st c m st' out m' : update_environment st c m = Ok (st', out, m') ->
  plain_keys (Command_Data c) ->
  (forall key, key ∈ ["desired_composition_id"; "desired_operation_id"; "selection_generation"; "reservation_epoch"] ->
     has_key (Command_Data c) key = false) ->
  exists old v, find_last (has_id (Command_ID c)) (State_Environments st) = Some old /\ out = OutEnvironment v
    /\ State_Environments st' = update_last (has_id (Command_ID c)) (fun _ => v) (State_Environments st)
    /\ ID v = ID old /\ ProductID v = ProductID old /\ Environment_ReservationEpoch v = Environment_ReservationEpoch old
    /\ if (Environment_Cluster old == Environment_Cluster v) && (Environment_Namespace old == Environment_Namespace v)
       then Environment_DesiredCompositionID v = Environment_DesiredCompositionID old
            /\ Environment_DesiredOperationID v = Environment_DesiredOperationID old
            /\ Environment_SelectionGeneration v = Environment_SelectionGeneration old
       else selectionAllowed st (ID old) = Ok () /\ Environment_DesiredCompositionID v = "" /\ Environment_DesiredOperationID v = ""
            /\ (Environment_SelectionGeneration old <> max_uint64)%Z
            /\ Environment_SelectionGeneration v = wrap_uint64 (Environment_SelectionGeneration old + 1).
Proof using Type.
  unfold update_environment. intros Hx Hk Hserver. destruct (find_last _ _) as [old|] eqn:Hold; [|discriminate].
  cbv zeta in Hx. apply bind_Ok in Hx as (a & Hdec & Hx).
  assert (Hkeep : Environment_DesiredCompositionID a = Environment_DesiredCompositionID old
    /\ Environment_DesiredOperationID a = Environment_DesiredOperationID old
    /\ Environment_SelectionGeneration a = Environment_SelectionGeneration old
    /\ Environment_ReservationEpoch a = Environment_ReservationEpoch old).
  { split; [|split; [|split]].
    - eapply (decode_keeps _ "desired_composition_id"); [unfold fields, fields_Environment; keeps_fields|exact Hk|apply Hserver; set_solver|exact Hdec].
    - eapply (decode_keeps _ "desired_operation_id"); [unfold fields, fields_Environment; keeps_fields|exact Hk|apply Hserver; set_solver|exact Hdec].
    - eapply (decode_keeps _ "selection_generation"); [unfold fields, fields_Environment; keeps_fields|exact Hk|apply Hserver; set_solver|exact Hdec].
    - eapply (decode_keeps _ "reservation_epoch"); [unfold fields, fields_Environment; keeps_fields|exact Hk|apply Hserver; set_solver|exact Hdec]. }
  destruct Hkeep as (K1 & K2 & K3 & K4). apply bind_Ok in Hx as (b & Hb & Hx). unfold valid_environment in Hb.
  step_guards Hb. injection Hb as Hb. apply bind_Ok in Hx as (v & Hv & Hx). injection Hx as <- <- _.
  assert (B : ID b = ID old /\ ProductID b = ProductID old) by (subst b; split; reflexivity).
  assert (B1 : Environment_DesiredCompositionID b = Environment_DesiredCompositionID old) by (subst b; exact K1).
  assert (B2 : Environment_DesiredOperationID b = Environment_DesiredOperationID old) by (subst b; exact K2).
  assert (B3 : Environment_SelectionGeneration b = Environment_SelectionGeneration old) by (subst b; exact K3).
  assert (B4 : Environment_ReservationEpoch b = Environment_ReservationEpoch old) by (subst b; exact K4).
  clear Hb K1 K2 K3 K4. destruct B as [B5 B6].
  exists old, v. split; [reflexivity|]. split; [reflexivity|]. split; [reflexivity|].
  assert (Hmove : (Environment_Cluster old != Environment_Cluster b) || (Environment_Namespace old != Environment_Namespace b)
    = negb ((Environment_Cluster old == Environment_Cluster b) && (Environment_Namespace old == Environment_Namespace b)))
    by (rewrite negb_andb; reflexivity).
  rewrite Hmove in Hv. destruct ((Environment_Cluster old == Environment_Cluster b) && (Environment_Namespace old == Environment_Namespace b)) eqn:E; cbn [negb] in Hv.
  - injection Hv as <-. rewrite E. auto 10.
  - apply bind_Ok in Hv as ([] & Hsel & Hv). apply bind_Ok in Hv as (w & Hadv & Hv). injection Hv as <-.
    unfold advanceSelection in Hadv. destruct (Z.eqb_spec (Environment_SelectionGeneration b) max_uint64) as [|Hne]; [discriminate|].
    injection Hadv as <-.
    do 3 (split; [assumption|]).
    match goal with |- if ?t then _ else _ =>
      change t with ((Environment_Cluster old == Environment_Cluster b) && (Environment_Namespace old == Environment_Namespace b)) end.
    rewrite E, <- B3. repeat split; assumption.
Qed.

(** ** Resolutions *)
Lemma resolve_all_Ok {A} (matches open : A -> bool) resolve closed body acc l l' acc' :
  resolve_all matches open resolve closed body acc l = Ok (l', acc') ->
  Forall2 (fun x x' => if matches x then open x = true /\ x' = resolve x else x' = x) l l'
  /\ (acc' = acc /\ (forall x, x ∈ l -> matches x = false)
      \/ body <> "" /\ exists x, x ∈ l /\ matches x = true /\ acc' = Some (resolve x)).
Proof using Type.
  revert acc l' acc'; induction l as [|x l IH]; cbn; intros acc l' acc' Hx.
  { injection Hx as <- <-. split; [constructor|left; split; [reflexivity|intros x Hx; inversion Hx]]. }
  destruct (matches x) eqn:Hm; cbn in Hx.
  - destruct (open x) eqn:Ho; cbn in Hx; [|discriminate]. case_bool_decide as Hb; [discriminate|].
    apply bind_Ok in Hx as ([rest acc1] & Hr & Hx). injection Hx as <- <-. apply IH in Hr as [Hall Hacc].
    split; [constructor; [rewrite Hm; auto|exact Hall]|]. right. split; [exact Hb|].
    destruct Hacc as [[-> _]|(_ & y & Hy & Hmy & ->)]; [exists x|exists y]; (split; [|auto]); [left|right; exact Hy].
  - apply bind_Ok in Hx as ([rest acc1] & Hr & Hx). injection Hx as <- <-. apply IH in Hr as [Hall Hacc].
    split; [constructor; [rewrite Hm; reflexivity|exact Hall]|].
    destruct Hacc as [[-> Hno]|(Hb & y & Hy & Hmy & ->)].
    + left. split; [reflexivity|]. intros z [->|Hz]%elem_of_cons; auto.
    + right. split; [exact Hb|]. exists y. split; [right; exact Hy|auto].
Qed.
Lemma resolve_all_closed {A} (matches open : A -> bool) resolve closed body acc l x :
  x ∈ l -> matches x = true -> (forall y, y ∈ l -> matches y = true -> open y = false) ->
  resolve_all matches open resolve closed body acc l = invalid closed [].
Proof using Type.
  revert acc; induction l as [|y l IH]; cbn; intros acc Hx Hm Hcl; [inversion Hx|].
  destruct (matches y) eqn:Hy; cbn.
  - rewrite (Hcl y) by (left || assumption). reflexivity.
  - apply elem_of_cons in Hx as [->|Hx]; [congruence|]. rewrite IH; [reflexivity|exact Hx|exact Hm|].
    intros z Hz; apply Hcl. right; exact Hz.
Qed.

(** A finding is resolved once: resolving needs a body and an open finding,
    records the body and the fix commit on it, leaves every other finding
    alone, and any later attempt to resolve it again is refused. *)
Theorem resolve_finding_final st c m st' out m' : resolve_finding st c m = Ok (st', out, m') ->
  data_string (Command_Data c) "body" <> ""
  /\ (forall f, f ∈ State_Findings st -> ID f = Command_ID c -> Finding_Status f = "open")
  /\ Forall2 (fun f f' => if ID f == Command_ID c
       then Finding_Status f' = "resolved" /\ Finding_Resolution f' = data_string (Command_Data c) "body"
            /\ Finding_FixCommit f' = data_string (Command_Data c) "commit"
            /\ ID f' = ID f /\ Finding_GateIDs f' = Finding_GateIDs f
       else f' = f) (State_Findings st) (State_Findings st')
  /\ forall c2 m2, Command_ID c2 = Command_ID c -> resolve_finding st' c2 m2 = invalid "finding already resolved" [].
Proof using Type.
  unfold resolve_finding. intros Hx. apply bind_Ok in Hx as ([l acc] & Hr & Hx). apply resolve_all_Ok in Hr as [Hall Hacc].
  destruct acc as [v|]; [|discriminate]. injection Hx as <- _ _.
  destruct Hacc as [[? _]|(Hbody & x & Hx & Hmx & _)]; [discriminate|].
  assert (Hopen : forall f, f ∈ State_Findings st -> ID f = Command_ID c -> Finding_Status f = "open").
  { intros f [i Hi]%list_elem_of_lookup_1 Hf. destruct (Forall2_lookup_l _ _ _ _ _ Hall Hi) as (f' & _ & Hrel).
    rewrite bool_decide_true in Hrel by exact Hf. destruct Hrel as [Ho _]. to_prop. exact Ho. }
  split; [exact Hbody|]. split; [exact Hopen|]. split.
  - eapply list.Forall2_impl; [exact Hall|]. intros f f'. cbn beta. destruct (ID f == Command_ID c); [|auto].
    intros [_ ->]. repeat split.
  - intros c2 m2 Hc2. rewrite Hc2.
    assert (Hres : forall y, y ∈ l -> bool_decide (ID y = Command_ID c) = true -> bool_decide (Finding_Status y = "open") = false).
    { intros y [i Hi]%list_elem_of_lookup_1 Hy. destruct (Forall2_lookup_r _ _ _ _ _ Hall Hi) as (f & _ & Hrel).
      destruct (ID f == Command_ID c) eqn:E; [destruct Hrel as [_ ->]; reflexivity|subst f; congruence]. }
    apply list_elem_of_lookup_1 in Hx as [i Hi]. destruct (Forall2_lookup_l _ _ _ _ _ Hall Hi) as (y & Hy & Hrel).
    rewrite Hmx in Hrel. destruct Hrel as [_ Ey].
    change (State_Findings (st <| State_Findings := l |>)) with l.
    erewrite (resolve_all_closed _ _ _ _ _ _ l y); [reflexivity|eapply list_elem_of_lookup_2, Hy| |exact Hres].
    subst y. exact Hmx.
Qed.
End properties.
