(* ===== verification/Commands.v ===== *)
(** * The command handler

    [applyAuthorizedOrigin] of internal/application/service.go: the guards
    every command passes, the resolution of its scope, the dispatch to the
    handlers, and the audit event.  The composition flow enters
    through the class [Subsystems]. *)
From S2P Require Import Prelude GoText GoJson Delivery Domain Status Planning Handlers DeviceAuth Collections ExternalSystems Reservation Composition Conflicts Scenarios Pins WorkerAuth WorkerJobs Publications WorkerProtocol External Entities.
Open Scope string_scope.
Open Scope list_scope.

(** domain/model.go [Actions] *)
Definition Actions : list string := [
  "queue_intelligence_task"; "cancel_intelligence_task"; "request_candidate_dev_restoration";
  "confirm_candidate_dev_restoration"; "verify_candidate_dev_restoration";
  "release_candidate_dev_after_restoration"; "capture_candidate_dev_baseline";
  "verify_candidate_dev_runtime"; "reserve_candidate_dev"; "release_candidate_dev";
  "refresh_registry_inventory"; "pin_artifact"; "release_artifact_pin"; "cancel_native_delivery";
  "queue_worker_publication"; "reconcile_worker_publication"; "queue_worker_job"; "cancel_worker_job";
  "reconcile_worker_job"; "refresh_environment_runtime"; "create_integration_branch";
  "protect_integration_revision"; "claim_composition_conflict"; "record_conflict_resolution";
  "verify_conflict_resolution"; "configure_artifact_retention"; "delete_product"; "classify_repository";
  "configure_publication"; "record_package_artifact"; "update_environment_feature"; "assemble_environment";
  "reconcile_composition"; "prepare_release_candidate"; "promote_release_candidate"; "create_hotfix";
  "record_runtime_observation"; "create_test_scenario"; "revise_test_scenario"; "record_scenario_run";
  "create_external_system"; "update_external_system"; "create_system_relationship"; "set_external_scope";
  "grant_connection"; "create_github_connection"; "import_repository"; "configure_component";
  "configure_environment"; "refresh_integration_git"; "refresh_repository_git"; "deploy_integration";
  "deploy_existing_artifact"; "create_application"; "record_integration_revision"; "plan_composition";
  "select_composition"; "create_product"; "create_feature"; "update_feature"; "create_integration";
  "update_integration"; "start_integration"; "transition_integration"; "complete_integration";
  "record_progress"; "record_decision"; "record_discovery"; "add_blocker"; "resolve_blocker"; "handoff";
  "create_gate"; "add_check"; "record_check_result"; "record_finding"; "resolve_finding";
  "create_environment"; "update_environment"; "create_repository"; "plan_release"; "record_release"
].

Definition server_fields : list string :=
  ["id"; "product_id"; "feature_id"; "integration_id"; "gate_id"; "check_id"; "result_id"; "actor"; "created_at";
   "updated_at"; "resolution"; "fix_commit"; "desired_composition_id"; "desired_operation_id"; "selection_generation";
   "reservation_epoch"; "dev_reservation"; "reservation_quarantined"; "reservation_mutation_intent"].

(** The handlers of composition flow (flow.go, feature_patch.go), which Flow.v
    implements on top of this file: they run commands themselves. *)
Class Subsystems := {
  applyFlow : World -> Handler;
  replayFeatureUpdate : State -> Command -> res (option ExternalOperation);
}.
Section apply.
Context `{Runtime, Upper, World, MapOrder, Hashing, RestorationEvidence, NetURL, URLs, Operator, Subsystems}.

(** ** Guards *)
Definition check_fields (c : Command) : res unit :=
  _ ← each (fun key => reject_if (has_key (Command_Data c) key) (invalid "field %s cannot be supplied in data" [key])) server_fields;
  _ ← each (fun kv => reject_if (kv.1 != to_lower kv.1) (invalid "data field %s must use snake_case" [kv.1]))
        (map_range (Command_Data c));
  _ ← reject_if (has_key (Command_Data c) "status"
        && negb (contains ["create_feature"; "update_feature"; "transition_integration"] (Command_Action c)))
        (invalid "status is server-managed for %s" [Command_Action c]);
  reject_if (has_key (Command_Data c) "result" && negb (contains ["record_check_result"; "record_scenario_run"] (Command_Action c)))
    (invalid "result is server-managed for %s" [Command_Action c]).

(** ** Scope: the integration gives the feature, the feature the product *)
Definition resolve_feature (st : State) (c : Command) : res Command :=
  if Command_IntegrationID c == "" then Ok c
  else match integration st (Command_IntegrationID c) with
       | None => missing "integration" (Command_IntegrationID c)
       | Some v =>
         if (Command_FeatureID c != "") && (Command_FeatureID c != FeatureID v) then invalid "integration feature mismatch" []
         else Ok (c <| Command_FeatureID := FeatureID v |>)
       end.
Definition resolve_product (st : State) (c : Command) : res Command :=
  if Command_FeatureID c == "" then Ok c
  else match feature st (Command_FeatureID c) with
       | None => missing "feature" (Command_FeatureID c)
       | Some f =>
         if (Command_ProductID c != "") && (Command_ProductID c != ProductID f) then invalid "feature product mismatch" []
         else Ok (c <| Command_ProductID := ProductID f |>)
       end.

(** ** Entity identifiers are never reused *)
Definition same_delivery (c : Command) (key : string) (op : ExternalOperation) : bool :=
  (ID op == Command_ID c) && (ExternalOperation_Kind op == "DEPLOY") && (ProductID op == Command_ProductID c)
  && (ExternalOperation_IntegrationID op == Command_IntegrationID c) && (ExternalOperation_RequestKey op == key).
Definition sameDeliveryRetry (st : State) (c : Command) : bool :=
  let key := data_string (Command_Data c) "request_key" in
  (Command_ID c != "") && contains ["deploy_integration"; "deploy_existing_artifact"] (Command_Action c)
  && workerRequestKey key && existsb (same_delivery c key) (State_Operations st).
Definition addressing_actions : list string :=
  ["release_artifact_pin"; "update_feature"; "update_integration"; "start_integration"; "complete_integration";
   "transition_integration"; "resolve_blocker"; "resolve_finding"; "update_environment"; "select_composition";
   "update_external_system"; "reconcile_composition"; "promote_release_candidate"; "record_runtime_observation";
   "classify_repository"].
Definition check_identity (st : State) (c : Command) : res unit :=
  reject_if ((Command_ID c != "") && negb (sameDeliveryRetry st c) && negb (contains addressing_actions (Command_Action c))
             && contains (state_ids st) (Command_ID c)) (invalid "id already exists" []).

(** ** Dispatch

    The boolean says whether the case falls through to the audit: an exact
    retry of a pin command returns at once. *)
Definition delete_product (st : State) (c : Command) (m : Meta) : res (State * Out * Meta) :=
  st ← deleteProduct st c;
  Ok (st, OutMap [("deleted_product_id", Command_ProductID c)], m <| Meta_ID := Command_ProductID c |>).
Definition handlers : list (list string * Handler) := [
  (["claim_composition_conflict"; "record_conflict_resolution"; "verify_conflict_resolution"], applyCompositionConflict);
  (["create_integration_branch"; "protect_integration_revision"], applyManagedBranch);
  (["classify_repository"], classify_repository);
  (["configure_artifact_retention"], applyRetention);
  (["configure_publication"; "record_package_artifact"], applyPublication);
  (["create_test_scenario"; "revise_test_scenario"; "record_scenario_run"], applyScenario);
  (["update_environment_feature"; "assemble_environment"; "reconcile_composition"; "prepare_release_candidate";
    "promote_release_candidate"; "create_hotfix"; "record_runtime_observation"], applyFlow _);
  (["create_external_system"; "update_external_system"; "create_system_relationship"; "set_external_scope"], applyExternalSystems);
  (["refresh_environment_runtime"; "grant_connection"; "create_github_connection"; "import_repository"; "configure_component";
    "configure_environment"; "refresh_integration_git"; "refresh_repository_git"; "deploy_integration";
    "deploy_existing_artifact"], applyExternal);
  (["create_application"; "record_integration_revision"; "plan_composition"; "select_composition"], applyComposition);
  (["delete_product"], delete_product);
  (["create_product"], create_product);
  (["create_feature"], create_feature); (["update_feature"], update_feature);
  (["create_integration"], create_integration); (["update_integration"], update_integration);
  (["start_integration"; "complete_integration"; "transition_integration"], transition_integration);
  (["record_progress"; "record_decision"; "record_discovery"; "add_blocker"; "handoff"], record_memory);
  (["resolve_blocker"], resolve_blocker);
  (["create_gate"], create_gate); (["add_check"], add_check); (["record_check_result"], record_check_result);
  (["record_finding"], record_finding); (["resolve_finding"], resolve_finding);
  (["create_environment"], create_environment); (["update_environment"], update_environment);
  (["create_repository"], create_repository);
  (["plan_release"], plan_release); (["record_release"], record_release)
].
(** An action without a case leaves the state alone and is still audited. *)
Definition no_case : Handler := fun st _ m => Ok (st, OutNone, m).
Definition handler_of (action : string) : Handler :=
  match find_first (fun kv => contains kv.1 action) handlers with
  | Some kv => kv.2
  | None => no_case
  end.
Definition dispatch (st : State) (c : Command) (m : Meta) : res (State * Out * Meta * bool) :=
  if contains ["pin_artifact"; "release_artifact_pin"] (Command_Action c) then applyArtifactPin st c m
  else '(st, out, m) ← handler_of (Command_Action c) st c m; Ok (st, out, m, true).

(** ** The audit *)
Definition stamp_epoch (st : State) (op : ExternalOperation) : ExternalOperation :=
  match environmentByID st (ExternalOperation_EnvironmentID op) with
  | Some e => op <| ExternalOperation_ReservationEpoch := Environment_ReservationEpoch e |>
  | None => op
  end.
Definition stamped_out (out : Out) (ops : list ExternalOperation) : Out :=
  foldl (fun out op =>
    match out with
    | OutOperation r => if ID r == ID op then OutOperation op else out
    | _ => out
    end) out ops.
Definition audit (operationCount : nat) (c : Command) (st : State) (out : Out) (m : Meta) : State * Out :=
  let m := if contains ["create_feature"; "update_feature"] (Command_Action c) then m <| Meta_FeatureID := Meta_ID m |> else m in
  let added := map (stamp_epoch st) (drop operationCount (State_Operations st)) in
  let st := st <| State_Operations ::= fun l => take operationCount l ++ added |> in
  let eventAt := if Command_Action c == "release_artifact_pin" then Meta_UpdatedAt m else now "event" 0 in
  let event := mkEvent (fresh "event" 0) (Command_Action c) (Command_Actor c) eventAt (Meta_ID m) (Meta_ProductID m)
                 (Meta_FeatureID m) c in
  (derive (st <| State_Events ::= fun l => l ++ [event] |>), stamped_out out added).

Definition run_command (st : State) (c : Command) (m : Meta) : res (State * Out) :=
  let operationCount := length (State_Operations st) in
  '(st, out, m, changed) ← dispatch st c m;
  Ok (if changed : bool then audit operationCount c st out m else (st, out)).
Definition applyAuthorized (st : State) (c : Command) : res (State * Out) :=
  _ ← reject_if (blank (Command_Actor c)) (invalid "actor required" []);
  _ ← reject_if (negb (contains Actions (Command_Action c))) (invalid "unknown action" []);
  _ ← check_fields c;
  _ ← reservationCommandAllowed st c;
  let m := meta c in
  c ← resolve_feature st c;
  c ← resolve_product st c;
  let m := m <| Meta_ProductID := Command_ProductID c |> <| Meta_FeatureID := Command_FeatureID c |> in
  replayed ← (if Command_Action c == "update_environment_feature" then replayFeatureUpdate st c else Ok None);
  match replayed with
  | Some op => Ok (st, OutOperation op)
  | None =>
    _ ← check_identity st c;
    run_command st c m
  end.
End apply.
