(* ===== verification/Flow.v ===== *)
(** * The composition flow

    internal/application/flow.go, with feature_patch.go and
    [releaseNotesIntentHash] of intelligence.go: the commands that queue a
    composition of an environment or a release.  [applyFlow] is written on top
    of the command handler, whose class [Subsystems] it implements
    ([flow_subsystems]): a hotfix runs a nested command. *)
From S2P Require Import Prelude GoText GoJson Delivery Domain Status Planning Handlers DeviceAuth Collections ExternalSystems Reservation Composition Conflicts Scenarios Pins WorkerAuth WorkerJobs Publications Registry WorkerProtocol External Candidates Activation FlowGuards Effects Saving SourceRetention Entities Commands.
Open Scope string_scope.
Open Scope list_scope.

(** ** Data of a nested command

    The source puts Go values in the command's data; the handlers marshal
    them before they decode them. *)
Definition json_strings (l : list string) : json := JArr (map JStr l).
Definition json_component (c : CompositionComponent) : json :=
  JObj [("application_id", JStr (CompositionComponent_ApplicationID c)); ("base_ref", JStr (CompositionComponent_BaseRef c));
        ("base_commit", JStr (CompositionComponent_BaseCommit c)); ("target_branch", JStr (CompositionComponent_TargetBranch c));
        ("revision_ids", json_strings (CompositionComponent_RevisionIDs c))].
Definition composition_data (environmentID name : string) (components : list CompositionComponent) (autoRefresh : option bool) : Data :=
  list_to_map ([("environment_id", JStr environmentID); ("name", JStr name); ("components", JArr (map json_component components))]
               ++ match autoRefresh with Some b => [("auto_refresh", JBool b)] | None => [] end).

(** ** [Time.Format("2006-01-02 15:04")] of a UTC time

    Days are counted from 1 January of the year 1; the civil date is found in
    years that begin in March.  Years are written with four digits, as they are
    before the year 10000. *)
Definition day : Z := 24 * hour.
Definition civil (days : Z) : Z * Z * Z :=
  let z := (days + 306)%Z in
  let era := (z / 146097)%Z in
  let doe := (z mod 146097)%Z in
  let yoe := ((doe - doe / 1460 + doe / 36524 - doe / 146096) / 365)%Z in
  let doy := (doe - (365 * yoe + yoe / 4 - yoe / 100))%Z in
  let mp := ((5 * doy + 2) / 153)%Z in
  let m := (if mp <? 10 then mp + 3 else mp - 9)%Z in
  ((yoe + era * 400 + if m <=? 2 then 1 else 0)%Z, m, (doy - (153 * mp + 2) / 5 + 1)%Z).
Fixpoint padded (width : nat) (z : Z) : string :=
  match width with
  | O => ""
  | S width => padded width (z / 10)%Z +:+ String (ascii_of_nat (48 + Z.to_nat (z mod 10))) EmptyString
  end.
Definition format_minute (t : Time) : string :=
  let '(y, m, d) := civil (t / day)%Z in
  padded 4 y +:+ "-" +:+ padded 2 m +:+ "-" +:+ padded 2 d +:+ " "
  +:+ padded 2 (t mod day / hour)%Z +:+ ":" +:+ padded 2 (t mod hour / minute)%Z.

(** ** Inputs *)
(** The input struct — application/flow.go:120 *)
Record HotfixInput := mkHotfixInput {
  HotfixInput_Title : string; HotfixInput_Objective : string; HotfixInput_FindingID : string;
  HotfixInput_Repositories : list string; HotfixInput_Remaining : list string
}.
#[export] Instance zero_HotfixInput : Zero HotfixInput := mkHotfixInput zero zero zero zero zero.
#[export] Instance fields_HotfixInput `{Runtime} : Fields HotfixInput :=
  [
    field "title" HotfixInput_Title; field "objective" HotfixInput_Objective; field "finding_id" HotfixInput_FindingID;
    field "repositories" HotfixInput_Repositories; field "remaining" HotfixInput_Remaining
  ].
(** The input struct — application/flow.go:150 *)
Record ObservationInput := mkObservationInput {
  ObservationInput_EnvironmentID : string; ObservationInput_GitOpsCommit : string; ObservationInput_ArtifactDigest : string;
  ObservationInput_Healthy : bool; ObservationInput_Details : string
}.
#[export] Instance zero_ObservationInput : Zero ObservationInput := mkObservationInput zero zero zero zero zero.
#[export] Instance fields_ObservationInput `{Runtime} : Fields ObservationInput :=
  [
    field "environment_id" ObservationInput_EnvironmentID; field "gitops_commit" ObservationInput_GitOpsCommit;
    field "artifact_digest" ObservationInput_ArtifactDigest; field "healthy" ObservationInput_Healthy;
    field "details" ObservationInput_Details
  ].
(** The input struct — application/flow.go:186 *)
Record AssembleInput := mkAssembleInput {
  AssembleInput_EnvironmentID : string; AssembleInput_Name : string; AssembleInput_IntegrationIDs : list string;
  AssembleInput_ExpectedSelection : option EnvironmentSelection
}.
#[export] Instance zero_AssembleInput : Zero AssembleInput := mkAssembleInput zero zero zero zero.
#[export] Instance fields_AssembleInput `{Runtime} : Fields AssembleInput :=
  [
    field "environment_id" AssembleInput_EnvironmentID; field "name" AssembleInput_Name;
    field "integration_ids" AssembleInput_IntegrationIDs; field "expected_selection" AssembleInput_ExpectedSelection
  ].
(** The input struct — application/flow.go:215 *)
Record CandidateInput := mkCandidateInput {
  CandidateInput_Name : string; CandidateInput_EnvironmentID : string;
  CandidateInput_Components : list CompositionComponent; CandidateInput_Approve : bool
}.
#[export] Instance zero_CandidateInput : Zero CandidateInput := mkCandidateInput zero zero zero zero.
#[export] Instance fields_CandidateInput `{Runtime} : Fields CandidateInput :=
  [
    field "name" CandidateInput_Name; field "environment_id" CandidateInput_EnvironmentID;
    field "components" CandidateInput_Components; field "approve_main_update" CandidateInput_Approve
  ].
(** The input struct — application/flow.go:239 *)
Record ReconcileInput := mkReconcileInput { ReconcileInput_ResolutionConflictIDs : list string }.
#[export] Instance zero_ReconcileInput : Zero ReconcileInput := mkReconcileInput zero.
#[export] Instance fields_ReconcileInput `{Runtime} : Fields ReconcileInput :=
  [ field "resolution_conflict_ids" ReconcileInput_ResolutionConflictIDs ].
(** The input struct — application/flow.go:329 *)
Record PromoteInput := mkPromoteInput { PromoteInput_Approve : bool }.
#[export] Instance zero_PromoteInput : Zero PromoteInput := mkPromoteInput zero.
#[export] Instance fields_PromoteInput `{Runtime} : Fields PromoteInput := [ field "approve" PromoteInput_Approve ].
#[export] Instance fields_FeatureUpdateRequest `{Runtime} : Fields FeatureUpdateRequest :=
  [
    field "environment_id" FeatureUpdateRequest_EnvironmentID; field "revision_ids" FeatureUpdateRequest_RevisionIDs;
    field "name" FeatureUpdateRequest_Name; field "idempotency_key" FeatureUpdateRequest_IdempotencyKey;
    field "expected_selection" FeatureUpdateRequest_ExpectedSelection
  ].

Section flow.
Context `{Runtime, Upper, World, MapOrder, Hashing, RestorationEvidence, NetURL, URLs, Operator}.

(** [applyComposition] on a [plan_composition] command made here. *)
Definition plan_with (st : State) (c : Command) (m : Meta) (data : Data) : res (State * Composition) :=
  '(st, out, _) ← applyComposition st ((zero : Command) <| Command_Action := "plan_composition" |> <| Command_Actor := Command_Actor c |>
                     <| Command_ProductID := Command_ProductID c |> <| Command_Data := data |>) m;
  match out with OutComposition comp => Ok (st, comp) | _ => Err ErrPanic end.

(** ** What a composition is built from *)
Definition enabled_target (st : State) (environmentID app : string) : option EnvironmentBinding :=
  match environmentBinding st environmentID app with
  | Some t => if EnvironmentBinding_AllowDeploy t then Some t else None
  | None => None
  end.
Definition source_binding (st : State) (repositoryID : string) : option RepositoryBinding :=
  match repositoryBinding st repositoryID with
  | Some b => if IsSourceRole (RepositoryBinding_Role b) then Some b else None
  | None => None
  end.
Definition selected_heads (st : State) (rids : list string) : res (list string) :=
  foldM (fun heads rid => match revisionByID st rid with
                          | Some r => Ok (heads ++ [IntegrationRevision_HeadCommit r])
                          | None => invalid "revision missing" []
                          end) [] rids.
Definition generated_branch (environmentID opID repositoryID : string) : string :=
  "generated/" +:+ environmentID +:+ "/" +:+ opID +:+ "/" +:+ repositoryID.
Definition component_source (st : State) (comp : Composition) (opID : string) (production : bool)
    (out : list FlowSource) (component : CompositionComponent) : res (list FlowSource) :=
  match applicationByID st (CompositionComponent_ApplicationID component) with
  | None => invalid "component missing" []
  | Some app =>
    _ ← reject_if (ComponentKind app != "APPLICATION") (invalid "component missing" []);
    let repo := Application_RepositoryID app in
    match source_binding st repo, componentBuild st (ID app), enabled_target st (Composition_EnvironmentID comp) (ID app) with
    | Some source, Some build, Some target =>
      _ ← reject_if (production && (ComponentBuild_Mode build == "NATIVE"))
            (invalid "native release/main advancement is unsupported" []);
      _ ← reject_if (production && (EnvironmentBinding_Purpose target != "PROD")) (invalid "release requires explicit PROD mapping" []);
      _ ← reject_if (negb production && negb (contains ["DEV"; "TEST"] (EnvironmentBinding_Purpose target)))
            (invalid "compositions require DEV or TEST mapping" []);
      _ ← reject_if (CompositionComponent_BaseRef component != configuredBase source)
            (invalid "base_ref must match configured main/base branch" []);
      _ ← reject_if (str_contains "/" (repositoryLocator st source))
            (invalid "discover numeric repository identity before execution" []);
      if contains (map FlowSource_RepositoryID out) repo then Ok out
      else
        conn ← scopedConnection st (RepositoryBinding_ConnectionID source) (ProductID comp);
        heads ← selected_heads st (CompositionComponent_RevisionIDs component);
        let plan := (zero : SourcePlan) <| SourcePlan_Repository := repositoryLocator st source |>
                      <| SourcePlan_BaseRef := CompositionComponent_BaseRef component |>
                      <| SourcePlan_BaseSHA := CompositionComponent_BaseCommit component |>
                      <| SourcePlan_TargetBranch := generated_branch (Composition_EnvironmentID comp) opID repo |>
                      <| SourcePlan_OperationID := opID |> <| SourcePlan_HeadSHAs := heads |> in
        Ok (out ++ [(zero : FlowSource) <| FlowSource_RepositoryID := repo |> <| FlowSource_Connection := GitHubConnection_Config conn |>
                      <| FlowSource_Plan := plan |>])
    | _, _, _ => invalid "source/build and enabled target required for %s" [ID app]
    end
  end.
Definition flowSources (st : State) (comp : Composition) (opID : string) (production : bool) : res (list FlowSource) :=
  foldM (component_source st comp opID production) [] (Composition_Components comp).

(** The provider configuration, frozen before anything happens. *)
Definition unbound_native (build : option ComponentBuild) : bool :=
  match build with
  | Some b => (ComponentBuild_Mode b == "NATIVE") && bool_decide (ComponentBuild_Native b = None)
  | None => false
  end.
Definition gitops_binding (st : State) (product : string) (source : RepositoryBinding) (build : ComponentBuild) (target : EnvironmentBinding)
    : res RepositoryBinding :=
  match repositoryBinding st (EnvironmentBinding_RepositoryID target) with
  | None => invalid "GitOps/source connection mismatch" []
  | Some gitops =>
    _ ← reject_if ((RepositoryBinding_Role gitops != "GITOPS") || (ProductID gitops != product)
                   || (EnvironmentBinding_ConnectionID target != RepositoryBinding_ConnectionID gitops)
                   || (ComponentBuild_ConnectionID build != RepositoryBinding_ConnectionID source))
          (invalid "GitOps/source connection mismatch" []);
    Ok gitops
  end.
Definition prepared_build (st : State) (source : RepositoryBinding) (build : ComponentBuild) (m : Meta) : BuildRequest :=
  (zero : BuildRequest) <| BuildRequest_Repository := repositoryLocator st source |> <| BuildRequest_Workflow := ComponentBuild_Workflow build |>
    <| BuildRequest_Ref := if ComponentBuild_WorkflowRef build == "" then RepositoryBinding_DefaultBranch source
                           else ComponentBuild_WorkflowRef build |>
    <| BuildRequest_Inputs := <["image_repository" := ComponentBuild_ImageRepository build]> (ComponentBuild_Inputs build) |>
    <| BuildRequest_RequestedAt := Meta_CreatedAt m |>.
Definition prepared_gitops (st : State) (gitops : RepositoryBinding) (build : ComponentBuild) (target : EnvironmentBinding) : GitOpsRequest :=
  (zero : GitOpsRequest) <| GitOpsRequest_Repository := repositoryLocator st gitops |> <| GitOpsRequest_Ref := EnvironmentBinding_Ref target |>
    <| GitOpsRequest_Path := EnvironmentBinding_Path target |> <| GitOpsRequest_ImageRepository := ComponentBuild_ImageRepository build |>
    <| GitOpsRequest_ImageField := EnvironmentBinding_ImageField target |> <| GitOpsRequest_DigestField := EnvironmentBinding_DigestField target |>.
Definition prepare_component (st : State) (comp : Composition) (m : Meta) (out : list DeliverySnapshot) (component : CompositionComponent)
    : res (list DeliverySnapshot) :=
  match applicationByID st (CompositionComponent_ApplicationID component) with
  | None => invalid "component missing" []
  | Some app =>
    _ ← reject_if (ComponentKind app != "APPLICATION") (invalid "component missing" []);
    _ ← reject_if (unbound_native (componentBuild st (ID app))) (invalid "automatic native binding required for composition" []);
    match repositoryBinding st (Application_RepositoryID app), componentBuild st (ID app),
          environmentBinding st (Composition_EnvironmentID comp) (ID app), environmentByID st (Composition_EnvironmentID comp) with
    | Some source, Some build, Some target, Some env =>
      gitops ← gitops_binding st (ProductID comp) source build target;
      sc ← scopedConnection st (RepositoryBinding_ConnectionID source) (ProductID comp);
      gc ← scopedConnection st (RepositoryBinding_ConnectionID gitops) (ProductID comp);
      Ok (out ++ [(zero : DeliverySnapshot) <| DeliverySnapshot_Application := app |> <| DeliverySnapshot_Build := build |>
                    <| DeliverySnapshot_Target := target |> <| DeliverySnapshot_Environment := env |>
                    <| DeliverySnapshot_Source := source |> <| DeliverySnapshot_GitOps := gitops |>
                    <| DeliverySnapshot_SourceConnection := GitHubConnection_Config sc |>
                    <| DeliverySnapshot_GitOpsConnection := GitHubConnection_Config gc |>
                    <| DeliverySnapshot_BuildRequest := prepared_build st source build m |>
                    <| DeliverySnapshot_GitOpsRequest := prepared_gitops st gitops build target |>])
    | _, _, _, _ => invalid "deployment configuration missing" []
    end
  end.
Definition prepareFlowDeployments (st : State) (comp : Composition) (m : Meta) : res (list DeliverySnapshot) :=
  foldM (prepare_component st comp m) [] (Composition_Components comp).
(** The authority of native components, frozen with the deployment. *)
Definition freeze_native (st : State) (comp : Composition) (m : Meta) (production : bool) (out : list DeliverySnapshot) (snap : DeliverySnapshot)
    : res (list DeliverySnapshot) :=
  let build := DeliverySnapshot_Build snap in
  if ComponentBuild_Mode build != "NATIVE" then Ok (out ++ [snap])
  else
    _ ← reject_if production (invalid "native production candidate is unsupported" []);
    _ ← reject_if (nativeQuarantined st (ProductID comp) || (EnvironmentBinding_GitOpsMode (DeliverySnapshot_Target snap) != "PR"))
          (invalid "native composition requires enabled PR target" []);
    frozen ← freezeNative (ProductID comp) (DeliverySnapshot_Application snap) build (Meta_CreatedAt m);
    Ok (out ++ [snap <| DeliverySnapshot_Native := Some frozen |>]).

(** intelligence.go: the intents that the release notes will speak about *)
Definition released_intents (st : State) (comp : Composition) : option (list (string * string * string * string * list string * list string)) :=
  foldr (fun iid intents =>
    match integration st iid, intents with
    | Some v, Some intents =>
      if ProductID v == ProductID comp then
        Some ((ID v, FeatureID v, Integration_Title v, Integration_Objective v, Integration_AcceptanceCriteria v, []) :: intents)
      else None
    | _, _ => None
    end) (Some []) (selectedIntegrations comp).
Definition releaseNotesIntentHash (st : State) (comp : Composition) : string :=
  match released_intents st comp with Some intents => Fingerprint intents | None => "" end.

(** ** Feature updates — feature_patch.go *)
Definition explicit_selection (d : Data) : res unit :=
  let fields : gmap string json := match d !! "expected_selection" with Some (JObj kvs) => list_to_map (reverse kvs) | _ => ∅ end in
  each (fun key => match fields !! key with
                   | None | Some JNull => invalid "expected_selection.%s required (empty/zero values must be explicit)" [key]
                   | Some _ => Ok ()
                   end) ["composition_id"; "operation_id"; "generation"].
Definition opaque_request_key (key : string) : bool :=
  (1 <=? strlen key)%Z && (strlen key <=? 128)%Z && (trim_space key == key)
  && negb (str_any (fun a => (byte_of a <? 32)%nat || (byte_of a == 127)) key).
(** The input and the receipt hash of a feature update. *)
Definition featureUpdateInput (c : Command) : res (FeatureUpdateRequest * string) :=
  _ ← reject_if ((Command_IntegrationID c != "") || (Command_GateID c != "") || (Command_CheckID c != "") || (Command_ResultID c != ""))
        (invalid "update_environment_feature does not accept integration_id, gate_id, check_id or result_id" []);
  input ← decode (Command_Data c) (zero : FeatureUpdateRequest);
  let revisions := FeatureUpdateRequest_RevisionIDs input in
  _ ← reject_if ((Command_FeatureID c == "") || (FeatureUpdateRequest_EnvironmentID input == "") || bool_decide (revisions = [])
                 || (1000 <? length revisions)%nat || (512 <? strlen (FeatureUpdateRequest_Name input))%Z)
        (invalid "feature_id, environment_id and nonempty bounded revision_ids required" []);
  _ ← reject_if (negb (opaque_request_key (FeatureUpdateRequest_IdempotencyKey input)))
        (invalid "idempotency_key must be an opaque nonempty key of at most 128 bytes without control characters" []);
  _ ← reject_if (negb (is_some (FeatureUpdateRequest_ExpectedSelection input)))
        (invalid "expected_selection with composition_id, operation_id and generation required" []);
  _ ← explicit_selection (Command_Data c);
  Ok (input, backupHash (Command_ProductID c, Command_FeatureID c, Command_Actor c, Command_ID c, input)).
(** The operation that a key is bound to, if its request is the same. *)
Definition bound_update (key : string) (op : ExternalOperation) : bool :=
  is_some (ExternalOperation_FeatureUpdate op) && (ExternalOperation_RequestKey op == key).
Definition same_update (c : Command) (input : FeatureUpdateRequest) (hash : string) (op : ExternalOperation) : bool :=
  (ExternalOperation_RequestHash op == hash) && (ProductID op == Command_ProductID c) && (FeatureID op == Command_FeatureID c)
  && (ExternalOperation_RequestedBy op == Command_Actor c)
  && (ExternalOperation_EnvironmentID op == FeatureUpdateRequest_EnvironmentID input).
Definition replayUpdate (st : State) (c : Command) : res (option ExternalOperation) :=
  '(input, hash) ← featureUpdateInput c;
  match find_first (bound_update (FeatureUpdateRequest_IdempotencyKey input)) (State_Operations st) with
  | None => Ok None
  | Some op =>
    if same_update c input hash op then Ok (Some op)
    else invalid "idempotency_key already binds a different feature update payload, actor or scope" []
  end.

(** *** The patched selection *)
Definition patch_revision (st : State) (c : Command) (repoIDs : list string) (patches : gmap string IntegrationRevision) (rid : string)
    : res (gmap string IntegrationRevision) :=
  match revisionByID st rid with
  | None => invalid "patch revision must belong to product" []
  | Some rev =>
    _ ← reject_if (ProductID rev != Command_ProductID c) (invalid "patch revision must belong to product" []);
    match integration st (IntegrationRevision_IntegrationID rev) with
    | None => invalid "all patch revisions must belong to target feature" []
    | Some v =>
      _ ← reject_if ((ProductID v != Command_ProductID c) || (FeatureID v != Command_FeatureID c))
            (invalid "all patch revisions must belong to target feature" []);
      _ ← reject_if (Integration_Status v == "released") (invalid "released target work requires explicit baseline replan" []);
      _ ← reject_if (negb (contains repoIDs (IntegrationRevision_RepositoryID rev)))
            (invalid "new repository/application cohort requires explicit replan" []);
      _ ← reject_if (is_some (patches !! revision_key rev))
            (invalid "patch revisions must have unique integration/repository pairs" []);
      Ok (<[revision_key rev := rev]> patches)
    end
  end.
(** A selected revision is replaced by the patch of its integration and
    repository; [included] are the pairs seen, [changed] whether one moved. *)
Record patched := mkPatched { patched_ids : list string; patched_included : gset string; patched_changed : bool }.
Definition replace_revision (st : State) (patches : gmap string IntegrationRevision) (p : patched) (rid : string) : res patched :=
  match revisionByID st rid with
  | None => invalid "baseline revision missing; explicitly replan" []
  | Some rev =>
    let p := p <| patched_included ::= fun s => {[revision_key rev]} ∪ s |> in
    match patches !! revision_key rev with
    | Some replacement => Ok (p <| patched_ids ::= fun l => l ++ [ID replacement] |>
                                <| patched_changed ::= fun b => b || (ID replacement != rid) |>)
    | None => Ok (p <| patched_ids ::= fun l => l ++ [rid] |>)
    end
  end.
Definition append_revision (st : State) (repo : string) (p : patched) (rid : string) : res patched :=
  match revisionByID st rid with
  | None => Err ErrPanic
  | Some rev =>
    if (IntegrationRevision_RepositoryID rev == repo) && negb (bool_decide (revision_key rev ∈ patched_included p)) then
      Ok (mkPatched (patched_ids p ++ [rid]) ({[revision_key rev]} ∪ patched_included p) true)
    else Ok p
  end.
Definition reviewed_target (st : State) (environmentID app : string) : bool :=
  match enabled_target st environmentID app with
  | Some t => contains ["DEV"; "TEST"] (EnvironmentBinding_Purpose t) && (EnvironmentBinding_GitOpsMode t == "PR")
  | None => false
  end.
Definition patch_component (st : State) (c : Command) (m : Meta) (environmentID : string) (repoIDs requested : list string)
    (patches : gmap string IntegrationRevision) (acc : list CompositionComponent * bool) (prior : CompositionComponent)
    : res (list CompositionComponent * bool) :=
  match applicationByID st (CompositionComponent_ApplicationID prior) with
  | None => invalid "selected application cohort changed; explicitly replan" []
  | Some app =>
    let repo := Application_RepositoryID app in
    _ ← reject_if ((ProductID app != Command_ProductID c) || negb (contains repoIDs repo))
          (invalid "selected application cohort changed; explicitly replan" []);
    _ ← reject_if (negb (reviewed_target st environmentID (ID app)))
          (invalid "feature patch requires configured enabled DEV/TEST reviewed PR-only targets for every component" []);
    p ← foldM (replace_revision st patches) (mkPatched [] ∅ acc.2) (CompositionComponent_RevisionIDs prior);
    p ← foldM (append_revision st repo) p requested;
    Ok (acc.1 ++ [prior <| CompositionComponent_RevisionIDs := patched_ids p |>
                        <| CompositionComponent_TargetBranch := generated_branch environmentID (Meta_ID m) repo |>],
        patched_changed p)
  end.
Definition patch_baseline (st : State) (c : Command) (m : Meta) (input : FeatureUpdateRequest) (env : Environment) (baseline : Composition)
    : res (list CompositionComponent) :=
  let repoIDs := map Application_RepositoryID (Composition_ApplicationSnapshots baseline) in
  let requested := FeatureUpdateRequest_RevisionIDs input in
  patches ← foldM (patch_revision st c repoIDs) ∅ requested;
  '(components, changed) ← foldM (patch_component st c m (ID env) repoIDs requested patches) ([], false) (Composition_Components baseline);
  _ ← reject_if (negb changed)
        (invalid "requested revisions already selected; inspect current operation %s or explicitly reconcile composition %s"
           [Environment_DesiredOperationID env; ID baseline]);
  Ok components.
Definition update_scope (st : State) (c : Command) (input : FeatureUpdateRequest) : res (Environment * Composition) :=
  match feature st (Command_FeatureID c), environmentByID st (FeatureUpdateRequest_EnvironmentID input) with
  | Some f, Some env =>
    _ ← reject_if ((ProductID f != Command_ProductID c) || (ProductID env != Command_ProductID c))
          (invalid "feature and environment must belong to the same product" []);
    _ ← checkSelection (Some env) (FeatureUpdateRequest_ExpectedSelection input);
    match compositionByID st (Environment_DesiredCompositionID env) with
    | None => invalid "current desired composition required; explicitly initialize or replan the environment first" []
    | Some baseline =>
      _ ← reject_if ((ProductID baseline != Command_ProductID c) || (Composition_EnvironmentID baseline != ID env))
            (invalid "current desired composition required; explicitly initialize or replan the environment first" []);
      _ ← reject_if ((Environment_Cluster (Composition_EnvironmentSnapshot baseline) != Environment_Cluster env)
                     || (Environment_Namespace (Composition_EnvironmentSnapshot baseline) != Environment_Namespace env))
            (invalid "environment target changed; explicitly replan the baseline" []);
      _ ← selectionAllowed st (ID env);
      Ok (env, baseline)
    end
  | _, _ => invalid "feature and environment must belong to the same product" []
  end.
Definition planFeatureUpdate (st : State) (c : Command) (m : Meta) : res (State * Composition) :=
  '(input, _) ← featureUpdateInput c;
  '(env, baseline) ← update_scope st c input;
  components ← patch_baseline st c m input env baseline;
  let name := if blank (FeatureUpdateRequest_Name input) then Composition_Name baseline +:+ " (feature update)"
              else FeatureUpdateRequest_Name input in
  plan_with st c m (composition_data (ID env) name components (Some false)).

(** ** The commands — flow.go [applyFlow] *)
(** A command run inside another one draws its own identifiers and clock. *)
Definition nested_world : World := {| fresh := fun site => fresh ("create_integration " +:+ site); now := fun site => now ("create_integration " +:+ site) |}.
(** No command of the flow runs a command of the flow. *)
Definition no_flow : Subsystems := {|
  applyFlow := fun _ _ _ _ => invalid "unknown flow command" []; replayFeatureUpdate := fun _ _ => Ok None
|}.
Definition apply_nested (st : State) (c : Command) : res (State * Out) :=
  @applyAuthorized _ _ nested_world _ _ _ _ _ (None : Operator) no_flow st c.
Definition found_in_feature (st : State) (findingID featureID : string) : bool :=
  existsb (fun f => (ID f == findingID) && (FeatureID f == featureID)) (State_Findings st).
Definition hotfix_command (c : Command) (m : Meta) (input : HotfixInput) : Command :=
  (zero : Command) <| Command_Action := "create_integration" |> <| Command_Actor := Command_Actor c |> <| Command_ID := Meta_ID m |>
    <| Command_FeatureID := Command_FeatureID c |>
    <| Command_Data := list_to_map [("title", JStr (HotfixInput_Title input)); ("objective", JStr (HotfixInput_Objective input));
                                    ("repositories", json_strings (HotfixInput_Repositories input));
                                    ("remaining", json_strings (HotfixInput_Remaining input))] |>.
Definition create_hotfix : Handler := fun st c m =>
  input ← decode (Command_Data c) (zero : HotfixInput);
  _ ← reject_if ((HotfixInput_FindingID input != "") && negb (found_in_feature st (HotfixInput_FindingID input) (Command_FeatureID c)))
        (invalid "finding must belong to same feature" []);
  '(st, _) ← apply_nested st (hotfix_command c m input);
  match integration st (Meta_ID m) with
  | None => Err ErrPanic
  | Some created =>
    let created := created <| Integration_Kind := "hotfix" |> <| Integration_FixesFindingID := HotfixInput_FindingID input |> in
    Ok (st <| State_Integrations ::= update_first (has_id (Meta_ID m)) (fun _ => created) |>, OutIntegration created, Integration_Meta created)
  end.
Definition deployed_evidence (op : ExternalOperation) (input : ObservationInput) : bool :=
  (ExternalOperation_Status op == "SUCCEEDED") && (ExternalOperation_EnvironmentID op == ObservationInput_EnvironmentID input)
  && match ExternalOperation_GitOpsResult op, ExternalOperation_Artifact op with
     | Some r, Some a => (GitOpsResult_CommitSHA r == ObservationInput_GitOpsCommit input)
                         && (ArtifactResult_Digest a == ObservationInput_ArtifactDigest input)
     | _, _ => false
     end
  && negb (blank (ObservationInput_Details input)).
Definition record_runtime_observation : Handler := fun st c m =>
  input ← decode (Command_Data c) (zero : ObservationInput);
  match operationByID st (Command_ID c) with
  | None => invalid "runtime evidence must match successful deployment commit/digest/environment" []
  | Some op =>
    _ ← reject_if (negb (deployed_evidence op input))
          (invalid "runtime evidence must match successful deployment commit/digest/environment" []);
    _ ← reject_if ((ExternalOperation_ParentID op != "")
                   && match environmentByID st (ExternalOperation_EnvironmentID op) with
                      | Some env => Environment_DesiredOperationID env != ExternalOperation_ParentID op
                      | None => true
                      end) (invalid "deployment superseded" []);
    let m := m <| Meta_ID := fresh "record_runtime_observation" 0 |> <| Meta_ProductID := ProductID op |> <| Meta_FeatureID := FeatureID op |> in
    let v := mkRuntimeObservation m (ID op) (ObservationInput_EnvironmentID input) (ObservationInput_GitOpsCommit input)
               (ObservationInput_ArtifactDigest input) (ObservationInput_Healthy input) (ObservationInput_Details input) in
    Ok (st <| State_RuntimeObservations ::= fun l => l ++ [v] |>, OutRuntimeObservation v, m)
  end.

(** *** Which composition the operation is for

    The composition, the conflicts whose resolutions it reuses and the
    metadata of the operation. *)
Definition planned_update (st : State) (c : Command) (m : Meta) : res (State * Composition * list string * Meta) :=
  '(st, comp) ← planFeatureUpdate st c m;
  Ok (st, comp, [], m <| Meta_ID := fresh "update_environment_feature" 0 |>).
Definition planned_assembly (st : State) (c : Command) (m : Meta) : res (State * Composition * list string * Meta) :=
  input ← decode (Command_Data c) (zero : AssembleInput);
  let environmentID := AssembleInput_EnvironmentID input in
  _ ← match AssembleInput_ExpectedSelection input with
      | Some expected => checkSelection (environmentByID st environmentID) (Some expected)
      | None => Ok ()
      end;
  let name := if blank (AssembleInput_Name input)
              then "Active work · " +:+ environmentID +:+ " · " +:+ format_minute (Meta_CreatedAt m) else AssembleInput_Name input in
  components ← assembleComponents st (Command_ProductID c) environmentID (Meta_ID m) (AssembleInput_IntegrationIDs input);
  '(st, comp) ← plan_with st c m (composition_data environmentID name components (Some true));
  Ok (st, comp, [], m <| Meta_ID := fresh "assemble_environment" 0 |>).
Definition planned_candidate (st : State) (c : Command) (m : Meta) : res (State * Composition * list string * Meta) :=
  input ← decode (Command_Data c) (zero : CandidateInput);
  _ ← reject_if (negb (CandidateInput_Approve input))
        (invalid "approve_main_update required for selected source merge into main" []);
  '(st, comp) ← plan_with st c (m <| Meta_ID := fresh "prepare_release_candidate" 0 |>)
                  (composition_data (CandidateInput_EnvironmentID input) (CandidateInput_Name input) (CandidateInput_Components input) None);
  _ ← releaseWorkReady st comp;
  Ok (st, comp, [], m).
Definition planned_reconcile (st : State) (c : Command) (m : Meta) : res (State * Composition * list string * Meta) :=
  input ← decode (Command_Data c) (zero : ReconcileInput);
  match compositionByID st (Command_ID c) with
  | None => missing "composition" (Command_ID c)
  | Some comp =>
    _ ← reject_if ((Command_ProductID c != "") && (Command_ProductID c != ProductID comp)) (invalid "composition outside product" []);
    Ok (st, comp, ReconcileInput_ResolutionConflictIDs input, m <| Meta_ID := fresh "reconcile_composition" 0 |>)
  end.
Definition planned_composition (st : State) (c : Command) (m : Meta) : res (State * Composition * list string * Meta) :=
  if Command_Action c == "update_environment_feature" then planned_update st c m
  else if Command_Action c == "assemble_environment" then planned_assembly st c m
  else if Command_Action c == "prepare_release_candidate" then planned_candidate st c m
  else planned_reconcile st c m.

(** *** The operation *)
Definition unchanged_target (st : State) (comp : Composition) : res Environment :=
  match environmentByID st (Composition_EnvironmentID comp) with
  | None => invalid "target changed; replan" []
  | Some env =>
    _ ← reject_if ((Environment_Cluster env != Environment_Cluster (Composition_EnvironmentSnapshot comp))
                   || (Environment_Namespace env != Environment_Namespace (Composition_EnvironmentSnapshot comp)))
          (invalid "target changed; replan" []);
    Ok env
  end.
Definition advancing_main (product : string) (op : ExternalOperation) : bool :=
  (ExternalOperation_Kind op == "RELEASE_CANDIDATE") && negb (terminalOperation (ExternalOperation_Status op)) && (ProductID op == product).
(** The environment now desires the operation's composition. *)
Definition desire (st : State) (m : Meta) (compositionID operationID : string) (env : Environment) : res State :=
  env' ← advanceSelection env;
  Ok (update_environment_at st (ID env)
        (env' <| Environment_DesiredCompositionID := compositionID |> <| Environment_DesiredOperationID := operationID |>
              <| Environment_Meta ::= fun mt => mt <| Meta_UpdatedAt := Meta_UpdatedAt m |> |>)).
Definition flow_operation (c : Command) (m : Meta) (kind phase : string) (comp : Composition) (sources : list FlowSource)
    (prepared : list DeliverySnapshot) (integrations : list string) (at_ : Time) : ExternalOperation :=
  (zero : ExternalOperation) <| ExternalOperation_Meta := m |> <| ExternalOperation_Kind := kind |>
    <| ExternalOperation_EnvironmentID := Composition_EnvironmentID comp |> <| ExternalOperation_Status := "PENDING" |>
    <| ExternalOperation_Phase := phase |> <| ExternalOperation_RequestedBy := Command_Actor c |>
    <| ExternalOperation_CompositionSnapshot := Some comp |> <| ExternalOperation_Sources := sources |>
    <| ExternalOperation_PreparedDeployments := prepared |> <| ExternalOperation_IntegrationIDs := integrations |>
    <| ExternalOperation_NextAttemptAt := at_ |>.
(** The receipt of a feature update. *)
Definition receipt (c : Command) (op : ExternalOperation) (m : Meta) : res (ExternalOperation * Meta) :=
  if Command_Action c == "update_environment_feature" then
    '(input, hash) ← featureUpdateInput c;
    Ok (op <| ExternalOperation_FeatureUpdate := Some input |> <| ExternalOperation_RequestKey := FeatureUpdateRequest_IdempotencyKey input |>
           <| ExternalOperation_RequestHash := hash |>
           <| ExternalOperation_Meta ::= fun mt => mt <| Meta_FeatureID := Command_FeatureID c |> |>,
        m <| Meta_FeatureID := Command_FeatureID c |>)
  else Ok (op, m).
(** The sources and deployments, frozen against the state before the
    environment is moved. *)
Definition freeze_flow (st : State) (comp : Composition) (resolutions : list string) (m : Meta) (production : bool)
    : res (list FlowSource * list DeliverySnapshot) :=
  sources ← flowSources st comp (Meta_ID m) production;
  sources ← attachConflictResolutions st comp sources resolutions;
  prepared ← prepareFlowDeployments st comp m;
  prepared ← foldM (freeze_native st comp m production) [] prepared;
  _ ← reject_if (production && existsb (advancing_main (Meta_ProductID m)) (State_Operations st))
        (invalid "another candidate is advancing main" []);
  Ok (sources, prepared).
Definition queue_composition (origin : option composeRefreshOrigin) (production : bool) (st : State) (comp : Composition)
    (resolutions : list string) (c : Command) (m : Meta) : res (State * Out * Meta) :=
  env ← unchanged_target st comp;
  _ ← (if production then Ok () else selectionAllowed st (ID env));
  let m := m <| Meta_ProductID := ProductID comp |> <| Meta_FeatureID := "" |> in
  '(sources, prepared) ← freeze_flow st comp resolutions m production;
  st ← (if production then Ok st else desire st m (ID comp) (Meta_ID m) env);
  let op := (flow_operation c m (if production then "RELEASE_CANDIDATE" else "COMPOSE") "COMPOSE_SOURCE" comp sources prepared
               (selectedIntegrations comp) (now "applyFlow" 0)) <| ExternalOperation_ReleaseNotesIntentHash := releaseNotesIntentHash st comp |> in
  '(op, m) ← receipt c op m;
  op ← (if production then Ok op else freezeSourceRetention st op origin);
  Ok (st <| State_Operations ::= fun l => l ++ [op] |>, OutOperation op, m).
Definition compose_flow (origin : option composeRefreshOrigin) : Handler := fun st c m =>
  '(st, comp, resolutions, m) ← planned_composition st c m;
  queue_composition origin (Command_Action c == "prepare_release_candidate") st comp resolutions c m.

(** *** Promotion *)
Definition completed_candidate (op : ExternalOperation) : option Composition :=
  if (ExternalOperation_Kind op == "RELEASE_CANDIDATE") && (ExternalOperation_Status op == "SUCCEEDED")
     && (ExternalOperation_DeploymentState op == "READY_FOR_VERIFICATION")
  then ExternalOperation_CompositionSnapshot op else None.
Definition promotes (candidateID : string) (op : ExternalOperation) : bool :=
  (ExternalOperation_Kind op == "RELEASE_PROMOTION") && (ExternalOperation_ReleaseCandidateID op == candidateID).
Definition promote_release_candidate : Handler := fun st c m =>
  input ← decode (Command_Data c) (zero : PromoteInput);
  _ ← reject_if (negb (PromoteInput_Approve input)) (invalid "explicit approve required" []);
  match operationByID st (Command_ID c) with
  | None => invalid "completed main candidate required" []
  | Some candidate =>
    match completed_candidate candidate with
    | None => invalid "completed main candidate required" []
    | Some comp =>
      _ ← reject_if ((Command_ProductID c != "") && (ProductID candidate != Command_ProductID c)) (invalid "candidate outside product" []);
      _ ← nativeReleaseDenied st candidate;
      _ ← releaseWorkReady st comp;
      _ ← scenarioCandidateReady st (ID candidate);
      _ ← reject_if (existsb (promotes (ID candidate)) (State_Operations st))
            (invalid "candidate promotion already requested; inspect existing operation" []);
      let m := m <| Meta_ID := fresh "promote_release_candidate" 0 |> <| Meta_ProductID := ProductID candidate |> <| Meta_FeatureID := "" |> in
      let op := (flow_operation c m "RELEASE_PROMOTION" "QUEUE_DEPLOYMENTS" comp (ExternalOperation_Sources candidate)
                   (ExternalOperation_PreparedDeployments candidate) (ExternalOperation_IntegrationIDs candidate) (now "applyFlow" 0))
                  <| ExternalOperation_EnvironmentID := ExternalOperation_EnvironmentID candidate |>
                  <| ExternalOperation_ReleaseCandidateID := ID candidate |> in
      match environmentByID st (ExternalOperation_EnvironmentID op) with
      | None => invalid "environment missing" []
      | Some env =>
        _ ← selectionAllowed st (ID env);
        st ← desire st m (ID comp) (ID op) env;
        Ok (st <| State_Operations ::= fun l => l ++ [op] |>, OutOperation op, m)
      end
    end
  end.

Definition compose_actions : list string :=
  ["update_environment_feature"; "assemble_environment"; "reconcile_composition"; "prepare_release_candidate"].
Definition flow_handler (origin : option composeRefreshOrigin) : Handler := fun st c m =>
  if Command_Action c == "create_hotfix" then create_hotfix st c m
  else if Command_Action c == "record_runtime_observation" then record_runtime_observation st c m
  else if contains compose_actions (Command_Action c) then compose_flow origin st c m
  else if Command_Action c == "promote_release_candidate" then promote_release_candidate st c m
  else invalid "unknown flow command" [].
End flow.

(** The flow, as the command handler calls it: [origin] is only given by the
    scheduler that refreshes compositions. *)
Definition flow_subsystems `{Runtime, Upper, MapOrder, Hashing, RestorationEvidence, NetURL, URLs, Operator}
    (origin : option composeRefreshOrigin) : Subsystems := {|
  applyFlow := fun world => @flow_handler _ _ world _ _ _ _ _ _ origin; replayFeatureUpdate := replayUpdate
|}.
