(* ===== verification/Planner.v ===== *)
(** * What the commands do to the plan

    An abstract view of the plan, its features and integrations, as a step
    relation [PlanStep], and the proof that every command is one of its steps.  The invariants of the plan are proved on the
    abstract steps and transported to [applyAuthorized]. *)
From S2P Require Import Prelude GoText GoJson Delivery Domain Status Planning Handlers DeviceAuth Collections ExternalSystems Reservation Composition Conflicts Scenarios Pins WorkerAuth WorkerJobs Publications WorkerProtocol External Entities Commands.
Open Scope string_scope.
Open Scope list_scope.

(** ** The abstract steps

    [reactivated] is the feature list after new work reopens a completed
    feature. *)
Definition reactivated (st : State) (fid : string) (l : list Feature) : Prop :=
  exists at_, l = State_Features (reactivate st fid at_).
Definition settled_work (st : State) (v : Integration) : Prop :=
  Integration_Status v = "released" \/ Integration_Status v = "ready" /\ Ready st v.
(** [v] is stored in place of [old]. *)
Record Replaces (st : State) (old v : Integration) (features : list Feature) : Prop := {
  replaces_stored : integration st (ID v) = Some old;
  replaces_feature : FeatureID v = FeatureID old /\ ProductID v = ProductID old;
  replaces_released : Integration_Status old <> "released" /\ Integration_Status v <> "released";
  replaces_ready : Integration_Status v = "ready" -> Integration_Status old = "ready" \/ Ready st old;
  replaces_status : CanTransition "integration" (Integration_Status old) (Integration_Status v) = true
                    \/ Integration_Status v = Integration_Status old;
  replaces_graph : Integration_Dependencies v = Integration_Dependencies old
                   \/ forall d, d ∈ Integration_Dependencies v -> ~ rtc (depends st) d (ID v);
  replaces_reactivates : features = State_Features st /\ (Integration_Status v = "ready" \/ Integration_Status v = Integration_Status old)
                         \/ reactivated st (FeatureID v) features;
}.
Inductive PlanStep (action : string) (st : State) : list Feature -> list Integration -> Prop :=
| plan_none : PlanStep action st (State_Features st) (State_Integrations st)
| plan_create_feature f :
    ID f ∉ map ID (State_Features st) -> Feature_Status f <> "completed" ->
    PlanStep action st (State_Features st ++ [f]) (State_Integrations st)
| plan_update_feature old f :
    feature st (ID f) = Some old -> CanTransition "feature" (Feature_Status old) (Feature_Status f) = true ->
    (Feature_Status f = "completed" ->
       (exists v, v ∈ State_Integrations st /\ FeatureID v = ID f)
       /\ forall v, v ∈ State_Integrations st -> FeatureID v = ID f -> settled_work st v) ->
    PlanStep action st (update_first (has_id (ID f)) (fun _ => f) (State_Features st)) (State_Integrations st)
| plan_create_integration v features :
    ID v ∉ map ID (State_Integrations st) -> Integration_Status v = "planned" ->
    (forall d, d ∈ Integration_Dependencies v -> ~ rtc (depends st) d (ID v)) ->
    reactivated st (FeatureID v) features ->
    PlanStep action st features (State_Integrations st ++ [v])
| plan_replace old v features :
    Replaces st old v features ->
    PlanStep action st features (update_first (has_id (ID v)) (fun _ => v) (State_Integrations st))
| plan_reopen g at_ :
    action = "set_external_scope" -> g ∈ State_Gates st -> Gate_Blocking g = true ->
    PlanStep action st (State_Features st) (reopen_integrations g at_ (State_Integrations st))
| plan_delete product :
    action = "delete_product" ->
    PlanStep action st (List.filter (kept product) (State_Features st)) (List.filter (kept product) (State_Integrations st)).

(** A handler that leaves the planning entities and the audit trail alone. *)
Definition plan_part (st : State) :=
  (State_Features st, State_Integrations st, State_Memories st, State_Gates st, State_Results st, State_Findings st,
   State_Releases st, State_Events st).
Definition Frames (h : Handler) : Prop :=
  forall st c m st' out m', h st c m = Ok (st', out, m') -> plan_part st' = plan_part st.

Section handlers.
Context `{Runtime, Upper, World, MapOrder, Hashing, RestorationEvidence, NetURL, URLs, Operator}.

Ltac framed := let H := fresh in intros ? ? ? ? ? ? H; crunch H; reflexivity.
Lemma classify_repository_frames : Frames classify_repository.
Proof. unfold classify_repository. framed. Qed.
Lemma create_product_frames : Frames create_product.
Proof. unfold create_product. framed. Qed.
Lemma create_repository_frames : Frames create_repository.
Proof. unfold create_repository. framed. Qed.
Lemma create_environment_frames : Frames create_environment.
Proof. unfold create_environment. framed. Qed.
Lemma update_environment_frames : Frames update_environment.
Proof. unfold update_environment. framed. Qed.
Lemma applyScenario_frames : Frames applyScenario.
Proof. unfold applyScenario, put_scenario, record_scenario_run. framed. Qed.
Lemma applyComposition_frames : Frames applyComposition.
Proof.
  unfold applyComposition, create_application, record_integration_revision, plan_composition, select_composition. framed.
Qed.
Lemma applyCompositionConflict_frames : Frames applyCompositionConflict.
Proof. unfold applyCompositionConflict. framed. Qed.
Lemma applyManagedBranch_frames : Frames applyManagedBranch.
Proof. unfold applyManagedBranch. framed. Qed.
Lemma applyRetention_frames : Frames applyRetention.
Proof. unfold applyRetention. framed. Qed.
Lemma register_frames st m conn input st' v : register st m conn input = (st', v) -> plan_part st' = plan_part st.
Proof. unfold register. destruct (registeredRepositoryIdentity _ _ _ _); intros [= <- _]; reflexivity. Qed.
Lemma refresh_once_frames st c m v st' out m' : refresh_once st c m v = Ok (st', out, m') -> plan_part st' = plan_part st.
Proof. unfold refresh_once. destruct (pendingRefresh _ _ _ _ _ _ _); intros [= <- _ _]; reflexivity. Qed.
Lemma import_repository_frames : Frames import_repository.
Proof.
  unfold import_repository. intros st c m st' out m' Hx. step_guards Hx. cbv zeta in Hx. step_guards Hx.
  destruct (register _ _ _ _) as [st1 v] eqn:E4. injection Hx as <- _ _. apply register_frames in E4. exact E4.
Qed.
Lemma deploy_integration_frames : Frames deploy_integration.
Proof. unfold deploy_integration. framed. Qed.
Lemma applyExternal_frames : Frames applyExternal.
Proof.
  intros st c m st' out m' Hx. unfold applyExternal in Hx.
  repeat match type of Hx with (if ?b then _ else _) = _ => destruct b end;
    eauto using import_repository_frames, deploy_integration_frames; try discriminate; revert Hx;
    unfold refresh_environment_runtime, grant_connection, create_github_connection, configure_component, configure_environment,
      refresh_integration_git, refresh_repository_git; intros Hx; crunch Hx; eauto using refresh_once_frames.
Qed.
Lemma applyPublication_frames : Frames applyPublication.
Proof. unfold applyPublication, configure_publication, record_package_artifact. framed. Qed.
Lemma applyExternalSystems_frames st c m st' out m' :
  applyExternalSystems st c m = Ok (st', out, m') -> Command_Action c <> "set_external_scope" -> plan_part st' = plan_part st.
Proof.
  unfold applyExternalSystems, put_external_system, create_system_relationship. intros Hx Hne.
  rewrite (bool_decide_false (Command_Action c = "set_external_scope")) in Hx by exact Hne. crunch Hx; reflexivity.
Qed.

(** ** Each planning handler is a step *)
Definition Steps (action : string) (st st' : State) : Prop :=
  PlanStep action st (State_Features st') (State_Integrations st') /\ State_Events st' = State_Events st.

Lemma steps_intro action st st' features integrations :
  PlanStep action st features integrations -> State_Features st' = features -> State_Integrations st' = integrations ->
  State_Events st' = State_Events st -> Steps action st st'.
Proof. intros Hs HF HI HE. split; [rewrite HF, HI; exact Hs|exact HE]. Qed.
Lemma frames_step action st st' : plan_part st' = plan_part st -> Steps action st st'.
Proof. unfold plan_part. intros [= HF HI _ _ _ _ _ HE]. split; [rewrite HF, HI; constructor|exact HE]. Qed.
Lemma feature_completion_settled st v : feature_completion st v = Ok () -> Feature_Status v = "completed" ->
  (exists w, w ∈ State_Integrations st /\ FeatureID w = ID v)
  /\ forall w, w ∈ State_Integrations st -> FeatureID w = ID v -> settled_work st w.
Proof.
  unfold feature_completion. intros Hc Hs. rewrite Hs in Hc; cbn in Hc. apply bind_unit in Hc as [Hall Hne].
  apply reject_if_invalid in Hne. to_prop. split.
  - apply existsb_elem in Hne as (w & ? & ?%bool_decide_eq_true); eauto.
  - intros w Hw Hf. rewrite each_Ok, list.Forall_forall in Hall. specialize (Hall w Hw).
    unfold completion_ready, feature_work in Hall. rewrite bool_decide_true in Hall by exact Hf. cbn in Hall.
    apply bind_unit in Hall as [Hr%reject_if_invalid Hready]. to_prop. unfold ready_status in Hr.
    apply orb_true_iff in Hr as [Hr|Hr]; to_prop; [|left; exact Hr].
    rewrite bool_decide_true in Hready by exact Hr. right; split; [exact Hr|apply readiness_Ready, Hready].
Qed.

Lemma valid_feature_Ok st old v : valid_feature st old v = Ok () ->
  ValidStatus "feature" (Feature_Status v) = true
  /\ match old with
     | None => Feature_Status v ∈ ["planned"; "active"]
     | Some o => CanTransition "feature" (Feature_Status o) (Feature_Status v) = true
     end
  /\ feature_completion st v = Ok ().
Proof.
  unfold valid_feature. rewrite !bind_unit, reject_if_invalid, negb_false_iff. intros (Hs & Ht & Hc & _ & _).
  split; [exact Hs|split; [|exact Hc]]. destruct old; apply reject_if_invalid in Ht; to_prop; assumption.
Qed.

Lemma create_feature_step st c m st' out m' :
  create_feature st c m = Ok (st', out, m') -> Meta_ID m ∉ map ID (State_Features st) -> Steps (Command_Action c) st st'.
Proof.
  unfold create_feature. intros Hx Hid. crunch Hx. destruct a0. apply valid_feature_Ok in E0 as (_ & Hs & _).
  eapply steps_intro; [eapply plan_create_feature|reflexivity..]; [exact Hid|].
  intros Hc. rewrite Hc in Hs. revert Hs. apply not_listed. reflexivity.
Qed.
Lemma update_feature_step st c m st' out m' :
  update_feature st c m = Ok (st', out, m') -> Steps (Command_Action c) st st'.
Proof.
  unfold update_feature. intros Hx. destruct (feature st (Command_FeatureID c)) as [old|] eqn:Hold; [|discriminate].
  crunch Hx. destruct a0. apply valid_feature_Ok in E0 as (_ & Hs & Hc).
  pose proof (feature_Some _ _ _ Hold) as [_ Hid]. rewrite <- Hid in *.
  pose proof (fun Ho => plan_update_feature (Command_Action c) st old _ Ho Hs (feature_completion_settled st _ Hc)) as Hp.
  eapply steps_intro; [exact (Hp Hold)|reflexivity..].
Qed.

Lemma create_integration_adds st c m st' out m' : create_integration st c m = Ok (st', out, m') ->
  exists v, State_Integrations st' = State_Integrations st ++ [v] /\ ID v = Meta_ID m /\ Integration_Status v = "planned"
    /\ (forall d, d ∈ Integration_Dependencies v -> ~ rtc (depends st) d (ID v)) /\ reactivated st (FeatureID v) (State_Features st')
    /\ State_Events st' = State_Events st.
Proof.
  unfold create_integration. intros Hx. destruct (feature st _) as [f|] eqn:Hf; [|discriminate].
  crunch Hx. to_prop. destruct a0. exists (a <| Integration_Meta := m' |>).
  rewrite reactivate_integrations, reactivate_events. repeat split.
  - exact G.
  - apply (validateIntegration_deps _ _ E0).
  - exists (Meta_UpdatedAt m'). unfold reactivate, feature. cbn.
    destruct (find_first _ (State_Features st)) as [g|]; [|reflexivity]. destruct (_ == _); reflexivity.
Qed.
Lemma create_integration_step st c m st' out m' :
  create_integration st c m = Ok (st', out, m') -> Meta_ID m ∉ map ID (State_Integrations st) -> Steps (Command_Action c) st st'.
Proof.
  intros Hx Hid. apply create_integration_adds in Hx as (v & Hv & E & Hs & Hd & Hf & He). split; [|exact He].
  rewrite Hv. rewrite <- E in Hid. apply plan_create_integration; assumption.
Qed.

Lemma integration_keeps_status `{R : Runtime} : Forall (keeps_field Integration_Status "status") (fields (R := Integration)).
Proof. unfold fields, fields_Integration. keeps_fields. Qed.

Lemma update_first_found {A} (p : A -> bool) f l x : find_first p l = Some x -> update_first p f l = update_first p (fun _ => f x) l.
Proof. induction l as [|y l IH]; cbn; [reflexivity|]. destruct (p y); [intros [= ->]; reflexivity|intros; f_equal; auto]. Qed.
(** The stored integration is [v], whatever the handler computed it from. *)
Lemma replace_step action st st' old v :
  Replaces st old v (State_Features st') ->
  State_Integrations st' = update_first (has_id (ID v)) (fun _ => v) (State_Integrations st) ->
  State_Events st' = State_Events st -> Steps action st st'.
Proof. intros Hr HI HE. eapply steps_intro; [eapply plan_replace, Hr|reflexivity|exact HI|exact HE]. Qed.
Ltac replaced old :=
  match goal with |- Steps _ ?st ?st' =>
    match st' with context [update_first _ (fun _ => ?x)] =>
      apply (replace_step _ st st' old x);
        [|cbn; rewrite ?reactivate_integrations; reflexivity|cbn; rewrite ?reactivate_events; reflexivity]
    end
  end.

Lemma update_integration_step st c m st' out m' :
  update_integration st c m = Ok (st', out, m') -> plain_keys (Command_Data c) -> Steps (Command_Action c) st st'.
Proof.
  unfold update_integration. intros Hx Hd. destruct (integration st _) as [old|] eqn:Hold; [|discriminate].
  step_guards Hx. to_prop.
  assert (Hs : Integration_Status a = Integration_Status old)
    by (eapply decode_keeps; [apply integration_keeps_status|exact Hd|eassumption|exact E]).
  destruct a0. pose proof (validateIntegration_deps _ _ E0) as Hdeps. cbv zeta in Hx.
  change (Integration_Status (a <| Integration_Meta := _ |>)) with (Integration_Status a) in Hx. rewrite Hs in Hx.
  pose proof (integration_Some _ _ _ Hold) as [_ Hid]. rewrite <- Hid in *.
  destruct (Integration_Status old == "ready") eqn:Hr; to_prop; injection Hx as <- _ _; replaced old; constructor; try assumption.
  - split; reflexivity.
  - split; [assumption|discriminate].
  - discriminate.
  - left. rewrite Hr. reflexivity.
  - right. exact Hdeps.
  - right. eexists. reflexivity.
  - split; reflexivity.
  - split; [assumption|]. change (Integration_Status a <> "released"). rewrite Hs; assumption.
  - change (Integration_Status a = "ready" -> Integration_Status old = "ready" \/ Ready st old). rewrite Hs; auto.
  - right. exact Hs.
  - right. exact Hdeps.
  - left. split; [reflexivity|right; exact Hs].
Qed.

Lemma transition_integration_step st c m st' out m' :
  transition_integration st c m = Ok (st', out, m') -> Steps (Command_Action c) st st'.
Proof.
  unfold transition_integration. intros Hx. destruct (integration st _) as [old|] eqn:Hold; [|discriminate].
  step_guards Hx. to_prop. cbv zeta in Hx. set (status := requested_status c) in *.
  pose proof (integration_Some _ _ _ Hold) as [_ Hid]. rewrite <- Hid in *.
  assert (Hready : status = "ready" -> Ready st old).
  { intros E1. rewrite bool_decide_true in E by exact E1. destruct a. apply readiness_Ready, E. }
  injection Hx as <- _ _. destruct (status == "ready") eqn:Hr; to_prop; cbn [negb];
    destruct (status == "working") eqn:Hw; to_prop; replaced old; constructor; try assumption;
    try (split; reflexivity); try (split; [assumption|assumption]); try (left; reflexivity);
    try (right; eexists; reflexivity); try (intros; right; apply Hready; assumption);
    try (left; assumption).
  all: left; split; [reflexivity|left; exact Hr].
Qed.

Lemma record_memory_step st c m st' out m' : record_memory st c m = Ok (st', out, m') -> Steps (Command_Action c) st st'.
Proof.
  unfold record_memory. intros Hx. step_guards Hx. cbv zeta in Hx. step_guards Hx. injection Hx as <- _ _.
  destruct (_ && _) in E0.
  - destruct (integration st _) as [old|] eqn:Hold; [|discriminate]. step_guards E0. injection E0 as <-. to_prop.
    pose proof (find_first_Some _ _ _ Hold) as [_ Hid].
    match goal with |- context [progress_update ?d ?t ?mem] => set (v := progress_update d t mem old) end.
    assert (Hv : ID v = ID old /\ Integration_Status v = Integration_Status old
                 /\ Integration_Dependencies v = Integration_Dependencies old /\ FeatureID v = FeatureID old /\ ProductID v = ProductID old).
    { unfold v, progress_update. destruct (has_key _ "completed"), (has_key _ "remaining"); repeat split. }
    destruct Hv as (Hi & Hs & Hd & Hf & Hp). apply has_id_true in Hid. rewrite <- Hid in *.
    apply (replace_step _ st _ old v); [constructor| |reflexivity].
    + rewrite Hi. exact Hold.
    + auto.
    + rewrite Hs; auto.
    + rewrite Hs; auto.
    + right. exact Hs.
    + left. exact Hd.
    + left. split; [reflexivity|right; exact Hs].
    + rewrite Hi. exact (update_first_found _ _ _ _ Hold).
  - injection E0 as <-. eapply steps_intro; [apply plan_none|reflexivity..].
Qed.
Lemma set_external_scope_step st c m st' out m' : set_external_scope st c m = Ok (st', out, m') -> Command_Action c = "set_external_scope" -> Steps (Command_Action c) st st'.
Proof.
  unfold set_external_scope. intros Hx Ha. step_guards Hx. destruct (feature st a0) as [f|]; [|discriminate].
  cbv zeta in Hx. step_guards Hx. injection Hx as <- _ _. unfold reopen in E3.
  case_bool_decide; [injection E3 as <-; eapply steps_intro; [apply plan_none|reflexivity..]|].
  destruct (gate _ _) as [g|] eqn:Hg; [|discriminate].
  destruct (Gate_Blocking g) eqn:Hb; injection E3 as <-; [|eapply steps_intro; [apply plan_none|reflexivity..]].
  eapply steps_intro; [eapply (plan_reopen _ _ g)|reflexivity..]; [exact Ha| |exact Hb].
  apply find_first_Some in Hg as [Hg _]. exact Hg.
Qed.
Lemma delete_product_step st c m st' out m' : delete_product st c m = Ok (st', out, m') -> Command_Action c = "delete_product" -> Steps (Command_Action c) st st'.
Proof.
  unfold delete_product, deleteProduct. intros Hx Ha. apply bind_Ok in Hx as (st1 & Hd & Hx). injection Hx as <- _ _.
  cbv zeta in Hd. step_guards Hd. injection Hd as <-. eapply steps_intro; [apply plan_delete, Ha|reflexivity..].
Qed.

(** The remaining planning handlers leave features and integrations alone. *)
Definition Quiet (h : Handler) : Prop :=
  forall st c m st' out m', h st c m = Ok (st', out, m') ->
    State_Features st' = State_Features st /\ State_Integrations st' = State_Integrations st /\ State_Events st' = State_Events st.
Lemma quiet_step (h : Handler) st c m st' out m' : h st c m = Ok (st', out, m') -> Quiet h -> Steps (Command_Action c) st st'.
Proof. intros Hx Hq. apply Hq in Hx as (? & ? & ?). eapply steps_intro; [apply plan_none|assumption..]. Qed.
Lemma frames_handler_step (h : Handler) st c m st' out m' : h st c m = Ok (st', out, m') -> Frames h -> Steps (Command_Action c) st st'.
Proof. intros Hx Hf. apply frames_step. eapply Hf, Hx. Qed.
Ltac quiet := let H := fresh in intros ? ? ? ? ? ? H; crunch H; repeat split.
Lemma resolve_blocker_quiet : Quiet resolve_blocker.
Proof. unfold resolve_blocker. quiet. Qed.
Lemma create_gate_quiet : Quiet create_gate.
Proof. unfold create_gate. quiet. Qed.
Lemma add_check_quiet : Quiet add_check.
Proof. unfold add_check. quiet. Qed.
Lemma record_check_result_quiet : Quiet record_check_result.
Proof. unfold record_check_result. quiet. Qed.
Lemma record_finding_quiet : Quiet record_finding.
Proof. unfold record_finding. quiet. Qed.
Lemma resolve_finding_quiet : Quiet resolve_finding.
Proof. unfold resolve_finding. quiet. Qed.
Lemma plan_release_quiet : Quiet plan_release.
Proof. unfold plan_release. quiet. Qed.
Lemma record_release_quiet : Quiet record_release.
Proof. unfold record_release. quiet. Qed.
Lemma no_case_quiet : Quiet no_case.
Proof. unfold no_case. quiet. Qed.

Lemma applyExternalSystems_step st c m st' out m' : applyExternalSystems st c m = Ok (st', out, m') -> Steps (Command_Action c) st st'.
Proof.
  intros Hx. destruct (decide (Command_Action c = "set_external_scope")) as [E|E].
  - unfold applyExternalSystems in Hx. rewrite E in Hx. apply (set_external_scope_step _ _ _ _ _ _ Hx E).
  - apply frames_step, (applyExternalSystems_frames _ _ _ _ _ _ Hx E).
Qed.
End handlers.

(** ** From handlers to commands *)
(** A command with ASCII keys. *)
Definition ascii_keys (d : Data) : Prop := forall k, has_key d k = true -> is_ascii k = true.
Definition AsciiCommand (c : Command) : Prop := ascii_keys (Command_Data c).
(** The commands that create a planning entity under a new identity. *)
Definition creating_actions : list string := ["create_feature"; "create_integration"; "create_hotfix"].
(** What the handlers of the flow promise: they are steps of the plan, and
    only a hotfix logs events of its own. *)
Class SubsystemLaws `{Subsystems} : Prop := {
  flow_plans : forall world st c m st' out m', applyFlow world st c m = Ok (st', out, m') ->
    (Command_Action c = "create_hotfix" -> Meta_ID m ∉ map ID (State_Integrations st)) ->
    PlanStep (Command_Action c) st (State_Features st') (State_Integrations st');
  flow_logs : forall world st c m st' out m', applyFlow world st c m = Ok (st', out, m') ->
    State_Events st `prefix_of` State_Events st' /\ (Command_Action c <> "create_hotfix" -> State_Events st' = State_Events st);
}.

Create HintDb plan discriminated.
#[export] Hint Resolve quiet_step frames_handler_step update_feature_step update_integration_step transition_integration_step
  record_memory_step delete_product_step applyExternalSystems_step create_feature_step create_integration_step : plan.
#[export] Hint Resolve resolve_blocker_quiet create_gate_quiet add_check_quiet record_check_result_quiet record_finding_quiet
  resolve_finding_quiet plan_release_quiet record_release_quiet no_case_quiet : plan.
#[export] Hint Resolve applyExternal_frames applyManagedBranch_frames applyRetention_frames applyPublication_frames applyCompositionConflict_frames classify_repository_frames applyScenario_frames applyComposition_frames
  create_product_frames create_environment_frames update_environment_frames create_repository_frames : plan.

Section commands.
Context `{Runtime, Upper, World, MapOrder, Hashing, RestorationEvidence, NetURL, URLs, Operator, Subsystems}.

(** The command after its scope is resolved. *)
Definition Resolves (c c' : Command) : Prop :=
  Command_Action c' = Command_Action c /\ Command_Data c' = Command_Data c /\ Command_ID c' = Command_ID c
  /\ Command_Actor c' = Command_Actor c /\ Command_IntegrationID c' = Command_IntegrationID c.
Lemma resolve_feature_Resolves st c c' : resolve_feature st c = Ok c' -> Resolves c c'.
Proof. unfold resolve_feature. intros Hx. crunch Hx; repeat split. Qed.
Lemma resolve_product_Resolves st c c' : resolve_product st c = Ok c' -> Resolves c c'.
Proof. unfold resolve_product. intros Hx. crunch Hx; repeat split. Qed.

Record Accepted (st : State) (c : Command) : Prop := {
  accepted_actor : blank (Command_Actor c) = false;
  accepted_action : Command_Action c ∈ Actions;
  accepted_fields : forall key, key ∈ server_fields -> has_key (Command_Data c) key = false;
  accepted_case : forall key, has_key (Command_Data c) key = true -> key = to_lower key;
  accepted_status : has_key (Command_Data c) "status" = true ->
    Command_Action c ∈ ["create_feature"; "update_feature"; "transition_integration"];
  accepted_result : has_key (Command_Data c) "result" = true -> Command_Action c ∈ ["record_check_result"; "record_scenario_run"];
  accepted_reservation : reservationCommandAllowed st c = Ok ();
}.
Lemma check_fields_Ok c : check_fields c = Ok () ->
  (forall key, key ∈ server_fields -> has_key (Command_Data c) key = false)
  /\ (forall key, has_key (Command_Data c) key = true -> key = to_lower key)
  /\ (has_key (Command_Data c) "status" = true -> Command_Action c ∈ ["create_feature"; "update_feature"; "transition_integration"])
  /\ (has_key (Command_Data c) "result" = true -> Command_Action c ∈ ["record_check_result"; "record_scenario_run"]).
Proof.
  unfold check_fields. rewrite !bind_unit, !each_Ok, !list.Forall_forall, !reject_if_invalid.
  intros (Hf & Hk & Hs & Hr). split; [|split; [|split]].
  - intros key Hin. specialize (Hf key Hin). rewrite reject_if_invalid in Hf. exact Hf.
  - intros key [v Hv]%bool_decide_eq_true. specialize (Hk (key, v)). cbn in Hk. rewrite reject_if_invalid, negb_false_iff, bool_decide_eq_true in Hk.
    apply Hk, elem_of_map_range, Hv.
  - intros E. rewrite E in Hs. cbn in Hs. to_prop. exact Hs.
  - intros E. rewrite E in Hr. cbn in Hr. to_prop. exact Hr.
Qed.
Lemma applyAuthorized_Ok st c st' out : applyAuthorized st c = Ok (st', out) ->
  Accepted st c
  /\ exists c', Resolves c c'
     /\ (Command_Action c = "update_environment_feature" /\ st' = st
         /\ (exists op, replayFeatureUpdate st c' = Ok (Some op) /\ out = OutOperation op)
         \/ check_identity st c' = Ok ()
            /\ exists m, (Meta_ID m = Meta_ID (meta c) /\ Meta_ProductID m = Command_ProductID c') /\ run_command st c' m = Ok (st', out)).
Proof.
  unfold applyAuthorized. intros Hx. step_guards Hx. 
  destruct a, a0. apply check_fields_Ok in E as (? & ? & ? & ?). to_prop. split; [constructor; assumption|].
  apply resolve_feature_Resolves in E1 as (R1 & R2 & R3 & R4 & R5). apply resolve_product_Resolves in E2 as (S1 & S2 & S3 & S4 & S5).
  exists a2. split; [repeat split; congruence|].
  destruct a3 as [op|].
  - left. destruct (Command_Action a2 == "update_environment_feature") eqn:Ea; [|discriminate]. to_prop.
    injection Hx as <- <-. split; [congruence|split; [reflexivity|exists op; auto]].
  - right. apply bind_Ok in Hx as ([] & Hid & Hx). split; [exact Hid|]. eexists; split; [|exact Hx]. split; reflexivity.
Qed.
Lemma accepted_plain st c : Accepted st c -> ascii_keys (Command_Data c) -> plain_keys (Command_Data c).
Proof.
  intros Ha Hk key Hin. specialize (Hk key Hin). pose proof (accepted_case _ _ Ha key Hin) as E.
  unfold plain_name. rewrite Hk, <- (to_lower_ascii key Hk), <- E. apply bool_decide_eq_true. reflexivity.
Qed.

(** The case an action is dispatched to. *)
Lemma handler_of_cases action : handler_of action = no_case
  \/ exists kv, kv ∈ handlers /\ action ∈ kv.1 /\ handler_of action = kv.2.
Proof.
  unfold handler_of. destruct (find_first _ handlers) as [kv|] eqn:E; [right|left; reflexivity].
  apply find_first_Some in E as [? ?]. to_prop. eauto.
Qed.

(** ** Every event a command writes *)
Lemma audit_events n c st out m st' out' : audit n c st out m = (st', out') ->
  exists e, State_Events st' = State_Events st ++ [e]
    /\ Event_Action e = Command_Action c /\ Event_Actor e = Command_Actor c /\ Event_Data e = c.
Proof. intros [= <- _]. eexists. split; [reflexivity|]. repeat split. Qed.
Lemma audit_plan n c st out m st' out' : audit n c st out m = (st', out') ->
  State_Features st' = State_Features st /\ State_Integrations st' = State_Integrations st.
Proof. intros [= <- _]. split; reflexivity. Qed.

Lemma pin_step_plan st c m st' out m' changed :
  applyArtifactPin st c m = Ok (st', out, m', changed) ->
  plan_part st' = plan_part st /\ (changed = false -> st' = st).
Proof.
  unfold applyArtifactPin, release_pin, pin_artifact. intros Hx. crunch Hx; split; reflexivity || discriminate || auto.
Qed.

Lemma run_command_Ok st c m st' out : run_command st c m = Ok (st', out) ->
  (Command_Action c ∈ ["pin_artifact"; "release_artifact_pin"] /\ st' = st)
  \/ exists st1 out1 m1,
       (Command_Action c ∈ ["pin_artifact"; "release_artifact_pin"] /\ plan_part st1 = plan_part st
        \/ handler_of (Command_Action c) st c m = Ok (st1, out1, m1))
       /\ audit (length (State_Operations st)) c st1 out1 m1 = (st', out).
Proof.
  unfold run_command. intros Hx. apply bind_Ok in Hx as ([[[st1 out1] m1] changed] & Hd & Hx). unfold dispatch in Hd.
  destruct (contains ["pin_artifact"; "release_artifact_pin"] (Command_Action c)) eqn:Hp.
  - pose proof (pin_step_plan _ _ _ _ _ _ _ Hd) as [Hframe Hsame]. to_prop. destruct changed.
    + right. exists st1, out1, m1. split; [auto|congruence].
    + left. split; [exact Hp|]. specialize (Hsame eq_refl). congruence.
  - apply bind_Ok in Hd as ([[st2 out2] m2] & Hh & Hd). injection Hd as -> -> -> <-. right. exists st1, out1, m1.
    split; [auto|congruence].
Qed.

Lemma feature_ids_listed st i : i ∉ state_ids st -> i ∉ map ID (State_Features st).
Proof.
  intros Hi Hin. apply Hi. unfold state_ids, collections. cbn [map snd List.concat]. rewrite !elem_of_app. tauto.
Qed.
Lemma integration_ids_listed st i : i ∉ state_ids st -> i ∉ map ID (State_Integrations st).
Proof.
  intros Hi Hin. apply Hi. unfold state_ids, collections. cbn [map snd List.concat]. rewrite !elem_of_app. tauto.
Qed.

Lemma planning_handler_steps `{!SubsystemLaws} st c m st' out m' :
  handler_of (Command_Action c) st c m = Ok (st', out, m') -> plain_keys (Command_Data c) ->
  (Command_Action c ∈ creating_actions -> Meta_ID m ∉ state_ids st) ->
  PlanStep (Command_Action c) st (State_Features st') (State_Integrations st').
Proof.
  intros Hx Hkeys Hfresh. destruct (handler_of_cases (Command_Action c)) as [E|(kv & Hin & Ha & E)]; rewrite E in Hx; clear E.
  { assert (Hs : Steps (Command_Action c) st st') by eauto with plan. apply Hs. }
  assert (Hcreate : kv.1 = ["create_feature"] \/ kv.1 = ["create_integration"] -> Meta_ID m ∉ state_ids st).
  { intros [E|E]; rewrite E in Ha; apply Hfresh; revert Ha; apply listed_in; reflexivity. }
  assert (Hdelete : kv.1 = ["delete_product"] -> Command_Action c = "delete_product").
  { intros E. rewrite E in Ha. apply list_elem_of_singleton, Ha. }
  unfold handlers in Hin.
  repeat (apply elem_of_cons in Hin as [->|Hin];
    [cbn [fst snd] in Ha, Hx, Hcreate, Hdelete;
     first [solve [apply (flow_plans _ _ _ _ _ _ _ Hx); intros E; apply integration_ids_listed, Hfresh; rewrite E; apply (bool_decide_unpack _); reflexivity]
          |enough (Hs : Steps (Command_Action c) st st') by apply Hs;
           first [solve [eauto 6 with plan]|eauto 6 using feature_ids_listed, integration_ids_listed with plan]]|]).
  inversion Hin.
Qed.
End commands.

(** * Properties *)

(** ** The plan's invariant *)
Definition CompletedWork (st : State) : Prop := forall f v,
  f ∈ State_Features st -> Feature_Status f = "completed" -> v ∈ State_Integrations st -> FeatureID v = ID f ->
  ready_status (Integration_Status v) = true.
Record PlanIDs (st : State) : Prop := {
  feature_ids : NoDup (map ID (State_Features st));
  integration_ids : NoDup (map ID (State_Integrations st));
}.

Section invariant.
Context (action : string) (st : State).
Implicit Types (features : list Feature) (integrations : list Integration).

Lemma map_update_replaced {A} `{HasMeta A} i (v : A) l : ID v = i ->
  map ID (update_first (has_id i) (fun _ => v) l) = map ID l.
Proof using Type. intros <-. apply map_update_first. intros x E%has_id_true. symmetry; exact E. Qed.
Lemma reactivated_ids fid features : reactivated st fid features -> map ID features = map ID (State_Features st).
Proof.
  intros (at_ & ->). unfold reactivate. destruct (feature st fid) as [f|]; [|reflexivity].
  destruct (_ == _); [|reflexivity]. apply map_update_first. reflexivity.
Qed.
Lemma reopen_integrations_ids g at_ l : map ID (reopen_integrations g at_ l) = map ID l.
Proof.
  unfold reopen_integrations. rewrite List.map_map. apply List.map_ext. intros v. destruct (_ && _); reflexivity.
Qed.
Lemma nodup_filter_ids {A} `{HasMeta A} (p : A -> bool) l : NoDup (map ID l) -> NoDup (map ID (List.filter p l)).
Proof using Type.
  induction l as [|x l IH]; cbn; [auto|]. rewrite list.NoDup_cons. intros [Hx Hl]. destruct (p x); cbn; [|auto].
  rewrite list.NoDup_cons. split; [|auto]. intros (y & E & Hy%elem_of_filter_list)%elem_of_map. destruct Hy as [Hy _].
  apply Hx, elem_of_map. eauto.
Qed.
Lemma nodup_snoc_ids {A} `{HasMeta A} (v : A) l : NoDup (map ID l) -> ID v ∉ map ID l -> NoDup (map ID (l ++ [v])).
Proof using Type.
  intros Hl Hv. rewrite List.map_app. apply list.NoDup_app. repeat split; [exact Hl| |apply list.NoDup_singleton].
  intros x Hx ->%list_elem_of_singleton. exact (Hv Hx).
Qed.
Lemma plan_step_ids features integrations : PlanStep action st features integrations -> PlanIDs st ->
  NoDup (map ID features) /\ NoDup (map ID integrations).
Proof.
  intros Hstep [HF HI]. destruct Hstep as [|f Hid _|old f _ _ _|v F Hid _ _ Hre|old v F Hr|g at_ _ _ _|p _].
  - auto.
  - split; [apply nodup_snoc_ids; assumption|exact HI].
  - rewrite map_update_replaced by reflexivity. auto.
  - rewrite (reactivated_ids _ _ Hre). split; [exact HF|apply nodup_snoc_ids; assumption].
  - rewrite map_update_replaced by reflexivity. split; [|exact HI].
    destruct (replaces_reactivates _ _ _ _ Hr) as [[-> _]|Hre]; [exact HF|rewrite (reactivated_ids _ _ Hre); exact HF].
  - rewrite reopen_integrations_ids. auto.
  - split; apply nodup_filter_ids; assumption.
Qed.

(** *** The dependency graph stays acyclic *)
Definition depends_in integrations (i d : string) : Prop :=
  exists v, find_first (has_id i) integrations = Some v /\ d ∈ Integration_Dependencies v.
Lemma tc_mono {A} (R R' : A -> A -> Prop) : (forall x y, R' x y -> R x y) -> forall x y, tc R' x y -> tc R x y.
Proof using Type. intros Hsub x y Hxy. induction Hxy; [apply tc_once|eapply tc_l]; eauto. Qed.
Lemma find_first_filter_ids (p : Integration -> bool) l i v : NoDup (map ID l) ->
  find_first (has_id i) (List.filter p l) = Some v -> find_first (has_id i) l = Some v.
Proof.
  intros Hl [Hin Hid]%find_first_Some. apply elem_of_filter_list in Hin as [Hin _].
  destruct (find_first_is_Some _ _ _ Hin Hid) as (w & Hw). rewrite Hw. f_equal.
  apply find_first_Some in Hw as [Hw Hwid]. apply has_id_true in Hid, Hwid.
  apply (nodup_map_inj l); congruence || assumption.
Qed.
Lemma plan_step_acyclic features integrations : PlanStep action st features integrations -> PlanIDs st ->
  Acyclic st -> forall i, ~ tc (depends_in integrations) i i.
Proof.
  intros Hstep [HF HI] Hac. change (forall i, ~ tc (depends_in (State_Integrations st)) i i) in Hac.
  destruct Hstep as [|f Hid _|old f _ _ _|v F Hid _ Hv Hre|old v F Hr|g at_ _ _ _|p _]; try exact Hac.
  - apply (acyclic_replace (depends st) _ (ID v)); [| |exact Hac].
    + intros x d Hne (w & Hw & Hd). exists w; split; [|exact Hd]. rewrite find_first_app in Hw.
      unfold integration. destruct (find_first _ (State_Integrations st)); [exact Hw|]. cbn in Hw.
      unfold has_id in Hw. rewrite bool_decide_false in Hw by congruence. discriminate.
    + intros d (w & Hw & Hd). apply Hv. rewrite find_first_app in Hw.
      destruct (find_first _ (State_Integrations st)) as [u|] eqn:E.
      * apply find_first_Some in E as [Hu Hid'%has_id_true]. destruct Hid. rewrite <- Hid'. apply elem_of_map; eauto.
      * cbn in Hw. rewrite (proj2 (has_id_true (ID v) v) eq_refl) in Hw. congruence.
  - assert (Hself : forall w, find_first (has_id (ID v)) (update_first (has_id (ID v)) (fun _ => v) (State_Integrations st)) = Some w -> w = v).
    { intros w. rewrite find_first_update_first; [|intros; apply has_id_true; reflexivity].
      intros (? & _ & ->)%fmap_Some. reflexivity. }
    assert (Hother : forall x w, x <> ID v -> find_first (has_id x) (update_first (has_id (ID v)) (fun _ => v) (State_Integrations st)) = Some w ->
              integration st x = Some w).
    { intros x w Hne. rewrite find_first_update_first_other; [auto|].
      intros y Hy%has_id_true. unfold has_id. rewrite !bool_decide_false by congruence. auto. }
    destruct (replaces_graph _ _ _ _ Hr) as [Hsame|Hv].
    + intros i Hi. apply (Hac i). revert Hi. apply tc_mono. intros x d (w & Hw & Hd).
      destruct (decide (x = ID v)) as [->|Hne]; [|exists w; eauto].
      exists old. split; [apply (replaces_stored _ _ _ _ Hr)|]. rewrite (Hself w Hw) in Hd. congruence.
    + apply (acyclic_replace (depends st) _ (ID v)); [| |exact Hac].
      * intros x d Hne (w & Hw & Hd). exists w; eauto.
      * intros d (w & Hw & Hd). apply Hv. rewrite (Hself w Hw) in Hd. exact Hd.
  - intros i Hi. apply (Hac i). revert Hi. apply tc_mono. intros x d (w & Hw & Hd).
    unfold reopen_integrations in Hw. rewrite find_first_map in Hw. apply fmap_Some in Hw as (w0 & Hw & ->).
    exists w0. split; [|destruct (_ && _) in Hd; exact Hd]. rewrite <- Hw. apply find_first_ext.
    intros y. match goal with |- context [if ?b then _ else _] => destruct b end; reflexivity.
  - intros i Hi. apply (Hac i). revert Hi. apply tc_mono. intros x d (w & Hw & Hd).
    exists w; split; [apply (find_first_filter_ids _ _ _ _ HI Hw)|exact Hd].
Qed.

(** *** Completed features *)
Lemma reactivated_active fid features f : NoDup (map ID (State_Features st)) -> reactivated st fid features ->
  f ∈ features -> Feature_Status f = "completed" -> f ∈ State_Features st /\ ID f <> fid.
Proof.
  intros Hnd (at_ & ->) Hf Hs. unfold reactivate, feature in Hf. destruct (find_first _ (State_Features st)) as [g|] eqn:Eg.
  - destruct (find_first_Some _ _ _ Eg) as [Hg Hgid%has_id_true]. destruct (Feature_Status g == "completed") eqn:Ec.
    + set (r := fun f => f <| Feature_Status := "active" |> <| Feature_Meta ::= touched at_ |>).
      change (f ∈ update_first (has_id fid) r (State_Features st)) in Hf.
      destruct (update_first_insert _ r _ _ Eg) as (k & Hk & E). rewrite E in Hf. clear E.
      apply list_elem_of_lookup in Hf as (j & Hj). apply list_lookup_insert_Some in Hj as [(_ & <- & _)|[Hne Hj]]; [discriminate|].
      split; [eapply list_elem_of_lookup_2, Hj|]. intros Hid. apply Hne.
      apply (NoDup_lookup _ k j fid Hnd); rewrite lookup_map; [rewrite Hk|rewrite Hj]; cbn; congruence.
    + to_prop. split; [exact Hf|]. intros Hid. apply Ec. rewrite <- Hs. f_equal. apply (nodup_map_inj (State_Features st)); congruence || assumption.
  - split; [exact Hf|]. intros Hid. rewrite find_first_None in Eg. specialize (Eg f Hf). unfold has_id in Eg. to_prop. contradiction.
Qed.
Lemma ready_status_settled v : settled_work st v -> ready_status (Integration_Status v) = true.
Proof. unfold ready_status. intros [->|[-> _]]; reflexivity. Qed.
Lemma plan_step_completed features integrations : PlanStep action st features integrations -> PlanIDs st ->
  action <> "set_external_scope" -> CompletedWork st ->
  forall f v, f ∈ features -> Feature_Status f = "completed" -> v ∈ integrations -> FeatureID v = ID f ->
    ready_status (Integration_Status v) = true.
Proof.
  intros Hstep [HF HI] Hact Hcw. destruct Hstep as [|f0 _ Hs0|old f0 _ _ Hc|v0 F _ _ _ Hre|old v0 F Hr|g at_ Ha _ _|p _];
    intros f v Hf Hs Hv Hfid.
  - eapply Hcw; eassumption.
  - apply elem_of_app in Hf as [Hf|Hf%list_elem_of_singleton]; [eapply Hcw; eassumption|subst; contradiction].
  - apply elem_of_update_first in Hf as [Hf|(x & _ & ->)]; [eapply Hcw; eassumption|].
    apply ready_status_settled. apply (Hc Hs); assumption.
  - destruct (reactivated_active _ _ _ HF Hre Hf Hs) as [Hf' Hne].
    apply elem_of_app in Hv as [Hv|Hv%list_elem_of_singleton]; [eapply Hcw; eassumption|subst; congruence].
  - assert (Hf' : f ∈ State_Features st /\ (FeatureID v0 = ID f -> Integration_Status v0 = "ready" \/ Integration_Status v0 = Integration_Status old)).
    { destruct (replaces_reactivates _ _ _ _ Hr) as [[-> Hst]|Hre]; [auto|].
      destruct (reactivated_active _ _ _ HF Hre Hf Hs) as [? ?]. split; [assumption|congruence]. }
    destruct Hf' as [Hf' Hst]. apply elem_of_update_first in Hv as [Hv|(x & _ & ->)]; [eapply Hcw; eassumption|].
    destruct (Hst Hfid) as [-> | ->]; [reflexivity|].
    pose proof (integration_Some _ _ _ (replaces_stored _ _ _ _ Hr)) as [Hold _].
    apply (Hcw f old Hf' Hs Hold). rewrite <- Hfid. symmetry. apply (replaces_feature _ _ _ _ Hr).
  - contradiction.
  - apply elem_of_filter_list in Hf as [Hf _]. apply elem_of_filter_list in Hv as [Hv _]. eapply Hcw; eassumption.
Qed.

(** *** Statuses *)
Lemma elem_of_update_other {A} (p : A -> bool) f l x : x ∈ l -> find_first p l <> Some x -> x ∈ update_first p f l.
Proof using Type.
  induction l as [|y l IH]; cbn; [intros Hx; inversion Hx|].
  destruct (p y); intros [->|Hx]%elem_of_cons Hne.
  - contradiction.
  - right; exact Hx.
  - left.
  - right; auto.
Qed.
Lemma reopened v g at_ : v ∈ reopen_integrations g at_ (State_Integrations st) ->
  v ∈ State_Integrations st \/ Integration_Status v = "working".
Proof.
  intros (w & -> & Hw)%elem_of_map. match goal with |- context [if ?b then _ else _] => destruct b end; auto.
Qed.
Lemma plan_step_released features integrations : PlanStep action st features integrations ->
  (forall v, v ∈ integrations -> Integration_Status v = "released" -> v ∈ State_Integrations st)
  /\ (action <> "delete_product" -> forall v, v ∈ State_Integrations st -> Integration_Status v = "released" -> v ∈ integrations).
Proof.
  intros Hstep. destruct Hstep as [|f0 _ _|old f0 _ _ _|v0 F _ Hs0 _ _|old v0 F Hr|g at_ _ _ _|p Ha]; split; auto.
  - intros v [Hv|Hv%list_elem_of_singleton]%elem_of_app Hs; [exact Hv|subst; congruence].
  - intros _ v Hv _. apply elem_of_app; auto.
  - intros v [Hv|(x & _ & ->)]%elem_of_update_first Hs; [exact Hv|]. destruct (replaces_released _ _ _ _ Hr); contradiction.
  - intros _ v Hv Hs. apply elem_of_update_other; [exact Hv|]. intros E.
    change (integration st (ID v0) = Some v) in E. rewrite (replaces_stored _ _ _ _ Hr) in E.
    destruct (replaces_released _ _ _ _ Hr). congruence.
  - intros v [Hv|E]%reopened Hs; [exact Hv|congruence].
  - intros _ v Hv Hs. apply elem_of_map. exists v; split; [|exact Hv]. rewrite Hs. rewrite andb_false_r. reflexivity.
  - intros v [Hv _]%elem_of_filter_list _. exact Hv.
  - intros; contradiction.
Qed.
Lemma plan_step_ready features integrations : PlanStep action st features integrations ->
  forall v, v ∈ integrations -> Integration_Status v = "ready" ->
    (exists old, old ∈ State_Integrations st /\ ID old = ID v /\ Integration_Status old = "ready")
    \/ exists old, integration st (ID v) = Some old /\ Ready st old.
Proof.
  intros Hstep. destruct Hstep as [|f0 _ _|old f0 _ _ _|v0 F _ Hs0 _ _|old v0 F Hr|g at_ _ _ _|p Ha]; intros v Hv Hs; eauto.
  - apply elem_of_app in Hv as [Hv|Hv%list_elem_of_singleton]; [eauto|subst; congruence].
  - apply elem_of_update_first in Hv as [Hv|(x & _ & ->)]; [eauto|].
    pose proof (replaces_stored _ _ _ _ Hr) as Hold. pose proof (integration_Some _ _ _ Hold) as [? ?].
    destruct (replaces_ready _ _ _ _ Hr Hs); [left|right]; eauto.
  - apply reopened in Hv as [Hv|E]; [eauto|congruence].
  - apply elem_of_filter_list in Hv as [Hv _]. eauto.
Qed.
End invariant.

(** ** Audit *)
Section audit.
Context `{Runtime, Upper, World, MapOrder, Hashing, RestorationEvidence, NetURL, URLs, Operator}.

Definition SameEvents (h : Handler) : Prop :=
  forall st c m st' out m', h st c m = Ok (st', out, m') -> State_Events st' = State_Events st.
Lemma frames_events h : Frames h -> SameEvents h.
Proof. intros Hf st c m st' out m' Hx. apply Hf in Hx. unfold plan_part in Hx. congruence. Qed.
Lemma quiet_events h : Quiet h -> SameEvents h.
Proof. intros Hq st c m st' out m' Hx. apply Hq in Hx. tauto. Qed.
Ltac same_events := let H := fresh in intros ? ? ? ? ? ? H; crunch H; cbn; rewrite ?reactivate_events; reflexivity.
Lemma create_feature_events : SameEvents create_feature.
Proof. unfold create_feature. same_events. Qed.
Lemma update_feature_events : SameEvents update_feature.
Proof. unfold update_feature. same_events. Qed.
Lemma create_integration_events : SameEvents create_integration.
Proof. unfold create_integration. same_events. Qed.
Lemma update_integration_events : SameEvents update_integration.
Proof. unfold update_integration. same_events. Qed.
Lemma transition_integration_events : SameEvents transition_integration.
Proof. intros st c m st' out m' Hx. apply transition_integration_step in Hx as [_ E]. exact E. Qed.
Lemma record_memory_events : SameEvents record_memory.
Proof. intros st c m st' out m' Hx. apply record_memory_step in Hx as [_ E]. exact E. Qed.
Lemma delete_product_events : SameEvents delete_product.
Proof.
  unfold delete_product, deleteProduct. intros st c m st' out m' Hx. apply bind_Ok in Hx as (st1 & Hd & Hx).
  crunch Hx. crunch Hd. reflexivity.
Qed.
Lemma applyExternalSystems_events : SameEvents applyExternalSystems.
Proof. intros st c m st' out m' Hx. apply applyExternalSystems_step in Hx as [_ E]. exact E. Qed.
End audit.
#[export] Hint Resolve frames_events quiet_events create_feature_events update_feature_events create_integration_events
  update_integration_events transition_integration_events record_memory_events delete_product_events
  applyExternalSystems_events : plan.

Section histories.
Context `{Runtime, Upper, MapOrder, Hashing, RestorationEvidence, NetURL, URLs, Operator, Subsystems, !SubsystemLaws}.

Lemma handler_events `{World} c st m st' out m' : handler_of (Command_Action c) st c m = Ok (st', out, m') ->
  State_Events st `prefix_of` State_Events st'
  /\ (Command_Action c <> "create_hotfix" -> State_Events st' = State_Events st).
Proof using All.
  intros Hx. assert (Hsame : forall h, handler_of (Command_Action c) = h -> SameEvents h -> State_Events st' = State_Events st).
  { intros h E Hh. rewrite E in Hx. eapply Hh, Hx. }
  destruct (handler_of_cases (Command_Action c)) as [E|(kv & Hin & Ha & E)].
  { rewrite (Hsame _ E) by eauto with plan. split; [reflexivity|intros _; reflexivity]. }
  unfold handlers in Hin.
  repeat (apply elem_of_cons in Hin as [->|Hin];
    [cbn [fst snd] in Ha, E;
     first [rewrite (Hsame _ E) by eauto with plan; split; [reflexivity|intros _; reflexivity]
           |rewrite E in Hx; exact (flow_logs _ _ _ _ _ _ _ Hx)]|]).
  inversion Hin.
Qed.

(** C20 every accepted change is on the audit trail: a command that changes the
    state appends, after whatever its handler logged, one event with its
    action, its actor and the command itself; the trail before it is kept.
    Only the exact retries of pins and of feature updates write nothing, and
    they change nothing.  Every command but [create_hotfix], which runs one itself, writes that one
    event only. *)
Theorem every_change_is_audited `{World} st c st' out : applyAuthorized st c = Ok (st', out) ->
  st' = st /\ Command_Action c ∈ ["pin_artifact"; "release_artifact_pin"; "update_environment_feature"]
  \/ exists logged e, State_Events st' = State_Events st ++ logged ++ [e]
       /\ (Command_Action c <> "create_hotfix" -> logged = [])
       /\ Event_Action e = Command_Action c /\ Event_Actor e = Command_Actor c /\ Resolves c (Event_Data e).
Proof using All.
  intros Hx. apply applyAuthorized_Ok in Hx as (_ & c' & Hres & [(Ha & -> & _)|(_ & m & _ & Hx)]).
  { left. rewrite Ha. split; [reflexivity|set_solver]. }
  pose proof Hres as (Hact & _ & _ & Hactor & _). rewrite <- Hact, <- Hactor.
  apply run_command_Ok in Hx as [[Hp ->]|(st1 & out1 & m1 & Hh & Hx)]; [left; split; [reflexivity|set_solver]|].
  assert (Hlog : exists logged, State_Events st1 = State_Events st ++ logged /\ (Command_Action c' <> "create_hotfix" -> logged = [])).
  { destruct Hh as [[_ Hframe]|Hh].
    - injection Hframe as _ _ _ _ _ _ _ Hev. exists []. rewrite app_nil_r. auto.
    - destruct (handler_events _ _ _ _ _ _ Hh) as [[logged Hlog] Hnone]. exists logged. split; [exact Hlog|].
      intros Hn. specialize (Hnone Hn). rewrite Hlog in Hnone.
      rewrite <- (app_nil_r (State_Events st)) in Hnone at 2. apply app_inv_head in Hnone. exact Hnone. }
  destruct Hlog as (logged & Hlog & Hnone). right. apply audit_events in Hx as (e & He & E1 & E2 & E3). exists logged, e.
  rewrite He, E1, E2, E3, Hlog, <- app_assoc. repeat split; try apply Hres. exact Hnone.
Qed.

(** ** Refinement *)
Lemma check_identity_fresh `{World} st c c' m : Resolves c c' -> check_identity st c' = Ok () ->
  Meta_ID m = Meta_ID (meta c) -> fresh "meta" 0 ∉ state_ids st ->
  Command_Action c' ∈ creating_actions -> Meta_ID m ∉ state_ids st.
Proof using Type.
  intros (Hact & Hdata & HID & _ & _) Hid Hm Hfresh Ha. rewrite Hm. unfold meta. cbn.
  destruct (Command_ID c == "") eqn:Ec; [exact Hfresh|].
  unfold check_identity, sameDeliveryRetry in Hid. apply reject_if_invalid in Hid.
  rewrite HID, Ec in Hid. cbn [negb andb] in Hid.
  assert (Hc : contains ["deploy_integration"; "deploy_existing_artifact"] (Command_Action c') = false
               /\ contains addressing_actions (Command_Action c') = false).
  { repeat (apply elem_of_cons in Ha as [->|Ha]; [split; reflexivity|]). inversion Ha. }
  destruct Hc as [Hc1 Hc2]. rewrite Hc1, Hc2 in Hid. cbn [negb andb] in Hid. to_prop. exact Hid.
Qed.
Lemma core_command_step `{World} st c st' out : applyAuthorized st c = Ok (st', out) -> AsciiCommand c ->
  fresh "meta" 0 ∉ state_ids st -> PlanStep (Command_Action c) st (State_Features st') (State_Integrations st').
Proof using All.
  intros Hx Hkeys Hfresh. apply applyAuthorized_Ok in Hx as (Hacc & c' & Hres & [(_ & -> & _)|(Hid & m & Hm & Hx)]); [apply plan_none|].
  pose proof Hres as (Ha & Hd & _). pose proof (accepted_plain _ _ Hacc Hkeys) as Hplain. rewrite <- Ha, <- Hd in *.
  apply run_command_Ok in Hx as [[_ ->]|(st1 & out1 & m1 & Hh & Hx)]; [apply plan_none|].
  apply audit_plan in Hx as [-> ->]. destruct Hh as [[_ Hframe]|Hh].
  - apply (frames_step (Command_Action c') st st1 Hframe).
  - apply (planning_handler_steps _ _ _ _ _ _ Hh Hplain). apply (check_identity_fresh _ _ _ _ Hres Hid (proj1 Hm) Hfresh).
Qed.

(** One accepted command, under any clock and any source
    of identifiers that gives an unused one. *)
Definition PlannerStep (st st' : State) : Prop :=
  exists (W : World) c out, AsciiCommand c /\ fresh "meta" 0 ∉ state_ids st /\ applyAuthorized st c = Ok (st', out).

(** C1 every accepted command is one of the abstract steps: it creates, replaces, reopens or deletes features and integrations
    under the conditions [PlanStep] names, and no other way. *)
Theorem commands_refine_plan `{World} st c st' out : applyAuthorized st c = Ok (st', out) ->
  AsciiCommand c -> fresh "meta" 0 ∉ state_ids st ->
  Command_Action c ∈ Actions /\ PlanStep (Command_Action c) st (State_Features st') (State_Integrations st').
Proof using All.
  intros Hx Hc Hfresh. split; [|apply (core_command_step _ _ _ _ Hx Hc Hfresh)].
  apply applyAuthorized_Ok in Hx as [Hacc _]. apply Hacc.
Qed.

(** C19 no history of commands makes integrations depend on each other
    in a cycle, or stores two features or two integrations under one ID. *)
Theorem planning_keeps_graph_acyclic st st' : rtc PlannerStep st st' ->
  PlanIDs st -> Acyclic st -> PlanIDs st' /\ Acyclic st'.
Proof using All.
  intros Hr Hids Hac. apply (rtc_invariant PlannerStep (fun st => PlanIDs st /\ Acyclic st)) with st; [|exact Hr|auto].
  intros x y (W & c & out & Hc & Hfresh & Hx) [Hxi Hxa]. apply core_command_step in Hx; [|assumption..].
  split; [|exact (plan_step_acyclic _ _ _ _ Hx Hxi Hxa)]. apply plan_step_ids in Hx as [? ?]; [constructor; assumption|exact Hxi].
Qed.

Definition KeepingStep (st st' : State) : Prop :=
  exists (W : World) c out, AsciiCommand c /\ fresh "meta" 0 ∉ state_ids st /\ Command_Action c <> "delete_product"
    /\ applyAuthorized st c = Ok (st', out).

(** Released integrations are immutable: through any history of
    commands that deletes no product a released integration stays exactly as
    it is, and no integration becomes released. *)
Theorem released_integrations_frozen st st' : rtc KeepingStep st st' ->
  forall v, Integration_Status v = "released" -> v ∈ State_Integrations st <-> v ∈ State_Integrations st'.
Proof using All.
  intros Hr v Hv. induction Hr as [x|x y z (W & c & out & Hc & Hfresh & Hne & Hx) _ IH]; [reflexivity|].
  rewrite <- IH. apply core_command_step in Hx; [|assumption..].
  apply plan_step_released in Hx as [Hold Hnew]. split; [intros Hin; apply (Hnew Hne v Hin Hv)|intros Hin; apply (Hold v Hin Hv)].
Qed.

(** Readiness is earned: after a command every ready integration
    was already ready, or was ready to the last blocker, finding, gate and
    dependency when the command ran. *)
Theorem ready_is_earned `{World} st c st' out v : applyAuthorized st c = Ok (st', out) ->
  AsciiCommand c -> fresh "meta" 0 ∉ state_ids st ->
  v ∈ State_Integrations st' -> Integration_Status v = "ready" ->
  (exists old, old ∈ State_Integrations st /\ ID old = ID v /\ Integration_Status old = "ready")
  \/ exists old, integration st (ID v) = Some old /\ Ready st old.
Proof using All.
  intros Hx Hc Hfresh. apply core_command_step in Hx; [|assumption..]. apply (plan_step_ready _ _ _ _ Hx).
Qed.

Definition CompletionStep (st st' : State) : Prop :=
  exists (W : World) c out, AsciiCommand c /\ fresh "meta" 0 ∉ state_ids st /\ Command_Action c <> "set_external_scope"
    /\ applyAuthorized st c = Ok (st', out).

(** A completed feature has no unfinished work: through any history of
    commands other than [set_external_scope], every integration of a
    completed feature is ready or released. *)
Theorem completed_features_finished st st' : rtc CompletionStep st st' ->
  PlanIDs st -> CompletedWork st -> CompletedWork st'.
Proof using All.
  intros Hr Hids Hcw. apply (rtc_invariant CompletionStep (fun st => PlanIDs st /\ CompletedWork st)) with st; [|exact Hr|auto].
  intros x y (W & c & out & Hc & Hfresh & Hne & Hx) [Hxi Hxc]. apply core_command_step in Hx; [|assumption..].
  split; [apply plan_step_ids in Hx as [? ?]; [constructor; assumption|exact Hxi]|].
  unfold CompletedWork. apply (plan_step_completed _ _ _ _ Hx Hxi Hne Hxc).
Qed.

(** What every accepted command satisfies: a named actor, a known action,
    no server-managed field under its own name, lower-case keys, [status] and
    [result] only where they are asked for, and no reservation in the way. *)
Theorem accepted_commands_guarded `{World} st c st' out : applyAuthorized st c = Ok (st', out) -> Accepted st c.
Proof using Type. intros Hx. apply applyAuthorized_Ok in Hx. apply Hx. Qed.

(** An operation a command adds carries the reservation epoch its
    environment has when the command ends, so that a later reservation can
    tell it from its own. *)
Theorem added_operations_stamped `{World} st c st' out op e i : applyAuthorized st c = Ok (st', out) ->
  State_Operations st' !! i = Some op -> (length (State_Operations st) <= i)%nat ->
  environmentByID st' (ExternalOperation_EnvironmentID op) = Some e ->
  ExternalOperation_ReservationEpoch op = Environment_ReservationEpoch e.
Proof using Type.
  intros Hx Hop Hi He. pose proof (lookup_lt_Some _ _ _ Hop) as Hlt.
  apply applyAuthorized_Ok in Hx as (_ & c' & _ & [(_ & -> & _)|(_ & m & _ & Hx)]); [lia|].
  apply run_command_Ok in Hx as [[_ ->]|(st1 & out1 & m1 & _ & Hx)]; [lia|]. injection Hx as <- _.
  change (environmentByID st1 (ExternalOperation_EnvironmentID op) = Some e) in He.
  change ((take (length (State_Operations st)) (State_Operations st1)
    ++ map (stamp_epoch st1) (drop (length (State_Operations st)) (State_Operations st1))) !! i = Some op) in Hop.
  apply lookup_app_Some in Hop as [Hop|[_ Hop]].
  { apply lookup_lt_Some in Hop. rewrite length_take in Hop. lia. }
  rewrite lookup_map in Hop. apply fmap_Some in Hop as (op0 & _ & ->). unfold stamp_epoch in *.
  destruct (environmentByID st1 (ExternalOperation_EnvironmentID op0)) as [e0|] eqn:E0.
  - change (environmentByID st1 (ExternalOperation_EnvironmentID op0) = Some e) in He. rewrite E0 in He. injection He as <-. reflexivity.
  - congruence.
Qed.
End histories.
