(* ===== verification/FlowSafety.v ===== *)
(** * What the composition flow does

    The laws of [Subsystems] for the flow of Flow.v ([flow_laws]), so that the
    theorems of Planner.v hold of the whole command handler; what an accepted
    composition or release is ([ComposeQueued]); that a composition is born
    with the lineage its worker will ask for; that promotions happen once; and
    how a feature update is bound to its key, which Interleaving.v carries
    through later commands. *)
From S2P Require Import Prelude GoText GoJson Delivery Domain Status Planning Handlers DeviceAuth Collections ExternalSystems Reservation Composition Conflicts Scenarios Pins WorkerAuth WorkerJobs Publications Registry WorkerProtocol External Candidates Activation FlowGuards Effects Saving SourceRetention Entities Commands Flow Planner.
Open Scope string_scope.
Open Scope list_scope.

(** ** The flow and the plan *)
Section frames.
Context `{Runtime, Upper, World, MapOrder, Hashing, RestorationEvidence, NetURL, URLs, Operator}.

Lemma plan_with_Ok st c m data st' comp : plan_with st c m data = Ok (st', comp) ->
  exists m', plan_composition st ((zero : Command) <| Command_Action := "plan_composition" |> <| Command_Actor := Command_Actor c |>
    <| Command_ProductID := Command_ProductID c |> <| Command_Data := data |>) m = Ok (st', OutComposition comp, m').
Proof.
  unfold plan_with. intros Hx. apply bind_Ok in Hx as ([[st1 out] m'] & Hp & Hx). destruct out; try discriminate.
  injection Hx as <- <-. exists m'. exact Hp.
Qed.
Lemma plan_composition_only st c m st' out m' : plan_composition st c m = Ok (st', out, m') ->
  exists comp, st' = st <| State_Compositions ::= fun l => l ++ [comp] |> /\ out = OutComposition comp /\ m' = m.
Proof. unfold plan_composition. intros Hx. crunch Hx. eexists. repeat split. Qed.
Lemma plan_with_only st c m data st' comp : plan_with st c m data = Ok (st', comp) ->
  st' = st <| State_Compositions ::= fun l => l ++ [comp] |>.
Proof. intros (m' & Hp)%plan_with_Ok. apply plan_composition_only in Hp as (comp' & -> & [= <-] & _). reflexivity. Qed.

(** The composition an operation is queued for is new, or is stored already. *)
Definition planned_new (plan : State -> Command -> Meta -> res (State * Composition * list string * Meta)) : Prop :=
  forall st c m st' comp ids m', plan st c m = Ok (st', comp, ids, m') -> st' = st <| State_Compositions ::= fun l => l ++ [comp] |>.
Ltac planned := let H := fresh in
  intros ? ? ? ? ? ? ? H; crunch H;
  repeat match goal with E : plan_with _ _ _ _ = Ok _ |- _ => apply plan_with_only in E; subst end; reflexivity.
Lemma planFeatureUpdate_new st c m st' comp : planFeatureUpdate st c m = Ok (st', comp) ->
  st' = st <| State_Compositions ::= fun l => l ++ [comp] |>.
Proof.
  unfold planFeatureUpdate. intros Hx. apply bind_Ok in Hx as ([input hash] & _ & Hx). apply bind_Ok in Hx as ([env baseline] & _ & Hx).
  apply bind_Ok in Hx as (components & _ & Hx). exact (plan_with_only _ _ _ _ _ _ Hx).
Qed.
Lemma planned_update_new : planned_new planned_update.
Proof.
  unfold planned_update. intros st c m st' comp ids m' Hx. apply bind_Ok in Hx as ([st1 comp1] & Hp%planFeatureUpdate_new & Hx).
  injection Hx as <- <- _ _. exact Hp.
Qed.
Lemma planned_assembly_new : planned_new planned_assembly.
Proof. unfold planned_assembly. planned. Qed.
Lemma planned_candidate_new : planned_new planned_candidate.
Proof. unfold planned_candidate. planned. Qed.
Lemma planned_composition_only st c m st' comp ids m' : planned_composition st c m = Ok (st', comp, ids, m') ->
  st' = st <| State_Compositions ::= fun l => l ++ [comp] |> /\ Command_Action c <> "reconcile_composition"
  \/ st' = st /\ compositionByID st (Command_ID c) = Some comp.
Proof.
  unfold planned_composition. intros Hx. repeat case_bool_decide.
  - left. split; [exact (planned_update_new _ _ _ _ _ _ _ Hx)|congruence].
  - left. split; [exact (planned_assembly_new _ _ _ _ _ _ _ Hx)|congruence].
  - left. split; [exact (planned_candidate_new _ _ _ _ _ _ _ Hx)|congruence].
  - right. unfold planned_reconcile in Hx. crunch Hx. auto.
Qed.
End frames.

(** ** What an accepted composition is *)
Section queued.
Context `{Runtime, Upper, World, MapOrder, Hashing, RestorationEvidence, NetURL, URLs, Operator}.

(** The deployment prepared for a component is what is configured for it now:
    an enabled target of the right purpose and its source on the configured
    main branch, connected to the product. *)
Definition right_purpose (production : bool) (target : EnvironmentBinding) : Prop :=
  if production then EnvironmentBinding_Purpose target = "PROD" else EnvironmentBinding_Purpose target ∈ ["DEV"; "TEST"].
Record FrozenComponent (st : State) (comp : Composition) (production : bool) (component : CompositionComponent) (snap : DeliverySnapshot) : Prop := {
  frozen_application : applicationByID st (CompositionComponent_ApplicationID component) = Some (DeliverySnapshot_Application snap);
  frozen_build : componentBuild st (ID (DeliverySnapshot_Application snap)) = Some (DeliverySnapshot_Build snap);
  frozen_target : environmentBinding st (Composition_EnvironmentID comp) (ID (DeliverySnapshot_Application snap)) = Some (DeliverySnapshot_Target snap);
  frozen_enabled : EnvironmentBinding_AllowDeploy (DeliverySnapshot_Target snap) = true;
  frozen_purpose : right_purpose production (DeliverySnapshot_Target snap);
  frozen_source : repositoryBinding st (Application_RepositoryID (DeliverySnapshot_Application snap)) = Some (DeliverySnapshot_Source snap);
  frozen_base : CompositionComponent_BaseRef component = configuredBase (DeliverySnapshot_Source snap);
  frozen_gitops : RepositoryBinding_Role (DeliverySnapshot_GitOps snap) = "GITOPS" /\ ProductID (DeliverySnapshot_GitOps snap) = ProductID comp;
  frozen_native : ComponentBuild_Mode (DeliverySnapshot_Build snap) = "NATIVE" -> production = false /\ is_some (DeliverySnapshot_Native snap) = true;
}.
(** What [flowSources] checks of every component. *)
Definition ComponentChecked (st : State) (comp : Composition) (production : bool) (component : CompositionComponent) : Prop :=
  exists app source target, applicationByID st (CompositionComponent_ApplicationID component) = Some app
  /\ source_binding st (Application_RepositoryID app) = Some source
  /\ enabled_target st (Composition_EnvironmentID comp) (ID app) = Some target
  /\ right_purpose production target /\ CompositionComponent_BaseRef component = configuredBase source.
Lemma component_source_checked st comp opID production out component out' :
  component_source st comp opID production out component = Ok out' -> ComponentChecked st comp production component.
Proof.
  unfold component_source, ComponentChecked. destruct (applicationByID _ _) as [app|] eqn:Ea; [|discriminate]. intros Hs.
  apply bind_guard in Hs as [_ Hs]; [|discriminate]. cbv zeta in Hs.
  destruct (source_binding _ _) as [source|] eqn:Es; [|discriminate]. destruct (componentBuild _ _) as [build|]; [|discriminate].
  destruct (enabled_target _ _ _) as [target|] eqn:Et; [|discriminate].
  apply bind_guard in Hs as [_ Hs]; [|discriminate]. apply bind_guard in Hs as [Hprod Hs]; [|discriminate].
  apply bind_guard in Hs as [Hdev Hs]; [|discriminate]. apply bind_guard in Hs as [Hbase _]; [|discriminate].
  exists app, source, target. split; [reflexivity|split; [exact Es|split; [exact Et|split]]].
  - unfold right_purpose. destruct production; cbn in *; to_prop; assumption.
  - to_prop. exact Hbase.
Qed.
Lemma flowSources_checked st comp opID production out : flowSources st comp opID production = Ok out ->
  forall component, component ∈ Composition_Components comp -> ComponentChecked st comp production component.
Proof.
  intros Hf component Hin. destruct (foldM_elem _ _ _ _ _ Hf Hin) as (b1 & b2 & Hb). exact (component_source_checked _ _ _ _ _ _ _ Hb).
Qed.
(** A source of a composition: its own branch, named after the operation, and
    nothing retained yet. *)
Definition FlowSourceOf (st : State) (comp : Composition) (opID : string) (s : FlowSource) : Prop :=
  SourcePlan_OperationID (FlowSource_Plan s) = opID
  /\ SourcePlan_TargetBranch (FlowSource_Plan s) = generated_branch (Composition_EnvironmentID comp) opID (FlowSource_RepositoryID s)
  /\ FlowSource_Retained s = []
  /\ exists component app, component ∈ Composition_Components comp
     /\ applicationByID st (CompositionComponent_ApplicationID component) = Some app
     /\ Application_RepositoryID app = FlowSource_RepositoryID s
     /\ SourcePlan_BaseRef (FlowSource_Plan s) = CompositionComponent_BaseRef component
     /\ SourcePlan_BaseSHA (FlowSource_Plan s) = CompositionComponent_BaseCommit component.
Lemma flowSources_sources st comp opID production out : flowSources st comp opID production = Ok out ->
  NoDup (map FlowSource_RepositoryID out) /\ forall s, s ∈ out -> FlowSourceOf st comp opID s.
Proof.
  unfold flowSources. intros Hf. 
  apply (foldM_ind (fun out => NoDup (map FlowSource_RepositoryID out) /\ forall s, s ∈ out -> FlowSourceOf st comp opID s)) in Hf;
    [exact Hf|split; [apply list.NoDup_nil; exact I|intros s Hs; inversion Hs]|].
  clear Hf. intros acc component acc' Hin [Hnd Hall] Hs. unfold component_source in Hs.
  destruct (applicationByID _ _) as [app|] eqn:Ea; [|discriminate]. apply bind_guard in Hs as [_ Hs]; [|discriminate]. cbv zeta in Hs.
  destruct (source_binding _ _) as [source|]; [|discriminate]. destruct (componentBuild _ _) as [build|]; [|discriminate].
  destruct (enabled_target _ _ _) as [target|]; [|discriminate]. 
  do 5 (apply bind_guard in Hs as [_ Hs]; [|discriminate]).
  destruct (contains (map FlowSource_RepositoryID acc) (Application_RepositoryID app)) eqn:Ec; [injection Hs as <-; auto|].
  apply bind_Ok in Hs as (conn & _ & Hs). apply bind_Ok in Hs as (heads & _ & Hs). injection Hs as <-. split.
  - rewrite List.map_app. apply list.NoDup_app. split; [exact Hnd|split; [|apply list.NoDup_singleton]].
    intros x Hx ->%list_elem_of_singleton. exact (not_listed _ _ Ec Hx).
  - intros s [Hs| ->%list_elem_of_singleton]%elem_of_app; [exact (Hall s Hs)|]. split; [reflexivity|split; [reflexivity|split; [reflexivity|]]].
    exists component, app. auto 6.
Qed.
(** What [prepareFlowDeployments] and the freezing of native authority give. *)
Record Prepared (st : State) (comp : Composition) (component : CompositionComponent) (snap : DeliverySnapshot) : Prop := {
  prepared_application : applicationByID st (CompositionComponent_ApplicationID component) = Some (DeliverySnapshot_Application snap);
  prepared_component : componentBuild st (ID (DeliverySnapshot_Application snap)) = Some (DeliverySnapshot_Build snap);
  prepared_target : environmentBinding st (Composition_EnvironmentID comp) (ID (DeliverySnapshot_Application snap)) = Some (DeliverySnapshot_Target snap);
  prepared_source : repositoryBinding st (Application_RepositoryID (DeliverySnapshot_Application snap)) = Some (DeliverySnapshot_Source snap);
  prepared_role : RepositoryBinding_Role (DeliverySnapshot_GitOps snap) = "GITOPS" /\ ProductID (DeliverySnapshot_GitOps snap) = ProductID comp;
}.
Lemma prepare_component_Ok st comp m acc component acc' : prepare_component st comp m acc component = Ok acc' ->
  exists snap, acc' = acc ++ [snap] /\ Prepared st comp component snap.
Proof.
  unfold prepare_component. destruct (applicationByID _ _) as [app|] eqn:Ea; [|discriminate]. intros Hs.
  do 2 (apply bind_guard in Hs as [_ Hs]; [|discriminate]).
  destruct (repositoryBinding _ _) as [source|] eqn:Es; [|discriminate]. destruct (componentBuild _ _) as [build|] eqn:Eb; [|discriminate].
  destruct (environmentBinding _ _ _) as [target|] eqn:Et; [|discriminate]. destruct (environmentByID _ _) as [env|]; [|discriminate].
  apply bind_Ok in Hs as (gitops & Hg & Hs). apply bind_Ok in Hs as (sc & _ & Hs). apply bind_Ok in Hs as (gc & _ & Hs). injection Hs as <-.
  eexists. split; [reflexivity|]. constructor; try assumption. cbn.
  unfold gitops_binding in Hg. destruct (repositoryBinding st (EnvironmentBinding_RepositoryID target)) as [g|]; [|discriminate].
  apply bind_guard in Hg as [Hg E]; [|discriminate]. injection E as <-. to_prop. tauto.
Qed.
Definition NativeFrozen (production : bool) (snap snap' : DeliverySnapshot) : Prop :=
  snap' = snap /\ ComponentBuild_Mode (DeliverySnapshot_Build snap) <> "NATIVE"
  \/ exists frozen, snap' = snap <| DeliverySnapshot_Native := Some frozen |> /\ production = false.
Lemma freeze_native_Ok st comp m production acc snap acc' : freeze_native st comp m production acc snap = Ok acc' ->
  exists snap', acc' = acc ++ [snap'] /\ NativeFrozen production snap snap'.
Proof.
  unfold freeze_native. cbv zeta. destruct (bool_decide_reflect (ComponentBuild_Mode (DeliverySnapshot_Build snap) = "NATIVE")) as [E|E]; intros Hs.
  - apply bind_guard in Hs as [Hp Hs]; [|discriminate]. apply bind_guard in Hs as [_ Hs]; [|discriminate].
    apply bind_Ok in Hs as (frozen & _ & Hs). injection Hs as <-. eexists. split; [reflexivity|]. right. exists frozen. auto.
  - injection Hs as <-. exists snap. split; [reflexivity|left; auto].
Qed.
Lemma frozen_component st comp production component snap snap' : Prepared st comp component snap -> NativeFrozen production snap snap' ->
  ComponentChecked st comp production component -> FrozenComponent st comp production component snap'.
Proof.
  intros [Ha Hb Ht Hs Hg] Hn (app & source & target & Ea & Es & Et & Hp & Hbase). rewrite Ea in Ha. injection Ha as ->.
  unfold source_binding in Es. rewrite Hs in Es. destruct (IsSourceRole _); [|discriminate]. injection Es as <-.
  unfold enabled_target in Et. rewrite Ht in Et. destruct (EnvironmentBinding_AllowDeploy (DeliverySnapshot_Target snap)) eqn:Hallow; [|discriminate].
  injection Et as <-. destruct Hn as [[-> Hmode]|(frozen & -> & Hprod)]; constructor; auto. contradiction.
Qed.
Lemma freeze_flow_Ok st comp ids m production sources prepared : freeze_flow st comp ids m production = Ok (sources, prepared) ->
  Forall2 (FrozenComponent st comp production) (Composition_Components comp) prepared
  /\ (exists planned, flowSources st comp (Meta_ID m) production = Ok planned /\ attachConflictResolutions st comp planned ids = Ok sources)
  /\ (production = true -> existsb (advancing_main (Meta_ProductID m)) (State_Operations st) = false).
Proof.
  unfold freeze_flow. intros Hs. apply bind_Ok in Hs as (planned & Hf & Hs). apply bind_Ok in Hs as (attached & Ha & Hs).
  apply bind_Ok in Hs as (snaps & Hp & Hs). apply bind_Ok in Hs as (frozen & Hn & Hs).
  apply bind_guard in Hs as [Hmain Hs]; [|discriminate]. injection Hs as <- <-. split; [|split; [eauto|]].
  - unfold prepareFlowDeployments in Hp. apply (foldM_collect (Prepared st comp)) in Hp as (ys & -> & Hys);
      [|intros acc x acc' _; apply prepare_component_Ok].
    apply (foldM_collect (NativeFrozen production)) in Hn as (zs & -> & Hzs); [|intros acc x acc' _; apply freeze_native_Ok].
    cbn [app] in *. pose proof (flowSources_checked _ _ _ _ _ Hf) as Hc. clear - Hys Hzs Hc. revert zs Hzs Hc.
    induction Hys as [|component snap l ys Hy _ IH]; intros zs Hzs Hc; inversion Hzs as [|? snap' ? zs' Hz Hzs']; subst; constructor.
    + apply (frozen_component _ _ _ _ _ _ Hy Hz), Hc. left.
    + apply IH; [exact Hzs'|]. intros component' Hin. apply Hc. right. exact Hin.
  - intros ->. exact Hmain.
Qed.

(** Moving the selection of one environment, exactly one generation on. *)
Definition Selects (st st' : State) (environmentID compositionID operationID : string) : Prop :=
  exists env env', environmentByID st environmentID = Some env /\ environmentByID st' environmentID = Some env'
  /\ Environment_SelectionGeneration env <> max_uint64
  /\ selectionToken env' = mkEnvironmentSelection compositionID operationID (wrap_uint64 (Environment_SelectionGeneration env + 1))
  /\ Environment_ReservationEpoch env' = Environment_ReservationEpoch env
  /\ forall id, id <> environmentID -> environmentByID st' id = environmentByID st id.
Lemma environment_updated st id env env' : environmentByID st id = Some env -> ID env' = id ->
  environmentByID (update_environment_at st id env') id = Some env'.
Proof.
  intros He Hid. change (find_first (has_id id) (update_first (has_id id) (fun _ => env') (State_Environments st)) = Some env').
  change (find_first (has_id id) (State_Environments st) = Some env) in He.
  rewrite find_first_update_first, He; [reflexivity|]. intros x _. apply bool_decide_eq_true, Hid.
Qed.
Lemma environment_other st id id' env' : id' <> id -> ID env' = id ->
  environmentByID (update_environment_at st id env') id' = environmentByID st id'.
Proof.
  intros Hne Hid. change (find_first (has_id id') (update_first (has_id id) (fun _ => env') (State_Environments st))
    = find_first (has_id id') (State_Environments st)).
  apply find_first_update_first_other. intros x Hx. apply bool_decide_eq_true in Hx.
  split; apply bool_decide_eq_false; congruence.
Qed.
Lemma desire_Ok st m compositionID operationID environmentID env st' : environmentByID st environmentID = Some env ->
  desire st m compositionID operationID env = Ok st' ->
  Selects st st' environmentID compositionID operationID /\ exists envs, st' = st <| State_Environments := envs |>.
Proof.
  unfold desire. intros He Hs. apply bind_Ok in Hs as (env' & Ha & Hs). injection Hs as <-.
  assert (Hid : ID env = environmentID) by (apply find_first_Some in He as [_ Hx]; apply bool_decide_eq_true in Hx; exact Hx).
  unfold advanceSelection in Ha. destruct (Z.eqb_spec (Environment_SelectionGeneration env) max_uint64) as [|Hne]; [discriminate|].
  injection Ha as <-. rewrite Hid. split; [|eexists; reflexivity].
  eexists env, _. split; [exact He|]. split; [eapply environment_updated; [exact He|exact Hid]|].
  split; [exact Hne|split; [reflexivity|split; [reflexivity|]]]. intros id Hne'. apply environment_other; [exact Hne'|exact Hid].
Qed.

(** The lineage frozen into a composition: its own root when a person asked
    for it, the proven lineage of its parent when the scheduler refreshes. *)
Definition Born (origin : option composeRefreshOrigin) (st : State) (op : ExternalOperation) : Prop :=
  match origin with
  | None => ExternalOperation_SourceRetentionOriginID op = ID op /\ ExternalOperation_SourceRetentionParentID op = ""
  | Some o => exists parent, parent ∈ State_Operations st /\ ID parent = composeRefreshOrigin_ParentID o
      /\ sourceRetentionProvenance st parent = Ok ()
      /\ ProductID parent = ProductID op /\ ExternalOperation_EnvironmentID parent = ExternalOperation_EnvironmentID op
      /\ ExternalOperation_SourceRetentionOriginID op = ExternalOperation_SourceRetentionOriginID parent
      /\ ExternalOperation_SourceRetentionParentID op = ID parent
  end.
(** The operation bound to the key of a feature update. *)
Definition bound_to (c : Command) (op : ExternalOperation) : Prop :=
  exists input, featureUpdateInput c = Ok (input, ExternalOperation_RequestHash op) /\ ExternalOperation_FeatureUpdate op = Some input
  /\ ExternalOperation_RequestKey op = FeatureUpdateRequest_IdempotencyKey input /\ FeatureID op = Command_FeatureID c.
(** A queued composition ([production] false) or candidate ([production] true). *)
Record FlowQueued (origin : option composeRefreshOrigin) (production : bool) (st st' : State) (c : Command) (comp : Composition) (op : ExternalOperation) : Prop := {
  queued_appended : State_Operations st' = State_Operations st ++ [op];
  queued_kind : ExternalOperation_Kind op = if production then "RELEASE_CANDIDATE" else "COMPOSE";
  queued_pending : ExternalOperation_Status op = "PENDING" /\ ExternalOperation_Phase op = "COMPOSE_SOURCE";
  queued_requester : ExternalOperation_RequestedBy op = Command_Actor c;
  queued_scope : ProductID op = ProductID comp /\ ExternalOperation_EnvironmentID op = Composition_EnvironmentID comp;
  queued_snapshot : ExternalOperation_CompositionSnapshot op = Some comp;
  queued_integrations : ExternalOperation_IntegrationIDs op = selectedIntegrations comp;
  queued_environment : if production then State_Environments st' = State_Environments st
    else reservationFree st (Composition_EnvironmentID comp) = Ok () /\ Selects st st' (Composition_EnvironmentID comp) (ID comp) (ID op);
  queued_deployments : Forall2 (FrozenComponent st comp production) (Composition_Components comp) (ExternalOperation_PreparedDeployments op);
  queued_reviewed : production = false -> forall snap, snap ∈ ExternalOperation_PreparedDeployments op ->
    EnvironmentBinding_GitOpsMode (DeliverySnapshot_Target snap) = "PR";
  queued_repositories : NoDup (map FlowSource_RepositoryID (ExternalOperation_Sources op));
  queued_sources : forall s, s ∈ ExternalOperation_Sources op -> FlowSourceOf st comp (ID op) s;
  queued_pins : production = false -> forall s, s ∈ ExternalOperation_Sources op -> exists intent,
    FlowSource_Retention s = Some intent
    /\ map SourceRevisionRetention_HeadCommit (SourceRetentionIntent_Revisions intent) = SourcePlan_HeadSHAs (FlowSource_Plan s)
    /\ NoDup (SourcePlan_HeadSHAs (FlowSource_Plan s))
    /\ forall v, v ∈ SourceRetentionIntent_Revisions intent -> Retained (ProductID op) comp s v;
  queued_lineage : production = false -> validSourceRetention (now "freezeSourceRetention") op = Ok () /\ Born origin st op;
  queued_main : production = true -> existsb (advancing_main (ProductID op)) (State_Operations st) = false;
  queued_receipt : Command_Action c = "update_environment_feature" -> bound_to c op;
}.
(** Attaching resolutions and freezing intents keep what a source is. *)
Lemma attached_source st comp opID s s' : Attached st comp s s' -> FlowSourceOf st comp opID s ->
  FlowSource_RepositoryID s' = FlowSource_RepositoryID s /\ FlowSourceOf st comp opID s'.
Proof. intros [->|(c & _ & _ & ->)] Hs; [auto|]. split; [reflexivity|exact Hs]. Qed.
Lemma attached_sources st comp opID l l' : Forall2 (Attached st comp) l l' ->
  NoDup (map FlowSource_RepositoryID l) /\ (forall s, s ∈ l -> FlowSourceOf st comp opID s) ->
  NoDup (map FlowSource_RepositoryID l') /\ (forall s, s ∈ l' -> FlowSourceOf st comp opID s).
Proof.
  intros Hf [Hnd Hall].
  enough (map FlowSource_RepositoryID l' = map FlowSource_RepositoryID l /\ forall s, s ∈ l' -> FlowSourceOf st comp opID s) as [E ?]
    by (rewrite E; auto).
  clear Hnd. induction Hf as [|s s' l l' Hs _ IH]; [split; [reflexivity|intros s Hs; inversion Hs]|].
  destruct (attached_source _ _ _ _ _ Hs (Hall s ltac:(left))) as [E Hs'].
  destruct IH as [IHe IHs]; [intros x Hx; apply Hall; right; exact Hx|].
  split; [apply (f_equal2 cons E IHe)|]. intros x [->|Hx]%elem_of_cons; auto.
Qed.

Lemma frozen_intents st op origin op' : freezeSourceRetention st op origin = Ok op' ->
  (exists origins, op' = op <| ExternalOperation_SourceRetentionOriginID := origins.1 |> <| ExternalOperation_SourceRetentionParentID := origins.2 |>
                            <| ExternalOperation_Sources := ExternalOperation_Sources op' |>)
  /\ (exists op1, ExternalOperation_CompositionSnapshot op1 = ExternalOperation_CompositionSnapshot op /\ ProductID op1 = ProductID op
      /\ Forall2 (fun s s' => exists intent, expectedSourceRetention op1 s = Ok intent /\ s' = s <| FlowSource_Retention := Some intent |>)
           (ExternalOperation_Sources op) (ExternalOperation_Sources op'))
  /\ validSourceRetention (now "freezeSourceRetention") op' = Ok ()
  /\ (ExternalOperation_SourceRetentionParentID op = "" -> Born origin st op').
Proof.
  unfold freezeSourceRetention. intros Hs. apply bind_Ok in Hs as (op1 & Hl & Hs). apply bind_Ok in Hs as (sources & Hf & Hs).
  apply bind_Ok in Hs as ([] & Hv & Hs). injection Hs as <-.
  assert (E : exists a b, op1 = op <| ExternalOperation_SourceRetentionOriginID := a |> <| ExternalOperation_SourceRetentionParentID := b |>
    /\ (ExternalOperation_SourceRetentionParentID op = "" -> Born origin st op1)).
  { destruct origin as [origin|].
    - unfold refresh_lineage in Hl. apply bind_guard in Hl as [Hg Hl]; [|discriminate].
      destruct (operationByID _ _) as [parent|] eqn:Ep; [|discriminate]. destruct (refreshed_parent _ _ _) eqn:Er; [|discriminate].
      injection Hl as <-. eexists _, _. split; [reflexivity|]. intros _.
      apply find_first_Some in Ep as [Hin Hid]. apply bool_decide_eq_true in Hid. exists parent.
      unfold refreshed_parent, sourceRetentionRefreshAllowed in Er. rewrite !andb_true_iff in Er. destruct Er as [[[Hp He] Hprov] _]. to_prop.
      destruct (sourceRetentionProvenance st parent) as [[]|]; [|discriminate]. repeat split; assumption.
    - injection Hl as <-. exists (ID op), (ExternalOperation_SourceRetentionParentID op). split; [reflexivity|].
      intros E. split; [reflexivity|exact E]. }
  destruct E as (a & b & -> & Hborn). split; [exists (a, b); reflexivity|split; [|split; [exact Hv|exact Hborn]]].
  eexists. split; [|split; [|apply freeze_sources_Ok; exact Hf]]; reflexivity.
Qed.
Lemma valid_reviewed clock op : validSourceRetention clock op = Ok () -> forall snap, snap ∈ ExternalOperation_PreparedDeployments op ->
  retained_target snap = true.
Proof.
  unfold validSourceRetention. intros Hv. cbv zeta in Hv. apply bind_guard in Hv as [_ Hv]; [|discriminate].
  apply bind_guard in Hv as [Hall%negb_false_iff _]; [|discriminate]. apply forallb_elem, Hall.
Qed.

(** The receipt of a feature update touches nothing else of the operation. *)
Lemma receipt_Ok c op m op' m' : receipt c op m = Ok (op', m') ->
  (op', m') = (op, m) /\ Command_Action c <> "update_environment_feature"
  \/ Command_Action c = "update_environment_feature" /\ exists input hash, featureUpdateInput c = Ok (input, hash)
     /\ op' = op <| ExternalOperation_FeatureUpdate := Some input |>
                 <| ExternalOperation_RequestKey := FeatureUpdateRequest_IdempotencyKey input |> <| ExternalOperation_RequestHash := hash |>
                 <| ExternalOperation_Meta ::= fun mt => mt <| Meta_FeatureID := Command_FeatureID c |> |>
     /\ m' = m <| Meta_FeatureID := Command_FeatureID c |>.
Proof.
  unfold receipt. case_bool_decide as E; intros Hs.
  - right. split; [exact E|]. apply bind_Ok in Hs as ([input hash] & Hi & Hs). injection Hs as <- <-. eauto 6.
  - left. injection Hs as <- <-. auto.
Qed.
Lemma pinned_sources st comp opID op1 sources pinned :
  Forall2 (fun s s' => exists intent, expectedSourceRetention op1 s = Ok intent /\ s' = s <| FlowSource_Retention := Some intent |>) sources pinned ->
  NoDup (map FlowSource_RepositoryID sources) -> (forall s, s ∈ sources -> FlowSourceOf st comp opID s) ->
  ExternalOperation_CompositionSnapshot op1 = Some comp ->
  NoDup (map FlowSource_RepositoryID pinned) /\ (forall s, s ∈ pinned -> FlowSourceOf st comp opID s)
  /\ forall s, s ∈ pinned -> exists intent, FlowSource_Retention s = Some intent
     /\ map SourceRevisionRetention_HeadCommit (SourceRetentionIntent_Revisions intent) = SourcePlan_HeadSHAs (FlowSource_Plan s)
     /\ NoDup (SourcePlan_HeadSHAs (FlowSource_Plan s))
     /\ forall v, v ∈ SourceRetentionIntent_Revisions intent -> Retained (ProductID op1) comp s v.
Proof.
  intros Hf Hnd Hall Hc.
  enough (map FlowSource_RepositoryID pinned = map FlowSource_RepositoryID sources
    /\ forall s, s ∈ pinned -> FlowSourceOf st comp opID s /\ exists intent, FlowSource_Retention s = Some intent
     /\ map SourceRevisionRetention_HeadCommit (SourceRetentionIntent_Revisions intent) = SourcePlan_HeadSHAs (FlowSource_Plan s)
     /\ NoDup (SourcePlan_HeadSHAs (FlowSource_Plan s))
     /\ forall v, v ∈ SourceRetentionIntent_Revisions intent -> Retained (ProductID op1) comp s v) as [E Hs].
  { rewrite E. split; [exact Hnd|split; intros s Hin; apply (Hs s Hin)]. }
  clear Hnd. induction Hf as [|s s' l l' (intent & Hi & ->) _ IH]; [split; [reflexivity|intros s Hs; inversion Hs]|].
  destruct IH as [IHe IHs]; [intros x Hx; apply Hall; right; exact Hx|].
  split; [apply (f_equal2 cons eq_refl IHe)|]. intros x [->|Hx]%elem_of_cons; [|exact (IHs x Hx)].
  split; [exact (Hall s ltac:(left))|]. exists intent. split; [reflexivity|].
  apply expected_intent_exact in Hi as (comp' & Hc' & _ & Hheads & Hdist & Hret). rewrite Hc in Hc'. injection Hc' as <-.
  split; [exact Hheads|split; [exact Hdist|]]. intros v Hv. exact (Hret v Hv).
Qed.
Lemma queue_composition_Ok origin production st comp ids c m st' out m' :
  queue_composition origin production st comp ids c m = Ok (st', out, m') ->
  exists op, out = OutOperation op /\ FlowQueued origin production st st' c comp op
  /\ ID op = Meta_ID m /\ Meta_ID m' = Meta_ID m /\ Meta_ProductID m' = ProductID comp
  /\ (exists envs, st' = st <| State_Environments := envs |> <| State_Operations ::= fun l => l ++ [op] |>).
Proof.
  unfold queue_composition. intros Hs. apply bind_Ok in Hs as (env & He & Hs). apply bind_Ok in Hs as ([] & Hsel & Hs). cbv zeta in Hs.
  set (mt := m <| Meta_ProductID := ProductID comp |> <| Meta_FeatureID := "" |>) in *.
  apply bind_Ok in Hs as ([sources prepared] & Hf & Hs). apply bind_Ok in Hs as (st1 & Hd & Hs).
  apply bind_Ok in Hs as ([op0 m0] & Hr & Hs). apply bind_Ok in Hs as (op & Hz & Hs). injection Hs as <- <- <-.
  apply freeze_flow_Ok in Hf as (Hdep & (planned & Hplan & Hatt) & Hmain).
  apply flowSources_sources in Hplan. apply attached_resolutions_verified in Hatt.
  destruct (attached_sources _ _ _ _ _ Hatt Hplan) as [Hrepos Hsources]. clear Hatt Hplan.
  assert (Henv : environmentByID st (Composition_EnvironmentID comp) = Some env).
  { unfold unchanged_target in He. destruct (environmentByID _ _); [|discriminate]. apply bind_guard in He as [_ He]; [|discriminate]. congruence. }
  assert (Hst1 : exists envs, st1 = st <| State_Environments := envs |>).
  { destruct production; [injection Hd as <-; exists (State_Environments st); reflexivity|]. apply (desire_Ok _ _ _ _ _ _ _ Henv Hd). }
  destruct Hst1 as (envs & Hst1).
  assert (Hop0 : exists a b d f, op0 = (flow_operation c mt (if production then "RELEASE_CANDIDATE" else "COMPOSE") "COMPOSE_SOURCE" comp sources prepared
      (selectedIntegrations comp) (now "applyFlow" 0)) <| ExternalOperation_ReleaseNotesIntentHash := releaseNotesIntentHash st1 comp |>
      <| ExternalOperation_FeatureUpdate := a |> <| ExternalOperation_RequestKey := b |> <| ExternalOperation_RequestHash := d |>
      <| ExternalOperation_Meta ::= fun mt => mt <| Meta_FeatureID := f |> |>
      /\ (Command_Action c = "update_environment_feature" -> exists input, featureUpdateInput c = Ok (input, d) /\ a = Some input
          /\ b = FeatureUpdateRequest_IdempotencyKey input /\ f = Command_FeatureID c)).
  { apply receipt_Ok in Hr as [[[= -> _] Hne]|(_ & input & hash & Hi & -> & _)];
      [exists None, "", "", ""|exists (Some input), (FeatureUpdateRequest_IdempotencyKey input), hash, (Command_FeatureID c)];
      (split; [reflexivity|]); [contradiction|eauto]. }
  assert (Hm0 : Meta_ID m0 = Meta_ID m /\ Meta_ProductID m0 = ProductID comp).
  { apply receipt_Ok in Hr as [[[= _ ->] _]|(_ & input & hash & _ & _ & ->)]; split; reflexivity. }
  exists op. split; [reflexivity|]. destruct Hop0 as (a & b & d & f & Hop0 & Hbound). destruct production.
  - injection Hz as <-. injection Hd as <-. rewrite Hop0. clear Hop0 Hr. split.
    + constructor; try reflexivity; try discriminate; auto.
    + split; [reflexivity|]. destruct Hm0. split; [assumption|split; [assumption|]]. exists (State_Environments st). reflexivity.
  - destruct (desire_Ok _ _ _ _ _ _ _ Henv Hd) as [Hselects _].
    apply frozen_intents in Hz as ((origins & Hop) & (op1 & Ec & Ep & Hpins) & Hvalid & Hborn). revert Hop Hpins Hvalid Hborn.
    generalize (ExternalOperation_Sources op). intros pinned Hop Hpins Hvalid Hborn. rewrite Hop0 in Hop, Ec, Ep, Hpins, Hborn. clear Hop0 Hr.
    pose proof (valid_reviewed _ _ Hvalid) as Hreviewed. subst op. destruct Hm0 as [Hm1 Hm2]. subst st1. split.
    + constructor; try reflexivity; try discriminate.
      * split; reflexivity.
      * split; reflexivity.
      * split; [|exact Hselects]. unfold selectionAllowed in Hsel. apply bind_unit in Hsel as [Hsel _].
        assert (Hid : ID env = Composition_EnvironmentID comp)
          by (apply find_first_Some in Henv as [_ Hx]; apply bool_decide_eq_true in Hx; exact Hx).
        rewrite <- Hid. exact Hsel.
      * exact Hdep.
      * intros _ snap Hin. specialize (Hreviewed snap Hin). unfold retained_target in Hreviewed. cbv zeta in Hreviewed.
        rewrite !andb_true_iff in Hreviewed. destruct Hreviewed as [[_ Hpr] _]. to_prop. exact Hpr.
      * destruct (pinned_sources _ _ _ _ _ _ Hpins Hrepos Hsources Ec) as (? & ? & Hp); rewrite Ep in Hp; assumption.
      * destruct (pinned_sources _ _ _ _ _ _ Hpins Hrepos Hsources Ec) as (? & ? & Hp); rewrite Ep in Hp; assumption.
      * intros _. destruct (pinned_sources _ _ _ _ _ _ Hpins Hrepos Hsources Ec) as (? & ? & Hp); rewrite Ep in Hp; assumption.
      * intros _. split; [exact Hvalid|exact (Hborn eq_refl)].
      * intros E. destruct (Hbound E) as (input & Hi & Ea & Eb & Ef). exists input. auto.
    + split; [reflexivity|split; [exact Hm1|split; [exact Hm2|]]]. exists envs. reflexivity.
Qed.
End queued.

(** ** The lineage a composition is born with *)
Section born.
Context `{Runtime, Upper, World, MapOrder, Hashing, RestorationEvidence, NetURL, URLs, Operator}.

Lemma Only_append {A} (p : A -> bool) l x i y : Only p l i y -> p x = false -> Only p (l ++ [x]) i y.
Proof. intros Hi Hx. apply Only_snoc. left. auto. Qed.
Lemma Only_last {A} (p : A -> bool) l x : NoneOf p l -> p x = true -> Only p (l ++ [x]) (length l) x.
Proof. intros Hl Hx. apply Only_snoc. right. auto. Qed.

Section extends.
Context (clock : ExternalOperation -> nat -> Time) (st st' : State) (new : ExternalOperation) (event : Event).
Hypothesis appended : State_Operations st' = State_Operations st ++ [new].
Hypothesis logged : State_Events st' = State_Events st ++ [event].
Hypothesis names : Event_EntityID event = ID new.
Hypothesis no_restore : is_restore event = false.
Hypothesis unused : forall op, op ∈ State_Operations st -> ID op <> ID new.

Lemma lone_member op : lone st op -> op ∈ State_Operations st.
Proof using Type. intros (i & Hi & _). exact (list_elem_of_lookup_2 _ _ _ Hi). Qed.
Lemma lone_extends op : lone st op -> lone st' op.
Proof using appended unused.
  intros Hl. pose proof (unused op (lone_member op Hl)) as Hne. destruct Hl as [i Hi]. exists i. rewrite appended.
  apply Only_append; [exact Hi|]. apply bool_decide_eq_false. congruence.
Qed.
Lemma proven_extends i op : op ∈ State_Operations st -> ProvenAt st i op -> ProvenAt st' i op.
Proof using appended logged names no_restore unused.
  intros Hin [(e & He & Hs) Hr]. split.
  - exists e. split; [|exact Hs]. rewrite logged. apply Only_append; [exact He|]. unfold asks_for. rewrite names.
    rewrite (bool_decide_false (ID new = ID op)); [apply andb_false_r|]. intros E. apply (unused op Hin). symmetry. exact E.
  - intros j e' Hj Hre. rewrite logged in Hj. apply lookup_snoc_cases in Hj as [Hj|[_ ->]]; [exact (Hr j e' Hj Hre)|congruence].
Qed.
(** The lineage of an operation is that of any other start of its scope. *)
Definition same_lineage (start start' : ExternalOperation) : Prop :=
  ProductID start' = ProductID start /\ ExternalOperation_EnvironmentID start' = ExternalOperation_EnvironmentID start
  /\ ExternalOperation_SourceRetentionOriginID start' = ExternalOperation_SourceRetentionOriginID start.
Lemma lineage_extends start start' child op : same_lineage start start' ->
  Lineage clock st start child op -> Lineage clock st' start' child op.
Proof using appended logged names no_restore unused.
  intros (E1 & E2 & E3). assert (Hm : forall op, lineage_member (clock op) start op = true -> lineage_member (clock op) start' op = true)
    by (intros x; unfold lineage_member; rewrite E1, E2, E3; auto).
  induction 1 as [child op i Hl Hmem Hat Hlt Hroot Hid|child op i parent Hl Hmem Hat Hlt Hroot Hid _ IH].
  - eapply lineage_root; eauto using lone_extends, proven_extends, lone_member. congruence.
  - eapply lineage_child; eauto using lone_extends, proven_extends, lone_member.
Qed.
End extends.

(** Without observations the clock does not matter, and neither does the epoch
    the audit stamps. *)
Lemma foldM_ext {A B} (f g : B -> A -> res B) l b : (forall b x, x ∈ l -> f b x = g b x) -> foldM f b l = foldM g b l.
Proof.
  revert b; induction l as [|x l IH]; intros b Hfg; cbn; [reflexivity|]. rewrite Hfg by left.
  destruct (g b x); cbn; [|reflexivity]. apply IH. intros b' y Hy. apply Hfg. right. exact Hy.
Qed.
Lemma valid_unobserved clock clock' op epoch :
  validSourceRetention clock op = Ok () -> (forall s, s ∈ ExternalOperation_Sources op -> FlowSource_Retained s = []) ->
  validSourceRetention clock' (op <| ExternalOperation_ReservationEpoch := epoch |>) = Ok ().
Proof.
  intros Hv Hs. change (validSourceRetention clock' op = Ok ()). rewrite <- Hv. unfold validSourceRetention.
  rewrite (foldM_ext (valid_source clock op) (valid_source clock' op)); [reflexivity|].
  intros acc s Hin. unfold valid_source. rewrite (Hs s Hin).
  destruct (expectedSourceRetention op s) as [intent|]; [|reflexivity].
  assert (E : zip (SourceRetentionIntent_Revisions intent) ([] : list SourceRetentionObservation) = [])
    by (destruct (SourceRetentionIntent_Revisions intent); reflexivity).
  cbn [mbind res_bind]. rewrite E. reflexivity.
Qed.

(** *** The environment and the product a composition is for *)
Lemma composition_data_plain e name components b : plain_keys (composition_data e name components b).
Proof.
  intros key [v Hv]%bool_decide_eq_true. apply elem_of_list_to_map_2 in Hv.
  destruct b; repeat (apply elem_of_cons in Hv as [[= -> _]|Hv]; [reflexivity|]); inversion Hv.
Qed.
Lemma composition_data_environment e name components b : data_string (composition_data e name components b) "environment_id" = e.
Proof. unfold data_string, composition_data. cbn [app list_to_map foldr uncurry]. rewrite lookup_insert_eq. reflexivity. Qed.
Lemma plan_composition_scope st c m st' comp m' : plan_composition st c m = Ok (st', OutComposition comp, m') -> plain_keys (Command_Data c) ->
  Composition_Meta comp = m /\ Composition_EnvironmentID comp = data_string (Command_Data c) "environment_id".
Proof.
  unfold plan_composition. intros Hx Hd. apply bind_Ok in Hx as (input & Hi & Hx).
  apply (decode_reads CompositionInput_EnvironmentID "environment_id") in Hi; [|keeps_fields|reads_fields|exact Hd|reflexivity].
  rewrite <- Hi. clear Hi. crunch Hx. split; reflexivity.
Qed.
Lemma plan_with_scope st c m e name components b st' comp : plan_with st c m (composition_data e name components b) = Ok (st', comp) ->
  Composition_Meta comp = m /\ Composition_EnvironmentID comp = e.
Proof.
  intros (m' & Hp)%plan_with_Ok. apply plan_composition_scope in Hp as [-> He]; [|apply composition_data_plain].
  split; [reflexivity|]. rewrite He. apply composition_data_environment.
Qed.
Lemma environment_id_of st id env : environmentByID st id = Some env -> ID env = id.
Proof. intros [_ Hx]%find_first_Some. apply bool_decide_eq_true in Hx. exact Hx. Qed.
Lemma featureUpdateInput_environment c input hash : featureUpdateInput c = Ok (input, hash) -> plain_keys (Command_Data c) ->
  FeatureUpdateRequest_EnvironmentID input = data_string (Command_Data c) "environment_id".
Proof.
  unfold featureUpdateInput. intros Hx Hd. apply bind_guard in Hx as [_ Hx]; [|discriminate].
  apply bind_Ok in Hx as (input' & Hi & Hx).
  apply (decode_reads FeatureUpdateRequest_EnvironmentID "environment_id") in Hi; [|keeps_fields|reads_fields|exact Hd|reflexivity].
  rewrite <- Hi. clear Hi. crunch Hx. reflexivity.
Qed.
Lemma update_scope_environment st c input env baseline : update_scope st c input = Ok (env, baseline) ->
  ID env = FeatureUpdateRequest_EnvironmentID input.
Proof.
  unfold update_scope. destruct (feature _ _) as [f|]; [|discriminate].
  destruct (environmentByID _ _) as [env'|] eqn:He; [|discriminate]. intros Hx. apply environment_id_of in He. rewrite <- He. clear He.
  crunch Hx. reflexivity.
Qed.
Lemma planned_scope st c m st1 comp ids m1 : planned_composition st c m = Ok (st1, comp, ids, m1) ->
  plain_keys (Command_Data c) -> Meta_ProductID m = Command_ProductID c -> Command_Action c <> "prepare_release_candidate" ->
  Command_Action c ∈ compose_actions ->
  Meta_ID m1 = fresh (Command_Action c) 0
  /\ (Command_ProductID c = "" \/ Command_ProductID c = ProductID comp)
  /\ (if Command_Action c == "reconcile_composition" then Command_ID c = ID comp
      else data_string (Command_Data c) "environment_id" = Composition_EnvironmentID comp).
Proof.
  unfold planned_composition. intros Hx Hd Hp Hne Ha. rewrite (bool_decide_false (_ = "prepare_release_candidate")) in Hx by exact Hne.
  destruct (bool_decide_reflect (Command_Action c = "update_environment_feature")) as [E|E].
  { rewrite E in *. apply bind_Ok in Hx as ([st2 comp2] & Hu & Hx). injection Hx as <- <- _ <-. split; [reflexivity|].
    unfold planFeatureUpdate in Hu. apply bind_Ok in Hu as ([input hash] & Hi & Hu). apply bind_Ok in Hu as ([env baseline] & Hs & Hu).
    apply bind_Ok in Hu as (components & _ & Hu). apply plan_with_scope in Hu as [Hm He]. split; [right; rewrite <- Hp, <- Hm; reflexivity|].
    cbn. rewrite He, (update_scope_environment _ _ _ _ _ Hs). symmetry. exact (featureUpdateInput_environment _ _ _ Hi Hd). }
  destruct (bool_decide_reflect (Command_Action c = "assemble_environment")) as [E'|E'].
  { rewrite E' in *. unfold planned_assembly in Hx. apply bind_Ok in Hx as (input & Hi & Hx). cbv zeta in Hx.
    apply (decode_reads AssembleInput_EnvironmentID "environment_id") in Hi; [|keeps_fields|reads_fields|exact Hd|reflexivity].
    apply bind_Ok in Hx as ([] & _ & Hx). apply bind_Ok in Hx as (components & _ & Hx). apply bind_Ok in Hx as ([st2 comp2] & Hu & Hx).
    injection Hx as <- <- _ <-. split; [reflexivity|]. apply plan_with_scope in Hu as [Hm He].
    split; [right; rewrite <- Hp, <- Hm; reflexivity|]. cbn. rewrite He. symmetry. exact Hi. }
  assert (Er : Command_Action c = "reconcile_composition").
  { repeat (apply elem_of_cons in Ha as [Ha|Ha]; [congruence|]). inversion Ha. }
  rewrite Er in *. unfold planned_reconcile in Hx. apply bind_Ok in Hx as (input & _ & Hx).
  destruct (compositionByID _ _) as [comp'|] eqn:Ec; [|discriminate]. apply bind_guard in Hx as [Hg Hx]; [|discriminate].
  injection Hx as <- <- _ <-. split; [reflexivity|split].
  - destruct (decide (Command_ProductID c = "")) as [|Hc]; [left; assumption|right]. apply andb_false_iff in Hg. to_prop.
    destruct Hg as [Hg|Hg]; to_prop; [contradiction|exact Hg].
  - cbn. apply find_first_Some in Ec as [_ Hc]. apply bool_decide_eq_true in Hc. symmetry. exact Hc.
Qed.
End born.

(** ** The laws of the flow *)
Section laws.
Context `{Runtime, Upper, MapOrder, Hashing, RestorationEvidence, NetURL, URLs, Operator}.

Lemma compose_flow_Ok `{World} origin st c m st' out m' : compose_flow origin st c m = Ok (st', out, m') ->
  exists st1 comp ids m1 op, planned_composition st c m = Ok (st1, comp, ids, m1) /\ out = OutOperation op
  /\ FlowQueued origin (Command_Action c == "prepare_release_candidate") st1 st' c comp op
  /\ ID op = Meta_ID m1 /\ Meta_ID m' = Meta_ID m1 /\ Meta_ProductID m' = ProductID comp
  /\ exists envs, st' = st1 <| State_Environments := envs |> <| State_Operations ::= fun l => l ++ [op] |>.
Proof.
  unfold compose_flow. intros Hx. apply bind_Ok in Hx as ([[[st1 comp] ids] m1] & Hp & Hx).
  apply queue_composition_Ok in Hx as (op & Ho & Hq & Hrest). exists st1, comp, ids, m1, op. auto.
Qed.
Lemma compose_flow_frames `{World} origin : Frames (compose_flow origin).
Proof.
  intros st c m st' out m' Hx. apply compose_flow_Ok in Hx as (st1 & comp & ids & m1 & op & Hp & _ & _ & _ & _ & _ & envs & ->).
  apply planned_composition_only in Hp as [[-> _]|[-> _]]; reflexivity.
Qed.
Lemma record_runtime_observation_frames `{World} : Frames record_runtime_observation.
Proof. unfold record_runtime_observation. intros st c m st' out m' Hx. crunch Hx. reflexivity. Qed.
Lemma promote_Ok `{World} st c m st' out m' : promote_release_candidate st c m = Ok (st', out, m') ->
  exists candidate comp op, operationByID st (Command_ID c) = Some candidate /\ completed_candidate candidate = Some comp
  /\ releaseWorkReady st comp = Ok () /\ scenarioCandidateReady st (ID candidate) = Ok ()
  /\ existsb (promotes (ID candidate)) (State_Operations st) = false
  /\ out = OutOperation op /\ promotes (ID candidate) op = true
  /\ ID op = fresh "promote_release_candidate" 0 /\ ProductID op = ProductID candidate
  /\ ExternalOperation_EnvironmentID op = ExternalOperation_EnvironmentID candidate
  /\ ExternalOperation_CompositionSnapshot op = Some comp /\ ExternalOperation_Sources op = ExternalOperation_Sources candidate
  /\ ExternalOperation_PreparedDeployments op = ExternalOperation_PreparedDeployments candidate
  /\ ExternalOperation_IntegrationIDs op = ExternalOperation_IntegrationIDs candidate
  /\ Selects st st' (ExternalOperation_EnvironmentID op) (ID comp) (ID op)
  /\ exists envs, st' = st <| State_Environments := envs |> <| State_Operations ::= fun l => l ++ [op] |>.
Proof.
  unfold promote_release_candidate. intros Hx. apply bind_Ok in Hx as (input & _ & Hx). apply bind_guard in Hx as [_ Hx]; [|discriminate].
  destruct (operationByID _ _) as [candidate|] eqn:Eo; [|discriminate]. destruct (completed_candidate candidate) as [comp|] eqn:Ec; [|discriminate].
  apply bind_guard in Hx as [_ Hx]; [|discriminate]. apply bind_Ok in Hx as ([] & _ & Hx). apply bind_Ok in Hx as ([] & Hr & Hx).
  apply bind_Ok in Hx as ([] & Hs & Hx). apply bind_guard in Hx as [Hnew Hx]; [|discriminate]. cbv zeta in Hx.
  destruct (environmentByID _ _) as [env|] eqn:Ee; [|discriminate]. apply bind_Ok in Hx as ([] & _ & Hx).
  apply bind_Ok in Hx as (st1 & Hd & Hx). injection Hx as <- <- _.
  destruct (desire_Ok _ _ _ _ _ _ _ Ee Hd) as [Hsel (envs & ->)].
  eexists candidate, comp, _. split; [reflexivity|split; [exact Ec|split; [exact Hr|split; [exact Hs|split; [exact Hnew|split; [reflexivity|]]]]]].
  split; [apply andb_true_iff; split; apply bool_decide_eq_true; reflexivity|].
  do 7 (split; [reflexivity|]). split; [exact Hsel|]. exists envs. reflexivity.
Qed.
Lemma promote_frames `{World} : Frames promote_release_candidate.
Proof.
  intros st c m st' out m' Hx. apply promote_Ok in Hx as (candidate & comp & op & Hx). 
  destruct Hx as (_ & _ & _ & _ & _ & _ & _ & _ & _ & _ & _ & _ & _ & _ & _ & envs & ->). reflexivity.
Qed.

(** A hotfix creates one integration, by a command of its own that is logged. *)
Lemma update_first_last {A} (p : A -> bool) f l x : find_first p l = None -> p x = true -> update_first p f (l ++ [x]) = l ++ [f x].
Proof.
  intros Hl Hx. induction l as [|y l IH]; cbn in *; [rewrite Hx; reflexivity|].
  destruct (p y); [discriminate|]. rewrite IH by exact Hl. reflexivity.
Qed.
Lemma nested_integration `{World} st c m st1 out1 input : apply_nested st (hotfix_command c m input) = Ok (st1, out1) ->
  exists v event, State_Integrations st1 = State_Integrations st ++ [v] /\ Integration_Status v = "planned"
    /\ (forall d, d ∈ Integration_Dependencies v -> ~ rtc (depends st) d (ID v)) /\ reactivated st (FeatureID v) (State_Features st1)
    /\ State_Events st1 = State_Events st ++ [event].
Proof.
  unfold apply_nested. intros Hn. apply applyAuthorized_Ok in Hn as (_ & c' & Hres & [[E _]|(_ & m1 & _ & Hr)]); [discriminate|].
  pose proof (proj1 Hres) as Ha. change (Command_Action c' = "create_integration") in Ha.
  apply run_command_Ok in Hr as [[Hpin _]|(st2 & out2 & m2 & [[Hpin _]|Hh] & Haud)].
  1,2: rewrite Ha in Hpin; exfalso; revert Hpin; apply not_listed; reflexivity.
  rewrite Ha in Hh.
  match type of Hh with handler_of _ ?s ?k ?mt = ?r => change (create_integration s k mt = r) in Hh end.
  apply create_integration_adds in Hh as (v & Hv & _ & Hs & Hd & Hf & He).
  destruct (audit_plan _ _ _ _ _ _ _ Haud) as [-> ->]. destruct (audit_events _ _ _ _ _ _ _ Haud) as (event & -> & _).
  exists v, event. rewrite He. auto.
Qed.
Lemma create_hotfix_Ok `{World} st c m st' out m' : create_hotfix st c m = Ok (st', out, m') ->
  exists v event, (Meta_ID m ∉ map ID (State_Integrations st) -> State_Integrations st' = State_Integrations st ++ [v] /\ ID v = Meta_ID m)
    /\ Integration_Status v = "planned" /\ Integration_Kind v = "hotfix"
    /\ (forall d, d ∈ Integration_Dependencies v -> ~ rtc (depends st) d (ID v)) /\ reactivated st (FeatureID v) (State_Features st')
    /\ State_Events st' = State_Events st ++ [event].
Proof.
  unfold create_hotfix. intros Hx. apply bind_Ok in Hx as (input & _ & Hx). apply bind_guard in Hx as [_ Hx]; [|discriminate].
  apply bind_Ok in Hx as ([st1 out1] & Hn & Hx). destruct (integration st1 (Meta_ID m)) as [created|] eqn:Ec; [|discriminate].
  injection Hx as <- _ _. apply nested_integration in Hn as (v & event & Hv & Hs & Hd & Hf & He).
  exists (v <| Integration_Kind := "hotfix" |> <| Integration_FixesFindingID := HotfixInput_FindingID input |>), event.
  split; [|split; [exact Hs|split; [reflexivity|split; [exact Hd|split; [exact Hf|exact He]]]]]. intros Hfresh.
  unfold integration in Ec. rewrite Hv in Ec.
  assert (Hnone : find_first (has_id (Meta_ID m)) (State_Integrations st) = None).
  { apply find_first_None. intros w Hw. apply bool_decide_eq_false. intros E. apply Hfresh. rewrite <- E. apply elem_of_map. eauto. }
  rewrite find_first_app, Hnone in Ec. cbn in Ec. destruct (has_id (Meta_ID m) v) eqn:Hid; [|discriminate]. injection Ec as <-.
  split; [|apply bool_decide_eq_true in Hid; exact Hid].
  match goal with |- State_Integrations (_ <| State_Integrations ::= ?f |>) = _ => change (f (State_Integrations st1) = State_Integrations st ++ [v <| Integration_Kind := "hotfix" |> <| Integration_FixesFindingID := HotfixInput_FindingID input |>]) end.
  rewrite Hv. cbv beta.
  exact (update_first_last _ (fun _ => v <| Integration_Kind := "hotfix" |> <| Integration_FixesFindingID := HotfixInput_FindingID input |>) _ _ Hnone Hid).
Qed.
Lemma flow_handler_cases `{World} origin st c m st' out m' : flow_handler origin st c m = Ok (st', out, m') ->
  Command_Action c = "create_hotfix" /\ create_hotfix st c m = Ok (st', out, m')
  \/ Command_Action c <> "create_hotfix" /\ plan_part st' = plan_part st.
Proof.
  unfold flow_handler. intros Hx. destruct (bool_decide_reflect (Command_Action c = "create_hotfix")) as [E|E]; [left; auto|].
  right. split; [exact E|]. destruct (Command_Action c == "record_runtime_observation"); [exact (record_runtime_observation_frames _ _ _ _ _ _ Hx)|].
  destruct (contains compose_actions _); [exact (compose_flow_frames _ _ _ _ _ _ _ Hx)|].
  destruct (Command_Action c == "promote_release_candidate"); [exact (promote_frames _ _ _ _ _ _ Hx)|discriminate].
Qed.
#[export] Instance flow_laws origin : @SubsystemLaws (flow_subsystems origin).
Proof.
  constructor; intros world st c m st' out m' Hx; change (flow_handler origin st c m = Ok (st', out, m')) in Hx;
    apply flow_handler_cases in Hx as [[E Hx]|[Hne Hframe]].
  - intros Hfresh. apply create_hotfix_Ok in Hx as (v & event & Hints & Hs & _ & Hd & Hf & _).
    destruct (Hints (Hfresh E)) as [Hv Hid]. rewrite Hv.
    apply plan_create_integration; [rewrite Hid; exact (Hfresh E)|exact Hs|exact Hd|exact Hf].
  - intros _. apply (frames_step (Command_Action c) st st' Hframe).
  - apply create_hotfix_Ok in Hx as (v & event & _ & _ & _ & _ & _ & He). rewrite He. split; [eexists; reflexivity|contradiction].
  - assert (He : State_Events st' = State_Events st) by (unfold plan_part in Hframe; congruence). rewrite He. auto.
Qed.
End laws.

(** ** What a command of the flow leaves behind *)
Section commanded.
Context `{Runtime, Upper, World, MapOrder, Hashing, RestorationEvidence, NetURL, URLs, Operator} (origin : option composeRefreshOrigin).

(** The command handler with the flow. *)
Definition commanded (st : State) (c : Command) : res (State * Out) := applyAuthorized (H8 := flow_subsystems origin) st c.

Lemma compose_dispatched st c m : Command_Action c ∈ compose_actions ->
  handler_of (H8 := flow_subsystems origin) (Command_Action c) st c m = compose_flow origin st c m.
Proof using Type.
  intros Ha. assert (Hf : flow_handler origin st c m = compose_flow origin st c m).
  { unfold flow_handler. repeat (apply elem_of_cons in Ha as [->|Ha]; [reflexivity|]). inversion Ha. }
  rewrite <- Hf. repeat (apply elem_of_cons in Ha as [->|Ha]; [reflexivity|]). inversion Ha.
Qed.
Lemma audit_one st c st1 op m st' out' : State_Operations st1 = State_Operations st ++ [op] ->
  audit (length (State_Operations st)) c st1 (OutOperation op) m = (st', out') ->
  exists epoch event, let new := op <| ExternalOperation_ReservationEpoch := epoch |> in
  State_Operations st' = State_Operations st ++ [new] /\ out' = OutOperation new
  /\ State_Events st' = State_Events st1 ++ [event] /\ Event_Action event = Command_Action c /\ Event_Data event = c
  /\ Event_EntityID event = Meta_ID m /\ Event_ProductID event = Meta_ProductID m
  /\ State_Environments st' = State_Environments st1.
Proof using Type.
  intros Hops Hx.
  assert (Hstamp : exists epoch, stamp_epoch st1 op = op <| ExternalOperation_ReservationEpoch := epoch |>).
  { unfold stamp_epoch. destruct (environmentByID _ _) as [e|]; [eexists; reflexivity|].
    exists (ExternalOperation_ReservationEpoch op). reflexivity. }
  destruct Hstamp as (epoch & Hstamp). exists epoch.
  assert (Hadded : map (stamp_epoch st1) (drop (length (State_Operations st)) (State_Operations st1)) = [op <| ExternalOperation_ReservationEpoch := epoch |>]).
  { rewrite Hops, drop_app_length. cbn [map]. rewrite Hstamp. reflexivity. }
  assert (Htaken : take (length (State_Operations st)) (State_Operations st1) = State_Operations st) by (rewrite Hops; apply take_app_length).
  injection Hx as <- <-. eexists. split; [|split; [|split; [reflexivity|split; [reflexivity|split; [reflexivity|]]]]].
  - etransitivity; [|exact (f_equal2 app Htaken Hadded)]. reflexivity.
  - unfold stamped_out. rewrite Hadded. cbn [foldl]. rewrite bool_decide_true by reflexivity. reflexivity.
  - destruct (contains _ _); (split; [|split]); reflexivity.
Qed.

(** Everything an accepted composition command did. *)
Record Composed (st : State) (c : Command) (st' : State) (out : Out) (comp : Composition) (new : ExternalOperation) : Prop := {
  composed_planned : exists c' st1 st2 op, Resolves c c' /\ (st1 = st \/ st1 = st <| State_Compositions ::= fun l => l ++ [comp] |>)
    /\ FlowQueued origin false st1 st2 c' comp op /\ State_Environments st' = State_Environments st2
    /\ exists epoch, new = op <| ExternalOperation_ReservationEpoch := epoch |>;
  composed_id : ID new = fresh (Command_Action c) 0;
  composed_out : out = OutOperation new;
  composed_operations : State_Operations st' = State_Operations st ++ [new];
  composed_event : exists event, State_Events st' = State_Events st ++ [event] /\ Event_Action event = Command_Action c
    /\ Event_EntityID event = ID new /\ scoped_creation new event = true;
}.
Lemma commanded_composes st c st' out : commanded st c = Ok (st', out) -> AsciiCommand c -> Command_Action c ∈ explicit_actions ->
  (st' = st /\ Command_Action c = "update_environment_feature"
   /\ exists c' op, Resolves c c' /\ replayUpdate st c' = Ok (Some op) /\ out = OutOperation op) \/ exists comp new, Composed st c st' out comp new.
Proof using Type.
  intros Hx Hkeys Ha. apply applyAuthorized_Ok in Hx as (Hacc & c' & Hres & [(E & -> & op & Hrep)|(_ & m & [_ Hmp] & Hx)]); [left; eauto 6|right].
  pose proof (accepted_plain _ _ Hacc Hkeys) as Hplain. pose proof Hres as (Ea & Ed & Ei & Ec & _).
  rewrite <- Ea in Ha. rewrite <- Ed in Hplain.
  assert (Hc : Command_Action c' ∈ compose_actions) by (revert Ha; apply listed_in; reflexivity).
  assert (Hne : Command_Action c' <> "prepare_release_candidate") by (intros E; rewrite E in Ha; revert Ha; apply not_listed; reflexivity).
  apply run_command_Ok in Hx as [[Hpin _]|(st2 & out2 & m2 & [[Hpin _]|Hh] & Haud)].
  1,2: exfalso; apply (not_listed ["pin_artifact"; "release_artifact_pin"] (Command_Action c')); [|exact Hpin];
       clear - Ha; repeat (apply elem_of_cons in Ha as [->|Ha]; [reflexivity|]); inversion Ha.
  rewrite (compose_dispatched _ _ _ Hc) in Hh.
  apply compose_flow_Ok in Hh as (st1 & comp & ids & m1 & op & Hp & -> & Hq & Hid & Hid2 & Hprod & envs & Hst2).
  rewrite (bool_decide_false _ Hne) in Hq.
  destruct (planned_scope _ _ _ _ _ _ _ Hp Hplain Hmp Hne Hc) as (Hfresh & Hproduct & Hscope).
  assert (Hst1 : st1 = st \/ st1 = st <| State_Compositions ::= fun l => l ++ [comp] |>).
  { apply planned_composition_only in Hp as [[-> _]|[-> _]]; auto. }
  assert (Hops : State_Operations st1 = State_Operations st) by (destruct Hst1 as [-> | ->]; reflexivity).
  assert (Hevents : State_Events st2 = State_Events st) by (rewrite Hst2; destruct Hst1 as [-> | ->]; reflexivity).
  pose proof (queued_appended _ _ _ _ _ _ _ Hq) as Happ. rewrite Hops in Happ.
  destruct (audit_one _ _ _ _ _ _ _ Happ Haud) as (epoch & event & Hops' & Hout & Hev & Hact & Hdata & Hent & Hep & Henvs).
  exists comp, (op <| ExternalOperation_ReservationEpoch := epoch |>). constructor.
  - exists c', st1, st2, op. split; [exact Hres|split; [exact Hst1|split; [exact Hq|split; [exact Henvs|eauto]]]].
  - rewrite <- Ea, <- Hfresh. exact Hid.
  - exact Hout.
  - exact Hops'.
  - exists event. rewrite Hev, Hevents, Hact. split; [reflexivity|split; [exact Ea|split; [rewrite Hent, Hid2; symmetry; exact Hid|]]].
    unfold scoped_creation. cbv zeta. rewrite Hact, Hdata, Hep, Hprod.
    destruct (queued_scope _ _ _ _ _ _ _ Hq) as [Hs1 Hs2]. pose proof (queued_snapshot _ _ _ _ _ _ _ Hq) as Hs3.
    change (ProductID (op <| ExternalOperation_ReservationEpoch := epoch |>)) with (ProductID op).
    change (ExternalOperation_CompositionSnapshot (op <| ExternalOperation_ReservationEpoch := epoch |>)) with (ExternalOperation_CompositionSnapshot op).
    change (ExternalOperation_EnvironmentID (op <| ExternalOperation_ReservationEpoch := epoch |>)) with (ExternalOperation_EnvironmentID op).
    rewrite Hs1, Hs2, Hs3, !bool_decide_true by reflexivity. cbn [andb].
    assert (Hpr : (Command_ProductID c' == "") || (Command_ProductID c' == ProductID comp) = true)
      by (apply orb_true_iff; destruct Hproduct; [left|right]; apply bool_decide_eq_true; assumption).
    rewrite Hpr. cbn [andb]. destruct (Command_Action c' == "reconcile_composition"); apply bool_decide_eq_true; exact Hscope.
Qed.

(** The identifier drawn for the operation is new, and operations have one. *)
Definition unused_identity (st : State) (id : string) : Prop :=
  (forall op, op ∈ State_Operations st -> ID op <> id /\ ID op <> "") /\ forall event, event ∈ State_Events st -> Event_EntityID event <> id.

(** C7 A composition is born with the lineage its worker will ask for: when a
    command queues a composition, whoever asks for it, the provenance check
    that fences every later step of its worker accepts it in the state the
    command leaves.  An automatic refresh inherits the lineage of its parent. *)
Theorem composition_born_with_lineage st c st' out : commanded st c = Ok (st', out) ->
  AsciiCommand c -> Command_Action c ∈ explicit_actions -> unused_identity st (fresh (Command_Action c) 0) ->
  st' = st \/ exists op, out = OutOperation op /\ State_Operations st' = State_Operations st ++ [op]
    /\ ExternalOperation_Kind op = "COMPOSE" /\ sourceRetentionProvenance st' op = Ok ().
Proof using Type.
  intros Hx Hkeys Ha [Hops Hevents].
  destruct (commanded_composes _ _ _ _ Hx Hkeys Ha) as [[-> _]|(comp & new & Hc)]; [left; reflexivity|right].
  destruct Hc as [(c' & st1 & st2 & op & _ & Hst1 & Hq & _ & epoch & Hnew) Hid Hout Happ (event & Hev & Hact & Hent & Hscoped)].
  exists new. split; [exact Hout|split; [exact Happ|split; [rewrite Hnew; exact (queued_kind _ _ _ _ _ _ _ Hq)|]]].
  apply provenance_exact. exists new. split; [reflexivity|].
  assert (Hunused : forall o, o ∈ State_Operations st -> ID o <> ID new) by (intros o Ho; rewrite Hid; apply (Hops o Ho)).
  assert (Hlone : lone st' new).
  { exists (length (State_Operations st)). rewrite Happ. apply Only_last; [|apply bool_decide_eq_true; reflexivity].
    intros i o Ho. apply bool_decide_eq_false. exact (Hunused o (list_elem_of_lookup_2 _ _ _ Ho)). }
  assert (Hrestore : is_restore event = false).
  { unfold is_restore. rewrite Hact. clear - Ha. repeat (apply elem_of_cons in Ha as [->|Ha]; [reflexivity|]). inversion Ha. }
  assert (Hasks : asks_for (ID new) event = true).
  { unfold asks_for. rewrite Hact, Hent, (bool_decide_true (ID new = ID new)) by reflexivity. rewrite andb_true_r. apply bool_decide_eq_true, Ha. }
  assert (Hproven : ProvenAt st' (length (State_Events st)) new).
  { split; [exists event; split; [|exact Hscoped]|].
    - rewrite Hev. apply Only_last; [|exact Hasks]. intros i e He. unfold asks_for. rewrite Hid.
      rewrite (bool_decide_false (Event_EntityID e = _)); [apply andb_false_r|]. exact (Hevents e (list_elem_of_lookup_2 _ _ _ He)).
    - intros j e Hj Hr. rewrite Hev in Hj. apply lookup_snoc_cases in Hj as [Hj|[_ ->]]; [apply lookup_lt_Some in Hj; exact Hj|congruence]. }
  destruct (queued_lineage _ _ _ _ _ _ _ Hq eq_refl) as [Hvalid Hborn].
  assert (Hmember : lineage_member (lineage_clock new) new new = true).
  { assert (Hstatus : ExternalOperation_Status new = "PENDING") by (rewrite Hnew; exact (proj1 (queued_pending _ _ _ _ _ _ _ Hq))).
    assert (Hsnap : ExternalOperation_CompositionSnapshot new = Some comp) by (rewrite Hnew; exact (queued_snapshot _ _ _ _ _ _ _ Hq)).
    assert (Hsc : ProductID comp = ProductID new /\ Composition_EnvironmentID comp = ExternalOperation_EnvironmentID new)
      by (rewrite Hnew; destruct (queued_scope _ _ _ _ _ _ _ Hq) as [Hs1 Hs2]; split; symmetry; [exact Hs1|exact Hs2]).
    assert (Hv : validSourceRetention (lineage_clock new) new = Ok ())
      by (rewrite Hnew at 2; exact (valid_unobserved _ _ op epoch Hvalid (fun s Hs => proj1 (proj2 (proj2 (queued_sources _ _ _ _ _ _ _ Hq s Hs)))))).
    unfold lineage_member. rewrite Hstatus, Hsnap, Hv, (proj1 Hsc), (proj2 Hsc), !andb_true_iff.
    repeat split; apply bool_decide_eq_true; reflexivity. }
  assert (Hlt : (length (State_Events st) < length (State_Events st'))%nat) by (rewrite Hev, length_app; cbn; lia).
  destruct origin as [o|].
  - destruct Hborn as (parent & Hin & _ & Hprov & Hp & He & Ho & Hpid).
    assert (Hin' : parent ∈ State_Operations st) by (destruct Hst1 as [-> | ->]; exact Hin).
    assert (Hprov' : sourceRetentionProvenance st parent = Ok ()) by (destruct Hst1 as [-> | ->]; exact Hprov).
    apply provenance_exact in Hprov' as (top & Htop & Hline).
    eapply lineage_child; [exact Hlone|exact Hmember|exact Hproven|exact Hlt| | |].
    + rewrite Hnew. intros E. apply (proj2 (Hops parent Hin')). rewrite <- Hpid. exact E.
    + rewrite Hnew. etransitivity; [exact Htop|symmetry; exact Hpid].
    + refine (lineage_extends _ st st' new event Happ Hev Hent Hrestore Hunused parent new _ top _ Hline).
      rewrite Hnew. split; [symmetry; exact Hp|split; [symmetry; exact He|exact Ho]].
  - destruct Hborn as [Ho Hpid]. eapply lineage_root; [exact Hlone|exact Hmember|exact Hproven|exact Hlt| |]; rewrite Hnew; [exact Hpid|].
    symmetry. exact Ho.
Qed.

(** What a selection reads are the environments alone. *)
Lemma selects_environments st1 st2 st st' e comp op : State_Environments st = State_Environments st1 ->
  State_Environments st' = State_Environments st2 -> Selects st1 st2 e comp op -> Selects st st' e comp op.
Proof using Type. unfold Selects, environmentByID. intros -> -> Hs. exact Hs. Qed.

(** C8 A composition is made of reviewed deployments only: when a command
    queues one, every component is frozen with the application, the build, the
    enabled target and the source configured for it at that moment, on the
    configured main branch; every target is DEV or TEST and goes through a
    pull request; and the command moves the selection of exactly its own
    environment, by one generation, to exactly this composition. *)
Theorem composition_reviewed st c st' out : commanded st c = Ok (st', out) ->
  AsciiCommand c -> Command_Action c ∈ explicit_actions ->
  st' = st \/ exists comp op, out = OutOperation op /\ State_Operations st' = State_Operations st ++ [op]
    /\ ExternalOperation_CompositionSnapshot op = Some comp /\ ExternalOperation_Status op = "PENDING"
    /\ Forall2 (FrozenComponent st comp false) (Composition_Components comp) (ExternalOperation_PreparedDeployments op)
    /\ (forall snap, snap ∈ ExternalOperation_PreparedDeployments op ->
          EnvironmentBinding_Purpose (DeliverySnapshot_Target snap) ∈ ["DEV"; "TEST"]
          /\ EnvironmentBinding_GitOpsMode (DeliverySnapshot_Target snap) = "PR")
    /\ Selects st st' (Composition_EnvironmentID comp) (ID comp) (ID op).
Proof using Type.
  intros Hx Hkeys Ha. destruct (commanded_composes _ _ _ _ Hx Hkeys Ha) as [[-> _]|(comp & new & Hc)]; [left; reflexivity|right].
  destruct Hc as [(c' & st1 & st2 & op & _ & Hst1 & Hq & Henvs & epoch & Hnew) _ Hout Happ _]. exists comp, new.
  assert (Hdep : Forall2 (FrozenComponent st comp false) (Composition_Components comp) (ExternalOperation_PreparedDeployments new)).
  { rewrite Hnew. refine (list.Forall2_impl _ _ _ _ (queued_deployments _ _ _ _ _ _ _ Hq) _).
    destruct Hst1 as [-> | ->]; [auto|]. intros component snap [F1 F2 F3 F4 F5 F6 F7 F8 F9]. constructor; assumption. }
  pose proof (queued_environment _ _ _ _ _ _ _ Hq) as [_ Hsel].
  split; [exact Hout|split; [exact Happ|split; [rewrite Hnew; exact (queued_snapshot _ _ _ _ _ _ _ Hq)|]]].
  split; [rewrite Hnew; exact (proj1 (queued_pending _ _ _ _ _ _ _ Hq))|split; [exact Hdep|split]].
  - intros snap Hin. split; [|apply (queued_reviewed _ _ _ _ _ _ _ Hq eq_refl); rewrite Hnew in Hin; exact Hin].
    apply list_elem_of_lookup_1 in Hin as (i & Hi). destruct (Forall2_lookup_r _ _ _ _ _ Hdep Hi) as (component & _ & Hf).
    exact (frozen_purpose _ _ _ _ _ Hf).
  - rewrite Hnew. eapply selects_environments; [| |exact Hsel]; [destruct Hst1 as [-> | ->]; reflexivity|exact Henvs].
Qed.

(** A composition pins its inputs: it has one source per repository, on a
    branch of its own named after the operation, starting at the commit its
    component was planned from; and every head it merges is pinned, once, by
    a revision of the composition, so nothing it needs can be collected. *)
Theorem composition_pins_inputs st c st' out : commanded st c = Ok (st', out) ->
  AsciiCommand c -> Command_Action c ∈ explicit_actions ->
  st' = st \/ exists comp op, out = OutOperation op /\ ExternalOperation_CompositionSnapshot op = Some comp
    /\ NoDup (map FlowSource_RepositoryID (ExternalOperation_Sources op))
    /\ forall s, s ∈ ExternalOperation_Sources op -> FlowSourceOf st comp (ID op) s /\ exists intent,
       FlowSource_Retention s = Some intent
       /\ map SourceRevisionRetention_HeadCommit (SourceRetentionIntent_Revisions intent) = SourcePlan_HeadSHAs (FlowSource_Plan s)
       /\ NoDup (SourcePlan_HeadSHAs (FlowSource_Plan s))
       /\ forall v, v ∈ SourceRetentionIntent_Revisions intent -> Retained (ProductID op) comp s v.
Proof using Type.
  intros Hx Hkeys Ha. destruct (commanded_composes _ _ _ _ Hx Hkeys Ha) as [[-> _]|(comp & new & Hc)]; [left; reflexivity|right].
  destruct Hc as [(c' & st1 & st2 & op & _ & Hst1 & Hq & _ & epoch & Hnew) _ Hout _ _]. exists comp, new.
  split; [exact Hout|]. rewrite Hnew. split; [exact (queued_snapshot _ _ _ _ _ _ _ Hq)|split; [exact (queued_repositories _ _ _ _ _ _ _ Hq)|]].
  intros s Hs. split; [|exact (queued_pins _ _ _ _ _ _ _ Hq eq_refl s Hs)].
  pose proof (queued_sources _ _ _ _ _ _ _ Hq s Hs) as Hof. destruct Hst1 as [-> | ->]; exact Hof.
Qed.

(** *** Feature updates happen once *)
(** What a receipt freezes of an operation. *)
Definition receipt_of (op : ExternalOperation) :=
  (ID op, ExternalOperation_FeatureUpdate op, ExternalOperation_RequestKey op, ExternalOperation_RequestHash op,
   (ProductID op, FeatureID op, ExternalOperation_RequestedBy op, ExternalOperation_EnvironmentID op)).
(** A later state: operations were added, and receipts stayed as they were. *)
Definition keeps_receipts (st later : State) : Prop :=
  map receipt_of (State_Operations st) `prefix_of` map receipt_of (State_Operations later).
#[export] Instance keeps_receipts_preorder : PreOrder keeps_receipts.
Proof. split; [intros st; exists []; symmetry; apply app_nil_r|]. intros a b c. unfold keeps_receipts. apply transitivity. Qed.
Definition binds (key : string) (r : string * option FeatureUpdateRequest * string * string * (string * string * string * string)) : bool :=
  let '(_, update, key', _, _) := r in is_some update && (key' == key).
Lemma bound_later st later key op : keeps_receipts st later ->
  find_first (bound_update key) (State_Operations st) = Some op ->
  exists op', find_first (bound_update key) (State_Operations later) = Some op' /\ receipt_of op' = receipt_of op.
Proof using Type.
  intros [rest E] Hf.
  assert (Hm : forall l, find_first (binds key) (map receipt_of l) = option_map receipt_of (find_first (bound_update key) l))
    by (intros l; rewrite find_first_map; reflexivity).
  pose proof (Hm (State_Operations later)) as Hl. rewrite E, find_first_app, Hm, Hf in Hl. cbn in Hl.
  destruct (find_first _ (State_Operations later)) as [op'|]; [|discriminate]. apply (inj Some) in Hl. eauto.
Qed.

Lemma featureUpdateInput_key c input hash : featureUpdateInput c = Ok (input, hash) -> plain_keys (Command_Data c) ->
  FeatureUpdateRequest_IdempotencyKey input = data_string (Command_Data c) "idempotency_key".
Proof using Type.
  unfold featureUpdateInput. intros Hx Hd. apply bind_guard in Hx as [_ Hx]; [|discriminate].
  apply bind_Ok in Hx as (input' & Hi & Hx).
  apply (decode_reads FeatureUpdateRequest_IdempotencyKey "idempotency_key") in Hi; [|keeps_fields|reads_fields|exact Hd|reflexivity].
  rewrite <- Hi. clear Hi. crunch Hx. reflexivity.
Qed.
(** The receipt is looked up before anything of the state is compared. *)
Lemma update_looks_up st c st' out : commanded st c = Ok (st', out) -> AsciiCommand c -> Command_Action c = "update_environment_feature" ->
  match find_first (bound_update (data_string (Command_Data c) "idempotency_key")) (State_Operations st) with
  | Some op => st' = st /\ out = OutOperation op /\ ExternalOperation_RequestedBy op = Command_Actor c
  | None => True
  end.
Proof using Type.
  intros Hx Hkeys Ha. destruct (find_first _ _) as [op|] eqn:Hf; [|exact I].
  unfold commanded, applyAuthorized in Hx. step_guards Hx. destruct a, a0.
  assert (Hacc : Accepted st c) by (apply check_fields_Ok in E as (? & ? & ? & ?); to_prop; constructor; assumption).
  pose proof (accepted_plain _ _ Hacc Hkeys) as Hplain.
  apply resolve_feature_Resolves in E1 as (R1 & R2 & _ & R4 & _). apply resolve_product_Resolves in E2 as (S1 & S2 & _ & S4 & _).
  rewrite (bool_decide_true (Command_Action a2 = _)) in E3 by congruence.
  change (replayUpdate st a2 = Ok a3) in E3. unfold replayUpdate in E3. apply bind_Ok in E3 as ([input hash] & Hi & E3).
  rewrite (featureUpdateInput_key _ _ _ Hi) in E3 by (rewrite S2, R2; exact Hplain). rewrite S2, R2, Hf in E3.
  destruct (same_update a2 input hash op) eqn:Es; [|discriminate]. injection E3 as <-. injection Hx as <- <-.
  unfold same_update in Es. rewrite !andb_true_iff in Es. destruct Es as [[_ Hactor] _]. to_prop. repeat split. congruence.
Qed.

Lemma update_binds st c st' out : commanded st c = Ok (st', out) -> AsciiCommand c -> Command_Action c = "update_environment_feature" ->
  exists op, out = OutOperation op
  /\ find_first (bound_update (data_string (Command_Data c) "idempotency_key")) (State_Operations st') = Some op
  /\ ExternalOperation_RequestedBy op = Command_Actor c.
Proof using Type.
  intros Hx Hkeys Ha. pose proof (update_looks_up _ _ _ _ Hx Hkeys Ha) as Hl. destruct (find_first _ _) as [op|] eqn:Hf.
  { destruct Hl as (-> & -> & Hactor). eauto. }
  assert (Hplain : plain_keys (Command_Data c)) by (apply applyAuthorized_Ok in Hx as [Hacc _]; exact (accepted_plain _ _ Hacc Hkeys)).
  assert (Hin : Command_Action c ∈ explicit_actions) by (rewrite Ha; repeat constructor).
  destruct (commanded_composes _ _ _ _ Hx Hkeys Hin) as [(-> & _ & c' & op & (_ & Ed & _) & Hrep & ->)|(comp & new & Hc)].
  { exfalso. unfold replayUpdate in Hrep. apply bind_Ok in Hrep as ([input hash] & Hi & Hrep).
    rewrite (featureUpdateInput_key _ _ _ Hi) in Hrep by (rewrite Ed; exact Hplain). rewrite Ed, Hf in Hrep. discriminate. }
  destruct Hc as [(c' & st1 & st2 & op & (Ea & Ed & _ & Ec & _) & _ & Hq & _ & epoch & Hnew) _ Hout Happ _].
  destruct (queued_receipt _ _ _ _ _ _ _ Hq) as (input & Hi & Hu & Hk & _); [congruence|].
  exists new. split; [exact Hout|split].
  - rewrite Happ, find_first_app, Hf. cbn [find_first].
    assert (Hb : bound_update (data_string (Command_Data c) "idempotency_key") new = true).
    { rewrite Hnew. apply andb_true_iff. split; [exact (f_equal is_some Hu)|]. apply bool_decide_eq_true.
      etransitivity; [exact Hk|]. rewrite (featureUpdateInput_key _ _ _ Hi); rewrite Ed; [reflexivity|exact Hplain]. }
    rewrite Hb. reflexivity.
  - rewrite Hnew, <- Ec. exact (queued_requester _ _ _ _ _ _ _ Hq).
Qed.

(** *** Promotions *)
Lemma commanded_promotes st c st' out : commanded st c = Ok (st', out) -> Command_Action c = "promote_release_candidate" ->
  exists c' m st2 out2 m2, Command_ID c' = Command_ID c /\ promote_release_candidate st c' m = Ok (st2, out2, m2)
  /\ audit (length (State_Operations st)) c' st2 out2 m2 = (st', out).
Proof using Type.
  intros Hx Ha. apply applyAuthorized_Ok in Hx as (_ & c' & (Ea & _ & Ei & _) & [(E & _)|(_ & m & _ & Hx)]); [congruence|].
  rewrite Ha in Ea. apply run_command_Ok in Hx as [[Hpin _]|(st2 & out2 & m2 & [[Hpin _]|Hh] & Haud)].
  1,2: rewrite Ea in Hpin; exfalso; revert Hpin; apply not_listed; reflexivity.
  exists c', m, st2, out2, m2. split; [exact Ei|split; [|exact Haud]]. rewrite Ea in Hh.
  match type of Hh with handler_of _ ?s ?k ?mt = ?r => change (flow_handler origin s k mt = r) in Hh end.
  unfold flow_handler in Hh. rewrite Ea in Hh. exact Hh.
Qed.
(** C10 Only a finished candidate is promoted, and only once: an accepted
    promotion names a candidate that has succeeded and is ready for
    verification, whose work is ready and whose scenarios have run on it; what
    it deploys is what the candidate built, source for source and target for
    target; it selects that composition by one generation; and in no state
    that keeps an operation promoting this candidate is another promotion of
    it accepted. *)
Theorem promoted_once st c st' out : commanded st c = Ok (st', out) -> Command_Action c = "promote_release_candidate" ->
  exists candidate comp op, operationByID st (Command_ID c) = Some candidate
  /\ ExternalOperation_Kind candidate = "RELEASE_CANDIDATE" /\ ExternalOperation_Status candidate = "SUCCEEDED"
  /\ ExternalOperation_CompositionSnapshot candidate = Some comp
  /\ releaseWorkReady st comp = Ok () /\ scenarioCandidateReady st (ID candidate) = Ok ()
  /\ out = OutOperation op /\ State_Operations st' = State_Operations st ++ [op] /\ promotes (ID candidate) op = true
  /\ ExternalOperation_CompositionSnapshot op = Some comp /\ ExternalOperation_Sources op = ExternalOperation_Sources candidate
  /\ ExternalOperation_PreparedDeployments op = ExternalOperation_PreparedDeployments candidate
  /\ Selects st st' (ExternalOperation_EnvironmentID candidate) (ID comp) (ID op)
  /\ forall later c2, existsb (promotes (ID candidate)) (State_Operations later) = true ->
       Command_Action c2 = "promote_release_candidate" -> Command_ID c2 = Command_ID c -> is_ok (commanded later c2) = false.
Proof using Type.
  intros Hx Ha. destruct (commanded_promotes _ _ _ _ Hx Ha) as (c' & m & st2 & out2 & m2 & Ei & Hp & Haud).
  apply promote_Ok in Hp as (candidate & comp & op & Hop & Hcand & Hwork & Hscen & Hnone & -> & Hprom & Hid & _ & Henv & Hsnap & Hsrc & Hdep & _ & Hsel & envs & Hst2).
  rewrite Ei in Hop.
  destruct (audit_one st c' st2 op m2 st' out) as (epoch & event & Happ & Hout & _ & _ & _ & _ & _ & Henvs); [rewrite Hst2; reflexivity|exact Haud|].
  assert (Hc : ExternalOperation_Kind candidate = "RELEASE_CANDIDATE" /\ ExternalOperation_Status candidate = "SUCCEEDED"
               /\ ExternalOperation_CompositionSnapshot candidate = Some comp).
  { unfold completed_candidate in Hcand. destruct (_ && _) eqn:E; [|discriminate]. rewrite !andb_true_iff in E. destruct E as [[E1 E2] _].
    to_prop. auto. }
  destruct Hc as (Hk & Hs & Hcs). eexists candidate, comp, _.
  split; [exact Hop|split; [exact Hk|split; [exact Hs|split; [exact Hcs|split; [exact Hwork|split; [exact Hscen|]]]]]].
  split; [exact Hout|split; [exact Happ|split; [exact Hprom|split; [exact Hsnap|split; [exact Hsrc|split; [exact Hdep|split]]]]]].
  - rewrite Henv in Hsel. eapply selects_environments; [reflexivity|exact Henvs|exact Hsel].
  - intros later c2 Hex Ha2 Hid2. destruct (commanded later c2) as [[later' out2]|] eqn:Hx2; [exfalso|reflexivity].
    destruct (commanded_promotes _ _ _ _ Hx2 Ha2) as (c2' & m' & st3 & out3 & m3 & Ei2 & Hp2 & _).
    apply promote_Ok in Hp2 as (candidate2 & comp2 & op2 & Hop2 & _ & _ & _ & Hnone2 & _).
    assert (E : ID candidate2 = ID candidate).
    { apply find_first_Some in Hop as [_ E1]. apply find_first_Some in Hop2 as [_ E2]. to_prop.
      apply bool_decide_eq_true in E1, E2. congruence. }
    rewrite E in Hnone2. congruence.
Qed.
End commanded.
