(* ===== verification/Interleaving.v ===== *)
(** * Work in progress and the rest of the application

    What an accepted command does to operations, worker jobs and attempts
    ([commanded_work]): it appends operations nobody holds and touches no job,
    or it deletes a product with everything of it.  The claims about workers
    that must hold whatever else is accepted meanwhile are proved here against
    the real commands. *)
From S2P Require Import Prelude GoText GoJson Delivery Domain Status Planning Handlers DeviceAuth Collections ExternalSystems Reservation Composition Conflicts Scenarios Pins WorkerAuth WorkerJobs Publications Registry Restoration Checks WorkerProtocol External Candidates Activation FlowGuards Effects Saving SourceRetention SourceChecks ActivationWorker NativeWorker RegistryRefresh Operations OperationSafety DispatchOnce Entities Commands Flow Planner FlowSafety.
Open Scope string_scope.
Open Scope list_scope.

(** ** What a command leaves of the work in progress *)
Definition same_jobs (st st' : State) : Prop :=
  State_WorkerJobs st' = State_WorkerJobs st /\ State_WorkerAttempts st' = State_WorkerAttempts st.
(** Operations nobody holds are appended, jobs are left alone. *)
Definition Appends (st st' : State) : Prop := same_jobs st st'
  /\ exists added, State_Operations st' = State_Operations st ++ added /\ forall v, v ∈ added -> ExternalOperation_LeaseOwner v = "".
(** The product is gone, with its operations, jobs and attempts. *)
Record Deletes (product : string) (st st' : State) : Prop := {
  deleted_operations : State_Operations st' = List.filter (kept product) (State_Operations st);
  deleted_jobs : State_WorkerJobs st' = List.filter (kept product) (State_WorkerJobs st);
  deleted_attempts : State_WorkerAttempts st' = List.filter (kept product) (State_WorkerAttempts st);
  deleted_product : productExists st' product = false;
}.
#[export] Instance Appends_preorder : PreOrder Appends.
Proof.
  split.
  - intros st. split; [split; reflexivity|]. exists []. rewrite app_nil_r. split; [reflexivity|]. intros v Hv. inversion Hv.
  - intros a b c [[J1 A1] (l1 & E1 & H1)] [[J2 A2] (l2 & E2 & H2)]. split; [split; congruence|]. exists (l1 ++ l2).
    rewrite E2, E1, app_assoc. split; [reflexivity|]. intros v [Hv|Hv]%elem_of_app; auto.
Qed.
Lemma appends_none st st' : same_jobs st st' -> State_Operations st' = State_Operations st -> Appends st st'.
Proof. intros Hj E. split; [exact Hj|]. exists []. rewrite app_nil_r. split; [exact E|]. intros v Hv. inversion Hv. Qed.
Lemma appends_one st st' v : same_jobs st st' -> State_Operations st' = State_Operations st ++ [v] -> ExternalOperation_LeaseOwner v = "" ->
  Appends st st'.
Proof. intros Hj E Hv. split; [exact Hj|]. exists [v]. split; [exact E|]. intros x ->%list_elem_of_singleton. exact Hv. Qed.
Definition Appending (h : Handler) : Prop := forall st c m st' out m', h st c m = Ok (st', out, m') -> Appends st st'.

Section handlers.
Context `{Runtime, Upper, World, MapOrder, Hashing, RestorationEvidence, NetURL, URLs, Operator}.

Lemma reactivate_work st fid at_ : State_Operations (reactivate st fid at_) = State_Operations st
  /\ State_WorkerJobs (reactivate st fid at_) = State_WorkerJobs st /\ State_WorkerAttempts (reactivate st fid at_) = State_WorkerAttempts st.
Proof. unfold reactivate. destruct (feature st fid) as [f|]; [destruct (_ == _)|]; auto. Qed.
Ltac appended :=
  first [apply appends_none; [split|]; reflexivity
        |apply appends_none; [split|]; cbn;
         rewrite ?(fun st f t => proj1 (reactivate_work st f t)), ?(fun st f t => proj1 (proj2 (reactivate_work st f t))),
           ?(fun st f t => proj2 (proj2 (reactivate_work st f t))); reflexivity
        |eapply appends_one; [split; reflexivity|reflexivity|reflexivity]].
Ltac appending := let Hx := fresh in intros ? ? ? ? ? ? Hx; crunch Hx; try (match goal with s : State, E : _ = Ok ?s |- _ => crunch E end); appended.
Lemma conflict_appending : Appending applyCompositionConflict.
Proof. unfold applyCompositionConflict. appending. Qed.
Lemma branch_appending : Appending applyManagedBranch.
Proof. unfold applyManagedBranch. appending. Qed.
Lemma classify_appending : Appending classify_repository.
Proof. unfold classify_repository. appending. Qed.
Lemma retention_appending : Appending applyRetention.
Proof. unfold applyRetention. appending. Qed.
Lemma publication_appending : Appending applyPublication.
Proof. unfold applyPublication, configure_publication, record_package_artifact. appending. Qed.
Lemma scenario_appending : Appending applyScenario.
Proof. unfold applyScenario, put_scenario, record_scenario_run. appending. Qed.
Lemma composition_appending : Appending applyComposition.
Proof. unfold applyComposition, create_application, record_integration_revision, plan_composition, select_composition. appending. Qed.
Lemma create_feature_appending : Appending create_feature.
Proof. unfold create_feature. appending. Qed.
Lemma update_feature_appending : Appending update_feature.
Proof. unfold update_feature. appending. Qed.
Lemma create_integration_appending : Appending create_integration.
Proof. unfold create_integration. appending. Qed.
Lemma update_integration_appending : Appending update_integration.
Proof. unfold update_integration. appending. Qed.
Lemma transition_appending : Appending transition_integration.
Proof. unfold transition_integration. appending. Qed.
Lemma memory_appending : Appending record_memory.
Proof. unfold record_memory. appending. Qed.
Lemma blocker_appending : Appending resolve_blocker.
Proof. unfold resolve_blocker. appending. Qed.
Lemma gate_appending : Appending create_gate.
Proof. unfold create_gate. appending. Qed.
Lemma check_appending : Appending add_check.
Proof. unfold add_check. appending. Qed.
Lemma result_appending : Appending record_check_result.
Proof. unfold record_check_result. appending. Qed.
Lemma finding_appending : Appending record_finding.
Proof. unfold record_finding. appending. Qed.
Lemma resolve_appending : Appending resolve_finding.
Proof. unfold resolve_finding. appending. Qed.
Lemma environment_appending : Appending create_environment.
Proof. unfold create_environment. appending. Qed.
Lemma update_environment_appending : Appending update_environment.
Proof. unfold update_environment. appending. Qed.
Lemma repository_appending : Appending create_repository.
Proof. unfold create_repository. appending. Qed.
Lemma product_appending : Appending create_product.
Proof. unfold create_product. appending. Qed.
Lemma plan_release_appending : Appending plan_release.
Proof. unfold plan_release. appending. Qed.
Lemma record_release_appending : Appending record_release.
Proof. unfold record_release. appending. Qed.
Lemma no_case_appending : Appending no_case.
Proof. unfold no_case. appending. Qed.
Lemma systems_appending : Appending applyExternalSystems.
Proof. unfold applyExternalSystems, put_external_system, create_system_relationship, set_external_scope, reopen. appending. Qed.
Lemma register_appends st m conn input st' v : register st m conn input = (st', v) -> Appends st st'.
Proof. unfold register. destruct (registeredRepositoryIdentity _ _ _ _); intros [= <- _]; appended. Qed.
Lemma refresh_appends st c m v st' out m' : ExternalOperation_LeaseOwner v = "" -> refresh_once st c m v = Ok (st', out, m') -> Appends st st'.
Proof.
  unfold refresh_once. intros Hv Hx. destruct (pendingRefresh _ _ _ _ _ _ _); injection Hx as <- _ _; [reflexivity|].
  eapply appends_one; [split; reflexivity|reflexivity|exact Hv].
Qed.
Lemma import_appending : Appending import_repository.
Proof.
  unfold import_repository. intros st c m st' out m' Hx. step_guards Hx. cbv zeta in Hx. step_guards Hx.
  destruct (register _ _ _ _) as [st1 v] eqn:E4. injection Hx as <- _ _. apply register_appends in E4.
  etransitivity; [exact E4|appended].
Qed.
Lemma deploy_appending : Appending deploy_integration.
Proof. unfold deploy_integration. appending. Qed.
Lemma external_appending : Appending applyExternal.
Proof.
  intros st c m st' out m' Hx. unfold applyExternal in Hx.
  repeat match type of Hx with (if ?b then _ else _) = _ => destruct b end;
    first [exact (import_appending _ _ _ _ _ _ Hx)|exact (deploy_appending _ _ _ _ _ _ Hx)|discriminate
          |revert Hx; unfold refresh_environment_runtime, grant_connection, create_github_connection, configure_component,
             configure_environment, refresh_integration_git, refresh_repository_git; intros Hx; crunch Hx;
           first [eapply refresh_appends; [|eassumption]; reflexivity|appended]].
Qed.
Lemma pin_appends st c m st' out m' changed : applyArtifactPin st c m = Ok (st', out, m', changed) -> Appends st st'.
Proof. unfold applyArtifactPin, release_pin, pin_artifact. intros Hx. crunch Hx; appended. Qed.
Lemma filter_sublist {A} (p : A -> bool) (l : list A) : List.filter p l `sublist_of` l.
Proof. induction l as [|x l IH]; cbn; [constructor|]. destruct (p x); constructor; exact IH. Qed.
Lemma delete_deletes st c m st' out m' : delete_product st c m = Ok (st', out, m') -> Deletes (Command_ProductID c) st st'.
Proof.
  unfold delete_product. intros Hx. apply bind_Ok in Hx as (st1 & Hd & Hx). crunch Hx. unfold deleteProduct in Hd. crunch Hd.
  split; try reflexivity. apply not_true_iff_false. intros (p & Hp & Hid)%existsb_elem.
  change (p ∈ List.filter (fun v => kept (Command_ProductID c) v && (ID v != Command_ProductID c)) (State_Products st)) in Hp.
  apply elem_of_filter_list in Hp as [_ Hp]. unfold has_id in Hid. to_prop. contradiction.
Qed.
End handlers.
Create HintDb work discriminated.
#[export] Hint Resolve conflict_appending branch_appending classify_appending retention_appending publication_appending scenario_appending
  composition_appending create_feature_appending update_feature_appending create_integration_appending update_integration_appending
  transition_appending memory_appending blocker_appending gate_appending check_appending result_appending finding_appending
  resolve_appending environment_appending update_environment_appending repository_appending product_appending plan_release_appending
  record_release_appending no_case_appending systems_appending external_appending : work.

(** ** From handlers to commands *)
(** What an accepted command does: it appends, or it deletes a product. *)
Definition WorkStep (action : string) (st st' : State) : Prop :=
  Appends st st' \/ action = "delete_product" /\ exists product, Deletes product st st'.
Section commands.
Context `{Runtime, Upper, MapOrder, Hashing, RestorationEvidence, NetURL, URLs, Operator, Subsystems}.

Lemma audit_appends `{World} st c st1 out1 m st' out : Appends st st1 ->
  audit (length (State_Operations st)) c st1 out1 m = (st', out) -> Appends st st'.
Proof using Type.
  intros [[Hj Ha] (added & E & Hown)] Haud. injection Haud as <- _. split; [split; assumption|].
  exists (map (stamp_epoch st1) added).
  split.
  - change (take (length (State_Operations st)) (State_Operations st1) ++ map (stamp_epoch st1) (drop (length (State_Operations st)) (State_Operations st1))
      = State_Operations st ++ map (stamp_epoch st1) added).
    rewrite E, take_app_length, drop_app_length. reflexivity.
  - intros v (v0 & -> & Hv)%elem_of_map. unfold stamp_epoch. destruct (environmentByID _ _); exact (Hown v0 Hv).
Qed.
Lemma audit_deletes `{World} product st c st1 out1 m st' out : Deletes product st st1 ->
  audit (length (State_Operations st)) c st1 out1 m = (st', out) -> Deletes product st st'.
Proof using Type.
  intros [Ho Hj Ha Hp] Haud. injection Haud as <- _. split; [|assumption..].
  change (take (length (State_Operations st)) (State_Operations st1) ++ map (stamp_epoch st1) (drop (length (State_Operations st)) (State_Operations st1))
    = List.filter (kept product) (State_Operations st)).
  pose proof (sublist_length _ _ (filter_sublist (kept product) (State_Operations st))) as Hlen. rewrite <- Ho in Hlen |- *.
  rewrite take_ge, drop_ge by exact Hlen. apply app_nil_r.
Qed.
Lemma handler_work `{World} (flow_appends : Appending (applyFlow _)) st c m st' out m' :
  handler_of (Command_Action c) st c m = Ok (st', out, m') -> WorkStep (Command_Action c) st st'.
Proof using Type.
  intros Hx. destruct (handler_of_cases (Command_Action c)) as [E|(kv & Hin & Ha & E)]; rewrite E in Hx; clear E.
  { left. exact (no_case_appending _ _ _ _ _ _ Hx). }
  unfold handlers in Hin.
  repeat (apply elem_of_cons in Hin as [->|Hin];
    [cbn [fst snd] in Ha, Hx;
     first [left; match type of Hx with ?h st c m = _ => assert (Hh : Appending h) by (first [exact flow_appends|auto with work]); exact (Hh _ _ _ _ _ _ Hx) end
           |right; split; [apply list_elem_of_singleton, Ha|eexists; exact (delete_deletes _ _ _ _ _ _ Hx)]]|]).
  inversion Hin.
Qed.
Lemma authorized_work `{World} (flow_appends : Appending (applyFlow _)) st c st' out :
  applyAuthorized st c = Ok (st', out) -> WorkStep (Command_Action c) st st'.
Proof using Type.
  intros Hx. apply applyAuthorized_Ok in Hx as (_ & c' & (Ha & _) & [(_ & -> & _)|(_ & m & _ & Hx)]); [left; reflexivity|].
  rewrite <- Ha. unfold run_command in Hx. apply bind_Ok in Hx as ([[[st1 out1] m1] changed] & Hd & Hx).
  assert (Hw : WorkStep (Command_Action c') st st1).
  { unfold dispatch in Hd. destruct (contains _ _); [left; exact (pin_appends _ _ _ _ _ _ _ Hd)|].
    apply bind_Ok in Hd as ([[st2 out2] m2] & Hh & Hd). injection Hd as <- _ _ _. exact (handler_work flow_appends _ _ _ _ _ _ Hh). }
  destruct changed; [|injection Hx as <- _; exact Hw].
  match type of Hx with Ok ?a = Ok ?b => assert (Haud : a = b) by congruence end.
  destruct Hw as [Hw|[E [product Hw]]]; [left; exact (audit_appends _ _ _ _ _ _ _ Hw Haud)|].
  right. split; [exact E|]. exists product. exact (audit_deletes _ _ _ _ _ _ _ _ Hw Haud).
Qed.
End commands.

Section flow.
Context `{Runtime, Upper, MapOrder, Hashing, RestorationEvidence, NetURL, URLs, Operator}.

Lemma queued_unheld `{World} origin production st comp ids c m st' op m' :
  queue_composition origin production st comp ids c m = Ok (st', OutOperation op, m') -> ExternalOperation_LeaseOwner op = "".
Proof using Type.
  unfold queue_composition. intros Hs. apply bind_Ok in Hs as (env & _ & Hs). apply bind_Ok in Hs as ([] & _ & Hs). cbv zeta in Hs.
  apply bind_Ok in Hs as ([sources prepared] & _ & Hs). apply bind_Ok in Hs as (st1 & _ & Hs).
  apply bind_Ok in Hs as ([op0 m0] & Hr & Hs). apply bind_Ok in Hs as (op1 & Hz & Hs). injection Hs as _ <- _.
  assert (Hop0 : ExternalOperation_LeaseOwner op0 = "").
  { unfold receipt in Hr. destruct (_ == _); [apply bind_Ok in Hr as ([input hash] & _ & Hr)|]; injection Hr as <- _; reflexivity. }
  destruct production; [injection Hz as <-; exact Hop0|].
  apply frozen_intents in Hz as [(origins & ->) _]. exact Hop0.
Qed.
Lemma flow_appending `{World} origin : Appending (flow_handler origin).
Proof using Type.
  intros st c m st' out m' Hx. unfold flow_handler in Hx.
  destruct (Command_Action c == "create_hotfix").
  { unfold create_hotfix in Hx. apply bind_Ok in Hx as (input & _ & Hx). apply bind_guard in Hx as [_ Hx]; [|discriminate].
    apply bind_Ok in Hx as ([st1 out1] & Hn & Hx). destruct (integration st1 _); [|discriminate]. injection Hx as <- _ _.
    apply authorized_work in Hn; [|intros ? ? ? ? ? ? Hx; discriminate]. destruct Hn as [Hn|[E _]]; [|discriminate].
    etransitivity; [exact Hn|apply appends_none; [split|]; reflexivity]. }
  destruct (Command_Action c == "record_runtime_observation").
  { unfold record_runtime_observation in Hx. crunch Hx. apply appends_none; [split|]; reflexivity. }
  destruct (contains compose_actions _).
  { unfold compose_flow in Hx. apply bind_Ok in Hx as ([[[st1 comp] ids] m1] & Hp & Hx).
    transitivity st1; [apply planned_composition_only in Hp as [[-> _]|[-> _]]; apply appends_none; [split| |split|]; reflexivity|].
    pose proof Hx as Hq. apply queue_composition_Ok in Hq as (op & -> & _ & _ & _ & _ & envs & E).
    apply queued_unheld in Hx. rewrite E. eapply appends_one; [split; reflexivity|reflexivity|exact Hx]. }
  destruct (Command_Action c == "promote_release_candidate"); [|discriminate].
  unfold promote_release_candidate in Hx. crunch Hx. unfold desire in *.
  match goal with E : _ = Ok ?s |- context [?s] => crunch E end.
  eapply appends_one; [split; reflexivity|reflexivity|reflexivity].
Qed.
(** Every accepted command, those of the flow included. *)
Lemma commanded_work `{World} origin st c st' out : commanded origin st c = Ok (st', out) -> WorkStep (Command_Action c) st st'.
Proof using Type. apply authorized_work. intros st0 c0 m0 st1 out1 m1. exact (flow_appending origin st0 c0 m0 st1 out1 m1). Qed.
End flow.

(** ** Feature updates happen once *)
(** What happens between two commands, as far as the operations of a product
    are concerned: any accepted command, as long as the product is there
    afterwards, and the work on operations, which keeps their receipts. *)
Inductive Meanwhile `{Runtime, Upper, MapOrder, Hashing, RestorationEvidence, NetURL, URLs, Operator} (product : string) : State -> State -> Prop :=
| meanwhile_command (W : World) origin st c st' out : commanded origin st c = Ok (st', out) -> productExists st' product = true ->
    Meanwhile product st st'
| meanwhile_work st st' : keeps_receipts st st' -> Meanwhile product st st'.

Section receipts.
Context `{Runtime, Upper, MapOrder, Hashing, RestorationEvidence, NetURL, URLs, Operator}.

Lemma find_first_filter {A} (p q : A -> bool) (l : list A) x : find_first p l = Some x -> q x = true -> find_first p (List.filter q l) = Some x.
Proof using Type.
  induction l as [|y l IH]; cbn; [discriminate|]. destruct (p y) eqn:Hp.
  - intros [= <-] ->. cbn. rewrite Hp. reflexivity.
  - intros Hf Hq. destruct (q y); [cbn; rewrite Hp|]; exact (IH Hf Hq).
Qed.
Definition Bound (key : string) (op : ExternalOperation) (st : State) : Prop :=
  exists op', find_first (bound_update key) (State_Operations st) = Some op' /\ receipt_of op' = receipt_of op.
Lemma meanwhile_bound product key op st st' : Meanwhile product st st' -> ProductID op = product -> Bound key op st -> Bound key op st'.
Proof using Type.
  intros Hm Hp (op1 & Hf & Hr). destruct Hm as [W origin st c st' out Hx Hex|st st' Hk].
  - apply commanded_work in Hx as [[_ (added & E & _)]|[_ [gone [E _ _ Hgone]]]].
    + exists op1. rewrite E, find_first_app, Hf. auto.
    + exists op1. rewrite E. split; [|exact Hr]. apply find_first_filter; [exact Hf|]. unfold kept. apply negb_true_iff, bool_decide_eq_false.
      intros Eg. assert (Ep : ProductID op1 = ProductID op) by exact (f_equal (fun r => (snd r).1.1.1) Hr). congruence.
  - destruct (bound_later _ _ _ _ Hk Hf) as (op2 & Hf2 & Hr2). exists op2. split; [exact Hf2|congruence].
Qed.
(** What workers do keeps receipts. *)
Lemma claim_receipts `{Capabilities, Analyst} t token st : keeps_receipts st (claim_tx t token st).1.
Proof using Type.
  unfold claim_tx. destruct (claim_candidate t (State_Operations st)) as [i|]; cbn; [|reflexivity].
  destruct (State_Operations st !! i) as [v|] eqn:Hi; cbn; [|reflexivity]. exists []. rewrite app_nil_r.
  apply (map_insert_same receipt_of _ _ v); [exact Hi|reflexivity].
Qed.

Lemma save_receipts `{Encoding, Baselines, ComposeLease} `{World} cancelled op token s st st' :
  save_tx cancelled op token s st = Ok st' ->
  (forall current, operationByID st (ID op) = Some current -> receipt_of op = receipt_of current) -> keeps_receipts st st'.
Proof using Type.
  unfold save_tx. intros Hs Hop. destruct (operationByID st (ID op)) as [current|] eqn:Hc; [|discriminate].
  apply bind_Ok in Hs as (? & _ & Hs). apply bind_Ok in Hs as (? & _ & Hs). apply bind_Ok in Hs as ([status detail] & _ & Hs). cbv zeta in Hs.
  apply bind_Ok in Hs as (? & _ & Hs). apply bind_Ok in Hs as (? & _ & Hs). apply bind_Ok in Hs as (? & _ & Hs).
  apply bind_Ok in Hs as (st2 & Hr & Hs). injection Hs as <-.
  set (v := saved_operation op token s st current status detail) in *.
  assert (Hv : receipt_of v = receipt_of current).
  { rewrite <- (Hop current eq_refl). unfold v, saved_operation, frozen_proofs. destruct (negb _); [reflexivity|].
    destruct (ExternalOperation_GitOpsPR op), (ExternalOperation_GitOpsResult op);
      repeat match goal with |- context [if ?b then _ else _] => destruct b end; reflexivity. }
  assert (E2 : State_Operations st2 = State_Operations (set_operation (ID op) (fun _ => v) st)).
  { unfold append_run in Hr. destruct (ExternalOperation_Run op); [destruct (ExternalOperation_Snapshot op); [|discriminate]|]; injection Hr as <-; reflexivity. }
  exists []. rewrite app_nil_r.
  assert (E : State_Operations (append_step op s status detail (append_artifact op st2)) = State_Operations st2).
  { unfold append_step, append_artifact. destruct (ExternalOperation_Artifact op); [|reflexivity].
    destruct (ExternalOperation_Snapshot op) as [snap|]; [|reflexivity]. destruct (native_build snap); reflexivity. }
  rewrite E, E2. destruct (update_first_insert _ (fun _ => v) _ _ Hc) as (i & Hi & Eu).
  change (State_Operations (set_operation (ID op) (fun _ => v) st)) with (update_first (has_id (ID op)) (fun _ => v) (State_Operations st)).
  rewrite Eu. apply (map_insert_same receipt_of _ _ current); [exact Hi|exact Hv].
Qed.

(** C9 A feature update happens once: the first accepted command with an
    idempotency key binds it to the operation it returns; however many
    commands are accepted later, of whatever kind, and whatever is done to
    operations that keeps their receipts, as long as the product is not
    deleted another accepted command with that key changes nothing and returns
    that operation, and it comes from the person who asked first. *)
Theorem feature_update_once `{World} origin st c st1 out later c2 later' out2 :
  commanded origin st c = Ok (st1, out) -> AsciiCommand c -> Command_Action c = "update_environment_feature" ->
  (forall op, out = OutOperation op -> rtc (Meanwhile (ProductID op)) st1 later) ->
  commanded origin later c2 = Ok (later', out2) -> AsciiCommand c2 -> Command_Action c2 = "update_environment_feature" ->
  data_string (Command_Data c2) "idempotency_key" = data_string (Command_Data c) "idempotency_key" ->
  later' = later /\ Command_Actor c2 = Command_Actor c
  /\ exists op op2, out = OutOperation op /\ out2 = OutOperation op2 /\ op2 ∈ State_Operations later /\ receipt_of op2 = receipt_of op.
Proof using Type.
  intros Hx Hkeys Ha Hlater Hx2 Hkeys2 Ha2 Hkey.
  destruct (update_binds _ _ _ _ _ Hx Hkeys Ha) as (op & -> & Hf & Hactor).
  assert (Hb : Bound (data_string (Command_Data c) "idempotency_key") op later).
  { apply (rtc_invariant (Meanwhile (ProductID op)) (Bound (data_string (Command_Data c) "idempotency_key") op)) with st1;
      [|exact (Hlater op eq_refl)|exists op; auto]. intros x y Hxy. exact (meanwhile_bound _ _ _ _ _ Hxy eq_refl). }
  destruct Hb as (op2 & Hf2 & Hr).
  pose proof (update_looks_up _ _ _ _ _ Hx2 Hkeys2 Ha2) as Hl. rewrite Hkey, Hf2 in Hl. destruct Hl as (-> & -> & Hactor2).
  split; [reflexivity|split].
  - rewrite <- Hactor, <- Hactor2. exact (f_equal (fun r => (snd r).1.2) Hr).
  - exists op, op2. apply find_first_Some in Hf2 as [Hin _]. auto.
Qed.
End receipts.

(** ** Attempts of a job *)
(** Only claims grant: whatever else is done to jobs and attempts queues a job
    nobody claimed, removes, or leaves identifiers, fences and bounds alone. *)
Definition QueuesJob (st st' : State) : Prop := exists id max,
  (id ∉ job_ids st /\ forall a, a ∈ State_WorkerAttempts st -> WorkerAttempt_JobID a <> id) /\ (1 <= max <= 10)%Z
  /\ map job_core (State_WorkerJobs st') = map job_core (State_WorkerJobs st) ++ [(id, (0%Z, max))]
  /\ map attempt_core (State_WorkerAttempts st') = map attempt_core (State_WorkerAttempts st).
Inductive JobStep `{Runtime, Upper, MapOrder, Crypto, Encoding, Hashing, RestorationEvidence, NetURL, URLs, Operator} : State -> State -> Prop :=
| job_worker st st' : WorkerStep st st' -> JobStep st st'
| job_command (W : World) origin st c st' out : commanded origin st c = Ok (st', out) -> JobStep st st'
| job_queued st st' : QueuesJob st st' -> JobStep st st'
| job_rest st st' : same_core st st' -> JobStep st st'.

Section jobs.
Context `{Runtime, Upper, MapOrder, Crypto, Encoding, Hashing, RestorationEvidence, NetURL, URLs, Operator}.

Lemma queues_step st st' : QueuesJob st st' -> LeaseStep (leases st) (leases st').
Proof using Type.
  intros (id & max & [Hjobs Hatt] & Hmax & Ej & Ea). unfold leases. rewrite Ej, Ea. constructor; [| |exact Hmax].
  - intros ([x y] & -> & (j & Hj & Hin)%elem_of_map)%list_elem_of_fmap. injection Hj as -> _. apply Hjobs, elem_of_map. eauto.
  - intros ([x y] & E & (a & Ha & Hin)%elem_of_map)%list_elem_of_fmap. injection Ha as -> _. apply (Hatt a Hin). symmetry. exact E.
Qed.
Lemma job_step_leases st st' : JobStep st st' -> rtc LeaseStep (leases st) (leases st').
Proof using Type.
  intros [st0 st1 Hw|W origin st0 c st1 out Hx|st0 st1 Hq|st0 st1 Hc].
  - apply worker_step_progress, Hw.
  - apply commanded_work in Hx as [[[Ej Ea] _]|[_ [product [_ Ej Ea _]]]]; unfold leases; rewrite Ej, Ea; [reflexivity|].
    apply rtc_once, lease_removed; apply map_sublist, filter_sublist.
  - apply rtc_once, queues_step, Hq.
  - rewrite (leases_frame _ _ Hc). reflexivity.
Qed.
Lemma job_steps_inv st st' : LeaseInv (leases st) -> rtc JobStep st st' -> LeaseInv (leases st').
Proof using Type.
  intros Hi Hr. apply (rtc_invariant JobStep (fun st => LeaseInv (leases st))) with st; [|exact Hr|exact Hi].
  intros x y Hxy Hx. exact (rtc_invariant _ _ lease_step_inv _ _ (job_step_leases _ _ Hxy) Hx).
Qed.

(** *** The jobs the rest of the program queues *)
Lemma queues_then_frame st st1 st' : QueuesJob st st1 -> same_core st1 st' -> QueuesJob st st'.
Proof using Type.
  intros (id & max & Hf & Hm & Ej & Ea) [Ej' Ea']. exists id, max. split; [exact Hf|]. split; [exact Hm|]. split; congruence.
Qed.
Definition unused_job (st : State) (id : string) : Prop := id ∉ job_ids st /\ forall a, a ∈ State_WorkerAttempts st -> WorkerAttempt_JobID a <> id.
Lemma appended_job st st' j : State_WorkerJobs st' = State_WorkerJobs st ++ [j] -> State_WorkerAttempts st' = State_WorkerAttempts st ->
  unused_job st (ID j) -> WorkerJob_Fence j = 0%Z -> (1 <= WorkerJob_MaxAttempts j <= 10)%Z -> QueuesJob st st'.
Proof using Type.
  intros Ej Ea Hf Hz Hm. exists (ID j), (WorkerJob_MaxAttempts j). split; [exact Hf|]. split; [exact Hm|].
  rewrite Ej, Ea, map_app. split; [|reflexivity]. unfold job_core at 2. cbn [map]. rewrite Hz. reflexivity.
Qed.
(** The build and the publication of a native delivery. *)
Lemma native_job_queues `{Baselines, ComposeLease, Capabilities} `{World} parent n inputs capability key st st' id :
  append_job parent n inputs capability key st = Ok (st', id) ->
  unused_job st (ID (native_job parent n inputs capability key)) -> QueuesJob st st'.
Proof using Type.
  unfold append_job. intros Hx Hf. destruct externalWorkers as [w|]; [|discriminate]. apply bind_Ok in Hx as (st1 & Hq & Hx). injection Hx as <- _.
  apply queueWorkerCheck_frame in Hq as [_ Hq]. eapply queues_then_frame; [|apply frame_audit]. eapply queues_then_frame; [|exact Hq].
  eapply appended_job; [reflexivity|reflexivity|exact Hf|reflexivity|vm_compute; split; discriminate].
Qed.
(** The observations of a registry, for a command or a capture. *)
Lemma observation_queues `{World} child m operation key hash integration inputs deadline actor action t st :
  unused_job st (Meta_ID m) ->
  QueuesJob st (queue_observation child (observation_job m operation key hash integration inputs deadline) actor action t st).
Proof using Type.
  intros Hf. unfold queue_observation. eapply queues_then_frame; [|apply frame_audit].
  eapply appended_job; [reflexivity|reflexivity|exact Hf|reflexivity|vm_compute; split; discriminate].
Qed.

(** C21 Whatever workers and commands do, and whatever the rest of the
    program does to jobs and attempts that is not a grant (it queues jobs
    nobody claimed, removes records, or leaves identifiers, fences and bounds
    alone), a job is granted at most [max_attempts] times, so at most ten
    times, its fence counts the grants without overflow, and no two attempts of
    it share a fence. *)
Theorem worker_attempts_bounded st st' j : State_WorkerJobs st = [] -> State_WorkerAttempts st = [] -> rtc JobStep st st' ->
  j ∈ State_WorkerJobs st' ->
  (0 <= WorkerJob_Fence j <= WorkerJob_MaxAttempts j)%Z /\ (WorkerJob_MaxAttempts j <= 10)%Z
  /\ (Z.of_nat (length (fences_of st' (ID j))) <= WorkerJob_Fence j)%Z /\ NoDup (fences_of st' (ID j)).
Proof using Type. intros Hj Ha Hr. apply lease_inv_job, (job_steps_inv st); [apply lease_inv_empty; assumption|exact Hr]. Qed.
End jobs.

(** ** Builds are dispatched once *)
Section requests.
Context `{Runtime, NetURL, Upper, MapOrder, URLs, Crypto, Hashing, Encoding, RestorationEvidence, Operator, Baselines, ComposeLease, Capabilities,
  Analyst, OtherSteps}.

(** *** The requests of external workers *)
Lemma careful_park `{World} i j status action t st : Careful st (park_job i j status action t st).
Proof using Type. unfold park_job. eapply careful_trans; [apply careful_job|apply careful_audit]. Qed.
Lemma careful_claim_queued `{World, WorkerPolicy} w p i j t st st' out : claim_queued w p i j t st = Ok (st', out) -> Careful st st'.
Proof using Type.
  unfold claim_queued. intros Hc. destruct (negb (is_ok _)); [injection Hc as <- _; apply careful_park|].
  destruct (negb (job_authorised _ _ _)); [injection Hc as <- _; apply careful_park|].
  destruct (negb (checkInitialReady _ _)); [injection Hc as <- _; reflexivity|].
  destruct (_ <=? _)%Z; [injection Hc as <- _; apply careful_park|].
  apply bind_Ok in Hc as ([st1 lease] & Hg & Hc). injection Hc as <- _. unfold grant in Hg. cbv zeta in Hg.
  destruct (job_at _ i); [|discriminate]. apply bind_Ok in Hg as (? & _ & Hg). injection Hg as <- _.
  eapply careful_trans; [|apply careful_audit]. apply careful_ops. reflexivity.
Qed.
Lemma careful_claim `{World, WorkerPolicy} workers p r st st' out : ClaimWorker workers p r st = Ok (st', out) -> Careful st st'.
Proof using Type.
  unfold ClaimWorker. intros Hc. destruct workers as [w|]; [|discriminate]. apply bind_Ok in Hc as (? & _ & Hc).
  apply bind_guard in Hc as [_ Hc]; [|discriminate]. apply bind_guard in Hc as [_ Hc]; [|discriminate].
  apply (foldM_ind (fun acc => Careful st acc.1) _ _ _ _ Hc); [cbn; reflexivity|].
  intros [st1 o1] i [st2 o2] _ Hp Hi. cbn in *. eapply careful_trans; [exact Hp|]. clear Hp Hc. unfold claim_job in Hi.
  destruct (job_at st1 i); [|injection Hi as <- _; reflexivity]. destruct (_ || _); [injection Hi as <- _; reflexivity|].
  eapply careful_trans; [apply (careful_recover i)|]. destruct (job_at (recoverWorker i _ st1) i); [|injection Hi as <- _; reflexivity].
  destruct (_ || _); [injection Hi as <- _; reflexivity|]. exact (careful_claim_queued _ _ _ _ _ _ _ _ Hi).
Qed.
Lemma careful_perform `{World, WorkerPolicy} w p i k action t j a st st' lease :
  perform w p i k action t j a st = Ok (st', lease) -> Careful st st'.
Proof using Type.
  unfold perform. intros Hp. apply bind_Ok in Hp as ([j' a'] & _ & Hp). apply bind_Ok in Hp as (st2 & Hadm & Hp). cbv zeta in Hp.
  destruct (job_at _ i); [|discriminate]. apply bind_Ok in Hp as (? & _ & Hp). injection Hp as <- _.
  eapply careful_trans; [|apply careful_audit]. apply careful_ops.
  unfold admit_inventory in Hadm. destruct action as [| |r]; try (injection Hadm as <-; reflexivity).
  destruct (_ && _); [|injection Hadm as <-; reflexivity]. destruct (WorkerReport_Registry r); [|discriminate]. injection Hadm as <-. reflexivity.
Qed.
Lemma careful_mutate `{World, WorkerPolicy} workers p r action st st' out : mutateWorker workers p r action st = Ok (st', out) -> Careful st st'.
Proof using Type.
  unfold mutateWorker. intros Hm. destruct workers as [w|]; [|discriminate]. cbv zeta in Hm.
  destruct (job_index st _) as [i|]; [|discriminate]. destruct (attempt_index st _) as [k|]; [|discriminate].
  destruct (job_at st i) as [j|]; [|discriminate]. destruct (State_WorkerAttempts st !! k) as [a|]; [|discriminate].
  destruct (negb _); [discriminate|]. unfold mutate_owned in Hm. apply bind_guard in Hm as [_ Hm]; [|discriminate].
  apply bind_Ok in Hm as (? & _ & Hm).
  assert (Hcur : mutate_current w p i k action (now "mutateWorker" 0) st = Ok (st', out) -> Careful st st').
  { intros Hc%mutate_current_acted. apply careful_trans with (recoverWorker i (now "mutateWorker" 0) st); [apply careful_recover|].
    destruct Hc as [?|?|j1 a1 st1 lease _ _ _ Hp]; [reflexivity|reflexivity|exact (careful_perform _ _ _ _ _ _ _ _ _ _ _ Hp)]. }
  destruct action as [| |rep]; [| |destruct (WorkerAttempt_Report a); [apply bind_Ok in Hm as (? & _ & Hm); injection Hm as <- _; reflexivity|]];
    apply bind_Ok in Hm as (? & _ & Hm); exact (Hcur Hm).
Qed.
Lemma careful_steer `{World, WorkerPolicy} c t st st' out : steer_worker_job c t st = Ok (st', out) -> Careful st st'.
Proof using Type.
  unfold steer_worker_job. intros Hs. apply bind_guard in Hs as [_ Hs]; [|discriminate].
  destruct (job_index st _) as [i|]; [|discriminate]. destruct (job_at st i) as [j|]; [|discriminate].
  apply bind_guard in Hs as [_ Hs]; [|discriminate]. apply bind_Ok in Hs as (st1 & Hc & Hs).
  destruct (job_at st1 i); [|discriminate]. injection Hs as <- _. destruct (Command_Action c == "cancel_worker_job").
  - unfold cancel_worker_job in Hc. apply bind_Ok in Hc as (? & _ & Hc). apply bind_guard in Hc as [_ Hc]; [|discriminate].
    destruct (WorkerInputs_SourceProof _) as [proof|].
    + unfold cancel_managed in Hc. destruct (operationByID _ _); [|discriminate]. apply bind_guard in Hc as [_ Hc]; [|discriminate].
      injection Hc as <-. apply careful_stop.
    + injection Hc as <-. eapply careful_trans; [apply careful_stop_job|apply careful_audit].
  - destruct (Command_Action c == "reconcile_worker_job"); [|discriminate]. unfold reconcile_worker_job in Hc.
    apply bind_Ok in Hc as (input & _ & Hc). apply bind_guard in Hc as [_ Hc]; [|discriminate]. injection Hc as <-.
    eapply careful_trans; [|apply careful_audit]. eapply careful_trans; [apply careful_job|apply careful_settle].
Qed.
Lemma careful_worker_command `{World, WorkerPolicy} workers prov st c st' out :
  executeWorkerCommand workers prov st c = Ok (st', out) -> Careful st st'.
Proof using Type.
  unfold executeWorkerCommand. intros He. destruct workers as [w|]; [|discriminate].
  apply bind_guard in He as [_ He]; [|discriminate]. cbv zeta in He.
  destruct (Command_Action c == "queue_worker_job"); [|exact (careful_steer _ _ _ _ _ He)].
  apply bind_guard in He as [_ He]; [|discriminate]. unfold queue_worker_job in He.
  apply bind_guard in He as [_ He]; [|discriminate]. apply bind_Ok in He as (input & _ & He).
  apply bind_guard in He as [_ He]; [|discriminate]. cbv zeta in He.
  destruct (find_first _ _); [destruct (_ != _); [discriminate|]; injection He as <- _; reflexivity|].
  unfold accept_job in He. crunch He.
  match goal with E : queueWorkerCheck _ _ _ _ = Ok _ |- _ => apply careful_check in E; rename E into Hq end.
  eapply careful_trans; [|apply careful_audit]. eapply careful_trans; [|exact Hq].
  eapply careful_trans; [eapply careful_append|apply careful_ops; reflexivity]; reflexivity.
Qed.

(** *** Commands *)
(** Identifiers are unique in the store, and those of the operations a command
    adds were never used. *)
Definition Identified (known : list string) (st st' : State) : Prop := NoDup (operation_ids st)
  /\ forall v, v ∈ State_Operations st' -> ID v ∉ operation_ids st -> ID v ∉ known.
Lemma find_filter_unique (q : ExternalOperation -> bool) o l v : NoDup (ID <$> l) ->
  find_first (has_id o) (List.filter q l) = Some v -> find_first (has_id o) l = Some v.
Proof using Type.
  induction l as [|x l IH]; cbn; [discriminate|]. intros [Hx Hn]%list.NoDup_cons Hf.
  destruct (q x); cbn in Hf; destruct (has_id o x) eqn:Ho; auto.
  apply IH in Hf; [|exact Hn]. apply find_first_Some in Hf as [Hin Hid]. unfold has_id in *. to_prop.
  exfalso. apply Hx. apply list_elem_of_fmap. exists v. split; [congruence|exact Hin].
Qed.
Lemma work_elsewhere known action st st' : WorkStep action st st' -> Identified known st st' -> Elsewhere known st st'.
Proof using Type.
  intros [[_ (added & E & Hown)]|[_ [product [E _ _ _]]]] [Hn Hnew] o; unfold lease_view, operationByID; rewrite E.
  - rewrite find_first_app. destruct (find_first (has_id o) (State_Operations st)) as [v|] eqn:Hf; cbn; [auto|].
    destruct (find_first (has_id o) added) as [v|] eqn:Ha; cbn; [|exact I]. apply find_first_Some in Ha as [Hv Hid].
    split; [exact (Hown v Hv)|]. intros _. apply has_id_true in Hid. subst o. apply Hnew.
    + rewrite E. apply elem_of_app. right. exact Hv.
    + intros (u & Eu & Hu)%list_elem_of_fmap. assert (Hno := proj1 (find_first_None _ _) Hf u Hu). unfold has_id in Hno. to_prop. congruence.
  - destruct (find_first (has_id o) (List.filter (kept product) (State_Operations st))) as [v|] eqn:Hf; cbn.
    + rewrite (find_filter_unique _ _ _ _ Hn Hf). cbn. auto.
    + destruct (find_first (has_id o) (State_Operations st)); exact I.
Qed.

(** *** Everything at once *)
(** Claims, steps of workers, crashes and lost replies; accepted commands; the
    requests of external workers and their commands; and what else keeps or
    gives up leases and puts nothing back before its dispatch. *)
Inductive Run : Sys -> Sys -> Prop :=
| run_thread s s' : Step s s' -> Run s s'
| run_command (W : World) origin c st' out s : commanded origin (store s) c = Ok (st', out) -> Identified (seen s) (store s) st' -> Run s (moved s st')
| run_worker_command (W : World) (P : WorkerPolicy) workers prov c st' out s :
    executeWorkerCommand workers prov (store s) c = Ok (st', out) -> Run s (moved s st')
| run_worker_claim (W : World) (P : WorkerPolicy) workers p r st' out s : ClaimWorker workers p r (store s) = Ok (st', out) -> Run s (moved s st')
| run_worker_request (W : World) (P : WorkerPolicy) workers p r action st' out s :
    mutateWorker workers p r action (store s) = Ok (st', out) -> Run s (moved s st').
Lemma run_steps s s' : Run s s' -> Step s s'.
Proof using Type.
  intros [s0 s1 Hs|W origin c st' out s0 Hx Hid|W P workers prov c st' out s0 Hx|W P workers p r st' out s0 Hx|W P workers p r action st' out s0 Hx];
    [exact Hs|apply step_elsewhere..].
  - exact (work_elsewhere _ _ _ _ (commanded_work _ _ _ _ _ Hx) Hid).
  - apply Elsewhere_careful, (careful_worker_command _ _ _ _ _ _ Hx).
  - apply Elsewhere_careful, (careful_claim _ _ _ _ _ _ Hx).
  - apply Elsewhere_careful, (careful_mutate _ _ _ _ _ _ _ Hx).
Qed.

(** C2 A build is dispatched at most once: from a start, whatever the
    interleaving of claims, steps of workers, crashes, replies that are lost,
    accepted commands, requests of external workers, and of other changes of
    the store that keep or give up leases and put no operation back before its
    dispatch, at most one dispatch of the build of an operation is sent to the
    provider. *)
Theorem dispatch_at_most_once s0 s o : Started s0 -> rtc Run s0 s -> occurrences o (sent s) <= 1.
Proof using Type.
  intros Hs0 Hr. apply (dispatched_once s0 s o Hs0). clear Hs0. induction Hr as [|x y z Hxy _ IH]; [reflexivity|].
  exact (rtc_l _ _ _ _ (run_steps _ _ Hxy) IH).
Qed.
End requests.
