(* ===== verification/FlowWorker.v ===== *)
(** * The worker of compositions and releases

    The steps of a flow (application/worker_flow.go [tickFlow]): a composition
    pins the revisions it merges (source_retention.go [retainFlowSources]),
    checks that every source is what was recorded
    (flow_source_validation.go), has the provider compose each source, and
    queues one deployment per component; a release advances main and records
    what was released once its runtime is confirmed.  Every source write is
    announced by an intent ([beginReservationMutation], dev_reservation.go);
    an intent found by a later step is only followed up by reading. *)
From S2P Require Import Prelude GoText GoJson Delivery Domain Status Planning Handlers DeviceAuth Collections ExternalSystems Reservation Composition Conflicts Scenarios Pins WorkerAuth WorkerJobs Publications Registry Restoration Checks WorkerProtocol External Candidates Activation FlowGuards Effects Saving SourceRetention SourceChecks Operations Flow.
Open Scope string_scope.
Open Scope list_scope.

(** [Time.Format(time.RFC3339Nano)] of a UTC time *)
Fixpoint trim_zeros (digits : string) : string :=
  match digits with
  | EmptyString => ""
  | String c r => let r := trim_zeros r in if (r == "") && (c == "0"%char) then "" else String c r
  end.
Definition format_nano (t : Time) : string :=
  let '(y, m, d) := civil (t / day)%Z in
  let fraction := trim_zeros (padded 9 (t mod second)%Z) in
  padded 4 y +:+ "-" +:+ padded 2 m +:+ "-" +:+ padded 2 d +:+ "T" +:+ padded 2 (t mod day / hour)%Z +:+ ":"
  +:+ padded 2 (t mod hour / minute)%Z +:+ ":" +:+ padded 2 (t mod minute / second)%Z
  +:+ (if fraction == "" then "" else "." +:+ fraction) +:+ "Z".

Section flow.
Context `{Runtime, NetURL, Upper, MapOrder, URLs, Hashing, Encoding, RestorationEvidence, Operator, Baselines, Capabilities}.
Implicit Types (op : ExternalOperation) (source : FlowSource).

(** ** The intent of a source write — dev_reservation.go *)
Definition mutation_lease `{World} (message : string) op token (st : State) : res ExternalOperation :=
  match operationByID st (ID op) with
  | None => invalid message []
  | Some current =>
    _ ← reject_if (terminalOperation (ExternalOperation_Status current) || (ExternalOperation_LeaseOwner current != token)
                   || negb (After (ExternalOperation_LeaseUntil current) (now message 0))) (invalid message []);
    _ ← reservationOperationAllowed st current;
    Ok current
  end.
Definition begin_tx `{World} (cancelled : bool) op token kind (st : State) : res State :=
  _ ← reject_if cancelled (plain "context canceled");
  current ← mutation_lease "mutation lease unavailable" op token st;
  _ ← (if contains flow_kinds (ExternalOperation_Kind current) then service_flowGuard st current else Ok ());
  _ ← reject_if (ExternalOperation_ReservationMutationIntent current != "")
        (invalid "unresolved managed mutation intent requires read-only recovery" []);
  Ok (set_operation (ID op) (fun v => v <| ExternalOperation_ReservationMutationIntent := kind |>) st).
Definition beginReservationMutation op token kind : Prog (res unit) := transact (fun w cancelled st => begin_tx cancelled op token kind st).
Definition reservationMutationRecovery op token : Prog (res bool) :=
  try (effect Read) (fun st =>
  w ← effect Fresh;
  try (check (mutation_lease "mutation recovery lease unavailable" op token st)) (fun current =>
  let intent := ExternalOperation_ReservationMutationIntent current in
  if (intent != "") && (intent != "SOURCE") then check (invalid "different unresolved mutation intent" [])
  else check (Ok (intent == "SOURCE")))).

(** ** What a source must be — flow_source_validation.go *)
(** A provider call whose error is returned as it is. *)
Definition asked {A} (c : Call A) : Prog (res A) :=
  '(a, e) ← ask c; match e with Some e => check (plain e) | None => check (Ok a) end.
Definition repository_of source : string := SourcePlan_Repository (FlowSource_Plan source).
Definition comparison source (base head : string) : Prog (res CompareResult) := asked (Compare (FlowSource_Connection source) (repository_of source) base head).
(** [head] descends from [base]. *)
Definition descends source (base head message : string) : Prog (res unit) :=
  try (comparison source base head) (fun v =>
  check (reject_if ((CompareResult_BaseSHA v != base) || (CompareResult_HeadSHA v != head) || (CompareResult_Behind v != 0%Z)) (invalid message []))).
Definition isolated_revision op source (r : IntegrationRevision) : bool :=
  (ProductID r == ProductID op) && fullSHA (IntegrationRevision_BaseCommit r) && fullSHA (IntegrationRevision_HeadCommit r)
  && (IntegrationRevision_Branch r != SourcePlan_BaseRef (FlowSource_Plan source)) && negb (has_prefix "generated/" (IntegrationRevision_Branch r)).
Definition expect_revision op source (expected : gmap string IntegrationRevision) (r : IntegrationRevision) : res (gmap string IntegrationRevision) :=
  if IntegrationRevision_RepositoryID r != FlowSource_RepositoryID source then Ok expected
  else
    _ ← reject_if (negb (isolated_revision op source r))
          (invalid "source revision must be isolated feature history, not main or generated composition" []);
    _ ← reject_if (is_some (expected !! IntegrationRevision_HeadCommit r)) (invalid "multiple integrations claim same source head" []);
    Ok (<[IntegrationRevision_HeadCommit r := r]> expected).
Definition declare_commit (declared : gset string) (sha : string) : res (gset string) :=
  _ ← reject_if (negb (fullSHA sha) || bool_decide (sha ∈ declared)) (invalid "invalid declared source commit ownership" []);
  Ok ({[sha]} ∪ declared).
Definition observe_commit (declared observed : gset string) (c : CommitInfo) : res (gset string) :=
  _ ← reject_if (negb (bool_decide (CommitInfo_SHA c ∈ declared)) || bool_decide (CommitInfo_SHA c ∈ observed))
        (invalid "source contains undeclared or duplicate integration commits" []);
  Ok ({[CommitInfo_SHA c]} ∪ observed).
(** The commits between origin and head are exactly those declared. *)
Definition whole_history (r : IntegrationRevision) (v : CompareResult) : res unit :=
  _ ← reject_if ((CompareResult_BaseSHA v != IntegrationRevision_BaseCommit r) || (CompareResult_HeadSHA v != IntegrationRevision_HeadCommit r)
                 || (CompareResult_Behind v != 0%Z) || (CompareResult_Ahead v != Z.of_nat (length (CompareResult_Commits v))))
        (invalid "source history is divergent, truncated or lacks exact comparison evidence" []);
  declared ← foldM declare_commit ∅ (IntegrationRevision_Commits r);
  _ ← reject_if (negb (size declared =? length (CompareResult_Commits v))%nat)
        (invalid "integration commit list must include complete branch history since recorded origin" []);
  _ ← foldM (observe_commit declared) ∅ (CompareResult_Commits v);
  Ok ().
Definition validate_head source (expected : gmap string IntegrationRevision) (seen : gset string) (head : string) : Prog (res (gset string)) :=
  let mismatch := invalid "source selection does not match recorded integration revision" [] in
  let base := SourcePlan_BaseSHA (FlowSource_Plan source) in
  match expected !! head with
  | None => check mismatch
  | Some r =>
    if bool_decide (head ∈ seen) then check mismatch
    else
      try (if IntegrationRevision_BaseCommit r != base
           then descends source (IntegrationRevision_BaseCommit r) base "integration origin is not an ancestor of selected main"
           else check (Ok ())) (fun _ =>
      try (comparison source (IntegrationRevision_BaseCommit r) (IntegrationRevision_HeadCommit r)) (fun v =>
      try (check (whole_history r v)) (fun _ => check (Ok ({[head]} ∪ seen)))))
  end.
Definition validate_resolution source : Prog (res unit) :=
  let plan := FlowSource_Plan source in
  if SourcePlan_ResolutionSHA plan == "" then check (Ok ())
  else if negb (fullSHA (SourcePlan_ResolutionSHA plan)) || (SourcePlan_ResolutionConflictID plan == "")
  then check (invalid "invalid conflict resolution identity" [])
  else loop (fun _ ancestor => descends source ancestor (SourcePlan_ResolutionSHA plan) "resolution must preserve base and every selected integration")
         tt (SourcePlan_BaseSHA plan :: SourcePlan_HeadSHAs plan).
Definition validateFlowSource op source : Prog (res unit) :=
  let plan := FlowSource_Plan source in
  let base := SourcePlan_BaseSHA plan in
  match ExternalOperation_CompositionSnapshot op with
  | None => check (invalid "missing pinned composition source" [])
  | Some comp =>
    if negb (fullSHA base) then check (invalid "missing pinned composition source" [])
    else if (20 <? length (SourcePlan_HeadSHAs plan))%nat then check (invalid "composition exceeds bounded source selection" [])
    else
      try (asked (Branches (FlowSource_Connection source) (repository_of source))) (fun branches =>
      let main := branch_sha (SourcePlan_BaseRef plan) branches in
      if negb (fullSHA main) then check (invalid "configured main branch not observed" [])
      else
        try (if base != main then descends source base main "composition base is not recorded main history" else check (Ok ())) (fun _ =>
        try (check (foldM (expect_revision op source) ∅ (Composition_RevisionSnapshots comp))) (fun expected =>
        try (loop (validate_head source expected) ∅ (SourcePlan_HeadSHAs plan)) (fun seen =>
        if negb (size seen =? size expected)%nat then check (invalid "source plan omitted recorded integration revisions" [])
        else validate_resolution source))))
  end.

(** ** Retained refs — source_retention.go *)
Definition checkRetentionLease op token : Prog (res unit) :=
  try alive (fun _ => try (effect Read) (fun st => w ← effect Fresh; check (retentionLease w st op token))).
Definition flow_meta `{World} (site feature : string) op (t : Time) : Meta := mkMeta (fresh site 0) (ProductID op) feature "worker" t t.
Definition admitted `{World} (site : string) (sources : list FlowSource) (v : ExternalOperation) : ExternalOperation :=
  v <| ExternalOperation_ReservationMutationIntent := "" |> <| ExternalOperation_Sources := sources |>
    <| ExternalOperation_Meta ::= fun m => m <| Meta_UpdatedAt := now site 0 |> |>
    <| ExternalOperation_NextAttemptAt := (now site 0 + 2 * second)%Z |> <| ExternalOperation_LeaseOwner := "" |>
    <| ExternalOperation_LeaseUntil := 0%Z |>.
Definition progress_tx `{World} (cancelled : bool) (before after : ExternalOperation) (token phase status detail : string)
    (evidence : gmap string string) (st : State) : res State :=
  let site := "admitSourceProgress" in
  _ ← reject_if cancelled (plain "context canceled");
  _ ← retentionLease _ st before token;
  _ ← validSourceRetention (now (site +:+ " sources")) after;
  let v := fun current => (admitted site (ExternalOperation_Sources after) current) <| ExternalOperation_Phase := phase |>
             <| ExternalOperation_CurrentStep := phase |> <| ExternalOperation_DeploymentState := status |>
             <| ExternalOperation_Status := "RUNNING" |> <| ExternalOperation_Detail := detail |> in
  let step := mkOperationStep (flow_meta site "" before (now site 0)) (ID before) phase "SUCCEEDED" detail evidence in
  Ok ((set_operation (ID before) v st) <| State_OperationSteps ::= fun l => l ++ [step] |>).
Definition admitSourceProgress (before after : ExternalOperation) (token phase status detail : string) (evidence : gmap string string) : Prog (res unit) :=
  transact (fun w cancelled st => progress_tx cancelled before after token phase status detail evidence st).
Definition set_source (i : nat) (f : FlowSource -> FlowSource) op : ExternalOperation := op <| ExternalOperation_Sources ::= alter f i |>.
Definition with_result (result : SourceResult) source : FlowSource := source <| FlowSource_Result := Some result |>.
Definition conflict_tx `{World} (cancelled : bool) (before : ExternalOperation) (index : nat) (result : SourceResult) (token : string)
    (evidence : gmap string string) (st : State) : res State :=
  let site := "admitSourceConflict" in
  _ ← reject_if cancelled (plain "context canceled");
  _ ← retentionLease _ st before token;
  let after := set_source index (with_result result) before in
  match ExternalOperation_Sources after !! index with
  | None => invalid "invalid composition conflict observation" []
  | Some source =>
    _ ← reject_if (negb (SourceResult_Conflict result)) (invalid "invalid composition conflict observation" []);
    _ ← validSourceRetention (now (site +:+ " sources")) after;
    let st := appendCompositionConflict st after source (now site 0) in
    let detail := str_take 1000 ("source conflict: " +:+ SourceResult_Detail result) in
    let v := fun current => (admitted site (ExternalOperation_Sources after) current) <| ExternalOperation_Status := "FAILED" |>
               <| ExternalOperation_DeploymentState := "BLOCKED" |> <| ExternalOperation_CurrentStep := ExternalOperation_Phase current |>
               <| ExternalOperation_Detail := detail |> <| ExternalOperation_Error := detail |>
               <| ExternalOperation_FinishedAt := Some (now site 0) |> in
    let step := mkOperationStep (flow_meta (site +:+ " step") (FeatureID before) before (now site 0)) (ID before) (ExternalOperation_Phase before) "FAILED"
                  detail evidence in
    Ok ((set_operation (ID before) v st) <| State_OperationSteps ::= fun l => l ++ [step] |>)
  end.
Definition admitSourceConflict (before : ExternalOperation) (index : nat) (result : SourceResult) (token : string) (evidence : gmap string string)
    : Prog (res unit) := transact (fun w cancelled st => conflict_tx cancelled before index result token evidence st).

Definition observe_retained source (revision : SourceRevisionRetention) : Call BranchInfo :=
  ObserveBranch (FlowSource_Connection source) (repository_of source) (SourceRevisionRetention_Branch revision).
Definition exact_ref (revision : SourceRevisionRetention) (b : BranchInfo) : bool :=
  (BranchInfo_Name b == SourceRevisionRetention_Branch revision) && (BranchInfo_SHA b == SourceRevisionRetention_HeadCommit revision).
Definition retainedRef source (revision : SourceRevisionRetention) : Prog (res unit) :=
  if negb scoped_git_observer then check (invalid "source provider lacks scoped retained-ref observation" [])
  else
    '(b, e) ← ask (observe_retained source revision);
    match e with
    | Some e => check (Err (ErrPlain "retained revision %s unavailable: %w" [SourceRevisionRetention_RevisionID revision; e]))
    | None =>
      if negb (exact_ref revision b) then
        check (invalid "retained revision %s missing or moved; request fresh explicit source intent" [SourceRevisionRetention_RevisionID revision])
      else alive
    end.
(** [pending] and the error: a pending step has ended with this error or none. *)
Definition Retention : Type := bool * res unit.
Definition not_pending (r : res unit) : Prog Retention := Ret (false, r).
Definition guarded {A} (p : Prog (res A)) (k : A -> Prog Retention) : Prog Retention :=
  r ← p; match r with Ok a => k a | Err e => not_pending (Err e) end.
Definition pending (p : Prog (res unit)) : Prog Retention := r ← p; Ret (true, r).
Definition retained_observation `{World} (intent : SourceRetentionIntent) (revision : SourceRevisionRetention) : SourceRetentionObservation :=
  mkSourceRetentionObservation (SourceRetentionIntent_InputHash intent) (SourceRevisionRetention_RevisionID revision)
    (SourceRevisionRetention_Branch revision) (SourceRevisionRetention_HeadCommit revision) (now "retainFlowSources" 0).
Definition retained_evidence source (intent : SourceRetentionIntent) (revision : SourceRevisionRetention) : gmap string string :=
  list_to_map [("repository_id", FlowSource_RepositoryID source); ("revision_id", SourceRevisionRetention_RevisionID revision);
               ("branch", SourceRevisionRetention_Branch revision); ("source_sha", SourceRevisionRetention_HeadCommit revision);
               ("intent_hash", SourceRetentionIntent_InputHash intent)].
(** The pin is where it must be: look again, and record it. *)
Definition admit_pin op token (i : nat) source (intent : SourceRetentionIntent) (revision : SourceRevisionRetention) : Prog Retention :=
  guarded (retainedRef source revision) (fun _ =>
  w ← effect Fresh;
  let after := set_source i (fun s => s <| FlowSource_Retained ::= fun l => l ++ [retained_observation intent revision] |>) op in
  pending (admitSourceProgress op after token (ExternalOperation_Phase op) "COMPOSING" "exact retained revision observed"
             (retained_evidence source intent revision))).
Definition confirm_pin op token (i : nat) source (intent : SourceRetentionIntent) (revision : SourceRevisionRetention) (sha : string)
    : Prog Retention :=
  if sha != SourceRevisionRetention_HeadCommit revision then not_pending (invalid "provider returned wrong retained source identity" [])
  else admit_pin op token i source intent revision.
Definition create_pin op token (i : nat) source (intent : SourceRetentionIntent) (revision : SourceRevisionRetention) : Prog Retention :=
  '(sha, e) ← ask (EnsureRef (FlowSource_Connection source) (repository_of source) (SourceRevisionRetention_Branch revision)
                     (SourceRevisionRetention_HeadCommit revision));
  match e with
  | None => confirm_pin op token i source intent revision sha
  | Some e =>
    '(b, unread) ← ask (observe_retained source revision);
    if is_some unread then
      pending (retry op token ("retained source create response uncertain; next tick observes exact ref: " +:+ e))
    else if negb (exact_ref revision b) then not_pending (invalid "initial retained revision ref already points elsewhere; never overwrite" [])
    else confirm_pin op token i source intent revision (SourceRevisionRetention_HeadCommit revision)
  end.
Definition pin_revision op token (i : nat) source (intent : SourceRetentionIntent) (revision : SourceRevisionRetention) : Prog Retention :=
  guarded (checkRetentionLease op token) (fun _ =>
  guarded (reservationMutationRecovery op token) (fun recovering =>
  if recovering : bool then
    '(b, unread) ← ask (observe_retained source revision);
    if is_some unread || negb (exact_ref revision b)
    then not_pending (invalid "retained source mutation outcome unresolved; no write repeated" [])
    else confirm_pin op token i source intent revision (SourceRevisionRetention_HeadCommit revision)
  else guarded (beginReservationMutation op token "SOURCE") (fun _ => create_pin op token i source intent revision))).
(** A revision of a source, and whether it was observed before. *)
Record Pin := mkPin { Pin_index : nat; Pin_source : FlowSource; Pin_intent : SourceRetentionIntent; Pin_revision : SourceRevisionRetention; Pin_retained : bool }.
(** No intent is missing: [validSourceRetention] has accepted the sources. *)
Definition pins_of (i : nat) source : list Pin :=
  match FlowSource_Retention source with
  | Some intent => imap (fun j r => mkPin i source intent r (j <? length (FlowSource_Retained source))%nat) (SourceRetentionIntent_Revisions intent)
  | None => []
  end.
Fixpoint retain_pins op token (l : list Pin) : Prog Retention :=
  match l with
  | [] => not_pending (Ok ())
  | p :: l =>
    if Pin_retained p then guarded (retainedRef (Pin_source p) (Pin_revision p)) (fun _ => retain_pins op token l)
    else pin_revision op token (Pin_index p) (Pin_source p) (Pin_intent p) (Pin_revision p)
  end.
Definition retainFlowSources op token : Prog Retention :=
  if negb source_provider then not_pending (invalid "source provider lacks composition execution" [])
  else if negb ref_provider then not_pending (invalid "source provider lacks retained-ref creation" [])
  else if negb scoped_git_observer then not_pending (invalid "source provider lacks scoped retained-ref observation" [])
  else if negb composed_source_verifier then not_pending (invalid "source provider lacks read-only composition verification" [])
  else
    w ← effect Fresh;
    guarded (check (validSourceRetention (now "retainFlowSources") op)) (fun _ =>
    retain_pins op token (concat (imap pins_of (ExternalOperation_Sources op)))).
Definition verifyRetainedSource op source : Prog (res unit) :=
  w ← effect Fresh;
  try (check (validSourceRetention (now "verifyRetainedSource") op)) (fun _ =>
  match FlowSource_Retention source with
  | None => check (Err ErrPanic)
  | Some intent =>
    if negb (length (FlowSource_Retained source) =? length (SourceRetentionIntent_Revisions intent))%nat
    then check (invalid "retained revision observations incomplete" [])
    else
      try (loop (fun _ revision => retainedRef source revision) tt (SourceRetentionIntent_Revisions intent)) (fun _ =>
      try (validateFlowSource op source) (fun _ =>
      if negb composed_source_verifier then check (invalid "source provider lacks read-only composition verifier" [])
      else match FlowSource_Result source with
      | None => check (invalid "missing generated source result" [])
      | Some result =>
        '(_, e) ← ask (VerifyComposedSource (FlowSource_Connection source) (FlowSource_Plan source) result);
        match e with
        | Some e => check (Err (ErrPlain "generated source drift: %w" [e]))
        | None => alive
        end
      end))
  end).

(** ** Composing — worker_flow.go [tickFlow] *)
(** [finish] with BLOCKED and the error's text; a nil dereference ends the tick. *)
Definition blocked {A} op token (evidence : gmap string string) (r : res A) (k : A -> Prog (res unit)) : Prog (res unit) :=
  match r with
  | Ok a => k a
  | Err ErrPanic => check (Err ErrPanic)
  | Err e => finish op token "BLOCKED" (error_text e) evidence
  end.
Definition blocked_on {A} op token (evidence : gmap string string) (p : Prog (res A)) (k : A -> Prog (res unit)) : Prog (res unit) :=
  r ← p; blocked op token evidence r k.
Definition composes_dev op : bool := ExternalOperation_Kind op == "COMPOSE".
Definition composed_evidence source (result : SourceResult) : gmap string string :=
  list_to_map [("repository_id", FlowSource_RepositoryID source); ("branch", SourceResult_Branch result); ("source_sha", SourceResult_SHA result)].
Definition record_composed op token (i : nat) source (result : SourceResult) : Prog (res unit) :=
  let evidence := composed_evidence source result in
  let after := set_source i (with_result result) op in
  if SourceResult_Conflict result then
    if composes_dev op then admitSourceConflict op i result token evidence
    else try (transact (fun w _ st => saveCompositionConflict st after (with_result result source) token)) (fun _ =>
         finish after token "BLOCKED" ("source conflict: " +:+ SourceResult_Detail result) evidence)
  else if negb (fullSHA (SourceResult_SHA result)) || (SourceResult_Branch result != SourcePlan_TargetBranch (FlowSource_Plan source))
  then finish op token "BLOCKED" "provider returned invalid composition identity" evidence
  else if composes_dev op then
    blocked_on op token evidence (verifyRetainedSource after (with_result result source)) (fun _ =>
    admitSourceProgress op after token "COMPOSE_SOURCE" "COMPOSING" "retained generated source verified" evidence)
  else advance after token "COMPOSE_SOURCE" "COMPOSING" "source composition recorded" evidence.
Definition recover_composed op token (i : nat) source : Prog (res unit) :=
  let plan := FlowSource_Plan source in
  if negb scoped_git_observer then check (invalid "source read-only recovery unavailable" [])
  else
    '(b, e) ← ask (ObserveBranch (FlowSource_Connection source) (repository_of source) (SourcePlan_TargetBranch plan));
    if is_some e || (BranchInfo_Name b != SourcePlan_TargetBranch plan) || negb (fullSHA (BranchInfo_SHA b))
    then check (invalid "source composition outcome unresolved; no write repeated" [])
    else
      let result := (zero : SourceResult) <| SourceResult_Branch := BranchInfo_Name b |> <| SourceResult_SHA := BranchInfo_SHA b |> in
      if negb composed_source_verifier then check (invalid "source read-only verifier unavailable" [])
      else try (asked (VerifyComposedSource (FlowSource_Connection source) plan result)) (fun _ => record_composed op token i source result).
Definition compose_new op token (i : nat) source : Prog (res unit) :=
  try (beginReservationMutation op token "SOURCE") (fun _ =>
  '(result, e) ← ask (ComposeSource (FlowSource_Connection source) (FlowSource_Plan source));
  match e with
  | Some e => finish op token "FAILED" ("source composition failed: " +:+ e) ∅
  | None => record_composed op token i source result
  end).
Definition compose_one op token (i : nat) source : Prog (res unit) :=
  blocked_on op token ∅ (validateFlowSource op source) (fun _ =>
  try (if composes_dev op then checkRetentionLease op token else check (Ok ())) (fun _ =>
  try (reservationMutationRecovery op token) (fun recovering =>
  if recovering : bool then recover_composed op token i source else compose_new op token i source))).
Fixpoint compose_loop op token (i : nat) (l : list FlowSource) : Prog (res unit) :=
  match l with
  | [] => advance op token (if ExternalOperation_Kind op == "RELEASE_CANDIDATE" then "ADVANCE_MAIN" else "QUEUE_BUILDS") "SOURCE_READY"
            "all component source compositions ready" ∅
  | source :: l =>
    if is_some (FlowSource_Result source) then
      blocked_on op token ∅ (if composes_dev op then verifyRetainedSource op source else check (Ok ())) (fun _ => compose_loop op token (S i) l)
    else compose_one op token i source
  end.
Definition compose_sources op token : Prog (res unit) :=
  if source_provider then compose_loop op token 0 (ExternalOperation_Sources op)
  else finish op token "BLOCKED" "source provider does not support composition" ∅.
Definition compose_phase op token : Prog (res unit) :=
  if composes_dev op then
    '(waits, r) ← retainFlowSources op token;
    if waits : bool then Ret r else blocked op token ∅ r (fun _ => compose_sources op token)
  else compose_sources op token.

(** *** Advancing main *)
Definition advanced_by (plan : SourcePlan) (result advanced : SourceResult) : bool :=
  negb (SourceResult_Conflict advanced) && (SourceResult_SHA advanced == SourceResult_SHA result) && (SourceResult_Branch advanced == SourcePlan_BaseRef plan).
Fixpoint advance_loop op token (i : nat) (l : list FlowSource) : Prog (res unit) :=
  match l with
  | [] => advance op token "QUEUE_BUILDS" "SOURCE_READY" "selected main commits pinned" ∅
  | source :: l =>
    let plan := FlowSource_Plan source in
    if FlowSource_MainAdvanced source then advance_loop op token (S i) l
    else match FlowSource_Result source with
    | None => finish op token "FAILED" "missing selected source result" ∅
    | Some result =>
      try (beginReservationMutation op token "SOURCE") (fun _ =>
      '(advanced, e) ← ask (AdvanceMain (FlowSource_Connection source) (SourcePlan_Repository plan) (SourcePlan_BaseRef plan) (SourcePlan_BaseSHA plan)
                              (SourceResult_SHA result));
      match e with
      | Some e => finish op token "FAILED" ("main advance failed; inspect partial repository progress: " +:+ e) ∅
      | None =>
        if negb (advanced_by plan result advanced) then finish op token "BLOCKED" "main advance did not preserve selected commit" ∅
        else advance (set_source i (fun s => s <| FlowSource_MainAdvanced := true |>) op) token "ADVANCE_MAIN" "UPDATING_MAIN"
               "selected source advanced main" (two "repository_id" (FlowSource_RepositoryID source) "source_sha" (SourceResult_SHA advanced))
      end)
    end
  end.
Definition advance_phase op token : Prog (res unit) :=
  if source_provider then advance_loop op token 0 (ExternalOperation_Sources op)
  else finish op token "BLOCKED" "source provider cannot advance main" ∅.

(** ** The deployments of the components — [queueFlowChildren] *)
Definition child_meta `{World} (site : string) op (n : nat) (t : Time) : Meta := mkMeta (fresh site n) (ProductID op) "" (ExternalOperation_RequestedBy op) t t.
Definition child_operation `{World} op (phase : string) (snap : DeliverySnapshot) (n : nat) (t : Time) : ExternalOperation :=
  (zero : ExternalOperation) <| ExternalOperation_Meta := child_meta "queueFlowChildren" op n t |> <| ExternalOperation_ParentID := ID op |>
    <| ExternalOperation_Kind := "DEPLOY" |> <| ExternalOperation_Status := "PENDING" |> <| ExternalOperation_Phase := phase |>
    <| ExternalOperation_CurrentStep := phase |> <| ExternalOperation_EnvironmentID := ExternalOperation_EnvironmentID op |>
    <| ExternalOperation_ApplicationID := ID (DeliverySnapshot_Application snap) |> <| ExternalOperation_Snapshot := Some snap |>
    <| ExternalOperation_RequestedBy := ExternalOperation_RequestedBy op |> <| ExternalOperation_NextAttemptAt := t |>.
(** A promotion deploys the artifacts of its candidate. *)
Definition promotion_child `{World} (st : State) op (t : Time) (acc : list ExternalOperation) (childID : string) : res (list ExternalOperation) :=
  match operationByID st childID with
  | None => invalid "candidate component evidence missing" []
  | Some built =>
    match ExternalOperation_Snapshot built, ExternalOperation_Artifact built with
    | Some snap, Some artifact =>
      _ ← reject_if (ExternalOperation_Status built != "SUCCEEDED") (invalid "candidate component evidence missing" []);
      Ok (acc ++ [(child_operation op "PROMOTION_PREFLIGHT" snap (length acc) t)
                    <| ExternalOperation_ReleaseCandidateID := ExternalOperation_ReleaseCandidateID op |>
                    <| ExternalOperation_Artifact := Some artifact |> <| ExternalOperation_ExpectedDigest := ArtifactResult_Digest artifact |>
                    <| ExternalOperation_Run := ExternalOperation_Run built |>])
    | _, _ => invalid "candidate component evidence missing" []
    end
  end.
Definition promotion_children `{World} (st : State) op (t : Time) : res (list ExternalOperation) :=
  match operationByID st (ExternalOperation_ReleaseCandidateID op) with
  | None => invalid "candidate missing" []
  | Some candidate => foldM (promotion_child st op t) [] (ExternalOperation_ChildIDs candidate)
  end.
(** The composed source of a component: the last one of its repository, or
    the main commit its candidate has pinned. *)
Definition pinned_source (p : MainCandidateRepository) : FlowSource :=
  (zero : FlowSource) <| FlowSource_RepositoryID := MainCandidateRepository_RepositoryID p |>
    <| FlowSource_Plan := (zero : SourcePlan) <| SourcePlan_BaseSHA := MainCandidateRepository_MainSHA p |>
                            <| SourcePlan_BaseRef := MainCandidateRepository_MainRef p |> |>
    <| FlowSource_Result := Some ((zero : SourceResult) <| SourceResult_SHA := MainCandidateRepository_MainSHA p |>
                                    <| SourceResult_Branch := MainCandidateRepository_MainRef p |>) |>.
Definition component_composed op (repositoryID : string) : option FlowSource :=
  let composed := find_last (fun s => FlowSource_RepositoryID s == repositoryID) (ExternalOperation_Sources op) in
  match ExternalOperation_MainCandidate op with
  | Some p => match find_last (fun s => MainCandidateRepository_RepositoryID s == repositoryID) (MainCandidateProof_Sources p) with
              | Some pinned => Some (pinned_source pinned)
              | None => composed
              end
  | None => composed
  end.
Definition composed_request (snap : DeliverySnapshot) (sha operationID : string) (t : Time) (r : BuildRequest) : BuildRequest :=
  let tag := "rcp-" +:+ sha in
  r <| BuildRequest_SourceSHA := sha |> <| BuildRequest_ImageTag := tag |> <| BuildRequest_OperationID := operationID |>
    <| BuildRequest_RequestedAt := t |>
    <| BuildRequest_Inputs ::= fun m => <["image_repository" := ComponentBuild_ImageRepository (DeliverySnapshot_Build snap)]>
         (<["operation_id" := operationID]> (<["image_tag" := tag]> (<["source_sha" := sha]> m))) |>.
Definition composed_revision `{World} op source (result : SourceResult) (branch : string) (n : nat) (t : Time) : IntegrationRevision :=
  mkIntegrationRevision (child_meta "queueFlowChildren revision" op n t) "" (FlowSource_RepositoryID source) branch
    (SourcePlan_BaseSHA (FlowSource_Plan source)) (SourceResult_SHA result) [SourceResult_SHA result].
Definition composed_snapshot `{World} op source (result : SourceResult) (branch : string) (n : nat) (t : Time) (prepared : DeliverySnapshot)
    : DeliverySnapshot :=
  prepared <| DeliverySnapshot_Revision := composed_revision op source result branch n t |>
    <| DeliverySnapshot_BuildRequest ::= composed_request prepared (SourceResult_SHA result) (fresh "queueFlowChildren" n) t |>.
Definition child_authority `{World} (parent : ExternalOperation) op (snap : DeliverySnapshot) : res (option NativeDelivery) :=
  if native_build snap then
    _ ← validateFrozenNative (ProductID op) snap (Meta_CreatedAt (ExternalOperation_Meta op));
    match DeliverySnapshot_Native snap with
    | Some n => Ok (Some (n <| NativeDelivery_ParentHash := nativeParentHash parent |>))
    | None => Err ErrPanic
    end
  else Ok None.
Definition built_child `{World} (parent : ExternalOperation) op (t : Time) (acc : list ExternalOperation) (prepared : DeliverySnapshot)
    : res (list ExternalOperation) :=
  match component_composed op (Application_RepositoryID (DeliverySnapshot_Application prepared)) with
  | None => invalid "component composed source missing" []
  | Some source =>
    match FlowSource_Result source with
    | None => invalid "component composed source missing" []
    | Some result =>
      _ ← reject_if (negb (fullSHA (SourceResult_SHA result))) (invalid "component composed source missing" []);
      let candidate := ExternalOperation_Kind op == "RELEASE_CANDIDATE" in
      _ ← reject_if (candidate && negb (FlowSource_MainAdvanced source) && negb (is_some (ExternalOperation_MainCandidate op)))
            (invalid "main not advanced" []);
      let branch := if candidate then SourcePlan_BaseRef (FlowSource_Plan source) else SourceResult_Branch result in
      let snap := composed_snapshot op source result branch (length acc) t prepared in
      native ← child_authority parent op snap;
      let phase := if is_some (ExternalOperation_MainCandidate op) then "NATIVE_BUILD" else "PREFLIGHT" in
      Ok (acc ++ [(child_operation op phase snap (length acc) t) <| ExternalOperation_Native := native |> <| ExternalOperation_BuildOnly := candidate |>])
    end
  end.
Definition built_children `{World} (parent : ExternalOperation) op (t : Time) : res (list ExternalOperation) :=
  _ ← reject_if (bool_decide (ExternalOperation_PreparedDeployments op = [])) (invalid "frozen component configuration missing" []);
  foldM (built_child parent op t) [] (ExternalOperation_PreparedDeployments op).
Definition awaiting `{World} (children : list string) (t : Time) (v : ExternalOperation) : ExternalOperation :=
  v <| ExternalOperation_ChildIDs := children |> <| ExternalOperation_Phase := "WAIT_CHILDREN" |> <| ExternalOperation_CurrentStep := "WAIT_CHILDREN" |>
    <| ExternalOperation_DeploymentState := "WAITING_FOR_COMPONENTS" |> <| ExternalOperation_Status := "RUNNING" |>
    <| ExternalOperation_Meta ::= fun m => m <| Meta_UpdatedAt := t |> |> <| ExternalOperation_NextAttemptAt := (t + 2 * second)%Z |>
    <| ExternalOperation_LeaseOwner := "" |> <| ExternalOperation_LeaseUntil := 0%Z |>.
Definition queued_evidence op (verifiedAt : Time) : gmap string string :=
  if composes_dev op then two "source_snapshot_hash" (backupHash (ExternalOperation_Sources op)) "observed_at" (format_nano verifiedAt) else ∅.
(** What must hold of the parent when its children are admitted. *)
Definition queue_fences `{World} (cancelled : bool) op (token : string) (st : State) (parent : ExternalOperation) : res unit :=
  _ ← reject_if (ExternalOperation_LeaseOwner parent != token) (invalid "operation lease lost" []);
  _ ← service_flowGuard st parent;
  _ ← (if composes_dev op then _ ← reject_if cancelled (plain "context canceled"); retentionLease _ st op token else Ok ());
  _ ← (if is_some (ExternalOperation_MainCandidate op) then
         _ ← reject_if cancelled (plain "context canceled");
         reject_if (negb (After (ExternalOperation_LeaseUntil parent) (now "queueFlowChildren candidate" 0)) || (nativeParentHash parent != nativeParentHash op))
           (invalid "main candidate lease or frozen source changed" [])
       else Ok ());
  reject_if (negb (bool_decide (ExternalOperation_ChildIDs parent = []))) (invalid "component operations already queued" []).
Definition queue_tx `{World} (cancelled : bool) op (token : string) (verifiedAt : Time) (st : State) : res State :=
  match operationByID st (ID op) with
  | None => invalid "operation lease lost" []
  | Some parent =>
    _ ← queue_fences cancelled op token st parent;
    let t := now "queueFlowChildren" 0 in
    children ← (if ExternalOperation_Kind op == "RELEASE_PROMOTION" then promotion_children st op t else built_children parent op t);
    _ ← reject_if (bool_decide (children = [])) (invalid "no child operations prepared" []);
    _ ← (if composes_dev op then
           _ ← reject_if cancelled (plain "context canceled");
           reject_if (negb (After (ExternalOperation_LeaseUntil parent) (now "queueFlowChildren lease" 0)))
             (invalid "composition lease expired before child admission" [])
         else Ok ());
    let step := mkOperationStep (flow_meta "queueFlowChildren step" "" op t) (ID op) "QUEUE_COMPONENTS" "SUCCEEDED"
                  ("queued " +:+ decimal (Z.of_nat (length children)) +:+ " component operations") (queued_evidence op verifiedAt) in
    Ok ((set_operation (ID op) (awaiting (map ID children) t) st)
          <| State_OperationSteps ::= fun l => l ++ [step] |>
          <| State_Operations ::= fun l => l ++ map (fun child => child <| ExternalOperation_ReservationEpoch := ExternalOperation_ReservationEpoch parent |>) children |>)
  end.
(** A candidate's merged sources, observed again before its operation goes on. *)
Definition observed_op op : Prog (res ExternalOperation) :=
  if is_some (ExternalOperation_MainCandidate op) then observe_candidate false op else check (Ok op).
Definition queueFlowChildren op token : Prog (res unit) :=
  blocked_on op token ∅ (observed_op op) (fun op =>
  try (if composes_dev op then checkRetentionLease op token else check (Ok ())) (fun _ =>
  blocked_on op token ∅ (if composes_dev op then loop (fun _ source => verifyRetainedSource op source) tt (ExternalOperation_Sources op)
                         else check (Ok ())) (fun _ =>
  w ← effect Fresh;
  let verifiedAt := now "queueFlowChildren verified" 0 in
  transact (fun w cancelled st => queue_tx cancelled op token verifiedAt st)))).

(** ** The release is recorded — [finishFlowRelease] *)
(** The latest runtime observation of an operation; of equally late ones the last. *)
Definition latest_observation (st : State) (operationID : string) : option RuntimeObservation :=
  foldl (fun latest r =>
    if (RuntimeObservation_OperationID r == operationID)
       && match latest with Some l => negb (Before (CreatedAt r) (CreatedAt l)) | None => true end
    then Some r else latest) None (State_RuntimeObservations st).
Definition matches_outputs (r : RuntimeObservation) (result : GitOpsResult) (artifact : ArtifactResult) : bool :=
  (RuntimeObservation_GitOpsCommit r == GitOpsResult_CommitSHA result) && (RuntimeObservation_ArtifactDigest r == ArtifactResult_Digest artifact).
Definition release_component (st : State) (record : Release) (childID : string) : res Release :=
  let outputs := invalid "release component outputs missing" [] in
  match operationByID st childID with
  | None => outputs
  | Some child =>
    match ExternalOperation_Snapshot child, ExternalOperation_Artifact child, ExternalOperation_GitOpsResult child with
    | Some snap, Some artifact, Some result =>
      match latest_observation st childID with
      | None => invalid "runtime evidence changed" []
      | Some latest =>
        _ ← reject_if (negb (RuntimeObservation_Healthy latest) || negb (matches_outputs latest result artifact)) (invalid "runtime evidence changed" []);
        let app := ExternalOperation_ApplicationID child in
        Ok (record <| Release_SourceCommits ::= <[app := IntegrationRevision_HeadCommit (DeliverySnapshot_Revision snap)]> |>
                   <| Release_ArtifactDigests ::= <[app := ArtifactResult_Digest artifact]> |>
                   <| Release_GitOpsCommits ::= <[app := GitOpsResult_CommitSHA result]> |>)
      end
    | _, _, _ => outputs
    end
  end.
Definition release_integration (t : Time) (acc : State * Release) (iid : string) : res (State * Release) :=
  let '(st, record) := acc in
  match integration st iid with
  | None => invalid "released integration missing" []
  | Some v =>
    let v := v <| Integration_Status := "released" |> <| Integration_Meta ::= fun m => m <| Meta_UpdatedAt := t |> |> in
    Ok (st <| State_Integrations ::= update_first (has_id iid) (fun _ => v) |>, record <| Release_Snapshots ::= fun l => l ++ [v] |>)
  end.
Definition new_release `{World} op (t : Time) : res Release :=
  match ExternalOperation_CompositionSnapshot op with
  | None => Err ErrPanic
  | Some comp =>
    Ok ((zero : Release) <| Release_Meta := child_meta "finishFlowRelease" op 0 t |> <| Release_Name := Composition_Name comp |>
      <| Release_EnvironmentID := ExternalOperation_EnvironmentID op |> <| Release_Status := "released" |>
      <| Release_ExecutionOperationID := ID op |> <| Release_CandidateOperationID := ExternalOperation_ReleaseCandidateID op |>
      <| Release_IntegrationIDs := ExternalOperation_IntegrationIDs op |>)
  end.
Definition released_operation (t : Time) (v : ExternalOperation) : ExternalOperation :=
  v <| ExternalOperation_Status := "SUCCEEDED" |> <| ExternalOperation_DeploymentState := "DEPLOYED" |>
    <| ExternalOperation_Detail := "verified main-derived release runtime confirmed" |>
    <| ExternalOperation_Meta ::= fun m => m <| Meta_UpdatedAt := t |> |> <| ExternalOperation_FinishedAt := Some t |>
    <| ExternalOperation_LeaseOwner := "" |> <| ExternalOperation_LeaseUntil := 0%Z |>.
Definition release_tx `{World} op (token : string) (st : State) : res State :=
  match operationByID st (ID op) with
  | None => invalid "operation lease lost" []
  | Some parent =>
    _ ← reject_if (ExternalOperation_LeaseOwner parent != token) (invalid "operation lease lost" []);
    _ ← service_flowGuard st parent;
    let t := now "finishFlowRelease" 0 in
    record ← new_release op t;
    record ← foldM (release_component st) record (ExternalOperation_ChildIDs parent);
    '(st, record) ← foldM (release_integration t) (st, record) (ExternalOperation_IntegrationIDs op);
    let st := if existsb (fun r => Release_ExecutionOperationID r == ID op) (State_Releases st) then st
              else st <| State_Releases ::= fun l => l ++ [record] |> in
    let step := mkOperationStep (flow_meta "finishFlowRelease step" "" op t) (ID op) "RELEASE_RECORDED" "SUCCEEDED"
                  "verified main-derived release runtime confirmed" (one "release_id" (ID record)) in
    Ok ((set_operation (ID op) (released_operation t) st) <| State_OperationSteps ::= fun l => l ++ [step] |>)
  end.
Definition finishFlowRelease op token : Prog (res unit) := transact (fun w _ st => release_tx op token st).

(** ** Waiting *)
Fixpoint await_children (st : State) op token (ids : list string) (done : Prog (res unit)) : Prog (res unit) :=
  match ids with
  | [] => done
  | childID :: ids =>
    match operationByID st childID with
    | None => finish op token "FAILED" "component operation missing" ∅
    | Some child =>
      if contains ["FAILED"; "CANCELLED"] (ExternalOperation_Status child) then
        finish op token "FAILED" ("component operation " +:+ childID +:+ ": " +:+ ExternalOperation_Detail child) ∅
      else if ExternalOperation_Status child != "SUCCEEDED" then retry op token "waiting for component operations"
      else await_children st op token ids done
    end
  end.
Definition wait_children (st : State) op token : Prog (res unit) :=
  if bool_decide (ExternalOperation_ChildIDs op = []) then finish op token "FAILED" "no component operations" ∅
  else await_children st op token (ExternalOperation_ChildIDs op)
         (if ExternalOperation_Kind op == "RELEASE_CANDIDATE"
          then finish op token "READY_FOR_VERIFICATION" "main-derived artifacts await isolated candidate verification" ∅
          else advance op token "WAIT_RUNTIME" "PENDING_RECONCILIATION" "GitOps applied; waiting for exact runtime evidence" ∅).
Fixpoint await_runtime (st : State) op token (ids : list string) (done : Prog (res unit)) : Prog (res unit) :=
  match ids with
  | [] => done
  | childID :: ids =>
    match (child ← operationByID st childID; result ← ExternalOperation_GitOpsResult child; artifact ← ExternalOperation_Artifact child; Some (result, artifact)) with
    | None => finish op token "FAILED" "deployment output missing" ∅
    | Some (result, artifact) =>
      let here := fun r => (RuntimeObservation_EnvironmentID r == ExternalOperation_EnvironmentID op) && matches_outputs r result artifact in
      let waiting := retry op token "waiting for healthy runtime evidence matching each GitOps commit and image digest" in
      match latest_observation st childID with
      | None => waiting
      | Some latest =>
        if negb (here latest) then waiting
        else if negb (RuntimeObservation_Healthy latest) then
          finish op token "FAILED" ("runtime unhealthy: " +:+ RuntimeObservation_Details latest) (one "operation_id" childID)
        else await_runtime st op token ids done
      end
    end
  end.
Definition wait_runtime (st : State) op token : Prog (res unit) :=
  await_runtime st op token (ExternalOperation_ChildIDs op)
    (if ExternalOperation_Kind op == "RELEASE_PROMOTION" then finishFlowRelease op token
     else finish op token "DEPLOYED" "exact composition runtime confirmed by recorded executor evidence" ∅).

(** ** One step of a flow *)
Definition flow_phase (st : State) op token : Prog (res unit) :=
  let phase := ExternalOperation_Phase op in
  if phase == "COMPOSE_SOURCE" then compose_phase op token
  else if phase == "ADVANCE_MAIN" then advance_phase op token
  else if contains ["QUEUE_BUILDS"; "QUEUE_DEPLOYMENTS"] phase then queueFlowChildren op token
  else if phase == "WAIT_CHILDREN" then wait_children st op token
  else if phase == "WAIT_RUNTIME" then wait_runtime st op token
  else finish op token "FAILED" "unknown flow phase" ∅.
Definition tickFlow op token : Prog (res unit) :=
  try service_state (fun st =>
  w ← effect Fresh;
  blocked op token ∅ (service_flowGuard st op) (fun _ =>
  blocked op token ∅ (if composes_dev op then validSourceRetention (now "tickFlow") op else Ok ()) (fun _ =>
  blocked_on op token ∅ (observed_op op) (fun op => flow_phase st op token)))).
(** The steps of [Tick]: the flows, and the kinds that are left. *)
Definition flow_step (rest : ExternalOperation -> string -> Prog (res unit)) op token : Prog (res unit) :=
  if contains flow_kinds (ExternalOperation_Kind op) then tickFlow op token else rest op token.
Definition flow_steps (rest : ExternalOperation -> string -> Prog (res unit)) : OtherSteps := {| other_step := flow_step rest |}.
End flow.
