(* ===== verification/BaselineWorker.v ===== *)
(** * The worker that captures a baseline

    dev_baseline_worker.go: [capturePhysicalBaseline] reads what every
    component of the shared composition runs, [stageBaseline] protects these
    images and queues an observation of the registry for each one without a
    recorded artifact, and the last phase of [tickDevBaseline] inspects the
    artifacts, takes the receipts of the observations, reads the runtime and
    records the capture. *)
From S2P Require Import Prelude GoText Worklist GoJson Delivery Domain Status Planning Handlers DeviceAuth Collections ExternalSystems Reservation Composition Conflicts Scenarios Pins WorkerAuth WorkerJobs Publications Registry Restoration Checks Retention RetentionReport WorkerProtocol External Candidates Activation FlowGuards RegistryRefresh Effects Saving SourceChecks DevRuntime ActivationWorker Operations Baseline RuntimeWorker FlowWorker.
Open Scope string_scope.
Open Scope list_scope.

Section capture.
Context `{Runtime, NetURL, URLs, Hashing, Encoding, MapOrder, TimeLayout, Crypto, Operator}.
Context `{Upper, RestorationEvidence, Capabilities, Observers, Baselines, ComposeLease}.
Implicit Types (op : ExternalOperation) (st : State) (p : DevBaselineProof) (c : DevBaselineComponent).

(** ** The lease — dev_baseline.go [validateBaselineIO] *)
Definition validateBaselineIO op : Prog (res unit) :=
  try alive (fun _ => try (effect Read) (fun st => w ← effect Fresh;
  check (_ ← live_lease op st "validateBaselineIO" "baseline capture lease unavailable"; baselineAllowed st op true true))).

(** ** Who may observe an image that has no artifact *)
Definition observes_component (product : string) c (a : RegistryObservationAuthority) : bool :=
  let scope := RegistryObservationAuthority_Scope a in
  RegistryObservationAuthority_Current a && (RegistryScope_ProductID scope == product)
  && (RegistryScope_ComponentID scope == DevBaselineComponent_ApplicationID c)
  && (RegistryScope_RepositoryID scope == DevBaselineComponent_RepositoryID c)
  && (RegistryScope_ImageRepository scope == DevBaselineComponent_ImageRepository c).
Definition observer_recipes st (product : string) c (t : Time) : list RegistryObserveRecipe :=
  match externalWorkers with
  | None => []
  | Some o => omap (fun a => if observes_component product c a then observation o (RegistryObservationAuthority_RecipeID a) else None)
                (registryAuthorities st t)
  end.
Definition baselineObservationAuthority st (product : string) c (t : Time) : res RegistryObserveRecipe :=
  match observer_recipes st product c t with
  | [r] => Ok r
  | _ => invalid "one exact current configured baseline registry observer required" []
  end.

(** ** What the components run *)
Definition exact_image c (v : GitOpsSnapshot) : bool :=
  (GitOpsSnapshot_ImageRepository v == DevBaselineComponent_ImageRepository c) && validArtifactDigest (GitOpsSnapshot_Digest v)
  && fullSHA (GitOpsSnapshot_HeadSHA v) && fullSHA (GitOpsSnapshot_BlobSHA v) && (GitOpsSnapshot_Content v != "").
Definition observed_image c (v : GitOpsSnapshot) (revision : GitOpsRevisionProof) : DevBaselineComponent :=
  c <| DevBaselineComponent_Digest := GitOpsSnapshot_Digest v |>
    <| DevBaselineComponent_ObservedGitOps := Some (runtimeGitOpsObservation v) |> <| DevBaselineComponent_Revision := Some revision |>.
(** An image with a recorded artifact names it; another one must be observable. *)
Definition with_artifact st op c (t : Time) : res DevBaselineComponent :=
  known ← findBaselineArtifact st (ProductID op) c;
  match known with
  | Some a => Ok (c <| DevBaselineComponent_ArtifactID := ID a |> <| DevBaselineComponent_ArtifactHash := Fingerprint a |>)
  | None => _ ← baselineObservationAuthority st (ProductID op) c t; Ok c
  end.
Definition head_request c (head : string) : GitOpsRequest :=
  if head == "" then DevBaselineComponent_GitOps c else (DevBaselineComponent_GitOps c) <| GitOpsRequest_ExpectedHeadSHA := head |>.
Definition head_ancestry c (head : string) : GitOpsRevisionRequest :=
  mkGitOpsRevisionRequest (GitOpsRequest_Repository (DevBaselineComponent_GitOps c)) (GitOpsRequest_Ref (DevBaselineComponent_GitOps c)) head [head].
Definition capture_component op st (acc : gmap string string * list DevBaselineComponent) c
    : Prog (res (gmap string string * list DevBaselineComponent)) :=
  let '(heads, done) := acc in
  try (check (scopedConnection st (DevBaselineComponent_ConnectionID c) (ProductID op))) (fun connection =>
  let config := GitHubConnection_Config connection in
  let key := runtimeGitOpsGroupKey config (DevBaselineComponent_GitOps c) in
  let known := default "" (heads !! key) in
  try (validateBaselineIO op) (fun _ =>
  '(actual, e) ← ask (ReadGitOps config (head_request c known));
  if is_some e then check (invalid "baseline GitOps read unavailable" [])
  else if negb (exact_image c actual) then check (invalid "baseline exact immutable component GitOps image required" [])
  else if (known != "") && (known != GitOpsSnapshot_HeadSHA actual) then check (invalid "baseline common GitOps head drift" [])
  else try (validateBaselineIO op) (fun _ =>
    let ancestry := head_ancestry c (GitOpsSnapshot_HeadSHA actual) in
    '(revision, e) ← ask (VerifyGitOpsRevision config ancestry);
    if is_some e || negb (validRevisionProof ancestry revision) then check (invalid "baseline exact GitOps identity unavailable" [])
    else
      w ← effect Fresh;
      check (c ← with_artifact st op (observed_image c actual revision) (now "baselineObservationAuthority" 0);
             Ok (<[key := GitOpsSnapshot_HeadSHA actual]> heads, done ++ [c]))))).
Definition capturePhysicalBaseline op p : Prog (res DevBaselineProof) :=
  try (effect Read) (fun st =>
  if negb gitops_revision_verifier then check (Err ErrPanic)
  else try (loop (capture_component op st) (∅, []) (DevBaselineProof_Components p)) (fun '(_, components) =>
    let p := p <| DevBaselineProof_Components := components |> in
    let p := p <| DevBaselineProof_SnapshotHash := baselineProofHash p |> in
    check (_ ← require (baselineSize p None) "baseline staged proof bound exceeded"; Ok p))).

(** ** Protecting the images and asking for observations *)
Definition capture_key op c : string := "baseline-registry-" +:+ str_drop 7 (Fingerprint (ID op, DevBaselineComponent_ApplicationID c)).
(** The roots to observe, which the image is one of: the capture is in the
    state already, and protects it. *)
Definition protected_roots st op c (r : RegistryObserveRecipe) (t : Time) : res (list string * RetentionReport) :=
  let report := evaluateRetention st (ProductID op) t in
  let roots := known_roots report r in
  _ ← reject_if (negb (contains roots (DevBaselineComponent_Digest c)) || too_many r roots)
        (invalid "baseline protected registry roots missing or exceed limits" []);
  Ok (sort_strings roots, report).
Definition with_observation (job : WorkerJob) c : DevBaselineComponent :=
  c <| DevBaselineComponent_RegistryJobID := ID job |> <| DevBaselineComponent_RegistryInputHash := WorkerJob_InputHash job |>
    <| DevBaselineComponent_RegistryRootSetHash :=
         match WorkerInputs_Registry (WorkerJob_Inputs job) with Some r => WorkerRegistryInputs_RootSetHash r | None => "" end |>.
(** The operation shares the components with the loop: what is assigned to
    one of them is seen through the operation at once. *)
Definition set_capture op p st : State := set_operation (ID op) (fun v => v <| ExternalOperation_DevBaseline := Some p |>) st.
Definition add_child op (child : string) st : State :=
  set_operation (ID op) (fun v => v <| ExternalOperation_ChildIDs ::= fun l => l ++ [child] |>) st.
Definition queue_capture `{World} op (x : State * DevBaselineProof) (ic : nat * DevBaselineComponent) : res (State * DevBaselineProof) :=
  let '(st, p) := x in
  let '(i, c) := ic in
  if DevBaselineComponent_ArtifactID c != "" then Ok x
  else
    r ← baselineObservationAuthority st (ProductID op) c (now "baselineObservationAuthority" i);
    '(roots, report) ← protected_roots st op c r (now "stageBaseline.roots" i);
    match externalWorkers with
    | None => Err ErrPanic
    | Some o =>
      let inputs := observation_inputs_of r (Revision o) (DevBaselineComponent_RepositoryID c)
                      (repository_url st (ProductID op) (DevBaselineComponent_RepositoryID c)) roots report in
      let t := now "stageBaseline.queue" i in
      let m := mkMeta (fresh "stageBaseline" (2 * i)) (ProductID op) "" (ExternalOperation_RequestedBy op) t t in
      let child := observation_child m (ID op) "" (DevBaselineComponent_ApplicationID c) (DevBaselineComponent_RepositoryID c)
                     (ExternalOperation_RequestedBy op) inputs in
      let job := observation_job (m <| Meta_ID := fresh "stageBaseline" (2 * i + 1) |>) (ID child) (capture_key op c) (Fingerprint inputs) ""
                   inputs (t + hour)%Z in
      let p := p <| DevBaselineProof_Components ::= alter (with_observation job) i |> in
      Ok (queue_observation child job (ExternalOperation_RequestedBy op) "baseline_registry_queued" t (add_child op (ID child) (set_capture op p st)), p)
    end.
Definition numbered {A} (l : list A) : list (nat * A) := imap (fun i x => (i, x)) l.
Definition waiting_capture (t : Time) p (current : ExternalOperation) : ExternalOperation :=
  current <| ExternalOperation_DevBaseline := Some p |> <| ExternalOperation_Phase := "WAIT_REGISTRY" |>
    <| ExternalOperation_CurrentStep := "WAIT_REGISTRY" |>
    <| ExternalOperation_Detail := "Original baseline images protected; awaiting exact availability evidence" |>
    <| ExternalOperation_Status := "RUNNING" |> <| ExternalOperation_LeaseOwner := "" |> <| ExternalOperation_LeaseUntil := 0%Z |>
    <| ExternalOperation_Meta ::= fun m => m <| Meta_UpdatedAt := t |> |> <| ExternalOperation_NextAttemptAt := t |>.
Definition stage_tx `{World} (cancelled : bool) op (token : string) p st : res State :=
  match operationByID st (ID op) with
  | None => invalid "baseline stage lease unavailable" []
  | Some current =>
    _ ← reject_if ((ExternalOperation_LeaseOwner current != token) || negb (After (ExternalOperation_LeaseUntil current) (now "stageBaseline" 0))
                   || cancelled) (invalid "baseline stage lease unavailable" []);
    _ ← baselineAllowed st op true true;
    '(st, p) ← foldM (queue_capture op) (set_capture op p st, p) (numbered (DevBaselineProof_Components p));
    let p := p <| DevBaselineProof_SnapshotHash := baselineProofHash p |> in
    _ ← require (baselineSize p None) "baseline queue proof bound exceeded";
    Ok (set_operation (ID op) (waiting_capture (now "stageBaseline" 1) p) st)
  end.
Definition stageBaseline op (token : string) p : Prog (res unit) := transact (fun w cancelled st => stage_tx cancelled op token p st).

(** ** Recording the capture *)
Definition sound_capture `{World} (cancelled : bool) st op (current : ExternalOperation) (result : option DevBaselineResult) : bool :=
  let t := now "finishBaseline" 0 in
  match result with
  | None => false
  | Some r =>
    negb cancelled && After (ExternalOperation_LeaseUntil current) t && is_ok (baselineAllowed st op true true)
    && is_ok (validateBaselineResult st op r) && recent (DevBaselineResult_ObservedAt r) t
  end.
Definition uncaptured op (reason : string) (t : Time) : DevBaselineResult :=
  let r := (zero : DevBaselineResult)
    <| DevBaselineResult_ExpectedHash := match ExternalOperation_DevBaseline op with Some p => DevBaselineProof_SnapshotHash p | None => "" end |>
    <| DevBaselineResult_Outcome := "UNVERIFIED" |>
    <| DevBaselineResult_Reason := if validRuntimeReason reason then reason else "AUTHORITY_CHANGED" |> <| DevBaselineResult_ObservedAt := t |> in
  r <| DevBaselineResult_Hash := baselineResultHash r |>.
Definition recorded_capture (valid : bool) (r : DevBaselineResult) (t : Time) (current : ExternalOperation) : ExternalOperation :=
  let failure := "Shared baseline unverified; candidate activation remains blocked (" +:+ DevBaselineResult_Reason r +:+ ")" in
  (if valid then ended "SUCCEEDED" "BASELINE_CAPTURED"
     "Original shared baseline captured at observation; no candidate effects, restoration or unlock performed" "" t
   else ended "FAILED" "BASELINE_UNVERIFIED" failure failure t) (current <| ExternalOperation_DevBaselineResult := Some r |>).
Definition fits op (r : DevBaselineResult) : bool :=
  match ExternalOperation_DevBaseline op with Some p => baselineSize p (Some r) | None => true end.
Definition finish_baseline_tx `{World} (cancelled : bool) op (token : string) (result : option DevBaselineResult) (reason : string) st : res State :=
  match operationByID st (ID op) with
  | None => invalid "baseline capture lease lost" []
  | Some current =>
    _ ← reject_if ((ExternalOperation_LeaseOwner current != token) || terminalOperation (ExternalOperation_Status current))
          (invalid "baseline capture lease lost" []);
    let t := now "finishBaseline" 0 in
    let valid := sound_capture cancelled st op current result in
    let r := match result with Some r => if valid then r else uncaptured op reason t | None => uncaptured op reason t end in
    _ ← require (fits op r) "baseline final proof bound exceeded";
    let v := recorded_capture valid r t current in
    Ok (set_operation (ID op) (fun _ => v) st
          <| State_OperationSteps ::= fun l => l ++ [ending_step "finishBaseline" "system/baseline-capture" op v t [("result_hash", DevBaselineResult_Hash r)]] |>)
  end.
Definition finishBaseline op (token : string) (result : option DevBaselineResult) (reason : string) : Prog (res unit) :=
  transact (fun w cancelled st => finish_baseline_tx cancelled op token result reason st).
Definition fail_baseline op (token reason : string) : Prog (res unit) := finishBaseline op token None reason.

(** ** The evidence of availability *)
Definition native_inspection op c (known : DeliveryArtifact) : ExternalOperation :=
  let revision := (zero : IntegrationRevision) <| IntegrationRevision_RepositoryID := DeliveryArtifact_RepositoryID known |>
                    <| IntegrationRevision_HeadCommit := DeliveryArtifact_SourceCommit known |> in
  let build := (zero : ComponentBuild) <| ComponentBuild_ImageRepository := DeliveryArtifact_ImageRepository known |> in
  (zero : ExternalOperation) <| ExternalOperation_Meta := mkMeta "" (ProductID op) "" "" 0%Z 0%Z |>
    <| ExternalOperation_ApplicationID := DevBaselineComponent_ApplicationID c |> <| ExternalOperation_ExistingArtifact := Some known |>
    <| ExternalOperation_Snapshot := Some ((zero : DeliverySnapshot) <| DeliverySnapshot_Revision := revision |> <| DeliverySnapshot_Build := build |>) |>.
Definition artifact_request (known : DeliveryArtifact) : ArtifactRequest :=
  let build := DeliveryArtifact_BuildRequest known in
  mkArtifactRequest (BuildRequest_Repository build) (DeliveryArtifact_BuildRunID known) (BuildRequest_OperationID build)
    (DeliveryArtifact_SourceCommit known) (DeliveryArtifact_ImageRepository known) (DeliveryArtifact_Tag known) (DeliveryArtifact_Digest known) "".
Definition inspectBaselineArtifact op c : Prog (res ArtifactResult) :=
  try (effect Read) (fun st =>
  try (check (baselineArtifact st (ProductID op) c)) (fun known =>
  if is_some (DeliveryArtifact_Native known) then inspectNativeArtifact (native_inspection op c known)
  else match repositoryBinding st (DeliveryArtifact_RepositoryID known) with
  | None => check (invalid "baseline artifact source authority missing" [])
  | Some binding =>
    try (check (scopedConnection st (RepositoryBinding_ConnectionID binding) (ProductID op))) (fun connection =>
    asked (InspectArtifact (GitHubConnection_Config connection) (artifact_request known)))
  end)).
Definition component_identity c (o : DevRuntimeGitOpsObservation) : DevBaselineComponentResult :=
  mkDevBaselineComponentResult (DevBaselineComponent_ApplicationID c) (DevBaselineComponent_ImageRepository c) (DevBaselineComponent_Digest c) o
    (DevBaselineComponent_ArtifactID c) (DevBaselineComponent_ArtifactHash c) None None.
Definition is_available c (a : ArtifactResult) : bool :=
  ArtifactResult_Available a && (ArtifactResult_Digest a == DevBaselineComponent_Digest c) && negb (IsZero (ArtifactResult_ObservedAt a)).
(** The results so far, or the reason why the capture fails. *)
Definition gathered : Type := string + list DevBaselineComponentResult.
Definition artifact_evidence op c (results : list DevBaselineComponentResult) (known : DevBaselineComponentResult) : Prog (res gathered) :=
  io ← validateBaselineIO op;
  match io with
  | Err _ => check (Ok (inl "AUTHORITY_CHANGED"))
  | Ok _ =>
    inspected ← inspectBaselineArtifact op c;
    check (Ok match inspected with
              | Ok a => if is_available c a then inr (results ++ [known <| DevBaselineComponentResult_Availability := Some a |>]) else inl "EVIDENCE_UNAVAILABLE"
              | Err _ => inl "EVIDENCE_UNAVAILABLE"
              end)
  end.
Definition receipt_evidence op st c (results : list DevBaselineComponentResult) (known : DevBaselineComponentResult) : Prog (res gathered) :=
  w ← effect Fresh;
  check (Ok match baselineRegistryReceipt st op c (now "tickDevBaseline" 0) with
            | Ok receipt => inr (results ++ [known <| DevBaselineComponentResult_Registry := Some receipt |>])
            | Err _ => inl "EVIDENCE_UNAVAILABLE"
            end).
Definition captured_evidence op st (acc : gathered) c : Prog (res gathered) :=
  match acc, DevBaselineComponent_ObservedGitOps c with
  | inl reason, _ => check (Ok (inl reason))
  | inr _, None => check (Err ErrPanic)
  | inr results, Some o =>
    if DevBaselineComponent_ArtifactID c != "" then artifact_evidence op c results (component_identity c o)
    else receipt_evidence op st c results (component_identity c o)
  end.

(** ** The step *)
(** Whether the observations of the registry have ended, and how. *)
Inductive awaited := Observed | Waiting | Refused (reason : string).
Definition awaited_component st op c : awaited :=
  if DevBaselineComponent_RegistryJobID c == "" then Observed
  else match baselineRegistryJob st op c with
  | Err _ => Refused "AUTHORITY_CHANGED"
  | Ok j =>
    if negb (workerTerminal (WorkerJob_Status j)) then Waiting
    else if WorkerJob_Status j != "SUCCEEDED" then Refused "EVIDENCE_UNAVAILABLE" else Observed
  end.
Fixpoint awaited_components st op (l : list DevBaselineComponent) : awaited :=
  match l with
  | [] => Observed
  | c :: l => match awaited_component st op c with Observed => awaited_components st op l | other => other end
  end.
Definition baseline_connection op st (connections : gmap string Connection) c : res (gmap string Connection) :=
  connection ← scopedConnection st (DevBaselineComponent_ConnectionID c) (ProductID op);
  Ok (<[DevBaselineComponent_ApplicationID c := GitHubConnection_Config connection]> connections).
Definition baselineConnections op st p : res (gmap string Connection) := foldM (baseline_connection op st) ∅ (DevBaselineProof_Components p).
Definition captured_result p (components : list DevBaselineComponentResult) (runtime : DevRuntimeResult) (t : Time) : DevBaselineResult :=
  let r := mkDevBaselineResult (DevBaselineProof_SnapshotHash p) "CAPTURED" "EXACT_SHARED_BASELINE_MATCH" t (Some runtime) components "" in
  r <| DevBaselineResult_Hash := baselineResultHash r |>.
Definition capture_gitops op (token : string) p : Prog (res unit) :=
  captured ← capturePhysicalBaseline op p;
  match captured with
  | Err ErrPanic => check (Err ErrPanic)
  | Err e => fail_baseline op token (runtimeFailureReason e)
  | Ok p =>
    staged ← stageBaseline op token p;
    match staged with
    | Err ErrPanic => check (Err ErrPanic)
    | Err e => fail_baseline op token (runtimeFailureReason e)
    | Ok _ => check (Ok ())
    end
  end.
Definition capture_runtime op (token : string) p st (components : list DevBaselineComponentResult) : Prog (res unit) :=
  match baselineConnections op st p, baselineRuntimeProof op p with
  | Err _, _ => fail_baseline op token "AUTHORITY_CHANGED"
  | Ok _, None => check (Err ErrPanic)
  | Ok connections, Some proof =>
    observed ← readRuntimeProof (validateBaselineIO op) connections proof;
    match observed with
    | Err ErrPanic => check (Err ErrPanic)
    | Err e => fail_baseline op token (runtimeFailureReason e)
    | Ok runtime => w ← effect Fresh; finishBaseline op token (Some (captured_result p components runtime (now "tickDevBaseline" 0))) ""
    end
  end.
Definition capture_registry op (token : string) p : Prog (res unit) :=
  try (effect Read) (fun st =>
  match awaited_components st op (DevBaselineProof_Components p) with
  | Refused reason => fail_baseline op token reason
  | Waiting => retry op token "waiting for causal baseline registry observation"
  | Observed =>
    try (loop (captured_evidence op st) (inr []) (DevBaselineProof_Components p)) (fun evidence =>
    match evidence with
    | inl reason => fail_baseline op token reason
    | inr components => capture_runtime op token p st components
    end)
  end).
Definition tickDevBaseline op (token : string) : Prog (res unit) :=
  io ← validateBaselineIO op;
  match io, ExternalOperation_DevBaseline op with
  | Err _, _ => fail_baseline op token "AUTHORITY_CHANGED"
  | Ok _, None => check (Err ErrPanic)
  | Ok _, Some p =>
    if ExternalOperation_Phase op == "CAPTURE_GITOPS" then capture_gitops op token p
    else if ExternalOperation_Phase op != "WAIT_REGISTRY" then fail_baseline op token "EVIDENCE_UNAVAILABLE"
    else capture_registry op token p
  end.

(** The steps of [Tick] that gather evidence, and the kinds that are left. *)
Definition evidence_step (rest : ExternalOperation -> string -> Prog (res unit)) op token : Prog (res unit) :=
  if ExternalOperation_Kind op == devBaselineKind then tickDevBaseline op token
  else if ExternalOperation_Kind op == devRuntimeKind then tickDevRuntime op token
  else rest op token.
Definition evidence_steps (rest : ExternalOperation -> string -> Prog (res unit)) : OtherSteps := {| other_step := evidence_step rest |}.
End capture.
