(* ===== verification/FlowIntent.v ===== *)
(** * What the worker of compositions writes to sources

    A step of a flow makes at most one write to a source, the pin of a
    revision, a composition or the advance of main.  It has announced the
    write in the transaction just before, under its lease and the guards of
    the flow; what it writes is what the operation has frozen; a composition
    is only written when every retained revision was seen at its ref and the
    source was compared with the recorded integrations commit by commit.  The
    statement is about every execution of a step, against any store and any
    replies. *)
From S2P Require Import Prelude GoText GoJson Delivery Domain Status Planning Handlers DeviceAuth Collections ExternalSystems Reservation Composition Conflicts Scenarios Pins WorkerAuth WorkerJobs Publications Registry Restoration Checks WorkerProtocol External Candidates Activation FlowGuards Effects Saving SourceRetention SourceChecks Operations OperationSafety Executions Flow FlowWorker.
Open Scope string_scope.
Open Scope list_scope.

(** ** The calls to watch *)
Definition source_write (A : Type) (c : Call A) : bool :=
  match c with EnsureRef _ _ _ _ | ComposeSource _ _ | AdvanceMain _ _ _ _ _ => true | _ => false end.
#[export] Instance source_watches : Watches source_write.
Proof. intros A c. destruct c; cbn; congruence. Qed.

(** ** What a provider has told *)
Definition told {A} (past : list Happening) (c : Call A) (a : A) : Prop := @Answered A c (a, None) ∈ past.
Definition descendant (past : list Happening) (source : FlowSource) (base head : string) : Prop :=
  exists v, told past (Compare (FlowSource_Connection source) (repository_of source) base head) v
  /\ CompareResult_BaseSHA v = base /\ CompareResult_HeadSHA v = head /\ CompareResult_Behind v = 0%Z.
(** The commits between origin and head are exactly those the integration
    declared, each once. *)
Definition ExactHistory (r : IntegrationRevision) (v : CompareResult) : Prop :=
  CompareResult_BaseSHA v = IntegrationRevision_BaseCommit r /\ CompareResult_HeadSHA v = IntegrationRevision_HeadCommit r
  /\ CompareResult_Behind v = 0%Z /\ NoDup (IntegrationRevision_Commits r)
  /\ map CommitInfo_SHA (CompareResult_Commits v) ≡ₚ IntegrationRevision_Commits r.
Definition InRepository (comp : Composition) (source : FlowSource) (r : IntegrationRevision) : Prop :=
  r ∈ Composition_RevisionSnapshots comp /\ IntegrationRevision_RepositoryID r = FlowSource_RepositoryID source.
Section proven.
Context `{Runtime}.
(** A source as [validateFlowSource] has found it. *)
Record SourceProven (op : ExternalOperation) (source : FlowSource) (past : list Happening) : Prop := {
  proven_main : exists branches, told past (Branches (FlowSource_Connection source) (repository_of source)) branches
    /\ let main := branch_sha (SourcePlan_BaseRef (FlowSource_Plan source)) branches in
       fullSHA main = true /\ (SourcePlan_BaseSHA (FlowSource_Plan source) = main
                               \/ descendant past source (SourcePlan_BaseSHA (FlowSource_Plan source)) main);
  proven_distinct : NoDup (SourcePlan_HeadSHAs (FlowSource_Plan source));
  proven_heads : exists comp, ExternalOperation_CompositionSnapshot op = Some comp
    /\ (forall head, head ∈ SourcePlan_HeadSHAs (FlowSource_Plan source) -> exists r v, InRepository comp source r
         /\ isolated_revision op source r = true /\ IntegrationRevision_HeadCommit r = head
         /\ (IntegrationRevision_BaseCommit r = SourcePlan_BaseSHA (FlowSource_Plan source)
             \/ descendant past source (IntegrationRevision_BaseCommit r) (SourcePlan_BaseSHA (FlowSource_Plan source)))
         /\ told past (Compare (FlowSource_Connection source) (repository_of source) (IntegrationRevision_BaseCommit r) head) v /\ ExactHistory r v)
    /\ (forall r, InRepository comp source r -> IntegrationRevision_HeadCommit r ∈ SourcePlan_HeadSHAs (FlowSource_Plan source));
  proven_resolution : SourcePlan_ResolutionSHA (FlowSource_Plan source) <> "" ->
    forall ancestor, ancestor = SourcePlan_BaseSHA (FlowSource_Plan source) \/ ancestor ∈ SourcePlan_HeadSHAs (FlowSource_Plan source) ->
    descendant past source ancestor (SourcePlan_ResolutionSHA (FlowSource_Plan source));
}.
End proven.
Lemma told_mono {A} (c : Call A) a later past : told past c a -> told (later ++ past) c a.
Proof. intros Hin. apply elem_of_app. right. exact Hin. Qed.
Lemma descendant_mono source base head later past : descendant past source base head -> descendant (later ++ past) source base head.
Proof. intros (v & Hv & Hrest). exists v. split; [apply told_mono, Hv|exact Hrest]. Qed.

Section intent.
Context `{Runtime, NetURL, Upper, MapOrder, URLs, Hashing, Encoding, RestorationEvidence, Operator, Baselines, Capabilities}.
Context (token : string).
Implicit Types (op v : ExternalOperation) (source : FlowSource).

(** ** What a write needs *)
(** The transaction just before announced the write: it found the operation
    under this lease, without an intent, allowed by the reservation and by the
    guards of its flow, and left it with the intent. *)
Definition Announced v (past : list Happening) : Prop :=
  exists before after current, head past = Some (Committed before after) /\ operationByID before (ID v) = Some current
  /\ ExternalOperation_LeaseOwner current = token /\ terminalOperation (ExternalOperation_Status current) = false
  /\ ExternalOperation_ReservationMutationIntent current = "" /\ reservationOperationAllowed before current = Ok ()
  /\ (ExternalOperation_Kind current ∈ flow_kinds -> exists world : World, service_flowGuard before current = Ok ())
  /\ operationByID after (ID v) = Some (current <| ExternalOperation_ReservationMutationIntent := "SOURCE" |>).
(** The store held the composition exactly as the step has it, leased. *)
Definition Fenced v (past : list Happening) : Prop :=
  composes_dev v = true -> exists (world : World) seen, Saw seen ∈ past /\ retentionLease world seen v token = Ok ().
Definition SeenAt (past : list Happening) source (revision : SourceRevisionRetention) : Prop :=
  exists b, told past (observe_retained source revision) b /\ exact_ref revision b = true.
(** Every revision is recorded as retained, and was seen at its ref. *)
Definition Pinned v (past : list Happening) : Prop :=
  composes_dev v = true -> forall source intent, source ∈ ExternalOperation_Sources v -> FlowSource_Retention source = Some intent ->
  length (SourceRetentionIntent_Revisions intent) <= length (FlowSource_Retained source)
  /\ forall revision, revision ∈ SourceRetentionIntent_Revisions intent -> SeenAt past source revision.
Definition permitted v (A : Type) (c : Call A) (past : list Happening) : Prop :=
  source_write A c = true -> calm source_write past /\ Announced v past /\
  match c with
  | EnsureRef conn repository branch sha => Fenced v past /\ composes_dev v = true
      /\ exists source intent j revision, source ∈ ExternalOperation_Sources v /\ conn = FlowSource_Connection source
      /\ repository = repository_of source /\ FlowSource_Retention source = Some intent
      /\ SourceRetentionIntent_Revisions intent !! j = Some revision /\ length (FlowSource_Retained source) <= j
      /\ branch = SourceRevisionRetention_Branch revision /\ sha = SourceRevisionRetention_HeadCommit revision
  | ComposeSource conn plan => Fenced v past /\ Pinned v past
      /\ exists source, source ∈ ExternalOperation_Sources v /\ conn = FlowSource_Connection source /\ plan = FlowSource_Plan source
      /\ FlowSource_Result source = None /\ SourceProven v source past
  | AdvanceMain conn repository baseRef baseSHA sha => ExternalOperation_Phase v = "ADVANCE_MAIN"
      /\ exists source result, source ∈ ExternalOperation_Sources v /\ conn = FlowSource_Connection source /\ repository = repository_of source
      /\ FlowSource_MainAdvanced source = false /\ FlowSource_Result source = Some result
      /\ baseRef = SourcePlan_BaseRef (FlowSource_Plan source) /\ baseSHA = SourcePlan_BaseSHA (FlowSource_Plan source)
      /\ sha = SourceResult_SHA result
  | _ => True
  end.
Abbreviation rule v := (watch_rule source_write (permitted v)).
Abbreviation respects v p past := (wp (rule v) p past Any).
Abbreviation writeless p := (quiet source_write p).

(** ** Steps that write nothing *)
Lemma quiet_save op phase status detail ev rel : writeless (save op token phase status detail ev rel).
Proof using Type. unfold save. quiet_prog. Qed.
#[local] Hint Resolve quiet_save : quiet.
Lemma quiet_finish op status detail ev : writeless (finish op token status detail ev).
Proof using Type. apply quiet_save. Qed.
Lemma quiet_advance op phase status detail ev : writeless (advance op token phase status detail ev).
Proof using Type. apply quiet_save. Qed.
#[local] Hint Resolve quiet_finish quiet_advance : quiet.
Lemma quiet_retry op detail : writeless (retry op token detail).
Proof using Type. unfold retry. quiet_prog. Qed.
#[local] Hint Resolve quiet_retry : quiet.
Lemma harmless_alive : harmless alive.
Proof using Type. unfold alive. apply harmless_bind; [split; [exact I|intros ?; exact I]|]. intros over. destruct over; exact I. Qed.
#[local] Hint Resolve harmless_alive : harmless.
Lemma harmless_asked {A} (c : Call A) : writes c = false -> harmless (asked c).
Proof using Type. intros Hc. unfold asked. apply harmless_bind; [split; [exact Hc|intros ?; exact I]|]. intros [a [e|]]; exact I. Qed.
Lemma harmless_recovery op : harmless (reservationMutationRecovery op token).
Proof using Type. unfold reservationMutationRecovery. harmless_prog. Qed.
Lemma harmless_descends source base head_ message : harmless (descends source base head_ message).
Proof using Type. unfold descends, comparison. apply harmless_try; [apply harmless_asked; reflexivity|]. intros v. harmless_prog. Qed.
#[local] Hint Resolve harmless_recovery harmless_descends : harmless.
Lemma harmless_resolution source : harmless (validate_resolution source).
Proof using Type. unfold validate_resolution. harmless_prog. Qed.
Lemma harmless_head source expected seen head_ : harmless (validate_head source expected seen head_).
Proof using Type.
  unfold validate_head, comparison. destruct (expected !! head_); [|harmless_prog]. cbv zeta. destruct (bool_decide (head_ ∈ seen)); [exact I|].
  apply harmless_try; [destruct (_ != _); harmless_prog|]. intros _. apply harmless_try; [apply harmless_asked; reflexivity|]. intros v. harmless_prog.
Qed.
#[local] Hint Resolve harmless_resolution harmless_head : harmless.
Lemma harmless_source op source : harmless (validateFlowSource op source).
Proof using Type.
  unfold validateFlowSource. cbv zeta. destruct (ExternalOperation_CompositionSnapshot op); [|exact I]. destruct (negb _); [exact I|].
  destruct (_ <? _)%nat; [exact I|]. apply harmless_try; [apply harmless_asked; reflexivity|]. intros branches. destruct (negb _); [exact I|].
  apply harmless_try; [destruct (_ != _); harmless_prog|]. intros _. harmless_prog.
Qed.
Lemma harmless_checked op : harmless (checkRetentionLease op token).
Proof using Type. unfold checkRetentionLease. harmless_prog. Qed.
Lemma harmless_ref source revision : harmless (retainedRef source revision).
Proof using Type. unfold retainedRef, observe_retained. harmless_prog. Qed.
#[local] Hint Resolve harmless_source harmless_checked harmless_ref : harmless.
Lemma harmless_verify op source : harmless (verifyRetainedSource op source).
Proof using Type. unfold verifyRetainedSource. harmless_prog. Qed.
Lemma harmless_observed op : harmless (observed_op op).
Proof using Type. unfold observed_op. destruct (is_some _); [apply harmless_observe|exact I]. Qed.
#[local] Hint Resolve harmless_verify harmless_observed : harmless.
Lemma quiet_blocked {A} op ev (r : res A) k : (forall a, writeless (k a)) -> writeless (blocked op token ev r k).
Proof using Type. intros Hk. unfold blocked. destruct r as [a|[]]; auto with quiet. exact I. Qed.
Lemma quiet_blocked_on {A} op ev (p : Prog (res A)) k : writeless p -> (forall a, writeless (k a)) -> writeless (blocked_on op token ev p k).
Proof using Type. intros Hp Hk. apply quiet_bind; [exact Hp|]. intros r. apply quiet_blocked, Hk. Qed.
Lemma quiet_progress before after phase status detail ev : writeless (admitSourceProgress before after token phase status detail ev).
Proof using Type. unfold admitSourceProgress. quiet_prog. Qed.
#[local] Hint Resolve quiet_progress : quiet.
Lemma quiet_pending (p : Prog (res unit)) : writeless p -> writeless (pending p).
Proof using Type. intros Hp. apply quiet_bind; [exact Hp|]. intros r. exact I. Qed.
Lemma quiet_guarded {A} (p : Prog (res A)) k : writeless p -> (forall a, writeless (k a)) -> writeless (guarded p k).
Proof using Type. intros Hp Hk. apply quiet_bind; [exact Hp|]. intros [a|e]; [apply Hk|exact I]. Qed.
Lemma quiet_confirm op i source intent revision sha : writeless (confirm_pin op token i source intent revision sha).
Proof using Type.
  unfold confirm_pin, admit_pin. destruct (_ != _); [exact I|]. apply quiet_guarded; [quiet_prog|]. intros _. apply quiet_bind; [quiet_prog|].
  intros w. apply quiet_pending, quiet_progress.
Qed.
#[local] Hint Resolve quiet_confirm : quiet.
Lemma quiet_record op i source result : writeless (record_composed op token i source result).
Proof using Type.
  unfold record_composed, admitSourceConflict. cbv zeta. destruct (SourceResult_Conflict result); [quiet_prog|].
  destruct (_ || _); [quiet_prog|]. destruct (composes_dev op); [apply quiet_blocked_on; [quiet_prog|intros _; quiet_prog]|quiet_prog].
Qed.
#[local] Hint Resolve quiet_record : quiet.
Lemma quiet_recover op i source : writeless (recover_composed op token i source).
Proof using Type.
  unfold recover_composed. cbv zeta. destruct (negb _); [exact I|]. apply quiet_bind; [quiet_prog|]. intros [b e].
  destruct (_ || _); [exact I|]. destruct (negb _); [exact I|]. apply quiet_try; [apply harmless_quiet; [typeclasses eauto|apply harmless_asked; reflexivity]|].
  intros _. quiet_prog.
Qed.
Lemma quiet_begin op : writeless (beginReservationMutation op token "SOURCE").
Proof using Type. unfold beginReservationMutation. quiet_prog. Qed.
#[local] Hint Resolve quiet_recover : quiet.
Lemma quiet_children op : writeless (queueFlowChildren op token).
Proof using Type.
  unfold queueFlowChildren. apply quiet_blocked_on; [quiet_prog|]. intros op'. apply quiet_try; [quiet_prog|]. intros _.
  apply quiet_blocked_on; [quiet_prog|]. intros _. quiet_prog.
Qed.
Lemma quiet_await st op ids done : writeless done -> writeless (await_children st op token ids done).
Proof using Type.
  intros Hd. induction ids as [|cid ids IH]; [exact Hd|]. cbn [await_children]. destruct (operationByID st cid); [|quiet_prog].
  destruct (contains _ _); [quiet_prog|]. destruct (_ != _); [quiet_prog|exact IH].
Qed.
Lemma quiet_runtime st op ids done : writeless done -> writeless (await_runtime st op token ids done).
Proof using Type.
  intros Hd. induction ids as [|cid ids IH]; [exact Hd|]. cbn [await_runtime].
  match goal with |- context [match ?o with Some _ => _ | None => finish _ _ _ _ _ end] => destruct o as [[result artifact]|] end; [|quiet_prog].
  cbv zeta. destruct (latest_observation st cid); [|quiet_prog]. destruct (negb _); [quiet_prog|]. destruct (negb _); [quiet_prog|exact IH].
Qed.
Lemma quiet_wait_children st op : writeless (wait_children st op token).
Proof using Type. unfold wait_children. destruct (bool_decide _); [quiet_prog|]. apply quiet_await. quiet_prog. Qed.
Lemma quiet_wait_runtime st op : writeless (wait_runtime st op token).
Proof using Type. unfold wait_runtime. apply quiet_runtime. unfold finishFlowRelease. quiet_prog. Qed.

(** ** What the parts of a step establish *)
Abbreviation learns p past Φ := (learns source_write p past Φ).
Ltac settled := apply learns_check; intros ? ?.
Lemma learns_asked {A} (c : Call A) past : source_write A c = false -> learns (asked c) past (fun past' a => told past' c a).
Proof using Type.
  intros Hc. apply learns_call; [exact Hc|]. intros [a [e|]]; settled; [discriminate|]. simplify_eq. left.
Qed.
Lemma learns_descends source base head_ message past :
  learns (descends source base head_ message) past (fun past' _ => descendant past' source base head_).
Proof using Type.
  unfold descends, comparison. eapply learns_try; [apply learns_asked; reflexivity|]. intros later v _ Hv. cbn beta in Hv. settled.
  destruct a. match goal with Hr : reject_if _ _ = _ |- _ => apply reject_if_invalid in Hr; rename Hr into Hb end.
  exists v. split; [exact Hv|]. apply orb_false_iff in Hb as [Hb Hz]. apply orb_false_iff in Hb as [Hb Hh].
  apply negb_false_iff, bool_decide_eq_true in Hb, Hh, Hz. auto.
Qed.
Lemma learns_lease v past : learns (checkRetentionLease v token) past (fun past' _ => Fenced v past').
Proof using Type.
  unfold checkRetentionLease. eapply learns_try; [apply (learns_calm _ _ _ (fun _ _ => True)); [quiet_prog|auto]|]. intros later [] _ _.
  apply learns_read; [intros st|intros e; settled; discriminate]. split; [exact I|]. intros ? ? w _. exists [].
  split; [reflexivity|]. split; [apply calm_nil|]. intros [] Hl _. exists w, st. split; [left|exact Hl].
Qed.
Lemma begin_tx_Ok `{World} v cancelled before after : begin_tx cancelled v token "SOURCE" before = Ok after -> exists current,
  operationByID before (ID v) = Some current /\ ExternalOperation_LeaseOwner current = token
  /\ terminalOperation (ExternalOperation_Status current) = false
  /\ ExternalOperation_ReservationMutationIntent current = "" /\ reservationOperationAllowed before current = Ok ()
  /\ (ExternalOperation_Kind current ∈ flow_kinds -> service_flowGuard before current = Ok ())
  /\ operationByID after (ID v) = Some (current <| ExternalOperation_ReservationMutationIntent := "SOURCE" |>).
Proof using Type.
  unfold begin_tx, mutation_lease. intros Hb. apply bind_guard in Hb as [_ Hb]; [|discriminate]. apply bind_Ok in Hb as (current & Hl & Hb).
  destruct (operationByID before (ID v)) as [found|] eqn:Ho; [|discriminate]. apply bind_guard in Hl as [Hl1 Hl]; [|discriminate].
  apply bind_Ok in Hl as ([] & Ha & Hl). injection Hl as ->. apply bind_Ok in Hb as ([] & Hg & Hb).
  apply bind_guard in Hb as [Hi Hb]; [|discriminate]. injection Hb as <-. apply orb_false_iff in Hl1 as [Hl1 _]. apply orb_false_iff in Hl1 as [Ht Hw].
  apply negb_false_iff, bool_decide_eq_true in Hw, Hi. exists current. split; [reflexivity|]. split; [exact Hw|]. split; [exact Ht|]. split; [exact Hi|].
  split; [exact Ha|]. split.
  - intros Hk. replace (contains flow_kinds (ExternalOperation_Kind current)) with true in Hg; [exact Hg|]. symmetry. apply bool_decide_eq_true. exact Hk.
  - transitivity ((fun u : ExternalOperation => u <| ExternalOperation_ReservationMutationIntent := "SOURCE" |>) <$> operationByID before (ID v)).
    + apply find_first_update_first. intros x Hx. exact Hx.
    + rewrite Ho. reflexivity.
Qed.
Lemma learns_begin v past : learns (beginReservationMutation v token "SOURCE") past (fun past' _ => Announced v past').
Proof using Type.
  split; [exact I|]. intros st st' [[]|e] Ho; cbn in *.
  - destruct Ho as (w & c & Ho). destruct (begin_tx c v token "SOURCE" st) as [st1|] eqn:E; [|discriminate]. injection Ho as <-.
    exists [Committed st st1]. split; [reflexivity|]. split; [intros A' c' r Hin; apply list_elem_of_singleton in Hin; discriminate|].
    intros _ _. apply begin_tx_Ok in E as (current & Hb & Hw & Ht & Hi & Ha & Hg & Haf). exists st, st1, current. repeat (split; [solve [auto]|]).
    split; [|exact Haf]. intros Hk. exists w. exact (Hg Hk).
  - exists []. split; [reflexivity|]. split; [apply calm_nil|discriminate].
Qed.

(** *** The history of an integration *)
Lemma collect_distinct {A} (key : A -> string) (f : gset string -> A -> res (gset string)) l seen seen' :
  (forall s x s', f s x = Ok s' -> (key x ∉ s) /\ s' = {[key x]} ∪ s) -> foldM f seen l = Ok seen' ->
  NoDup (map key l) /\ size seen' = size seen + length l /\ (forall x, x ∈ seen' <-> x ∈ seen \/ x ∈ map key l)
  /\ (forall x, x ∈ map key l -> x ∉ seen).
Proof using Type.
  intros Hf. revert seen. induction l as [|x l IH]; intros seen Hl; cbn in Hl.
  - injection Hl as <-. split; [constructor|]. split; [cbn; lia|]. split; [set_solver|]. intros x Hx. inversion Hx.
  - apply bind_Ok in Hl as (s1 & Hx & Hl). apply Hf in Hx as [Hx ->]. destruct (IH _ Hl) as (Hnd & Hs & Hin & Hout).
    assert (Hfresh : key x ∉ map key l) by (intros Hk; apply (Hout _ Hk); set_solver).
    split; [cbn [map]; constructor; assumption|]. split; [rewrite Hs, size_union, size_singleton by set_solver; cbn; lia|]. split.
    + intros y. rewrite Hin. cbn [map]. rewrite elem_of_cons, elem_of_union, elem_of_singleton. tauto.
    + intros y [->|Hy]%elem_of_cons; [exact Hx|]. specialize (Hout y Hy). set_solver.
Qed.
Lemma declare_commit_Ok s x s' : declare_commit s x = Ok s' -> x ∉ s /\ s' = {[x]} ∪ s.
Proof using Type.
  unfold declare_commit. intros Hd. apply bind_guard in Hd as [Hb Hd]; [|discriminate]. injection Hd as <-. to_prop. auto.
Qed.
Lemma observe_commit_Ok d s c s' : observe_commit d s c = Ok s' -> (CommitInfo_SHA c ∉ s /\ s' = {[CommitInfo_SHA c]} ∪ s) /\ CommitInfo_SHA c ∈ d.
Proof using Type.
  unfold observe_commit. intros Hd. apply bind_guard in Hd as [Hb Hd]; [|discriminate]. injection Hd as <-. to_prop. auto.
Qed.
Lemma whole_history_exact r (v : CompareResult) : whole_history r v = Ok () -> ExactHistory r v.
Proof using Type.
  unfold whole_history. intros Hw. apply bind_guard in Hw as [Hc Hw]; [|discriminate]. apply bind_Ok in Hw as (declared & Hd & Hw).
  apply bind_guard in Hw as [Hn Hw]; [|discriminate]. apply bind_Ok in Hw as (observed & Ho & _). apply negb_false_iff, Nat.eqb_eq in Hn. to_prop.
  assert (Hin : forall c, c ∈ CompareResult_Commits v -> CommitInfo_SHA c ∈ declared).
  { intros c Hc. destruct (foldM_elem _ _ _ _ _ Ho Hc) as (s1 & s2 & Hs). apply (observe_commit_Ok _ _ _ _ Hs). }
  apply (collect_distinct (fun x => x)) in Hd as (Hnd & Hsize & Helem & _); [|exact declare_commit_Ok].
  apply (collect_distinct CommitInfo_SHA) in Ho as (Hnd' & _); [|intros s x s' Hs; apply (observe_commit_Ok _ _ _ _ Hs)].
  rewrite map_id in Hnd, Helem. rewrite size_empty in Hsize. split; [assumption|]. split; [assumption|]. split; [assumption|]. split; [exact Hnd|].
  apply Permutation.NoDup_Permutation_bis; [apply NoDup_ListNoDup; exact Hnd'|rewrite length_map; lia|].
  intros x Hx. apply list_elem_of_In in Hx. apply elem_of_map in Hx as (c & -> & Hc). apply Hin, Helem in Hc as [Hc|Hc]; [set_solver|].
  apply list_elem_of_In, Hc.
Qed.
Lemma expected_exact op source l : forall m m', foldM (expect_revision op source) m l = Ok m' ->
  (forall h r, m' !! h = Some r <-> m !! h = Some r \/ r ∈ l /\ IntegrationRevision_RepositoryID r = FlowSource_RepositoryID source /\ IntegrationRevision_HeadCommit r = h)
  /\ forall r, r ∈ l -> IntegrationRevision_RepositoryID r = FlowSource_RepositoryID source -> isolated_revision op source r = true.
Proof using Type.
  induction l as [|x l IH]; intros m m' Hl; cbn in Hl.
  - injection Hl as <-. split; [|intros r Hr; inversion Hr]. intros h r. split; [auto|]. intros [Hm|[Hr _]]; [exact Hm|inversion Hr].
  - apply bind_Ok in Hl as (m1 & Hx & Hl). destruct (IH _ _ Hl) as [Hlook Hiso]. unfold expect_revision in Hx.
    destruct (_ != _) eqn:Er in Hx.
    + injection Hx as <-. apply negb_true_iff, bool_decide_eq_false in Er. split.
      * intros h r. rewrite Hlook, elem_of_cons. split; [tauto|]. intros [?|[[->|?] [? ?]]]; [auto|contradiction|auto].
      * intros r [->|Hr]%elem_of_cons; [contradiction|exact (Hiso r Hr)].
    + apply bind_guard in Hx as [Hi Hx]; [|discriminate]. apply bind_guard in Hx as [Hf Hx]; [|discriminate]. injection Hx as <-. to_prop.
      apply not_true_iff_false in Hf. assert (Hnone : m !! IntegrationRevision_HeadCommit x = None) by (destruct (m !! _); [destruct (Hf eq_refl)|reflexivity]).
      split.
      * intros h r. rewrite Hlook, elem_of_cons. destruct (decide (IntegrationRevision_HeadCommit x = h)) as [<-|Hne].
        -- rewrite lookup_insert, decide_True by reflexivity. split.
           ++ intros [Hs|Hr]; [injection Hs as <-; auto|tauto].
           ++ intros [Hs|[[->|Hr] Hrest]]; [congruence|auto|auto].
        -- rewrite lookup_insert_ne by exact Hne. split; [tauto|]. intros [?|[[->|?] [? ?]]]; [auto|contradiction|auto].
      * intros r [->|Hr]%elem_of_cons; [auto|exact (Hiso r Hr)].
Qed.

(** *** A source, as it is validated *)
Definition HeadProven source (expected : gmap string IntegrationRevision) (past : list Happening) (head : string) : Prop :=
  exists r cmp, expected !! head = Some r
  /\ (IntegrationRevision_BaseCommit r = SourcePlan_BaseSHA (FlowSource_Plan source)
      \/ descendant past source (IntegrationRevision_BaseCommit r) (SourcePlan_BaseSHA (FlowSource_Plan source)))
  /\ told past (Compare (FlowSource_Connection source) (repository_of source) (IntegrationRevision_BaseCommit r) (IntegrationRevision_HeadCommit r)) cmp
  /\ ExactHistory r cmp.
Lemma head_mono source expected head_ later past : HeadProven source expected past head_ -> HeadProven source expected (later ++ past) head_.
Proof using Type.
  intros (r & cmp & Hr & Hb & Ht & Hh). exists r, cmp. split; [exact Hr|]. split; [destruct Hb; [left|right; apply descendant_mono]; assumption|].
  split; [apply told_mono, Ht|exact Hh].
Qed.
(** [base] is [head], or an ancestor of it. *)
Lemma learns_unless source (base head_ message : string) past :
  learns (if base != head_ then descends source base head_ message else check (Ok ())) past
    (fun past' _ => base = head_ \/ descendant past' source base head_).
Proof using Type.
  destruct (base != head_) eqn:E.
  - eapply learns_mono; [|apply learns_descends]. intros past' a Hd. right. exact Hd.
  - settled. left. apply negb_false_iff, bool_decide_eq_true in E. exact E.
Qed.
Definition heads_proven source expected (done : list string) (seen : gset string) (past : list Happening) : Prop :=
  NoDup done /\ (forall h, h ∈ seen <-> h ∈ done) /\ forall h, h ∈ done -> HeadProven source expected past h.
Lemma learns_head source expected (done : list string) head_ seen past : heads_proven source expected done seen past ->
  learns (validate_head source expected seen head_) past (fun past' seen' => heads_proven source expected (done ++ [head_]) seen' past').
Proof using Type.
  intros (Hnd & Hin & Hp). unfold validate_head. destruct (expected !! head_) as [r|] eqn:Hr; [|settled; discriminate]. cbv zeta.
  destruct (bool_decide (head_ ∈ seen)) eqn:Hs; [settled; discriminate|]. apply bool_decide_eq_false in Hs.
  eapply learns_try; [apply learns_unless|]. intros l1 [] _ Hb. eapply learns_try; [apply learns_asked; reflexivity|]. intros l2 cmp _ Ht.
  eapply learns_try; [apply (learns_check _ _ _ (fun _ _ => ExactHistory r cmp)); intros [] Hw; apply whole_history_exact, Hw|]. intros l3 [] _ Hh.
  settled. simplify_eq. split; [|split].
  - apply list.NoDup_app. split; [exact Hnd|]. split; [|apply list.NoDup_singleton]. intros h Hh1 Hh2. apply list_elem_of_singleton in Hh2 as ->. apply Hs, Hin, Hh1.
  - intros h. rewrite elem_of_app, list_elem_of_singleton, elem_of_union, elem_of_singleton, Hin. tauto.
  - intros h [Hh1|Hh1]%elem_of_app; [|apply list_elem_of_singleton in Hh1 as ->]; [apply head_mono, head_mono, head_mono, Hp, Hh1|]. exists r, cmp. split; [exact Hr|].
    split; [destruct Hb; [left|right; apply descendant_mono, descendant_mono]; assumption|]. split; [apply told_mono; exact Ht|exact Hh].
Qed.
Lemma learns_resolution source past : learns (validate_resolution source) past (fun past' _ =>
  SourcePlan_ResolutionSHA (FlowSource_Plan source) <> "" ->
  forall ancestor, ancestor = SourcePlan_BaseSHA (FlowSource_Plan source) \/ ancestor ∈ SourcePlan_HeadSHAs (FlowSource_Plan source) ->
  descendant past' source ancestor (SourcePlan_ResolutionSHA (FlowSource_Plan source))).
Proof using Type.
  unfold validate_resolution. cbv zeta. destruct (_ == "") eqn:E; [settled; apply bool_decide_eq_true in E; contradiction|].
  destruct (_ || _); [settled; discriminate|]. eapply learns_mono; [|apply (learns_loop _ (fun done _ past' =>
    forall ancestor, ancestor ∈ done -> descendant past' source ancestor (SourcePlan_ResolutionSHA (FlowSource_Plan source))))].
  - intros past' [] Hall _ ancestor [->|Hin]; apply Hall; [left|right; exact Hin].
  - intros ancestor Hin. inversion Hin.
  - intros done x _ past0 Hd. pose proof (learns_descends source x (SourcePlan_ResolutionSHA (FlowSource_Plan source))
      "resolution must preserve base and every selected integration" past0) as Hl.
    eapply wp_mono; [apply watch_mono| |exact Hl]. intros past' r (later & -> & Hc & Ha). exists later. split; [reflexivity|]. split; [exact Hc|].
    intros a Hr ancestor [Hin|Hin]%elem_of_app; [|apply list_elem_of_singleton in Hin as ->]; [apply descendant_mono, Hd, Hin|exact (Ha a Hr)].
Qed.

Lemma learns_source op source past : learns (validateFlowSource op source) past (fun past' _ => SourceProven op source past').
Proof using Type.
  unfold validateFlowSource. cbv zeta. destruct (ExternalOperation_CompositionSnapshot op) as [comp|] eqn:Hcomp; [|settled; discriminate].
  destruct (negb _); [settled; discriminate|]. destruct (_ <? _)%nat; [settled; discriminate|].
  eapply learns_try; [apply learns_asked; reflexivity|]. intros l1 branches _ Hbranches. cbn beta in Hbranches. destruct (negb _) eqn:Hmain; [settled; discriminate|].
  apply negb_false_iff in Hmain. eapply learns_try; [apply learns_unless|]. intros l2 [] _ Hbase.
  eapply learns_try; [apply (learns_check _ _ _ (fun _ expected => foldM (expect_revision op source) ∅ (Composition_RevisionSnapshots comp) = Ok expected)); auto|].
  intros l3 expected _ Hexp. cbn beta in Hexp.
  eapply learns_try; [apply (learns_loop _ (fun done seen past' => heads_proven source expected done seen past'))|].
  { split; [constructor|]. split; [set_solver|]. intros h Hh. inversion Hh. }
  { intros done x seen past0. apply learns_head. }
  intros l4 seen _ (Hnd & Hseen & Hheads). destruct (negb (_ =? _)%nat) eqn:Hsize; [settled; discriminate|].
  apply negb_false_iff, Nat.eqb_eq in Hsize. eapply wp_mono; [apply watch_mono| |apply learns_resolution].
  intros past' r (l5 & -> & Hc & Hres). exists l5. split; [reflexivity|]. split; [exact Hc|]. intros [] Hr. specialize (Hres tt Hr).
  apply expected_exact in Hexp as [Hlook Hiso].
  assert (Hdom : dom expected ⊆ seen).
  { assert (Hsub : seen ⊆ dom expected) by (intros h Hh; apply Hseen, Hheads in Hh as (r' & cmp & Hr' & _); apply elem_of_dom; eauto).
    rewrite (set_subseteq_size_eq _ _ Hsub); [reflexivity|]. rewrite size_dom, Hsize. reflexivity. }
  split.
  - exists branches. split; [do 4 apply told_mono; exact Hbranches|]. split; [exact Hmain|].
    destruct Hbase as [Hb|Hd]; [left; exact Hb|right; do 3 apply descendant_mono; exact Hd].
  - exact Hnd.
  - exists comp. split; [exact Hcomp|]. split.
    + intros h Hh. destruct (Hheads h Hh) as (r' & cmp & Hr' & Hb & Ht & Hhist). apply Hlook in Hr' as [Hr'|(Hin & Hrepo & <-)]; [discriminate|].
      exists r', cmp. split; [split; [exact Hin|exact Hrepo]|]. split; [exact (Hiso r' Hin Hrepo)|]. split; [reflexivity|].
      split; [destruct Hb; [left|right; apply descendant_mono]; assumption|]. split; [apply told_mono, Ht|exact Hhist].
    + intros r' [Hin Hrepo]. apply Hseen, Hdom, elem_of_dom. exists r'. apply Hlook. right. auto.
  - exact Hres.
Qed.
Lemma learns_ref source revision past : learns (retainedRef source revision) past (fun past' _ => SeenAt past' source revision).
Proof using Type.
  unfold retainedRef. destruct (negb _); [settled; discriminate|]. apply learns_call; [reflexivity|]. intros [b [e|]]; [settled; discriminate|].
  destruct (negb _) eqn:E; [settled; discriminate|]. apply negb_false_iff in E. apply learns_calm; [quiet_prog|].
  intros later a _. exists b. split; [apply told_mono; left|exact E].
Qed.
Lemma seen_mono source revision later past : SeenAt past source revision -> SeenAt (later ++ past) source revision.
Proof using Type. intros (b & Hb & He). exists b. split; [apply told_mono, Hb|exact He]. Qed.
Lemma source_mono op source later past : SourceProven op source past -> SourceProven op source (later ++ past).
Proof using Type.
  intros [(branches & Hb & Hm & Hor) Hnd (comp & Hcomp & Hall & Hback) Hres]. split.
  - exists branches. split; [apply told_mono, Hb|]. split; [exact Hm|]. destruct Hor; [left|right; apply descendant_mono]; assumption.
  - exact Hnd.
  - exists comp. split; [exact Hcomp|]. split; [|exact Hback]. intros h Hh. destruct (Hall h Hh) as (r & cmp & Hin & Hi & He & Hor' & Ht & Hx).
    exists r, cmp. split; [exact Hin|]. split; [exact Hi|]. split; [exact He|].
    split; [destruct Hor'; [left|right; apply descendant_mono]; assumption|]. split; [apply told_mono, Ht|exact Hx].
  - intros Hr ancestor Ha. apply descendant_mono, (Hres Hr ancestor Ha).
Qed.
Lemma fenced_mono v later past : Fenced v past -> Fenced v (later ++ past).
Proof using Type. intros Hf Hk. destruct (Hf Hk) as (w & seen & Hs & Hl). exists w, seen. split; [apply elem_of_app; right; exact Hs|exact Hl]. Qed.
Lemma pinned_mono v later past : Pinned v past -> Pinned v (later ++ past).
Proof using Type.
  intros Hp Hk source intent Hs Hi. destruct (Hp Hk source intent Hs Hi) as [Hl Hall]. split; [exact Hl|]. intros r Hr. apply seen_mono, Hall, Hr.
Qed.

(** *** The pins *)
Record PinOf v (p : Pin) (j : nat) : Prop := {
  pin_source : Pin_source p ∈ ExternalOperation_Sources v;
  pin_intent : FlowSource_Retention (Pin_source p) = Some (Pin_intent p);
  pin_place : SourceRetentionIntent_Revisions (Pin_intent p) !! j = Some (Pin_revision p);
  pin_retained : Pin_retained p = (j <? length (FlowSource_Retained (Pin_source p)))%nat;
}.
Lemma pins_exact v source intent revision b :
  (exists i, mkPin i source intent revision b ∈ concat (imap pins_of (ExternalOperation_Sources v)))
  <-> exists i j, PinOf v (mkPin i source intent revision b) j.
Proof using Type.
  setoid_rewrite list_elem_of_In. setoid_rewrite in_concat. setoid_rewrite <- list_elem_of_In. setoid_rewrite elem_of_lookup_imap. split.
  - intros (i & pins & (k & s & -> & Hs) & Hp). unfold pins_of in Hp. destruct (FlowSource_Retention s) as [intent'|] eqn:Hi; [|inversion Hp].
    apply elem_of_lookup_imap in Hp as (j & r & Hp & Hj). simplify_eq. exists k, j. split; cbn; [|assumption|assumption|reflexivity].
    exact (list_elem_of_lookup_2 _ _ _ Hs).
  - intros (i & j & [Hs Hi Hj Hb]). cbn in *. apply list_elem_of_lookup in Hs as [k Hk]. exists k, (pins_of k source). split; [eauto|].
    unfold pins_of. rewrite Hi. apply elem_of_lookup_imap. exists j, revision. rewrite Hb. auto.
Qed.
Lemma pin_of v p : p ∈ concat (imap pins_of (ExternalOperation_Sources v)) -> exists j, PinOf v p j.
Proof using Type.
  destruct p as [i source intent revision b]. intros Hp. destruct (proj1 (pins_exact v source intent revision b)) as (i' & j & [Hs Hi Hj Hb]); [eauto|].
  exists j. split; assumption.
Qed.
(** A step that does not go on. *)
Definition halted (r : Retention) : Prop := r.1 = true \/ exists e, r.2 = Err e.
Lemma halted_error e : halted (false, Err e).
Proof using Type. right. eauto. Qed.
Lemma halted_pending (p : Prog (res unit)) : yields (pending p) halted.
Proof using Type. unfold pending. apply (yields_bind _ _ (fun _ => True)); [apply yields_any|]. intros r _. left. reflexivity. Qed.
Lemma halted_confirm v i source intent revision sha : yields (confirm_pin v token i source intent revision sha) halted.
Proof using Type.
  unfold confirm_pin. destruct (_ != _); [apply halted_error|]. apply (yields_bind _ _ (fun _ => True)); [apply yields_any|].
  intros [[]|e] _; [|apply halted_error]. apply (yields_bind _ _ (fun _ => True)); [apply yields_any|]. intros w _. apply halted_pending.
Qed.
Lemma wp_halted v (p : Prog Retention) past : writeless p -> yields p halted -> wp (rule v) p past (fun _ r => halted r).
Proof using Type. intros Hq Hy. apply (wp_calm_yields _ _ _ _ halted); [exact Hq|exact Hy|auto]. Qed.
Lemma wp_pin v p j past : calm source_write past -> PinOf v p j -> Pin_retained p = false -> composes_dev v = true ->
  wp (rule v) (pin_revision v token (Pin_index p) (Pin_source p) (Pin_intent p) (Pin_revision p)) past (fun _ r => halted r).
Proof using Type.
  intros Hcalm Hp Hnew Hdev. unfold pin_revision, guarded. apply wp_bind; [apply watch_mono|].
  eapply wp_learned; [apply learns_lease| |intros; apply halted_error]. intros l1 [] Hc1 Hf.
  apply wp_bind; [apply watch_mono|]. apply wp_calm; [quiet_prog|]. intros l2 [recovering|e] Hc2; [|apply halted_error]. destruct recovering.
  - apply wp_halted.
    + apply quiet_bind; [quiet_prog|]. intros [b e]. destruct (_ || _); [exact I|apply quiet_confirm].
    + apply yields_call. intros [b e]. destruct (_ || _); [apply halted_error|apply halted_confirm].
  - apply wp_bind; [apply watch_mono|]. eapply wp_learned; [apply learns_begin| |intros; apply halted_error]. intros l3 [] Hc3 Ha.
    unfold create_pin. apply wp_call.
    + intros _. split; [repeat (apply calm_app; [assumption|]); exact Hcalm|]. split; [exact Ha|]. split; [apply fenced_mono, fenced_mono, Hf|].
      split; [exact Hdev|]. destruct Hp as [Hs Hi Hj Hr]. exists (Pin_source p), (Pin_intent p), j, (Pin_revision p).
      repeat (split; [solve [auto]|]). rewrite Hnew in Hr. symmetry in Hr. apply Nat.ltb_ge in Hr. split; [exact Hr|auto].
    + intros [sha e]. destruct e as [e|]; [|apply wp_halted; [apply quiet_confirm|apply halted_confirm]]. apply wp_halted.
      * apply quiet_bind; [quiet_prog|]. intros [b unread]. destruct (is_some unread); [apply quiet_pending, quiet_retry|].
        destruct (negb _); [exact I|apply quiet_confirm].
      * apply yields_call. intros [b unread]. destruct (is_some unread); [apply halted_pending|]. destruct (negb _); [apply halted_error|apply halted_confirm].
Qed.
(** The pins are all seen, or the step does not go on. *)
Definition retained_or_halted (l : list Pin) past past' (r : Retention) : Prop :=
  halted r \/ exists later, past' = later ++ past /\ calm source_write later
  /\ forall p, p ∈ l -> Pin_retained p = true /\ SeenAt past' (Pin_source p) (Pin_revision p).
Lemma wp_retain v l past : calm source_write past -> composes_dev v = true -> (forall p, p ∈ l -> exists j, PinOf v p j) ->
  wp (rule v) (retain_pins v token l) past (retained_or_halted l past).
Proof using Type.
  intros Hcalm Hdev. revert past Hcalm. induction l as [|p l IH]; intros past Hcalm Hl; cbn [retain_pins].
  - right. exists []. split; [reflexivity|]. split; [apply calm_nil|]. intros p Hp. inversion Hp.
  - destruct (Pin_retained p) eqn:Hr.
    + unfold guarded. apply wp_bind; [apply watch_mono|]. eapply wp_learned; [apply learns_ref| |intros; left; apply halted_error].
      intros l1 [] Hc1 Hseen. eapply wp_mono; [apply watch_mono| |apply IH; [apply calm_app; assumption|intros q Hq; apply Hl; right; exact Hq]].
      intros past' r [Hh|(l2 & -> & Hc2 & Hall)]; [left; exact Hh|]. right. exists (l2 ++ l1). split; [apply app_assoc|]. split; [apply calm_app; assumption|].
      intros q [->|Hq]%elem_of_cons; [split; [exact Hr|apply seen_mono, Hseen]|exact (Hall q Hq)].
    + destruct (Hl p ltac:(left)) as [j Hj]. eapply wp_mono; [apply watch_mono| |exact (wp_pin v p j past Hcalm Hj Hr Hdev)].
      intros past' r Hh. left. exact Hh.
Qed.
Lemma wp_retention v past : calm source_write past -> composes_dev v = true ->
  wp (rule v) (retainFlowSources v token) past
    (fun past' r => halted r \/ exists later, past' = later ++ past /\ calm source_write later /\ Pinned v past').
Proof using Type.
  intros Hcalm Hdev. unfold retainFlowSources. do 4 (destruct (negb _); [left; apply halted_error|]).
  apply wp_bind; [apply watch_mono|]. apply wp_calm; [quiet_prog|]. intros l1 w Hc1. unfold guarded. apply wp_bind; [apply watch_mono|].
  apply wp_calm; [quiet_prog|]. intros l2 [[]|e] Hc2; [|left; apply halted_error].
  eapply wp_mono; [apply watch_mono| |apply wp_retain; [repeat (apply calm_app; [assumption|]); exact Hcalm|exact Hdev|apply pin_of]].
  intros past' r [Hh|(l3 & -> & Hc3 & Hall)]; [left; exact Hh|]. right. exists (l3 ++ l2 ++ l1).
  split; [rewrite <- !app_assoc; reflexivity|]. split; [repeat (apply calm_app; [assumption|]); assumption|].
  assert (Hpin : forall source intent j revision, source ∈ ExternalOperation_Sources v -> FlowSource_Retention source = Some intent ->
    SourceRetentionIntent_Revisions intent !! j = Some revision -> (j < length (FlowSource_Retained source))%nat /\ SeenAt (l3 ++ l2 ++ l1 ++ past) source revision).
  { intros source intent j revision Hs Hi Hj. set (b := (j <? length (FlowSource_Retained source))%nat).
    destruct (proj2 (pins_exact v source intent revision b)) as [i Hin]; [exists 0%nat, j; split; assumption || reflexivity|].
    destruct (Hall _ Hin) as [Hb Hseen]. split; [|exact Hseen]. apply Nat.ltb_lt. exact Hb. }
  intros _ source intent Hs Hi. split.
  - destruct (le_lt_dec (length (SourceRetentionIntent_Revisions intent)) (length (FlowSource_Retained source))) as [Hle|Hlt]; [exact Hle|exfalso].
    destruct (lookup_lt_is_Some_2 (SourceRetentionIntent_Revisions intent) (length (FlowSource_Retained source)) Hlt) as [revision Hj].
    destruct (Hpin _ _ _ _ Hs Hi Hj). lia.
  - intros revision Hr. apply list_elem_of_lookup in Hr as [j Hj]. exact (proj2 (Hpin _ _ _ _ Hs Hi Hj)).
Qed.

(** ** The phases of a flow *)
Ltac calm_past := repeat (apply calm_app; [assumption|]); assumption.
Ltac quiet_rest := apply wp_quiet; quiet_prog.
Lemma respects_blocked v {A} ev (r : res A) k past : (forall a, r = Ok a -> respects v (k a) past) -> respects v (blocked v token ev r k) past.
Proof using Type. intros Hk. unfold blocked. destruct r as [a|[]]; [exact (Hk a eq_refl)|quiet_rest..|exact I]. Qed.
Lemma respects_blocked_on v {A} ev (p : Prog (res A)) k past (Φ : list Happening -> A -> Prop) : learns p past Φ ->
  (forall later a, calm source_write later -> Φ (later ++ past) a -> respects v (k a) (later ++ past)) -> respects v (blocked_on v token ev p k) past.
Proof using Type.
  intros Hp Hk. unfold blocked_on. apply wp_bind; [apply watch_mono|]. apply (wp_learned _ _ _ _ _ _ Hp); [exact Hk|].
  intros later e _. apply respects_blocked. discriminate.
Qed.
Lemma respects_compose v i source past : calm source_write past -> Pinned v past -> source ∈ ExternalOperation_Sources v ->
  FlowSource_Result source = None -> respects v (compose_one v token i source) past.
Proof using Type.
  intros Hcalm Hpin Hs Hnone. unfold compose_one. eapply respects_blocked_on; [apply learns_source|]. intros l1 [] Hc1 Hproven.
  eapply (wp_try_learned _ _ _ _ _ (fun past' _ => Fenced v past')).
  { destruct (composes_dev v) eqn:Hd; [apply learns_lease|]. settled. intros Hd'. congruence. }
  intros l2 [] Hc2 Hf. eapply wp_try_learned; [apply (learns_calm _ _ _ (fun _ _ => True)); [quiet_prog|auto]|]. intros l3 recovering Hc3 _.
  destruct recovering; [quiet_rest|]. unfold compose_new. eapply wp_try_learned; [apply learns_begin|]. intros l4 [] Hc4 Ha.
  apply wp_call; [|intros [result [e|]]; quiet_rest]. intros _. split; [calm_past|]. split; [exact Ha|]. split; [apply fenced_mono, fenced_mono, Hf|].
  split; [do 4 apply pinned_mono; exact Hpin|]. exists source. repeat (split; [solve [auto]|]). do 3 apply source_mono. exact Hproven.
Qed.
Lemma respects_compositions v i l past : calm source_write past -> Pinned v past -> (forall s, s ∈ l -> s ∈ ExternalOperation_Sources v) ->
  respects v (compose_loop v token i l) past.
Proof using Type.
  revert i past. induction l as [|source l IH]; intros i past Hcalm Hpin Hl; cbn [compose_loop]; [quiet_rest|].
  destruct (is_some (FlowSource_Result source)) eqn:Hr.
  - apply (respects_blocked_on _ _ _ _ _ (fun _ _ => True)); [apply learns_calm; [quiet_prog|auto]|]. intros later [] Hc _.
    apply IH; [calm_past|apply pinned_mono, Hpin|]. intros s Hs. apply Hl. right. exact Hs.
  - apply respects_compose; [exact Hcalm|exact Hpin|apply Hl; left|]. destruct (FlowSource_Result source); [discriminate|reflexivity].
Qed.
Lemma respects_sources v past : calm source_write past -> Pinned v past -> respects v (compose_sources v token) past.
Proof using Type. intros Hcalm Hpin. unfold compose_sources. destruct source_provider; [apply respects_compositions; auto|quiet_rest]. Qed.
Lemma respects_composing v past : calm source_write past -> respects v (compose_phase v token) past.
Proof using Type.
  intros Hcalm. unfold compose_phase. destruct (composes_dev v) eqn:Hd; [|apply respects_sources; [exact Hcalm|intros Hd'; congruence]].
  apply wp_bind; [apply watch_mono|]. eapply wp_mono; [apply watch_mono| |apply (wp_retention v past Hcalm Hd)].
  intros past' [waits r] [[Hw|[e He]]|(later & -> & Hc & Hp)]; cbn in *; subst.
  - exact I.
  - destruct waits; [exact I|]. apply respects_blocked. discriminate.
  - destruct waits; [exact I|]. apply respects_blocked. intros [] _. apply respects_sources; [calm_past|exact Hp].
Qed.
Lemma respects_main v i l past : calm source_write past -> ExternalOperation_Phase v = "ADVANCE_MAIN" ->
  (forall s, s ∈ l -> s ∈ ExternalOperation_Sources v) -> respects v (advance_loop v token i l) past.
Proof using Type.
  intros Hcalm Hph. revert i. induction l as [|source l IH]; intros i Hl; cbn [advance_loop]; [quiet_rest|]. cbv zeta.
  destruct (FlowSource_MainAdvanced source) eqn:Hm; [apply IH; intros s Hs; apply Hl; right; exact Hs|].
  destruct (FlowSource_Result source) as [result|] eqn:Hr; [|quiet_rest]. eapply wp_try_learned; [apply learns_begin|]. intros later [] Hc Ha.
  apply wp_call; [|intros [advanced [e|]]; quiet_rest]. intros _. split; [calm_past|]. split; [exact Ha|]. split; [exact Hph|].
  exists source, result. split; [apply Hl; left|]. auto 10.
Qed.
Lemma respects_phase st v past : calm source_write past -> respects v (flow_phase st v token) past.
Proof using Type.
  intros Hcalm. unfold flow_phase. cbv zeta. destruct (_ == "COMPOSE_SOURCE"); [apply respects_composing, Hcalm|].
  destruct (_ == "ADVANCE_MAIN") eqn:Hph.
  { unfold advance_phase. apply bool_decide_eq_true in Hph. destruct source_provider; [apply respects_main; auto|quiet_rest]. }
  destruct (contains _ _); [apply wp_quiet, quiet_children|]. destruct (_ == "WAIT_CHILDREN"); [apply wp_quiet, quiet_wait_children|].
  destruct (_ == "WAIT_RUNTIME"); [apply wp_quiet, quiet_wait_runtime|quiet_rest].
Qed.
(** Observing a candidate again changes its proof, and nothing else. *)
Lemma permitted_candidate m v A (c : Call A) past : permitted (v <| ExternalOperation_MainCandidate := m |>) A c past -> permitted v A c past.
Proof using Type.
  intros Hp Hw. destruct (Hp Hw) as (Hc & Ha & Hrest). split; [exact Hc|]. split; [exact Ha|]. destruct c; try exact Hrest.
  destruct Hrest as (Hf & Hpin & source & Hs & Hconn & Hplan & Hr & [Hmain Hnd Hheads Hres]). split; [exact Hf|]. split; [exact Hpin|].
  exists source. repeat (split; [assumption|]). split; assumption.
Qed.
Lemma respects_candidate m v {A} (p : Prog A) past : respects (v <| ExternalOperation_MainCandidate := m |>) p past -> respects v p past.
Proof using Type.
  apply wp_weaken; [apply watch_mono|]. intros X e past0 Φ [Hc Hr]. split; [|exact Hr]. destruct e; auto. intros Hw. apply (permitted_candidate m), Hc, Hw.
Qed.
Lemma learns_observed v past : learns (observed_op v) past (fun _ op => exists m, op = v <| ExternalOperation_MainCandidate := m |>).
Proof using Type.
  unfold observed_op. destruct (is_some _).
  - unfold observe_candidate. destruct (ExternalOperation_MainCandidate v) as [proof|]; [|settled; discriminate].
    destruct (negb _); [settled; discriminate|]. cbv zeta. eapply learns_try; [apply (learns_calm _ _ _ (fun _ _ => True)); [|auto]|].
    + apply harmless_quiet; [typeclasses eauto|]. apply harmless_loop. intros b x. unfold observe_source, observe_revision, is_ancestor. harmless_prog.
    + intros later sources _ _. settled. simplify_eq. eauto.
  - settled. exists (ExternalOperation_MainCandidate v). match goal with Hr : Ok _ = Ok _ |- _ => injection Hr as <- end. reflexivity.
Qed.
End intent.

(** ** The theorem *)
Section writes.
Context `{Runtime, NetURL, Upper, MapOrder, URLs, Hashing, Encoding, RestorationEvidence, Operator, Baselines, Capabilities, Analyst}.
Context (rest : ExternalOperation -> string -> Prog (res unit)).
#[local] Instance steps : OtherSteps := flow_steps rest.
Lemma flow_claimed v token : contains flow_kinds (ExternalOperation_Kind v) = true -> tick_claimed v token = tickFlow v token.
Proof using Type.
  intros Hk. unfold tick_claimed. cbn [other_step steps flow_steps]. unfold flow_step. rewrite Hk.
  replace (contains other_kinds (ExternalOperation_Kind v)) with true; [reflexivity|]. symmetry.
  apply bool_decide_eq_true in Hk. apply bool_decide_eq_true. revert Hk. generalize (ExternalOperation_Kind v). intros kind Hk.
  apply (listed_in flow_kinds other_kinds); [reflexivity|exact Hk].
Qed.
(** C12 What the step of a claimed composition or release writes to a source it
    has the right to write: in every execution, at every call that pins a
    revision, composes a source or advances main, it is the first such call of
    the step; the transaction just before announced it, under the lease and the
    guards of the flow, on an operation without an open intent.  A pin is of a
    revision the operation has frozen and not yet retained; a composition is of
    a frozen plan whose every retained revision was seen at its ref, whose base
    is main or an ancestor of it, and whose heads are exactly those of the
    recorded integrations, each with exactly the commits it declared; main is
    advanced from the frozen base to the composed commit. *)
Theorem source_write_intended v token past p' A (c : Call A) : contains flow_kinds (ExternalOperation_Kind v) = true ->
  Execution (tick_claimed v token) past p' -> calls p' c -> source_write A c = true -> permitted token v A c past.
Proof using Type.
  intros Hk He. rewrite (flow_claimed v token Hk) in He.
  apply (execution_permitted source_write (permitted token v) (tickFlow v token) p'); [|exact He]. clear He.
  unfold tickFlow. eapply wp_try_learned; [apply (learns_calm _ _ _ (fun _ _ => True)); [unfold service_state; quiet_prog|auto]|]. intros l1 st Hc1 _.
  apply wp_bind; [apply watch_mono|]. apply wp_calm; [quiet_prog|]. intros l2 w Hc2. apply respects_blocked. intros [] _.
  apply respects_blocked. intros [] _. eapply respects_blocked_on; [apply learns_observed|]. intros l3 op Hc3 [m ->].
  apply respects_candidate with (m := m), respects_phase. repeat (apply calm_app; [assumption|]). apply calm_nil.
Qed.
End writes.
