(* ===== verification/EvidenceSafety.v ===== *)
(** * What the evidence about a Dev environment rests on

    A verification of a candidate's runtime and a capture of a baseline are
    recorded as successful only when the providers and the observers have told
    the step, in this execution, everything the record says; and neither step
    makes a call that writes. *)
From S2P Require Import Prelude GoText Worklist GoJson Delivery Domain Status Planning Handlers DeviceAuth Collections ExternalSystems Reservation Composition Conflicts Scenarios Pins WorkerAuth WorkerJobs Publications Registry Restoration Checks Retention RetentionReport WorkerProtocol External Candidates Activation FlowGuards RegistryRefresh Effects Saving SourceChecks DevRuntime ActivationWorker Operations OperationSafety Executions Baseline RuntimeWorker FlowWorker FlowIntent BaselineWorker.
Open Scope string_scope.
Open Scope list_scope.

#[export] Instance every_write : Watches (@writes).
Proof. intros A c. exact id. Qed.
Abbreviation learns p past Φ := (Executions.learns (@writes) p past Φ).

(** ** Steps that read and then commit *)
Section commits.
Context (Good : list Happening -> State -> State -> Prop).
Abbreviation sound p past := (wp (commit_rule Good) p past Any).
Lemma commit_transact f past : (forall w cancelled st st', f w cancelled st = Ok st' -> Good past st st') -> sound (transact f) past.
Proof.
  intros Hf. split; [|intros; exact I]. intros w cancelled st st' [] Hst. destruct (f w cancelled st) as [st1|] eqn:E; [|discriminate].
  injection Hst as <-. exact (Hf w cancelled st st1 E).
Qed.
Lemma commit_after {A B} (p : Prog A) (f : A -> Prog B) past : harmless p -> (forall later a, sound (f a) (later ++ past)) -> sound (p ≫= f) past.
Proof.
  intros Hp Hf. apply wp_bind; [apply commit_mono|]. apply (wp_only_reading _ (@writes) (fun _ _ _ => False)); [exact Hp|].
  apply wp_quiet_then; [apply (harmless_quiet (@writes) _ Hp)|exact Hf].
Qed.
Lemma commit_try_after {A B} (p : Prog (res A)) (k : A -> Prog (res B)) past : harmless p -> (forall later a, sound (k a) (later ++ past)) -> sound (try p k) past.
Proof. intros Hp Hk. apply commit_after; [exact Hp|]. intros later [a|e]; [apply Hk|exact I]. Qed.
Lemma commit_learned {A B} (p : Prog (res A)) (f : res A -> Prog B) past (Φ : list Happening -> A -> Prop) : harmless p -> learns p past Φ ->
  (forall later a, Φ (later ++ past) a -> sound (f (Ok a)) (later ++ past)) -> (forall later e, sound (f (Err e)) (later ++ past)) -> sound (p ≫= f) past.
Proof.
  intros Hp Hl Hok Herr. apply wp_bind; [apply commit_mono|]. apply (wp_only_reading _ (@writes) (fun _ _ _ => False)); [exact Hp|].
  eapply wp_mono; [apply watch_mono| |exact Hl]. intros past' r (later & -> & _ & Ha). destruct r as [a|e]; [exact (Hok later a (Ha a eq_refl))|apply Herr].
Qed.
Lemma commit_read {B} (f : State -> Prog (res B)) past : (forall st, sound (f st) (Saw st :: past)) -> sound (try (effect Read) f) past.
Proof. intros Hf. split; [exact I|]. intros st st' [seen|e] _; [exact (Hf seen)|exact I]. Qed.
Lemma commit_fresh {B} (f : World -> Prog B) past : (forall w, sound (f w) past) -> sound (effect Fresh ≫= f) past.
Proof. intros Hf. split; [exact I|]. intros st st' w _. exact (Hf w). Qed.
End commits.

(** What is learned comes with the record it was learned on. *)
Lemma learns_extends {A} (p : Prog (res A)) past (Φ : list Happening -> A -> Prop) : learns p past Φ ->
  learns p past (fun past' a => past ⊆ past' /\ Φ past' a).
Proof.
  intros Hp. eapply wp_mono; [apply watch_mono| |exact Hp]. intros past' r (later & -> & Hc & Ha). exists later. split; [reflexivity|].
  split; [exact Hc|]. intros a Hr. split; [|exact (Ha a Hr)]. intros x Hx. apply elem_of_app. right. exact Hx.
Qed.

(** The rest of a step may look at how a part ended. *)
Lemma learns_either {A B} (p : Prog (res A)) (f : res A -> Prog (res B)) past (Φ : list Happening -> A -> Prop) (Ψ : list Happening -> B -> Prop) :
  learns p past Φ -> (forall later r, (forall a, r = Ok a -> Φ (later ++ past) a) -> learns (f r) (later ++ past) Ψ) -> learns (p ≫= f) past Ψ.
Proof.
  intros Hp Hf. apply wp_bind; [apply watch_mono|]. eapply wp_mono; [apply watch_mono| |exact Hp]. intros past' r (later & -> & Hc & Ha).
  apply learns_extend; [exact Hc|exact (Hf later r Ha)].
Qed.

(** ** Lists that are read twice *)
Lemma find_matching {A B} (f : A -> string) (g : B -> string) l l' i x y : Forall2 (fun x y => g y = f x) l l' -> NoDup (map f l) ->
  l !! i = Some x -> l' !! i = Some y -> find_first (fun y => g y == f x) l' = Some y.
Proof.
  intros Hl. revert i. induction Hl as [|a b l l' Hab Hl IH]; intros i Hn Hx Hy; [discriminate|].
  apply list.NoDup_cons in Hn as [Ha Hn]. destruct i as [|i]; cbn in *.
  - simplify_eq. rewrite Hab, bool_decide_eq_true_2 by reflexivity. reflexivity.
  - rewrite Hab. rewrite bool_decide_eq_false_2; [exact (IH i Hn Hx Hy)|]. intros E. apply Ha. rewrite E. apply list_elem_of_fmap_2.
    apply list_elem_of_lookup. exists i. exact Hx.
Qed.

(** ** Reading a runtime *)
Section runtime.
Context `{Runtime, NetURL, Upper, MapOrder, URLs, Hashing, Encoding, RestorationEvidence, Operator, Capabilities, Observers}.
Implicit Types (c : DevRuntimeComponent) (cr : DevRuntimeComponentResult) (proof : DevRuntimeProof) (connections : gmap string Connection).
(** The manifest of a component at the revision of its repository. *)
Definition manifest_request c cr : GitOpsRequest :=
  (DevRuntimeComponent_GitOps c) <| GitOpsRequest_ExpectedHeadSHA := GitOpsRevisionProof_HeadSHA (DevRuntimeComponentResult_Revision cr) |>.
Definition ManifestTold (past : list Happening) connections c cr : Prop := exists v,
  told past (ReadGitOps (connection_of connections c) (manifest_request c cr)) v /\ DevRuntimeComponentResult_GitOps cr = runtimeGitOpsObservation v.
Definition RolesTold (past : list Happening) c cr : Prop :=
  Forall2 (fun scope role => exists e, @Answered _ (SnapshotRuntime scope) (role, e) ∈ past) (DevRuntimeComponent_Scopes c) (DevRuntimeComponentResult_Roles cr).
Definition RevisionTold (past : list Happening) connections proof c cr : Prop := exists g,
  g ∈ runtime_groups connections proof /\ group_key g = group_key_of connections c
  /\ told past (VerifyGitOpsRevision (group_connection g)
                  ((group_request g) <| GitOpsRevisionRequest_HeadSHA := GitOpsRevisionProof_HeadSHA (DevRuntimeComponentResult_Revision cr) |>))
       (DevRuntimeComponentResult_Revision cr).
(** Manifest and roles were read first; after the last role the manifest was
    read again, unchanged, and the revision was established again. *)
Definition RuntimeRead (past : list Happening) connections proof (results : list DevRuntimeComponentResult) : Prop :=
  exists final initial, past = final ++ initial /\
  forall i c, DevRuntimeProof_Components proof !! i = Some c -> exists cr, results !! i = Some cr
    /\ DevRuntimeComponentResult_ApplicationID cr = DevRuntimeComponent_ApplicationID c
    /\ ManifestTold initial connections c cr /\ RolesTold initial c cr
    /\ ManifestTold final connections c cr /\ RevisionTold final connections proof c cr.

Lemma manifest_mono connections c cr past past' : past ⊆ past' -> ManifestTold past connections c cr -> ManifestTold past' connections c cr.
Proof using Type. intros Hs (v & Hv & Ho). exists v. split; [apply Hs, Hv|exact Ho]. Qed.
Lemma roles_mono c cr past past' : past ⊆ past' -> RolesTold past c cr -> RolesTold past' c cr.
Proof using Type. intros Hs Hr. eapply list.Forall2_impl; [exact Hr|]. intros scope role (e & He). exists e. apply Hs, He. Qed.

(** *** The groups cover the components *)
Lemma update_first_keys (p : runtimeGitOpsGroup -> bool) f l : (forall g, group_key (f g) = group_key g) ->
  map group_key (update_first p f l) = map group_key l.
Proof using Type. intros Hf. induction l as [|g l IH]; cbn; [reflexivity|]. destruct (p g); cbn; [rewrite Hf; reflexivity|rewrite IH; reflexivity]. Qed.
Lemma with_commit_key commit g : group_key (with_commit commit g) = group_key g.
Proof using Type. unfold with_commit. cbv zeta. destruct (contains _ _); reflexivity. Qed.
Lemma add_component_keys connections groups c :
  group_key_of connections c ∈ map group_key (add_component connections groups c)
  /\ forall key, key ∈ map group_key groups -> key ∈ map group_key (add_component connections groups c).
Proof using Type.
  unfold add_component. cbv zeta. rewrite update_first_keys by apply with_commit_key. destruct (existsb _ groups) eqn:E.
  - split; [|auto]. apply existsb_exists in E as (g & Hg & Hk). apply bool_decide_eq_true in Hk. rewrite <- Hk. apply list_elem_of_fmap_2. apply list_elem_of_In, Hg.
  - rewrite map_app. cbn. split; [apply elem_of_app; right; left|]. intros key Hk. apply elem_of_app. left. exact Hk.
Qed.
Lemma groups_cover connections proof c : c ∈ DevRuntimeProof_Components proof ->
  exists g, g ∈ runtime_groups connections proof /\ group_key g = group_key_of connections c.
Proof using Type.
  intros Hc. assert (Hk : group_key_of connections c ∈ map group_key (foldl (add_component connections) [] (DevRuntimeProof_Components proof))).
  { unfold runtime_groups. generalize (@nil runtimeGitOpsGroup). revert Hc. induction (DevRuntimeProof_Components proof) as [|x l IH]; intros Hc groups; [inversion Hc|].
    cbn. apply elem_of_cons in Hc as [->|Hc]; [|apply IH, Hc]. clear IH. destruct (add_component_keys connections groups x) as [Hx _].
    revert Hx. generalize (add_component connections groups x). induction l as [|y l IH]; intros groups' Hx; [exact Hx|].
    cbn. apply IH, add_component_keys, Hx. }
  apply list_elem_of_fmap in Hk as (g & Hg & Hin). exists (sorted_group g). split; [apply list_elem_of_fmap_2, Hin|rewrite Hg; reflexivity].
Qed.

(** *** What the reading learns *)
Ltac settled := apply learns_check; intros ? ?.
Context (guard : Prog (res unit)) (guard_harmless : harmless guard).
#[local] Hint Resolve guard_harmless : harmless.
Ltac guarding := eapply learns_try; [apply (learns_calm _ _ _ (fun _ _ => True)); [quiet_prog|auto]|]; intros ? [] _ _.
Definition ManifestRead connections (proofs : heads) (past : list Happening) c cr : Prop :=
  DevRuntimeComponentResult_ApplicationID cr = DevRuntimeComponent_ApplicationID c
  /\ DevRuntimeComponentResult_Revision cr = revision_at connections proofs c /\ ManifestTold past connections c cr /\ RolesTold past c cr.
(** What was on the record stays on it. *)
Ltac still_there := first [intros ? ?|intros ?]; repeat first [assumption | apply elem_of_app; right | apply elem_of_cons; right].
Ltac on_record := first [left | apply elem_of_app; right; on_record | apply elem_of_cons; right; on_record].
Definition RoleTold (past : list Happening) (scope : RuntimeVerificationScope) (role : DeliveryRuntimeSnapshot) : Prop :=
  exists e, @Answered _ (SnapshotRuntime scope) (role, e) ∈ past.
Lemma learns_role c head_ acc scope past done : Forall2 (RoleTold past) done acc.1 ->
  learns (observe_role guard c head_ acc scope) past (fun past' acc' => Forall2 (RoleTold past') (done ++ [scope]) acc'.1).
Proof using guard_harmless.
  intros Hdone. unfold observe_role. apply learns_after; [split; [exact I|intros ?; exact I]|]. intros l0 w _.
  eapply learns_try; [apply (learns_check _ _ _ (fun _ _ => True)); auto|]. intros l1 [] _ _. guarding. apply learns_call; [reflexivity|]. intros [actual e].
  apply learns_after; [split; [exact I|intros ?; exact I]|]. intros l2 w' _.
  eapply learns_try; [apply (learns_check _ _ _ (fun _ _ => True)); auto|]. intros l3 [] _ _. settled.
  match goal with Hr : _ = Ok a |- _ => apply bind_Ok in Hr as ([] & _ & Hr); injection Hr as <- end. cbn [fst].
  apply Forall2_app; [|constructor; [|constructor]].
  - refine (list.Forall2_impl _ _ _ _ Hdone _). intros s r (e' & He). exists e'. revert He. still_there.
  - exists e. on_record.
Qed.
Lemma learns_manifest connections (proofs : heads) done acc c past : Forall2 (ManifestRead connections proofs past) done acc.1 ->
  learns (observe_manifest guard connections proofs acc c) past (fun past' acc' => Forall2 (ManifestRead connections proofs past') (done ++ [c]) acc'.1).
Proof using guard_harmless.
  intros Hdone. unfold observe_manifest. cbv zeta. guarding. apply learns_call; [reflexivity|]. intros [before e].
  destruct (is_some e) eqn:He; [settled; discriminate|]. destruct e; [discriminate|].
  eapply learns_try; [apply (learns_check _ _ _ (fun _ _ => True)); auto|]. intros l1 [] _ _.
  eapply learns_try; [apply (learns_loop _ (fun done acc past' => Forall2 (RoleTold past') done acc.1))|].
  { constructor. }
  { intros seen scope acc' past0. apply learns_role. }
  intros l2 [roles pods] _ Hroles. cbn beta in Hroles. cbn [fst] in Hroles. guarding. apply learns_call; [reflexivity|]. intros [after e].
  destruct (is_some e || _); [settled; discriminate|]. settled. simplify_eq. cbn [fst].
  apply Forall2_app; [|constructor; [|constructor]].
  - refine (list.Forall2_impl _ _ _ _ Hdone _). intros x y (Ha & Hr & Hman & Hro). split; [exact Ha|]. split; [exact Hr|].
    split; [revert Hman; apply manifest_mono|revert Hro; apply roles_mono]; still_there.
  - split; [reflexivity|]. split; [reflexivity|]. split; [exists before; split; [on_record|reflexivity]|].
    revert Hroles. apply (roles_mono c (mkDevRuntimeComponentResult _ _ _ roles)). still_there.
Qed.
Definition Reread connections (proofs : heads) (results : list DevRuntimeComponentResult) (final : list Happening) c : Prop := exists v,
  told final (ReadGitOps (connection_of connections c) (at_head connections proofs c)) v
  /\ (forall cr, find_first (fun cr => DevRuntimeComponentResult_ApplicationID cr == DevRuntimeComponent_ApplicationID c) results = Some cr ->
      DevRuntimeComponentResult_GitOps cr = runtimeGitOpsObservation v).
(** What is learned once the record is [initial]. *)
Definition since (initial past : list Happening) (Φ : list Happening -> Prop) : Prop := exists final, past = final ++ initial /\ Φ final.
Lemma learns_reread connections proofs results initial done c past :
  since initial past (fun final => forall c, c ∈ done -> Reread connections proofs results final c) ->
  learns (reread_component guard connections proofs results tt c) past
    (fun past' _ => since initial past' (fun final => forall x, x ∈ done ++ [c] -> Reread connections proofs results final x)).
Proof using guard_harmless.
  intros (final & -> & Hdone). unfold reread_component. guarding. apply learns_call; [reflexivity|]. intros [after e].
  destruct (is_some e) eqn:He; [settled; discriminate|]. destruct e; [discriminate|]. settled. destruct a.
  match goal with Hr : require _ _ = _ |- _ => apply reject_if_invalid in Hr; apply negb_false_iff, bool_decide_eq_true in Hr; rename Hr into Hsame end.
  set (reply := Answered _ _). exists (reply :: later ++ final). split; [cbn; rewrite <- app_assoc; reflexivity|].
  intros x [Hx|Hx]%elem_of_app.
  - destruct (Hdone x Hx) as (v & Hv & Hf). exists v. split; [revert Hv; still_there|exact Hf].
  - apply list_elem_of_singleton in Hx as ->.
    exists after. split; [left|]. intros cr Hf. rewrite Hf in Hsame. symmetry. exact Hsame.
Qed.
Definition Reverified (proofs : heads) (final : list Happening) (g : runtimeGitOpsGroup) : Prop :=
  let known := default zero (proofs !! group_key g) in
  told final (VerifyGitOpsRevision (group_connection g)
                ((group_request g) <| GitOpsRevisionRequest_HeadSHA := GitOpsRevisionProof_HeadSHA known |>)) known.
Lemma learns_reverify proofs initial done g past (Ψ : list Happening -> Prop) : (forall final later, Ψ final -> Ψ (later ++ final)) ->
  since initial past (fun final => Ψ final /\ forall g, g ∈ done -> Reverified proofs final g) ->
  learns (reverify_revision guard proofs tt g) past
    (fun past' _ => since initial past' (fun final => Ψ final /\ forall x, x ∈ done ++ [g] -> Reverified proofs final x)).
Proof using guard_harmless.
  intros Hmono (final & -> & HΨ & Hdone). unfold reverify_revision. cbv zeta. guarding. apply learns_call; [reflexivity|]. intros [revision e].
  settled. destruct a. match goal with Hr : reject_if _ _ = _ |- _ => apply reject_if_invalid in Hr; rename Hr into Hb end.
  apply orb_false_iff in Hb as [Hb Hsame]. apply orb_false_iff in Hb as [He _]. destruct e; [discriminate|].
  apply negb_false_iff, bool_decide_eq_true in Hsame. set (reply := Answered _ _).
  exists (reply :: later ++ final). split; [cbn; rewrite <- app_assoc; reflexivity|]. split; [exact (Hmono _ [reply] (Hmono _ later HΨ))|].
  intros x [Hx|Hx]%elem_of_app; [generalize (Hdone x Hx); unfold Reverified, told; cbv zeta; still_there|].
  apply list_elem_of_singleton in Hx as ->. unfold Reverified. cbv zeta. unfold told, reply. rewrite <- Hsame. left.
Qed.
(** When it ends without an error, it has read the runtime. *)
Lemma learns_runtime connections proof past : NoDup (map DevRuntimeComponent_ApplicationID (DevRuntimeProof_Components proof)) ->
  learns (readRuntimeProof guard connections proof) past (fun past' r => RuntimeRead past' connections proof (DevRuntimeResult_Components r)).
Proof using guard_harmless.
  intros Hn. unfold readRuntimeProof. destruct (negb _); [settled; discriminate|]. cbv zeta.
  eapply learns_try; [apply (learns_calm _ _ _ (fun _ _ => True)); [unfold establish_revision; quiet_prog|auto]|]. intros l1 proofs _ _.
  eapply learns_try; [apply (learns_loop _ (fun done acc past' => Forall2 (ManifestRead connections proofs past') done acc.1))|].
  { constructor. }
  { intros done c acc past0. apply learns_manifest. }
  intros l2 [results pods] _ Hread. cbn beta in Hread. cbn [fst] in Hread. set (initial := l2 ++ l1 ++ past) in *.
  eapply learns_try; [apply (learns_loop _ (fun done _ past' => since initial past' (fun final => forall c, c ∈ done -> Reread connections proofs results final c)))|].
  { exists []. split; [reflexivity|]. intros c Hc. inversion Hc. }
  { intros done c [] past0. apply learns_reread. }
  intros l3 [] _ Hreread. cbn beta in Hreread.
  set (Ψ := fun final => forall c, c ∈ DevRuntimeProof_Components proof -> Reread connections proofs results final c).
  assert (HΨ : forall final later, Ψ final -> Ψ (later ++ final)).
  { intros final later Hf c Hc. destruct (Hf c Hc) as (v & Hv & Hrest). exists v. split; [apply told_mono, Hv|exact Hrest]. }
  eapply learns_try; [apply (learns_loop _ (fun done _ past' => since initial past' (fun final => Ψ final /\ forall g, g ∈ done -> Reverified proofs final g)))|].
  { destruct Hreread as (final & Hf & Hall). exists final. split; [exact Hf|]. split; [exact Hall|]. intros g Hg. inversion Hg. }
  { intros done g [] past0. apply learns_reverify, HΨ. }
  intros l4 [] _ (final & Hfinal & Hall & Hrev). cbn beta in *.
  apply learns_after; [split; [exact I|intros ?; exact I]|]. intros l5 w _. settled. rewrite Hfinal.
  assert (Hresults : DevRuntimeResult_Components a = results).
  { match goal with Hr : concluded proof results = Ok a |- _ => unfold concluded in Hr; cbv zeta in Hr; apply bind_Ok in Hr as ([] & _ & Hr); injection Hr as <- end. reflexivity. }
  rewrite Hresults. exists (l5 ++ final), initial. split; [rewrite app_assoc; reflexivity|]. intros i c Hc.
  destruct (Forall2_lookup_l _ _ _ _ _ Hread Hc) as (cr & Hcr & Happ & Hrevision & Hman & Hroles). exists cr.
  split; [exact Hcr|]. split; [exact Happ|]. split; [exact Hman|]. split; [exact Hroles|].
  assert (Hin : c ∈ DevRuntimeProof_Components proof) by (apply list_elem_of_lookup; exists i; exact Hc). split.
  - destruct (Hall c Hin) as (v & Hv & Hsame). exists v. unfold manifest_request. rewrite Hrevision. split; [revert Hv; still_there|apply Hsame].
    apply (find_matching _ _ (DevRuntimeProof_Components proof) _ i c cr); [|exact Hn|exact Hc|exact Hcr].
    refine (list.Forall2_impl _ _ _ _ Hread _). intros x y (Ha & _). exact Ha.
  - destruct (groups_cover connections proof c Hin) as (g & Hg & Hkey). exists g. split; [exact Hg|]. split; [exact Hkey|].
    generalize (Hrev g Hg). unfold Reverified. cbv zeta. rewrite Hkey, Hrevision. unfold revision_at. still_there.
Qed.
End runtime.

(** ** What a verification records *)
Section verification.
Context `{Runtime, NetURL, Upper, MapOrder, URLs, Hashing, Encoding, RestorationEvidence, Operator, Capabilities, Observers, Baselines}.
Implicit Types (op current v : ExternalOperation).

(** *** The proof names every application once *)
Definition distinct_claims (acc : claims) : Prop :=
  let '(components, seen, _) := acc in map DevRuntimeComponent_ApplicationID components = reverse seen /\ NoDup seen.
Lemma expected_distinct `{World} st activation input generation p : runtimeExpectedProof st activation input generation = Ok p ->
  NoDup (map DevRuntimeComponent_ApplicationID (DevRuntimeProof_Components p)).
Proof using Type.
  unfold runtimeExpectedProof. destruct activation as [activation|]; [|discriminate]. intros Hp. step_guards Hp. cbn.
  match goal with Hf : foldM _ _ _ = Ok ?acc |- _ => assert (Hd : distinct_claims acc) end.
  { eapply foldM_ind; [eassumption|split; [reflexivity|constructor]|]. intros [[components seen] roles] cid [[components' seen'] roles'] _ [Hm Hn] Hc.
    unfold expected_child in Hc. destruct (operationByID st cid) as [child|]; [|discriminate].
    destruct (applied_child seen child) as [[[snap artifact] result]|] eqn:Hap; [|discriminate]. step_guards Hc. injection Hc as <- <- <-.
    unfold applied_child in Hap. destruct (ExternalOperation_Snapshot child), (ExternalOperation_ExistingArtifact child), (ExternalOperation_GitOpsResult child); try discriminate.
    destruct (_ && _) eqn:Hall in Hap; [|discriminate]. apply andb_true_iff in Hall as [_ Hnew]. apply negb_true_iff, bool_decide_eq_false in Hnew.
    split; [rewrite map_app, Hm, reverse_cons; reflexivity|apply list.NoDup_cons; auto]. }
  destruct a1 as [[components seen] roles]. destruct Hd as [Hm Hn]. step_guards Hp. injection Hp as <-. cbn.
  rewrite Hm, (reverse_Permutation seen). exact Hn.
Qed.
Lemma allowed_distinct `{World} st op latest proof : devRuntimeAllowed st op latest = Ok () -> ExternalOperation_DevRuntime op = Some proof ->
  NoDup (map DevRuntimeComponent_ApplicationID (DevRuntimeProof_Components proof)).
Proof using Type.
  unfold devRuntimeAllowed. intros Ha Hp. rewrite Hp in Ha. destruct (operationByID st (ID op)); [|discriminate]. step_guards Ha.
  destruct (operationByID st _) as [activation|]; [|discriminate]. step_guards Ha. to_prop. subst. eapply expected_distinct. eassumption.
Qed.

(** *** The transaction that ends a step *)
(** The operation, which the step holds, ends as [v], with a step on the trail;
    nothing else changes. *)
Definition EndsAs (token : string) op (before after : State) v : Prop := exists current step,
  operationByID before (ID op) = Some current /\ ExternalOperation_LeaseOwner current = token
  /\ terminalOperation (ExternalOperation_Status current) = false /\ ID v = ID current /\ ExternalOperation_LeaseOwner v = ""
  /\ terminalOperation (ExternalOperation_Status v) = true
  /\ after = set_operation (ID op) (fun _ => v) before <| State_OperationSteps ::= fun l => l ++ [step] |>.
Lemma finish_runtime_Ok `{World} cancelled op token r before after : finish_runtime_tx cancelled op token r before = Ok after ->
  exists current v, operationByID before (ID op) = Some current /\ EndsAs token op before after v
  /\ if sound_verification cancelled before op current r
     then ExternalOperation_Status v = "SUCCEEDED" /\ ExternalOperation_Phase v = "RUNTIME_VERIFIED" /\ ExternalOperation_DevRuntimeResult v = Some r
     else ExternalOperation_Status v = "FAILED" /\ ExternalOperation_Phase v = "RUNTIME_UNVERIFIED".
Proof using Type.
  unfold finish_runtime_tx. destruct (operationByID before (ID op)) as [current|] eqn:Hc; [|discriminate]. intros Hf.
  apply bind_guard in Hf as [Hl Hf]; [|discriminate]. cbv zeta in Hf. apply bind_guard in Hf as [_ Hf]; [|discriminate].
  apply orb_false_iff in Hl as [Hl Ht]. apply negb_false_iff, bool_decide_eq_true in Hl. injection Hf as <-. exists current.
  eexists. split; [reflexivity|]. split.
  - exists current. eexists. split; [exact Hc|]. split; [exact Hl|]. split; [exact Ht|].
    split; [|split; [|split; [|reflexivity]]]; unfold verified_operation; destruct (sound_verification cancelled before op current r); reflexivity.
  - destruct (sound_verification cancelled before op current r); repeat split.
Qed.
(** What a success has been told: the proof is the current one of its
    activation, all of it was read, and every role runs the expected image. *)
Definition RuntimeVerified (past : list Happening) (before : State) op v : Prop :=
  exists (world : World) proof r seen connections, ExternalOperation_DevRuntime op = Some proof /\ ExternalOperation_DevRuntimeResult v = Some r
  /\ devRuntimeAllowed before op true = Ok () /\ Saw seen ∈ past
  /\ fold_option (child_connection seen) ∅ (DevRuntimeProof_Components proof) = Some connections
  /\ RuntimeRead past connections proof (DevRuntimeResult_Components r)
  /\ (DevRuntimeResult_ObservedAt r <= now "finishDevRuntime" 0 <= DevRuntimeResult_ObservedAt r + 5 * minute)%Z
  /\ forall i c cr j scope role, DevRuntimeProof_Components proof !! i = Some c -> DevRuntimeResult_Components r !! i = Some cr ->
       DevRuntimeComponent_Scopes c !! j = Some scope -> DevRuntimeComponentResult_Roles cr !! j = Some role ->
       RunsExactly (DevRuntimeComponent_ImageRepository c) (DevRuntimeComponent_Digest c) scope role (now "finishDevRuntime" 1).
Definition VerificationEnds (token : string) (past : list Happening) op (before after : State) : Prop := exists v,
  EndsAs token op before after v
  /\ (ExternalOperation_Status v = "SUCCEEDED" /\ ExternalOperation_Phase v = "RUNTIME_VERIFIED" /\ RuntimeVerified past before op v
      \/ ExternalOperation_Status v = "FAILED" /\ ExternalOperation_Phase v = "RUNTIME_UNVERIFIED").
Lemma result_valid p r t : Baseline.validateDevRuntimeResultAt p r t = Ok () -> ValidateDevRuntimeResultAt p r t = Ok ().
Proof using Type. unfold Baseline.validateDevRuntimeResultAt. destruct (ValidateDevRuntimeResultAt p r t) as [[]|]; [reflexivity|discriminate]. Qed.
Lemma recent_spec at_ t : recent at_ t = true -> (at_ <= t <= at_ + 5 * minute)%Z.
Proof using Type. unfold recent, After. intros Hr. to_prop. lia. Qed.
Lemma failed_finish `{World} token past op cancelled reason before after :
  finish_runtime_tx cancelled op token ((zero : DevRuntimeResult) <| DevRuntimeResult_Reason := reason |>) before = Ok after ->
  VerificationEnds token past op before after.
Proof using Type.
  intros (current & v & _ & He & Hs)%finish_runtime_Ok. exists v. split; [exact He|]. right.
  destruct (sound_verification _ _ _ _ _) eqn:E; [|exact Hs]. unfold sound_verification in E. destruct (ExternalOperation_DevRuntime op) as [p|]; [|discriminate].
  cbv zeta in E. apply andb_true_iff in E as [E _]. apply andb_true_iff in E as [_ E]. unfold is_ok in E.
  destruct (Baseline.validateDevRuntimeResultAt p _ _) as [[]|] eqn:Hv; [|discriminate]. apply result_valid in Hv.
  unfold ValidateDevRuntimeResultAt in Hv. apply bind_guard in Hv as [Hv _]; [|discriminate]. cbn in Hv.
  repeat (apply orb_false_iff in Hv as [Hv ?]). discriminate.
Qed.

(** *** The step *)
Lemma harmless_expired : harmless alive.
Proof using Type. unfold alive. apply harmless_bind; [split; [exact I|intros ?; exact I]|]. intros over. destruct over; exact I. Qed.
#[local] Hint Resolve harmless_expired : harmless.
Lemma harmless_runtime_lease op : harmless (validateDevRuntimeIO op).
Proof using Type. unfold validateDevRuntimeIO. harmless_prog. Qed.
#[local] Hint Resolve harmless_runtime_lease : harmless.
Lemma harmless_establish guard connections proof proofs g : harmless guard -> harmless (establish_revision guard connections proof proofs g).
Proof using Type. intros Hg. unfold establish_revision. cbv zeta. harmless_prog. Qed.
Lemma harmless_role guard c head_ acc scope : harmless guard -> harmless (observe_role guard c head_ acc scope).
Proof using Type. intros Hg. unfold observe_role. harmless_prog. Qed.
#[local] Hint Resolve harmless_establish harmless_role : harmless.
Lemma harmless_manifest guard connections proofs acc c : harmless guard -> harmless (observe_manifest guard connections proofs acc c).
Proof using Type. intros Hg. unfold observe_manifest. cbv zeta. harmless_prog. Qed.
Lemma harmless_again guard connections proofs results u c : harmless guard -> harmless (reread_component guard connections proofs results u c).
Proof using Type. intros Hg. unfold reread_component. harmless_prog. Qed.
Lemma harmless_reverify guard proofs u g : harmless guard -> harmless (reverify_revision guard proofs u g).
Proof using Type. intros Hg. unfold reverify_revision. cbv zeta. harmless_prog. Qed.
#[local] Hint Resolve harmless_manifest harmless_again harmless_reverify : harmless.
Lemma harmless_reading guard connections proof : harmless guard -> harmless (readRuntimeProof guard connections proof).
Proof using Type. intros Hg. unfold readRuntimeProof. harmless_prog. Qed.
Lemma harmless_runtime op st : harmless (readDevRuntime op st).
Proof using Type. unfold readDevRuntime. destruct (_ ≫= _) as [[proof connections]|]; [apply harmless_reading, harmless_runtime_lease|exact I]. Qed.
Lemma runtime_step token op : wp (commit_rule (fun past => VerificationEnds token past op)) (tickDevRuntime op token) [] Any.
Proof using Type.
  assert (Hfail : forall past reason, wp (commit_rule (fun past => VerificationEnds token past op)) (fail_runtime op token reason) past Any).
  { intros past reason. apply commit_transact. intros w cancelled st st'. apply failed_finish. }
  unfold tickDevRuntime. apply commit_after; [auto with harmless|]. intros l0 [[]|e]; [|apply Hfail]. apply commit_read. intros st.
  apply commit_fresh. intros w. destruct (is_ok (devRuntimeAllowed st op true)) eqn:Hal; [cbn [negb]|apply Hfail].
  destruct (activation ← operationByID st _; ExternalOperation_DevActivation activation) as [p|]; [|exact I].
  apply commit_after; [auto with harmless|]. intros l1 [[]|e]; [|destruct e; try exact I; apply Hfail].
  unfold readDevRuntime. destruct (proof ← ExternalOperation_DevRuntime op; _) as [[proof connections]|] eqn:Hproof; [|exact I].
  destruct (ExternalOperation_DevRuntime op) as [proof'|] eqn:Hp; [|discriminate]. cbn in Hproof.
  destruct (fold_option (child_connection st) ∅ (DevRuntimeProof_Components proof')) as [connections'|] eqn:Hcs; [|discriminate]. injection Hproof as -> ->.
  assert (Hn : NoDup (map DevRuntimeComponent_ApplicationID (DevRuntimeProof_Components proof))).
  { unfold is_ok in Hal. destruct (devRuntimeAllowed st op true) as [[]|] eqn:E; [|discriminate]. exact (allowed_distinct st op true proof E Hp). }
  eapply commit_learned; [apply harmless_reading, harmless_runtime_lease|apply learns_runtime; [apply harmless_runtime_lease|exact Hn]| |].
  2: { intros l2 e. destruct e; try exact I; apply Hfail. }
  intros l2 r Hread. apply commit_transact. intros w' cancelled before after (current & v & Hc & Hends & Hv)%finish_runtime_Ok.
  exists v. split; [exact Hends|]. destruct (sound_verification cancelled before op current r) eqn:Hs; [left|right; exact Hv].
  destruct Hv as (Hst & Hph & Hr). split; [exact Hst|]. split; [exact Hph|]. unfold sound_verification in Hs. rewrite Hp in Hs. cbv zeta in Hs. to_prop.
  repeat match goal with Hok : is_ok _ = true |- _ => unfold is_ok in Hok end.
  destruct (devRuntimeAllowed before op true) as [[]|] eqn:Ha; [|discriminate].
  destruct (Baseline.validateDevRuntimeResultAt proof r _) as [[]|] eqn:Hval; [|discriminate]. apply result_valid in Hval.
  match goal with Hrec : recent _ _ = true |- _ => apply recent_spec in Hrec; rename Hrec into Htime end.
  exists w', proof, r, st, connections. split; [exact Hp|]. split; [exact Hr|]. split; [exact Ha|].
  split; [apply elem_of_app; right; apply elem_of_app; right; left|]. split; [exact Hcs|]. split; [exact Hread|]. split; [exact Htime|].
  intros i c cr j scope role Hi Hcr Hj Hrole. exact (result_runs proof r _ i c cr j scope role Hval Hi Hcr Hj Hrole).
Qed.
#[local] Hint Resolve harmless_runtime : harmless.
Lemma quiet_finish_runtime op token r : quiet (@writes) (finishDevRuntime op token r).
Proof using Type. unfold finishDevRuntime. quiet_prog. Qed.
#[local] Hint Resolve quiet_finish_runtime : quiet.
Lemma quiet_verification op token : quiet (@writes) (tickDevRuntime op token).
Proof using Type. unfold tickDevRuntime, fail_runtime. quiet_prog. Qed.
(** C13 What a step of a runtime verification does, in every execution, against
    any store, providers and observers.  It never makes a call that writes.  A
    transaction it commits ends the verification, which it holds, and changes
    nothing else.  It ends as verified only when the proof is still the latest
    one, exactly what the activation is expected to run; when every manifest
    and then every role was read, and after the last role every manifest was
    read again, unchanged, and the revision of every repository was
    established again; and when the result, at most five minutes old, shows
    every replica of every role ready and running the image of its component. *)
Theorem runtime_verified op token past p' : Execution (tickDevRuntime op token) past p' ->
  (forall A (c : Call A), calls p' c -> writes c = false)
  /\ forall before after, commits p' before after -> VerificationEnds token past op before after.
Proof using Type.
  intros He. split.
  - intros A c Hc. apply not_true_iff_false. intros Hw.
    exact (execution_permitted (@writes) (fun _ _ _ => False) _ _ _ c (wp_quiet _ _ _ _ (quiet_verification op token)) He Hc Hw).
  - intros before after Hc. exact (execution_commits (fun past => VerificationEnds token past op) _ _ _ _ _ (runtime_step token op) He Hc).
Qed.
End verification.

(** ** What a capture records *)
Section capture.
Context `{Runtime, NetURL, URLs, Hashing, Encoding, MapOrder, TimeLayout, Crypto, Operator}.
Context `{Upper, RestorationEvidence, Capabilities, Observers, Baselines, ComposeLease}.
Implicit Types (op v : ExternalOperation) (p : DevBaselineProof) (c : DevBaselineComponent) (cr : DevBaselineComponentResult).

(** *** The capture names every application once *)
Definition distinct_coverage (acc : coverage) : Prop :=
  let '(components, apps, _, _) := acc in map DevBaselineComponent_ApplicationID components = reverse apps /\ NoDup apps.
Lemma component_distinct `{World} st hold e acc part acc' : distinct_coverage acc -> baseline_component st hold e acc part = Ok acc' -> distinct_coverage acc'.
Proof using Type.
  destruct acc as [[[components apps] targets] workloads]. intros [Hm Hn] Hc. unfold baseline_component in Hc. cbv zeta in Hc.
  apply bind_guard in Hc as [Hnew Hc]; [|discriminate]. destruct (baseline_profile st hold e _) as [[[a build] target]|] eqn:Hp; [|discriminate].
  apply bind_Ok in Hc as ([] & _ & Hc). destruct (repositoryBinding st _) as [gitops|]; [|discriminate]. step_guards Hc. injection Hc as <-.
  assert (Hid : ID a = CompositionComponent_ApplicationID part).
  { unfold baseline_profile in Hp. destruct (applicationByID st _) as [a'|] eqn:Ha; [|discriminate].
    destruct (componentBuild st _) as [b|]; [|discriminate]. destruct (environmentBinding st _ _) as [t|]; [|discriminate]. match type of Hp with (if ?b then _ else _) = _ => destruct b; [|discriminate] end. injection Hp as -> _ _.
    unfold applicationByID in Ha. apply find_first_Some in Ha as [_ Ha]. apply has_id_true, Ha. }
  split; [rewrite map_app, Hm, reverse_cons; cbn; rewrite Hid; reflexivity|]. apply list.NoDup_cons. split; [|exact Hn].
  apply bool_decide_eq_false in Hnew. exact Hnew.
Qed.
Lemma baseline_distinct `{World} st hold input generation p : baselineExpected st hold input generation = Ok p ->
  NoDup (map DevBaselineComponent_ApplicationID (DevBaselineProof_Components p)).
Proof using Type.
  unfold baselineExpected. intros Hp. destruct (active_hold st hold) as [d|]; [|discriminate]. destruct (held_environment st hold d input) as [e|]; [|discriminate].
  destruct (shared_baseline st hold d e) as [comp|]; [|discriminate]. apply bind_guard in Hp as [_ Hp]; [|discriminate].
  apply bind_Ok in Hp as ([[[components apps] targets] workloads] & Hf & Hp). step_guards Hp. injection Hp as <-. cbn.
  assert (Hd : distinct_coverage (components, apps, targets, workloads)).
  { eapply foldM_ind; [exact Hf|split; [reflexivity|constructor]|]. intros acc part acc' _. apply component_distinct. }
  destruct Hd as [Hm Hn]. rewrite Hm, (reverse_Permutation apps). exact Hn.
Qed.
Lemma capture_distinct `{World} st op latest before p : baselineAllowed st op latest before = Ok () -> ExternalOperation_DevBaseline op = Some p ->
  NoDup (map DevBaselineComponent_ApplicationID (DevBaselineProof_Components p)).
Proof using Type.
  unfold baselineAllowed. intros Ha Hp. rewrite Hp in Ha. destruct (operationByID st (ID op)) as [current|]; [|discriminate]. step_guards Ha.
  destruct (operationByID st _) as [hold|]; [|discriminate]. apply bind_guard in Ha as [_ Ha]; [|discriminate]. apply bind_Ok in Ha as ([] & _ & Ha).
  apply bind_Ok in Ha as (expected & He & Ha). apply bind_guard in Ha as [Hu _]; [|discriminate]. apply negb_false_iff, bool_decide_eq_true in Hu.
  apply baseline_distinct in He. rewrite <- Hu in He. unfold unstaged in He. cbn in He. rewrite map_map in He. exact He.
Qed.
Lemma runtime_proof_components op p proof : baselineRuntimeProof op p = Some proof ->
  Forall2 (fun c dc => captured_component c = Some dc) (DevBaselineProof_Components p) (DevRuntimeProof_Components proof).
Proof using Type.
  unfold baselineRuntimeProof. intros Hp. destruct (mapM captured_component (DevBaselineProof_Components p)) as [components|] eqn:Hm; [|discriminate].
  injection Hp as <-. apply mapM_Some_1, Hm.
Qed.
Lemma captured_fields c dc : captured_component c = Some dc -> DevRuntimeComponent_ApplicationID dc = DevBaselineComponent_ApplicationID c
  /\ DevRuntimeComponent_ImageRepository dc = DevBaselineComponent_ImageRepository c /\ DevRuntimeComponent_Digest dc = DevBaselineComponent_Digest c
  /\ DevRuntimeComponent_Scopes dc = DevBaselineComponent_Scopes c /\ DevRuntimeComponent_GitOps dc = DevBaselineComponent_GitOps c.
Proof using Type. unfold captured_component. destruct (DevBaselineComponent_ObservedGitOps c); [|discriminate]. intros [= <-]. repeat split. Qed.
Lemma proof_distinct op p proof : baselineRuntimeProof op p = Some proof -> NoDup (map DevBaselineComponent_ApplicationID (DevBaselineProof_Components p)) ->
  NoDup (map DevRuntimeComponent_ApplicationID (DevRuntimeProof_Components proof)).
Proof using Type.
  intros Hp Hn. replace (map DevRuntimeComponent_ApplicationID (DevRuntimeProof_Components proof))
    with (map DevBaselineComponent_ApplicationID (DevBaselineProof_Components p)); [exact Hn|].
  pose proof (runtime_proof_components op p proof Hp) as Hall. clear Hp Hn. induction Hall as [|c dc cs dcs Hc Hall IH]; [reflexivity|].
  destruct (captured_fields c dc Hc) as [Happ _]. cbn. f_equal; [symmetry; exact Happ|]. exact IH.
Qed.

(** *** What was told about the availability of an image *)
Ltac settled := apply learns_check; intros ? ?.
Ltac still_there := first [intros ? ?|intros ?]; repeat first [assumption | apply elem_of_app; right | apply elem_of_cons; right].
Ltac on_record := first [left | apply elem_of_app; right; on_record | apply elem_of_cons; right; on_record].
(** A publication that was read, as the inspection of an artifact. *)
Definition PublicationTold (past : list Happening) (a : ArtifactResult) : Prop := exists r q seen,
  told past (ReadPublication r q) seen /\ a = mkArtifactResult true (NativeObservation_ManifestDigest seen) "" (NativeObservation_ObservedAt seen).
(** The provider inspected the artifact the store had recorded for the image. *)
Definition ArtifactTold (past : list Happening) op c (a : ArtifactResult) : Prop := exists seen known,
  Saw seen ∈ past /\ baselineArtifact seen (ProductID op) c = Ok known
  /\ match DeliveryArtifact_Native known with
     | Some _ => PublicationTold past a
     | None => exists connection, told past (InspectArtifact connection (artifact_request known)) a
     end.
Lemma publication_mono past past' a : past ⊆ past' -> PublicationTold past a -> PublicationTold past' a.
Proof using Type. intros Hs (r & q & seen & Ht & Ha). exists r, q, seen. split; [apply Hs, Ht|exact Ha]. Qed.
Lemma artifact_mono past past' op c a : past ⊆ past' -> ArtifactTold past op c a -> ArtifactTold past' op c a.
Proof using Type.
  intros Hs (seen & known & Hseen & Hk & Hn). exists seen, known. split; [apply Hs, Hseen|]. split; [exact Hk|].
  destruct (DeliveryArtifact_Native known); [exact (publication_mono _ _ _ Hs Hn)|]. destruct Hn as (connection & Ht). exists connection. apply Hs, Ht.
Qed.
Lemma learns_native v past : learns (inspectNativeArtifact v) past (fun past' a => PublicationTold past' a).
Proof using Type.
  unfold inspectNativeArtifact. apply learns_read; [|intros e; settled; discriminate]. intros st.
  destruct (ExternalOperation_ExistingArtifact v) as [known|]; [|settled; discriminate]. destruct (ExternalOperation_Snapshot v) as [snap|]; [|settled; discriminate].
  destruct (DeliveryArtifact_Native known) as [n|]; [|settled; discriminate]. apply learns_after; [split; [exact I|intros ?; exact I]|]. intros l0 w _.
  eapply learns_try; [apply (learns_check _ _ _ (fun _ _ => True)); auto|]. intros l1 a1 _ _. cbv zeta.
  eapply learns_try; [apply (learns_check _ _ _ (fun _ _ => True)); auto|]. intros l2 a2 _ _.
  destruct (workerJob st _) as [j|]; [|settled; discriminate]. destruct externalWorkers as [o|]; [|settled; discriminate].
  destruct (publication o _) as [r|]; [|settled; discriminate]. destruct (WorkerInputs_Publication _) as [q|]; [|settled; discriminate].
  apply learns_call; [reflexivity|]. intros [seen [e|]]; [settled; discriminate|]. apply learns_read; [|intros e; settled; discriminate]. intros after.
  apply learns_after; [split; [exact I|intros ?; exact I]|]. intros l3 w' _.
  eapply learns_try; [apply (learns_check _ _ _ (fun _ _ => True)); auto|]. intros l4 a4 _ _. settled. simplify_eq.
  exists r, q, seen. split; [on_record|reflexivity].
Qed.
Lemma learns_inspected op c past : learns (inspectBaselineArtifact op c) past (fun past' a => ArtifactTold past' op c a).
Proof using Type.
  unfold inspectBaselineArtifact. apply learns_read; [|intros e; settled; discriminate]. intros st.
  eapply learns_try; [apply (learns_check _ _ _ (fun _ known => baselineArtifact st (ProductID op) c = Ok known)); auto|]. intros l1 known _ Hk.
  destruct (DeliveryArtifact_Native known) as [n|] eqn:Hn; cbn [is_some].
  - eapply learns_mono; [|apply learns_extends, learns_native]. intros past' a [Hs Ha]. exists st, known. split; [apply Hs; on_record|].
    split; [exact Hk|]. rewrite Hn. exact Ha.
  - destruct (repositoryBinding st _) as [binding|]; [|settled; discriminate].
    eapply learns_try; [apply (learns_check _ _ _ (fun _ _ => True)); auto|]. intros l2 connection _ _. unfold asked. apply learns_call; [reflexivity|].
    intros [a [e|]]; settled; [discriminate|]. simplify_eq. exists st, known. split; [on_record|]. split; [exact Hk|]. rewrite Hn.
    eexists. on_record.
Qed.
Lemma harmless_baseline_lease op : harmless (validateBaselineIO op).
Proof using Type. unfold validateBaselineIO. apply harmless_try; [apply harmless_expired|]. intros []. harmless_prog. Qed.
#[local] Hint Resolve harmless_baseline_lease : harmless.
Lemma harmless_artifact op c : harmless (inspectBaselineArtifact op c).
Proof using Type. unfold inspectBaselineArtifact, asked. harmless_prog. Qed.
#[local] Hint Resolve harmless_artifact : harmless.
Lemma harmless_evidence op st acc c : harmless (captured_evidence op st acc c).
Proof using Type. unfold captured_evidence, artifact_evidence, receipt_evidence. harmless_prog. Qed.
Lemma harmless_physical op p : harmless (capturePhysicalBaseline op p).
Proof using Type. unfold capturePhysicalBaseline, capture_component. harmless_prog. Qed.
#[local] Hint Resolve harmless_evidence harmless_physical : harmless.
Definition EvidenceTold (past : list Happening) op c cr : Prop := DevBaselineComponent_ArtifactID c <> "" ->
  exists a, DevBaselineComponentResult_Availability cr = Some a /\ ArtifactTold past op c a.
Definition gathered_told op (done : list DevBaselineComponent) (acc : gathered) (past : list Happening) : Prop :=
  match acc with inl _ => True | inr results => Forall2 (EvidenceTold past op) done results end.
Lemma evidence_mono past past' op done results : past ⊆ past' -> Forall2 (EvidenceTold past op) done results -> Forall2 (EvidenceTold past' op) done results.
Proof using Type.
  intros Hs Hd. refine (list.Forall2_impl _ _ _ _ Hd _). intros c cr Hc Ha. destruct (Hc Ha) as (a & Hav & Ht). exists a.
  split; [exact Hav|exact (artifact_mono _ _ _ _ _ Hs Ht)].
Qed.
Lemma learns_evidence op st done acc c past : gathered_told op done acc past ->
  learns (captured_evidence op st acc c) past (fun past' acc' => gathered_told op (done ++ [c]) acc' past').
Proof using Type.
  intros Hdone. unfold captured_evidence. destruct acc as [reason|results]; [settled; simplify_eq; exact I|]. cbn [gathered_told] in Hdone.
  destruct (DevBaselineComponent_ObservedGitOps c) as [o|]; [|settled; discriminate].
  destruct (DevBaselineComponent_ArtifactID c != "") eqn:Ha.
  - unfold artifact_evidence. apply learns_after; [quiet_prog|]. intros l0 [[]|e] _; [|settled; simplify_eq; exact I].
    eapply learns_either; [apply learns_inspected|]. intros l1 inspected Hi. settled. simplify_eq. destruct inspected as [a|e]; [|exact I].
    destruct (is_available c a); [|exact I]. cbn [gathered_told]. apply Forall2_app; [|constructor; [|constructor]].
    + revert Hdone. apply evidence_mono. still_there.
    + intros _. exists a. split; [reflexivity|exact (Hi a eq_refl)].
  - unfold receipt_evidence. apply learns_after; [split; [exact I|intros ?; exact I]|]. intros l0 w _. settled. simplify_eq.
    destruct (baselineRegistryReceipt st op c _) as [receipt|e]; [|exact I]. cbn [gathered_told]. apply Forall2_app; [|constructor; [|constructor]].
    + revert Hdone. apply evidence_mono. still_there.
    + intros Hne. apply negb_false_iff, bool_decide_eq_true in Ha. contradiction.
Qed.

(** *** What a success has been told *)
(** The image of a component is available: the recorded artifact was inspected,
    or a worker observed the image's whole content in the registry. *)
Definition ImageAvailable (past : list Happening) (before : State) op c cr (t : Time) : Prop :=
  (DevBaselineComponent_ArtifactID c <> "" /\ exists a, DevBaselineComponentResult_Availability cr = Some a /\ ArtifactTold past op c a
     /\ ArtifactResult_Available a = true /\ ArtifactResult_Digest a = DevBaselineComponent_Digest c
     /\ (ArtifactResult_ObservedAt a <= t <= ArtifactResult_ObservedAt a + 5 * minute)%Z)
  \/ (DevBaselineComponent_ArtifactID c = "" /\ exists receipt, DevBaselineComponentResult_Registry cr = Some receipt
     /\ baselineRegistryReceipt before op c t = Ok receipt).
Record BaselineCaptured (past : list Happening) (before : State) op v p (r : DevBaselineResult) (runtime : DevRuntimeResult) : Prop := {
  captured_records : ExternalOperation_DevBaseline op = Some p /\ ExternalOperation_DevBaselineResult v = Some r /\ DevBaselineResult_Runtime r = Some runtime;
  captured_allowed : exists world : World, baselineAllowed before op true true = Ok ()
    /\ (DevBaselineResult_ObservedAt r <= now "finishBaseline" 0 <= DevBaselineResult_ObservedAt r + 5 * minute)%Z;
  captured_runtime : exists seen connections proof, Saw seen ∈ past /\ baselineConnections op seen p = Ok connections
    /\ baselineRuntimeProof op p = Some proof /\ RuntimeRead past connections proof (DevRuntimeResult_Components runtime);
  captured_images : forall i c, DevBaselineProof_Components p !! i = Some c -> exists cr actual,
    DevBaselineResult_Components r !! i = Some cr /\ DevRuntimeResult_Components runtime !! i = Some actual
    /\ DevBaselineComponentResult_ApplicationID cr = DevBaselineComponent_ApplicationID c
    /\ DevBaselineComponentResult_Digest cr = DevBaselineComponent_Digest c
    /\ DevBaselineComponent_ObservedGitOps c = Some (DevRuntimeComponentResult_GitOps actual)
    /\ ImageAvailable past before op c cr (DevBaselineResult_ObservedAt r)
    /\ forall j scope role, DevBaselineComponent_Scopes c !! j = Some scope -> DevRuntimeComponentResult_Roles actual !! j = Some role ->
         RunsExactly (DevBaselineComponent_ImageRepository c) (DevBaselineComponent_Digest c) scope role (DevBaselineResult_ObservedAt r);
}.
Definition CaptureEnds (token : string) (past : list Happening) op (before after : State) : Prop := forall v,
  operationByID after (ID op) = Some v -> ExternalOperation_Phase v = "BASELINE_CAPTURED" ->
  EndsAs token op before after v /\ ExternalOperation_Status v = "SUCCEEDED" /\ exists p r runtime, BaselineCaptured past before op v p r runtime.
Lemma ends_found token op before after v : EndsAs token op before after v -> operationByID after (ID op) = Some v.
Proof using Type.
  intros (current & step & Hc & _ & _ & Hid & _ & _ & ->). assert (E : ID op = ID v).
  { rewrite Hid. symmetry. apply has_id_true. exact (proj2 (find_first_Some _ _ _ Hc)). }
  apply (find_replaced v (ID op) (State_Operations before) E). unfold operationByID in Hc. rewrite Hc. reflexivity.
Qed.
Lemma finish_baseline_Ok `{World} cancelled op token result reason before after : finish_baseline_tx cancelled op token result reason before = Ok after ->
  exists current v, operationByID before (ID op) = Some current /\ EndsAs token op before after v
  /\ if sound_capture cancelled before op current result
     then ExternalOperation_Status v = "SUCCEEDED" /\ exists r, result = Some r /\ ExternalOperation_DevBaselineResult v = Some r
     else ExternalOperation_Phase v = "BASELINE_UNVERIFIED".
Proof using Type.
  unfold finish_baseline_tx. destruct (operationByID before (ID op)) as [current|] eqn:Hc; [|discriminate]. intros Hf.
  apply bind_guard in Hf as [Hl Hf]; [|discriminate]. cbv zeta in Hf. apply bind_Ok in Hf as ([] & _ & Hf).
  apply orb_false_iff in Hl as [Hl Ht]. apply negb_false_iff, bool_decide_eq_true in Hl. injection Hf as <-. exists current.
  eexists. split; [reflexivity|]. split.
  - exists current. eexists. split; [exact Hc|]. split; [exact Hl|]. split; [exact Ht|].
    split; [|split; [|split; [|reflexivity]]]; unfold recorded_capture; destruct (sound_capture cancelled before op current result); reflexivity.
  - destruct (sound_capture cancelled before op current result) eqn:Hs; [|reflexivity]. split; [reflexivity|].
    destruct result as [r|]; [|discriminate Hs]. exists r. split; reflexivity.
Qed.
(** What the judgement of a result says of one component. *)
Lemma judged_component st op r p runtime proof i c : validateBaselineResult st op r = Ok () -> ExternalOperation_DevBaseline op = Some p ->
  DevBaselineResult_Runtime r = Some runtime -> baselineRuntimeProof op p = Some proof ->
  DevBaselineProof_Components p !! i = Some c -> ValidateDevRuntimeResultAt proof runtime (DevBaselineResult_ObservedAt r) = Ok ()
  /\ exists cr actual, DevBaselineResult_Components r !! i = Some cr /\ DevRuntimeResult_Components runtime !! i = Some actual
     /\ component_result st op (DevBaselineResult_ObservedAt r) (c, cr, actual) = Ok ().
Proof using Type.
  unfold validateBaselineResult. intros Hv Hp Hr Hproof Hc. rewrite Hp, Hr, Hproof in Hv. cbv zeta in Hv. step_guards Hv.
  match goal with Hm : negb (result_matches p r) = false |- _ => apply negb_false_iff in Hm; rename Hm into Hmatch end.
  match goal with Hm : Baseline.validateDevRuntimeResultAt _ _ _ = Ok ?u |- _ => destruct u; apply result_valid in Hm; rename Hm into Hrun end.
  split; [exact Hrun|]. assert (Hlen : length (DevBaselineResult_Components r) = length (DevBaselineProof_Components p)).
  { unfold result_matches in Hmatch. to_prop. match goal with Hl : (_ =? _)%nat = true |- _ => apply Nat.eqb_eq, Hl end. }
  destruct (lookup_lt_is_Some_2 (DevBaselineResult_Components r) i) as [cr Hcr]; [rewrite Hlen; eapply lookup_lt_Some, Hc|].
  destruct (Forall2_lookup_l _ _ _ _ _ (runtime_proof_components op p proof Hproof) Hc) as (dc & Hdc & _).
  destruct (result_covers _ _ _ _ _ Hrun Hdc) as (actual & Hactual & _). exists cr, actual. split; [exact Hcr|]. split; [exact Hactual|].
  apply each_Ok in Hv. rewrite Forall_lookup in Hv. apply (Hv i). apply lookup_zip_Some. split; [apply lookup_zip_Some; auto|exact Hactual].
Qed.
Lemma available_spec op c t a : available_until op c t a = true -> ArtifactResult_Available a = true
  /\ ArtifactResult_Digest a = DevBaselineComponent_Digest c /\ (ArtifactResult_ObservedAt a <= t <= ArtifactResult_ObservedAt a + 5 * minute)%Z.
Proof using Type. unfold available_until. intros Ha. to_prop. match goal with Hr : recent _ _ = true |- _ => apply recent_spec in Hr end. auto. Qed.
Lemma component_judged past before op c cr actual t : component_result before op t (c, cr, actual) = Ok () -> EvidenceTold past op c cr ->
  DevBaselineComponentResult_ApplicationID cr = DevBaselineComponent_ApplicationID c
  /\ DevBaselineComponentResult_Digest cr = DevBaselineComponent_Digest c
  /\ DevBaselineComponent_ObservedGitOps c = Some (DevRuntimeComponentResult_GitOps actual) /\ ImageAvailable past before op c cr t.
Proof using Type.
  unfold component_result. intros Hr Htold. apply bind_guard in Hr as [Hm Hr]; [|discriminate]. apply bind_guard in Hr as [Hg Hr]; [|discriminate].
  apply negb_false_iff in Hm, Hg. unfold matching_result in Hm. to_prop.
  repeat (split; [first [assumption|congruence]|]). destruct (DevBaselineComponent_ArtifactID c != "") eqn:Ha.
  - left. apply negb_true_iff, bool_decide_eq_false in Ha. split; [exact Ha|]. destruct (Htold Ha) as (a & Hav & Ht).
    apply bind_guard in Hr as [Hcheck _]; [|discriminate]. apply negb_false_iff in Hcheck. rewrite Hav in Hcheck. to_prop.
    match goal with Hu : available_until _ _ _ _ = true |- _ => apply available_spec in Hu as (H1' & H2' & H3') end.
    exists a. auto.
  - right. apply negb_false_iff, bool_decide_eq_true in Ha. split; [exact Ha|].
    destruct (baselineRegistryReceipt before op c t) as [receipt|e] eqn:Hrec; [|discriminate]. apply reject_if_invalid, negb_false_iff in Hr. to_prop.
    exists receipt. split; [assumption|reflexivity].
Qed.
(** *** The step *)
Section step.
Context (token : string) (op : ExternalOperation).
Abbreviation sound p past := (wp (commit_rule (fun record => CaptureEnds token record op)) p past Any).
Lemma sound_fail past reason : sound (fail_baseline op token reason) past.
Proof using Type.
  apply commit_transact. intros w cancelled before after (current & v & Hc & He & Hs)%finish_baseline_Ok v' Hv' Hphase.
  rewrite (ends_found _ _ _ _ _ He) in Hv'. injection Hv' as <-. cbn in Hs. rewrite Hs in Hphase. discriminate.
Qed.
Lemma sound_stage p past : sound (stageBaseline op token p) past.
Proof using Type.
  apply commit_transact. intros w cancelled before after Ht v Hv Hphase. unfold stage_tx in Ht.
  destruct (operationByID before (ID op)) as [current|]; [|discriminate]. apply bind_guard in Ht as [_ Ht]; [|discriminate].
  apply bind_Ok in Ht as ([] & _ & Ht). apply bind_Ok in Ht as ([st q] & _ & Ht). cbv zeta in Ht. apply bind_Ok in Ht as ([] & _ & Ht). injection Ht as <-.
  unfold operationByID, set_operation in Hv. cbn in Hv. rewrite find_first_update_first in Hv by (intros x Hx; exact Hx).
  destruct (find_first _ (State_Operations st)); [|discriminate]. injection Hv as <-. discriminate.
Qed.
Lemma sound_retry detail past : ExternalOperation_Phase op <> "BASELINE_CAPTURED" -> sound (retry op token detail) past.
Proof using Type.
  intros Hph. unfold retry. apply commit_fresh. intros w.
  assert (Hsave : forall phase status d ev rel, phase <> "BASELINE_CAPTURED" -> sound (save op token phase status d ev rel) past).
  { intros phase status d ev rel Hp. apply commit_transact. intros w' cancelled before after Hs v Hv Hphase.
    apply save_tx_Ok in Hs as (current & status' & detail' & Hc & _ & _ & _ & E). unfold operationByID in Hv. rewrite E in Hv.
    destruct (saved_facts op token (mkStep phase status (str_take 1000 d) ev rel) before current status' detail') as (Hid & Hphase' & _).
    cbv zeta in *. rewrite find_replaced in Hv; [|symmetry; exact Hid|unfold operationByID in Hc; rewrite Hc; reflexivity].
    injection Hv as <-. destruct (Hp (eq_trans (eq_sym Hphase') Hphase)). }
  destruct (deadline_exceeded _ _); apply Hsave; exact Hph.
Qed.
(** The last phase, on a capture that names every application once. *)
Lemma capture_Ok (world : World) p st components runtime proof connections t past cancelled before after : ExternalOperation_DevBaseline op = Some p ->
  Saw st ∈ past -> Forall2 (EvidenceTold past op) (DevBaselineProof_Components p) components -> baselineConnections op st p = Ok connections ->
  baselineRuntimeProof op p = Some proof -> RuntimeRead past connections proof (DevRuntimeResult_Components runtime) ->
  finish_baseline_tx cancelled op token (Some (captured_result p components runtime t)) "" before = Ok after ->
  CaptureEnds token past op before after.
Proof using Type.
  intros Hp Hseen Htold Hconn Hproof Hread (current & v & Hc & He & Hs)%finish_baseline_Ok v' Hv' Hphase.
  rewrite (ends_found _ _ _ _ _ He) in Hv'. injection Hv' as <-. set (r := captured_result p components runtime t) in *.
  destruct (sound_capture cancelled before op current (Some r)) eqn:Hsound; [|rewrite Hs in Hphase; discriminate].
  destruct Hs as (Hst & r' & [= <-] & Hr). split; [exact He|]. split; [exact Hst|]. exists p, r, runtime.
  unfold sound_capture in Hsound. cbv zeta in Hsound. to_prop. repeat match goal with Hok : is_ok _ = true |- _ => unfold is_ok in Hok end.
  destruct (baselineAllowed before op true true) as [[]|] eqn:Ha; [|discriminate]. destruct (validateBaselineResult before op r) as [[]|] eqn:Hval; [|discriminate].
  match goal with Hrec : recent _ _ = true |- _ => apply recent_spec in Hrec; rename Hrec into Htime end.
  split; [split; [exact Hp|split; [exact Hr|reflexivity]]|exists world; split; [exact Ha|exact Htime]|exists st, connections, proof; auto|].
  intros i c Hi. destruct (judged_component before op r p runtime proof i c Hval Hp eq_refl Hproof Hi) as (Hrun & cr & actual & Hcr & Hactual & Hj).
  exists cr, actual. split; [exact Hcr|]. split; [exact Hactual|].
  destruct (Forall2_lookup_l _ _ _ _ _ Htold Hi) as (cr' & Hcr' & Ht). change (components !! i = Some cr) in Hcr. rewrite Hcr in Hcr'. injection Hcr' as <-.
  destruct (component_judged past before op c cr actual _ Hj Ht) as (J1 & J2 & J3 & J4). repeat (split; [assumption|]).
  intros j scope role Hscope Hrole. destruct (Forall2_lookup_l _ _ _ _ _ (runtime_proof_components op p proof Hproof) Hi) as (dc & Hdc & Hcap).
  destruct (captured_fields c dc Hcap) as (_ & Hrepo & Hdig & Hscopes & _). rewrite <- Hrepo, <- Hdig.
  apply (result_runs proof runtime _ i dc actual j scope role Hrun Hdc Hactual); [rewrite Hscopes; exact Hscope|exact Hrole].
Qed.
Lemma sound_runtime p st components past : ExternalOperation_DevBaseline op = Some p ->
  NoDup (map DevBaselineComponent_ApplicationID (DevBaselineProof_Components p)) -> Saw st ∈ past ->
  Forall2 (EvidenceTold past op) (DevBaselineProof_Components p) components -> sound (capture_runtime op token p st components) past.
Proof using Type.
  intros Hp Hn Hseen Htold. unfold capture_runtime. destruct (baselineConnections op st p) as [connections|e] eqn:Hconn; [|apply sound_fail].
  destruct (baselineRuntimeProof op p) as [proof|] eqn:Hproof; [|exact I].
  eapply commit_learned; [apply harmless_reading, harmless_baseline_lease|apply learns_runtime; [apply harmless_baseline_lease|exact (proof_distinct op p proof Hproof Hn)]| |].
  2: { intros later e. destruct e; first [exact I|apply sound_fail]. }
  intros later runtime Hread. apply commit_fresh. intros w. apply commit_transact. intros w' cancelled before after.
  eapply capture_Ok; [exact Hp| | |exact Hconn|exact Hproof|exact Hread].
  - apply elem_of_app. right. exact Hseen.
  - revert Htold. apply evidence_mono. still_there.
Qed.
Lemma sound_registry p past : ExternalOperation_DevBaseline op = Some p -> ExternalOperation_Phase op <> "BASELINE_CAPTURED" ->
  NoDup (map DevBaselineComponent_ApplicationID (DevBaselineProof_Components p)) -> sound (capture_registry op token p) past.
Proof using Type.
  intros Hp Hph Hn. unfold capture_registry. apply commit_read. intros st.
  destruct (awaited_components st op _) as [| |reason]; [|apply sound_retry, Hph|apply sound_fail].
  eapply commit_learned; [apply harmless_loop; auto with harmless|apply (learns_loop _ (gathered_told op)); [constructor|intros; apply learns_evidence; assumption]| |].
  - intros later [reason|components] Hg; [apply sound_fail|]. cbn in Hg. apply sound_runtime; [exact Hp|exact Hn|on_record|exact Hg].
  - intros later e. exact I.
Qed.
Lemma learns_baseline_lease past : learns (validateBaselineIO op) past (fun _ _ => exists (world : World) st, baselineAllowed st op true true = Ok ()).
Proof using Type.
  unfold validateBaselineIO. eapply learns_try; [apply (learns_calm _ _ _ (fun _ _ => True)); [apply (harmless_quiet (@writes)), harmless_expired|auto]|].
  intros l0 [] _ _. apply learns_read; [|intros e; settled; discriminate]. intros st. apply learns_after; [split; [exact I|intros ?; exact I]|].
  intros l1 w _. settled. match goal with Hr : _ = Ok a |- _ => apply bind_Ok in Hr as ([] & _ & Hr); destruct a end. exists w, st. assumption.
Qed.
Lemma baseline_step : sound (tickDevBaseline op token) [].
Proof using Type.
  unfold tickDevBaseline. eapply commit_learned; [auto with harmless|apply learns_baseline_lease| |intros; apply sound_fail].
  intros l0 [] (w & st & Ha). destruct (ExternalOperation_DevBaseline op) as [p|] eqn:Hp; [|exact I].
  pose proof (capture_distinct st op true true p Ha Hp) as Hn.
  destruct (ExternalOperation_Phase op == "CAPTURE_GITOPS") eqn:Hph.
  - unfold capture_gitops. apply commit_after; [auto with harmless|]. intros l1 [staged|e]; [|destruct e; try exact I; apply sound_fail].
    apply wp_bind; [apply commit_mono|]. eapply wp_mono; [apply commit_mono| |apply sound_stage].
    intros past [u|e] _; [exact I|destruct e; try exact I; apply sound_fail].
  - destruct (ExternalOperation_Phase op != "WAIT_REGISTRY") eqn:Hw; [apply sound_fail|]. apply negb_false_iff, bool_decide_eq_true in Hw.
    apply sound_registry; [exact Hp|rewrite Hw; discriminate|exact Hn].
Qed.
Lemma quiet_capture : quiet (@writes) (tickDevBaseline op token).
Proof using Type.
  assert (Hsave : forall phase status d ev rel, quiet (@writes) (save op token phase status d ev rel)) by (intros; unfold save; quiet_prog).
  assert (Hretry : forall d, quiet (@writes) (retry op token d)).
  { intros d. unfold retry, finish. apply quiet_bind; [split; [exact I|intros ?; exact I]|]. intros w. destruct (deadline_exceeded _ _); apply Hsave. }
  assert (Hfinish : forall r reason, quiet (@writes) (finishBaseline op token r reason)) by (intros; unfold finishBaseline; quiet_prog).
  assert (Hread : forall connections proof, quiet (@writes) (readRuntimeProof (validateBaselineIO op) connections proof)).
  { intros connections proof. apply (harmless_quiet (@writes)), harmless_reading, harmless_baseline_lease. }
  assert (Hruntime : forall p st components, quiet (@writes) (capture_runtime op token p st components)).
  { intros p st components. unfold capture_runtime, fail_baseline. destruct (baselineConnections op st p); [|apply Hfinish].
    destruct (baselineRuntimeProof op p); [|exact I]. apply quiet_bind; [apply Hread|]. intros [runtime|e]; [|destruct e; first [exact I|apply Hfinish]].
    apply quiet_bind; [split; [exact I|intros ?; exact I]|]. intros w. apply Hfinish. }
  unfold tickDevBaseline, capture_gitops, capture_registry, stageBaseline, fail_baseline. quiet_prog; auto.
Qed.
End step.
(** C14 What a step of a capture does, in every execution, against any store,
    providers and observers.  It never makes a call that writes.  When a
    transaction leaves its operation as a captured baseline, it ends the
    capture, which the step holds, and changes nothing else; the reservation
    still holds, with no activation admitted on it; the runtime was read
    between two readings of every manifest; and for every component of the
    shared baseline the manifest names the captured image, every replica of
    every role was ready and running it, and it was available: the artifact
    recorded for it was inspected, or a worker observed all of its content in
    the registry. *)
Theorem capture_proven op token past rest : Execution (tickDevBaseline op token) past rest ->
  (forall A (q : Call A), calls rest q -> writes q = false)
  /\ forall before after, commits rest before after -> CaptureEnds token past op before after.
Proof using Type.
  intros He. split.
  - intros A q Hc. apply not_true_iff_false. intros Hw.
    exact (execution_permitted (@writes) (fun _ _ _ => False) _ _ _ q (wp_quiet _ _ _ _ (quiet_capture token op)) He Hc Hw).
  - intros before after Hc. exact (execution_commits (fun record => CaptureEnds token record op) _ _ _ _ _ (baseline_step token op) He Hc).
Qed.
End capture.
