(* ===== verification/FlowRecords.v ===== *)
(** * What the worker of compositions records

    The two transactions that end the work of a flow: the deployments that are
    queued, one for each component and for exactly the commit that was
    composed or the artifact that was built ([queue_tx]), and the release
    ([release_tx]), which records the healthy outputs of every component. *)
From S2P Require Import Prelude GoText GoJson Delivery Domain Status Planning Handlers DeviceAuth Collections ExternalSystems Reservation Composition Conflicts Scenarios Pins WorkerAuth WorkerJobs Publications Registry Restoration Checks WorkerProtocol External Candidates Activation FlowGuards Effects Saving SourceRetention SourceChecks Operations Flow FlowWorker.
Open Scope string_scope.
Open Scope list_scope.

(** ** The deployments of the components *)
Section queue.
Context `{Runtime, NetURL, Upper, MapOrder, URLs, Hashing, Encoding, RestorationEvidence, Operator, Baselines, Capabilities, World}.
Implicit Types (op child built : ExternalOperation).

(** A deployment that has not started, of the flow it belongs to. *)
Definition Deployment op child : Prop :=
  ExternalOperation_Kind child = "DEPLOY" /\ ExternalOperation_Status child = "PENDING" /\ ExternalOperation_ParentID child = ID op
  /\ ExternalOperation_EnvironmentID child = ExternalOperation_EnvironmentID op /\ ProductID child = ProductID op
  /\ ExternalOperation_RequestedBy child = ExternalOperation_RequestedBy op /\ ExternalOperation_GitOpsResult child = None.
(** It builds the component as it was prepared, from the commit composed for
    its repository; what a candidate builds is not deployed. *)
Definition BuiltFrom op (prepared : DeliverySnapshot) child : Prop :=
  Deployment op child /\ ExternalOperation_Artifact child = None
  /\ ExternalOperation_BuildOnly child = bool_decide (ExternalOperation_Kind op = "RELEASE_CANDIDATE")
  /\ exists source result snap, component_composed op (Application_RepositoryID (DeliverySnapshot_Application prepared)) = Some source
     /\ FlowSource_Result source = Some result /\ fullSHA (SourceResult_SHA result) = true
     /\ (ExternalOperation_Kind op = "RELEASE_CANDIDATE" -> FlowSource_MainAdvanced source = true \/ is_some (ExternalOperation_MainCandidate op) = true)
     /\ ExternalOperation_Snapshot child = Some snap /\ DeliverySnapshot_Application snap = DeliverySnapshot_Application prepared
     /\ ExternalOperation_ApplicationID child = ID (DeliverySnapshot_Application prepared)
     /\ DeliverySnapshot_Target snap = DeliverySnapshot_Target prepared /\ DeliverySnapshot_Build snap = DeliverySnapshot_Build prepared
     /\ IntegrationRevision_HeadCommit (DeliverySnapshot_Revision snap) = SourceResult_SHA result
     /\ BuildRequest_SourceSHA (DeliverySnapshot_BuildRequest snap) = SourceResult_SHA result
     /\ BuildRequest_OperationID (DeliverySnapshot_BuildRequest snap) = ID child
     /\ BuildRequest_Inputs (DeliverySnapshot_BuildRequest snap) !! "source_sha" = Some (SourceResult_SHA result)
     /\ BuildRequest_Inputs (DeliverySnapshot_BuildRequest snap) !! "operation_id" = Some (ID child).
(** It deploys the artifact that the candidate has built, and nothing else. *)
Definition PromotedFrom (st : State) op (builtID : string) child : Prop :=
  Deployment op child /\ ExternalOperation_BuildOnly child = false
  /\ exists built artifact, operationByID st builtID = Some built /\ ExternalOperation_Status built = "SUCCEEDED"
     /\ ExternalOperation_Artifact built = Some artifact /\ ExternalOperation_Artifact child = Some artifact
     /\ ExternalOperation_ExpectedDigest child = ArtifactResult_Digest artifact
     /\ ExternalOperation_Snapshot child = ExternalOperation_Snapshot built /\ ExternalOperation_Run child = ExternalOperation_Run built
     /\ ExternalOperation_ReleaseCandidateID child = ExternalOperation_ReleaseCandidateID op.

Lemma built_child_Ok parent op t acc prepared acc' : built_child parent op t acc prepared = Ok acc' ->
  exists child, acc' = acc ++ [child] /\ BuiltFrom op prepared child.
Proof using Type.
  unfold built_child. intros Hb. destruct (component_composed _ _) as [source|] eqn:Hs; [|discriminate].
  destruct (FlowSource_Result source) as [result|] eqn:Hr; [|discriminate]. apply bind_guard in Hb as [Hf Hb]; [|discriminate]. cbv zeta in Hb.
  apply bind_guard in Hb as [Hm Hb]; [|discriminate]. apply bind_Ok in Hb as (native & _ & Hb). injection Hb as <-.
  eexists. split; [reflexivity|]. split; [repeat split|]. split; [reflexivity|]. split; [reflexivity|].
  eexists source, result, _. split; [exact Hs|]. split; [exact Hr|]. split; [apply negb_false_iff, Hf|]. split.
  - intros Hk. rewrite (bool_decide_eq_true_2 _ Hk) in Hm. cbn in Hm. destruct (FlowSource_MainAdvanced source); [left; reflexivity|right].
    apply negb_false_iff, Hm.
  - repeat (split; [reflexivity|]). split.
    + cbn. rewrite !lookup_insert_ne by discriminate. apply lookup_insert_eq.
    + cbn. rewrite !lookup_insert_ne by discriminate. apply lookup_insert_eq.
Qed.
Lemma promotion_child_Ok st op t acc builtID acc' : promotion_child st op t acc builtID = Ok acc' ->
  exists child, acc' = acc ++ [child] /\ PromotedFrom st op builtID child.
Proof using Type.
  unfold promotion_child. intros Hb. destruct (operationByID st builtID) as [built|] eqn:Ho; [|discriminate].
  destruct (ExternalOperation_Snapshot built) as [snap|] eqn:Hs; [|discriminate].
  destruct (ExternalOperation_Artifact built) as [artifact|] eqn:Ha; [|discriminate]. apply bind_guard in Hb as [Hf Hb]; [|discriminate].
  injection Hb as <-. apply negb_false_iff, bool_decide_eq_true in Hf. eexists. split; [reflexivity|]. split; [repeat split|]. split; [reflexivity|].
  exists built, artifact. repeat (split; [solve [auto]|]). reflexivity.
Qed.

(** The children of a flow, as its kind has them. *)
Definition ChildrenOf (st : State) op (children : list ExternalOperation) : Prop :=
  if ExternalOperation_Kind op == "RELEASE_PROMOTION"
  then exists candidate, operationByID st (ExternalOperation_ReleaseCandidateID op) = Some candidate
       /\ Forall2 (PromotedFrom st op) (ExternalOperation_ChildIDs candidate) children
  else Forall2 (BuiltFrom op) (ExternalOperation_PreparedDeployments op) children.
(** A child as it is admitted, under the epoch of its parent's reservation. *)
Definition admitted_child (parent child : ExternalOperation) : ExternalOperation :=
  child <| ExternalOperation_ReservationEpoch := ExternalOperation_ReservationEpoch parent |>.
(** C15 Queueing the components of a flow admits one deployment for each of
    them and for nothing else: a composition or a candidate builds exactly the
    commit composed for the repository of each prepared component (a candidate
    only once main has advanced to it, and without deploying), a promotion
    deploys the very artifact its candidate has built.  It happens once: the
    parent had no children, held this lease and passed its guards; afterwards
    it waits, unleased, for exactly these. *)
Theorem children_exact cancelled op token verifiedAt st st' : queue_tx cancelled op token verifiedAt st = Ok st' -> exists parent children,
  operationByID st (ID op) = Some parent /\ ExternalOperation_LeaseOwner parent = token /\ ExternalOperation_ChildIDs parent = []
  /\ service_flowGuard st parent = Ok () /\ (composes_dev op = true -> retentionLease _ st op token = Ok ())
  /\ (is_some (ExternalOperation_MainCandidate op) = true -> nativeParentHash parent = nativeParentHash op)
  /\ children <> [] /\ ChildrenOf st op children
  /\ State_Operations st' = update_first (has_id (ID op)) (awaiting (map ID children) (now "queueFlowChildren" 0)) (State_Operations st)
                            ++ map (admitted_child parent) children
  /\ exists waiting, operationByID st' (ID op) = Some waiting /\ ExternalOperation_Phase waiting = "WAIT_CHILDREN"
     /\ ExternalOperation_Status waiting = "RUNNING" /\ ExternalOperation_ChildIDs waiting = map ID children /\ ExternalOperation_LeaseOwner waiting = "".
Proof using Type.
  unfold queue_tx. destruct (operationByID st (ID op)) as [parent|] eqn:Hp; [|discriminate]. intros Hq. apply bind_Ok in Hq as ([] & Hf & Hq).
  apply bind_Ok in Hq as (children & Hc & Hq). apply bind_guard in Hq as [Hne Hq]; [|discriminate]. apply bind_Ok in Hq as (u & _ & Hq). injection Hq as <-.
  apply bool_decide_eq_false in Hne. unfold queue_fences in Hf. apply bind_guard in Hf as [Hw Hf]; [|discriminate].
  apply negb_false_iff, bool_decide_eq_true in Hw. apply bind_Ok in Hf as ([] & Hg & Hf). apply bind_Ok in Hf as ([] & Hr & Hf).
  apply bind_Ok in Hf as ([] & Hm & Hf). apply reject_if_invalid, negb_false_iff, bool_decide_eq_true in Hf.
  exists parent, children. split; [reflexivity|]. split; [exact Hw|]. split; [exact Hf|]. split; [exact Hg|]. split; [|split; [|split; [exact Hne|split; [|split; [reflexivity|]]]]].
  - intros Hd. rewrite Hd in Hr. apply bind_guard in Hr as [_ Hr]; [exact Hr|discriminate].
  - intros Hd. rewrite Hd in Hm. apply bind_guard in Hm as [_ Hm]; [|discriminate]. apply reject_if_invalid, orb_false_iff in Hm as [_ Hm].
    apply negb_false_iff, bool_decide_eq_true in Hm. exact Hm.
  - unfold ChildrenOf. destruct (_ == _) in Hc |- *.
    + unfold promotion_children in Hc. destruct (operationByID st (ExternalOperation_ReleaseCandidateID op)) as [candidate|]; [|discriminate].
      exists candidate. split; [reflexivity|]. apply (foldM_collect (PromotedFrom st op)) in Hc as (ys & -> & Hys); [exact Hys|].
      intros acc x acc' _. apply promotion_child_Ok.
    + unfold built_children in Hc. apply bind_guard in Hc as [_ Hc]; [|discriminate].
      apply (foldM_collect (BuiltFrom op)) in Hc as (ys & -> & Hys); [exact Hys|]. intros acc x acc' _. apply built_child_Ok.
  - exists (awaiting (map ID children) (now "queueFlowChildren" 0) parent). split; [|auto]. unfold operationByID in *.
    match goal with |- find_first ?p ?l = _ => transitivity (find_first p (update_first p (awaiting (map ID children) (now "queueFlowChildren" 0)) (State_Operations st)
      ++ map (admitted_child parent) children)); [reflexivity|] end.
    rewrite find_first_app, find_first_update_first by (intros x Hx; exact Hx). rewrite Hp. reflexivity.
Qed.
End queue.

(** ** The release *)
Section release.
Context `{Runtime, NetURL, Upper, MapOrder, URLs, Hashing, Encoding, RestorationEvidence, Operator, Baselines, Capabilities, World}.
Implicit Types (op child : ExternalOperation).

(** The output of a component: what its deployment used, produced and applied,
    confirmed by the latest observation of its runtime. *)
Record Output := mkOutput { Output_application : string; Output_source : string; Output_digest : string; Output_commit : string }.
Definition Confirmed (st : State) (childID : string) (o : Output) : Prop :=
  exists child snap artifact result latest, operationByID st childID = Some child
  /\ ExternalOperation_Snapshot child = Some snap /\ ExternalOperation_Artifact child = Some artifact /\ ExternalOperation_GitOpsResult child = Some result
  /\ latest_observation st childID = Some latest /\ RuntimeObservation_Healthy latest = true
  /\ RuntimeObservation_GitOpsCommit latest = GitOpsResult_CommitSHA result /\ RuntimeObservation_ArtifactDigest latest = ArtifactResult_Digest artifact
  /\ o = mkOutput (ExternalOperation_ApplicationID child) (IntegrationRevision_HeadCommit (DeliverySnapshot_Revision snap))
            (ArtifactResult_Digest artifact) (GitOpsResult_CommitSHA result).
Definition put_output (record : Release) (o : Output) : Release :=
  record <| Release_SourceCommits ::= <[Output_application o := Output_source o]> |>
         <| Release_ArtifactDigests ::= <[Output_application o := Output_digest o]> |>
         <| Release_GitOpsCommits ::= <[Output_application o := Output_commit o]> |>.
Lemma release_component_Ok st record childID record' : release_component st record childID = Ok record' ->
  exists o, Confirmed st childID o /\ record' = put_output record o.
Proof using Type.
  unfold release_component. intros Hr. cbv zeta in Hr. destruct (operationByID st childID) as [child|] eqn:Hc; [|discriminate].
  destruct (ExternalOperation_Snapshot child) as [snap|] eqn:Hs; [|discriminate].
  destruct (ExternalOperation_Artifact child) as [artifact|] eqn:Ha; [|discriminate].
  destruct (ExternalOperation_GitOpsResult child) as [result|] eqn:Hg; [|discriminate].
  destruct (latest_observation st childID) as [latest|] eqn:Hl; [|discriminate]. apply bind_guard in Hr as [Hb Hr]; [|discriminate]. injection Hr as <-.
  unfold matches_outputs in Hb. to_prop.
  exists (mkOutput (ExternalOperation_ApplicationID child) (IntegrationRevision_HeadCommit (DeliverySnapshot_Revision snap))
            (ArtifactResult_Digest artifact) (GitOpsResult_CommitSHA result)). split; [|reflexivity]. exists child, snap, artifact, result, latest. repeat (split; [solve [auto]|]). reflexivity.
Qed.
Lemma release_components_Ok st ids record record' : foldM (release_component st) record ids = Ok record' ->
  exists outputs, Forall2 (Confirmed st) ids outputs /\ record' = foldl put_output record outputs.
Proof using Type.
  revert record. induction ids as [|cid ids IH]; intros record Hf; cbn in Hf; [injection Hf as <-; exists []; split; constructor|].
  apply bind_Ok in Hf as (r1 & Hc & Hf). apply release_component_Ok in Hc as (o & Ho & ->). destruct (IH _ Hf) as (os & Hos & ->).
  exists (o :: os). split; [constructor; assumption|reflexivity].
Qed.
(** An integration as the release leaves it. *)
Definition released_integration (t : Time) (v : Integration) : Integration :=
  v <| Integration_Status := "released" |> <| Integration_Meta ::= fun m => m <| Meta_UpdatedAt := t |> |>.
Lemma released_meta t v : ID (released_integration t v) = ID v.
Proof using Type. reflexivity. Qed.
(** What the integrations of the release leave of the rest. *)
Definition only_integrations (st st' : State) : Prop := exists l, st' = st <| State_Integrations := l |>.
Lemma release_integration_Ok t st record iid st' record' : release_integration t (st, record) iid = Ok (st', record') ->
  exists v, integration st iid = Some v /\ integration st' iid = Some (released_integration t v)
  /\ (forall other, other <> iid -> integration st' other = integration st other)
  /\ record' = record <| Release_Snapshots ::= fun l => l ++ [released_integration t v] |> /\ only_integrations st st'.
Proof using Type.
  unfold release_integration. intros Hr. destruct (integration st iid) as [v|] eqn:Hv; [|discriminate]. injection Hr as <- <-.
  exists v. split; [reflexivity|]. destruct (find_first_Some _ _ _ Hv) as [_ Hid]. apply has_id_true in Hid. split; [|split; [|split; [reflexivity|eexists; reflexivity]]].
  - transitivity ((fun _ : Integration => released_integration t v) <$> integration st iid); [|rewrite Hv; reflexivity].
    apply find_first_update_first. intros x _. apply has_id_true. exact Hid.
  - intros other Hne. apply find_first_update_first_other. intros x Hx. apply has_id_true in Hx. unfold has_id.
    split; apply bool_decide_eq_false; [congruence|]. change (ID v <> other). congruence.
Qed.
Definition with_snapshots (record : Release) (l : list Integration) : Release := record <| Release_Snapshots := l |>.
Lemma release_integrations_Ok t iids : forall st record st' record',
  foldM (release_integration t) (st, record) iids = Ok (st', record') -> exists snapshots,
  Forall2 (fun iid v => integration st' iid = Some v /\ exists before, integration st iid = Some before /\ v = released_integration t before) iids snapshots
  /\ (forall other, other ∉ iids -> integration st' other = integration st other)
  /\ record' = record <| Release_Snapshots ::= fun l => l ++ snapshots |> /\ only_integrations st st'.
Proof using Type.
  induction iids as [|iid iids IH]; intros st record st' record' Hf; cbn [foldM] in Hf.
  - injection Hf as <- <-. exists []. split; [constructor|]. split; [auto|]. split; [|exists (State_Integrations st); reflexivity].
    exact (f_equal (with_snapshots record) (eq_sym (app_nil_r (Release_Snapshots record)))).
  - apply bind_Ok in Hf as ([st1 r1] & Hi & Hf). apply release_integration_Ok in Hi as (v & Hv & Hv1 & Hother & -> & [l1 ->]).
    destruct (IH _ _ _ _ Hf) as (snapshots & Hall & Hkeep & -> & [l ->]).
    assert (Hre : forall u, released_integration t (released_integration t u) = released_integration t u) by reflexivity.
    assert (Hback : forall other u, integration (st <| State_Integrations := l1 |>) other = Some u -> exists before,
              integration st other = Some before /\ released_integration t u = released_integration t before).
    { intros other u Hu. destruct (decide (other = iid)) as [->|Hne].
      - rewrite Hv1 in Hu. injection Hu as <-. exists v. split; [exact Hv|apply Hre].
      - rewrite Hother in Hu by exact Hne. exists u. auto. }
    assert (Hrest : Forall2 (fun i w => integration (st <| State_Integrations := l |>) i = Some w /\ exists before,
              integration st i = Some before /\ w = released_integration t before) iids snapshots).
    { refine (list.Forall2_impl _ _ _ _ Hall _). intros i w (Hw & u & Hu & ->). split; [exact Hw|]. exact (Hback i u Hu). }
    exists (released_integration t v :: snapshots). split; [constructor; [|exact Hrest]|].
    + split; [|exists v; auto]. destruct (decide (iid ∈ iids)) as [Hin|Hout]; [|rewrite <- Hv1; exact (Hkeep iid Hout)].
      apply list_elem_of_lookup in Hin as [k Hk]. destruct (Forall2_lookup_l _ _ _ _ _ Hrest Hk) as (w & _ & Hw & u & Hu & ->).
      rewrite Hv in Hu. injection Hu as <-. exact Hw.
    + split; [|split; [|eexists; reflexivity]].
      * intros other Hn. rewrite not_elem_of_cons in Hn. destruct Hn as [Hne Hn]. transitivity (integration (st <| State_Integrations := l1 |>) other);
          [exact (Hkeep other Hn)|apply Hother, Hne].
      * exact (f_equal (with_snapshots record) (eq_sym (app_assoc (Release_Snapshots record) [released_integration t v] snapshots))).
Qed.
(** The outputs a release records: for each component those of its last deployment. *)
Definition last_output (outputs : list Output) (app : string) : option Output := find_last (fun o => Output_application o == app) outputs.
Definition Records (outputs : list Output) (record : Release) : Prop := forall app,
  Release_SourceCommits record !! app = Output_source <$> last_output outputs app
  /\ Release_ArtifactDigests record !! app = Output_digest <$> last_output outputs app
  /\ Release_GitOpsCommits record !! app = Output_commit <$> last_output outputs app.
Lemma put_outputs record outputs : Release_SourceCommits record = ∅ -> Release_ArtifactDigests record = ∅ -> Release_GitOpsCommits record = ∅ ->
  Records outputs (foldl put_output record outputs).
Proof using Type.
  intros Es Ed Eg. induction outputs as [|o outputs IH] using rev_ind; intros app.
  - cbn. rewrite Es, Ed, Eg. auto.
  - rewrite foldl_snoc. specialize (IH app). destruct IH as (IHs & IHd & IHg). unfold last_output, find_last in *. rewrite reverse_snoc. cbn.
    destruct (Output_application o == app) eqn:E; [apply bool_decide_eq_true in E; subst app|apply bool_decide_eq_false in E].
    + rewrite !lookup_insert_eq. auto.
    + rewrite !lookup_insert_ne by exact E. auto.
Qed.
Lemma put_outputs_keeps record outputs : exists s d g, foldl put_output record outputs
  = record <| Release_SourceCommits := s |> <| Release_ArtifactDigests := d |> <| Release_GitOpsCommits := g |>.
Proof using Type.
  revert record. induction outputs as [|o outputs IH]; intros record; [do 3 eexists; reflexivity|].
  destruct (IH (put_output record o)) as (s & d & g & E). exists s, d, g. cbn [foldl]. rewrite E. reflexivity.
Qed.
(** C16 Recording a release confirms it first: the latest observation of the
    runtime of every component is healthy and matches the artifact and the
    GitOps commit of its deployment; the record holds, for each component, the
    commit, the digest and the GitOps commit confirmed, and the integrations as
    they are released.  A second run for the same operation adds no second
    release, and nothing else of the state changes but the operation, its
    steps and the integrations of the release. *)
Theorem release_recorded op token st st' : release_tx op token st = Ok st' -> exists parent outputs record,
  operationByID st (ID op) = Some parent /\ ExternalOperation_LeaseOwner parent = token /\ service_flowGuard st parent = Ok ()
  /\ Forall2 (Confirmed st) (ExternalOperation_ChildIDs parent) outputs /\ Records outputs record
  /\ Release_ExecutionOperationID record = ID op /\ Release_CandidateOperationID record = ExternalOperation_ReleaseCandidateID op
  /\ Release_EnvironmentID record = ExternalOperation_EnvironmentID op /\ Release_Status record = "released"
  /\ Release_IntegrationIDs record = ExternalOperation_IntegrationIDs op
  /\ Forall2 (fun iid v => integration st' iid = Some v /\ exists before, integration st iid = Some before /\ v = released_integration (now "finishFlowRelease" 0) before)
       (ExternalOperation_IntegrationIDs op) (Release_Snapshots record)
  /\ (forall other, other ∉ ExternalOperation_IntegrationIDs op -> integration st' other = integration st other)
  /\ State_Releases st' = State_Releases st ++ (if existsb (fun r => Release_ExecutionOperationID r == ID op) (State_Releases st) then [] else [record])
  /\ operationByID st' (ID op) = Some (released_operation (now "finishFlowRelease" 0) parent)
  /\ exists integrations operations releases steps,
       st' = st <| State_Integrations := integrations |> <| State_Operations := operations |> <| State_Releases := releases |> <| State_OperationSteps := steps |>.
Proof using Type.
  unfold release_tx. destruct (operationByID st (ID op)) as [parent|] eqn:Hp; [|discriminate]. intros Hr. apply bind_guard in Hr as [Hw Hr]; [|discriminate].
  apply negb_false_iff, bool_decide_eq_true in Hw. apply bind_Ok in Hr as ([] & Hg & Hr). cbv zeta in Hr. apply bind_Ok in Hr as (blank & Hn & Hr).
  apply bind_Ok in Hr as (filled & Hf & Hr). apply bind_Ok in Hr as ([st1 record] & Hi & Hr). injection Hr as Hst.
  unfold new_release in Hn. destruct (ExternalOperation_CompositionSnapshot op) as [comp|]; [|discriminate]. injection Hn as <-.
  apply release_components_Ok in Hf as (outputs & Houts & ->). apply release_integrations_Ok in Hi as (snapshots & Hsnap & Hkeep & -> & [l ->]).
  match type of Hst with context [foldl put_output ?b outputs] => pose proof (put_outputs b outputs eq_refl eq_refl eq_refl) as Hrec;
    destruct (put_outputs_keeps b outputs) as (s & d & g & E) end.
  rewrite E in Hst, Hrec.
  match type of Hst with context [?r <| Release_Snapshots ::= _ |>] => exists parent, outputs, (with_snapshots r snapshots) end.
  split; [reflexivity|]. split; [exact Hw|]. split; [exact Hg|]. split; [exact Houts|]. split; [exact Hrec|]. do 5 (split; [reflexivity|]).
  match type of Hst with context [existsb ?p (State_Releases ?s)] => change (existsb p (State_Releases s)) with (existsb p (State_Releases st)) in Hst end.
  assert (Hop : operationByID st' (ID op) = Some (released_operation (now "finishFlowRelease" 0) parent)).
  { subst st'. transitivity (released_operation (now "finishFlowRelease" 0) <$> operationByID st (ID op)); [|rewrite Hp; reflexivity].
    destruct (existsb _ _); apply find_first_update_first; intros x Hx; exact Hx. }
  split; [subst st'; destruct (existsb _ _); exact Hsnap|]. split; [subst st'; destruct (existsb _ _); exact Hkeep|].
  split; [|split; [exact Hop|]].
  - subst st'. destruct (existsb _ (State_Releases st)); [rewrite app_nil_r|]; reflexivity.
  - exists (State_Integrations st'), (State_Operations st'), (State_Releases st'), (State_OperationSteps st').
    subst st'. destruct (existsb _ (State_Releases st)); reflexivity.
Qed.
End release.
