(* ===== verification/MainAdmission.v ===== *)
(** * The admission of a main candidate

    [executeMainCandidate] of application/main_candidate.go: a request names,
    for each component, the commit of main to release and the merged pull
    requests that brought its revisions there.  The request is prepared on a
    state that is only read, the pull requests are observed outside the store,
    and one transaction admits the candidate under all its guards, or returns
    the one the same request has made before. *)
From S2P Require Import Prelude GoText GoJson Delivery Domain Status Planning Handlers DeviceAuth Collections ExternalSystems Reservation Composition Conflicts Scenarios Pins WorkerAuth WorkerJobs Publications Registry Restoration Checks WorkerProtocol External Candidates Activation FlowGuards Effects Saving SourceRetention SourceChecks Operations OperationSafety Executions Commands Flow FlowIntent.
Open Scope string_scope.
Open Scope list_scope.

(** ** The request *)
#[export] Instance fields_MainCandidateRevision `{Runtime} : Fields MainCandidateRevision :=
  [
    field "revision_id" MainCandidateRevision_RevisionID; field "pull_request_number" MainCandidateRevision_PullRequestNumber;
    field "verification_result_ids" MainCandidateRevision_VerificationResultIDs
  ].
#[export] Instance fields_MainCandidateSource `{Runtime} : Fields MainCandidateSource :=
  [
    field "application_id" MainCandidateSource_ApplicationID; field "main_sha" MainCandidateSource_MainSHA;
    field "native" MainCandidateSource_Native; field "revisions" MainCandidateSource_Revisions
  ].
#[export] Instance fields_MainCandidateRequest `{Runtime} : Fields MainCandidateRequest :=
  [
    field "name" MainCandidateRequest_Name; field "environment_id" MainCandidateRequest_EnvironmentID;
    field "idempotency_key" MainCandidateRequest_IdempotencyKey; field "main_sources" MainCandidateRequest_MainSources
  ].

Section admission.
Context `{Runtime, NetURL, Upper, MapOrder, URLs, Hashing, Encoding, RestorationEvidence, Operator, Baselines, Capabilities}.
Implicit Types (op : ExternalOperation).

(** *** One spelling of every key *)
Definition json_object (j : json) : option (gmap string json) := match j with JObj kvs => Some (list_to_map (reverse kvs)) | _ => None end.
Definition json_array (j : json) : option (list json) := match j with JArr l => Some l | _ => None end.
Definition required {A} (o : option A) (format : string) : res A := match o with Some a => Ok a | None => invalid format [] end.
Definition only_keys (names : list string) (obj : gmap string json) : res unit :=
  each (fun kv => reject_if (negb (contains names kv.1)) (invalid "unknown main candidate field %s" [kv.1])) (map_range obj).
Definition exact_revision (j : json) : res unit :=
  rev ← required (json_object j) "invalid revision";
  only_keys ["revision_id"; "pull_request_number"; "verification_result_ids"] rev.
Definition exact_source (j : json) : res unit :=
  src ← required (json_object j) "invalid main source";
  _ ← only_keys ["application_id"; "main_sha"; "native"; "revisions"] src;
  native ← required (src !! "native" ≫= json_object) "explicit native binding required";
  _ ← required (native !! "parameters" ≫= json_object) "explicit native parameters object required";
  _ ← only_keys ["build_recipe_id"; "publication_recipe_id"; "parameters"] native;
  revisions ← required (src !! "revisions" ≫= json_array) "revisions must be an array";
  each exact_revision revisions.
Definition exactMainCandidateKeys (data : Data) : res unit :=
  _ ← only_keys ["name"; "environment_id"; "idempotency_key"; "main_sources"] data;
  sources ← required (data !! "main_sources" ≫= json_array) "main_sources must be an array";
  each exact_source sources.

(** *** Its bounds *)
Definition between (n lo hi : Z) : bool := (lo <=? n)%Z && (n <=? hi)%Z.
Definition bounded_revision (seen : list string) (rev : MainCandidateRevision) : res (list string) :=
  let rid := MainCandidateRevision_RevisionID rev in
  if between (strlen rid) 1 128 && negb (contains seen rid) && between (MainCandidateRevision_PullRequestNumber rev) 1 2147483647
     && between (Z.of_nat (length (MainCandidateRevision_VerificationResultIDs rev))) 1 100
  then Ok (rid :: seen) else invalid "bounded unique revision and verification refs required" [].
Definition bounded_source (seen : list string) (src : MainCandidateSource) : res (list string) :=
  let app := MainCandidateSource_ApplicationID src in
  _ ← require (between (strlen app) 1 128 && negb (contains seen app) && commit_sha (MainCandidateSource_MainSHA src)
               && between (Z.of_nat (length (MainCandidateSource_Revisions src))) 1 20) "invalid or duplicate main source";
  _ ← foldM bounded_revision [] (MainCandidateSource_Revisions src);
  Ok (app :: seen).
Definition unscoped_command (c : Command) : bool :=
  (Command_ProductID c != "") && negb (blank (Command_Actor c)) && (Command_ID c == "") && (Command_FeatureID c == "")
  && (Command_IntegrationID c == "") && (Command_GateID c == "") && (Command_CheckID c == "") && (Command_ResultID c == "").
Definition bounded_request (c : Command) (request : MainCandidateRequest) : res unit :=
  _ ← require (unscoped_command c && negb (blank (MainCandidateRequest_Name request)) && (strlen (MainCandidateRequest_Name request) <=? 256)%Z
               && workerRequestKey (MainCandidateRequest_IdempotencyKey request)
               && between (Z.of_nat (length (MainCandidateRequest_MainSources request))) 1 20) "bounded main candidate input and actor/product required";
  _ ← foldM bounded_source [] (MainCandidateRequest_MainSources request);
  Ok ().
Definition mainCandidateInput (c : Command) : res (MainCandidateRequest * string) :=
  _ ← exactMainCandidateKeys (Command_Data c);
  request ← decode (Command_Data c) (zero : MainCandidateRequest);
  _ ← bounded_request c request;
  Ok (request, Fingerprint (Command_ProductID c, Command_Actor c, request)).
(** The operation the request has made before. *)
Definition same_candidate_request (c : Command) (request : MainCandidateRequest) op : bool :=
  (ProductID op == Command_ProductID c) && (ExternalOperation_RequestKey op == MainCandidateRequest_IdempotencyKey request).
Definition candidateReplay (st : State) (c : Command) (request : MainCandidateRequest) (hash : string) : res (option ExternalOperation) :=
  match find_first (same_candidate_request c request) (State_Operations st) with
  | None => Ok None
  | Some op =>
    _ ← require (is_some (ExternalOperation_MainCandidate op) && (ExternalOperation_RequestHash op == hash)
                 && (ExternalOperation_RequestedBy op == Command_Actor c)) "conflicting main candidate replay";
    Ok (Some op)
  end.

(** ** What is prepared *)
Definition production_target (product : string) (binding : RepositoryBinding) (build : ComponentBuild) (target : EnvironmentBinding) : bool :=
  (ProductID binding == product) && IsSourceRole (RepositoryBinding_Role binding) && (ComponentBuild_Mode build == "NATIVE")
  && (ProductID target == product) && (EnvironmentBinding_Purpose target == "PROD") && EnvironmentBinding_AllowDeploy target
  && (EnvironmentBinding_GitOpsMode target == "PR").
(** The components of a repository ask for the same commit and pull requests. *)
Definition share_repository (inputs : gmap string string) (repositoryID : string) (src : MainCandidateSource) : res (gmap string string) :=
  let shared := Fingerprint (MainCandidateSource_MainSHA src, MainCandidateSource_Revisions src) in
  _ ← reject_if (match inputs !! repositoryID with Some other => other != shared | None => false end)
        (invalid "shared repository candidate proof mismatch" []);
  Ok (<[repositoryID := shared]> inputs).
Definition candidate_component (st : State) (c : Command) (request : MainCandidateRequest) (candidateID : string)
    (acc : list CompositionComponent * gmap string string) (src : MainCandidateSource) : res (list CompositionComponent * gmap string string) :=
  match applicationByID st (MainCandidateSource_ApplicationID src) with
  | None => Err ErrPanic
  | Some app =>
    match repositoryBinding st (Application_RepositoryID app), componentBuild st (ID app),
          environmentBinding st (MainCandidateRequest_EnvironmentID request) (ID app) with
    | Some binding, Some build, Some target =>
      _ ← reject_if (negb (production_target (Command_ProductID c) binding build target))
            (invalid "main candidate requires configured native component and PR-only PROD target" []);
      _ ← require (contains ["main"; "master"] (configuredBase binding)) "configured main/master required";
      _ ← require (match ParseInt (repositoryLocator st binding) with Some n => (0 <? n)%Z | None => false end)
            "physical numeric repository identity required";
      inputs ← share_repository acc.2 (Application_RepositoryID app) src;
      Ok (acc.1 ++ [mkCompositionComponent (MainCandidateSource_ApplicationID src) (configuredBase binding) (MainCandidateSource_MainSHA src)
                      (generated_branch (MainCandidateRequest_EnvironmentID request) candidateID (Application_RepositoryID app))
                      (map MainCandidateRevision_RevisionID (MainCandidateSource_Revisions src))], inputs)
    | _, _, _ => invalid "main candidate requires configured native component and PR-only PROD target" []
    end
  end.
(** The build the request asks for, in place of the configured one. *)
Definition effective_build (snap : DeliverySnapshot) (src : MainCandidateSource) (pub : PublicationRecipe) : ComponentBuild :=
  (DeliverySnapshot_Build snap) <| ComponentBuild_Native := Some (MainCandidateSource_Native src) |>
    <| ComponentBuild_Profile := PublicationRecipe_Profile pub |> <| ComponentBuild_ImageRepository := nativeImage pub |>
    <| ComponentBuild_RebuildMissing := false |>.
Definition candidate_snapshot (c : Command) (m : Meta) (snap : DeliverySnapshot) (src : MainCandidateSource) : res DeliverySnapshot :=
  match externalWorkers ≫= (fun w => publication w (NativeBinding_PublicationRecipeID (MainCandidateSource_Native src))) with
  | None => invalid "candidate publication recipe missing" []
  | Some pub =>
    let build := effective_build snap src pub in
    let image := ComponentBuild_ImageRepository build in
    native ← freezeNative (Command_ProductID c) (DeliverySnapshot_Application snap) build (Meta_CreatedAt m);
    Ok (snap <| DeliverySnapshot_BuildBaseline := Some (DeliverySnapshot_Build snap) |> <| DeliverySnapshot_Build := build |>
             <| DeliverySnapshot_GitOpsRequest ::= (fun r => r <| GitOpsRequest_ImageRepository := image |>) |>
             <| DeliverySnapshot_BuildRequest ::= (fun r => r <| BuildRequest_Inputs ::= <["image_repository" := image]> |>) |>
             <| DeliverySnapshot_Native := Some native |>)
  end.
Definition selected_revision (st : State) (r : MainCandidateRevision) : res MainCandidateMergedRevision :=
  match revisionByID st (MainCandidateRevision_RevisionID r) with
  | None => Err ErrPanic
  | Some rev => Ok (mkMainCandidateMergedRevision (ID rev) (MainCandidateRevision_PullRequestNumber r) (IntegrationRevision_HeadCommit rev)
                      (IntegrationRevision_Branch rev) "" "")
  end.
(** The locator is a number: [candidate_component] has parsed it. *)
Definition selected_repository (st : State) (snap : DeliverySnapshot) (src : MainCandidateSource) : res MainCandidateRepository :=
  revisions ← foldM (fun acc r => rev ← selected_revision st r; Ok (acc ++ [rev])) [] (MainCandidateSource_Revisions src);
  Ok (mkMainCandidateRepository (Application_RepositoryID (DeliverySnapshot_Application snap))
        (default 0%Z (ParseInt (BuildRequest_Repository (DeliverySnapshot_BuildRequest snap)))) (configuredBase (DeliverySnapshot_Source snap))
        (MainCandidateSource_MainSHA src) revisions).
Definition prepared_source (st : State) (c : Command) (m : Meta) (acc : list DeliverySnapshot * list MainCandidateRepository)
    (x : DeliverySnapshot * MainCandidateSource) : res (list DeliverySnapshot * list MainCandidateRepository) :=
  snap ← candidate_snapshot c m x.1 x.2;
  proof ← selected_repository st snap x.2;
  Ok (acc.1 ++ [snap], acc.2 ++ [proof]).
Definition candidate_operation (c : Command) (m : Meta) (request : MainCandidateRequest) (hash notes : string) (proof : MainCandidateProof)
    (comp : Composition) (snaps : list DeliverySnapshot) : ExternalOperation :=
  (zero : ExternalOperation) <| ExternalOperation_Meta := m |> <| ExternalOperation_MainCandidate := Some proof |>
    <| ExternalOperation_ReservationEpoch := Environment_ReservationEpoch (Composition_EnvironmentSnapshot comp) |>
    <| ExternalOperation_ReleaseNotesIntentHash := notes |> <| ExternalOperation_Kind := "RELEASE_CANDIDATE" |>
    <| ExternalOperation_EnvironmentID := MainCandidateRequest_EnvironmentID request |> <| ExternalOperation_Status := "PENDING" |>
    <| ExternalOperation_Phase := "QUEUE_BUILDS" |> <| ExternalOperation_RequestedBy := Command_Actor c |>
    <| ExternalOperation_RequestKey := MainCandidateRequest_IdempotencyKey request |> <| ExternalOperation_RequestHash := hash |>
    <| ExternalOperation_CompositionSnapshot := Some comp |> <| ExternalOperation_PreparedDeployments := snaps |>
    <| ExternalOperation_IntegrationIDs := selectedIntegrations comp |> <| ExternalOperation_NextAttemptAt := Meta_CreatedAt m |>.
Definition prepareMainCandidate `{World} (st : State) (c : Command) (request : MainCandidateRequest) (hash : string) : res ExternalOperation :=
  _ ← reject_if (negb (is_some externalWorkers) || negb provider_configured || nativeQuarantined st (Command_ProductID c))
        (invalid "main candidate authority unavailable" []);
  authority ← mainCandidateAuthority st (Command_ProductID c) request;
  let m := meta c in
  '(components, _) ← foldM (candidate_component st c request (Meta_ID m)) ([], ∅) (MainCandidateRequest_MainSources request);
  '(st, comp) ← plan_with st c (m <| Meta_ID := fresh "prepareMainCandidate" 0 |>)
                  (composition_data (MainCandidateRequest_EnvironmentID request) (MainCandidateRequest_Name request) components None);
  let st := st <| State_Compositions ::= fun l => take (length l - 1) l |> in
  _ ← releaseWorkReady (mainCandidateCausalState st) comp;
  snaps ← prepareFlowDeployments st comp m;
  '(snaps, sources) ← foldM (prepared_source st c m) ([], []) (zip snaps (MainCandidateRequest_MainSources request));
  let proof := mkMainCandidateProof "ATTRIBUTED_RCP_VERIFICATION" request "" authority sources in
  Ok (candidate_operation c m request hash (releaseNotesIntentHash st comp) proof comp snaps).

(** ** The admission *)
Definition admitted_candidate `{World} (c : Command) op (st : State) : res (State * ExternalOperation) :=
  match ExternalOperation_CompositionSnapshot op with
  | None => Err ErrPanic
  | Some comp =>
    let op := match environmentByID st (ExternalOperation_EnvironmentID op) with
              | Some e => op <| ExternalOperation_ReservationEpoch := Environment_ReservationEpoch e |>
              | None => op
              end in
    Ok (st <| State_Compositions ::= fun l => l ++ [comp] |> <| State_Operations ::= fun l => l ++ [op] |>
           <| State_Events ::= fun l => l ++ [mkEvent (fresh "executeMainCandidate" 0) (Command_Action c) (Command_Actor c)
                (CreatedAt op) (ID op) (Command_ProductID c) "" c] |>, op)
  end.
Definition admission_tx `{World} (c : Command) (request : MainCandidateRequest) (hash : string) op (st : State) : res (State * ExternalOperation) :=
  old ← candidateReplay st c request hash;
  match old with
  | Some old => Ok (st, old)
  | None =>
    _ ← candidateAllowed st (Some op);
    _ ← reservationFree st (ExternalOperation_EnvironmentID op);
    admitted_candidate c op st
  end.
Definition executeMainCandidate (c : Command) : Prog (res ExternalOperation) :=
  try (check (mainCandidateInput c)) (fun '(request, hash) =>
  try (effect Read) (fun st =>
  try (check (candidateReplay st c request hash)) (fun old =>
  match old with
  | Some old => check (Ok old)
  | None =>
    w ← effect Fresh;
    try (check (prepareMainCandidate st c request hash)) (fun op =>
    try (SourceChecks.observe_candidate true op) (fun op =>
    effect (Update (fun w _ st => admission_tx c request hash op st))))
  end))).
End admission.

(** ** What the providers have told *)
#[export] Instance writing_watches : Watches (@writes).
Proof. intros A c Hw. exact Hw. Qed.
Section observed.
Context `{Runtime, NetURL, Upper, MapOrder, URLs, Hashing, Encoding, RestorationEvidence, Operator, Baselines, Capabilities}.
Implicit Types (op : ExternalOperation) (snap : DeliverySnapshot) (src : MainCandidateRepository) (r : MainCandidateMergedRevision).
Abbreviation learns p past Φ := (learns (@writes) p past Φ).
Definition repository snap : string := BuildRequest_Repository (DeliverySnapshot_BuildRequest snap).
Definition InMain (past : list Happening) snap (base head : string) : Prop :=
  base = head \/ exists cmp, told past (Compare (DeliverySnapshot_SourceConnection snap) (repository snap) base head) cmp
                  /\ CompareResult_BaseSHA cmp = base /\ CompareResult_HeadSHA cmp = head /\ CompareResult_Behind cmp = 0%Z.
(** The pull request of a revision is merged into main, from the recorded head. *)
Definition Merged (past : list Happening) snap src r : Prop := exists pr,
  told past (ObservePullRequest (DeliverySnapshot_SourceConnection snap) (repository snap) (MainCandidateMergedRevision_PullRequestNumber r)) pr
  /\ merged_identity src r pr = true /\ MainCandidateMergedRevision_MergeSHA r = PullRequestObservation_MergeSHA pr
  /\ MainCandidateMergedRevision_ObservationHash r = observation_hash pr
  /\ InMain past snap (MainCandidateMergedRevision_MergeSHA r) (MainCandidateRepository_MainSHA src).
(** The commit of main is the merge of one of its pull requests and still part of main. *)
Definition SourceObserved (past : list Happening) snap src : Prop :=
  (exists branches, told past (Branches (DeliverySnapshot_SourceConnection snap) (decimal (MainCandidateRepository_ProviderRepositoryID src))) branches
   /\ let tip := branch_sha (MainCandidateRepository_MainRef src) branches in
      commit_sha tip = true /\ InMain past snap (MainCandidateRepository_MainSHA src) tip)
  /\ (forall r, r ∈ MainCandidateRepository_Revisions src -> Merged past snap src r)
  /\ exists r, r ∈ MainCandidateRepository_Revisions src /\ MainCandidateMergedRevision_MergeSHA r = MainCandidateRepository_MainSHA src.
Definition Observed (past : list Happening) op : Prop := exists p, ExternalOperation_MainCandidate op = Some p
  /\ forall i src, MainCandidateProof_Sources p !! i = Some src -> exists snap, ExternalOperation_PreparedDeployments op !! i = Some snap /\ SourceObserved past snap src.
Lemma in_main_mono snap base head_ later past : InMain past snap base head_ -> InMain (later ++ past) snap base head_.
Proof using Type. intros [Hb|(cmp & Ht & Hrest)]; [left; exact Hb|right]. exists cmp. split; [apply told_mono, Ht|exact Hrest]. Qed.
Lemma merged_mono snap src r later past : Merged past snap src r -> Merged (later ++ past) snap src r.
Proof using Type. intros (pr & Ht & Hi & Hm & Ho & Ha). exists pr. split; [apply told_mono, Ht|]. split; [exact Hi|]. split; [exact Hm|]. split; [exact Ho|apply in_main_mono, Ha]. Qed.
Lemma source_observed_mono snap src later past : SourceObserved past snap src -> SourceObserved (later ++ past) snap src.
Proof using Type.
  intros ((branches & Hb & Hc & Ha) & Hall & Hex). split; [exists branches; split; [apply told_mono, Hb|split; [exact Hc|apply in_main_mono, Ha]]|].
  split; [|exact Hex]. intros r Hr. apply merged_mono, Hall, Hr.
Qed.
Ltac settled := apply learns_check; intros ? ?.
Lemma learns_ancestor snap base head_ past : learns (is_ancestor snap base head_) past (fun past' _ => InMain past' snap base head_).
Proof using Type.
  unfold is_ancestor. destruct (base == head_) eqn:E; [apply bool_decide_eq_true in E; apply learns_check; intros _ _; left; exact E|].
  apply learns_call; [reflexivity|]. intros [cmp e]. settled. right. exists cmp. destruct a.
  match goal with Hr : reject_if _ _ = _ |- _ => apply reject_if_invalid in Hr; rename Hr into Hb end.
  apply orb_false_iff in Hb as [Hb Hz]. apply orb_false_iff in Hb as [Hb Hh]. apply orb_false_iff in Hb as [He Hb].
  apply negb_false_iff, bool_decide_eq_true in Hb, Hh, Hz. destruct e; [discriminate|]. split; [left|auto].
Qed.
Definition revisions_observed (past : list Happening) snap src (acc : list MainCandidateMergedRevision * bool) : Prop :=
  (forall r, r ∈ acc.1 -> Merged past snap src r)
  /\ (acc.2 = true -> exists r, r ∈ acc.1 /\ MainCandidateMergedRevision_MergeSHA r = MainCandidateRepository_MainSHA src).
Lemma learns_revision snap src acc r past : revisions_observed past snap src acc ->
  learns (observe_revision true snap src acc r) past (fun past' acc' => revisions_observed past' snap src acc').
Proof using Type.
  intros [Hall Hex]. unfold observe_revision. apply learns_call; [reflexivity|]. intros [pr e]. destruct (_ || _) eqn:E; [settled; discriminate|].
  apply orb_false_iff in E as [He Hi]. apply negb_false_iff in Hi. destruct e; [discriminate|].
  set (r' := r <| MainCandidateMergedRevision_MergeSHA := PullRequestObservation_MergeSHA pr |> <| MainCandidateMergedRevision_ObservationHash := observation_hash pr |>).
  eapply learns_try; [apply (learns_check _ _ _ (fun _ x => x = r')); intros x [= <-]; reflexivity|]. intros l1 x _ ->.
  eapply learns_try; [apply learns_ancestor|]. intros l2 [] _ Ha. settled. simplify_eq. set (past' := l2 ++ _).
  assert (Hm : Merged past' snap src r').
  { exists pr. split; [do 2 apply told_mono; left|]. split; [exact Hi|]. split; [reflexivity|]. split; [reflexivity|exact Ha]. }
  assert (Hmono : forall x, Merged past snap src x -> Merged past' snap src x).
  { intros x Hx. unfold past'. rewrite app_assoc. change (@Answered ?T ?q ?v :: past) with ([@Answered T q v] ++ past). apply merged_mono, merged_mono, Hx. }
  split.
  - intros x [Hx|Hx]%elem_of_app; [apply Hmono, Hall, Hx|]. apply list_elem_of_singleton in Hx as ->. exact Hm.
  - intros Hor. apply orb_true_iff in Hor as [Hor|Hor].
    + destruct (Hex Hor) as (x & Hx & Hmerge). exists x. split; [apply elem_of_app; left; exact Hx|exact Hmerge].
    + exists r'. split; [apply elem_of_app; right; left|]. apply bool_decide_eq_true in Hor. exact Hor.
Qed.
Definition sources_observed (past : list Happening) (done : list (MainCandidateRepository * option DeliverySnapshot)) (out : list MainCandidateRepository) : Prop :=
  Forall2 (fun x src => exists snap, x.2 = Some snap /\ SourceObserved past snap src) done out.
Lemma learns_merged_source done out x past : sources_observed past done out ->
  learns (observe_source true out x) past (fun past' out' => sources_observed past' (done ++ [x]) out').
Proof using Type.
  intros Hdone. unfold observe_source. destruct x as [src [snap|]]; [|settled; discriminate]. apply learns_call; [reflexivity|]. intros [branches e].
  destruct (is_some e) eqn:He; [settled; discriminate|]. destruct e; [discriminate|]. cbv zeta. destruct (negb _) eqn:Htip; [settled; discriminate|].
  apply negb_false_iff in Htip. eapply learns_try; [apply learns_ancestor|]. intros l1 [] _ Hanc.
  eapply learns_try; [apply (learns_loop _ (fun _ acc past' => revisions_observed past' snap src acc))|].
  { split; [intros r Hr; inversion Hr|discriminate]. }
  { intros seen r acc past0. apply learns_revision. }
  intros l2 revs _ [Hall Hex]. cbn beta in *. destruct (negb revs.2) eqn:Hsel; [settled; discriminate|]. apply negb_false_iff in Hsel. settled. simplify_eq.
  apply Forall2_app.
  - refine (list.Forall2_impl _ _ _ _ Hdone _). intros x out' (snap' & Hx & Ho). exists snap'. split; [exact Hx|]. rewrite app_assoc.
    change (@Answered ?T ?q ?v :: past) with ([@Answered T q v] ++ past). apply source_observed_mono, source_observed_mono, Ho.
  - constructor; [|constructor]. exists snap. split; [reflexivity|]. split; [|split; [exact Hall|exact (Hex Hsel)]].
    exists branches. split; [do 2 apply told_mono; left|]. split; [exact Htip|apply in_main_mono, Hanc].
Qed.
(** The operation with the identities of the merges it was shown. *)
Definition with_merges op (p : MainCandidateProof) (sources : list MainCandidateRepository) : ExternalOperation :=
  let seen := op <| ExternalOperation_MainCandidate := Some (p <| MainCandidateProof_Sources := sources |>) |> in
  let frozen := p <| MainCandidateProof_Sources := sources |> <| MainCandidateProof_ConfigurationHash := mainCandidateSnapshotHash seen |> in
  seen <| ExternalOperation_MainCandidate := Some frozen |>
       <| ExternalOperation_PreparedDeployments ::= map (fun s => s <| DeliverySnapshot_MainCandidate := Some frozen |>) |>.
Lemma lookup_padded {A} (l : list A) n (i : nat) x : (map Some (take n l) ++ replicate (n - length l) None) !! i = Some (Some x) -> l !! i = Some x.
Proof using Type.
  intros Hl. apply lookup_app_Some in Hl as [Hl|[_ Hl]]; [|apply lookup_replicate in Hl as [Hl _]; discriminate].
  rewrite lookup_map in Hl. destruct (take n l !! i) as [y|] eqn:E; [|discriminate]. injection Hl as ->. apply lookup_take_Some in E as [E _]. exact E.
Qed.
Lemma learns_merges op past : learns (SourceChecks.observe_candidate true op) past (fun past' op' =>
  Observed past' op' /\ exists p sources, ExternalOperation_MainCandidate op = Some p /\ op' = with_merges op p sources).
Proof using Type.
  unfold SourceChecks.observe_candidate. destruct (ExternalOperation_MainCandidate op) as [p|] eqn:Hp; [|settled; discriminate].
  destruct (negb _); [settled; discriminate|]. cbv zeta. eapply learns_try; [apply (learns_loop _ (fun done out past' => sources_observed past' done out))|].
  { constructor. }
  { intros done x out past0. apply learns_merged_source. }
  intros later sources _ Hs. cbn beta in Hs. settled. match goal with Hr : Ok _ = Ok _ |- _ => injection Hr as <- end.
  split; [|exists p, sources; split; reflexivity]. eexists. split; [reflexivity|]. intros i src Hi. cbn in Hi.
  destruct (Forall2_lookup_r _ _ _ _ _ Hs Hi) as ([before osnap] & Hz & snap & Hsnap & Ho). cbn in Hsnap. subst osnap.
  apply lookup_zip_Some in Hz as [_ Hz]. apply lookup_padded in Hz.
  eexists. split; [exact (eq_trans (lookup_map _ (ExternalOperation_PreparedDeployments op) i) (f_equal (fmap _) Hz))|]. exact Ho.
Qed.
End observed.

(** ** What is admitted *)
Section theorem.
Context `{Runtime, NetURL, Upper, MapOrder, URLs, Hashing, Encoding, RestorationEvidence, Operator, Baselines, Capabilities}.
Implicit Types (op : ExternalOperation).
(** The candidate that the request describes, on a state that was read. *)
Definition Requested (c : Command) (past : list Happening) request hash op : Prop := mainCandidateInput c = Ok (request, hash)
  /\ exists (w : World) read prepared p sources, Saw read ∈ past /\ prepareMainCandidate read c request hash = Ok prepared
     /\ ExternalOperation_MainCandidate prepared = Some p /\ op = with_merges prepared p sources.
(** The key of the request answers with this operation, or refuses. *)
Definition Bound (st : State) (product key : string) op : Prop := forall c request hash, Command_ProductID c = product ->
  MainCandidateRequest_IdempotencyKey request = key -> forall old, candidateReplay st c request hash = Ok old -> old = Some op.
Definition CandidateAdmitted (c : Command) (past : list Happening) (before after : State) : Prop :=
  exists request hash op admitted comp event, Requested c past request hash op /\ Observed past op
  /\ candidateReplay before c request hash = Ok None
  /\ (exists world : World, candidateAllowed before (Some op) = Ok ()) /\ reservationFree before (ExternalOperation_EnvironmentID op) = Ok ()
  /\ ExternalOperation_CompositionSnapshot op = Some comp
  /\ (exists epoch, admitted = op <| ExternalOperation_ReservationEpoch := epoch |>)
  /\ after = before <| State_Compositions ::= fun l => l ++ [comp] |> <| State_Operations ::= fun l => l ++ [admitted] |>
                    <| State_Events ::= fun l => l ++ [event] |>
  /\ Event_EntityID event = ID op /\ Event_Actor event = Command_Actor c
  /\ Bound after (Command_ProductID c) (MainCandidateRequest_IdempotencyKey request) admitted.
Lemma prepared_fields `{World} st c request hash op : prepareMainCandidate st c request hash = Ok op ->
  ProductID op = Command_ProductID c /\ ExternalOperation_RequestKey op = MainCandidateRequest_IdempotencyKey request.
Proof using Type.
  unfold prepareMainCandidate. intros Hp. apply bind_guard in Hp as [_ Hp]; [|discriminate]. apply bind_Ok in Hp as (authority & _ & Hp). cbv zeta in Hp.
  apply bind_Ok in Hp as ([components inputs] & _ & Hp). apply bind_Ok in Hp as ([st1 comp] & _ & Hp). apply bind_Ok in Hp as ([] & _ & Hp).
  apply bind_Ok in Hp as (snaps & _ & Hp). apply bind_Ok in Hp as ([snaps' sources] & _ & Hp). injection Hp as <-. split; reflexivity.
Qed.
Lemma bound_appended st c request hash op (compositions : list Composition) (event : Event) : candidateReplay st c request hash = Ok None ->
  ProductID op = Command_ProductID c -> ExternalOperation_RequestKey op = MainCandidateRequest_IdempotencyKey request ->
  Bound (st <| State_Compositions := compositions |> <| State_Operations ::= fun l => l ++ [op] |> <| State_Events ::= fun l => l ++ [event] |>)
    (Command_ProductID c) (MainCandidateRequest_IdempotencyKey request) op.
Proof using Type.
  intros Hr Hp Hk c' request' hash' Ec Ek old Ho. unfold candidateReplay in Hr, Ho.
  assert (Hsame : same_candidate_request c' request' = same_candidate_request c request) by (unfold same_candidate_request; rewrite Ec, Ek; reflexivity).
  destruct (find_first (same_candidate_request c request) (State_Operations st)) as [found|] eqn:Hf.
  { apply bind_Ok in Hr as (u & _ & Hr). discriminate. }
  match type of Ho with context [find_first ?q ?l] => assert (Hfound : find_first q l = Some op) end.
  { transitivity (find_first (same_candidate_request c request) (State_Operations st ++ [op])); [rewrite Hsame; reflexivity|].
    rewrite find_first_app, Hf. cbn. unfold same_candidate_request. rewrite Hp, Hk, !bool_decide_eq_true_2 by reflexivity. reflexivity. }
  rewrite Hfound in Ho. apply bind_Ok in Ho as (u & _ & Ho). injection Ho as <-. reflexivity.
Qed.
Lemma admission_Ok `{W : World} c request hash op before after admitted past : admission_tx c request hash op before = Ok (after, admitted) ->
  Requested c past request hash op -> Observed past op -> after = before \/ CandidateAdmitted c past before after.
Proof using Type.
  intros Ht Hreq Hobs. unfold admission_tx in Ht. apply bind_Ok in Ht as (old & Hold & Ht). destruct old as [old|]; [left; injection Ht as <- _; reflexivity|].
  right. apply bind_Ok in Ht as ([] & Hg & Ht). apply bind_Ok in Ht as ([] & Hf & Ht). unfold admitted_candidate in Ht.
  destruct (ExternalOperation_CompositionSnapshot op) as [comp|] eqn:Hcomp; [|discriminate]. cbv zeta in Ht. injection Ht as Hafter Hadm.
  assert (Hepoch : exists epoch, admitted = op <| ExternalOperation_ReservationEpoch := epoch |>).
  { subst admitted. destruct (environmentByID before _) as [e|]; [eexists; reflexivity|exists (ExternalOperation_ReservationEpoch op); reflexivity]. }
  rewrite Hadm in Hafter. destruct Hreq as (Hinput & w & read & prepared & p & sources & Hseen & Hprep & Hproof & Hop).
  destruct (prepared_fields _ _ _ _ _ Hprep) as [Hprod Hkey].
  exists request, hash, op, admitted, comp. eexists. split; [split; [exact Hinput|]; exists w, read, prepared, p, sources; auto|].
  split; [exact Hobs|]. split; [exact Hold|]. split; [exists W; exact Hg|]. split; [exact Hf|]. split; [exact Hcomp|]. split; [exact Hepoch|].
  split; [symmetry; exact Hafter|]. split; [|split; [reflexivity|]].
  - destruct Hepoch as [epoch E]. rewrite E. reflexivity.
  - rewrite <- Hafter. apply bound_appended with (hash := hash); [exact Hold| |]; destruct Hepoch as [epoch E]; rewrite E; subst op; [exact Hprod|exact Hkey].
Qed.
(** C11 What the admission of a main candidate commits: nothing, for a request it
    has accepted before, or one candidate.  That candidate was prepared for this
    request on a state that was read; then the provider has shown, for every
    repository, that the commit to release is the merge of one of the pull
    requests named, that each of these is merged into main from the recorded
    head and lies before that commit, and that the commit is still in main; the
    transaction found the candidate within all its guards and its environment
    free.  From then on the key of the request answers with this candidate. *)
Theorem candidate_admitted c past p' before after : Execution (executeMainCandidate c) past p' -> commits p' before after ->
  after = before \/ CandidateAdmitted c past before after.
Proof using Type.
  intros He Hc. apply (execution_commits (fun past before after => after = before \/ CandidateAdmitted c past before after)
    (executeMainCandidate c) p'); [|exact He|exact Hc]. clear. unfold executeMainCandidate.
  destruct (mainCandidateInput c) as [[request hash]|e] eqn:Hinput; [|exact I]. cbn [try check].
  split; [exact I|]. intros st st' [read|e] _; [|exact I]. cbn [happened app].
  apply wp_try; [apply commit_mono|]. cbn [wp]. apply wp_try; [apply commit_mono|]. cbn [wp check].
  destruct (candidateReplay read c request hash) as [[old|]|e]; [exact I| |exact I].
  split; [exact I|]. intros st1 st2 w _. cbn [happened app]. apply wp_try; [apply commit_mono|]. cbn [wp check].
  destruct (prepareMainCandidate read c request hash) as [prepared|e] eqn:Hprep; [|exact I].
  apply wp_try; [apply commit_mono|]. apply (wp_only_reading _ (@writes) (fun _ _ _ => False) _ _ _ (harmless_observe _ _)).
  eapply wp_mono; [apply watch_mono| |apply learns_merges]. intros past' r (later & -> & _ & Hr). destruct r as [op|e]; [|exact I].
  destruct (Hr op eq_refl) as (Hobs & p & sources & Hp & ->). split; [|intros; exact I].
  intros w' cancelled before after a Ht. apply (admission_Ok c request hash (with_merges prepared p sources) before after a _ Ht); [|exact Hobs].
  split; [exact Hinput|]. exists w, read, prepared, p, sources. split; [apply elem_of_app; right; left|]. auto.
Qed.
End theorem.
