(* ===== verification/Samples.v ===== *)
(** * Concrete runs

    Instances of the interfaces on which the development can be evaluated, and
    a small product: two features, three integrations, a gate with one check,
    an environment and an application. *)
From S2P Require Import Prelude GoText GoJson Delivery Domain Status Planning Handlers DeviceAuth Collections ExternalSystems Reservation Composition Conflicts Scenarios Pins WorkerAuth WorkerJobs Publications Registry WorkerProtocol External Entities Commands Planner.
Open Scope string_scope.
Open Scope list_scope.

#[export] Existing Instances ascii_runtime sample_world sample_order.
Definition zero_digest : string := "sha256:0000000000000000000000000000000000000000000000000000000000000000".
#[export] Instance sample_hashing : Hashing := {| Fingerprint := fun _ _ => zero_digest; Fingerprint_digest := fun _ _ => eq_refl;
  Fingerprint_pointer := fun _ _ => eq_refl |}.
#[export] Instance sample_evidence : RestorationEvidence := {| validRestorationSuccessorEvidence := fun _ _ _ _ _ _ => false |}.
#[export] Instance sample_candidates : MainCandidates :=
  {| mainCandidateAllowed := fun _ _ => Ok (); observeMainCandidate := fun _ => Ok () |}.
(** Hosts are everything before the first slash; nothing is an IP address. *)
#[export] Instance sample_url : NetURL.
Proof. refine {| url_host := fun h => Some (h, ""); is_ip := fun _ => false |}. discriminate. Defined.
(** Every address is the same one. *)
#[export] Instance sample_urls : URLs := {|
  url_parse := fun s => Some (mkURL "https" "api" "api" "" false "" "" "" "" "" false); url_string := fun _ => "https://api";
  is_loopback := fun _ => false
|}.
#[export] Instance sample_upper : Upper := {| to_upper := str_map upper_byte; to_upper_ascii := fun _ _ => eq_refl |}.
(** Every record takes a hundred bytes. *)
#[export] Instance sample_encoding : Encoding := {| encoded_size := fun _ _ => 100%Z |}.
(** No workers are configured. *)
#[export] Instance sample_operator : Operator := None.
(** Subsystems that do nothing. *)
#[export] Instance sample_subsystems : Subsystems := {|
  applyFlow := fun _ => no_case; replayFeatureUpdate := fun _ _ => Ok None
|}.
#[export] Instance sample_crypto : Crypto := {| hash := fun s => "h:" +:+ s; mac := fun k s => k +:+ ":" +:+ s |}.
#[export] Instance sample_laws : SubsystemLaws.
Proof.
  constructor; intros world st c m st' out m' Hx; injection Hx as <- _ _; [intros _; apply plan_none|].
  split; [reflexivity|intros _; reflexivity].
Qed.

Definition sha1 : string := "1111111111111111111111111111111111111111".
Definition sha2 : string := "2222222222222222222222222222222222222222".
Definition at_meta (id feature : string) : Meta := mkMeta id "P" feature "alice" 10%Z 10%Z.
Definition command (action : string) (data : list (string * json)) : Command :=
  (zero : Command) <| Command_Action := action |> <| Command_Actor := "bob" |> <| Command_ProductID := "P" |>
    <| Command_Data := list_to_map data |>.
Definition strings (l : list string) : json := JArr (map JStr l).

Definition an_integration (id feature status : string) (deps : list string) : Integration :=
  (zero : Integration) <| Integration_Meta := at_meta id feature |> <| Integration_Title := id |>
    <| Integration_Objective := "goal" |> <| Integration_Status := status |> <| Integration_Dependencies := deps |>.
Definition a_feature (id status : string) : Feature :=
  (zero : Feature) <| Feature_Meta := at_meta id "" |> <| Feature_Title := id |> <| Feature_Goal := "goal" |>
    <| Feature_Status := status |>.
Definition a_gate : Gate :=
  (zero : Gate) <| Gate_Meta := at_meta "G" "F1" |> <| Gate_Title := "gate" |> <| Gate_Blocking := true |>
    <| Gate_IntegrationIDs := ["I1"; "I2"] |> <| Gate_Result := "passed" |>.
Definition a_check : Check :=
  (zero : Check) <| Check_Meta := at_meta "K" "F1" |> <| Check_GateID := "G" |> <| Check_Title := "check" |>.
Definition a_result : CheckResult :=
  (zero : CheckResult) <| CheckResult_Meta := at_meta "R" "F1" |> <| CheckResult_CheckID := "K" |>
    <| CheckResult_Result := "passed" |> <| CheckResult_Commit := sha1 |>.
Definition an_environment : Environment :=
  (zero : Environment) <| Environment_Meta := at_meta "E" "" |> <| Environment_Name := "dev" |>
    <| Environment_Cluster := "c1" |> <| Environment_SelectionGeneration := 3%Z |>
    <| Environment_DesiredCompositionID := "C" |>.
Definition a_repository : Repository :=
  (zero : Repository) <| Repository_Meta := at_meta "REPO" "" |> <| Repository_Name := "repo" |>
    <| Repository_Role := "APPLICATION" |>.
Definition an_application : Application :=
  (zero : Application) <| Application_Meta := at_meta "A" "" |> <| Application_RepositoryID := "REPO" |>
    <| Application_Kind := "APPLICATION" |>.
Definition sample : State :=
  (zero : State)
    <| State_Products := [(zero : Product) <| Product_Meta := mkMeta "P" "" "" "alice" 10%Z 10%Z |> <| Product_Name := "prod" |>] |>
    <| State_Features := [a_feature "F1" "active"; a_feature "F2" "completed"] |>
    <| State_Integrations := [an_integration "I1" "F1" "ready" []; an_integration "I2" "F1" "working" ["I1"];
                              an_integration "I3" "F2" "released" []] |>
    <| State_Gates := [a_gate] |> <| State_Checks := [a_check] |> <| State_Results := [a_result] |>
    <| State_Environments := [an_environment] |>
    <| State_Repositories := [a_repository] |> <| State_Applications := [an_application] |>.

(** Evaluates a run in a hypothesis and keeps its success. *)
Ltac ran E := vm_compute in E; discriminate E.
