(* ===== verification/WorkerWitnesses.v ===== *)
(** * Authentication, workers and a registry at work

    A sign-in, two devices that become agents, and the revocation of one of
    them; a member of a product; an authority with one worker credential.  A
    job that is queued, claimed, started and reported, and a check that is
    created and finished.  A graph with an image index, one manifest, its
    configuration and a layer, read completely and with a content proof. *)
From S2P Require Import Prelude GoText Worklist GoJson Delivery Domain Status Planning Handlers DeviceAuth Collections Authorization Reservation WorkerAuth Pins WorkerJobs Publications Registry Checks WorkerChecks WorkerProtocol External Entities Commands Interleaving Samples.
Open Scope string_scope.
Open Scope list_scope.

(** ** Sessions and agents *)
#[export] Instance sample_oidc : OIDC := {|
  exchange := fun _ _ => Some (Some "token");
  verify := fun _ => Some (mkIDToken "issuer" "alice" "nonce" (Some [("roles", strings ["dev"])]));
  parse_url := fun _ => Some (false, "")
|}.
Definition sample_config : Config := mkConfig "https://rcp" "roles" ["dev"] ["ops"] ["P"] "" hour.
(** The draws of a request: a first one that is its own, the nonce, a verifier. *)
Definition draws (first code : string) : Env :=
  mkEnv (fun _ => 1000%Z) (fun n => match n with O => first | S O => "nonce" | _ => "verifier" end) code.
Definition long (c : ascii) : string := String.concat "" (repeat (String c "") 43).
Definition request (call : Call) : Request := mkRequest "" (Some "session") (Some "state") "" "csrf:session" false call.
Definition device_requests (c : ascii) (user : string) : list (Env * Request) := [
  (draws (long c) user, request (DeviceCode "cli" "read" ["P"]));
  (draws "" "", request (DeviceDecide false user));
  (draws (String c "") "", request (DeviceToken deviceGrant (long c)))
].
Definition requests : list (Env * Request) :=
  [(draws "state" "", request (Login "/")); (draws "session" "", request (Callback "state" "code"))]
  ++ device_requests "A" "ABCDEFGHJKLM" ++ device_requests "B" "BCDEFGHJKLMN".
Fixpoint answered (h : list (Env * Request * authState)) (st : authState) (l : list (Env * Request)) : list (Env * Request * authState) * authState :=
  match l with
  | [] => (h, st)
  | (e, r) :: l => answered (h ++ [(e, r, st)]) (serve sample_config e r st).2 l
  end.
Lemma answered_history l h st : History sample_config h st -> History sample_config (answered h st l).1 (answered h st l).2.
Proof. revert h st. induction l as [|[e r] l IH]; intros h st Hh; [exact Hh|]. apply IH. constructor. exact Hh. Qed.
Definition after_requests : authState := (answered [] emptyState requests).2.
Lemma requests_history : History sample_config (answered [] emptyState requests).1 after_requests.
Proof. apply answered_history. constructor. Qed.

Lemma agents_were_approved_witness : exists a, authState_Agents after_requests !! "agent/A" = Some a
  /\ agent_ID (agentRecord_Info a) = "agent/A" /\ agent_Permissions (agentRecord_Info a) = ["read"].
Proof.
  destruct (authState_Agents after_requests !! "agent/A") as [a|] eqn:E; [|ran E]. exists a. split; [reflexivity|].
  destruct (agents_were_approved sample_config _ _ _ _ requests_history E) as [Hid _]. split; [exact Hid|].
  vm_compute in E. injection E as <-. reflexivity.
Defined.
Definition revocation : Request := request (RevokeAgent "agent/A").
Definition agent_request (c : ascii) : Request :=
  mkRequest ("Bearer rcpa_agent-token:" +:+ long c) None None "" "" false Me.
Lemma revoked_agents_stay_out_witness : exists st1 p raw st2,
  serve sample_config (draws "" "") revocation after_requests = (Done, st1)
  /\ authenticate sample_config (draws "" "") (agent_request "B") st1 = (p, raw, st2)
  /\ Principal_Kind p = "agent" /\ Principal_ID p <> "agent/A".
Proof.
  destruct (serve sample_config (draws "" "") revocation after_requests) as [r st1] eqn:Es.
  assert (Hr : r = Done) by (vm_compute in Es; injection Es as <- _; reflexivity). subst r.
  destruct (authenticate sample_config (draws "" "") (agent_request "B") st1) as [[p raw] st2] eqn:Ea.
  exists st1, p, raw, st2. split; [reflexivity|]. split; [exact Ea|].
  assert (Hk : Principal_Kind p = "agent").
  { vm_compute in Es. injection Es as <-. vm_compute in Ea. injection Ea as <- _ _. reflexivity. }
  split; [exact Hk|].
  apply (revoked_agents_stay_out sample_config _ _ _ _ "agent/A" _ _ _ _ _ _ _ requests_history Es eq_refl (rtc_refl _ _) Ea); [discriminate|exact Hk].
Defined.

(** ** Commands and reads of a member *)
#[export] Instance sample_rows : RowOrder := {| kind_range := fun ks => ks; kind_range_perm := fun _ => reflexivity _ |}.
Definition member : Principal := mkPrincipal "human/1" "human" "member" ["P"] ["read"; "write"].
Definition feature_command : Command := command "create_feature" [("title", JStr "f")].
Lemma member_commands_exact_witness :
  authorizeCommand (Some member) sample feature_command = Ok () /\ "write" ∈ Principal_Permissions member
  /\ matched member (kind_range (stateRows sample)) feature_command = true.
Proof.
  assert (E : authorizeCommand (Some member) sample feature_command = Ok ()) by (vm_compute; reflexivity).
  split; [exact E|]. destruct (proj1 (member_commands_exact member sample feature_command eq_refl) E) as (_ & _ & Hp & _ & _ & _ & Hm).
  split; [exact Hp|exact Hm].
Defined.
Definition reader : Principal := mkPrincipal "human/2" "human" "member" ["Q"] ["read"].
Lemma scoped_state_exact_witness : exists st', scopedState (Some reader) sample = Ok st'
  /\ stateRows st' = map (fun kg => (kg.1, List.filter (fun r => allowedProduct reader (rowProduct kg.1 r)) kg.2)) (stateRows sample).
Proof. apply (scoped_state_exact reader sample eq_refl). apply list_elem_of_here. Defined.

(** ** A worker credential *)
Definition sample_credential : Credential :=
  mkCredential "c1" "worker" "TOKEN" ["P"] ["REPO"] ["local_oci_build"; "source_check"] 1000000000000000%Z false.
Definition worker_token : string := "0123456789abcdef0123456789abcdef".
Definition sample_recipe : Recipe :=
  (zero : Recipe) <| Recipe_ID := "build" |> <| Recipe_Revision := "1" |> <| Recipe_Hash := zero_digest |> <| Recipe_ProductID := "P" |>
    <| Recipe_RepositoryID := "REPO" |> <| Recipe_RepositoryURL := "https://git/repo" |> <| Recipe_Capability := "source_check" |>
    <| Recipe_Trust := "trusted_source" |>.
Definition sample_authority : Authority :=
  mkAuthority (mkWorkerConfig [] "r1" 60%Z [] [sample_recipe] [sample_credential])
    (fun env => if env == "TOKEN" then worker_token else "") (hash "control").
Definition sample_principal : WorkerPrincipal := mkWorkerPrincipal sample_credential (hash worker_token).
Lemma current_principal_exclusive_witness :
  Current sample_authority sample_principal 1000%Z = true
  /\ LiveCredential sample_authority sample_credential (hash worker_token) 1000%Z.
Proof. split; [vm_compute; reflexivity|]. apply (current_principal_exclusive sample_authority sample_principal). vm_compute. reflexivity. Defined.

(** No patches, no managed jobs. *)
#[export] Instance sample_policy : WorkerPolicy := {|
  intelligencePatch := fun _ _ => Ok ""; bindIntelligencePatch := fun _ _ _ _ _ _ => Ok None;
  managedWorkerAllowed := fun _ _ => Ok ()
|}.

(** ** A job *)
Definition a_revision : IntegrationRevision :=
  (zero : IntegrationRevision) <| IntegrationRevision_Meta := at_meta "REV" "F1" |> <| IntegrationRevision_IntegrationID := "I2" |>
    <| IntegrationRevision_RepositoryID := "REPO" |> <| IntegrationRevision_HeadCommit := sha1 |>.
Definition worker_start : State :=
  sample <| State_Repositories := [a_repository <| Repository_URL := "https://git/repo" |>] |>
         <| State_IntegrationRevisions := [a_revision] |>.
Definition queue_command : Command :=
  (command "queue_worker_job" [("request_key", JStr "request-key-000001"); ("recipe_id", JStr "build"); ("recipe_revision", JStr "1");
     ("recipe_hash", JStr zero_digest); ("config_revision", JStr "r1"); ("revision_id", JStr "REV"); ("source_sha", JStr sha1);
     ("parameters", JObj []); ("deadline", JStr "1m"); ("max_attempts", JNum "2")]) <| Command_IntegrationID := "I2" |>.
Definition claim : WorkerClaim := mkWorkerClaim "" "" "P" "REPO" "source_check".
Definition attempt_request (fence : Z) : WorkerAttemptRequest := mkWorkerAttemptRequest "queueJob" "ClaimWorker" fence zero_digest.
Definition a_report : WorkerReport :=
  (zero : WorkerReport) <| WorkerReport_WorkerAttemptRequest := attempt_request 1 |> <| WorkerReport_Result := "PASSED" |>.
Definition queued : State := match executeWorkerCommand (Some sample_authority) false worker_start queue_command with Ok (st, _) => st | Err _ => zero end.
Definition claimed : State := match ClaimWorker (Some sample_authority) sample_principal claim queued with Ok (st, _) => st | Err _ => zero end.
Definition started : State := match mutateWorker (Some sample_authority) sample_principal (attempt_request 1) ActStart claimed with Ok (st, _) => st | Err _ => zero end.
Definition reported : State := match mutateWorker (Some sample_authority) sample_principal (attempt_request 1) (ActReport a_report) started with Ok (st, _) => st | Err _ => zero end.

Lemma first_steps : rtc WorkerStep worker_start claimed.
Proof.
  apply (rtc_l _ _ queued); [|apply rtc_once].
  - destruct (executeWorkerCommand (Some sample_authority) false worker_start queue_command) as [[st out]|] eqn:E; [|ran E].
    apply (worker_command sample_world sample_policy (Some sample_authority) false _ queue_command queued out); [unfold queued; rewrite E; reflexivity|].
    split; [vm_compute; apply not_elem_of_nil|]. intros a Ha. inversion Ha.
  - destruct (ClaimWorker (Some sample_authority) sample_principal claim queued) as [[st out]|] eqn:E; [|ran E].
    apply (worker_claim sample_world sample_policy (Some sample_authority) sample_principal claim _ _ out). unfold claimed. rewrite E. reflexivity.
Qed.
Lemma last_steps : rtc WorkerStep claimed reported.
Proof.
  apply (rtc_l _ _ started); [|apply rtc_once].
  - destruct (mutateWorker (Some sample_authority) sample_principal (attempt_request 1) ActStart claimed) as [[st out]|] eqn:E; [|ran E].
    apply (worker_mutate sample_world sample_policy (Some sample_authority) sample_principal (attempt_request 1) ActStart _ _ out).
    unfold started. rewrite E. reflexivity.
  - destruct (mutateWorker (Some sample_authority) sample_principal (attempt_request 1) (ActReport a_report) started) as [[st out]|] eqn:E; [|ran E].
    apply (worker_mutate sample_world sample_policy (Some sample_authority) sample_principal (attempt_request 1) (ActReport a_report) _ _ out).
    unfold reported. rewrite E. reflexivity.
Qed.
Lemma jobs_worked st st' : rtc WorkerStep st st' -> rtc JobStep st st'.
Proof. induction 1; [reflexivity|]. eapply rtc_l; [apply job_worker; eassumption|assumption]. Qed.
Lemma worker_attempts_bounded_witness : exists j, State_WorkerJobs reported = [j]
  /\ (WorkerJob_Fence j = 1%Z /\ (0 <= WorkerJob_Fence j <= WorkerJob_MaxAttempts j)%Z) /\ NoDup (fences_of reported (ID j)).
Proof.
  destruct (State_WorkerJobs reported) as [|j [|]] eqn:E; [ran E| |ran E]. exists j. split; [reflexivity|].
  destruct (worker_attempts_bounded worker_start reported j eq_refl eq_refl) as (Hb & _ & _ & Hn).
  - apply jobs_worked. etransitivity; [exact first_steps|exact last_steps].
  - rewrite E. apply list_elem_of_here.
  - split; [|exact Hn]. split; [|exact Hb]. vm_compute in E. injection E as <-. reflexivity.
Defined.
Lemma worker_ends_are_final_witness : exists j, job_at reported 0 = Some j /\ WorkerJob_Status j = "SUCCEEDED"
  /\ exists j', job_at (recoverWorker 0 (2 * minute)%Z reported) 0 = Some j' /\ WorkerJob_Status j' = "SUCCEEDED".
Proof.
  destruct (job_at reported 0) as [j|] eqn:E; [|ran E]. exists j. split; [reflexivity|].
  assert (Hs : WorkerJob_Status j = "SUCCEEDED") by (vm_compute in E; injection E as <-; reflexivity). split; [exact Hs|].
  destruct (worker_ends_are_final reported (recoverWorker 0 (2 * minute)%Z reported)) as [Hk _].
  - apply rtc_once, worker_recovery.
  - destruct (Hk 0%nat j E) as (j' & Hj' & HK). exists j'. split; [exact Hj'|].
    destruct (kept_end _ _ HK) as [-> _]; [rewrite Hs; reflexivity|exact Hs].
Defined.
Lemma worker_requests_fenced_witness : exists st lease,
  mutateWorker (Some sample_authority) sample_principal (attempt_request 1) ActStart claimed = Ok (st, Ok lease)
  /\ exists i k a, WorkerAttempt_Fence a = 1%Z /\ WorkerAttempt_Principal a = "worker"
     /\ Acted sample_authority sample_principal i k ActStart (now "mutateWorker" 0) (recoverWorker i (now "mutateWorker" 0) claimed) st (Ok lease).
Proof.
  destruct (mutateWorker (Some sample_authority) sample_principal (attempt_request 1) ActStart claimed) as [[st [lease|]]|] eqn:E; [|ran E|ran E].
  exists st, lease. split; [reflexivity|].
  destruct (worker_requests_fenced _ _ _ _ _ _ _ E) as (i & k & j & a & _ & _ & _ & _ & _ & Hf & Hj & Hp & _ & _ & [(rep & Ho & _)|[_ Ho]]); [discriminate Ho|].
  exists i, k, a. split; [rewrite Hf, Hj; reflexivity|]. split; [exact Hp|exact Ho].
Defined.

(** ** A check *)
Definition check_binding : WorkerCheckBinding := mkWorkerCheckBinding "RCP /build" 7%Z 60%Z.
Definition checked_authority : Authority :=
  mkAuthority (mkWorkerConfig [] "r1" 60%Z [] [sample_recipe <| Recipe_Check := Some check_binding |>] [sample_credential])
    (fun env => if env == "TOKEN" then worker_token else "") (hash "control").
Definition check_start : State :=
  worker_start
    <| State_Repositories := [a_repository <| Repository_URL := "https://git/repo" |> <| Repository_RegisteredRepositoryID := "REG" |>] |>
    <| State_RepositoryBindings := [(zero : RepositoryBinding) <| RepositoryBinding_Meta := at_meta "B" "" |> <| RepositoryBinding_RepositoryID := "REPO" |>
         <| RepositoryBinding_Role := "APPLICATION" |> <| RepositoryBinding_ConnectionID := "CONN" |> <| RepositoryBinding_FullName := "o/r" |>] |>
    <| State_GitHubConnections := [(zero : GitHubConnection) <| GitHubConnection_Meta := at_meta "CONN" "" |>
         <| GitHubConnection_Config := (zero : Connection) <| Connection_ID := "CONN" |> <| Connection_AppID := 7%Z |> |>] |>
    <| State_RegisteredRepositories := [(zero : RegisteredRepository) <| RegisteredRepository_Meta := at_meta "REG" "" |>
         <| RegisteredRepository_ConnectionID := "CONN" |> <| RegisteredRepository_FullName := "o/r" |>
         <| RegisteredRepository_ProviderRepositoryID := 5%Z |>] |>.
Definition ok_state {A} (r : res (State * A)) : State := match r with Ok (st, _) => st | Err _ => zero end.
Definition check_id : string := "queueWorkerCheck".
(** The scheduler leases the operation before each tick. *)
Definition lease_check (st : State) : State :=
  set_operation check_id (fun op => op <| ExternalOperation_LeaseOwner := "t" |> <| ExternalOperation_LeaseUntil := minute |>) st.
Definition check_queued : State := ok_state (executeWorkerCommand (Some checked_authority) true check_start queue_command).
Definition begin_tick (st : State) := check_begin checked_authority true check_id "t" st.
Definition created : State := ok_state (begin_tick (lease_check check_queued)).
(** What the provider answers: the run as it was written, under its number. *)
Definition answer (v : CheckRunWrite) : CheckRunObservation :=
  mkCheckRunObservation true 9%Z (CheckRunWrite_Identity v) (CheckRunWrite_Status v) (CheckRunWrite_Conclusion v)
    (CheckRunWrite_StartedAt v) (CheckRunWrite_CompletedAt v) (CheckRunWrite_Output v).
Definition finish_tick (st : State) : res State :=
  match publication_of st check_id with
  | Some cp => check_finish checked_authority check_id "t" cp (answer <$> CheckPublication_Intent cp) st
  | None => Err ErrPanic
  end.
Definition observed : State := match finish_tick created with Ok st => st | Err _ => zero end.
Definition check_claimed : State := ok_state (ClaimWorker (Some checked_authority) sample_principal claim observed).
Definition check_started : State := ok_state (mutateWorker (Some checked_authority) sample_principal (attempt_request 1) ActStart check_claimed).
Definition check_reported : State := ok_state (mutateWorker (Some checked_authority) sample_principal (attempt_request 1) (ActReport a_report) check_started).

(** The call a tick makes and the conclusion it writes. *)
Definition tick_call (r : res (State * option (CheckCall * CheckPublication))) : option (CheckCall * string) :=
  match r with
  | Ok (_, Some (c, q)) => (fun v => (c, CheckRunWrite_Conclusion v)) <$> CheckPublication_Intent q
  | _ => None
  end.
Lemma first_call : tick_call (begin_tick (lease_check check_queued)) = Some (CallCreate, "").
Proof. vm_compute. reflexivity. Qed.
Lemma last_call : tick_call (begin_tick (lease_check check_reported)) = Some (CallUpdate, "success").
Proof. vm_compute. reflexivity. Qed.
Lemma finished : is_ok (finish_tick created) = true.
Proof. vm_compute. reflexivity. Qed.
Lemma queued_check_phase : Queued check_id check_queued.
Proof.
  destruct (check_view check_queued check_id) as [[ph [p|]]|] eqn:E; [|ran E|ran E]. exists p.
  vm_compute in E. injection E as <- <-. split; [vm_compute; reflexivity|]. split; [reflexivity|]. split; [reflexivity|discriminate].
Qed.
Lemma reported_phase : exists p, check_view (lease_check check_reported) check_id = Some ("CHECK_OBSERVE", Some p)
  /\ CheckPublication_WorkerOperationID p <> check_id.
Proof.
  assert (E : match check_view (lease_check check_reported) check_id with
    | Some (ph, Some p) => (ph == "CHECK_OBSERVE") && (CheckPublication_WorkerOperationID p != check_id) | _ => false end = true)
    by (vm_compute; reflexivity).
  destruct (check_view (lease_check check_reported) check_id) as [[ph [p|]]|]; [|discriminate E|discriminate E].
  to_prop. subst ph. exists p. auto.
Qed.
Lemma tick_begins st calls st1 c v : CheckRuns check_id st calls st1 -> tick_call (begin_tick (lease_check st1)) = Some (c, v) ->
  check_view (lease_check st1) check_id = check_view st1 check_id ->
  CheckRuns check_id st (calls ++ [c]) (ok_state (begin_tick (lease_check st1))).
Proof.
  intros Hr Hc Hv. destruct (begin_tick (lease_check st1)) as [[st2 [[c' q]|]]|] eqn:Eb; [|discriminate Hc|discriminate Hc].
  cbn in Hc. destruct (CheckPublication_Intent q); [|discriminate Hc]. injection Hc as -> _.
  apply (runs_begin check_id sample_world sample_policy checked_authority true "t" st calls (lease_check st1) st2 (Some (c, q))); [|exact Eb].
  eapply runs_other; [exact Hr|exact Hv].
Qed.
Lemma tick_finishes st calls st1 : CheckRuns check_id st calls st1 -> is_ok (finish_tick st1) = true ->
  CheckRuns check_id st calls (match finish_tick st1 with Ok st => st | Err _ => zero end).
Proof.
  intros Hr Hf. destruct (finish_tick st1) as [st2|] eqn:Ef; [|discriminate Hf]. unfold finish_tick in Ef.
  destruct (publication_of st1 check_id) as [cp|]; [|discriminate]. eapply (runs_finish check_id sample_world sample_policy); eassumption.
Qed.
Lemma check_writes_never_repeat_witness : exists calls, CheckRuns check_id check_queued calls observed /\ (length calls <= 64)%nat /\ calls = [CallCreate].
Proof.
  assert (Hr : CheckRuns check_id check_queued [CallCreate] observed).
  { apply (tick_finishes check_queued [CallCreate] created); [|exact finished].
    apply (tick_begins check_queued [] check_queued CallCreate ""); [constructor|exact first_call|vm_compute; reflexivity]. }
  exists [CallCreate]. split; [exact Hr|]. split; [apply (check_writes_never_repeat check_id _ _ _ queued_check_phase Hr)|reflexivity].
Defined.
Lemma check_success_earned_witness : exists st q, begin_tick (lease_check check_reported) = Ok (st, Some (CallUpdate, q))
  /\ exists j, workerJob st (CheckPublication_JobID q) = Some j /\ EarnedBy st j.
Proof.
  pose proof last_call as Hc. destruct reported_phase as (p & Ev & Hne). revert Hc Ev.
  generalize (lease_check check_reported). intros st0 Hc Ev.
  destruct (begin_tick st0) as [[st [[c q]|]]|] eqn:E; [|discriminate Hc|discriminate Hc].
  cbn in Hc. destruct (CheckPublication_Intent q) as [v|] eqn:Ei; [|discriminate Hc]. injection Hc as -> Hv.
  exists st, q. split; [reflexivity|].
  exact (proj2 (check_success_earned checked_authority true check_id "t" _ _ _ _ _ Ev Hne E Ei Hv)).
Defined.

(** ** A finished build and the intent of its check *)
Definition built_execution : WorkerExecution := (zero : WorkerExecution) <| WorkerExecution_OutputBytes := 100%Z |>.
Definition built_job : WorkerJob :=
  (zero : WorkerJob) <| WorkerJob_Meta := mkMeta "J" "P" "" "" minute (2 * minute)%Z |> <| WorkerJob_Status := "SUCCEEDED" |>
    <| WorkerJob_Capability := "local_oci_build" |> <| WorkerJob_InputHash := zero_digest |> <| WorkerJob_Fence := 1%Z |>
    <| WorkerJob_Deadline := (3 * minute)%Z |> <| WorkerJob_MaxAttempts := 1%Z |>
    <| WorkerJob_Inputs := (zero : WorkerInputs) <| WorkerInputs_SourceSHA := sha1 |> <| WorkerInputs_Execution := Some built_execution |> |>.
Definition built_image : WorkerLocalOCI :=
  (zero : WorkerLocalOCI) <| WorkerLocalOCI_JobID := "J" |> <| WorkerLocalOCI_AttemptID := "A" |> <| WorkerLocalOCI_InputHash := zero_digest |>
    <| WorkerLocalOCI_SourceSHA := sha1 |> <| WorkerLocalOCI_ArchiveHash := zero_digest |> <| WorkerLocalOCI_LayoutHash := zero_digest |>
    <| WorkerLocalOCI_IndexDigest := zero_digest |> <| WorkerLocalOCI_ManifestDigest := zero_digest |> <| WorkerLocalOCI_ArchiveBytes := 50%Z |>.
Definition built_attempt : WorkerAttempt :=
  (zero : WorkerAttempt) <| WorkerAttempt_Meta := mkMeta "A" "P" "" "" minute (2 * minute)%Z |> <| WorkerAttempt_JobID := "J" |>
    <| WorkerAttempt_Fence := 1%Z |> <| WorkerAttempt_InputHash := zero_digest |> <| WorkerAttempt_Status := "SUCCEEDED" |>
    <| WorkerAttempt_Report := Some ((zero : WorkerReport) <| WorkerReport_Result := "PASSED" |> <| WorkerReport_LocalOCI := Some built_image |>
         <| WorkerReport_WorkerAttemptRequest := mkWorkerAttemptRequest "J" "A" 1%Z zero_digest |>) |>.
Definition built_state : State := (zero : State) <| State_WorkerJobs := [built_job] |> <| State_WorkerAttempts := [built_attempt] |>.
Definition built_check : CheckPublication :=
  (zero : CheckPublication) <| CheckPublication_JobID := "J" |> <| CheckPublication_Inputs := WorkerJob_Inputs built_job |>
    <| CheckPublication_InputHash := zero_digest |>.
Lemma built_publishes : Publishes built_job built_check.
Proof.
  constructor; try reflexivity; try (vm_compute; congruence).
  - vm_compute. repeat constructor.
  - assert (Hall : forallb (fun s => (strlen s <=? 512)%Z && negb (has_byte [13; 0] s))
      [ID built_job; WorkerInputs_SourceSHA (WorkerJob_Inputs built_job); WorkerJob_InputHash built_job;
       WorkerInputs_RecipeHash (WorkerJob_Inputs built_job)] = true) by (vm_compute; reflexivity).
    rewrite forallb_elem in Hall. intros s Hs. specialize (Hall s Hs). to_prop. split; [lia|assumption].
Qed.
Lemma desired_write_storable_witness : exists v, desiredCheck built_state built_check (3 * minute)%Z = Ok (built_state, Ok v)
  /\ CheckRunWrite_Conclusion v = "success" /\ validCheckPayload v = true /\ checkSuccessProvenance built_state built_job = true.
Proof.
  destruct (desiredCheck built_state built_check (3 * minute)%Z) as [[st [v|]]|] eqn:E; [|ran E|ran E].
  assert (Hst : st = built_state) by (vm_compute in E; injection E as <- _; reflexivity). subst st. exists v. split; [reflexivity|].
  assert (Hs : CheckRunWrite_Conclusion v = "success") by (vm_compute in E; injection E as <-; reflexivity). split; [exact Hs|].
  destruct (desired_write_storable built_state built_check _ _ _ built_job E eq_refl built_publishes eq_refl) as (Hp & _ & Hproof).
  - intros a Ha _ _. apply list_elem_of_singleton in Ha as ->. split; [reflexivity|]. split; [reflexivity|]. intros r [= <-]. reflexivity.
  - split; [exact Hp|exact (Hproof Hs)].
Defined.

Definition digest_of (d : string) : string := "sha256:000000000000000000000000000000000000000000000000000000000000000" +:+ d.
Definition index_media : string := "application/vnd.oci.image.index.v1+json".
Definition manifest_media : string := "application/vnd.oci.image.manifest.v1+json".
Definition a_node (d kind media : string) : RegistryNode := mkRegistryNode (digest_of d) kind media "PRESENT" 10%Z.
Definition an_edge (a b kind : string) : RegistryEdge := mkRegistryEdge (digest_of a) (digest_of b) kind None.
Definition a_descriptor (d kind media : string) : RegistryImageContentDescriptor :=
  mkRegistryImageContentDescriptor (digest_of d) kind media 10%Z None.
Definition sample_graph : RegistryGraph := {|
  RegistryGraph_ImageContentRoots := [mkRegistryImageContentRoot (digest_of "1") "COMPLETE"
    [mkRegistryImageContentManifest (digest_of "1") "INDEX" index_media 10 1 zero_digest [a_descriptor "2" "CHILD" manifest_media];
     mkRegistryImageContentManifest (digest_of "2") "MANIFEST" manifest_media 10 2 zero_digest
       [a_descriptor "3" "CONFIG" "a/b"; a_descriptor "4" "LAYER" "a/b"]] zero_digest];
  RegistryGraph_Nodes := [a_node "1" "INDEX" index_media; a_node "2" "MANIFEST" manifest_media; a_node "3" "BLOB" "a/b"; a_node "4" "BLOB" "a/b"];
  RegistryGraph_Edges := [an_edge "1" "2" "CHILD"; an_edge "2" "3" "CONFIG"; an_edge "2" "4" "LAYER"];
  RegistryGraph_Roots := [mkRegistryRoot (digest_of "1") "COMPLETE" []];
  RegistryGraph_TagCount := 1; RegistryGraph_TagSetHash := zero_digest; RegistryGraph_Discovery := "COMPLETE";
  RegistryGraph_GlobalInventoryComplete := false; RegistryGraph_Blockers := ["registry_global_inventory_unproven"];
  RegistryGraph_GraphHash := zero_digest
|}.
Definition sample_limits : RegistryObserveLimits := mkRegistryObserveLimits 1024 4096 16 16 4 4 100 60.
Definition sample_requested : list string := [digest_of "1"].
Lemma sample_graph_valid : ValidateRegistryGraph sample_graph sample_limits sample_requested = true.
Proof. vm_compute. reflexivity. Qed.

Lemma registry_complete_closure_witness : (exists n, RegistryNode_Digest n = digest_of "4" /\ Complete sample_graph n)
  /\ exists n, nsteps (leads sample_graph) n (digest_of "1") (digest_of "4") /\ (Z.of_nat n <= 4)%Z.
Proof.
  apply (registry_complete_closure sample_graph sample_limits sample_requested (mkRegistryRoot (digest_of "1") "COMPLETE" []) (digest_of "4")).
  - exact sample_graph_valid.
  - left.
  - reflexivity.
  - apply (rtc_l _ _ (digest_of "2")); [|apply rtc_once].
    + exists (an_edge "1" "2" "CHILD"). split; [left|split; reflexivity].
    + exists (an_edge "2" "4" "LAYER"). split; [right; right; left|split; reflexivity].
Defined.
Lemma content_proof_pullable_witness : Pullable sample_graph (digest_of "1")
  /\ exists root, root ∈ RegistryGraph_ImageContentRoots sample_graph /\ Proven sample_graph sample_limits root.
Proof.
  destruct (content_proof_pullable sample_graph sample_limits sample_requested (digest_of "1") zero_digest)
    as (Hp & _ & root & Hr & _ & _ & Hb); [vm_compute; reflexivity|]. split; [exact Hp|eauto].
Defined.
Lemma graph_hash_order_free_witness :
  RegistryGraphHash sample_graph = RegistryGraphHash (sample_graph <| RegistryGraph_Nodes ::= @reverse RegistryNode |> <| RegistryGraph_GraphHash := "" |>).
Proof.
  apply (graph_hash_order_free sample_graph). split; try reflexivity. symmetry. apply (reverse_Permutation (RegistryGraph_Nodes sample_graph)).
Defined.
