(* ===== verification/RestorationWitnesses.v ===== *)
(** * A restoration at work

    A reservation whose baseline was captured, restored without a write,
    confirmed, verified and released.  The theorem of Restoration is applied
    to it. *)
From S2P Require Import Prelude GoText Worklist GoJson Delivery Domain Status Planning Handlers Collections Reservation WorkerAuth Composition Pins WorkerJobs Registry Restoration Samples WorkerWitnesses.
Open Scope string_scope.
Open Scope list_scope.

Definition base : Time := 1000000000000%Z.
Definition after (s : Z) : Time := (base + s * second)%Z.
Definition repository_name : string := "ghcr.io/acme/app".
Definition image_name : string := repository_name +:+ "@" +:+ zero_digest.
Definition a_scope : RuntimeVerificationScope := mkRuntimeVerificationScope "P" "E" "A" "ctx" "ns" "dep" "main" "flux" "kust" "g" "b".
Definition gitops_request : GitOpsRequest := mkGitOpsRequest "acme/gitops" "main" "app.yaml" repository_name "image" "digest" "".
Definition gitops_seen : DevRuntimeGitOpsObservation := mkDevRuntimeGitOpsObservation repository_name sha1 sha2 zero_digest zero_digest.
Definition a_component : DevBaselineComponent :=
  (zero : DevBaselineComponent) <| DevBaselineComponent_ApplicationID := "A" |> <| DevBaselineComponent_RepositoryID := "REPO" |>
    <| DevBaselineComponent_AuthorityHash := zero_digest |> <| DevBaselineComponent_ImageRepository := repository_name |>
    <| DevBaselineComponent_Digest := zero_digest |> <| DevBaselineComponent_GitOps := gitops_request |>
    <| DevBaselineComponent_Scopes := [a_scope] |> <| DevBaselineComponent_ObservedGitOps := Some gitops_seen |>
    <| DevBaselineComponent_ArtifactID := "ART" |> <| DevBaselineComponent_ArtifactHash := zero_digest |>.
Definition an_artifact : DeliveryArtifact :=
  (zero : DeliveryArtifact) <| DeliveryArtifact_Meta := at_meta "ART" "" |> <| DeliveryArtifact_ApplicationID := "A" |>
    <| DeliveryArtifact_RepositoryID := "REPO" |> <| DeliveryArtifact_ImageRepository := repository_name |>
    <| DeliveryArtifact_Digest := zero_digest |>.
Definition availability (at_ : Time) : DevBaselineComponentResult :=
  mkDevBaselineComponentResult "A" repository_name zero_digest gitops_seen "ART" zero_digest (Some (mkArtifactResult true zero_digest "" at_)) None.
Definition selected (n : Z) : EnvironmentSelection := mkEnvironmentSelection "C" "" n.
Definition operation_at (id parent kind status phase : string) (epoch s : Z) : ExternalOperation :=
  (zero : ExternalOperation) <| ExternalOperation_Meta := mkMeta id "P" "" "bob" (after s) (after s) |> <| ExternalOperation_ParentID := parent |>
    <| ExternalOperation_Kind := kind |> <| ExternalOperation_Status := status |> <| ExternalOperation_Phase := phase |>
    <| ExternalOperation_EnvironmentID := "E" |> <| ExternalOperation_RequestedBy := "bob" |>
    <| ExternalOperation_RequestKey := "request-key-00001" |> <| ExternalOperation_RequestHash := zero_digest |>
    <| ExternalOperation_ReservationEpoch := epoch |>.
Definition the_hold : ExternalOperation :=
  (operation_at "HOLD" "" "DEV_RESERVATION" "SUCCEEDED" "RESERVED" 1 0) <| ExternalOperation_DevReservation := Some
    ((zero : DevReservationProof) <| DevReservationProof_CandidateHash := zero_digest |> <| DevReservationProof_Epoch := 1%Z |>
      <| DevReservationProof_ReservedSelection := selected 5 |>) |>.
Definition the_capture : ExternalOperation :=
  (operation_at "CAPTURE" "HOLD" devBaselineKind "SUCCEEDED" "BASELINE_CAPTURED" 1 1)
    <| ExternalOperation_DevBaseline := Some ((zero : DevBaselineProof) <| DevBaselineProof_ReservationOperationID := "HOLD" |>
         <| DevBaselineProof_ReservationHash := zero_digest |> <| DevBaselineProof_Components := [a_component] |>
         <| DevBaselineProof_SnapshotHash := zero_digest |>) |>
    <| ExternalOperation_DevBaselineResult := Some ((zero : DevBaselineResult) <| DevBaselineResult_ExpectedHash := zero_digest |>
         <| DevBaselineResult_Outcome := "CAPTURED" |> <| DevBaselineResult_Hash := zero_digest |>) |>.
Definition request (reservation restoration verification plan : string) (n : Z) : DevRestorationRequest :=
  mkDevRestorationRequest reservation restoration verification plan "request-key-00001" (Some (selected n)).
Definition the_plan : DevRestorationPlan := {|
  DevRestorationPlan_ExpectedHash := zero_digest; DevRestorationPlan_SettlementHash := zero_digest;
  DevRestorationPlan_Components := [mkDevRestorationMember "A" zero_digest gitops_seen gitops_seen gitops_request true];
  DevRestorationPlan_Groups := [(zero : DevRestorationGroup) <| DevRestorationGroup_ID := zero_digest |>
    <| DevRestorationGroup_LeaderID := "RECOVERY-0000000000000000" |> <| DevRestorationGroup_Repository := "acme/gitops" |>
    <| DevRestorationGroup_Ref := "main" |> <| DevRestorationGroup_Result := [gitops_seen] |>];
  DevRestorationPlan_Hash := zero_digest
|}.
Definition the_recovery : ExternalOperation :=
  (operation_at "RECOVERY" "HOLD" "DEV_CANDIDATE_RESTORATION" "SUCCEEDED" "GITOPS_APPLIED" 2 2)
    <| ExternalOperation_DevRestoration := Some {|
         DevRestorationProof_Request := request "HOLD" "" "" "" 5; DevRestorationProof_ReservationOperationID := "HOLD";
         DevRestorationProof_ReservationHash := zero_digest; DevRestorationProof_BaselineCaptureID := "CAPTURE";
         DevRestorationProof_BaselineCaptureHash := zero_digest; DevRestorationProof_Generation := 1; DevRestorationProof_Epoch := 2;
         DevRestorationProof_Selection := selected 6; DevRestorationProof_Deadline := (after 2 + hour)%Z;
         DevRestorationProof_Components := [a_component]; DevRestorationProof_Effects := [];
         DevRestorationProof_SnapshotHash := zero_digest |} |>
    <| ExternalOperation_DevRestorationPlan := Some the_plan |> <| ExternalOperation_FinishedAt := Some (after 4) |>.
Definition the_confirmation : ExternalOperation :=
  (operation_at "CONFIRMATION" "RECOVERY" "DEV_RESTORATION_CONFIRMATION" "SUCCEEDED" "ATTRIBUTED_CONTROL_CONFIRMATION" 2 3)
    <| ExternalOperation_DevRestorationConfirmation := Some (mkDevRestorationConfirmation (request "" "RECOVERY" "" zero_digest 6)
         zero_digest the_plan "ATTRIBUTED_CONTROL_CONFIRMATION" (after 3) zero_digest) |>
    <| ExternalOperation_FinishedAt := Some (after 3) |>.
Definition the_runtime : DevRuntimeProof := mkDevRuntimeProof
  (mkDevRuntimeRequest "RECOVERY" "request-key-00001" (Some (selected 6))) 1 zero_digest
  [mkDevRuntimeComponent zero_digest "A" "" "ART" repository_name zero_digest gitops_request sha1 "" [a_scope]] zero_digest.
Definition the_role : DeliveryRuntimeSnapshot :=
  mkDeliveryRuntimeSnapshot "ctx" "P" "E" "A" (after 6) "ns" "dep" "main" image_name 1 1 1 "HEALTHY"
    [mkRuntimePod "app-1" "uid-1" "Running" image_name zero_digest true] (Some (mkRuntimeFluxSnapshot sha1 "READY" "")) [].
Definition the_result : DevRuntimeResult := mkDevRuntimeResult "EXACT_CONFIGURED_RUNTIME_MATCH" zero_digest "VERIFIED" (after 7)
  [mkDevRuntimeComponentResult "A" gitops_seen (mkGitOpsRevisionProof "acme/gitops" "main" sha1 [sha1]) [the_role]] zero_digest.
Definition the_verification : ExternalOperation :=
  (operation_at "VERIFICATION" "RECOVERY" "DEV_RESTORATION_VERIFICATION" "SUCCEEDED" "RESTORATION_VERIFIED" 2 5)
    <| ExternalOperation_DevRestorationVerification := Some {|
         DevRestorationVerification_Request := request "" "RECOVERY" "" "" 6; DevRestorationVerification_RestorationHash := zero_digest;
         DevRestorationVerification_PlanHash := zero_digest; DevRestorationVerification_ConfirmationID := "CONFIRMATION";
         DevRestorationVerification_ConfirmationHash := zero_digest; DevRestorationVerification_SettlementHash := zero_digest;
         DevRestorationVerification_Generation := 1; DevRestorationVerification_Runtime := the_runtime;
         DevRestorationVerification_Availability := [availability (after 6)]; DevRestorationVerification_Components := [a_component];
         DevRestorationVerification_Hash := zero_digest |} |>
    <| ExternalOperation_DevRuntimeResult := Some the_result |> <| ExternalOperation_FinishedAt := Some (after 8) |>.
Definition the_receipt : ExternalOperation :=
  (operation_at "RECEIPT" "RECOVERY" "DEV_RESTORATION_RELEASE" "SUCCEEDED" "RELEASED" 2 9)
    <| ExternalOperation_DevRestorationRelease := Some {|
         DevRestorationRelease_Availability := [availability (after 9)]; DevRestorationRelease_AvailabilityHash := zero_digest;
         DevRestorationRelease_Request := request "" "RECOVERY" "VERIFICATION" "" 6; DevRestorationRelease_ReservationOperationID := "HOLD";
         DevRestorationRelease_ReservationHash := zero_digest; DevRestorationRelease_RestorationHash := zero_digest;
         DevRestorationRelease_PlanHash := zero_digest; DevRestorationRelease_ConfirmationID := "CONFIRMATION";
         DevRestorationRelease_ConfirmationHash := zero_digest; DevRestorationRelease_VerificationHash := zero_digest;
         DevRestorationRelease_ResultHash := zero_digest; DevRestorationRelease_SettlementHash := zero_digest;
         DevRestorationRelease_RecoveryEpoch := 2; DevRestorationRelease_RecoverySelection := selected 6;
         DevRestorationRelease_ReleasedEpoch := 3; DevRestorationRelease_ReleasedSelection := selected 7;
         DevRestorationRelease_Hash := zero_digest |} |>
    <| ExternalOperation_FinishedAt := Some (after 10) |>.
Definition restored_state : State :=
  sample <| State_DeliveryArtifacts := [an_artifact] |>
         <| State_Operations := [the_hold; the_capture; the_recovery; the_confirmation; the_verification; the_receipt] |>.

Lemma release_restores_originals_witness : exists verification v result release finished,
  CapturedUnder restored_state the_hold a_component /\ BackInPlace result finished a_component
  /\ AvailableOriginal restored_state verification a_component (DevRestorationVerification_Availability v) (DevRuntimeResult_ObservedAt result)
  /\ AvailableOriginal restored_state verification a_component (DevRestorationRelease_Availability release) finished.
Proof.
  destruct (release_restores_originals restored_state the_receipt the_hold)
    as (recovery & r & verification & v & result & release & finished & Hin & Hp & Hr & _ & _ & _ & Hall).
  - vm_compute. reflexivity.
  - exists verification, v, result, release, finished. apply Hall. cbn in Hin.
    repeat (apply elem_of_cons in Hin as [->|Hin]; [first [discriminate Hp|discriminate Hr|injection Hr as <-; left]|]). inversion Hin.
Defined.
