(* ===== verification/RetentionWitnesses.v ===== *)
(** * Retention at work

    A product with eleven published images of one component, a pin, a
    deployment in flight, a promoted release and an observed registry, next to
    another product.  Each lemma applies a theorem of the Retention files. *)
From S2P Require Import Prelude GoText Worklist GoJson Delivery Domain Status Planning Handlers Collections Reservation WorkerAuth Composition Pins WorkerJobs Publications Registry Restoration Retention RetentionRoots RetentionRecovery RetentionReport RetentionSafety RetentionKept RetentionProduction RetentionClosure Samples WorkerWitnesses RestorationWitnesses.
Open Scope string_scope.
Open Scope list_scope.

#[export] Instance sample_layout : TimeLayout := {| parse_rfc3339nano := parse_int |}.

Definition for_product (product id : string) : Meta := mkMeta id product "" "bob" base base.
(** The image number [d], built by operation [OP-d] on second [t]. *)
Definition build_request (d : string) : BuildRequest :=
  (zero : BuildRequest) <| BuildRequest_Repository := "acme/app" |> <| BuildRequest_SourceSHA := sha1 |> <| BuildRequest_OperationID := "OP-" +:+ d |>.
Definition built_artifact (d : string) : DeliveryArtifact :=
  (zero : DeliveryArtifact) <| DeliveryArtifact_Meta := for_product "P" ("ART-" +:+ d) |> <| DeliveryArtifact_ApplicationID := "A" |>
    <| DeliveryArtifact_RepositoryID := "REPO" |> <| DeliveryArtifact_SourceCommit := sha1 |>
    <| DeliveryArtifact_ImageRepository := repository_name |> <| DeliveryArtifact_Digest := digest_of d |>
    <| DeliveryArtifact_BuildRequest := build_request d |> <| DeliveryArtifact_BuildRunID := 1%Z |>.
Definition build_snapshot (d : string) : DeliverySnapshot :=
  (zero : DeliverySnapshot) <| DeliverySnapshot_Application := (zero : Application) <| Application_Meta := for_product "P" "A" |> |>
    <| DeliverySnapshot_Build := (zero : ComponentBuild) <| ComponentBuild_Meta := for_product "P" "B" |> <| ComponentBuild_ApplicationID := "A" |>
         <| ComponentBuild_ImageRepository := repository_name |> |>
    <| DeliverySnapshot_Revision := (zero : IntegrationRevision) <| IntegrationRevision_Meta := for_product "P" "R" |>
         <| IntegrationRevision_RepositoryID := "REPO" |> <| IntegrationRevision_HeadCommit := sha1 |> |>
    <| DeliverySnapshot_Source := (zero : RepositoryBinding) <| RepositoryBinding_Meta := for_product "P" "S" |>
         <| RepositoryBinding_RepositoryID := "REPO" |> <| RepositoryBinding_FullName := "acme/app" |> |>
    <| DeliverySnapshot_BuildRequest := build_request d |>.
Definition build_operation (d : string) : ExternalOperation :=
  (zero : ExternalOperation) <| ExternalOperation_Meta := for_product "P" ("OP-" +:+ d) |> <| ExternalOperation_Kind := "DEPLOY" |>
    <| ExternalOperation_Status := "SUCCEEDED" |> <| ExternalOperation_ApplicationID := "A" |>
    <| ExternalOperation_Snapshot := Some (build_snapshot d) |>.
Definition build_run (d t : string) : DeliveryBuildRun :=
  (zero : DeliveryBuildRun) <| DeliveryBuildRun_Meta := for_product "P" ("RUN-" +:+ d) |> <| DeliveryBuildRun_OperationID := "OP-" +:+ d |>
    <| DeliveryBuildRun_ApplicationID := "A" |> <| DeliveryBuildRun_Request := build_request d |>
    <| DeliveryBuildRun_Result := (zero : RunResult) <| RunResult_Found := true |> <| RunResult_ID := 1%Z |> <| RunResult_Status := "completed" |>
         <| RunResult_Conclusion := "success" |> <| RunResult_HeadSHA := sha1 |>
         <| RunResult_Artifacts := list_to_map [("operation_id", "OP-" +:+ d); ("source_sha", sha1); ("image_repository", repository_name);
              ("image_tag", ""); ("digest", digest_of d); ("available", "true"); ("observed_at", t)] |> |>.
Definition builds : list (string * string) :=
  [("1", "101"); ("2", "102"); ("3", "103"); ("4", "104"); ("5", "105"); ("6", "106"); ("7", "107"); ("8", "108"); ("9", "109"); ("a", "110"); ("b", "111")].
(** A deployment in flight, and the pins of two products. *)
Definition deploying : ExternalOperation :=
  (build_operation "c") <| ExternalOperation_Status := "RUNNING" |> <| ExternalOperation_ExpectedDigest := digest_of "c" |>.
Definition a_pin (product id d : string) : ArtifactPin :=
  (zero : ArtifactPin) <| ArtifactPin_Meta := for_product product id |> <| ArtifactPin_ApplicationID := "A" |>
    <| ArtifactPin_ImageRepository := repository_name |> <| ArtifactPin_Digest := digest_of d |> <| ArtifactPin_Purpose := "rollback" |>.
(** A promoted release and the deployment that carried it out. *)
Definition promoted_snapshot : DeliverySnapshot :=
  (build_snapshot "f") <| DeliverySnapshot_Target := (zero : EnvironmentBinding) <| EnvironmentBinding_Purpose := "PROD" |>
      <| EnvironmentBinding_EnvironmentID := "PROD" |> <| EnvironmentBinding_RepositoryID := "REPO" |> <| EnvironmentBinding_Ref := "main" |>
      <| EnvironmentBinding_Path := "app.yaml" |> |>
    <| DeliverySnapshot_Environment := (zero : Environment) <| Environment_Meta := for_product "P" "PROD" |> |>.
Definition promoted_child : ExternalOperation :=
  (build_operation "f") <| ExternalOperation_Meta := for_product "P" "CHILD" |> <| ExternalOperation_Snapshot := Some promoted_snapshot |>
    <| ExternalOperation_ParentID := "PROMOTION" |> <| ExternalOperation_EnvironmentID := "PROD" |>
    <| ExternalOperation_Artifact := Some (mkArtifactResult true (digest_of "f") "" base) |>
    <| ExternalOperation_GitOpsResult := Some (mkGitOpsResult sha2 "" "" false) |>.
Definition promotion : ExternalOperation :=
  (zero : ExternalOperation) <| ExternalOperation_Meta := for_product "P" "PROMOTION" |> <| ExternalOperation_Kind := "RELEASE_PROMOTION" |>
    <| ExternalOperation_Status := "SUCCEEDED" |> <| ExternalOperation_ChildIDs := ["CHILD"] |>.
Definition a_release : Release :=
  (zero : Release) <| Release_Meta := mkMeta "RELEASE" "P" "" "bob" (after 5) (after 5) |> <| Release_Status := "released" |>
    <| Release_ExecutionOperationID := "PROMOTION" |> <| Release_ArtifactDigests := {["A" := digest_of "f"]} |>
    <| Release_GitOpsCommits := {["A" := sha2]} |> <| Release_SourceCommits := {["A" := sha1]} |>.
Definition promoted_runtime : RuntimeObservation :=
  (zero : RuntimeObservation) <| RuntimeObservation_Meta := mkMeta "OBS" "P" "" "bob" (after 4) (after 4) |>
    <| RuntimeObservation_OperationID := "CHILD" |> <| RuntimeObservation_EnvironmentID := "PROD" |>
    <| RuntimeObservation_GitOpsCommit := sha2 |> <| RuntimeObservation_ArtifactDigest := digest_of "f" |> <| RuntimeObservation_Healthy := true |>.
Definition an_inventory : RegistryInventory :=
  (zero : RegistryInventory) <| RegistryInventory_Meta := for_product "P" "INV" |> <| RegistryInventory_ReceivedAt := after 1 |>
    <| RegistryInventory_Report := (zero : WorkerRegistryReport)
         <| WorkerRegistryReport_Scope := (zero : RegistryScope) <| RegistryScope_ImageRepository := repository_name |> |>
         <| WorkerRegistryReport_Graph := (zero : RegistryGraph) <| RegistryGraph_Edges := [an_edge "d" "e" "LAYER"] |> |> |>.
Definition retention_state : State :=
  sample <| State_DeliveryArtifacts := map (fun b => built_artifact b.1) builds |>
    <| State_DeliveryBuildRuns := map (fun b => build_run b.1 b.2) builds |>
    <| State_Operations := map (fun b => build_operation b.1) builds ++ [deploying; promotion; promoted_child] |>
    <| State_ArtifactPins := [a_pin "P" "PIN-P" "d"; a_pin "Q" "PIN-Q" "2"] |>
    <| State_Releases := [a_release] |> <| State_RuntimeObservations := [promoted_runtime] |>
    <| State_RegistryInventories := [an_inventory] |>.
Definition now : Time := after 60.
Definition retention_report : RetentionReport := EvaluateRetention retention_state "P" now [].
Definition retention_start : retentionCollector := start retention_state "P" now.
(** The image of the report with this digest. *)
Definition listed (d : string) : RetentionImage :=
  default (new_image "" "" "") (find_first (fun e => RetentionImage_Digest e == digest_of d) (RetentionReport_Images retention_report)).
Definition is_listed (d : string) : bool :=
  is_some (find_first (fun e => RetentionImage_Digest e == digest_of d) (RetentionReport_Images retention_report)).
Lemma listed_in_report d : is_listed d = true -> listed d ∈ RetentionReport_Images retention_report.
Proof.
  unfold is_listed, listed. destruct (find_first _ _) as [e|] eqn:E; [|discriminate]. intros _. apply find_first_Some in E as [He _]. exact He.
Qed.

Lemma unprotected_is_superseded_witness : exists profile t, chronology retention_start (built_artifact "1") = Some (profile, t)
  /\ superseded retention_start "A" profile (RetentionImage_Identity (listed "1")) (kept_count (policies_of retention_start) "A").
Proof.
  apply (unprotected_is_superseded retention_state "P" now [] (listed "1") (built_artifact "1")).
  - apply listed_in_report. vm_compute. reflexivity.
  - vm_compute. reflexivity.
  - left.
  - reflexivity.
  - vm_compute. reflexivity.
Defined.
Lemma pinned_images_kept_witness : Kept retention_report repository_name (digest_of "d") "pin:rollback".
Proof. apply (pinned_images_kept retention_state "P" now [] (a_pin "P" "PIN-P" "d")); [left|reflexivity..]. Defined.
Lemma inflight_images_kept_witness : Kept retention_report repository_name (digest_of "c") "operation_inflight".
Proof.
  assert (E : frozenImageRepository retention_start (build_snapshot "c") = repository_name) by (vm_compute; reflexivity).
  apply (inflight_images_kept retention_state "P" now [] deploying).
  - repeat (try left; right).
  - reflexivity.
  - vm_compute. reflexivity.
  - apply ref_direct. rewrite <- E. apply (ref_expected retention_start deploying (build_snapshot "c")); [reflexivity|discriminate].
Defined.
Lemma production_images_kept_witness : exists reason, Kept retention_report repository_name (digest_of "f") reason
  /\ (reason = "production_current" \/ reason = "production_previous" /\ release_rank retention_start a_release <> 1).
Proof.
  assert (Er : frozenImageRepository retention_start promoted_snapshot = repository_name) by (vm_compute; reflexivity).
  assert (Ec : lineage_children (trace_release retention_start a_release) = [promoted_child]) by (vm_compute; reflexivity).
  rewrite <- Er. apply (production_images_kept retention_state "P" now [] a_release promoted_child promoted_snapshot (mkArtifactResult true (digest_of "f") "" base)).
  - left.
  - vm_compute. reflexivity.
  - apply Z.leb_le. vm_compute. reflexivity.
  - fold retention_start. rewrite Ec. left.
  - reflexivity.
  - reflexivity.
  - discriminate.
Defined.
Lemma shared_images_protected_witness : RetentionImage_Protected (listed "2") = true.
Proof.
  assert (Hf : exists f, c_images (evaluate (newRetentionCollector retention_state "Q" now)) !! RetentionImage_Identity (listed "2") = Some f
    /\ RetentionImage_Protected f = true).
  { destruct (c_images (evaluate _) !! _) as [f|] eqn:E.
    - exists f. split; [reflexivity|].
      assert (Hp : option_map RetentionImage_Protected (c_images (evaluate (newRetentionCollector retention_state "Q" now)) !! RetentionImage_Identity (listed "2")) = Some true)
        by (vm_compute; reflexivity).
      rewrite E in Hp. injection Hp as Hp. exact Hp.
    - assert (Hp : is_some (c_images (evaluate (newRetentionCollector retention_state "Q" now)) !! RetentionImage_Identity (listed "2")) = true)
        by (vm_compute; reflexivity). rewrite E in Hp. discriminate. }
  destruct Hf as (f & Hf & Hp). apply (shared_images_protected retention_state "P" now [] "Q" f (listed "2")).
  - apply elem_of_list_to_set, elem_of_app. right. apply elem_of_app. right. right. left.
  - discriminate.
  - exact Hf.
  - exact Hp.
  - apply listed_in_report. vm_compute. reflexivity.
Defined.
Lemma protected_closure_listed_witness : exists o, o ∈ RetentionReport_ProtectedObjects retention_report
  /\ object_key o = image_key (RetentionImage_ImageRepository (listed "d")) (digest_of "e") /\ RegistryProtectedObject_Protected o = true
  /\ RetentionImage_Digest (listed "d") ∈ RegistryProtectedObject_RootDigests o.
Proof.
  assert (Hr : RetentionImage_ImageRepository (listed "d") = repository_name) by (vm_compute; reflexivity).
  assert (Hd : RetentionImage_Digest (listed "d") = digest_of "d") by (vm_compute; reflexivity).
  apply (protected_closure_listed retention_state "P" now [] (listed "d") (digest_of "e")).
  - intros v ->%list_elem_of_singleton. split; [exists repository_name; vm_compute; reflexivity|].
    intros e ->%list_elem_of_singleton. split; vm_compute; reflexivity.
  - apply listed_in_report. vm_compute. reflexivity.
  - vm_compute. reflexivity.
  - rewrite Hr, Hd. apply rtc_once. exists an_inventory. split; [left|]. split; [reflexivity|].
    exists (an_edge "d" "e" "LAYER"). split; [left|split; reflexivity].
Defined.
