(* ===== verification/OperationWitnesses.v ===== *)
(** * The worker of operations at work

    A deployment whose build is dispatched: by a worker that finishes its
    step, and by one that stops between the commit of its intent and the
    call, after which nobody dispatches. *)
From S2P Require Import Prelude GoText GoJson Delivery Domain Status Planning Handlers Collections ExternalSystems Reservation Composition Pins WorkerAuth WorkerJobs Publications Registry Restoration External Candidates Activation FlowGuards Effects Saving SourceChecks ActivationWorker NativeWorker Operations OperationSafety Executions DispatchOnce GitOpsIntent Fairness Interleaving Samples.
Open Scope string_scope.
Open Scope list_scope.

#[export] Instance sample_baselines : Baselines := {| activationBaselineAllowed := fun _ _ _ => Ok () |}.
#[export] Instance sample_lease : ComposeLease := {| retentionLease := fun _ _ _ _ => Ok () |}.
#[export] Instance sample_capabilities : Capabilities := {|
  provider_configured := true; pull_request_observer := true; gitops_pr_provider := true; gitops_batch_provider := true;
  gitops_revision_verifier := true; ref_provider := true; check_run_provider := true;
  source_provider := true; scoped_git_observer := true; composed_source_verifier := true |}.
#[export] Instance sample_analyst : Analyst := {| intelligence_timeout := None; runtime_observers := false |}.
#[export] Instance sample_steps : OtherSteps := {| other_step := fun _ _ => Ret (Ok ()) |}.

(** ** One dispatch *)
Definition a_snapshot : DeliverySnapshot := (zero : DeliverySnapshot) <| DeliverySnapshot_Application := an_application |>.
Definition deployment (phase : string) : ExternalOperation :=
  (zero : ExternalOperation) <| ExternalOperation_Meta := at_meta "OP" "" |> <| ExternalOperation_Kind := "DEPLOY" |>
    <| ExternalOperation_Status := "RUNNING" |> <| ExternalOperation_Phase := phase |> <| ExternalOperation_EnvironmentID := "E" |>
    <| ExternalOperation_ApplicationID := "A" |> <| ExternalOperation_Snapshot := Some a_snapshot |>.
Definition deploying (phase : string) : State := sample <| State_Operations := [deployment phase] |>.
(** The provider refuses every call but the dispatch. *)
Definition nothing {A} (c : Call A) : A :=
  match c with
  | Branches _ _ => []
  | Compare _ _ _ _ => mkCompareResult [] "" "" 0 0 ""
  | Dispatch _ _ => mkDispatchResult "" 7
  | FindRun _ _ => zero
  | InspectArtifact _ _ => zero
  | ReadGitOps _ _ => zero
  | ApplyGitOps _ _ => zero
  | ProposeGitOps _ _ => zero
  | ObserveGitOpsPR _ _ _ => zero
  | EnsureRef _ _ _ _ => ""
  | ObservePullRequest _ _ _ => mkPullRequestObservation 0 0 0 "" "" "" "" "" "" "" 0%Z 0%Z
  | VerifyGitOpsRevision _ _ => zero
  | ProposeGitOpsBatch _ _ _ => zero
  | LookupGitOpsBatchProposal _ _ => zero
  | ObserveGitOpsBatchPR _ _ _ => zero
  | ReadPublication _ _ => zero
  | ObserveBranch _ _ _ => mkBranchInfo "" "" false
  | ComposeSource _ _ => zero
  | AdvanceMain _ _ _ _ _ => zero
  | VerifyComposedSource _ _ _ => tt
  | SnapshotRuntime _ => zero
  end.
Definition refusing : Environment_replies :=
  mkReplies sample_world (fun A c => (nothing c, if dispatches c then None else Some "unavailable")).

Definition beginning : Sys := mkSys (deploying "DISPATCH") [] [] ["OP"] [].
Definition dispatched : Sys := drive refusing 9 0 (claim_at 100%Z "T1" beginning).
(** The first worker commits its intent and stops; a second one takes over when the lease has run out. *)
Definition recovered : Sys :=
  drive refusing 9 1 (claim_at (200 * second)%Z "T2" (crash 0 (drive refusing 2 0 (claim_at 100%Z "T1" beginning)))).
Lemma beginning_started : Started beginning.
Proof.
  split; [reflexivity|]. split; [reflexivity|]. split; [intros x Hx; exact Hx|]. intros o ph ow E. left. unfold lease_view in E.
  destruct (operationByID (store beginning) o) as [v|] eqn:Ev; [|discriminate]. injection E as _ <-.
  apply find_first_Some in Ev as [Hv%list_elem_of_singleton _]. subst v. reflexivity.
Qed.
Lemma steps_run s s' : rtc Step s s' -> rtc Run s s'.
Proof. induction 1; [reflexivity|]. eapply rtc_l; [apply run_thread; eassumption|assumption]. Qed.
Lemma dispatch_at_most_once_witness :
  (sent dispatched = ["OP"] /\ occurrences "OP" (sent dispatched) <= 1)
  /\ (map ExternalOperation_Phase (State_Operations (store recovered)) = ["BUILD_LOOKUP"] /\ drawn recovered = ["T2"; "T1"] /\ sent recovered = []
      /\ occurrences "OP" (sent recovered) <= 1).
Proof.
  split; [split; [vm_compute; reflexivity|]|split; [vm_compute; reflexivity|split; [vm_compute; reflexivity|split; [vm_compute; reflexivity|]]]];
    apply (dispatch_at_most_once beginning); try exact beginning_started; apply steps_run.
  - etransitivity; [|apply drive_steps]. apply claim_at_step; [discriminate|apply not_elem_of_nil].
  - etransitivity; [|apply drive_steps]. etransitivity; [|apply claim_at_step; [discriminate|apply (bool_decide_unpack _); vm_compute; exact I]].
    etransitivity; [|apply crash_step]. etransitivity; [|apply drive_steps]. apply claim_at_step; [discriminate|apply not_elem_of_nil].
Defined.

(** ** One write *)
Definition a_binding : EnvironmentBinding :=
  (zero : EnvironmentBinding) <| EnvironmentBinding_Meta := at_meta "EB" "" |> <| EnvironmentBinding_EnvironmentID := "E" |>
    <| EnvironmentBinding_ApplicationID := "A" |> <| EnvironmentBinding_AllowDeploy := true |>.
Definition an_artifact : ArtifactResult := mkArtifactResult true zero_digest "uri" 5%Z.
Definition a_base : GitOpsSnapshot := mkGitOpsSnapshot "registry/app" "head0" "blob0" "" "sha256:old".
Definition applying : ExternalOperation :=
  (deployment "APPLY") <| ExternalOperation_Snapshot := Some (a_snapshot <| DeliverySnapshot_Environment := an_environment |>
                          <| DeliverySnapshot_Target := a_binding |>) |>
    <| ExternalOperation_Artifact := Some an_artifact |> <| ExternalOperation_GitOpsBase := Some a_base |> <| ExternalOperation_LeaseOwner := "T" |>.
Definition with_target : State := sample <| State_Operations := [applying] |> <| State_EnvironmentBindings := [a_binding] |>.
(** The manifest is the one inspected. *)
Definition unmoved : Environment_replies :=
  mkReplies sample_world (fun A c => match c with
    | ReadGitOps _ _ => (a_base, None)
    | c => (nothing c, Some "unavailable")
    end).
Definition until_write : list Happening * Prog (res unit) := execute gitops_write unmoved 9 (tick_claimed applying "T") with_target [].
Definition the_write : GitOpsApply := mkGitOpsApply zero "head0" "blob0" zero_digest "OP" "release-control: OP".
Lemma gitops_write_intended_witness :
  calls until_write.2 (ApplyGitOps zero the_write) /\ apply_permitted "T" applying zero the_write until_write.1.
Proof.
  assert (Hc : calls until_write.2 (ApplyGitOps zero the_write)) by (apply next_apply_calls; vm_compute; reflexivity).
  split; [exact Hc|]. apply (gitops_write_intended applying "T" until_write.1 until_write.2 _ (ApplyGitOps zero the_write)).
  - vm_compute. reflexivity.
  - apply execute_execution. apply execution_start.
  - exact Hc.
  - reflexivity.
Defined.

(** ** Turns *)
Definition due (id : string) (t : Time) : ExternalOperation :=
  (deployment "PREFLIGHT") <| ExternalOperation_Meta := at_meta id "" |> <| ExternalOperation_NextAttemptAt := t |>.
Definition queue : State := sample <| State_Operations := [due "OP3" 30%Z; due "OP1" 10%Z; due "OP2" 20%Z] |>.
Definition turn (t : Time) : Turn := mkTurn t "T" (fun st => st).
(** After this turn an operation arrives that is due before all others. *)
Definition overtaken (st : State) : State :=
  if bool_decide ("OP0" ∈ ID <$> State_Operations st) then st else st <| State_Operations ::= fun l => l ++ [due "OP0" 5%Z] |>.
Definition overtaken_turn (t : Time) : Turn := mkTurn t "T" overtaken.
Definition four_turns : list Turn := [turn 100%Z; overtaken_turn 101%Z; turn 102%Z; turn 103%Z].
Lemma claimed_in_turn_witness : claims four_turns queue = ["OP1"; "OP2"; "OP0"; "OP3"] /\ "OP3" ∈ claims four_turns queue.
Proof.
  split; [vm_compute; reflexivity|]. apply (claimed_in_turn (due "OP3" 30%Z) 100%Z 200%Z).
  - intros kind. unfold lease_length. destruct (_ == _); reflexivity.
  - assert (Hover : forall st, Waiting (due "OP3" 30%Z) st -> Waiting (due "OP3" 30%Z) (overtaken st)).
    { intros st [Hv Hn]. unfold overtaken. case_bool_decide as Hin; [split; assumption|].
      split; [exact (proj2 (elem_of_app _ _ _) (or_introl Hv))|].
      change (NoDup (ID <$> (State_Operations st ++ [due "OP0" 5%Z]))). rewrite fmap_app. apply list.NoDup_app.
      split; [exact Hn|]. split; [|apply NoDup_singleton]. intros x Hx ->%list_elem_of_singleton. exact (Hin Hx). }
    repeat (constructor; [split; [split; discriminate|first [exact Hover|auto]]|]). constructor.
  - split; [left|]. apply (bool_decide_unpack _). vm_compute. exact I.
  - vm_compute. reflexivity.
  - apply Nat.ltb_lt. vm_compute. reflexivity.
Defined.
