(* ===== verification/StoreWitnesses.v ===== *)
(** * The stores at work

    A store of two products and their features: what is stored is read back,
    a transaction is refused when it rewrites history, and the deletion of a
    product after which PostgreSQL returns features in another order than the
    transactions left them. *)
From Stdlib Require Import Structures.OrdersEx.
From S2P Require Import Prelude GoText GoJson Delivery Domain Status Handlers Collections Reservation WorkerAuth Pins WorkerJobs Publications Registry Checks WorkerChecks WorkerProtocol Schema Documents Stores StoreRefinement Samples.
Open Scope string_scope.
Open Scope list_scope.

(** ** An encoding *)
(** Documents name their record, which a catalog holds. *)
Definition document `{HasMeta A} (x : A) : string := ID x +:+ "|" +:+ ProductID x +:+ "|" +:+ FeatureID x.
Definition read_header (d : string) : option (string * string * string) :=
  match split_on "|"%char d with [id; product; feature] => Some (id, product, feature) | _ => None end.
Definition found (catalog : State) (c : Collection) (d : string) : option (col_type c) :=
  find_first (fun x => document x == d) (col_get c catalog).
Definition found_event (catalog : State) (d : string) : option Event := find_first (fun e => Event_ID e == d) (State_Events catalog).
Definition catalog_json (catalog : State) : Json := {|
  marshal := fun c x => Ok (document x); unmarshal := found catalog;
  marshal_event := Event_ID; unmarshal_event := found_event catalog;
  header := read_header; jsonb := fun d => d; grouped_fallback := fun _ => plain "unknown collection";
  storable := fun c x => found catalog c (document x) = Some x /\ read_header (document x) = Some (ID x, ProductID x, FeatureID x);
  storable_event := fun e => found_event catalog (Event_ID e) = Some e |}.
Lemma catalog_laws catalog : @JsonLaws (catalog_json catalog).
Proof.
  constructor; cbn.
  - intros c x _. eauto.
  - intros c x d [_ Hh] [= <-]. exact Hh.
  - intros c x d [Hf _] [= <-]. exact Hf.
  - reflexivity.
  - intros e He. exact He.
Qed.
Lemma leb_lt s t : String.leb s t = true <-> String_as_OT.lt s t \/ s = t.
Proof.
  unfold String.leb. change (String.compare s t) with (String_as_OT.compare s t). destruct (String_as_OT.compare_spec s t) as [->|Hl|Hg]; [tauto|tauto|].
  split; [discriminate|]. intros [Hl| ->]; [|destruct (StrictOrder_Irreflexive _ Hg)]. destruct (StrictOrder_Irreflexive s). transitivity t; assumption.
Qed.
(** The [C] collation. *)
#[export] Instance sample_collation : Collation.
Proof.
  refine {| text_le := String.leb |}.
  - intros s. apply leb_lt. auto.
  - intros a b c. rewrite !leb_lt. intros [Hl| ->] [Hl'| ->]; auto. left. transitivity b; assumption.
  - apply String.leb_antisym.
  - apply String.leb_total.
Defined.

(** ** Two products *)
Definition a_product (id : string) : Product :=
  (zero : Product) <| Product_Meta := mkMeta id "" "" "alice" 10%Z 10%Z |> <| Product_Name := id |>.
Definition feature_of (product id : string) : Feature :=
  (zero : Feature) <| Feature_Meta := mkMeta id product "" "alice" 10%Z 10%Z |> <| Feature_Title := id |> <| Feature_Status := "active" |>.
Definition recorded (id : string) : Event := (zero : Event) <| Event_ID := id |>.
Definition two_products : State :=
  (zero : State) <| State_Products := [a_product "P1"; a_product "P2"] |>
    <| State_Features := [feature_of "P1" "F3"; feature_of "P2" "F2"] |> <| State_Events := [recorded "E1"] |>.
Definition one_product : State :=
  two_products <| State_Products := [a_product "P2"] |> <| State_Features := [feature_of "P2" "F2"] |>
    <| State_Events := [recorded "E1"; recorded "E2"] |>.
Definition one_more_feature (st : State) : State :=
  st <| State_Features ::= fun l => l ++ [feature_of "P2" "F1"] |> <| State_Events ::= fun l => l ++ [recorded "E3"] |>.
Definition catalog : State :=
  two_products <| State_Features ::= fun l => l ++ [feature_of "P2" "F1"] |> <| State_Events := [recorded "E1"; recorded "E2"; recorded "E3"] |>.
#[export] Instance sample_json : Json := catalog_json catalog.
#[export] Instance sample_json_laws : JsonLaws := catalog_laws catalog.
#[export] Existing Instance sample_encoding.

Lemma two_products_storable : Storable two_products.
Proof.
  split; [|repeat constructor]. unfold schema. repeat (constructor; [first [constructor; fail|repeat (constructor; [split; vm_compute; reflexivity|]); constructor]|]). constructor.
Qed.
(** Maps are looked up before they are shown. *)
Definition group_at (kind : string) (r : res Groups) : option (list string) := match r with Ok g => g !! kind | Err _ => None end.
Lemma documents_round_trip_witness :
  exists groups, codecDocuments two_products = Ok groups /\ group_at "features" (Ok groups) = Some ["F3|P1|"; "F2|P2|"]
  /\ decodeStoredDocuments groups = Ok (two_products <| State_Events := [] |>).
Proof.
  destruct (codecDocuments_spec two_products two_products_storable) as (groups & E & _). exists groups. split; [exact E|].
  split; [rewrite <- E; vm_compute; reflexivity|exact (documents_round_trip two_products groups two_products_storable E)].
Defined.

(** ** The index *)
Definition scanned (before after : res Groups) (kind raw : string) : bool :=
  match before, after with Ok b, Ok a => productRecordRemoved b a kind raw | _, _ => false end.
Lemma one_product_storable : Storable one_product.
Proof.
  split; [|repeat constructor]. unfold schema. repeat (constructor; [first [constructor; fail|repeat (constructor; [split; vm_compute; reflexivity|]); constructor]|]). constructor.
Qed.
Lemma index_is_scan_witness : exists before after bi ai,
  codecDocuments two_products = Ok before /\ codecDocuments one_product = Ok after /\ indexDocuments before = Ok bi /\ indexDocuments after = Ok ai
  /\ index_removed bi ai "features" "F3|P1|" = true /\ index_removed bi ai "features" "F2|P2|" = false.
Proof.
  destruct (index_of two_products two_products_storable) as (before & bi & E & Ei & _).
  destruct (index_of one_product one_product_storable) as (after & ai & E' & Ei' & _). exists before, after, bi, ai. do 4 (split; [assumption|]).
  rewrite !(index_is_scan before after bi ai) by assumption.
  assert (Hs : forall kind raw, productRecordRemoved before after kind raw = scanned (codecDocuments two_products) (codecDocuments one_product) kind raw)
    by (intros kind raw; rewrite E, E'; reflexivity).
  rewrite !Hs. split; vm_compute; reflexivity.
Defined.

(** ** PostgreSQL *)
Definition empty_database : Database := mkDatabase ∅ [] 0.
Lemma empty_represents : Represents empty_database zero.
Proof.
  assert (E : expected zero = []) by (vm_compute; reflexivity). split; rewrite ?E.
  - intros id r. cbn. rewrite lookup_empty. split; [discriminate|]. intros [Hr _]. inversion Hr.
  - reflexivity.
  - constructor.
  - constructor.
  - split; [|constructor]. unfold schema. repeat (constructor; [constructor|]). constructor.
  - vm_compute. reflexivity.
  - vm_compute. reflexivity.
Qed.
Lemma update_refines_witness : exists db, update (fun _ => Ok two_products) empty_database = Ok db /\ Represents db two_products
  /\ read db = Ok two_products /\ revision db = 1%Z.
Proof.
  destruct (update_refines empty_database zero (fun _ => Ok two_products) two_products) as (db & Hu & R & Hr & Hv).
  - exact empty_represents.
  - reflexivity.
  - vm_compute. reflexivity.
  - exact two_products_storable.
  - apply (bool_decide_unpack _). vm_compute. exact I.
  - apply (bool_decide_unpack _). vm_compute. exact I.
  - split; [|exists (State_Events two_products); reflexivity]. intros c Hc. rewrite (col_zero c Hc). exists (map ID (col_get c two_products)). reflexivity.
  - exists db. auto.
Defined.

(** Three transactions: the two products, the deletion of the first, another
    feature of the second. *)
Definition stored : res Database := update (fun _ => Ok two_products) empty_database.
Definition deleted : res Database := stored ≫= update (fun _ => Ok one_product).
Definition grown : res Database := deleted ≫= update (fun st => Ok (one_more_feature st)).
Definition feature_ids (r : res State) : list string := match r with Ok st => map ID (State_Features st) | Err _ => ["error"] end.
(** C8. PostgreSQL may return records in another order than transactions left
    them: a row is not rewritten while its document stays, so that after the
    deletion of a product the features that remain keep their old positions
    and a feature appended later is read before them. *)
Theorem deletion_reorders : feature_ids (deleted ≫= read) = ["F2"]
  /\ feature_ids (one_more_feature <$> (deleted ≫= read)) = ["F2"; "F1"]
  /\ feature_ids (grown ≫= read) = ["F1"; "F2"].
Proof. split; [vm_compute; reflexivity|]. split; vm_compute; reflexivity. Qed.

(** ** The local store *)
Definition encode_sample (st : State) : string := "state".
Definition decode_sample (data : string) : option State := if data == "state" then Some one_product else None.
Lemma local_update_safe_witness :
  updateLocal encode_sample decode_sample (fun st => Ok (one_more_feature st)) "state" = Ok "state"
  /\ updateLocal encode_sample decode_sample (fun st => Ok (st <| State_Events := [] |>)) "state" = plain "audit history cannot be removed"
  /\ updateLocal encode_sample decode_sample (fun st => Ok (st <| State_Features := [] |>)) "state" = plain "existing records cannot be removed or change kind"
  /\ exists st st', readLocal decode_sample "state" = Ok st /\ map marshal_event (State_Events st) `prefix_of` map marshal_event (State_Events st').
Proof.
  assert (E : updateLocal encode_sample decode_sample (fun st => Ok (one_more_feature st)) "state" = Ok "state") by (vm_compute; reflexivity).
  split; [exact E|]. split; [vm_compute; reflexivity|]. split; [vm_compute; reflexivity|].
  destruct (local_update_safe _ _ _ _ _ E) as (st & st' & before & after & Hr & _ & _ & _ & _ & _ & Hp & _). exists st, st'. auto.
Defined.
