(* ===== verification/FlowWitnesses.v ===== *)
(** * The composition flow at work

    Runs of the whole command handler with the flow of Flow.v: an environment
    whose selected composition is reconciled, patched with a new revision and,
    once its release candidate is verified, promoted. *)
From S2P Require Import Prelude GoText GoJson Delivery Domain Status Planning Handlers DeviceAuth Collections ExternalSystems Reservation Composition Conflicts Scenarios Pins WorkerAuth WorkerJobs Publications Registry WorkerProtocol External Candidates Activation FlowGuards Effects Saving SourceRetention Entities Commands Flow Planner FlowSafety Interleaving Samples.
Open Scope string_scope.
Open Scope list_scope.

(** ** A product that can be composed *)
Definition sha3 : string := "3333333333333333333333333333333333333333".
Definition a_revision (id head_ : string) : IntegrationRevision :=
  mkIntegrationRevision (at_meta id "F1") "I1" "REPO" "work" sha2 head_ [head_].
Definition a_component (rid : string) : CompositionComponent := mkCompositionComponent "A" "main" sha2 "generated/E/C/REPO" [rid].
Definition a_composition : Composition :=
  mkComposition false (at_meta "C" "") "E" "base" "planned" [a_component "R1"] [an_application] [a_revision "R1" sha1] an_environment.
Definition a_binding (repo name role : string) : RepositoryBinding :=
  (zero : RepositoryBinding) <| RepositoryBinding_Meta := at_meta ("B" +:+ repo) "" |> <| RepositoryBinding_RepositoryID := repo |>
    <| RepositoryBinding_ConnectionID := "X" |> <| RepositoryBinding_FullName := name |> <| RepositoryBinding_Role := role |>
    <| RepositoryBinding_DefaultBranch := "main" |>.
Definition a_connection : GitHubConnection := (zero : GitHubConnection) <| GitHubConnection_Meta := at_meta "X" "" |>.
Definition a_build : ComponentBuild :=
  (zero : ComponentBuild) <| ComponentBuild_Meta := at_meta "CB" "" |> <| ComponentBuild_ApplicationID := "A" |>
    <| ComponentBuild_ConnectionID := "X" |> <| ComponentBuild_Workflow := "build.yml" |>
    <| ComponentBuild_ImageRepository := "ghcr.io/team/app" |>.
Definition a_target (mode : string) : EnvironmentBinding :=
  (zero : EnvironmentBinding) <| EnvironmentBinding_Meta := at_meta "EB" "" |> <| EnvironmentBinding_EnvironmentID := "E" |>
    <| EnvironmentBinding_ApplicationID := "A" |> <| EnvironmentBinding_Purpose := "DEV" |>
    <| EnvironmentBinding_ConnectionID := "X" |> <| EnvironmentBinding_RepositoryID := "GIT" |>
    <| EnvironmentBinding_Ref := "main" |> <| EnvironmentBinding_GitOpsMode := mode |>
    <| EnvironmentBinding_AllowDeploy := true |>.
Definition composable (mode : string) : State :=
  sample <| State_RepositoryBindings := [a_binding "REPO" "41" "APPLICATION"; a_binding "GIT" "42" "GITOPS"] |>
    <| State_GitHubConnections := [a_connection] |> <| State_ComponentBuilds := [a_build] |>
    <| State_EnvironmentBindings := [a_target mode] |>
    <| State_IntegrationRevisions := [a_revision "R1" sha1; a_revision "R2" sha3] |>
    <| State_Compositions := [a_composition] |>.

Definition run (st : State) (c : Command) : State * Out :=
  match commanded None st c with Ok x => x | Err _ => (st, OutNone) end.
Definition reconcile_command : Command := (command "reconcile_composition" [("resolution_conflict_ids", strings [])]) <| Command_ID := "C" |>.
Definition update_command (actor : string) : Command :=
  (command "update_environment_feature"
    [("environment_id", JStr "E"); ("revision_ids", strings ["R2"]); ("name", JStr "patch"); ("idempotency_key", JStr "key-1");
     ("expected_selection", JObj [("composition_id", JStr "C"); ("operation_id", JStr ""); ("generation", JNum "3")])])
    <| Command_FeatureID := "F1" |> <| Command_Actor := actor |>.

(** ** A verified candidate *)
Definition a_candidate : ExternalOperation :=
  (zero : ExternalOperation) <| ExternalOperation_Meta := at_meta "CAND" "" |> <| ExternalOperation_Kind := "RELEASE_CANDIDATE" |>
    <| ExternalOperation_Status := "SUCCEEDED" |> <| ExternalOperation_DeploymentState := "READY_FOR_VERIFICATION" |>
    <| ExternalOperation_EnvironmentID := "E" |> <| ExternalOperation_CompositionSnapshot := Some a_composition |>
    <| ExternalOperation_IntegrationIDs := ["I1"] |> <| ExternalOperation_ChildIDs := ["D"] |>.
Definition a_deployment : ExternalOperation :=
  (zero : ExternalOperation) <| ExternalOperation_Meta := at_meta "D" "" |> <| ExternalOperation_Kind := "DEPLOY" |>
    <| ExternalOperation_Status := "SUCCEEDED" |>
    <| ExternalOperation_Snapshot := Some ((zero : DeliverySnapshot) <| DeliverySnapshot_Application := an_application |>
         <| DeliverySnapshot_Revision := a_revision "R1" sha1 |>) |>
    <| ExternalOperation_Artifact := Some ((zero : ArtifactResult) <| ArtifactResult_Digest := zero_digest |> <| ArtifactResult_Available := true |>) |>.
Definition a_scenario : ScenarioVersion :=
  (zero : ScenarioVersion) <| ScenarioVersion_Meta := at_meta "S1" "" |> <| ScenarioVersion_ScenarioID := "S" |>
    <| ScenarioVersion_Version := 1%Z |> <| ScenarioVersion_IntegrationIDs := ["I1"] |> <| ScenarioVersion_Blocking := true |>.
Definition a_run : ScenarioRun :=
  (zero : ScenarioRun) <| ScenarioRun_Meta := at_meta "SR" "" |> <| ScenarioRun_ScenarioVersionID := "S1" |>
    <| ScenarioRun_CandidateOperationID := "CAND" |> <| ScenarioRun_Result := "passed" |>
    <| ScenarioRun_Components := [mkScenarioComponentEvidence "A" "D" sha1 zero_digest ""] |>.
Definition verified : State :=
  (composable "PR") <| State_Operations := [a_deployment; a_candidate] |> <| State_ScenarioVersions := [a_scenario] |>
    <| State_ScenarioRuns := [a_run] |>.
Definition promote_command : Command := (command "promote_release_candidate" [("approve", JBool true)]) <| Command_ID := "CAND" |>.

(** ** The keys and the identifiers of the runs *)
Lemma ascii_data l : forallb (fun kv => is_ascii kv.1) l = true -> ascii_keys (list_to_map l).
Proof.
  intros Hl key [v Hv]%bool_decide_eq_true. apply elem_of_list_to_map_2 in Hv.
  exact (proj1 (forallb_elem _ _) Hl (key, v) Hv).
Qed.
(** The operations a run leaves behind. *)
Definition operations_after (st : State) (c : Command) : nat :=
  match commanded None st c with Ok (st', _) => List.length (State_Operations st') | Err _ => 0%nat end.
(** A run that leaves [n] operations, destructed in the goal. *)
Ltac flow_ran st c n E :=
  let Hn := fresh "Hn" in
  assert (Hn : operations_after st c = n) by (vm_compute; reflexivity);
  unfold operations_after in Hn; destruct (commanded None st c) as [[? output]|] eqn:E; [|discriminate Hn].
Lemma reconcile_ascii : AsciiCommand reconcile_command.
Proof. apply ascii_data. reflexivity. Qed.
Lemma update_ascii actor : AsciiCommand (update_command actor).
Proof. apply ascii_data. reflexivity. Qed.
Lemma explicit_reconcile : Command_Action reconcile_command ∈ explicit_actions.
Proof. right. left. Qed.

(** ** Composing *)
Lemma composition_born_with_lineage_witness : exists st' op,
  commanded None (composable "PR") reconcile_command = Ok (st', OutOperation op)
  /\ ExternalOperation_Kind op = "COMPOSE" /\ sourceRetentionProvenance st' op = Ok ().
Proof.
  flow_ran (composable "PR") reconcile_command 1%nat E.
  destruct (composition_born_with_lineage None _ _ _ _ E reconcile_ascii explicit_reconcile) as [->|(op & -> & _ & Hk & Hp)].
  - split; intros x Hx; inversion Hx.
  - discriminate Hn.
  - eexists _, op. auto.
Defined.
Lemma composition_reviewed_witness : exists st' comp op,
  commanded None (composable "PR") reconcile_command = Ok (st', OutOperation op)
  /\ ExternalOperation_CompositionSnapshot op = Some comp
  /\ Forall2 (FrozenComponent (composable "PR") comp false) (Composition_Components comp) (ExternalOperation_PreparedDeployments op)
  /\ Selects (composable "PR") st' (Composition_EnvironmentID comp) (ID comp) (ID op)
  /\ operations_after (composable "DIRECT") reconcile_command = 0%nat.
Proof.
  flow_ran (composable "PR") reconcile_command 1%nat E.
  destruct (composition_reviewed None _ _ _ _ E reconcile_ascii explicit_reconcile) as [->|(comp & op & -> & _ & Hs & _ & Hf & _ & Hsel)];
    [discriminate Hn|].
  eexists _, comp, op. split; [reflexivity|]. split; [exact Hs|]. split; [exact Hf|]. split; [exact Hsel|]. vm_compute. reflexivity.
Defined.
Lemma composition_pins_inputs_witness : exists st' comp op,
  commanded None (composable "PR") reconcile_command = Ok (st', OutOperation op)
  /\ ExternalOperation_CompositionSnapshot op = Some comp
  /\ forall s, s ∈ ExternalOperation_Sources op -> FlowSourceOf (composable "PR") comp (ID op) s.
Proof.
  flow_ran (composable "PR") reconcile_command 1%nat E.
  destruct (composition_pins_inputs None _ _ _ _ E reconcile_ascii explicit_reconcile) as [->|(comp & op & -> & Hs & _ & Hf)];
    [discriminate Hn|].
  eexists _, comp, op. split; [reflexivity|]. split; [exact Hs|]. intros source Hin. apply (Hf source Hin).
Defined.

(** ** Updating: the second request returns the operation of the first *)
Lemma feature_update_once_witness : exists st1 op op2,
  commanded None (composable "PR") (update_command "bob") = Ok (st1, OutOperation op)
  /\ commanded None st1 (update_command "bob") = Ok (st1, OutOperation op2)
  /\ receipt_of op2 = receipt_of op /\ is_ok (commanded None st1 (update_command "eve")) = false.
Proof.
  assert (Hn : match commanded None (composable "PR") (update_command "bob") with
               | Ok (st1, _) => is_ok (commanded None st1 (update_command "bob")) && negb (is_ok (commanded None st1 (update_command "eve")))
               | Err _ => false
               end = true) by (vm_compute; reflexivity).
  destruct (commanded None (composable "PR") (update_command "bob")) as [[st1 out]|] eqn:E; [|discriminate Hn].
  destruct (commanded None st1 (update_command "bob")) as [[st2 out2]|] eqn:E2; [|discriminate Hn].
  destruct (feature_update_once None _ _ _ _ _ _ _ _ E (update_ascii _) eq_refl (fun _ _ => rtc_refl _ _) E2 (update_ascii _) eq_refl eq_refl)
    as (-> & _ & op & op2 & -> & -> & _ & Hr).
  exists st1, op, op2. split; [reflexivity|]. split; [exact E2|]. split; [exact Hr|]. cbn in Hn. apply negb_true_iff. exact Hn.
Defined.

(** ** Promoting *)
Lemma promoted_once_witness : exists st' op, commanded None verified promote_command = Ok (st', OutOperation op)
  /\ ExternalOperation_CompositionSnapshot op = Some a_composition
  /\ is_ok (commanded None st' promote_command) = false.
Proof.
  flow_ran verified promote_command 3%nat E.
  destruct (promoted_once None _ _ _ _ E eq_refl)
    as (candidate & comp & op & Hc & _ & _ & Hcs & _ & _ & -> & Happ & Hp & Hs & _ & _ & _ & Honce).
  eexists _, op. split; [reflexivity|]. split.
  - rewrite Hs. vm_compute in Hc. injection Hc as <-. rewrite <- Hcs. reflexivity.
  - apply Honce; [|reflexivity|reflexivity]. rewrite Happ. apply existsb_exists. exists op. split; [|exact Hp].
    apply in_or_app. right. left. reflexivity.
Defined.
