(* ===== verification/FlowWorkerWitnesses.v ===== *)
(** * The worker of compositions, and a candidate, at work

    The composition of FlowWitnesses.v, tick by tick: it pins its revision,
    has the source composed and queues the deployment of the component; and
    the promotion of the verified candidate, until its release is recorded.
    Then a component of a product is built natively and has a production
    target that takes pull requests; one of its revisions is verified and
    merged.  The request for a candidate of it is prepared, observed and
    admitted. *)
From S2P Require Import Prelude GoText GoJson Delivery Domain Status Planning Handlers DeviceAuth Collections ExternalSystems Reservation WorkerAuth Composition Conflicts Scenarios Pins WorkerJobs Publications Registry WorkerProtocol External Candidates Activation FlowGuards Effects Saving SourceRetention SourceChecks Operations OperationSafety Executions Entities Commands Flow Planner FlowSafety FlowWorker FlowIntent FlowRecords MainAdmission Samples OperationWitnesses FlowWitnesses.
Open Scope string_scope.
Open Scope list_scope.

(** A provider that has what the composition recorded, and does what it is asked. *)
Definition composed_sha : string := "4444444444444444444444444444444444444444".
Definition git : Environment_replies :=
  mkReplies sample_world (fun A c => match c with
    | Branches _ _ => ([mkBranchInfo "main" sha2 false], None)
    | EnsureRef _ _ _ sha => (sha, None)
    | ObserveBranch _ _ branch => (mkBranchInfo branch sha1 false, None)
    | Compare _ _ base head_ => (mkCompareResult [(zero : CommitInfo) <| CommitInfo_SHA := head_ |>] base head_ 1 0 "", None)
    | ComposeSource _ plan =>
      ((zero : SourceResult) <| SourceResult_Branch := SourcePlan_TargetBranch plan |> <| SourceResult_SHA := composed_sha |>, None)
    | VerifyComposedSource _ _ _ => (tt, None)
    | c => (nothing c, Some "unavailable")
    end).
(** Every operation is leased by the worker before its tick. *)
Definition lease (v : ExternalOperation) : ExternalOperation :=
  v <| ExternalOperation_LeaseOwner := "T" |> <| ExternalOperation_LeaseUntil := (10000 * second)%Z |>.
Definition leased (st : State) : State := st <| State_Operations ::= map lease |>.
Definition nth_op (n : nat) (st : State) : ExternalOperation := default zero (State_Operations st !! n).
Definition tick (n : nat) (st : State) : State := (Effects.run git (tickFlow (nth_op n (leased st)) "T") (leased st)).1.
Definition after_command (st : State) (c : Command) : State := match commanded None st c with Ok (st, _) => st | Err _ => zero end.
Definition begun : State := after_command (composable "PR") reconcile_command.
Definition pinned : State := tick 0 begun.
Definition composed : State := tick 0 pinned.
Definition ready : State := tick 0 composed.
Definition queued : State := tick 0 ready.
Example flow_at_work : map (fun st => ExternalOperation_Phase (nth_op 0 st)) [begun; pinned; composed; ready; queued]
  = ["COMPOSE_SOURCE"; "COMPOSE_SOURCE"; "COMPOSE_SOURCE"; "QUEUE_BUILDS"; "WAIT_CHILDREN"].
Proof. vm_compute. reflexivity. Qed.

(** ** The writes to the source *)
(** The operations of other kinds have no steps here. *)
Definition no_rest (op : ExternalOperation) (token : string) : Prog (res unit) := Ret (Ok ()).
#[local] Instance flow_only : OtherSteps := flow_steps no_rest.
#[local] Existing Instance compose_lease | 0.
Definition until_source (st : State) : list Happening * Prog (res unit) :=
  execute source_write git 60 (tick_claimed (nth_op 0 (leased st)) "T") (leased st) [].
Definition next_pin {A} (p : Prog A) : option (Connection * string * string * string) :=
  match p with
  | Ret _ => None
  | @Do _ X e k => match e with Ask c => match c with EnsureRef conn r b s => Some (conn, r, b, s) | _ => None end | _ => None end
  end.
Definition next_composition {A} (p : Prog A) : option (Connection * SourcePlan) :=
  match p with
  | Ret _ => None
  | @Do _ X e k => match e with Ask c => match c with ComposeSource conn plan => Some (conn, plan) | _ => None end | _ => None end
  end.
Lemma next_pin_calls {A} (p : Prog A) conn r b s : next_pin p = Some (conn, r, b, s) -> calls p (EnsureRef conn r b s).
Proof. destruct p as [a|X e k]; [discriminate|]. destruct e as [| | | |X c]; try discriminate. destruct c; try discriminate. intros [= -> -> -> ->]. exists k. reflexivity. Qed.
Lemma next_composition_calls {A} (p : Prog A) conn plan : next_composition p = Some (conn, plan) -> calls p (ComposeSource conn plan).
Proof. destruct p as [a|X e k]; [discriminate|]. destruct e as [| | | |X c]; try discriminate. destruct c; try discriminate. intros [= -> ->]. exists k. reflexivity. Qed.
Lemma source_write_intended_witness :
  (exists conn r b, calls (until_source begun).2 (EnsureRef conn r b sha1) /\ Fenced "T" (nth_op 0 (leased begun)) (until_source begun).1)
  /\ (exists conn plan source, calls (until_source pinned).2 (ComposeSource conn plan)
      /\ SourceProven (nth_op 0 (leased pinned)) source (until_source pinned).1 /\ Pinned (nth_op 0 (leased pinned)) (until_source pinned).1).
Proof.
  split.
  - assert (Hk : contains flow_kinds (ExternalOperation_Kind (nth_op 0 (leased begun))) = true) by (vm_compute; reflexivity).
    assert (Hn : match next_pin (until_source begun).2 with Some (_, _, _, s) => s == sha1 | None => false end = true) by (vm_compute; reflexivity).
    destruct (next_pin _) as [[[[conn r] b] s]|] eqn:E; [|discriminate]. apply bool_decide_eq_true in Hn. subst s. apply next_pin_calls in E.
    destruct (source_write_intended no_rest (nth_op 0 (leased begun)) "T" (until_source begun).1 (until_source begun).2 _ _ Hk (execute_execution _ _ _ _ _ _ _ (execution_start _)) E eq_refl eq_refl)
      as (_ & _ & Hf & _).
    exists conn, r, b. split; [exact E|exact Hf].
  - assert (Hk : contains flow_kinds (ExternalOperation_Kind (nth_op 0 (leased pinned))) = true) by (vm_compute; reflexivity).
    assert (Hn : is_some (next_composition (until_source pinned).2) = true) by (vm_compute; reflexivity).
    destruct (next_composition _) as [[conn plan]|] eqn:E; [|discriminate]. apply next_composition_calls in E.
    destruct (source_write_intended no_rest (nth_op 0 (leased pinned)) "T" (until_source pinned).1 (until_source pinned).2 _ _ Hk (execute_execution _ _ _ _ _ _ _ (execution_start _)) E eq_refl eq_refl)
      as (_ & _ & _ & Hp & source & _ & _ & _ & _ & Hs).
    exists conn, plan, source. split; [exact E|]. split; [exact Hs|exact Hp].
Defined.

(** ** The deployment of the component *)
Abbreviation queueing := (queue_tx false (nth_op 0 (leased ready)) "T" 0%Z (leased ready)).
Definition deployed_heads (st : State) : list string :=
  map (fun v => from_option (fun s => IntegrationRevision_HeadCommit (DeliverySnapshot_Revision s)) "" (ExternalOperation_Snapshot v)) (State_Operations st).
Lemma children_exact_witness : exists st' children, queueing = Ok st' /\ ChildrenOf (leased ready) (nth_op 0 (leased ready)) children
  /\ children <> [] /\ deployed_heads st' = [""; composed_sha].
Proof.
  assert (Hn : match queueing with Ok st => bool_decide (deployed_heads st = [""; composed_sha]) | Err _ => false end = true) by (vm_compute; reflexivity).
  destruct queueing as [st'|] eqn:E; [|discriminate Hn]. apply bool_decide_eq_true in Hn.
  destruct (children_exact false _ "T" 0%Z _ _ E) as (parent & children & _ & _ & _ & _ & _ & _ & Hne & Hc & _).
  exists st', children. split; [reflexivity|]. split; [exact Hc|]. split; [exact Hne|exact Hn].
Defined.

(** ** The release of the candidate *)
Definition promoting : State := after_command verified promote_command.
(** The deployment that promotes has been applied, and its runtime observed. *)
Definition applied (v : ExternalOperation) : ExternalOperation :=
  v <| ExternalOperation_GitOpsResult := Some ((zero : GitOpsResult) <| GitOpsResult_CommitSHA := sha3 |>) |> <| ExternalOperation_Status := "SUCCEEDED" |>.
Definition observed_runtime (healthy : bool) (v : ExternalOperation) : RuntimeObservation :=
  (zero : RuntimeObservation) <| RuntimeObservation_OperationID := ID v |> <| RuntimeObservation_Healthy := healthy |>
    <| RuntimeObservation_GitOpsCommit := sha3 |> <| RuntimeObservation_ArtifactDigest := zero_digest |>.
Definition running_release (healthy : bool) : State :=
  let st := tick 2 promoting in
  st <| State_Operations ::= alter applied 3 |> <| State_RuntimeObservations := [observed_runtime healthy (nth_op 3 st)] |>.
Abbreviation releasing st := (release_tx (nth_op 2 (leased st)) "T" (leased st)).
Lemma release_recorded_witness : exists st' record, releasing (running_release true) = Ok st' /\ State_Releases st' = [record]
  /\ Release_Status record = "released" /\ is_ok (releasing (running_release false)) = false.
Proof.
  assert (Hn : match releasing (running_release true) with Ok st => true | Err _ => false end = true) by (vm_compute; reflexivity).
  destruct (releasing (running_release true)) as [st'|] eqn:E; [|discriminate Hn].
  destruct (release_recorded _ "T" _ _ E) as (parent & outputs & record & _ & _ & _ & _ & _ & _ & _ & _ & Hs & _ & _ & _ & Hr & _).
  exists st', record. split; [reflexivity|]. split; [rewrite Hr; vm_compute; reflexivity|]. split; [exact Hs|]. vm_compute. reflexivity.
Defined.

(** ** A component that can be released *)
Definition build_recipe : Recipe :=
  (zero : Recipe) <| Recipe_ID := "build" |> <| Recipe_Hash := zero_digest |> <| Recipe_ProductID := "P" |>
    <| Recipe_RepositoryID := "REPO" |> <| Recipe_RepositoryURL := "https://git/repo" |> <| Recipe_Capability := "local_oci_build" |>.
Definition a_publication : PublicationRecipe :=
  mkPublicationRecipe "publish" "1" zero_digest "P" "REPO" "A" "release" zero_digest "https://registry" "team/app" 0 0 (mkRegistryRead "" "" "" "" false).

#[local] Instance building : Operator := Some (mkAuthority (mkWorkerConfig [] "r1" 60%Z [a_publication] [build_recipe] []) (fun _ => "") "").
Definition a_native_build : ComponentBuild := a_build <| ComponentBuild_Mode := "NATIVE" |> <| ComponentBuild_Native := Some (mkNativeBinding "build" "publish" ∅) |>.
Definition a_production_target : EnvironmentBinding := (a_target "PR") <| EnvironmentBinding_Purpose := "PROD" |>.
Definition releasable : State :=
  (composable "PR") <| State_ComponentBuilds := [a_native_build] |> <| State_EnvironmentBindings := [a_production_target] |>
    <| State_Repositories := [a_repository <| Repository_URL := "https://git/repo" |>] |>.
Definition candidate_command : Command :=
  command "prepare_release_candidate"
    [("name", JStr "release"); ("environment_id", JStr "E"); ("idempotency_key", JStr "candidate-request-1");
     ("main_sources", JArr [JObj [("application_id", JStr "A"); ("main_sha", JStr sha2);
        ("native", JObj [("build_recipe_id", JStr "build"); ("publication_recipe_id", JStr "publish"); ("parameters", JObj [])]);
        ("revisions", JArr [JObj [("revision_id", JStr "R1"); ("pull_request_number", JNum "7"); ("verification_result_ids", strings ["R"])]])]])].
Definition merged_pr : PullRequestObservation := mkPullRequestObservation 7 41 41 "" "" "merged" "work" "main" sha1 sha2 5%Z 6%Z.
Definition merging : Environment_replies :=
  mkReplies sample_world (fun A c => match c with
    | Branches _ _ => ([mkBranchInfo "main" sha2 false], None)
    | ObservePullRequest _ _ _ => (merged_pr, None)
    | c => (nothing c, Some "unavailable")
    end).

(** The execution up to its transaction: a read, the clock, the branches and the pull request. *)
Definition until_admission : list Happening * Prog (res ExternalOperation) :=
  execute (@writes) merging 4 (executeMainCandidate candidate_command) releasable [].
Definition next_commit {A} (p : Prog A) (st : State) : option State :=
  match p with
  | Ret _ => None
  | Do e k => match e with Update f => match f sample_world false st with Ok (st', _) => Some st' | Err _ => None end | _ => None end
  end.
Lemma next_commit_commits {A} (p : Prog A) st st' : next_commit p st = Some st' -> commits p st st'.
Proof.
  destruct p as [a|X e k]; [discriminate|]. destruct e as [|B f| | |B c]; try discriminate. cbn. intros Hn.
  destruct (f sample_world false st) as [[after a]|] eqn:E; [|discriminate]. injection Hn as <-. exists sample_world, false, a. exact E.
Qed.
Lemma candidate_admitted_witness : exists after, commits until_admission.2 releasable after
  /\ CandidateAdmitted candidate_command until_admission.1 releasable after.
Proof.
  assert (Hn : match next_commit until_admission.2 releasable with Some st => length (State_Operations st) =? 1 | None => false end%nat = true)
    by (vm_compute; reflexivity).
  destruct (next_commit until_admission.2 releasable) as [after|] eqn:E; [|discriminate Hn]. apply next_commit_commits in E.
  exists after. split; [exact E|].
  destruct (candidate_admitted candidate_command until_admission.1 until_admission.2 releasable after) as [Hsame|Hadmitted]; [|exact E| |exact Hadmitted].
  - apply execute_execution, execution_start.
  - rewrite Hsame in Hn. discriminate Hn.
Defined.
