(* ===== verification/EvidenceWitnesses.v ===== *)
(** * A baseline at work

    An environment is reserved for a candidate; its shared baseline has one
    component, whose image was built and recorded.  A capture is admitted,
    its first step reads and protects the image, and its second one inspects
    the artifact, reads the runtime and records the capture.  The theorems of
    EvidenceSafety.v are applied to the executions of the steps. *)
From S2P Require Import Prelude GoText GoJson Delivery Domain Status Planning Handlers DeviceAuth Collections ExternalSystems Reservation Composition WorkerAuth WorkerJobs Publications Registry Restoration Retention RetentionReport External Candidates Activation FlowGuards RegistryRefresh Effects Saving SourceChecks DevRuntime ActivationWorker Operations OperationSafety Executions Baseline RuntimeWorker FlowWorker BaselineWorker EvidenceSafety MainAdmission Samples WorkerWitnesses RetentionWitnesses RestorationWitnesses OperationWitnesses FlowWitnesses FlowWorkerWitnesses.
Open Scope string_scope.
Open Scope list_scope.

(** ** A reserved environment *)
Definition cluster_environment : Environment :=
  an_environment <| Environment_Cluster := "ctx" |> <| Environment_Namespace := "ns" |> <| Environment_SelectionGeneration := 5%Z |>
    <| Environment_ReservationEpoch := 1%Z |>.
Definition bound_scope : RuntimeVerificationScope := a_scope <| RuntimeVerificationScope_BindingHash := zeros |>.
#[local] Instance one_observer : Observers :=
  {| runtimeObservers := fun _ => [mkRuntimeObserver (mkRuntimeTarget "P" "E" "A") (Some (Some bound_scope))] |}.
Definition the_connection : GitHubConnection := (zero : GitHubConnection) <| GitHubConnection_Meta := at_meta "CON" "" |>.
Definition manifests_binding : RepositoryBinding :=
  (zero : RepositoryBinding) <| RepositoryBinding_Meta := at_meta "RB" "" |> <| RepositoryBinding_RepositoryID := "GITOPS" |>
    <| RepositoryBinding_ConnectionID := "CON" |> <| RepositoryBinding_Role := "GITOPS" |> <| RepositoryBinding_FullName := "42" |>.
Definition code_binding : RepositoryBinding :=
  manifests_binding <| RepositoryBinding_RepositoryID := "REPO" |> <| RepositoryBinding_Role := "APPLICATION" |>.
Definition baseline_target : EnvironmentBinding :=
  (zero : EnvironmentBinding) <| EnvironmentBinding_Meta := at_meta "EB" "" |> <| EnvironmentBinding_EnvironmentID := "E" |>
    <| EnvironmentBinding_ApplicationID := "A" |> <| EnvironmentBinding_GitOpsMode := "PR" |> <| EnvironmentBinding_Purpose := "DEV" |>
    <| EnvironmentBinding_AllowDeploy := true |> <| EnvironmentBinding_ConnectionID := "CON" |> <| EnvironmentBinding_RepositoryID := "GITOPS" |>
    <| EnvironmentBinding_Ref := "main" |> <| EnvironmentBinding_Path := "app.yaml" |>.
Definition image_build : ComponentBuild :=
  (zero : ComponentBuild) <| ComponentBuild_Meta := at_meta "CB" "" |> <| ComponentBuild_ApplicationID := "A" |>
    <| ComponentBuild_ImageRepository := repository_name |>.
Definition shared_composition : Composition :=
  (zero : Composition) <| Composition_Meta := at_meta "C" "" |> <| Composition_EnvironmentID := "E" |>
    <| Composition_EnvironmentSnapshot := cluster_environment |>
    <| Composition_Components := [(zero : CompositionComponent) <| CompositionComponent_ApplicationID := "A" |>] |>.
(** The artifact of the image, with the build it came from. *)
Definition image_artifact : DeliveryArtifact :=
  RestorationWitnesses.an_artifact <| DeliveryArtifact_SourceCommit := sha1 |> <| DeliveryArtifact_Availability := "PRESENT" |>
    <| DeliveryArtifact_BuildRunID := 7%Z |>.
Definition the_build : DeliveryBuildRun :=
  mkDeliveryBuildRun (at_meta "RUN" "") "" "A" ((zero : BuildRequest) <| BuildRequest_SourceSHA := sha1 |>)
    ((zero : RunResult) <| RunResult_ID := 7%Z |> <| RunResult_Status := "completed" |> <| RunResult_Conclusion := "success" |>
       <| RunResult_Artifacts := list_to_map [("source_sha", sha1); ("image_repository", repository_name); ("digest", zero_digest)] |>).
Definition reservation : ExternalOperation :=
  (zero : ExternalOperation) <| ExternalOperation_Meta := mkMeta "HOLD" "P" "" "bob" 5%Z 5%Z |> <| ExternalOperation_Kind := "DEV_RESERVATION" |>
    <| ExternalOperation_Status := "SUCCEEDED" |> <| ExternalOperation_Phase := "RESERVED" |> <| ExternalOperation_EnvironmentID := "E" |>
    <| ExternalOperation_RequestedBy := "bob" |> <| ExternalOperation_RequestKey := "request-key-00001" |>
    <| ExternalOperation_ReservationEpoch := 1%Z |>
    <| ExternalOperation_DevReservation := Some
         ((zero : DevReservationProof) <| DevReservationProof_Epoch := 1%Z |> <| DevReservationProof_BaselineSelection := selected 4 |>
            <| DevReservationProof_ReservedSelection := selected 5 |> <| DevReservationProof_Environment := cluster_environment |>
            <| DevReservationProof_Targets := [baseline_target] |>) |>.
Definition held : State :=
  sample <| State_Environments := [cluster_environment] |> <| State_GitHubConnections := [the_connection] |>
    <| State_RepositoryBindings := [manifests_binding; code_binding] |> <| State_EnvironmentBindings := [baseline_target] |>
    <| State_ComponentBuilds := [image_build] |> <| State_Compositions := [shared_composition] |> <| State_DeliveryArtifacts := [image_artifact] |>
    <| State_DeliveryBuildRuns := [the_build] |> <| State_Operations := [reservation] |>.

(** ** The capture *)
Definition capture_command : Command :=
  command "capture_candidate_dev_baseline"
    [("reservation_operation_id", JStr "HOLD"); ("request_key", JStr "baseline-key-0001");
     ("expected_selection", JObj [("composition_id", JStr "C"); ("operation_id", JStr ""); ("generation", JNum "5")])].
Definition admitted_state : State := match executeDevBaseline capture_command held with Ok (st, _) => st | Err _ => held end.
(** The provider and the cluster have the image. *)
Definition manifest : GitOpsSnapshot := mkGitOpsSnapshot repository_name sha1 sha2 "image" zero_digest.
Definition observed_role : DeliveryRuntimeSnapshot :=
  the_role <| DeliveryRuntimeSnapshot_ObservedAt := 1000%Z |>.
Definition intact : Environment_replies :=
  mkReplies sample_world (fun A c => match c with
    | ReadGitOps _ _ => (manifest, None)
    | VerifyGitOpsRevision _ r => (mkGitOpsRevisionProof (GitOpsRevisionRequest_Repository r) (GitOpsRevisionRequest_Ref r) sha1 (GitOpsRevisionRequest_AncestorSHAs r), None)
    | InspectArtifact _ _ => (mkArtifactResult true zero_digest "" 1000%Z, None)
    | SnapshotRuntime _ => (observed_role, None)
    | c => (nothing c, Some "unavailable")
    end).
Definition capture_of (st : State) : ExternalOperation := List.last (State_Operations st) zero.
Definition claimed_capture (st : State) : State := leased st.
Definition staged_state : State := claimed_capture (Effects.run intact (tickDevBaseline (capture_of (leased admitted_state)) "T") (leased admitted_state)).1.

(** The second step up to its transaction, which ends the capture. *)
Definition until_captured : list Happening * Prog (res unit) :=
  execute (@writes) intact 41 (tickDevBaseline (capture_of staged_state) "T") staged_state [].
Definition left_in (phase : string) (op : ExternalOperation) (st : option State) : bool :=
  match (st ← st; operationByID st (ID op)) with Some v => ExternalOperation_Phase v == phase | None => false end.
Lemma left_in_spec phase op st : left_in phase op st = true -> exists after v, st = Some after
  /\ operationByID after (ID op) = Some v /\ ExternalOperation_Phase v = phase.
Proof.
  unfold left_in. destruct st as [after|]; [|discriminate]. cbn. destruct (operationByID after (ID op)) as [v|] eqn:Hv; [|discriminate].
  intros Hp%bool_decide_eq_true. exists after, v. auto.
Qed.
Lemma capture_proven_witness : exists after v p r runtime, commits until_captured.2 staged_state after
  /\ operationByID after (ID (capture_of staged_state)) = Some v /\ ExternalOperation_Phase v = "BASELINE_CAPTURED"
  /\ ExternalOperation_Status v = "SUCCEEDED" /\ BaselineCaptured until_captured.1 staged_state (capture_of staged_state) v p r runtime.
Proof.
  assert (Hn : left_in "BASELINE_CAPTURED" (capture_of staged_state) (next_commit until_captured.2 staged_state) = true) by (vm_compute; reflexivity).
  apply left_in_spec in Hn as (after & v & E & Hv & Hp). apply next_commit_commits in E.
  destruct (proj2 (capture_proven (capture_of staged_state) "T" until_captured.1 until_captured.2 (execute_execution _ _ _ _ _ _ _ (execution_start _)))
              staged_state after E v Hv Hp) as (_ & Hs & p & r & runtime & Hc).
  exists after, v, p, r, runtime. do 4 (split; [assumption|]). exact Hc.
Defined.

(** ** An activated candidate *)
#[local] Existing Instance building | 0.
Definition native_repository : string := "registry/team/app".
Definition profiled : State :=
  releasable <| State_ComponentBuilds := [a_native_build <| ComponentBuild_Profile := "release" |> <| ComponentBuild_ImageRepository := native_repository |>] |>.
Definition requested : State := (Effects.run merging (executeMainCandidate candidate_command) profiled).1.
(** The candidate of FlowWorkerWitnesses.v, whose only image was built. *)
Definition prepared_snapshot : DeliverySnapshot := default zero (head (ExternalOperation_PreparedDeployments (capture_of requested))).
Definition built_candidate : ExternalOperation :=
  (capture_of requested) <| ExternalOperation_Meta ::= fun m => m <| Meta_ID := "CANDIDATE" |> |> <| ExternalOperation_Status := "SUCCEEDED" |> <| ExternalOperation_DeploymentState := "READY_FOR_VERIFICATION" |>
    <| ExternalOperation_ChildIDs := ["ORIGIN"] |>.
Definition built_snapshot : DeliverySnapshot :=
  prepared_snapshot <| DeliverySnapshot_Revision := mkIntegrationRevision (at_meta "MAIN" "") "" "REPO" "main" "" sha2 [] |>.
Definition image_found : ArtifactResult := mkArtifactResult true zero_digest "" 100%Z.
Definition origin : ExternalOperation :=
  (zero : ExternalOperation) <| ExternalOperation_Meta := mkMeta "ORIGIN" "P" "" "bob" 5%Z 5%Z |> <| ExternalOperation_Kind := "DEPLOY" |>
    <| ExternalOperation_ParentID := ID built_candidate |> <| ExternalOperation_BuildOnly := true |> <| ExternalOperation_ApplicationID := "A" |>
    <| ExternalOperation_Status := "SUCCEEDED" |> <| ExternalOperation_DeploymentState := "ARTIFACT_READY" |>
    <| ExternalOperation_Snapshot := Some built_snapshot |> <| ExternalOperation_Artifact := Some image_found |>.
Definition image_receipt : WorkerLocalOCI :=
  (zero : WorkerLocalOCI) <| WorkerLocalOCI_JobID := "BUILD" |> <| WorkerLocalOCI_AttemptID := "BUILT" |>
    <| WorkerLocalOCI_RecipeHash := zero_digest |> <| WorkerLocalOCI_ManifestDigest := zero_digest |>.
Definition source_inputs : WorkerInputs :=
  (zero : WorkerInputs) <| WorkerInputs_RepositoryID := "REPO" |> <| WorkerInputs_SourceSHA := sha2 |>.
Definition build_job : WorkerJob :=
  (zero : WorkerJob) <| WorkerJob_Meta := at_meta "BUILD" "" |> <| WorkerJob_Status := "SUCCEEDED" |> <| WorkerJob_Inputs := source_inputs |>.
Definition publish_job : WorkerJob :=
  (zero : WorkerJob) <| WorkerJob_Meta := at_meta "PUBLISH" "" |> <| WorkerJob_Status := "SUCCEEDED" |> <| WorkerJob_Capability := "registry_publish" |>
    <| WorkerJob_OperationID := "ORIGIN" |> <| WorkerJob_InputHash := zero_digest |>
    <| WorkerJob_Inputs := source_inputs <| WorkerInputs_RecipeID := "publish" |> <| WorkerInputs_RecipeRevision := "1" |>
         <| WorkerInputs_RecipeHash := zero_digest |> <| WorkerInputs_ConfigRevision := "r1" |>
         <| WorkerInputs_Publication := Some (mkWorkerPublication "A" "release" "https://registry" "team/app" image_receipt) |> |>.
Definition ended_attempt (id job : string) (input : string) (report : WorkerReport) : WorkerAttempt :=
  (zero : WorkerAttempt) <| WorkerAttempt_Meta := at_meta id "" |> <| WorkerAttempt_JobID := job |> <| WorkerAttempt_InputHash := input |>
    <| WorkerAttempt_Status := "SUCCEEDED" |> <| WorkerAttempt_Report := Some report |>.
Definition image_built : WorkerAttempt := ended_attempt "BUILT" "BUILD" "" ((zero : WorkerReport) <| WorkerReport_LocalOCI := Some image_receipt |>).
Definition published_attempt : WorkerAttempt :=
  ended_attempt "PUBLISHED" "PUBLISH" zero_digest
    ((zero : WorkerReport) <| WorkerReport_Result := "PASSED" |> <| WorkerReport_Publication := Some (mkWorkerPublicationReport zero_digest) |>).
Definition native_artifact : DeliveryArtifact :=
  RestorationWitnesses.an_artifact <| DeliveryArtifact_ImageRepository := native_repository |> <| DeliveryArtifact_SourceCommit := sha2 |>
    <| DeliveryArtifact_Availability := "PRESENT" |> <| DeliveryArtifact_Provenance := "NATIVE_WORKER" |>
    <| DeliveryArtifact_OperationID := "ORIGIN" |>
    <| DeliveryArtifact_Native := Some (mkNativeArtifact "PUBLISH" "PUBLISHED" zero_digest "release" image_receipt
         ((zero : NativeObservation) <| NativeObservation_ManifestDigest := zero_digest |> <| NativeObservation_ObservedAt := 100%Z |>) None) |>.

(** The environment in Dev, its reservation and the activation. *)
Definition dev_environment : Environment := cluster_environment <| Environment_Meta := at_meta "DEV" "" |>.
Definition dev_binding : EnvironmentBinding :=
  (a_target "PR") <| EnvironmentBinding_Meta := at_meta "DEB" "" |> <| EnvironmentBinding_EnvironmentID := "DEV" |>
    <| EnvironmentBinding_Path := "dev.yaml" |>.
Definition activated_snapshot : DeliverySnapshot :=
  built_snapshot <| DeliverySnapshot_Target := dev_binding |> <| DeliverySnapshot_Environment := dev_environment |>
    <| DeliverySnapshot_GitOpsRequest ::= fun r => r <| GitOpsRequest_Path := "dev.yaml" |> |>.
Definition selector : GitOpsRequest := DeliverySnapshot_GitOpsRequest activated_snapshot.
Definition original : DevRuntimeGitOpsObservation := mkDevRuntimeGitOpsObservation native_repository sha1 sha2 zero_digest zero_digest.
Definition in_dev (id kind : string) : ExternalOperation :=
  (zero : ExternalOperation) <| ExternalOperation_Meta := mkMeta id "P" "" "bob" 5%Z 5%Z |> <| ExternalOperation_Kind := kind |>
    <| ExternalOperation_Status := "SUCCEEDED" |> <| ExternalOperation_EnvironmentID := "DEV" |> <| ExternalOperation_RequestedBy := "bob" |>
    <| ExternalOperation_ReservationEpoch := 1%Z |>.
Definition dev_reservation : ExternalOperation :=
  (in_dev "DEVHOLD" "DEV_RESERVATION") <| ExternalOperation_Phase := "RESERVED" |> <| ExternalOperation_RequestKey := "reserve-key-00001" |>
    <| ExternalOperation_DevReservation := Some
         ((zero : DevReservationProof) <| DevReservationProof_CandidateOperationID := ID built_candidate |>
            <| DevReservationProof_CandidateHash := zero_digest |> <| DevReservationProof_Epoch := 1%Z |>
            <| DevReservationProof_ReservedSelection := selected 5 |> <| DevReservationProof_Environment := dev_environment |>
            <| DevReservationProof_Targets := [dev_binding] |>) |>.
Definition dev_capture : ExternalOperation :=
  (in_dev "BASELINE" devBaselineKind) <| ExternalOperation_DevBaseline := Some
    ((zero : DevBaselineProof) <| DevBaselineProof_Components :=
       [(zero : DevBaselineComponent) <| DevBaselineComponent_ApplicationID := "A" |> <| DevBaselineComponent_GitOps := selector |>
          <| DevBaselineComponent_ObservedGitOps := Some original |>] |>) |>.
Definition the_activation : ExternalOperation :=
  (in_dev "ACTIVATION" devActivationKind) <| ExternalOperation_DeploymentState := "GITOPS_APPLIED" |>
    <| ExternalOperation_RequestKey := "activate-key-0001" |> <| ExternalOperation_RequestHash := zero_digest |>
    <| ExternalOperation_ChildIDs := ["CHILD"] |> <| ExternalOperation_PreparedDeployments := [activated_snapshot] |>
    <| ExternalOperation_DevActivation := Some
         ((zero : DevActivationProof) <| DevActivationProof_BaselineCaptureID := "BASELINE" |>
            <| DevActivationProof_Request := mkDevReservationRequest "" "" "DEVHOLD" "activate-key-0001" (Some (selected 5)) |>
            <| DevActivationProof_ReservationOperationID := "DEVHOLD" |> <| DevActivationProof_ReservationHash := zero_digest |>
            <| DevActivationProof_CandidateOperationID := ID built_candidate |> <| DevActivationProof_CandidateHash := zero_digest |>
            <| DevActivationProof_Components := [mkDevActivationComponent zero_digest selector original "CHILD" "ORIGIN" native_artifact activated_snapshot] |>
            <| DevActivationProof_Groups := [mkDevActivationGroup zero_digest "CHILD" ["CHILD"] zero "42" "main"] |>
            <| DevActivationProof_SnapshotHash := zero_digest |>) |>.
Definition merged_pr_of_group : GitOpsPullRequest := mkGitOpsPullRequest 9 "https://pr" sha3 "closed" true (Some 200%Z).
Definition applied_child_operation : ExternalOperation :=
  (in_dev "CHILD" "DEPLOY") <| ExternalOperation_ParentID := "ACTIVATION" |> <| ExternalOperation_ApplicationID := "A" |>
    <| ExternalOperation_DeploymentState := "GITOPS_APPLIED" |> <| ExternalOperation_Phase := "WAIT_GITOPS_PR" |>
    <| ExternalOperation_Snapshot := Some activated_snapshot |> <| ExternalOperation_ExistingArtifact := Some native_artifact |>
    <| ExternalOperation_ExpectedDigest := zero_digest |> <| ExternalOperation_Artifact := Some image_found |>
    <| ExternalOperation_DevActivationGroupID := zero_digest |>
    <| ExternalOperation_GitOpsBase := Some (mkGitOpsSnapshot native_repository sha1 sha2 "" zero_digest) |>
    <| ExternalOperation_DevActivationBatch := Some (mkGitOpsBatchApply "42" "main" sha1 "CHILD" "release-control: CHILD"
         [mkGitOpsImageChange "CHILD" selector sha2 native_repository zero_digest]) |>
    <| ExternalOperation_DevActivationIntentHash := zero_digest |> <| ExternalOperation_GitOpsPR := Some merged_pr_of_group |>
    <| ExternalOperation_DevActivationPRHash := zero_digest |>
    <| ExternalOperation_GitOpsResult := Some (mkGitOpsResult sha3 sha2 "https://pr" false) |>
    <| ExternalOperation_DevActivationResultHash := zero_digest |>.
Definition activated_state : State :=
  profiled <| State_Environments := [an_environment; dev_environment] |> <| State_EnvironmentBindings := [a_production_target; dev_binding] |>
    <| State_DeliveryArtifacts := [native_artifact] |> <| State_WorkerJobs := [build_job; publish_job] |>
    <| State_WorkerAttempts := [image_built; published_attempt] |>
    <| State_Operations := [built_candidate; origin; dev_reservation; dev_capture; the_activation; applied_child_operation] |>.

(** ** The verification *)
Definition dev_scope : RuntimeVerificationScope := bound_scope <| RuntimeVerificationScope_EnvironmentID := "DEV" |>.
#[local] Instance dev_observer : Observers :=
  {| runtimeObservers := fun _ => [mkRuntimeObserver (mkRuntimeTarget "P" "DEV" "A") (Some (Some dev_scope))] |}.
Definition verify_command : Command :=
  command "verify_candidate_dev_runtime"
    [("activation_operation_id", JStr "ACTIVATION"); ("request_key", JStr "verify-key-000001");
     ("expected_selection", JObj [("composition_id", JStr "C"); ("operation_id", JStr ""); ("generation", JNum "5")])].
Definition verifying : State := leased (match executeDevRuntime verify_command activated_state with Ok (st, _) => st | Err _ => activated_state end).
Definition dev_image : string := native_repository +:+ "@" +:+ zero_digest.
Definition dev_role : DeliveryRuntimeSnapshot :=
  observed_role <| DeliveryRuntimeSnapshot_EnvironmentID := "DEV" |> <| DeliveryRuntimeSnapshot_WorkloadImage := dev_image |>
    <| DeliveryRuntimeSnapshot_Pods := [mkRuntimePod "app-1" "uid-1" "Running" dev_image zero_digest true] |>.
Definition running : Environment_replies :=
  mkReplies sample_world (fun A c => match c with
    | ReadGitOps _ _ => (mkGitOpsSnapshot native_repository sha1 sha2 "image" zero_digest, None)
    | SnapshotRuntime _ => (dev_role, None)
    | VerifyGitOpsRevision _ r => reply intact _ (VerifyGitOpsRevision zero r)
    | c => reply merging _ c
    end).
Definition until_verified : list Happening * Prog (res unit) :=
  execute (@writes) running 38 (tickDevRuntime (capture_of verifying) "T") verifying [].
Lemma runtime_verified_witness : exists after v, commits until_verified.2 verifying after
  /\ operationByID after (ID (capture_of verifying)) = Some v /\ ExternalOperation_Phase v = "RUNTIME_VERIFIED"
  /\ RuntimeVerified until_verified.1 verifying (capture_of verifying) v.
Proof.
  assert (Hn : left_in "RUNTIME_VERIFIED" (capture_of verifying) (next_commit until_verified.2 verifying) = true) by (vm_compute; reflexivity).
  apply left_in_spec in Hn as (after & v & E & Hv & Hp). apply next_commit_commits in E.
  destruct (proj2 (runtime_verified (capture_of verifying) "T" until_verified.1 until_verified.2 (execute_execution _ _ _ _ _ _ _ (execution_start _)))
              verifying after E) as (v' & He & Hends).
  rewrite (ends_found _ _ _ _ _ He) in Hv. injection Hv as ->. exists after, v. split; [exact E|]. split; [exact (ends_found _ _ _ _ _ He)|].
  split; [exact Hp|]. destruct Hends as [(_ & _ & Hr)|(_ & Hu)]; [exact Hr|]. rewrite Hu in Hp. discriminate Hp.
Defined.
