(* ===== verification/Witnesses.v ===== *)
(** * The theorems at work

    Each lemma applies one theorem of the development to a concrete run.  Two
    runs of [applyAuthorized] reach states the handlers otherwise rule out:
    the premises [AsciiCommand] and [action <> "set_external_scope"] of the
    planning invariants are needed. *)
From S2P Require Import Prelude GoText GoJson Delivery Domain Status Planning Handlers DeviceAuth Collections ExternalSystems Reservation WorkerAuth Composition Conflicts Scenarios Pins WorkerJobs Publications WorkerProtocol External Entities Commands Planner Samples.
Open Scope string_scope.
Open Scope list_scope.

(** ** Publications *)
Definition library : State :=
  sample <| State_Applications := [an_application <| Application_Kind := "LIBRARY" |>] |>
    <| State_PublicationTargets := [mkPublicationTarget (at_meta "T" "") "A" "NPM" "https://registry" "pkg"] |>.
Definition package_command (checksum : string) : Command :=
  command "record_package_artifact" [("application_id", JStr "A"); ("publication_target_id", JStr "T"); ("source_commit", JStr sha1);
    ("version", JStr "1.0.0"); ("checksum", JStr checksum); ("uri", JStr "https://registry/pkg")].
Definition published : State :=
  match applyPublication library (package_command zero_digest) (at_meta "N" "") with Ok (st, _, _) => st | Err _ => library end.
Lemma package_provenance_immutable_witness :
  State_PackageArtifacts library `prefix_of` State_PackageArtifacts published /\ (Provenance library -> Provenance published)
  /\ List.length (State_PackageArtifacts published) = 1
  /\ applyPublication published (package_command ("sha256:1" +:+ str_drop 8 zero_digest)) (at_meta "N2" "")
     = invalid "package version already has different immutable provenance" [].
Proof.
  destruct (package_provenance_immutable library published) as [Hp Hk].
  - apply rtc_once. unfold published. destruct (applyPublication library _ _) as [[[st out] m']|e] eqn:E.
    + exists (package_command zero_digest), (at_meta "N" ""), out, m'. split; [reflexivity|exact E].
    + ran E.
  - split; [exact Hp|]. split; [exact Hk|]. split; vm_compute; reflexivity.
Defined.

(** [ſtatus]: lower case, and not [status]. *)
Definition long_s_status : string := long_s +:+ "tatus".
Definition long_s_command : Command :=
  (command "update_integration" [(long_s_status, JStr "released")]) <| Command_IntegrationID := "I2" |>.
Definition status_of (st : State) (id : string) : option string := Integration_Status <$> integration st id.

(** The guards read keys exactly, [encoding/json] folds U+017F to [S]: an
    update whose only key is [ſtatus] passes every guard and releases a
    working integration, which no transition allows. *)
Theorem long_s_key_sets_status : exists st' out,
  applyAuthorized sample long_s_command = Ok (st', out)
  /\ has_key (Command_Data long_s_command) "status" = false
  /\ status_of sample "I2" = Some "working" /\ status_of st' "I2" = Some "released"
  /\ CanTransition "integration" "working" "released" = false.
Proof.
  destruct (applyAuthorized sample long_s_command) as [[st' out]|] eqn:E; [|ran E].
  exists st', out. split; [reflexivity|]. repeat split.
  assert (Hst : st' = match applyAuthorized sample long_s_command with Ok (s, _) => s | Err _ => st' end) by (rewrite E; reflexivity).
  rewrite Hst. clear. vm_compute. reflexivity.
Qed.

(** A completed feature whose one integration is ready and guarded by a gate. *)
Definition completed_state : State :=
  sample <| State_Integrations ::= fun l => l ++ [an_integration "I4" "F2" "ready" []] |>
    <| State_Gates ::= fun l => l ++ [a_gate <| Gate_Meta := at_meta "G2" "F2" |> <| Gate_IntegrationIDs := ["I4"] |>] |>.
Definition scope_command : Command := (command "set_external_scope" []) <| Command_GateID := "G2" |>.
Definition completed (st : State) (id : string) : option string := Feature_Status <$> feature st id.

(** A new external scope reopens the ready integrations of its gate but not
    their completed feature: it stays completed with unfinished work. *)
Theorem scope_leaves_completed_feature : CompletedWork completed_state /\ exists st' out,
  applyAuthorized completed_state scope_command = Ok (st', out)
  /\ completed st' "F2" = Some "completed" /\ status_of st' "I4" = Some "working"
  /\ ~ CompletedWork st'.
Proof.
  split.
  { intros f v Hf Hs Hv Hid.
    repeat (apply elem_of_cons in Hf as [->|Hf]; [|]); try (inversion Hf; fail); try discriminate;
      repeat (apply elem_of_cons in Hv as [->|Hv]; [|]); try (inversion Hv; fail); try discriminate; reflexivity. }
  destruct (applyAuthorized completed_state scope_command) as [[st' out]|] eqn:E; [|ran E].
  assert (Hst : st' = match applyAuthorized completed_state scope_command with Ok (s, _) => s | Err _ => st' end) by (rewrite E; reflexivity).
  assert (Hf : completed st' "F2" = Some "completed") by (rewrite Hst; clear; vm_compute; reflexivity).
  assert (Hv : status_of st' "I4" = Some "working") by (rewrite Hst; clear; vm_compute; reflexivity).
  assert (Hid : (FeatureID <$> integration st' "I4") = Some "F2") by (rewrite Hst; clear; vm_compute; reflexivity).
  exists st', out. split; [reflexivity|]. split; [exact Hf|]. split; [exact Hv|]. clear Hst E. intros Hcw.
  apply fmap_Some in Hf as (f & Hf & Hfs). apply fmap_Some in Hv as (v & Hv & Hvs). rewrite Hv in Hid. injection Hid as Hid.
  apply feature_Some in Hf as [Hf Hfid]. apply integration_Some in Hv as [Hv _].
  specialize (Hcw f v Hf (eq_sym Hfs) Hv ltac:(congruence)). change (ready_status (Integration_Status v) = true) in Hcw. change ("working" = Integration_Status v) in Hvs.
  rewrite <- Hvs in Hcw. discriminate.
Qed.

(** ** Planning *)
Definition ready_command : Command := (command "complete_integration" []) <| Command_IntegrationID := "I2" |>.
Definition release_command : Command :=
  command "plan_release" [("name", JStr "r1"); ("integration_ids", strings ["I1"; "I3"]); ("excluded_integration_ids", strings ["I2"])].
Lemma planned_release_closed_witness : exists st' out m' v,
  plan_release sample release_command (meta release_command) = Ok (st', out, m')
  /\ out = OutRelease v /\ Release_Status v = "planned".
Proof.
  destruct (plan_release sample release_command (meta release_command)) as [[[st' out] m']|] eqn:E; [|ran E].
  destruct (planned_release_closed _ _ _ _ _ _ E) as (v & -> & _ & Hs & _). exists st', (OutRelease v), m', v. auto.
Defined.
Definition blocked_finding : Finding :=
  (zero : Finding) <| Finding_Meta := at_meta "FD" "F1" |> <| Finding_Status := "open" |> <| Finding_GateIDs := ["G"] |>.
Definition with_finding : State := sample <| State_Findings := [blocked_finding] |>.
Definition resolve_command : Command :=
  (command "resolve_finding" [("body", JStr "fixed"); ("commit", JStr sha1)]) <| Command_ID := "FD" |>.
Lemma resolve_finding_final_witness : exists st' out m',
  resolve_finding with_finding resolve_command (meta resolve_command) = Ok (st', out, m')
  /\ resolve_finding st' resolve_command (meta resolve_command) = invalid "finding already resolved" [].
Proof.
  destruct (resolve_finding with_finding resolve_command (meta resolve_command)) as [[[st' out] m']|] eqn:E; [|ran E].
  exists st', out, m'. split; [reflexivity|].
  destruct (resolve_finding_final _ _ _ _ _ _ E) as (_ & _ & _ & Hagain). apply Hagain. reflexivity.
Defined.

Lemma transition_effect_witness : exists st' out m',
  transition_integration sample ready_command (meta ready_command) = Ok (st', out, m')
  /\ exists v, integration st' "I2" = Some v /\ Integration_Status v = "ready".
Proof.
  destruct (transition_integration sample ready_command (meta ready_command)) as [[[st' out] m']|] eqn:E; [|ran E].
  exists st', out, m'. split; [reflexivity|].
  destruct (transition_effect _ _ _ _ _ _ E) as (old & v & _ & _ & Hv & Hs & _). exists v. split; [exact Hv|exact Hs].
Defined.

Lemma derived_gates_valid_witness : exists g, State_Gates (derive sample) = [g] /\ ValidStatus "gate_result" (Gate_Result g) = true.
Proof.
  exists (a_gate <| Gate_Result := gateResult sample a_gate |>). split; [reflexivity|].
  apply (derived_gates_valid sample).
  - intros r [->|Hr]%elem_of_cons; [reflexivity|inversion Hr].
  - apply list_elem_of_here.
Defined.

Definition move_command : Command := (command "update_environment" [("namespace", JStr "ns")]) <| Command_ID := "E" |>.
Lemma move_keys key : has_key (Command_Data move_command) key = true -> key = "namespace".
Proof.
  intros [v Hv]%bool_decide_eq_true. unfold move_command, command in Hv. cbn in Hv.
  apply lookup_insert_Some in Hv as [[<- _]|[_ Hv]]; [reflexivity|]. rewrite lookup_empty in Hv. discriminate.
Qed.
Lemma update_environment_fenced_witness : exists st' out m',
  update_environment sample move_command (meta move_command) = Ok (st', out, m')
  /\ exists v, out = OutEnvironment v /\ Environment_DesiredCompositionID v = "" /\ Environment_SelectionGeneration v = 4%Z.
Proof.
  destruct (update_environment sample move_command (meta move_command)) as [[[st' out] m']|] eqn:E; [|ran E].
  exists st', out, m'. split; [reflexivity|].
  destruct (update_environment_fenced _ _ _ _ _ _ E) as (old & v & Hold & -> & Hst & _ & _ & _ & Hmove).
  - intros key Hk%move_keys. subst. reflexivity.
  - intros key Hin. apply not_true_iff_false. intros Hk%move_keys. subst. revert Hin. apply not_listed. reflexivity.
  - exists v. split; [reflexivity|]. injection Hold as <-.
    destruct ((_ == Environment_Cluster v) && _) eqn:Em; [|destruct Hmove as (_ & -> & _ & _ & ->); split; reflexivity].
    vm_compute in E. injection E as _ <- _. vm_compute in Em. discriminate.
Defined.

(** ** Commands *)
Lemma every_change_is_audited_witness : exists st' out,
  applyAuthorized sample ready_command = Ok (st', out) /\ (st' = sample \/ State_Events st' <> []).
Proof.
  destruct (applyAuthorized sample ready_command) as [[st' out]|] eqn:E; [|ran E].
  exists st', out. split; [reflexivity|].
  destruct (every_change_is_audited _ _ _ _ E) as [[? _]|(logged & e & -> & _)]; [left; assumption|right].
  destruct (State_Events sample), logged; discriminate.
Defined.
Lemma ready_command_core : AsciiCommand ready_command.
Proof.
  intros k [v Hv]%bool_decide_eq_true. 
  unfold ready_command, command in Hv. cbn in Hv. rewrite lookup_empty in Hv. discriminate.
Qed.
Lemma sample_unused : fresh "meta" 0 ∉ state_ids sample.
Proof. intros Hin. revert Hin. apply not_listed. vm_compute. reflexivity. Qed.
Lemma commands_refine_plan_witness : exists st' out, applyAuthorized sample ready_command = Ok (st', out)
  /\ PlanStep "complete_integration" sample (State_Features st') (State_Integrations st').
Proof.
  destruct (applyAuthorized sample ready_command) as [[st' out]|] eqn:E; [|ran E].
  exists st', out. split; [reflexivity|].
  apply (commands_refine_plan _ _ _ _ E ready_command_core sample_unused).
Defined.
Lemma accepted_commands_guarded_witness : exists st' out, applyAuthorized sample ready_command = Ok (st', out)
  /\ Accepted sample ready_command.
Proof.
  destruct (applyAuthorized sample ready_command) as [[st' out]|] eqn:E; [|ran E].
  exists st', out. split; [reflexivity|]. apply (accepted_commands_guarded _ _ _ _ E).
Defined.
Lemma ready_is_earned_witness : exists st' out, applyAuthorized sample ready_command = Ok (st', out)
  /\ forall v, v ∈ State_Integrations st' -> Integration_Status v = "ready" ->
       (exists old, old ∈ State_Integrations sample /\ ID old = ID v /\ Integration_Status old = "ready")
       \/ exists old, integration sample (ID v) = Some old /\ Ready sample old.
Proof.
  destruct (applyAuthorized sample ready_command) as [[st' out]|] eqn:E; [|ran E].
  exists st', out. split; [reflexivity|]. intros v Hv Hs.
  apply (ready_is_earned _ _ _ _ _ E ready_command_core sample_unused Hv Hs).
Defined.

(** One command is a history. *)
Lemma sample_ids : PlanIDs sample.
Proof. constructor; apply (bool_decide_unpack _); vm_compute; exact I. Qed.
Lemma sample_acyclic : Acyclic sample.
Proof.
  intros i Hi. assert (Hrank : forall x y, tc (depends sample) x y -> x = "I2" /\ y = "I1").
  { intros x y Hxy. induction Hxy as [x y (v & Hv & Hd)|x y z (v & Hv & Hd) _ [-> ->]];
      apply integration_Some in Hv as [Hv <-]; repeat (apply elem_of_cons in Hv as [->|Hv]; [|]); try (inversion Hv; fail);
      repeat (apply elem_of_cons in Hd as [Hd|Hd]; [|]); try (inversion Hd; fail); try discriminate; auto. }
  apply Hrank in Hi as [-> E]. discriminate E.
Qed.
Lemma planning_keeps_graph_acyclic_witness : exists st' out, applyAuthorized sample ready_command = Ok (st', out) /\ Acyclic st'.
Proof.
  destruct (applyAuthorized sample ready_command) as [[st' out]|] eqn:E; [|ran E]. exists st', out. split; [reflexivity|].
  refine (proj2 (planning_keeps_graph_acyclic sample st' (rtc_once _ _ _) sample_ids sample_acyclic)).
  exists sample_world, ready_command, out. auto using ready_command_core, sample_unused.
Defined.
Lemma released_integrations_frozen_witness : exists st' out, applyAuthorized sample ready_command = Ok (st', out)
  /\ an_integration "I3" "F2" "released" [] ∈ State_Integrations st'.
Proof.
  destruct (applyAuthorized sample ready_command) as [[st' out]|] eqn:E; [|ran E]. exists st', out. split; [reflexivity|].
  apply (released_integrations_frozen sample st'); [|reflexivity|right; right; left].
  apply rtc_once. exists sample_world, ready_command, out.
  split; [apply ready_command_core|split; [apply sample_unused|split; [discriminate|exact E]]].
Defined.
Lemma sample_completed : CompletedWork sample.
Proof.
  intros f v Hf Hs Hv Hid.
  repeat (apply elem_of_cons in Hf as [->|Hf]; [|]); try (inversion Hf; fail); try discriminate;
    repeat (apply elem_of_cons in Hv as [->|Hv]; [|]); try (inversion Hv; fail); try discriminate; reflexivity.
Qed.
Lemma completed_features_finished_witness : exists st' out, applyAuthorized sample ready_command = Ok (st', out) /\ CompletedWork st'.
Proof.
  destruct (applyAuthorized sample ready_command) as [[st' out]|] eqn:E; [|ran E]. exists st', out. split; [reflexivity|].
  refine (completed_features_finished sample st' (rtc_once _ _ _) sample_ids sample_completed).
  exists sample_world, ready_command, out.
  split; [apply ready_command_core|split; [apply sample_unused|split; [discriminate|exact E]]].
Defined.
(** A flow that queues one operation for the environment. *)
Definition queued : ExternalOperation :=
  (zero : ExternalOperation) <| ExternalOperation_Meta := at_meta "OP" "" |> <| ExternalOperation_EnvironmentID := "E" |>.
Definition queueing : Subsystems := {|
  applyFlow := fun _ st _ m => Ok (st <| State_Operations ::= fun l => l ++ [queued] |>, OutOperation queued, m);
  replayFeatureUpdate := fun _ _ => Ok None
|}.
Definition reserved_before : State := sample <| State_Environments := [an_environment <| Environment_ReservationEpoch := 5%Z |>] |>.
Definition assemble_command : Command := command "assemble_environment" [("environment_id", JStr "E")].
Definition assembled : res (State * Out) := applyAuthorized (H8 := queueing) reserved_before assemble_command.
Lemma added_operations_stamped_witness : exists st' out op, assembled = Ok (st', out)
  /\ State_Operations st' !! 0 = Some op /\ ExternalOperation_ReservationEpoch op = 5%Z.
Proof.
  destruct assembled as [[st' out]|] eqn:E; [|ran E].
  assert (Hst : st' = match assembled with Ok (s, _) => s | Err _ => st' end) by (rewrite E; reflexivity).
  assert (Hop : exists op, State_Operations st' !! 0 = Some op /\ ExternalOperation_EnvironmentID op = "E").
  { rewrite Hst. clear. eexists. split; vm_compute; reflexivity. }
  assert (He : exists e, environmentByID st' "E" = Some e /\ Environment_ReservationEpoch e = 5%Z).
  { rewrite Hst. clear. eexists. split; vm_compute; reflexivity. }
  destruct Hop as (op & Hop & Hid), He as (e & He & <-). rewrite <- Hid in He.
  exists st', out, op. split; [reflexivity|split; [exact Hop|]].
  apply (added_operations_stamped _ _ _ _ op e 0 E Hop); [apply Nat.le_0_l|exact He].
Defined.

(** ** External systems *)
Definition a_system : ExternalSystem :=
  (zero : ExternalSystem) <| ExternalSystem_Meta := mkMeta "S1" "" "" "alice" 10%Z 10%Z |> <| ExternalSystem_Name := "billing" |>.
Definition with_system : State := sample <| State_ExternalSystems := [a_system] |>.
Definition system_command : Command := command "create_external_system" [("name", JStr "Ledger")].
Lemma external_system_names_stay_distinct_witness : exists st' out m',
  applyExternalSystems with_system system_command (meta system_command) = Ok (st', out, m') /\ SystemNamesDistinct st'.
Proof.
  destruct (applyExternalSystems with_system system_command (meta system_command)) as [[[st' out] m']|] eqn:E; [|ran E].
  exists st', out, m'. split; [reflexivity|].
  apply (external_system_names_stay_distinct _ _ _ _ _ _ E); [apply list.NoDup_singleton|].
  clear E. intros i j x y Hi Hj Hne.
  apply list_lookup_singleton_Some in Hi as [-> _]. apply list_lookup_singleton_Some in Hj as [-> _]. contradiction.
Defined.
Definition gate_scope_command : Command := (command "set_external_scope" []) <| Command_GateID := "G" |>.
Lemma gate_scope_needs_fresh_evidence_witness : exists st' out m',
  set_external_scope sample gate_scope_command (meta gate_scope_command) = Ok (st', out, m')
  /\ gateResult sample a_gate = "passed" /\ gateResult st' a_gate = "pending".
Proof.
  destruct (set_external_scope sample gate_scope_command (meta gate_scope_command)) as [[[st' out] m']|] eqn:E; [|ran E].
  exists st', out, m'. split; [reflexivity|]. split; [vm_compute; reflexivity|].
  apply (gate_scope_needs_fresh_evidence _ _ _ _ _ _ a_gate E); [discriminate|reflexivity|].
  intros r [->|Hr]%elem_of_cons; [reflexivity|inversion Hr].
Defined.

(** ** Compositions *)
Definition a_revision : IntegrationRevision :=
  (zero : IntegrationRevision) <| IntegrationRevision_Meta := at_meta "V1" "F1" |> <| IntegrationRevision_IntegrationID := "I1" |>
    <| IntegrationRevision_RepositoryID := "REPO" |> <| IntegrationRevision_BaseCommit := sha1 |> <| IntegrationRevision_HeadCommit := sha2 |>.
Definition a_binding : RepositoryBinding :=
  (zero : RepositoryBinding) <| RepositoryBinding_Meta := at_meta "B" "" |> <| RepositoryBinding_RepositoryID := "REPO" |>
    <| RepositoryBinding_Role := "APPLICATION" |> <| RepositoryBinding_DefaultBranch := "main" |>.
Definition with_revision : State :=
  sample <| State_IntegrationRevisions := [a_revision] |> <| State_RepositoryBindings := [a_binding] |>.
Definition component_json : json :=
  JObj [("application_id", JStr "A"); ("base_ref", JStr "main"); ("base_commit", JStr sha1);
        ("target_branch", JStr "generated/E/C1/REPO"); ("revision_ids", strings ["V1"])].
Definition plan_command : Command :=
  command "plan_composition" [("environment_id", JStr "E"); ("name", JStr "c1"); ("components", JArr [component_json])].
Lemma plan_composition_wellformed_witness : exists st' out m' v,
  plan_composition with_revision plan_command (meta plan_command) = Ok (st', out, m')
  /\ State_Compositions st' = [v] /\ CompositionWF with_revision "P" v.
Proof.
  destruct (plan_composition with_revision plan_command (meta plan_command)) as [[[st' out] m']|] eqn:E; [|ran E].
  destruct (plan_composition_wellformed _ _ _ _ _ _ E) as (v & _ & Hst & _ & _ & _ & Hwf).
  exists st', out, m', v. split; [reflexivity|]. split; [exact Hst|exact Hwf].
Defined.
Definition assembled_components := assembleComponents with_revision "P" "E" "C1" [].
Lemma assemble_components_faithful_witness : exists comps, assembled_components = Ok comps
  /\ forall c, c ∈ comps -> CompositionComponent_TargetBranch c = "generated/E/C1/REPO".
Proof.
  destruct assembled_components as [comps|] eqn:E; [|ran E]. exists comps. split; [reflexivity|]. intros c Hc.
  destruct (assemble_components_faithful _ _ _ _ _ _ E) as (_ & Hcomp & _).
  destruct (Hcomp c Hc) as (app & Happ & _ & _ & _ & -> & _). apply elem_of_cons in Happ as [->|Happ]; [reflexivity|inversion Happ].
Defined.

(** ** Pins *)
Definition pin_command (key : string) : Command :=
  command "pin_artifact" [("application_id", JStr "A"); ("image_repository", JStr "registry.example.com/app"); ("digest", JStr zero_digest);
                          ("purpose", JStr "manual"); ("request_key", JStr key)].
Definition pinned := applyArtifactPin sample (pin_command "k1") (meta (pin_command "k1")).
Lemma artifact_pin_retry_witness : exists st' out m', pinned = Ok (st', out, m', true)
  /\ applyArtifactPin st' (pin_command "k1") (meta (pin_command "k1")) = Ok (st', out, m', false).
Proof.
  destruct pinned as [[[[st' out] m'] changed]|] eqn:E; [|ran E].
  pose proof E as Hrun. unfold pinned in Hrun.
  destruct (artifact_pin_retry sample (pin_command "k1") (meta (pin_command "k1")) _ _ _ _ eq_refl Hrun sample_world (meta (pin_command "k1"))) as (out2 & m2' & Hagain & -> & ->).
  exists st', out, m'. split; [|exact Hagain]. assert (changed = true) as -> by (vm_compute in E; congruence). reflexivity.
Defined.
Lemma artifact_pins_durable_witness : exists st' out m', pinned = Ok (st', out, m', true) /\ PinKeysUnique st'.
Proof.
  destruct pinned as [[[[st' out] m'] changed]|] eqn:E; [|ran E].
  exists st', out, m'. assert (changed = true) as -> by (vm_compute in E; congruence). split; [reflexivity|].
  destruct (artifact_pins_durable sample st') as (_ & _ & Hkeys).
  - apply rtc_once. exists sample_world, (pin_command "k1"), (meta (pin_command "k1")), out, m', true. split; [reflexivity|exact E].
  - apply Hkeys. clear E Hkeys. intros i j x y Hi. destruct i; discriminate Hi.
Defined.
Definition delete_command : Command := command "delete_product" [("name", JStr "prod")].
Lemma delete_product_exact_witness : exists st', deleteProduct sample delete_command = Ok st' /\ State_Events st' = State_Events sample.
Proof.
  destruct (deleteProduct sample delete_command) as [st'|] eqn:E; [|ran E].
  exists st'. split; [reflexivity|]. apply (delete_product_exact _ _ _ E).
Defined.

(** ** Conflicts *)
Definition a_conflict : CompositionConflict :=
  (zero : CompositionConflict) <| CompositionConflict_Meta := at_meta "CF" "" |> <| CompositionConflict_CompositionID := "C" |>
    <| CompositionConflict_RepositoryID := "REPO" |> <| CompositionConflict_Status := "requires_resolution" |>
    <| CompositionConflict_Integrations := [an_integration "I1" "F1" "ready" []] |>.
Definition claimed_conflict : CompositionConflict :=
  a_conflict <| CompositionConflict_Status := "claimed" |> <| CompositionConflict_ClaimedBy := "bob" |>.
Definition recorded_conflict : CompositionConflict :=
  claimed_conflict <| CompositionConflict_ResolutionCommit := sha1 |> <| CompositionConflict_Rationale := "merged by hand" |>
    <| CompositionConflict_Status := "verification_required" |>.
(** A merge conflict of a composition with one integration, recorded by a worker. *)
Definition conflicting : ExternalOperation :=
  (zero : ExternalOperation) <| ExternalOperation_Meta := at_meta "OP" "" |>
    <| ExternalOperation_CompositionSnapshot := Some ((zero : Composition) <| Composition_Meta := at_meta "C" "" |>
         <| Composition_RevisionSnapshots := [(zero : IntegrationRevision) <| IntegrationRevision_IntegrationID := "I1" |>
              <| IntegrationRevision_RepositoryID := "REPO" |>] |>) |>.
Definition conflict_source : FlowSource := (zero : FlowSource) <| FlowSource_RepositoryID := "REPO" |>.
Definition detected : CompositionConflict := frozen_conflict sample conflicting conflict_source 20%Z.
Definition conflict_command (action : string) (data : list (string * json)) : Command :=
  command action (("conflict_id", JStr (ID detected)) :: data).
Definition holding (v : CompositionConflict) : State := sample <| State_CompositionConflicts := [v] |>.
Definition handles (c : Command) (v : CompositionConflict) : CompositionConflict :=
  match applyCompositionConflict (holding v) c (meta c) with Ok (_, OutConflict v', _) => v' | _ => v end.
Lemma handles_step h v c : History detected h v ->
  match decode (Command_Data c) (zero : ConflictInput) with
  | Ok input => bool_decide (conflictByID (holding v) (ConflictInput_ConflictID input) = Some v)
  | Err _ => false
  end = true ->
  match applyCompositionConflict (holding v) c (meta c) with Ok (_, OutConflict _, _) => true | _ => false end = true ->
  History detected (h ++ [(holding v, c)]) (handles c v).
Proof.
  intros Hh Hd Ha. eapply history_command; [exact Hh|]. destruct (decode _ _) as [input|] eqn:E; [|discriminate].
  unfold handles. destruct (applyCompositionConflict _ _ _) as [[[st' []] m']|] eqn:E'; try discriminate.
  exists sample_world, (meta c), st', m', input. apply bool_decide_eq_true in Hd. auto.
Qed.
Definition claim_it := conflict_command "claim_composition_conflict" [].
Definition record_it := conflict_command "record_conflict_resolution" [("commit", JStr sha1); ("rationale", JStr "merged by hand")].
Definition verify_it := conflict_command "verify_conflict_resolution" [("result_ids", strings ["R"])].
Definition after_claim := handles claim_it detected.
Definition after_record := handles record_it after_claim.
Definition after_verify := handles verify_it after_record.
Lemma conflict_protocol_safe_witness : exists h, History detected h after_verify
  /\ CompositionConflict_Status after_verify = "resolved" /\ Claimed h after_claim /\ Resolved h after_verify.
Proof.
  assert (H1 : History detected [(holding detected, claim_it)] after_claim).
  { apply (handles_step []); [apply history_start|vm_compute; reflexivity|vm_compute; reflexivity]. }
  assert (H2 : History detected [(holding detected, claim_it); (holding after_claim, record_it)] after_record).
  { apply (handles_step [_]); [exact H1|vm_compute; reflexivity|vm_compute; reflexivity]. }
  assert (H3 : History detected [(holding detected, claim_it); (holding after_claim, record_it); (holding after_record, verify_it)] after_verify).
  { apply (handles_step [_; _]); [exact H2|vm_compute; reflexivity|vm_compute; reflexivity]. }
  assert (Hr : CompositionConflict_Status after_verify = "resolved") by (vm_compute; reflexivity).
  eexists. split; [exact H3|]. split; [exact Hr|].
  destruct (conflict_protocol_safe sample conflicting conflict_source 20%Z _ _ H1) as (_ & Hc & _).
  destruct (conflict_protocol_safe sample conflicting conflict_source 20%Z _ _ H3) as (_ & _ & _ & Hv & _).
  split; [|exact (Hv Hr)]. destruct Hc as (st & c & Hin & Hc); [vm_compute; reflexivity|]. exists st, c. split; [|exact Hc].
  apply list_elem_of_singleton in Hin as ->. left.
Defined.
Lemma conflict_evidence_sound_witness :
  validateConflictResolutionEvidence sample recorded_conflict ["R"] = Ok () /\ NoDup ["R"].
Proof.
  assert (E : validateConflictResolutionEvidence sample recorded_conflict ["R"] = Ok ()) by (vm_compute; reflexivity).
  split; [exact E|]. assert (Hc : NoDup (map ID (State_Checks sample))) by apply list.NoDup_singleton.
  apply (conflict_evidence_sound _ _ _ E Hc).
Defined.
Definition resolved_conflict : CompositionConflict :=
  recorded_conflict <| CompositionConflict_Status := "resolved" |> <| CompositionConflict_ResultIDs := ["R"] |>.
Definition with_conflict : State := sample <| State_CompositionConflicts := [resolved_conflict] |>.
Definition a_source : FlowSource := (zero : FlowSource) <| FlowSource_RepositoryID := "REPO" |>.
Definition a_composition : Composition :=
  (zero : Composition) <| Composition_Meta := at_meta "C" "" |> <| Composition_EnvironmentID := "E" |>
    <| Composition_EnvironmentSnapshot := an_environment |>.
Definition attached := attachConflictResolutions with_conflict a_composition [a_source] ["CF"].
Lemma attached_resolutions_verified_witness : exists out, attached = Ok out /\ length out = 1.
Proof.
  destruct attached as [out|] eqn:E; [|ran E]. exists out. split; [reflexivity|].
  pose proof (attached_resolutions_verified _ _ _ _ _ E) as Hall. apply Forall2_length in Hall. symmetry. exact Hall.
Defined.

(** ** Scenarios *)
Definition a_scenario : ScenarioVersion :=
  (zero : ScenarioVersion) <| ScenarioVersion_Meta := at_meta "SV1" "" |> <| ScenarioVersion_ScenarioID := "SC" |>
    <| ScenarioVersion_Version := 1%Z |> <| ScenarioVersion_IntegrationIDs := ["I1"] |>.
Definition a_child : ExternalOperation :=
  (zero : ExternalOperation) <| ExternalOperation_Meta := at_meta "CHILD" "" |> <| ExternalOperation_Status := "SUCCEEDED" |>
    <| ExternalOperation_Snapshot := Some ((zero : DeliverySnapshot) <| DeliverySnapshot_Application := an_application |>
                                             <| DeliverySnapshot_Revision := a_revision |>) |>
    <| ExternalOperation_Artifact := Some ((zero : ArtifactResult) <| ArtifactResult_Available := true |> <| ArtifactResult_Digest := zero_digest |>) |>.
Definition a_candidate : ExternalOperation :=
  (zero : ExternalOperation) <| ExternalOperation_Meta := at_meta "CAND" "" |> <| ExternalOperation_Kind := "RELEASE_CANDIDATE" |>
    <| ExternalOperation_Status := "SUCCEEDED" |> <| ExternalOperation_DeploymentState := "READY_FOR_VERIFICATION" |>
    <| ExternalOperation_IntegrationIDs := ["I1"] |> <| ExternalOperation_ChildIDs := ["CHILD"] |>.
Definition with_scenario : State :=
  sample <| State_ScenarioVersions := [a_scenario] |> <| State_Operations := [a_candidate; a_child] |>.
Definition revise_command : Command :=
  command "revise_test_scenario" [("scenario_id", JStr "SC"); ("integration_ids", strings ["I1"]); ("title", JStr "t");
    ("objective", JStr "o"); ("mechanism", JStr "m"); ("steps", strings ["s"]); ("expected_outcomes", strings ["e"])].
Lemma revise_scenario_monotone_witness : exists st' out m' v,
  put_scenario with_scenario revise_command (meta revise_command) = Ok (st', out, m') /\ latestScenario st' "SC" = Some v.
Proof.
  destruct (put_scenario with_scenario revise_command (meta revise_command)) as [[[st' out] m']|] eqn:E; [|ran E].
  destruct (revise_scenario_monotone _ _ _ _ _ _ E) as (v & Hout & _ & _ & _ & _ & Hlatest); [reflexivity| |].
  { intros w [->|Hw]%elem_of_cons; [split; [apply Z.leb_le|apply Z.ltb_lt]; reflexivity|inversion Hw]. }
  exists st', out, m', v. split; [reflexivity|].
  assert (Hid : ScenarioVersion_ScenarioID v = "SC").
  { subst out. vm_compute in E. injection E as _ <- _. reflexivity. }
  rewrite <- Hid. exact Hlatest.
Defined.
Definition run_json : json :=
  JObj [("application_id", JStr "A"); ("operation_id", JStr "CHILD"); ("source_sha", JStr sha2); ("artifact_digest", JStr zero_digest)].
Definition run_command_ : Command :=
  command "record_scenario_run" [("scenario_version_id", JStr "SV1"); ("candidate_operation_id", JStr "CAND"); ("result", JStr "passed");
    ("observations", strings ["ok"]); ("components", JArr [run_json])].
Lemma scenario_run_bound_witness : exists st' out m',
  record_scenario_run with_scenario run_command_ (meta run_command_) = Ok (st', out, m')
  /\ exists run, out = OutScenarioRun run /\ NoDup (map ScenarioComponentEvidence_ApplicationID (ScenarioRun_Components run)).
Proof.
  destruct (record_scenario_run with_scenario run_command_ (meta run_command_)) as [[[st' out] m']|] eqn:E; [|ran E].
  exists st', out, m'. split; [reflexivity|].
  destruct (scenario_run_bound _ _ _ _ _ _ E) as (run & t & d & Hout & _ & _ & _ & _ & _ & _ & _ & _ & Hnd & _).
  exists run. split; [exact Hout|exact Hnd].
Defined.

(** ** Reservations *)
Definition reservable : State :=
  sample <| State_Compositions := [a_composition] |>
    <| State_Operations := [a_candidate <| ExternalOperation_ChildIDs := [] |> <| ExternalOperation_MainCandidate := Some zero |>] |>.
Definition selection_json (generation : string) : json :=
  JObj [("composition_id", JStr "C"); ("operation_id", JStr ""); ("generation", JNum generation)].
Definition reserve_command : Command :=
  command "reserve_candidate_dev" [("request_key", JStr "0123456789abcdef"); ("expected_selection", selection_json "3");
    ("candidate_operation_id", JStr "CAND"); ("environment_id", JStr "E")].
Definition input_of (c : Command) : DevReservationRequest :=
  match devReservationInput c with Ok (i, _) => i | Err _ => zero end.
Definition reserving := dev_reservation_update reservable reserve_command (input_of reserve_command) zero_digest.
Lemma reservation_fences_environment_witness : exists st' op, reserving = Ok (st', op)
  /\ is_ok (reservationFree st' (ExternalOperation_EnvironmentID op)) = false.
Proof.
  destruct reserving as [[st' op]|] eqn:E; [|ran E]. exists st', op. split; [reflexivity|].
  apply (reservation_fences_environment _ _ _ _ _ _ E).
  - reflexivity.
  - vm_compute. reflexivity.
  - discriminate.
  - intros o [->|Ho]%elem_of_cons; [split; intros p Hp; discriminate Hp|inversion Ho].
Defined.
Lemma reservation_replay_idempotent_witness : exists st' op,
  executeDevReservation reservable reservable reserve_command = Ok (st', op)
  /\ executeDevReservation st' st' reserve_command = Ok (st', op).
Proof.
  destruct (executeDevReservation reservable reservable reserve_command) as [[st' op]|] eqn:E; [|ran E].
  exists st', op. split; [reflexivity|]. apply (reservation_replay_idempotent _ _ _ _ E).
Defined.
(** The reservation above, then its release. *)
Definition reserved_state : State := match reserving with Ok (st, _) => st | Err _ => zero end.
Definition release_dev_command : Command :=
  command "release_candidate_dev" [("request_key", JStr "fedcba9876543210"); ("expected_selection", selection_json "4");
    ("reservation_operation_id", JStr "meta")].
Definition releasing := dev_reservation_update reserved_state release_dev_command (input_of release_dev_command) zero_digest.
Lemma release_settles_own_reservation_witness : exists st' op, releasing = Ok (st', op)
  /\ exists hold, operationByID reserved_state "meta" = Some hold /\ ExternalOperation_RequestedBy hold = "bob".
Proof.
  destruct releasing as [[st' op]|] eqn:E; [|ran E]. exists st', op. split; [reflexivity|].
  assert (Hin : devReservationInput release_dev_command = Ok (input_of release_dev_command, zero_digest)) by (vm_compute; reflexivity).
  destruct (release_settles_own_reservation _ _ _ _ _ _ Hin E) as (hold & Hold & Hby & _).
  - reflexivity.
  - vm_compute. reflexivity.
  - exists hold. split; [|exact Hby]. rewrite <- Hold. f_equal. 
Defined.
